(* ===== verification/_CoqProject ===== *)
-Q . S2P
Prelude.v
PyValue.v
DateTime.v
Digest.v
JsonCodec.v
Contracts.v
Session.v
Approval.v
Collaboration.v
RuntimeBudget.v
SkillExecution.v
EventStore.v
ControlStore.v
DeliveryStore.v
TaskProjection.v
Relay.v
TaskService.v
RunnableFeed.v
Orchestrator.v
DeliveryWorker.v
Routing.v
CollaborationService.v
ApprovalModes.v
Policy.v
InvocationStore.v
GatewayCapacity.v
JsonSchema.v
ToolRegistry.v
Interleave.v
ToolGateway.v
SkillContracts.v
SkillWorkflow.v
WorkflowExecutor.v
SkillLifecycle.v
SkillUpgradeCleanup.v
RuntimeCommit.v
AgentRun.v
RepeatPolicy.v
ArtifactStore.v
ArtifactService.v
