(* ===== verification/Prelude.v ===== *)
(** * AuraClaw: a verification development

    AuraClaw runs long-lived agent tasks.  A Session is an event-sourced aggregate:
    commands raise events, the event store appends them with optimistic versions
    and, in the same step, writes a transactional outbox.  Workers claim outbox
    records: the projection builds the read model, delivery creates jobs for result
    sinks, control queues runs.  The control store hands runs to agent runtimes
    under leases with fencing tokens; a run may create Child Sessions (a task graph
    with limits), ask people for approvals, reserve its budget before each step,
    call tools through a gateway that asks the policy service, and run Skills, whose
    packages have a lifecycle of their own.

    ** Files and the code they model (paths under [src/src/auraclaw/])

    Foundations:
    - [Prelude]: exceptions and results, record update, Python dictionaries, stable
      sorting, the tactics and hints of the development.
    - [PyValue]: the Python values of payloads ([json]): access, truth, equality,
      iteration, [str], [int], [float] (IEEE binary64 through the Standard Library's
      [SpecFloat]), [dict], [strip].
    - [DateTime]: aware UTC datetimes as microseconds, [isoformat] and
      [fromisoformat], with their round trip.
    - [Digest]: canonical [json.dumps], UTF-8, SHA-1, SHA-256 and [uuid5], executable.
    - [JsonCodec]: [json.loads] over text and bytes, with its round trips.
    - [Interleave]: asynchronous functions as sequences of awaits, with what the others
      do before each and a cancellation at any, and the rules to reason about them.
    - [Contracts]: [contracts/{state,errors,approval_mode,events,commands}.py].

    Sessions and their stores:
    - [Session]: [domain/session.py]; the record [SessionAggregate] has the fields of
      the class, one definition per method, [apply] is the event reducer.
    - [Approval]: [domain/approval.py] and the records of [contracts/tools.py].
    - [Collaboration]: [domain/collaboration.py], [contracts/collaboration.py].
    - [RuntimeBudget]: [domain/runtime_budget.py].
    - [SkillExecution]: [domain/skill_execution.py].
    - [EventStore]: [infrastructure/persistence/memory_event_store.py] and the values
      of [session/ports.py]; it calls [govern] and [has_active_skill_reference].
    - [TaskService]: [session/task_service.py], every command over the event store, the
      snapshots and the relay; [CollaborationService]: [session/collaboration_service.py]
      with [Routing] for the plans of [contracts/routing.py].

    Outbox consumers:
    - [TaskProjection]: [projection/task/projector.py]; [Relay]: [projection/relay.py]
      over two type classes that the event store and the projection implement.
    - [DeliveryStore]: [infrastructure/delivery/{memory_job_store,common}.py],
      [contracts/delivery.py]; [DeliveryWorker]: [delivery/worker.py].
    - [RunnableFeed]: [control/runnable_feed.py].

    Control and runtime:
    - [ControlStore]: [infrastructure/persistence/memory_control_store.py] and the
      values of [control/ports.py]; [Orchestrator]: [control/orchestrator.py] and the
      fenced Session client of [runtime/clients.py].
    - [RuntimeCommit]: [runtime/{event_committer,execution_guard,progress_store,
      execution_state}.py] over both stores; [AgentRun]: [runtime/tool_round.py] and, of
      [runtime/execution_engine.py], the start of a run and what follows a stop.
    - [RepeatPolicy]: [runtime/repeat_policy.py]; [WorkflowExecutor]:
      [runtime/skill_workflow.py].

    Tools and policy:
    - [Policy]: [action/policy.py], [policy/{governance,internal_service}.py];
      [ApprovalModes]: [policy/approval_modes.py].
    - [InvocationStore]: [infrastructure/persistence/postgres_invocation_store.py] as
      functions of its tables; [JsonSchema]: [contracts/json_schema.py];
      [ToolRegistry], [GatewayCapacity], [ToolGateway]: [action/tool_gateway.py].
    - [ArtifactStore]: [infrastructure/persistence/postgres_artifact_repository.py] as
      functions of its tables; [ArtifactService]: [artifact/internal_service.py].

    Skills:
    - [SkillContracts]: [contracts/{skills,skill_workflows}.py]; [SkillWorkflow]:
      [domain/skill_workflows.py]; [SkillLifecycle]: the in-memory store of
      [action/skill_lifecycle.py]; [SkillUpgradeCleanup]:
      [action/skill_upgrade_cleanup.py].

    Each component file ends with a module of concrete runs ([SessionExamples],
    [StoreExamples], ...) that evaluates the definitions and applies the theorems.

    ** How the code is modelled

    Exceptions are values of [res]; the message is kept where the source writes it.
    An aggregate is dropped by its caller when a method raises, so its methods
    return [res] of the new state.  A store's operation can raise after a mutation
    ([append] creates the stream before it checks the version, [project] keeps the
    events before a bad one), so it returns the store together with the outcome.
    Each operation of an in-memory store runs under one lock in the source, and each
    statement of a SQL store in one transaction: it is one step here, and concurrency
    is the order of steps, which the histories ([run_ops], [run_cops],
    [delivery_history], ...) leave arbitrary.  Workers and services that await between
    their steps are tasks ([Interleave], and with the same shape [ApprovalModes] and
    [DeliveryWorker]): theorems about them hold for whatever the others do before each
    await and for a cancellation at any of them.  Answers of services outside the
    repository, and of its network clients, are functions of the number of the await.
    A collaboration request takes the store that each of its reads and its append find, so
    the graph it checks may be older than the streams it writes; a feed works record by
    record ([feed_step]).

    Clock readings and [uuid4] are arguments, one per call the source makes.
    Dictionaries are association lists in insertion order ([dict_wf]); sets are [gset]
    or duplicate-free lists.  Integers are unbounded, as in Python.  Text is Latin-1
    (one [ascii] per character; reading another character gives [Unrepresentable]);
    datetimes do not overflow.  The interpreter's recursion limit is a parameter where
    [json.loads] reads the files of a package ([RecursionLimit]) and does not exist
    elsewhere.  Pydantic's lax coercion of values of a wrong type is a
    class parameter ([PydanticInt], [Pydantic]) of which only the identity on values
    of the right type is assumed, the [jsonschema] package is the class
    [SchemaEngine]; the concrete runs instantiate them.

    Fuel: [visit] (depth-first search of the task graph) gets two more than the
    number of nodes, as does [topo_visit] over the steps of a plan, and [depth] (walk
    up the parents) one more; [Diverges] is the outcome without fuel, and
    [validate_dependencies_exact], [topological_steps_exact] and
    [validate_new_child_exact] show that it does not occur.  The JSON reader gets
    twice the length of the text and two more ([json_loads_total]), the bounds check
    of schemas the size of the value ([check_bounds_exact]).  All other loops are
    structural.

    ** What the theorems show

    - Event store: gapless streams and a complete outbox in every history, exact and
      idempotent appends, atomic batches, in-order publication with exclusive claims,
      dispositions by the claim holder only.
    - Control store and orchestrator: exclusive leases, increasing tokens and fencing of
      stale holders, exclusive claims by priority, assignments that spend their claim,
      no lost wake, exact recovery, checkpoints that never go back; a scheduled run is
      owned under a fresh token.
    - Runtime: a fact is recorded once whatever other runtimes do, the effects of a tool
      round follow its protocol, after a stop only settlements are stored; a call is
      suppressed only on evidence of the run, an uncertain write is never repeated.
    - Session and its service: restoring from the stored events gives the live
      aggregate, snapshots are equivalent to the stream, a committed command that
      announced the version it loaded leaves exactly the aggregate it computed although
      others act in between, refused
      requests change nothing, repeated commands are answered from what is stored.
    - Approvals: a validated approval had its quorum; the first recorded decision of a
      mode counts for everybody; what needs an approval is permitted only by an authority for
      this very action stored in the request's Session, given that a digest belongs to one
      Session ([stored_at_home]); governance only narrows.
    - Collaboration: exact dependency and limit checks (acyclicity included), plans
      become Children in one batch within the limits of the graph they were checked
      against, roles bound the streams a request writes.
    - Runtime budget: run and tree budgets are never exceeded by the reservations of
      accepted batches.
    - Projection and relay: each view is the fold of a prefix of its stream under any
      interleaving, a pass without failures brings it up to date, and the view agrees
      with the aggregate.
    - Feed: the run of an acknowledged user request is in the control queue.
    - Delivery: one job per event and sink, exact claims, at most one call of the sink
      per delivery and an account of it however the delivery ends.
    - Tools: an invocation is granted once over all replicas, an adapter is called only
      after validation, permission and under the exclusive grant, results are replayed,
      admission keeps its bounds.
    - Artifacts: a finalization writes ready only after the configured checks, objects are
      removed only under a validated claim whose start was recorded, deletion is exclusive,
      nobody is given a claim of deletion on a row under a legal hold.
    - Skills: workflows compile to scoped expressions or a schema error (but for the
      recursion error of the JSON reader); an execution
      follows the protocol of its writes and repeats none; publications happen exactly
      once, revisions advance, upgrades supersede, packages are erased in order.

    ** Not modelled

    The turns of the model ([_execute_capability_loop] of [runtime/execution_engine.py],
    the capability and collaboration controllers, [runtime/{task_router,skill_runner}.py]): they thread
    untyped dictionaries through model and tool services, and their decisions are
    those of the model.  The capability, MCP and Skill catalogues, the package and publication
    services and the administration API: registries over external services.  The HTTP
    layer, the SQL stores other than those of tool invocations and artifacts, Kafka, object storage and
    model adapters, the composition root and the metrics are input and output around the
    modelled components; the in-memory stores are modelled as the reference
    implementations of the same ports.  The approval and collaboration read models and
    the paging of lists repeat the shape of the task projection.  Sleeping polls
    (of [claim_outbox], heartbeats, claim monitors) appear as the steps they take.

    ** What modelling showed

    Among the divergences that the concrete runs exhibit: [skill.invocation.requested]
    and [skill.invocation.settled] are routed to the projection, which refuses them
    ([skill_invocation_unsupported]); [run.retry_scheduled] changes the aggregate and
    not the view ([retry_scheduled_not_projected]); a command may be accepted although
    its guards ran on an older state ([TaskService]); a reviewer step without
    dependencies raises [IndexError] ([CollaborationService]); two plans checked against
    the same graph exceed its limits together ([plans_exceed_together]); deeply nested JSON
    in a package raises [RecursionError] ([deep_document]); an upgrade erases
    versions that were not active without the policy version of their revocation
    ([SkillUpgradeCleanup]); an artifact whose finalization lost its claim is made ready
    without the content scan ([reconciled_without_scan]). *)

From stdpp Require Export base tactics list strings gmap option pretty sorting.
From Stdlib Require Export ZArith Lia.

(** ** Exceptions and results *)

(** The exception classes the modelled code raises: the AuraClaw hierarchy of
    [contracts/errors.py], the projector's own errors and Python's builtins.
    The last two are not exceptions: [Diverges] marks a loop that has not ended within
    the fuel its model gives it, [Unrepresentable] a character outside the text of the
    model. *)
Inductive exn_class :=
  | NotFoundError
  | VersionConflictError
  | InvalidTransitionError
  | AuthorizationError
  | LeaseConflictError
  | FencingTokenError
  | RuntimeStepBudgetExceededError
  | RuntimeOutputTokenBudgetExceededError
  | SchemaValidationError
  | PolicyDeniedError
  | ApprovalValidationError
  | CollaborationValidationError
  | ProjectionGapError
  | UnsupportedEventError
  | RuntimeCapacityUnavailable
  | InvalidToolSchemaError
  | UnauthenticatedError
  | ConnectorExecutionError
  | CredentialAccessError
  | SandboxViolationError
  | ArtifactAccessError
  | RuntimeNoProgressError
  | RuntimeCancelledError
  | RuntimeDeadlineExceededError
  | PyTimeoutError
  | PyValidationError
  | PyValueError
  | PyJSONDecodeError
  | PyUnicodeDecodeError
  | PyKeyError
  | PyTypeError
  | PyAttributeError
  | PyOverflowError
  | PyRuntimeError
  | PyRecursionError
  | PyIndexError
  | PyAssertionError
  | Diverges
  | Unrepresentable.

#[global] Instance exn_class_eq_dec : EqDecision exn_class.
Proof. solve_decision. Defined.

(** A Python computation either returns or raises.  The message is kept for the
    errors the source raises itself; for an error raised inside a builtin it is
    a short description (CPython's wording is not modelled). *)
Inductive res (A : Type) : Type :=
  | Ok (a : A)
  | Raise (c : exn_class) (msg : string).
Arguments Ok {A} _.
Arguments Raise {A} _ _.

#[global] Instance res_ret : MRet res := @Ok.
#[global] Instance res_bind : MBind res := λ A B f m,
  match m with Ok a => f a | Raise c e => Raise c e end.
#[global] Instance res_fmap : FMap res := λ A B f m,
  match m with Ok a => Ok (f a) | Raise c e => Raise c e end.

Definition is_ok {A} (m : res A) : bool :=
  match m with Ok _ => true | Raise _ _ => false end.

Declare Scope py_scope.
Delimit Scope py_scope with py.

(** [throw c e] is [raise c(e)]; [m ;;; k] runs [m] for its exceptions only. *)
Notation "'throw' c e" := (Raise c e%string) (at level 10, c at level 9, e at level 9) : py_scope.
Notation "m ;;; k" := (mbind (M:=res) (λ _, k) m)
  (at level 100, k at level 200, right associativity) : py_scope.
#[global] Open Scope py_scope.

Lemma res_bind_Ok {A B} (m : res A) (f : A → res B) (b : B) :
  m ≫= f = Ok b ↔ ∃ a, m = Ok a ∧ f a = Ok b.
Proof. destruct m; simpl; naive_solver. Qed.

Lemma res_fmap_Ok {A B} (m : res A) (f : A → B) (b : B) :
  f <$> m = Ok b ↔ ∃ a, m = Ok a ∧ f a = b.
Proof. destruct m; simpl; naive_solver. Qed.

(** A [for] loop whose body may raise: the state after the last iteration, or
    the first exception. *)
Fixpoint foldM {A B} (f : B → A → res B) (l : list A) (b : B) : res B :=
  match l with
  | [] => Ok b
  | a :: l => b' ← f b a; foldM f l b'
  end.

(** A list comprehension whose element expression may raise. *)
Fixpoint mapR {A B} (f : A → res B) (l : list A) : res (list B) :=
  match l with
  | [] => Ok []
  | a :: l => b ← f a; bs ← mapR f l; Ok (b :: bs)
  end.

Lemma foldM_app {A B} (f : B → A → res B) l1 l2 b :
  foldM f (l1 ++ l2) b = (foldM f l1 b ≫= foldM f l2).
Proof.
  revert b; induction l1 as [|a l1 IH]; intros b; simpl; [done|].
  destruct (f b a); simpl; auto.
Qed.

Lemma foldM_inv {A B} (P : B → Prop) (f : B → A → res B) l b b' :
  (∀ x a x', a ∈ l → P x → f x a = Ok x' → P x') →
  P b → foldM f l b = Ok b' → P b'.
Proof.
  revert b; induction l as [|a l IH]; intros b Hstep Hb Hf; simpl in Hf.
  - by simplify_eq.
  - apply res_bind_Ok in Hf as (b1 & Hb1 & Hf).
    eapply IH; [|eapply Hstep; [left|done..]|done].
    intros; eapply Hstep; [by right|done..].
Qed.

Lemma mapR_Ok {A B} (f : A → res B) l k :
  mapR f l = Ok k ↔ Forall2 (λ a b, f a = Ok b) l k.
Proof.
  split.
  - revert k; induction l as [|a l IH]; intros k; simpl.
    + intros; simplify_eq; constructor.
    + intros (b & Hb & (bs & Hbs & ?)%res_bind_Ok)%res_bind_Ok; simplify_eq.
      constructor; auto.
  - induction 1 as [|a b l k Hab _ IH]; simpl; [done|].
    by rewrite Hab; simpl; rewrite IH.
Qed.

Lemma mapR_id {A B} (f : A → res B) (g : A → B) l :
  (∀ a, a ∈ l → f a = Ok (g a)) → mapR f l = Ok (g <$> l).
Proof.
  induction l as [|a l IH]; intros H; simpl; [done|].
  rewrite H by left; simpl. by rewrite IH by (intros; apply H; by right).
Qed.

(** ** Record update *)

(** [r <| f := v |>] is [dataclasses.replace(r, f=v)] (or the assignment [r.f = v]
    of a mutable object).  A record declares its eta expansion once ([Eta]); the
    setter of each field is computed from it. *)
Class Eta (R : Type) := eta_record : R → R.
Class Setter {R E : Type} (proj : R → E) := set_field : (E → E) → R → R.
Arguments set_field {R E} proj {_} _ _.

Ltac build_setter R E proj :=
  let inst := constr:(_ : Eta R) in
  exact (λ (upd : E → E) (r : R), ltac:(
    let e := eval hnf in inst in
    let e' := eval cbv beta in (e r) in
    lazymatch e' with
    | context C [proj r] => let t := context C [upd (proj r)] in exact t
    end)).

#[export] Hint Extern 1 (@Setter ?R ?E ?proj) => build_setter R E proj : typeclass_instances.

Notation "r <| f := v |>" := (set_field f (λ _, v) r)
  (at level 12, left associativity, f at level 9, v at level 99,
   format "r  <|  f  :=  v  |>") : py_scope.

(** ** Python dictionaries *)

(** A [dict] keeps insertion order: assigning a present key updates it in place,
    a new key goes to the end.  The keys of a dict are distinct ([dict_wf]). *)
Section dict.
Context {K V : Type} `{EqDecision K}.
Implicit Types (k : K) (v : V) (d : list (K * V)).

Fixpoint dget k d : option V :=
  match d with
  | [] => None
  | (k', v) :: d => if decide (k = k') then Some v else dget k d
  end.

Definition dmem k d : bool :=
  match dget k d with Some _ => true | None => false end.

Fixpoint dset k v d : list (K * V) :=
  match d with
  | [] => [(k, v)]
  | (k', v') :: d =>
      if decide (k = k') then (k, v) :: d else (k', v') :: dset k v d
  end.

Fixpoint ddel k d : list (K * V) :=
  match d with
  | [] => []
  | (k', v') :: d => if decide (k = k') then d else (k', v') :: ddel k d
  end.

(** [d.setdefault(k, v)] as a statement. *)
Definition dsetdefault k v d : list (K * V) :=
  match dget k d with Some _ => d | None => dset k v d end.

(** [{**d, **e}] and [d.update(e)]. *)
Definition dupdate d (e : list (K * V)) : list (K * V) :=
  fold_left (λ acc kv, dset kv.1 kv.2 acc) e d.

Definition dkeys d : list K := d.*1.
Definition dvalues d : list V := d.*2.

Definition dict_wf d : Prop := NoDup (dkeys d).

Lemma dget_dset_eq k v d : dget k (dset k v d) = Some v.
Proof.
  induction d as [|[k' v'] d IH]; simpl; [by rewrite decide_True|].
  case_decide; simpl; [by rewrite decide_True|by rewrite decide_False].
Qed.

Lemma dget_dset_ne k k' v d : k ≠ k' → dget k (dset k' v d) = dget k d.
Proof.
  intros Hne. induction d as [|[k1 v1] d IH]; simpl; [by rewrite decide_False|].
  repeat (case_decide; simpl); simplify_eq; done.
Qed.

Lemma dget_dset k k' v d :
  dget k (dset k' v d) = if decide (k = k') then Some v else dget k d.
Proof. case_decide; subst; [apply dget_dset_eq|by apply dget_dset_ne]. Qed.

Lemma dget_app k d e :
  dget k (d ++ e) = match dget k d with Some v => Some v | None => dget k e end.
Proof.
  induction d as [|[k' v'] d IH]; simpl; [done|]. by case_decide.
Qed.

Lemma dget_ddel_ne k k' d : k ≠ k' → dget k (ddel k' d) = dget k d.
Proof.
  intros Hne. induction d as [|[k1 v1] d IH]; simpl; [done|].
  repeat (case_decide; simpl); simplify_eq; done.
Qed.

Lemma dget_None k d : dget k d = None ↔ k ∉ dkeys d.
Proof.
  induction d as [|[k' v'] d IH]; cbn; [set_solver|].
  case_decide; subst; [set_solver|]. rewrite not_elem_of_cons. naive_solver.
Qed.

Lemma dget_Some_elem k v d : dget k d = Some v → (k, v) ∈ d.
Proof.
  induction d as [|[k' v'] d IH]; simpl; [done|].
  case_decide; intros; simplify_eq; [left|right; auto].
Qed.

Lemma dget_Some_key k v d : dget k d = Some v → k ∈ dkeys d.
Proof.
  intros H%dget_Some_elem. apply list_elem_of_fmap. by exists (k, v).
Qed.

Lemma dmem_false k d : dmem k d = false ↔ k ∉ dkeys d.
Proof. rewrite <- dget_None. unfold dmem. destruct (dget k d); naive_solver. Qed.
Lemma dmem_true k d : dmem k d = true ↔ k ∈ dkeys d.
Proof.
  destruct (dmem k d) eqn:E; [|by apply dmem_false in E].
  split; [|done]. intros _. unfold dmem in E. destruct (dget k d) eqn:E'; [|done].
  by eapply dget_Some_key.
Qed.

Lemma elem_dget k v d : dict_wf d → (k, v) ∈ d → dget k d = Some v.
Proof.
  unfold dict_wf. induction d as [|[k' v'] d IH]; cbn; [set_solver|].
  intros [Hk Hd]%NoDup_cons [Hin|Hin]%elem_of_cons; simplify_eq.
  - by rewrite decide_True.
  - rewrite decide_False; [by apply IH|].
    intros ->. apply Hk. apply list_elem_of_fmap. by exists (k', v).
Qed.

Lemma elem_of_dvalues d v : dict_wf d → v ∈ dvalues d ↔ ∃ k, dget k d = Some v.
Proof.
  intros Hwf. unfold dvalues. rewrite list_elem_of_fmap. split.
  - intros ([k x] & -> & Hin). exists k. by apply elem_dget.
  - intros [k Hk]. exists (k, v). split; [done|]. by apply dget_Some_elem.
Qed.

Lemma dget_ddel_eq k d : dict_wf d → dget k (ddel k d) = None.
Proof.
  unfold dict_wf. induction d as [|[k' v'] d IH]; cbn; [done|].
  intros [Hk Hd]%NoDup_cons. case_decide; subst.
  - by apply dget_None.
  - simpl. rewrite decide_False by done. auto.
Qed.

Lemma dkeys_dset k v d :
  dkeys (dset k v d) = if decide (k ∈ dkeys d) then dkeys d else dkeys d ++ [k].
Proof.
  induction d as [|[k' v'] d IH]; [done|].
  cbn [dset]. destruct (decide (k = k')) as [->|Hne].
  - cbn. rewrite decide_True by set_solver. done.
  - unfold dkeys in *. cbn. rewrite IH. repeat case_decide; set_solver.
Qed.

Lemma dkeys_dset_present k v d : k ∈ dkeys d → dkeys (dset k v d) = dkeys d.
Proof. intros. rewrite dkeys_dset, decide_True; done. Qed.

Lemma dset_fresh k v d : k ∉ dkeys d → dset k v d = d ++ [(k, v)].
Proof.
  induction d as [|[k' v'] d IH]; cbn; intros Hk; [done|].
  rewrite decide_False by set_solver. rewrite IH by set_solver. done.
Qed.

Lemma dset_wf k v d : dict_wf d → dict_wf (dset k v d).
Proof.
  unfold dict_wf. rewrite dkeys_dset. case_decide; [done|].
  intros. apply NoDup_app; split_and!; [done|set_solver|apply NoDup_singleton].
Qed.

Lemma ddel_sublist k d : ddel k d `sublist_of` d.
Proof.
  induction d as [|[k' v'] d IH]; simpl; [done|].
  case_decide; [by apply sublist_cons|by apply sublist_skip].
Qed.

Lemma ddel_wf k d : dict_wf d → dict_wf (ddel k d).
Proof. intros. eapply sublist_NoDup; [done|]. apply fmap_sublist, ddel_sublist. Qed.

Lemma dsetdefault_wf k v d : dict_wf d → dict_wf (dsetdefault k v d).
Proof. unfold dsetdefault. case_match; auto using dset_wf. Qed.

Lemma dget_dsetdefault_ne k k' v d :
  k ≠ k' → dget k (dsetdefault k' v d) = dget k d.
Proof. intros. unfold dsetdefault. case_match; auto using dget_dset_ne. Qed.

Lemma dupdate_wf d e : dict_wf d → dict_wf (dupdate d e).
Proof.
  unfold dupdate. revert d. induction e as [|[k v] e IH]; intros d Hd; simpl; auto using dset_wf.
Qed.

Lemma dget_dupdate k d e :
  dget k (dupdate d e) = match dget k (rev e) with Some v => Some v | None => dget k d end.
Proof.
  unfold dupdate. revert d. induction e as [|[k' v] e IH]; intros d; simpl; [done|].
  rewrite IH, dget_app, dget_dset. simpl. by destruct (dget k (rev e)), (decide (k = k')).
Qed.

Lemma elem_of_dset k v k' v' d :
  dict_wf d → (k', v') ∈ dset k v d ↔ (k' = k ∧ v' = v) ∨ (k' ≠ k ∧ (k', v') ∈ d).
Proof.
  intros Hd. split.
  - intros H%elem_dget; [|by apply dset_wf].
    destruct (decide (k' = k)) as [->|Hne].
    + rewrite dget_dset_eq in H. naive_solver.
    + rewrite dget_dset_ne in H by done. right. split; [done|]. by apply dget_Some_elem.
  - intros [[-> ->]|[Hne Hin]]; apply dget_Some_elem.
    + apply dget_dset_eq.
    + rewrite dget_dset_ne by done. by apply elem_dget.
Qed.
End dict.

(** ** Order-preserving deduplication and stable sorting *)

(** [list(dict.fromkeys(l))]: first occurrences, in order. *)
Definition fromkeys {A} `{EqDecision A} (l : list A) : list A :=
  fold_left (λ acc x, if decide (x ∈ acc) then acc else acc ++ [x]) l [].

Section fromkeys.
Context {A : Type} `{EqDecision A}.
Implicit Types l acc : list A.

Lemma fromkeys_go_NoDup l acc :
  NoDup acc →
  NoDup (fold_left (λ acc x, if decide (x ∈ acc) then acc else acc ++ [x]) l acc).
Proof.
  revert acc; induction l as [|x l IH]; intros acc Hacc; simpl; [done|].
  apply IH. case_decide; [done|].
  apply NoDup_app; split_and!; [done|set_solver|apply NoDup_singleton].
Qed.

Lemma fromkeys_NoDup l : NoDup (fromkeys l).
Proof. apply fromkeys_go_NoDup, NoDup_nil_2. Qed.

Lemma fromkeys_go_elem l acc x :
  x ∈ fold_left (λ acc x, if decide (x ∈ acc) then acc else acc ++ [x]) l acc
  ↔ x ∈ acc ∨ x ∈ l.
Proof.
  revert acc; induction l as [|y l IH]; intros acc; simpl; [set_solver|].
  rewrite IH. case_decide; set_solver.
Qed.

Lemma elem_of_fromkeys l x : x ∈ fromkeys l ↔ x ∈ l.
Proof. unfold fromkeys. rewrite fromkeys_go_elem. set_solver. Qed.

Lemma fromkeys_go_id l acc :
  NoDup (acc ++ l) →
  fold_left (λ acc x, if decide (x ∈ acc) then acc else acc ++ [x]) l acc = acc ++ l.
Proof.
  revert acc; induction l as [|y l IH]; intros acc Hnd; simpl; [by rewrite app_nil_r|].
  rewrite decide_False.
  - rewrite IH; rewrite <- app_assoc; done.
  - intros Hy. apply NoDup_app in Hnd as (_ & Hdis & _). apply (Hdis y Hy). left.
Qed.

Lemma fromkeys_id l : NoDup l → fromkeys l = l.
Proof. intros. apply (fromkeys_go_id l []). done. Qed.
End fromkeys.

(** [sorted(l, key=...)] is stable: an element moves left only past elements that
    are strictly greater.  [leb] is the order on the keys. *)
Section stable_sort.
Context {A : Type} (leb : A → A → bool).

Fixpoint sort_insert (x : A) (l : list A) : list A :=
  match l with
  | [] => [x]
  | y :: l' => if leb x y then x :: y :: l' else y :: sort_insert x l'
  end.

Fixpoint py_sorted (l : list A) : list A :=
  match l with
  | [] => []
  | x :: l => sort_insert x (py_sorted l)
  end.

Lemma sort_insert_perm x l : sort_insert x l ≡ₚ x :: l.
Proof.
  induction l as [|y l IH]; simpl; [done|].
  case_match; [done|]. rewrite IH. constructor.
Qed.

Lemma py_sorted_perm l : py_sorted l ≡ₚ l.
Proof.
  induction l as [|x l IH]; simpl; [done|]. by rewrite sort_insert_perm, IH.
Qed.

Lemma elem_of_py_sorted x l : x ∈ py_sorted l ↔ x ∈ l.
Proof. by rewrite py_sorted_perm. Qed.

(** The result is ordered by any transitive relation that the test decides (up to
    ties), such as the first component of a lexicographic key. *)
Context (R : A → A → Prop) `{!Transitive R}.
Context (Hle : ∀ x y, leb x y = true → R x y) (Hgt : ∀ x y, leb x y = false → R y x).

Lemma sort_insert_sorted x l : StronglySorted R l → StronglySorted R (sort_insert x l).
Proof.
  induction 1 as [|y l Hl IH Hy]; simpl; [repeat constructor|].
  destruct (leb x y) eqn:Hxy.
  - repeat constructor; auto. eapply Forall_impl; [exact Hy|]. intros z Hz. etrans; eauto.
  - constructor; [done|]. rewrite sort_insert_perm. constructor; auto.
Qed.

Lemma py_sorted_sorted l : StronglySorted R (py_sorted l).
Proof.
  induction l as [|x l IH]; simpl; [constructor|]. by apply sort_insert_sorted.
Qed.
End stable_sort.

(** An invariant of a loop that cannot raise. *)
Lemma fold_left_inv {A B} (P : B → Prop) (f : B → A → B) l b :
  (∀ x a, a ∈ l → P x → P (f x a)) → P b → P (fold_left f l b).
Proof.
  revert b; induction l as [|a l IH]; intros b Hf Hb; simpl; [done|].
  apply IH; [intros; apply Hf; [by right|done]|]. apply Hf; [by left|done].
Qed.

(** ** Strings *)

(** [s in {...}] for a literal set of strings. *)
Definition str_in (s : string) (l : list string) : bool := existsb (String.eqb s) l.

Lemma str_in_spec s l : str_in s l = true ↔ s ∈ l.
Proof.
  unfold str_in. rewrite existsb_exists. setoid_rewrite String.eqb_eq.
  setoid_rewrite <- list_elem_of_In. naive_solver.
Qed.

Lemma str_in_false s l : str_in s l = false ↔ s ∉ l.
Proof. rewrite <- str_in_spec. destruct (str_in s l); naive_solver. Qed.

(** [s[:n]] for a non-negative literal bound. *)
Fixpoint str_take (n : nat) (s : string) : string :=
  match n, s with
  | S n, String c s => String c (str_take n s)
  | _, _ => EmptyString
  end.

Lemma str_take_length n s : String.length (str_take n s) ≤ n.
Proof. revert s; induction n; intros [|c s]; simpl; auto with lia. specialize (IHn s). lia. Qed.

(** ** Proof automation *)

Create HintDb aura.
#[export] Hint Resolve dset_wf ddel_wf dsetdefault_wf dupdate_wf : aura.
#[export] Hint Resolve NoDup_nil_2 fromkeys_NoDup : aura.

(** Invert every successful bind in the context. *)
Ltac inv_res :=
  repeat match goal with
  | H : (_ ≫= _) = Ok _ |- _ => apply res_bind_Ok in H as (? & ? & ?)
  | H : (_ <$> _) = Ok _ |- _ => apply res_fmap_Ok in H as (? & ? & ?)
  | H : Ok _ = Ok _ |- _ => injection H as H; try subst
  | H : Raise _ _ = Ok _ |- _ => discriminate H
  | H : Ok _ = Raise _ _ |- _ => discriminate H
  end.

(** Case on the conditionals of a function body that is known to have returned. *)
Ltac split_guards :=
  repeat (inv_res; match goal with
  | H : (if ?b then Raise _ _ else _) = Ok _ |- _ => destruct b eqn:?; [discriminate H|]
  | H : (if ?b then _ else Raise _ _) = Ok _ |- _ => destruct b eqn:?; [|discriminate H]
  end); inv_res.

(** Booleans to propositions. *)
Ltac bool_props :=
  repeat match goal with
  | H : _ && _ = true |- _ => apply andb_true_iff in H as [? ?]
  | H : _ || _ = false |- _ => apply orb_false_iff in H as [? ?]
  | H : negb _ = true |- _ => apply negb_true_iff in H
  | H : negb _ = false |- _ => apply negb_false_iff in H
  | H : Z.leb _ _ = true |- _ => apply Z.leb_le in H
  | H : Z.leb _ _ = false |- _ => apply Z.leb_gt in H
  | H : Z.ltb _ _ = true |- _ => apply Z.ltb_lt in H
  | H : Z.ltb _ _ = false |- _ => apply Z.ltb_ge in H
  | H : Z.eqb _ _ = true |- _ => apply Z.eqb_eq in H
  | H : Z.eqb _ _ = false |- _ => apply Z.eqb_neq in H
  | H : String.eqb _ _ = true |- _ => apply String.eqb_eq in H
  | H : String.eqb _ _ = false |- _ => apply String.eqb_neq in H
  | H : bool_decide _ = true |- _ => apply bool_decide_eq_true_1 in H
  | H : bool_decide _ = false |- _ => apply bool_decide_eq_false_1 in H
  end.

(** Look up literal keys in a literal dictionary: [sget] is [dget] at string keys,
    with a test that reduces. *)
Fixpoint sget {V} (k : string) (d : list (string * V)) : option V :=
  match d with
  | [] => None
  | (k', v) :: d => if String.eqb k k' then Some v else sget k d
  end.

Lemma dget_sget {V} k (d : list (string * V)) : dget k d = sget k d.
Proof.
  induction d as [|[k' v'] d IH]; simpl; [done|].
  case_decide; destruct (String.eqb_spec k k'); by subst.
Qed.

Ltac dsimp :=
  rewrite ?dget_app, ?dget_sget;
  cbn [sget app String.eqb Ascii.eqb Bool.eqb].
Ltac dsimp_in H :=
  rewrite ?dget_app, ?dget_sget in H;
  cbn [sget app String.eqb Ascii.eqb Bool.eqb] in H.
