(* ===== verification/PyValue.v ===== *)
(** * Python values

    The dynamically typed values the services store in event payloads
    ([dict[str, Any]]), with the Python builtins the source applies to them:
    truth value, [==], [str], [int], [float], [list], [dict], [sum] over floats.

    Text is a sequence of Latin-1 code points (one [ascii] per code point), so
    [str.strip] and [repr] follow Python's tables on that range.  Floats are IEEE
    binary64 values ([SpecFloat]), computed exactly as CPython 3.13 does,
    including the compensated [sum]. *)

From Stdlib Require Import Ascii SpecFloat.
From S2P Require Import Prelude.
Local Open Scope Z_scope.

Inductive json : Type :=
  | JNull
  | JBool (b : bool)
  | JInt (z : Z)
  | JFloat (f : spec_float)
  | JStr (s : string)
  | JArr (l : list json)
  | JObj (d : list (string * json)).

(** Induction with the hypothesis at every element and member. *)
Section json_ind.
Context (P : json → Prop).
Context (Hleaf : ∀ v, match v with JArr _ | JObj _ => True | _ => P v end).
Context (Harr : ∀ l, Forall P l → P (JArr l)) (Hobj : ∀ d, Forall (λ kv, P kv.2) d → P (JObj d)).
Fixpoint json_nested_ind (v : json) : P v :=
  match v with
  | JArr l => Harr l ((fix go l : Forall P l :=
      match l with [] => List.Forall_nil _ | w :: l => List.Forall_cons _ _ _ (json_nested_ind w) (go l) end) l)
  | JObj d => Hobj d ((fix go d : Forall (λ kv, P kv.2) d :=
      match d with
      | [] => List.Forall_nil _
      | (k, w) :: d => List.Forall_cons (λ kv, P kv.2) (k, w) d (json_nested_ind w) (go d)
      end) d)
  | JNull => Hleaf JNull
  | JBool b => Hleaf (JBool b)
  | JInt z => Hleaf (JInt z)
  | JFloat f => Hleaf (JFloat f)
  | JStr s => Hleaf (JStr s)
  end.
End json_ind.

(** A payload: [dict[str, Any]]. *)
Notation payload := (list (string * json)).

(** ** Access *)

(** [d[k]] *)
Definition pget (k : string) (d : payload) : res json :=
  match dget k d with Some v => Ok v | None => Raise PyKeyError k end.

(** [d.get(k)] *)
Definition pgetn (k : string) (d : payload) : json := default JNull (dget k d).

(** [d.get(k, v)] *)
Definition pgetd (k : string) (v : json) (d : payload) : json := default v (dget k d).

(** [v.get(k, dflt)] for a value that may not be a dict. *)
Definition jgetd (k : string) (dflt : json) (v : json) : res json :=
  match v with
  | JObj d => Ok (pgetd k dflt d)
  | _ => Raise PyAttributeError "get"
  end.

Definition is_dict (v : json) : bool := match v with JObj _ => true | _ => false end.
Definition is_str (v : json) : bool := match v with JStr _ => true | _ => false end.
Definition is_none (v : json) : bool := match v with JNull => true | _ => false end.
Definition is_list (v : json) : bool := match v with JArr _ => true | _ => false end.

(** ** Floats *)

Definition f64_prec : Z := 53.
Definition f64_emax : Z := 1024.
Definition f64_add : spec_float → spec_float → spec_float := SFadd f64_prec f64_emax.
Definition f64_sub : spec_float → spec_float → spec_float := SFsub f64_prec f64_emax.
Definition f64_zero : spec_float := S754_zero false.
Definition f64_leb : spec_float → spec_float → bool := SFleb.
Definition f64_ltb : spec_float → spec_float → bool := SFltb.
Definition f64_gtb (x y : spec_float) : bool := SFltb y x.

(** [math.isfinite] *)
Definition f64_isfinite (x : spec_float) : bool :=
  match x with S754_zero _ | S754_finite _ _ _ => true | _ => false end.

(** [x == z] compares the exact values. *)
Definition f64_eq_Z (x : spec_float) (z : Z) : bool :=
  match x with
  | S754_zero _ => Z.eqb z 0
  | S754_finite s m e =>
      let sm := if s then Z.neg m else Z.pos m in
      if Z.leb 0 e then Z.eqb (Z.shiftl sm e) z else Z.eqb sm (Z.shiftl z (- e))
  | _ => false
  end.

(** The correctly rounded quotient [num / den], [den > 0]. *)
Definition f64_of_ratio (neg : bool) (num den : Z) : spec_float :=
  if Z.eqb num 0 then S754_zero neg else
  let s := Z.max 0 (66 + Z.log2 den - Z.log2 num) in
  let q := Z.div (Z.shiftl num s) den in
  let r := Z.modulo (Z.shiftl num s) den in
  let m := 2 * q + (if Z.eqb r 0 then 0 else 1) in
  binary_normalize f64_prec f64_emax (if neg then Z.opp m else m) (- (s + 1)) neg.

Definition f64_of_decimal (neg : bool) (m e : Z) : spec_float :=
  if Z.leb 0 e then f64_of_ratio neg (m * 10 ^ e) 1
  else f64_of_ratio neg m (10 ^ (- e)).

(** [float(z)]: an int too large for a double raises. *)
Definition f64_of_Z (z : Z) : res spec_float :=
  match f64_of_ratio (Z.ltb z 0) (Z.abs z) 1 with
  | S754_infinity _ => Raise PyOverflowError "int too large to convert to float"
  | f => Ok f
  end.

(** [sum(floats)]: CPython keeps a running compensation and adds it at the end. *)
Definition f64_sum_step (acc : spec_float * spec_float) (x : spec_float)
    : spec_float * spec_float :=
  let '(s, c) := acc in
  let t := f64_add s x in
  if f64_leb (SFabs x) (SFabs s)
  then (t, f64_add c (f64_add (f64_sub s t) x))
  else (t, f64_add c (f64_add (f64_sub x t) s)).

Definition f64_sum (l : list spec_float) : spec_float :=
  match l with
  | [] => f64_zero
  | _ =>
    let '(s, c) := fold_left f64_sum_step l (f64_zero, f64_zero) in
    match c with
    | S754_finite _ _ _ => f64_add s c
    | _ => s
    end
  end.

(** ** Text *)

Definition chr (n : N) : ascii := ascii_of_N n.
Definition ord (c : ascii) : N := N_of_ascii c.
Definition str1 (c : ascii) : string := String c EmptyString.

Definition is_space (c : ascii) : bool :=
  let n := ord c in
  ((9 <=? n) && (n <=? 13) || (28 <=? n) && (n <=? 32) || (n =? 133) || (n =? 160))%N.

Fixpoint lstrip (s : string) : string :=
  match s with
  | String c s' => if is_space c then lstrip s' else s
  | EmptyString => EmptyString
  end.

Fixpoint rstrip (s : string) : string :=
  match s with
  | String c s' =>
      match rstrip s' with
      | EmptyString => if is_space c then EmptyString else str1 c
      | t => String c t
      end
  | EmptyString => EmptyString
  end.

(** [s.strip()] *)
Definition strip (s : string) : string := rstrip (lstrip s).

Definition is_digit (c : ascii) : bool := let n := ord c in ((48 <=? n) && (n <=? 57))%N.
Definition digit_val (c : ascii) : Z := Z.of_N (ord c) - 48.

Fixpoint str_list (s : string) : list ascii :=
  match s with EmptyString => [] | String c s => c :: str_list s end.

Fixpoint str_of (l : list ascii) : string :=
  match l with [] => EmptyString | c :: l => String c (str_of l) end.

Definition str_has (c : ascii) (s : string) : bool :=
  existsb (Ascii.eqb c) (str_list s).

(** Decimal digits with single underscores between them: the value, the number
    of digits read and the rest; [None] when the text does not start with one. *)
Fixpoint read_digits_go (s : string) (v : Z) (n : nat) : Z * nat * string :=
  match s with
  | String c s' =>
      if is_digit c then read_digits_go s' (10 * v + digit_val c) (S n)
      else if Ascii.eqb c "_" then
        match s' with
        | String c' s'' =>
            if is_digit c' then read_digits_go s'' (10 * v + digit_val c') (S n) else (v, n, s)
        | EmptyString => (v, n, s)
        end
      else (v, n, s)
  | EmptyString => (v, n, s)
  end.

Definition read_digits (s : string) : option (Z * nat * string) :=
  match s with
  | String c s' => if is_digit c then Some (read_digits_go s' (digit_val c) 1) else None
  | EmptyString => None
  end.

Definition read_sign (s : string) : bool * string :=
  match s with
  | String c s' =>
      if Ascii.eqb c "-" then (true, s') else if Ascii.eqb c "+" then (false, s') else (false, s)
  | EmptyString => (false, s)
  end.

(** [int(text)] *)
Definition int_of_string (s : string) : res Z :=
  let '(neg, s1) := read_sign (strip s) in
  match read_digits s1 with
  | Some (v, _, EmptyString) => Ok (if neg then Z.opp v else v)
  | _ => Raise PyValueError "invalid literal for int()"
  end.

Definition lower_char (c : ascii) : ascii :=
  let n := ord c in if ((65 <=? n) && (n <=? 90))%N then chr (n + 32) else c.

Fixpoint str_lower (s : string) : string :=
  match s with EmptyString => EmptyString | String c s => String (lower_char c) (str_lower s) end.

Definition read_exponent (s : string) : option (Z * string) :=
  match s with
  | String c s' =>
      if Ascii.eqb (lower_char c) "e" then
        let '(neg, s1) := read_sign s' in
        match read_digits s1 with
        | Some (v, _, rest) => Some (if neg then Z.opp v else v, rest)
        | None => None
        end
      else Some (0, s)
  | EmptyString => Some (0, s)
  end%Z.

(** [float(text)] *)
Definition float_of_string (s : string) : res spec_float :=
  let bad := Raise PyValueError "could not convert string to float" in
  let '(neg, s1) := read_sign (strip s) in
  if str_in (str_lower s1) ["inf"; "infinity"] then Ok (S754_infinity neg)
  else if String.eqb (str_lower s1) "nan" then Ok S754_nan
  else
    let '(ip, inum, s2) := match read_digits s1 with
      | Some (v, n, r) => (v, n, r) | None => (0%Z, 0%nat, s1) end in
    let '(mant, fnum, s3) := match s2 with
      | String "." r =>
          match r with
          | String c _ =>
              if is_digit c then
                let '(v, n, r') := read_digits_go r ip 0 in (v, n, r')
              else (ip, 0%nat, r)
          | EmptyString => (ip, 0%nat, r)
          end
      | _ => (ip, 0%nat, s2) end in
    if Nat.eqb (inum + fnum) 0 then bad else
    match read_exponent s3 with
    | Some (e, EmptyString) => Ok (f64_of_decimal neg mant (e - Z.of_nat fnum))
    | _ => bad
    end.

(** ** [repr] and [str] *)

Definition hex_digit (n : N) : ascii := if (n <? 10)%N then chr (48 + n) else chr (87 + n).

Definition repr_char (quote : ascii) (c : ascii) : string :=
  let n := ord c in
  if Ascii.eqb c quote || (n =? 92)%N then String (chr 92) (str1 c)
  else if (n =? 9)%N then String (chr 92) "t"
  else if (n =? 10)%N then String (chr 92) "n"
  else if (n =? 13)%N then String (chr 92) "r"
  else if ((n <? 32) || (127 <=? n) && (n <=? 160) || (n =? 173))%N
  then String (chr 92) (String "x" (String (hex_digit (n / 16)) (str1 (hex_digit (n mod 16)))))
  else str1 c.

Definition squote : ascii := chr 39.
Definition dquote : ascii := chr 34.

Definition repr_str (s : string) : string :=
  let q := if str_has squote s && negb (str_has dquote s) then dquote else squote in
  str1 q +:+ fold_right (λ c acc, repr_char q c +:+ acc) EmptyString (str_list s) +:+ str1 q.

(** Shortest decimal that reads back as the same double. *)
Fixpoint ndigits_go (fuel : nat) (z : Z) : Z :=
  match fuel with
  | O => 0
  | S fuel => if Z.leb z 0 then 0 else 1 + ndigits_go fuel (z / 10)
  end.

Fixpoint scale_up (fuel : nat) (num den : Z) : Z :=
  match fuel with
  | O => 0
  | S fuel => if Z.leb den num then 0 else 1 + scale_up fuel (10 * num) den
  end.

Definition decimal_exponent (num den : Z) : Z :=
  if Z.leb den num then ndigits_go 400 (num / den) - 1 else - scale_up 400 num den.

Definition sf_eqb (x y : spec_float) : bool :=
  match x, y with
  | S754_finite s m e, S754_finite s' m' e' =>
      Bool.eqb s s' && Pos.eqb m m' && Z.eqb e e'
  | _, _ => false
  end.

Fixpoint shortest (fuel : nat) (n : Z) (f : spec_float) (num den k : Z) : Z * Z :=
  let e := k - n + 1 in
  let snum := if Z.leb e 0 then num * 10 ^ (- e) else num in
  let sden := if Z.leb e 0 then den else den * 10 ^ e in
  let d0 := snum / sden in
  let r := snum mod sden in
  let near := if Z.ltb (2 * r) sden then d0
              else if Z.ltb sden (2 * r) then d0 + 1
              else if Z.even d0 then d0 else d0 + 1 in
  let far := if Z.eqb near d0 then d0 + 1 else d0 in
  match fuel with
  | O => (near, e)
  | S fuel =>
      if sf_eqb (f64_of_decimal false near e) f then (near, e)
      else if sf_eqb (f64_of_decimal false far e) f then (far, e)
      else shortest fuel (n + 1) f num den k
  end.

Fixpoint trim_zeros (fuel : nat) (d e : Z) : Z * Z :=
  match fuel with
  | O => (d, e)
  | S fuel => if Z.eqb (d mod 10) 0 then trim_zeros fuel (d / 10) (e + 1) else (d, e)
  end.

Definition zeros (n : Z) : string := str_of (replicate (Z.to_nat n) "0"%char).

Definition repr_pos_float (m : positive) (e : Z) : string :=
  let num := if Z.leb 0 e then Z.shiftl (Z.pos m) e else Z.pos m in
  let den := if Z.leb 0 e then 1 else Z.shiftl 1 (- e) in
  let k := decimal_exponent num den in
  let '(d, de) := shortest 17 1 (S754_finite false m e) num den k in
  let '(d, de) := trim_zeros 20 d de in
  let ds := pretty d in
  let nd := Z.of_nat (String.length ds) in
  let decpt := nd + de in
  if Z.ltb 16 decpt || Z.leb decpt (-4) then
    let x := decpt - 1 in
    let xs := pretty (Z.abs x) in
    str_take 1 ds +:+ (if Z.eqb nd 1 then EmptyString else "." +:+ String.substring 1 (Z.to_nat nd) ds)
      +:+ "e" +:+ (if Z.ltb x 0 then "-" else "+")
      +:+ (if Z.ltb (Z.abs x) 10 then "0" +:+ xs else xs)
  else if Z.leb decpt 0 then "0." +:+ zeros (- decpt) +:+ ds
  else if Z.leb nd decpt then ds +:+ zeros (decpt - nd) +:+ ".0"
  else str_take (Z.to_nat decpt) ds +:+ "." +:+ String.substring (Z.to_nat decpt) (Z.to_nat nd) ds.

Definition repr_float (f : spec_float) : string :=
  match f with
  | S754_zero s => if s then "-0.0" else "0.0"
  | S754_infinity s => if s then "-inf" else "inf"
  | S754_nan => "nan"
  | S754_finite s m e => (if s then "-" else EmptyString) +:+ repr_pos_float m e
  end.

Definition comma_join (l : list string) : string := String.concat ", " l.

Fixpoint py_repr (v : json) : string :=
  match v with
  | JNull => "None"
  | JBool b => if b then "True" else "False"
  | JInt z => pretty z
  | JFloat f => repr_float f
  | JStr s => repr_str s
  | JArr l => "[" +:+ comma_join (map py_repr l) +:+ "]"
  | JObj d =>
      "{" +:+ comma_join (map (λ kv, match kv with (k, v) =>
                repr_str k +:+ ": " +:+ py_repr v end) d) +:+ "}"
  end.

(** [str(v)] *)
Definition py_str (v : json) : string :=
  match v with JStr s => s | _ => py_repr v end.

(** ** Conversions *)

(** [int(v)] *)
Definition py_int (v : json) : res Z :=
  match v with
  | JInt z => Ok z
  | JBool b => Ok (if b then 1 else 0)%Z
  | JStr s => int_of_string s
  | JFloat (S754_zero _) => Ok 0%Z
  | JFloat (S754_finite s m e) =>
      let a := if Z.leb 0 e then Z.shiftl (Z.pos m) e else Z.shiftr (Z.pos m) (- e) in
      Ok (if s then Z.opp a else a)
  | JFloat S754_nan => Raise PyValueError "cannot convert float NaN to integer"
  | JFloat (S754_infinity _) => Raise PyOverflowError "cannot convert float infinity to integer"
  | _ => Raise PyTypeError "int() argument"
  end.

(** [float(v)] *)
Definition py_float (v : json) : res spec_float :=
  match v with
  | JFloat f => Ok f
  | JInt z => f64_of_Z z
  | JBool b => f64_of_Z (if b then 1 else 0)
  | JStr s => float_of_string s
  | _ => Raise PyTypeError "float() argument"
  end.

(** [bool(v)], [if v:] *)
Definition truthy (v : json) : bool :=
  match v with
  | JNull => false
  | JBool b => b
  | JInt z => negb (Z.eqb z 0)
  | JFloat (S754_zero _) => false
  | JFloat _ => true
  | JStr s => negb (String.eqb s EmptyString)
  | JArr l => match l with [] => false | _ => true end
  | JObj d => match d with [] => false | _ => true end
  end.

(** [list(v)], [tuple(v)], [for x in v] *)
Definition py_iter (v : json) : res (list json) :=
  match v with
  | JArr l => Ok l
  | JObj d => Ok (map (λ kv, JStr kv.1) d)
  | JStr s => Ok (map (λ c, JStr (str1 c)) (str_list s))
  | _ => Raise PyTypeError "object is not iterable"
  end.

(** One element of the iterable given to [dict()]. *)
Definition py_pair (v : json) : res (string * json) :=
  l ← py_iter v;
  match l with
  | [JStr k; x] => Ok (k, x)
  | _ => Raise PyTypeError "dict() element is not a string-keyed pair"
  end.

(** [dict(v)]: a copy of a dict, or a dict from an iterable of pairs. *)
Definition py_dict (v : json) : res payload :=
  match v with
  | JObj d => Ok d
  | _ => l ← py_iter v; ps ← mapR py_pair l; Ok (dupdate [] ps)
  end.

(** ** Equality *)

Definition num_eq (a b : json) : option bool :=
  let as_z v := match v with JBool b => Some (if b then 1 else 0)%Z | JInt z => Some z | _ => None end in
  match a, b with
  | JFloat x, JFloat y => Some (SFeqb x y)
  | JFloat x, _ => match as_z b with Some z => Some (f64_eq_Z x z) | None => None end
  | _, JFloat y => match as_z a with Some z => Some (f64_eq_Z y z) | None => None end
  | _, _ => match as_z a, as_z b with Some x, Some y => Some (Z.eqb x y) | _, _ => None end
  end.

(** [a == b]: numbers by value ([True == 1 == 1.0]), lists element by element,
    dicts as finite maps. *)
Fixpoint py_eq (a b : json) {struct a} : bool :=
  match a, b with
  | JNull, JNull => true
  | JStr s, JStr t => String.eqb s t
  | JArr l, JArr k =>
      (fix go l k := match l, k with
       | [], [] => true
       | x :: l, y :: k => py_eq x y && go l k
       | _, _ => false
       end) l k
  | JObj d, JObj e =>
      Nat.eqb (length d) (length e) &&
      (fix go d := match d with
       | [] => true
       | (k, v) :: d => match dget k e with Some w => py_eq v w | None => false end && go d
       end) d
  | _, _ => match num_eq a b with Some r => r | None => false end
  end.

(** [v == "literal"] *)
Definition is_lit (v : json) (s : string) : bool :=
  match v with JStr t => String.eqb t s | _ => false end.

Lemma is_lit_py_eq v s : is_lit v s = py_eq v (JStr s).
Proof. destruct v as [| | |[]| | |]; reflexivity. Qed.

(** [v in l] for a tuple or list. *)
Definition jmem (v : json) (l : list json) : bool := existsb (λ w, py_eq w v) l.

(** Values that may be dict keys or set elements. *)
Definition hashable (v : json) : bool := match v with JArr _ | JObj _ => false | _ => true end.

(** A dict with arbitrary hashable keys: [d.get(k)] and [d[k] = v]. *)
Section jdict.
Context {V : Type}.
Implicit Types d : list (json * V).

Fixpoint jd_get (k : json) d : option V :=
  match d with
  | [] => None
  | (k', v) :: d => if py_eq k' k then Some v else jd_get k d
  end.

Fixpoint jd_put (k : json) (v : V) d : list (json * V) :=
  match d with
  | [] => [(k, v)]
  | (k', v') :: d => if py_eq k' k then (k', v) :: d else (k', v') :: jd_put k v d
  end.

Definition jd_set (k : json) (v : V) d : res (list (json * V)) :=
  if hashable k then Ok (jd_put k v d) else Raise PyTypeError "unhashable type".
End jdict.

(** [sub in s] for strings. *)
Fixpoint str_contains (sub s : string) : bool :=
  String.prefix sub s || match s with String _ s => str_contains sub s | EmptyString => false end.

(** [k in v] for a value that may be a dict, a list or a string. *)
Definition jin (k : string) (v : json) : res bool :=
  match v with
  | JObj d => Ok (dmem k d)
  | JArr l => Ok (jmem (JStr k) l)
  | JStr s => Ok (str_contains k s)
  | _ => Raise PyTypeError "argument is not iterable"
  end.

(** Option-typed attributes as values. *)
Definition jopt (o : option string) : json := match o with Some s => JStr s | None => JNull end.
Definition jopt_obj {A} (f : A → json) (o : option A) : json :=
  match o with Some a => f a | None => JNull end.
Definition jstrs (l : list string) : json := JArr (map JStr l).

(** [x or None] and truth of an optional string. *)
Definition opt_truthy (o : option string) : bool :=
  match o with Some s => negb (String.eqb s EmptyString) | None => false end.

(** The [_optional_str] helper shared by [domain/session.py] and [control/runnable_feed.py]. *)
Definition optional_str (v : json) : option string :=
  match v with
  | JNull => None
  | _ => let text := strip (py_str v) in
         if String.eqb text EmptyString then None else Some text
  end.

(** ** Stripping is idempotent *)

Lemma lstrip_idemp s : lstrip (lstrip s) = lstrip s.
Proof.
  induction s as [|c s IH]; simpl; [done|].
  destruct (is_space c) eqn:E; [done|]. simpl. by rewrite E.
Qed.

Lemma rstrip_idemp s : rstrip (rstrip s) = rstrip s.
Proof.
  induction s as [|c s IH]; simpl; [done|].
  destruct (rstrip s) as [|c' t] eqn:E.
  - destruct (is_space c) eqn:Ec; simpl; [done|]. by rewrite Ec.
  - simpl in *. by rewrite IH.
Qed.

Lemma lstrip_rstrip s : lstrip s = s → lstrip (rstrip s) = rstrip s.
Proof.
  destruct s as [|c s]; simpl; [done|].
  destruct (is_space c) eqn:Ec.
  - intros H. exfalso.
    assert (∀ t, String.length (lstrip t) ≤ String.length t)%nat as Hlen.
    { induction t as [|x t IH]; simpl; [done|]. destruct (is_space x); simpl; lia. }
    specialize (Hlen s). rewrite H in Hlen. simpl in Hlen. lia.
  - intros _. destruct (rstrip s); simpl; by rewrite Ec.
Qed.

Lemma strip_idemp s : strip (strip s) = strip s.
Proof.
  unfold strip. rewrite lstrip_rstrip by apply lstrip_idemp. apply rstrip_idemp.
Qed.

(** What [optional_str] stores is what a second pass stores. *)
Lemma optional_str_Some v s : optional_str v = Some s → optional_str (JStr s) = Some s.
Proof.
  assert (∀ t, (if String.eqb (strip t) EmptyString then None else Some (strip t)) = Some s →
    optional_str (JStr s) = Some s) as H.
  { intros t. destruct (String.eqb_spec (strip t) EmptyString) as [E|E]; [done|].
    intros; simplify_eq. simpl. rewrite strip_idemp.
    by destruct (String.eqb_spec (strip t) EmptyString). }
  destruct v; try apply H; done.
Qed.

Lemma optional_str_idemp v : optional_str (jopt (optional_str v)) = optional_str v.
Proof.
  destruct (optional_str v) eqn:E; [|done]. by eapply optional_str_Some.
Qed.
#[export] Hint Rewrite optional_str_idemp strip_idemp : aura.

(** ** Sanity checks against CPython *)
Example repr_ex1 : py_repr (JArr [JFloat (f64_of_decimal false 1 (-1)); JInt (-3); JStr "it's"; JNull])
  = "[0.1, -3, " +:+ str1 dquote +:+ "it's" +:+ str1 dquote +:+ ", None]".
Proof. vm_compute. reflexivity. Qed.
Example repr_ex2 : map repr_float [f64_of_decimal false 15 15; f64_of_decimal false 1 16;
   f64_of_decimal false 12 (-6); f64_of_decimal false 314159 (-5); f64_of_decimal true 5 (-324)]
  = ["1.5e+16"; "1e+16"; "1.2e-05"; "3.14159"; "-5e-324"].
Proof. vm_compute. reflexivity. Qed.
Example float_ex1 : float_of_string " 1_0.5e-1 " = Ok (f64_of_decimal false 105 (-2)).
Proof. vm_compute. reflexivity. Qed.
Example sum_ex1 : repr_float (f64_sum (replicate 10 (f64_of_decimal false 1 (-1)))) = "1.0".
Proof. vm_compute. reflexivity. Qed.
Example eq_ex1 : py_eq (JObj [("a", JInt 1); ("b", JNull)]) (JObj [("b", JNull); ("a", JFloat (f64_of_decimal false 1 0))]) = true.
Proof. vm_compute. reflexivity. Qed.
