(* ===== verification/DateTime.v ===== *)
(** * Instants and their ISO-8601 text

    A timezone-aware [datetime] in UTC is the number of microseconds since
    1970-01-01T00:00:00Z, a [timedelta] a number of microseconds.  [isoformat]
    is [datetime.isoformat] of a UTC value, [fromisoformat] the extended-format
    part of [datetime.fromisoformat] (calendar dates with dashes, times with
    colons, an optional fraction and offset; basic and week-date forms are
    rejected).  The main lemma is the round trip of an instant between the years
    1 and 9999. *)

From Stdlib Require Import Ascii.
From S2P Require Import Prelude PyValue.
Local Open Scope Z_scope.
Local Ltac Zify.zify_post_hook ::= Z.to_euclidean_division_equations.

Definition second : Z := 1000000.
Definition minute : Z := 60 * second.
Definition hour : Z := 60 * minute.
Definition day : Z := 24 * hour.

(** ** The proleptic Gregorian calendar *)

(** Years are counted from March inside a 400-year era: [n100] centuries, [n4]
    four-year cycles, [n1] years and [doy] days. *)
Definition era_split (doe : Z) : Z * Z * Z * Z :=
  let n100 := Z.min 3 (doe / 36524) in
  let r := doe - n100 * 36524 in
  let n4 := r / 1461 in
  let r4 := r mod 1461 in
  let n1 := Z.min 3 (r4 / 365) in
  (n100, n4, n1, r4 - n1 * 365).

Definition civil_from_days (z : Z) : Z * Z * Z :=
  let z := z + 719468 in
  let era := z / 146097 in
  let doe := z mod 146097 in
  let '(n100, n4, n1, doy) := era_split doe in
  let yoe := 100 * n100 + 4 * n4 + n1 in
  let mp := (5 * doy + 2) / 153 in
  let d := doy - (153 * mp + 2) / 5 + 1 in
  let m := if mp <? 10 then mp + 3 else mp - 9 in
  let y := yoe + era * 400 + (if m <=? 2 then 1 else 0) in
  (y, m, d).

Definition days_from_civil (y m d : Z) : Z :=
  let y' := if m <=? 2 then y - 1 else y in
  let era := y' / 400 in
  let yoe := y' mod 400 in
  let doy := (153 * (if 2 <? m then m - 3 else m + 9) + 2) / 5 + d - 1 in
  let doe := yoe * 365 + yoe / 4 - yoe / 100 + doy in
  era * 146097 + doe - 719468.

Definition is_leap (y : Z) : bool :=
  (y mod 4 =? 0) && (negb (y mod 100 =? 0) || (y mod 400 =? 0)).

Definition days_in_month (y m : Z) : Z :=
  if m =? 2 then (if is_leap y then 29 else 28)
  else if (m =? 4) || (m =? 6) || (m =? 9) || (m =? 11) then 30 else 31.

Definition valid_date (y m d : Z) : bool :=
  (1 <=? y) && (y <=? 9999) && (1 <=? m) && (m <=? 12) && (1 <=? d) && (d <=? days_in_month y m).

Lemma era_split_spec doe :
  0 ≤ doe < 146097 →
  let '(n100, n4, n1, doy) := era_split doe in
  0 ≤ n100 ≤ 3 ∧ 0 ≤ n4 ≤ 24 ∧ 0 ≤ n1 ≤ 3 ∧ 0 ≤ doy ≤ 365
  ∧ doe = n100 * 36524 + n4 * 1461 + n1 * 365 + doy
  ∧ (doy = 365 → n1 = 3 ∧ (n4 < 24 ∨ n100 = 3)).
Proof. unfold era_split. intros. split_and!; lia. Qed.

(** Month and day of a day counted from March 1st. *)
Lemma march_day doy :
  0 ≤ doy ≤ 365 →
  let mp := (5 * doy + 2) / 153 in
  0 ≤ mp ≤ 11 ∧ 0 ≤ doy - (153 * mp + 2) / 5
  ∧ doy - (153 * mp + 2) / 5 + 1 ≤
    (if mp =? 11 then (if doy =? 365 then 29 else 28)
     else if (mp =? 1) || (mp =? 3) || (mp =? 6) || (mp =? 8) then 30 else 31).
Proof.
  intros Hdoy mp. assert (0 ≤ mp ≤ 11) as Hmp by (unfold mp; lia). split; [done|].
  assert (mp * 153 ≤ 5 * doy + 2 < mp * 153 + 153) as Hb by (unfold mp; lia). clearbody mp.
  assert (mp = 0 ∨ mp = 1 ∨ mp = 2 ∨ mp = 3 ∨ mp = 4 ∨ mp = 5 ∨ mp = 6 ∨ mp = 7 ∨ mp = 8
    ∨ mp = 9 ∨ mp = 10 ∨ mp = 11) as Hx by lia.
  repeat (destruct Hx as [->|Hx]); subst; cbn; try case_match; lia.
Qed.

Lemma civil_roundtrip z :
  let '(y, m, d) := civil_from_days z in
  days_from_civil y m d = z ∧ 1 ≤ m ≤ 12 ∧ 1 ≤ d ≤ days_in_month y m.
Proof.
  unfold civil_from_days. cbv zeta.
  set (era := (z + 719468) / 146097). set (doe := (z + 719468) mod 146097).
  assert (0 ≤ doe < 146097) as Hdoe by (apply Z.mod_pos_bound; lia).
  assert (z = era * 146097 + doe - 719468) as Hz by (unfold doe, era; lia). clearbody era doe.
  pose proof (era_split_spec doe Hdoe) as H.
  destruct (era_split doe) as [[[a b] c] doy]. destruct H as (Ha & Hb & Hc & Hdoy & Hsum & Hleap).
  pose proof (march_day doy Hdoy) as Hmd. cbv zeta in Hmd.
  set (mp := (5 * doy + 2) / 153) in *. destruct Hmd as (Hmp & Hd0 & Hd1). clearbody mp.
  set (yoe := 100 * a + 4 * b + c).
  assert (yoe / 4 = 25 * a + b ∧ yoe / 100 = a) as [H4 H100] by (unfold yoe; lia).
  assert (0 ≤ yoe < 400) as Hyoe by (unfold yoe; lia).
  assert ((era * 400 + yoe) / 400 = era ∧ (era * 400 + yoe) mod 400 = yoe) as [He Hy] by lia.
  destruct (mp <? 10) eqn:Emp; bool_props.
  - rewrite (proj2 (Z.leb_gt (mp + 3) 2)) by lia. unfold days_from_civil.
    rewrite (proj2 (Z.leb_gt (mp + 3) 2)), (proj2 (Z.ltb_lt 2 (mp + 3))) by lia. cbv zeta.
    replace (yoe + era * 400 + 0) with (era * 400 + yoe) by lia. rewrite He, Hy, H4, H100.
    replace (mp + 3 - 3) with mp by lia. split_and!; try lia.
    unfold days_in_month. rewrite (proj2 (Z.eqb_neq (mp + 3) 2)) by lia.
    repeat case_match; lia.
  - rewrite (proj2 (Z.leb_le (mp - 9) 2)) by lia. unfold days_from_civil.
    rewrite (proj2 (Z.leb_le (mp - 9) 2)), (proj2 (Z.ltb_ge 2 (mp - 9))) by lia. cbv zeta.
    replace (yoe + era * 400 + 1 - 1) with (era * 400 + yoe) by lia. rewrite He, Hy, H4, H100.
    replace (mp - 9 + 9) with mp by lia. split_and!; try lia.
    unfold days_in_month, is_leap. unfold yoe in *. repeat case_match; lia.
Qed.

(** ** Printing *)

Definition digit (n : Z) : ascii := chr (48 + Z.to_N (n mod 10)).
Definition pad2 (n : Z) (s : string) : string := String (digit (n / 10)) (String (digit n) s).
Definition pad4 (n : Z) (s : string) : string := pad2 (n / 100) (pad2 (n mod 100) s).
Definition pad6 (n : Z) (s : string) : string := pad2 (n / 10000) (pad4 (n mod 10000) s).

Definition time_text (always_micro : bool) (tod : Z) : string :=
  let us := tod mod second in
  pad2 (tod / hour) (String ":" (pad2 (tod / minute mod 60) (String ":"
    (pad2 (tod / second mod 60)
      (if (us =? 0) && negb always_micro then "+00:00"
       else String "." (pad6 us "+00:00")))))).

(** [t.isoformat()], and with [timespec="microseconds"]. *)
Definition iso_text (always_micro : bool) (t : Z) : string :=
  let '(y, m, d) := civil_from_days (t / day) in
  pad4 y (String "-" (pad2 m (String "-" (pad2 d
    (String "T" (time_text always_micro (t mod day))))))).

Definition isoformat : Z → string := iso_text false.
Definition isoformat_micro : Z → string := iso_text true.

(** ** Parsing *)

Definition read2 (s : string) : option (Z * string) :=
  match s with
  | String a (String b s) =>
      if is_digit a && is_digit b then Some (10 * digit_val a + digit_val b, s) else None
  | _ => None
  end.

Definition read4 (s : string) : option (Z * string) :=
  '(a, s) ← read2 s; '(b, s) ← read2 s; Some (100 * a + b, s).

Definition read_char (c : ascii) (s : string) : option string :=
  match s with String c' s => if Ascii.eqb c c' then Some s else None | _ => None end.

(** A fraction: at least one digit, those after the sixth are dropped. *)
Fixpoint read_frac (n : nat) (v : Z) (s : string) : Z * nat * string :=
  match s with
  | String c s' =>
      if is_digit c
      then match n with
           | O => let '(v', _, r) := read_frac O v s' in (v', O, r)
           | S n => read_frac n (10 * v + digit_val c) s'
           end
      else (v, n, s)
  | EmptyString => (v, n, s)
  end.

(** [HH[:MM[:SS[.ffffff]]]] in microseconds. *)
Definition read_time (s : string) : option (Z * string) :=
  '(h, s) ← read2 s;
  match read_char ":" s with
  | None => Some (h * hour, s)
  | Some s =>
      '(mi, s) ← read2 s;
      match read_char ":" s with
      | None => if mi <? 60 then Some (h * hour + mi * minute, s) else None
      | Some s =>
          '(sec, s) ← read2 s;
          let base := h * hour + mi * minute + sec * second in
          if negb ((mi <? 60) && (sec <? 60)) then None else
          match s with
          | String c s' =>
              if Ascii.eqb c "." || Ascii.eqb c "," then
                match s' with
                | String c' _ =>
                    if is_digit c' then
                      let '(v, n, r) := read_frac 6 0 s' in
                      Some (base + v * 10 ^ Z.of_nat n, r)
                    else None
                | EmptyString => None
                end
              else Some (base, s)
          | EmptyString => Some (base, s)
          end
      end
  end.

(** The offset: none (naive), [Z], or [+HH[:MM...]] strictly within a day. *)
Definition read_offset (s : string) : option (option Z) :=
  match s with
  | EmptyString => Some None
  | String "Z" EmptyString => Some (Some 0)
  | String c s' =>
      if Ascii.eqb c "+" || Ascii.eqb c "-" then
        match read_time s' with
        | Some (o, EmptyString) =>
            if o <? day then Some (Some (if Ascii.eqb c "-" then - o else o)) else None
        | _ => None
        end
      else None
  end.

(** A parsed datetime: its wall clock as an instant, and its offset if it has one. *)
Definition parse_iso (s : string) : option (Z * option Z) :=
  '(y, s) ← read4 s;
  s ← read_char "-" s;
  '(m, s) ← read2 s;
  s ← read_char "-" s;
  '(d, s) ← read2 s;
  if negb (valid_date y m d) then None else
  let date := days_from_civil y m d * day in
  match s with
  | EmptyString => Some (date, None)
  | String _ s =>
      '(t, s) ← read_time s;
      if negb (t <? day) then None else
      o ← read_offset s;
      Some (date + t, o)
  end.

Definition fromisoformat (s : string) : res (Z * option Z) :=
  match parse_iso s with
  | Some r => Ok r
  | None => Raise PyValueError "Invalid isoformat string"
  end.

(** The instant of a parsed datetime, a naive one read as UTC
    ([_aware_expires_at] of [domain/approval.py]). *)
Definition aware_instant (s : string) : res Z :=
  '(t, o) ← fromisoformat s; Ok (match o with Some o => t - o | None => t end).

(** ** Round trip *)

Lemma digit_ok n : is_digit (digit n) = true ∧ digit_val (digit n) = n mod 10.
Proof.
  unfold digit. pose proof (Z.mod_pos_bound n 10 ltac:(lia)) as H.
  remember (n mod 10) as x eqn:E; clear E.
  assert (x = 0 ∨ x = 1 ∨ x = 2 ∨ x = 3 ∨ x = 4 ∨ x = 5 ∨ x = 6 ∨ x = 7 ∨ x = 8 ∨ x = 9)
    as Hx by lia.
  repeat (destruct Hx as [->|Hx]; [by split|]). by subst.
Qed.

Lemma read2_pad2 n s : 0 ≤ n < 100 → read2 (pad2 n s) = Some (n, s).
Proof.
  intros Hn. unfold read2, pad2.
  destruct (digit_ok (n / 10)) as [-> Ha], (digit_ok n) as [-> Hb]. cbn [andb].
  rewrite Ha, Hb. do 2 f_equal.
  rewrite (Z.mod_small (n / 10)); [|split; [apply Z.div_pos|apply Z.div_lt_upper_bound]; lia].
  symmetry. apply Z.div_mod. lia.
Qed.

Lemma read4_pad4 n s : 0 ≤ n < 10000 → read4 (pad4 n s) = Some (n, s).
Proof.
  intros Hn. unfold read4, pad4.
  rewrite read2_pad2 by (split; [apply Z.div_pos|apply Z.div_lt_upper_bound]; lia).
  cbn [mbind option_bind]. rewrite read2_pad2 by (apply Z.mod_pos_bound; lia).
  cbn [mbind option_bind].
  by rewrite <- Z.div_mod by lia.
Qed.

Lemma read_frac_digit n v c s :
  is_digit c = true → read_frac (S n) v (String c s) = read_frac n (10 * v + digit_val c) s.
Proof. intros H. simpl. by rewrite H. Qed.

Lemma read_frac_pad2 n v k s :
  0 ≤ k < 100 → read_frac (S (S n)) v (pad2 k s) = read_frac n (100 * v + k) s.
Proof.
  intros Hk. unfold pad2.
  destruct (digit_ok (k / 10)) as [Ha Hva], (digit_ok k) as [Hb Hvb].
  rewrite read_frac_digit by done. rewrite read_frac_digit by done. rewrite Hva, Hvb.
  rewrite (Z.mod_small (k / 10)) by (split; [apply Z.div_pos|apply Z.div_lt_upper_bound]; lia).
  f_equal. pose proof (Z.div_mod k 10 ltac:(lia)). lia.
Qed.

Lemma read_frac_pad6 us :
  0 ≤ us < second → read_frac 6 0 (pad6 us "+00:00") = (us, O, "+00:00").
Proof.
  unfold second. intros Hus. unfold pad6, pad4.
  pose proof (Z.mod_pos_bound us 10000 ltac:(lia)).
  pose proof (Z.mod_pos_bound (us mod 10000) 100 ltac:(lia)).
  assert (0 ≤ us / 10000 < 100) by (split; [apply Z.div_pos|apply Z.div_lt_upper_bound]; lia).
  assert (0 ≤ us mod 10000 / 100 < 100) by (split; [apply Z.div_pos|apply Z.div_lt_upper_bound]; lia).
  rewrite !read_frac_pad2 by done. cbn -[Z.mul Z.div Z.modulo]. f_equal. f_equal.
  pose proof (Z.div_mod us 10000 ltac:(lia)).
  pose proof (Z.div_mod (us mod 10000) 100 ltac:(lia)). lia.
Qed.

Lemma pad6_head us s : ∃ c r, pad6 us s = String c r ∧ is_digit c = true.
Proof. unfold pad6, pad2. do 2 eexists. split; [done|]. apply digit_ok. Qed.

(** The time of day, printed and read back. *)
Lemma read_time_roundtrip micro tod :
  0 ≤ tod < day →
  read_time (time_text micro tod)
  = Some (tod, "+00:00").
Proof.
  unfold time_text, day, hour, minute. intros Htod.
  set (us := tod mod second). pose proof (Z.mod_pos_bound tod second ltac:(unfold second; lia)) as Hus.
  fold us in Hus.
  assert (tod = (tod / (60 * (60 * second))) * (60 * (60 * second))
              + (tod / (60 * second) mod 60) * (60 * second)
              + (tod / second mod 60) * second + us) as Hsum.
  { unfold us, second in *. lia. }
  assert (0 ≤ tod / (60 * (60 * second)) < 100) by (unfold second in *; lia).
  pose proof (Z.mod_pos_bound (tod / (60 * second)) 60 ltac:(lia)).
  pose proof (Z.mod_pos_bound (tod / second) 60 ltac:(lia)).
  unfold read_time. rewrite read2_pad2 by lia. cbn -[second pad2 pad6 read2 Z.mul Z.div Z.modulo].
  rewrite read2_pad2 by lia. cbn -[second pad2 pad6 read2 Z.mul Z.div Z.modulo].
  rewrite read2_pad2 by lia. cbn -[second pad2 pad6 read_frac Z.mul Z.div Z.modulo].
  rewrite (proj2 (Z.ltb_lt (tod / (60 * second) mod 60) 60)) by lia.
  rewrite (proj2 (Z.ltb_lt (tod / second mod 60) 60)) by lia.
  cbn -[second pad2 pad6 read_frac Z.mul Z.div Z.modulo].
  destruct ((us =? 0) && negb micro) eqn:E; cbn -[second pad2 pad6 read_frac Z.mul Z.div Z.modulo].
  - bool_props. unfold hour, minute. do 2 f_equal. clearbody us. subst us. revert Hsum. clear - tod.
    generalize (tod / (60 * (60 * second))), (tod / (60 * second) mod 60), (tod / second mod 60).
    unfold second. lia.
  - destruct (pad6_head us "+00:00") as (c & r & Hp & Hc). rewrite Hp, Hc, <- Hp.
    rewrite read_frac_pad6 by done. unfold hour, minute. do 2 f_equal. clearbody us.
    revert Hsum. clear - tod us.
    generalize (tod / (60 * (60 * second))), (tod / (60 * second) mod 60), (tod / second mod 60).
    unfold second. lia.
Qed.

(** Instants of the years 1 to 9999. *)
Definition in_datetime_range (t : Z) : Prop :=
  days_from_civil 1 1 1 * day ≤ t < days_from_civil 10000 1 1 * day.

Lemma days_from_civil_year y m d :
  1 ≤ m ≤ 12 → 1 ≤ d ≤ days_in_month y m →
  days_from_civil y 1 1 ≤ days_from_civil y m d < days_from_civil (y + 1) 1 1.
Proof.
  intros Hm Hd. unfold days_from_civil, days_in_month, is_leap in *.
  assert (m = 1 ∨ m = 2 ∨ m = 3 ∨ m = 4 ∨ m = 5 ∨ m = 6 ∨ m = 7 ∨ m = 8 ∨ m = 9 ∨ m = 10
          ∨ m = 11 ∨ m = 12) as Hx by lia.
  repeat (destruct Hx as [->|Hx]); subst; simpl in *;
    repeat match goal with H : context [if ?b then _ else _] |- _ => destruct b eqn:? end; lia.
Qed.

Lemma year_mono y y' : y ≤ y' → days_from_civil y 1 1 ≤ days_from_civil y' 1 1.
Proof. unfold days_from_civil; simpl. lia. Qed.

Lemma range_valid t :
  in_datetime_range t →
  let '(y, m, d) := civil_from_days (t / day) in
  days_from_civil y m d = t / day ∧ valid_date y m d = true ∧ 0 ≤ y < 10000.
Proof.
  intros [Hlo Hhi]. pose proof (civil_roundtrip (t / day)) as H.
  destruct (civil_from_days (t / day)) as [[y m] d]. destruct H as (Hd & Hm & Hdd).
  pose proof (days_from_civil_year y m d Hm Hdd) as Hyr.
  assert (days_from_civil 1 1 1 ≤ t / day) by (apply Z.div_le_lower_bound; unfold day, hour, minute, second in *; lia).
  assert (t / day < days_from_civil 10000 1 1) by (apply Z.div_lt_upper_bound; unfold day, hour, minute, second in *; lia).
  assert (1 ≤ y).
  { destruct (Z.lt_ge_cases y 1) as [Hy|]; [|done].
    pose proof (year_mono (y + 1) 1 ltac:(lia)). lia. }
  assert (y < 10000).
  { destruct (Z.lt_ge_cases y 10000) as [|Hy]; [done|].
    pose proof (year_mono 10000 y ltac:(lia)). lia. }
  split_and!; try lia. unfold valid_date. lia.
Qed.

Lemma iso_roundtrip micro t :
  in_datetime_range t → fromisoformat (iso_text micro t) = Ok (t, Some 0).
Proof.
  intros Ht. pose proof (range_valid t Ht) as H. unfold fromisoformat, iso_text, parse_iso.
  assert (0 ≤ t mod day < day) as Htod by (apply Z.mod_pos_bound; done).
  destruct (civil_from_days (t / day)) as [[y m] d]. destruct H as (Hd & Hv & Hy).
  assert (1 ≤ m ≤ 12 ∧ 1 ≤ d ≤ 31) as [Hm Hd31].
  { unfold valid_date in Hv. bool_props. split; [lia|].
    unfold days_in_month in *. repeat case_match; lia. }
  rewrite read4_pad4 by lia. cbn [mbind option_bind].
  cbn [read_char]. rewrite Ascii.eqb_refl. cbn [mbind option_bind].
  rewrite read2_pad2 by lia. cbn [mbind option_bind read_char]. rewrite Ascii.eqb_refl.
  cbn [mbind option_bind]. rewrite read2_pad2 by lia. cbn [mbind option_bind].
  rewrite Hv. cbn [negb]. rewrite read_time_roundtrip by done. cbn [mbind option_bind].
  rewrite (proj2 (Z.ltb_lt _ _)) by lia. cbn -[day Z.mul Z.add Z.div Z.modulo].
  rewrite Hd. do 2 f_equal. pose proof (Z.div_mod t day ltac:(done)). lia.
Qed.

Lemma aware_isoformat t : in_datetime_range t → aware_instant (isoformat t) = Ok t.
Proof.
  intros. unfold aware_instant, isoformat. rewrite iso_roundtrip by done. simpl. f_equal. lia.
Qed.

Example iso_ex : isoformat 1700000000123456 = "2023-11-14T22:13:20.123456+00:00".
Proof. vm_compute. reflexivity. Qed.
Example iso_ex2 : aware_instant "2024-02-29T01:00:00.5+01:00" = aware_instant "2024-02-29 00:00:00.500Z".
Proof. vm_compute. reflexivity. Qed.
