(* ===== verification/Digest.v ===== *)
(** * Canonical JSON text and SHA-256

    The identities the services derive: [json.dumps(..., sort_keys=True,
    separators=(",", ":"))], [str.encode] and [hashlib.sha256(...).hexdigest()],
    computed inside the logic. *)

From Stdlib Require Import Ascii.
From S2P Require Import Prelude PyValue.
Local Open Scope Z_scope.

(** ** [json.dumps] *)

Definition hex4 (n : N) : string :=
  str_of [chr 92; "u"%char; "0"%char; "0"%char; hex_digit (n / 16); hex_digit (n mod 16)].

(** One character of a JSON string; [ascii_only] is [ensure_ascii]. *)
Definition json_char (ascii_only : bool) (c : ascii) : string :=
  let n := ord c in
  if (n =? 34)%N || (n =? 92)%N then str_of [chr 92; c]
  else if (n =? 8)%N then str_of [chr 92; "b"%char]
  else if (n =? 9)%N then str_of [chr 92; "t"%char]
  else if (n =? 10)%N then str_of [chr 92; "n"%char]
  else if (n =? 12)%N then str_of [chr 92; "f"%char]
  else if (n =? 13)%N then str_of [chr 92; "r"%char]
  else if (n <? 32)%N || ascii_only && (127 <=? n)%N then hex4 n
  else str1 c.

Definition json_string (ascii_only : bool) (s : string) : string :=
  str1 dquote
  +:+ fold_right (λ c acc, json_char ascii_only c +:+ acc) EmptyString (str_list s)
  +:+ str1 dquote.

Definition json_float (f : SpecFloat.spec_float) : string :=
  match f with
  | SpecFloat.S754_nan => "NaN"
  | SpecFloat.S754_infinity s => if s then "-Infinity" else "Infinity"
  | _ => repr_float f
  end.

(** The members of an object in key order. *)
Definition sort_members {V} : list (string * V) → list (string * V) :=
  py_sorted (λ a b, String.leb a.1 b.1).

(** The text, with or without [sort_keys], with the separators of items and of keys. *)
Fixpoint json_text (sort_keys : bool) (item_sep key_sep : string) (ascii_only : bool) (v : json) : string :=
  match v with
  | JNull => "null"
  | JBool b => if b then "true" else "false"
  | JInt z => pretty z
  | JFloat f => json_float f
  | JStr s => json_string ascii_only s
  | JArr l => "[" +:+ String.concat item_sep (map (json_text sort_keys item_sep key_sep ascii_only) l) +:+ "]"
  | JObj d =>
      let members := map (λ kv, match kv with (k, v) => (k, json_text sort_keys item_sep key_sep ascii_only v) end) d in
      "{" +:+ String.concat item_sep
        (map (λ kv, json_string ascii_only kv.1 +:+ key_sep +:+ kv.2) (if sort_keys then sort_members members else members)) +:+ "}"
  end.

(** [separators=(",", ":")] and the default separators. *)
Definition json_dumps : bool → json → string := json_text true "," ":".
Definition json_dumps_spaced : json → string := json_text true ", " ": " true.

(** [str.encode()]: UTF-8 of Latin-1 code points. *)
Definition utf8 (s : string) : list Z :=
  List.flat_map (λ c, let n := Z.of_N (ord c) in
    if n <? 128 then [n] else [192 + n / 64; 128 + n mod 64]) (str_list s).

(** ** SHA-256 *)

Definition mask32 (z : Z) : Z := Z.land z 4294967295.
Definition add32 (a b : Z) : Z := mask32 (a + b).
Definition rotr (n x : Z) : Z := mask32 (Z.lor (Z.shiftr x n) (Z.shiftl x (32 - n))).
Definition ch (x y z : Z) : Z := Z.lxor (Z.land x y) (Z.land (Z.lxor x 4294967295) z).
Definition maj (x y z : Z) : Z := Z.lxor (Z.land x y) (Z.lxor (Z.land x z) (Z.land y z)).
Definition bsig0 (x : Z) : Z := Z.lxor (rotr 2 x) (Z.lxor (rotr 13 x) (rotr 22 x)).
Definition bsig1 (x : Z) : Z := Z.lxor (rotr 6 x) (Z.lxor (rotr 11 x) (rotr 25 x)).
Definition ssig0 (x : Z) : Z := Z.lxor (rotr 7 x) (Z.lxor (rotr 18 x) (Z.shiftr x 3)).
Definition ssig1 (x : Z) : Z := Z.lxor (rotr 17 x) (Z.lxor (rotr 19 x) (Z.shiftr x 10)).

(** The constants are the first 32 bits of the fractional parts of the cube roots
    (rounds) and square roots (initial state) of the first primes. *)
Fixpoint primes_go (fuel : nat) (n : Z) (found : list Z) : list Z :=
  match fuel with
  | O => found
  | S fuel => primes_go fuel (n + 1)
      (if forallb (λ p, negb (n mod p =? 0)) found then found ++ [n] else found)
  end.

(** The largest [r] with [r ^ 3 <= n], bit by bit from [2 ^ k] down. *)
Fixpoint cbrt_go (k : nat) (n r : Z) : Z :=
  let r' := r + 2 ^ Z.of_nat k in
  let r := if r' ^ 3 <=? n then r' else r in
  match k with O => r | S k => cbrt_go k n r end.

Definition k256 : list Z :=
  Eval vm_compute in map (λ p, mask32 (cbrt_go 40 (p * 2 ^ 96) 0)) (primes_go 310 2 []).
Definition h256 : list Z :=
  Eval vm_compute in map (λ p, mask32 (Z.sqrt (p * 2 ^ 64))) (take 8 (primes_go 310 2 [])).

Example k256_length : length k256 = 64%nat ∧ length h256 = 8%nat.
Proof. split; reflexivity. Qed.

(** Length field of the padding: 64 bits, big endian. *)
Definition be64 (n : Z) : list Z :=
  map (λ i, Z.land (Z.shiftr n (8 * i)) 255) [7; 6; 5; 4; 3; 2; 1; 0].

Definition sha_pad (msg : list Z) : list Z :=
  let n := Z.of_nat (length msg) in
  msg ++ [128] ++ replicate (Z.to_nat ((55 - n) mod 64)) 0 ++ be64 (8 * n).

Fixpoint words (bs : list Z) : list Z :=
  match bs with
  | a :: b :: c :: d :: bs =>
      Z.lor (Z.shiftl a 24) (Z.lor (Z.shiftl b 16) (Z.lor (Z.shiftl c 8) d)) :: words bs
  | _ => []
  end.

(** The message schedule, newest word first: 16 words in, [n] more added. *)
Fixpoint schedule (n : nat) (w : list Z) : list Z :=
  match n with
  | O => w
  | S n =>
      let x := add32 (add32 (ssig1 (nth 1 w 0)) (nth 6 w 0))
                     (add32 (ssig0 (nth 14 w 0)) (nth 15 w 0)) in
      schedule n (x :: w)
  end.

Definition sha_round (st : list Z) (kw : Z * Z) : list Z :=
  match st with
  | [a; b; c; d; e; f; g; h] =>
      let t1 := add32 (add32 h (bsig1 e)) (add32 (ch e f g) (add32 kw.1 kw.2)) in
      let t2 := add32 (bsig0 a) (maj a b c) in
      [add32 t1 t2; a; b; c; add32 d t1; e; f; g]
  | _ => st
  end.

Definition sha_block (st block : list Z) : list Z :=
  let w := rev (schedule 48 (rev block)) in
  zip_with add32 st (fold_left sha_round (zip k256 w) st).

Fixpoint blocks (fuel : nat) (ws : list Z) : list (list Z) :=
  match fuel, ws with
  | S fuel, _ :: _ => take 16 ws :: blocks fuel (drop 16 ws)
  | _, _ => []
  end.

Definition hex32 (w : Z) : string :=
  str_of (map (λ i, hex_digit (Z.to_N (Z.land (Z.shiftr w (4 * i)) 15))) [7; 6; 5; 4; 3; 2; 1; 0]).

(** [hashlib.sha256(bytes).hexdigest()] *)
Definition sha256_hex (msg : list Z) : string :=
  let ws := words (sha_pad msg) in
  String.concat EmptyString (map hex32 (fold_left sha_block (blocks (length ws) ws) h256)).

Example sha_ex1 : sha256_hex (utf8 "abc")
  = "ba7816bf8f01cfea414140de5dae2223b00361a396177a9cb410ff61f20015ad".
Proof. vm_compute. reflexivity. Qed.
Example sha_ex2 : sha256_hex (utf8 "abcdbcdecdefdefgefghfghighijhijkijkljklmklmnlmnomnopnopq")
  = "248d6a61d20638b8e5c026930c3e6039a33ce45964ff2167f6ecedd419db06c1".
Proof. vm_compute. reflexivity. Qed.
Example dumps_ex : json_dumps false (JObj [("b", JArr [JInt 1; JNull]); ("a", JBool true)])
  = "{" +:+ str1 dquote +:+ "a" +:+ str1 dquote +:+ ":true," +:+ str1 dquote +:+ "b" +:+ str1 dquote +:+ ":[1,null]}".
Proof. vm_compute. reflexivity. Qed.

(** ** SHA-1 and [uuid5] *)

Definition rotl (n x : Z) : Z := mask32 (Z.lor (Z.shiftl x n) (Z.shiftr x (32 - n))).

(** The schedule of SHA-1, newest word first. *)
Fixpoint schedule1 (n : nat) (w : list Z) : list Z :=
  match n with
  | O => w
  | S n => schedule1 n (rotl 1 (Z.lxor (Z.lxor (nth 2 w 0) (nth 7 w 0))
                                       (Z.lxor (nth 13 w 0) (nth 15 w 0))) :: w)
  end.

(** The function and the constant of round [i]. *)
Definition sha1_f (i b c d : Z) : Z * Z :=
  if i <? 20 then (ch b c d, 1518500249)
  else if i <? 40 then (Z.lxor b (Z.lxor c d), 1859775393)
  else if i <? 60 then (maj b c d, 2400959708)
  else (Z.lxor b (Z.lxor c d), 3395469782).

Definition sha1_round (st : list Z) (iw : Z * Z) : list Z :=
  match st with
  | [a; b; c; d; e] =>
      let '(f, k) := sha1_f iw.1 b c d in
      [add32 (add32 (rotl 5 a) f) (add32 e (add32 k iw.2)); a; rotl 30 b; c; d]
  | _ => st
  end.

Definition sha1_block (st block : list Z) : list Z :=
  let w := rev (schedule1 64 (rev block)) in
  zip_with add32 st (fold_left sha1_round (zip (map Z.of_nat (seq 0 80)) w) st).

Definition sha1 (msg : list Z) : list Z :=
  let ws := words (sha_pad msg) in
  fold_left sha1_block (blocks (length ws) ws)
    [1732584193; 4023233417; 2562383102; 271733878; 3285377520].

Example sha1_ex : String.concat EmptyString (map hex32 (sha1 (utf8 "abc")))
  = "a9993e364706816aba3e25717850c26c9cd0d89d".
Proof. vm_compute. reflexivity. Qed.

(** [uuid.NAMESPACE_URL.bytes] *)
Definition NAMESPACE_URL : list Z :=
  [107; 167; 184; 17; 157; 173; 17; 209; 128; 180; 0; 192; 79; 212; 48; 200].

(** [uuid5(namespace, name).hex]: the first 128 bits of the SHA-1, with the version
    and the variant set. *)
Definition uuid5_hex (namespace : list Z) (name : string) : string :=
  match sha1 (namespace ++ utf8 name) with
  | a :: b :: c :: d :: _ =>
      hex32 a +:+ hex32 (Z.lor (Z.land b 4294905855) 20480)
        +:+ hex32 (Z.lor (Z.land c 1073741823) 2147483648) +:+ hex32 d
  | _ => EmptyString
  end.

Example uuid5_ex : uuid5_hex NAMESPACE_URL "https://example.com" = "4fd35a7171ef5a55a9d9aa75c889a6d0".
Proof. vm_compute. reflexivity. Qed.
