(* ===== verification/JsonCodec.v ===== *)
(** * Reading JSON: [json.loads]

    CPython's decoder over text and over encoded bytes ([json.detect_encoding] and the
    decoding with [surrogatepass]), and the round trip with [json.dumps] that the
    services use to copy values.  A character outside Latin-1 cannot be held by the text
    of the model: reading one gives [Unrepresentable], which is no exception of the
    program.

    CPython's scanner enters a C call for every array and object and raises [RecursionError]
    when the interpreter allows no more of them; how many are left where [json.loads] is
    called depends on the interpreter and on its stack, and is the parameter
    [recursion_limit] of [json_loads_bytes], which reads the files of a package.
    [json_loads] is the reader without that limit, for text that the service has written
    itself.

    Fuel: every second step of the reader consumes a character, so twice the length of
    the text and two more are enough ([json_loads_total]). *)

From Stdlib Require Import Ascii SpecFloat.
From S2P Require Import Prelude PyValue Digest.
Local Open Scope Z_scope.

(** ** The scanner *)

Definition json_error {A} : res A := Raise PyJSONDecodeError EmptyString.

Definition is_ws (c : ascii) : bool := str_in (str1 c) [" "; str1 (chr 9); str1 (chr 10); str1 (chr 13)].
Fixpoint skip_ws (s : string) : string :=
  match s with
  | String c s' => if is_ws c then skip_ws s' else s
  | EmptyString => s
  end.

Definition hex_val (c : ascii) : option N :=
  let n := ord c in
  (if (48 <=? n) && (n <=? 57) then Some (n - 48)
   else if (97 <=? n) && (n <=? 102) then Some (n - 87)
   else if (65 <=? n) && (n <=? 70) then Some (n - 55)
   else None)%N.

(** The character of an escape other than [\u]. *)
Definition escape_char (c : ascii) : option ascii :=
  let n := ord c in
  (if (n =? 34) || (n =? 92) || (n =? 47) then Some c
   else if n =? 98 then Some (chr 8)
   else if n =? 102 then Some (chr 12)
   else if n =? 110 then Some (chr 10)
   else if n =? 114 then Some (chr 13)
   else if n =? 116 then Some (chr 9)
   else None)%N.

Definition cons_char (c : ascii) (r : res (string * string)) : res (string * string) :=
  p ← r; Ok (String c p.1, p.2).

(** [\uXXXX] *)
Definition unicode_escape (h1 h2 h3 h4 : ascii) : res ascii :=
  match hex_val h1, hex_val h2, hex_val h3, hex_val h4 with
  | Some a, Some b, Some c, Some d =>
      if ((a =? 0) && (b =? 0))%N then Ok (chr (16 * c + d)) else Raise Unrepresentable EmptyString
  | _, _, _, _ => json_error
  end.

(** The text of a string after its opening quote, and what follows it. *)
Fixpoint scan_string (s : string) : res (string * string) :=
  match s with
  | EmptyString => json_error
  | String c s' =>
      let n := ord c in
      if (n =? 34)%N then Ok (EmptyString, s')
      else if (n =? 92)%N then
        match s' with
        | String e s'' =>
            if (ord e =? 117)%N then
              match s'' with
              | String h1 (String h2 (String h3 (String h4 r))) =>
                  a ← unicode_escape h1 h2 h3 h4; cons_char a (scan_string r)
              | _ => json_error
              end
            else match escape_char e with
                 | Some a => cons_char a (scan_string s'')
                 | None => json_error
                 end
        | EmptyString => json_error
        end
      else if (n <? 32)%N then json_error
      else cons_char c (scan_string s')
  end.

(** ** Numbers *)

Fixpoint span_digits (s : string) : string * string :=
  match s with
  | String c s' => if is_digit c then let '(d, r) := span_digits s' in (String c d, r) else (EmptyString, s)
  | EmptyString => (EmptyString, s)
  end.

Definition nonempty (s : string) : bool := match s with EmptyString => false | _ => true end.

Definition digits_value (s : string) : Z := fold_left (λ v c, 10 * v + digit_val c) (str_list s) 0.

(** The fraction and the exponent of a number, empty when there is none. *)
Definition scan_fraction (s : string) : string * string :=
  match s with
  | String c s' =>
      if Ascii.eqb c "." then
        let '(d, r) := span_digits s' in if nonempty d then (String c d, r) else (EmptyString, s)
      else (EmptyString, s)
  | EmptyString => (EmptyString, s)
  end.
Definition scan_exponent (s : string) : string * string :=
  match s with
  | String c s' =>
      if Ascii.eqb (lower_char c) "e" then
        let '(sign, s1) := match s' with
                           | String g t => if Ascii.eqb g "-" || Ascii.eqb g "+" then (str1 g, t) else (EmptyString, s')
                           | EmptyString => (EmptyString, s')
                           end in
        let '(d, r) := span_digits s1 in if nonempty d then (String c (sign +:+ d), r) else (EmptyString, s)
      else (EmptyString, s)
  | EmptyString => (EmptyString, s)
  end.

(** A number after its sign. *)
Definition scan_number (neg : bool) (s : string) : res (json * string) :=
  let '(d, r) := span_digits s in
  let '(d, r) := match d with
                 | String c (String _ _ as t) => if Ascii.eqb c "0" then (str1 c, t +:+ r) else (d, r)
                 | _ => (d, r)
                 end in
  if negb (nonempty d) then json_error else
  let '(f, r) := scan_fraction r in
  let '(e, r) := scan_exponent r in
  if nonempty f || nonempty e then
    x ← float_of_string ((if neg then "-" else "") +:+ d +:+ f +:+ e); Ok (JFloat x, r)
  else Ok (JInt (if neg then Z.opp (digits_value d) else digits_value d), r).

(** ** Values *)

Fixpoint strip_prefix (p s : string) : option string :=
  match p, s with
  | EmptyString, _ => Some s
  | String a p, String b s => if Ascii.eqb a b then strip_prefix p s else None
  | _, _ => None
  end.

Definition constants : list (string * json) :=
  [("null", JNull); ("true", JBool true); ("false", JBool false);
   ("NaN", JFloat S754_nan); ("Infinity", JFloat (S754_infinity false)); ("-Infinity", JFloat (S754_infinity true))].
Fixpoint scan_constant (l : list (string * json)) (s : string) : option (json * string) :=
  match l with
  | [] => None
  | (p, v) :: l => match strip_prefix p s with Some r => Some (v, r) | None => scan_constant l s end
  end.

(** A value that is neither an array nor an object. *)
Definition scan_scalar (s : string) : res (json * string) :=
  match scan_constant constants s with
  | Some r => Ok r
  | None =>
      match s with
      | String c s' =>
          if Ascii.eqb c dquote then p ← scan_string s'; Ok (JStr p.1, p.2)
          else if Ascii.eqb c "-" then scan_number true s' else scan_number false s
      | EmptyString => json_error
      end
  end.

(** What closes an array or an object, or starts its next element. *)
Definition scan_separator (close : ascii) (s : string) : res (bool * string) :=
  match skip_ws s with
  | String c r =>
      if Ascii.eqb c close then Ok (true, r)
      else if Ascii.eqb c "," then Ok (false, skip_ws r) else json_error
  | EmptyString => json_error
  end.

Definition scan_key (s : string) : res (string * string) :=
  match s with
  | String c s' =>
      if Ascii.eqb c dquote then
        p ← scan_string s';
        match skip_ws p.2 with
        | String d r => if Ascii.eqb d ":" then Ok (p.1, skip_ws r) else json_error
        | EmptyString => json_error
        end
      else json_error
  | EmptyString => json_error
  end.

Definition starts_with (c : ascii) (s : string) : option string :=
  match s with String d r => if Ascii.eqb c d then Some r else None | EmptyString => None end.

(** [Py_EnterRecursiveCall], with the number of calls that are left. *)
Definition enter (limit : option nat) : res (option nat) :=
  match limit with
  | None => Ok None
  | Some O => Raise PyRecursionError "maximum recursion depth exceeded"
  | Some (S n) => Ok (Some n)
  end.

Fixpoint scan (limit : option nat) (fuel : nat) (s : string) : res (json * string) :=
  match fuel with
  | O => Raise Diverges EmptyString
  | S fuel =>
      match s with
      | EmptyString => json_error
      | String c r =>
          if Ascii.eqb c "[" then
            inside ← enter limit;
            match starts_with "]" (skip_ws r) with
            | Some r => Ok (JArr [], r)
            | None => p ← scan_items inside fuel (skip_ws r) []; Ok (JArr p.1, p.2)
            end
          else if Ascii.eqb c "{" then
            inside ← enter limit;
            match starts_with "}" (skip_ws r) with
            | Some r => Ok (JObj [], r)
            | None => p ← scan_members inside fuel (skip_ws r) []; Ok (JObj p.1, p.2)
            end
          else scan_scalar s
      end
  end
with scan_items (limit : option nat) (fuel : nat) (s : string) (acc : list json) : res (list json * string) :=
  match fuel with
  | O => Raise Diverges EmptyString
  | S fuel =>
      p ← scan limit fuel s;
      q ← scan_separator "]" p.2;
      if (q.1 : bool) then Ok (acc ++ [p.1], q.2) else scan_items limit fuel q.2 (acc ++ [p.1])
  end
with scan_members (limit : option nat) (fuel : nat) (s : string) (acc : payload) : res (payload * string) :=
  match fuel with
  | O => Raise Diverges EmptyString
  | S fuel =>
      k ← scan_key s;
      p ← scan limit fuel k.2;
      q ← scan_separator "}" p.2;
      if (q.1 : bool) then Ok (dset k.1 p.1 acc, q.2) else scan_members limit fuel q.2 (dset k.1 p.1 acc)
  end.

(** [json.loads(text)] *)
Definition json_loads_within (limit : option nat) (s : string) : res json :=
  p ← scan limit (S (S (2 * String.length s))) (skip_ws s);
  if nonempty (skip_ws p.2) then json_error else Ok p.1.
Definition json_loads : string → res json := json_loads_within None.

(** How many arrays and objects may be entered, one inside the other. *)
Class RecursionLimit := recursion_limit : nat.

(** ** Encoded text *)

Definition bad_bytes {A} : res A := Raise PyUnicodeDecodeError EmptyString.
Definition is_cont (b : Z) : bool := (128 <=? b) && (b <? 192).

(** The code points of UTF-8 bytes, surrogates included. *)
Fixpoint utf8_points (bs : list Z) : res (list Z) :=
  match bs with
  | [] => Ok []
  | a :: bs1 =>
      if a <? 128 then cons a <$> utf8_points bs1
      else if (194 <=? a) && (a <? 224) then
        match bs1 with
        | b :: bs2 => if is_cont b then cons ((a - 192) * 64 + (b - 128)) <$> utf8_points bs2 else bad_bytes
        | _ => bad_bytes
        end
      else if (224 <=? a) && (a <? 240) then
        match bs1 with
        | b :: c :: bs3 =>
            if is_cont b && is_cont c && implb (a =? 224) (160 <=? b)
            then cons (((a - 224) * 64 + (b - 128)) * 64 + (c - 128)) <$> utf8_points bs3 else bad_bytes
        | _ => bad_bytes
        end
      else if (240 <=? a) && (a <? 245) then
        match bs1 with
        | b :: c :: d :: bs4 =>
            if is_cont b && is_cont c && is_cont d && implb (a =? 240) (144 <=? b) && implb (a =? 244) (b <? 144)
            then cons ((((a - 240) * 64 + (b - 128)) * 64 + (c - 128)) * 64 + (d - 128)) <$> utf8_points bs4 else bad_bytes
        | _ => bad_bytes
        end
      else bad_bytes
  end.

(** UTF-16: a pair of surrogates is left as two units, both outside Latin-1. *)
Fixpoint utf16_units (little : bool) (bs : list Z) : res (list Z) :=
  match bs with
  | [] => Ok []
  | a :: b :: bs => cons (if little then a + 256 * b else 256 * a + b) <$> utf16_units little bs
  | _ => bad_bytes
  end.
Fixpoint utf32_points (little : bool) (bs : list Z) : res (list Z) :=
  match bs with
  | [] => Ok []
  | a :: b :: c :: d :: bs =>
      let n := if little then a + 256 * (b + 256 * (c + 256 * d)) else d + 256 * (c + 256 * (b + 256 * a)) in
      if 1114111 <? n then bad_bytes else cons n <$> utf32_points little bs
  | _ => bad_bytes
  end.

(** [json.detect_encoding] and the decoding. *)
Definition decode_points (bs : list Z) : res (list Z) :=
  match bs with
  | 0 :: 0 :: 254 :: 255 :: r => utf32_points false r
  | 255 :: 254 :: 0 :: 0 :: r => utf32_points true r
  | 254 :: 255 :: r => utf16_units false r
  | 255 :: 254 :: r => utf16_units true r
  | 239 :: 187 :: 191 :: r => utf8_points r
  | a :: b :: c :: d :: _ =>
      if a =? 0 then if b =? 0 then utf32_points false bs else utf16_units false bs
      else if b =? 0 then if (c =? 0) && (d =? 0) then utf32_points true bs else utf16_units true bs
      else utf8_points bs
  | [a; b] =>
      if a =? 0 then utf16_units false bs else if b =? 0 then utf16_units true bs else utf8_points bs
  | _ => utf8_points bs
  end.

Definition latin1 (points : list Z) : res string :=
  if forallb (λ n, n <? 256) points then Ok (str_of (map (λ n, chr (Z.to_N n)) points))
  else Raise Unrepresentable EmptyString.

(** [json.loads(bytes)] *)
Definition json_loads_bytes `{RecursionLimit} (bs : list Z) : res json :=
  points ← decode_points bs; s ← latin1 points; json_loads_within (Some recursion_limit) s.

(** [json.dumps(value, separators=(",", ":"))]: the members in their order. *)
Definition json_plain : json → string := json_text false "," ":" true.

(** [except ValueError]: the decoding errors and pydantic's [ValidationError] are ValueErrors. *)
Definition is_value_error (c : exn_class) : bool :=
  bool_decide (c ∈ [PyValueError; PyJSONDecodeError; PyUnicodeDecodeError; PyValidationError]).

(** ** The reader ends *)

(** What a reader of text raises. *)
Definition reader_error (c : exn_class) : bool :=
  match c with PyJSONDecodeError | PyValueError | Unrepresentable => true | _ => false end.

(** A result that has not run out of fuel, with what follows it shorter than [n]. *)
Definition reads {A} (n : nat) (r : res (A * string)) : Prop :=
  match r with Ok p => (String.length p.2 < n)%nat | Raise c _ => reader_error c = true end.

Lemma skip_ws_length s : (String.length (skip_ws s) ≤ String.length s)%nat.
Proof. induction s as [|c s IH]; cbn; [done|]. case_match; cbn; lia. Qed.

Lemma reads_bind {A B} n m (r : res (A * string)) (f : A * string → res (B * string)) :
  reads n r → (∀ p, (String.length p.2 < n)%nat → reads m (f p)) → reads m (r ≫= f).
Proof. destruct r; cbn; auto. Qed.
Lemma reads_mono {A} n m (r : res (A * string)) : reads n r → (n ≤ m)%nat → reads m r.
Proof. destruct r; cbn; [lia|done]. Qed.
Lemma reads_error {A} n : @reads A n json_error.
Proof. done. Qed.

Lemma reads_cons_char c n r : reads n r → reads n (cons_char c r).
Proof. by destruct r. Qed.

Lemma scan_string_reads s : reads (S (String.length s)) (scan_string s).
Proof.
  induction s as [s IH] using (induction_ltof1 _ String.length). unfold ltof in IH.
  destruct s as [|c s]; [done|]. cbn [scan_string String.length].
  case_match; [cbn; lia|]. case_match.
  - destruct s as [|e s]; [done|]. case_match.
    + destruct s as [|h1 [|h2 [|h3 [|h4 r]]]]; try done.
      unfold unicode_escape. repeat case_match; try done. cbn [mbind res_bind].
      apply reads_cons_char. eapply reads_mono; [apply IH; cbn; lia|cbn; lia].
    + case_match; [|done]. apply reads_cons_char. eapply reads_mono; [apply IH; cbn; lia|cbn; lia].
  - case_match; [done|]. apply reads_cons_char. eapply reads_mono; [apply IH; cbn; lia|lia].
Qed.

Lemma string_cons_app c s t : String c s +:+ t = String c (s +:+ t).
Proof. done. Qed.

Lemma span_digits_app s : s = (span_digits s).1 +:+ (span_digits s).2.
Proof.
  induction s as [|c s IH]; [done|]. cbn [span_digits]. case_match; [|done].
  destruct (span_digits s) as [d r]. cbn [fst snd] in *. by rewrite string_cons_app, <- IH.
Qed.

Lemma length_string_app s t : String.length (s +:+ t) = (String.length s + String.length t)%nat.
Proof. induction s as [|c s IH]; [done|]. rewrite string_cons_app. cbn. by rewrite IH. Qed.
Lemma string_app_assoc (s t u : string) : s +:+ (t +:+ u) = (s +:+ t) +:+ u.
Proof. induction s as [|c s IH]; [done|]. change (String c (s +:+ (t +:+ u)) = String c ((s +:+ t) +:+ u)). by rewrite IH. Qed.
Lemma string_app_nil (s : string) : s +:+ EmptyString = s.
Proof. induction s as [|c s IH]; [done|]. change (String c (s +:+ EmptyString) = String c s). by rewrite IH. Qed.

Lemma scan_fraction_length s : (String.length (scan_fraction s).2 ≤ String.length s)%nat.
Proof.
  destruct s as [|c s]; [done|]. unfold scan_fraction. case_match; [|done].
  pose proof (span_digits_app s) as E. destruct (span_digits s) as [d r]. cbn in E.
  case_match; [|done]. cbn [snd]. apply (f_equal String.length) in E. rewrite length_string_app in E. cbn. lia.
Qed.
Lemma scan_exponent_length s : (String.length (scan_exponent s).2 ≤ String.length s)%nat.
Proof.
  destruct s as [|c s]; [done|]. unfold scan_exponent. case_match; [|done].
  destruct (match s with String g t => _ | EmptyString => _ end) as [sign s1] eqn:E1.
  assert (String.length s1 ≤ String.length s)%nat.
  { destruct s as [|g t]; [by simplify_eq|]. case_match; simplify_eq; cbn; lia. }
  pose proof (span_digits_app s1) as E. destruct (span_digits s1) as [d r]. cbn in E.
  destruct (nonempty d); [|cbn; lia]. cbn [snd]. apply (f_equal String.length) in E. rewrite length_string_app in E. cbn. lia.
Qed.

Lemma float_of_string_defined s : match float_of_string s with Raise c _ => reader_error c = true | _ => True end.
Proof.
  unfold float_of_string. destruct (read_sign _) as [neg s1]. destruct (str_in _ _); [done|].
  destruct (String.eqb _ _); [done|]. destruct (match read_digits _ with Some _ => _ | None => _ end) as [[ip inum] s2].
  destruct (match s2 with EmptyString => _ | String _ _ => _ end) as [[mant fnum] s3].
  destruct (Nat.eqb _ _); [done|]. by destruct (read_exponent _) as [[e [|]]|].
Qed.

Lemma scan_number_reads neg s : reads (String.length s) (scan_number neg s).
Proof.
  unfold scan_number. pose proof (span_digits_app s) as E. destruct (span_digits s) as [d0 r0]. cbn [fst snd] in E.
  destruct (match d0 with String _ _ => _ | EmptyString => _ end) as [d r] eqn:Ed.
  assert (s = d +:+ r) as E'.
  { destruct d0 as [|c [|c' t]]; [by simplify_eq..|].
    destruct (Ascii.eqb c "0"); [|by simplify_eq]. injection Ed as <- <-. by rewrite E. }
  destruct d as [|c d]; [done|]. cbn [nonempty negb]. 
  pose proof (scan_fraction_length r). destruct (scan_fraction r) as [f r1]. cbn [snd] in *.
  pose proof (scan_exponent_length r1). destruct (scan_exponent r1) as [e r2]. cbn [snd] in *.
  assert (String.length r2 < String.length s)%nat.
  { pose proof (f_equal String.length E') as El. rewrite length_string_app in El. cbn [String.length] in El. lia. }
  destruct (nonempty f || nonempty e); [|done].
  pose proof (float_of_string_defined ((if neg then "-" else "") +:+ String c d +:+ f +:+ e)).
  by destruct (float_of_string _).
Qed.

Lemma strip_prefix_app p s r : strip_prefix p s = Some r → s = p +:+ r.
Proof.
  revert s. induction p as [|a p IH]; intros s; cbn; [by intros [= ->]|].
  destruct s as [|b s]; [done|]. case_match; [|done]. intros ->%IH.
  match goal with H : Ascii.eqb _ _ = true |- _ => apply Ascii.eqb_eq in H as -> end. done.
Qed.
Lemma scan_constant_reads l s v r :
  scan_constant l s = Some (v, r) → Forall (λ p, p.1 ≠ EmptyString) l → (String.length r < String.length s)%nat.
Proof.
  induction l as [|[p w] l IH]; cbn; [done|]. intros H [Hp Hl]%Forall_cons. cbn in Hp.
  destruct (strip_prefix p s) eqn:E; [|auto]. simplify_eq. apply strip_prefix_app in E as ->.
  rewrite length_string_app. destruct p; [done|]. cbn. lia.
Qed.

Lemma scan_scalar_reads s : reads (String.length s) (scan_scalar s).
Proof.
  unfold scan_scalar. destruct (scan_constant constants s) as [[v r]|] eqn:E.
  { eapply scan_constant_reads in E; [done|]. by repeat constructor. }
  destruct s as [|c s]; [done|]. case_match.
  - eapply reads_bind; [apply scan_string_reads|]. intros p. cbn. lia.
  - case_match; [|apply scan_number_reads]. eapply reads_mono; [apply scan_number_reads|]. cbn. lia.
Qed.

Lemma scan_separator_reads close s : reads (String.length s) (scan_separator close s).
Proof.
  unfold scan_separator. pose proof (skip_ws_length s). destruct (skip_ws s) as [|c r]; [done|].
  cbn in *. case_match; [cbn; lia|]. case_match; [|done]. cbn. pose proof (skip_ws_length r). lia.
Qed.
Lemma scan_key_reads s : reads (String.length s) (scan_key s).
Proof.
  destruct s as [|c s]; [done|]. unfold scan_key. case_match; [|done].
  eapply reads_bind; [apply scan_string_reads|]. intros [k r] Hr. cbn [fst snd] in *.
  pose proof (skip_ws_length r). destruct (skip_ws r) as [|d t]; [done|]. case_match; [|done].
  cbn in *. pose proof (skip_ws_length t). lia.
Qed.

Lemma starts_with_length c s t : starts_with c s = Some t → (String.length t < String.length s)%nat.
Proof. destruct s as [|d s]; [done|]. cbn. case_match; [|done]. intros [= ->]. lia. Qed.

(** A result of the scanner: of the errors, the recursion error is raised only on a text that
    is longer than the limit. *)
Definition scans {A} (limit : option nat) (n : nat) (r : res (A * string)) : Prop :=
  match r with
  | Ok p => (String.length p.2 < n)%nat
  | Raise c _ => reader_error c = true ∨ c = PyRecursionError ∧ ∃ l, limit = Some l ∧ (l < n)%nat
  end.
Lemma reads_scans {A} limit n (r : res (A * string)) : reads n r → scans limit n r.
Proof. destruct r; cbn; auto. Qed.
Lemma scans_bind {A B} limit n m (r : res (A * string)) (f : A * string → res (B * string)) :
  scans limit n r → (n ≤ m)%nat → (∀ p, (String.length p.2 < n)%nat → scans limit m (f p)) → scans limit m (r ≫= f).
Proof. destruct r as [p|c e]; cbn; [auto|]. intros [?|(-> & l & -> & ?)] Hm _; [by left|right; split; [done|]; exists l; split; [done|lia]]. Qed.
Lemma scans_mono {A} limit n m (r : res (A * string)) : scans limit n r → (n ≤ m)%nat → scans limit m r.
Proof. destruct r; cbn; [lia|]. intros [?|(-> & l & -> & ?)] Hm; [by left|right; split; [done|]; exists l; split; [done|lia]]. Qed.
Lemma scans_enter {A} limit n (f : option nat → res (A * string)) :
  (0 < n)%nat → (∀ inside, enter limit = Ok inside → scans inside (pred n) (f inside)) → scans limit n (enter limit ≫= f).
Proof.
  intros Hn Hf. destruct limit as [[|l]|]; cbn in *; [right; eauto|..].
  - specialize (Hf _ eq_refl). destruct (f (Some l)) as [p|c e]; cbn in *; [lia|].
    destruct Hf as [?|(-> & x & [= <-] & ?)]; [by left|right; split; [done|]; exists (S l); split; [done|lia]].
  - specialize (Hf _ eq_refl). by eapply scans_mono; [exact Hf|lia].
Qed.

Lemma scan_reads_go fuel :
  (∀ limit s, (2 * String.length s < fuel)%nat → scans limit (String.length s) (scan limit fuel s)) ∧
  (∀ limit s acc, (S (2 * String.length s) < fuel)%nat → scans limit (String.length s) (scan_items limit fuel s acc)) ∧
  (∀ limit s acc, (S (2 * String.length s) < fuel)%nat → scans limit (String.length s) (scan_members limit fuel s acc)).
Proof.
  induction fuel as [|fuel (IHs & IHi & IHm)]; [split_and!; intros; lia|]. split_and!.
  - intros limit s Hs. destruct s as [|c s]; [by left|]. cbn [scan]. pose proof (skip_ws_length s). cbn [String.length] in Hs.
    destruct (Ascii.eqb c "["); [|destruct (Ascii.eqb c "{"); [|by apply reads_scans, scan_scalar_reads]].
    all: cbn [String.length]; apply scans_enter; [lia|]; intros inside _; cbn [pred].
    all: destruct (starts_with _ _) as [t|] eqn:E; [apply starts_with_length in E; cbn; lia|].
    + eapply scans_bind; [apply IHi; lia|lia|]. cbn. intros p Hp. lia.
    + eapply scans_bind; [apply IHm; lia|lia|]. cbn. intros p Hp. lia.
  - intros limit s acc Hs. cbn [scan_items]. eapply scans_bind; [apply IHs; lia|lia|]. intros p Hp.
    eapply scans_bind; [apply reads_scans, scan_separator_reads|lia|]. intros [[] r] Hr; cbn [fst snd] in *; [cbn; lia|].
    eapply scans_mono; [apply IHi; lia|lia].
  - intros limit s acc Hs. cbn [scan_members]. eapply scans_bind; [apply reads_scans, scan_key_reads|lia|]. intros k Hk.
    eapply scans_bind; [apply IHs; lia|lia|]. intros p Hp.
    eapply scans_bind; [apply reads_scans, scan_separator_reads|lia|]. intros [[] r] Hr; cbn [fst snd] in *; [cbn; lia|].
    eapply scans_mono; [apply IHm; lia|lia].
Qed.

(** The fuel is enough for every text. *)
Lemma json_loads_within_raises limit s c m :
  json_loads_within limit s = Raise c m →
  reader_error c = true ∨ c = PyRecursionError ∧ ∃ l, limit = Some l ∧ (l < String.length s)%nat.
Proof.
  unfold json_loads_within. pose proof (skip_ws_length s).
  pose proof (proj1 (scan_reads_go (S (S (2 * String.length s)))) limit (skip_ws s) ltac:(lia)) as H1.
  destruct (scan _ _ _) as [p|k e]; cbn in *; [case_match; [by intros [= <- _]; left|done]|]. intros [= <- _].
  destruct H1 as [?|(-> & l & -> & ?)]; [by left|right; split; [done|]; exists l; split; [done|lia]].
Qed.
Lemma json_loads_raises s c m : json_loads s = Raise c m → reader_error c = true.
Proof. by intros [?|(_ & l & ? & _)]%json_loads_within_raises. Qed.
Lemma json_loads_total s m : json_loads s ≠ Raise Diverges m.
Proof. by intros ?%json_loads_raises. Qed.

(** ** The round trip *)

(** Values without floats whose objects have distinct keys, as dicts do. *)
Fixpoint plain_json (v : json) : bool :=
  match v with
  | JFloat _ => false
  | JArr l => forallb plain_json l
  | JObj d => bool_decide (NoDup (dkeys d)) && forallb (λ kv, match kv with (_, w) => plain_json w end) d
  | _ => true
  end.

Lemma json_char_scanned c t : scan_string (json_char true c +:+ t) = cons_char c (scan_string t).
Proof. destruct c as [[] [] [] [] [] [] [] []]; reflexivity. Qed.

Lemma json_string_scanned s rest :
  scan_string (fold_right (λ c acc, json_char true c +:+ acc) EmptyString (str_list s) +:+ str1 dquote +:+ rest)
  = Ok (s, rest).
Proof.
  induction s as [|c s IH]; [done|]. cbn [str_list fold_right].
  rewrite <- string_app_assoc, json_char_scanned, IH. done.
Qed.

Lemma json_string_cons s rest :
  json_string true s +:+ rest
  = String dquote (fold_right (λ c acc, json_char true c +:+ acc) EmptyString (str_list s) +:+ str1 dquote +:+ rest).
Proof. unfold json_string. by rewrite <- !string_app_assoc. Qed.

(** *** Integers *)

Definition number_end (s : string) : Prop :=
  match s with
  | EmptyString => True
  | String c _ => is_digit c = false ∧ Ascii.eqb c "." = false ∧ Ascii.eqb (lower_char c) "e" = false
  end.

Lemma digit_char n : (n < 10)%N → is_digit (pretty_N_char n) = true ∧ digit_val (pretty_N_char n) = Z.of_N n ∧
  (n ≠ 0 → pretty_N_char n ≠ "0"%char)%N.
Proof.
  intros. assert (n = 0 ∨ n = 1 ∨ n = 2 ∨ n = 3 ∨ n = 4 ∨ n = 5 ∨ n = 6 ∨ n = 7 ∨ n = 8 ∨ n = 9)%N as Hn by lia.
  repeat destruct Hn as [->|Hn]; try (split_and!; [done|done|done]). by subst.
Qed.

Lemma pretty_digits n : ∀ s, ∃ l, pretty_N_go n s = str_of l +:+ s ∧ Forall (λ c, is_digit c = true) l ∧
  fold_left (λ v c, 10 * v + digit_val c) l 0 = Z.of_N n ∧ head l ≠ Some "0"%char ∧ (n ≠ 0 → l ≠ [])%N.
Proof.
  induction (N.lt_wf_0 n) as [n _ IH]. intros s.
  destruct (decide (n = 0)%N) as [->|Hn]; [by exists []|].
  rewrite pretty_N_go_step by lia.
  destruct (IH (n `div` 10)%N ltac:(by apply N.div_lt; lia) (String (pretty_N_char (n mod 10)) s)) as (l & -> & Hl & Hv & Hh & _).
  pose proof (digit_char (n mod 10)%N ltac:(by apply N.mod_lt)) as (Hd & Hdv & H0).
  exists (l ++ [pretty_N_char (n mod 10)]). split_and!.
  - clear. induction l as [|c l IH]; [done|]. cbn [app str_of]. by rewrite !string_cons_app, IH.
  - apply Forall_app; auto.
  - rewrite fold_left_app, Hv. cbn [fold_left]. rewrite Hdv.
    pose proof (N.div_mod' n 10). lia.
  - destruct l as [|c l]; [|done]. cbn. intros [= E]. destruct (decide (n mod 10 = 0)%N) as [E0|E0]; [|by apply H0].
    cbn in Hv. pose proof (N.div_mod' n 10). lia.
  - intros _ H. by destruct l.
Qed.

Lemma span_digits_all l rest : Forall (λ c, is_digit c = true) l → (match rest with String c _ => is_digit c = false | _ => True end) →
  span_digits (str_of l +:+ rest) = (str_of l, rest).
Proof.
  intros Hl Hr. induction Hl as [|c l Hc Hl IH]; cbn [str_of].
  - change ("" +:+ rest) with rest. destruct rest as [|c r]; [done|]. cbn. by rewrite Hr.
  - rewrite string_cons_app. cbn [span_digits]. by rewrite Hc, IH.
Qed.

Lemma str_list_str_of l : str_list (str_of l) = l.
Proof. induction l as [|c l IH]; [done|]. cbn. by rewrite IH. Qed.

Lemma number_end_scans rest : number_end rest → scan_fraction rest = (EmptyString, rest) ∧ scan_exponent rest = (EmptyString, rest).
Proof. destruct rest as [|c r]; [done|]. intros (H1 & H2 & H3). unfold scan_fraction, scan_exponent. by rewrite H2, H3. Qed.

Lemma scan_number_pretty neg (n : N) rest : number_end rest →
  scan_number neg (pretty n +:+ rest) = Ok (JInt (if neg then - Z.of_N n else Z.of_N n), rest).
Proof.
  intros Hend. destruct (number_end_scans rest Hend) as [Hf He].
  assert (match rest with String c _ => is_digit c = false | _ => True end) as Hr by (destruct rest; [done|by apply Hend]).
  unfold pretty, pretty_N. destruct (decide (n = 0)%N) as [->|Hn].
  - pose proof (span_digits_all ["0"%char] rest ltac:(by repeat constructor) Hr) as Hs. cbn [str_of] in Hs.
    unfold scan_number. rewrite Hs. cbn [nonempty negb]. rewrite Hf, He. by destruct neg.
  - destruct (pretty_digits n "") as (l & -> & Hl & Hv & Hh & Hne). rewrite string_app_nil.
    unfold scan_number. rewrite (span_digits_all l rest Hl Hr).
    assert (digits_value (str_of l) = Z.of_N n) as Hdv by (unfold digits_value; by rewrite str_list_str_of).
    destruct l as [|c [|c' l]]; [by destruct Hne| |]; cbn [str_of nonempty negb].
    + rewrite Hf, He. cbn [nonempty orb]. cbn [str_of] in Hdv. by rewrite Hdv.
    + destruct (Ascii.eqb_spec c "0"%char) as [->|_]; [by destruct Hh|]. cbn [nonempty negb].
      rewrite Hf, He. cbn [nonempty orb]. cbn [str_of] in Hdv. by rewrite Hdv.
Qed.

(** *** Values *)

Lemma plain_object d :
  json_plain (JObj d) = "{" +:+ String.concat "," (map (λ kv, json_string true kv.1 +:+ ":" +:+ json_plain kv.2) d) +:+ "}".
Proof. unfold json_plain. cbn [json_text]. rewrite map_map. do 3 f_equal. apply map_ext. by intros []. Qed.

Lemma pretty_N_head (n : N) : ∃ c t, pretty n = String c t ∧ is_digit c = true.
Proof.
  unfold pretty, pretty_N. destruct (decide (n = 0)%N) as [->|Hn]; [by exists "0"%char, EmptyString|].
  destruct (pretty_digits n "") as (l & -> & Hl & _ & _ & Hne). rewrite string_app_nil.
  destruct l as [|c l]; [by destruct Hne|]. apply Forall_cons in Hl as [Hc _]. by exists c, (str_of l).
Qed.

Definition value_head (c : ascii) : Prop := is_ws c = false ∧ Ascii.eqb "]" c = false ∧ Ascii.eqb "}" c = false.

Lemma digit_head c : is_digit c = true → value_head c ∧ Ascii.eqb c "[" = false ∧ Ascii.eqb c "{" = false ∧
  Ascii.eqb c dquote = false ∧ Ascii.eqb c "-" = false ∧ ∀ t, scan_constant constants (String c t) = None ∧
  scan_constant constants (String "-" (String c t)) = None.
Proof. unfold value_head. by destruct c as [[] [] [] [] [] [] [] []]. Qed.

Lemma plain_head v : plain_json v = true → ∃ c t, json_plain v = String c t ∧ value_head c.
Proof.
  destruct v as [|[]|z|f|s|l|d]; intros Hv; try done.
  1-3: eexists _, _; (split; [reflexivity|done]).
  - destruct z as [|p|p]; [by eexists _, _| |by eexists _, _].
    destruct (pretty_N_head (N.pos p)) as (c & t & E & Hc). exists c, t. split; [exact E|by apply digit_head].
  - by eexists _, _.
  - by eexists _, _.
  - rewrite plain_object. by eexists _, _.
Qed.

Lemma plain_skip v rest : plain_json v = true → skip_ws (json_plain v +:+ rest) = json_plain v +:+ rest.
Proof.
  intros (c & t & E & Hc & _)%plain_head. rewrite E, string_cons_app. cbn [skip_ws]. by rewrite Hc.
Qed.

(** What the reader does with the text of [v]. *)
Definition scanned (v : json) : Prop := ∀ fuel rest, number_end rest → (2 * String.length (json_plain v) ≤ fuel)%nat →
  scan None fuel (json_plain v +:+ rest) = Ok (v, rest).

Lemma scanned_scalar v c t : json_plain v = String c t → Ascii.eqb c "[" = false → Ascii.eqb c "{" = false →
  (∀ rest, number_end rest → scan_scalar (json_plain v +:+ rest) = Ok (v, rest)) → scanned v.
Proof.
  intros E H1 H2 H fuel rest Hend Hf. specialize (H rest Hend). rewrite E, string_cons_app in *. cbn in Hf.
  destruct fuel as [|fuel]; [lia|]. cbn [scan]. by rewrite H1, H2, H.
Qed.

Lemma scanned_int z : scanned (JInt z).
Proof.
  assert (∀ p, number_end p → True) by done.
  destruct z as [|p|p].
  - eapply scanned_scalar; [reflexivity|done..|]. intros rest Hend.
    destruct (number_end_scans rest Hend) as [Hf He].
    apply (scan_number_pretty false 0%N rest Hend).
  - destruct (pretty_N_head (N.pos p)) as (c & t & E & Hc).
    pose proof (digit_head c Hc) as (_ & H1 & H2 & H3 & H4 & H5).
    eapply scanned_scalar; [exact E|done..|]. intros rest Hend.
    pose proof (scan_number_pretty false (N.pos p) rest Hend) as Hs.
    change (json_plain (JInt (Z.pos p))) with (pretty (N.pos p)). rewrite E in *. rewrite string_cons_app in *.
    unfold scan_scalar. rewrite (proj1 (H5 _)), H3, H4. exact Hs.
  - destruct (pretty_N_head (N.pos p)) as (c & t & E & Hc).
    pose proof (digit_head c Hc) as (_ & H1 & H2 & H3 & H4 & H5).
    eapply scanned_scalar; [reflexivity|done..|]. intros rest Hend.
    pose proof (scan_number_pretty true (N.pos p) rest Hend) as Hs.
    change (json_plain (JInt (Z.neg p))) with (String "-" (pretty (N.pos p))). rewrite E in *. rewrite !string_cons_app in *.
    unfold scan_scalar. rewrite (proj2 (H5 _)). exact Hs.
Qed.

Lemma concat_cons sep x l : String.concat sep (x :: l) = x +:+ match l with [] => EmptyString | _ => sep +:+ String.concat sep l end.
Proof. destruct l; [by rewrite string_app_nil|done]. Qed.

Lemma scan_separator_comma close r : Ascii.eqb "," close = false → scan_separator close ("," +:+ r) = Ok (false, skip_ws r).
Proof. intros H. rewrite string_cons_app. unfold scan_separator. cbn [skip_ws]. change (is_ws ",") with false. cbn iota. by rewrite H. Qed.

Lemma items_skip w l r : forallb plain_json (w :: l) = true →
  skip_ws (String.concat "," (map json_plain (w :: l)) +:+ r) = String.concat "," (map json_plain (w :: l)) +:+ r.
Proof. intros [Hw _]%andb_true_iff. cbn [map]. rewrite concat_cons, <- string_app_assoc. by apply plain_skip. Qed.

Lemma scan_items_plain l : l ≠ [] → Forall scanned l → forallb plain_json l = true → ∀ fuel acc rest,
  (2 * String.length (String.concat "," (map json_plain l)) < fuel)%nat →
  scan_items None fuel (String.concat "," (map json_plain l) +:+ "]" +:+ rest) acc = Ok (acc ++ l, rest).
Proof.
  intros Hne Hl. induction Hl as [|v l Hv Hl IH]; [done|]. cbn [forallb]. intros [Hpv Hpl]%andb_true_iff fuel acc rest Hf.
  cbn [map] in *. rewrite concat_cons in *. rewrite length_string_app in Hf.
  destruct fuel as [|fuel]; [lia|]. cbn [scan_items]. rewrite <- string_app_assoc, Hv; [|by destruct l|lia].
  cbn [mbind res_bind fst snd]. destruct l as [|w l]; [done|]. cbn [map] in *.
  rewrite <- !string_app_assoc, scan_separator_comma by done. cbn [mbind res_bind fst snd].
  rewrite (items_skip w l) by done.
  rewrite string_cons_app in Hf. cbn [String.length] in Hf. change ("" +:+ ?x) with x in Hf.
  rewrite IH by (done || lia). by rewrite <- app_assoc.
Qed.

Definition member_text (kv : string * json) : string := json_string true kv.1 +:+ ":" +:+ json_plain kv.2.

Lemma scan_key_plain k v rest : plain_json v = true →
  scan_key (json_string true k +:+ ":" +:+ json_plain v +:+ rest) = Ok (k, json_plain v +:+ rest).
Proof.
  intros Hv. rewrite json_string_cons. unfold scan_key. rewrite (json_string_scanned k). cbn [mbind res_bind fst snd].
  rewrite string_cons_app. cbn [skip_ws]. change (is_ws ":") with false. cbn iota. change (Ascii.eqb ":" ":") with true. cbn iota.
  change ("" +:+ ?x) with x. by rewrite plain_skip.
Qed.

Lemma members_head kv d r : ∃ t, String.concat "," (map member_text (kv :: d)) +:+ r = String dquote t.
Proof. cbn [map]. rewrite concat_cons. unfold member_text at 1. rewrite <- !string_app_assoc, json_string_cons. eauto. Qed.
Lemma members_skip kv d r :
  skip_ws (String.concat "," (map member_text (kv :: d)) +:+ r) = String.concat "," (map member_text (kv :: d)) +:+ r.
Proof. by destruct (members_head kv d r) as [t ->]. Qed.

Lemma scan_members_plain d : d ≠ [] → Forall (λ kv, scanned kv.2) d →
  forallb (λ kv, match kv with (_, w) => plain_json w end) d = true → ∀ fuel acc rest,
  NoDup (dkeys (acc ++ d)) → (2 * String.length (String.concat "," (map member_text d)) < fuel)%nat →
  scan_members None fuel (String.concat "," (map member_text d) +:+ "}" +:+ rest) acc = Ok (acc ++ d, rest).
Proof.
  intros Hne Hd. induction Hd as [|[k v] d Hv Hd IH]; [done|]. cbn [forallb].
  intros [Hpv Hpd]%andb_true_iff fuel acc rest Hnd Hf.
  cbn [map] in *. rewrite concat_cons in *. rewrite length_string_app in Hf.
  destruct fuel as [|fuel]; [lia|]. cbn [scan_members]. unfold member_text at 1. cbn [fst snd] in *.
  unfold member_text at 1 in Hf. cbn [fst snd] in Hf. rewrite !length_string_app in Hf.
  rewrite <- !string_app_assoc, scan_key_plain by done. cbn [mbind res_bind fst snd].
  rewrite Hv; [|by destruct d|lia].
  assert (k ∉ dkeys acc) as Hk.
  { unfold dkeys in Hnd. rewrite fmap_app in Hnd. apply NoDup_app in Hnd as (_ & Hdis & _). intros Hin. by apply (Hdis k Hin); left. }
  cbn [mbind res_bind fst snd]. rewrite (dset_fresh k v acc Hk).
  destruct d as [|[k' w] d]; [done|]. cbn [map] in *.
  rewrite <- !string_app_assoc, scan_separator_comma by done. cbn [mbind res_bind fst snd].
  rewrite (members_skip (k', w) d).
  rewrite string_cons_app in Hf. cbn [String.length] in Hf. change ("" +:+ ?x) with x in Hf.
  rewrite IH by (done || lia || by rewrite <- app_assoc). by rewrite <- app_assoc.
Qed.

Lemma plain_scanned v : plain_json v = true → scanned v.
Proof.
  revert v. apply (json_nested_ind (λ v, plain_json v = true → scanned v)); [intros v|intros l IH|intros d IH].
  - destruct v as [|[]|z|f|s|l|d]; try done.
    all: intros _.
    1-3: eapply scanned_scalar; [reflexivity|done..].
    + apply scanned_int.
    + eapply scanned_scalar; [reflexivity|done..|]. intros rest _. change (json_plain (JStr s)) with (json_string true s).
      rewrite json_string_cons. unfold scan_scalar. cbn [scan_constant constants strip_prefix Ascii.eqb].
      change (Ascii.eqb dquote dquote) with true. cbn iota. by rewrite json_string_scanned.
  - intros Hl fuel rest _ Hf. change (json_plain (JArr l)) with ("[" +:+ String.concat "," (map json_plain l) +:+ "]") in *.
    rewrite !length_string_app in Hf. rewrite <- !string_app_assoc, string_cons_app. cbn [String.length] in Hf.
    destruct fuel as [|fuel]; [lia|]. cbn [scan enter mbind res_bind]. change (Ascii.eqb "[" "[") with true. cbn iota. change ("" +:+ ?x) with x.
    destruct l as [|w l]; [done|].
    rewrite items_skip by done. pose proof Hl as [Hpw _]%andb_true_iff.
    destruct (plain_head w Hpw) as (c & t & E & _ & Hc & _).
    assert (∀ r, starts_with "]" (String.concat "," (map json_plain (w :: l)) +:+ r) = None) as ->.
    { intros r. cbn [map]. rewrite concat_cons, E, !string_cons_app. cbn [starts_with]. by rewrite Hc. }
    rewrite (scan_items_plain (w :: l)); [done|done| |done|cbn [map] in *; lia].
    apply Forall_forall. intros x Hx. eapply Forall_forall in IH; [|done]. apply IH.
    change (forallb plain_json (w :: l) = true) in Hl. rewrite forallb_forall in Hl. apply Hl. by apply list_elem_of_In.
  - intros Hd fuel rest _ Hf. rewrite plain_object in *. change (map _ d) with (map member_text d) in *.
    rewrite !length_string_app in Hf. rewrite <- !string_app_assoc, string_cons_app. cbn [String.length] in Hf.
    destruct fuel as [|fuel]; [lia|]. cbn [scan enter mbind res_bind]. change (Ascii.eqb "{" "[") with false. change (Ascii.eqb "{" "{") with true.
    cbn iota. change ("" +:+ ?x) with x. destruct d as [|[k w] d]; [done|].
    cbn [plain_json] in Hd. apply andb_true_iff in Hd as [Hnd Hd]. apply bool_decide_eq_true_1 in Hnd.
    rewrite members_skip. destruct (members_head (k, w) d ("}" +:+ rest)) as [t Ht].
    assert (starts_with "}" (String.concat "," (map member_text ((k, w) :: d)) +:+ "}" +:+ rest) = None) as -> by by rewrite Ht.
    rewrite (scan_members_plain ((k, w) :: d)); [done|done| |done|done|lia].
    apply Forall_forall. intros x Hx. eapply Forall_forall in IH; [|done]. apply IH.
    rewrite forallb_forall in Hd. apply list_elem_of_In in Hx. specialize (Hd x Hx). by destruct x.
Qed.

(** Reading back what was written. *)
Lemma json_roundtrip v : plain_json v = true → json_loads (json_plain v) = Ok v.
Proof.
  intros Hv. unfold json_loads, json_loads_within. rewrite <- (string_app_nil (json_plain v)).
  rewrite plain_skip by done. rewrite (plain_scanned v Hv); [done|done|]. rewrite string_app_nil. lia.
Qed.

(** What reading encoded text raises. *)
Lemma fmap_cons_raises {A} (a : A) (r : res (list A)) c m : cons a <$> r = Raise c m → r = Raise c m.
Proof. by destruct r; [|intros [= -> ->]]. Qed.
Lemma bad_bytes_raises {A} c m : @bad_bytes A = Raise c m → c = PyUnicodeDecodeError.
Proof. by intros [= <- _]. Qed.
Ltac points_raise :=
  repeat match goal with
  | H : (cons _ <$> _) = Raise _ _ |- _ => apply fmap_cons_raises in H
  | H : bad_bytes = Raise _ _ |- _ => exact (bad_bytes_raises _ _ H)
  | IH : ∀ bs, _ bs = Raise ?c ?m → _, H : _ = Raise ?c ?m |- _ => exact (IH _ H)
  end.
Lemma utf8_points_raises bs c m : utf8_points bs = Raise c m → c = PyUnicodeDecodeError.
Proof.
  revert bs. fix IH 1. intros [|a bs1]; [done|]. cbn [utf8_points].
  destruct (a <? 128); [intros; points_raise|].
  destruct ((194 <=? a) && (a <? 224)).
  { destruct bs1 as [|b bs2]; [intros; points_raise|]. destruct (is_cont b); intros; points_raise. }
  destruct ((224 <=? a) && (a <? 240)).
  { destruct bs1 as [|b [|d bs3]]; try (intros; points_raise; fail). destruct (_ && _ && _); intros; points_raise. }
  destruct ((240 <=? a) && (a <? 245)); [|intros; points_raise].
  destruct bs1 as [|b [|d [|e bs4]]]; try (intros; points_raise; fail). destruct (_ && _ && _ && _ && _); intros; points_raise.
Qed.
Lemma utf16_units_raises little bs c m : utf16_units little bs = Raise c m → c = PyUnicodeDecodeError.
Proof.
  revert bs. fix IH 1. intros [|a [|b bs]]; [done|apply bad_bytes_raises|]. cbn [utf16_units].
  intros H. apply fmap_cons_raises in H. exact (IH _ H).
Qed.
Lemma utf32_points_raises little bs c m : utf32_points little bs = Raise c m → c = PyUnicodeDecodeError.
Proof.
  revert bs. fix IH 1. intros [|a [|b [|d [|e bs]]]]; try (done || apply bad_bytes_raises). cbn [utf32_points].
  destruct (1114111 <? _); intros H; [exact (bad_bytes_raises _ _ H)|]. apply fmap_cons_raises in H. exact (IH _ H).
Qed.
Lemma decode_points_raises bs c m : decode_points bs = Raise c m → c = PyUnicodeDecodeError.
Proof.
  unfold decode_points. intros H.
  repeat (case_match; eauto using utf8_points_raises, utf16_units_raises, utf32_points_raises).
Qed.
Lemma utf8_points_length bs points : utf8_points bs = Ok points → (length points ≤ length bs)%nat.
Proof.
  revert bs points. fix IH 1. intros [|a bs] points; cbn [utf8_points]; [by intros [= <-]|].
  assert (∀ n bs', (length bs' ≤ length bs)%nat → (∀ l, utf8_points bs' = Ok l → (length l ≤ length bs')%nat) →
            cons n <$> utf8_points bs' = Ok points → (length points ≤ length (a :: bs))%nat) as Hcons.
  { intros n bs' Hn Hl. destruct (utf8_points bs') as [l|]; [|done]. intros [= <-]. specialize (Hl l eq_refl). cbn. lia. }
  destruct (a <? 128); [intros H; by eapply Hcons; [|intros l; apply IH|exact H]|].
  destruct (_ && _); [destruct bs as [|b bs]; [done|]; destruct (is_cont b); [|done]|].
  { intros H. eapply Hcons; [|intros l; apply IH|exact H]. cbn. lia. }
  destruct (_ && _); [destruct bs as [|b [|d bs]]; try done; destruct (_ && _); [|done]|].
  { intros H. eapply Hcons; [|intros l; apply IH|exact H]. cbn. lia. }
  destruct (_ && _); [|done]. destruct bs as [|b [|d [|e bs]]]; try done. destruct (_ && _); [|done].
  intros H. eapply Hcons; [|intros l; apply IH|exact H]. cbn. lia.
Qed.
Lemma utf16_units_length little bs points : utf16_units little bs = Ok points → (length points ≤ length bs)%nat.
Proof.
  revert bs points. fix IH 1. intros [|a [|b bs]] points; cbn [utf16_units]; [by intros [= <-]|done|].
  destruct (utf16_units little bs) as [l|] eqn:E; [|done]. intros [= <-]. apply IH in E. cbn. lia.
Qed.
Lemma utf32_points_length little bs points : utf32_points little bs = Ok points → (length points ≤ length bs)%nat.
Proof.
  revert bs points. fix IH 1. intros [|a [|b [|d [|e bs]]]] points; cbn [utf32_points]; [by intros [= <-]|done..|].
  destruct (_ <? _); [done|]. destruct (utf32_points little bs) as [l|] eqn:E; [|done]. intros [= <-]. apply IH in E. cbn. lia.
Qed.
Lemma decode_points_length bs points : decode_points bs = Ok points → (length points ≤ length bs)%nat.
Proof.
  unfold decode_points. intros H.
  assert (∀ bs' : list Z, (length bs' ≤ length bs)%nat → utf8_points bs' = Ok points ∨ (∃ l, utf16_units l bs' = Ok points)
            ∨ (∃ l, utf32_points l bs' = Ok points) → (length points ≤ length bs)%nat) as Hall.
  { intros bs' Hb [E|[[l E]|[l E]]]; [apply utf8_points_length in E|apply utf16_units_length in E|apply utf32_points_length in E]; lia. }
  repeat case_match; subst; (eapply Hall; [|first [left; exact H|right; left; eexists; exact H|right; right; eexists; exact H]]); cbn; lia.
Qed.
Lemma latin1_length points s : latin1 points = Ok s → String.length s = length points.
Proof.
  unfold latin1. destruct (forallb _ _); [|done]. intros [= <-]. clear. induction points as [|n points IH]; [done|]. cbn. by rewrite IH.
Qed.

(** Only bytes longer than the recursion limit can exhaust it. *)
Lemma json_loads_bytes_raises `{RecursionLimit} bs c m : json_loads_bytes bs = Raise c m →
  is_value_error c = true ∨ c = Unrepresentable ∨ c = PyRecursionError ∧ (recursion_limit < length bs)%nat.
Proof.
  unfold json_loads_bytes. destruct (decode_points bs) as [points|k e] eqn:Hd; cbn [mbind res_bind].
  2:{ intros [= <- _]. apply decode_points_raises in Hd as ->. by left. }
  destruct (latin1 points) as [s|k e] eqn:Hl; cbn [mbind res_bind].
  2:{ intros [= <- _]. unfold latin1 in Hl. destruct (forallb _ _); [done|]. injection Hl as <- _. auto. }
  apply decode_points_length in Hd. apply latin1_length in Hl.
  intros [Hr|(-> & l & [= <-] & Hn)]%json_loads_within_raises; [destruct c; try done; auto|].
  right. right. split; [done|]. lia.
Qed.

Example loads_ex : json_loads " [1, -20 ,true,1.5e1] " = Ok (JArr [JInt 1; JInt (-20); JBool true; JFloat (S754_finite false 8444249301319680 (-49))]).
Proof. vm_compute. reflexivity. Qed.
Example loads_bad : json_loads "[1,]" = json_error ∧ json_loads "01" = json_error ∧ json_loads "" = json_error.
Proof. done. Qed.
(** Three arrays, with room for two and for three. *)
Example nesting_ex :
  json_loads_within (Some 2%nat) "[[1], [[]]]" = Raise PyRecursionError "maximum recursion depth exceeded" ∧
  json_loads_within (Some 3%nat) "[[1], [[]]]" = Ok (JArr [JArr [JInt 1]; JArr [JArr []]]) ∧
  json_loads_within (Some 2%nat) "[[1] [[[" = json_error.
Proof. done. Qed.
Example bytes_ex (H : RecursionLimit := 10%nat) : json_loads_bytes (utf8 "[12]") = Ok (JArr [JInt 12]) ∧ json_loads_bytes [255; 254; 49; 0] = Ok (JInt 1) ∧
  json_loads_bytes [128] = bad_bytes.
Proof. done. Qed.
