(* ===== verification/Contracts.v ===== *)
(** * Shared contracts

    The enumerations of [contracts/state.py] and [contracts/approval_mode.py],
    the event and command envelopes of [contracts/events.py] and
    [contracts/commands.py], and the error codes of [contracts/errors.py]. *)

From S2P Require Import Prelude PyValue DateTime.

(** ** [contracts/errors.py] *)

Definition error_code (c : exn_class) : option string :=
  match c with
  | NotFoundError => Some "not_found"
  | VersionConflictError => Some "version_conflict"
  | InvalidTransitionError => Some "invalid_transition"
  | AuthorizationError => Some "authorization_denied"
  | LeaseConflictError => Some "lease_conflict"
  | FencingTokenError => Some "stale_fencing_token"
  | RuntimeStepBudgetExceededError => Some "runtime_step_budget_exceeded"
  | RuntimeOutputTokenBudgetExceededError => Some "runtime_output_token_budget_exceeded"
  | SchemaValidationError => Some "tool_schema_invalid"
  | PolicyDeniedError => Some "policy_denied"
  | ApprovalValidationError => Some "approval_invalid"
  | CollaborationValidationError => Some "collaboration_invalid"
  | InvalidToolSchemaError => Some "tool_schema_definition_invalid"
  | UnauthenticatedError => Some "unauthenticated"
  | CredentialAccessError => Some "credential_access_denied"
  | SandboxViolationError => Some "sandbox_violation"
  | ArtifactAccessError => Some "artifact_access_denied"
  | RuntimeNoProgressError => Some "runtime_no_progress_detected"
  | RuntimeCancelledError => Some "runtime_cancelled"
  | RuntimeDeadlineExceededError => Some "runtime_deadline_exceeded"
  | _ => None
  end.

(** ** [contracts/state.py] *)

Inductive SessionStatus :=
  | SCreated | SReady | SPending | SRunnable | SRunning | SWaitingForHuman | SPaused
  | SRetryWait | SCompleted | SFailed | SCancelled | SClosed.

Inductive RunStatus :=
  | RPending | RRunnable | RRunning | RWaitingForHuman | RPaused | RRetryWait
  | RCompleted | RFailed | RCancelled.

Inductive Visibility := VUser | VInternal | VSecret.

#[global] Instance SessionStatus_eq_dec : EqDecision SessionStatus.
Proof. solve_decision. Defined.
#[global] Instance RunStatus_eq_dec : EqDecision RunStatus.
Proof. solve_decision. Defined.
#[global] Instance Visibility_eq_dec : EqDecision Visibility.
Proof. solve_decision. Defined.

Definition session_value (s : SessionStatus) : string :=
  match s with
  | SCreated => "created" | SReady => "ready" | SPending => "pending"
  | SRunnable => "runnable" | SRunning => "running"
  | SWaitingForHuman => "waiting_for_human" | SPaused => "paused"
  | SRetryWait => "retry_wait" | SCompleted => "completed" | SFailed => "failed"
  | SCancelled => "cancelled" | SClosed => "closed"
  end.

Definition run_value (s : RunStatus) : string :=
  match s with
  | RPending => "pending" | RRunnable => "runnable" | RRunning => "running"
  | RWaitingForHuman => "waiting_for_human" | RPaused => "paused"
  | RRetryWait => "retry_wait" | RCompleted => "completed" | RFailed => "failed"
  | RCancelled => "cancelled"
  end.

Definition all_session_statuses : list SessionStatus :=
  [SCreated; SReady; SPending; SRunnable; SRunning; SWaitingForHuman; SPaused;
   SRetryWait; SCompleted; SFailed; SCancelled; SClosed].
Definition all_run_statuses : list RunStatus :=
  [RPending; RRunnable; RRunning; RWaitingForHuman; RPaused; RRetryWait;
   RCompleted; RFailed; RCancelled].

(** [E(value)] of a [StrEnum]: the member with that value, or [ValueError]. *)
Definition enum_of {E} (value : E → string) (members : list E) (s : string) : res E :=
  match List.find (λ e, String.eqb (value e) s) members with
  | Some e => Ok e
  | None => Raise PyValueError s
  end.

Definition session_status_of : string → res SessionStatus := enum_of session_value all_session_statuses.
Definition run_status_of : string → res RunStatus := enum_of run_value all_run_statuses.

Lemma session_status_roundtrip s : session_status_of (session_value s) = Ok s.
Proof. by destruct s. Qed.
Lemma run_status_roundtrip s : run_status_of (run_value s) = Ok s.
Proof. by destruct s. Qed.

Definition visibility_value (v : Visibility) : string :=
  match v with VUser => "user" | VInternal => "internal" | VSecret => "secret" end.

(** [TERMINAL_SESSION_STATUSES], [TERMINAL_RUN_STATUSES] *)
Definition terminal_session (s : SessionStatus) : bool :=
  match s with SCompleted | SFailed | SCancelled | SClosed => true | _ => false end.
Definition terminal_run (s : RunStatus) : bool :=
  match s with RCompleted | RFailed | RCancelled => true | _ => false end.

(** Membership of an optional status: [None] is in neither set. *)
Definition in_terminal_session (s : option SessionStatus) : bool :=
  match s with Some s => terminal_session s | None => false end.
Definition in_terminal_run (s : option RunStatus) : bool :=
  match s with Some s => terminal_run s | None => false end.

(** ** [contracts/approval_mode.py] *)

Inductive ApprovalMode := RequestApproval | AutoReview | FullAccess.
Inductive InteractionMode := Streaming | NonStreaming.
Inductive ApprovalSource := SrcExplicit | SrcDefault | SrcInherited | SrcLegacy.

#[global] Instance ApprovalMode_eq_dec : EqDecision ApprovalMode.
Proof. solve_decision. Defined.
#[global] Instance InteractionMode_eq_dec : EqDecision InteractionMode.
Proof. solve_decision. Defined.

Definition approval_mode_value (m : ApprovalMode) : string :=
  match m with
  | RequestApproval => "request_approval" | AutoReview => "auto_review"
  | FullAccess => "full_access"
  end.
Definition interaction_mode_value (m : InteractionMode) : string :=
  match m with Streaming => "streaming" | NonStreaming => "non_streaming" end.
Definition approval_source_value (s : ApprovalSource) : string :=
  match s with
  | SrcExplicit => "explicit" | SrcDefault => "default" | SrcInherited => "inherited"
  | SrcLegacy => "legacy"
  end.

(** The revision is validated [ge=0] on construction, hence a natural number. *)
Record ApprovalConfiguration := mkApproval {
  effective_approval_mode : option ApprovalMode;
  interaction_mode : option InteractionMode;
  approval_mode_source : ApprovalSource;
  approval_mode_revision : N;
}.
#[global] Instance ApprovalConfiguration_eta : Eta ApprovalConfiguration := λ r,
  mkApproval (effective_approval_mode r) (interaction_mode r) (approval_mode_source r)
             (approval_mode_revision r).

Definition default_approval : ApprovalConfiguration := mkApproval None None SrcLegacy 0.

(** [ApprovalConfiguration.resolve] *)
Definition resolve_approval (interaction : InteractionMode) (mode : option ApprovalMode)
    : ApprovalConfiguration :=
  let non_interactive := bool_decide (interaction = NonStreaming) in
  mkApproval
    (Some (if non_interactive then FullAccess else default RequestApproval mode))
    (Some interaction)
    (if non_interactive then SrcDefault
     else match mode with Some _ => SrcExplicit | None => SrcDefault end)
    1.

(** [ApprovalConfiguration.public_dict] *)
Definition approval_public_dict (c : ApprovalConfiguration) : payload :=
  [("effective_approval_mode",
     jopt (approval_mode_value <$> effective_approval_mode c));
   ("interaction_mode", jopt (interaction_mode_value <$> interaction_mode c));
   ("approval_mode_source", JStr (approval_source_value (approval_mode_source c)));
   ("approval_mode_revision", JInt (Z.of_N (approval_mode_revision c)))].

(** Pydantic's coercion of an [int] field in lax mode.  Pydantic is not part of
    the repository: only that an integer is accepted as itself is relied on. *)
Class PydanticInt := {
  lax_int : json → option Z;
  lax_int_int : ∀ z, lax_int (JInt z) = Some z;
}.
#[export] Hint Rewrite @lax_int_int : aura.

(** An instance that accepts integers only. *)
Definition strict_pydantic : PydanticInt :=
  {| lax_int := λ v, match v with JInt z => Some z | _ => None end;
     lax_int_int := λ z, eq_refl |}.

Section pydantic.
Context `{PydanticInt}.

Definition invalid {A} : res A := Raise PyValidationError "ApprovalConfiguration".

Definition opt_enum {E} (value : E → string) (members : list E) (v : option json)
    : res (option E) :=
  match v with
  | None | Some JNull => Ok None
  | Some (JStr s) =>
      match enum_of value members s with Ok e => Ok (Some e) | Raise _ _ => invalid end
  | Some _ => invalid
  end.

Definition source_field (v : option json) : res ApprovalSource :=
  match v with
  | None => Ok SrcLegacy
  | Some (JStr s) =>
      match enum_of approval_source_value [SrcExplicit; SrcDefault; SrcInherited; SrcLegacy] s with
      | Ok e => Ok e
      | Raise _ _ => invalid
      end
  | Some _ => invalid
  end.

Definition revision_field (v : option json) : res N :=
  match v with
  | None => Ok 0%N
  | Some v =>
      match lax_int v with
      | Some z => if Z.leb 0 z then Ok (Z.to_N z) else invalid
      | None => invalid
      end
  end.

(** [ApprovalConfiguration.model_validate]: unknown keys are refused. *)
Definition approval_model_validate (v : json) : res ApprovalConfiguration :=
  match v with
  | JObj d =>
      if negb (forallb (λ k, str_in k ["effective_approval_mode"; "interaction_mode";
                  "approval_mode_source"; "approval_mode_revision"]) (dkeys d))
      then invalid else
      m ← opt_enum approval_mode_value [RequestApproval; AutoReview; FullAccess]
            (dget "effective_approval_mode" d);
      i ← opt_enum interaction_mode_value [Streaming; NonStreaming] (dget "interaction_mode" d);
      s ← source_field (dget "approval_mode_source" d);
      r ← revision_field (dget "approval_mode_revision" d);
      Ok (mkApproval m i s r)
  | _ => invalid
  end.

(** What [public_dict] writes, [model_validate] reads back. *)
Lemma approval_dict_roundtrip c :
  approval_model_validate (JObj (approval_public_dict c)) = Ok c.
Proof.
  destruct c as [m i s r]. unfold approval_model_validate, approval_public_dict.
  dsimp. cbn -[Z.of_N opt_enum source_field revision_field].
  assert (revision_field (Some (JInt (Z.of_N r))) = Ok r) as ->.
  { cbn -[Z.of_N Z.leb Z.to_N]. rewrite lax_int_int, (proj2 (Z.leb_le _ _)) by lia.
    by rewrite N2Z.id. }
  by destruct m as [[]|], i as [[]|], s.
Qed.
End pydantic.

(** ** [contracts/events.py], [contracts/commands.py] *)

Record Actor := mkActor { actor_type : string; actor_id : string }.

Record NewEvent := mkNewEvent {
  ne_type : string;
  ne_payload : payload;
  ne_visibility : Visibility;
}.
#[global] Instance NewEvent_eta : Eta NewEvent := λ r,
  mkNewEvent (ne_type r) (ne_payload r) (ne_visibility r).

Record CanonicalEvent := mkCanonicalEvent {
  ev_event_id : string;
  ev_tenant_id : string;
  ev_root_session_id : string;
  ev_session_id : string;
  ev_run_id : option string;
  ev_aggregate_version : Z;
  ev_type : string;
  ev_occurred_at : Z;
  ev_actor : Actor;
  ev_correlation_id : string;
  ev_causation_id : string;
  ev_visibility : Visibility;
  ev_schema_version : Z;
  ev_payload : payload;
}.

(** [CanonicalEvent.as_dict] *)
Definition event_as_dict (e : CanonicalEvent) : payload :=
  [("event_id", JStr (ev_event_id e));
   ("tenant_id", JStr (ev_tenant_id e));
   ("root_session_id", JStr (ev_root_session_id e));
   ("session_id", JStr (ev_session_id e));
   ("run_id", jopt (ev_run_id e));
   ("aggregate_version", JInt (ev_aggregate_version e));
   ("type", JStr (ev_type e));
   ("occurred_at", JStr (isoformat (ev_occurred_at e)));
   ("actor", JObj [("type", JStr (actor_type (ev_actor e))); ("id", JStr (actor_id (ev_actor e)))]);
   ("correlation_id", JStr (ev_correlation_id e));
   ("causation_id", JStr (ev_causation_id e));
   ("visibility", JStr (visibility_value (ev_visibility e)));
   ("schema_version", JInt (ev_schema_version e));
   ("payload", JObj (ev_payload e))].

Record CommandContext := mkContext {
  cx_command_id : string;
  cx_tenant_id : string;
  cx_actor : Actor;
  cx_correlation_id : string;
  cx_expected_version : Z;
  cx_operation : string;
  cx_causation_id : option string;
  cx_dept_id : option string;
}.
