(* ===== verification/Session.v ===== *)
(** * The Session aggregate ([domain/session.py])

    The aggregate is rebuilt from its event stream; a command checks its guard
    and then raises events, each applied to the aggregate and queued in
    [sa_pending].  An exception leaves the caller without an aggregate (every
    caller drops it), so operations return [res SessionAggregate].

    Attributes that Python assigns from a payload without conversion keep the
    payload's value ([json]); converted ones have their Python type. *)

From S2P Require Import Prelude PyValue DateTime Contracts.

Record SessionAggregate := mkSession {
  sa_session_id : string;
  sa_root_session_id : string;
  sa_tenant_id : string;
  sa_version : Z;
  sa_status : option SessionStatus;
  sa_run_status : option RunStatus;
  sa_goal : string;
  sa_run_id : json;
  sa_parent_session_id : json;
  sa_role : string;
  sa_result_summary : json;
  sa_result_ref : json;
  sa_artifact_refs : list json;
  sa_dependency_ids : list json;
  sa_output_contract : payload;
  sa_owner : json;
  sa_dept_id : option string;
  sa_skill_names : list string;
  sa_approval : ApprovalConfiguration;
  sa_pending : list NewEvent;
}.
#[global] Instance SessionAggregate_eta : Eta SessionAggregate := λ r,
  mkSession (sa_session_id r) (sa_root_session_id r) (sa_tenant_id r) (sa_version r)
    (sa_status r) (sa_run_status r) (sa_goal r) (sa_run_id r) (sa_parent_session_id r)
    (sa_role r) (sa_result_summary r) (sa_result_ref r) (sa_artifact_refs r)
    (sa_dependency_ids r) (sa_output_contract r) (sa_owner r) (sa_dept_id r)
    (sa_skill_names r) (sa_approval r) (sa_pending r).

(** [SessionAggregate.empty] *)
Definition empty_session (session_id tenant_id : string) : SessionAggregate :=
  mkSession session_id session_id tenant_id 0 None None EmptyString JNull JNull "root"
    JNull JNull [] [] [] JNull None [] default_approval [].

(** The status name of an existing Session, for messages. *)
Definition status_name (a : SessionAggregate) : string :=
  match sa_status a with Some s => session_value s | None => "None" end.

Definition is_root (a : SessionAggregate) : bool := String.eqb (sa_role a) "root".

Section session.
Context `{PydanticInt}.

(** ** [apply] *)

Definition approval_events : list string :=
  ["session.created"; "child.created"; "run.requested"; "session.approval_mode_changed";
   "session.resumed"].

Definition apply_approval (ty : string) (p : payload) (a : SessionAggregate)
    : res SessionAggregate :=
  match dget "approval" p with
  | Some v =>
      if str_in ty approval_events
      then c ← approval_model_validate v; Ok (a <| sa_approval := c |>)
      else Ok a
  | None => Ok a
  end.

Definition set_both (s : SessionStatus) (r : RunStatus) (a : SessionAggregate) : SessionAggregate :=
  a <| sa_status := Some s |> <| sa_run_status := Some r |>.

Definition apply_session_created (p : payload) (a : SessionAggregate) : res SessionAggregate :=
  goal ← pget "goal" p;
  root ← pget "root_session_id" p;
  names ← py_iter (pgetd "skill_names" (JArr []) p);
  Ok (a <| sa_goal := py_str goal |>
        <| sa_root_session_id := py_str root |>
        <| sa_parent_session_id := pgetn "parent_session_id" p |>
        <| sa_role := py_str (pgetd "role" (JStr "root") p) |>
        <| sa_dept_id := optional_str (pgetn "dept_id" p) |>
        <| sa_skill_names := map py_str names |>
        <| sa_status := Some SCreated |>).

Definition apply_child_created (p : payload) (a : SessionAggregate) : res SessionAggregate :=
  goal ← pget "goal" p;
  parent ← pget "parent_session_id" p;
  role ← pget "role" p;
  deps ← py_iter (pgetd "dependency_ids" (JArr []) p);
  contract ← py_dict (pgetd "output_contract" (JObj []) p);
  let a := a <| sa_goal := py_str goal |>
        <| sa_root_session_id := py_str (pgetd "root_session_id" (JStr (sa_root_session_id a)) p) |>
        <| sa_parent_session_id := JStr (py_str parent) |>
        <| sa_role := py_str role |>
        <| sa_dependency_ids := deps |>
        <| sa_output_contract := contract |> in
  let a := if is_none (pgetn "dept_id" p) then a
           else a <| sa_dept_id := optional_str (pgetn "dept_id" p) |> in
  Ok (a <| sa_status := Some (match deps with [] => SRunnable | _ => SPending end) |>).

Definition apply_run_requested (p : payload) (a : SessionAggregate) : res SessionAggregate :=
  run_id ← pget "run_id" p;
  let a := a <| sa_run_id := JStr (py_str run_id) |>
             <| sa_run_status := Some RPending |>
             <| sa_result_summary := JNull |>
             <| sa_result_ref := JNull |>
             <| sa_artifact_refs := [] |> in
  Ok (if is_root a then a <| sa_status := Some SPending |> else a).

Definition apply_run_completed (p : payload) (a : SessionAggregate) : res SessionAggregate :=
  refs ← py_iter (pgetd "artifact_refs" (JArr []) p);
  Ok (a <| sa_result_summary := pgetn "result_summary" p |>
        <| sa_result_ref := pgetn "result_ref" p |>
        <| sa_artifact_refs := refs |>
        <| sa_run_status := Some RCompleted |>
        <| sa_status := Some (if is_root a then SReady else SCompleted) |>).

(** The [elif] chain of [apply], after the approval configuration. *)
Definition apply_body (ty : string) (p : payload) (a : SessionAggregate) : res SessionAggregate :=
  if String.eqb ty "session.created" then apply_session_created p a
  else if String.eqb ty "child.created" then apply_child_created p a
  else if String.eqb ty "run.requested" then apply_run_requested p a
  else if String.eqb ty "run.scheduled" then Ok (set_both SRunnable RRunnable a)
  else if String.eqb ty "run.started" then Ok (set_both SRunning RRunning a)
  else if String.eqb ty "session.paused" then Ok (set_both SPaused RPaused a)
  else if String.eqb ty "approval.requested" then Ok (set_both SWaitingForHuman RWaitingForHuman a)
  else if String.eqb ty "approval.approved" then Ok (set_both SRunnable RRunnable a)
  else if str_in ty ["approval.rejected"; "approval.expired"; "approval.cancelled"]
  then Ok (set_both SRunnable RRunnable a)
  else if String.eqb ty "run.retry_scheduled" then Ok (set_both SRetryWait RRetryWait a)
  else if String.eqb ty "session.resumed" then
    run_id ← pget "run_id" p;
    Ok (set_both SPending RPending (a <| sa_run_id := JStr (py_str run_id) |>))
  else if String.eqb ty "run.completed" then apply_run_completed p a
  else if String.eqb ty "dependency.changed" then
    v ← pget "dependency_ids" p;
    deps ← py_iter v;
    Ok (a <| sa_dependency_ids := deps |>
          <| sa_status := Some (match deps with [] => SRunnable | _ => SPending end) |>)
  else if str_in ty ["child.delegated"; "session.handed_off"] then
    owner ← pget "owner" p;
    Ok (a <| sa_owner := JStr (py_str owner) |>)
  else if String.eqb ty "child.result_published" then
    refs ← py_iter (pgetd "artifact_refs" (JArr []) p);
    Ok (a <| sa_result_summary := pgetn "summary" p |>
          <| sa_result_ref := pgetn "result_ref" p |>
          <| sa_artifact_refs := refs |>
          <| sa_status := Some SCompleted |>)
  else if String.eqb ty "review.completed" then
    Ok (a <| sa_result_summary := pgetn "decision" p |>
          <| sa_result_ref := pgetn "target_result_ref" p |>
          <| sa_status := Some SCompleted |>)
  else if String.eqb ty "run.failed" then
    Ok (set_both (if is_root a then SReady else SFailed) RFailed a)
  else if String.eqb ty "run.cancelled" then
    Ok (set_both (if is_root a then SReady else SCancelled) RCancelled a)
  else if String.eqb ty "runtime.failed" then Ok (set_both SRetryWait RRetryWait a)
  else if String.eqb ty "runtime.reprovisioned" then Ok (set_both SRunnable RRunnable a)
  else if String.eqb ty "run.terminated" then
    Ok (set_both (if is_root a then SReady else SFailed) RFailed a)
  else if String.eqb ty "session.closed" then Ok (a <| sa_status := Some SClosed |>)
  else Ok a.

Definition apply (ty : string) (p : payload) (a : SessionAggregate) : res SessionAggregate :=
  a ← apply_approval ty p a; apply_body ty p a.

(** [_raise]: apply, then queue. *)
Definition raise_event (e : NewEvent) (a : SessionAggregate) : res SessionAggregate :=
  a ← apply (ne_type e) (ne_payload e) a;
  Ok (a <| sa_pending := sa_pending a ++ [e] |>).

(** ** Restoring *)

Definition from_events (events : list CanonicalEvent) : res SessionAggregate :=
  match events with
  | [] => Raise PyValueError "cannot restore a Session without events"
  | first :: _ =>
      foldM (λ a e, a ← apply (ev_type e) (ev_payload e) a;
                    Ok (a <| sa_version := ev_aggregate_version e |>))
            events (empty_session (ev_session_id first) (ev_tenant_id first))
  end.

Definition replay (events : list CanonicalEvent) (a : SessionAggregate) : res SessionAggregate :=
  foldM (λ a e,
    if negb (ev_aggregate_version e =? sa_version a + 1)%Z
    then Raise PyValueError
           ("snapshot replay gap: expected " +:+ pretty (sa_version a + 1)%Z
            +:+ ", got " +:+ pretty (ev_aggregate_version e))
    else
      a ← apply (ev_type e) (ev_payload e) a;
      Ok (a <| sa_version := ev_aggregate_version e |>)) events a.

Definition from_snapshot (state : payload) (version : Z) : res SessionAggregate :=
  let role := py_str (pgetd "role" (JStr "root") state) in
  st ← pget "status" state;
  stored_status ← session_status_of (py_str st);
  let stored_run_status :=
    if is_none (pgetn "run_status" state)
       && str_in (session_value stored_status) (map run_value all_run_statuses)
    then JStr (session_value stored_status) else pgetn "run_status" state in
  let stored_status :=
    if String.eqb role "root"
       && bool_decide (stored_status ∈ [SCompleted; SFailed; SCancelled])
    then SReady else stored_status in
  sid ← pget "session_id" state;
  root ← pget "root_session_id" state;
  tid ← pget "tenant_id" state;
  approval ← approval_model_validate (pgetd "approval" (JObj []) state);
  run_status ← (if truthy stored_run_status
                then Some <$> run_status_of (py_str stored_run_status) else Ok None);
  goal ← pget "goal" state;
  refs ← py_iter (pgetd "artifact_refs" (JArr []) state);
  deps ← py_iter (pgetd "dependency_ids" (JArr []) state);
  contract ← py_dict (pgetd "output_contract" (JObj []) state);
  names ← py_iter (pgetd "skill_names" (JArr []) state);
  Ok (mkSession (py_str sid) (py_str root) (py_str tid) version
        (Some stored_status) run_status (py_str goal) (pgetn "run_id" state)
        (pgetn "parent_session_id" state) role (pgetn "result_summary" state)
        (pgetn "result_ref" state) refs deps contract (pgetn "owner" state)
        (if is_none (pgetn "dept_id" state) then None else Some (py_str (pgetn "dept_id" state)))
        (map py_str names) approval []).

(** ** Commands *)

Definition require_existing (a : SessionAggregate) : res unit :=
  match sa_status a with
  | None => Raise InvalidTransitionError "Session does not exist"
  | Some _ => Ok tt
  end.

(** Optional pieces of a payload: [**({k: v} if v else {})]. *)
Definition opt_entry (k : string) (v : option json) : payload :=
  match v with Some v => if truthy v then [(k, v)] else [] | None => [] end.

(** [_run_payload] *)
Definition run_payload (run_id : string) (a : SessionAggregate) : payload :=
  [("run_id", JStr run_id); ("approval", JObj (approval_public_dict (sa_approval a)))]
  ++ (if opt_truthy (sa_dept_id a) then [("dept_id", jopt (sa_dept_id a))] else []).

Definition user_event (ty : string) (p : payload) : NewEvent := mkNewEvent ty p VUser.

Record CreateArgs := mkCreate {
  ca_goal : string;
  ca_run_id : string;
  ca_dept_id : option string;
  ca_source : string;
  ca_schedule_id : option string;
  ca_occurrence_id : option string;
  ca_approval : option ApprovalConfiguration;
  ca_runtime_budget : option payload;
  ca_read_refresh : option (list payload);
  ca_skill_names : option (list string);
}.

Definition created_payload (c : CreateArgs) (a : SessionAggregate) : payload :=
  [("goal", JStr (ca_goal c)); ("role", JStr "root");
   ("root_session_id", JStr (sa_session_id a)); ("parent_session_id", JNull);
   ("source", JStr (ca_source c));
   ("approval", JObj (approval_public_dict (sa_approval a)))]
  ++ (if opt_truthy (ca_dept_id c) then [("dept_id", jopt (ca_dept_id c))] else [])
  ++ opt_entry "skill_names" (Some (jstrs (sa_skill_names a)))
  ++ (if String.eqb (ca_source c) "schedule"
      then [("schedule_id", jopt (ca_schedule_id c)); ("occurrence_id", jopt (ca_occurrence_id c))]
      else []).

Definition create (c : CreateArgs) (a : SessionAggregate) : res SessionAggregate :=
  if negb (sa_version a =? 0)%Z || (match sa_status a with Some _ => true | None => false end)
  then Raise InvalidTransitionError "Session already exists" else
  let a := a <| sa_dept_id := ca_dept_id c |>
             <| sa_skill_names := fromkeys (default [] (ca_skill_names c)) |>
             <| sa_approval := default default_approval (ca_approval c) |> in
  a ← raise_event (user_event "session.created" (created_payload c a)) a;
  raise_event (user_event "run.requested"
    (run_payload (ca_run_id c) a
     ++ opt_entry "budget" (JObj <$> ca_runtime_budget c)
     ++ opt_entry "read_refresh" ((λ l, JArr (map JObj l)) <$> ca_read_refresh c)
     ++ opt_entry "skill_names" (Some (jstrs (sa_skill_names a))))) a.

Definition cancel (reason : string) (a : SessionAggregate) : res SessionAggregate :=
  _ ← require_existing a;
  if in_terminal_session (sa_status a)
  then Raise InvalidTransitionError ("cannot cancel Session in " +:+ status_name a)
  else if in_terminal_run (sa_run_status a)
  then Raise InvalidTransitionError "cannot cancel a Session without an active Run"
  else raise_event (user_event "run.cancelled"
         [("run_id", sa_run_id a); ("reason", JStr reason)]) a.

Definition append_message (message : string) (a : SessionAggregate) : res SessionAggregate :=
  _ ← require_existing a;
  if in_terminal_session (sa_status a)
  then Raise InvalidTransitionError ("cannot append message to Session in " +:+ status_name a)
  else raise_event (user_event "user.message.appended" [("message", JStr message)]) a.

Record RequestRunArgs := mkRequestRun {
  rr_run_id : string;
  rr_approval_mode : option ApprovalMode;
  rr_command_id : option string;
  rr_request_fingerprint : option string;
  rr_runtime_budget : option payload;
  rr_read_refresh : option (list payload);
}.

Definition request_run (r : RequestRunArgs) (a : SessionAggregate) : res SessionAggregate :=
  _ ← require_existing a;
  if negb (bool_decide (sa_status a ∈ [Some SCreated; Some SReady; Some SPaused]))
  then Raise InvalidTransitionError ("cannot request run for Session in " +:+ status_name a)
  else
  let resolved := resolve_approval
    (default Streaming (interaction_mode (sa_approval a))) (rr_approval_mode r) in
  a ← (if bool_decide (rr_approval_mode r ≠ None)
          || (bool_decide (interaction_mode (sa_approval a) = Some NonStreaming)
              && negb (bool_decide (effective_approval_mode (sa_approval a) = Some FullAccess)))
       then raise_event (user_event "session.approval_mode_changed"
              [("approval", JObj (approval_public_dict
                  (resolved <| approval_mode_revision :=
                     (approval_mode_revision (sa_approval a) + 1)%N |>)))]) a
       else Ok a);
  raise_event (user_event "run.requested"
    (run_payload (rr_run_id r) a
     ++ [("command_id", jopt (rr_command_id r));
         ("request_fingerprint", jopt (rr_request_fingerprint r))]
     ++ opt_entry "budget" (JObj <$> rr_runtime_budget r)
     ++ opt_entry "read_refresh" ((λ l, JArr (map JObj l)) <$> rr_read_refresh r)
     ++ opt_entry "skill_names" (Some (jstrs (sa_skill_names a))))) a.

Definition close (reason : string) (a : SessionAggregate) : res SessionAggregate :=
  _ ← require_existing a;
  if in_terminal_session (sa_status a)
  then Raise InvalidTransitionError ("cannot close Session in " +:+ status_name a)
  else if negb (in_terminal_run (sa_run_status a))
  then Raise InvalidTransitionError "cannot close Session while a Run is active"
  else raise_event (user_event "session.closed" [("reason", JStr reason)]) a.

Definition resume (run_id : string) (a : SessionAggregate) : res SessionAggregate :=
  _ ← require_existing a;
  if negb (bool_decide (sa_status a ∈ [Some SPaused; Some SRetryWait; Some SWaitingForHuman]))
  then Raise InvalidTransitionError ("cannot resume Session in " +:+ status_name a)
  else raise_event (user_event "session.resumed" (run_payload run_id a)) a.

Definition require_waiting (msg : string) (a : SessionAggregate) : res unit :=
  _ ← require_existing a;
  if bool_decide (sa_status a = Some SWaitingForHuman) then Ok tt
  else Raise InvalidTransitionError msg.

Definition response_payload (approval_id actor decision : string) (feedback : option string) : payload :=
  [("approval_id", JStr approval_id); ("actor_id", JStr actor); ("decision", JStr decision);
   ("feedback", jopt feedback)].

Definition record_human_response (approval_id actor decision : string)
    (feedback : option string) (terminal : bool) (a : SessionAggregate) : res SessionAggregate :=
  _ ← require_waiting ("cannot record approval response for Session in " +:+ status_name a) a;
  let p := response_payload approval_id actor decision feedback in
  a ← raise_event (user_event "human.response.recorded" p) a;
  if negb terminal then raise_event (user_event "approval.vote.recorded" p) a
  else raise_event (user_event ("approval." +:+ decision) p) a.

Definition delegate_approval (approval_id from_approver to_approver delegated_by reason : string)
    (a : SessionAggregate) : res SessionAggregate :=
  _ ← require_waiting "approval delegation requires a waiting Session" a;
  raise_event (user_event "approval.delegated"
    [("approval_id", JStr approval_id); ("from_approver", JStr from_approver);
     ("to_approver", JStr to_approver); ("delegated_by", JStr delegated_by);
     ("reason", JStr reason)]) a.

Definition escalate_approval (approval_id : string) (approvers : list string)
    (escalation_level : Z) (escalated_by reason : string) (next_escalation_at : option Z)
    (a : SessionAggregate) : res SessionAggregate :=
  _ ← require_waiting "approval escalation requires a waiting Session" a;
  raise_event (user_event "approval.escalated"
    [("approval_id", JStr approval_id); ("approvers", jstrs approvers);
     ("escalation_level", JInt escalation_level); ("escalated_by", JStr escalated_by);
     ("reason", JStr reason);
     ("next_escalation_at", jopt (isoformat <$> next_escalation_at))]) a.

Definition expire_approval (approval_id : string) (expired_at : Z) (a : SessionAggregate)
    : res SessionAggregate :=
  _ ← require_waiting "approval expiry requires a waiting Session" a;
  raise_event (user_event "approval.expired"
    [("approval_id", JStr approval_id); ("decision", JStr "expired");
     ("expired_at", JStr (isoformat expired_at)); ("reason", JStr "approval_sla_expired")]) a.

Definition release_pending_events (a : SessionAggregate) : list NewEvent * SessionAggregate :=
  (sa_pending a, a <| sa_pending := [] |>).

Definition snapshot_state (a : SessionAggregate) : res payload :=
  match sa_status a with
  | None => Raise InvalidTransitionError "cannot snapshot a Session that does not exist"
  | Some status => Ok
      [("session_id", JStr (sa_session_id a));
       ("root_session_id", JStr (sa_root_session_id a));
       ("tenant_id", JStr (sa_tenant_id a));
       ("approval", JObj (approval_public_dict (sa_approval a)));
       ("status", JStr (session_value status));
       ("run_status", jopt (run_value <$> sa_run_status a));
       ("goal", JStr (sa_goal a));
       ("run_id", sa_run_id a);
       ("parent_session_id", sa_parent_session_id a);
       ("role", JStr (sa_role a));
       ("result_summary", sa_result_summary a);
       ("result_ref", sa_result_ref a);
       ("artifact_refs", JArr (sa_artifact_refs a));
       ("dependency_ids", JArr (sa_dependency_ids a));
       ("output_contract", JObj (sa_output_contract a));
       ("owner", sa_owner a);
       ("dept_id", jopt (sa_dept_id a));
       ("skill_names", jstrs (sa_skill_names a))]
  end.
(** ** Command sequences *)

Inductive SessionCommand :=
  | CmdCreate (c : CreateArgs)
  | CmdCancel (reason : string)
  | CmdAppendMessage (message : string)
  | CmdRequestRun (r : RequestRunArgs)
  | CmdClose (reason : string)
  | CmdResume (run_id : string)
  | CmdRespond (approval_id actor decision : string) (feedback : option string) (terminal : bool)
  | CmdDelegate (approval_id from_approver to_approver delegated_by reason : string)
  | CmdEscalate (approval_id : string) (approvers : list string) (level : Z)
      (escalated_by reason : string) (next : option Z)
  | CmdExpire (approval_id : string) (expired_at : Z).

Definition run_command (c : SessionCommand) (a : SessionAggregate) : res SessionAggregate :=
  match c with
  | CmdCreate c => create c a
  | CmdCancel reason => cancel reason a
  | CmdAppendMessage m => append_message m a
  | CmdRequestRun r => request_run r a
  | CmdClose reason => close reason a
  | CmdResume run_id => resume run_id a
  | CmdRespond id actor d f t => record_human_response id actor d f t a
  | CmdDelegate id f t by_ r => delegate_approval id f t by_ r a
  | CmdEscalate id apps l by_ r n => escalate_approval id apps l by_ r n a
  | CmdExpire id t => expire_approval id t a
  end.

Definition run_commands (cs : list SessionCommand) (a : SessionAggregate) : res SessionAggregate :=
  foldM (λ a c, run_command c a) cs a.

(** ** Bookkeeping is invisible to [apply] *)

Definition frame (v : Z) (q : list NewEvent) (a : SessionAggregate) : SessionAggregate :=
  a <| sa_version := v |> <| sa_pending := q |>.

Lemma frame_self a : frame (sa_version a) (sa_pending a) a = a.
Proof. by destruct a. Qed.

Lemma apply_approval_frame v q ty p a :
  apply_approval ty p (frame v q a) = frame v q <$> apply_approval ty p a.
Proof.
  unfold apply_approval. destruct (dget "approval" p) as [x|]; [|done].
  destruct (str_in _ _); [|done]. by destruct (approval_model_validate x).
Qed.

Ltac case_chain :=
  repeat match goal with
  | |- context [if (String.eqb ?ty ?l) then _ else _] => destruct (String.eqb ty l)
  | |- context [if (str_in ?ty ?l) then _ else _] => destruct (str_in ty l)
  end.

Ltac case_payload :=
  repeat match goal with
  | |- context [pget ?k ?p] => destruct (pget k p); simpl; [|done]
  | |- context [py_iter ?v] => destruct (py_iter v); simpl; [|done]
  | |- context [py_dict ?v] => destruct (py_dict v); simpl; [|done]
  end.

Lemma apply_body_frame v q ty p a :
  apply_body ty p (frame v q a) = frame v q <$> apply_body ty p a.
Proof.
  unfold apply_body, apply_session_created, apply_child_created, apply_run_requested,
    apply_run_completed.
  case_chain; try done; case_payload; unfold frame, is_root; simpl; try done;
    repeat case_match; done.
Qed.

Lemma apply_frame v q ty p a : apply ty p (frame v q a) = frame v q <$> apply ty p a.
Proof.
  unfold apply. rewrite apply_approval_frame.
  destruct (apply_approval ty p a) as [a'|]; simpl; [|done]. apply apply_body_frame.
Qed.

Lemma apply_keeps ty p a a' :
  apply ty p a = Ok a' → sa_version a' = sa_version a ∧ sa_pending a' = sa_pending a.
Proof.
  intros H1. pose proof (apply_frame (sa_version a) (sa_pending a) ty p a) as H2.
  rewrite frame_self, H1 in H2. simpl in H2. injection H2 as H2.
  rewrite H2. by destruct a'.
Qed.

(** The state of an aggregate without its bookkeeping. *)
Definition core (a : SessionAggregate) : SessionAggregate := frame 0 [] a.

Lemma core_frame v q a : core (frame v q a) = core a.
Proof. by destruct a. Qed.
Lemma frame_core v q a : frame v q (core a) = frame v q a.
Proof. by destruct a. Qed.

Definition apply_new (a : SessionAggregate) (e : NewEvent) : res SessionAggregate :=
  apply (ne_type e) (ne_payload e) a.

(** The aggregate is what its queued events produce from the initial state. *)
Definition tracks (a0 a : SessionAggregate) : Prop :=
  foldM apply_new (sa_pending a) (core a0) = Ok (core a) ∧ sa_version a = sa_version a0.

Lemma raise_event_tracks a0 a a' e :
  tracks a0 a → raise_event e a = Ok a' → tracks a0 a'.
Proof.
  intros [Hf Hv] Hr. unfold raise_event in Hr. inv_res.
  match goal with H : apply _ _ _ = Ok ?x |- _ => rename H into Ha; rename x into a1 end.
  pose proof (apply_keeps _ _ _ _ Ha) as [Hv1 Hp1]. split; [|simpl; congruence].
  change (foldM apply_new (sa_pending a1 ++ [e]) (core a0) = Ok (core a1)).
  rewrite foldM_app, Hp1, Hf. simpl. unfold apply_new, core.
  rewrite apply_frame, Ha. done.
Qed.

Lemma raise_events_tracks a0 es a a' :
  tracks a0 a → foldM (λ a e, raise_event e a) es a = Ok a' → tracks a0 a'.
Proof.
  intros. eapply (foldM_inv (tracks a0) (λ a e, raise_event e a)); [|done..].
  intros; by eapply raise_event_tracks.
Qed.

(** [create] assigns three attributes before it raises the event that sets them
    again: the event alone determines the result. *)
Lemma create_preassignment c a d n ap :
  let a1 := a <| sa_dept_id := d |> <| sa_skill_names := n |> <| sa_approval := ap |> in
  raise_event (user_event "session.created" (created_payload c a1)) a1
  = raise_event (user_event "session.created" (created_payload c a1)) a.
Proof.
  cbv zeta. set (a1 := a <| sa_dept_id := d |> <| sa_skill_names := n |> <| sa_approval := ap |>).
  set (p := created_payload c a1).
  assert (dget "approval" p = Some (JObj (approval_public_dict ap))) as Hap.
  { unfold p, created_payload. by dsimp. }
  unfold raise_event, apply, apply_approval. cbn [ne_type ne_payload user_event].
  rewrite Hap. change (str_in "session.created" approval_events) with true. cbv iota.
  rewrite approval_dict_roundtrip. cbn [mbind res_bind].
  unfold apply_body, apply_session_created. cbn [String.eqb Ascii.eqb Bool.eqb].
  destruct (pget "goal" p); [|reflexivity].
  destruct (pget "root_session_id" p); [|reflexivity].
  destruct (py_iter (pgetd "skill_names" (JArr []) p)); reflexivity.
Qed.

Lemma run_command_tracks c a0 a a' :
  tracks a0 a → run_command c a = Ok a' → tracks a0 a'.
Proof.
  intros Ht Hc. destruct c; simpl in Hc;
    unfold create, cancel, append_message, request_run, close, resume,
      record_human_response, delegate_approval, escalate_approval, expire_approval,
      require_waiting in Hc;
    rewrite ?create_preassignment in Hc; split_guards;
    repeat match goal with H : (if _ then _ else _) = Ok _ |- _ => case_match; inv_res end;
    eauto using raise_event_tracks.
Qed.

Lemma run_commands_tracks cs a0 a :
  sa_pending a0 = [] → run_commands cs a0 = Ok a → tracks a0 a.
Proof.
  intros Hp Hc. unfold run_commands in Hc.
  eapply (foldM_inv (tracks a0)); [|split; [by rewrite Hp|done]|exact Hc].
  simpl; eauto using run_command_tracks.
Qed.

(** ** Restoring from stored events *)

(** A stored event carries a queued one. *)
Definition stores (e : CanonicalEvent) (n : NewEvent) : Prop :=
  ev_type e = ne_type n ∧ ev_payload e = ne_payload n.

Definition last_version (v : Z) (es : list CanonicalEvent) : Z :=
  fold_left (λ _ e, ev_aggregate_version e) es v.

Definition restore_step (a : SessionAggregate) (e : CanonicalEvent) : res SessionAggregate :=
  a ← apply (ev_type e) (ev_payload e) a; Ok (a <| sa_version := ev_aggregate_version e |>).

Lemma restore_step_frame v q e a :
  restore_step (frame v q a) e =
  frame (ev_aggregate_version e) q <$> apply (ev_type e) (ev_payload e) a.
Proof.
  unfold restore_step. rewrite apply_frame.
  destruct (apply _ _ a) as [a'|]; simpl; [|done]. by destruct a'.
Qed.

Lemma restore_events es ns v q a :
  Forall2 stores es ns →
  foldM restore_step es (frame v q a) =
  frame (last_version v es) q <$> foldM apply_new ns a.
Proof.
  intros Hs. revert v a. induction Hs as [|e n es ns [Hty Hp] Hs IH]; intros v a; [done|].
  cbn [foldM last_version fold_left]. rewrite restore_step_frame, Hty, Hp.
  unfold apply_new at 2. destruct (apply (ne_type n) (ne_payload n) a); simpl; [apply IH|done].
Qed.

Lemma from_events_unfold e es :
  from_events (e :: es) = foldM restore_step (e :: es) (empty_session (ev_session_id e) (ev_tenant_id e)).
Proof. done. Qed.

(** C23. Event sourcing is faithful: whatever commands a Session accepted, the
    stored form of the events it queued restores exactly the aggregate the
    commands left (its queue drained, its version that of the last event). *)
Theorem session_replay_live sid tid cs a es :
  run_commands cs (empty_session sid tid) = Ok a →
  Forall2 stores es (sa_pending a) →
  Forall (λ e, ev_session_id e = sid ∧ ev_tenant_id e = tid) es →
  es ≠ [] →
  from_events es = Ok (frame (last_version 0 es) [] a).
Proof.
  intros Hc Hs Hid Hne. destruct (run_commands_tracks cs (empty_session sid tid) a eq_refl Hc) as [Ht _].
  destruct es as [|e es]; [done|]. rewrite from_events_unfold.
  apply Forall_cons in Hid as [[E1 E2] _]. rewrite E1, E2.
  change (empty_session sid tid) with (frame 0 [] (empty_session sid tid)).
  rewrite (restore_events _ _ _ _ _ Hs).
  change (foldM apply_new (sa_pending a) (empty_session sid tid) = Ok (core a)) in Ht.
  rewrite Ht. simpl. by rewrite frame_core.
Qed.

(** ** Replay after a snapshot *)

Fixpoint contiguous (v : Z) (es : list CanonicalEvent) : Prop :=
  match es with
  | [] => True
  | e :: es => ev_aggregate_version e = (v + 1)%Z ∧ contiguous (v + 1) es
  end.

Lemma restore_step_version a e a' :
  restore_step a e = Ok a' → sa_version a' = ev_aggregate_version e.
Proof. unfold restore_step. intros. by inv_res. Qed.

(** The key of the stream of a Session; no event changes it. *)
Definition ids (a : SessionAggregate) : string * string := (sa_tenant_id a, sa_session_id a).

Lemma apply_approval_ids ty p a a' : apply_approval ty p a = Ok a' → ids a' = ids a.
Proof.
  unfold apply_approval. destruct (dget _ _); [|intros; by inv_res].
  destruct (str_in _ _); intros; by inv_res.
Qed.

Lemma apply_body_ids ty p a a' : apply_body ty p a = Ok a' → ids a' = ids a.
Proof.
  unfold apply_body, apply_session_created, apply_child_created, apply_run_requested,
    apply_run_completed.
  intros Hb. repeat match goal with
  | H : (if String.eqb _ _ then _ else _) = Ok _ |- _ => case_match
  | H : (if str_in _ _ then _ else _) = Ok _ |- _ => case_match
  end; inv_res; repeat case_match; done.
Qed.

Lemma apply_ids ty p a a' : apply ty p a = Ok a' → ids a' = ids a.
Proof.
  unfold apply. intros (a1 & H1%apply_approval_ids & H2%apply_body_ids)%res_bind_Ok. congruence.
Qed.

Lemma foldM_restore_ids es a a' : foldM restore_step es a = Ok a' → ids a' = ids a.
Proof.
  intros Hf. eapply (foldM_inv (λ x, ids x = ids a) restore_step); [|done|exact Hf].
  intros x e x' _ <- He. unfold restore_step in He.
  apply res_bind_Ok in He as (y & Hy%apply_ids & He). by inv_res.
Qed.

Lemma replay_contiguous es a :
  contiguous (sa_version a) es → replay es a = foldM restore_step es a.
Proof.
  unfold replay. revert a. induction es as [|e es IH]; intros a; cbn [foldM contiguous]; [done|].
  intros [Hv Hc]. rewrite (proj2 (Z.eqb_eq _ _) Hv). cbn [negb]. fold (restore_step a e).
  destruct (restore_step a e) as [a1|] eqn:E; [|reflexivity]. cbn [mbind res_bind].
  apply IH. apply restore_step_version in E. by rewrite E, Hv.
Qed.

(** [replay] accepts a stream exactly when its versions continue the
    snapshot without a gap and the stream restores from there, and then gives
    what that restoration gives, at the version reached. *)
Theorem replay_exact es a a' :
  replay es a = Ok a' ↔
  contiguous (sa_version a) es ∧ foldM restore_step es a = Ok a'
  ∧ sa_version a' = (sa_version a + Z.of_nat (length es))%Z.
Proof.
  split; [|intros (Hc & Hr & _); by rewrite replay_contiguous].
  intros Hr. enough (contiguous (sa_version a) es
    ∧ sa_version a' = (sa_version a + Z.of_nat (length es))%Z) as [Hc Hv].
  { split_and!; [done| |done]. by rewrite <- replay_contiguous. }
  revert a Hr. unfold replay. induction es as [|e es IH]; intros a Hr; cbn [foldM contiguous length] in *.
  { inv_res. split; [done|lia]. }
  destruct (ev_aggregate_version e =? sa_version a + 1)%Z eqn:E; [|done].
  bool_props. fold (restore_step a e) in Hr.
  apply res_bind_Ok in Hr as (a1 & H1%restore_step_version & H2).
  apply IH in H2 as [Hc Hlen]. rewrite H1, E in *. split; [done|lia].
Qed.

(** ** Snapshots *)

(** What a snapshot brings back: the queue is dropped, a missing run status is
    guessed from the session status, and a root Session stored in a run-terminal
    status comes back ready. *)
Definition restored (a : SessionAggregate) : SessionAggregate :=
  let run :=
    match sa_run_status a, sa_status a with
    | None, Some s => match run_status_of (session_value s) with Ok r => Some r | _ => None end
    | r, _ => r
    end in
  let status :=
    if is_root a && bool_decide (sa_status a ∈ [Some SCompleted; Some SFailed; Some SCancelled])
    then Some SReady else sa_status a in
  a <| sa_run_status := run |> <| sa_status := status |> <| sa_pending := [] |>.

Lemma map_py_str_JStr l : map py_str (map JStr l) = l.
Proof. rewrite map_map. by apply map_id. Qed.

Lemma snapshot_restores a st :
  snapshot_state a = Ok st → from_snapshot st (sa_version a) = Ok (restored a).
Proof.
  unfold snapshot_state. destruct (sa_status a) as [status|] eqn:Hst; [|done].
  intros; inv_res. unfold from_snapshot, pget, pgetn, pgetd. dsimp.
  cbn [mbind res_bind from_option id py_str]. rewrite session_status_roundtrip.
  cbn [mbind res_bind]. rewrite approval_dict_roundtrip. cbn [mbind res_bind py_iter py_dict jstrs].
  rewrite map_py_str_JStr. unfold restored, is_root. rewrite Hst.
  destruct a as [? ? ? ? st0 rs ? ? ? role ? ? ? ? ? ? dept ? ? ?]. cbn in *. subst st0.
  destruct status, rs as [[]|], (String.eqb role "root"), dept; reflexivity.
Qed.

(** A state a snapshot preserves. *)
Definition snapshot_stable (a : SessionAggregate) : Prop :=
  (sa_run_status a = None → ∀ s, sa_status a = Some s → is_ok (run_status_of (session_value s)) = false)
  ∧ (is_root a = true → sa_status a ∉ [Some SCompleted; Some SFailed; Some SCancelled]).

Lemma restored_stable a : snapshot_stable a → restored a = a <| sa_pending := [] |>.
Proof.
  intros [Hr Hs]. unfold restored.
  assert ((match sa_run_status a, sa_status a with
    | None, Some s => match run_status_of (session_value s) with Ok r => Some r | _ => None end
    | r, _ => r end) = sa_run_status a) as ->.
  { destruct (sa_run_status a); [done|]. destruct (sa_status a) as [s|]; [|done].
    specialize (Hr eq_refl s eq_refl). by destruct (run_status_of _). }
  assert ((if is_root a && bool_decide (sa_status a ∈ [Some SCompleted; Some SFailed; Some SCancelled])
    then Some SReady else sa_status a) = sa_status a) as ->.
  { destruct (is_root a); [|done]. rewrite bool_decide_eq_false_2; auto. }
  by destruct a.
Qed.

Lemma foldM_restore_pending es a a' :
  foldM restore_step es a = Ok a' → sa_pending a' = sa_pending a.
Proof.
  intros Hf. eapply (foldM_inv (λ x, sa_pending x = sa_pending a) restore_step); [|done|exact Hf].
  intros x e x' _ Hx He. unfold restore_step in He. inv_res.
  match goal with H : apply _ _ _ = Ok _ |- _ => apply apply_keeps in H as [_ Hp] end.
  simpl. by rewrite Hp.
Qed.

Lemma snapshot_then_replay pre post b st :
  from_events pre = Ok b → snapshot_stable b → snapshot_state b = Ok st →
  contiguous (sa_version b) post →
  (from_snapshot st (sa_version b) ≫= replay post) = foldM restore_step post b.
Proof.
  intros Hpre Hb Hst Hc. destruct pre as [|e pre]; [done|].
  rewrite (snapshot_restores _ _ Hst), restored_stable by done.
  rewrite from_events_unfold in Hpre.
  pose proof (foldM_restore_pending _ _ _ Hpre) as Hp. simpl in Hp.
  assert (b <| sa_pending := [] |> = b) as -> by (destruct b; simpl in *; by subst).
  cbn [mbind res_bind]. by rewrite replay_contiguous.
Qed.

Lemma from_events_app pre post b :
  from_events pre = Ok b → from_events (pre ++ post) = foldM restore_step post b.
Proof.
  intros Hpre. destruct pre as [|e pre]; [done|]. rewrite from_events_unfold in Hpre.
  change ((e :: pre) ++ post) with (e :: pre ++ post). rewrite from_events_unfold.
  change (e :: pre ++ post) with ((e :: pre) ++ post). by rewrite foldM_app, Hpre.
Qed.

(** Restoring from a snapshot and replaying the events after it gives the
    aggregate that the whole stream gives, when the snapshot was taken in a
    state it can represent. *)
Theorem snapshot_replay_equivalent pre post b st :
  from_events pre = Ok b → snapshot_stable b → snapshot_state b = Ok st →
  contiguous (sa_version b) post →
  (from_snapshot st (sa_version b) ≫= replay post) = from_events (pre ++ post).
Proof.
  intros Hpre Hb Hst Hc. rewrite (from_events_app _ _ _ Hpre). by eapply snapshot_then_replay.
Qed.

(** ** The lifecycle of a root Session *)

(** Event types a root stream does not carry after its creation. *)
Definition child_only : list string :=
  ["session.created"; "child.created"; "dependency.changed"; "child.result_published";
   "review.completed"].

Definition root_stream (es : list CanonicalEvent) : Prop :=
  match es with
  | [] => False
  | e :: es =>
      ev_type e = "session.created"
      ∧ py_str (pgetd "role" (JStr "root") (ev_payload e)) = "root"
      ∧ Forall (λ e, str_in (ev_type e) child_only = false) es
  end.

(** Session and run status move together. *)
Definition aligned_status (s : option SessionStatus) (r : option RunStatus) : bool :=
  match s, r with
  | Some SCreated, None => true
  | Some SClosed, _ => true
  | Some SReady, Some r => terminal_run r
  | Some SPending, Some RPending | Some SRunnable, Some RRunnable | Some SRunning, Some RRunning
  | Some SWaitingForHuman, Some RWaitingForHuman | Some SPaused, Some RPaused
  | Some SRetryWait, Some RRetryWait => true
  | _, _ => false
  end.

Definition aligned (a : SessionAggregate) : Prop :=
  is_root a = true ∧ aligned_status (sa_status a) (sa_run_status a) = true.

Lemma apply_approval_status ty p a a' :
  apply_approval ty p a = Ok a' →
  sa_status a' = sa_status a ∧ sa_run_status a' = sa_run_status a ∧ sa_role a' = sa_role a.
Proof.
  unfold apply_approval. destruct (dget _ _); [|intros; by inv_res].
  destruct (str_in _ _); intros; by inv_res.
Qed.

Lemma apply_body_aligned ty p a a' :
  str_in ty child_only = false → aligned a → apply_body ty p a = Ok a' → aligned a'.
Proof.
  unfold child_only, str_in. cbn [existsb]. rewrite !orb_false_iff.
  intros (H1 & H2 & H3 & H4 & H5 & _) [Hroot Hal] Hb. unfold apply_body in Hb.
  rewrite H1, H2, H3, H4, H5 in Hb.
  unfold apply_run_requested, apply_run_completed, is_root in *.
  repeat match goal with
  | H : (if ?b then _ else _) = Ok _ |- _ => destruct b; [inv_res; split; simpl; rewrite ?Hroot; done|]
  end. by inv_res.
Qed.

Lemma restore_step_aligned a e a' :
  str_in (ev_type e) child_only = false → aligned a → restore_step a e = Ok a' → aligned a'.
Proof.
  intros Hty [Hr Hs] He. unfold restore_step, apply in He. inv_res.
  match goal with H : apply_approval _ _ _ = Ok _ |- _ =>
    apply apply_approval_status in H as (E1 & E2 & E3) end.
  match goal with H : apply_body _ _ ?x = Ok ?y |- _ =>
    assert (aligned x) as Hx by (split; unfold is_root in *; congruence);
    pose proof (apply_body_aligned _ _ _ _ Hty Hx H) as Hy end.
  exact Hy.
Qed.

Lemma root_stream_aligned es a : root_stream es → from_events es = Ok a → aligned a.
Proof.
  destruct es as [|e es]; [done|]. intros (Hty & Hrole & Htail) Hf.
  rewrite from_events_unfold in Hf. cbn [foldM] in Hf. apply res_bind_Ok in Hf as (a1 & H1 & Hf).
  eapply (foldM_inv aligned restore_step); [| |exact Hf].
  - intros x e' x' Hin. rewrite Forall_forall in Htail.
    eauto using restore_step_aligned.
  - unfold restore_step, apply in H1. inv_res.
    match goal with H : apply_approval _ _ _ = Ok _ |- _ =>
      apply apply_approval_status in H as (E1 & E2 & E3) end.
    match goal with H : apply_body _ _ _ = Ok _ |- _ => rename H into Hb end.
    rewrite Hty in Hb. unfold apply_body, apply_session_created in Hb.
    cbn [String.eqb Ascii.eqb Bool.eqb] in Hb. inv_res.
    split; unfold is_root; simpl; [by rewrite Hrole|]. simpl in E2. by rewrite E2.
Qed.

Lemma aligned_stable a : aligned a → snapshot_stable a.
Proof.
  intros [Hroot Hal]. split.
  - intros Hr s Hs. rewrite Hr, Hs in Hal. by destruct s.
  - intros _ Hin. repeat (apply elem_of_cons in Hin as [Hs|Hin]; [by rewrite Hs in Hal; destruct (sa_run_status a)|]).
    by apply elem_of_nil in Hin.
Qed.

(** Raising an event without an obligation on its payload always succeeds. *)
Lemma raise_plain_ok ty p a :
  dget "approval" p = None →
  str_in ty ["session.created"; "child.created"; "run.requested"; "session.resumed";
             "run.completed"; "dependency.changed"; "child.delegated"; "session.handed_off";
             "child.result_published"] = false →
  is_ok (raise_event (user_event ty p) a) = true.
Proof.
  intros Hap. unfold str_in. cbn [existsb]. rewrite !orb_false_iff.
  intros (H1 & H2 & H3 & H4 & H5 & H6 & H7 & H8 & H9 & _).
  unfold raise_event, apply, apply_approval. cbn [ne_type ne_payload user_event]. rewrite Hap.
  cbn [mbind res_bind]. unfold apply_body, str_in. cbn [existsb].
  rewrite H1, H2, H3, H4, H5, H6, H7, H8, H9. cbn [orb]. by case_chain; repeat case_match.
Qed.

Lemma raise_run_payload_ok ty run_id extra a :
  ty ∈ ["run.requested"; "session.resumed"] →
  is_ok (raise_event (user_event ty (run_payload run_id a ++ extra)) a) = true.
Proof.
  intros Hty. unfold raise_event, apply, apply_approval. cbn [ne_type ne_payload user_event].
  set (p := run_payload run_id a ++ extra).
  assert (dget "approval" p = Some (JObj (approval_public_dict (sa_approval a)))) as ->
    by (unfold p, run_payload; by dsimp).
  assert (pget "run_id" p = Ok (JStr run_id)) as Hrun
    by (unfold pget, p, run_payload; by dsimp).
  repeat (apply elem_of_cons in Hty as [->|Hty]); [| |by apply elem_of_nil in Hty];
    cbn [str_in existsb approval_events String.eqb Ascii.eqb Bool.eqb orb];
    rewrite approval_dict_roundtrip; cbn [mbind res_bind];
    unfold apply_body, apply_run_requested, str_in;
    cbn [existsb String.eqb Ascii.eqb Bool.eqb orb]; rewrite Hrun; done.
Qed.

(** On every restorable root stream the commands are accepted exactly in the
    statuses the product means: a run can be cancelled until the Session is ready
    or closed, a Session closes only when ready, a run is requested only when
    created, ready or paused, messages are refused only after closing. *)
Theorem root_command_guards es a :
  root_stream es → from_events es = Ok a →
  (∀ reason, is_ok (cancel reason a) = negb (bool_decide (sa_status a ∈ [Some SReady; Some SClosed])))
  ∧ (∀ reason, is_ok (close reason a) = bool_decide (sa_status a = Some SReady))
  ∧ (∀ r, is_ok (request_run r a)
          = bool_decide (sa_status a ∈ [Some SCreated; Some SReady; Some SPaused]))
  ∧ (∀ m, is_ok (append_message m a) = negb (bool_decide (sa_status a = Some SClosed)))
  ∧ (∀ run_id, is_ok (resume run_id a)
          = bool_decide (sa_status a ∈ [Some SPaused; Some SRetryWait; Some SWaitingForHuman])).
Proof.
  intros Hs Hf. destruct (root_stream_aligned _ _ Hs Hf) as [_ Hal].
  assert (∃ s, sa_status a = Some s) as [s Hst]
    by (destruct (sa_status a); [eauto|done]).
  unfold cancel, close, request_run, append_message, resume, require_existing.
  rewrite Hst in *. split_and!; intros; cbn [mbind res_bind in_terminal_session].
  - destruct (terminal_session s) eqn:Et; [by destruct s, (sa_run_status a)|].
    destruct (in_terminal_run (sa_run_status a)) eqn:Er.
    { destruct s, (sa_run_status a) as [[]|]; done. }
    rewrite raise_plain_ok by done. destruct s, (sa_run_status a) as [[]|]; done.
  - destruct (terminal_session s) eqn:Et; [by destruct s, (sa_run_status a)|].
    destruct (in_terminal_run (sa_run_status a)) eqn:Er; cbn [negb].
    + rewrite raise_plain_ok by done. destruct s, (sa_run_status a) as [[]|]; done.
    + destruct s, (sa_run_status a) as [[]|]; done.
  - destruct (bool_decide (Some s ∈ _)); [|done]. cbn [negb].
    destruct (_ || _).
    + unfold raise_event at 2. unfold apply, apply_approval. cbn [ne_type ne_payload user_event].
      dsimp. change (str_in _ _) with true. cbv iota. rewrite approval_dict_roundtrip.
      cbn [mbind res_bind]. apply raise_run_payload_ok. left.
    + cbn [mbind res_bind]. apply raise_run_payload_ok. left.
  - destruct (terminal_session s) eqn:Et; [by destruct s, (sa_run_status a)|].
    rewrite raise_plain_ok by done. destruct s; done.
  - destruct (bool_decide (Some s ∈ _)); [|done]. cbn [negb].
    rewrite <- (app_nil_r (run_payload run_id a)). apply raise_run_payload_ok. right; left.
Qed.

(** Terminal statuses are absorbing for commands: no command is accepted by a
    completed, failed, cancelled or closed Session. *)
Theorem terminal_session_absorbing a s c :
  sa_status a = Some s → terminal_session s = true →
  ∃ msg, run_command c a = Raise InvalidTransitionError msg.
Proof.
  intros Hs Ht. destruct c; simpl;
    unfold create, cancel, append_message, request_run, close, resume, record_human_response,
      delegate_approval, escalate_approval, expire_approval, require_waiting, require_existing;
    rewrite Hs; cbn [mbind res_bind in_terminal_session]; rewrite ?Ht, ?orb_true_r; eauto;
    destruct s; try done; eauto.
Qed.
End session.

(** ** Witnesses *)

Module SessionExamples.
Definition create_args : CreateArgs :=
  mkCreate "goal" "run-1" (Some " d7 ") "schedule" (Some "sch") (Some "occ")
    (Some (resolve_approval NonStreaming None)) (Some [("max_steps", JInt 12)]) None
    (Some ["b"; "a"; "b"]).

Definition commands : list SessionCommand :=
  [CmdCreate create_args; CmdAppendMessage "hello"; CmdCancel "stop"; CmdRequestRun
     (mkRequestRun "run-2" (Some AutoReview) None None None None); CmdCancel "again";
   CmdClose "done"].

Definition live : SessionAggregate :=
  match run_commands (H := strict_pydantic) commands (empty_session "s1" "t1") with
  | Ok a => a | Raise _ _ => empty_session "s1" "t1" end.

Definition stored (n : nat) (e : NewEvent) : CanonicalEvent :=
  mkCanonicalEvent "evt" "t1" "s1" "s1" None (Z.of_nat n + 1) (ne_type e) 0
    (mkActor "user" "u") "corr" "cause" (ne_visibility e) 1 (ne_payload e).

Definition stored_events : list CanonicalEvent := imap stored (sa_pending live).

Lemma session_replay_live_witness :
  length stored_events = 8%nat ∧
  from_events (H := strict_pydantic) stored_events = Ok (frame 8 [] live).
Proof.
  split; [vm_compute; reflexivity|].
  change 8%Z with (last_version 0 stored_events).
  apply (session_replay_live "s1" "t1" commands live stored_events).
  - vm_compute. reflexivity.
  - vm_compute. repeat constructor.
  - vm_compute. repeat constructor.
  - vm_compute. discriminate.
Defined.

Definition restored_prefix : SessionAggregate :=
  match from_events (H := strict_pydantic) (take 4 stored_events) with
  | Ok a => a | Raise _ _ => live end.
Definition prefix_state : payload :=
  match snapshot_state restored_prefix with Ok st => st | Raise _ _ => [] end.

Lemma snapshot_replay_equivalent_witness :
  (from_snapshot (H := strict_pydantic) prefix_state (sa_version restored_prefix)
     ≫= replay (H := strict_pydantic) (drop 4 stored_events))
  = from_events (H := strict_pydantic) (take 4 stored_events ++ drop 4 stored_events).
Proof.
  apply (snapshot_replay_equivalent (H := strict_pydantic) (take 4 stored_events)
           (drop 4 stored_events) restored_prefix prefix_state).
  - vm_compute. reflexivity.
  - split.
    + vm_compute. discriminate.
    + intros _. vm_compute. intros Hin. repeat (apply elem_of_cons in Hin as [Hin|Hin]; [discriminate Hin|]).
      by apply elem_of_nil in Hin.
  - vm_compute. reflexivity.
  - vm_compute. repeat split.
Defined.

Lemma root_command_guards_witness :
  root_stream (take 3 stored_events) ∧
  ∃ a, from_events (H := strict_pydantic) (take 3 stored_events) = Ok a
    ∧ is_ok (cancel (H := strict_pydantic) "r" a) = true
    ∧ is_ok (close (H := strict_pydantic) "r" a) = false.
Proof.
  assert (root_stream (take 3 stored_events)) as Hr by (vm_compute; repeat constructor).
  split; [exact Hr|].
  destruct (from_events (H := strict_pydantic) (take 3 stored_events)) as [a|] eqn:E;
    [|vm_compute in E; discriminate E].
  exists a. split; [reflexivity|].
  destruct (root_command_guards (H := strict_pydantic) _ a Hr E) as (Hc & Hcl & _).
  rewrite Hc, Hcl. vm_compute in E. injection E as <-. split; reflexivity.
Defined.

Lemma terminal_session_absorbing_witness :
  sa_status live = Some SClosed ∧
  ∃ msg, run_command (H := strict_pydantic) (CmdAppendMessage "late") live
         = Raise InvalidTransitionError msg.
Proof.
  split; [vm_compute; reflexivity|].
  apply (terminal_session_absorbing live SClosed); vm_compute; reflexivity.
Defined.
End SessionExamples.
