(* ===== verification/Approval.v ===== *)
(** * Approvals ([domain/approval.py], [ApprovalRecord] of [contracts/tools.py])

    Requests with a quorum, votes, delegation and escalation, the rebuild of a
    record from the Session stream, and the digests an approval is bound to.
    Tuples that Python copies out of a payload unchecked keep their elements as
    values ([list json]). *)

From S2P Require Import Prelude PyValue DateTime Digest Contracts Session.
Local Open Scope Z_scope.

(** ** Data *)

Inductive RiskLevel := RiskLow | RiskMedium | RiskHigh | RiskCritical.
Inductive ApprovalStatus :=
  | ARequested | AWaiting | AApproved | ARejected | AExpired | ACancelled.

#[global] Instance ApprovalStatus_eq_dec : EqDecision ApprovalStatus.
Proof. solve_decision. Defined.

Definition risk_value (r : RiskLevel) : string :=
  match r with
  | RiskLow => "low" | RiskMedium => "medium" | RiskHigh => "high" | RiskCritical => "critical"
  end.
Definition approval_status_value (s : ApprovalStatus) : string :=
  match s with
  | ARequested => "requested" | AWaiting => "waiting" | AApproved => "approved"
  | ARejected => "rejected" | AExpired => "expired" | ACancelled => "cancelled"
  end.

Definition risk_of : string → res RiskLevel :=
  enum_of risk_value [RiskLow; RiskMedium; RiskHigh; RiskCritical].
Definition approval_status_of : string → res ApprovalStatus :=
  enum_of approval_status_value [ARequested; AWaiting; AApproved; ARejected; AExpired; ACancelled].

Record ApprovalRecord := mkApprovalRecord {
  ar_approval_id : string;
  ar_tenant_id : string;
  ar_session_id : string;
  ar_run_id : string;
  ar_action_digest : string;
  ar_tool_name : string;
  ar_redacted_arguments : payload;
  ar_risk : RiskLevel;
  ar_reason : string;
  ar_expected_effect : string;
  ar_allowed_decisions : list json;
  ar_assigned_approvers : list json;
  ar_policy_version : string;
  ar_expires_at : Z;
  ar_required_approvals : Z;
  ar_votes : list json;
  ar_escalation_at : option Z;
  ar_escalation_level : Z;
  ar_status : ApprovalStatus;
  ar_decision : json;
  ar_feedback : json;
}.
#[global] Instance ApprovalRecord_eta : Eta ApprovalRecord := λ r,
  mkApprovalRecord (ar_approval_id r) (ar_tenant_id r) (ar_session_id r) (ar_run_id r)
    (ar_action_digest r) (ar_tool_name r) (ar_redacted_arguments r) (ar_risk r) (ar_reason r)
    (ar_expected_effect r) (ar_allowed_decisions r) (ar_assigned_approvers r)
    (ar_policy_version r) (ar_expires_at r) (ar_required_approvals r) (ar_votes r)
    (ar_escalation_at r) (ar_escalation_level r) (ar_status r) (ar_decision r) (ar_feedback r).

(** [ApprovalRecord.as_event_payload] *)
Definition as_event_payload (r : ApprovalRecord) : payload :=
  [("approval_id", JStr (ar_approval_id r));
   ("run_id", JStr (ar_run_id r));
   ("action_digest", JStr (ar_action_digest r));
   ("tool_name", JStr (ar_tool_name r));
   ("redacted_arguments", JObj (ar_redacted_arguments r));
   ("risk", JStr (risk_value (ar_risk r)));
   ("reason", JStr (ar_reason r));
   ("expected_effect", JStr (ar_expected_effect r));
   ("allowed_decisions", JArr (ar_allowed_decisions r));
   ("assigned_approvers", JArr (ar_assigned_approvers r));
   ("policy_version", JStr (ar_policy_version r));
   ("expires_at", JStr (isoformat (ar_expires_at r)));
   ("required_approvals", JInt (ar_required_approvals r));
   ("votes", JArr (ar_votes r));
   ("escalation_at", jopt (isoformat <$> ar_escalation_at r));
   ("escalation_level", JInt (ar_escalation_level r));
   ("status", JStr (approval_status_value (ar_status r)))].

(** ** Digests *)

Definition action_digest (tool_name tool_version : string) (arguments : payload) : string :=
  sha256_hex (utf8 (json_dumps false (JObj
    [("arguments", JObj arguments); ("tool_name", JStr tool_name);
     ("tool_version", JStr tool_version)]))).

(** [CapabilityInvocationRef] of [contracts/capabilities.py]. *)
Record CapabilityInvocationRef := mkCapabilityRef {
  rf_capability_id : string;
  rf_server_id : string;
  rf_version : string;
  rf_content_digest : string;
  rf_tenant_id : option string;
  rf_config_revision : Z;
}.
#[global] Instance CapabilityInvocationRef_eq_dec : EqDecision CapabilityInvocationRef.
Proof. solve_decision. Defined.

(** [model_dump(mode="json")] *)
Definition ref_dump (r : CapabilityInvocationRef) : payload :=
  [("capability_id", JStr (rf_capability_id r)); ("server_id", JStr (rf_server_id r));
   ("version", JStr (rf_version r)); ("content_digest", JStr (rf_content_digest r));
   ("tenant_id", jopt (rf_tenant_id r)); ("config_revision", JInt (rf_config_revision r))].

Record ToolInvocation := mkInvocation {
  ti_tool_invocation_id : string;
  ti_tenant_id : string;
  ti_root_session_id : string;
  ti_session_id : string;
  ti_run_id : string;
  ti_tool_name : string;
  ti_tool_version : string;
  ti_arguments : payload;
  ti_expected_side_effect : string;
  ti_idempotency_key : string;
  ti_deadline : option Z;
  ti_fencing_token : Z;
  ti_actor_id : string;
  ti_approval_id : option string;
  ti_credential_ref : option string;
  ti_user_id : option string;
  ti_actor_role : option string;
  ti_dept_id : option string;
  ti_capability_ref : option CapabilityInvocationRef;
}.
#[global] Instance ToolInvocation_eta : Eta ToolInvocation := λ r,
  mkInvocation (ti_tool_invocation_id r) (ti_tenant_id r) (ti_root_session_id r) (ti_session_id r)
    (ti_run_id r) (ti_tool_name r) (ti_tool_version r) (ti_arguments r) (ti_expected_side_effect r)
    (ti_idempotency_key r) (ti_deadline r) (ti_fencing_token r) (ti_actor_id r) (ti_approval_id r)
    (ti_credential_ref r) (ti_user_id r) (ti_actor_role r) (ti_dept_id r) (ti_capability_ref r).

Definition invocation_action_digest (i : ToolInvocation) : string :=
  let digest := action_digest (ti_tool_name i) (ti_tool_version i) (ti_arguments i) in
  match ti_user_id i, ti_dept_id i, ti_capability_ref i with
  | None, None, None => digest
  | _, _, _ =>
      let p :=
        [("version", JInt 2); ("action_digest", JStr digest); ("tenant_id", JStr (ti_tenant_id i));
         ("root_session_id", JStr (ti_root_session_id i)); ("session_id", JStr (ti_session_id i));
         ("user_id", jopt (ti_user_id i)); ("dept_id", jopt (ti_dept_id i));
         ("actor_role", jopt (ti_actor_role i))]
        ++ match ti_capability_ref i with Some c => [("capability_ref", JObj (ref_dump c))] | None => [] end in
      sha256_hex (utf8 (json_dumps true (JObj p)))
  end.

Definition approval_request_digest (tenant_id approval_id session_id run_id action_digest
    policy_version : string) (expires_at : Z) : string :=
  sha256_hex (utf8 (json_dumps false (JObj
    [("action_digest", JStr action_digest); ("approval_id", JStr approval_id);
     ("expires_at", JStr (isoformat_micro expires_at)); ("policy_version", JStr policy_version);
     ("run_id", JStr run_id); ("session_id", JStr session_id); ("tenant_id", JStr tenant_id)]))).

(** ** Requests and votes *)

(** [request]; [uuid] is [uuid4().hex], [requested_at] the clock. *)
Definition request (uuid : string) (requested_at : Z)
    (tenant_id session_id run_id digest tool_name : string) (redacted_arguments : payload)
    (risk : RiskLevel) (reason expected_effect policy_version : string)
    (assigned_approvers : list string) (required_approvals : Z)
    (escalation_after : option Z) (ttl : Z) : res ApprovalRecord :=
  if required_approvals <? 1
  then Raise ApprovalValidationError "approval quorum must be positive"
  else if match assigned_approvers with [] => false | _ =>
            Z.of_nat (length (fromkeys assigned_approvers)) <? required_approvals end
  then Raise ApprovalValidationError "approval quorum exceeds assigned approvers"
  else if ttl <=? 0
  then Raise ApprovalValidationError "approval TTL must be positive"
  else if match escalation_after with Some e => (e <=? 0) || (ttl <=? e) | None => false end
  then Raise ApprovalValidationError "approval escalation must occur within its TTL"
  else Ok (mkApprovalRecord ("apr_" +:+ uuid) tenant_id session_id run_id digest tool_name
         redacted_arguments risk reason expected_effect [JStr "approved"; JStr "rejected"]
         (map JStr assigned_approvers) policy_version (requested_at + ttl) required_approvals []
         (match escalation_after with Some e => Some (requested_at + e) | None => None end)
         0 AWaiting JNull JNull).

(** [any(str(vote.get("actor_id")) == actor_id for vote in votes)] *)
Fixpoint has_voted (actor : string) (votes : list json) : res bool :=
  match votes with
  | [] => Ok false
  | v :: votes =>
      x ← jgetd "actor_id" JNull v;
      if String.eqb (py_str x) actor then Ok true else has_voted actor votes
  end.

(** [sum(1 for item in votes if item.get("decision") == "approved")] *)
Fixpoint approved_count (votes : list json) : res Z :=
  match votes with
  | [] => Ok 0
  | v :: votes =>
      d ← jgetd "decision" JNull v;
      n ← approved_count votes;
      Ok (if is_lit d "approved" then 1 + n else n)
  end.

Definition vote_entry (actor decision : string) (feedback : json) (recorded_at : Z) : json :=
  JObj [("actor_id", JStr actor); ("decision", JStr decision); ("feedback", feedback);
        ("recorded_at", JStr (isoformat recorded_at))].

Definition vote (r : ApprovalRecord) (actor decision : string) (feedback : option string)
    (now : Z) : res (ApprovalRecord * bool) :=
  if negb (bool_decide (ar_status r ∈ [ARequested; AWaiting]))
  then Raise ApprovalValidationError ("approval is already " +:+ approval_status_value (ar_status r))
  else if ar_expires_at r <=? now then Raise ApprovalValidationError "approval has expired"
  else if match ar_assigned_approvers r with [] => false | l => negb (jmem (JStr actor) l) end
  then Raise ApprovalValidationError "actor is not an assigned approver"
  else if negb (jmem (JStr decision) (ar_allowed_decisions r))
  then Raise ApprovalValidationError ("unsupported approval decision: " +:+ decision)
  else
  dup ← has_voted actor (ar_votes r);
  if (dup : bool) then Raise ApprovalValidationError "actor has already voted on this approval" else
  let votes := ar_votes r ++ [vote_entry actor decision (jopt feedback) now] in
  let rejected := String.eqb decision (approval_status_value ARejected) in
  n ← approved_count votes;
  let terminal := rejected || (ar_required_approvals r <=? n) in
  let status := if rejected then ARejected else if terminal then AApproved else AWaiting in
  Ok (r <| ar_votes := votes |> <| ar_status := status |>
        <| ar_decision := if terminal then JStr (approval_status_value status) else JNull |>
        <| ar_feedback := if terminal then jopt feedback else JNull |>,
      terminal).

Definition respond (r : ApprovalRecord) (actor decision : string) (feedback : option string)
    (now : Z) : res ApprovalRecord :=
  '(decided, terminal) ← vote r actor decision feedback now;
  if (terminal : bool) then Ok decided
  else Raise ApprovalValidationError "approval quorum has not been reached".

Definition validate (r : ApprovalRecord) (tenant_id session_id digest policy_version : string)
    (now : Z) : res unit :=
  if negb (String.eqb (ar_tenant_id r) tenant_id) || negb (String.eqb (ar_session_id r) session_id)
  then Raise ApprovalValidationError "approval belongs to a different tenant or Session"
  else if negb (String.eqb (ar_action_digest r) digest)
  then Raise ApprovalValidationError "approval action digest does not match"
  else if negb (String.eqb (ar_policy_version r) policy_version)
  then Raise ApprovalValidationError "approval policy version does not match"
  else if negb (bool_decide (ar_status r = AApproved))
  then Raise ApprovalValidationError
         ("approval is " +:+ approval_status_value (ar_status r) +:+ ", not approved")
  else if ar_expires_at r <=? now then Raise ApprovalValidationError "approval has expired"
  else Ok tt.

(** ** Rebuilding a record from the Session stream *)

(** [_aware_expires_at] *)
Definition aware_expires_at (v : json) : res Z := aware_instant (py_str v).

(** [tuple(dict.fromkeys(values))] *)
Definition jfromkeys (l : list json) : res (list json) :=
  foldM (λ acc v, if negb (hashable v) then Raise PyTypeError "unhashable type"
                  else Ok (if jmem v acc then acc else acc ++ [v])) l [].

Definition opt_time (v : json) : res (option Z) :=
  if truthy v then Some <$> aware_expires_at v else Ok None.

Definition record_of_request (approval_id : string) (e : CanonicalEvent) : res ApprovalRecord :=
  let p := ev_payload e in
  digest ← pget "action_digest" p;
  tool ← pget "tool_name" p;
  args ← py_dict (pgetd "redacted_arguments" (JObj []) p);
  risk ← (v ← pget "risk" p; risk_of (py_str v));
  allowed ← py_iter (pgetd "allowed_decisions" (JArr []) p);
  assigned ← py_iter (pgetd "assigned_approvers" (JArr []) p);
  policy ← pget "policy_version" p;
  expires ← (v ← pget "expires_at" p; aware_expires_at v);
  required ← py_int (pgetd "required_approvals" (JInt 1) p);
  votes ← py_iter (pgetd "votes" (JArr []) p);
  escalation ← opt_time (pgetn "escalation_at" p);
  level ← py_int (pgetd "escalation_level" (JInt 0) p);
  status ← approval_status_of (py_str (pgetd "status" (JStr "waiting") p));
  let run_id :=
    if truthy (pgetn "run_id" p) then py_str (pgetn "run_id" p)
    else if opt_truthy (ev_run_id e) then default EmptyString (ev_run_id e) else EmptyString in
  Ok (mkApprovalRecord approval_id (ev_tenant_id e) (ev_session_id e) run_id (py_str digest)
        (py_str tool) args risk (py_str (pgetd "reason" (JStr EmptyString) p))
        (py_str (pgetd "expected_effect" (JStr EmptyString) p)) allowed assigned (py_str policy)
        expires (Z.max 1 required) votes escalation level status JNull JNull).

Definition apply_vote_recorded (e : CanonicalEvent) (r : ApprovalRecord) : res ApprovalRecord :=
  actor ← pget "actor_id" (ev_payload e);
  decision ← pget "decision" (ev_payload e);
  Ok (r <| ar_votes := ar_votes r ++
        [vote_entry (py_str actor) (py_str decision) (pgetn "feedback" (ev_payload e))
           (ev_occurred_at e)] |>).

Definition apply_delegated (e : CanonicalEvent) (r : ApprovalRecord) : res ApprovalRecord :=
  from ← pget "from_approver" (ev_payload e);
  to ← pget "to_approver" (ev_payload e);
  approvers ← jfromkeys (map (λ v, if is_lit v (py_str from) then JStr (py_str to) else v)
                           (ar_assigned_approvers r));
  Ok (r <| ar_assigned_approvers := approvers |>).

Definition apply_escalated (e : CanonicalEvent) (r : ApprovalRecord) : res ApprovalRecord :=
  v ← pget "approvers" (ev_payload e);
  additions ← py_iter v;
  approvers ← jfromkeys (ar_assigned_approvers r ++ map (λ x, JStr (py_str x)) additions);
  level ← (v ← pget "escalation_level" (ev_payload e); py_int v);
  at_ ← opt_time (pgetn "next_escalation_at" (ev_payload e));
  Ok (r <| ar_assigned_approvers := approvers |> <| ar_escalation_level := level |>
        <| ar_escalation_at := at_ |>).

(** The text after the first dot of an event type. *)
Fixpoint after_dot (s : string) : string :=
  match s with
  | String c s => if Ascii.eqb c (chr 46) then s else after_dot s
  | EmptyString => EmptyString
  end.

Definition apply_decided (e : CanonicalEvent) (r : ApprovalRecord) : res ApprovalRecord :=
  let p := ev_payload e in
  status ← approval_status_of (after_dot (ev_type e));
  votes ← (if is_none (pgetn "actor_id" p) then Ok (ar_votes r)
           else
             let actor := py_str (pgetn "actor_id" p) in
             dup ← has_voted actor (ar_votes r);
             Ok (if (dup : bool) then ar_votes r
                 else ar_votes r ++
                   [vote_entry actor (py_str (pgetd "decision" (JStr (approval_status_value status)) p))
                      (pgetn "feedback" p) (ev_occurred_at e)]));
  Ok (r <| ar_status := status |> <| ar_votes := votes |>
        <| ar_decision := pgetn "decision" p |> <| ar_feedback := pgetn "feedback" p |>).

(** One iteration of the loop of [ApprovalAggregate.from_events]. *)
Definition approval_step (tenant_id session_id approval_id : string)
    (record : option ApprovalRecord) (e : CanonicalEvent) : res (option ApprovalRecord) :=
  if negb (String.eqb (ev_tenant_id e) tenant_id) || negb (String.eqb (ev_session_id e) session_id)
  then Ok record
  else if negb (String.eqb (py_str (pgetd "approval_id" (JStr EmptyString) (ev_payload e))) approval_id)
  then Ok record
  else if String.eqb (ev_type e) "approval.requested"
  then Some <$> record_of_request approval_id e
  else match record with
  | None => Ok None
  | Some r =>
      if negb (String.prefix "approval." (ev_type e)) then Ok record
      else Some <$>
        (if String.eqb (ev_type e) "approval.vote.recorded" then apply_vote_recorded e r
         else if String.eqb (ev_type e) "approval.delegated" then apply_delegated e r
         else if String.eqb (ev_type e) "approval.escalated" then apply_escalated e r
         else apply_decided e r)
  end.

Definition approval_from_events (events : list CanonicalEvent)
    (tenant_id session_id approval_id : string) : res (option ApprovalRecord) :=
  foldM (approval_step tenant_id session_id approval_id) events None.

(** ** Votes *)

(** One vote as it reached [vote]. *)
Record Ballot := mkBallot {
  bl_actor : string;
  bl_decision : string;
  bl_feedback : option string;
  bl_at : Z;
}.

Definition cast (r : ApprovalRecord) (b : Ballot) : res ApprovalRecord :=
  fst <$> vote r (bl_actor b) (bl_decision b) (bl_feedback b) (bl_at b).

Definition entry_of (b : Ballot) : json :=
  vote_entry (bl_actor b) (bl_decision b) (jopt (bl_feedback b)) (bl_at b).

Definition approvals (bs : list Ballot) : list Ballot :=
  filter (λ b, bl_decision b = "approved") bs.

Lemma entry_actor b : jgetd "actor_id" JNull (entry_of b) = Ok (JStr (bl_actor b)).
Proof. reflexivity. Qed.
Lemma entry_decision b : jgetd "decision" JNull (entry_of b) = Ok (JStr (bl_decision b)).
Proof. reflexivity. Qed.

Lemma has_voted_entries actor bs :
  has_voted actor (map entry_of bs) = Ok (bool_decide (actor ∈ map bl_actor bs)).
Proof.
  induction bs as [|b bs IH]; [done|]. cbn [map has_voted]. rewrite entry_actor.
  cbn [mbind res_bind py_str].
  destruct (String.eqb_spec (bl_actor b) actor) as [->|Hne].
  - by rewrite bool_decide_eq_true_2 by left.
  - rewrite IH. f_equal. apply bool_decide_ext. rewrite elem_of_cons. naive_solver.
Qed.

Lemma approvals_cons b bs :
  approvals (b :: bs) =
  if decide (bl_decision b = "approved") then b :: approvals bs else approvals bs.
Proof. unfold approvals. by rewrite filter_cons. Qed.

Lemma approved_count_entries bs :
  approved_count (map entry_of bs) = Ok (Z.of_nat (length (approvals bs))).
Proof.
  induction bs as [|b bs IH]; [done|]. cbn [map approved_count]. rewrite entry_decision.
  cbn [mbind res_bind is_lit].
  rewrite IH. cbn [mbind res_bind]. rewrite approvals_cons.
  destruct (String.eqb_spec (bl_decision b) "approved"); case_decide; try done.
  cbn [length]. f_equal. lia.
Qed.

Lemma jmem_str s l : jmem (JStr s) (map JStr l) = bool_decide (s ∈ l).
Proof.
  unfold jmem. induction l as [|x l IH]; [done|]. cbn [map existsb].
  rewrite IH. change (py_eq (JStr x) (JStr s)) with (String.eqb x s).
  destruct (String.eqb_spec x s) as [->|Hne]; cbn [orb].
  - by rewrite bool_decide_eq_true_2 by left.
  - apply bool_decide_ext. rewrite elem_of_cons. naive_solver.
Qed.

(** What the votes cast so far have made of the requested record. *)
Record tallied (r0 : ApprovalRecord) (assigned : list string) (bs : list Ballot)
    (r : ApprovalRecord) : Prop := {
  ta_record : r = r0 <| ar_votes := map entry_of bs |> <| ar_status := ar_status r |>
                    <| ar_decision := ar_decision r |> <| ar_feedback := ar_feedback r |>;
  ta_actors : NoDup (map bl_actor bs);
  ta_assigned : assigned ≠ [] → Forall (λ b, bl_actor b ∈ assigned) bs;
  ta_timely : Forall (λ b, bl_at b < ar_expires_at r0) bs;
  ta_status : match ar_status r with
    | AWaiting => approvals bs = bs ∧ Z.of_nat (length bs) < ar_required_approvals r0
    | AApproved => approvals bs = bs ∧ Z.of_nat (length bs) = ar_required_approvals r0
    | ARejected => ∃ b bs', bs = bs' ++ [b] ∧ bl_decision b = "rejected" ∧ approvals bs' = bs'
    | _ => False
    end;
}.

Lemma tallied_fields r0 assigned bs r :
  tallied r0 assigned bs r →
  ar_votes r = map entry_of bs ∧ ar_expires_at r = ar_expires_at r0
  ∧ ar_assigned_approvers r = ar_assigned_approvers r0
  ∧ ar_allowed_decisions r = ar_allowed_decisions r0
  ∧ ar_required_approvals r = ar_required_approvals r0.
Proof. intros [Hr _ _ _ _]. rewrite Hr. done. Qed.

(** A vote that is accepted passed every guard of [vote]. *)
Lemma vote_inv r actor decision feedback now r' terminal :
  vote r actor decision feedback now = Ok (r', terminal) →
  ar_status r ∈ [ARequested; AWaiting] ∧ now < ar_expires_at r
  ∧ (ar_assigned_approvers r ≠ [] → jmem (JStr actor) (ar_assigned_approvers r) = true)
  ∧ jmem (JStr decision) (ar_allowed_decisions r) = true
  ∧ has_voted actor (ar_votes r) = Ok false
  ∧ ∃ n, approved_count (ar_votes r ++ [vote_entry actor decision (jopt feedback) now]) = Ok n
  ∧ terminal = String.eqb decision "rejected" || (ar_required_approvals r <=? n)
  ∧ let status := if String.eqb decision "rejected" then ARejected
                  else if ar_required_approvals r <=? n then AApproved else AWaiting in
    r' = r <| ar_votes := ar_votes r ++ [vote_entry actor decision (jopt feedback) now] |>
           <| ar_status := status |>
           <| ar_decision := if terminal then JStr (approval_status_value status) else JNull |>
           <| ar_feedback := if terminal then jopt feedback else JNull |>.
Proof.
  unfold vote. intros Hv. split_guards. bool_props.
  simplify_eq. split_and!; try done.
  - intros Hne. destruct (ar_assigned_approvers r); [done|]. by bool_props.
  - eexists. split_and!; [done|done|]. cbn zeta.
    destruct (String.eqb decision "rejected"); done.
Qed.

Lemma approvals_snoc_yes bs b :
  approvals bs = bs → bl_decision b = "approved" → approvals (bs ++ [b]) = bs ++ [b].
Proof.
  intros Hbs Hb. unfold approvals in *. rewrite filter_app, Hbs, filter_cons, decide_True by done.
  done.
Qed.

Lemma cast_tallied r0 assigned bs r b r' :
  ar_assigned_approvers r0 = map JStr assigned →
  ar_allowed_decisions r0 = [JStr "approved"; JStr "rejected"] →
  tallied r0 assigned bs r → cast r b = Ok r' → tallied r0 assigned (bs ++ [b]) r'.
Proof.
  intros Has Hal Ht Hc. pose proof (tallied_fields _ _ _ _ Ht) as (Hvo & Hex & Has' & Hal' & Hreq).
  destruct Ht as [Hr Hnd Hasg Htm Hst]. unfold cast in Hc.
  apply res_fmap_Ok in Hc as ([r1 terminal] & Hv & ?). simpl in *; subst r1.
  apply vote_inv in Hv as (Hs & Hexp & Ha & Hd & Hdup & n & Hn & -> & ->).
  assert (ar_votes r ++ [vote_entry (bl_actor b) (bl_decision b) (jopt (bl_feedback b)) (bl_at b)]
          = map entry_of (bs ++ [b])) as Hvotes by (rewrite map_app, Hvo; done).
  rewrite Hvotes in *. rewrite approved_count_entries in Hn. injection Hn as <-.
  rewrite Hvo, has_voted_entries in Hdup. injection Hdup as Hdup. bool_props.
  rewrite Hal', Hal in Hd. change [JStr "approved"; JStr "rejected"]
    with (map JStr ["approved"; "rejected"]) in Hd. rewrite jmem_str in Hd. bool_props.
  assert (ar_status r = AWaiting) as Hw.
  { destruct (ar_status r); try done; set_solver. }
  rewrite Hw in Hst. destruct Hst as [Hall Hlt].
  split; cbn [set_field ar_status].
  - rewrite Hr. reflexivity.
  - rewrite map_app. apply NoDup_app. split_and!; [done|set_solver|apply NoDup_singleton].
  - intros Hne. apply Forall_app; split; [auto|]. apply Forall_singleton.
    rewrite Has', Has, jmem_str in Ha.
    assert (map JStr assigned ≠ []) as Hne' by (destruct assigned; done).
    specialize (Ha Hne'). by bool_props.
  - apply Forall_app; split; [done|]. apply Forall_singleton. by rewrite <- Hex.
  - rewrite !elem_of_cons, elem_of_nil in Hd.
    destruct (String.eqb_spec (bl_decision b) "rejected") as [Hrej|Hrej].
    + cbn. eauto.
    + assert (bl_decision b = "approved") as Hyes by naive_solver.
      rewrite approvals_snoc_yes by done. rewrite Hreq.
      destruct (Z.leb_spec (ar_required_approvals r0) (Z.of_nat (length (bs ++ [b])))) as [Hle|Hle];
        cbn; split; try done.
      rewrite length_app in *. simpl in *. lia.
Qed.

Lemma casts_tallied r0 assigned bs r :
  ar_assigned_approvers r0 = map JStr assigned →
  ar_allowed_decisions r0 = [JStr "approved"; JStr "rejected"] →
  tallied r0 assigned [] r0 → foldM cast bs r0 = Ok r → tallied r0 assigned bs r.
Proof.
  intros Has Hal H0. revert r. induction bs as [|b bs IH] using rev_ind; intros r Hf.
  { simpl in Hf. by inv_res. }
  rewrite foldM_app in Hf. apply res_bind_Ok in Hf as (r1 & H1 & H2). cbn in H2.
  apply res_bind_Ok in H2 as (r2 & H2 & H3). inv_res. eauto using cast_tallied.
Qed.

(** C29. An approval that [validate] accepts was granted by its quorum: exactly the
    required number of votes, all of them approvals, from distinct actors that
    were assigned (when anyone was), each before the expiry; and it matches the
    tenant, Session, action digest and policy version, and has not expired. *)
Theorem validated_approval_has_quorum uuid requested_at tid sid run_id digest tool args risk reason
    effect policy assigned required escalation ttl r0 bs r tid' sid' digest' policy' now :
  request uuid requested_at tid sid run_id digest tool args risk reason effect policy assigned
    required escalation ttl = Ok r0 →
  foldM cast bs r0 = Ok r →
  validate r tid' sid' digest' policy' now = Ok tt →
  (tid', sid', digest', policy') = (tid, sid, digest, policy)
  ∧ now < requested_at + ttl
  ∧ 1 ≤ required ∧ Z.of_nat (length bs) = required
  ∧ Forall (λ b, bl_decision b = "approved" ∧ bl_at b < requested_at + ttl) bs
  ∧ NoDup (map bl_actor bs)
  ∧ (assigned ≠ [] → map bl_actor bs ⊆ assigned).
Proof.
  intros Hreq Hc Hv. unfold request in Hreq. split_guards.
  set (r0' := mkApprovalRecord _ _ _ _ _ _ _ _ _ _ _ _ _ _ _ _ _ _ _ _ _) in *.
  bool_props.
  apply (casts_tallied r0' assigned) in Hc; [|done|done|].
  2:{ split; try done; [constructor|]. split; [done|]. change (0 < required). lia. }
  destruct Hc as [Hr Hnd Has Htm Hst]. unfold validate in Hv. split_guards. bool_props.
  match goal with H : ar_status r = AApproved |- _ => rewrite H in Hst end.
  destruct Hst as [Hall Hlen]. rewrite Hr in *. cbn in *. subst.
  split_and!; try done.
  - rewrite Forall_forall in Htm |- *. intros b Hb. split; [|by apply Htm].
    rewrite <- Hall in Hb. unfold approvals in Hb. by apply list_elem_of_filter in Hb as [? _].
  - intros Hne. specialize (Has Hne). rewrite Forall_forall in Has.
    intros x (b & -> & Hb)%list_elem_of_fmap. auto.
Qed.

(** ** Rebuilding *)

Lemma risk_roundtrip r : risk_of (risk_value r) = Ok r.
Proof. by destruct r. Qed.
Lemma approval_status_roundtrip s : approval_status_of (approval_status_value s) = Ok s.
Proof. by destruct s. Qed.

Lemma isoformat_truthy t : truthy (JStr (isoformat t)) = true.
Proof. unfold isoformat, iso_text. destruct (civil_from_days _) as [[y m] d]. reflexivity. Qed.

(** An event of the stream of this approval. *)
Definition concerns (r : ApprovalRecord) (e : CanonicalEvent) : Prop :=
  ev_tenant_id e = ar_tenant_id r ∧ ev_session_id e = ar_session_id r
  ∧ py_str (pgetd "approval_id" (JStr EmptyString) (ev_payload e)) = ar_approval_id r.

Lemma approval_step_concerns r e o :
  concerns r e →
  approval_step (ar_tenant_id r) (ar_session_id r) (ar_approval_id r) o e =
  if String.eqb (ev_type e) "approval.requested"
  then Some <$> record_of_request (ar_approval_id r) e
  else match o with
  | None => Ok None
  | Some r =>
      if negb (String.prefix "approval." (ev_type e)) then Ok o
      else Some <$>
        (if String.eqb (ev_type e) "approval.vote.recorded" then apply_vote_recorded e r
         else if String.eqb (ev_type e) "approval.delegated" then apply_delegated e r
         else if String.eqb (ev_type e) "approval.escalated" then apply_escalated e r
         else apply_decided e r)
  end.
Proof.
  intros (Ht & Hs & Hid). unfold approval_step. rewrite Ht, Hs, Hid, !String.eqb_refl. reflexivity.
Qed.

(** The payload an approval is stored with rebuilds it: after the
    [approval.requested] event that carries a record, whatever came before, the
    stream gives back that record (undecided). *)
Theorem approval_payload_rebuilds es e r o :
  approval_from_events es (ar_tenant_id r) (ar_session_id r) (ar_approval_id r) = Ok o →
  ev_type e = "approval.requested" → ev_payload e = as_event_payload r →
  ev_tenant_id e = ar_tenant_id r → ev_session_id e = ar_session_id r →
  ar_run_id r ≠ EmptyString → 1 ≤ ar_required_approvals r →
  in_datetime_range (ar_expires_at r) →
  (∀ t, ar_escalation_at r = Some t → in_datetime_range t) →
  approval_from_events (es ++ [e]) (ar_tenant_id r) (ar_session_id r) (ar_approval_id r)
  = Ok (Some (r <| ar_decision := JNull |> <| ar_feedback := JNull |>)).
Proof.
  intros Hes Hty Hp Ht Hs Hrun Hreq Hexp Hesc. unfold approval_from_events in *.
  rewrite foldM_app, Hes. cbn [mbind res_bind foldM].
  rewrite approval_step_concerns by (unfold concerns; rewrite Hp; done).
  rewrite Hty, String.eqb_refl. unfold record_of_request.
  rewrite Hp. unfold as_event_payload, pget, pgetn, pgetd. dsimp.
  cbn [mbind res_bind from_option id py_str py_dict py_iter py_int].
  rewrite risk_roundtrip. cbn [mbind res_bind]. unfold aware_expires_at, opt_time. cbn [py_str].
  rewrite aware_isoformat by done. cbn [mbind res_bind].
  assert (truthy (JStr (ar_run_id r)) = true) as ->.
  { cbn. destruct (String.eqb_spec (ar_run_id r) EmptyString); done. }
  rewrite Z.max_r by lia. rewrite approval_status_roundtrip, Ht, Hs.
  destruct (ar_escalation_at r) as [t|] eqn:E; cbn [fmap option_fmap option_map jopt].
  - rewrite isoformat_truthy. unfold aware_expires_at. cbn [py_str].
    rewrite aware_isoformat by auto. destruct r; simpl in *; subst; reflexivity.
  - destruct r; simpl in *; subst; reflexivity.
Qed.

Section voting_events.
Context `{PydanticInt}.

Lemma raise_event_queues e a a' : raise_event e a = Ok a' → sa_pending a' = sa_pending a ++ [e].
Proof.
  unfold raise_event. intros Hr. inv_res.
  match goal with H : apply _ _ _ = Ok _ |- _ => apply apply_keeps in H as [_ Hp] end.
  cbn. by rewrite Hp.
Qed.

Lemma response_queues approval_id actor decision feedback terminal a a' :
  record_human_response approval_id actor decision feedback terminal a = Ok a' →
  sa_pending a' = sa_pending a ++
    [user_event "human.response.recorded" (response_payload approval_id actor decision feedback);
     user_event (if terminal then "approval." +:+ decision else "approval.vote.recorded")
       (response_payload approval_id actor decision feedback)].
Proof.
  unfold record_human_response. intros Hr. inv_res.
  repeat match goal with H : raise_event _ _ = Ok _ |- _ => apply raise_event_queues in H end.
  destruct terminal; cbn [negb] in *;
    repeat match goal with H : raise_event _ _ = Ok _ |- _ => apply raise_event_queues in H as -> end;
    match goal with H : sa_pending _ = _ |- _ => rewrite H end; by rewrite <- app_assoc.
Qed.

(** Voting and its events agree: when an undecided approval, rebuilt from the
    stream, accepts a vote, the two events that the Session queues for that vote,
    once stored, rebuild exactly the record that [vote] returned, whether the
    vote was partial or final. *)
Theorem vote_events_rebuild es r actor decision feedback now r' terminal a a' :
  approval_from_events es (ar_tenant_id r) (ar_session_id r) (ar_approval_id r) = Ok (Some r) →
  ar_status r = AWaiting → ar_decision r = JNull → ar_feedback r = JNull →
  decision = "approved" ∨ decision = "rejected" →
  vote r actor decision feedback now = Ok (r', terminal) →
  record_human_response (ar_approval_id r) actor decision feedback terminal a = Ok a' →
  ∃ n1 n2, sa_pending a' = sa_pending a ++ [n1; n2] ∧
  ∀ e1 e2, stores e1 n1 → stores e2 n2 →
    ev_tenant_id e1 = ar_tenant_id r → ev_session_id e1 = ar_session_id r →
    ev_tenant_id e2 = ar_tenant_id r → ev_session_id e2 = ar_session_id r →
    ev_occurred_at e2 = now →
    approval_from_events (es ++ [e1; e2]) (ar_tenant_id r) (ar_session_id r) (ar_approval_id r)
    = Ok (Some r').
Proof.
  intros Hes Hw Hd Hf Hdec Hv Hr. apply response_queues in Hr. do 2 eexists. split; [exact Hr|].
  intros e1 e2 [Ty1 P1] [Ty2 P2] Ht1 Hs1 Ht2 Hs2 Hat. cbn in Ty1, P1, Ty2, P2.
  unfold approval_from_events in *. rewrite foldM_app, Hes. cbn [mbind res_bind foldM].
  rewrite approval_step_concerns by (unfold concerns; rewrite P1; done).
  rewrite Ty1.
  change (String.eqb "human.response.recorded" "approval.requested") with false.
  change (String.prefix "approval." "human.response.recorded") with false. cbn [negb mbind res_bind].
  rewrite approval_step_concerns by (unfold concerns; rewrite P2; done).
  apply vote_inv in Hv as (_ & _ & _ & _ & Hdup & n & _ & Hterm & ->).
  unfold apply_vote_recorded, apply_decided. rewrite P2, Ty2.
  unfold response_payload, pget, pgetn, pgetd. dsimp.
  cbn [mbind res_bind from_option id py_str is_none]. rewrite Hdup, Hat.
  destruct r; cbn in *; subst.
  destruct Hdec as [->| ->]; [destruct (_ <=? n)|]; reflexivity.
Qed.
End voting_events.

(** ** Witnesses *)

Module ApprovalExamples.
Definition asked : ApprovalRecord :=
  match request "u1" 0 "t1" "s1" "run-1" "digest" "shell" [("cmd", JStr "ls")] RiskHigh "r" "e"
          "p1" ["ann"; "bob"; "cat"] 2 (Some minute) hour with
  | Ok r => r
  | Raise _ _ => mkApprovalRecord "" "" "" "" "" "" [] RiskLow "" "" [] [] "" 0 0 [] None 0 AExpired JNull JNull
  end.
Definition ballots : list Ballot :=
  [mkBallot "bob" "approved" None 5; mkBallot "ann" "approved" (Some "fine") 9].
Definition granted : ApprovalRecord :=
  match foldM cast ballots asked with Ok r => r | Raise _ _ => asked end.

Lemma validated_approval_has_quorum_witness :
  is_ok (validate granted "t1" "s1" "digest" "p1" 100) = true
  ∧ map bl_actor ballots ⊆ ["ann"; "bob"; "cat"].
Proof.
  split; [vm_compute; reflexivity|].
  refine ((proj2 (proj2 (proj2 (proj2 (proj2 (proj2
    (validated_approval_has_quorum "u1" 0 "t1" "s1" "run-1" "digest" "shell"
    [("cmd", JStr "ls")] RiskHigh "r" "e" "p1" ["ann"; "bob"; "cat"] 2 (Some minute) hour asked
    ballots granted "t1" "s1" "digest" "p1" 100 _ _ _))))))) _);
    try (vm_compute; reflexivity). discriminate.
Defined.

Definition stored (at_ : Z) (e : NewEvent) : CanonicalEvent :=
  mkCanonicalEvent "evt" "t1" "s1" "s1" None 1 (ne_type e) at_
    (mkActor "user" "u") "corr" "cause" (ne_visibility e) 1 (ne_payload e).
Definition asked_event : CanonicalEvent :=
  stored 0 (user_event "approval.requested" (as_event_payload asked)).

Lemma approval_payload_rebuilds_witness :
  approval_from_events [asked_event] "t1" "s1" "apr_u1" = Ok (Some asked).
Proof.
  apply (approval_payload_rebuilds [] asked_event asked None); try reflexivity; try discriminate.
  - vm_compute. split; discriminate || reflexivity.
  - intros t Ht. vm_compute in Ht. injection Ht as <-. vm_compute. split; discriminate || reflexivity.
Defined.

Definition waiting_session : SessionAggregate :=
  (empty_session "s1" "t1") <| sa_status := Some SWaitingForHuman |>
    <| sa_run_status := Some RWaitingForHuman |>.
Definition once : ApprovalRecord :=
  match cast asked (mkBallot "bob" "approved" None 5) with Ok r => r | Raise _ _ => asked end.
Definition responded : SessionAggregate :=
  match record_human_response (H := strict_pydantic) "apr_u1" "bob" "approved" None false
          waiting_session with Ok a => a | Raise _ _ => waiting_session end.

Lemma vote_events_rebuild_witness :
  approval_from_events ([asked_event] ++ map (stored 5) (sa_pending responded)) "t1" "s1" "apr_u1"
  = Ok (Some once).
Proof.
  destruct (vote_events_rebuild (H := strict_pydantic) [asked_event] asked "bob" "approved" None 5
              once false waiting_session responded) as (n1 & n2 & Hq & Hall);
    [vm_compute; reflexivity ..| left; reflexivity | vm_compute; reflexivity
    | vm_compute; reflexivity |].
  - change (sa_pending waiting_session) with (@nil NewEvent) in Hq. rewrite Hq.
    apply Hall; try reflexivity; split; reflexivity.
Defined.
End ApprovalExamples.
