(* ===== verification/Collaboration.v ===== *)
(** * Collaboration graph ([domain/collaboration.py], [contracts/collaboration.py])

    The task graph of a root Session: nodes rebuilt from events, the limits and
    the dependency DAG a new Child must respect, which nodes are runnable and
    when a set of Children may be joined.  The [nodes] dict is an
    insertion-ordered dictionary; the node objects are owned by it alone, so an
    assignment to a node is an update of its entry. *)

From Stdlib Require Import SpecFloat.
From S2P Require Import Prelude PyValue DateTime Contracts.
Local Open Scope Z_scope.

(** ** Data *)

Inductive CollaborationRole := CRoot | CCoordinator | CWorker | CReviewer | CRepair.
#[global] Instance CollaborationRole_eq_dec : EqDecision CollaborationRole.
Proof. solve_decision. Defined.

Definition role_value (r : CollaborationRole) : string :=
  match r with
  | CRoot => "root" | CCoordinator => "coordinator" | CWorker => "worker"
  | CReviewer => "reviewer" | CRepair => "repair"
  end.
Definition role_of : string → res CollaborationRole :=
  enum_of role_value [CRoot; CCoordinator; CWorker; CReviewer; CRepair].

Inductive ReviewDecision := RDAccepted | RDChangesRequested | RDRejected.
Definition review_value (d : ReviewDecision) : string :=
  match d with
  | RDAccepted => "accepted" | RDChangesRequested => "changes_requested" | RDRejected => "rejected"
  end.

Definition publishable_fields : list string :=
  ["summary"; "result_ref"; "artifact_refs"; "evidence_refs"; "limitations"].

Record CollaborationLimits := mkLimits {
  cl_max_depth : Z;
  cl_max_children_per_parent : Z;
  cl_max_children : Z;
  cl_max_budget : spec_float;
}.

(** [CollaborationLimits.__post_init__] *)
Definition limits_init (l : CollaborationLimits) : res CollaborationLimits :=
  if Z.min (Z.min (cl_max_depth l) (cl_max_children_per_parent l)) (cl_max_children l) <? 1
  then Raise PyValueError "collaboration limits must be positive"
  else if f64_leb (cl_max_budget l) f64_zero
  then Raise PyValueError "collaboration budget must be positive"
  else Ok l.

Record OutputContract := mkContract {
  oc_version : string;
  oc_required_fields : list string;
  oc_require_artifacts : bool;
  oc_require_evidence : bool;
}.
Definition default_contract : OutputContract := mkContract "1" ["summary"; "result_ref"] false false.

(** [OutputContract.__post_init__] *)
Definition contract_init (c : OutputContract) : res OutputContract :=
  match py_sorted String.leb
          (filter (λ f, f ∉ publishable_fields) (fromkeys (oc_required_fields c))) with
  | [] => Ok c
  | unsupported => Raise PyValueError
      ("unsupported Child Result fields: " +:+ String.concat ", " unsupported)
  end.

Definition contract_as_dict (c : OutputContract) : payload :=
  [("version", JStr (oc_version c)); ("required_fields", jstrs (oc_required_fields c));
   ("require_artifacts", JBool (oc_require_artifacts c));
   ("require_evidence", JBool (oc_require_evidence c))].

(** [tuple(str(item) for item in v)] *)
Definition str_tuple (v : json) : res (list string) := l ← py_iter v; Ok (map py_str l).

Definition contract_from_dict (v : payload) : res OutputContract :=
  fields ← str_tuple (pgetd "required_fields" (JArr []) v);
  contract_init (mkContract (py_str (pgetd "version" (JStr "1") v)) fields
    (truthy (pgetd "require_artifacts" (JBool false) v))
    (truthy (pgetd "require_evidence" (JBool false) v))).

(** [OutputContract.validate] *)
Definition contract_validate (c : OutputContract) (result : payload) : res unit :=
  let missing :=
    filter (λ f, truthy (pgetn f result) = false) (oc_required_fields c)
    ++ (if oc_require_artifacts c && negb (truthy (pgetn "artifact_refs" result))
        then ["artifact_refs"] else [])
    ++ (if oc_require_evidence c && negb (truthy (pgetn "evidence_refs" result))
        then ["evidence_refs"] else []) in
  match missing with
  | [] => Ok tt
  | _ => Raise PyValueError
      ("result does not satisfy output contract: " +:+ String.concat ", " missing)
  end.

Record ChildSpec := mkChildSpec {
  cs_task_key : string;
  cs_role : CollaborationRole;
  cs_goal : string;
  cs_output_contract : OutputContract;
  cs_dependency_ids : list string;
  cs_input_refs : list string;
  cs_tool_permissions : list string;
  cs_budget : spec_float;
  cs_runtime_budget : payload;
  cs_metadata : payload;
}.

(** [ChildSpec.__post_init__] *)
Definition child_spec_init (s : ChildSpec) : res ChildSpec :=
  if String.eqb (strip (cs_task_key s)) EmptyString || String.eqb (strip (cs_goal s)) EmptyString
  then Raise PyValueError "child task_key and goal are required"
  else if bool_decide (cs_role s = CRoot)
  then Raise PyValueError "a Child cannot use the root role"
  else if f64_leb (cs_budget s) f64_zero
  then Raise PyValueError "child budget must be positive"
  else
  _ ← foldM (λ _ key,
        let value := pgetn key (cs_runtime_budget s) in
        if is_none value then Ok tt else
        n ← py_int value;
        if n <? 1 then Raise PyValueError ("child runtime " +:+ key +:+ " must be positive")
        else Ok tt) ["max_steps"; "max_output_tokens"] tt;
  let max_cost := pgetn "max_cost" (cs_runtime_budget s) in
  if is_none max_cost then Ok s else
  c ← py_float max_cost;
  if f64_leb c f64_zero then Raise PyValueError "child runtime max_cost must be positive"
  else Ok s.

Record CollaborationNode := mkNode {
  cn_tenant_id : string;
  cn_session_id : string;
  cn_root_session_id : string;
  cn_parent_session_id : option string;
  cn_role : CollaborationRole;
  cn_goal : string;
  cn_task_key : string;
  cn_output_contract : OutputContract;
  cn_dependency_ids : list string;
  cn_input_refs : list string;
  cn_tool_permissions : list string;
  cn_metadata : payload;
  cn_owner : option string;
  cn_budget : spec_float;
  cn_runtime_budget : payload;
  cn_status : string;
  cn_result : option payload;
  cn_target_session_id : json;
  cn_run_id : option string;
}.
#[global] Instance CollaborationNode_eta : Eta CollaborationNode := λ n,
  mkNode (cn_tenant_id n) (cn_session_id n) (cn_root_session_id n) (cn_parent_session_id n)
    (cn_role n) (cn_goal n) (cn_task_key n) (cn_output_contract n) (cn_dependency_ids n)
    (cn_input_refs n) (cn_tool_permissions n) (cn_metadata n) (cn_owner n) (cn_budget n)
    (cn_runtime_budget n) (cn_status n) (cn_result n) (cn_target_session_id n) (cn_run_id n).

Notation nodes_dict := (list (string * CollaborationNode)).

Record CollaborationAggregate := mkCollab {
  ca_tenant_id : string;
  ca_root_session_id : string;
  ca_nodes : nodes_dict;
  ca_reviews : list (string * payload);
  ca_joined_children : list string;
}.
#[global] Instance CollaborationAggregate_eta : Eta CollaborationAggregate := λ g,
  mkCollab (ca_tenant_id g) (ca_root_session_id g) (ca_nodes g) (ca_reviews g)
    (ca_joined_children g).

Definition new_collaboration (tenant_id root_session_id : string) : CollaborationAggregate :=
  mkCollab tenant_id root_session_id [] [] [].

(** ** Runnable nodes *)

(** [_dependencies_satisfied] *)
Definition dependencies_satisfied (nodes : nodes_dict) (n : CollaborationNode) : bool :=
  forallb (λ d, match dget d nodes with
                | Some m => String.eqb (cn_status m) "completed"
                | None => true
                end) (cn_dependency_ids n)
  && Nat.eqb (length (cn_dependency_ids n))
       (length (filter (λ d, dmem d nodes = true) (cn_dependency_ids n))).

Definition settled_statuses : list string := ["running"; "completed"; "failed"; "cancelled"].

(** The body of the loop of [_refresh_runnable] for one node. *)
Definition refresh_node (nodes : nodes_dict) (n : CollaborationNode) : CollaborationNode :=
  if bool_decide (cn_role n = CRoot) || str_in (cn_status n) settled_statuses then n
  else n <| cn_status := if dependencies_satisfied nodes n then "runnable" else "blocked" |>.

(** [_refresh_runnable]: the nodes in order, each reading what the earlier
    iterations left. *)
Definition refresh_runnable (nodes : nodes_dict) : nodes_dict :=
  fold_left (λ nodes sid,
    match dget sid nodes with
    | Some n => dset sid (refresh_node nodes n) nodes
    | None => nodes
    end) (dkeys nodes) nodes.

Definition runnable (g : CollaborationAggregate) : list CollaborationNode :=
  filter (λ n, cn_status n = "runnable") (dvalues (ca_nodes g)).

(** ** Events *)

(** [_node] *)
Definition get_node (nodes : nodes_dict) (sid : string) : res CollaborationNode :=
  match dget sid nodes with
  | Some n => Ok n
  | None => Raise CollaborationValidationError ("unknown Child Session: " +:+ sid)
  end.

Definition root_node (e : CanonicalEvent) : res CollaborationNode :=
  goal ← pget "goal" (ev_payload e);
  Ok (mkNode (ev_tenant_id e) (ev_session_id e) (ev_root_session_id e) None CRoot (py_str goal)
        "root" default_contract [] [] [] [] None f64_zero [] "pending" None JNull None).

Definition child_node (e : CanonicalEvent) : res CollaborationNode :=
  let p := ev_payload e in
  parent ← pget "parent_session_id" p;
  role ← (v ← pget "role" p; role_of (py_str v));
  goal ← pget "goal" p;
  task_key ← pget "task_key" p;
  contract ← (v ← pget "output_contract" p; d ← py_dict v; contract_from_dict d);
  deps ← str_tuple (pgetd "dependency_ids" (JArr []) p);
  inputs ← str_tuple (pgetd "input_refs" (JArr []) p);
  tools ← str_tuple (pgetd "tool_permissions" (JArr []) p);
  metadata ← py_dict (pgetd "metadata" (JObj []) p);
  budget ← py_float (pgetd "budget" (JInt 1) p);
  runtime ← py_dict (pgetd "runtime_budget" (JObj []) p);
  Ok (mkNode (ev_tenant_id e) (ev_session_id e) (ev_root_session_id e) (Some (py_str parent)) role
        (py_str goal) (py_str task_key) contract deps inputs tools metadata None budget runtime
        "blocked" None (pgetn "target_session_id" p) None).

(** Assign a node, then refresh. *)
Definition put_refresh (sid : string) (n : CollaborationNode) (g : CollaborationAggregate)
    : CollaborationAggregate :=
  g <| ca_nodes := refresh_runnable (dset sid n (ca_nodes g)) |>.

Definition put_node (sid : string) (n : CollaborationNode) (g : CollaborationAggregate)
    : CollaborationAggregate :=
  g <| ca_nodes := dset sid n (ca_nodes g) |>.

Definition collab_apply (g : CollaborationAggregate) (e : CanonicalEvent)
    : res CollaborationAggregate :=
  let p := ev_payload e in
  let ty := ev_type e in
  let sid := ev_session_id e in
  let nodes := ca_nodes g in
  if String.eqb ty "session.created" && String.eqb sid (ca_root_session_id g) then
    n ← root_node e; Ok (put_node sid n g)
  else if String.eqb ty "child.created" then
    n ← child_node e; Ok (put_refresh sid n g)
  else if String.eqb ty "dependency.changed" then
    n ← get_node nodes sid;
    v ← pget "dependency_ids" p;
    deps ← str_tuple v;
    Ok (put_refresh sid (n <| cn_dependency_ids := deps |>) g)
  else if String.eqb ty "run.requested" && dmem sid nodes then
    run_id ← pget "run_id" p;
    n ← get_node nodes sid;
    Ok (put_node sid (n <| cn_run_id := Some (py_str run_id) |>) g)
  else if str_in ty ["child.delegated"; "session.handed_off"] then
    n ← get_node nodes sid;
    owner ← pget "owner" p;
    let n := n <| cn_owner := Some (py_str owner) |> in
    Ok (put_node sid
          (if String.eqb (cn_status n) "blocked" && dependencies_satisfied nodes n
           then n <| cn_status := "runnable" |> else n) g)
  else if String.eqb ty "run.started" && dmem sid nodes then
    n ← get_node nodes sid;
    Ok (put_node sid (n <| cn_status := "running" |>) g)
  else if String.eqb ty "child.result_published" then
    n ← get_node nodes sid;
    Ok (put_refresh sid (n <| cn_result := Some p |> <| cn_status := "completed" |>) g)
  else if String.eqb ty "review.completed" then
    let review := dset "review_session_id" (JStr sid) p in
    n ← get_node nodes sid;
    Ok (put_refresh sid (n <| cn_status := "completed" |> <| cn_result := Some review |>)
          (g <| ca_reviews := dset sid review (ca_reviews g) |>))
  else if String.eqb ty "join.completed" then
    v ← pget "child_session_ids" p;
    children ← str_tuple v;
    Ok (g <| ca_joined_children := children |>)
  else if String.eqb ty "run.cancelled" && dmem sid nodes then
    n ← get_node nodes sid;
    Ok (put_refresh sid (n <| cn_status := "cancelled" |>) g)
  else if String.eqb ty "run.failed" && dmem sid nodes then
    n ← get_node nodes sid;
    Ok (put_refresh sid (n <| cn_status := "failed" |>) g)
  else Ok g.

(** The order of [(occurred_at, session_id, aggregate_version)]. *)
Definition event_key_leb (a b : CanonicalEvent) : bool :=
  if negb (ev_occurred_at a =? ev_occurred_at b) then ev_occurred_at a <? ev_occurred_at b
  else if negb (String.eqb (ev_session_id a) (ev_session_id b))
  then String.ltb (ev_session_id a) (ev_session_id b)
  else ev_aggregate_version a <=? ev_aggregate_version b.

Definition collab_from_events (tenant_id root_session_id : string) (events : list CanonicalEvent)
    : res CollaborationAggregate :=
  foldM collab_apply
    (py_sorted event_key_leb
       (filter (λ e, ev_tenant_id e = tenant_id ∧ ev_root_session_id e = root_session_id) events))
    (new_collaboration tenant_id root_session_id).

(** ** The dependency graph *)

(** A graph: the dependencies of each node, in the order of the dict. *)
Notation dep_graph := (list (string * list string)).

Definition graph_get (g : dep_graph) (s : string) : list string := default [] (dget s g).

(** [visit]: depth-first search with the sets [visiting] and [visited].  Each
    nested call has one more node in [visiting]. *)
Fixpoint visit (fuel : nat) (g : dep_graph) (st : gset string * gset string) (s : string)
    : res (gset string * gset string) :=
  match fuel with
  | O => Raise Diverges "visit"
  | S fuel =>
      let '(visiting, visited) := st in
      if decide (s ∈ visiting) then Raise CollaborationValidationError "Task DAG must be acyclic"
      else if decide (s ∈ visited) then Ok (visiting, visited)
      else
      st ← foldM (visit fuel g) (graph_get g s) ({[s]} ∪ visiting, visited);
      Ok (st.1 ∖ {[s]}, {[s]} ∪ st.2)
  end.

Definition visit_fuel (g : dep_graph) : nat := 2 + length g.

Definition nodes_graph (nodes : nodes_dict) : dep_graph :=
  map (λ kn, (kn.1, cn_dependency_ids kn.2)) nodes.

Definition validate_dependencies (nodes : nodes_dict) (child : string) (deps : list string)
    : res unit :=
  if decide (child ∈ deps)
  then Raise CollaborationValidationError "a Child cannot depend on itself"
  else match filter (λ d, dmem d nodes = false) deps with
  | _ :: _ => Raise CollaborationValidationError
                "dependencies must belong to the same Root and tenant"
  | [] =>
      let graph := dset child deps (nodes_graph nodes) in
      _ ← foldM (visit (visit_fuel graph) graph) (dkeys graph) (∅, ∅);
      Ok tt
  end.

(** ** Children *)

(** The loop of [depth], which walks up the parents. *)
Fixpoint depth_from (fuel : nat) (nodes : nodes_dict) (depth : Z) (current : CollaborationNode)
    : res Z :=
  match fuel with
  | O => Raise Diverges "depth"
  | S fuel =>
      match cn_parent_session_id current with
      | None => Ok depth
      | Some parent =>
          match dget parent nodes with
          | None => Raise PyKeyError parent
          | Some n => depth_from fuel nodes (depth + 1) n
          end
      end
  end.

Definition depth (nodes : nodes_dict) (sid : string) : res Z :=
  match dget sid nodes with
  | None => Raise PyKeyError sid
  | Some n => depth_from (1 + length nodes) nodes 0 n
  end.

Definition children (nodes : nodes_dict) : list CollaborationNode :=
  filter (λ n, cn_parent_session_id n ≠ None) (dvalues nodes).

(** [Counter(node.parent_session_id for node in children)[parent]] *)
Definition width (nodes : nodes_dict) (parent : string) : Z :=
  Z.of_nat (length (filter (λ n, cn_parent_session_id n = Some parent) (children nodes))).

Definition validate_new_child (g : CollaborationAggregate) (parent child : string)
    (spec : ChildSpec) (limits : CollaborationLimits) : res unit :=
  let nodes := ca_nodes g in
  if match nodes with [] => true | _ => false end || negb (dmem (ca_root_session_id g) nodes)
  then Raise CollaborationValidationError "Root Session does not exist"
  else if negb (dmem parent nodes)
  then Raise CollaborationValidationError "parent must belong to the same Root and tenant"
  else if dmem child nodes
  then Raise CollaborationValidationError "Child Session already exists"
  else if existsb (λ n, String.eqb (cn_task_key n) (cs_task_key spec)) (dvalues nodes)
  then Raise CollaborationValidationError ("duplicate child task_key: " +:+ cs_task_key spec)
  else if cl_max_children limits <=? Z.of_nat (length (children nodes))
  then Raise CollaborationValidationError "root child count limit exceeded"
  else if cl_max_children_per_parent limits <=? width nodes parent
  then Raise CollaborationValidationError "parent child width limit exceeded"
  else
  d ← depth nodes parent;
  if cl_max_depth limits <? d + 1
  then Raise CollaborationValidationError "child depth limit exceeded"
  else if f64_gtb (f64_add (f64_sum (map cn_budget (children nodes))) (cs_budget spec))
            (cl_max_budget limits)
  then Raise CollaborationValidationError "root collaboration budget exceeded"
  else validate_dependencies nodes child (cs_dependency_ids spec).

Definition staged_node (g : CollaborationAggregate) (parent child : string) (spec : ChildSpec)
    : CollaborationNode :=
  mkNode (ca_tenant_id g) child (ca_root_session_id g) (Some parent) (cs_role spec) (cs_goal spec)
    (cs_task_key spec) (cs_output_contract spec) (cs_dependency_ids spec) (cs_input_refs spec)
    (cs_tool_permissions spec) (cs_metadata spec) None (cs_budget spec) (cs_runtime_budget spec)
    "blocked" None (pgetn "target_session_id" (cs_metadata spec)) None.

(** [stage_new_child]; the node it returns is the entry of the dict. *)
Definition stage_new_child (g : CollaborationAggregate) (parent child : string)
    (spec : ChildSpec) (limits : CollaborationLimits)
    : res (CollaborationNode * CollaborationAggregate) :=
  _ ← validate_new_child g parent child spec limits;
  let g := put_refresh child (staged_node g parent child spec) g in
  n ← get_node (ca_nodes g) child;
  Ok (n, g).

Definition require_joinable (g : CollaborationAggregate) (ids : list string) : res unit :=
  match ids with
  | [] => Raise CollaborationValidationError "join requires at least one Child"
  | _ =>
      foldM (λ _ sid,
        match dget sid (ca_nodes g) with
        | None => Raise CollaborationValidationError "join Child is outside this Root"
        | Some n =>
            if negb (String.eqb (cn_root_session_id n) (ca_root_session_id g))
            then Raise CollaborationValidationError "join Child is outside this Root"
            else match cn_result n with
            | None => Raise CollaborationValidationError ("Child is not completed: " +:+ sid)
            | Some result =>
                if negb (String.eqb (cn_status n) "completed")
                then Raise CollaborationValidationError ("Child is not completed: " +:+ sid)
                else if bool_decide (cn_role n = CReviewer)
                     && negb (is_lit (pgetn "decision" result) (review_value RDAccepted))
                then Raise CollaborationValidationError ("review is not accepted: " +:+ sid)
                else Ok tt
            end
        end) ids tt
  end.

(** ** Depth-first search decides acyclicity *)

Section dag.
Context (g : dep_graph).

Definition depends (a b : string) : Prop := b ∈ graph_get g a.
Definition acyclic : Prop := ∀ s, ¬ tc depends s s.

(** [s] starts no infinite chain of dependencies. *)
Definition grounded (s : string) : Prop := Acc (λ b a, depends a b) s.

Lemma grounded_no_cycle s : grounded s → ¬ tc depends s s.
Proof.
  intros Hs. induction Hs as [s _ IH]. intros Hc.
  inversion Hc as [? ? Hd|? y ? Hd Hy]; subst; [by apply (IH s Hd), tc_once|].
  apply (IH y Hd). eapply tc_transitive; [exact Hy|by apply tc_once].
Qed.

Lemma visit_S fuel visiting visited s :
  visit (S fuel) g (visiting, visited) s =
  if decide (s ∈ visiting) then Raise CollaborationValidationError "Task DAG must be acyclic"
  else if decide (s ∈ visited) then Ok (visiting, visited)
  else
    st ← foldM (visit fuel g) (graph_get g s) ({[s]} ∪ visiting, visited);
    Ok (st.1 ∖ {[s]}, {[s]} ∪ st.2).
Proof. done. Qed.

(** A successful visit restores [visiting], keeps [visited], adds the node, and
    only ever adds grounded nodes. *)
Definition visit_post (visiting visited : gset string) (goals : list string)
    (st : gset string * gset string) : Prop :=
  st.1 = visiting ∧ visited ⊆ st.2 ∧ (∀ s, s ∈ goals → s ∈ st.2)
  ∧ ((∀ s, s ∈ visited → grounded s) → ∀ s, s ∈ st.2 → grounded s).

Lemma visits_post fuel :
  (∀ visiting visited s st, visit fuel g (visiting, visited) s = Ok st →
     visit_post visiting visited [s] st) →
  ∀ goals visiting visited st, foldM (visit fuel g) goals (visiting, visited) = Ok st →
     visit_post visiting visited goals st.
Proof.
  intros Hone goals. induction goals as [|s goals IH]; intros visiting visited st Hf.
  { cbn in Hf. inv_res. split_and!; try done. set_solver. }
  cbn [foldM] in Hf. apply res_bind_Ok in Hf as ([v1 w1] & H1 & H2).
  apply Hone in H1 as (Hv & Hw & Hs & Hg). cbn in *. subst v1.
  apply IH in H2 as (Hv2 & Hw2 & Hs2 & Hg2). split_and!; [done|set_solver|set_solver|auto].
Qed.

Lemma visit_ok fuel visiting visited s st :
  visit fuel g (visiting, visited) s = Ok st → visit_post visiting visited [s] st.
Proof.
  revert visiting visited s st. induction fuel as [|fuel IH]; intros visiting visited s st Hv; [done|].
  rewrite visit_S in Hv. destruct (decide (s ∈ visiting)) as [|Hn]; [done|].
  destruct (decide (s ∈ visited)) as [Hin|Hnv].
  { inv_res. split_and!; try done. set_solver. }
  apply res_bind_Ok in Hv as ([v1 w1] & Hf & Hst). inv_res.
  apply (visits_post fuel IH) in Hf as (Hv1 & Hw & Hs & Hg). cbn in *. subst v1.
  split_and!; cbn; [set_solver|set_solver|set_solver|].
  intros Hvis x [->%elem_of_singleton|Hx]%elem_of_union; [|auto].
  constructor. intros y Hy. apply Hg; [done|]. by apply Hs.
Qed.

Lemma foldM_visit_ok fuel goals visiting visited st :
  foldM (visit fuel g) goals (visiting, visited) = Ok st →
  visit_post visiting visited goals st.
Proof. apply visits_post, visit_ok. Qed.

(** A failing visit exhibits a cycle, and never runs out of fuel. *)
Definition unvisiting (visiting : gset string) : nat :=
  length (filter (λ k, k ∉ visiting) (dkeys g)).

Lemma unvisiting_lt visiting s :
  s ∈ dkeys g → s ∉ visiting → (unvisiting ({[s]} ∪ visiting) < unvisiting visiting)%nat.
Proof.
  unfold unvisiting. intros Hs Hn. induction (dkeys g) as [|k l IH]; [set_solver|].
  assert (∀ l : list string, (length (filter (λ k, k ∉ ({[s]} ∪ visiting : gset string)) l)
          ≤ length (filter (λ k, k ∉ visiting) l))%nat) as Hle.
  { intros l'. induction l' as [|x l' IH']; [done|]. rewrite !filter_cons.
    repeat case_decide; cbn; try lia. set_solver. }
  rewrite !filter_cons. destruct (decide (k = s)) as [->|Hne].
  - rewrite decide_False by set_solver. rewrite decide_True by done. cbn. specialize (Hle l). lia.
  - assert (s ∈ l) as Hl by set_solver. specialize (IH Hl). specialize (Hle l).
    repeat case_decide; cbn; try lia; set_solver.
Qed.

Lemma visit_raises fuel visiting visited s c m :
  (unvisiting visiting + 2 ≤ fuel)%nat →
  (∀ v, v ∈ visiting → tc depends v s) →
  visit fuel g (visiting, visited) s = Raise c m →
  (c, m) = (CollaborationValidationError, "Task DAG must be acyclic") ∧ ∃ x, tc depends x x.
Proof.
  revert visiting visited s. induction fuel as [|fuel IH]; intros visiting visited s Hfuel Hreach Hv;
    [lia|].
  rewrite visit_S in Hv. destruct (decide (s ∈ visiting)) as [Hin|Hn].
  { simplify_eq. split; [done|]. exists s. auto. }
  destruct (decide (s ∈ visited)); [done|].
  destruct (foldM _ _ _) as [st|c' m'] eqn:Hf; [done|]. cbn in Hv. simplify_eq.
  destruct (decide (s ∈ dkeys g)) as [Hk|Hk].
  2:{ exfalso. unfold graph_get in Hf. apply dget_None in Hk. rewrite Hk in Hf. done. }
  pose proof (unvisiting_lt visiting s Hk Hn) as Hlt.
  assert (∀ d, d ∈ graph_get g s → ∀ v, v ∈ ({[s]} ∪ visiting : gset string) → tc depends v d) as Hr.
  { intros d Hd v [->%elem_of_singleton|Hvv]%elem_of_union; [by apply tc_once|].
    eapply tc_r; [by apply Hreach|done]. }
  revert Hf Hr. generalize visited at 1. generalize (graph_get g s) as ds. intros ds.
  induction ds as [|d ds IHds]; intros w Hf Hr; [done|]. cbn [foldM] in Hf.
  destruct (visit fuel g ({[s]} ∪ visiting, w) d) as [[v1 w1]|c1 m1] eqn:Hd.
  - cbn in Hf. pose proof (visit_ok _ _ _ _ _ Hd) as (Hv1 & _). cbn in Hv1. subst v1.
    eapply IHds; [exact Hf|]. intros; apply Hr; [by right|done].
  - cbn in Hf. simplify_eq. eapply IH; [|apply Hr; by left|exact Hd]. lia.
Qed.

Lemma top_visit_raises fuel goals visited c m :
  (2 + length g ≤ fuel)%nat →
  foldM (visit fuel g) goals (∅, visited) = Raise c m →
  (c, m) = (CollaborationValidationError, "Task DAG must be acyclic") ∧ ∃ x, tc depends x x.
Proof.
  intros Hfuel. revert visited. induction goals as [|s goals IH]; intros visited Hf; [done|].
  cbn [foldM] in Hf. destruct (visit fuel g (∅, visited) s) as [[v1 w1]|] eqn:Hs; cbn in Hf.
  - pose proof (visit_ok _ _ _ _ _ Hs) as (Hv1 & _). cbn in Hv1. subst v1. by eapply IH.
  - simplify_eq. eapply (visit_raises fuel ∅); [|by intros v ?%elem_of_empty|exact Hs].
    assert (unvisiting ∅ ≤ length g)%nat as Hu.
    { unfold unvisiting. etrans; [apply length_filter|]. unfold dkeys. by rewrite length_fmap. }
    lia.
Qed.

Lemma visits_decide :
  match foldM (visit (visit_fuel g) g) (dkeys g) (∅, ∅) with
  | Ok _ => acyclic
  | Raise c m => (c, m) = (CollaborationValidationError, "Task DAG must be acyclic") ∧ ¬ acyclic
  end.
Proof.
  destruct (foldM _ _ _) as [st|c m] eqn:Hf.
  - apply foldM_visit_ok in Hf as (_ & _ & Hs & Hg). intros s Hc.
    destruct (decide (s ∈ dkeys g)) as [Hk|Hk].
    + apply (grounded_no_cycle s); [|done]. apply Hg; [set_solver|auto].
    + apply dget_None in Hk. unfold depends, graph_get in Hc.
      inversion Hc as [? ? Hd|? ? ? Hd]; subst; rewrite Hk in Hd; cbn in Hd; set_solver.
  - apply top_visit_raises in Hf as [? [x Hx]]; [|done]. split; [done|]. intros Ha. by apply (Ha x).
Qed.
End dag.

Lemma filter_unknown (nodes : nodes_dict) deps :
  filter (λ d, dmem d nodes = false) deps = [] ↔ deps ⊆ dkeys nodes.
Proof.
  induction deps as [|d deps IH]; [set_solver|]. rewrite filter_cons. case_decide as Hd.
  - apply dmem_false in Hd. split; [done|set_solver].
  - rewrite IH. assert (d ∈ dkeys nodes) by (apply dmem_true; by destruct (dmem d nodes)).
    set_solver.
Qed.

(** C33. [validate_dependencies] decides its contract: it accepts exactly when the
    Child does not depend on itself, every dependency is a node and the graph
    with the new dependencies has no cycle; otherwise it raises the
    collaboration error.  The search always ends. *)
Theorem validate_dependencies_exact nodes child deps :
  (validate_dependencies nodes child deps = Ok tt ↔
     child ∉ deps ∧ deps ⊆ dkeys nodes ∧ acyclic (dset child deps (nodes_graph nodes)))
  ∧ (∀ c m, validate_dependencies nodes child deps = Raise c m → c = CollaborationValidationError).
Proof.
  unfold validate_dependencies. case_decide as Hself; [naive_solver|].
  pose proof (filter_unknown nodes deps) as Hu.
  destruct (filter _ deps); [|naive_solver].
  pose proof (visits_decide (dset child deps (nodes_graph nodes))) as Hd.
  destruct (foldM _ _ _); cbn; naive_solver.
Qed.

(** ** Refreshing *)

(** Two dictionaries that agree on which nodes exist and are completed. *)
Definition same_completed (d1 d2 : nodes_dict) : Prop :=
  ∀ k, (λ n, String.eqb (cn_status n) "completed") <$> dget k d1
       = (λ n, String.eqb (cn_status n) "completed") <$> dget k d2.

Lemma dependencies_satisfied_same d1 d2 n :
  same_completed d1 d2 → dependencies_satisfied d1 n = dependencies_satisfied d2 n.
Proof.
  intros Hs. unfold dependencies_satisfied.
  assert (∀ d, dmem d d1 = dmem d d2) as Hmem.
  { intros d. specialize (Hs d). unfold dmem. destruct (dget d d1), (dget d d2); done. }
  f_equal.
  - induction (cn_dependency_ids n) as [|d l IH]; [done|]. cbn. rewrite IH. f_equal.
    specialize (Hs d). destruct (dget d d1), (dget d d2); by simplify_eq/=.
  - f_equal. f_equal. apply list_filter_iff. intros d. by rewrite Hmem.
Qed.

Lemma refresh_node_same d1 d2 n :
  same_completed d1 d2 → refresh_node d1 n = refresh_node d2 n.
Proof. intros Hs. unfold refresh_node. by rewrite (dependencies_satisfied_same d1 d2 n Hs). Qed.

Lemma refresh_node_completed d n :
  String.eqb (cn_status (refresh_node d n)) "completed" = String.eqb (cn_status n) "completed".
Proof.
  unfold refresh_node. destruct (bool_decide (cn_role n = CRoot)); cbn [orb]; [done|].
  destruct (str_in (cn_status n) settled_statuses) eqn:E; [done|].
  assert (String.eqb (cn_status n) "completed" = false) as ->.
  { apply String.eqb_neq. intros Hc. rewrite Hc in E. done. }
  cbn. by destruct (dependencies_satisfied d n).
Qed.

Definition refresh_all (d0 nodes : nodes_dict) : nodes_dict :=
  map (λ kn, (kn.1, refresh_node d0 kn.2)) nodes.

Lemma dkeys_refresh_all d0 nodes : dkeys (refresh_all d0 nodes) = dkeys nodes.
Proof. unfold dkeys, refresh_all. rewrite <- list_fmap_compose. done. Qed.

Lemma dget_refresh_all d0 nodes k :
  dget k (refresh_all d0 nodes) = refresh_node d0 <$> dget k nodes.
Proof. induction nodes as [|[k' n] nodes IH]; cbn; [done|]. by case_decide. Qed.

Lemma dset_app_r (k : string) (v : CollaborationNode) l1 n l2 :
  k ∉ dkeys l1 → dset k v (l1 ++ (k, n) :: l2) = l1 ++ (k, v) :: l2.
Proof.
  induction l1 as [|[k' n'] l1 IH]; cbn; intros Hk; [by rewrite decide_True|].
  rewrite decide_False by set_solver. rewrite IH by set_solver. done.
Qed.

Lemma same_completed_partial l1 l2 :
  same_completed (refresh_all (l1 ++ l2) l1 ++ l2) (l1 ++ l2).
Proof.
  intros k. rewrite !dget_app, dget_refresh_all. destruct (dget k l1) as [n|]; cbn; [|done].
  by rewrite refresh_node_completed.
Qed.

(** The order of the loop does not matter: refreshing is refreshing every node
    against the nodes as they were. *)
Lemma refresh_runnable_all nodes : dict_wf nodes → refresh_runnable nodes = refresh_all nodes nodes.
Proof.
  intros Hwf. unfold refresh_runnable.
  assert (∀ l1 l2, nodes = l1 ++ l2 →
    fold_left (λ nodes sid, match dget sid nodes with
      | Some n => dset sid (refresh_node nodes n) nodes | None => nodes end)
      (dkeys l2) (refresh_all nodes l1 ++ l2) = refresh_all nodes nodes) as Hgen.
  { intros l1 l2. revert l1. induction l2 as [|[k n] l2 IH]; intros l1 Heq.
    { cbn. rewrite Heq, !app_nil_r. done. }
    assert (k ∉ dkeys l1) as Hk.
    { rewrite Heq in Hwf. unfold dict_wf, dkeys in Hwf. rewrite fmap_app in Hwf.
      apply NoDup_app in Hwf as (_ & Hd & _). intros Hin. apply (Hd k Hin). by left. }
    assert (k ∉ dkeys (refresh_all nodes l1)) as Hk' by (by rewrite dkeys_refresh_all).
    cbn [dkeys fmap list_fmap fold_left fst]. rewrite dget_app.
    rewrite (proj2 (dget_None k (refresh_all nodes l1))) by done. cbn [dget].
    rewrite decide_True by done. rewrite dset_app_r by done.
    rewrite (refresh_node_same _ nodes)
      by (rewrite Heq; apply same_completed_partial).
    specialize (IH (l1 ++ [(k, n)])). rewrite <- IH by (rewrite Heq, <- app_assoc; done).
    unfold refresh_all at 2. rewrite map_app, <- app_assoc. done. }
  apply (Hgen [] nodes). done.
Qed.

(** A node whose status is not fixed by its run. *)
Definition waiting_node (n : CollaborationNode) : Prop :=
  cn_role n ≠ CRoot ∧ cn_status n ∉ settled_statuses.

(** Runnable exactly when every dependency is a completed node. *)
Definition ready (nodes : nodes_dict) (n : CollaborationNode) : Prop :=
  Forall (λ d, ∃ m, dget d nodes = Some m ∧ cn_status m = "completed") (cn_dependency_ids n).

Lemma dependencies_satisfied_ready nodes n : dependencies_satisfied nodes n = true ↔ ready nodes n.
Proof.
  unfold dependencies_satisfied, ready. rewrite andb_true_iff, Nat.eqb_eq.
  induction (cn_dependency_ids n) as [|d l IH]; [cbn; naive_solver|].
  rewrite Forall_cons, <- IH. cbn [forallb]. rewrite andb_true_iff, filter_cons.
  case_decide as Hd.
  - apply dmem_true in Hd. destruct (dget d nodes) as [m|] eqn:E; [|by apply dget_None in E].
    cbn [length]. rewrite String.eqb_eq.
    split; [intros [[? ?] ?]; split; [eauto|split; [done|lia]]|].
    intros [(m' & ? & ?) [? ?]]. simplify_eq. split; [done|lia].
  - cbn [length]. pose proof (length_filter (λ d, dmem d nodes = true) l) as Hle.
    split; [intros [_ Hlen]; exfalso; lia|]. intros [(m & Hm & _) _].
    by apply dget_Some_key, dmem_true in Hm.
Qed.

(** The statuses a graph shows are those its dependencies dictate. *)
Definition statuses_exact (nodes : nodes_dict) : Prop :=
  ∀ k n, dget k nodes = Some n → waiting_node n →
    (cn_status n = "runnable" ∧ ready nodes n) ∨ (cn_status n = "blocked" ∧ ¬ ready nodes n).

Lemma same_completed_refresh nodes :
  dict_wf nodes → same_completed (refresh_runnable nodes) nodes.
Proof.
  intros Hwf k. rewrite refresh_runnable_all, dget_refresh_all by done.
  destruct (dget k nodes); cbn; [|done]. by rewrite refresh_node_completed.
Qed.

Lemma ready_same d1 d2 n : same_completed d1 d2 → ready d1 n ↔ ready d2 n.
Proof. intros. by rewrite <- !dependencies_satisfied_ready, (dependencies_satisfied_same d1 d2). Qed.

Lemma refresh_statuses_exact nodes : dict_wf nodes → statuses_exact (refresh_runnable nodes).
Proof.
  intros Hwf k n Hk Hw. rewrite refresh_runnable_all, dget_refresh_all in Hk by done.
  destruct (dget k nodes) as [m|] eqn:E; [|done]. cbn in Hk. simplify_eq.
  rewrite (ready_same _ nodes) by (by apply same_completed_refresh).
  rewrite <- dependencies_satisfied_ready. destruct Hw as [Hr Hs]. revert Hr Hs.
  unfold refresh_node. destruct (bool_decide (cn_role m = CRoot)) eqn:Er; cbn [orb].
  { bool_props. naive_solver. }
  destruct (str_in (cn_status m) settled_statuses) eqn:Es.
  { apply str_in_spec in Es. naive_solver. }
  intros _ _. unfold dependencies_satisfied. cbn [cn_dependency_ids set_field cn_status].
  fold (dependencies_satisfied nodes m). destruct (dependencies_satisfied nodes m); [by left|by right].
Qed.

(** ** Statuses along any history *)

Definition done_in (nodes : nodes_dict) (k : string) : Prop :=
  ∃ m, dget k nodes = Some m ∧ cn_status m = "completed".

Lemma ready_done d1 d2 n : (∀ k, done_in d1 k ↔ done_in d2 k) → ready d1 n ↔ ready d2 n.
Proof. intros H. unfold ready. rewrite !Forall_forall. split; intros Hd k Hk; apply H, Hd, Hk. Qed.

Lemma put_statuses_exact sid n nodes :
  statuses_exact nodes → (cn_status n = "completed" ↔ done_in nodes sid) →
  (waiting_node n → (cn_status n = "runnable" ∧ ready nodes n) ∨ (cn_status n = "blocked" ∧ ¬ ready nodes n)) →
  statuses_exact (dset sid n nodes).
Proof.
  intros He Hc Hn k m Hk Hw.
  rewrite (ready_done _ nodes).
  2:{ intros x. unfold done_in. rewrite dget_dset. case_decide; subst; [|done].
      fold (done_in nodes sid). rewrite <- Hc. naive_solver. }
  rewrite dget_dset in Hk. case_decide; simplify_eq; auto. eapply He; eauto.
Qed.

Lemma get_node_Ok nodes sid n : get_node nodes sid = Ok n ↔ dget sid nodes = Some n.
Proof. unfold get_node. destruct (dget sid nodes); naive_solver. Qed.

(** Updating fields that no status depends on. *)
Lemma put_same_status sid n0 n nodes :
  statuses_exact nodes → dget sid nodes = Some n0 →
  cn_status n = cn_status n0 → cn_role n = cn_role n0 →
  cn_dependency_ids n = cn_dependency_ids n0 →
  statuses_exact (dset sid n nodes).
Proof.
  intros He Hn0 Hs Hr Hd. apply put_statuses_exact; [done| |].
  - rewrite Hs. unfold done_in. naive_solver.
  - unfold waiting_node, ready. rewrite Hs, Hr, Hd. apply (He sid n0 Hn0).
Qed.

Lemma refresh_wf nodes : dict_wf nodes → dict_wf (refresh_runnable nodes).
Proof. intros H. rewrite refresh_runnable_all by done. unfold dict_wf. by rewrite dkeys_refresh_all. Qed.

(** The graph invariant that every event keeps. *)
Definition graph_exact (nodes : nodes_dict) : Prop := dict_wf nodes ∧ statuses_exact nodes.

Lemma put_refresh_exact sid n g :
  graph_exact (ca_nodes g) → graph_exact (ca_nodes (put_refresh sid n g)).
Proof.
  intros [Hwf _]. cbn. split; [apply refresh_wf|apply refresh_statuses_exact]; by apply dset_wf.
Qed.

(** Nothing restarts a completed Session. *)
Definition orderly (g : CollaborationAggregate) (e : CanonicalEvent) : Prop :=
  ev_type e ∈ ["session.created"; "run.started"] → ¬ done_in (ca_nodes g) (ev_session_id e).

Lemma collab_apply_exact g e g' :
  graph_exact (ca_nodes g) → orderly g e → collab_apply g e = Ok g' → graph_exact (ca_nodes g').
Proof.
  intros Hg Hord. pose proof Hg as [Hwf He]. unfold collab_apply, orderly in *.
  repeat match goal with
  | |- context [if ?b then _ else _] => destruct b eqn:?; bool_props
  end; intros Ha; inv_res; subst; auto using put_refresh_exact;
  repeat match goal with H : get_node _ _ = Ok _ |- _ => apply get_node_Ok in H end;
  try (apply put_refresh_exact; done).
  - (* session.created *)
    match goal with H : root_node _ = Ok _ |- _ => unfold root_node in H; inv_res end.
    split; [by apply dset_wf|]. cbn. apply put_statuses_exact; [done| |].
    + cbn. split; [done|]. intros Hd. exfalso. revert Hd. apply Hord.
      match goal with H : ev_type e = _ |- _ => rewrite H end. by left.
    + intros [Hr _]. by cbn in Hr.
  - (* run.requested *)
    split; [by apply dset_wf|]. by eapply put_same_status.
  - (* delegated *)
    split; [by apply dset_wf|]. cbn.
    match goal with |- context [if ?b then _ else _] => destruct b eqn:Hb end.
    2:{ match goal with H : dget _ _ = Some ?n |- _ => apply (put_same_status _ n) end; done. }
    bool_props.
    apply put_statuses_exact; [done| |].
    + cbn. split; [done|]. intros (m & Hm & Hs). cbn in *. congruence.
    + intros _. left. split; [done|]. by apply dependencies_satisfied_ready.
  - (* run.started *)
    split; [by apply dset_wf|]. cbn. apply put_statuses_exact; [done| |].
    + cbn. split; [done|]. intros Hd. exfalso. revert Hd. apply Hord.
      match goal with H : ev_type e = _ |- _ => rewrite H end. by right; left.
    + intros [_ Hs]. exfalso. apply Hs. by left.
Qed.

(** ** Staging a Child *)

(** Projections of the nodes that a refresh leaves alone. *)
Lemma refresh_node_frame {A} (f : CollaborationNode → A) d n :
  (∀ m s, f (m <| cn_status := s |>) = f m) → f (refresh_node d n) = f n.
Proof. intros Hf. unfold refresh_node. case_match; auto. Qed.

Lemma dvalues_refresh {A} (f : CollaborationNode → A) nodes :
  dict_wf nodes → (∀ m s, f (m <| cn_status := s |>) = f m) →
  map f (dvalues (refresh_runnable nodes)) = map f (dvalues nodes).
Proof.
  intros Hwf Hf. rewrite refresh_runnable_all by done. unfold refresh_all, dvalues.
  generalize nodes at 1. intros d0. clear Hwf.
  induction nodes as [|[k n] nodes IH]; [done|]. cbn. rewrite refresh_node_frame by done.
  f_equal. exact IH.
Qed.

Lemma dkeys_refresh nodes : dict_wf nodes → dkeys (refresh_runnable nodes) = dkeys nodes.
Proof. intros. by rewrite refresh_runnable_all, dkeys_refresh_all. Qed.

Lemma nodes_graph_refresh nodes :
  dict_wf nodes → nodes_graph (refresh_runnable nodes) = nodes_graph nodes.
Proof.
  intros Hwf. rewrite refresh_runnable_all by done. unfold refresh_all, nodes_graph.
  generalize nodes at 1. intros d0. clear Hwf. induction nodes as [|[k n] nodes IH]; [done|].
  cbn. rewrite IH. f_equal. f_equal. by apply (refresh_node_frame cn_dependency_ids).
Qed.

Lemma dkeys_nodes_graph nodes : dkeys (nodes_graph nodes) = dkeys nodes.
Proof. unfold dkeys, nodes_graph. rewrite <- list_fmap_compose. done. Qed.

Lemma graph_get_nodes nodes s :
  graph_get (nodes_graph nodes) s = match dget s nodes with Some n => cn_dependency_ids n | None => [] end.
Proof.
  unfold graph_get, nodes_graph. induction nodes as [|[k n] nodes IH]; cbn; [done|]. by case_decide.
Qed.

(** Walking up the parents. *)
Definition parent_of (nodes : nodes_dict) (k : string) : option (option string) :=
  cn_parent_session_id <$> dget k nodes.

Lemma depth_from_shift fuel nodes d n :
  depth_from fuel nodes (d + 1) n = (λ k, k + 1) <$> depth_from fuel nodes d n.
Proof.
  revert d n. induction fuel as [|fuel IH]; intros d n; cbn; [done|].
  destruct (cn_parent_session_id n) as [p|]; cbn; [|done].
  destruct (dget p nodes); cbn; [|done]. apply IH.
Qed.

Lemma depth_from_mono fuel fuel' nodes nodes' d n n' k :
  depth_from fuel nodes d n = Ok k → (fuel ≤ fuel')%nat →
  cn_parent_session_id n' = cn_parent_session_id n →
  (∀ s m, dget s nodes = Some m → parent_of nodes' s = Some (cn_parent_session_id m)) →
  depth_from fuel' nodes' d n' = Ok k.
Proof.
  revert fuel' d n n'. induction fuel as [|fuel IH]; intros fuel' d n n' Hd Hle Hp Hn; [done|].
  destruct fuel' as [|fuel']; [lia|]. cbn in *. rewrite Hp.
  destruct (cn_parent_session_id n) as [p|]; [|done].
  destruct (dget p nodes) as [m|] eqn:E; [|done]. apply Hn in E as Hm.
  unfold parent_of in Hm. destruct (dget p nodes') as [m'|] eqn:E'; [|done]. cbn in Hm. simplify_eq.
  eapply IH; eauto with lia.
Qed.

(** The limits and the shape of a root's graph. *)
Record graph_ok (limits : CollaborationLimits) (g : CollaborationAggregate) : Prop := {
  go_wf : dict_wf (ca_nodes g);
  go_root : ca_root_session_id g ∈ dkeys (ca_nodes g);
  go_count : Z.of_nat (length (children (ca_nodes g))) ≤ cl_max_children limits;
  go_width : ∀ p, width (ca_nodes g) p ≤ cl_max_children_per_parent limits;
  go_depth : ∀ k, k ∈ dkeys (ca_nodes g) →
    ∃ d, depth (ca_nodes g) k = Ok d ∧ d ≤ cl_max_depth limits;
  go_keys : NoDup (map cn_task_key (dvalues (ca_nodes g)));
  go_deps : ∀ k n, dget k (ca_nodes g) = Some n → cn_dependency_ids n ⊆ dkeys (ca_nodes g);
  go_dag : acyclic (nodes_graph (ca_nodes g));
}.

(** A new node with known dependencies closes no cycle. *)
Lemma fresh_node_acyclic nodes child deps :
  child ∉ dkeys nodes → deps ⊆ dkeys nodes →
  (∀ k n, dget k nodes = Some n → cn_dependency_ids n ⊆ dkeys nodes) →
  acyclic (nodes_graph nodes) → acyclic (dset child deps (nodes_graph nodes)).
Proof.
  intros Hc Hd Hn Ha.
  set (g' := dset child deps (nodes_graph nodes)).
  assert (∀ a b, depends g' a b → b ∈ dkeys nodes ∧ (a ≠ child → depends (nodes_graph nodes) a b))
    as Hedge.
  { unfold g', depends, graph_get. intros a b. rewrite dget_dset. case_decide; subst; cbn.
    - intros Hb. split; [by apply Hd|done].
    - intros Hb. split; [|done]. fold (graph_get (nodes_graph nodes) a) in Hb.
      rewrite graph_get_nodes in Hb. destruct (dget a nodes) eqn:E; [|set_solver].
      eapply Hn; eauto. }
  assert (∀ a b, tc (depends g') a b → a ≠ child → tc (depends (nodes_graph nodes)) a b) as Htc.
  { induction 1 as [a b Hab|a y b Hab Hyb IH]; intros Hne; apply Hedge in Hab as [Hin Hab].
    - apply tc_once; auto.
    - eapply tc_l; [by apply Hab|]. apply IH. intros ->. done. }
  intros s Hs. destruct (decide (s = child)) as [->|Hne]; [|by apply (Ha s), Htc].
  apply Hc. assert (∀ a b, tc (depends g') a b → b ∈ dkeys nodes) as Hlast.
  { induction 1 as [a b Hab|]; [by apply Hedge in Hab as [? _]|done]. }
  by apply (Hlast child).
Qed.

Lemma existsb_task_key (nodes : nodes_dict) key :
  existsb (λ n, String.eqb (cn_task_key n) key) (dvalues nodes) = false ↔
  key ∉ map cn_task_key (dvalues nodes).
Proof.
  induction (dvalues nodes) as [|n l IH]; cbn; [split; [set_solver|done]|].
  rewrite orb_false_iff, IH, String.eqb_neq, not_elem_of_cons. naive_solver.
Qed.

(** The Children that fit. *)
Definition fits (limits : CollaborationLimits) (g : CollaborationAggregate) (parent child : string)
    (spec : ChildSpec) : Prop :=
  parent ∈ dkeys (ca_nodes g) ∧ child ∉ dkeys (ca_nodes g)
  ∧ cs_task_key spec ∉ map cn_task_key (dvalues (ca_nodes g))
  ∧ Z.of_nat (length (children (ca_nodes g))) < cl_max_children limits
  ∧ width (ca_nodes g) parent < cl_max_children_per_parent limits
  ∧ (∃ d, depth (ca_nodes g) parent = Ok d ∧ d < cl_max_depth limits)
  ∧ f64_gtb (f64_add (f64_sum (map cn_budget (children (ca_nodes g)))) (cs_budget spec))
      (cl_max_budget limits) = false
  ∧ cs_dependency_ids spec ⊆ dkeys (ca_nodes g).

Lemma validate_new_child_iff limits g parent child spec :
  graph_ok limits g →
  validate_new_child g parent child spec limits = Ok tt ↔ fits limits g parent child spec.
Proof.
  intros Hg. unfold validate_new_child, fits.
  pose proof (go_root _ _ Hg) as Hroot. apply dmem_true in Hroot as Hroot'. rewrite Hroot'.
  destruct (ca_nodes g) as [|kn0 nodes0] eqn:E0; [by cbn in Hroot; set_solver|].
  cbn [orb negb]. rewrite <- E0 in *. clear E0.
  rewrite <- existsb_task_key, <- dmem_true, <- dmem_false.
  destruct (dmem parent (ca_nodes g)) eqn:Ep; cbn [negb]; [|naive_solver].
  destruct (dmem child (ca_nodes g)) eqn:Ec; [naive_solver|].
  destruct (existsb _ _); [naive_solver|].
  destruct (Z.leb_spec (cl_max_children limits) (Z.of_nat (length (children (ca_nodes g)))));
    [split; [done|lia]|].
  destruct (Z.leb_spec (cl_max_children_per_parent limits) (width (ca_nodes g) parent));
    [split; [done|lia]|].
  apply dmem_true in Ep. apply dmem_false in Ec.
  destruct (go_depth _ _ Hg parent Ep) as (d & Hd & _). rewrite Hd. cbn [mbind res_bind].
  destruct (Z.ltb_spec (cl_max_depth limits) (d + 1)); [split; [done|naive_solver lia]|].
  destruct (f64_gtb _ _); [naive_solver|].
  unfold validate_dependencies.
  pose proof (filter_unknown (ca_nodes g) (cs_dependency_ids spec)) as Hu.
  pose proof (visits_decide (dset child (cs_dependency_ids spec) (nodes_graph (ca_nodes g)))) as Hv.
  split.
  - case_decide as Hself; [done|]. destruct (filter _ _); [|done].
    intros _. split_and!; try done; [eexists; split; [done|lia]|by apply Hu].
  - intros (_ & _ & _ & _ & _ & _ & _ & Hdeps). rewrite decide_False by set_solver.
    rewrite (proj2 Hu Hdeps). cbn zeta.
    assert (acyclic (dset child (cs_dependency_ids spec) (nodes_graph (ca_nodes g)))) as Hac.
    { apply fresh_node_acyclic; [done..|apply (go_deps _ _ Hg)|apply (go_dag _ _ Hg)]. }
    destruct (foldM _ _ _); [done|]. by destruct Hv as [_ []].
Qed.

(** Within the limits, [validate_new_child] accepts exactly the Children
    that fit: known parent, new id and task key, room in the root, under the
    parent and in depth and budget, dependencies among the nodes (a new Child can
    then close no cycle, and the walk up the parents ends). *)
Theorem validate_new_child_exact limits g parent child spec :
  graph_ok limits g →
  validate_new_child g parent child spec limits = Ok tt ↔ fits limits g parent child spec.
Proof. apply validate_new_child_iff. Qed.

Lemma length_filter_map {A B} (f : A → B) (P : B → Prop) `{∀ x, Decision (P x)}
    `{∀ a, Decision (P (f a))} (l : list A) :
  length (filter (λ a, P (f a)) l) = length (filter P (map f l)).
Proof.
  induction l as [|a l IH]; [done|]. cbn [map]. rewrite !filter_cons.
  repeat case_decide; cbn; by rewrite ?IH.
Qed.

Definition parents (nodes : nodes_dict) : list (option string) :=
  map cn_parent_session_id (dvalues nodes).

Lemma children_parents nodes :
  length (children nodes) = length (filter (λ p, p ≠ None) (parents nodes)).
Proof. apply (length_filter_map cn_parent_session_id (λ p, p ≠ None)). Qed.

Lemma width_parents nodes p :
  width nodes p = Z.of_nat (length (filter (λ q, q = Some p) (parents nodes))).
Proof.
  unfold width, children, parents. f_equal. rewrite <- (length_filter_map _ (λ q, q = Some p)).
  f_equal. rewrite list_filter_filter. apply list_filter_iff. naive_solver.
Qed.

(** The nodes after a Child was staged, and what staging leaves alone. *)
Section staged.
Context (nodes : nodes_dict) (child : string) (n : CollaborationNode).
Hypothesis Hwf : dict_wf nodes.
Hypothesis Hfresh : child ∉ dkeys nodes.

Let staged : nodes_dict := refresh_runnable (dset child n nodes).

Lemma staged_keys : dkeys staged = dkeys nodes ++ [child].
Proof.
  unfold staged. rewrite dkeys_refresh by (by apply dset_wf). by rewrite dkeys_dset, decide_False.
Qed.

Lemma staged_values {A} (f : CollaborationNode → A) :
  (∀ m s, f (m <| cn_status := s |>) = f m) →
  map f (dvalues staged) = map f (dvalues nodes) ++ [f n].
Proof.
  intros Hf. unfold staged. rewrite dvalues_refresh by (try apply dset_wf; done).
  rewrite dset_fresh by done. unfold dvalues. rewrite fmap_app, map_app. done.
Qed.

Lemma staged_get {A} (f : CollaborationNode → A) s :
  (∀ m s, f (m <| cn_status := s |>) = f m) →
  f <$> dget s staged = if decide (s = child) then Some (f n) else f <$> dget s nodes.
Proof.
  intros Hf. unfold staged. rewrite refresh_runnable_all, dget_refresh_all by (by apply dset_wf).
  rewrite dget_dset. case_decide; cbn.
  - by rewrite refresh_node_frame.
  - destruct (dget s nodes); cbn; [|done]. by rewrite refresh_node_frame.
Qed.

Lemma staged_depth k d : depth nodes k = Ok d → depth staged k = Ok d.
Proof.
  unfold depth. destruct (dget k nodes) as [m|] eqn:E; [|done]. intros Hd.
  assert (∀ s m, dget s nodes = Some m → parent_of staged s = Some (cn_parent_session_id m)) as Hpar.
  { intros s m' Hs. unfold parent_of. rewrite staged_get by done.
    rewrite decide_False by (intros ->; by apply dget_Some_key in Hs). by rewrite Hs. }
  pose proof (Hpar k m E) as Hk. unfold parent_of in Hk.
  destruct (dget k staged) as [m'|]; [|done]. cbn in Hk. simplify_eq.
  eapply depth_from_mono; [exact Hd| |done|exact Hpar].
  assert (length staged = length (dkeys staged)) as -> by (unfold dkeys; by rewrite length_fmap).
  rewrite staged_keys, length_app. unfold dkeys. rewrite length_fmap. lia.
Qed.

Lemma staged_child_depth p d :
  cn_parent_session_id n = Some p → p ∈ dkeys nodes → depth nodes p = Ok d →
  depth staged child = Ok (d + 1).
Proof.
  intros Hp Hin Hd.
  pose proof (staged_get cn_parent_session_id child ltac:(done)) as Hc.
  rewrite decide_True in Hc by done. unfold depth at 1.
  destruct (dget child staged) as [c|]; [|done]. cbn in Hc. simplify_eq.
  pose proof Hd as Hd'. unfold depth in Hd'. destruct (dget p nodes) as [m|] eqn:E; [|done].
  pose proof (staged_get cn_parent_session_id p ltac:(done)) as Hpp.
  rewrite decide_False, E in Hpp by (intros ->; done).
  change (1 + length staged)%nat with (S (length staged)). cbn [depth_from].
  rewrite Hc, Hp. destruct (dget p staged) as [m'|]; [|done]. cbn in Hpp. simplify_eq.
  rewrite depth_from_shift.
  erewrite depth_from_mono; [reflexivity|exact Hd'| |done|].
  - assert (length staged = length (dkeys staged)) as -> by (unfold dkeys; by rewrite length_fmap).
    rewrite staged_keys, length_app. unfold dkeys. rewrite length_fmap. cbn. lia.
  - intros s m0 Hs. unfold parent_of. rewrite staged_get by done.
    rewrite decide_False by (intros ->; by apply dget_Some_key in Hs). by rewrite Hs.
Qed.
Lemma staged_parents : parents staged = parents nodes ++ [cn_parent_session_id n].
Proof. by apply staged_values. Qed.

Lemma staged_children : (length (children staged) ≤ S (length (children nodes)))%nat.
Proof.
  rewrite !children_parents, staged_parents, filter_app, length_app, filter_cons.
  cbn. repeat case_decide; cbn; lia.
Qed.

Lemma staged_width p :
  width staged p = width nodes p + (if decide (cn_parent_session_id n = Some p) then 1 else 0).
Proof.
  rewrite !width_parents, staged_parents, filter_app, length_app, filter_cons.
  cbn. case_decide; cbn; lia.
Qed.

Lemma staged_depths limit p d :
  cn_parent_session_id n = Some p → p ∈ dkeys nodes → depth nodes p = Ok d → d < limit →
  (∀ k, k ∈ dkeys nodes → ∃ d, depth nodes k = Ok d ∧ d ≤ limit) →
  ∀ k, k ∈ dkeys staged → ∃ d, depth staged k = Ok d ∧ d ≤ limit.
Proof.
  intros Hp Hin Hd Hlt Hold k. rewrite staged_keys.
  intros [Hk| ->%list_elem_of_singleton]%elem_of_app.
  - destruct (Hold k Hk) as (dk & Hdk & ?). exists dk. split; [|done]. by apply staged_depth.
  - exists (d + 1). split; [|lia]. by eapply staged_child_depth.
Qed.

Lemma staged_deps :
  cn_dependency_ids n ⊆ dkeys nodes →
  (∀ k m, dget k nodes = Some m → cn_dependency_ids m ⊆ dkeys nodes) →
  ∀ k m, dget k staged = Some m → cn_dependency_ids m ⊆ dkeys staged.
Proof.
  intros Hn Hold k m Hk. rewrite staged_keys.
  pose proof (staged_get cn_dependency_ids k ltac:(done)) as Hget. rewrite Hk in Hget.
  cbn in Hget. case_decide.
  { injection Hget as Hget. rewrite Hget. set_solver. }
  destruct (dget k nodes) as [y|] eqn:Ey; [|done]. cbn in Hget. injection Hget as Hget.
  rewrite Hget. apply Hold in Ey. set_solver.
Qed.

Lemma staged_graph : nodes_graph staged = dset child (cn_dependency_ids n) (nodes_graph nodes).
Proof.
  unfold staged. rewrite nodes_graph_refresh by (by apply dset_wf).
  rewrite !dset_fresh by (rewrite ?dkeys_nodes_graph; done). unfold nodes_graph. by rewrite map_app.
Qed.

Lemma staged_task_keys :
  NoDup (map cn_task_key (dvalues nodes)) → cn_task_key n ∉ map cn_task_key (dvalues nodes) →
  NoDup (map cn_task_key (dvalues staged)).
Proof.
  intros Hnd Hk. rewrite staged_values by done.
  apply NoDup_app. split_and!; [done| |apply NoDup_singleton].
  by intros x Hx ->%list_elem_of_singleton.
Qed.
End staged.

(** Staging keeps every limit: a Child that is accepted leaves the graph
    within the configured counts, widths and depths, with unique task keys and
    an acyclic dependency relation over known nodes, and adds exactly that
    Child. *)
Theorem stage_new_child_keeps_limits limits g parent child spec n g' :
  graph_ok limits g → stage_new_child g parent child spec limits = Ok (n, g') →
  graph_ok limits g'
  ∧ dkeys (ca_nodes g') = dkeys (ca_nodes g) ++ [child]
  ∧ dget child (ca_nodes g') = Some n
  ∧ cn_parent_session_id n = Some parent ∧ cn_dependency_ids n = cs_dependency_ids spec.
Proof.
  intros Hg Hst. unfold stage_new_child in Hst. inv_res. simplify_eq.
  match goal with H : validate_new_child _ _ _ _ _ = Ok ?u |- _ => destruct u; rename H into Hv end.
  match goal with H : get_node _ _ = Ok _ |- _ => apply get_node_Ok in H; rename H into Hn end.
  pose proof (proj1 (validate_new_child_iff _ _ _ _ _ Hg) Hv)
    as (Hp & Hc & Hk & Hcount & Hwidth & (d & Hd & Hdlt) & _ & Hdeps).
  destruct Hg as [Hwf Hroot Hcnt Hwd Hdep Hkeys Hdp Hdag].
  set (m := staged_node g parent child spec) in *.
  assert (∀ A (f : CollaborationNode → A), (∀ m s, f (m <| cn_status := s |>) = f m) → f n = f m)
    as Hnm.
  { intros A f Hf. pose proof (staged_get (ca_nodes g) child m Hwf f child Hf) as Hget.
    change (dget child (refresh_runnable (dset child m (ca_nodes g))) = Some n) in Hn.
    rewrite Hn, decide_True in Hget by done. cbn in Hget. congruence. }
  split_and!; [|by apply staged_keys|exact Hn|by rewrite (Hnm _ cn_parent_session_id)
              |by rewrite (Hnm _ cn_dependency_ids)].
  assert (ca_nodes (put_refresh child m g) = refresh_runnable (dset child m (ca_nodes g))) as En
    by done.
  split; rewrite En.
  - by apply refresh_wf, dset_wf.
  - change (ca_root_session_id g ∈ dkeys (refresh_runnable (dset child m (ca_nodes g)))).
    rewrite staged_keys by done. set_solver.
  - pose proof (staged_children (ca_nodes g) child m Hwf Hc). lia.
  - intros p. rewrite staged_width by done. specialize (Hwd p).
    case_decide as Hpp; [injection Hpp as ->|]; lia.
  - by eapply staged_depths.
  - by apply staged_task_keys.
  - by apply staged_deps.
  - rewrite staged_graph by done. by apply fresh_node_acyclic.
Qed.

(** A node without its status, which the dependencies of others change. *)
Definition static (n : CollaborationNode) : CollaborationNode := n <| cn_status := EmptyString |>.

(** A Child that is staged fits, becomes the node of its specification, and leaves the
    others as they were, their statuses apart. *)
Lemma stage_new_child_nodes limits g parent child spec n g' :
  graph_ok limits g → stage_new_child g parent child spec limits = Ok (n, g') →
  fits limits g parent child spec
  ∧ ca_tenant_id g' = ca_tenant_id g ∧ ca_root_session_id g' = ca_root_session_id g
  ∧ ∀ k, static <$> dget k (ca_nodes g')
      = if decide (k = child) then Some (static (staged_node g parent child spec)) else static <$> dget k (ca_nodes g).
Proof.
  intros Hg Hst. unfold stage_new_child in Hst. inv_res. simplify_eq.
  match goal with H : validate_new_child _ _ _ _ _ = Ok ?u |- _ => destruct u; rename H into Hv end.
  pose proof (proj1 (validate_new_child_iff _ _ _ _ _ Hg) Hv) as Hf. split; [done|]. split; [done|]. split; [done|].
  intros k. exact (staged_get (ca_nodes g) child _ (go_wf _ _ Hg) static k (λ _ _, eq_refl)).
Qed.

Lemma collab_apply_root g e g' :
  collab_apply g e = Ok g' → ca_tenant_id g' = ca_tenant_id g ∧ ca_root_session_id g' = ca_root_session_id g.
Proof.
  unfold collab_apply. intros Ha. repeat match goal with
  | H : (if _ then _ else _) = Ok _ |- _ => case_match
  end; inv_res; done.
Qed.

Lemma collab_events_root tenant root events g :
  collab_from_events tenant root events = Ok g → ca_tenant_id g = tenant ∧ ca_root_session_id g = root.
Proof.
  intros Hf. eapply (foldM_inv (λ g, ca_tenant_id g = tenant ∧ ca_root_session_id g = root) collab_apply); [| |exact Hf]; [|by split].
  intros g0 e g1 _ [H1 H2] Ha. apply collab_apply_root in Ha as [-> ->]. done.
Qed.

(** ** Histories of a graph *)

(** The graphs a root reaches: events applied in any order in which nothing
    restarts a completed Session, and Children staged while a plan is checked. *)
Inductive collab_reach (tid root : string) : CollaborationAggregate → Prop :=
  | reach_new : collab_reach tid root (new_collaboration tid root)
  | reach_apply g e g' :
      collab_reach tid root g → orderly g e → collab_apply g e = Ok g' → collab_reach tid root g'
  | reach_stage g parent child spec limits n g' :
      collab_reach tid root g → stage_new_child g parent child spec limits = Ok (n, g') →
      collab_reach tid root g'.

Lemma reach_exact tid root g : collab_reach tid root g → graph_exact (ca_nodes g).
Proof.
  induction 1 as [|g e g' _ IH Hord Ha|g parent child spec limits n g' _ IH Hs].
  - split; [constructor|]. by intros k n Hk.
  - by eapply collab_apply_exact.
  - unfold stage_new_child in Hs. inv_res. simplify_eq. by apply put_refresh_exact.
Qed.

(** The runnable nodes are exactly those that can run: in every graph a
    root reaches, [runnable] lists a waiting (non-root, not started) node if and
    only if each of its dependencies is a completed node; all other waiting
    nodes are blocked. *)
Theorem runnable_exact tid root g n :
  collab_reach tid root g → n ∈ dvalues (ca_nodes g) → waiting_node n →
  (n ∈ runnable g ↔ ready (ca_nodes g) n) ∧ (cn_status n = "blocked" ↔ ¬ ready (ca_nodes g) n).
Proof.
  intros Hr%reach_exact Hin Hw. destruct Hr as [Hwf He].
  apply elem_of_dvalues in Hin as Hk; [|done]. destruct Hk as [k Hk].
  unfold runnable. rewrite list_elem_of_filter.
  destruct (He k n Hk Hw) as [[Hs Hy]|[Hs Hy]]; rewrite Hs; naive_solver.
Qed.

(** When a Child may be joined. *)
Definition joinable (g : CollaborationAggregate) (sid : string) : Prop :=
  ∃ n result, dget sid (ca_nodes g) = Some n ∧ cn_root_session_id n = ca_root_session_id g
  ∧ cn_status n = "completed" ∧ cn_result n = Some result
  ∧ (cn_role n = CReviewer → pgetn "decision" result = JStr "accepted").

Lemma is_lit_true v s : is_lit v s = true ↔ v = JStr s.
Proof. destruct v; cbn; rewrite ?String.eqb_eq; naive_solver. Qed.

Lemma foldM_unit {A} (f : A → res unit) l :
  foldM (λ _, f) l tt = Ok tt ↔ Forall (λ a, f a = Ok tt) l.
Proof.
  induction l as [|a l IH]; cbn; [split; [constructor|done]|]. rewrite Forall_cons, <- IH.
  destruct (f a) as [[]|]; cbn; naive_solver.
Qed.

(** A join is accepted exactly when it names at least one Child and every
    one of them belongs to this root, is completed with a result, and, for a
    reviewer, accepted what it reviewed. *)
Theorem require_joinable_exact g ids :
  require_joinable g ids = Ok tt ↔ ids ≠ [] ∧ Forall (joinable g) ids.
Proof.
  unfold require_joinable. destruct ids as [|s ids]; [naive_solver|].
  rewrite foldM_unit. transitivity (Forall (joinable g) (s :: ids)); [|naive_solver].
  apply Forall_iff. intros sid. unfold joinable. destruct (dget sid (ca_nodes g)) as [n|]; [|naive_solver].
  destruct (String.eqb_spec (cn_root_session_id n) (ca_root_session_id g)); cbn [negb]; [|naive_solver].
  destruct (cn_result n) as [result|] eqn:Er; [|naive_solver].
  destruct (String.eqb_spec (cn_status n) "completed"); cbn [negb]; [|naive_solver].
  destruct (bool_decide (cn_role n = CReviewer)) eqn:Eb; cbn [andb]; bool_props; [|naive_solver].
  pose proof (is_lit_true (pgetn "decision" result) (review_value RDAccepted)) as Hl.
  destruct (is_lit _ _); cbn [negb] in *.
  - split; [|done]. intros _. exists n, result. split_and!; try done. intros _. by apply Hl.
  - split; [done|]. intros (n' & r' & ? & ? & ? & ? & Hd). simplify_eq.
    specialize (Hd Eb). apply Hl in Hd. done.
Qed.

(** ** Witnesses *)

Module CollaborationExamples.
Definition limits : CollaborationLimits := mkLimits 4 8 32 (S754_finite false 7036874417766400 (-46)).
Definition one : spec_float := S754_finite false 4503599627370496 (-52).
Definition spec (key : string) (deps : list string) : ChildSpec :=
  mkChildSpec key CWorker "goal" default_contract deps [] [] one [] [].

Definition event (sid ty : string) (p : payload) : CanonicalEvent :=
  mkCanonicalEvent "evt" "t1" "root" sid None 1 ty 0 (mkActor "user" "u") "c" "c" VUser 1 p.

Definition rooted : CollaborationAggregate :=
  match collab_apply (new_collaboration "t1" "root")
          (event "root" "session.created" [("goal", JStr "g")]) with
  | Ok g => g | Raise _ _ => new_collaboration "t1" "root" end.

Lemma rooted_ok : graph_ok limits rooted.
Proof.
  split.
  - repeat constructor; set_solver.
  - by left.
  - vm_compute. discriminate.
  - intros p. vm_compute. discriminate.
  - intros k ->%list_elem_of_singleton. exists 0. vm_compute. split; [reflexivity|discriminate].
  - apply NoDup_singleton.
  - intros k n Hk%dget_Some_elem. apply list_elem_of_singleton in Hk. injection Hk as -> ->.
    intros x Hx. by apply elem_of_nil in Hx.
  - assert (∀ s d, ¬ depends (nodes_graph (ca_nodes rooted)) s d) as Hno.
    { intros s d. unfold depends. rewrite graph_get_nodes.
      destruct (dget s (ca_nodes rooted)) as [n|] eqn:E; [|apply not_elem_of_nil].
      apply dget_Some_elem, list_elem_of_singleton in E. injection E as -> ->.
      apply not_elem_of_nil. }
    intros s Hc. inversion Hc as [? ? Hd|? ? ? Hd]; by apply Hno in Hd.
Defined.

Definition staged_a : CollaborationNode * CollaborationAggregate :=
  match stage_new_child rooted "root" "a" (spec "ka" []) limits with
  | Ok r => r | Raise _ _ => (staged_node rooted "root" "a" (spec "ka" []), rooted) end.

Lemma validate_new_child_exact_witness :
  validate_new_child rooted "root" "a" (spec "ka" ["root"]) limits = Ok tt
  ∧ validate_new_child rooted "root" "a" (spec "ka" ["x"]) limits ≠ Ok tt.
Proof.
  split.
  - apply (validate_new_child_exact limits rooted "root" "a" (spec "ka" ["root"]) rooted_ok).
    split_and!; [by left|vm_compute; set_solver|vm_compute; set_solver|reflexivity|reflexivity
      |exists 0; split; reflexivity|vm_compute; reflexivity|cbn; set_solver].
  - vm_compute. discriminate.
Defined.

Lemma stage_new_child_keeps_limits_witness :
  graph_ok limits (snd staged_a) ∧ cn_status (fst staged_a) = "runnable".
Proof.
  destruct (stage_new_child_keeps_limits limits rooted "root" "a" (spec "ka" []) (fst staged_a)
              (snd staged_a) rooted_ok ltac:(vm_compute; reflexivity)) as (Hok & _).
  split; [exact Hok|vm_compute; reflexivity].
Defined.

(** A second Child that waits for the first, until the first publishes. *)
Definition staged_b : CollaborationNode * CollaborationAggregate :=
  match stage_new_child (snd staged_a) "root" "b" (spec "kb" ["a"]) limits with
  | Ok r => r | Raise _ _ => staged_a end.
Definition published : CollaborationAggregate :=
  match collab_apply (snd staged_b) (event "a" "child.result_published" []) with
  | Ok g => g | Raise _ _ => snd staged_b end.
Definition node_b (g : CollaborationAggregate) : CollaborationNode :=
  default (fst staged_b) (dget "b" (ca_nodes g)).

Lemma reach_b : collab_reach "t1" "root" (snd staged_b).
Proof.
  eapply (reach_stage _ _ (snd staged_a) "root" "b" (spec "kb" ["a"]) limits (fst staged_b));
    [|vm_compute; reflexivity].
  eapply (reach_stage _ _ rooted "root" "a" (spec "ka" []) limits (fst staged_a));
    [|vm_compute; reflexivity].
  eapply (reach_apply _ _ _ (event "root" "session.created" [("goal", JStr "g")]));
    [constructor| |vm_compute; reflexivity].
  intros _ (m & Hm & _). discriminate Hm.
Defined.

Lemma reach_published : collab_reach "t1" "root" published.
Proof.
  eapply (reach_apply _ _ _ (event "a" "child.result_published" [])); [apply reach_b| |vm_compute; reflexivity].
  intros Hin. exfalso. cbn in Hin. set_solver.
Defined.

Lemma runnable_exact_witness :
  (node_b (snd staged_b) ∉ runnable (snd staged_b)) ∧ node_b published ∈ runnable published.
Proof.
  split.
  - destruct (runnable_exact "t1" "root" (snd staged_b) (node_b (snd staged_b)) reach_b) as [Hr _].
    + vm_compute. right. right. left.
    + split; [vm_compute; discriminate|]. vm_compute. set_solver.
    + rewrite Hr. intros Hready. apply dependencies_satisfied_ready in Hready.
      vm_compute in Hready. discriminate Hready.
  - destruct (runnable_exact "t1" "root" published (node_b published) reach_published) as [Hr _].
    + vm_compute. right. right. left.
    + split; [vm_compute; discriminate|]. vm_compute. set_solver.
    + apply Hr, dependencies_satisfied_ready. vm_compute. reflexivity.
Defined.
End CollaborationExamples.
