(* ===== verification/RuntimeBudget.v ===== *)
(** * Runtime budgets ([domain/runtime_budget.py])

    What a run has used, rebuilt from its events, and the admission rules the
    event store applies before it writes: a Child's allocation must fit in the
    budget of its task tree, a reservation in the budget of its run. *)

From Stdlib Require Import SpecFloat.
From S2P Require Import Prelude PyValue Contracts.
Local Open Scope Z_scope.

Definition RESERVATION : string := "runtime.budget.reserved".

(** ** Usage *)

(** The events of a run with a given type. *)
Definition of_run (run_id : option string) (ty : string) (e : CanonicalEvent) : bool :=
  bool_decide (ev_run_id e = run_id) && String.eqb (ev_type e) ty.

(** [{e.payload[key]: value(e) for e in events if e.run_id == run_id and e.type == ty}] *)
Definition index_events {V} (run_id : option string) (ty key : string)
    (value : CanonicalEvent → V) (events : list CanonicalEvent) : res (list (json * V)) :=
  foldM (λ d e,
    if of_run run_id ty e
    then k ← pget key (ev_payload e); jd_set k (value e) d
    else Ok d) events [].

(** The keys of the reservations of a kind. *)
Definition kind_ids (kind : string) (reservations : list (json * payload)) : res (list json) :=
  foldM (λ acc kv, v ← pget "kind" kv.2; Ok (if is_lit v kind then acc ++ [kv.1] else acc))
    reservations [].

(** [set(a) | set(b)] of distinct elements: [b]'s new elements after [a]'s. *)
Definition jset_union (a b : list json) : list json :=
  fold_left (λ acc k, if jmem k acc then acc else acc ++ [k]) b a.

(** [sum(f(x) for x in l)] over ints. *)
Definition sumR {A} (f : A → res Z) (l : list A) : res Z :=
  foldM (λ acc a, n ← f a; Ok (acc + n)) l 0.

Record Usage := mkUsage {
  us_steps_used : Z;
  us_model_turns : Z;
  us_tool_attempts : Z;
  us_output_tokens : Z;
  us_output_tokens_reserved : Z;
  us_tool_dispatches : Z;
  us_cost : option spec_float;
  us_suppressed_attempts : Z;
}.
#[global] Instance Usage_eta : Eta Usage := λ u,
  mkUsage (us_steps_used u) (us_model_turns u) (us_tool_attempts u) (us_output_tokens u)
    (us_output_tokens_reserved u) (us_tool_dispatches u) (us_cost u) (us_suppressed_attempts u).

(** Tokens a reservation still holds: none once the model call reported its own. *)
Definition outstanding_of (models : list (json * payload)) (kv : json * payload) : res Z :=
  kind ← pget "kind" kv.2;
  if negb (is_lit kind "model") then Ok 0 else
  reported ← jin "output_tokens" (pgetd "usage" (JObj []) (default [] (jd_get kv.1 models)));
  if (reported : bool) then Ok 0 else py_int (pgetd "output_tokens" (JInt 0) kv.2).

Definition model_output (m : payload) : res Z :=
  v ← jgetd "output_tokens" (JInt 0) (pgetd "usage" (JObj []) m); py_int v.

Definition model_cost (m : payload) : res json :=
  jgetd "cost" JNull (pgetd "usage" (JObj []) m).

Definition usage (events : list CanonicalEvent) (run_id : string) : res Usage :=
  reservations ← index_events (Some run_id) RESERVATION "reservation_id" ev_payload events;
  models ← index_events (Some run_id) "model.turn.completed" "model_call_id" ev_payload events;
  tools ← index_events (Some run_id) "tool.call.completed" "tool_invocation_id"
            (λ e, pgetd "result" (JObj []) (ev_payload e)) events;
  reserved_models ← kind_ids "model" reservations;
  let model_ids := jset_union reserved_models (dkeys models) in
  tool_ids ← kind_ids "tool" reservations;
  output ← sumR model_output (dvalues models);
  outstanding ← sumR (outstanding_of models) reservations;
  costs ← mapR model_cost (dvalues models);
  dispatches ← sumR (λ r, m ← jgetd "metadata" (JObj []) r; v ← jgetd "dispatch_started" JNull m;
                          Ok (match v with JBool true => 1 | _ => 0 end)) (dvalues tools);
  cost ← (if match costs with [] => false | _ => true end && forallb (λ c, negb (is_none c)) costs
          then fs ← mapR py_float costs; Ok (Some (f64_sum fs)) else Ok None);
  suppressed ← sumR (λ r, v ← jgetd "error_code" JNull r;
                          Ok (if is_lit v "tool_repeat_suppressed" then 1 else 0)) (dvalues tools);
  Ok (mkUsage (Z.of_nat (length model_ids) + Z.of_nat (length tool_ids))
        (Z.of_nat (length model_ids)) (Z.of_nat (length tool_ids)) output outstanding dispatches
        cost suppressed).

(** ** Budgets *)

Definition run_budgets (events : list CanonicalEvent) : res (list (string * payload)) :=
  foldM (λ d e,
    if String.eqb (ev_type e) "run.requested" then
      match pgetn "budget" (ev_payload e) with
      | JObj budget => r ← pget "run_id" (ev_payload e); Ok (dset (py_str r) budget d)
      | _ => Ok d
      end
    else Ok d) events [].

(** [budgets.get(k, {})] *)
Definition budget_of (budgets : list (string * payload)) (k : string) : payload :=
  default [] (dget k budgets).

(** ** Admission *)

(** The [child.created] event a batch proposes, or, for a new run of an existing
    Child, the original one with the requested budget. *)
Definition proposed_child (existing : list CanonicalEvent) (result : list NewEvent)
    (session_id root_session_id : string) : option NewEvent :=
  match list_find (λ e, ne_type e = "child.created") result with
  | Some (_, e) => Some e
  | None =>
      if String.eqb session_id root_session_id then None else
      match list_find (λ e, ne_type e = "run.requested") result with
      | None => None
      | Some (_, requested) =>
          match list_find (λ e, ev_session_id e = session_id ∧ ev_type e = "child.created") existing with
          | None => None
          | Some (_, original) => Some (mkNewEvent "child.created"
              (dset "runtime_budget" (pgetd "budget" (JObj []) (ne_payload requested))
                 (ev_payload original)) VUser)
          end
      end
  end.

(** The run id of the parent's last requested run. *)
Definition parent_run (existing : list CanonicalEvent) (parent : string) : res json :=
  match list_find (λ e, ev_session_id e = parent ∧ ev_type e = "run.requested") (reverse existing) with
  | Some (_, e) => pget "run_id" (ev_payload e)
  | None => Ok JNull
  end.

(** What a Child is given: the defaults, what it asked for, and the scope it
    belongs to; it cannot set the limits of the tree. *)
Definition configure (asked : payload) (scope : string) : payload :=
  ddel "tree_max_cost" (ddel "tree_max_output_tokens" (ddel "tree_max_steps"
    (dset "scope_id" (JStr scope) (dset "policy_version" (JStr "2")
      (dupdate [("max_steps", JInt 48); ("max_output_tokens", JInt 8192)] asked))))).

(** The budgets already given out in a scope. *)
Definition allocations (budgets : list (string * payload)) (scope : string) : list payload :=
  dvalues (filter (λ kb, is_lit (pgetd "scope_id" (JStr kb.1) kb.2) scope = true) budgets).

Definition allocated (key : string) (dflt : Z) (allocs : list payload) : res Z :=
  sumR (λ b, py_int (pgetd key (JInt dflt) b)) allocs.

(** One iteration over [("max_steps", 480), ("max_output_tokens", 81920)]. *)
Definition check_allocation (configured root_budget : payload) (allocs : list payload)
    (key : string) (default_total default_share : Z) : res unit :=
  match pgetn key configured with
  | JInt value =>
      if value <? 1
      then Raise CollaborationValidationError ("child " +:+ key +:+ " must be a positive integer")
      else
      given ← allocated key default_share allocs;
      limit ← py_int (pgetd ("tree_" +:+ key) (JInt default_total) root_budget);
      if limit <? given + value
      then Raise CollaborationValidationError ("root task tree " +:+ key +:+ " allocation exhausted")
      else Ok tt
  | _ => Raise CollaborationValidationError ("child " +:+ key +:+ " must be a positive integer")
  end.

Definition check_cost (configured root_budget : payload) (allocs : list payload) : res unit :=
  let tree_max_cost := pgetn "tree_max_cost" root_budget in
  if is_none tree_max_cost then Ok tt else
  let amount := pgetn "max_cost" configured in
  let refused := Raise CollaborationValidationError "cost-limited tree requires child cost limits" in
  if is_none amount then refused else
  a ← py_float amount;
  if negb (f64_isfinite a) || f64_leb a f64_zero
     || existsb (λ b, is_none (pgetn "max_cost" b)) allocs
  then refused
  else
  costs ← mapR (λ b, v ← pget "max_cost" b; py_float v) allocs;
  limit ← py_float tree_max_cost;
  if f64_gtb (f64_add (f64_sum costs) a) limit
  then Raise CollaborationValidationError "root task tree cost allocation exhausted"
  else Ok tt.

(** The Child part of [govern]: the batch with the allocation written in. *)
Definition govern_child (budgets : list (string * payload)) (existing : list CanonicalEvent)
    (result : list NewEvent) (child : NewEvent) (root_session_id : string) : res (list NewEvent) :=
  let parent := py_str (pgetd "parent_session_id" (JStr root_session_id) (ne_payload child)) in
  prun ← parent_run existing parent;
  let inherited := budget_of budgets (py_str prun) in
  if negb (is_lit (pgetn "policy_version" inherited) "2") then Ok result else
  asked ← py_dict (pgetd "runtime_budget" (JObj []) (ne_payload child));
  let scope := py_str (pgetd "scope_id" prun inherited) in
  let root_budget := default inherited (dget scope budgets) in
  let configured := configure asked scope in
  let allocs := allocations budgets scope in
  _ ← check_allocation configured root_budget allocs "max_steps" 480 48;
  _ ← check_allocation configured root_budget allocs "max_output_tokens" 81920 8192;
  _ ← check_cost configured root_budget allocs;
  Ok (map (λ e,
        if String.eqb (ne_type e) "child.created"
        then e <| ne_payload := dset "runtime_budget" (JObj configured) (ne_payload e) |>
        else if String.eqb (ne_type e) "run.requested"
        then e <| ne_payload := dset "budget" (JObj configured) (ne_payload e) |>
        else e) result).

(** The loop over the proposed reservations; the state is [used] (the steps and
    the outstanding tokens) and [prior]. *)
Record Admission := mkAdmission {
  ad_used : Usage;
  ad_prior : list (json * payload);
}.

Definition admit_reservation (budget : payload) (st : Admission) (e : NewEvent) : res Admission :=
  if negb (String.eqb (ne_type e) RESERVATION) then Ok st else
  let p := ne_payload e in
  rid ← pget "reservation_id" p;
  let key := JStr (py_str rid) in
  match jd_get key (ad_prior st) with
  | Some q =>
      if negb (py_eq (JObj q) (JObj p))
      then Raise VersionConflictError "reservation identity reused with different allocation"
      else Ok st
  | None =>
      let kind := pgetn "kind" p in
      if negb (hashable kind) then Raise PyTypeError "unhashable type" else
      if negb (is_lit kind "model" || is_lit kind "tool")
      then Raise CollaborationValidationError "unsupported reservation kind" else
      match pgetd "output_tokens" (JInt 0) p with
      | JInt tokens =>
          if tokens <? 0 then Raise CollaborationValidationError "invalid token reservation" else
          let used := ad_used st in
          max_steps ← py_int (pgetd "max_steps" (JInt 48) budget);
          if max_steps <? us_steps_used used + 1
          then Raise RuntimeStepBudgetExceededError "persisted step reservations exhausted" else
          max_tokens ← py_int (pgetd "max_output_tokens" (JInt 8192) budget);
          if max_tokens <? us_output_tokens used + us_output_tokens_reserved used + tokens
          then Raise RuntimeOutputTokenBudgetExceededError "persisted output reservations exhausted"
          else
          Ok (mkAdmission
                (used <| us_steps_used := us_steps_used used + 1 |>
                      <| us_output_tokens_reserved := us_output_tokens_reserved used + tokens |>)
                (jd_put key p (ad_prior st)))
      | _ => Raise CollaborationValidationError "invalid token reservation"
      end
  end.

Definition govern (existing : list CanonicalEvent) (proposed : list NewEvent)
    (session_id root_session_id : string) (run_id : option string) : res (list NewEvent) :=
  budgets ← run_budgets existing;
  result ← match proposed_child existing proposed session_id root_session_id with
           | Some child => govern_child budgets existing proposed child root_session_id
           | None => Ok proposed
           end;
  let run := py_str (jopt run_id) in
  let budget := budget_of budgets run in
  if negb (is_lit (pgetn "policy_version" budget) "2") then Ok result else
  used ← usage existing run;
  prior ← index_events run_id RESERVATION "reservation_id" ev_payload existing;
  _ ← foldM (admit_reservation budget) result (mkAdmission used prior);
  Ok result.

(** ** What [govern] may change *)

(** The key [govern] may write in an event of this type. *)
Definition governed_key (ty : string) : string :=
  if String.eqb ty "child.created" then "runtime_budget" else "budget".

Definition governed_from (e e' : NewEvent) : Prop :=
  ne_type e' = ne_type e ∧ ne_visibility e' = ne_visibility e
  ∧ (∀ k, k ≠ governed_key (ne_type e) → dget k (ne_payload e') = dget k (ne_payload e))
  ∧ (dget (governed_key (ne_type e)) (ne_payload e') = dget (governed_key (ne_type e)) (ne_payload e)
     ∨ ∃ d, dget (governed_key (ne_type e)) (ne_payload e') = Some (JObj d)).

Lemma govern_from existing proposed sid root run governed :
  govern existing proposed sid root run = Ok governed → Forall2 governed_from proposed governed.
Proof.
  assert (∀ l, Forall2 governed_from l l) as Hrefl
    by (intros l; induction l; constructor; [split_and!; auto|done]).
  unfold govern. intros Hg. apply res_bind_Ok in Hg as (budgets & _ & Hg).
  apply res_bind_Ok in Hg as (result & Hr & Hg).
  assert (governed = result) as -> by (destruct (negb _); by inv_res).
  destruct (proposed_child _ _ _ _) as [child|]; [|by inv_res].
  unfold govern_child in Hr. apply res_bind_Ok in Hr as (prun & _ & Hr).
  destruct (negb _); [by inv_res|]. inv_res.
  clear -Hrefl. induction proposed as [|e l IH]; [constructor|]. cbn [map]. constructor; [|exact IH].
  unfold governed_from, governed_key. destruct (String.eqb (ne_type e) "child.created"); [|case_match].
  1,2: split_and!; [done|done|intros k Hk; by apply dget_dset_ne|right; eexists; exact (dget_dset_eq _ _ _)].
  split_and!; auto.
Qed.

(** ** Equal payloads *)

Lemma py_eq_obj d e :
  py_eq (JObj d) (JObj e) = true →
  length d = length e ∧ (∀ k v, (k, v) ∈ d → ∃ w, dget k e = Some w ∧ py_eq v w = true).
Proof.
  cbn. rewrite andb_true_iff, Nat.eqb_eq. intros [Hlen Hgo]. split; [done|]. clear Hlen.
  induction d as [|[k v] d IH]; intros k' v' Hin; [by apply elem_of_nil in Hin|].
  apply andb_true_iff in Hgo as [Hkv Hgo]. apply elem_of_cons in Hin as [Hin|Hin]; [|by apply IH].
  simplify_eq. destruct (dget k e); [eauto|done].
Qed.

(** Equal dicts have the same keys, with equal values. *)
Lemma py_eq_obj_get d e k :
  dict_wf d → dict_wf e → py_eq (JObj d) (JObj e) = true →
  match dget k d, dget k e with
  | Some v, Some w => py_eq v w = true
  | None, None => True
  | _, _ => False
  end.
Proof.
  intros Hd He [Hlen Heq]%py_eq_obj.
  destruct (dget k d) as [v|] eqn:Ev.
  { apply dget_Some_elem, Heq in Ev as (w & -> & ?). done. }
  destruct (dget k e) as [w|] eqn:Ew; [|done]. apply dget_None in Ev. apply Ev.
  assert (dkeys d ⊆+ dkeys e) as Hsub.
  { apply NoDup_submseteq; [done|]. intros x ([k' v] & -> & Hin)%list_elem_of_fmap.
    apply Heq in Hin as (w' & Hw & _). by eapply dget_Some_key. }
  apply submseteq_length_Permutation in Hsub.
  - rewrite Hsub. by eapply dget_Some_key.
  - unfold dkeys. rewrite !length_fmap. lia.
Qed.

(** ** Reservations of a run *)

(** The payload of a reservation as the runtime writes it: a string identity, a
    string kind, an integer number of tokens. *)
Record reservation (p : payload) (rid kind : string) (tokens : Z) : Prop := {
  rv_wf : dict_wf p;
  rv_id : dget "reservation_id" p = Some (JStr rid);
  rv_kind : dget "kind" p = Some (JStr kind);
  rv_tokens : pgetd "output_tokens" (JInt 0) p = JInt tokens;
}.

Lemma reservation_eq p q rid kind tokens rid' kind' tokens' :
  reservation p rid kind tokens → reservation q rid' kind' tokens' →
  py_eq (JObj p) (JObj q) = true → kind = kind' ∧ tokens = tokens'.
Proof.
  intros [Hp _ Hk Ht] [Hq _ Hk' Ht'] Heq.
  pose proof (py_eq_obj_get p q "kind" Hp Hq Heq) as H1. rewrite Hk, Hk' in H1.
  pose proof (py_eq_obj_get p q "output_tokens" Hp Hq Heq) as H2. unfold pgetd in *.
  split; [cbn in H1; by apply String.eqb_eq|].
  destruct (dget "output_tokens" p) as [v|], (dget "output_tokens" q) as [w|]; cbn in *; simplify_eq;
    try done. by apply Z.eqb_eq.
Qed.

(** Reservations indexed by string identities. *)
Definition indexed (R : list (json * payload)) : Prop :=
  Forall (λ kv, ∃ rid kind tokens, kv.1 = JStr rid ∧ reservation kv.2 rid kind tokens) R.

Definition string_keys {V} (d : list (json * V)) : Prop := Forall (λ kv, ∃ s, kv.1 = JStr s) d.

Lemma jd_put_absent {V} k (v : V) d : jd_get k d = None → jd_put k v d = d ++ [(k, v)].
Proof.
  induction d as [|[k' v'] d IH]; cbn; [done|]. destruct (py_eq k' k); [done|].
  intros. by rewrite IH.
Qed.

Lemma jd_put_present {V} k (v w : V) d :
  jd_get k d = Some w →
  ∃ d1 k' d2, d = d1 ++ (k', w) :: d2 ∧ py_eq k' k = true ∧ jd_put k v d = d1 ++ (k', v) :: d2.
Proof.
  induction d as [|[k' v'] d IH]; cbn; [done|]. destruct (py_eq k' k) eqn:E.
  - intros; simplify_eq. by exists [], k', d.
  - intros (d1 & k1 & d2 & -> & Hk & Hput)%IH. exists ((k', v') :: d1), k1, d2.
    split_and!; [done|done|]. by rewrite Hput.
Qed.

Lemma py_eq_JStr v s : py_eq v (JStr s) = true ↔ v = JStr s.
Proof.
  rewrite <- is_lit_py_eq. destruct v; cbn; rewrite ?String.eqb_eq; naive_solver.
Qed.

Lemma jmem_JStr s l : jmem (JStr s) l = true ↔ JStr s ∈ l.
Proof.
  unfold jmem. rewrite existsb_exists. setoid_rewrite py_eq_JStr.
  setoid_rewrite <- list_elem_of_In. naive_solver.
Qed.

(** ** Counting steps *)

Lemma jset_union_mono b acc1 acc2 :
  Forall (λ k, ∃ s, k = JStr s) b → (∀ x, x ∈ acc1 → x ∈ acc2) →
  (length (jset_union acc2 b) + length acc1 ≤ length (jset_union acc1 b) + length acc2)%nat.
Proof.
  intros Hb. revert acc1 acc2. induction Hb as [|k b [s ->] _ IH]; intros acc1 acc2 Hsub; cbn; [lia|].
  destruct (jmem (JStr s) acc1) eqn:E1.
  - apply jmem_JStr in E1. rewrite (proj2 (jmem_JStr s acc2)) by auto. by apply IH.
  - destruct (jmem (JStr s) acc2) eqn:E2.
    + apply jmem_JStr in E2. specialize (IH (acc1 ++ [JStr s]) acc2).
      rewrite length_app in IH. cbn in IH. etrans; [|apply Nat.lt_succ_r, le_n_S, IH].
      * unfold jset_union in *. lia.
      * intros x [Hx| ->%list_elem_of_singleton]%elem_of_app; auto.
    + specialize (IH (acc1 ++ [JStr s]) (acc2 ++ [JStr s])). rewrite !length_app in IH.
      cbn in IH. unfold jset_union in *.
      assert (∀ x, x ∈ acc1 ++ [JStr s] → x ∈ acc2 ++ [JStr s]) as Hs by set_solver.
      specialize (IH Hs). lia.
Qed.

Lemma jset_union_snoc a b k :
  Forall (λ k, ∃ s, k = JStr s) b →
  (length (jset_union (a ++ [k]) b) ≤ S (length (jset_union a b)))%nat.
Proof.
  intros Hb. pose proof (jset_union_mono b a (a ++ [k]) Hb ltac:(set_solver)) as H.
  rewrite length_app in H. cbn in H. lia.
Qed.

(** The step count and the outstanding tokens of an index of reservations. *)
Definition step_count (M R : list (json * payload)) : res Z :=
  ms ← kind_ids "model" R;
  ts ← kind_ids "tool" R;
  Ok (Z.of_nat (length (jset_union ms (dkeys M))) + Z.of_nat (length ts)).

Definition reserved_tokens (M R : list (json * payload)) : res Z := sumR (outstanding_of M) R.

Lemma sumR_go {A} (f : A → res Z) l acc :
  foldM (λ acc a, n ← f a; Ok (acc + n)) l acc = (λ n, acc + n) <$> sumR f l.
Proof.
  unfold sumR. revert acc. induction l as [|a l IH]; intros acc; cbn [foldM]; [cbn; f_equal; lia|].
  destruct (f a) as [n|]; cbn [mbind res_bind]; [|done]. rewrite IH, (IH (0 + n)).
  destruct (foldM _ l 0); cbn; [|done]. f_equal. lia.
Qed.

Lemma sumR_app {A} (f : A → res Z) l1 l2 :
  sumR f (l1 ++ l2) = (n1 ← sumR f l1; n2 ← sumR f l2; Ok (n1 + n2)).
Proof.
  unfold sumR at 1. rewrite foldM_app. fold (sumR f l1). destruct (sumR f l1) as [n1|]; cbn; [|done].
  rewrite sumR_go. by destruct (sumR f l2).
Qed.

Lemma sumR_one {A} (f : A → res Z) a : sumR f [a] = f a.
Proof. unfold sumR. cbn. destruct (f a); cbn; [|done]. f_equal; lia. Qed.

Lemma kind_ids_app kind R1 R2 :
  kind_ids kind (R1 ++ R2) = (a ← kind_ids kind R1; b ← kind_ids kind R2; Ok (a ++ b)).
Proof.
  unfold kind_ids at 1. rewrite foldM_app. fold (kind_ids kind R1).
  destruct (kind_ids kind R1) as [a|]; cbn; [|done]. unfold kind_ids. clear R1.
  assert (∀ acc, foldM (λ acc kv, v ← pget "kind" kv.2;
     Ok (if is_lit v kind then acc ++ [kv.1] else acc)) R2 acc =
     b ← foldM (λ acc (kv : json * payload), v ← pget "kind" kv.2;
     Ok (if is_lit v kind then acc ++ [kv.1] else acc)) R2 []; Ok (acc ++ b)) as Hgo.
  2: apply Hgo.
  induction R2 as [|kv R2 IH]; intros acc; cbn; [by rewrite app_nil_r|].
  destruct (pget "kind" kv.2) as [v|]; cbn; [|done]. rewrite IH. symmetry. rewrite IH.
  destruct (foldM _ R2 []); cbn; [|done]. destruct (is_lit v kind); cbn; by rewrite <- ?app_assoc.
Qed.

Lemma kind_ids_one kind k p v :
  pget "kind" p = Ok v → kind_ids kind [(k, p)] = Ok (if is_lit v kind then [k] else []).
Proof. intros Hp. unfold kind_ids. cbn. rewrite Hp. cbn. by destruct (is_lit v kind). Qed.

Lemma sumR_elem {A} (f : A → res Z) l n a : sumR f l = Ok n → a ∈ l → ∃ m, f a = Ok m.
Proof.
  intros Hs (l1 & l2 & ->)%list_elem_of_split. rewrite sumR_app in Hs. inv_res.
  match goal with H : sumR f (a :: l2) = Ok _ |- _ => change (a :: l2) with ([a] ++ l2) in H;
    rewrite sumR_app, sumR_one in H; inv_res end.
  eauto.
Qed.

Lemma jd_get_value {V} k (d : list (json * V)) v : jd_get k d = Some v → v ∈ dvalues d.
Proof.
  induction d as [|[k' v'] d IH]; cbn; [done|]. destruct (py_eq k' k).
  - intros; simplify_eq. by left.
  - intros. right. by apply IH.
Qed.

Section admission.
Context (M : list (json * payload)).
Hypothesis Hkeys : string_keys M.
Hypothesis Houtput : ∃ n, sumR model_output (dvalues M) = Ok n.

Lemma models_reported k : ∃ b, jin "output_tokens" (pgetd "usage" (JObj []) (default [] (jd_get k M))) = Ok b.
Proof.
  destruct (jd_get k M) as [m|] eqn:Em; cbn [from_option id]; [|by eexists].
  destruct Houtput as [n Hn]. apply jd_get_value in Em.
  destruct (sumR_elem _ _ _ _ Hn Em) as [o Ho]. unfold model_output in Ho. inv_res.
  match goal with H : jgetd _ _ _ = Ok _ |- _ => revert H end.
  destruct (pgetd "usage" (JObj []) m); cbn; intros; try discriminate. eauto.
Qed.

Lemma outstanding_reservation k p rid kind tokens :
  reservation p rid kind tokens → 0 ≤ tokens →
  ∃ n, outstanding_of M (k, p) = Ok n ∧ n ≤ tokens.
Proof.
  intros [_ _ Hk Ht] Hpos. unfold outstanding_of, pget. cbn [fst snd]. rewrite Hk.
  cbn [mbind res_bind]. destruct (is_lit (JStr kind) "model"); cbn [negb]; [|eauto].
  destruct (models_reported k) as [b Hb]. rewrite Hb, Ht. cbn. destruct b; eauto with lia.
Qed.

Lemma keys_strings : Forall (λ k, ∃ s, k = JStr s) (dkeys M).
Proof. unfold dkeys. apply Forall_fmap. exact Hkeys. Qed.

(** A new reservation costs at most one step and its tokens. *)
Lemma reserve_new R p rid kind tokens n t :
  reservation p rid kind tokens → 0 ≤ tokens → kind = "model" ∨ kind = "tool" →
  jd_get (JStr rid) R = None → step_count M R = Ok n → reserved_tokens M R = Ok t →
  ∃ n' t', step_count M (jd_put (JStr rid) p R) = Ok n' ∧ n' ≤ n + 1
    ∧ reserved_tokens M (jd_put (JStr rid) p R) = Ok t' ∧ t' ≤ t + tokens.
Proof.
  intros Hr Hpos Hkind Hnew Hn Ht. rewrite (jd_put_absent _ _ _ Hnew).
  destruct (outstanding_reservation (JStr rid) p rid kind tokens Hr Hpos) as (o & Ho & Hle).
  unfold reserved_tokens in *. rewrite sumR_app, sumR_one, Ht, Ho. cbn [mbind res_bind].
  unfold step_count in *. inv_res. rewrite !kind_ids_app.
  assert (pget "kind" p = Ok (JStr kind)) as Hk by (unfold pget; by rewrite (rv_kind _ _ _ _ Hr)).
  repeat match goal with H : kind_ids _ R = Ok _ |- _ => rewrite H end. cbn [mbind res_bind].
  rewrite !(kind_ids_one _ _ _ _ Hk). cbn [mbind res_bind]. do 2 eexists. split; [reflexivity|].
  split; [|split; [reflexivity|lia]].
  pose proof keys_strings as Hs.
  destruct Hkind as [->| ->]; cbn [is_lit String.eqb Ascii.eqb Bool.eqb]; rewrite ?app_nil_r.
  - pose proof (jset_union_snoc x (dkeys M) (JStr rid) Hs). cbn in *. rewrite ?app_nil_r. lia.
  - cbn. rewrite ?app_nil_r, ?length_app. cbn. lia.
Qed.

(** A reservation of the same kind and size under the same identity costs nothing. *)
Lemma reserve_again R p q rid rid' kind tokens :
  reservation p rid kind tokens → reservation q rid' kind tokens → jd_get (JStr rid) R = Some q →
  step_count M (jd_put (JStr rid) p R) = step_count M R
  ∧ reserved_tokens M (jd_put (JStr rid) p R) = reserved_tokens M R.
Proof.
  intros Hp Hq Hget.
  destruct (jd_put_present _ p q R Hget) as (R1 & k & R2 & -> & _ & ->).
  change ((k, p) :: R2) with ([(k, p)] ++ R2). change ((k, q) :: R2) with ([(k, q)] ++ R2).
  assert (∀ kd, kind_ids kd [(k, p)] = kind_ids kd [(k, q)]) as Hids.
  { intros kd. rewrite !(kind_ids_one kd k _ (JStr kind));
      [done|unfold pget; by rewrite (rv_kind _ _ _ _ Hq)|unfold pget; by rewrite (rv_kind _ _ _ _ Hp)]. }
  assert (outstanding_of M (k, p) = outstanding_of M (k, q)) as Hout.
  { unfold outstanding_of, pget. cbn [fst snd].
    by rewrite (rv_kind _ _ _ _ Hp), (rv_kind _ _ _ _ Hq), (rv_tokens _ _ _ _ Hp), (rv_tokens _ _ _ _ Hq). }
  unfold step_count, reserved_tokens.
  by rewrite !kind_ids_app, !sumR_app, !Hids, !sumR_one, Hout.
Qed.
End admission.

(** ** The admission loop *)

(** Entries that are the same reservation: the loop keeps the first of two equal
    payloads, an index of the stored events the last. *)
Definition alike (a b : json * payload) : Prop :=
  ∃ rid kind tokens, a.1 = JStr rid ∧ b.1 = JStr rid
  ∧ reservation a.2 rid kind tokens ∧ reservation b.2 rid kind tokens.

Lemma alike_get P R s :
  Forall2 alike P R →
  match jd_get (JStr s) P, jd_get (JStr s) R with
  | Some p, Some r => alike (JStr s, p) (JStr s, r)
  | None, None => True
  | _, _ => False
  end.
Proof.
  induction 1 as [|[k p] [k' r] P R (rid & kind & tokens & Ha & Hb & Hp & Hr) _ IH]; cbn in *; [done|].
  subst. change (py_eq (JStr rid) (JStr s)) with (String.eqb rid s).
  destruct (String.eqb_spec rid s) as [->|]; [|exact IH]. exists s, kind, tokens. done.
Qed.

Lemma alike_put_again P R s p q :
  Forall2 alike P R → jd_get (JStr s) P = Some q → alike (JStr s, q) (JStr s, p) →
  Forall2 alike P (jd_put (JStr s) p R).
Proof.
  induction 1 as [|[k p'] [k' r] P R Hkr HPR IH]; cbn; [done|].
  destruct Hkr as (rid & kind & tokens & Ha & Hb & Hp & Hr). cbn in *. subst.
  change (py_eq (JStr rid) (JStr s)) with (String.eqb rid s).
  destruct (String.eqb_spec rid s) as [->|].
  - intros; simplify_eq. constructor; done.
  - intros. constructor; [|by apply IH]. exists rid, kind, tokens. done.
Qed.

Lemma alike_put_new P R s p :
  Forall2 alike P R → jd_get (JStr s) P = None → alike (JStr s, p) (JStr s, p) →
  Forall2 alike (jd_put (JStr s) p P) (jd_put (JStr s) p R).
Proof.
  intros H Hnone Hp. pose proof (alike_get P R s H) as Hg. rewrite Hnone in Hg.
  destruct (jd_get (JStr s) R) eqn:E; [done|].
  rewrite !jd_put_absent by done. apply Forall2_app; [done|]. by constructor.
Qed.

(** What a run may use. *)
Record limits_of (budget : payload) (max_steps max_tokens : Z) : Prop := {
  lo_steps : py_int (pgetd "max_steps" (JInt 48) budget) = Ok max_steps;
  lo_tokens : py_int (pgetd "max_output_tokens" (JInt 8192) budget) = Ok max_tokens;
}.

(** Proposed events that a run's usage can absorb. *)
Definition absorbable (n : NewEvent) : Prop :=
  ne_type n ∉ ["model.turn.completed"; "tool.call.completed"]
  ∧ (ne_type n = RESERVATION → ∃ rid kind tokens, reservation (ne_payload n) rid kind tokens).

(** The index of stored reservations follows the batch. *)
Definition index_step (R : list (json * payload)) (n : NewEvent) : res (list (json * payload)) :=
  if String.eqb (ne_type n) RESERVATION
  then k ← pget "reservation_id" (ne_payload n); jd_set k (ne_payload n) R
  else Ok R.

Section loop.
Context (M : list (json * payload)) (budget : payload) (max_steps max_tokens : Z).
Hypothesis Hkeys : string_keys M.
Hypothesis Houtput : ∃ n, sumR model_output (dvalues M) = Ok n.
Hypothesis Hlim : limits_of budget max_steps max_tokens.

(** The loop's counters bound what the stored reservations will amount to, and
    are within the budget. *)
Record covers (st : Admission) (R : list (json * payload)) : Prop := {
  cv_alike : Forall2 alike (ad_prior st) R;
  cv_steps : ∃ n, step_count M R = Ok n ∧ n ≤ us_steps_used (ad_used st) ≤ max_steps;
  cv_tokens : ∃ t, reserved_tokens M R = Ok t ∧ t ≤ us_output_tokens_reserved (ad_used st)
    ∧ us_output_tokens (ad_used st) + us_output_tokens_reserved (ad_used st) ≤ max_tokens;
}.

Lemma admit_covers st R n st' :
  covers st R → absorbable n → admit_reservation budget st n = Ok st' →
  ∃ R', index_step R n = Ok R' ∧ covers st' R'
    ∧ us_output_tokens (ad_used st') = us_output_tokens (ad_used st).
Proof.
  intros [Hal (ns & Hns & Hnle) (t & Ht & Htle & Hmax)] [_ Hres] Ha.
  unfold admit_reservation, index_step in *.
  destruct (String.eqb_spec (ne_type n) RESERVATION) as [Hty|]; cbn [negb] in Ha.
  2:{ inv_res. exists R. split_and!; [done|split; eauto|done]. }
  destruct (Hres Hty) as (rid & kind & tokens & Hp). set (p := ne_payload n) in *.
  assert (pget "reservation_id" p = Ok (JStr rid)) as Hid by (unfold pget; by rewrite (rv_id _ _ _ _ Hp)).
  rewrite Hid in *. cbn [mbind res_bind py_str] in *.
  exists (jd_put (JStr rid) p R). split; [done|].
  pose proof (alike_get _ _ rid Hal) as Hg.
  destruct (jd_get (JStr rid) (ad_prior st)) as [q|] eqn:Eq, (jd_get (JStr rid) R) as [r|] eqn:Er;
    try done.
  - destruct (py_eq (JObj q) (JObj p)) eqn:Heq; cbn [negb] in Ha; [|done]. inv_res.
    destruct Hg as (rid' & kind' & tokens' & Hr1 & _ & Hq & Hr). cbn in *. simplify_eq.
    destruct (reservation_eq q p _ _ _ _ _ _ Hq Hp Heq) as [-> ->].
    destruct (reserve_again M R p r rid' rid' kind tokens Hp Hr Er) as [Hs Htk].
    split; [|done]. split.
    + eapply alike_put_again; [done|done|]. exists rid', kind, tokens. done.
    + rewrite Hs. eauto.
    + rewrite Htk. eauto.
  - rewrite (rv_tokens _ _ _ _ Hp) in Ha. unfold pgetn in Ha. rewrite (rv_kind _ _ _ _ Hp) in Ha.
    cbn [from_option id hashable negb is_lit] in Ha.
    rewrite (lo_steps _ _ _ Hlim), (lo_tokens _ _ _ Hlim) in Ha. split_guards. bool_props.
    destruct (reserve_new M Hkeys Houtput R p rid kind tokens ns t) as (n' & t' & Hn' & Hl1 & Ht' & Hl2);
      try done; [|].
    { destruct (String.eqb_spec kind "model"); [by left|]. right. by apply String.eqb_eq. }
    cbn [ad_used ad_prior]. split; [|done]. split; cbn.
    + apply alike_put_new; [done..|]. exists rid, kind, tokens. done.
    + exists n'. split; [done|lia].
    + exists t'. split; [done|lia].
Qed.

Lemma admit_all_covers ns st R st' :
  covers st R → Forall absorbable ns → foldM (admit_reservation budget) ns st = Ok st' →
  ∃ R', foldM index_step ns R = Ok R' ∧ covers st' R'
    ∧ us_output_tokens (ad_used st') = us_output_tokens (ad_used st).
Proof.
  intros Hc Hns. revert st R Hc. induction Hns as [|n ns Hn _ IH]; intros st R Hc Hf; cbn [foldM] in *.
  { inv_res. eauto. }
  apply res_bind_Ok in Hf as (st1 & H1 & H2).
  destruct (admit_covers _ _ _ _ Hc Hn H1) as (R1 & HR1 & Hc1 & Ho1).
  destruct (IH _ _ Hc1 H2) as (R2 & HR2 & Hc2 & Ho2). exists R2. rewrite HR1. cbn.
  split_and!; [done|done|congruence].
Qed.
End loop.

(** ** Usage after the batch is stored *)

(** [usage] from the three indexes. *)
Definition usage_from (R M : list (json * payload)) (T : list (json * json)) : res Usage :=
  reserved_models ← kind_ids "model" R;
  let model_ids := jset_union reserved_models (dkeys M) in
  tool_ids ← kind_ids "tool" R;
  output ← sumR model_output (dvalues M);
  outstanding ← sumR (outstanding_of M) R;
  costs ← mapR model_cost (dvalues M);
  dispatches ← sumR (λ r, m ← jgetd "metadata" (JObj []) r; v ← jgetd "dispatch_started" JNull m;
                          Ok (match v with JBool true => 1 | _ => 0 end)) (dvalues T);
  cost ← (if match costs with [] => false | _ => true end && forallb (λ c, negb (is_none c)) costs
          then fs ← mapR py_float costs; Ok (Some (f64_sum fs)) else Ok None);
  suppressed ← sumR (λ r, v ← jgetd "error_code" JNull r;
                          Ok (if is_lit v "tool_repeat_suppressed" then 1 else 0)) (dvalues T);
  Ok (mkUsage (Z.of_nat (length model_ids) + Z.of_nat (length tool_ids))
        (Z.of_nat (length model_ids)) (Z.of_nat (length tool_ids)) output outstanding dispatches
        cost suppressed).

Lemma usage_unfold events r :
  usage events r =
  (R ← index_events (Some r) RESERVATION "reservation_id" ev_payload events;
   M ← index_events (Some r) "model.turn.completed" "model_call_id" ev_payload events;
   T ← index_events (Some r) "tool.call.completed" "tool_invocation_id"
         (λ e, pgetd "result" (JObj []) (ev_payload e)) events;
   usage_from R M T).
Proof. done. Qed.

Lemma usage_from_inv R M T u :
  usage_from R M T = Ok u →
  step_count M R = Ok (us_steps_used u) ∧ reserved_tokens M R = Ok (us_output_tokens_reserved u)
  ∧ sumR model_output (dvalues M) = Ok (us_output_tokens u).
Proof.
  unfold usage_from, step_count, reserved_tokens. intros Hu. inv_res.
  repeat match goal with H : kind_ids _ _ = Ok _ |- _ => rewrite H; clear H end. by cbn.
Qed.

Lemma usage_from_reserve R R' M T u n t :
  usage_from R M T = Ok u → step_count M R' = Ok n → reserved_tokens M R' = Ok t →
  ∃ u', usage_from R' M T = Ok u' ∧ us_steps_used u' = n ∧ us_output_tokens_reserved u' = t
    ∧ us_output_tokens u' = us_output_tokens u.
Proof.
  unfold usage_from, step_count, reserved_tokens. intros Hu Hn Ht. inv_res.
  match goal with H : sumR (outstanding_of M) R = Ok _ |- _ => clear H end.
  repeat match goal with H : kind_ids _ R = Ok _ |- _ => clear H end.
  repeat match goal with
  | H : ?x = Ok _ |- context [?x] => rewrite H; cbn [mbind res_bind]
  end.
  by eexists.
Qed.

(** A stored event of the run. *)
Definition stored_for (r : string) (e : CanonicalEvent) (n : NewEvent) : Prop :=
  ev_run_id e = Some r ∧ ev_type e = ne_type n ∧ ev_payload e = ne_payload n.

Lemma index_other {V} r ty key (value : CanonicalEvent → V) es ns es' :
  Forall2 (stored_for r) es' ns → Forall (λ n, ne_type n ≠ ty) ns →
  index_events (Some r) ty key value (es ++ es') = index_events (Some r) ty key value es.
Proof.
  intros Hst Hns. unfold index_events. rewrite foldM_app.
  destruct (foldM _ es []) as [d|]; cbn; [|done].
  induction Hst as [|e n es' ns (Hr & Ht & Hp) Hst IH]; [done|].
  apply Forall_cons in Hns as [Hn Hns]. cbn [foldM].
  assert (of_run (Some r) ty e = false) as ->.
  { unfold of_run. rewrite Ht, (proj2 (String.eqb_neq _ _)) by done. apply andb_false_r. }
  cbn [mbind res_bind]. by apply IH.
Qed.

Lemma index_reservations r es ns es' R :
  Forall2 (stored_for r) es' ns →
  index_events (Some r) RESERVATION "reservation_id" ev_payload es = Ok R →
  index_events (Some r) RESERVATION "reservation_id" ev_payload (es ++ es') = foldM index_step ns R.
Proof.
  intros Hst HR. unfold index_events in *. rewrite foldM_app, HR. cbn [mbind res_bind]. clear HR.
  revert R. induction Hst as [|e n es' ns (Hr & Ht & Hp) _ IH]; intros R; [done|].
  cbn [foldM]. assert (of_run (Some r) RESERVATION e = String.eqb (ne_type n) RESERVATION) as ->.
  { unfold of_run. by rewrite Hr, Ht, bool_decide_eq_true_2. }
  unfold index_step at 2. rewrite Hp.
  destruct (String.eqb (ne_type n) RESERVATION); cbn [mbind res_bind]; [|apply IH].
  destruct (pget _ _ ≫= _) as [R1|]; cbn; [apply IH|done].
Qed.

(** The events of a run as the runtime writes them. *)
Definition typed_event (r : string) (e : CanonicalEvent) : Prop :=
  ev_run_id e = Some r →
  (ev_type e = RESERVATION → ∃ rid kind tokens, reservation (ev_payload e) rid kind tokens)
  ∧ (ev_type e = "model.turn.completed" → ∃ s, dget "model_call_id" (ev_payload e) = Some (JStr s)).

Lemma alike_refl_put R p rid kind tokens :
  Forall2 alike R R → reservation p rid kind tokens →
  Forall2 alike (jd_put (JStr rid) p R) (jd_put (JStr rid) p R).
Proof.
  intros HR Hp. assert (alike (JStr rid, p) (JStr rid, p)) as Hpp by (exists rid, kind, tokens; done).
  induction R as [|[k q] R IH]; [by repeat constructor|].
  apply Forall2_cons in HR as [Hkq HR]. cbn [jd_put]. destruct (py_eq k (JStr rid)) eqn:E.
  - apply py_eq_JStr in E. subst. by constructor.
  - constructor; auto.
Qed.

Lemma index_typed r es R :
  Forall (typed_event r) es →
  index_events (Some r) RESERVATION "reservation_id" ev_payload es = Ok R → Forall2 alike R R.
Proof.
  intros Hes. unfold index_events. apply (foldM_inv (λ R, Forall2 alike R R)); [|by constructor].
  intros d e d' He Hd. unfold of_run. destruct (bool_decide _) eqn:Er; cbn [andb]; [|intros; by inv_res].
  destruct (String.eqb_spec (ev_type e) RESERVATION) as [Et|]; [|intros; by inv_res].
  bool_props. rewrite Forall_forall in Hes. destruct (Hes e He Er) as [Hres _].
  destruct (Hres Et) as (rid & kind & tokens & Hp). unfold pget.
  rewrite (rv_id _ _ _ _ Hp). cbn. intros; inv_res. by eapply alike_refl_put.
Qed.

Lemma index_models_typed r es M :
  Forall (typed_event r) es →
  index_events (Some r) "model.turn.completed" "model_call_id" ev_payload es = Ok M → string_keys M.
Proof.
  intros Hes. unfold index_events. apply (foldM_inv string_keys); [|by constructor].
  intros d e d' He Hd. unfold of_run. destruct (bool_decide _) eqn:Er; cbn [andb]; [|intros; by inv_res].
  destruct (String.eqb_spec (ev_type e) "model.turn.completed") as [Et|]; [|intros; by inv_res].
  bool_props. rewrite Forall_forall in Hes. destruct (Hes e He Er) as [_ Hm].
  destruct (Hm Et) as (s & Hs). unfold pget. rewrite Hs. cbn. intros; inv_res. clear -Hd.
  induction d as [|[k q] d IH]; cbn [jd_put]; [repeat constructor; by eexists|].
  apply Forall_cons in Hd as [Hk Hd]. destruct (py_eq k (JStr s)); (constructor; [exact Hk|first [exact Hd | exact (IH Hd)]]).
Qed.

(** Within budget: the run's usage can be read and is within its limits. *)
Definition within_budget (es : list CanonicalEvent) (r : string) (max_steps max_tokens : Z) : Prop :=
  ∃ u, usage es r = Ok u ∧ us_steps_used u ≤ max_steps
    ∧ us_output_tokens u + us_output_tokens_reserved u ≤ max_tokens.

(** C26. Reservations never exceed the budget of their run: if a run with a
    version 2 budget is within its step and token limits, and [govern] accepts a
    batch that reports no usage ([absorbable]: no completed model turn or tool call, and
    reservations as the runtime writes them) on a history that the runtime wrote
    ([typed_event]), then once that batch is stored the run is still within them, counting
    every reservation the batch made.  The usage that a completed call reports is recorded
    whatever it is, and may exceed what was reserved. *)
Theorem govern_keeps_run_budget existing proposed sid root r result new budgets max_steps max_tokens :
  govern existing proposed sid root (Some r) = Ok result →
  run_budgets existing = Ok budgets →
  pgetn "policy_version" (budget_of budgets r) = JStr "2" →
  limits_of (budget_of budgets r) max_steps max_tokens →
  Forall (typed_event r) existing → Forall absorbable result →
  within_budget existing r max_steps max_tokens →
  Forall2 (stored_for r) new result →
  within_budget (existing ++ new) r max_steps max_tokens.
Proof.
  intros Hg Hb Hpol Hlim Hty Habs (u & Hu & Hsteps & Htoks) Hst. unfold govern in Hg.
  rewrite Hb in Hg. cbn [mbind res_bind] in Hg. apply res_bind_Ok in Hg as (result' & _ & Hg).
  cbn [jopt py_str] in Hg. rewrite Hpol in Hg. cbn [is_lit String.eqb Ascii.eqb Bool.eqb negb] in Hg.
  rewrite Hu in Hg. cbn [mbind res_bind] in Hg.
  apply res_bind_Ok in Hg as (R & HR & (st & Hloop & [= ->])%res_bind_Ok).
  rewrite usage_unfold in Hu. rewrite HR in Hu. cbn [mbind res_bind] in Hu.
  apply res_bind_Ok in Hu as (M & HM & (T & HT & Hu)%res_bind_Ok).
  destruct (usage_from_inv _ _ _ _ Hu) as (Hs & Hr & Ho).
  destruct (admit_all_covers M (budget_of budgets r) max_steps max_tokens
    (index_models_typed _ _ _ Hty HM) ltac:(eauto) Hlim result (mkAdmission u R) R st) as (R' & HR' & Hc & Hout);
    [|done|done|].
  { split; cbn; [by eapply index_typed|exists (us_steps_used u); split; [done|lia]
                |exists (us_output_tokens_reserved u); split; [done|lia]]. }
  destruct Hc as [_ (n & Hn & Hnle) (t & Ht & Htle & Hmax)].
  destruct (usage_from_reserve _ R' _ _ _ _ _ Hu Hn Ht) as (u' & Hu' & <- & <- & Ho').
  exists u'. cbn in Hout. split; [|rewrite Ho', <- Hout; lia].
  rewrite usage_unfold, (index_reservations r existing result new R Hst HR), HR'. cbn [mbind res_bind].
  assert (∀ ty, ty ∈ ["model.turn.completed"; "tool.call.completed"] →
     Forall (λ n, ne_type n ≠ ty) result) as Hne.
  { intros ty Hin. eapply Forall_impl; [exact Habs|]. intros n0 [Hn0 _] Heq. by rewrite Heq in Hn0. }
  rewrite (index_other r "model.turn.completed" _ _ existing result new Hst), HM
    by (apply Hne; set_solver).
  cbn [mbind res_bind].
  rewrite (index_other r "tool.call.completed" _ _ existing result new Hst), HT
    by (apply Hne; set_solver).
  exact Hu'.
Qed.

(** ** Allocations of a task tree *)

Lemma configure_scope asked scope : dget "scope_id" (configure asked scope) = Some (JStr scope).
Proof. unfold configure. rewrite !dget_ddel_ne by done. apply dget_dset_eq. Qed.

(** A batch with the allocation written in. *)
Definition with_allocation (configured : payload) (n : NewEvent) : NewEvent :=
  if String.eqb (ne_type n) "child.created"
  then n <| ne_payload := dset "runtime_budget" (JObj configured) (ne_payload n) |>
  else if String.eqb (ne_type n) "run.requested"
  then n <| ne_payload := dset "budget" (JObj configured) (ne_payload n) |>
  else n.

Lemma allocation_checked configured root_budget allocs key total share :
  check_allocation configured root_budget allocs key total share = Ok tt →
  ∃ value given limit, dget key configured = Some (JInt value) ∧ 1 ≤ value
    ∧ allocated key share allocs = Ok given
    ∧ py_int (pgetd ("tree_" +:+ key) (JInt total) root_budget) = Ok limit
    ∧ given + value ≤ limit.
Proof.
  unfold check_allocation, pgetn. destruct (dget key configured) as [[]|]; cbn [from_option id]; try done.
  intros Hc. split_guards. bool_props. eauto 10.
Qed.

Lemma allocations_snoc budgets rid configured scope :
  dget "scope_id" configured = Some (JStr scope) →
  allocations (budgets ++ [(rid, configured)]) scope = allocations budgets scope ++ [configured].
Proof.
  intros Hs. unfold allocations, dvalues. rewrite filter_app, fmap_app. f_equal.
  rewrite filter_cons. cbn [fst snd]. rewrite decide_True; [done|].
  unfold pgetd. rewrite Hs. cbn. apply String.eqb_refl.
Qed.

(** One event of [run_budgets]. *)
Definition budget_step (d : list (string * payload)) (e : CanonicalEvent)
    : res (list (string * payload)) :=
  if String.eqb (ev_type e) "run.requested" then
    match pgetn "budget" (ev_payload e) with
    | JObj budget => r ← pget "run_id" (ev_payload e); Ok (dset (py_str r) budget d)
    | _ => Ok d
    end
  else Ok d.

Definition same_event (e : CanonicalEvent) (n : NewEvent) : Prop :=
  ev_type e = ne_type n ∧ ev_payload e = ne_payload n.

Lemma with_allocation_type configured n : ne_type (with_allocation configured n) = ne_type n.
Proof. unfold with_allocation. by repeat case_match. Qed.

Lemma budget_steps_skip new ns B :
  Forall2 same_event new ns → Forall (λ n, ne_type n ≠ "run.requested") ns →
  foldM budget_step new B = Ok B.
Proof.
  induction 1 as [|e n new ns [Ht _] _ IH]; intros Hns; [done|].
  apply Forall_cons in Hns as [Hn Hns]. cbn [foldM].
  assert (budget_step B e = Ok B) as ->; [|by apply IH].
  unfold budget_step. by rewrite Ht, (proj2 (String.eqb_neq _ _)).
Qed.

(** Storing a batch with one new run adds that run's budget. *)
Lemma run_budgets_stored existing budgets new ns1 n ns2 configured rid :
  run_budgets existing = Ok budgets → rid ∉ dkeys budgets →
  Forall (λ n, ne_type n ≠ "run.requested") ns1 → Forall (λ n, ne_type n ≠ "run.requested") ns2 →
  ne_type n = "run.requested" → dget "run_id" (ne_payload n) = Some (JStr rid) →
  Forall2 same_event new (map (with_allocation configured) (ns1 ++ n :: ns2)) →
  run_budgets (existing ++ new) = Ok (budgets ++ [(rid, configured)]).
Proof.
  intros Hb Hrid H1 H2 Hty Hid Hst. rewrite map_app in Hst.
  apply Forall2_app_inv_r in Hst as (new1 & new2 & Hs1 & Hs2 & ->).
  apply Forall2_cons_inv_r in Hs2 as (e & new2' & [He Hp] & Hs2 & ->).
  change (foldM budget_step existing [] = Ok budgets) in Hb.
  change (run_budgets (existing ++ new1 ++ e :: new2'))
    with (foldM budget_step (existing ++ new1 ++ e :: new2') []).
  rewrite foldM_app, Hb. cbn [mbind res_bind]. rewrite foldM_app.
  assert (∀ l, Forall (λ n, ne_type n ≠ "run.requested") l →
    Forall (λ n, ne_type n ≠ "run.requested") (map (with_allocation configured) l)) as Hmap.
  { intros l Hl. apply Forall_fmap. eapply Forall_impl; [exact Hl|]. intros x Hx. cbn.
    by rewrite with_allocation_type. }
  rewrite (budget_steps_skip new1 _ budgets Hs1) by auto. cbn [mbind res_bind foldM].
  assert (budget_step budgets e = Ok (dset rid configured budgets)) as ->.
  { unfold budget_step. rewrite He, Hp, with_allocation_type, Hty, String.eqb_refl.
    unfold with_allocation. rewrite Hty. cbn -[dset dget]. unfold pgetn, pget.
    rewrite dget_dset_eq. cbn -[dset dget]. by rewrite dget_dset_ne, Hid. }
  cbn [mbind res_bind]. rewrite (budget_steps_skip new2' _ _ Hs2) by auto. f_equal.
  clear -Hrid. induction budgets as [|[k b] l IH]; cbn in *; [done|].
  rewrite decide_False by set_solver. rewrite IH by set_solver. done.
Qed.

(** A Child cannot enlarge its tree: when [govern] accepts a batch that
    starts one run of a Child under a version 2 tree budget, then once it is
    stored the steps and tokens allocated to all runs of the tree, the new one
    included, stay within what the root's budget allows the tree. *)
Theorem govern_keeps_tree_budget existing proposed sid root run result new budgets child prun
    ns1 n ns2 rid :
  govern existing proposed sid root run = Ok result →
  run_budgets existing = Ok budgets →
  proposed_child existing proposed sid root = Some child →
  parent_run existing (py_str (pgetd "parent_session_id" (JStr root) (ne_payload child))) = Ok prun →
  let inherited := budget_of budgets (py_str prun) in
  let scope := py_str (pgetd "scope_id" prun inherited) in
  let tree := default inherited (dget scope budgets) in
  pgetn "policy_version" inherited = JStr "2" →
  proposed = ns1 ++ n :: ns2 →
  Forall (λ n, ne_type n ≠ "run.requested") ns1 → Forall (λ n, ne_type n ≠ "run.requested") ns2 →
  ne_type n = "run.requested" → dget "run_id" (ne_payload n) = Some (JStr rid) →
  rid ∉ dkeys budgets →
  Forall2 same_event new result →
  ∃ budgets', run_budgets (existing ++ new) = Ok budgets' ∧
  ∀ key total share,
    (key, total, share) ∈ [("max_steps", 480, 48); ("max_output_tokens", 81920, 8192)] →
    ∃ given limit, allocated key share (allocations budgets' scope) = Ok given
      ∧ py_int (pgetd ("tree_" +:+ key) (JInt total) tree) = Ok limit ∧ given ≤ limit.
Proof.
  intros Hg Hb Hch Hprun inherited scope tree Hpol Hprop H1 H2 Hty Hid Hrid Hst. unfold govern in Hg.
  rewrite Hb, Hch in Hg. cbn [mbind res_bind] in Hg. apply res_bind_Ok in Hg as (result' & Hgc & Hg).
  assert (result' = result) as ->.
  { case_match; inv_res; congruence. }
  clear Hg. unfold govern_child in Hgc. rewrite Hprun in Hgc. cbn [mbind res_bind] in Hgc.
  fold inherited in Hgc. rewrite Hpol in Hgc. cbn [is_lit String.eqb Ascii.eqb Bool.eqb negb] in Hgc.
  apply res_bind_Ok in Hgc as (asked & _ & Hgc). fold scope in Hgc. fold tree in Hgc.
  set (configured := configure asked scope) in *.
  apply res_bind_Ok in Hgc as ([] & Hsteps & Hgc). apply res_bind_Ok in Hgc as ([] & Htok & Hgc).
  apply res_bind_Ok in Hgc as ([] & _ & [= <-]).
  change (Forall2 same_event new (map (with_allocation configured) proposed)) in Hst.
  rewrite Hprop in Hst.
  exists (budgets ++ [(rid, configured)]). split; [eapply run_budgets_stored; [exact Hb|exact Hrid|exact H1|exact H2|exact Hty|exact Hid|exact Hst]|].
  rewrite (allocations_snoc budgets rid configured scope) by apply configure_scope.
  intros key total share Hin. unfold allocated. rewrite sumR_app, sumR_one.
  assert (check_allocation configured tree (allocations budgets scope) key total share = Ok tt) as Hck.
  { rewrite !elem_of_cons, elem_of_nil in Hin. destruct Hin as [Hin|[Hin|[]]]; by injection Hin as -> -> ->. }
  apply allocation_checked in Hck as (value & given & limit & Hv & Hpos & Hgiven & Hlim & Hle).
  unfold allocated in Hgiven. rewrite Hgiven. unfold pgetd at 1. rewrite Hv. cbn. eauto 10.
Qed.

(** ** Witnesses *)

Module BudgetExamples.
Definition event (sid : string) (run : option string) (ty : string) (p : payload) : CanonicalEvent :=
  mkCanonicalEvent "evt" "t1" "root" sid run 1 ty 0 (mkActor "user" "u") "c" "c" VUser 1 p.
Definition budget : payload :=
  [("policy_version", JStr "2"); ("max_steps", JInt 2); ("max_output_tokens", JInt 100);
   ("tree_max_steps", JInt 60)].
Definition reserve (rid kind : string) (tokens : Z) : payload :=
  [("reservation_id", JStr rid); ("kind", JStr kind); ("output_tokens", JInt tokens)].
Definition history : list CanonicalEvent :=
  [event "root" (Some "r1") "run.requested" [("run_id", JStr "r1"); ("budget", JObj budget)];
   event "root" (Some "r1") RESERVATION (reserve "m1" "model" 40);
   event "root" (Some "r1") "model.turn.completed"
     [("model_call_id", JStr "m1"); ("usage", JObj [("output_tokens", JInt 30)])]].
Definition batch : list NewEvent := [mkNewEvent RESERVATION (reserve "t1" "tool" 0) VUser].
Definition store (sid : string) (n : NewEvent) : CanonicalEvent :=
  event sid (Some "r1") (ne_type n) (ne_payload n).

Lemma reserve_ok rid kind tokens : reservation (reserve rid kind tokens) rid kind tokens.
Proof.
  split; try reflexivity. unfold dict_wf. cbn. repeat constructor; set_solver.
Defined.

Lemma govern_keeps_run_budget_witness :
  within_budget history "r1" 2 100 ∧ within_budget (history ++ map (store "root") batch) "r1" 2 100
  ∧ is_ok (govern (history ++ map (store "root") batch)
             [mkNewEvent RESERVATION (reserve "t2" "tool" 0) VUser] "root" "root" (Some "r1")) = false.
Proof.
  assert (within_budget history "r1" 2 100) as Hw.
  { eexists. split; [vm_compute; reflexivity|]. split; vm_compute; discriminate. }
  split; [exact Hw|]. split; [|vm_compute; reflexivity].
  apply (govern_keeps_run_budget history batch "root" "root" "r1" batch (map (store "root") batch)
           [("r1", budget)] 2 100); [vm_compute; reflexivity..| | | |exact Hw|].
  - split; vm_compute; reflexivity.
  - unfold history. rewrite !Forall_cons. split_and!; [..|by constructor]; intros _; split; intros Hty;
      try (discriminate Hty).
    + exists "m1", "model", 40. apply reserve_ok.
    + exists "m1". reflexivity.
  - apply Forall_singleton. split; [vm_compute; set_solver|].
    intros _. exists "t1", "tool", 0. apply reserve_ok.
  - repeat constructor.
Defined.

(** A Child that asks for ten steps of the tree's sixty; the root has two. *)
Definition child_batch : list NewEvent :=
  [mkNewEvent "child.created"
     [("parent_session_id", JStr "root"); ("runtime_budget", JObj [("max_steps", JInt 10)])] VUser;
   mkNewEvent "run.requested" [("run_id", JStr "r2")] VUser].
Definition child_result : list NewEvent :=
  match govern history child_batch "child" "root" None with Ok l => l | Raise _ _ => [] end.

Lemma govern_keeps_tree_budget_witness :
  ∃ budgets', run_budgets (history ++ map (store "child") child_result) = Ok budgets'
    ∧ allocated "max_steps" 48 (allocations budgets' "r1") = Ok 12.
Proof.
  destruct (govern_keeps_tree_budget history child_batch "child" "root" None child_result
    (map (store "child") child_result) [("r1", budget)]
    (mkNewEvent "child.created"
       [("parent_session_id", JStr "root"); ("runtime_budget", JObj [("max_steps", JInt 10)])] VUser)
    (JStr "r1")
    [mkNewEvent "child.created"
       [("parent_session_id", JStr "root"); ("runtime_budget", JObj [("max_steps", JInt 10)])] VUser]
    (mkNewEvent "run.requested" [("run_id", JStr "r2")] VUser) [] "r2")
    as (budgets' & Hb & _); try (vm_compute; reflexivity).
  - apply Forall_singleton. discriminate.
  - constructor.
  - vm_compute. set_solver.
  - repeat constructor.
  - exists budgets'. split; [exact Hb|]. vm_compute in Hb. injection Hb as <-. vm_compute. reflexivity.
Defined.
End BudgetExamples.
