(* ===== verification/SkillExecution.v ===== *)
(** * Skill executions ([domain/skill_execution.py])

    Which Skill invocations were requested and never settled, and whether a Skill
    package is still referenced by an activation that may yet act. *)

From S2P Require Import Prelude PyValue Contracts.

Definition SKILL_TERMINAL_EVENTS : list string := ["skill.completed"; "skill.failed"; "skill.cancelled"].
Definition RUN_TERMINAL_EVENTS : list string := ["run.completed"; "run.failed"; "run.cancelled"].

(** [(session_id, run_id, activation_id, invocation_id, cycle)] *)
Notation invocation_key := (string * option string * string * string * string)%type.

(** The key of an event that names an invocation. *)
Definition invocation_key_of (e : CanonicalEvent) : option invocation_key :=
  match pgetn "skill_activation_id" (ev_payload e), pgetn "tool_invocation_id" (ev_payload e) with
  | JStr activation, JStr invocation =>
      Some (ev_session_id e, ev_run_id e, activation, invocation,
            py_str (pgetd "invocation_cycle" (JInt 0) (ev_payload e)))
  | _, _ => None
  end.

(** The body of the loop of [pending_skill_invocations]. *)
Definition pending_step (run_id : option string) (pending : list (invocation_key * CanonicalEvent))
    (e : CanonicalEvent) : list (invocation_key * CanonicalEvent) :=
  if match run_id with Some r => negb (bool_decide (ev_run_id e = Some r)) | None => false end
  then pending
  else match invocation_key_of e with
  | None => pending
  | Some key =>
      if String.eqb (ev_type e) "skill.invocation.requested" then dset key e pending
      else if String.eqb (ev_type e) "skill.invocation.settled" then ddel key pending
      else pending
  end.

Definition pending_dict (events : list CanonicalEvent) (run_id : option string)
    : list (invocation_key * CanonicalEvent) := fold_left (pending_step run_id) events [].

Definition pending_skill_invocations (events : list CanonicalEvent) (run_id : option string)
    : list CanonicalEvent := dvalues (pending_dict events run_id).

(** ** References to a package *)

(** An activation: [(session_id, run_id, payload.get("skill_activation_id"))], an
    element of a set. *)
Notation identity := (string * option string * json)%type.

Definition identity_of (e : CanonicalEvent) : res identity :=
  let a := pgetn "skill_activation_id" (ev_payload e) in
  if hashable a then Ok (ev_session_id e, ev_run_id e, a)
  else Raise PyTypeError "unhashable type".

Definition identity_mem (i : identity) (l : list identity) : bool :=
  existsb (λ j, String.eqb j.1.1 i.1.1 && bool_decide (j.1.2 = i.1.2) && py_eq j.2 i.2) l.

Definition run_terminal (events : list CanonicalEvent) (e : CanonicalEvent) : bool :=
  existsb (λ t, str_in (ev_type t) RUN_TERMINAL_EVENTS && String.eqb (ev_session_id t) (ev_session_id e)
                && bool_decide (ev_run_id t = ev_run_id e)) events.

(** The binding of an activation and the Skills it resolved. *)
Definition references (e : CanonicalEvent) : res (list payload) :=
  let binding :=
    match pgetn "activation" (ev_payload e) with
    | JObj a => match pgetn "binding" a with JObj b => b | _ => [] end
    | _ => []
    end in
  resolved ← py_iter (pgetd "resolved_skills" (JArr []) binding);
  Ok (binding :: omap (λ r, match r with JObj d => Some d | _ => None end) resolved).

Definition reference_matches (publisher name : string) (package_digest : option string) (r : payload)
    : bool :=
  match package_digest with
  | Some d => is_lit (pgetn "package_digest" r) d
  | None => is_lit (pgetn "publisher" r) publisher
            && is_lit (pgetd "skill_name" (pgetn "name" r) r) name
  end.

(** One iteration of the last loop: [Some true] ends it. *)
Definition activation_matches (events : list CanonicalEvent) (terminal_skills pending : list identity)
    (publisher name : string) (package_digest : option string) (e : CanonicalEvent) : res bool :=
  if negb (String.eqb (ev_type e) "skill.activated") || bool_decide (ev_run_id e = None)
  then Ok false
  else
  i ← identity_of e;
  if negb (identity_mem i pending) && (identity_mem i terminal_skills || run_terminal events e)
  then Ok false
  else
  refs ← references e;
  if match package_digest with
     | Some d => is_lit (pgetn "package_digest" (ev_payload e)) d | None => false end
  then Ok true
  else Ok (existsb (reference_matches publisher name package_digest) refs).

Fixpoint anyR {A} (f : A → res bool) (l : list A) : res bool :=
  match l with
  | [] => Ok false
  | a :: l => b ← f a; if (b : bool) then Ok true else anyR f l
  end.

Definition has_active_skill_reference (events : list CanonicalEvent) (publisher name : string)
    (package_digest : option string) : res bool :=
  terminal_skills ← mapR identity_of (filter (λ e, ev_type e ∈ SKILL_TERMINAL_EVENTS) events);
  pending ← mapR identity_of (pending_skill_invocations events None);
  anyR (activation_matches events terminal_skills pending publisher name package_digest) events.

(** ** What is pending *)

(** The events that concern an invocation of the selected run. *)
Definition about (run_id : option string) (key : invocation_key) (ty : string) (e : CanonicalEvent) : Prop :=
  ev_type e = ty ∧ invocation_key_of e = Some key
  ∧ (∀ r, run_id = Some r → ev_run_id e = Some r).

Lemma pending_wf events run_id : dict_wf (pending_dict events run_id).
Proof.
  unfold pending_dict. assert (dict_wf (@nil (invocation_key * CanonicalEvent))) as H by constructor.
  revert H. generalize (@nil (invocation_key * CanonicalEvent)).
  induction events as [|e events IH]; intros d Hd; cbn [fold_left]; [done|]. apply IH.
  unfold pending_step. repeat case_match; auto with aura.
Qed.

Lemma pending_snoc events e run_id :
  pending_dict (events ++ [e]) run_id = pending_step run_id (pending_dict events run_id) e.
Proof. unfold pending_dict. by rewrite fold_left_app. Qed.

Lemma pending_step_get run_id d e key :
  dict_wf d →
  (about run_id key "skill.invocation.requested" e ∧ dget key (pending_step run_id d e) = Some e)
  ∨ (about run_id key "skill.invocation.settled" e ∧ dget key (pending_step run_id d e) = None)
  ∨ (¬ about run_id key "skill.invocation.requested" e
     ∧ ¬ about run_id key "skill.invocation.settled" e
     ∧ dget key (pending_step run_id d e) = dget key d).
Proof.
  intros Hd. unfold pending_step, about.
  destruct (match run_id with Some r => _ | None => _ end) eqn:Er.
  { right; right. destruct run_id as [r|]; [|done]. bool_props. naive_solver. }
  assert (∀ r, run_id = Some r → ev_run_id e = Some r) as Hrun.
  { intros r ->. by bool_props. }
  destruct (invocation_key_of e) as [k|]; [|naive_solver].
  destruct (decide (k = key)) as [->|Hne].
  - destruct (String.eqb_spec (ev_type e) "skill.invocation.requested") as [Ht|Ht].
    { left. split; [done|]. apply dget_dset_eq. }
    destruct (String.eqb_spec (ev_type e) "skill.invocation.settled") as [Ht'|Ht'].
    { right; left. split; [done|]. by apply dget_ddel_eq. }
    right; right. naive_solver.
  - right; right. split_and!; [naive_solver|naive_solver|].
    destruct (String.eqb _ "skill.invocation.requested"); [by apply dget_dset_ne|].
    destruct (String.eqb _ "skill.invocation.settled"); [by apply dget_ddel_ne|done].
Qed.

Lemma pending_key events run_id k e :
  dget k (pending_dict events run_id) = Some e → invocation_key_of e = Some k.
Proof.
  induction events as [|y events IH] using rev_ind; [done|]. rewrite pending_snoc.
  destruct (pending_step_get run_id (pending_dict events run_id) y k (pending_wf _ _))
    as [[Ha ->]|[[_ ->]|(_ & _ & ->)]]; [|done|done].
  destruct Ha as (_ & Hk & _). congruence.
Qed.

(** An invocation is pending exactly when it was requested and not settled
    since: [pending_skill_invocations] lists an event if and only if it is the
    last request of its invocation in the selected run and no settlement of that
    invocation follows it; in particular no terminal event of the run removes
    it. *)
Theorem pending_skill_invocations_exact events run_id e key :
  invocation_key_of e = Some key →
  e ∈ pending_skill_invocations events run_id ↔
  ∃ before after, events = before ++ e :: after
    ∧ about run_id key "skill.invocation.requested" e
    ∧ Forall (λ x, ¬ about run_id key "skill.invocation.requested" x
                   ∧ ¬ about run_id key "skill.invocation.settled" x) after.
Proof.
  intros Hkey. transitivity (dget key (pending_dict events run_id) = Some e).
  { unfold pending_skill_invocations. rewrite elem_of_dvalues by apply pending_wf.
    split; [|by eexists]. intros [k Hk]. enough (key = k) as -> by done.
    apply pending_key in Hk. congruence. }
  induction events as [|y events IH] using rev_ind.
  { split; [done|]. intros (before & after & Heq & _). by destruct before. }
  rewrite pending_snoc.
  destruct (pending_step_get run_id (pending_dict events run_id) y key (pending_wf _ _))
    as [[Ha Hg]|[[Ha Hg]|(Hn1 & Hn2 & Hg)]]; rewrite Hg.
  - split.
    + intros [= ->]. exists events, []. split_and!; [done|done|constructor].
    + intros (before & after & Heq & _ & Hall). f_equal.
      destruct after as [|z after _] using rev_ind; [by apply app_inj_tail in Heq as [_ ?]|].
      rewrite app_comm_cons, app_assoc in Heq. apply app_inj_tail in Heq as [_ ->].
      apply Forall_app in Hall as [_ [Hz _]%Forall_singleton]. naive_solver.
  - split; [done|]. intros (before & after & Heq & Hreq & Hall). exfalso.
    destruct after as [|z after _] using rev_ind.
    + apply app_inj_tail in Heq as [_ ->]. destruct Ha as (H1 & _), Hreq as (H2 & _). congruence.
    + rewrite app_comm_cons, app_assoc in Heq. apply app_inj_tail in Heq as [_ ->].
      apply Forall_app in Hall as [_ [_ Hz]%Forall_singleton]. naive_solver.
  - rewrite IH. split; intros (before & after & Heq & Hreq & Hall).
    + exists before, (after ++ [y]). split_and!; [by rewrite Heq, <- app_assoc|done|].
      apply Forall_app. split; [done|]. by apply Forall_singleton.
    + destruct after as [|z after _] using rev_ind.
      * apply app_inj_tail in Heq as [_ ->]. done.
      * rewrite app_comm_cons, app_assoc in Heq. apply app_inj_tail in Heq as [-> ->].
        apply Forall_app in Hall as [Hall _]. eauto.
Qed.

(** ** Pending writes keep their package *)

(** An event whose activation id and references can be read. *)
Definition readable (e : CanonicalEvent) : Prop :=
  hashable (pgetn "skill_activation_id" (ev_payload e)) = true ∧ is_ok (references e) = true.

Lemma identities_ok l :
  Forall readable l →
  mapR identity_of l = Ok ((λ e, (ev_session_id e, ev_run_id e, pgetn "skill_activation_id" (ev_payload e))) <$> l).
Proof.
  intros Hl. apply mapR_id. intros e He. rewrite Forall_forall in Hl.
  destruct (Hl e He) as [Hh _]. unfold identity_of. by rewrite Hh.
Qed.

Lemma anyR_true {A} (f : A → res bool) l a :
  Forall (λ x, is_ok (f x) = true) l → a ∈ l → f a = Ok true → anyR f l = Ok true.
Proof.
  intros Hl Hin Ha. induction Hl as [|x l Hx _ IH]; [by apply elem_of_nil in Hin|].
  cbn. apply elem_of_cons in Hin as [<-|Hin]; [by rewrite Ha|].
  destruct (f x) as [[]|]; cbn; [done|by apply IH|done].
Qed.

Lemma activation_matches_ok events ts ps publisher name digest x :
  readable x → is_ok (activation_matches events ts ps publisher name digest x) = true.
Proof.
  intros [Hh Hr]. unfold activation_matches. destruct (_ || _); [done|].
  unfold identity_of. rewrite Hh. cbn [mbind res_bind]. destruct (_ && _); [done|].
  destruct (references x) as [refs|]; [|done]. cbn. by destruct (match digest with Some _ => _ | None => _ end).
Qed.

Lemma pending_elem events run_id e :
  e ∈ pending_skill_invocations events run_id → e ∈ events ∧ ∃ key, invocation_key_of e = Some key.
Proof.
  unfold pending_skill_invocations. rewrite elem_of_dvalues by apply pending_wf. intros [k Hk].
  split; [|by apply pending_key in Hk; eauto]. revert Hk.
  induction events as [|y events IH] using rev_ind; [done|]. rewrite pending_snoc.
  destruct (pending_step_get run_id (pending_dict events run_id) y k (pending_wf _ _))
    as [[Ha ->]|[[_ ->]|(_ & _ & ->)]]; [intros [= ->]; set_solver|done|set_solver].
Qed.

(** A terminal event does not release a package while one of its writes is
    pending: an activation with an unsettled invocation keeps its package digest
    referenced, whatever run or Skill terminal events the stream holds. *)
Theorem pending_write_keeps_reference events activated e publisher name digest :
  Forall readable events →
  activated ∈ events → ev_type activated = "skill.activated" → ev_run_id activated ≠ None →
  pgetn "package_digest" (ev_payload activated) = JStr digest →
  e ∈ pending_skill_invocations events None →
  ev_session_id e = ev_session_id activated → ev_run_id e = ev_run_id activated →
  pgetn "skill_activation_id" (ev_payload e) = pgetn "skill_activation_id" (ev_payload activated) →
  has_active_skill_reference events publisher name (Some digest) = Ok true.
Proof.
  intros Hr Hin Hty Hrun Hdig He Hs Hrn Hact. unfold has_active_skill_reference.
  pose proof (pending_elem _ _ _ He) as [Hein [key Hkey]].
  rewrite identities_ok.
  2:{ rewrite Forall_forall in Hr |- *. intros x [Hx _]%pending_elem. auto. }
  cbn [mbind res_bind].
  rewrite identities_ok.
  2:{ rewrite Forall_forall in Hr |- *. intros x [_ Hx]%list_elem_of_filter. auto. }
  cbn [mbind res_bind]. eapply (anyR_true _ _ activated).
  { eapply Forall_impl; [exact Hr|]. intros x Hx. by apply activation_matches_ok. }
  { done. }
  rewrite Forall_forall in Hr. destruct (Hr activated Hin) as [Hh Href].
  unfold activation_matches. rewrite Hty, bool_decide_eq_false_2 by done. cbn [negb orb String.eqb Ascii.eqb Bool.eqb].
  unfold identity_of. rewrite Hh. cbn [mbind res_bind].
  assert (identity_mem (ev_session_id activated, ev_run_id activated,
      pgetn "skill_activation_id" (ev_payload activated))
    ((λ e, (ev_session_id e, ev_run_id e, pgetn "skill_activation_id" (ev_payload e))) <$>
      pending_skill_invocations events None) = true) as ->.
  { unfold identity_mem. apply existsb_exists. eexists. split.
    - apply list_elem_of_In, list_elem_of_fmap. eexists. split; [reflexivity|exact He].
    - cbn. rewrite Hs, Hrn, Hact, String.eqb_refl, bool_decide_eq_true_2 by done. cbn.
      unfold invocation_key_of in Hkey. rewrite Hact in Hkey.
      destruct (pgetn "skill_activation_id" (ev_payload activated)); try done. cbn. apply String.eqb_refl. }
  cbn [negb andb]. destruct (references activated) as [refs|]; [|done]. cbn [mbind res_bind].
  rewrite Hdig. cbn. by rewrite String.eqb_refl.
Qed.

(** ** Witnesses *)

Module SkillExamples.
Definition event (ty : string) (p : payload) : CanonicalEvent :=
  mkCanonicalEvent "evt" "t1" "root" "s1" (Some "r1") 1 ty 0 (mkActor "user" "u") "c" "c" VUser 1 p.
Definition activated : CanonicalEvent :=
  event "skill.activated" [("skill_activation_id", JStr "a1"); ("package_digest", JStr "d1")].
Definition requested : CanonicalEvent :=
  event "skill.invocation.requested" [("skill_activation_id", JStr "a1"); ("tool_invocation_id", JStr "i1")].
Definition settled : CanonicalEvent :=
  event "skill.invocation.settled" [("skill_activation_id", JStr "a1"); ("tool_invocation_id", JStr "i1")].
Definition history : list CanonicalEvent :=
  [activated; settled; requested; event "run.completed" [];
   event "skill.completed" [("skill_activation_id", JStr "a1")]].

Lemma pending_skill_invocations_exact_witness :
  requested ∈ pending_skill_invocations history None
  ∧ requested ∉ pending_skill_invocations (history ++ [settled]) None.
Proof.
  split.
  - apply (pending_skill_invocations_exact history None requested ("s1", Some "r1", "a1", "i1", "0") eq_refl).
    exists [activated; settled], [event "run.completed" []; event "skill.completed" [("skill_activation_id", JStr "a1")]].
    split_and!; [reflexivity|split_and!; [reflexivity|reflexivity|discriminate]|].
    repeat constructor; intros (Ht & _); discriminate Ht.
  - vm_compute. set_solver.
Defined.

Lemma pending_write_keeps_reference_witness :
  has_active_skill_reference history "p" "n" (Some "d1") = Ok true
  ∧ has_active_skill_reference (history ++ [settled]) "p" "n" (Some "d1") = Ok false.
Proof.
  split; [|vm_compute; reflexivity].
  apply (pending_write_keeps_reference history activated requested); try reflexivity.
  - repeat constructor.
  - left.
  - discriminate.
  - vm_compute. left.
Defined.
End SkillExamples.
