(* ===== verification/EventStore.v ===== *)
(** * Event store ([infrastructure/persistence/memory_event_store.py])

    Canonical streams with optimistic versions and command deduplication, the
    transactional outbox they feed, and the claim protocol its workers use.  An
    operation returns the store it leaves with its result, since some mutations
    happen before an exception.  [uuid4().hex] and the clock are supplies indexed
    by the number of the call inside the operation. *)

From S2P Require Import Prelude PyValue Contracts Collaboration RuntimeBudget SkillExecution.
Local Open Scope Z_scope.

Definition DELIVERY_TRIGGER_EVENTS : list string :=
  ["approval.requested"; "approval.delegated"; "approval.escalated"; "approval.expired";
   "approval.cancelled"; "run.completed"; "run.failed"; "run.cancelled"; "child.result_published"].
Definition CONTROL_TRIGGER_EVENTS : list string :=
  ["skill.invocation.requested"; "run.requested"; "session.resumed"; "approval.approved";
   "approval.rejected"; "approval.expired"; "approval.cancelled"; "dependency.changed";
   "child.result_published"; "review.completed"; "run.failed"; "run.cancelled"].

Record OutboxRecord := mkOutbox {
  ob_outbox_id : Z;
  ob_event_id : string;
  ob_destination : string;
  ob_event : CanonicalEvent;
  ob_published : bool;
  ob_publish_attempt : Z;
  ob_claimed_by : option string;
  ob_claim_token : option string;
  ob_claim_expires_at : option Z;
  ob_poisoned : bool;
}.
#[global] Instance OutboxRecord_eta : Eta OutboxRecord := λ r,
  mkOutbox (ob_outbox_id r) (ob_event_id r) (ob_destination r) (ob_event r) (ob_published r)
    (ob_publish_attempt r) (ob_claimed_by r) (ob_claim_token r) (ob_claim_expires_at r)
    (ob_poisoned r).

Record SessionSnapshot := mkSnapshot {
  sn_tenant_id : string;
  sn_session_id : string;
  sn_aggregate_version : Z;
  sn_schema_version : Z;
  sn_state : payload;
}.

Record AppendResult := mkAppendResult {
  apr_events : list CanonicalEvent;
  apr_command_result : payload;
  apr_deduplicated : bool;
}.

Record StreamAppend := mkStreamAppend {
  st_session_id : string;
  st_run_id : option string;
  st_expected_version : Z;
  st_events : list NewEvent;
}.

Record ClaimedOutboxRecord := mkClaimed {
  co_outbox_id : string;
  co_event_id : string;
  co_event : CanonicalEvent;
  co_claim_token : string;
  co_attempt : Z;
}.

Notation stream_key := (string * string)%type.
Notation command_key := (string * string * string)%type.

Record EventStore := mkStore {
  es_streams : list (stream_key * list CanonicalEvent);
  es_commands : list (command_key * payload);
  es_outbox : list OutboxRecord;
  es_snapshots : list (stream_key * SessionSnapshot);
}.
#[global] Instance EventStore_eta : Eta EventStore := λ s,
  mkStore (es_streams s) (es_commands s) (es_outbox s) (es_snapshots s).

Definition empty_store : EventStore := mkStore [] [] [] [].

(** ** Reading *)

(** [self._streams.get(key, [])] *)
Definition stream_of (s : EventStore) (k : stream_key) : list CanonicalEvent :=
  default [] (dget k (es_streams s)).

(** [l[:n]] *)
Definition slice_to {A} (n : Z) (l : list A) : list A :=
  if n <? 0 then take (Z.to_nat (Z.of_nat (length l) + n)) l else take (Z.to_nat n) l.

Definition limited {A} (limit : option Z) (l : list A) : list A :=
  match limit with Some n => slice_to n l | None => l end.

Definition type_allowed (event_types : option (list string)) (e : CanonicalEvent) : bool :=
  match event_types with Some l => str_in (ev_type e) l | None => true end.

Definition load (s : EventStore) (tenant_id session_id : string) (from_version : Z)
    (event_types : option (list string)) (limit : option Z) : list CanonicalEvent :=
  limited limit (filter (λ e, (from_version <=? ev_aggregate_version e) && type_allowed event_types e = true)
    (stream_of s (tenant_id, session_id))).

(** The order of [(tenant_id, session_id, aggregate_version)]. *)
Definition position_leb (a b : CanonicalEvent) : bool :=
  if negb (String.eqb (ev_tenant_id a) (ev_tenant_id b))
  then String.ltb (ev_tenant_id a) (ev_tenant_id b)
  else if negb (String.eqb (ev_session_id a) (ev_session_id b))
  then String.ltb (ev_session_id a) (ev_session_id b)
  else ev_aggregate_version a <=? ev_aggregate_version b.

Definition load_all (s : EventStore) (tenant_id : option string) : list CanonicalEvent :=
  py_sorted position_leb
    (concat (map snd (filter (λ kr, match tenant_id with None => true | Some t => String.eqb kr.1.1 t end = true)
                        (es_streams s)))).

(** [(event.session_id, event.aggregate_version) > (after_session_id, after_version)] *)
Definition after_position (sid : string) (v : Z) (e : CanonicalEvent) : bool :=
  if negb (String.eqb (ev_session_id e) sid) then String.ltb sid (ev_session_id e)
  else v <? ev_aggregate_version e.

Definition load_tenant_page (s : EventStore) (tenant_id : string) (after_session_id : option string)
    (after_version : option Z) (limit : Z) : list CanonicalEvent :=
  let events := load_all s (Some tenant_id) in
  slice_to limit
    match after_session_id, after_version with
    | Some sid, Some v => filter (λ e, after_position sid v e = true) events
    | _, _ => events
    end.

Definition has_skill_package_reference (s : EventStore) (tenant_id package_digest : string) : bool :=
  existsb (λ e,
    String.eqb (ev_type e) "skill.activated" &&
    (is_lit (pgetn "package_digest" (ev_payload e)) package_digest
     || match pgetn "activation" (ev_payload e) with
        | JObj a => match pgetn "binding" a with
                    | JObj b => is_lit (pgetn "package_digest" b) package_digest
                    | _ => false
                    end
        | _ => false
        end)) (load_all s (Some tenant_id)).

Definition store_has_active_skill_reference (s : EventStore) (tenant_id publisher name : string)
    (package_digest : option string) : res bool :=
  has_active_skill_reference (load_all s (Some tenant_id)) publisher name package_digest.

(** The events of a root, in the order of the streams. *)
Definition root_events (s : EventStore) (tenant_id root_session_id : string) : list CanonicalEvent :=
  filter (λ e, ev_root_session_id e = root_session_id)
    (concat (map snd (filter (λ kr, kr.1.1 = tenant_id) (es_streams s)))).

Definition load_root (s : EventStore) (tenant_id root_session_id : string)
    (event_types : option (list string)) (limit : option Z) : list CanonicalEvent :=
  limited limit (py_sorted event_key_leb
    (filter (λ e, type_allowed event_types e = true) (root_events s tenant_id root_session_id))).

Definition get_snapshot (s : EventStore) (tenant_id session_id : string) : option SessionSnapshot :=
  dget (tenant_id, session_id) (es_snapshots s).

Definition save_snapshot (s : EventStore) (n : SessionSnapshot) : EventStore :=
  let k := (sn_tenant_id n, sn_session_id n) in
  if match dget k (es_snapshots s) with
     | None => true
     | Some c => sn_aggregate_version c <=? sn_aggregate_version n
     end
  then s <| es_snapshots := dset k n (es_snapshots s) |> else s.

(** ** Appending *)

Definition outbox_entry (id : Z) (destination : string) (e : CanonicalEvent) : OutboxRecord :=
  mkOutbox id (ev_event_id e) destination e false 0 None None None false.

(** Where an event goes, in order. *)
Definition destinations (e : CanonicalEvent) : list string :=
  ["projection"]
  ++ (if str_in (ev_type e) DELIVERY_TRIGGER_EVENTS then ["delivery"] else [])
  ++ (if str_in (ev_type e) CONTROL_TRIGGER_EVENTS then ["control"] else []).

(** [_append_outbox_records]; each record is numbered when it is appended. *)
Definition append_outbox_records (outbox : list OutboxRecord) (e : CanonicalEvent)
    : list OutboxRecord :=
  fold_left (λ ob d, ob ++ [outbox_entry (Z.of_nat (length ob) + 1) d e]) (destinations e) outbox.

(** Supplies of one operation. *)
Record Supply := mkSupply {
  su_uuid : nat → string;
  su_now : nat → Z;
}.

(** The stored form of the [i]th event of the operation, at [version]. *)
Definition store_event (su : Supply) (cx : CommandContext) (root_session_id session_id : string)
    (run_id : option string) (i : nat) (version : Z) (e : NewEvent) : CanonicalEvent :=
  mkCanonicalEvent ("evt_" +:+ su_uuid su i) (cx_tenant_id cx) root_session_id session_id run_id
    version (ne_type e) (su_now su i) (cx_actor cx) (cx_correlation_id cx)
    (if opt_truthy (cx_causation_id cx) then default EmptyString (cx_causation_id cx)
     else cx_command_id cx)
    (ne_visibility e) 1 (ne_payload e).

(** [for offset, event in enumerate(events, start=1)], from the [i]th event of the
    operation on. *)
Definition store_events (su : Supply) (cx : CommandContext) (root_session_id session_id : string)
    (run_id : option string) (i : nat) (expected : Z) (events : list NewEvent) : list CanonicalEvent :=
  imap (λ o e, store_event su cx root_session_id session_id run_id (i + o)
                 (expected + Z.of_nat o + 1) e) events.

Definition command_key_of (cx : CommandContext) : command_key :=
  (cx_tenant_id cx, cx_operation cx, cx_command_id cx).

(** The answer to a command that was seen before. *)
Definition replayed_command (previous command_result : payload) : res AppendResult :=
  if negb (py_eq (pgetn "_request_fingerprint" command_result) (pgetn "_request_fingerprint" previous))
  then Raise VersionConflictError "command was reused with a different request"
  else Ok (mkAppendResult [] previous true).

Definition version_conflict {A} (expected actual : Z) : res A :=
  Raise VersionConflictError
    ("expected Session version " +:+ pretty expected +:+ ", got " +:+ pretty actual).

Definition append (su : Supply) (root_session_id session_id : string) (run_id : option string)
    (cx : CommandContext) (events : list NewEvent) (command_result : payload) (s : EventStore)
    : EventStore * res AppendResult :=
  match dget (command_key_of cx) (es_commands s) with
  | Some previous => (s, replayed_command previous command_result)
  | None =>
      let k := (cx_tenant_id cx, session_id) in
      let s := s <| es_streams := dsetdefault k [] (es_streams s) |> in
      let stream := stream_of s k in
      if negb (Z.of_nat (length stream) =? cx_expected_version cx)
      then (s, version_conflict (cx_expected_version cx) (Z.of_nat (length stream)))
      else match govern (root_events s (cx_tenant_id cx) root_session_id) events session_id
                   root_session_id run_id with
      | Raise c m => (s, Raise c m)
      | Ok governed =>
          let canonical := store_events su cx root_session_id session_id run_id 0
                             (cx_expected_version cx) governed in
          (s <| es_streams := dset k (stream ++ canonical) (es_streams s) |>
             <| es_commands := dset (command_key_of cx) command_result (es_commands s) |>
             <| es_outbox := fold_left append_outbox_records canonical (es_outbox s) |>,
           Ok (mkAppendResult canonical command_result false))
      end
  end.

(** One item of [append_batch]: the root's events so far (stored and staged), the
    number of events staged, and the staged events of each stream. *)
Definition batch_item (su : Supply) (cx : CommandContext) (root_session_id : string)
    (st : list CanonicalEvent * list CanonicalEvent * list (string * list CanonicalEvent))
    (item : StreamAppend)
    : res (list CanonicalEvent * list CanonicalEvent * list (string * list CanonicalEvent)) :=
  let '(root, canonical, by_stream) := st in
  governed ← govern root (st_events item) (st_session_id item) root_session_id (st_run_id item);
  let stored := store_events su cx root_session_id (st_session_id item) (st_run_id item)
                  (length canonical) (st_expected_version item) governed in
  Ok (root ++ stored, canonical ++ stored, dset (st_session_id item) stored by_stream).

(** [self._streams.setdefault(key, []).extend(events)] *)
Definition extend_stream (tenant_id : string) (streams : list (stream_key * list CanonicalEvent))
    (kv : string * list CanonicalEvent) : list (stream_key * list CanonicalEvent) :=
  let k := (tenant_id, kv.1) in
  dset k (default [] (dget k streams) ++ kv.2) streams.

Definition check_versions (s : EventStore) (tenant_id : string) (appends : list StreamAppend) : res unit :=
  foldM (λ _ item,
    let actual := Z.of_nat (length (stream_of s (tenant_id, st_session_id item))) in
    if negb (actual =? st_expected_version item)
    then version_conflict (st_expected_version item) actual else Ok tt) appends tt.

Definition append_batch (su : Supply) (root_session_id : string) (cx : CommandContext)
    (appends : list StreamAppend) (command_result : payload) (s : EventStore)
    : EventStore * res AppendResult :=
  match appends with
  | [] => (s, Raise PyValueError "batch append requires at least one stream")
  | _ =>
  let session_ids := map st_session_id appends in
  if negb (Nat.eqb (length (fromkeys session_ids)) (length session_ids))
  then (s, Raise PyValueError "batch append session ids must be unique")
  else match dget (command_key_of cx) (es_commands s) with
  | Some previous => (s, replayed_command previous command_result)
  | None =>
      match (_ ← check_versions s (cx_tenant_id cx) appends;
             foldM (batch_item su cx root_session_id) appends
               (root_events s (cx_tenant_id cx) root_session_id, [], [])) with
      | Raise c m => (s, Raise c m)
      | Ok (_, canonical, by_stream) =>
          (s <| es_streams := fold_left (extend_stream (cx_tenant_id cx)) by_stream (es_streams s) |>
             <| es_commands := dset (command_key_of cx) command_result (es_commands s) |>
             <| es_outbox := fold_left append_outbox_records canonical (es_outbox s) |>,
           Ok (mkAppendResult canonical command_result false))
      end
  end
  end.

(** ** The outbox *)

(** The first record that satisfies a test, changed in place. *)
Fixpoint update_first (P : OutboxRecord → bool) (f : OutboxRecord → OutboxRecord)
    (l : list OutboxRecord) : list OutboxRecord :=
  match l with
  | [] => []
  | r :: l => if P r then f r :: l else r :: update_first P f l
  end.

Fixpoint find_first (P : OutboxRecord → bool) (l : list OutboxRecord) : option OutboxRecord :=
  match l with
  | [] => None
  | r :: l => if P r then Some r else find_first P l
  end.

Definition pending_for (destination : string) (s : EventStore) : list OutboxRecord :=
  filter (λ r, ob_published r = false ∧ ob_poisoned r = false ∧ ob_destination r = destination)
    (es_outbox s).
Definition pending_outbox : EventStore → list OutboxRecord := pending_for "projection".
Definition pending_delivery_outbox : EventStore → list OutboxRecord := pending_for "delivery".

Definition mark_outbox_published (id : Z) (s : EventStore) : EventStore :=
  s <| es_outbox := update_first (λ r, ob_outbox_id r =? id)
         (λ r, r <| ob_published := true |>) (es_outbox s) |>.

Definition mark_outbox_failed (id : Z) (s : EventStore) : EventStore :=
  s <| es_outbox := update_first (λ r, ob_outbox_id r =? id)
         (λ r, let r := r <| ob_publish_attempt := ob_publish_attempt r + 1 |> in
               if String.eqb (ob_destination r) "projection" && (5 <=? ob_publish_attempt r)
               then r <| ob_poisoned := true |> else r) (es_outbox s) |>.

Definition session_key (r : OutboxRecord) : stream_key :=
  (ev_tenant_id (ob_event r), ev_session_id (ob_event r)).

Definition claim_expired (now : Z) (r : OutboxRecord) : bool :=
  match ob_claim_expires_at r with Some t => t <=? now | None => false end.

Definition claimable (now : Z) (r : OutboxRecord) : bool :=
  (match ob_claimed_by r with None => true | Some _ => claim_expired now r end)
  && negb (ob_poisoned r).

Definition take_claim (now ttl : Z) (worker_id token : string) (r : OutboxRecord) : OutboxRecord :=
  r <| ob_claimed_by := Some worker_id |> <| ob_claim_token := Some token |>
    <| ob_claim_expires_at := Some (now + ttl) |>
    <| ob_publish_attempt := ob_publish_attempt r + 1 |>.

Definition claimed_of (token : string) (r : OutboxRecord) : ClaimedOutboxRecord :=
  mkClaimed (pretty (ob_outbox_id r)) (ob_event_id r) (ob_event r) token (ob_publish_attempt r).

(** The loop of [_claim_outbox_once]: the records changed in place and the claims. *)
Fixpoint claim_loop (destination worker_id : string) (limit ttl now : Z) (uuid : nat → string)
    (blocked : list stream_key) (claimed : list ClaimedOutboxRecord) (records : list OutboxRecord)
    : list OutboxRecord * list ClaimedOutboxRecord :=
  match records with
  | [] => ([], claimed)
  | r :: rest =>
      let continue blocked claimed r :=
        let '(rest, claimed) := claim_loop destination worker_id limit ttl now uuid blocked claimed rest in
        (r :: rest, claimed) in
      if negb (String.eqb (ob_destination r) destination) || ob_published r
      then continue blocked claimed r
      else if decide (session_key r ∈ blocked) then continue blocked claimed r
      else
      let blocked := session_key r :: blocked in
      if negb (claimable now r) then continue blocked claimed r
      else
      let token := "clm_" +:+ uuid (length claimed) in
      let r := take_claim now ttl worker_id token r in
      let claimed := claimed ++ [claimed_of token r] in
      if limit <=? Z.of_nat (length claimed) then (r :: rest, claimed)
      else continue blocked claimed r
  end.

Definition claim_outbox_once (destination worker_id : string) (limit ttl now : Z) (uuid : nat → string)
    (s : EventStore) : EventStore * list ClaimedOutboxRecord :=
  let '(outbox, claimed) :=
    claim_loop destination worker_id limit ttl now uuid [] [] (es_outbox s) in
  (s <| es_outbox := outbox |>, claimed).

Definition has_outbox_id (id : string) (r : OutboxRecord) : bool :=
  String.eqb (pretty (ob_outbox_id r)) id.

(** The worker holds the live claim. *)
Definition holds (destination worker_id claim_token : string) (now : Z) (r : OutboxRecord) : bool :=
  String.eqb (ob_destination r) destination
  && bool_decide (ob_claimed_by r = Some worker_id)
  && bool_decide (ob_claim_token r = Some claim_token)
  && match ob_claim_expires_at r with Some t => now <? t | None => false end.

Definition release (r : OutboxRecord) : OutboxRecord :=
  r <| ob_claimed_by := None |> <| ob_claim_token := None |> <| ob_claim_expires_at := None |>.

(** The effect of a disposition on the record, when it is a known one. *)
Definition dispose (destination disposition : string) (r : OutboxRecord) : option OutboxRecord :=
  if String.eqb disposition "ack" then Some (r <| ob_published := true |>)
  else if String.eqb disposition "poison" then Some (r <| ob_poisoned := true |>)
  else if String.eqb disposition "nack" then
    Some (if String.eqb destination "projection" && (5 <=? ob_publish_attempt r)
          then r <| ob_poisoned := true |> else r)
  else None.

Definition disposition_outbox (destination worker_id outbox_id claim_token disposition : string)
    (now : Z) (s : EventStore) : EventStore * bool :=
  match find_first (has_outbox_id outbox_id) (es_outbox s) with
  | None => (s, false)
  | Some r =>
      if negb (holds destination worker_id claim_token now r) then (s, false)
      else match dispose destination disposition r with
      | None => (s, false)
      | Some r' => (s <| es_outbox := update_first (has_outbox_id outbox_id) (λ _, release r')
                           (es_outbox s) |>, true)
      end
  end.

Definition redrivable (destination event_id : string) (r : OutboxRecord) : bool :=
  String.eqb (ob_destination r) destination && String.eqb (ob_event_id r) event_id
  && ob_poisoned r && negb (ob_published r).

Definition redrive_outbox (destination event_id : string) (s : EventStore) : EventStore * bool :=
  match find_first (redrivable destination event_id) (es_outbox s) with
  | None => (s, false)
  | Some _ =>
      (s <| es_outbox := update_first (redrivable destination event_id)
              (λ r, release (r <| ob_poisoned := false |> <| ob_publish_attempt := 0 |>))
              (es_outbox s) |>, true)
  end.

(** ** Histories *)

Inductive StoreOp :=
  | OpAppend (su : Supply) (root sid : string) (run : option string) (cx : CommandContext)
      (events : list NewEvent) (result : payload)
  | OpBatch (su : Supply) (root : string) (cx : CommandContext) (appends : list StreamAppend)
      (result : payload)
  | OpSnapshot (n : SessionSnapshot)
  | OpPublished (id : Z)
  | OpFailed (id : Z)
  | OpClaim (destination worker : string) (limit ttl now : Z) (uuid : nat → string)
  | OpDispose (destination worker id token disposition : string) (now : Z)
  | OpRedrive (destination event_id : string).

Definition run_op (s : EventStore) (op : StoreOp) : EventStore :=
  match op with
  | OpAppend su root sid run cx events result => (append su root sid run cx events result s).1
  | OpBatch su root cx appends result => (append_batch su root cx appends result s).1
  | OpSnapshot n => save_snapshot s n
  | OpPublished id => mark_outbox_published id s
  | OpFailed id => mark_outbox_failed id s
  | OpClaim d w limit ttl now uuid => (claim_outbox_once d w limit ttl now uuid s).1
  | OpDispose d w id token disposition now => (disposition_outbox d w id token disposition now s).1
  | OpRedrive d eid => (redrive_outbox d eid s).1
  end.

Definition run_ops (ops : list StoreOp) : EventStore := fold_left run_op ops empty_store.

Lemma run_ops_ind (P : EventStore → Prop) (Q : StoreOp → Prop) :
  P empty_store → (∀ s op, Q op → P s → P (run_op s op)) →
  ∀ ops, Forall Q ops → P (run_ops ops).
Proof.
  intros H0 Hs ops. unfold run_ops. generalize empty_store H0. clear H0.
  induction ops as [|op ops IH]; intros s Hp HQ; cbn; [done|].
  apply Forall_cons in HQ as [Hq HQ]. auto.
Qed.

(** ** Streams *)

(** The events of a stream carry its key and count up from 1. *)
Definition stream_ok (k : stream_key) (l : list CanonicalEvent) : Prop :=
  ∀ i e, l !! i = Some e →
    ev_aggregate_version e = Z.of_nat i + 1 ∧ ev_tenant_id e = k.1 ∧ ev_session_id e = k.2.

Definition streams_ok (streams : list (stream_key * list CanonicalEvent)) : Prop :=
  dict_wf streams ∧ ∀ k l, dget k streams = Some l → stream_ok k l.

Lemma stream_ok_nil k : stream_ok k [].
Proof. by intros i e. Qed.

Lemma stream_of_ok s k : streams_ok (es_streams s) → stream_ok k (stream_of s k).
Proof.
  intros [_ H]. unfold stream_of. destruct (dget k (es_streams s)) eqn:E; [by apply H|apply stream_ok_nil].
Qed.

Lemma stream_ok_app k l new : 
  stream_ok k l →
  (∀ i e, new !! i = Some e → ev_aggregate_version e = Z.of_nat (length l) + Z.of_nat i + 1
     ∧ ev_tenant_id e = k.1 ∧ ev_session_id e = k.2) →
  stream_ok k (l ++ new).
Proof.
  intros Hl Hn i e Hi. apply lookup_app_Some in Hi as [Hi|[Hge Hi]]; [by apply Hl|].
  apply Hn in Hi as (Hv & Ht & Hs). split_and!; [|done|done]. rewrite Hv. lia.
Qed.

Lemma streams_ok_set k l streams :
  streams_ok streams → stream_ok k l → streams_ok (dset k l streams).
Proof.
  intros [Hwf Hs] Hl. split; [by apply dset_wf|]. intros k' l'. rewrite dget_dset.
  case_decide; intros; simplify_eq; auto.
Qed.

Lemma dsetdefault_dset {K V} `{EqDecision K} (k : K) (v : V) d :
  dsetdefault k v d = dset k (default v (dget k d)) d.
Proof.
  unfold dsetdefault. destruct (dget k d) as [w|] eqn:E; cbn; [|done].
  revert E. induction d as [|[k' v'] d IH]; cbn; [done|]. case_decide as Hk; intros H.
  - by simplify_eq.
  - by rewrite <- IH.
Qed.

(** All stored events, stream by stream. *)
Definition stored_events (streams : list (stream_key * list CanonicalEvent)) : list CanonicalEvent :=
  concat (map snd streams).

Lemma stored_events_extend k new streams :
  stored_events (dset k (default [] (dget k streams) ++ new) streams) ≡ₚ stored_events streams ++ new.
Proof.
  unfold stored_events. induction streams as [|[k' l] streams IH]; cbn; [by rewrite app_nil_r|].
  case_decide; cbn.
  - rewrite <- !app_assoc. apply Permutation_app_head, Permutation_app_comm.
  - by rewrite IH, <- app_assoc.
Qed.

Lemma stored_events_setdefault k streams :
  stored_events (dsetdefault k [] streams) ≡ₚ stored_events streams.
Proof.
  rewrite dsetdefault_dset. pose proof (stored_events_extend k [] streams) as H.
  by rewrite !app_nil_r in H.
Qed.

(** What [store_events] stores. *)
Lemma store_events_lookup su cx root sid run i0 expected ns i e :
  store_events su cx root sid run i0 expected ns !! i = Some e →
  ev_aggregate_version e = expected + Z.of_nat i + 1 ∧ ev_tenant_id e = cx_tenant_id cx
  ∧ ev_session_id e = sid ∧ ev_root_session_id e = root ∧ ev_run_id e = run
  ∧ ∃ n, ns !! i = Some n ∧ ev_type e = ne_type n ∧ ev_payload e = ne_payload n.
Proof.
  unfold store_events. rewrite list_lookup_imap. destruct (ns !! i) as [n|]; [|done].
  intros [= <-]. cbn. split_and!; [done..|]. eauto.
Qed.

(** ** The outbox as a log of the streams *)

Definition route (r : OutboxRecord) : CanonicalEvent * string := (ob_event r, ob_destination r).
Definition routes_of (e : CanonicalEvent) : list (CanonicalEvent * string) := map (pair e) (destinations e).

(** Records are numbered by their position and carry their event's id. *)
Definition numbered (outbox : list OutboxRecord) : Prop :=
  ∀ i r, outbox !! i = Some r →
    ob_outbox_id r = Z.of_nat i + 1 ∧ ob_event_id r = ev_event_id (ob_event r).

Lemma numbered_snoc outbox d e :
  numbered outbox → numbered (outbox ++ [outbox_entry (Z.of_nat (length outbox) + 1) d e]).
Proof.
  intros H i r Hi. apply lookup_app_Some in Hi as [Hi|[Hge Hi]]; [by apply H|].
  apply list_lookup_singleton_Some in Hi as [Hi <-]. cbn. split; [|done]. lia.
Qed.

Lemma append_records_spec outbox e :
  numbered outbox →
  numbered (append_outbox_records outbox e)
  ∧ map route (append_outbox_records outbox e) = map route outbox ++ routes_of e
  ∧ ∃ new, append_outbox_records outbox e = outbox ++ new
      ∧ Forall (λ r, ob_published r = false ∧ ob_claimed_by r = None) new.
Proof.
  unfold append_outbox_records, routes_of. generalize (destinations e) as ds. intros ds. revert outbox.
  induction ds as [|d ds IH]; intros outbox Hn; cbn.
  { rewrite app_nil_r. split_and!; [done|done|]. exists []. by rewrite app_nil_r. }
  destruct (IH _ (numbered_snoc outbox d e Hn)) as (H1 & H2 & new & H3 & H4).
  split_and!; [done| |].
  - rewrite H2, map_app, <- app_assoc. done.
  - eexists (_ :: new). rewrite H3, <- app_assoc. split; [done|]. by constructor.
Qed.

Lemma append_all_records_spec outbox es :
  numbered outbox →
  numbered (fold_left append_outbox_records es outbox)
  ∧ map route (fold_left append_outbox_records es outbox) = map route outbox ++ (es ≫= routes_of)
  ∧ ∃ new, fold_left append_outbox_records es outbox = outbox ++ new
      ∧ Forall (λ r, ob_published r = false ∧ ob_claimed_by r = None) new.
Proof.
  revert outbox. induction es as [|e es IH]; intros outbox Hn; cbn [fold_left mbind list_bind].
  { rewrite app_nil_r. split_and!; [done|done|]. exists []. by rewrite app_nil_r. }
  destruct (append_records_spec outbox e Hn) as (H1 & H2 & new & H3 & H4).
  destruct (IH _ H1) as (I1 & I2 & new' & I3 & I4). split_and!; [done| |].
  - rewrite I2, H2, <- app_assoc. done.
  - exists (new ++ new'). rewrite I3, H3, <- app_assoc. split; [done|]. by apply Forall_app.
Qed.

(** ** Batches *)

(** The stored form of an event: its type, and its payload but for the budget. *)
Definition stored_from (root : string) (n : NewEvent) (e : CanonicalEvent) : Prop :=
  ev_type e = ne_type n ∧ ev_root_session_id e = root
  ∧ (∀ k, k ≠ governed_key (ne_type n) → dget k (ev_payload e) = dget k (ne_payload n))
  ∧ (dget (governed_key (ne_type n)) (ev_payload e) = dget (governed_key (ne_type n)) (ne_payload n)
     ∨ ∃ d, dget (governed_key (ne_type n)) (ev_payload e) = Some (JObj d)).

Lemma store_events_from su cx root sid run i0 expected ns ns' :
  Forall2 governed_from ns ns' → Forall2 (stored_from root) ns (store_events su cx root sid run i0 expected ns').
Proof.
  intros Hf. unfold store_events. apply Forall2_same_length_lookup. split.
  { rewrite length_imap. by eapply Forall2_length. }
  intros i n e Hn He. rewrite list_lookup_imap in He. destruct (ns' !! i) as [n'|] eqn:Hn'; [|done].
  injection He as <-. destruct (Forall2_lookup_lr _ _ _ _ _ _ Hf Hn Hn') as (H1 & _ & H2 & H3). by split_and!.
Qed.

(** What one item stages. *)
Definition staged_for (root : string) (cx : CommandContext) (item : StreamAppend)
    (kv : string * list CanonicalEvent) : Prop :=
  kv.1 = st_session_id item
  ∧ (∀ i e, kv.2 !! i = Some e → ev_aggregate_version e = st_expected_version item + Z.of_nat i + 1
       ∧ ev_tenant_id e = cx_tenant_id cx ∧ ev_session_id e = st_session_id item)
  ∧ Forall2 (stored_from root) (st_events item) kv.2.

Lemma batch_items_spec su cx root appends root0 canonical by_stream st :
  foldM (batch_item su cx root) appends (root0, canonical, by_stream) = Ok st →
  NoDup (dkeys by_stream ++ map st_session_id appends) →
  ∃ added, st = (root0 ++ concat (map snd added), canonical ++ concat (map snd added), by_stream ++ added)
    ∧ Forall2 (staged_for root cx) appends added.
Proof.
  revert root0 canonical by_stream. induction appends as [|item appends IH];
    intros root0 canonical by_stream Hf Hnd; cbn [foldM] in Hf.
  { inv_res. exists []. rewrite !app_nil_r. split; [done|constructor]. }
  apply res_bind_Ok in Hf as (st1 & H1 & H2). unfold batch_item in H1.
  apply res_bind_Ok in H1 as (governed & Hgov & H1). injection H1 as <-.
  set (stored := store_events _ _ _ _ _ _ _ _) in *.
  assert (st_session_id item ∉ dkeys by_stream) as Hfresh.
  { apply NoDup_app in Hnd as (_ & Hd & _). intros Hin. apply (Hd _ Hin). cbn. by left. }
  rewrite dset_fresh in H2 by done.
  apply IH in H2 as (added & -> & Hadd).
  - exists ((st_session_id item, stored) :: added). cbn. rewrite <- !app_assoc. split; [done|].
    constructor; [|done]. split_and!; [done| |by eapply store_events_from, govern_from]. intros i e Hi. cbn in Hi.
    apply store_events_lookup in Hi as (? & ? & ? & _). done.
  - unfold dkeys. rewrite fmap_app. cbn. rewrite <- app_assoc. done.
Qed.

Lemma check_versions_ok s tid appends :
  check_versions s tid appends = Ok tt ↔
  Forall (λ item, st_expected_version item
            = Z.of_nat (length (stream_of s (tid, st_session_id item)))) appends.
Proof.
  unfold check_versions. rewrite foldM_unit. apply Forall_iff. intros item.
  destruct (Z.eqb_spec (Z.of_nat (length (stream_of s (tid, st_session_id item))))
              (st_expected_version item)); cbn; naive_solver.
Qed.

Definition extend_streams (tid : string) (streams : list (stream_key * list CanonicalEvent))
    (added : list (string * list CanonicalEvent)) : list (stream_key * list CanonicalEvent) :=
  fold_left (extend_stream tid) added streams.

Lemma extend_streams_get tid added streams k :
  NoDup (dkeys added) →
  default [] (dget k (extend_streams tid streams added)) =
  default [] (dget k streams) ++ (if decide (k.1 = tid) then default [] (dget k.2 added) else []).
Proof.
  unfold extend_streams. revert streams. induction added as [|[sid new] added IH]; intros streams Hnd; cbn.
  { case_decide; by rewrite app_nil_r. }
  unfold dkeys in Hnd. cbn in Hnd. apply NoDup_cons in Hnd as [Hsid Hnd]. rewrite IH by done.
  unfold extend_stream. cbn. rewrite dget_dset. destruct k as [t s]. cbn.
  destruct (decide ((t, s) = (tid, sid))) as [Heq|Hne].
  - injection Heq as -> ->. cbn. rewrite !decide_True by done. cbn.
    assert (dget sid added = None) as -> by (by apply dget_None). cbn. by rewrite app_nil_r.
  - destruct (decide (t = tid)) as [->|]; [|done]. rewrite (decide_False (P := s = sid)); [done|].
    intros ->. done.
Qed.

Lemma extend_streams_perm tid added streams :
  stored_events (extend_streams tid streams added) ≡ₚ stored_events streams ++ concat (map snd added).
Proof.
  unfold extend_streams. revert streams. induction added as [|[sid new] added IH];
    intros streams; cbn [fold_left map concat snd].
  { by rewrite app_nil_r. }
  rewrite IH. unfold extend_stream. cbn [fst snd]. rewrite stored_events_extend. by rewrite <- app_assoc.
Qed.

Lemma extend_streams_ok tid added streams :
  streams_ok streams → NoDup (dkeys added) →
  (∀ sid new i e, (sid, new) ∈ added → new !! i = Some e →
     ev_aggregate_version e = Z.of_nat (length (default [] (dget (tid, sid) streams))) + Z.of_nat i + 1
     ∧ ev_tenant_id e = tid ∧ ev_session_id e = sid) →
  streams_ok (extend_streams tid streams added).
Proof.
  unfold extend_streams. revert streams. induction added as [|[sid new] added IH];
    intros streams Hok Hnd Hadd; cbn [fold_left]; [done|].
  unfold dkeys in Hnd. cbn in Hnd. apply NoDup_cons in Hnd as [Hsid Hnd].
  apply IH; [|done|].
  - unfold extend_stream. cbn. apply streams_ok_set; [done|].
    apply stream_ok_app.
    + destruct Hok as [_ Hs]. destruct (dget (tid, sid) streams) eqn:E; [by apply Hs|apply stream_ok_nil].
    + intros i e Hi. apply (Hadd sid new i e); [by left|done].
  - intros sid' new' i e Hin Hi. unfold extend_stream. cbn. rewrite dget_dset_ne.
    + apply (Hadd sid' new' i e); [by right|done].
    + intros [= ->]. apply Hsid. apply list_elem_of_fmap. by exists (sid, new').
Qed.

Lemma staged_keys_of root cx appends added :
  Forall2 (staged_for root cx) appends added → dkeys added = map st_session_id appends.
Proof. induction 1 as [|item kv ? ? [Hk _] _ IH]; [done|]. cbn. unfold dkeys in *. by rewrite Hk, IH. Qed.

Lemma fromkeys_length_NoDup {A} `{EqDecision A} (l : list A) :
  length (fromkeys l) = length l → NoDup l.
Proof.
  intros Hlen. assert (fromkeys l ⊆+ l) as Hsub.
  { apply NoDup_submseteq; [apply fromkeys_NoDup|]. intros x. by rewrite elem_of_fromkeys. }
  apply submseteq_length_Permutation in Hsub; [|lia]. rewrite <- Hsub. apply fromkeys_NoDup.
Qed.

(** The successful runs of [append_batch]. *)
Lemma append_batch_inv su root cx appends result s s' a :
  append_batch su root cx appends result s = (s', Ok a) →
  (∃ previous, dget (command_key_of cx) (es_commands s) = Some previous ∧ s' = s
     ∧ apr_deduplicated a = true ∧ apr_events a = [] ∧ apr_command_result a = previous)
  ∨ (dget (command_key_of cx) (es_commands s) = None ∧ ∃ added,
     Forall2 (staged_for root cx) appends added ∧ NoDup (dkeys added)
     ∧ Forall (λ item, st_expected_version item
          = Z.of_nat (length (stream_of s (cx_tenant_id cx, st_session_id item)))) appends
     ∧ a = mkAppendResult (concat (map snd added)) result false
     ∧ s' = s <| es_streams := extend_streams (cx_tenant_id cx) (es_streams s) added |>
              <| es_commands := dset (command_key_of cx) result (es_commands s) |>
              <| es_outbox := fold_left append_outbox_records (concat (map snd added)) (es_outbox s) |>).
Proof.
  unfold append_batch. destruct appends as [|item0 rest]; [done|]. set (appends := item0 :: rest).
  destruct (Nat.eqb_spec (length (fromkeys (map st_session_id appends)))
              (length (map st_session_id appends))) as [Hlen|]; cbn [negb]; [|done].
  apply fromkeys_length_NoDup in Hlen.
  destruct (dget (command_key_of cx) (es_commands s)) as [previous|] eqn:Ec.
  { unfold replayed_command. destruct (negb _); intros; simplify_eq. left. by exists previous. }
  destruct (check_versions s (cx_tenant_id cx) appends) as [[]|] eqn:Ev; [|done]. cbn [mbind res_bind].
  destruct (foldM _ appends _) as [[[r c] b]|] eqn:Ef; [|done]. intros Heq. simplify_eq.
  apply batch_items_spec in Ef as (added & Est & Hadd); [|done]. cbn in Est. simplify_eq.
  right. split; [done|]. exists added. split_and!; [done| | |done|done].
  - by rewrite (staged_keys_of _ _ _ _ Hadd).
  - by apply check_versions_ok.
Qed.

(** ** Single appends *)

Lemma stream_of_setdefault (k k' : stream_key) streams :
  default [] (dget k (dsetdefault k' [] streams)) = (default [] (dget k streams) : list CanonicalEvent).
Proof.
  rewrite dsetdefault_dset, dget_dset. case_decide; subst; [|done]. cbn. by destruct (dget k' streams).
Qed.

Definition observed_same (s s' : EventStore) : Prop :=
  (∀ k, stream_of s' k = stream_of s k) ∧ es_commands s' = es_commands s
  ∧ es_outbox s' = es_outbox s ∧ es_snapshots s' = es_snapshots s.

(** The runs of [append], by outcome. *)
Lemma append_inv su root sid run cx events result s s' r :
  append su root sid run cx events result s = (s', r) →
  let k := (cx_tenant_id cx, sid) in
  match r with
  | Raise _ _ => s' = s ∨ s' = s <| es_streams := dsetdefault k [] (es_streams s) |>
  | Ok a =>
      (∃ previous, dget (command_key_of cx) (es_commands s) = Some previous ∧ s' = s
         ∧ a = mkAppendResult [] previous true)
      ∨ (dget (command_key_of cx) (es_commands s) = None
         ∧ cx_expected_version cx = Z.of_nat (length (stream_of s k))
         ∧ ∃ governed, a = mkAppendResult
             (store_events su cx root sid run 0 (cx_expected_version cx) governed) result false
         ∧ s' = s <| es_streams := dset k (stream_of s k ++ apr_events a)
                                     (dsetdefault k [] (es_streams s)) |>
                  <| es_commands := dset (command_key_of cx) result (es_commands s) |>
                  <| es_outbox := fold_left append_outbox_records (apr_events a) (es_outbox s) |>)
  end.
Proof.
  unfold append. destruct (dget (command_key_of cx) (es_commands s)) as [previous|] eqn:Ec.
  { unfold replayed_command. destruct (negb _); intros; simplify_eq; [by left|]. left. by exists previous. }
  set (s1 := s <| es_streams := dsetdefault (cx_tenant_id cx, sid) [] (es_streams s) |>).
  assert (stream_of s1 (cx_tenant_id cx, sid) = stream_of s (cx_tenant_id cx, sid)) as Hst.
  { apply stream_of_setdefault. }
  destruct (Z.eqb_spec (Z.of_nat (length (stream_of s1 (cx_tenant_id cx, sid)))) (cx_expected_version cx))
    as [Hv|]; cbn [negb]; [|intros; simplify_eq; by right].
  destruct (govern _ _ _ _ _) as [governed|] eqn:Eg; [|intros; simplify_eq; by right].
  intros; simplify_eq. right. rewrite Hst in *. split_and!; [done|done|]. eexists. split; [reflexivity|done].
Qed.

(** A refused append may have created the entry of an empty stream; nothing a reader
    sees changes. *)
Lemma append_refused su root sid run cx events result s s' c m :
  append su root sid run cx events result s = (s', Raise c m) → observed_same s s'.
Proof.
  intros Ha%append_inv. destruct Ha as [->| ->]; [done|]. split; [|done].
  intros k. apply stream_of_setdefault.
Qed.

(** ** Updates in place *)

Lemma update_first_split P f l r :
  find_first P l = Some r →
  ∃ l1 l2, l = l1 ++ r :: l2 ∧ P r = true ∧ update_first P f l = l1 ++ f r :: l2.
Proof.
  induction l as [|x l IH]; cbn; [done|]. destruct (P x) eqn:E.
  - intros; simplify_eq. by exists [], l.
  - intros (l1 & l2 & -> & Hp & ->)%IH. by exists (x :: l1), l2.
Qed.

Lemma update_first_none P f l : find_first P l = None → update_first P f l = l.
Proof. induction l as [|x l IH]; cbn; [done|]. destruct (P x); [done|]. intros. by rewrite IH. Qed.

(** What no operation changes in a record. *)
Definition ob_core (r : OutboxRecord) : Z * string * string * CanonicalEvent :=
  (ob_outbox_id r, ob_event_id r, ob_destination r, ob_event r).

Lemma update_first_core P f l :
  (∀ r, ob_core (f r) = ob_core r) → map ob_core (update_first P f l) = map ob_core l.
Proof.
  intros Hf. induction l as [|x l IH]; cbn; [done|]. destruct (P x); cbn; [by rewrite Hf|by rewrite IH].
Qed.

Lemma claim_loop_core d w limit ttl now uuid blocked claimed l :
  map ob_core (claim_loop d w limit ttl now uuid blocked claimed l).1 = map ob_core l.
Proof.
  revert blocked claimed. induction l as [|r l IH]; intros blocked claimed; cbn [claim_loop]; [done|].
  repeat match goal with
  | |- context [if ?b then _ else _] => destruct b
  | |- context [let '(_, _) := claim_loop ?d ?w ?li ?t ?n ?u ?b ?c l in _] =>
      specialize (IH b c); destruct (claim_loop d w li t n u b c l)
  end; cbn in *; by rewrite ?IH.
Qed.

Lemma core_lookup l l' i r :
  map ob_core l' = map ob_core l → l' !! i = Some r → ∃ r0, l !! i = Some r0 ∧ ob_core r0 = ob_core r.
Proof.
  intros Heq Hi. pose proof (list_lookup_fmap ob_core l' i) as H. rewrite Hi in H.
  change (ob_core <$> l') with (map ob_core l') in H. rewrite Heq in H.
  change (map ob_core l) with (ob_core <$> l) in H. rewrite list_lookup_fmap in H.
  destruct (l !! i) as [r0|]; [|done]. cbn in H. exists r0. split; [done|congruence].
Qed.

Lemma numbered_core l l' : map ob_core l' = map ob_core l → numbered l → numbered l'.
Proof.
  intros Heq Hn i r Hi. destruct (core_lookup _ _ _ _ Heq Hi) as (r0 & H0 & Hc).
  apply Hn in H0. injection Hc as H1 H2 _ H4. by rewrite <- H1, <- H2, <- H4.
Qed.

Lemma route_core l l' : map ob_core l' = map ob_core l → map route l' = map route l.
Proof.
  intros Heq. assert (∀ l, map route l = map (λ c, (c.2, c.1.2)) (map ob_core l)) as H.
  { intros l0. rewrite map_map. done. }
  by rewrite !H, Heq.
Qed.

(** Operations that only touch records in place. *)
Definition in_place (op : StoreOp) : bool :=
  match op with OpAppend _ _ _ _ _ _ _ | OpBatch _ _ _ _ _ => false | _ => true end.

Lemma dispose_core d disposition r r' : dispose d disposition r = Some r' → ob_core r' = ob_core r.
Proof. unfold dispose. intros. repeat case_match; by simplify_eq. Qed.

Lemma in_place_core s op :
  in_place op = true →
  es_streams (run_op s op) = es_streams s ∧ es_commands (run_op s op) = es_commands s
  ∧ map ob_core (es_outbox (run_op s op)) = map ob_core (es_outbox s).
Proof.
  destruct op as [| |n|id|id|d w limit ttl now uuid|d w id token disp now|d eid]; try done; intros _;
    cbn [run_op].
  - unfold save_snapshot. by case_match.
  - unfold mark_outbox_published. cbn. split_and!; [done|done|]. by apply update_first_core.
  - unfold mark_outbox_failed. cbn. split_and!; [done|done|]. apply update_first_core.
    intros r. by case_match.
  - unfold claim_outbox_once.
    pose proof (claim_loop_core d w limit ttl now uuid [] [] (es_outbox s)) as H.
    destruct (claim_loop _ _ _ _ _ _ _ _ _). by cbn in *.
  - unfold disposition_outbox. destruct (find_first _ _) as [r|] eqn:Ef; [|done].
    destruct (negb _); [done|]. destruct (dispose d disp r) as [r'|] eqn:Ed; [|done].
    cbn. split_and!; [done|done|].
    destruct (update_first_split _ (λ _, release r') _ _ Ef) as (l1 & l2 & Hl & _ & ->). rewrite Hl.
    rewrite !map_app. cbn. apply dispose_core in Ed. rewrite <- Ed. done.
  - unfold redrive_outbox. destruct (find_first _ _) as [r|]; [|done].
    cbn. split_and!; [done|done|]. by apply update_first_core.
Qed.

(** ** The invariant of the store *)

Record store_ok (s : EventStore) : Prop := {
  so_streams : streams_ok (es_streams s);
  so_numbered : numbered (es_outbox s);
  so_routes : map route (es_outbox s) ≡ₚ stored_events (es_streams s) ≫= routes_of;
}.

Lemma append_keeps_ok su root sid run cx events result s :
  store_ok s → store_ok (append su root sid run cx events result s).1.
Proof.
  intros [Hs Hn Hr]. destruct (append su root sid run cx events result s) as [s' r] eqn:Ea. cbn [fst].
  apply append_inv in Ea. set (k := (cx_tenant_id cx, sid)) in *.
  assert (streams_ok (dsetdefault k [] (es_streams s))) as Hd.
  { rewrite dsetdefault_dset. apply streams_ok_set; [done|]. by apply (stream_of_ok s). }
  destruct r as [a|c m].
  - destruct Ea as [(previous & _ & -> & _)|(_ & Hv & governed & -> & ->)]; [done|].
    cbn [apr_events]. set (new := store_events _ _ _ _ _ _ _ _).
    destruct (append_all_records_spec (es_outbox s) new Hn) as (H1 & H2 & _).
    split; cbn -[stored_events].
    + apply streams_ok_set; [done|]. apply stream_ok_app; [by apply stream_of_ok|].
      intros i e Hi. apply store_events_lookup in Hi as (? & ? & ? & _). rewrite <- Hv. done.
    + done.
    + rewrite H2, Hr.
      assert (stream_of s k = default [] (dget k (dsetdefault k [] (es_streams s)))) as ->.
      { unfold stream_of. by rewrite stream_of_setdefault. }
      rewrite stored_events_extend, stored_events_setdefault. by rewrite bind_app.
  - destruct Ea as [->| ->]; [done|]. split; cbn -[stored_events]; [done|done|].
    by rewrite stored_events_setdefault.
Qed.

Lemma append_batch_keeps_ok su root cx appends result s :
  store_ok s → store_ok (append_batch su root cx appends result s).1.
Proof.
  intros Hok. destruct (append_batch su root cx appends result s) as [s' r] eqn:Ea. cbn [fst].
  destruct r as [a|c m].
  - apply append_batch_inv in Ea as [(previous & _ & -> & _)|(_ & added & Hadd & Hnd & Hv & -> & ->)];
      [done|]. destruct Hok as [Hs Hn Hr].
    destruct (append_all_records_spec (es_outbox s) (concat (map snd added)) Hn) as (H1 & H2 & _).
    split; cbn -[stored_events].
    + apply extend_streams_ok; [done|done|]. intros sid new i e Hin Hi.
      apply list_elem_of_lookup in Hin as [j Hj].
      destruct (Forall2_lookup_r _ _ _ _ _ Hadd Hj) as (item & Hitem & Hk & Hst). cbn in *. subst sid.
      apply Hst in Hi as (Hver & Ht & Hsid).
      assert (st_expected_version item
        = Z.of_nat (length (stream_of s (cx_tenant_id cx, st_session_id item)))) as Hexp
        by (by eapply (Forall_lookup_1 _ _ _ _ Hv)).
      rewrite Hver, Hexp. done.
    + done.
    + rewrite H2, Hr, extend_streams_perm. by rewrite bind_app.
  - unfold append_batch in Ea. repeat case_match; simplify_eq; done.
Qed.

Lemma empty_ok : store_ok empty_store.
Proof. split; [split; [constructor|done]|by intros i r|constructor]. Qed.

Lemma op_keeps_ok s op : store_ok s → store_ok (run_op s op).
Proof.
  intros Hok. destruct (in_place op) eqn:Ei.
  - destruct (in_place_core s op Ei) as (Hs & _ & Hc). destruct Hok as [H1 H2 H3].
    split; [by rewrite Hs|by eapply numbered_core|by rewrite (route_core _ _ Hc), Hs].
  - destruct op; try done; [by apply append_keeps_ok|by apply append_batch_keeps_ok].
Qed.

(** *** Who settles records *)

(** The operation does not publish records of destination [d]. *)
Definition leaves (d : string) (op : StoreOp) : Prop :=
  match op with
  | OpPublished _ => False
  | OpDispose d' _ _ _ disposition _ => d' ≠ d ∨ disposition ≠ "ack"
  | _ => True
  end.

(** [l'] has no published record of [d] that [l] has not. *)
Definition publishes_nothing (d : string) (l l' : list OutboxRecord) : Prop :=
  ∀ r', r' ∈ l' → ob_destination r' = d → ob_published r' = true →
    ∃ r, r ∈ l ∧ ob_core r = ob_core r' ∧ ob_published r = true.

Lemma publishes_nothing_app d l new :
  Forall (λ r, ob_published r = false ∧ ob_claimed_by r = None) new → publishes_nothing d l (l ++ new).
Proof.
  intros Hn r' [Hr|Hr]%elem_of_app Hd Hp; [by exists r'|]. rewrite Forall_forall in Hn.
  destruct (Hn _ Hr). congruence.
Qed.

Lemma publishes_nothing_update d P f l :
  (∀ r, P r = true → r ∈ l → ob_core (f r) = ob_core r
        ∧ (ob_destination r = d → ob_published (f r) = true → ob_published r = true)) →
  publishes_nothing d l (update_first P f l).
Proof.
  intros Hf. induction l as [|x l IH]; cbn; [by intros r' ?%not_elem_of_nil|]. destruct (P x) eqn:Ex.
  - intros r' [->|Hr]%elem_of_cons Hd Hp; [|exists r'; split_and!; [by right|done..]].
    destruct (Hf x Ex) as [Hc Hpub]; [left|]. exists x. split_and!; [left|done|].
    apply Hpub; [|done]. injection Hc as _ _ Hc _. congruence.
  - intros r' [->|Hr]%elem_of_cons Hd Hp; [exists x; split_and!; [left|done..]|].
    destruct (IH (λ r H1 H2, Hf r H1 (list_elem_of_further _ _ _ H2)) r' Hr Hd Hp) as (r & Hin & ?).
    exists r. split; [by right|done].
Qed.

Lemma publishes_nothing_claim d w limit ttl now uuid blocked claimed l d' :
  publishes_nothing d' l (claim_loop d w limit ttl now uuid blocked claimed l).1.
Proof.
  revert blocked claimed. induction l as [|r l IH]; intros blocked claimed; cbn [claim_loop].
  { by intros r' ?%not_elem_of_nil. }
  assert (∀ x l', ob_core x = ob_core r → ob_published x = ob_published r →
            publishes_nothing d' l l' → publishes_nothing d' (r :: l) (x :: l')) as Hcons.
  { intros x l' Hc Hp Hl r' [->|Hr]%elem_of_cons Hd' Hp'.
    - exists r. split_and!; [left|done|congruence].
    - destruct (Hl r' Hr Hd' Hp') as (r0 & ? & ?). exists r0. split; [by right|done]. }
  assert (publishes_nothing d' l l) as Hrefl by (intros r' ? _ ?; by exists r').
  repeat match goal with
  | |- context [if ?b then _ else _] => destruct b
  | |- context [let '(_, _) := claim_loop ?d ?w ?li ?t ?n ?u ?b ?c l in _] =>
      specialize (IH b c); destruct (claim_loop d w li t n u b c l)
  end; cbn [fst] in *; by apply Hcons.
Qed.

Lemma op_publishes_nothing s op d :
  store_ok s → leaves d op → publishes_nothing d (es_outbox s) (es_outbox (run_op s op)).
Proof.
  intros Hok Hop. assert (publishes_nothing d (es_outbox s) (es_outbox s)) as Hrefl
    by (intros r' ? _ ?; by exists r').
  destruct op as [su root sid run cx events result|su root cx appends result
    |n|id|id|d' w limit ttl now uuid|d' w id token disp now|d' eid]; cbn [run_op leaves] in *.
  - destruct (append su root sid run cx events result s) as [s' r] eqn:Ea. apply append_inv in Ea. cbn [fst].
    destruct r as [a|c m]; [|by destruct Ea as [->| ->]].
    destruct Ea as [(previous & _ & -> & _)|(_ & _ & governed & -> & ->)]; [done|].
    edestruct append_all_records_spec as (_ & _ & new & Hn & Hf); [apply Hok|]. cbn. rewrite Hn.
    by apply publishes_nothing_app.
  - destruct (append_batch su root cx appends result s) as [s' r] eqn:Ea. cbn [fst].
    destruct r as [a|c m]; [|unfold append_batch in Ea; repeat case_match; by simplify_eq].
    apply append_batch_inv in Ea as [(previous & _ & -> & _)|(_ & added & _ & _ & _ & -> & ->)]; [done|].
    edestruct append_all_records_spec as (_ & _ & new & Hn & Hf); [apply Hok|]. cbn. rewrite Hn.
    by apply publishes_nothing_app.
  - unfold save_snapshot. by case_match.
  - done.
  - apply publishes_nothing_update. intros r _ _. cbv beta zeta. by destruct (_ && _).
  - unfold claim_outbox_once.
    pose proof (publishes_nothing_claim d' w limit ttl now uuid [] [] (es_outbox s) d) as Hc.
    by destruct (claim_loop _ _ _ _ _ _ _ _ _).
  - unfold disposition_outbox. destruct (find_first _ _) as [r|] eqn:Ef; [|done].
    destruct (negb _) eqn:Eh; [done|]. bool_props. unfold holds in Eh. bool_props. subst d'.
    destruct (dispose _ _ r) as [r'|] eqn:Ed; [|done]. pose proof (dispose_core _ _ _ _ Ed) as Hc. cbn.
    destruct (update_first_split _ (λ _, release r') _ _ Ef) as (l1 & l2 & Hl & _ & ->). rewrite Hl.
    intros x Hx Hxd Hxp. apply elem_of_app in Hx as [Hx|[->|Hx]%elem_of_cons].
    + exists x. split; [|done]. apply elem_of_app. by left.
    + cbn in Hxd, Hxp. exists r. split_and!; [apply elem_of_app; right; left|by rewrite <- Hc|].
      injection Hc as _ _ Hcd _. unfold dispose in Ed.
      destruct Hop as [Hop|Hop]; [congruence|]. repeat case_match; bool_props; by simplify_eq.
    + exists x. split; [|done]. apply elem_of_app. right. by right.
  - unfold redrive_outbox. destruct (find_first _ _); [|done]. cbn.
    apply publishes_nothing_update. by intros.
Qed.

(** The outbox only grows, up to the state of its records. *)
Lemma op_outbox_core s op :
  store_ok s → ∃ new, map ob_core (es_outbox (run_op s op)) = map ob_core (es_outbox s) ++ new.
Proof.
  intros Hok. destruct (in_place op) eqn:Ei.
  { exists []. rewrite app_nil_r. by apply in_place_core. }
  destruct op as [su root sid run cx events result|su root cx appends result| | | | | |]; try done;
    cbn [run_op].
  - destruct (append su root sid run cx events result s) as [s' r] eqn:Ea. apply append_inv in Ea. cbn [fst].
    destruct r as [a|c m]; [|exists []; rewrite app_nil_r; by destruct Ea as [->| ->]].
    destruct Ea as [(previous & _ & -> & _)|(_ & _ & governed & -> & ->)]; [exists []; by rewrite app_nil_r|].
    edestruct append_all_records_spec as (_ & _ & new & Hn & Hf); [apply Hok|]. cbn. rewrite Hn, map_app.
    by eexists.
  - destruct (append_batch su root cx appends result s) as [s' r] eqn:Ea. cbn [fst].
    destruct r as [a|c m].
    + apply append_batch_inv in Ea as [(previous & _ & -> & _)|(_ & added & _ & _ & _ & -> & ->)];
        [exists []; by rewrite app_nil_r|].
      edestruct append_all_records_spec as (_ & _ & new & Hn & Hf); [apply Hok|]. cbn. rewrite Hn, map_app.
      by eexists.
    + exists []. rewrite app_nil_r. unfold append_batch in Ea. repeat case_match; by simplify_eq.
Qed.

(** C1. Whatever is done to a store, its streams stay gapless and its outbox
    complete: in every store reached from the empty one, the events of a stream
    carry its tenant and Session and the versions 1, 2, 3, ...; outbox records
    are numbered by position; and the outbox holds exactly one record for each
    stored event and each of its destinations. *)
Theorem store_history_consistent ops : store_ok (run_ops ops).
Proof.
  apply (run_ops_ind store_ok (λ _, True)); [apply empty_ok| |by apply Forall_true].
  intros. by apply op_keeps_ok.
Qed.

(** ** What an append does *)

(** An append either extends its stream or changes nothing that can be
    observed: a repeated command returns the stored result; otherwise an accepted
    append required the exact current version, adds its events to that stream
    only, gapless from the expected version, and records the command; a refused
    one leaves streams, commands, outbox and snapshots as they were. *)
Theorem append_outcome su root sid run cx events result s s' r :
  append su root sid run cx events result s = (s', r) →
  match r with
  | Raise _ _ => observed_same s s'
  | Ok a =>
      if apr_deduplicated a
      then s' = s ∧ apr_events a = []
           ∧ dget (command_key_of cx) (es_commands s) = Some (apr_command_result a)
      else let k := (cx_tenant_id cx, sid) in
        Z.of_nat (length (stream_of s k)) = cx_expected_version cx
        ∧ stream_of s' k = stream_of s k ++ apr_events a
        ∧ (∀ k', k' ≠ k → stream_of s' k' = stream_of s k')
        ∧ (∀ i e, apr_events a !! i = Some e →
             ev_aggregate_version e = cx_expected_version cx + Z.of_nat i + 1)
        ∧ dget (command_key_of cx) (es_commands s) = None
        ∧ dget (command_key_of cx) (es_commands s') = Some result
  end.
Proof.
  intros Ha%append_inv. destruct r as [a|c m].
  - destruct Ha as [(previous & Hp & -> & ->)|(Hnone & Hv & governed & -> & ->)]; [done|].
    cbn [apr_deduplicated apr_events]. split_and!; [done| | | |done|].
    + unfold stream_of at 1. cbn. by rewrite dget_dset_eq.
    + intros k' Hne. unfold stream_of at 1. cbn. rewrite dget_dset_ne by done.
      by rewrite stream_of_setdefault.
    + intros i e Hi. by apply store_events_lookup in Hi as (? & _).
    + cbn. by rewrite dget_dset_eq.
  - destruct Ha as [->| ->]; [done|]. split_and!; [|done..].
    intros k. unfold stream_of. cbn. apply stream_of_setdefault.
Qed.

Lemma append_known su root sid run cx events result s previous :
  dget (command_key_of cx) (es_commands s) = Some previous →
  append su root sid run cx events result s = (s, replayed_command previous result).
Proof. intros H. unfold append. by rewrite H. Qed.

(** Commands are idempotent: after an append was accepted, the same command
    with the same request fingerprint changes nothing and returns the first
    result, and with another fingerprint it is refused. *)
Theorem append_idempotent su root sid run cx events result s s' a f
    su2 root2 sid2 run2 events2 result2 f2 :
  append su root sid run cx events result s = (s', Ok a) → apr_deduplicated a = false →
  pgetn "_request_fingerprint" result = JStr f →
  pgetn "_request_fingerprint" result2 = JStr f2 →
  append su2 root2 sid2 run2 cx events2 result2 s' =
  (s', if String.eqb f2 f then Ok (mkAppendResult [] result true)
       else Raise VersionConflictError "command was reused with a different request").
Proof.
  intros Ha%append_inv Hd Hf Hf2.
  destruct Ha as [(previous & Hp & -> & ->)|(Hnone & Hv & governed & -> & ->)]; [done|].
  rewrite (append_known _ _ _ _ _ _ _ _ result) by (cbn; apply dget_dset_eq).
  unfold replayed_command. rewrite Hf, Hf2. cbn. by destruct (String.eqb f2 f).
Qed.

(** A batch is all or nothing: if [append_batch] raises, the store is
    untouched; if it commits, every item had the exact version of its stream, each
    stream of the batch is extended by its own part of the stored events and no
    other stream changes. *)
Theorem append_batch_atomic su root cx appends result s s' r :
  append_batch su root cx appends result s = (s', r) →
  match r with
  | Raise _ _ => s' = s
  | Ok a =>
      if apr_deduplicated a
      then s' = s ∧ dget (command_key_of cx) (es_commands s) = Some (apr_command_result a)
      else ∃ parts, length parts = length appends ∧ concat parts = apr_events a
        ∧ (∀ i item part, appends !! i = Some item → parts !! i = Some part →
             let k := (cx_tenant_id cx, st_session_id item) in
             Z.of_nat (length (stream_of s k)) = st_expected_version item
             ∧ stream_of s' k = stream_of s k ++ part)
        ∧ (∀ k, (k.1 = cx_tenant_id cx → k.2 ∉ map st_session_id appends) →
             stream_of s' k = stream_of s k)
  end.
Proof.
  intros Ha. destruct r as [a|c m]; [|unfold append_batch in Ha; repeat case_match; by simplify_eq].
  apply append_batch_inv in Ha as [(previous & Hp & -> & -> & Hev & ->)|(_ & added & Hadd & Hnd & Hv & -> & ->)];
    [done|]. cbn [apr_deduplicated apr_events].
  pose proof (staged_keys_of _ _ _ _ Hadd) as Hkeys.
  assert (∀ k, stream_of (s <| es_streams := extend_streams (cx_tenant_id cx) (es_streams s) added |>
      <| es_commands := dset (command_key_of cx) result (es_commands s) |>
      <| es_outbox := fold_left append_outbox_records (concat (map snd added)) (es_outbox s) |>) k
      = stream_of s k ++ (if decide (k.1 = cx_tenant_id cx) then default [] (dget k.2 added) else []))
    as Hget by (intros k; by apply extend_streams_get).
  exists (map snd added). split_and!; [|done| |].
  - rewrite length_map. symmetry. by eapply Forall2_length.
  - intros i item part Hi Hpart. cbn zeta. split; [symmetry; by eapply (Forall_lookup_1 _ _ _ _ Hv)|].
    rewrite Hget. cbn. rewrite decide_True by done. f_equal.
    destruct (Forall2_lookup_l _ _ _ _ _ Hadd Hi) as ([sid new] & Hj & Hk & _). cbn in Hk. subst sid.
    change (map snd added) with (snd <$> added) in Hpart. rewrite list_lookup_fmap, Hj in Hpart.
    cbn in Hpart. simplify_eq. rewrite (elem_dget _ part); [done|done|]. by eapply list_elem_of_lookup_2.
  - intros k Hk. rewrite Hget. case_decide as Ht; [|by rewrite app_nil_r].
    rewrite (proj2 (dget_None _ _)); [by rewrite app_nil_r|]. rewrite Hkeys. auto.
Qed.

(** ** Claims *)

(** The record at position [j] may be claimed: it is unpublished, free and not
    poisoned, and everything before it for the same destination and Session is
    published. *)
Definition next_in_line (destination : string) (now : Z) (l : list OutboxRecord) (j : nat)
    (r : OutboxRecord) : Prop :=
  l !! j = Some r ∧ ob_destination r = destination ∧ ob_published r = false ∧ claimable now r = true
  ∧ ∀ i ri, (i < j)%nat → l !! i = Some ri → ob_destination ri = destination →
      session_key ri = session_key r → ob_published ri = true.

Section claim.
Context (destination worker_id : string) (limit ttl now : Z) (uuid : nat → string).

(** Each record is kept, or claimed while next in line (and not blocked). *)
Definition claim_outcome (blocked : list stream_key) (l l' : list OutboxRecord) : Prop :=
  length l' = length l ∧
  ∀ j r', l' !! j = Some r' → ∃ r, l !! j = Some r ∧
    (r' = r ∨ ∃ token, r' = take_claim now ttl worker_id token r
       ∧ next_in_line destination now l j r ∧ session_key r ∉ blocked).

Lemma claim_outcome_refl blocked l : claim_outcome blocked l l.
Proof. split; [done|]. intros j r' Hj. eauto. Qed.

Lemma claim_outcome_skip blocked r l l' :
  ob_destination r ≠ destination ∨ ob_published r = true ∨ session_key r ∈ blocked →
  claim_outcome blocked l l' → claim_outcome blocked (r :: l) (r :: l').
Proof.
  intros Hr [Hlen H]. split; [cbn; lia|]. intros [|j] r' Hj; cbn in Hj; [simplify_eq; exists r'; eauto|].
  apply H in Hj as (x & Hx & [->|(token & -> & (_ & Hd & Hp & Hc & Hb) & Hnb)]); [eauto|].
  exists x. split; [done|]. right. exists token. split_and!; [done| |done].
  split_and!; try done. intros [|i] ri Hi Hri Hdi Hsi; cbn in Hri; [|apply (Hb i ri); [lia|done..]].
  injection Hri as <-. destruct Hr as [?|[?|Hin]]; [done|done|]. by rewrite Hsi in Hin.
Qed.

Lemma claim_outcome_block blocked r r' l l' :
  session_key r ∉ blocked →
  r' = r ∨ (∃ token, r' = take_claim now ttl worker_id token r
     ∧ ob_destination r = destination ∧ ob_published r = false ∧ claimable now r = true) →
  claim_outcome (session_key r :: blocked) l l' → claim_outcome blocked (r :: l) (r' :: l').
Proof.
  intros Hnb Hr [Hlen H]. split; [cbn; lia|]. intros [|j] x Hj; cbn in Hj.
  - simplify_eq. exists r. split; [done|]. destruct Hr as [->|(token & -> & Hd & Hp & Hc)]; [by left|].
    right. exists token. split_and!; [done| |done]. split_and!; try done. lia.
  - apply H in Hj as (y & Hy & [->|(token & -> & (_ & Hd & Hp & Hc & Hb) & Hin)]); [eauto|].
    exists y. split; [done|]. right. exists token. split_and!; [done| |set_solver].
    split_and!; try done. intros [|i] ri Hi Hri Hdi Hsi; cbn in Hri; [|apply (Hb i ri); [lia|done..]].
    injection Hri as <-. exfalso. rewrite Hsi in Hin. set_solver.
Qed.

Lemma claim_loop_outcome l blocked claimed :
  claim_outcome blocked l
    (claim_loop destination worker_id limit ttl now uuid blocked claimed l).1.
Proof.
  revert blocked claimed. induction l as [|r l IH]; intros blocked claimed; cbn [claim_loop];
    [apply claim_outcome_refl|].
  destruct (negb (String.eqb (ob_destination r) destination) || ob_published r) eqn:E1.
  { specialize (IH blocked claimed). destruct (claim_loop _ _ _ _ _ _ _ _ l) as [l' c']. cbn in *.
    apply claim_outcome_skip; [|done]. apply orb_true_iff in E1 as [E1|E1]; [|by auto].
    bool_props. by left. }
  case_decide as Hb.
  { specialize (IH blocked claimed). destruct (claim_loop _ _ _ _ _ _ _ _ l) as [l' c']. cbn in *.
    apply claim_outcome_skip; auto. }
  bool_props. destruct (claimable now r) eqn:Ec; cbn [negb].
  - destruct (limit <=? _).
    + cbn. eapply claim_outcome_block; [done|right; eauto 10|apply claim_outcome_refl].
    + match goal with |- context [claim_loop _ _ _ _ _ _ ?b ?c l] => specialize (IH b c) end.
      destruct (claim_loop _ _ _ _ _ _ _ _ l) as [l' c']. cbn in *.
      eapply claim_outcome_block; [done|right; eauto 10|exact IH].
  - specialize (IH (session_key r :: blocked) claimed).
    destruct (claim_loop _ _ _ _ _ _ _ _ l) as [l' c']. cbn in *.
    eapply claim_outcome_block; [done|by left|exact IH].
Qed.

(** A claim was made before, or is of a record claimed here. *)
Definition claim_source (c : ClaimedOutboxRecord) (claimed : list ClaimedOutboxRecord)
    (l l' : list OutboxRecord) : Prop :=
  c ∈ claimed ∨ ∃ j r token,
    l' !! j = Some (take_claim now ttl worker_id token r) ∧ l !! j = Some r
    ∧ ob_published r = false ∧ claimable now r = true
    ∧ c = claimed_of token (take_claim now ttl worker_id token r).

Lemma claim_source_cons c claimed x y l l' :
  claim_source c claimed l l' → claim_source c claimed (x :: l) (y :: l').
Proof.
  intros [?|(j & r & token & ?)]; [by left|]. right. by exists (S j), r, token.
Qed.

Lemma claim_loop_claims l blocked claimed c :
  c ∈ (claim_loop destination worker_id limit ttl now uuid blocked claimed l).2 →
  claim_source c claimed l (claim_loop destination worker_id limit ttl now uuid blocked claimed l).1.
Proof.
  revert blocked claimed. induction l as [|r l IH]; intros blocked claimed; cbn [claim_loop]; [by left|].
  destruct (negb (String.eqb (ob_destination r) destination) || ob_published r) eqn:E1.
  { specialize (IH blocked claimed). destruct (claim_loop _ _ _ _ _ _ _ _ l) as [l' c'].
    intros. by apply claim_source_cons, IH. }
  case_decide.
  { specialize (IH blocked claimed). destruct (claim_loop _ _ _ _ _ _ _ _ l) as [l' c'].
    intros. by apply claim_source_cons, IH. }
  bool_props. destruct (claimable now r) eqn:Ec; cbn [negb].
  - set (token := "clm_" +:+ uuid (length claimed)). set (r' := take_claim now ttl worker_id token r).
    assert (c ∈ claimed ++ [claimed_of token r'] → c ∈ claimed ∨ c = claimed_of token r') as Hsplit.
    { intros [?|?%list_elem_of_singleton]%elem_of_app; auto. }
    destruct (limit <=? _).
    + cbn. intros [?| ->]%Hsplit; [by left|]. right. by exists 0%nat, r, token.
    + specialize (IH (session_key r :: blocked) (claimed ++ [claimed_of token r'])).
      destruct (claim_loop _ _ _ _ _ _ _ _ l) as [l' c']. cbn in *. intros Hc.
      destruct (IH Hc) as [[?| ->]%Hsplit|(j & x & tk & ?)]; [by left|right; by exists 0%nat, r, token|].
      right. by exists (S j), x, tk.
  - specialize (IH (session_key r :: blocked) claimed).
    destruct (claim_loop _ _ _ _ _ _ _ _ l) as [l' c'].
    intros. by apply claim_source_cons, IH.
Qed.
End claim.

(** Claims are handed out in order and to one worker at a time: each record
    that [_claim_outbox_once] returns was unpublished, not poisoned and not under
    a live claim, every earlier record of its Session for that destination is
    published, and it is now claimed by this worker under the returned token
    until the claim expires. *)
Theorem claim_next_in_line destination worker_id limit ttl now uuid s s' claimed c :
  claim_outbox_once destination worker_id limit ttl now uuid s = (s', claimed) → c ∈ claimed →
  ∃ j r, next_in_line destination now (es_outbox s) j r
    ∧ es_outbox s' !! j = Some (take_claim now ttl worker_id (co_claim_token c) r)
    ∧ co_event c = ob_event r ∧ co_outbox_id c = pretty (ob_outbox_id r)
    ∧ co_attempt c = ob_publish_attempt r + 1.
Proof.
  unfold claim_outbox_once. intros Hcl Hc.
  pose proof (claim_loop_outcome destination worker_id limit ttl now uuid (es_outbox s) [] []) as [_ Ho].
  pose proof (claim_loop_claims destination worker_id limit ttl now uuid (es_outbox s) [] [] c) as Hcs.
  destruct (claim_loop _ _ _ _ _ _ _ _ _) as [l' c']. cbn in *. simplify_eq.
  destruct (Hcs Hc) as [?%elem_of_nil|(j & r & token & Hj & Hr & Hp & Hcb & ->)]; [done|].
  destruct (Ho j _ Hj) as (r0 & Hr0 & Heq). rewrite Hr in Hr0. injection Hr0 as <-.
  destruct Heq as [Heq|(tk & _ & Hn & _)].
  - exfalso. apply (f_equal ob_publish_attempt) in Heq. cbn in Heq. lia.
  - exists j, r. split_and!; done.
Qed.

(** ** Publication in order *)

(** A record that is published or claimed has no unpublished predecessor for its
    destination and Session. *)
Definition in_order (l : list OutboxRecord) : Prop :=
  ∀ i j ri rj, (i < j)%nat → l !! i = Some ri → l !! j = Some rj →
    ob_destination ri = ob_destination rj → session_key ri = session_key rj →
    ob_published rj = true ∨ ob_claimed_by rj ≠ None → ob_published ri = true.

(** Publishing is final and the key of a record is fixed. *)
Definition advances (r r' : OutboxRecord) : Prop :=
  ob_destination r' = ob_destination r ∧ session_key r' = session_key r
  ∧ (ob_published r = true → ob_published r' = true).

Lemma in_order_update l l' :
  in_order l →
  (∀ j r', l' !! j = Some r' → ∃ r, l !! j = Some r ∧ advances r r'
     ∧ (ob_published r' = true ∨ ob_claimed_by r' ≠ None →
        ob_published r = true ∨ ob_claimed_by r ≠ None
        ∨ ∀ i ri, (i < j)%nat → l !! i = Some ri → ob_destination ri = ob_destination r →
            session_key ri = session_key r → ob_published ri = true)) →
  in_order l'.
Proof.
  intros Hl H i j ri' rj' Hij Hi Hj Hd Hk Hp.
  destruct (H i ri' Hi) as (ri & Hri & (Hdi & Hki & Hpi) & _).
  destruct (H j rj' Hj) as (rj & Hrj & (Hdj & Hkj & _) & Hnew).
  apply Hpi. rewrite Hdi, Hdj in Hd. rewrite Hki, Hkj in Hk.
  destruct (Hnew Hp) as [Hpub|[Hcl|Hprev]].
  - eapply (Hl i j ri rj); eauto.
  - eapply (Hl i j ri rj); eauto.
  - by apply (Hprev i ri).
Qed.

Lemma in_order_update_first P f l :
  in_order l →
  (∀ r, P r = true → advances r (f r)
     ∧ (ob_published (f r) = true ∨ ob_claimed_by (f r) ≠ None →
        ob_published r = true ∨ ob_claimed_by r ≠ None)) →
  in_order (update_first P f l).
Proof.
  intros Hl Hf. destruct (find_first P l) as [r|] eqn:E; [|by rewrite update_first_none].
  destruct (update_first_split P f l r E) as (l1 & l2 & -> & Hr & ->). destruct (Hf r Hr) as [Ha Hn].
  eapply in_order_update; [exact Hl|]. intros j r' Hj.
  apply lookup_app_Some in Hj as [Hj|[Hge Hj]].
  - exists r'. split; [by apply lookup_app_l_Some|]. split; [by split|]. tauto.
  - destruct (j - length l1)%nat as [|j'] eqn:Ej; cbn in Hj.
    + injection Hj as <-. exists r. split; [rewrite lookup_app_r, Ej by lia; done|]. tauto.
    + exists r'. split; [rewrite lookup_app_r, Ej by lia; done|]. split; [by split|]. tauto.
Qed.

Lemma in_order_app l new :
  in_order l → Forall (λ r, ob_published r = false ∧ ob_claimed_by r = None) new → in_order (l ++ new).
Proof.
  intros Hl Hn i j ri rj Hij Hi Hj Hd Hk Hp.
  apply lookup_app_Some in Hj as [Hj|[Hge Hj]].
  - rewrite lookup_app_l in Hi by (apply lookup_lt_Some in Hj; lia). by apply (Hl i j ri rj).
  - destruct (Forall_lookup_1 _ _ _ _ Hn Hj) as [H1 H2]. destruct Hp; congruence.
Qed.

Lemma in_order_claim d w limit ttl now uuid l :
  in_order l → in_order (claim_loop d w limit ttl now uuid [] [] l).1.
Proof.
  intros Hl. destruct (claim_loop_outcome d w limit ttl now uuid l [] []) as [_ Ho].
  eapply in_order_update; [exact Hl|]. intros j r' Hj.
  destruct (Ho j r' Hj) as (r & Hr & [->|(token & -> & (_ & Hd & Hp & _ & Hprev) & _)]).
  - exists r. split; [done|]. split; [by split|]. tauto.
  - exists r. split; [done|]. split; [done|]. intros _. right; right.
    intros i ri Hi Hri Hdi Hk. rewrite Hd in Hdi. by apply (Hprev i ri).
Qed.

Lemma new_records_in_order s es :
  numbered (es_outbox s) → in_order (es_outbox s) →
  in_order (fold_left append_outbox_records es (es_outbox s)).
Proof.
  intros Hn Ho. destruct (append_all_records_spec (es_outbox s) es Hn) as (_ & _ & new & -> & Hnew).
  by apply in_order_app.
Qed.

(** The operations of the claim protocol: all but the direct marking of a record
    as published. *)
Definition by_claims (op : StoreOp) : Prop := match op with OpPublished _ => False | _ => True end.

Lemma op_keeps_order s op :
  by_claims op → store_ok s → in_order (es_outbox s) → in_order (es_outbox (run_op s op)).
Proof.
  intros Hc Hok Ho. pose proof (so_numbered s Hok) as Hn. destruct op; cbn [run_op]; try done.
  - destruct (append _ _ _ _ _ _ _ s) as [s' r] eqn:Ea. apply append_inv in Ea. cbn [fst].
    destruct r as [a|c m]; [|destruct Ea as [->| ->]; done].
    destruct Ea as [(? & _ & -> & _)|(_ & _ & governed & -> & ->)]; [done|].
    by apply new_records_in_order.
  - destruct (append_batch _ _ _ _ _ s) as [s' r] eqn:Ea. cbn [fst].
    destruct r as [a|c m]; [|unfold append_batch in Ea; repeat case_match; by simplify_eq].
    apply append_batch_inv in Ea as [(? & _ & -> & _)|(_ & added & _ & _ & _ & -> & ->)]; [done|].
    by apply new_records_in_order.
  - unfold save_snapshot. by case_match.
  - unfold mark_outbox_failed. cbn. apply in_order_update_first; [done|].
    intros r _. split; case_match; try done; cbn; tauto.
  - unfold claim_outbox_once. pose proof (in_order_claim destination worker limit ttl now uuid _ Ho) as H.
    destruct (claim_loop _ _ _ _ _ _ _ _ _). exact H.
  - unfold disposition_outbox. destruct (find_first _ _) as [r|] eqn:Ef; [|done].
    destruct (holds _ _ _ _ r) eqn:Eh; cbn [negb]; [|done].
    destruct (dispose _ _ r) as [r'|] eqn:Ed; [|done]. cbn.
    assert (ob_claimed_by r ≠ None) as Hcl by (unfold holds in Eh; bool_props; congruence).
    destruct (update_first_split _ (λ _, release r') _ _ Ef) as (l1 & l2 & Hl & Hr & Hup).
    rewrite Hup. rewrite Hl in Ho. eapply in_order_update; [exact Ho|]. intros j x Hj.
    apply lookup_app_Some in Hj as [Hj|[Hge Hj]].
    + exists x. split; [by apply lookup_app_l_Some|]. split; [by split|]. tauto.
    + destruct (j - length l1)%nat as [|j'] eqn:Ej; cbn in Hj.
      * injection Hj as <-. exists r. split; [rewrite lookup_app_r, Ej by lia; done|]. split; [|tauto].
        unfold dispose in Ed. repeat case_match; by simplify_eq.
      * exists x. split; [rewrite lookup_app_r, Ej by lia; done|]. split; [by split|]. tauto.
  - unfold redrive_outbox. destruct (find_first _ _) as [r|]; [|done]. cbn.
    apply in_order_update_first; [done|]. intros x Hx. split; [done|]. cbn. tauto.
Qed.

Lemma ops_keep_order ops :
  Forall by_claims ops → store_ok (run_ops ops) ∧ in_order (es_outbox (run_ops ops)).
Proof.
  apply (run_ops_ind (λ s, store_ok s ∧ in_order (es_outbox s))).
  - split; [apply empty_ok|]. by intros i j ri rj.
  - intros s op Hop [Hok Ho]. split; [by apply op_keeps_ok|by apply op_keeps_order].
Qed.

(** C2. The events of a Session are published to each destination in the order
    they were stored: whatever the interleaving of appends, claims, dispositions
    and redrives of any number of workers, if a record is published then so is
    every earlier record of its Session for that destination. *)
Theorem published_in_order ops i j ri rj :
  Forall by_claims ops → (i < j)%nat →
  es_outbox (run_ops ops) !! i = Some ri → es_outbox (run_ops ops) !! j = Some rj →
  ob_destination ri = ob_destination rj → session_key ri = session_key rj →
  ob_published rj = true → ob_published ri = true.
Proof.
  intros Hops Hij Hi Hj Hd Hk Hp. destruct (ops_keep_order ops Hops) as [_ Ho].
  eapply (Ho i j ri rj); eauto.
Qed.

(** Only the holder of a live claim disposes of a record: a disposition that
    reports success was made by the worker that holds the unexpired claim under
    that token, and it releases the claim and publishes (ack), poisons (poison, or
    a projection nack after five attempts) or returns (nack) that record alone;
    any other call, in particular one from a worker whose claim expired or was
    taken over, changes nothing. *)
Theorem disposition_by_holder destination worker_id id token disposition now s s' b :
  disposition_outbox destination worker_id id token disposition now s = (s', b) →
  if b then
    ∃ l1 r l2 r', es_outbox s = l1 ++ r :: l2 ∧ es_outbox s' = l1 ++ r' :: l2
    ∧ pretty (ob_outbox_id r) = id ∧ ob_destination r = destination
    ∧ ob_claimed_by r = Some worker_id ∧ ob_claim_token r = Some token
    ∧ (∃ t, ob_claim_expires_at r = Some t ∧ now < t)
    ∧ ob_core r' = ob_core r ∧ ob_claimed_by r' = None ∧ ob_claim_token r' = None
    ∧ ob_published r' = ob_published r || String.eqb disposition "ack"
    ∧ ob_poisoned r' = ob_poisoned r || String.eqb disposition "poison"
        || String.eqb disposition "nack" && String.eqb destination "projection"
           && (5 <=? ob_publish_attempt r)
  else s' = s.
Proof.
  unfold disposition_outbox. destruct (find_first _ _) as [r|] eqn:Ef; [|by intros [= <- <-]].
  destruct (holds _ _ _ _ r) eqn:Eh; cbn [negb]; [|by intros [= <- <-]].
  destruct (dispose _ _ r) as [r'|] eqn:Ed; [|by intros [= <- <-]]. intros [= <- <-].
  destruct (update_first_split _ (λ _, release r') _ _ Ef) as (l1 & l2 & Hl & Hid & Hup).
  exists l1, r, l2, (release r'). cbn [es_outbox set_field]. unfold holds, has_outbox_id in *. bool_props.
  destruct (ob_claim_expires_at r) as [t|] eqn:Et; [|done]. bool_props.
  pose proof (dispose_core _ _ _ _ Ed) as Hcore.
  split_and!; [done|done|done|done|done|done|by exists t|by rewrite <- Hcore|done|done| |].
  all: unfold dispose in Ed;
    destruct (String.eqb_spec disposition "ack") as [->|];
      [injection Ed as <-; cbn; by rewrite ?orb_true_r, ?orb_false_r|];
    destruct (String.eqb_spec disposition "poison") as [->|];
      [injection Ed as <-; cbn; by rewrite ?orb_true_r, ?orb_false_r|];
    destruct (String.eqb_spec disposition "nack") as [->|]; [|done];
    cbn [andb]; destruct (_ && _); injection Ed as <-; cbn; by rewrite ?orb_true_r, ?orb_false_r.
Qed.

(** ** Witnesses *)

Module StoreExamples.
Definition supply (tag : string) : Supply := mkSupply (λ i, tag +:+ pretty i) (λ i, Z.of_nat i).
Definition cx (cmd : string) (expected : Z) : CommandContext :=
  mkContext cmd "t1" (mkActor "user" "u") "corr" expected "append" None None.
Definition events : list NewEvent :=
  [mkNewEvent "session.created" [("goal", JStr "g")] VUser;
   mkNewEvent "run.requested" [("run_id", JStr "r1")] VUser].
Definition result : payload := [("_request_fingerprint", JStr "f1"); ("version", JInt 2)].

Definition first_append : EventStore * res AppendResult :=
  append (supply "a") "s1" "s1" None (cx "c1" 0) events result empty_store.
Definition store1 : EventStore := first_append.1.
Definition result1 : AppendResult :=
  match first_append.2 with Ok a => a | Raise _ _ => mkAppendResult [] [] true end.

Lemma append_outcome_witness :
  stream_of store1 ("t1", "s1") = apr_events result1 ∧ length (apr_events result1) = 2%nat
  ∧ observed_same store1 (append (supply "b") "s1" "s1" None (cx "c2" 5) events result store1).1.
Proof.
  split_and!; [|vm_compute; reflexivity|].
  - pose proof (append_outcome (supply "a") "s1" "s1" None (cx "c1" 0) events result empty_store
      store1 (Ok result1) ltac:(vm_compute; reflexivity)) as (_ & H & _). exact H.
  - apply (append_outcome (supply "b") "s1" "s1" None (cx "c2" 5) events result store1
      (append (supply "b") "s1" "s1" None (cx "c2" 5) events result store1).1
      (version_conflict 5 2)). vm_compute. reflexivity.
Defined.

Lemma append_idempotent_witness :
  append (supply "z") "s1" "s1" None (cx "c1" 0) events result store1
  = (store1, Ok (mkAppendResult [] result true)).
Proof.
  apply (append_idempotent (supply "a") "s1" "s1" None (cx "c1" 0) events result empty_store store1
    result1 "f1" (supply "z") "s1" "s1" None events result "f1"); vm_compute; reflexivity.
Defined.

Definition batch : list StreamAppend :=
  [mkStreamAppend "s2" None 0 [mkNewEvent "note" [] VUser];
   mkStreamAppend "s1" None 2 [mkNewEvent "run.cancelled" [] VUser; mkNewEvent "note" [] VUser]].
Definition batched : EventStore * res AppendResult :=
  append_batch (supply "b") "s1" (cx "c3" 0) batch [] store1.

Lemma append_batch_atomic_witness :
  (∃ a, batched.2 = Ok a ∧ length (apr_events a) = 3%nat
     ∧ ∃ parts, concat parts = apr_events a ∧ length parts = 2%nat)
  ∧ (append_batch (supply "b") "s1" (cx "c3" 0) (batch ++ [mkStreamAppend "s9" None 1 []]) [] store1).1 = store1.
Proof.
  split.
  - destruct (batched.2) as [a|c m] eqn:E; [|vm_compute in E; discriminate E].
    exists a. split; [reflexivity|].
    pose proof (append_batch_atomic (supply "b") "s1" (cx "c3" 0) batch [] store1 batched.1 (Ok a)
      ltac:(rewrite <- E; vm_compute; reflexivity)) as H.
    vm_compute in E. injection E as <-. destruct H as (parts & Hlen & Hc & _).
    split; [vm_compute; reflexivity|]. exists parts. split; [exact Hc|exact Hlen].
  - exact (append_batch_atomic (supply "b") "s1" (cx "c3" 0)
      (batch ++ [mkStreamAppend "s9" None 1 []]) [] store1 _ (version_conflict 1 0)
      ltac:(vm_compute; reflexivity)).
Defined.

Definition token_of (cs : list ClaimedOutboxRecord) : string :=
  match cs with c :: _ => co_claim_token c | [] => EmptyString end.
Definition claim1 : EventStore * list ClaimedOutboxRecord :=
  claim_outbox_once "projection" "w1" 10 100 0 (λ i, pretty i) store1.

Lemma claim_next_in_line_witness :
  length claim1.2 = 1%nat ∧
  ∃ c j r, c ∈ claim1.2 ∧ next_in_line "projection" 0 (es_outbox store1) j r.
Proof.
  split; [vm_compute; reflexivity|].
  destruct (claim1.2) as [|c cs] eqn:E; [vm_compute in E; discriminate E|].
  destruct (claim_next_in_line "projection" "w1" 10 100 0 (λ i, pretty i) store1 claim1.1 claim1.2 c)
    as (j & r & Hn & _); [vm_compute; reflexivity|rewrite E; by left|].
  exists c, j, r. split; [by left|exact Hn].
Defined.

Lemma disposition_by_holder_witness :
  (∃ r', es_outbox (disposition_outbox "projection" "w1" "1" (token_of claim1.2) "ack" 50 claim1.1).1
     !! 0%nat = Some r' ∧ ob_published r' = true)
  ∧ (disposition_outbox "projection" "w1" "1" (token_of claim1.2) "ack" 100 claim1.1).1 = claim1.1.
Proof.
  split.
  - destruct (disposition_outbox "projection" "w1" "1" (token_of claim1.2) "ack" 50 claim1.1)
      as [s' b] eqn:E.
    pose proof (disposition_by_holder _ _ _ _ _ _ _ _ _ E) as H. vm_compute in E.
    injection E as <- <-. clear H. eexists. split; reflexivity.
  - exact (disposition_by_holder "projection" "w1" "1" (token_of claim1.2) "ack" 100 claim1.1 _ false
      ltac:(vm_compute; reflexivity)).
Defined.

(** Two workers: the first claim expires and is taken over. *)
Definition ops : list StoreOp :=
  [OpAppend (supply "a") "s1" "s1" None (cx "c1" 0) events result;
   OpClaim "projection" "w1" 10 100 0 (λ i, pretty i);
   OpClaim "projection" "w2" 10 100 200 (λ i, "x" +:+ pretty i);
   OpDispose "projection" "w1" "1" "clm_0" "ack" 210;
   OpDispose "projection" "w2" "1" "clm_x0" "ack" 220;
   OpClaim "projection" "w2" 10 100 230 (λ i, "y" +:+ pretty i);
   OpDispose "projection" "w2" "2" "clm_y0" "ack" 240].

Lemma published_in_order_witness :
  (ob_published <$> es_outbox (run_ops ops)) = [true; true; false]
  ∧ ∃ r, es_outbox (run_ops ops) !! 0%nat = Some r ∧ ob_published r = true.
Proof.
  split; [vm_compute; reflexivity|].
  destruct (es_outbox (run_ops ops) !! 0%nat) as [r0|] eqn:E0; [|vm_compute in E0; discriminate E0].
  destruct (es_outbox (run_ops ops) !! 1%nat) as [r1|] eqn:E1; [|vm_compute in E1; discriminate E1].
  exists r0. split; [reflexivity|].
  apply (published_in_order ops 0 1 r0 r1); try assumption.
  - repeat constructor.
  - lia.
  - vm_compute in E0, E1. injection E0 as <-. injection E1 as <-. reflexivity.
  - vm_compute in E0, E1. injection E0 as <-. injection E1 as <-. reflexivity.
  - vm_compute in E1. injection E1 as <-. reflexivity.
Defined.
End StoreExamples.
