(* ===== verification/ControlStore.v ===== *)
(** * Control store ([infrastructure/persistence/memory_control_store.py], [control/ports.py])

    The run queue, leases with fencing tokens, assignments to runtimes, wakes,
    capacity, checkpoints and the recovery of what expired.  Every operation runs
    under one lock, so it is a function on the store; an operation that raises
    has not changed it, so it returns [res (store * result)].  Each read of the
    clock is an argument ([now], [now'] for a second read), since the clock moves
    between the reads of one operation.  A [RuntimeAssignment] is a mutable object
    stored under one task; the store's entry stands for that object. *)

From Stdlib Require Import SpecFloat.
From S2P Require Import Prelude PyValue DateTime Contracts.
Local Open Scope Z_scope.

(** ** Data *)

Definition AGENT_RUNTIME_POOL : string := "agent".
Definition ASSIGNMENT_RESOURCE_PROFILE_KEYS : list string :=
  ["tool_permissions"; "required_capabilities"; "required_skills"; "agent_profile_ids";
   "allowed_models"; "allowed_harnesses"].

Definition runtime_requirements_from_profile (profile : payload) : payload :=
  match pgetn "runtime_requirements" profile with
  | JObj explicit => explicit
  | _ => filter (λ kv, kv.1 ∉ ASSIGNMENT_RESOURCE_PROFILE_KEYS
                       ∧ String.prefix "_auraclaw_" kv.1 = false) profile
  end.

Record RuntimeBudget := mkRuntimeBudget {
  rb_max_steps : Z;
  rb_max_output_tokens : Z;
  rb_max_cost : option spec_float;
  rb_policy_version : string;
}.

Record RuntimeAssignment := mkAssignment {
  ra_tenant_id : string;
  ra_root_session_id : string;
  ra_session_id : string;
  ra_run_id : string;
  ra_runtime_id : string;
  ra_lease_id : string;
  ra_fencing_token : Z;
  ra_role : string;
  ra_resource_profile : payload;
  ra_deadline : option Z;
  ra_budget : RuntimeBudget;
  ra_lease_expires_at : option Z;
  ra_lease_assertion : option payload;
  ra_user_id : option string;
  ra_dept_id : option string;
  ra_execution_claim_token : option string;
  ra_execution_claim_expires_at : option Z;
}.
#[global] Instance RuntimeAssignment_eta : Eta RuntimeAssignment := λ a,
  mkAssignment (ra_tenant_id a) (ra_root_session_id a) (ra_session_id a) (ra_run_id a)
    (ra_runtime_id a) (ra_lease_id a) (ra_fencing_token a) (ra_role a) (ra_resource_profile a)
    (ra_deadline a) (ra_budget a) (ra_lease_expires_at a) (ra_lease_assertion a) (ra_user_id a)
    (ra_dept_id a) (ra_execution_claim_token a) (ra_execution_claim_expires_at a).

Record RunnableItem := mkRunnable {
  ri_task_id : string;
  ri_tenant_id : string;
  ri_root_session_id : string;
  ri_session_id : string;
  ri_run_id : string;
  ri_source_version : Z;
  ri_priority : Z;
  ri_queue_partition : string;
  ri_role : string;
  ri_required_capability : payload;
  ri_deadline : option Z;
  ri_budget : RuntimeBudget;
  ri_user_id : option string;
  ri_dept_id : option string;
}.

Record ClaimedRunnable := mkClaimedRunnable {
  cr_item : RunnableItem;
  cr_claimed_by : string;
  cr_claim_token : string;
  cr_claim_expires_at : Z;
}.

Record RuntimeLease := mkLease {
  le_resource_id : string;
  le_lease_id : string;
  le_owner : string;
  le_fencing_token : Z;
  le_expires_at : Z;
}.
#[global] Instance RuntimeLease_eta : Eta RuntimeLease := λ l,
  mkLease (le_resource_id l) (le_lease_id l) (le_owner l) (le_fencing_token l) (le_expires_at l).

Record RuntimeInstance := mkRuntime {
  rt_runtime_id : string;
  rt_runtime_type : string;
  rt_role : string;
  rt_node_id : string;
  rt_capabilities : payload;
  rt_capacity : Z;
  rt_registration_id : string;
}.

Record RuntimeCheckpoint := mkCheckpoint {
  cp_tenant_id : string;
  cp_session_id : string;
  cp_run_id : string;
  cp_fencing_token : Z;
  cp_phase : string;
  cp_state : payload;
  cp_updated_at : Z;
}.

Notation queue_entry := (RunnableItem * string * option string)%type.
Notation run_key := (string * string * string)%type.

Record ControlStore := mkControl {
  ct_queue : list (string * queue_entry);
  ct_queue_claims : list (string * (string * Z));
  ct_queue_available_at : list (string * Z);
  ct_leases : list (string * RuntimeLease);
  ct_lease_counters : list (string * Z);
  ct_assignments : list (string * (RuntimeAssignment * string));
  ct_assignment_started_at : list (string * Z);
  ct_pending_wakes : gset string;
  ct_runtimes : list (string * (RuntimeInstance * Z));
  ct_capacity : list (string * Z);
  ct_checkpoints : list (run_key * RuntimeCheckpoint);
  ct_cancellations : gset run_key;
}.
#[global] Instance ControlStore_eta : Eta ControlStore := λ s,
  mkControl (ct_queue s) (ct_queue_claims s) (ct_queue_available_at s) (ct_leases s)
    (ct_lease_counters s) (ct_assignments s) (ct_assignment_started_at s) (ct_pending_wakes s)
    (ct_runtimes s) (ct_capacity s) (ct_checkpoints s) (ct_cancellations s).

Definition new_control : ControlStore := mkControl [] [] [] [] [] [] [] ∅ [] [] [] ∅.

Definition stale_heartbeat_after : Z := 30 * second.
Definition execution_claim_ttl : Z := 30 * second.
Definition assignment_lease_ttl : Z := 30 * second.

Definition waiting_outcomes : list string := ["waiting_children"; "waiting_for_human"; "waiting_for_tool"].
Definition active_statuses : list string := ["assigned"; "running"].

(** [f"session:{tenant_id}:{session_id}"] *)
Definition session_resource (tenant_id session_id : string) : string :=
  "session:" +:+ tenant_id +:+ ":" +:+ session_id.

(** ** The queue *)

Definition enqueue (item : RunnableItem) (s : ControlStore) : ControlStore * bool :=
  match dget (ri_task_id item) (ct_queue s) with
  | Some _ => (s, false)
  | None => (s <| ct_queue := dset (ri_task_id item) (item, "queued", None) (ct_queue s) |>, true)
  end.

(** [self._queue_claims.get(task_id, ("", datetime.min))[1] <= now] *)
Definition claim_lapsed (s : ControlStore) (now : Z) (task_id : string) : bool :=
  match dget task_id (ct_queue_claims s) with Some (_, t) => t <=? now | None => true end.

Definition claimable_entry (s : ControlStore) (now : Z) (e : queue_entry) : bool :=
  let '(item, status, _) := e in
  String.eqb status "queued"
    && match dget (ri_task_id item) (ct_queue_available_at s) with Some t => t <=? now | None => true end
  || String.eqb status "claimed" && claim_lapsed s now (ri_task_id item).

(** The order of [(-priority, task_id)]. *)
Definition priority_leb (a b : RunnableItem) : bool :=
  if negb (ri_priority a =? ri_priority b) then ri_priority b <? ri_priority a
  else String.leb (ri_task_id a) (ri_task_id b).

Definition claim_candidates (s : ControlStore) (now : Z) : list RunnableItem :=
  py_sorted priority_leb (map (λ e, e.1.1) (filter (λ e, claimable_entry s now e = true) (dvalues (ct_queue s)))).

(** [candidates[:limit]] *)
Definition first_n {A} (n : Z) (l : list A) : list A :=
  if n <? 0 then take (Z.to_nat (Z.of_nat (length l) + n)) l else take (Z.to_nat n) l.

Definition take_item (worker_id token : string) (expires_at : Z) (s : ControlStore) (item : RunnableItem)
    : ControlStore :=
  s <| ct_queue := dset (ri_task_id item) (item, "claimed", Some worker_id) (ct_queue s) |>
    <| ct_queue_claims := dset (ri_task_id item) (token, expires_at) (ct_queue_claims s) |>.

(** [claim]; [uuid i] is the token of the [i]th item claimed. *)
Definition claim (worker_id : string) (limit claim_ttl now : Z) (uuid : nat → string) (s : ControlStore)
    : ControlStore * list ClaimedRunnable :=
  let items := first_n limit (claim_candidates s now) in
  (fold_left (λ s ic, take_item worker_id (uuid ic.1) (now + claim_ttl) s ic.2)
     (imap pair items) s,
   imap (λ i item, mkClaimedRunnable item worker_id (uuid i) (now + claim_ttl)) items).

(** The caller still holds the claim it names. *)
Definition owns_claim (s : ControlStore) (task_id : string) (entry : queue_entry)
    (worker_id claim_token : option string) (now : Z) : bool :=
  bool_decide (entry.2 = worker_id)
  && match dget task_id (ct_queue_claims s) with
     | Some (token, expires) => bool_decide (Some token = claim_token) && (now <? expires)
     | None => false
     end.

Definition reschedule (task_id : string) (worker_id claim_token : option string) (delay now now' : Z)
    (s : ControlStore) : ControlStore :=
  match dget task_id (ct_queue s) with
  | Some entry =>
      if (bool_decide (worker_id ≠ None) || bool_decide (claim_token ≠ None))
         && negb (owns_claim s task_id entry worker_id claim_token now)
      then s
      else
      let s := s <| ct_queue := dset task_id (entry.1.1, "queued", None) (ct_queue s) |>
                 <| ct_queue_available_at := dset task_id (now' + delay) (ct_queue_available_at s) |>
                 <| ct_queue_claims := ddel task_id (ct_queue_claims s) |> in
      match dget task_id (ct_assignments s) with
      | Some (a, _) => s <| ct_assignments := dset task_id (a, "failed") (ct_assignments s) |>
      | None => s
      end
  | None =>
      match dget task_id (ct_assignments s) with
      | Some (a, _) => s <| ct_assignments := dset task_id (a, "failed") (ct_assignments s) |>
      | None => s
      end
  end.

(** ** Leases *)

Definition live (now : Z) (l : RuntimeLease) : bool := now <? le_expires_at l.

Definition acquire_lease (resource_id owner : string) (ttl now : Z) (uuid : string) (s : ControlStore)
    : ControlStore * option RuntimeLease :=
  if match dget resource_id (ct_leases s) with Some l => live now l | None => false end
  then (s, None)
  else
  let token := default 0 (dget resource_id (ct_lease_counters s)) + 1 in
  let lease := mkLease resource_id ("lea_" +:+ uuid) owner token (now + ttl) in
  (s <| ct_lease_counters := dset resource_id token (ct_lease_counters s) |>
     <| ct_leases := dset resource_id lease (ct_leases s) |>, Some lease).

Definition renew_lease (lease : RuntimeLease) (ttl now now' : Z) (s : ControlStore)
    : res (ControlStore * RuntimeLease) :=
  let conflict := Raise LeaseConflictError ("lease is no longer owned: " +:+ le_resource_id lease) in
  match dget (le_resource_id lease) (ct_leases s) with
  | None => conflict
  | Some current =>
      if negb (String.eqb (le_lease_id current) (le_lease_id lease))
         || negb (String.eqb (le_owner current) (le_owner lease))
         || negb (le_fencing_token current =? le_fencing_token lease)
         || (le_expires_at current <=? now)
      then conflict
      else
      let renewed := current <| le_expires_at := now' + ttl |> in
      Ok (s <| ct_leases := dset (le_resource_id lease) renewed (ct_leases s) |>, renewed)
  end.

Definition release_lease (lease : RuntimeLease) (s : ControlStore) : ControlStore :=
  match dget (le_resource_id lease) (ct_leases s) with
  | Some current =>
      if String.eqb (le_lease_id current) (le_lease_id lease)
      then s <| ct_leases := ddel (le_resource_id lease) (ct_leases s) |> else s
  | None => s
  end.

(** The lease on a resource is live and carries this token. *)
Definition fenced (s : ControlStore) (resource_id : string) (fencing_token now : Z) : bool :=
  match dget resource_id (ct_leases s) with
  | Some l => live now l && (le_fencing_token l =? fencing_token)
  | None => false
  end.

Definition assert_fencing (resource_id : string) (fencing_token now : Z) (s : ControlStore) : res unit :=
  if fenced s resource_id fencing_token now then Ok tt
  else Raise FencingTokenError
         ("stale fencing token " +:+ pretty fencing_token +:+ " for " +:+ resource_id).

(** ** Assignments *)

Definition may_assign (s : ControlStore) (task_id : string) (a : RuntimeAssignment) (claim_token : string)
    (now now' : Z) : bool :=
  match dget task_id (ct_queue s), dget task_id (ct_queue_claims s),
        dget (session_resource (ra_tenant_id a) (ra_session_id a)) (ct_leases s) with
  | Some (_, status, owner), Some (token, expires), Some lease =>
      String.eqb status "claimed" && String.eqb token claim_token && (now <? expires)
      && String.eqb (le_lease_id lease) (ra_lease_id a)
      && (le_fencing_token lease =? ra_fencing_token a)
      && bool_decide (Some (le_owner lease) = owner) && live now' lease
  | _, _, _ => false
  end.

Definition reassignable : list string := ["expired"; "completed"; "failed"] ++ waiting_outcomes.

Definition assign (task_id : string) (a : RuntimeAssignment) (claim_token : string) (now now' : Z)
    (s : ControlStore) : ControlStore * bool :=
  if negb (may_assign s task_id a claim_token now now') then (s, false)
  else if match dget task_id (ct_assignments s) with
          | Some (_, status) => negb (str_in status reassignable) | None => false end
  then (s, false)
  else
  let s := s <| ct_assignments := dset task_id (a, "assigned") (ct_assignments s) |>
             <| ct_pending_wakes := ct_pending_wakes s ∖ {[task_id]} |> in
  (match dget task_id (ct_queue s) with
   | Some (item, _, owner) =>
       s <| ct_queue := dset task_id (item, "assigned", owner) (ct_queue s) |>
         <| ct_queue_claims := ddel task_id (ct_queue_claims s) |>
   | None => s
   end, true).

Definition get_assignment (s : ControlStore) (task_id : string) : option RuntimeAssignment :=
  fst <$> dget task_id (ct_assignments s).

Definition active_count (s : ControlStore) (runtime_id : string) : Z :=
  Z.of_nat (length (filter (λ e, String.eqb (ra_runtime_id e.1) runtime_id
                                 && str_in e.2 active_statuses = true) (dvalues (ct_assignments s)))).

Definition governed (capabilities : payload) : bool :=
  match pgetn "runtime_governance_v2" capabilities with JBool true => true | _ => false end.

(** The filters of [select_runtime] that do not read the clock again. *)
Definition runtime_fits (item : RunnableItem) (r : RuntimeInstance) : bool :=
  negb (String.eqb (rb_policy_version (ri_budget item)) "2" && negb (governed (rt_capabilities r)))
  && forallb (λ kv, py_eq (pgetn kv.1 (rt_capabilities r)) kv.2)
       (runtime_requirements_from_profile (ri_required_capability item)).

(** [min(candidates, key=...)]: the first with the least number of assignments. *)
Definition least_loaded (candidates : list (Z * RuntimeInstance)) : option RuntimeInstance :=
  snd <$> fold_left (λ best c, match best with
    | None => Some c
    | Some b => if c.1 <? b.1 then Some c else Some b
    end) candidates (None : option (Z * RuntimeInstance)).

(** [select_runtime]; the clock is read once for each runtime whose role fits. *)
Definition select_runtime (item : RunnableItem) (clock : nat → Z) (s : ControlStore)
    : option RuntimeInstance :=
  let '(_, candidates) :=
    fold_left (λ acc (rh : RuntimeInstance * Z),
      let '(reads, candidates) := acc in
      let '(r, heartbeat_at) := rh in
      if negb (str_in (rt_role r) [AGENT_RUNTIME_POOL; ri_role item]) then (reads, candidates)
      else if heartbeat_at <=? clock reads - 30 * second then (S reads, candidates)
      else if negb (runtime_fits item r) then (S reads, candidates)
      else
      let active := active_count s (rt_runtime_id r) in
      (S reads, if active <? rt_capacity r then candidates ++ [(active, r)] else candidates))
      (dvalues (ct_runtimes s)) (O, []) in
  least_loaded candidates.

(** The assignment is waiting for this runtime under a live lease. *)
Definition startable (s : ControlStore) (runtime_id : string) (runtime : RuntimeInstance) (now : Z)
    (entry : RuntimeAssignment * string) : option RuntimeLease :=
  let '(a, status) := entry in
  if negb (String.eqb (ra_runtime_id a) runtime_id) then None
  else if negb (String.eqb status "assigned") then None
  else if String.eqb (rb_policy_version (ra_budget a)) "2" && negb (governed (rt_capabilities runtime))
  then None
  else match dget (session_resource (ra_tenant_id a) (ra_session_id a)) (ct_leases s) with
  | Some l => if live now l && (le_fencing_token l =? ra_fencing_token a) then Some l else None
  | None => None
  end.

Definition start_assignment (s : ControlStore) (now : Z) (token task_id : string)
    (a : RuntimeAssignment) (lease : RuntimeLease) : ControlStore * RuntimeAssignment :=
  let renewed := lease <| le_expires_at := Z.min (le_expires_at lease) (now + assignment_lease_ttl) |> in
  let a := a <| ra_execution_claim_token := Some token |>
             <| ra_execution_claim_expires_at := Some (now + execution_claim_ttl) |>
             <| ra_lease_expires_at := Some (le_expires_at renewed) |> in
  (s <| ct_leases := dset (session_resource (ra_tenant_id a) (ra_session_id a)) renewed (ct_leases s) |>
     <| ct_assignments := dset task_id (a, "running") (ct_assignments s) |>
     <| ct_assignment_started_at := dsetdefault task_id now (ct_assignment_started_at s) |>, a).

(** The loop of [claim_assignments]. *)
Fixpoint start_loop (runtime_id : string) (runtime : RuntimeInstance) (limit now : Z) (uuid : nat → string)
    (entries : list (string * (RuntimeAssignment * string))) (s : ControlStore)
    (claimed : list (string * RuntimeAssignment)) : ControlStore * list (string * RuntimeAssignment) :=
  match entries with
  | [] => (s, claimed)
  | (task_id, (a, status)) :: rest =>
      match startable s runtime_id runtime now (a, status) with
      | None => start_loop runtime_id runtime limit now uuid rest s claimed
      | Some lease =>
          let '(s, a) := start_assignment s now (uuid (length claimed)) task_id a lease in
          let claimed := claimed ++ [(task_id, a)] in
          if limit <=? Z.of_nat (length claimed) then (s, claimed)
          else start_loop runtime_id runtime limit now uuid rest s claimed
      end
  end.

Definition claim_assignments (runtime_id role registration_id : string) (limit now : Z)
    (uuid : nat → string) (s : ControlStore) : ControlStore * list (string * RuntimeAssignment) :=
  match dget runtime_id (ct_runtimes s) with
  | Some (runtime, _) =>
      if negb (String.eqb (rt_role runtime) role)
         || negb (String.eqb (rt_registration_id runtime) registration_id)
      then (s, [])
      else start_loop runtime_id runtime limit now uuid (ct_assignments s) s []
  | None => (s, [])
  end.

Definition claim_still_held (a : RuntimeAssignment) (status : string) (runtime : RuntimeInstance)
    (lease : RuntimeLease) (runtime_id registration_id token lease_id : string)
    (fencing_token now : Z) : bool :=
  String.eqb status "running"
  && String.eqb (rt_registration_id runtime) registration_id
  && String.eqb (ra_runtime_id a) runtime_id
  && bool_decide (ra_execution_claim_token a = Some token)
  && match ra_execution_claim_expires_at a with Some t => now <? t | None => false end
  && String.eqb (ra_lease_id a) lease_id && (ra_fencing_token a =? fencing_token)
  && String.eqb (le_lease_id lease) lease_id && (le_fencing_token lease =? fencing_token)
  && live now lease.

Definition renew_assignment_claim (task_id runtime_id registration_id token lease_id : string)
    (fencing_token now : Z) (s : ControlStore) : res (ControlStore * RuntimeAssignment) :=
  match dget task_id (ct_assignments s), dget runtime_id (ct_runtimes s) with
  | Some (a, status), Some (runtime, _) =>
      let resource_id := session_resource (ra_tenant_id a) (ra_session_id a) in
      match dget resource_id (ct_leases s) with
      | Some lease =>
          if claim_still_held a status runtime lease runtime_id registration_id token lease_id
               fencing_token now
          then
          let a := a <| ra_lease_expires_at := Some (now + assignment_lease_ttl) |>
                     <| ra_execution_claim_expires_at := Some (now + execution_claim_ttl) |> in
          Ok (s <| ct_leases := dset resource_id
                     (lease <| le_expires_at := now + assignment_lease_ttl |>) (ct_leases s) |>
                <| ct_assignments := dset task_id (a, status) (ct_assignments s) |>
                <| ct_runtimes := dset runtime_id (runtime, now) (ct_runtimes s) |>, a)
          else Raise LeaseConflictError "execution claim is no longer owned"
      | None => Raise LeaseConflictError "execution claim is no longer owned"
      end
  | _, _ => Raise LeaseConflictError "execution claim is unavailable"
  end.

(** Put a task back in the queue: [self._queue[task_id] = (item, "queued", None)] and
    [self._queue_claims.pop(task_id, None)], when it is queued at all. *)
Definition requeue (task_id : string) (s : ControlStore) : ControlStore :=
  match dget task_id (ct_queue s) with
  | Some (item, _, _) =>
      s <| ct_queue := dset task_id (item, "queued", None) (ct_queue s) |>
        <| ct_queue_claims := ddel task_id (ct_queue_claims s) |>
  | None => s
  end.

(** Expire an assignment and put its task back in the queue. *)
Definition expire_assignment (task_id : string) (a : RuntimeAssignment) (s : ControlStore) : ControlStore :=
  requeue task_id
    (s <| ct_assignments := dset task_id (a, "expired") (ct_assignments s) |>
       <| ct_assignment_started_at := ddel task_id (ct_assignment_started_at s) |>).

Definition finished_statuses : list string :=
  ["expired"; "completed"; "failed"; "cancelled"] ++ waiting_outcomes.

Definition abandon_stale_assignment (task_id runtime_id lease_id : string) (fencing_token now : Z)
    (s : ControlStore) : ControlStore * bool :=
  match dget task_id (ct_assignments s) with
  | None => (s, false)
  | Some (a, status) =>
      if negb (String.eqb (ra_runtime_id a) runtime_id) || negb (String.eqb (ra_lease_id a) lease_id)
         || negb (ra_fencing_token a =? fencing_token)
      then (s, false)
      else if str_in status finished_statuses then (s, true)
      else if fenced s (session_resource (ra_tenant_id a) (ra_session_id a)) fencing_token now
      then (s, false)
      else (expire_assignment task_id a s, true)
  end.

(** The queue entry of a task that stops: back in the queue when a wake came while
    it ran, acknowledged otherwise; the wake is consumed. *)
Definition settle_queue (task_id : string) (should_wake : bool) (s : ControlStore) : ControlStore :=
  let s := match dget task_id (ct_queue s) with
    | Some (item, _, owner) =>
        let s := s <| ct_queue := dset task_id
                        (item, if should_wake then "queued" else "acked",
                         if should_wake then None else owner) (ct_queue s) |> in
        if should_wake then s <| ct_queue_claims := ddel task_id (ct_queue_claims s) |> else s
    | None => s
    end in
  s <| ct_pending_wakes := ct_pending_wakes s ∖ {[task_id]} |>.

Definition finish_assignment (task_id outcome : string) (s : ControlStore) : ControlStore :=
  let should_wake := str_in outcome waiting_outcomes && bool_decide (task_id ∈ ct_pending_wakes s) in
  let s := match dget task_id (ct_assignments s) with
    | Some (a, _) =>
        let s := s <| ct_assignments := dset task_id (a, outcome) (ct_assignments s) |> in
        if str_in outcome (["completed"; "failed"; "cancelled"] ++ waiting_outcomes) then
          let s := s <| ct_assignment_started_at := ddel task_id (ct_assignment_started_at s) |> in
          let resource_id := session_resource (ra_tenant_id a) (ra_session_id a) in
          match dget resource_id (ct_leases s) with
          | Some lease =>
              if String.eqb (le_lease_id lease) (ra_lease_id a)
              then s <| ct_leases := ddel resource_id (ct_leases s) |> else s
          | None => s
          end
        else s
    | None => s
    end in
  settle_queue task_id should_wake s.

Definition suspend_assignment (task_id reason : string) (s : ControlStore) : res ControlStore :=
  if negb (str_in reason waiting_outcomes)
  then Raise PyValueError ("unsupported assignment suspension: " +:+ reason)
  else Ok (finish_assignment task_id reason s).

Definition checkpoint_key (c : RuntimeCheckpoint) : run_key :=
  (cp_tenant_id c, cp_session_id c, cp_run_id c).

Definition suspend_with_checkpoint (task_id : string) (c : RuntimeCheckpoint) (reason : string) (now : Z)
    (s : ControlStore) : res ControlStore :=
  if negb (str_in reason waiting_outcomes)
  then Raise PyValueError ("unsupported assignment suspension: " +:+ reason)
  else
  let stale := Raise FencingTokenError "checkpoint suspension rejected for stale Runtime" in
  let resource_id := session_resource (cp_tenant_id c) (cp_session_id c) in
  match dget task_id (ct_assignments s) with
  | None => stale
  | Some (a, _) =>
      if negb (String.eqb (ra_run_id a) (cp_run_id c)) || negb (fenced s resource_id (cp_fencing_token c) now)
      then stale
      else if match dget (checkpoint_key c) (ct_checkpoints s) with
              | Some p => cp_fencing_token c <? cp_fencing_token p | None => false end
      then stale
      else
      let should_wake := bool_decide (task_id ∈ ct_pending_wakes s) in
      Ok (settle_queue task_id should_wake
           (s <| ct_checkpoints := dset (checkpoint_key c) c (ct_checkpoints s) |>
              <| ct_assignments := dset task_id (a, reason) (ct_assignments s) |>
              <| ct_assignment_started_at := ddel task_id (ct_assignment_started_at s) |>
              <| ct_leases := ddel resource_id (ct_leases s) |>))
  end.

Definition wake_assignment (task_id : string) (s : ControlStore) : ControlStore * bool :=
  match dget task_id (ct_assignments s), dget task_id (ct_queue s) with
  | Some (_, status), Some (item, queue_status, _) =>
      if str_in status active_statuses
      then (s <| ct_pending_wakes := {[task_id]} ∪ ct_pending_wakes s |>, false)
      else if negb (str_in status waiting_outcomes) then (s, false)
      else if negb (String.eqb queue_status "acked") then (s, false)
      else (s <| ct_queue := dset task_id (item, "queued", None) (ct_queue s) |>
              <| ct_queue_claims := ddel task_id (ct_queue_claims s) |>
              <| ct_pending_wakes := ct_pending_wakes s ∖ {[task_id]} |>, true)
  | _, _ => (s, false)
  end.

Definition list_waiting_assignments (limit : Z) (status : string) (s : ControlStore)
    : list RuntimeAssignment :=
  take (Z.to_nat (Z.max 0 limit))
    (map (λ e, e.2.1)
       (filter (λ e, String.eqb e.2.2 status
                     && match dget e.1 (ct_queue s) with
                        | Some (_, qs, _) => String.eqb qs "acked" | None => false end = true)
          (ct_assignments s))).

(** ** Runtimes, capacity, checkpoints *)

Definition register_runtime (i : RuntimeInstance) (now now' : Z) (s : ControlStore) : res ControlStore :=
  if match dget (rt_runtime_id i) (ct_runtimes s) with
     | Some (current, heartbeat_at) =>
         negb (String.eqb (rt_registration_id current) (rt_registration_id i))
         && (now - stale_heartbeat_after <? heartbeat_at)
     | None => false
     end
  then Raise LeaseConflictError ("runtime id is already registered: " +:+ rt_runtime_id i)
  else Ok (s <| ct_runtimes := dset (rt_runtime_id i) (i, now') (ct_runtimes s) |>).

Definition heartbeat (runtime_id : string) (fencing_token : option Z) (registration_id : string)
    (now : Z) (s : ControlStore) : res ControlStore :=
  match dget runtime_id (ct_runtimes s) with
  | None => Raise LeaseConflictError ("unknown runtime: " +:+ runtime_id)
  | Some (r, _) =>
      if negb (String.eqb (rt_registration_id r) registration_id)
      then Raise LeaseConflictError ("runtime registration is stale: " +:+ runtime_id)
      else if match fencing_token with
              | None => false
              | Some token =>
                  match list_find (λ e, ra_runtime_id e.1 = runtime_id) (dvalues (ct_assignments s)) with
                  | Some (_, (a, _)) => negb (ra_fencing_token a =? token)
                  | None => true
                  end
              end
      then Raise FencingTokenError ("stale runtime heartbeat: " +:+ runtime_id)
      else Ok (s <| ct_runtimes := dset runtime_id (r, now) (ct_runtimes s) |>)
  end.

Definition reserve_capacity (scope : string) (amount limit : Z) (s : ControlStore) : ControlStore * bool :=
  let current := default 0 (dget scope (ct_capacity s)) in
  if (amount <? 0) || (limit <? current + amount) then (s, false)
  else (s <| ct_capacity := dset scope (current + amount) (ct_capacity s) |>, true).

Definition release_capacity (scope : string) (amount : Z) (s : ControlStore) : ControlStore :=
  s <| ct_capacity := dset scope (Z.max 0 (default 0 (dget scope (ct_capacity s)) - amount))
         (ct_capacity s) |>.

Definition save_checkpoint (c : RuntimeCheckpoint) (now : Z) (s : ControlStore) : res ControlStore :=
  if negb (fenced s (session_resource (cp_tenant_id c) (cp_session_id c)) (cp_fencing_token c) now)
  then Raise FencingTokenError "checkpoint rejected for stale Runtime"
  else Ok (if match dget (checkpoint_key c) (ct_checkpoints s) with
              | Some p => cp_fencing_token p <=? cp_fencing_token c | None => true end
           then s <| ct_checkpoints := dset (checkpoint_key c) c (ct_checkpoints s) |> else s).

Definition load_checkpoint (s : ControlStore) (tenant_id session_id run_id : string)
    : option RuntimeCheckpoint := dget (tenant_id, session_id, run_id) (ct_checkpoints s).

Definition request_cancel (tenant_id session_id run_id : string) (s : ControlStore) : ControlStore :=
  s <| ct_cancellations := {[(tenant_id, session_id, run_id)]} ∪ ct_cancellations s |>.

Definition is_cancelled (s : ControlStore) (tenant_id session_id run_id : string) : bool :=
  bool_decide ((tenant_id, session_id, run_id) ∈ ct_cancellations s).

(** ** Recovery *)

Definition resource_of (a : RuntimeAssignment) : string :=
  session_resource (ra_tenant_id a) (ra_session_id a).

(** An active assignment whose runtime stopped: its execution claim expired, or its
    runtime is unknown or silent. *)
Definition abandoned (s : ControlStore) (now : Z) (e : RuntimeAssignment * string) : bool :=
  let '(a, status) := e in
  str_in status active_statuses
  && (String.eqb status "running"
      && match ra_execution_claim_expires_at a with Some t => t <=? now | None => false end
      || match dget (ra_runtime_id a) (ct_runtimes s) with
         | None => true
         | Some (_, heartbeat_at) => heartbeat_at <=? now - stale_heartbeat_after
         end).

Definition expired_resources (s : ControlStore) (now : Z) : list string :=
  dkeys (filter (λ kl, le_expires_at kl.2 <=? now = true) (ct_leases s))
  ++ map (λ e, resource_of e.1) (filter (λ e, abandoned s now e = true) (dvalues (ct_assignments s))).

Definition recover_assignment (expired : list string) (acc : ControlStore * Z)
    (e : string * (RuntimeAssignment * string)) : ControlStore * Z :=
  let '(task_id, (a, status)) := e in
  if str_in (resource_of a) expired && str_in status active_statuses
  then (expire_assignment task_id a acc.1, acc.2 + 1) else acc.

Definition recover_claim (now : Z) (acc : ControlStore * Z) (e : string * queue_entry) : ControlStore * Z :=
  let '(task_id, (_, status, _)) := e in
  if String.eqb status "claimed"
     && match dget task_id (ct_queue_claims acc.1) with Some (_, t) => t <=? now | None => false end
  then (requeue task_id acc.1, acc.2 + 1) else acc.

Definition recover_expired (now : Z) (s : ControlStore) : ControlStore * Z :=
  let expired := expired_resources s now in
  let s := s <| ct_leases := fold_left (λ ls r, ddel r ls) expired (ct_leases s) |> in
  let acc := fold_left (recover_assignment expired) (ct_assignments s) (s, 0) in
  fold_left (recover_claim now) (ct_queue acc.1) acc.

(** ** Histories *)

Inductive ControlOp :=
  | CEnqueue (item : RunnableItem)
  | CClaim (worker : string) (limit ttl now : Z) (uuid : nat → string)
  | CReschedule (task : string) (worker token : option string) (delay now now' : Z)
  | CAcquire (resource owner : string) (ttl now : Z) (uuid : string)
  | CRenew (lease : RuntimeLease) (ttl now now' : Z)
  | CRelease (lease : RuntimeLease)
  | CAssign (task : string) (a : RuntimeAssignment) (token : string) (now now' : Z)
  | CStart (runtime role registration : string) (limit now : Z) (uuid : nat → string)
  | CRenewClaim (task runtime registration token lease : string) (fencing now : Z)
  | CAbandon (task runtime lease : string) (fencing now : Z)
  | CFinish (task outcome : string)
  | CSuspend (task reason : string)
  | CSuspendCheckpoint (task : string) (c : RuntimeCheckpoint) (reason : string) (now : Z)
  | CWake (task : string)
  | CRegister (i : RuntimeInstance) (now now' : Z)
  | CHeartbeat (runtime : string) (fencing : option Z) (registration : string) (now : Z)
  | CReserve (scope : string) (amount limit : Z)
  | CReleaseCapacity (scope : string) (amount : Z)
  | CCheckpoint (c : RuntimeCheckpoint) (now : Z)
  | CCancel (tenant session run : string)
  | CRecover (now : Z).

(** An operation that raises leaves the store. *)
Definition or_same (s : ControlStore) (r : res ControlStore) : ControlStore :=
  match r with Ok s' => s' | Raise _ _ => s end.

Definition run_cop (s : ControlStore) (op : ControlOp) : ControlStore :=
  match op with
  | CEnqueue item => (enqueue item s).1
  | CClaim w limit ttl now uuid => (claim w limit ttl now uuid s).1
  | CReschedule t w tok d now now' => reschedule t w tok d now now' s
  | CAcquire r o ttl now uuid => (acquire_lease r o ttl now uuid s).1
  | CRenew l ttl now now' => or_same s (fst <$> renew_lease l ttl now now' s)
  | CRelease l => release_lease l s
  | CAssign t a tok now now' => (assign t a tok now now' s).1
  | CStart r role reg limit now uuid => (claim_assignments r role reg limit now uuid s).1
  | CRenewClaim t r reg tok l f now => or_same s (fst <$> renew_assignment_claim t r reg tok l f now s)
  | CAbandon t r l f now => (abandon_stale_assignment t r l f now s).1
  | CFinish t o => finish_assignment t o s
  | CSuspend t r => or_same s (suspend_assignment t r s)
  | CSuspendCheckpoint t c r now => or_same s (suspend_with_checkpoint t c r now s)
  | CWake t => (wake_assignment t s).1
  | CRegister i now now' => or_same s (register_runtime i now now' s)
  | CHeartbeat r f reg now => or_same s (heartbeat r f reg now s)
  | CReserve sc am limit => (reserve_capacity sc am limit s).1
  | CReleaseCapacity sc am => release_capacity sc am s
  | CCheckpoint c now => or_same s (save_checkpoint c now s)
  | CCancel t se r => request_cancel t se r s
  | CRecover now => (recover_expired now s).1
  end.

Definition run_cops (ops : list ControlOp) (s : ControlStore) : ControlStore := fold_left run_cop ops s.

Lemma run_cops_ind (P : ControlStore → Prop) (Q : ControlOp → Prop) ops s :
  (∀ s op, Q op → P s → P (run_cop s op)) → Forall Q ops → P s → P (run_cops ops s).
Proof.
  intros Hstep HQ. revert s. unfold run_cops.
  induction HQ as [|op ops Hop _ IH]; intros s Hs; cbn; [done|]. auto.
Qed.

(** ** Leases and fencing tokens *)

Definition lease_counter (s : ControlStore) (r : string) : Z := default 0 (dget r (ct_lease_counters s)).

(** The lease on a resource always carries the last token issued for it. *)
Definition leases_ok (s : ControlStore) : Prop :=
  dict_wf (ct_leases s) ∧
  ∀ r l, dget r (ct_leases s) = Some l → le_resource_id l = r ∧ le_fencing_token l = lease_counter s r.

(** From one store to a later one: tokens are only issued upwards. *)
Definition lease_progress (s s' : ControlStore) : Prop :=
  leases_ok s → leases_ok s' ∧ ∀ r, lease_counter s r ≤ lease_counter s' r.

Lemma lease_progress_refl s s' :
  ct_leases s' = ct_leases s → ct_lease_counters s' = ct_lease_counters s → lease_progress s s'.
Proof.
  intros Hl Hc H. unfold leases_ok, lease_counter in *. rewrite Hl, Hc. split; [done|]. intros. lia.
Qed.

Lemma lease_progress_trans s1 s2 s3 :
  lease_progress s1 s2 → lease_progress s2 s3 → lease_progress s1 s3.
Proof.
  intros H1 H2 H. destruct (H1 H) as [Hs2 Hc1]. destruct (H2 Hs2) as [Hs3 Hc2]. split; [done|].
  intros r. specialize (Hc1 r). specialize (Hc2 r). lia.
Qed.

(** Replacing a lease by one with the same resource and token. *)
Lemma lease_progress_set s s' r l l' :
  dget r (ct_leases s) = Some l → ct_leases s' = dset r l' (ct_leases s) →
  ct_lease_counters s' = ct_lease_counters s →
  le_resource_id l' = le_resource_id l → le_fencing_token l' = le_fencing_token l →
  lease_progress s s'.
Proof.
  intros Hl Hs Hc Hr Ht [Hwf H]. unfold leases_ok, lease_counter in *. rewrite Hs, Hc.
  split; [|intros; lia]. split; [by apply dset_wf|]. intros r' x. rewrite dget_dset.
  case_decide; intros; simplify_eq; [|by apply H]. rewrite Hr, Ht. by apply H.
Qed.

Lemma dget_ddel_Some {K V} `{EqDecision K} (k r : K) (d : list (K * V)) v :
  dict_wf d → dget r (ddel k d) = Some v → dget r d = Some v.
Proof.
  intros Hwf. destruct (decide (r = k)) as [->|]; [by rewrite dget_ddel_eq|by rewrite dget_ddel_ne].
Qed.

Lemma lease_progress_del s s' r :
  ct_leases s' = ddel r (ct_leases s) → ct_lease_counters s' = ct_lease_counters s →
  lease_progress s s'.
Proof.
  intros Hs Hc [Hwf H]. unfold leases_ok, lease_counter in *. rewrite Hs, Hc.
  split; [|intros; lia]. split; [by apply ddel_wf|]. intros r' x Hx. apply H. by eapply dget_ddel_Some.
Qed.

Create HintDb lease.
#[export] Hint Resolve lease_progress_refl : lease.

(** Fields a helper leaves alone. *)
Lemma requeue_leases t s :
  ct_leases (requeue t s) = ct_leases s ∧ ct_lease_counters (requeue t s) = ct_lease_counters s
  ∧ ct_assignments (requeue t s) = ct_assignments s ∧ ct_runtimes (requeue t s) = ct_runtimes s.
Proof. unfold requeue. by repeat case_match. Qed.

Lemma settle_queue_leases t b s :
  ct_leases (settle_queue t b s) = ct_leases s
  ∧ ct_lease_counters (settle_queue t b s) = ct_lease_counters s
  ∧ ct_checkpoints (settle_queue t b s) = ct_checkpoints s.
Proof. unfold settle_queue. by repeat case_match. Qed.

Lemma claim_fold_leases w (uuid : nat → string) t items s :
  let s' := fold_left (λ s ic, take_item w (uuid ic.1) t s ic.2) items s in
  ct_leases s' = ct_leases s ∧ ct_lease_counters s' = ct_lease_counters s
  ∧ ct_checkpoints s' = ct_checkpoints s ∧ ct_pending_wakes s' = ct_pending_wakes s
  ∧ ct_capacity s' = ct_capacity s.
Proof.
  cbn. revert s. induction items as [|[i x] items IH]; intros s; cbn; [done|].
  specialize (IH (take_item w (uuid i) t s x)). by destruct IH as (-> & -> & -> & -> & ->).
Qed.

Lemma start_loop_progress rid r limit now uuid entries s claimed :
  lease_progress s (start_loop rid r limit now uuid entries s claimed).1.
Proof.
  revert s claimed. induction entries as [|[t [a st]] entries IH]; intros s claimed; cbn [start_loop];
    [by apply lease_progress_refl|].
  destruct (startable s rid r now (a, st)) as [l|] eqn:Es; [|apply IH].
  destruct (start_assignment s now (uuid (length claimed)) t a l) as [s1 a1] eqn:E1.
  assert (lease_progress s s1) as H1.
  { unfold start_assignment in E1. injection E1 as <- <-. unfold startable in Es.
    repeat case_match; simplify_eq. by eapply lease_progress_set. }
  destruct (limit <=? _); [done|]. eapply lease_progress_trans; [exact H1|apply IH].
Qed.

Lemma ddel_all_leases (rs : list string) (ls : list (string * RuntimeLease)) :
  dict_wf ls → let ls' := fold_left (λ ls r, ddel r ls) rs ls in
  dict_wf ls' ∧ ∀ r l, dget r ls' = Some l → dget r ls = Some l ∧ r ∉ rs.
Proof.
  cbn. revert ls. induction rs as [|k rs IH]; intros ls Hwf; cbn.
  { split; [done|]. intros r l Hl. split; [done|]. apply not_elem_of_nil. }
  destruct (IH (ddel k ls) (ddel_wf k ls Hwf)) as [Hw Hg]. split; [done|].
  intros r l Hl. destruct (Hg r l Hl) as [Hd Hr]. split; [by eapply dget_ddel_Some|].
  apply not_elem_of_cons. split; [|done]. intros ->. by rewrite dget_ddel_eq in Hd.
Qed.

Lemma recover_folds_leases expired now es qs acc :
  let s' := (fold_left (recover_claim now) qs (fold_left (recover_assignment expired) es acc)).1 in
  ct_leases s' = ct_leases acc.1 ∧ ct_lease_counters s' = ct_lease_counters acc.1
  ∧ ct_checkpoints s' = ct_checkpoints acc.1 ∧ ct_pending_wakes s' = ct_pending_wakes acc.1
  ∧ ct_capacity s' = ct_capacity acc.1.
Proof.
  cbn. assert (∀ t s, ct_leases (requeue t s) = ct_leases s ∧ ct_lease_counters (requeue t s) = ct_lease_counters s
    ∧ ct_checkpoints (requeue t s) = ct_checkpoints s ∧ ct_pending_wakes (requeue t s) = ct_pending_wakes s
    ∧ ct_capacity (requeue t s) = ct_capacity s) as Hrq by (intros; unfold requeue; by repeat case_match).
  revert acc. induction es as [|[t [a st]] es IH]; intros acc; cbn [fold_left].
  - revert acc. induction qs as [|[t [[i st] o]] qs IH]; intros acc; cbn [fold_left]; [done|].
    specialize (IH (recover_claim now acc (t, (i, st, o)))).
    destruct IH as (-> & -> & -> & -> & ->). unfold recover_claim.
    destruct (_ && _); [|done]. apply Hrq.
  - specialize (IH (recover_assignment expired acc (t, (a, st)))).
    destruct IH as (-> & -> & -> & -> & ->). unfold recover_assignment.
    destruct (_ && _); [|done]. unfold expire_assignment. cbn [fst].
    match goal with |- context [requeue t ?s1] => destruct (Hrq t s1) as (-> & -> & -> & -> & ->) end.
    done.
Qed.

Lemma finish_progress t o s : lease_progress s (finish_assignment t o s).
Proof.
  unfold finish_assignment.
  match goal with |- lease_progress s (settle_queue t ?b ?s1) =>
    destruct (settle_queue_leases t b s1) as (H1 & H2 & _);
    eapply (lease_progress_trans _ s1); [|by apply lease_progress_refl]
  end.
  repeat case_match; try (by apply lease_progress_refl). by eapply lease_progress_del.
Qed.

Lemma op_lease_progress s op : lease_progress s (run_cop s op).
Proof.
  destruct op; cbn [run_cop].
  - unfold enqueue. case_match; by apply lease_progress_refl.
  - destruct (claim_fold_leases worker uuid (now + ttl) (imap pair (first_n limit (claim_candidates s now))) s)
      as (Hll & Hcc & _). by apply lease_progress_refl.
  - unfold reschedule. repeat case_match; by apply lease_progress_refl.
  - unfold acquire_lease. destruct (match dget resource _ with Some _ => _ | None => _ end);
      [by apply lease_progress_refl|]. intros [Hwf H]. cbn. unfold leases_ok, lease_counter in *. cbn.
    split; [split; [by apply dset_wf|]|].
    + intros r l. rewrite !dget_dset. case_decide; intros; simplify_eq; [done|by apply H].
    + intros r. rewrite dget_dset. case_decide; subst; cbn; lia.
  - unfold renew_lease. destruct (dget _ _) as [l|] eqn:E; [|by apply lease_progress_refl].
    case_match; [by apply lease_progress_refl|]. by eapply lease_progress_set.
  - unfold release_lease. repeat case_match; try (by apply lease_progress_refl). by eapply lease_progress_del.
  - unfold assign. repeat case_match; by apply lease_progress_refl.
  - unfold claim_assignments. repeat case_match; try (by apply lease_progress_refl). apply start_loop_progress.
  - unfold renew_assignment_claim. repeat case_match; try (by apply lease_progress_refl).
    by eapply lease_progress_set.
  - unfold abandon_stale_assignment, expire_assignment.
    repeat case_match; try (by apply lease_progress_refl). cbn [fst].
    match goal with |- lease_progress _ (requeue ?t ?s1) => destruct (requeue_leases t s1) as (Hll & Hcc & _) end.
    by apply lease_progress_refl.
  - apply finish_progress.
  - unfold suspend_assignment. case_match; [by apply lease_progress_refl|]. apply finish_progress.
  - unfold suspend_with_checkpoint. repeat case_match; try (by apply lease_progress_refl); cbn [or_same];
    (match goal with |- lease_progress _ (settle_queue ?t ?b ?s1) =>
      destruct (settle_queue_leases t b s1) as (Hll & Hcc & _) end;
     eapply lease_progress_del; [exact Hll|exact Hcc]).
  - unfold wake_assignment. repeat case_match; by apply lease_progress_refl.
  - unfold register_runtime. repeat case_match; by apply lease_progress_refl.
  - unfold heartbeat. repeat case_match; by apply lease_progress_refl.
  - unfold reserve_capacity. repeat case_match; by apply lease_progress_refl.
  - by apply lease_progress_refl.
  - unfold save_checkpoint. repeat case_match; by apply lease_progress_refl.
  - by apply lease_progress_refl.
  - unfold recover_expired.
    set (s1 := s <| ct_leases := _ |>).
    match goal with |- lease_progress s (fold_left _ ?qs (fold_left (recover_assignment ?ex) ?es _)).1 =>
      destruct (recover_folds_leases ex now es qs (s1, 0)) as (Hll & Hcc & _) end.
    eapply (lease_progress_trans _ s1); [|by apply lease_progress_refl].
    intros [Hwf H]. destruct (ddel_all_leases (expired_resources s now) (ct_leases s) Hwf) as [Hw Hg].
    split; [|intros; cbn; unfold lease_counter; cbn; lia]. split; [done|].
    intros r l Hl. apply (H r l). by apply Hg.
Qed.

Lemma leases_ok_new : leases_ok new_control.
Proof. split; [constructor|done]. Qed.

Lemma run_lease_progress ops s : lease_progress s (run_cops ops s).
Proof.
  apply (run_cops_ind (lease_progress s) (λ _, True)); [|by apply Forall_true|by apply lease_progress_refl].
  intros s' op _ H. eapply lease_progress_trans; [exact H|]. apply op_lease_progress.
Qed.

Lemma acquire_token r o ttl now u s s' l :
  acquire_lease r o ttl now u s = (s', Some l) →
  le_fencing_token l = lease_counter s r + 1 ∧ lease_counter s' r = lease_counter s r + 1
  ∧ dget r (ct_leases s') = Some l ∧ le_owner l = o ∧ le_resource_id l = r
  ∧ le_expires_at l = now + ttl
  ∧ s' = run_cop s (CAcquire r o ttl now u).
Proof.
  intros Ha. assert (s' = run_cop s (CAcquire r o ttl now u)) as Hs by (cbn; by rewrite Ha).
  unfold acquire_lease in Ha. destruct (match dget r _ with Some _ => _ | None => _ end); [done|].
  injection Ha as <- <-. unfold lease_counter. cbn. rewrite !dget_dset_eq. split_and!; done.
Qed.

(** A token older than the last one issued is not accepted. *)
Lemma old_token_not_fenced s r token now : leases_ok s → token < lease_counter s r → fenced s r token now = false.
Proof.
  intros [_ H] Hlt. unfold fenced. destruct (dget r (ct_leases s)) as [l|] eqn:E; [|done].
  destruct (H r l E) as [_ Ht]. destruct (Z.eqb_spec (le_fencing_token l) token); [lia|].
  apply andb_false_r.
Qed.

(** C3. Fencing: leases on one resource carry strictly increasing tokens, and
    once a new lease was granted the old token is dead: whatever happens in
    between and afterwards, an operation fenced by the old token is refused, be
    it [assert_fencing] or the saving of a checkpoint. *)
Theorem stale_fencing_token_refused ops0 ops1 ops2 r o1 ttl1 t1 u1 s1 l1 o2 ttl2 t2 u2 s2 l2 :
  acquire_lease r o1 ttl1 t1 u1 (run_cops ops0 new_control) = (s1, Some l1) →
  acquire_lease r o2 ttl2 t2 u2 (run_cops ops1 s1) = (s2, Some l2) →
  let s := run_cops ops2 s2 in
  le_fencing_token l1 < le_fencing_token l2
  ∧ (∀ now, ∃ m, assert_fencing r (le_fencing_token l1) now s = Raise FencingTokenError m)
  ∧ (∀ c now, session_resource (cp_tenant_id c) (cp_session_id c) = r →
       cp_fencing_token c = le_fencing_token l1 →
       save_checkpoint c now s = Raise FencingTokenError "checkpoint rejected for stale Runtime").
Proof.
  intros H1 H2 s. apply acquire_token in H1 as (Ht1 & Hc1 & _ & _ & _ & _ & Hs1).
  apply acquire_token in H2 as (Ht2 & Hc2 & _ & _ & _ & _ & Hs2).
  destruct (run_lease_progress ops0 new_control leases_ok_new) as [Hok0 _].
  destruct (op_lease_progress _ (CAcquire r o1 ttl1 t1 u1) Hok0) as [Hok1 _]. rewrite <- Hs1 in Hok1.
  destruct (run_lease_progress ops1 s1 Hok1) as [Hok1' Hm1].
  destruct (op_lease_progress _ (CAcquire r o2 ttl2 t2 u2) Hok1') as [Hok2 _]. rewrite <- Hs2 in Hok2.
  destruct (run_lease_progress ops2 s2 Hok2) as [Hok Hm2]. specialize (Hm1 r). specialize (Hm2 r).
  assert (le_fencing_token l1 < lease_counter s r) as Hlt by (unfold s; lia).
  split_and!; [lia| |].
  - intros now. unfold assert_fencing. rewrite old_token_not_fenced by done. eauto.
  - intros c now Hr Ht. unfold save_checkpoint. rewrite Hr, Ht, old_token_not_fenced by done. done.
Qed.

(** A lease is exclusive: [acquire_lease] grants nothing while the current
    lease is live; when it grants one, no live lease existed, and the new lease
    belongs to the caller, is the one stored, and carries the next token. *)
Theorem acquire_lease_exclusive r owner ttl now uuid s s' granted :
  acquire_lease r owner ttl now uuid s = (s', granted) →
  match granted with
  | None => s' = s ∧ ∃ l, dget r (ct_leases s) = Some l ∧ now < le_expires_at l
  | Some l => (∀ l0, dget r (ct_leases s) = Some l0 → le_expires_at l0 ≤ now)
      ∧ dget r (ct_leases s') = Some l ∧ le_owner l = owner ∧ le_expires_at l = now + ttl
      ∧ le_fencing_token l = lease_counter s r + 1
      ∧ (∀ r', r' ≠ r → dget r' (ct_leases s') = dget r' (ct_leases s))
  end.
Proof.
  intros Ha. destruct granted as [l|].
  - pose proof (acquire_token _ _ _ _ _ _ _ _ Ha) as (Ht & _ & Hl & Ho & _ & He & _).
    unfold acquire_lease in Ha. destruct (dget r (ct_leases s)) as [l0|] eqn:E0.
    + destruct (live now l0) eqn:El; [done|]. unfold live in El. bool_props. simplify_eq.
      split_and!; try done; [intros; simplify_eq; lia|]. intros. cbn. by apply dget_dset_ne.
    + simplify_eq. split_and!; try done. intros. cbn. by apply dget_dset_ne.
  - unfold acquire_lease in Ha. destruct (dget r (ct_leases s)) as [l0|]; [|done].
    destruct (live now l0) eqn:El; [|done]. simplify_eq. unfold live in El. bool_props. eauto.
Qed.

(** An assignment needs a live claim and a live lease, and spends the claim:
    [assign] succeeds only for the worker that holds the unexpired queue claim
    and the live lease the assignment names, and only if the task has no active
    assignment; afterwards no further [assign] of that task succeeds until it is
    claimed again. *)
Theorem assign_spends_claim task a token now now' s s' :
  assign task a token now now' s = (s', true) →
  (∃ item worker expires lease,
     dget task (ct_queue s) = Some (item, "claimed", Some worker)
     ∧ dget task (ct_queue_claims s) = Some (token, expires) ∧ now < expires
     ∧ dget (resource_of a) (ct_leases s) = Some lease ∧ le_owner lease = worker
     ∧ le_lease_id lease = ra_lease_id a ∧ le_fencing_token lease = ra_fencing_token a
     ∧ now' < le_expires_at lease
     ∧ dget task (ct_queue s') = Some (item, "assigned", Some worker))
  ∧ (∀ b st, dget task (ct_assignments s) = Some (b, st) → st ∉ active_statuses)
  ∧ dget task (ct_assignments s') = Some (a, "assigned")
  ∧ task ∉ ct_pending_wakes s'
  ∧ ∀ b token2 t t', assign task b token2 t t' s' = (s', false).
Proof.
  unfold assign. intros Ha. destruct (may_assign s task a token now now') eqn:Em; cbn [negb] in Ha; [|done].
  unfold may_assign in Em. destruct (dget task (ct_queue s)) as [[[item status] owner]|] eqn:Eq; [|done].
  destruct (dget task (ct_queue_claims s)) as [[tok expires]|] eqn:Ec; [|done].
  destruct (dget (session_resource _ _) (ct_leases s)) as [lease|] eqn:El; [|done].
  unfold live in Em. bool_props. subst.
  destruct (match dget task (ct_assignments s) with Some _ => _ | None => _ end) eqn:Eas; [done|].
  cbn in Ha. rewrite Eq in Ha. injection Ha as <-. split_and!.
  - exists item, (le_owner lease), expires, lease. split_and!; try done. cbn. apply dget_dset_eq.
  - intros b st Hb. rewrite Hb in Eas. bool_props. apply str_in_spec in Eas.
    intros Hin. unfold reassignable, active_statuses, waiting_outcomes in *. cbn in Eas. set_solver.
  - cbn. apply dget_dset_eq.
  - cbn. set_solver.
  - intros b token2 t t'. unfold assign, may_assign. cbn. rewrite dget_dset_eq. cbn.
    by repeat case_match.
Qed.

(** ** Claiming from the queue *)

(** Each task is queued under its own id. *)
Definition queue_ok (q : list (string * queue_entry)) : Prop :=
  dict_wf q ∧ ∀ t e, dget t q = Some e → ri_task_id e.1.1 = t.

Lemma queue_ok_set q t item st o : queue_ok q → ri_task_id item = t → queue_ok (dset t (item, st, o) q).
Proof.
  intros [Hwf H] Ht. split; [by apply dset_wf|]. intros t' e. rewrite dget_dset.
  case_decide; intros; simplify_eq; [done|by apply H].
Qed.

Lemma queue_ok_reset q t item st o st' o' :
  queue_ok q → dget t q = Some (item, st, o) → queue_ok (dset t (item, st', o') q).
Proof. intros Hq Ht. apply queue_ok_set; [done|]. destruct Hq as [_ H]. by apply (H t) in Ht. Qed.

Lemma requeue_queue_ok t s : queue_ok (ct_queue s) → queue_ok (ct_queue (requeue t s)).
Proof.
  intros H. unfold requeue. destruct (dget t (ct_queue s)) as [[[i st] o]|] eqn:E; [|done].
  by eapply queue_ok_reset.
Qed.

Lemma settle_queue_ok t b s : queue_ok (ct_queue s) → queue_ok (ct_queue (settle_queue t b s)).
Proof.
  intros H. unfold settle_queue. destruct (dget t (ct_queue s)) as [[[i st] o]|] eqn:E; [|done].
  destruct b; by eapply queue_ok_reset.
Qed.

Section claim_fold.
Context (w : string) (uuid : nat → string) (t : Z).

Definition take_all (items : list (nat * RunnableItem)) (s : ControlStore) : ControlStore :=
  fold_left (λ s ic, take_item w (uuid ic.1) t s ic.2) items s.

Lemma take_all_queue_ok items s : queue_ok (ct_queue s) → queue_ok (ct_queue (take_all items s)).
Proof.
  revert s. unfold take_all. induction items as [|[i x] items IH]; intros s Hs; cbn [fold_left fst snd]; [done|].
  apply IH. by apply queue_ok_set.
Qed.

Lemma take_all_other items s k :
  k ∉ map (λ ic, ri_task_id ic.2) items →
  dget k (ct_queue (take_all items s)) = dget k (ct_queue s)
  ∧ dget k (ct_queue_claims (take_all items s)) = dget k (ct_queue_claims s).
Proof.
  revert s. unfold take_all. induction items as [|[i x] items IH]; intros s Hk; cbn [fold_left map fst snd] in *;
    [done|].
  apply not_elem_of_cons in Hk as [Hne Hk]. destruct (IH (take_item w (uuid i) t s x) Hk) as [-> ->].
  cbn. by rewrite !dget_dset_ne.
Qed.

Lemma take_all_taken items s i x :
  NoDup (map (λ ic, ri_task_id ic.2) items) → (i, x) ∈ items →
  dget (ri_task_id x) (ct_queue (take_all items s)) = Some (x, "claimed", Some w)
  ∧ dget (ri_task_id x) (ct_queue_claims (take_all items s)) = Some (uuid i, t).
Proof.
  revert s. induction items as [|[j y] items IH]; intros s Hnd Hin; [by apply elem_of_nil in Hin|].
  cbn [map snd] in Hnd. apply NoDup_cons in Hnd as [Hy Hnd]. unfold take_all. cbn [fold_left fst snd].
  fold (take_all items (take_item w (uuid j) t s y)).
  apply elem_of_cons in Hin as [Heq|Hin]; [|by apply IH]. simplify_eq.
  destruct (take_all_other items (take_item w (uuid j) t s y) (ri_task_id y) Hy) as [-> ->].
  cbn. by rewrite !dget_dset_eq.
Qed.
End claim_fold.

Lemma start_loop_queue_ok rid r limit now uuid es s cl :
  queue_ok (ct_queue s) → queue_ok (ct_queue (start_loop rid r limit now uuid es s cl).1).
Proof.
  revert s cl. induction es as [|[t [a st]] es IH]; intros s cl H; cbn [start_loop]; [done|].
  destruct (startable _ _ _ _ _) as [l|]; [|by apply IH]. unfold start_assignment.
  destruct (limit <=? _); [done|]. by apply IH.
Qed.

Lemma op_queue_ok s op : queue_ok (ct_queue s) → queue_ok (ct_queue (run_cop s op)).
Proof.
  intros H. assert (∀ t o s, queue_ok (ct_queue s) → queue_ok (ct_queue (finish_assignment t o s))) as Hfin.
  { intros t o s0 H0. unfold finish_assignment. apply settle_queue_ok. by repeat case_match. }
  destruct op; cbn [run_cop].
  - unfold enqueue. case_match; [done|]. by apply queue_ok_set.
  - by apply take_all_queue_ok.
  - unfold reschedule. destruct (dget task (ct_queue s)) as [[[i st] o]|] eqn:E; [|by repeat case_match].
    destruct (_ && _); [done|]. cbn. repeat case_match; by eapply queue_ok_reset.
  - unfold acquire_lease. by repeat case_match.
  - unfold renew_lease. by repeat case_match.
  - unfold release_lease. by repeat case_match.
  - unfold assign. destruct (negb _); [done|]. destruct (match dget task (ct_assignments s) with Some _ => _ | None => _ end); [done|].
    cbn. destruct (dget task (ct_queue s)) as [[[i st] o]|] eqn:E; [|done]. by eapply queue_ok_reset.
  - unfold claim_assignments. repeat case_match; try done.
    by apply start_loop_queue_ok.
  - unfold renew_assignment_claim. by repeat case_match.
  - unfold abandon_stale_assignment. repeat case_match; try done. by apply requeue_queue_ok.
  - by apply Hfin.
  - unfold suspend_assignment. case_match; [done|]. by apply Hfin.
  - unfold suspend_with_checkpoint. repeat case_match; try done; by apply settle_queue_ok.
  - unfold wake_assignment. destruct (dget task (ct_assignments s)) as [[a st]|]; [|done].
    destruct (dget task (ct_queue s)) as [[[i qs] o]|] eqn:E; [|done].
    repeat case_match; try done. by eapply queue_ok_reset.
  - unfold register_runtime. by repeat case_match.
  - unfold heartbeat. by repeat case_match.
  - unfold reserve_capacity. by repeat case_match.
  - done.
  - unfold save_checkpoint. by repeat case_match.
  - done.
  - unfold recover_expired. apply (fold_left_inv (λ acc, queue_ok (ct_queue acc.1))).
    + intros acc [t [[i st] o]] _ Hacc. unfold recover_claim. destruct (_ && _); [|done]. by apply requeue_queue_ok.
    + apply (fold_left_inv (λ acc, queue_ok (ct_queue acc.1))); [|done].
      intros acc [t [a st]] _ Hacc. unfold recover_assignment. destruct (_ && _); [|done].
      by apply requeue_queue_ok.
Qed.

Lemma run_queue_ok ops : queue_ok (ct_queue (run_cops ops new_control)).
Proof.
  apply (run_cops_ind (λ s, queue_ok (ct_queue s)) (λ _, True)); [|by apply Forall_true|].
  - intros. by apply op_queue_ok.
  - split; [constructor|done].
Qed.

Lemma first_n_nonneg {A} n (l : list A) : 0 ≤ n → first_n n l = take (Z.to_nat n) l.
Proof. intros. unfold first_n. destruct (Z.ltb_spec n 0); [lia|done]. Qed.

(** The candidates are the claimable entries, highest priority first. *)
Lemma candidates_spec s now x :
  queue_ok (ct_queue s) →
  x ∈ claim_candidates s now ↔
  ∃ st o, dget (ri_task_id x) (ct_queue s) = Some (x, st, o) ∧ claimable_entry s now (x, st, o) = true.
Proof.
  intros [Hwf Hq]. unfold claim_candidates. rewrite elem_of_py_sorted, list_elem_of_fmap. split.
  - intros ([[y st] o] & -> & [Hc Hin]%list_elem_of_filter). apply elem_of_dvalues in Hin as [k Hk]; [|done].
    cbn in *. pose proof (Hq k _ Hk) as Ht. cbn in Ht. subst k. eauto.
  - intros (st & o & Hg & Hc). exists (x, st, o). split; [done|]. apply list_elem_of_filter.
    split; [done|]. apply elem_of_dvalues; eauto.
Qed.

Lemma candidates_nodup s now : queue_ok (ct_queue s) → NoDup (map ri_task_id (claim_candidates s now)).
Proof.
  intros [Hwf Hq]. unfold claim_candidates.
  assert (∀ l k, l ≡ₚ k → NoDup (map ri_task_id k) → NoDup (map ri_task_id l)) as Hperm.
  { intros l k Hp. rewrite <- (Permutation_map ri_task_id Hp). done. }
  eapply Hperm; [apply py_sorted_perm|]. rewrite map_map.
  assert (map (λ e : queue_entry, ri_task_id e.1.1) (dvalues (ct_queue s)) = dkeys (ct_queue s)) as Hkeys.
  { unfold dict_wf in Hwf. unfold dkeys, dvalues in *. clear Hperm.
    assert (∀ t e, (t, e) ∈ ct_queue s → ri_task_id e.1.1 = t) as Hall.
    { intros t e Hin. apply Hq. by apply elem_dget. }
    clear Hq Hwf. induction (ct_queue s) as [|[t e] q IH]; [done|]. cbn.
    rewrite (Hall t e) by left. f_equal. apply IH. intros. apply Hall. by right. }
  eapply sublist_NoDup; [|apply fmap_sublist, sublist_filter].
  change (NoDup (map (λ e : queue_entry, ri_task_id e.1.1) (dvalues (ct_queue s)))). by rewrite Hkeys.
Qed.

Lemma candidates_sorted s now :
  StronglySorted (λ a b, ri_priority b ≤ ri_priority a) (claim_candidates s now).
Proof.
  apply py_sorted_sorted.
  - intros x y z H1 H2. lia.
  - intros x y. unfold priority_leb. destruct (Z.eqb_spec (ri_priority x) (ri_priority y)); cbn; lia.
  - intros x y. unfold priority_leb. destruct (Z.eqb_spec (ri_priority x) (ri_priority y)); cbn; lia.
Qed.

Lemma sorted_take_drop {A} (R : A → A → Prop) n (l : list A) a b :
  StronglySorted R l → a ∈ take n l → b ∈ drop n l → R a b.
Proof.
  intros Hs. revert n. induction Hs as [|x l Hs IH Hx]; intros n Ha Hb.
  { rewrite take_nil in Ha. by apply elem_of_nil in Ha. }
  destruct n as [|n]; cbn in *; [by apply elem_of_nil in Ha|].
  apply elem_of_cons in Ha as [->|Ha]; [|by apply (IH n)].
  rewrite Forall_forall in Hx. apply Hx. rewrite <- (take_drop n l). set_solver.
Qed.

(** A live claim keeps its task out of the candidates. *)
Lemma live_claim_not_candidate s now x y o token t :
  queue_ok (ct_queue s) → dget (ri_task_id x) (ct_queue s) = Some (x, "claimed", o) →
  dget (ri_task_id x) (ct_queue_claims s) = Some (token, t) → now < t →
  y ∈ claim_candidates s now → ri_task_id y ≠ ri_task_id x.
Proof.
  intros Hq Hx Hc Hlt Hy Heq.
  apply candidates_spec in Hy as (sty & oy & Hg & Hcl); [|done]. rewrite Heq, Hx in Hg. simplify_eq.
  unfold claimable_entry, claim_lapsed in Hcl. rewrite Hc in Hcl.
  apply orb_true_iff in Hcl as [Hcl|Hcl]; [done|]. bool_props. lia.
Qed.

Lemma map_imap {A B C} (f : B → C) (g : nat → A → B) (l : list A) :
  map f (imap g l) = imap (λ i a, f (g i a)) l.
Proof. change (map f) with (fmap (M:=list) f). apply fmap_imap. Qed.

Lemma imap_const {A B} (f : A → B) (l : list A) : imap (λ _ a, f a) l = map f l.
Proof. induction l as [|a l IH]; [done|]. rewrite imap_cons. cbn. f_equal. exact IH. Qed.

Lemma claimed_elem worker uuid t items c :
  c ∈ imap (λ i item, mkClaimedRunnable item worker (uuid i) t) items →
  ∃ i, items !! i = Some (cr_item c) ∧ cr_claim_token c = uuid i ∧ (i, cr_item c) ∈ imap pair items.
Proof.
  intros (i & x & -> & Hi)%elem_of_lookup_imap_1. exists i. split_and!; [done|done|].
  apply elem_of_lookup_imap_2. done.
Qed.

(** Claims on the queue are exclusive and by priority: from any history,
    [claim] hands out at most [limit] distinct tasks, each of which was free
    (queued and due, or under a lapsed claim) and is now claimed by this worker;
    a free task is passed over only when the limit is reached, and then has no
    higher priority than any task handed out; and until the claim expires no
    later [claim] hands those tasks out again. *)
Theorem claim_exclusive_by_priority ops worker limit ttl now uuid s' cs :
  let s := run_cops ops new_control in
  0 ≤ limit → claim worker limit ttl now uuid s = (s', cs) →
  Z.of_nat (length cs) ≤ limit
  ∧ NoDup (map (λ c, ri_task_id (cr_item c)) cs)
  ∧ (∀ c, c ∈ cs → let t := ri_task_id (cr_item c) in
       (∃ st o, dget t (ct_queue s) = Some (cr_item c, st, o)
          ∧ claimable_entry s now (cr_item c, st, o) = true)
       ∧ dget t (ct_queue s') = Some (cr_item c, "claimed", Some worker)
       ∧ dget t (ct_queue_claims s') = Some (cr_claim_token c, now + ttl))
  ∧ (∀ x, x ∈ claim_candidates s now → x ∉ map cr_item cs →
       Z.of_nat (length cs) = limit ∧ ∀ c, c ∈ cs → ri_priority x ≤ ri_priority (cr_item c))
  ∧ (∀ c worker2 limit2 ttl2 now2 uuid2 c2, c ∈ cs → now2 < now + ttl → 0 ≤ limit2 →
       c2 ∈ (claim worker2 limit2 ttl2 now2 uuid2 s').2 →
       ri_task_id (cr_item c2) ≠ ri_task_id (cr_item c)).
Proof.
  intros s Hlim Hcl. pose proof (run_queue_ok ops) as Hq. fold s in Hq.
  unfold claim in Hcl. rewrite first_n_nonneg in Hcl by done.
  set (items := take (Z.to_nat limit) (claim_candidates s now)) in *.
  change (fold_left (λ s0 ic, take_item worker (uuid ic.1) (now + ttl) s0 ic.2) (imap pair items) s)
    with (take_all worker uuid (now + ttl) (imap pair items) s) in Hcl.
  injection Hcl as <- <-.
  assert (NoDup (map ri_task_id items)) as Hnd.
  { eapply sublist_NoDup; [apply (candidates_nodup s now Hq)|]. apply fmap_sublist, sublist_take. }
  assert (NoDup (map (λ ic : nat * RunnableItem, ri_task_id ic.2) (imap pair items))) as Hnd'.
  { rewrite map_imap. by rewrite (imap_const ri_task_id). }
  set (cs := imap _ items).
  assert (map cr_item cs = items) as Hitems.
  { unfold cs. rewrite map_imap. cbn. rewrite (imap_const (λ x, x)). apply map_id. }
  assert (∀ c, c ∈ cs → (∃ st o, dget (ri_task_id (cr_item c)) (ct_queue s) = Some (cr_item c, st, o)
       ∧ claimable_entry s now (cr_item c, st, o) = true)
     ∧ dget (ri_task_id (cr_item c)) (ct_queue (take_all worker uuid (now + ttl) (imap pair items) s))
       = Some (cr_item c, "claimed", Some worker)
     ∧ dget (ri_task_id (cr_item c)) (ct_queue_claims (take_all worker uuid (now + ttl) (imap pair items) s))
       = Some (cr_claim_token c, now + ttl)) as Hall.
  { intros c Hc. apply claimed_elem in Hc as (i & Hi & -> & Hin). split.
    - apply candidates_spec; [done|]. eapply subseteq_take. by eapply list_elem_of_lookup_2.
    - by apply take_all_taken. }
  split_and!.
  - unfold cs. rewrite length_imap. unfold items. rewrite length_take. lia.
  - unfold cs. rewrite map_imap. by rewrite (imap_const ri_task_id).
  - exact Hall.
  - intros x Hx Hnot. rewrite Hitems in Hnot.
    assert (x ∈ drop (Z.to_nat limit) (claim_candidates s now)) as Hd.
    { rewrite <- (take_drop (Z.to_nat limit) (claim_candidates s now)) in Hx. fold items in Hx. set_solver. }
    split.
    + unfold cs. rewrite length_imap. unfold items. rewrite length_take.
      destruct (decide (Z.to_nat limit ≤ length (claim_candidates s now))%nat); [lia|].
      rewrite drop_ge in Hd by lia. by apply elem_of_nil in Hd.
    + intros c Hc. apply claimed_elem in Hc as (i & Hi & _).
      apply (sorted_take_drop _ _ _ _ _ (candidates_sorted s now) (list_elem_of_lookup_2 _ _ _ Hi) Hd).
  - intros c w2 lim2 ttl2 now2 uuid2 c2 Hc Hlt Hlim2 Hc2. destruct (Hall c Hc) as (_ & H1 & H2).
    unfold claim in Hc2. rewrite first_n_nonneg in Hc2 by done. cbn [snd] in Hc2.
    apply claimed_elem in Hc2 as (i2 & Hi2 & _).
    eapply live_claim_not_candidate; [by apply take_all_queue_ok|exact H1|exact H2|exact Hlt|].
    eapply subseteq_take. by eapply list_elem_of_lookup_2.
Qed.

(** ** Wakes *)

(** Operations that do not end or restart the run of a task. *)
Definition leaves_running (task : string) (op : ControlOp) : Prop :=
  match op with
  | CAssign t _ _ _ _ | CFinish t _ | CSuspend t _ | CSuspendCheckpoint t _ _ _ | CWake t => t ≠ task
  | _ => True
  end.

Definition wake_pending (task : string) (s : ControlStore) : Prop :=
  task ∈ ct_pending_wakes s ∧ task ∈ dkeys (ct_queue s).

Lemma dkeys_dset_mono {V} (k k' : string) (v : V) d : k ∈ dkeys d → k ∈ dkeys (dset k' v d).
Proof. rewrite dkeys_dset. case_decide; set_solver. Qed.

Lemma requeue_wake task t s : wake_pending task s → wake_pending task (requeue t s).
Proof.
  intros [Hw Hq]. unfold requeue. repeat case_match; [|done].
  split; [done|]. by apply dkeys_dset_mono.
Qed.

Lemma settle_queue_wake task t b s : t ≠ task → wake_pending task s → wake_pending task (settle_queue t b s).
Proof.
  intros Hne [H1 H2]. unfold settle_queue. split.
  - repeat case_match; cbn; set_solver.
  - repeat case_match; cbn; try apply dkeys_dset_mono; done.
Qed.

Lemma finish_wake task t o s : t ≠ task → wake_pending task s → wake_pending task (finish_assignment t o s).
Proof.
  intros Hne H. unfold finish_assignment. apply settle_queue_wake; [done|]. by repeat case_match.
Qed.

Lemma start_loop_wake task rid r limit now uuid es s cl :
  wake_pending task s → wake_pending task (start_loop rid r limit now uuid es s cl).1.
Proof.
  revert s cl. induction es as [|[t [a st]] es IH]; intros s cl H; cbn [start_loop]; [done|].
  destruct (startable _ _ _ _ _) as [l|]; [|by apply IH]. unfold start_assignment.
  destruct (limit <=? _); [done|]. by apply IH.
Qed.

Lemma op_wake_pending task s op :
  leaves_running task op → wake_pending task s → wake_pending task (run_cop s op).
Proof.
  intros Hop H. pose proof H as [H1 H2]. destruct op; cbn [run_cop leaves_running] in *.
  - unfold enqueue. case_match; [done|]. split; [done|]. by apply dkeys_dset_mono.
  - unfold claim. cbn [fst]. apply (fold_left_inv (wake_pending task)); [|done].
    intros x [i it] _ [Hx1 Hx2]. split; [done|]. by apply dkeys_dset_mono.
  - unfold reschedule. repeat case_match; try done; (split; [done|]; by apply dkeys_dset_mono).
  - unfold acquire_lease. by repeat case_match.
  - unfold renew_lease. by repeat case_match.
  - unfold release_lease. by repeat case_match.
  - unfold assign. repeat case_match; try done; (split; cbn; [set_solver|try apply dkeys_dset_mono; done]).
  - unfold claim_assignments. repeat case_match; try done. by apply start_loop_wake.
  - unfold renew_assignment_claim. by repeat case_match.
  - unfold abandon_stale_assignment, expire_assignment. repeat case_match; try done. by apply requeue_wake.
  - by apply finish_wake.
  - unfold suspend_assignment. case_match; [done|]. by apply finish_wake.
  - unfold suspend_with_checkpoint. repeat case_match; try done; by apply settle_queue_wake.
  - unfold wake_assignment. repeat case_match; try done; (split; cbn; [set_solver|try apply dkeys_dset_mono; done]).
  - unfold register_runtime. by repeat case_match.
  - unfold heartbeat. by repeat case_match.
  - unfold reserve_capacity. by repeat case_match.
  - done.
  - unfold save_checkpoint. by repeat case_match.
  - done.
  - unfold recover_expired. apply (fold_left_inv (λ acc, wake_pending task acc.1)).
    + intros acc [t [[i st] o]] _ Hacc. unfold recover_claim. destruct (_ && _); [|done]. by apply requeue_wake.
    + apply (fold_left_inv (λ acc, wake_pending task acc.1)); [|done].
      intros acc [t [a st]] _ Hacc. unfold recover_assignment. destruct (_ && _); [|done]. by apply requeue_wake.
Qed.

Lemma settle_queue_wakes task s :
  wake_pending task s → ∃ item, dget task (ct_queue (settle_queue task true s)) = Some (item, "queued", None).
Proof.
  intros [_ Hq]. unfold settle_queue. destruct (dget task (ct_queue s)) as [[[item st] o]|] eqn:E.
  - exists item. cbn. by rewrite dget_dset_eq.
  - by apply dget_None in E.
Qed.

(** C30. No wake is lost: a wake that arrives while the task is assigned or running
    is remembered, whatever else happens to the store meanwhile, and puts the
    task back in the queue the moment its run suspends, with or without a
    checkpoint. *)
Theorem wake_not_lost task s a st entry ops reason :
  dget task (ct_assignments s) = Some (a, st) → st ∈ active_statuses →
  dget task (ct_queue s) = Some entry →
  Forall (leaves_running task) ops → reason ∈ waiting_outcomes →
  let s' := run_cops ops (wake_assignment task s).1 in
  (∃ s'' item, suspend_assignment task reason s' = Ok s''
     ∧ dget task (ct_queue s'') = Some (item, "queued", None))
  ∧ (∀ c now s'', suspend_with_checkpoint task c reason now s' = Ok s'' →
       ∃ item, dget task (ct_queue s'') = Some (item, "queued", None)).
Proof.
  intros Ha Hst Hq Hops Hr s'.
  assert (wake_pending task s') as Hw.
  { unfold s'. apply (run_cops_ind (wake_pending task) (leaves_running task)); [|done|].
    - intros. by apply op_wake_pending.
    - unfold wake_assignment. rewrite Ha, Hq. destruct entry as [[i qs] o].
      apply str_in_spec in Hst. rewrite Hst. split; cbn; [set_solver|by eapply dget_Some_key]. }
  apply str_in_spec in Hr. split.
  - unfold suspend_assignment. rewrite Hr. cbn [negb]. unfold finish_assignment.
    rewrite Hr, bool_decide_eq_true_2 by apply Hw. cbn [andb].
    match goal with |- context [settle_queue task true ?s1] =>
      destruct (settle_queue_wakes task s1) as [item Hi] end; [|eauto].
    destruct Hw as [Hw1 Hw2]. by repeat case_match.
  - intros c now s''. unfold suspend_with_checkpoint. rewrite Hr. cbn [negb].
    destruct (dget task (ct_assignments s')) as [[a' st']|]; [|done].
    destruct (_ || _); [done|]. destruct (match dget (checkpoint_key c) _ with Some _ => _ | None => _ end); [done|].
    rewrite bool_decide_eq_true_2 by apply Hw. intros [= <-]. apply settle_queue_wakes. exact Hw.
Qed.

(** ** Recovery *)

(** The dictionaries of the store are dictionaries. *)
Record control_wf (s : ControlStore) : Prop := {
  cw_queue : dict_wf (ct_queue s);
  cw_claims : dict_wf (ct_queue_claims s);
  cw_leases : dict_wf (ct_leases s);
  cw_assignments : dict_wf (ct_assignments s);
}.
#[export] Hint Constructors control_wf : aura.

Lemma control_wf_new : control_wf new_control.
Proof. split; constructor. Qed.

Ltac wf_frame H := destruct H as [? ? ? ?]; split; cbn; auto with aura.

Lemma requeue_wf t s : control_wf s → control_wf (requeue t s).
Proof. intros H. unfold requeue. repeat case_match; [|done]. wf_frame H. Qed.

Lemma settle_queue_wf t b s : control_wf s → control_wf (settle_queue t b s).
Proof. intros H. unfold settle_queue. repeat case_match; wf_frame H. Qed.

Lemma start_loop_wf rid r limit now uuid es s cl :
  control_wf s → control_wf (start_loop rid r limit now uuid es s cl).1.
Proof.
  revert s cl. induction es as [|[t [a st]] es IH]; intros s cl H; cbn [start_loop]; [done|].
  destruct (startable _ _ _ _ _) as [l|]; [|by apply IH]. unfold start_assignment.
  assert (∀ x y z, control_wf (s <| ct_leases := dset x y (ct_leases s) |>
     <| ct_assignments := dset t z (ct_assignments s) |>
     <| ct_assignment_started_at := dsetdefault t now (ct_assignment_started_at s) |>)) as Hs
    by (intros; wf_frame H).
  destruct (limit <=? _); [apply Hs|]. apply IH, Hs.
Qed.

Lemma ddel_fold_wf {V} (rs : list string) (d : list (string * V)) :
  dict_wf d → dict_wf (fold_left (λ d r, ddel r d) rs d).
Proof. intros. apply (fold_left_inv dict_wf); auto with aura. Qed.

Lemma finish_wf t o s : control_wf s → control_wf (finish_assignment t o s).
Proof. intros H. unfold finish_assignment. apply settle_queue_wf. repeat case_match; wf_frame H. Qed.

Lemma op_control_wf s op : control_wf s → control_wf (run_cop s op).
Proof.
  intros H. destruct op; cbn [run_cop];
    try (unfold enqueue, reschedule, acquire_lease, renew_lease, release_lease, assign,
           renew_assignment_claim, wake_assignment, register_runtime, heartbeat, reserve_capacity,
           save_checkpoint; repeat case_match; try done; wf_frame H; fail).
  - unfold claim. cbn [fst]. apply (fold_left_inv control_wf); [|done]. intros x [i it] _ Hx. wf_frame Hx.
  - unfold claim_assignments. repeat case_match; try done. by apply start_loop_wf.
  - unfold abandon_stale_assignment, expire_assignment. repeat case_match; try done.
    apply requeue_wf. wf_frame H.
  - by apply finish_wf.
  - unfold suspend_assignment. case_match; [done|]. by apply finish_wf.
  - unfold suspend_with_checkpoint. repeat case_match; try done; apply settle_queue_wf; wf_frame H.
  - unfold recover_expired. apply (fold_left_inv (λ acc, control_wf acc.1)).
    + intros acc [t [[i st] o]] _ Hacc. unfold recover_claim. destruct (_ && _); [|done]. by apply requeue_wf.
    + apply (fold_left_inv (λ acc, control_wf acc.1)).
      * intros acc [t [a st]] _ Hacc. unfold recover_assignment. destruct (_ && _); [|done].
        apply requeue_wf. cbn [fst] in *. wf_frame Hacc.
      * wf_frame H. by apply ddel_fold_wf.
Qed.

Lemma run_control_wf ops : control_wf (run_cops ops new_control).
Proof.
  apply (run_cops_ind control_wf (λ _, True)); [|by apply Forall_true|apply control_wf_new].
  intros. by apply op_control_wf.
Qed.

(** What the loop over the assignments does to one task. *)
Lemma requeue_other t k s : k ≠ t →
  dget k (ct_queue (requeue t s)) = dget k (ct_queue s)
  ∧ dget k (ct_queue_claims (requeue t s)) = dget k (ct_queue_claims s).
Proof.
  intros. unfold requeue. repeat case_match; cbn; [|done]. by rewrite dget_dset_ne, dget_ddel_ne.
Qed.

Lemma requeue_same t s item st o :
  dict_wf (ct_queue_claims s) → dget t (ct_queue s) = Some (item, st, o) →
  dget t (ct_queue (requeue t s)) = Some (item, "queued", None)
  ∧ dget t (ct_queue_claims (requeue t s)) = None.
Proof. intros Hwf Hq. unfold requeue. rewrite Hq. cbn. by rewrite dget_dset_eq, dget_ddel_eq. Qed.

Definition must_expire (expired : list string) (e : RuntimeAssignment * string) : bool :=
  str_in (resource_of e.1) expired && str_in e.2 active_statuses.

Lemma recover_assignments_other expired es acc k :
  k ∉ dkeys es →
  dget k (ct_assignments (fold_left (recover_assignment expired) es acc).1) = dget k (ct_assignments acc.1)
  ∧ dget k (ct_queue (fold_left (recover_assignment expired) es acc).1) = dget k (ct_queue acc.1).
Proof.
  revert acc. induction es as [|[t [a st]] es IH]; intros acc Hk; cbn [fold_left]; [done|].
  unfold dkeys in Hk. cbn in Hk. apply not_elem_of_cons in Hk as [Hne Hk].
  destruct (IH (recover_assignment expired acc (t, (a, st))) Hk) as [-> ->].
  unfold recover_assignment. destruct (_ && _); [|done]. cbn [fst]. unfold expire_assignment.
  match goal with |- context [requeue t ?s1] =>
    destruct (requeue_other t k s1 Hne) as [-> _]; destruct (requeue_leases t s1) as (_ & _ & -> & _) end.
  cbn. by rewrite dget_dset_ne.
Qed.

Lemma recover_assignments_spec expired es acc t a st :
  NoDup (dkeys es) → (t, (a, st)) ∈ es → control_wf acc.1 →
  dget t (ct_assignments acc.1) = Some (a, st) →
  let s' := (fold_left (recover_assignment expired) es acc).1 in
  if must_expire expired (a, st)
  then dget t (ct_assignments s') = Some (a, "expired")
       ∧ (∀ item qs o, dget t (ct_queue acc.1) = Some (item, qs, o) →
            dget t (ct_queue s') = Some (item, "queued", None))
  else dget t (ct_assignments s') = Some (a, st) ∧ dget t (ct_queue s') = dget t (ct_queue acc.1).
Proof.
  cbn zeta. revert acc. induction es as [|[t0 [a0 st0]] es IH]; intros acc Hnd Hin Hwf Hg.
  { by apply elem_of_nil in Hin. }
  unfold dkeys in Hnd. cbn in Hnd. apply NoDup_cons in Hnd as [Hk Hnd]. cbn [fold_left].
  apply elem_of_cons in Hin as [Heq|Hin].
  - simplify_eq. destruct (recover_assignments_other expired es
      (recover_assignment expired acc (t0, (a0, st0))) t0 Hk) as [-> ->].
    unfold recover_assignment. fold (must_expire expired (a0, st0)).
    change (str_in (resource_of a0) expired && str_in st0 active_statuses) with (must_expire expired (a0, st0)).
    destruct (must_expire expired (a0, st0)); [|done]. cbn [fst]. unfold expire_assignment.
    match goal with |- context [requeue t0 ?s1] =>
      destruct (requeue_leases t0 s1) as (_ & _ & -> & _) end.
    split; [cbn; apply dget_dset_eq|]. intros item qs o Hq.
    eapply requeue_same; [|exact Hq]. apply (cw_claims _ Hwf).
  - assert (t ≠ t0) as Hne by (intros ->; apply Hk, list_elem_of_fmap; by exists (t0, (a, st))).
    set (acc1 := recover_assignment expired acc (t0, (a0, st0))).
    assert (control_wf acc1.1 ∧ dget t (ct_assignments acc1.1) = Some (a, st)
            ∧ dget t (ct_queue acc1.1) = dget t (ct_queue acc.1)) as (Hw1 & Hg1 & Hq1).
    { unfold acc1, recover_assignment. destruct (_ && _); [|done]. cbn [fst]. unfold expire_assignment.
      split_and!.
      - apply requeue_wf. wf_frame Hwf.
      - match goal with |- context [requeue t0 ?s1] => destruct (requeue_leases t0 s1) as (_ & _ & -> & _) end.
        cbn. by rewrite dget_dset_ne.
      - match goal with |- context [requeue t0 ?s1] => destruct (requeue_other t0 t s1 Hne) as [-> _] end.
        done. }
    specialize (IH acc1 Hnd Hin Hw1 Hg1). by rewrite Hq1 in IH.
Qed.

Lemma requeue_assignments t s : ct_assignments (requeue t s) = ct_assignments s.
Proof. apply requeue_leases. Qed.

Lemma recover_claims_assignments now qs acc :
  ct_assignments (fold_left (recover_claim now) qs acc).1 = ct_assignments acc.1.
Proof.
  revert acc. induction qs as [|[t [[i st] o]] qs IH]; intros acc; cbn [fold_left]; [done|]. rewrite IH.
  unfold recover_claim. destruct (_ && _); [|done]. apply requeue_assignments.
Qed.

Lemma recover_claims_other now qs acc k :
  k ∉ dkeys qs →
  dget k (ct_queue (fold_left (recover_claim now) qs acc).1) = dget k (ct_queue acc.1)
  ∧ dget k (ct_queue_claims (fold_left (recover_claim now) qs acc).1) = dget k (ct_queue_claims acc.1).
Proof.
  revert acc. induction qs as [|[t [[i st] o]] qs IH]; intros acc Hk; cbn [fold_left]; [done|].
  unfold dkeys in Hk. cbn in Hk. apply not_elem_of_cons in Hk as [Hne Hk].
  destruct (IH (recover_claim now acc (t, (i, st, o))) Hk) as [-> ->].
  unfold recover_claim. destruct (_ && _); [|done]. by apply requeue_other.
Qed.

Definition claim_over (now : Z) (s : ControlStore) (t : string) : bool :=
  match dget t (ct_queue_claims s) with Some (_, e) => e <=? now | None => false end.

Lemma recover_claims_spec now qs acc t item st o :
  NoDup (dkeys qs) → (t, (item, st, o)) ∈ qs → dict_wf (ct_queue_claims acc.1) →
  dget t (ct_queue acc.1) = Some (item, st, o) →
  let s' := (fold_left (recover_claim now) qs acc).1 in
  if String.eqb st "claimed" && claim_over now acc.1 t
  then dget t (ct_queue s') = Some (item, "queued", None)
  else dget t (ct_queue s') = Some (item, st, o)
       ∧ dget t (ct_queue_claims s') = dget t (ct_queue_claims acc.1).
Proof.
  cbn zeta. revert acc. induction qs as [|[t0 [[i0 st0] o0]] qs IH]; intros acc Hnd Hin Hwf Hg.
  { by apply elem_of_nil in Hin. }
  unfold dkeys in Hnd. cbn in Hnd. apply NoDup_cons in Hnd as [Hk Hnd]. cbn [fold_left].
  apply elem_of_cons in Hin as [Heq|Hin].
  - simplify_eq. destruct (recover_claims_other now qs (recover_claim now acc (t0, (i0, st0, o0))) t0 Hk)
      as [-> ->].
    unfold recover_claim. fold (claim_over now acc.1 t0).
    destruct (String.eqb st0 "claimed" && claim_over now acc.1 t0); [|done].
    by eapply requeue_same.
  - assert (t ≠ t0) as Hne by (intros ->; apply Hk, list_elem_of_fmap; by exists (t0, (item, st, o))).
    set (acc1 := recover_claim now acc (t0, (i0, st0, o0))).
    assert (dict_wf (ct_queue_claims acc1.1) ∧ dget t (ct_queue acc1.1) = dget t (ct_queue acc.1)
            ∧ dget t (ct_queue_claims acc1.1) = dget t (ct_queue_claims acc.1)) as (Hw1 & Hq1 & Hc1).
    { unfold acc1, recover_claim. destruct (_ && _); [|done]. cbn [fst].
      destruct (requeue_other t0 t acc.1 Hne) as [-> ->]. split_and!; [|done|done].
      unfold requeue. repeat case_match; cbn; auto with aura. }
    rewrite <- Hq1 in Hg. specialize (IH acc1 Hnd Hin Hw1 Hg).
    unfold claim_over in *. by rewrite Hc1 in IH.
Qed.

(** The resource of an assignment has lapsed: its lease expired, or an active
    assignment on it was abandoned by its runtime. *)
Definition lapsed (s : ControlStore) (now : Z) (r : string) : Prop :=
  (∃ l, dget r (ct_leases s) = Some l ∧ le_expires_at l ≤ now)
  ∨ ∃ t e, dget t (ct_assignments s) = Some e ∧ abandoned s now e = true ∧ resource_of e.1 = r.

Lemma expired_resources_lapsed s now r :
  control_wf s → str_in r (expired_resources s now) = true ↔ lapsed s now r.
Proof.
  intros [_ _ Hl Ha]. rewrite str_in_spec. unfold expired_resources, lapsed.
  rewrite elem_of_app. f_equiv.
  - unfold dkeys. rewrite list_elem_of_fmap. split.
    + intros ([k l] & -> & [He Hin]%list_elem_of_filter). exists l. cbn in *. bool_props.
      split; [by apply elem_dget|done].
    + intros (l & Hg & He). exists (r, l). split; [done|]. apply list_elem_of_filter.
      split; [by apply Z.leb_le|by apply dget_Some_elem].
  - rewrite list_elem_of_fmap. split.
    + intros (e & -> & [He Hin]%list_elem_of_filter). apply elem_of_dvalues in Hin as [k Hk]; [|done].
      by exists k, e.
    + intros (t & e & Hg & He & <-). exists e. split; [done|]. apply list_elem_of_filter.
      split; [done|]. apply elem_of_dvalues; eauto.
Qed.

(** Recovery is complete and exact: from any history, after
    [recover_expired] no expired lease is left, every active assignment whose
    lease expired or whose runtime abandoned it (or another one on the same
    Session) is expired and its task queued again, every other assignment is
    untouched, and no task stays claimed under an expired claim. *)
Theorem recover_expired_exact ops now s' n :
  let s := run_cops ops new_control in
  recover_expired now s = (s', n) →
  (∀ r l, dget r (ct_leases s') = Some l → now < le_expires_at l)
  ∧ (∀ t a st, dget t (ct_assignments s) = Some (a, st) →
       if decide (st ∈ active_statuses)
       then (lapsed s now (resource_of a) → dget t (ct_assignments s') = Some (a, "expired")
              ∧ ∀ item qs o, dget t (ct_queue s) = Some (item, qs, o) →
                  dget t (ct_queue s') = Some (item, "queued", None))
            ∧ (¬ lapsed s now (resource_of a) → dget t (ct_assignments s') = Some (a, st))
       else dget t (ct_assignments s') = Some (a, st))
  ∧ (∀ t item o token e, dget t (ct_queue s') = Some (item, "claimed", o) →
       dget t (ct_queue_claims s') = Some (token, e) → now < e).
Proof.
  intros s Hrec. pose proof (run_control_wf ops) as Hwf. fold s in Hwf.
  set (expired := expired_resources s now). set (ls := fold_left (λ ls r, ddel r ls) expired (ct_leases s)).
  set (s1 := s <| ct_leases := ls |>).
  set (acc2 := fold_left (recover_assignment expired) (ct_assignments s1) (s1, 0)).
  assert (s' = (fold_left (recover_claim now) (ct_queue acc2.1) acc2).1) as Hs'.
  { change (recover_expired now s) with (fold_left (recover_claim now) (ct_queue acc2.1) acc2) in Hrec.
    by rewrite Hrec. }
  assert (control_wf s1) as Hwf1 by (destruct Hwf; split; cbn; auto; by apply ddel_fold_wf).
  assert (control_wf acc2.1) as Hwf2.
  { apply (fold_left_inv (λ acc, control_wf acc.1)); [|done]. intros acc [t [a st]] _ Hacc.
    unfold recover_assignment. destruct (_ && _); [|done]. apply requeue_wf. cbn [fst] in *. wf_frame Hacc. }
  split_and!.
  - intros r l Hl. rewrite Hs' in Hl.
    destruct (recover_folds_leases expired now (ct_assignments s1) (ct_queue acc2.1) (s1, 0)) as (Hll & _).
    fold acc2 in Hll. cbn zeta in Hll. rewrite Hll in Hl. cbn in Hl.
    destruct (ddel_all_leases expired (ct_leases s) (cw_leases _ Hwf)) as [_ Hdel].
    destruct (Hdel r l Hl) as [Hg Hr]. destruct (Z.lt_ge_cases now (le_expires_at l)) as [|Hge]; [done|].
    exfalso. apply Hr, str_in_spec, expired_resources_lapsed; [done|]. left. eauto.
  - intros t a st Hg.
    pose proof (recover_assignments_spec expired (ct_assignments s1) (s1, 0) t a st
      (cw_assignments _ Hwf1) (dget_Some_elem _ _ _ Hg) Hwf1 Hg) as Hspec.
    cbn zeta in Hspec. fold acc2 in Hspec. rewrite Hs', recover_claims_assignments.
    unfold must_expire in Hspec. cbn [fst snd] in Hspec.
    pose proof (expired_resources_lapsed s now (resource_of a) Hwf) as Hlap. fold expired in Hlap.
    case_decide as Hact.
    + apply str_in_spec in Hact. rewrite Hact, andb_true_r in Hspec. split.
      * intros Hl. apply Hlap in Hl. rewrite Hl in Hspec. destruct Hspec as [Ha Hq]. split; [done|].
        intros item qs o Hqs. specialize (Hq item qs o Hqs).
        pose proof (recover_claims_spec now (ct_queue acc2.1) acc2 t item "queued" None
          (cw_queue _ Hwf2) (dget_Some_elem _ _ _ Hq) (cw_claims _ Hwf2) Hq) as [H _]. exact H.
      * intros Hl. destruct (str_in (resource_of a) expired) eqn:E; [by exfalso; apply Hl, Hlap|apply Hspec].
    + apply str_in_false in Hact. rewrite Hact, andb_false_r in Hspec. apply Hspec.
  - intros t item o token e Hq Hc. rewrite Hs' in Hq, Hc.
    destruct (dget t (ct_queue acc2.1)) as [[[i st] o']|] eqn:E.
    + pose proof (recover_claims_spec now (ct_queue acc2.1) acc2 t i st o' (cw_queue _ Hwf2)
        (dget_Some_elem _ _ _ E) (cw_claims _ Hwf2) E) as Hspec. cbn zeta in Hspec.
      destruct (String.eqb st "claimed" && claim_over now acc2.1 t) eqn:Ec; [congruence|].
      destruct Hspec as [H1 H2]. rewrite H1 in Hq. simplify_eq. rewrite H2 in Hc.
      unfold claim_over in Ec. rewrite Hc in Ec. cbn in Ec. bool_props. lia.
    + apply dget_None in E.
      destruct (recover_claims_other now (ct_queue acc2.1) acc2 t E) as [H1 _].
      rewrite H1 in Hq. by apply dget_None in E; congruence.
Qed.

(** ** Checkpoints and capacity *)

(** The checkpoints only move to equal or later tokens. *)
Definition checkpoints_advance (s s' : ControlStore) : Prop :=
  ∀ k c, dget k (ct_checkpoints s) = Some c →
    ∃ c', dget k (ct_checkpoints s') = Some c' ∧ cp_fencing_token c ≤ cp_fencing_token c'.

Lemma checkpoints_advance_frame s s' : ct_checkpoints s' = ct_checkpoints s → checkpoints_advance s s'.
Proof. intros H k c Hc. exists c. rewrite H. split; [done|lia]. Qed.

Lemma checkpoints_advance_set s s' c :
  ct_checkpoints s' = dset (checkpoint_key c) c (ct_checkpoints s) →
  (∀ p, dget (checkpoint_key c) (ct_checkpoints s) = Some p → cp_fencing_token p ≤ cp_fencing_token c) →
  checkpoints_advance s s'.
Proof.
  intros Hs Hp k c0 Hc0. rewrite Hs, dget_dset. case_decide; subst; [eauto|]. exists c0. split; [done|lia].
Qed.

Lemma start_loop_checkpoints rid r limit now uuid es s cl :
  ct_checkpoints (start_loop rid r limit now uuid es s cl).1 = ct_checkpoints s
  ∧ ct_capacity (start_loop rid r limit now uuid es s cl).1 = ct_capacity s.
Proof.
  revert s cl. induction es as [|[t [a st]] es IH]; intros s cl; cbn [start_loop]; [done|].
  destruct (startable _ _ _ _ _) as [l|]; [|by apply IH]. unfold start_assignment.
  destruct (limit <=? _); [done|].
  match goal with |- context [start_loop _ _ _ _ _ es ?s1 ?c] => destruct (IH s1 c) as [-> ->] end. done.
Qed.

Lemma finish_checkpoints t o s :
  ct_checkpoints (finish_assignment t o s) = ct_checkpoints s
  ∧ ct_capacity (finish_assignment t o s) = ct_capacity s.
Proof. unfold finish_assignment, settle_queue. by repeat case_match. Qed.

Lemma op_checkpoints s op : checkpoints_advance s (run_cop s op).
Proof.
  destruct op; cbn [run_cop];
    try (apply checkpoints_advance_frame;
         unfold enqueue, reschedule, acquire_lease, renew_lease, release_lease, assign,
           renew_assignment_claim, abandon_stale_assignment, expire_assignment, requeue, wake_assignment,
           register_runtime, heartbeat, reserve_capacity; by repeat case_match).
  - apply checkpoints_advance_frame. unfold claim. cbn [fst].
    by destruct (claim_fold_leases worker uuid (now + ttl) (imap pair (first_n limit (claim_candidates s now))) s)
      as (_ & _ & -> & _).
  - apply checkpoints_advance_frame. unfold claim_assignments. repeat case_match; try done.
    apply start_loop_checkpoints.
  - apply checkpoints_advance_frame. apply finish_checkpoints.
  - apply checkpoints_advance_frame. unfold suspend_assignment. case_match; [done|]. apply finish_checkpoints.
  - unfold suspend_with_checkpoint. destruct (negb _); [by apply checkpoints_advance_frame|].
    destruct (dget task (ct_assignments s)) as [[a st]|]; [|by apply checkpoints_advance_frame].
    destruct (_ || _); [by apply checkpoints_advance_frame|].
    destruct (dget (checkpoint_key c) (ct_checkpoints s)) as [p|] eqn:Ep.
    + destruct (Z.ltb_spec (cp_fencing_token c) (cp_fencing_token p)); [by apply checkpoints_advance_frame|].
      cbn [or_same]. apply (checkpoints_advance_set _ _ c); [by rewrite (proj2 (proj2 (settle_queue_leases _ _ _)))|].
      intros; simplify_eq; lia.
    + cbn [or_same]. apply (checkpoints_advance_set _ _ c); [by rewrite (proj2 (proj2 (settle_queue_leases _ _ _)))|].
      congruence.
  - unfold save_checkpoint. destruct (negb _); [by apply checkpoints_advance_frame|]. cbn [or_same].
    destruct (dget (checkpoint_key c) (ct_checkpoints s)) as [p|] eqn:Ep.
    + destruct (Z.leb_spec (cp_fencing_token p) (cp_fencing_token c)); [|by apply checkpoints_advance_frame].
      apply (checkpoints_advance_set _ _ c); [done|]. intros; simplify_eq; lia.
    + apply (checkpoints_advance_set _ _ c); [done|congruence].
  - apply checkpoints_advance_frame. unfold recover_expired.
    match goal with |- context [fold_left (recover_claim now) ?qs (fold_left (recover_assignment ?ex) ?es ?acc)] =>
      destruct (recover_folds_leases ex now es qs acc) as (_ & _ & Hc & _) end.
    exact Hc.
Qed.

(** A checkpoint is never replaced by an older one: whatever operations
    follow, the stored checkpoint of a run keeps a fencing token at least as
    high, so a runtime that lost its lease cannot roll the run back. *)
Theorem checkpoints_never_regress ops s k c :
  dget k (ct_checkpoints s) = Some c →
  ∃ c', dget k (ct_checkpoints (run_cops ops s)) = Some c' ∧ cp_fencing_token c ≤ cp_fencing_token c'.
Proof.
  intros Hc. apply (run_cops_ind (λ s', ∃ c', dget k (ct_checkpoints s') = Some c'
    ∧ cp_fencing_token c ≤ cp_fencing_token c') (λ _, True)); [|by apply Forall_true|].
  - intros s' op _ (c1 & H1 & Hle). destruct (op_checkpoints s' op k c1 H1) as (c2 & H2 & ?).
    exists c2. split; [done|lia].
  - exists c. split; [done|lia].
Qed.

Definition capacity_of (s : ControlStore) (scope : string) : Z := default 0 (dget scope (ct_capacity s)).

Lemma capacity_of_set s scope n : capacity_of (s <| ct_capacity := dset scope n (ct_capacity s) |>) scope = n.
Proof. unfold capacity_of. cbn. by rewrite dget_dset_eq. Qed.

(** The callers of a scope agree on its limit and release what they reserved. *)
Definition respects_limit (scope : string) (limit : Z) (op : ControlOp) : Prop :=
  match op with
  | CReserve sc _ l => sc = scope → l = limit
  | CReleaseCapacity sc amount => sc = scope → 0 ≤ amount
  | _ => True
  end.

Lemma op_capacity s op sc :
  (∀ a l, op ≠ CReserve sc a l) → (∀ a, op ≠ CReleaseCapacity sc a) →
  capacity_of (run_cop s op) sc = capacity_of s sc.
Proof.
  intros Hres Hrel. unfold capacity_of. destruct op; cbn [run_cop];
    try (unfold enqueue, reschedule, acquire_lease, renew_lease, release_lease, assign,
           renew_assignment_claim, abandon_stale_assignment, expire_assignment, requeue, wake_assignment,
           register_runtime, heartbeat, save_checkpoint, suspend_with_checkpoint, settle_queue;
         by repeat case_match).
  - unfold claim. cbn [fst].
    by destruct (claim_fold_leases worker uuid (now + ttl) (imap pair (first_n limit (claim_candidates s now))) s)
      as (_ & _ & _ & _ & ->).
  - unfold claim_assignments. repeat case_match; try done. by rewrite (proj2 (start_loop_checkpoints _ _ _ _ _ _ _ _)).
  - by rewrite (proj2 (finish_checkpoints _ _ _)).
  - unfold suspend_assignment. case_match; [done|]. cbn [or_same]. by rewrite (proj2 (finish_checkpoints _ _ _)).
  - assert (sc ≠ scope) by (intros ->; by eapply Hres).
    unfold reserve_capacity. repeat case_match; cbn; [done|]. by rewrite dget_dset_ne.
  - assert (sc ≠ scope) by (intros ->; by eapply Hrel). cbn. by rewrite dget_dset_ne.
  - unfold recover_expired.
    match goal with |- context [fold_left (recover_claim now) ?qs (fold_left (recover_assignment ?ex) ?es ?acc)] =>
      destruct (recover_folds_leases ex now es qs acc) as (_ & _ & _ & _ & Hc) end.
    cbn zeta in Hc. by rewrite Hc.
Qed.

(** Reserved capacity stays between zero and the limit of its scope in every
    history whose reservations name that limit and whose releases are not
    negative, whatever else happens. *)
Theorem capacity_within_limit ops scope limit :
  0 ≤ limit → Forall (respects_limit scope limit) ops →
  0 ≤ capacity_of (run_cops ops new_control) scope ≤ limit.
Proof.
  intros Hlim Hops. apply (run_cops_ind (λ s, 0 ≤ capacity_of s scope ≤ limit) (respects_limit scope limit));
    [|done|cbn; lia].
  intros s op Hop Hs. destruct op; try (by rewrite op_capacity); cbn [respects_limit] in Hop.
  - destruct (decide (scope0 = scope)) as [->|]; [|by rewrite op_capacity; [|naive_solver..]].
    rewrite (Hop eq_refl). cbn [run_cop]. unfold reserve_capacity. fold (capacity_of s scope).
    destruct (_ || _) eqn:E; [done|]. bool_props. cbn [fst]. rewrite capacity_of_set. lia.
  - destruct (decide (scope0 = scope)) as [->|]; [|by rewrite op_capacity; [|naive_solver..]].
    specialize (Hop eq_refl). cbn [run_cop]. unfold release_capacity. fold (capacity_of s scope).
    rewrite capacity_of_set. lia.
Qed.

(** ** Witnesses *)

Module ControlExamples.
Definition budget : RuntimeBudget := mkRuntimeBudget 48 8192 None "1".
Definition item (task : string) (priority : Z) : RunnableItem :=
  mkRunnable task "t1" "s1" "s1" "r1" 1 priority "default" "root" [] None budget None None.
Definition resource : string := session_resource "t1" "s1".
Definition number (i : nat) : string := pretty i.
Definition value {A} (r : ControlStore * option A) (d : A) : A := default d r.2.
Definition no_lease : RuntimeLease := mkLease "" "" "" 0 0.

(** Two workers: the first lease runs out and the second worker gets the next. *)
Definition grant1 := acquire_lease resource "w1" 100 0 "a" new_control.
Definition lease1 : RuntimeLease := value grant1 no_lease.
Definition grant2 := acquire_lease resource "w2" 100 200 "b" (run_cops [CRenew lease1 100 50 50; CRecover 190] grant1.1).
Definition lease2 : RuntimeLease := value grant2 no_lease.

Lemma stale_fencing_token_refused_witness :
  le_fencing_token lease1 = 1 ∧ le_fencing_token lease2 = 2
  ∧ ∃ m, assert_fencing resource 1 210 (run_cops [] grant2.1) = Raise FencingTokenError m.
Proof.
  destruct (stale_fencing_token_refused [] [CRenew lease1 100 50 50; CRecover 190] [] resource
    "w1" 100 0 "a" grant1.1 lease1 "w2" 100 200 "b" grant2.1 lease2) as (_ & H & _);
    [vm_compute; reflexivity|vm_compute; reflexivity|].
  split_and!; [vm_compute; reflexivity|vm_compute; reflexivity|exact (H 210)].
Defined.

Lemma acquire_lease_exclusive_witness :
  (acquire_lease resource "w2" 100 50 "b" grant1.1).1 = grant1.1
  ∧ le_owner lease1 = "w1".
Proof.
  destruct (acquire_lease_exclusive resource "w2" 100 50 "b" grant1.1
    (acquire_lease resource "w2" 100 50 "b" grant1.1).1 None ltac:(vm_compute; reflexivity)) as [H _].
  split; [exact H|vm_compute; reflexivity].
Defined.

(** A task claimed, leased, assigned and started. *)
Definition assignment : RuntimeAssignment :=
  mkAssignment "t1" "s1" "s1" "r1" "rt1" "lea_a" 1 "root" [] None budget None None None None None None.
Definition runtime : RuntimeInstance := mkRuntime "rt1" "docker" "root" "n1" [] 4 "legacy".
Definition claim_ops : list ControlOp :=
  [CEnqueue (item "k1" 1); CEnqueue (item "k2" 5); CRegister runtime 0 0].
Definition claimed := claim "w1" 1 (10 * second) 0 number (run_cops claim_ops new_control).
Definition assign_ops : list ControlOp :=
  claim_ops ++ [CClaim "w1" 2 (10 * second) 0 number; CAcquire resource "w1" (60 * second) 0 "a"].
Definition before_assign : ControlStore := run_cops assign_ops new_control.
Definition assigned := assign "k1" assignment "1" 1 1 before_assign.

Lemma assign_spends_claim_witness :
  dget "k1" (ct_assignments assigned.1) = Some (assignment, "assigned")
  ∧ assign "k1" assignment "1" 2 2 assigned.1 = (assigned.1, false).
Proof.
  destruct (assign_spends_claim "k1" assignment "1" 1 1 before_assign assigned.1
    ltac:(vm_compute; reflexivity)) as (_ & _ & H1 & _ & H2).
  split; [exact H1|exact (H2 assignment "1" 2 2)].
Defined.

Lemma claim_exclusive_by_priority_witness :
  map (λ c, ri_task_id (cr_item c)) claimed.2 = ["k2"] ∧ Z.of_nat (length claimed.2) ≤ 1.
Proof.
  split; [vm_compute; reflexivity|].
  refine (proj1 (claim_exclusive_by_priority claim_ops "w1" 1 (10 * second) 0 number claimed.1 claimed.2 _ _)).
  - lia.
  - vm_compute. reflexivity.
Defined.

Definition run_ops : list ControlOp :=
  assign_ops ++ [CAssign "k1" assignment "1" 1 1; CStart "rt1" "root" "legacy" 1 2 number].
Definition running : ControlStore := run_cops run_ops new_control.

Lemma wake_not_lost_witness :
  ∃ s'' it, suspend_assignment "k1" "waiting_for_tool"
      (run_cops [CHeartbeat "rt1" None "legacy" 3] (wake_assignment "k1" running).1) = Ok s''
    ∧ dget "k1" (ct_queue s'') = Some (it, "queued", None).
Proof.
  destruct (dget "k1" (ct_assignments running)) as [[a st]|] eqn:Ea; [|vm_compute in Ea; discriminate Ea].
  destruct (dget "k1" (ct_queue running)) as [entry|] eqn:Eq; [|vm_compute in Eq; discriminate Eq].
  assert (st = "running") as Hst by (vm_compute in Ea; congruence).
  destruct (wake_not_lost "k1" running a st entry [CHeartbeat "rt1" None "legacy" 3] "waiting_for_tool"
    Ea ltac:(rewrite Hst; right; left) Eq ltac:(repeat constructor) ltac:(right; right; left)) as [H _].
  exact H.
Defined.

Lemma recover_expired_exact_witness :
  (∃ a, dget "k1" (ct_assignments (recover_expired (40 * second) running).1) = Some (a, "expired"))
  ∧ (∀ r l, dget r (ct_leases (recover_expired (40 * second) running).1) = Some l →
       40 * second < le_expires_at l).
Proof.
  split.
  - destruct (dget "k1" (ct_assignments (recover_expired (40 * second) running).1)) as [[a st]|] eqn:E;
      vm_compute in E; [injection E as <- <-; eexists; reflexivity|discriminate E].
  - exact (proj1 (recover_expired_exact run_ops (40 * second) (recover_expired (40 * second) running).1
      (recover_expired (40 * second) running).2 ltac:(vm_compute; reflexivity))).
Defined.

Definition checkpoint (token : Z) : RuntimeCheckpoint := mkCheckpoint "t1" "s1" "r1" token "model" [] 0.
Definition with_checkpoint : ControlStore := run_cops [CCheckpoint (checkpoint 1) 10] grant1.1.

Lemma checkpoints_never_regress_witness :
  ∃ c', dget ("t1", "s1", "r1") (ct_checkpoints (run_cops
      [CRecover 150; CAcquire resource "w2" 100 200 "b"; CCheckpoint (checkpoint 2) 210;
       CCheckpoint (checkpoint 1) 211] with_checkpoint)) = Some c'
    ∧ 1 ≤ cp_fencing_token c'.
Proof.
  apply (checkpoints_never_regress _ with_checkpoint ("t1", "s1", "r1") (checkpoint 1)).
  vm_compute. reflexivity.
Defined.

Lemma capacity_within_limit_witness :
  0 ≤ capacity_of (run_cops [CReserve "tenant" 2 3; CReserve "tenant" 2 3; CReleaseCapacity "tenant" 5;
                             CReserve "tenant" 3 3] new_control) "tenant" ≤ 3.
Proof.
  apply (capacity_within_limit _ "tenant" 3); [lia|].
  repeat constructor; cbn; intros; lia.
Defined.
End ControlExamples.
