(* ===== verification/DeliveryStore.v ===== *)
(** * Delivery jobs ([infrastructure/delivery/memory_job_store.py])

    The store of result-delivery jobs: sinks, one job per event and sink, the claim
    protocol of the delivery workers, the attempt log and the circuit of each sink,
    with the values of [contracts/delivery.py] and [delivery/ports.py] and the job
    builder of [infrastructure/delivery/common.py].  [utc_now()] and [uuid4().hex]
    are arguments of the operation that calls them. *)

From S2P Require Import Prelude PyValue DateTime Digest Contracts.
Local Open Scope Z_scope.

(** ** Values *)

Inductive DeliveryStatus :=
  | DPending | DAttempting | DRetryWait | DSucceeded | DFailed | DDeadLettered | DReconciling.
#[global] Instance DeliveryStatus_eq_dec : EqDecision DeliveryStatus.
Proof. solve_decision. Defined.

Definition delivery_value (d : DeliveryStatus) : string :=
  match d with
  | DPending => "pending" | DAttempting => "attempting" | DRetryWait => "retry_wait"
  | DSucceeded => "succeeded" | DFailed => "failed" | DDeadLettered => "dead_lettered"
  | DReconciling => "reconciling"
  end.

Record ResultSinkConfig := mkSink {
  sk_sink_id : string;
  sk_tenant_id : string;
  sk_session_id : string;
  sk_sink_type : string;
  sk_target_ref : string;
  sk_event_types : list string;
  sk_credential_ref : option string;
  sk_enabled : bool;
}.

Record DeliveryJob := mkJob {
  j_delivery_id : string;
  j_event_id : string;
  j_tenant_id : string;
  j_root_session_id : string;
  j_session_id : string;
  j_run_id : option string;
  j_sink_id : string;
  j_sink_type : string;
  j_sink_target_ref : string;
  j_payload : payload;
  j_status : DeliveryStatus;
  j_attempt_count : Z;
  j_next_attempt_at : option Z;
  j_last_response_summary : option string;
  j_created_at : Z;
  j_completed_at : option Z;
  j_claimed_by : option string;
  j_claim_token : option string;
  j_claim_expires_at : option Z;
  j_claim_heartbeat_at : option Z;
  j_side_effect_started_at : option Z;
  j_reconciliation_reason : option string;
}.
#[global] Instance DeliveryJob_eta : Eta DeliveryJob := λ r,
  mkJob (j_delivery_id r) (j_event_id r) (j_tenant_id r) (j_root_session_id r) (j_session_id r)
    (j_run_id r) (j_sink_id r) (j_sink_type r) (j_sink_target_ref r) (j_payload r) (j_status r)
    (j_attempt_count r) (j_next_attempt_at r) (j_last_response_summary r) (j_created_at r)
    (j_completed_at r) (j_claimed_by r) (j_claim_token r) (j_claim_expires_at r)
    (j_claim_heartbeat_at r) (j_side_effect_started_at r) (j_reconciliation_reason r).

Record DeliveryAttempt := mkAttempt {
  at_delivery_id : string;
  at_attempt_number : Z;
  at_started_at : Z;
  at_completed_at : Z;
  at_outcome : string;
  at_response_summary : string;
  at_retryable : bool;
}.

Record SinkResponse := mkResponse {
  rs_succeeded : bool;
  rs_retryable : bool;
  rs_summary : string;
  rs_metadata : payload;
}.

Inductive CircuitState := CClosed | COpen | CHalfOpen.
#[global] Instance CircuitState_eq_dec : EqDecision CircuitState.
Proof. solve_decision. Defined.

Record MemoryCircuit := mkCircuit {
  ci_state : CircuitState;
  ci_failure_count : Z;
  ci_open_until : option Z;
  ci_generation : Z;
  ci_probe_owner : option string;
  ci_probe_token : option string;
  ci_probe_expires_at : option Z;
}.
#[global] Instance MemoryCircuit_eta : Eta MemoryCircuit := λ r,
  mkCircuit (ci_state r) (ci_failure_count r) (ci_open_until r) (ci_generation r)
    (ci_probe_owner r) (ci_probe_token r) (ci_probe_expires_at r).

Record SinkCircuitPermit := mkPermit {
  pm_allowed : bool;
  pm_state : CircuitState;
  pm_generation : Z;
  pm_probe_token : option string;
}.

Record SinkCircuitSnapshot := mkCircuitSnapshot {
  cs_state : CircuitState;
  cs_failure_count : Z;
  cs_generation : Z;
  cs_open_until : option Z;
  cs_probe_owner : option string;
}.

Notation sink_key := (string * string)%type.

Record DeliveryStore := mkDeliveryStore {
  ds_sinks : list (sink_key * ResultSinkConfig);
  ds_jobs : list (string * DeliveryJob);
  ds_attempts : list DeliveryAttempt;
  ds_circuits : list (sink_key * MemoryCircuit);
}.
#[global] Instance DeliveryStore_eta : Eta DeliveryStore := λ s,
  mkDeliveryStore (ds_sinks s) (ds_jobs s) (ds_attempts s) (ds_circuits s).

Definition new_delivery_store : DeliveryStore := mkDeliveryStore [] [] [] [].

(** ** Jobs from events ([common.py]) *)

Definition delivery_id_for (event_id sink_id : string) : string :=
  let digest := sha256_hex (utf8 (event_id +:+ ":" +:+ sink_id)) in
  "del_" +:+ str_take 32 digest.

(** [now1] and [now2] are the two readings of the clock, in argument order. *)
Definition build_delivery_job (now1 now2 : Z) (e : CanonicalEvent) (sink : ResultSinkConfig)
    : DeliveryJob :=
  mkJob (delivery_id_for (ev_event_id e) (sk_sink_id sink)) (ev_event_id e) (ev_tenant_id e)
    (ev_root_session_id e) (ev_session_id e) (ev_run_id e) (sk_sink_id sink) (sk_sink_type sink)
    (sk_target_ref sink)
    [("delivery_id", JStr (delivery_id_for (ev_event_id e) (sk_sink_id sink)));
     ("event_id", JStr (ev_event_id e));
     ("tenant_id", JStr (ev_tenant_id e));
     ("root_session_id", JStr (ev_root_session_id e));
     ("session_id", JStr (ev_session_id e));
     ("run_id", jopt (ev_run_id e));
     ("event_type", JStr (ev_type e));
     ("occurred_at", JStr (isoformat (ev_occurred_at e)));
     ("result_summary", pgetn "result_summary" (ev_payload e));
     ("result_ref", pgetn "result_ref" (ev_payload e));
     ("artifact_refs", pgetd "artifact_refs" (JArr []) (ev_payload e));
     ("error", pgetn "error" (ev_payload e))]
    DPending 0 (Some now1) None now2 None None None None None None None.

(** ** Sinks and reading *)

Definition register_sink (sink : ResultSinkConfig) (s : DeliveryStore) : DeliveryStore :=
  s <| ds_sinks := dset (sk_tenant_id sink, sk_sink_id sink) sink (ds_sinks s) |>.

Definition get_sink (tenant_id sink_id : string) (s : DeliveryStore) : option ResultSinkConfig :=
  dget (tenant_id, sink_id) (ds_sinks s).

Definition list_sinks (tenant_id session_id event_type : string) (s : DeliveryStore)
    : list ResultSinkConfig :=
  map snd (filter (λ kv : sink_key * ResultSinkConfig,
      String.eqb kv.1.1 tenant_id && String.eqb (sk_session_id kv.2) session_id
      && sk_enabled kv.2 && str_in event_type (sk_event_types kv.2) = true) (ds_sinks s)).

Definition get_job (tenant_id delivery_id : string) (s : DeliveryStore) : option DeliveryJob :=
  match dget delivery_id (ds_jobs s) with
  | Some job => if String.eqb (j_tenant_id job) tenant_id then Some job else None
  | None => None
  end.

Definition list_jobs (tenant_id session_id : string) (s : DeliveryStore) : list DeliveryJob :=
  filter (λ job, j_tenant_id job = tenant_id ∧ j_session_id job = session_id) (dvalues (ds_jobs s)).

Definition attempts (delivery_id : string) (s : DeliveryStore) : list DeliveryAttempt :=
  filter (λ a, at_delivery_id a = delivery_id) (ds_attempts s).

(** ** Creating and claiming *)

(** [self._jobs.setdefault(job.delivery_id, job)] *)
Definition create_job (now1 now2 : Z) (e : CanonicalEvent) (sink : ResultSinkConfig)
    (s : DeliveryStore) : DeliveryStore * DeliveryJob :=
  let job := build_delivery_job now1 now2 e sink in
  match dget (j_delivery_id job) (ds_jobs s) with
  | Some present => (s, present)
  | None => (s <| ds_jobs := dset (j_delivery_id job) job (ds_jobs s) |>, job)
  end.

Definition active_job (job : DeliveryJob) : bool :=
  match j_status job with DPending | DRetryWait | DAttempting => true | _ => false end.

(** The order of [(created_at, delivery_id)]. *)
Definition age_leb (a b : DeliveryJob) : bool :=
  if negb (j_created_at a =? j_created_at b) then j_created_at a <? j_created_at b
  else String.leb (j_delivery_id a) (j_delivery_id b).

Notation order_key := (string * string * string)%type.
Definition order_key_of (job : DeliveryJob) : order_key :=
  (j_tenant_id job, j_session_id job, j_sink_id job).

Definition job_claim_expired (now : Z) (job : DeliveryJob) : bool :=
  bool_decide (j_status job = DAttempting)
  && match j_claim_expires_at job with Some t => t <=? now | None => false end.

Definition job_available (now : Z) (job : DeliveryJob) : bool :=
  (match j_status job with DPending | DRetryWait => true | _ => false end)
  || job_claim_expired now job.

(** Available, and not before its next attempt. *)
Definition job_ready (now : Z) (job : DeliveryJob) : bool :=
  job_available now job
  && match j_next_attempt_at job with None => true | Some t => t <=? now end.

Definition at_capacity (max_per_tenant : option Z) (tenant_claims : list (string * Z))
    (tenant_id : string) : bool :=
  match max_per_tenant with
  | Some m => m <=? default 0 (dget tenant_id tenant_claims)
  | None => false
  end.

(** The selection loop of [claim_due]. *)
Fixpoint due_loop (now limit : Z) (max_per_tenant : option Z) (blocked : list order_key)
    (tenant_claims : list (string * Z)) (due active : list DeliveryJob) : list DeliveryJob :=
  match active with
  | [] => due
  | job :: rest =>
      if decide (order_key_of job ∈ blocked)
      then due_loop now limit max_per_tenant blocked tenant_claims due rest
      else
      let blocked := order_key_of job :: blocked in
      if at_capacity max_per_tenant tenant_claims (j_tenant_id job)
      then due_loop now limit max_per_tenant blocked tenant_claims due rest
      else if job_ready now job then
        let due := due ++ [job] in
        let tenant_claims := dset (j_tenant_id job)
              (default 0 (dget (j_tenant_id job) tenant_claims) + 1) tenant_claims in
        if limit <=? Z.of_nat (length due) then due
        else due_loop now limit max_per_tenant blocked tenant_claims due rest
      else due_loop now limit max_per_tenant blocked tenant_claims due rest
  end.

Definition take_job (now ttl : Z) (worker_id token : string) (job : DeliveryJob) : DeliveryJob :=
  job <| j_status := DAttempting |> <| j_attempt_count := j_attempt_count job + 1 |>
      <| j_claimed_by := Some worker_id |> <| j_claim_token := Some token |>
      <| j_claim_expires_at := Some (now + ttl) |> <| j_claim_heartbeat_at := Some now |>
      <| j_side_effect_started_at := None |> <| j_reconciliation_reason := None |>.

Definition put_job (job : DeliveryJob) (s : DeliveryStore) : DeliveryStore :=
  s <| ds_jobs := dset (j_delivery_id job) job (ds_jobs s) |>.

Definition due_jobs (now limit : Z) (max_per_tenant : option Z) (s : DeliveryStore)
    : list DeliveryJob :=
  due_loop now limit max_per_tenant [] [] []
    (py_sorted age_leb (filter (λ job, active_job job = true) (dvalues (ds_jobs s)))).

Definition claim_due (now : Z) (uuid : nat → string) (worker_id : string) (claim_ttl limit : Z)
    (max_per_tenant : option Z) (s : DeliveryStore) : DeliveryStore * list DeliveryJob :=
  let claimed := imap (λ i job, take_job now claim_ttl worker_id (uuid i) job)
                   (due_jobs now limit max_per_tenant s) in
  (fold_left (λ s job, put_job job s) claimed s, claimed).

(** ** The holder of a claim *)

(** The handle's worker and token are those of the stored job. *)
Definition same_claim (current job : DeliveryJob) : bool :=
  bool_decide (j_claimed_by current = j_claimed_by job)
  && bool_decide (j_claim_token current = j_claim_token job).

Definition unexpired (now : Z) (current : DeliveryJob) : bool :=
  match j_claim_expires_at current with Some t => now <? t | None => false end.

(** The stored job, when the handle [job] is the live claim of an attempt. *)
Definition live_claim (now : Z) (job : DeliveryJob) (s : DeliveryStore) : option DeliveryJob :=
  match dget (j_delivery_id job) (ds_jobs s) with
  | Some current =>
      if same_claim current job && unexpired now current
         && bool_decide (j_status current = DAttempting)
      then Some current else None
  | None => None
  end.

Definition set_job (delivery_id : string) (job : DeliveryJob) (s : DeliveryStore) : DeliveryStore :=
  s <| ds_jobs := dset delivery_id job (ds_jobs s) |>.

Definition renew_claim (now : Z) (job : DeliveryJob) (claim_ttl : Z) (s : DeliveryStore)
    : DeliveryStore * bool :=
  match live_claim now job s with
  | None => (s, false)
  | Some current =>
      (set_job (j_delivery_id job)
         (current <| j_claim_expires_at := Some (now + claim_ttl) |>
                  <| j_claim_heartbeat_at := Some now |>) s, true)
  end.

Definition begin_side_effect (now : Z) (job : DeliveryJob) (s : DeliveryStore)
    : DeliveryStore * bool :=
  match live_claim now job s with
  | None => (s, false)
  | Some current =>
      (set_job (j_delivery_id job) (current <| j_side_effect_started_at := Some now |>) s, true)
  end.

Definition mark_reconciling (job : DeliveryJob) (reason : string) (s : DeliveryStore)
    : DeliveryStore * bool :=
  match dget (j_delivery_id job) (ds_jobs s) with
  | None => (s, false)
  | Some current =>
      if negb (same_claim current job) || bool_decide (j_side_effect_started_at current = None)
      then (s, false)
      else (set_job (j_delivery_id job)
              (current <| j_status := DReconciling |>
                       <| j_reconciliation_reason := Some (str_take 128 reason) |>
                       <| j_claimed_by := None |> <| j_claim_token := None |>
                       <| j_claim_expires_at := None |>) s, true)
  end.

Definition attempt_status (max_attempts : Z) (response : SinkResponse) (current : DeliveryJob)
    : DeliveryStatus :=
  if rs_succeeded response then DSucceeded
  else if rs_retryable response && (j_attempt_count current <? max_attempts) then DRetryWait
  else if rs_retryable response then DDeadLettered
  else DFailed.

Definition settled (d : DeliveryStatus) : bool :=
  match d with DSucceeded | DFailed | DDeadLettered => true | _ => false end.

Definition attempted_job (completed_at : Z) (response : SinkResponse) (next_attempt_at : option Z)
    (max_attempts : Z) (current : DeliveryJob) : DeliveryJob :=
  let status := attempt_status max_attempts response current in
  current <| j_status := status |>
    <| j_next_attempt_at := if decide (status = DRetryWait) then next_attempt_at else None |>
    <| j_last_response_summary := Some (str_take 2000 (rs_summary response)) |>
    <| j_completed_at := if settled status then Some completed_at else None |>
    <| j_claimed_by := None |> <| j_claim_token := None |>
    <| j_claim_expires_at := None |> <| j_claim_heartbeat_at := None |>.

Definition attempt_row (completed_at : Z) (response : SinkResponse) (max_attempts : Z)
    (job current : DeliveryJob) : DeliveryAttempt :=
  mkAttempt (j_delivery_id job) (j_attempt_count current) completed_at completed_at
    (delivery_value (attempt_status max_attempts response current))
    (str_take 2000 (rs_summary response)) (rs_retryable response).

Definition record_attempt (completed_at : Z) (job : DeliveryJob) (response : SinkResponse)
    (next_attempt_at : option Z) (max_attempts : Z) (s : DeliveryStore)
    : DeliveryStore * res DeliveryJob :=
  let invalid := (s, Raise PyRuntimeError "delivery claim is no longer valid") in
  match dget (j_delivery_id job) (ds_jobs s) with
  | None => invalid
  | Some current =>
      if negb (same_claim current job && unexpired completed_at current) then invalid
      else
      let updated := attempted_job completed_at response next_attempt_at max_attempts current in
      (set_job (j_delivery_id job) updated s
         <| ds_attempts := ds_attempts s ++ [attempt_row completed_at response max_attempts job current] |>,
       Ok updated)
  end.

Definition begin_redelivery (now : Z) (uuid : string) (tenant_id delivery_id worker_id : string)
    (claim_ttl : Z) (s : DeliveryStore) : DeliveryStore * option DeliveryJob :=
  match get_job tenant_id delivery_id s with
  | None => (s, None)
  | Some job =>
      let updated := take_job now claim_ttl worker_id uuid job
                       <| j_next_attempt_at := None |> <| j_completed_at := None |> in
      (set_job delivery_id updated s, Some updated)
  end.

(** ** Sink circuits *)

Definition fresh_circuit : MemoryCircuit := mkCircuit CClosed 0 None 0 None None None.

Definition circuit_of (k : sink_key) (s : DeliveryStore) : MemoryCircuit :=
  default fresh_circuit (dget k (ds_circuits s)).

Definition put_circuit (k : sink_key) (c : MemoryCircuit) (s : DeliveryStore) : DeliveryStore :=
  s <| ds_circuits := dset k c (ds_circuits s) |>.

(** [x is None or x > now] *)
Definition pending_until (now : Z) (t : option Z) : bool :=
  match t with None => true | Some t => now <? t end.

Definition acquire_circuit (now : Z) (uuid worker_id : string) (probe_ttl : Z) (c : MemoryCircuit)
    : MemoryCircuit * SinkCircuitPermit :=
  let denied := (c, mkPermit false (ci_state c) (ci_generation c) None) in
  let probe :=
    let c := c <| ci_state := CHalfOpen |> <| ci_generation := ci_generation c + 1 |>
               <| ci_probe_owner := Some worker_id |> <| ci_probe_token := Some uuid |>
               <| ci_probe_expires_at := Some (now + probe_ttl) |> in
    (c, mkPermit true CHalfOpen (ci_generation c) (Some uuid)) in
  match ci_state c with
  | CClosed => (c, mkPermit true CClosed (ci_generation c) None)
  | COpen => if pending_until now (ci_open_until c) then denied else probe
  | CHalfOpen => if pending_until now (ci_probe_expires_at c) then denied else probe
  end.

Definition acquire_sink_circuit (now : Z) (uuid : string) (tenant_id sink_id worker_id : string)
    (probe_ttl : Z) (s : DeliveryStore) : DeliveryStore * SinkCircuitPermit :=
  let k := (tenant_id, sink_id) in
  let '(c, permit) := acquire_circuit now uuid worker_id probe_ttl (circuit_of k s) in
  (put_circuit k c s, permit).

Definition circuit_snapshot (c : MemoryCircuit) : SinkCircuitSnapshot :=
  mkCircuitSnapshot (ci_state c) (ci_failure_count c) (ci_generation c) (ci_open_until c)
    (ci_probe_owner c).

Definition no_probe (c : MemoryCircuit) : MemoryCircuit :=
  c <| ci_probe_owner := None |> <| ci_probe_token := None |> <| ci_probe_expires_at := None |>.

Definition record_circuit (now : Z) (response : SinkResponse) (failure_threshold reset_after : Z)
    (probe_token : option string) (c : MemoryCircuit) : MemoryCircuit :=
  if bool_decide (ci_state c = CHalfOpen) && negb (bool_decide (ci_probe_token c = probe_token))
  then c
  else if rs_succeeded response then
    let changed := negb (bool_decide (ci_state c = CClosed)) || negb (ci_failure_count c =? 0) in
    no_probe (c <| ci_state := CClosed |> <| ci_failure_count := 0 |> <| ci_open_until := None |>
                <| ci_generation := ci_generation c + (if changed then 1 else 0) |>)
  else if rs_retryable response then
    let failures := ci_failure_count c + 1 in
    if bool_decide (ci_state c = CHalfOpen) || (failure_threshold <=? failures)
    then no_probe (c <| ci_state := COpen |>
                     <| ci_failure_count := Z.max failures failure_threshold |>
                     <| ci_open_until := Some (now + reset_after) |>
                     <| ci_generation := ci_generation c + 1 |>)
    else c <| ci_failure_count := failures |>
  else c.

Definition record_sink_circuit_result (now : Z) (tenant_id sink_id : string)
    (response : SinkResponse) (failure_threshold reset_after : Z) (probe_token : option string)
    (s : DeliveryStore) : DeliveryStore * SinkCircuitSnapshot :=
  let k := (tenant_id, sink_id) in
  let c := record_circuit now response failure_threshold reset_after probe_token (circuit_of k s) in
  (put_circuit k c s, circuit_snapshot c).

Definition get_sink_circuit (tenant_id sink_id : string) (s : DeliveryStore)
    : option SinkCircuitSnapshot :=
  circuit_snapshot <$> dget (tenant_id, sink_id) (ds_circuits s).

(** ** Histories *)

Inductive DeliveryOp :=
  | DRegister (sink : ResultSinkConfig)
  | DCreate (now1 now2 : Z) (e : CanonicalEvent) (sink : ResultSinkConfig)
  | DClaim (now : Z) (uuid : nat → string) (worker : string) (ttl limit : Z) (cap : option Z)
  | DRenew (now : Z) (job : DeliveryJob) (ttl : Z)
  | DBegin (now : Z) (job : DeliveryJob)
  | DReconcile (job : DeliveryJob) (reason : string)
  | DRecord (now : Z) (job : DeliveryJob) (response : SinkResponse) (next : option Z) (max : Z)
  | DRedeliver (now : Z) (uuid tenant id worker : string) (ttl : Z)
  | DAcquire (now : Z) (uuid tenant sink worker : string) (ttl : Z)
  | DResult (now : Z) (tenant sink : string) (response : SinkResponse) (threshold reset : Z)
      (token : option string).

Definition run_delivery (s : DeliveryStore) (op : DeliveryOp) : DeliveryStore :=
  match op with
  | DRegister sink => register_sink sink s
  | DCreate n1 n2 e sink => (create_job n1 n2 e sink s).1
  | DClaim now uuid w ttl limit cap => (claim_due now uuid w ttl limit cap s).1
  | DRenew now job ttl => (renew_claim now job ttl s).1
  | DBegin now job => (begin_side_effect now job s).1
  | DReconcile job reason => (mark_reconciling job reason s).1
  | DRecord now job r next max => (record_attempt now job r next max s).1
  | DRedeliver now uuid t id w ttl => (begin_redelivery now uuid t id w ttl s).1
  | DAcquire now uuid t k w ttl => (acquire_sink_circuit now uuid t k w ttl s).1
  | DResult now t k r th reset token => (record_sink_circuit_result now t k r th reset token s).1
  end.

Definition delivery_history (ops : list DeliveryOp) (s : DeliveryStore) : DeliveryStore :=
  fold_left run_delivery ops s.

(** ** The stored jobs *)

Definition job_at (id : string) (s : DeliveryStore) : option DeliveryJob := dget id (ds_jobs s).

(** A job is stored under its id; it has a claim exactly while it is attempted. *)
Definition job_ok (id : string) (j : DeliveryJob) : Prop :=
  j_delivery_id j = id
  ∧ if decide (j_status j = DAttempting)
    then is_Some (j_claimed_by j) ∧ is_Some (j_claim_token j) ∧ is_Some (j_claim_expires_at j)
    else j_claimed_by j = None ∧ j_claim_token j = None ∧ j_claim_expires_at j = None.

Definition jobs_ok (s : DeliveryStore) : Prop :=
  dict_wf (ds_jobs s) ∧ ∀ id j, job_at id s = Some j → job_ok id j.

Lemma jobs_ok_new : jobs_ok new_delivery_store.
Proof. split; [constructor|done]. Qed.

Lemma set_job_ok id j s : jobs_ok s → job_ok id j → jobs_ok (set_job id j s).
Proof.
  intros [Hwf Hs] Hj. split; [by apply dset_wf|]. intros id' j'. unfold job_at, set_job; cbn.
  rewrite dget_dset. case_decide; intros; simplify_eq; auto.
Qed.

Lemma job_at_set id id' j s :
  job_at id (set_job id' j s) = if decide (id = id') then Some j else job_at id s.
Proof. apply dget_dset. Qed.

Lemma put_set_job j s : put_job j s = set_job (j_delivery_id j) j s.
Proof. done. Qed.

Lemma live_claim_Some now job s current :
  live_claim now job s = Some current →
  job_at (j_delivery_id job) s = Some current ∧ same_claim current job = true
  ∧ unexpired now current = true ∧ j_status current = DAttempting.
Proof.
  unfold live_claim, job_at. case_match; [|done]. case_match eqn:E; [|done]. intros; simplify_eq.
  bool_props. done.
Qed.

Lemma take_job_ok id now ttl w token j : j_delivery_id j = id → job_ok id (take_job now ttl w token j).
Proof. intros. split; [done|]. cbn. rewrite decide_True by done. split_and!; by eexists. Qed.

Lemma attempted_unclaimed id now r next max j :
  j_delivery_id j = id → job_ok id (attempted_job now r next max j).
Proof.
  intros. split; [done|]. cbn. rewrite decide_False; [done|]. unfold attempt_status.
  by repeat case_match.
Qed.

(** ** Claiming *)

(** The first job of each key, among those whose key is not blocked. *)
Fixpoint queue_heads (blocked : list order_key) (l : list DeliveryJob) : list DeliveryJob :=
  match l with
  | [] => []
  | j :: l => if decide (order_key_of j ∈ blocked) then queue_heads blocked l
              else j :: queue_heads (order_key_of j :: blocked) l
  end.

(** The selection among the heads. *)
Fixpoint pick (now limit : Z) (cap : option Z) (tc : list (string * Z)) (due heads : list DeliveryJob)
    : list DeliveryJob :=
  match heads with
  | [] => due
  | j :: heads =>
      if negb (at_capacity cap tc (j_tenant_id j)) && job_ready now j then
        if limit <=? Z.of_nat (length (due ++ [j])) then due ++ [j]
        else pick now limit cap (dset (j_tenant_id j) (default 0 (dget (j_tenant_id j) tc) + 1) tc)
               (due ++ [j]) heads
      else pick now limit cap tc due heads
  end.

Lemma due_loop_pick now limit cap blocked tc due active :
  due_loop now limit cap blocked tc due active = pick now limit cap tc due (queue_heads blocked active).
Proof.
  revert blocked tc due. induction active as [|j active IH]; intros blocked tc due; cbn; [done|].
  case_decide; [done|]. cbn. destruct (at_capacity _ _ _); cbn; [done|].
  destruct (job_ready now j); [|done]. by case_match.
Qed.

Lemma queue_heads_elem blocked l j :
  j ∈ queue_heads blocked l ↔
  order_key_of j ∉ blocked
  ∧ ∃ l1 l2, l = l1 ++ j :: l2 ∧ Forall (λ x, order_key_of x ≠ order_key_of j) l1.
Proof.
  revert blocked. induction l as [|x l IH]; intros blocked; cbn.
  { split; [set_solver|]. intros (_ & [|??] & l2 & ? & _); done. }
  case_decide as Hx; [|rewrite elem_of_cons]; rewrite IH; clear IH.
  - split.
    + intros (Hj & l1 & l2 & -> & H). split; [done|]. exists (x :: l1), l2. split; [done|].
      constructor; [congruence|done].
    + intros (Hj & [|y l1] & l2 & Heq & H); cbn in Heq; simplify_eq; [done|].
      apply Forall_cons in H as [_ H]. split; [done|]. by exists l1, l2.
  - split.
    + intros [->|(Hj & l1 & l2 & -> & H)]; [split; [done|]; by exists [], l|].
      rewrite not_elem_of_cons in Hj. destruct Hj as [Hne Hj]. split; [done|].
      exists (x :: l1), l2. split; [done|]. by constructor.
    + intros (Hj & [|y l1] & l2 & Heq & H); cbn in Heq; simplify_eq; [by left|].
      apply Forall_cons in H as [Hne H]. right. split; [by apply not_elem_of_cons|]. by exists l1, l2.
Qed.

Lemma queue_heads_NoDup blocked l : NoDup (map order_key_of (queue_heads blocked l)).
Proof.
  revert blocked. induction l as [|x l IH]; intros blocked; cbn; [constructor|].
  case_decide; [done|]. cbn. constructor; [|done].
  intros (y & Hy & [Hb _]%queue_heads_elem)%list_elem_of_fmap. apply Hb. rewrite <- Hy. by left.
Qed.

Lemma queue_heads_sublist blocked l : queue_heads blocked l `sublist_of` l.
Proof.
  revert blocked. induction l as [|x l IH]; intros blocked; cbn; [done|].
  case_decide; [by apply sublist_cons|by apply sublist_skip].
Qed.

Definition tenant_count (t : string) (l : list DeliveryJob) : Z :=
  Z.of_nat (length (filter (λ j, j_tenant_id j = t) l)).

Lemma tenant_count_snoc t l j :
  tenant_count t (l ++ [j]) = tenant_count t l + (if decide (j_tenant_id j = t) then 1 else 0).
Proof.
  unfold tenant_count. rewrite filter_app, length_app. cbn. unfold filter; cbn. case_decide; cbn; lia.
Qed.

Definition counts (tc : list (string * Z)) (due : list DeliveryJob) : Prop :=
  ∀ t, default 0 (dget t tc) = tenant_count t due.

Lemma counts_snoc tc due j :
  counts tc due →
  counts (dset (j_tenant_id j) (default 0 (dget (j_tenant_id j) tc) + 1) tc) (due ++ [j]).
Proof.
  intros H t. rewrite tenant_count_snoc, dget_dset. do 2 case_decide; subst; cbn; try done.
  - by rewrite H.
  - rewrite H. lia.
Qed.

Lemma pick_sublist now limit cap tc due heads :
  ∃ new, pick now limit cap tc due heads = due ++ new ∧ new `sublist_of` heads
    ∧ Forall (λ j, job_ready now j = true) new.
Proof.
  revert tc due. induction heads as [|j heads IH]; intros tc due; cbn.
  { exists []. by rewrite app_nil_r. }
  destruct (negb _ && job_ready now j) eqn:Hj.
  - bool_props. case_match.
    + exists [j]. split_and!; [done| |by constructor]. apply sublist_skip, sublist_nil_l.
    + destruct (IH (dset (j_tenant_id j) (default 0 (dget (j_tenant_id j) tc) + 1) tc) (due ++ [j]))
        as (new & -> & Hs & Hr).
      exists (j :: new). rewrite <- app_assoc. split_and!; [done|by apply sublist_skip|by constructor].
  - destruct (IH tc due) as (new & -> & Hs & Hr). exists new.
    split_and!; [done|by apply sublist_cons|done].
Qed.

Lemma pick_limit now limit cap tc due heads :
  Z.of_nat (length due) < limit →
  Z.of_nat (length (pick now limit cap tc due heads)) ≤ limit.
Proof.
  revert tc due. induction heads as [|j heads IH]; intros tc due Hd; cbn -[Z.of_nat]; [lia|].
  case_match; [|by apply IH]. rewrite length_app in *. cbn [length] in *.
  case_match; bool_props; [rewrite length_app; cbn; lia|]. apply IH. rewrite length_app. cbn. lia.
Qed.

Lemma pick_capacity now limit m tc due heads t :
  counts tc due → tenant_count t due ≤ m →
  tenant_count t (pick now limit (Some m) tc due heads) ≤ m.
Proof.
  revert tc due. induction heads as [|j heads IH]; intros tc due Hc Hd; cbn; [done|].
  destruct (negb _ && job_ready now j) eqn:Hj; [|by apply IH].
  bool_props. rewrite Hc in *.
  assert (tenant_count t (due ++ [j]) ≤ m) as Hsnoc.
  { rewrite tenant_count_snoc. case_decide; subst; lia. }
  case_match; [done|]. apply IH; [|done]. rewrite <- Hc. by apply counts_snoc.
Qed.

Lemma pick_mono now limit cap tc due heads :
  due `sublist_of` pick now limit cap tc due heads.
Proof. destruct (pick_sublist now limit cap tc due heads) as (new & -> & _). by apply sublist_inserts_r. Qed.

Lemma tenant_count_mono t l k : l `sublist_of` k → tenant_count t l ≤ tenant_count t k.
Proof.
  unfold tenant_count. induction 1 as [|x l k _ IH|x l k _ IH]; [done|..];
    rewrite ?filter_cons; repeat case_decide; cbn [length]; lia.
Qed.

Lemma pick_complete now limit cap tc due heads j :
  counts tc due → j ∈ heads → job_ready now j = true →
  let picked := pick now limit cap tc due heads in
  j ∈ picked ∨ limit ≤ Z.of_nat (length picked)
  ∨ ∃ m, cap = Some m ∧ m ≤ tenant_count (j_tenant_id j) picked.
Proof.
  revert tc due. induction heads as [|x heads IH]; intros tc due Hc Hj Hr picked; [set_solver|].
  subst picked. cbn. destruct (negb (at_capacity cap tc (j_tenant_id x)) && job_ready now x) eqn:Hx.
  - case_match; [bool_props; naive_solver|]. apply elem_of_cons in Hj as [->|Hj].
    + left. edestruct pick_sublist as (new & -> & _). set_solver.
    + by apply IH; [apply counts_snoc| |].
  - apply elem_of_cons in Hj as [->|Hj]; [|by apply IH].
    rewrite Hr, andb_true_r in Hx. bool_props. unfold at_capacity in Hx. destruct cap as [m|]; [|done].
    bool_props. right; right. exists m. split; [done|]. rewrite Hc in Hx.
    etrans; [exact Hx|]. apply tenant_count_mono, pick_mono.
Qed.

(** The active jobs in order of age. *)
Definition active_jobs (s : DeliveryStore) : list DeliveryJob :=
  py_sorted age_leb (filter (λ job, active_job job = true) (dvalues (ds_jobs s))).

Lemma due_jobs_pick now limit cap s :
  due_jobs now limit cap s = pick now limit cap [] [] (queue_heads [] (active_jobs s)).
Proof. apply due_loop_pick. Qed.

Lemma active_jobs_elem s j :
  jobs_ok s → j ∈ active_jobs s ↔ job_at (j_delivery_id j) s = Some j ∧ active_job j = true.
Proof.
  intros [Hwf Hs]. unfold active_jobs. rewrite elem_of_py_sorted, list_elem_of_filter, elem_of_dvalues by done.
  split; [|naive_solver]. intros [Ha [id Hid]]. destruct (Hs _ _ Hid) as [-> _]. done.
Qed.

Lemma active_jobs_NoDup s : jobs_ok s → NoDup (map j_delivery_id (active_jobs s)).
Proof.
  intros [Hwf Hs]. unfold active_jobs.
  assert (map j_delivery_id (dvalues (ds_jobs s)) = dkeys (ds_jobs s)) as Hids.
  { unfold dvalues, dkeys. change (map j_delivery_id ((ds_jobs s).*2)) with (j_delivery_id <$> (ds_jobs s).*2).
    rewrite <- list_fmap_compose. apply list_fmap_ext. intros i [id j] Hi. cbn.
    apply (Hs id j). apply elem_dget; [done|]. by eapply list_elem_of_lookup_2. }
  eapply (NoDup_Permutation_proper _ _).
  { apply Permutation_map, py_sorted_perm. }
  eapply sublist_NoDup; [|apply fmap_sublist, sublist_filter].
  change (j_delivery_id <$> dvalues (ds_jobs s)) with (map j_delivery_id (dvalues (ds_jobs s))).
  by rewrite Hids.
Qed.

Definition older (a b : DeliveryJob) : Prop := j_created_at a ≤ j_created_at b.
#[global] Instance older_trans : Transitive older.
Proof. intros x y z. unfold older. lia. Qed.

Lemma active_jobs_sorted s : StronglySorted older (active_jobs s).
Proof.
  apply (py_sorted_sorted _ older); unfold older.
  - intros x y. unfold age_leb. case_match; bool_props; lia.
  - intros x y. unfold age_leb. case_match; bool_props; lia.
Qed.

Lemma sorted_before (l1 l2 : list DeliveryJob) j x :
  StronglySorted older (l1 ++ j :: l2) → (x ∈ l1 → older x j) ∧ (x ∈ l2 → older j x).
Proof.
  induction l1 as [|y l1 IH]; cbn; intros [Hs Hf]%StronglySorted_inv.
  - split; [set_solver|]. rewrite Forall_forall in Hf. auto.
  - destruct (IH Hs) as [H1 H2]. split; [|done]. intros [->|Hx]%elem_of_cons; [|auto].
    rewrite Forall_forall in Hf. apply Hf. set_solver.
Qed.

(** The first of its key in order of age is the oldest of its key; the strictly
    oldest of its key is first. *)
Lemma head_oldest s j x :
  jobs_ok s → j ∈ queue_heads [] (active_jobs s) →
  job_at (j_delivery_id x) s = Some x → active_job x = true → order_key_of x = order_key_of j →
  older j x.
Proof.
  intros Hok (_ & l1 & l2 & Heq & Hl1)%queue_heads_elem Hx Ha Hk.
  assert (x ∈ active_jobs s) as Hin by (by apply active_jobs_elem).
  pose proof (active_jobs_sorted s) as Hs. rewrite Heq in Hs, Hin.
  apply elem_of_app in Hin as [Hin|[->|Hin]%elem_of_cons].
  - rewrite Forall_forall in Hl1. by destruct (Hl1 x Hin).
  - unfold older. lia.
  - by apply (sorted_before _ _ _ x Hs).
Qed.

Lemma oldest_head s j :
  jobs_ok s → job_at (j_delivery_id j) s = Some j → active_job j = true →
  (∀ x, job_at (j_delivery_id x) s = Some x → active_job x = true → order_key_of x = order_key_of j →
     x = j ∨ j_created_at j < j_created_at x) →
  j ∈ queue_heads [] (active_jobs s).
Proof.
  intros Hok Hj Ha Hmin. apply queue_heads_elem. split; [set_solver|].
  assert (j ∈ active_jobs s) as (l1 & l2 & Heq)%list_elem_of_split by (by apply active_jobs_elem).
  exists l1, l2. split; [done|]. apply Forall_forall. intros x Hx Hk.
  pose proof (active_jobs_sorted s) as Hs. pose proof (active_jobs_NoDup s Hok) as Hnd.
  assert (x ∈ active_jobs s) as [Hx1 Hx2]%active_jobs_elem by (rewrite Heq; set_solver); [|done].
  rewrite Heq in Hs, Hnd. apply (sorted_before _ _ _ x) in Hs as [Hs _].
  destruct (Hmin x Hx1 Hx2 Hk) as [->|]; [|unfold older in Hs; apply Hs in Hx; lia].
  rewrite map_app in Hnd. apply NoDup_app in Hnd as (_ & Hd & _).
  apply (Hd (j_delivery_id j)); [by apply list_elem_of_fmap_2|]. by left.
Qed.

(** What [claim_due] selects. *)
Lemma due_jobs_sublist now limit cap s :
  due_jobs now limit cap s `sublist_of` queue_heads [] (active_jobs s)
  ∧ Forall (λ j, job_ready now j = true) (due_jobs now limit cap s).
Proof.
  rewrite due_jobs_pick.
  destruct (pick_sublist now limit cap [] [] (queue_heads [] (active_jobs s))) as (new & -> & H1 & H2).
  done.
Qed.

Lemma due_jobs_NoDup now limit cap s :
  jobs_ok s → NoDup (map j_delivery_id (due_jobs now limit cap s)).
Proof.
  intros Hok. eapply sublist_NoDup; [by apply active_jobs_NoDup|]. apply fmap_sublist.
  etrans; [apply due_jobs_sublist|apply queue_heads_sublist].
Qed.

Lemma due_jobs_elem now limit cap s j :
  jobs_ok s → j ∈ due_jobs now limit cap s →
  job_at (j_delivery_id j) s = Some j ∧ active_job j = true ∧ job_ready now j = true
  ∧ j ∈ queue_heads [] (active_jobs s).
Proof.
  intros Hok Hj. destruct (due_jobs_sublist now limit cap s) as [Hs Hr].
  rewrite Forall_forall in Hr. assert (j ∈ queue_heads [] (active_jobs s)) as Hh.
  { eapply elem_of_sublist; done. }
  assert (j ∈ active_jobs s) as Hact.
  { eapply elem_of_sublist; [done|apply queue_heads_sublist]. }
  apply active_jobs_elem in Hact as [? ?]; auto.
Qed.

(** Storing a list of jobs with distinct ids. *)
Lemma put_jobs_at l s id :
  NoDup (map j_delivery_id l) →
  (∀ j, j ∈ l → j_delivery_id j = id → job_at id (fold_left (λ s j, put_job j s) l s) = Some j)
  ∧ (id ∉ map j_delivery_id l → job_at id (fold_left (λ s j, put_job j s) l s) = job_at id s).
Proof.
  revert s. induction l as [|x l IH]; intros s Hnd; cbn; [split; [set_solver|done]|].
  apply NoDup_cons in Hnd as [Hx Hnd]. destruct (IH (put_job x s) Hnd) as [H1 H2].
  pose proof (job_at_set id (j_delivery_id x) x s : job_at id (put_job x s) = _) as Hput.
  rewrite Hput in H2. split.
  - intros j [->|Hj]%elem_of_cons Hid; [|by apply H1].
    subst id. rewrite H2 by done. by rewrite decide_True.
  - intros [Hne Hid]%not_elem_of_cons. rewrite H2 by done. by rewrite decide_False.
Qed.

Lemma put_jobs_ok l s :
  jobs_ok s → Forall (λ j, job_ok (j_delivery_id j) j) l →
  jobs_ok (fold_left (λ s j, put_job j s) l s).
Proof.
  intros Hs Hl. apply fold_left_inv; [|done]. intros x j Hj Hx. rewrite Forall_forall in Hl.
  apply set_job_ok; auto.
Qed.

Lemma claimed_ids now uuid w ttl l :
  map j_delivery_id (imap (λ i j, take_job now ttl w (uuid i) j) l) = map j_delivery_id l.
Proof.
  apply list_eq. intros i.
  change (map j_delivery_id) with (fmap (M := list) j_delivery_id).
  rewrite !list_lookup_fmap, list_lookup_imap. by destruct (l !! i).
Qed.

Lemma claimed_keys now uuid w ttl l :
  map order_key_of (imap (λ i j, take_job now ttl w (uuid i) j) l) = map order_key_of l.
Proof.
  apply list_eq. intros i. change (map order_key_of) with (fmap (M := list) order_key_of).
  rewrite !list_lookup_fmap, list_lookup_imap. by destruct (l !! i).
Qed.

Lemma tenant_count_taken t now uuid w ttl l :
  tenant_count t (imap (λ i j, take_job now ttl w (uuid i) j) l) = tenant_count t l.
Proof.
  unfold tenant_count. revert uuid. induction l as [|j l IH]; intros uuid; [done|].
  cbn [imap]. rewrite !filter_cons. specialize (IH (uuid ∘ S)). cbn in IH |- *.
  case_decide; cbn [length]; unfold compose in *; lia.
Qed.

Lemma due_jobs_inj now limit cap s i i' j :
  jobs_ok s → due_jobs now limit cap s !! i = Some j → due_jobs now limit cap s !! i' = Some j → i' = i.
Proof.
  intros Hok Hi Hi'. pose proof (due_jobs_NoDup now limit cap s Hok) as Hnd.
  apply NoDup_fmap_1 in Hnd. by eapply NoDup_lookup.
Qed.

(** ** The life of a job *)

(** The transitions of one job, as a step relation: the abstract protocol that the
    store's operations implement. *)
Inductive job_step (op : DeliveryOp) (j : DeliveryJob) : DeliveryJob → Prop :=
  | js_idle : job_step op j j
  | js_claim now uuid i w ttl limit cap :
      op = DClaim now uuid w ttl limit cap → job_ready now j = true → active_job j = true →
      job_step op j (take_job now ttl w (uuid i) j)
  | js_redeliver now token w ttl :
      op = DRedeliver now token (j_tenant_id j) (j_delivery_id j) w ttl →
      job_step op j (take_job now ttl w token j <| j_next_attempt_at := None |> <| j_completed_at := None |>)
  | js_renew now job ttl :
      op = DRenew now job ttl → same_claim j job = true → j_status j = DAttempting →
      job_step op j (j <| j_claim_expires_at := Some (now + ttl) |> <| j_claim_heartbeat_at := Some now |>)
  | js_begin now job :
      op = DBegin now job → same_claim j job = true → j_status j = DAttempting →
      job_step op j (j <| j_side_effect_started_at := Some now |>)
  | js_reconcile job reason :
      op = DReconcile job reason → same_claim j job = true →
      is_Some (j_side_effect_started_at j) →
      job_step op j (j <| j_status := DReconciling |>
                       <| j_reconciliation_reason := Some (str_take 128 reason) |>
                       <| j_claimed_by := None |> <| j_claim_token := None |>
                       <| j_claim_expires_at := None |>)
  | js_record now job r next max :
      op = DRecord now job r next max → same_claim j job = true → unexpired now j = true →
      job_step op j (attempted_job now r next max j).

Lemma put_circuit_jobs k c s : ds_jobs (put_circuit k c s) = ds_jobs s.
Proof. done. Qed.

Lemma claim_due_at now uuid w ttl limit cap s id j :
  jobs_ok s → job_at id s = Some j →
  job_at id (claim_due now uuid w ttl limit cap s).1 = Some j
    ∧ j ∉ due_jobs now limit cap s
  ∨ ∃ i, due_jobs now limit cap s !! i = Some j
      ∧ job_at id (claim_due now uuid w ttl limit cap s).1 = Some (take_job now ttl w (uuid i) j).
Proof.
  intros Hok Hj. pose proof (due_jobs_NoDup now limit cap s Hok) as Hnd.
  rewrite <- (claimed_ids now uuid w ttl) in Hnd.
  apply (put_jobs_at _ s id) in Hnd as [H1 H2]. rewrite claimed_ids in H2.
  assert (j_delivery_id j = id) as Hid by (by apply Hok in Hj as [-> _]).
  destruct (decide (id ∈ map j_delivery_id (due_jobs now limit cap s))) as [Hin|Hout].
  - right. apply list_elem_of_fmap in Hin as (x & Hx & Hin).
    pose proof (due_jobs_elem _ _ _ _ _ Hok Hin) as (Hat & _). assert (x = j) as -> by congruence.
    apply list_elem_of_lookup in Hin as [i Hi]. exists i. split; [done|].
    apply H1; [|done]. apply list_elem_of_lookup. exists i. by rewrite list_lookup_imap, Hi.
  - left. unfold claim_due. cbn. rewrite H2 by done. split; [done|].
    intros Hin. apply Hout. rewrite <- Hid. by apply list_elem_of_fmap_2.
Qed.

Lemma record_attempt_at now job r next max s :
  (∃ m, record_attempt now job r next max s = (s, Raise PyRuntimeError m))
  ∨ ∃ current, job_at (j_delivery_id job) s = Some current ∧ same_claim current job = true
      ∧ unexpired now current = true
      ∧ record_attempt now job r next max s =
          (set_job (j_delivery_id job) (attempted_job now r next max current) s
             <| ds_attempts := ds_attempts s ++ [attempt_row now r max job current] |>,
           Ok (attempted_job now r next max current)).
Proof.
  unfold record_attempt, job_at. case_match; [|left; by eexists].
  case_match eqn:E; [left; by eexists|]. right. bool_props. by eexists.
Qed.

(** Each operation leaves every job where it was or takes it through one transition,
    and creates at most fresh pending jobs. *)
Lemma set_job_step op id id' j j' s :
  job_at id s = Some j → (id = id' → job_step op j j') →
  ∃ j'', job_at id (set_job id' j' s) = Some j'' ∧ job_step op j j''.
Proof.
  intros Hj Hs. rewrite job_at_set. case_decide; [eauto|]. exists j. split; [done|constructor].
Qed.

Lemma run_delivery_step s op id j :
  jobs_ok s → job_at id s = Some j →
  ∃ j', job_at id (run_delivery s op) = Some j' ∧ job_step op j j'.
Proof.
  intros Hok Hj. assert (∃ j', job_at id s = Some j' ∧ job_step op j j') as Hidle.
  { exists j. split; [done|constructor]. }
  destruct op as [sink|n1 n2 e sink|now uuid w ttl limit cap|now job ttl|now job|job reason
                 |now job r next max|now uuid t did w ttl|now uuid t k w ttl|now t k r th reset token];
    cbn [run_delivery].
  - done.
  - unfold create_job. case_match eqn:E; [done|]. cbn.
    eapply (set_job_step _ _ _ _ _ s); [done|]. intros ->. by pose proof (eq_trans (eq_sym E) Hj).
  - destruct (claim_due_at now uuid w ttl limit cap s id j Hok Hj) as [[-> _]|(i & Hi & ->)].
    + exists j. split; [done|constructor].
    + apply list_elem_of_lookup_2 in Hi. apply due_jobs_elem in Hi as (_ & Ha & Hr & _); [|done].
      eexists. split; [done|]. by econstructor.
  - unfold renew_claim. case_match eqn:E; [|done]. apply live_claim_Some in E as (Hc & Hs & _ & Hst).
    eapply set_job_step; [done|]. intros ->. simplify_eq. by econstructor.
  - unfold begin_side_effect. case_match eqn:E; [|done]. apply live_claim_Some in E as (Hc & Hs & _ & Hst).
    eapply set_job_step; [done|]. intros ->. simplify_eq. by eapply js_begin.
  - unfold mark_reconciling. case_match eqn:E; [|done]. case_match eqn:G; [done|]. bool_props.
    eapply set_job_step; [done|]. intros ->. unfold job_at in Hj. simplify_eq.
    eapply js_reconcile; [done|done|]. by apply not_eq_None_Some.
  - destruct (record_attempt_at now job r next max s) as [[m ->]|(c & Hc & Hs & Hu & ->)]; [done|].
    eapply (set_job_step _ _ _ _ _ s); [done|]. intros ->. simplify_eq. by eapply js_record.
  - unfold begin_redelivery. case_match eqn:E; [|done]. unfold get_job in E.
    destruct (dget did (ds_jobs s)) as [x|] eqn:Ex; [|done]. case_match eqn:Et; [|done]. simplify_eq.
    pose proof (proj1 (proj2 Hok _ _ Ex)) as Hid. bool_props. subst t did.
    eapply set_job_step; [done|]. intros ->. unfold job_at in Hj. simplify_eq. by eapply js_redeliver.
  - unfold acquire_sink_circuit. case_match. done.
  - done.
Qed.

Lemma run_delivery_fresh s op id j' :
  jobs_ok s → job_at id s = None → job_at id (run_delivery s op) = Some j' →
  ∃ n1 n2 e sink, op = DCreate n1 n2 e sink ∧ j' = build_delivery_job n1 n2 e sink
    ∧ id = j_delivery_id j'.
Proof.
  intros Hok Hn. assert (∀ id' x, job_at id' s = Some x → id ≠ id') as Hne by (intros; congruence).
  destruct op as [sink|n1 n2 e sink|now uuid w ttl limit cap|now job ttl|now job|job reason
                 |now job r next max|now uuid t did w ttl|now uuid t k w ttl|now t k r th reset token];
    cbn [run_delivery].
  - intros H. by pose proof (eq_trans (eq_sym Hn) H).
  - unfold create_job. case_match eqn:E; cbn [fst]; intros H; [by rewrite Hn in H|].
    rewrite (job_at_set id _ _ s : job_at id (_ <| ds_jobs := _ |>) = _) in H.
    case_decide; [|congruence]. simplify_eq. eauto 10.
  - intros H. exfalso. pose proof (due_jobs_NoDup now limit cap s Hok) as Hnd.
    rewrite <- (claimed_ids now uuid w ttl) in Hnd. apply (put_jobs_at _ s id) in Hnd as [_ H2].
    rewrite claimed_ids in H2. unfold claim_due in H. cbn in H. rewrite H2, Hn in H; [done|].
    intros (x & -> & Hx)%list_elem_of_fmap. apply due_jobs_elem in Hx as [? _]; [congruence|done].
  - unfold renew_claim. case_match eqn:E; cbn [fst]; [|congruence]. apply live_claim_Some in E as [Hc _].
    rewrite job_at_set, decide_False by eauto. congruence.
  - unfold begin_side_effect. case_match eqn:E; cbn [fst]; [|congruence].
    apply live_claim_Some in E as [Hc _]. rewrite job_at_set, decide_False by eauto. congruence.
  - unfold mark_reconciling. case_match eqn:E; cbn [fst]; [|congruence]. case_match; cbn [fst]; [congruence|].
    rewrite job_at_set, decide_False by eauto. congruence.
  - destruct (record_attempt_at now job r next max s) as [[m ->]|(c & Hc & _ & _ & ->)]; cbn [fst]; [congruence|].
    intros H. assert (job_at id (set_job (j_delivery_id job) (attempted_job now r next max c) s) = Some j')
      as H' by exact H. rewrite job_at_set, decide_False in H' by eauto. congruence.
  - unfold begin_redelivery. case_match eqn:E; cbn [fst]; [|congruence]. unfold get_job in E.
    destruct (dget did (ds_jobs s)) eqn:Ex; [|done]. rewrite job_at_set, decide_False by eauto. congruence.
  - unfold acquire_sink_circuit. case_match. cbn [fst]. unfold job_at. rewrite put_circuit_jobs.
    unfold job_at in Hn. congruence.
  - unfold record_sink_circuit_result. cbn [fst]. unfold job_at in *. rewrite put_circuit_jobs. congruence.
Qed.

Lemma job_step_ok op id j j' : job_ok id j → job_step op j j' → job_ok id j'.
Proof.
  intros [Hid Hc] Hs. destruct Hs; cbn in *.
  - done.
  - by apply take_job_ok.
  - split; [done|]. cbn. rewrite decide_True by done. split_and!; by eexists.
  - split; [done|]. cbn. rewrite decide_True in Hc |- * by done. destruct Hc as (? & ? & ?).
    split_and!; [done..|by eexists].
  - by split.
  - by split.
  - by apply attempted_unclaimed.
Qed.

Lemma run_delivery_wf s op : dict_wf (ds_jobs s) → dict_wf (ds_jobs (run_delivery s op)).
Proof.
  intros Hwf. assert (∀ id j, dict_wf (ds_jobs (set_job id j s))) as Hset by (intros; by apply dset_wf).
  destruct op as [sink|n1 n2 e sink|now uuid w ttl limit cap|now job ttl|now job|job reason
                 |now job r next max|now uuid t did w ttl|now uuid t k w ttl|now t k r th reset token];
    cbn [run_delivery].
  - done.
  - unfold create_job. case_match; [done|]. apply Hset.
  - unfold claim_due. cbn [fst]. apply (fold_left_inv (λ x, dict_wf (ds_jobs x))); [|done].
    intros x j _ Hx. by apply dset_wf.
  - unfold renew_claim. case_match; [apply Hset|done].
  - unfold begin_side_effect. case_match; [apply Hset|done].
  - unfold mark_reconciling. case_match; [|done]. case_match; [done|apply Hset].
  - destruct (record_attempt_at now job r next max s) as [[m ->]|(c & _ & _ & _ & ->)]; [done|apply Hset].
  - unfold begin_redelivery. case_match; [apply Hset|done].
  - unfold acquire_sink_circuit. by case_match.
  - done.
Qed.

Lemma run_delivery_ok s op : jobs_ok s → jobs_ok (run_delivery s op).
Proof.
  intros Hok. split; [apply run_delivery_wf, Hok|]. intros id j' Hj'.
  destruct (job_at id s) as [j|] eqn:Hj.
  - destruct (run_delivery_step s op id j Hok Hj) as (x & Hx & Hs). simplify_eq.
    eapply job_step_ok; [by apply Hok|done].
  - destruct (run_delivery_fresh s op id j' Hok Hj Hj') as (n1 & n2 & e & sink & -> & -> & ->). done.
Qed.

Lemma delivery_history_ok ops s : jobs_ok s → jobs_ok (delivery_history ops s).
Proof. intros. apply (fold_left_inv jobs_ok); [|done]. intros. by apply run_delivery_ok. Qed.

(** What never changes about a job. *)
Definition job_identity (j : DeliveryJob) :=
  (j_delivery_id j, j_event_id j, j_tenant_id j, (j_root_session_id j, j_session_id j, j_run_id j),
   (j_sink_id j, j_sink_type j, j_sink_target_ref j), j_payload j, j_created_at j).

Lemma job_step_identity op j j' :
  job_step op j j' → job_identity j' = job_identity j ∧ j_attempt_count j ≤ j_attempt_count j'.
Proof. destruct 1; split; try done; cbn; lia. Qed.

Lemma history_identity ops s id j :
  jobs_ok s → job_at id s = Some j →
  ∃ j', job_at id (delivery_history ops s) = Some j' ∧ job_identity j' = job_identity j
    ∧ j_attempt_count j ≤ j_attempt_count j'.
Proof.
  revert s j. induction ops as [|op ops IH]; intros s j Hok Hj; cbn; [by exists j|].
  destruct (run_delivery_step s op id j Hok Hj) as (j1 & Hj1 & [H1 H2]%job_step_identity).
  destruct (IH _ _ (run_delivery_ok s op Hok) Hj1) as (j2 & Hj2 & H3 & H4).
  exists j2. split_and!; [done|congruence|lia].
Qed.

(** Delivery is idempotent in the event and the sink: once a job exists for
    them, creating it again — at any later point of any history, with any clock —
    changes nothing and returns that job, whose identity and payload are as created
    and whose attempt count has not gone down. *)
Theorem create_job_idempotent ops ops' n1 n2 n3 n4 e sink :
  let '(s, job) := create_job n1 n2 e sink (delivery_history ops new_delivery_store) in
  let s' := delivery_history ops' s in
  ∃ job', create_job n3 n4 e sink s' = (s', job') ∧ job_identity job' = job_identity job
    ∧ j_attempt_count job ≤ j_attempt_count job'
    ∧ job_at (delivery_id_for (ev_event_id e) (sk_sink_id sink)) s' = Some job'.
Proof.
  set (s0 := delivery_history ops new_delivery_store).
  assert (jobs_ok s0) as Hok by apply delivery_history_ok, jobs_ok_new.
  destruct (create_job n1 n2 e sink s0) as [s job] eqn:Ec.
  assert (jobs_ok s) as Hs.
  { pose proof (run_delivery_ok s0 (DCreate n1 n2 e sink) Hok) as H. cbn [run_delivery] in H.
    by rewrite Ec in H. }
  assert (job_at (delivery_id_for (ev_event_id e) (sk_sink_id sink)) s = Some job) as Hjob.
  { unfold create_job in Ec. case_match eqn:E; simplify_eq; [exact E|]. apply dget_dset_eq. }
  destruct (history_identity ops' s _ job Hs Hjob) as (job' & Hj' & Hid & Hc).
  cbn zeta. exists job'. split_and!; [|done..]. unfold create_job.
  change (j_delivery_id (build_delivery_job n3 n4 e sink))
    with (delivery_id_for (ev_event_id e) (sk_sink_id sink)).
  unfold job_at in Hj'. by rewrite Hj'.
Qed.

(** What a claim takes: at most [limit] jobs and at most the tenant's cap of each
    tenant, at most one per (tenant, session, sink), each of them ready, the oldest
    active job of its (tenant, session, sink), counted as one more attempt and held
    under its own token; every other job stays as it was; and the oldest job of a
    (tenant, session, sink), if ready, is passed over only when the limit or the cap
    of its tenant is reached. *)
Theorem claim_due_exact ops now uuid worker ttl limit cap :
  1 ≤ limit → 0 ≤ default 0 cap →
  let s := delivery_history ops new_delivery_store in
  let '(s', claimed) := claim_due now uuid worker ttl limit cap s in
  Z.of_nat (length claimed) ≤ limit
  ∧ (∀ m t, cap = Some m → tenant_count t claimed ≤ m)
  ∧ NoDup (map order_key_of claimed)
  ∧ (∀ i c, claimed !! i = Some c → ∃ j,
       job_at (j_delivery_id c) s = Some j ∧ c = take_job now ttl worker (uuid i) j
       ∧ job_at (j_delivery_id c) s' = Some c ∧ job_ready now j = true
       ∧ ∀ x, job_at (j_delivery_id x) s = Some x → active_job x = true →
              order_key_of x = order_key_of j → older j x)
  ∧ (∀ id j, job_at id s = Some j → id ∉ map j_delivery_id claimed → job_at id s' = Some j)
  ∧ (∀ j, job_at (j_delivery_id j) s = Some j → active_job j = true → job_ready now j = true →
       (∀ x, job_at (j_delivery_id x) s = Some x → active_job x = true →
             order_key_of x = order_key_of j → x = j ∨ j_created_at j < j_created_at x) →
       j_delivery_id j ∈ map j_delivery_id claimed
       ∨ limit ≤ Z.of_nat (length claimed)
       ∨ ∃ m, cap = Some m ∧ m ≤ tenant_count (j_tenant_id j) claimed).
Proof.
  intros Hlim Hcap. cbn zeta. set (s := delivery_history ops new_delivery_store).
  assert (jobs_ok s) as Hok by apply delivery_history_ok, jobs_ok_new. clearbody s.
  destruct (claim_due now uuid worker ttl limit cap s) as [s' claimed] eqn:Ec.
  assert (claimed = imap (λ i j, take_job now ttl worker (uuid i) j) (due_jobs now limit cap s))
    as Hcl by (by unfold claim_due in Ec; simplify_eq).
  assert (length claimed = length (due_jobs now limit cap s)) as Hlen by (by rewrite Hcl, length_imap).
  assert (∀ t, tenant_count t claimed = tenant_count t (due_jobs now limit cap s)) as Hcount.
  { intros t. subst claimed. apply tenant_count_taken. }
  assert (map j_delivery_id claimed = map j_delivery_id (due_jobs now limit cap s)) as Hids
    by (by rewrite Hcl, claimed_ids).
  assert (counts [] []) as Hc0 by done.
  split_and!.
  - rewrite Hlen, due_jobs_pick. apply pick_limit. cbn. lia.
  - intros m t ->. rewrite Hcount, due_jobs_pick. apply pick_capacity; [done|]. exact Hcap.
  - rewrite Hcl, claimed_keys. eapply sublist_NoDup; [apply (queue_heads_NoDup [])|].
    apply fmap_sublist, due_jobs_sublist.
  - intros i c Hi. rewrite Hcl, list_lookup_imap in Hi. apply fmap_Some in Hi as (j & Hj & ->).
    exists j. pose proof (due_jobs_elem _ _ _ _ _ Hok (list_elem_of_lookup_2 _ _ _ Hj)) as (Hat & Ha & Hr & Hh).
    split_and!; [done|done| |done|intros; by eapply head_oldest].
    destruct (claim_due_at now uuid worker ttl limit cap s _ j Hok Hat) as [[_ Hn]|(i' & Hi' & H)].
    + destruct Hn. by eapply list_elem_of_lookup_2.
    + rewrite Ec in H. assert (i' = i) as -> by (by eapply due_jobs_inj). done.
  - intros id j Hj Hn. destruct (claim_due_at now uuid worker ttl limit cap s id j Hok Hj) as [[H _]|(i & Hi & _)].
    + by rewrite Ec in H.
    + destruct Hn. rewrite Hids. pose proof (proj1 (proj2 Hok _ _ Hj)) as <-.
      by eapply list_elem_of_fmap_2, list_elem_of_lookup_2.
  - intros j Hj Ha Hr Hmin. rewrite Hids, Hlen, Hcount, due_jobs_pick.
    destruct (pick_complete now limit cap [] [] (queue_heads [] (active_jobs s)) j Hc0) as [H|H];
      [by apply oldest_head|done| |by right].
    left. by apply list_elem_of_fmap_2.
Qed.

(** ** The attempt log *)

Lemma run_delivery_attempts s op :
  ds_attempts (run_delivery s op) = ds_attempts s
  ∨ ∃ now job r next max current, op = DRecord now job r next max
      ∧ job_at (j_delivery_id job) s = Some current ∧ unexpired now current = true
      ∧ job_at (j_delivery_id job) (run_delivery s op) = Some (attempted_job now r next max current)
      ∧ ds_attempts (run_delivery s op) = ds_attempts s ++ [attempt_row now r max job current].
Proof.
  destruct op as [sink|n1 n2 e sink|now uuid w ttl limit cap|now job ttl|now job|job reason
                 |now job r next max|now uuid t did w ttl|now uuid t k w ttl|now t k r th reset token];
    cbn [run_delivery].
  - by left.
  - left. unfold create_job. by case_match.
  - left. unfold claim_due. cbn [fst]. apply (fold_left_inv (λ x, ds_attempts x = ds_attempts s)); [|done].
    by intros x j _ <-.
  - left. unfold renew_claim. by destruct (live_claim now job s).
  - left. unfold begin_side_effect. by destruct (live_claim now job s).
  - left. unfold mark_reconciling. case_match; [|done]. by case_match.
  - destruct (record_attempt_at now job r next max s) as [[m ->]|(c & Hc & _ & Hu & ->)]; [by left|].
    right. exists now, job, r, next, max, c. split_and!; [done|done|done| |done].
    apply dget_dset_eq.
  - left. unfold begin_redelivery. by destruct (get_job t did s).
  - left. unfold acquire_sink_circuit. by case_match.
  - by left.
Qed.

(** Recorded numbers do not exceed the job's attempt count, and stay below it while
    an attempt is under way. *)
Definition log_bound (a : DeliveryAttempt) (j : DeliveryJob) : Prop :=
  at_attempt_number a ≤ j_attempt_count j
  ∧ (j_status j = DAttempting → at_attempt_number a < j_attempt_count j).

Definition log_ok (s : DeliveryStore) : Prop :=
  ∀ id, StronglySorted Z.lt (map at_attempt_number (attempts id s))
    ∧ ∀ a, a ∈ attempts id s → ∃ j, job_at id s = Some j ∧ log_bound a j.

Lemma attempt_not_attempting max r j : attempt_status max r j ≠ DAttempting.
Proof. unfold attempt_status. by repeat case_match. Qed.

Lemma job_step_bound op a j j' : job_step op j j' → log_bound a j → log_bound a j'.
Proof.
  unfold log_bound. intros Hs [Hle Hlt]. destruct Hs; cbn; split; auto; try lia; try done.
  by intros ?%attempt_not_attempting.
Qed.

Lemma unexpired_attempting id now j : job_ok id j → unexpired now j = true → j_status j = DAttempting.
Proof.
  intros [_ H] Hu. case_decide; [done|]. destruct H as (_ & _ & H). unfold unexpired in Hu.
  by rewrite H in Hu.
Qed.

Lemma run_delivery_log s op : jobs_ok s → log_ok s → log_ok (run_delivery s op).
Proof.
  intros Hok Hlog id. destruct (Hlog id) as [Hsort Hb].
  assert (∀ a, a ∈ attempts id s → ∃ j, job_at id (run_delivery s op) = Some j ∧ log_bound a j) as Hold.
  { intros a (j & Hj & Ha)%Hb. destruct (run_delivery_step s op id j Hok Hj) as (j' & Hj' & Hs).
    exists j'. split; [done|]. by eapply job_step_bound. }
  destruct (run_delivery_attempts s op) as [Heq|(now & job & r & next & max & c & -> & Hc & Hu & Hc' & Heq)].
  { unfold attempts. rewrite Heq. by split. }
  unfold attempts. rewrite Heq, filter_app, filter_cons, filter_nil. cbn [at_delivery_id attempt_row].
  case_decide as Hid; [|rewrite app_nil_r; by split]. subst id. rewrite map_app.
  assert (j_status c = DAttempting) as Hst by (eapply unexpired_attempting; [by apply Hok|done]).
  split.
  - apply StronglySorted_app. split_and!; [|done|repeat constructor].
    intros x y (a & -> & Ha)%list_elem_of_fmap ->%list_elem_of_singleton. cbn.
    apply Hb in Ha as (j & Hj & _ & Ha). simplify_eq. auto.
  - intros a [Ha| ->%list_elem_of_singleton]%elem_of_app; [by apply Hold|].
    eexists. split; [done|]. split; [done|]. intros H. by apply attempt_not_attempting in H.
Qed.

(** Every attempt is recorded at most once and in order: in any history the
    attempt numbers logged for a job are strictly increasing, never exceed the job's
    attempt count, and stay below it while an attempt is under way. *)
Theorem attempt_log_increasing ops id :
  let s := delivery_history ops new_delivery_store in
  StronglySorted Z.lt (map at_attempt_number (attempts id s))
  ∧ ∀ a, a ∈ attempts id s → ∃ j, job_at id s = Some j ∧ at_attempt_number a ≤ j_attempt_count j
      ∧ (j_status j = DAttempting → at_attempt_number a < j_attempt_count j).
Proof.
  cbn zeta. assert (jobs_ok (delivery_history ops new_delivery_store)
                    ∧ log_ok (delivery_history ops new_delivery_store)) as [_ H]; [|by apply H].
  apply (fold_left_inv (λ s, jobs_ok s ∧ log_ok s)).
  - intros s op _ [Hok Hlog]. split; [by apply run_delivery_ok|by apply run_delivery_log].
  - split; [apply jobs_ok_new|]. intros id'. cbn. split; [constructor|set_solver].
Qed.

(** ** Settled jobs *)

(** An operation that is not a redelivery of the job, and whose reconciliation
    handles carry a claim. *)
Definition keeps_settled (id : string) (op : DeliveryOp) : Prop :=
  match op with
  | DRedeliver _ _ _ did _ _ => did ≠ id
  | DReconcile job _ => is_Some (j_claim_token job)
  | _ => True
  end.

Lemma settled_step op id j j' :
  job_ok id j → settled (j_status j) = true → keeps_settled id op → job_step op j j' → j' = j.
Proof.
  intros [Hid Hc] Hset Hop Hs. rewrite decide_False in Hc by (by intros Hst; rewrite Hst in Hset).
  destruct Hc as (Hc1 & Hc2 & Hc3).
  destruct Hs as [|now uuid i w ttl limit cap _ _ Ha|now token w ttl ->|now job ttl -> _ Hst|now job -> _ Hst
                 |job reason -> Hsame _|now job r next max -> _ Hu]; [done|exfalso..].
  - unfold active_job in Ha. by destruct (j_status j).
  - done.
  - by rewrite Hst in Hset.
  - by rewrite Hst in Hset.
  - unfold same_claim in Hsame. bool_props. destruct Hop. congruence.
  - unfold unexpired in Hu. by rewrite Hc3 in Hu.
Qed.

(** A delivery that succeeded, failed or was dead-lettered is final: whatever
    the workers do afterwards (claims, renewals, late results, reconciliations of
    claimed jobs), the stored job stays exactly as it was until it is redelivered. *)
Theorem settled_job_final ops ops' id j :
  job_at id (delivery_history ops new_delivery_store) = Some j → settled (j_status j) = true →
  Forall (keeps_settled id) ops' →
  job_at id (delivery_history ops' (delivery_history ops new_delivery_store)) = Some j.
Proof.
  generalize (delivery_history_ok ops _ jobs_ok_new).
  generalize (delivery_history ops new_delivery_store). intros s Hok Hj Hset Hops.
  revert s Hok Hj. induction Hops as [|op ops' Hop _ IH]; intros s Hok Hj; [done|].
  apply IH; [by apply run_delivery_ok|].
  destruct (run_delivery_step s op id j Hok Hj) as (j' & Hj' & Hs).
  apply (settled_step op id) in Hs; [by subst|by apply Hok|done|done].
Qed.

(** ** Sink circuits *)

(** The states of a circuit that opens after [th] failures. *)
Definition circuit_ok (th : Z) (c : MemoryCircuit) : Prop :=
  match ci_state c with
  | CClosed => 0 ≤ ci_failure_count c < th ∧ ci_open_until c = None ∧ ci_probe_token c = None
  | COpen => th ≤ ci_failure_count c ∧ is_Some (ci_open_until c) ∧ ci_probe_token c = None
  | CHalfOpen => th ≤ ci_failure_count c ∧ is_Some (ci_probe_token c) ∧ is_Some (ci_probe_expires_at c)
  end.

Lemma acquire_circuit_ok th now uuid w ttl c :
  circuit_ok th c → circuit_ok th (acquire_circuit now uuid w ttl c).1.
Proof.
  intros Hc. unfold acquire_circuit. destruct (ci_state c) eqn:E; [done| |];
    (case_match; [done|]); unfold circuit_ok in Hc; rewrite E in Hc; destruct Hc as [Hf _];
    (split_and!; [done|by eexists|by eexists]).
Qed.

Lemma record_circuit_ok th now r reset token c :
  1 ≤ th → circuit_ok th c → circuit_ok th (record_circuit now r th reset token c).
Proof.
  intros Hth Hc. unfold record_circuit. case_match; [done|].
  destruct (rs_succeeded r); [unfold circuit_ok; cbn; split_and!; try done; lia|].
  destruct (rs_retryable r); [|done]. case_match eqn:E.
  - unfold circuit_ok; cbn. split_and!; [lia|by eexists|done].
  - bool_props. unfold circuit_ok in *; cbn in *. destruct (ci_state c); naive_solver lia.
Qed.

Lemma circuit_of_put k k' c s :
  circuit_of k (put_circuit k' c s) = if decide (k = k') then c else circuit_of k s.
Proof. unfold circuit_of, put_circuit; cbn. rewrite dget_dset. by case_decide. Qed.

(** The effect of an operation on the circuit of a sink. *)
Definition circuit_op (k : sink_key) (op : DeliveryOp) (c : MemoryCircuit) : MemoryCircuit :=
  match op with
  | DAcquire now uuid t i w ttl =>
      if decide (k = (t, i)) then (acquire_circuit now uuid w ttl c).1 else c
  | DResult now t i r th reset token =>
      if decide (k = (t, i)) then record_circuit now r th reset token c else c
  | _ => c
  end.

Lemma run_delivery_circuit k s op : circuit_of k (run_delivery s op) = circuit_op k op (circuit_of k s).
Proof.
  destruct op as [sink|n1 n2 e sink|now uuid w ttl limit cap|now job ttl|now job|job reason
                 |now job r next max|now uuid t did w ttl|now uuid t i w ttl|now t i r th reset token];
    cbn [run_delivery circuit_op].
  - done.
  - unfold create_job. by case_match.
  - unfold claim_due. cbn [fst]. apply (fold_left_inv (λ x, circuit_of k x = circuit_of k s)); [|done].
    by intros x j _ <-.
  - unfold renew_claim. by destruct (live_claim now job s).
  - unfold begin_side_effect. by destruct (live_claim now job s).
  - unfold mark_reconciling. case_match; [|done]. by case_match.
  - by destruct (record_attempt_at now job r next max s) as [[m ->]|(c & _ & _ & _ & ->)].
  - unfold begin_redelivery. by destruct (get_job t did s).
  - unfold acquire_sink_circuit. destruct (acquire_circuit _ _ _ _ _) as [c p] eqn:E. cbn [fst].
    rewrite circuit_of_put. case_decide; [subst; by rewrite E|done].
  - unfold record_sink_circuit_result. cbn [fst]. rewrite circuit_of_put. by case_decide; subst.
Qed.

(** All results are reported with the threshold [th]. *)
Definition threshold_is (th : Z) (op : DeliveryOp) : Prop :=
  match op with DResult _ _ _ _ th' _ _ => th' = th | _ => True end.

Lemma history_circuit_ok th ops s k :
  1 ≤ th → Forall (threshold_is th) ops → circuit_ok th (circuit_of k s) →
  circuit_ok th (circuit_of k (delivery_history ops s)).
Proof.
  intros Hth Hops. revert s. induction Hops as [|op ops Hop _ IH]; intros s Hs; [done|].
  apply IH. rewrite run_delivery_circuit. unfold circuit_op.
  destruct op; try done; case_decide; try done.
  - by apply acquire_circuit_ok.
  - cbn in Hop. subst. by apply record_circuit_ok.
Qed.

(** A probe's holder has not reported and its time has not passed. *)
Definition probe_untouched (k : sink_key) (token : string) (deadline : Z) (op : DeliveryOp) : Prop :=
  match op with
  | DAcquire now _ t i _ _ => (t, i) = k → now < deadline
  | DResult _ t i _ _ _ token' => (t, i) = k → token' ≠ Some token
  | _ => True
  end.

Definition probing (token : string) (deadline : Z) (c : MemoryCircuit) : Prop :=
  ci_state c = CHalfOpen ∧ ci_probe_token c = Some token ∧ ci_probe_expires_at c = Some deadline.

Lemma acquire_probing now uuid w ttl c c' permit token :
  acquire_circuit now uuid w ttl c = (c', permit) → pm_probe_token permit = Some token →
  probing token (now + ttl) c'.
Proof.
  unfold acquire_circuit, probing. intros H. destruct (ci_state c); [by simplify_eq| |];
    (case_match; [by simplify_eq|]); injection H as <- <-; cbn; intros; by simplify_eq.
Qed.

Lemma probing_acquire token deadline now uuid w ttl c :
  probing token deadline c → now < deadline →
  acquire_circuit now uuid w ttl c = (c, mkPermit false CHalfOpen (ci_generation c) None).
Proof.
  intros (H1 & H2 & H3) Hlt. unfold acquire_circuit. rewrite H1, H3. cbn.
  by rewrite (proj2 (Z.ltb_lt _ _)).
Qed.

Lemma probing_op k token deadline op c :
  probing token deadline c → probe_untouched k token deadline op → circuit_op k op c = c.
Proof.
  intros Hp Hop. destruct op; try done; cbn in *; case_decide; try done; subst.
  - by rewrite (probing_acquire token deadline) by auto.
  - destruct Hp as (H1 & H2 & _). unfold record_circuit. rewrite H1, H2.
    rewrite bool_decide_eq_true_2, bool_decide_eq_false_2; [done| |done].
    intros H. by apply Hop.
Qed.

(** The circuit of a sink, in any history whose results are reported with one
    threshold: closed below the threshold of consecutive retryable failures, open
    until a set time at or above it, half open under one probe.  And a granted probe
    is alone: until it expires or its holder reports, every other request for the
    sink is refused and no other result moves the circuit. *)
Theorem sink_circuit_protocol th ops t i :
  1 ≤ th → Forall (threshold_is th) ops →
  let s := delivery_history ops new_delivery_store in
  circuit_ok th (circuit_of (t, i) s)
  ∧ ∀ now uuid w ttl s1 permit token ops',
      acquire_sink_circuit now uuid t i w ttl s = (s1, permit) →
      pm_probe_token permit = Some token →
      Forall (probe_untouched (t, i) token (now + ttl)) ops' →
      circuit_of (t, i) (delivery_history ops' s1) = circuit_of (t, i) s1
      ∧ ∀ now' uuid' w' ttl', now' < now + ttl →
          pm_allowed (acquire_sink_circuit now' uuid' t i w' ttl' (delivery_history ops' s1)).2 = false.
Proof.
  intros Hth Hops s. split.
  { apply history_circuit_ok; [done|done|]. cbn. split_and!; try done; lia. }
  intros now uuid w ttl s1 permit token ops' Hacq Htok Hops'.
  assert (probing token (now + ttl) (circuit_of (t, i) s1)) as Hp.
  { unfold acquire_sink_circuit in Hacq.
    destruct (acquire_circuit now uuid w ttl (circuit_of (t, i) s)) as [c p] eqn:E. simplify_eq.
    rewrite circuit_of_put, decide_True by done. by eapply acquire_probing. }
  assert (circuit_of (t, i) (delivery_history ops' s1) = circuit_of (t, i) s1) as Heq.
  { clear Hacq. revert s1 Hp. induction Hops' as [|op ops' Hop _ IH]; intros s1 Hp; [done|]. cbn.
    assert (circuit_of (t, i) (run_delivery s1 op) = circuit_of (t, i) s1) as H1.
    { rewrite run_delivery_circuit. by eapply probing_op. }
    rewrite IH by (by rewrite H1). done. }
  split; [done|]. intros now' uuid' w' ttl' Hlt. unfold acquire_sink_circuit. rewrite Heq.
  by rewrite (probing_acquire token (now + ttl)).
Qed.

(** ** Concrete runs *)

Module DeliveryExamples.
Definition event (id sid : string) : CanonicalEvent :=
  mkCanonicalEvent id "t" sid sid (Some "r") 1 "run.completed" 0 (mkActor "user" "u") "c" "k" VUser 1 [].
Definition sink (id sid : string) : ResultSinkConfig :=
  mkSink id "t" sid "webhook" "https://x" ["run.completed"] None true.
Definition tokens (i : nat) : string := "tok" +:+ pretty i.

(** Two events of one session and one of another. *)
Definition three_jobs : list DeliveryOp :=
  [DRegister (sink "k" "s"); DCreate 10 10 (event "e1" "s") (sink "k" "s");
   DCreate 20 20 (event "e2" "s") (sink "k" "s"); DCreate 30 30 (event "e3" "s2") (sink "k" "s2")].

Definition claimed_events (limit : Z) (cap : option Z) : list string :=
  map j_event_id (claim_due 100 tokens "w" 60 limit cap (delivery_history three_jobs new_delivery_store)).2.
Example claims_one_per_queue : claimed_events 10 None = ["e1"; "e3"].
Proof. vm_compute. reflexivity. Qed.
Example claims_up_to_limit : claimed_events 1 None = ["e1"].
Proof. vm_compute. reflexivity. Qed.
Example claims_up_to_capacity : claimed_events 10 (Some 1) = ["e1"].
Proof. vm_compute. reflexivity. Qed.

Lemma claim_due_exact_witness :
  let s := delivery_history three_jobs new_delivery_store in
  let '(s', claimed) := claim_due 100 tokens "w" 60 10 (Some 2) s in
  length claimed = 2%nat ∧ Z.of_nat (length claimed) ≤ 10 ∧ NoDup (map order_key_of claimed).
Proof.
  pose proof (claim_due_exact three_jobs 100 tokens "w" 60 10 (Some 2)) as H.
  cbn zeta in *. destruct (claim_due 100 tokens "w" 60 10 (Some 2) _) as [s' claimed] eqn:E.
  assert (length claimed = 2%nat) as Hlen.
  { assert (length (claim_due 100 tokens "w" 60 10 (Some 2)
      (delivery_history three_jobs new_delivery_store)).2 = 2%nat) as Hc by (vm_compute; reflexivity).
    rewrite E in Hc. exact Hc. }
  destruct H as (H1 & _ & H3 & _); [lia|cbn; lia|]. split; [exact Hlen|]. split; [exact H1|exact H3].
Defined.

Definition e1_id : string := delivery_id_for "e1" "k".
Definition handle (token : string) : DeliveryJob :=
  build_delivery_job 10 10 (event "e1" "s") (sink "k" "s")
    <| j_claimed_by := Some "w" |> <| j_claim_token := Some token |>.
Definition delivered : list DeliveryOp :=
  three_jobs ++ [DClaim 100 tokens "w" 60 10 None; DBegin 110 (handle "tok0");
                 DRecord 120 (handle "tok0") (mkResponse true false "ok" []) None 5].
Definition later : list DeliveryOp :=
  [DRecord 121 (handle "tok0") (mkResponse false true "late" []) (Some 130) 5;
   DReconcile (handle "tok0") "lease_lost"; DClaim 500 tokens "v" 60 10 None].

Lemma settled_job_final_witness :
  ∃ j, j_status j = DSucceeded ∧ j_attempt_count j = 1
    ∧ job_at e1_id (delivery_history delivered new_delivery_store) = Some j
    ∧ job_at e1_id (delivery_history later (delivery_history delivered new_delivery_store)) = Some j.
Proof.
  destruct (job_at e1_id (delivery_history delivered new_delivery_store)) as [j|] eqn:E;
    [|vm_compute in E; discriminate E].
  assert (j_status j = DSucceeded ∧ j_attempt_count j = 1) as [H1 H2].
  { vm_compute in E. injection E as <-. split; reflexivity. }
  exists j. split; [exact H1|]. split; [exact H2|]. split; [reflexivity|].
  apply (settled_job_final delivered later e1_id j E); [by rewrite H1|].
  repeat constructor. by eexists.
Defined.

Definition failed : SinkResponse := mkResponse false true "503" [].
Definition three_failures : list DeliveryOp :=
  [DResult 10 "t" "k" failed 3 30 None; DResult 11 "t" "k" failed 3 30 None;
   DResult 12 "t" "k" failed 3 30 None].
Example opens_at_threshold :
  map (λ n, ci_state (circuit_of ("t", "k") (delivery_history (take n three_failures) new_delivery_store)))
      [0; 1; 2; 3]%nat = [CClosed; CClosed; CClosed; COpen].
Proof. vm_compute. reflexivity. Qed.

Lemma sink_circuit_protocol_witness :
  let s := delivery_history three_failures new_delivery_store in
  let s1 := (acquire_sink_circuit 50 "probe" "t" "k" "w" 10 s).1 in
  circuit_ok 3 (circuit_of ("t", "k") s)
  ∧ pm_allowed (acquire_sink_circuit 55 "other" "t" "k" "v" 10
      (delivery_history [DResult 54 "t" "k" failed 3 30 None] s1)).2 = false.
Proof.
  destruct (sink_circuit_protocol 3 three_failures "t" "k") as [H1 H2]; [lia|repeat constructor|].
  split; [exact H1|].
  destruct (H2 50 "probe" "w" 10 _ _ "probe" [DResult 54 "t" "k" failed 3 30 None] eq_refl)
    as [_ H]; [vm_compute; reflexivity|repeat constructor; discriminate|].
  apply H. lia.
Defined.
End DeliveryExamples.
