(* ===== verification/TaskProjection.v ===== *)
(** * The task projection ([projection/task/projector.py])

    The read model of tasks: a view per Session, built from the canonical events in
    stream order.  A view is a dict that is copied before it is changed, so an event
    that raises leaves the stored view alone; the events of a batch before it stay
    projected, hence [project] returns the projection with its outcome. *)

From S2P Require Import Prelude PyValue DateTime Contracts Session Collaboration RuntimeBudget.
Local Open Scope Z_scope.

Definition KNOWN_TASK_EVENTS : list string :=
  ["runtime.budget.reserved"; "runtime.progress.recorded"; "session.created";
   "session.approval_mode_changed"; "policy.review.requested"; "policy.review.completed";
   "policy.mode.resolved"; "user.message.appended"; "run.requested"; "run.scheduled"; "run.started";
   "model.turn.completed"; "model.input.prepared"; "model.output.completed"; "tool.call.requested";
   "tool.call.completed"; "tool.call.denied"; "runtime.failed"; "runtime.reprovisioned";
   "run.terminated"; "session.paused"; "approval.requested"; "human.response.recorded";
   "approval.vote.recorded"; "approval.delegated"; "approval.escalated"; "approval.approved";
   "approval.rejected"; "approval.expired"; "approval.cancelled"; "run.retry_scheduled";
   "session.resumed"; "session.closed"; "run.completed"; "run.failed"; "run.cancelled";
   "child.created"; "dependency.changed"; "child.delegated"; "session.handed_off";
   "child.result_published"; "review.completed"; "join.completed"; "parent.result.received";
   "skill.activated"; "skill.completed"; "skill.failed"; "skill.cancelled"; "context.resource.used";
   "context.skill.reference.used"; "delivery.attempting"; "delivery.retrying"; "delivery.succeeded";
   "delivery.failed"; "delivery.dead_lettered"; "delivery.reconciling"].

Notation view_key := (string * string)%type.

Record TaskProjection := mkProjection {
  tp_tasks : list (view_key * payload);
  tp_event_ids : gset string;
  tp_poison_events : list CanonicalEvent;
}.
#[global] Instance TaskProjection_eta : Eta TaskProjection := λ s,
  mkProjection (tp_tasks s) (tp_event_ids s) (tp_poison_events s).

Definition empty_projection : TaskProjection := mkProjection [] ∅ [].

Definition jzero : json := JFloat f64_zero.
Definition jone : json := JFloat (f64_of_ratio false 1 1).

(** [_new_view] *)
Definition new_view (e : CanonicalEvent) : payload :=
  dupdate
  [("tenant_id", JStr (ev_tenant_id e)); ("session_id", JStr (ev_session_id e));
   ("root_session_id", JStr (ev_root_session_id e)); ("run_id", jopt (ev_run_id e));
   ("status", JStr (session_value SCreated)); ("run_status", JNull); ("progress", jzero);
   ("current_stage", JStr "admission"); ("result_summary", JNull); ("result_ref", JNull);
   ("artifact_refs", JArr []); ("lineage", JNull); ("error", JNull); ("delivery_status", JNull);
   ("delivery_id", JNull); ("delivery_attempt_count", JInt 0); ("delivery_response_summary", JNull);
   ("skill_activations", JArr []); ("source", JStr "chat"); ("schedule_id", JNull);
   ("occurrence_id", JNull); ("approval", JObj [])]
  (approval_public_dict default_approval ++ [("projection_version", JInt 0)]).

(** ** Budget accounting *)

Definition track_budget (e : CanonicalEvent) (view : payload) : payload :=
  if String.eqb (ev_type e) "run.requested" then
    dset "runtime_budget"
      (JObj [("run_id", pgetn "run_id" (ev_payload e)); ("limits", pgetd "budget" (JObj []) (ev_payload e));
             ("_facts", JObj [])]) view
  else view.

Definition accounted_keys : list string :=
  ["reservation_id"; "model_call_id"; "tool_invocation_id"; "kind"; "output_tokens"; "usage"].

(** The accounting data of an event. *)
Definition minimal_fact (e : CanonicalEvent) : res payload :=
  let p := ev_payload e in
  let minimal := concat (map (λ k, match dget k p with Some v => [(k, v)] | None => [] end) accounted_keys) in
  if String.eqb (ev_type e) "tool.call.completed" then
    let result := pgetd "result" (JObj []) p in
    code ← jgetd "error_code" JNull result;
    metadata ← jgetd "metadata" (JObj []) result;
    started ← jgetd "dispatch_started" JNull metadata;
    Ok (dset "result" (JObj [("error_code", code);
                             ("metadata", JObj [("dispatch_started", started)])]) minimal)
  else Ok minimal.

(** [SimpleNamespace( **fact )]: what [usage] reads of it.  Facts are written by
    [account_usage] only, always in this form. *)
Definition fact_event (fact : json) : res CanonicalEvent :=
  match fact with
  | JObj d =>
      match dget "type" d, dget "run_id" d, dget "payload" d with
      | Some (JStr ty), Some (JStr r), Some (JObj p) =>
          Ok (mkCanonicalEvent "" "" "" "" (Some r) 0 ty 0 (mkActor "" "") "" "" VInternal 1 p)
      | Some (JStr ty), Some JNull, Some (JObj p) =>
          Ok (mkCanonicalEvent "" "" "" "" None 0 ty 0 (mkActor "" "") "" "" VInternal 1 p)
      | _, _, _ => Raise PyAttributeError "fact"
      end
  | _ => Raise PyTypeError "fact"
  end.

Definition usage_dict (u : Usage) : payload :=
  [("steps_used", JInt (us_steps_used u)); ("model_turns", JInt (us_model_turns u));
   ("tool_attempts", JInt (us_tool_attempts u)); ("output_tokens", JInt (us_output_tokens u));
   ("output_tokens_reserved", JInt (us_output_tokens_reserved u));
   ("tool_dispatches", JInt (us_tool_dispatches u));
   ("cost", match us_cost u with Some c => JFloat c | None => JNull end);
   ("suppressed_attempts", JInt (us_suppressed_attempts u))].

Definition account_usage (e : CanonicalEvent) (view : payload) : res payload :=
  let p := ev_payload e in
  if negb (str_in (ev_type e) ["runtime.budget.reserved"; "model.turn.completed"; "tool.call.completed"])
  then Ok view
  else
  budget ← py_dict (pgetd "runtime_budget" (JObj []) view);
  if negb (py_eq (pgetn "run_id" budget) (jopt (ev_run_id e))) then Ok view
  else
  facts ← py_dict (pgetd "_facts" (JObj []) budget);
  let identity := pgetd "reservation_id" (pgetd "model_call_id" (pgetn "tool_invocation_id" p) p) p in
  minimal ← minimal_fact e;
  let facts := dset (ev_type e +:+ ":" +:+ py_str identity)
                 (JObj [("type", JStr (ev_type e)); ("run_id", jopt (ev_run_id e));
                        ("payload", JObj minimal)]) facts in
  events ← mapR fact_event (dvalues facts);
  u ← usage events (py_str (jopt (ev_run_id e)));
  Ok (dset "runtime_budget"
        (JObj (dupdate budget [("_facts", JObj facts); ("usage", JObj (usage_dict u))])) view).

(** ** Applying an event to a view *)

Definition sval (s : SessionStatus) : json := JStr (session_value s).
Definition rval (s : RunStatus) : json := JStr (run_value s).

Definition root_view (view : payload) : bool := is_lit (pgetd "role" (JStr "root") view) "root".

(** [view.update(status=..., run_status=..., current_stage=...)] *)
Definition set_stage (s : SessionStatus) (r : RunStatus) (stage : string) (view : payload) : payload :=
  dupdate view [("status", sval s); ("run_status", rval r); ("current_stage", JStr stage)].

Definition blocked_entries (deps : list json) : payload :=
  [("status", match deps with [] => sval SRunnable | _ => JStr "blocked" end);
   ("current_stage", JStr match deps with [] => "scheduling" | _ => "blocked" end)].

Definition view_session_created (e : CanonicalEvent) (view : payload) : res payload :=
  let p := ev_payload e in
  goal ← pget "goal" p;
  Ok (dupdate view
    [("goal", goal); ("role", pgetd "role" (JStr "root") p);
     ("parent_session_id", pgetn "parent_session_id" p); ("status", sval SCreated);
     ("user_id", if String.eqb (actor_type (ev_actor e)) "user" then JStr (actor_id (ev_actor e))
                 else pgetn "user_id" view);
     ("dept_id", pgetd "dept_id" (pgetn "dept_id" view) p);
     ("source", pgetd "source" (pgetd "source" (JStr "chat") view) p);
     ("schedule_id", pgetn "schedule_id" p); ("occurrence_id", pgetn "occurrence_id" p)]).

Definition view_child_created (p view : payload) : res payload :=
  deps ← py_iter (pgetd "dependency_ids" (JArr []) p);
  goal ← pget "goal" p;
  role ← pget "role" p;
  parent ← pget "parent_session_id" p;
  contract ← pget "output_contract" p;
  Ok (dupdate view
    ([("goal", goal); ("role", role); ("parent_session_id", parent); ("dependency_ids", JArr deps);
      ("output_contract", contract); ("owner", JNull)] ++ blocked_entries deps)).

Definition view_run_requested (p view : payload) : res payload :=
  run_id ← pget "run_id" p;
  Ok (dupdate view
    [("run_id", run_id);
     ("status", if root_view view then sval SPending else pgetn "status" view);
     ("current_stage", if root_view view then JStr "pending"
                       else pgetd "current_stage" (JStr "scheduling") view);
     ("run_status", rval RPending); ("progress", jzero); ("result_summary", JNull);
     ("result_ref", JNull); ("artifact_refs", JArr []); ("error", JNull); ("delivery_status", JNull);
     ("delivery_id", JNull); ("delivery_attempt_count", JInt 0); ("delivery_response_summary", JNull)]).

Definition view_run_completed (p view : payload) : payload :=
  dupdate view
    [("status", if root_view view then sval SReady else sval SCompleted);
     ("run_status", rval RCompleted); ("progress", jone); ("current_stage", JStr "completed");
     ("result_summary", pgetn "result_summary" p); ("result_ref", pgetn "result_ref" p);
     ("artifact_refs", pgetd "artifact_refs" (JArr []) p); ("lineage", pgetn "lineage" p)].

Definition view_result_published (p view : payload) : payload :=
  dupdate view
    [("status", sval SCompleted); ("run_status", rval RCompleted); ("progress", jone);
     ("current_stage", JStr "completed"); ("result_summary", pgetn "summary" p);
     ("result_ref", pgetn "result_ref" p); ("artifact_refs", pgetd "artifact_refs" (JArr []) p)].

Definition view_review_completed (p view : payload) : payload :=
  dupdate view
    [("status", sval SCompleted); ("run_status", rval RCompleted); ("progress", jone);
     ("current_stage", JStr "review_completed"); ("result_summary", pgetn "decision" p);
     ("result_ref", pgetn "target_result_ref" p); ("lineage", JObj [("review", JObj p)])].

(** The error a failed run shows. *)
Definition failure_error (p : payload) : payload :=
  let error := match pgetn "error" p with
               | JObj d => d
               | JNull => []
               | failure => [("message", JStr (py_str failure))]
               end in
  let error := match pgetn "error_code" p with
               | JStr code => if String.eqb code EmptyString then error
                              else dsetdefault "code" (JStr code) error
               | _ => error
               end in
  match pgetn "error_details" p with
  | JObj d => dset "details" (JObj d) error
  | _ => error
  end.

Definition view_run_failed (p view : payload) : payload :=
  dupdate view
    [("status", if root_view view then sval SReady else sval SFailed); ("run_status", rval RFailed);
     ("current_stage", JStr "failed");
     ("error", match failure_error p with [] => JNull | error => JObj error end)].

Definition view_skill_activated (p view : payload) : res payload :=
  activations ← py_iter (pgetd "skill_activations" (JArr []) view);
  fields ← mapR (λ k, v ← pget k p; Ok (k, v))
    ["skill_activation_id"; "activation_key"; "skill_name"; "skill_version"; "package_digest";
     "policy_version"];
  Ok (dset "skill_activations" (JArr (activations ++ [JObj (fields ++ [("status", JStr "active")])])) view).

(** [s.removeprefix("skill.")] *)
Definition skill_outcome (ty : string) : string :=
  if String.prefix "skill." ty then String.substring 6 (String.length ty - 6) ty else ty.

Definition settle_activation (ty : string) (p : payload) (activation : json) : res json :=
  match activation with
  | JObj d =>
      id ← pget "skill_activation_id" p;
      Ok (JObj (if py_eq (pgetn "skill_activation_id" d) id
                then dupdate d [("status", JStr (skill_outcome ty));
                                ("artifact_refs", pgetd "artifact_refs" (JArr []) p);
                                ("output_summary", pgetn "output_summary" p)]
                else d))
  | _ => Raise PyTypeError "not a mapping"
  end.

Definition view_skill_settled (ty : string) (p view : payload) : res payload :=
  activations ← py_iter (pgetd "skill_activations" (JArr []) view);
  updated ← mapR (settle_activation ty p) activations;
  Ok (dset "skill_activations" (JArr updated) view).

Definition view_delivery (e : CanonicalEvent) (view : payload) : payload :=
  let p := ev_payload e in
  if negb (py_eq (jopt (ev_run_id e)) (pgetn "run_id" view)) then view
  else dupdate view
    [("delivery_status", pgetn "status" p); ("delivery_id", pgetn "delivery_id" p);
     ("delivery_attempt_count", pgetd "attempt_count" (JInt 0) p);
     ("delivery_response_summary", pgetn "response_summary" p)].

(** The [elif] chain. *)
Definition view_body (e : CanonicalEvent) (view : payload) : res payload :=
  let ty := ev_type e in
  let p := ev_payload e in
  if String.eqb ty "session.created" then view_session_created e view
  else if String.eqb ty "child.created" then view_child_created p view
  else if String.eqb ty "run.requested" then view_run_requested p view
  else if String.eqb ty "dependency.changed" then
    v ← pget "dependency_ids" p;
    deps ← py_iter v;
    Ok (dupdate view (("dependency_ids", JArr deps) :: blocked_entries deps))
  else if str_in ty ["child.delegated"; "session.handed_off"] then
    owner ← pget "owner" p; Ok (dupdate view [("owner", owner)])
  else if String.eqb ty "run.scheduled" then Ok (set_stage SRunnable RRunnable "scheduling" view)
  else if String.eqb ty "run.started" then Ok (set_stage SRunning RRunning "running" view)
  else if String.eqb ty "session.paused" then Ok (set_stage SPaused RPaused "paused" view)
  else if String.eqb ty "approval.requested" then
    Ok (set_stage SWaitingForHuman RWaitingForHuman "waiting_for_human" view)
  else if String.eqb ty "approval.approved" then Ok (set_stage SRunnable RRunnable "scheduling" view)
  else if str_in ty ["approval.rejected"; "approval.expired"; "approval.cancelled"] then
    Ok (set_stage SRunnable RRunnable "replanning" view)
  else if String.eqb ty "session.resumed" then
    run_id ← pget "run_id" p;
    Ok (dupdate view [("run_id", run_id); ("status", sval SPending); ("run_status", rval RPending);
                      ("current_stage", JStr "pending")])
  else if String.eqb ty "run.completed" then Ok (view_run_completed p view)
  else if String.eqb ty "child.result_published" then Ok (view_result_published p view)
  else if String.eqb ty "review.completed" then Ok (view_review_completed p view)
  else if String.eqb ty "run.failed" then Ok (view_run_failed p view)
  else if String.eqb ty "run.cancelled" then
    Ok (set_stage (if root_view view then SReady else SCancelled) RCancelled "cancelled" view)
  else if String.eqb ty "runtime.failed" then
    Ok (dupdate view [("status", sval SRetryWait); ("run_status", rval RRetryWait);
                      ("current_stage", JStr "runtime_recovery"); ("error", pgetn "error" p)])
  else if String.eqb ty "runtime.reprovisioned" then
    Ok (set_stage SRunnable RRunnable "scheduling" view)
  else if String.eqb ty "run.terminated" then
    Ok (set_stage (if root_view view then SReady else SFailed) RFailed "terminated" view)
  else if String.eqb ty "session.closed" then
    Ok (dupdate view [("status", sval SClosed); ("current_stage", JStr "closed")])
  else if String.eqb ty "skill.activated" then view_skill_activated p view
  else if str_in ty ["skill.completed"; "skill.failed"; "skill.cancelled"] then
    view_skill_settled ty p view
  else if String.prefix "delivery." ty then Ok (view_delivery e view)
  else Ok view.

Section projection.
Context `{PydanticInt}.

Definition view_approval (e : CanonicalEvent) (view : payload) : res payload :=
  match dget "approval" (ev_payload e) with
  | Some v =>
      if str_in (ev_type e) approval_events then
        c ← approval_model_validate v;
        Ok (dupdate view (("approval", JObj (approval_public_dict c)) :: approval_public_dict c))
      else Ok view
  | None => Ok view
  end.

(** [_apply] *)
Definition apply_view (e : CanonicalEvent) (view : payload) : res payload :=
  view ← account_usage e (track_budget e view);
  view ← view_approval e view;
  view_body e view.

(** ** Projecting *)

Definition view_key_of (e : CanonicalEvent) : view_key := (ev_tenant_id e, ev_session_id e).

(** [int(current["projection_version"]) if current else 0] *)
Definition current_version (current : option payload) : res Z :=
  match current with
  | Some (kv :: d) => v ← pget "projection_version" (kv :: d); py_int v
  | _ => Ok 0
  end.

(** [dict(current) if current else self._new_view(event)] *)
Definition base_view (e : CanonicalEvent) (current : option payload) : payload :=
  match current with Some (kv :: d) => kv :: d | _ => new_view e end.

Definition stamp (e : CanonicalEvent) (view : payload) : payload :=
  dset "projected_at" (JStr (isoformat (ev_occurred_at e)))
    (dset "projection_version" (JInt (ev_aggregate_version e)) view).

(** The view an event produces, without the stores. *)
Definition project_view (e : CanonicalEvent) (current : option payload) : res payload :=
  version ← current_version current;
  if negb (ev_aggregate_version e =? version + 1)
  then Raise ProjectionGapError
         ("projection gap for " +:+ ev_session_id e +:+ ": expected " +:+ pretty (version + 1)
          +:+ ", got " +:+ pretty (ev_aggregate_version e))
  else stamp e <$> apply_view e (base_view e current).

Definition project_one (s : TaskProjection) (e : CanonicalEvent) : TaskProjection * res unit :=
  if negb (str_in (ev_type e) KNOWN_TASK_EVENTS) then
    (s <| tp_poison_events := tp_poison_events s ++ [e] |>,
     Raise UnsupportedEventError ("unsupported canonical event: " +:+ ev_type e))
  else if decide (ev_event_id e ∈ tp_event_ids s) then (s, Ok tt)
  else match project_view e (dget (view_key_of e) (tp_tasks s)) with
  | Raise c m => (s, Raise c m)
  | Ok view =>
      (s <| tp_tasks := dset (view_key_of e) view (tp_tasks s) |>
         <| tp_event_ids := {[ev_event_id e]} ∪ tp_event_ids s |>, Ok tt)
  end.

Fixpoint project (events : list CanonicalEvent) (s : TaskProjection) : TaskProjection * res unit :=
  match events with
  | [] => (s, Ok tt)
  | e :: events =>
      match project_one s e with
      | (s, Ok _) => project events s
      | (s, Raise c m) => (s, Raise c m)
      end
  end.

Definition get_task (tenant_id session_id : string) (s : TaskProjection) : option payload :=
  match dget (tenant_id, session_id) (tp_tasks s) with
  | Some (kv :: d) => Some (kv :: d)
  | _ => None
  end.

Definition clear_projection (s : TaskProjection) : TaskProjection :=
  s <| tp_tasks := [] |> <| tp_event_ids := ∅ |>.

(** The projection that [rebuild] starts from. *)
Definition rebuild_base (events : list CanonicalEvent) (tenant_id : option string) (s : TaskProjection)
    : TaskProjection :=
  match tenant_id with
  | None => clear_projection s
  | Some t =>
      s <| tp_tasks := filter (λ kv : view_key * payload, kv.1.1 ≠ t) (tp_tasks s) |>
        <| tp_event_ids := tp_event_ids s ∖
             list_to_set (map ev_event_id (filter (λ e, ev_tenant_id e = t) events)) |>
  end.

Definition selected_events (events : list CanonicalEvent) (tenant_id : option string)
    : list CanonicalEvent :=
  match tenant_id with
  | None => events
  | Some t => filter (λ e, ev_tenant_id e = t) events
  end.

Definition rebuild (events : list CanonicalEvent) (tenant_id : option string) (s : TaskProjection)
    : TaskProjection * res Z :=
  let selected := selected_events events tenant_id in
  match project selected (rebuild_base events tenant_id s) with
  | (s, Ok _) => (s, Ok (Z.of_nat (length selected)))
  | (s, Raise c m) => (s, Raise c m)
  end.
End projection.

(** ** One view per stream *)

(** The first event with each id. *)
Fixpoint first_deliveries (seen : gset string) (events : list CanonicalEvent) : list CanonicalEvent :=
  match events with
  | [] => []
  | e :: events =>
      if decide (ev_event_id e ∈ seen) then first_deliveries seen events
      else e :: first_deliveries ({[ev_event_id e]} ∪ seen) events
  end.

Section streams.
Context `{PydanticInt}.

(** The events of one Session, folded into its view. *)
Definition stream_view (events : list CanonicalEvent) (view : option payload) : res (option payload) :=
  foldM (λ cur e, Some <$> project_view e cur) events view.

Lemma project_one_ok s e s' :
  project_one s e = (s', Ok tt) →
  str_in (ev_type e) KNOWN_TASK_EVENTS = true
  ∧ ((ev_event_id e ∈ tp_event_ids s ∧ s' = s)
     ∨ (ev_event_id e ∉ tp_event_ids s
        ∧ ∃ view, project_view e (dget (view_key_of e) (tp_tasks s)) = Ok view
        ∧ s' = s <| tp_tasks := dset (view_key_of e) view (tp_tasks s) |>
                 <| tp_event_ids := {[ev_event_id e]} ∪ tp_event_ids s |>)).
Proof.
  unfold project_one. destruct (str_in _ _); cbn [negb]; [|done]. case_decide.
  - intros; simplify_eq. auto.
  - case_match; [|done]. intros; simplify_eq. split; [done|]. right. eauto.
Qed.

Lemma project_fold events s s' :
  project events s = (s', Ok tt) →
  ∀ k, stream_view (filter (λ e, view_key_of e = k) (first_deliveries (tp_event_ids s) events))
         (dget k (tp_tasks s)) = Ok (dget k (tp_tasks s')).
Proof.
  revert s. induction events as [|e events IH]; intros s Hp k; cbn in *; [by simplify_eq|].
  destruct (project_one s e) as [s1 [[]|]] eqn:E; [|done].
  apply project_one_ok in E as (_ & [[Hin ->]|(Hout & view & Hv & ->)]).
  - rewrite decide_True by done. by apply IH.
  - rewrite decide_False by done. rewrite filter_cons. specialize (IH _ Hp k). cbn in IH.
    rewrite dget_dset in IH. destruct (decide (view_key_of e = k)) as [<-|Hne].
    + rewrite decide_True in IH by done. cbn. by rewrite Hv.
    + by rewrite decide_False in IH by done.
Qed.

Lemma current_version_stamp e view :
  current_version (Some (stamp e view)) = Ok (ev_aggregate_version e).
Proof.
  assert (dget "projection_version" (stamp e view) = Some (JInt (ev_aggregate_version e))) as Hv.
  { unfold stamp. rewrite dget_dset_ne, dget_dset_eq by done. done. }
  unfold current_version. destruct (stamp e view) as [|kv d] eqn:E; [by rewrite ?E in Hv|].
  unfold pget. by rewrite Hv.
Qed.

Lemma project_view_ok e cur view :
  project_view e cur = Ok view →
  current_version cur = Ok (ev_aggregate_version e - 1)
  ∧ current_version (Some view) = Ok (ev_aggregate_version e)
  ∧ ∃ v, apply_view e (base_view e cur) = Ok v ∧ view = stamp e v.
Proof.
  unfold project_view. intros Hp. apply res_bind_Ok in Hp as (n & Hn & Hp).
  destruct (Z.eqb_spec (ev_aggregate_version e) (n + 1)) as [Heq|]; cbn [negb] in Hp; [|done].
  apply res_fmap_Ok in Hp as (v & Hv & <-). rewrite current_version_stamp.
  split_and!; [rewrite Hn; f_equal; lia|done|eauto].
Qed.

Lemma stream_versions events cur v n :
  stream_view events cur = Ok v → current_version cur = Ok n →
  (∀ i e, events !! i = Some e → ev_aggregate_version e = n + Z.of_nat i + 1)
  ∧ current_version v = Ok (n + Z.of_nat (length events)).
Proof.
  unfold stream_view. revert cur n. induction events as [|e events IH]; intros cur n Hs Hn; cbn in Hs.
  { simplify_eq. split; [done|]. cbn. rewrite Hn. f_equal. lia. }
  apply res_bind_Ok in Hs as (c & Hc & Hs). apply res_fmap_Ok in Hc as (view & Hv & <-).
  apply project_view_ok in Hv as (H1 & H2 & _). assert (ev_aggregate_version e = n + 1) as He.
  { rewrite Hn in H1. injection H1 as H1. lia. }
  rewrite He in H2. destruct (IH _ _ Hs H2) as [H3 H4]. split.
  - intros [|i] x Hx; cbn in Hx; [simplify_eq; lia|]. apply H3 in Hx. lia.
  - rewrite H4. f_equal. cbn [length]. lia.
Qed.

(** Projection under at-least-once delivery, Session by Session: if a batch with
    repeated and interleaved events is projected without error, every view is the
    fold of its own stream, each event taken at its first delivery and in version
    order 1, 2, 3, ... without gaps, whatever the other Sessions sent; the view
    carries the number of events it was built from as its version. *)
Theorem projection_folds_streams events s :
  project events empty_projection = (s, Ok tt) →
  ∀ k, let stream := filter (λ e, view_key_of e = k) (first_deliveries ∅ events) in
    stream_view stream None = Ok (dget k (tp_tasks s))
    ∧ (∀ i e, stream !! i = Some e → ev_aggregate_version e = Z.of_nat i + 1)
    ∧ current_version (dget k (tp_tasks s)) = Ok (Z.of_nat (length stream)).
Proof.
  intros Hp k stream. assert (stream_view stream None = Ok (dget k (tp_tasks s))) as Hs.
  { apply (project_fold events empty_projection s Hp k). }
  split; [done|]. by destruct (stream_versions stream None _ 0 Hs) as [H1 H2].
Qed.

(** ** Rebuilding *)

(** Two projections that the events of a scope cannot tell apart. *)
Definition in_scope (t : option string) (k : view_key) : Prop :=
  match t with None => True | Some t => k.1 = t end.

Definition same_scope (t : option string) (ids : list string) (s s' : TaskProjection) : Prop :=
  (∀ k, in_scope t k → dget k (tp_tasks s) = dget k (tp_tasks s'))
  ∧ (∀ id, id ∈ ids → id ∈ tp_event_ids s ↔ id ∈ tp_event_ids s').

Lemma project_one_scope t ids s s' e :
  same_scope t ids s s' → in_scope t (view_key_of e) → ev_event_id e ∈ ids →
  (project_one s e).2 = (project_one s' e).2
  ∧ same_scope t ids (project_one s e).1 (project_one s' e).1
  ∧ (∀ k, ¬ in_scope t k → dget k (tp_tasks (project_one s e).1) = dget k (tp_tasks s)).
Proof.
  intros [Ht Hid] Hk He. unfold project_one. destruct (str_in _ _); cbn [negb]; [|done].
  destruct (decide (ev_event_id e ∈ tp_event_ids s)) as [Hin|Hout].
  { rewrite decide_True by (by apply Hid). done. }
  rewrite decide_False by (by rewrite <- Hid). rewrite <- (Ht _ Hk).
  destruct (project_view e _) as [view|]; cbn; [|done]. split_and!; [done|split|].
  - intros k Hk'. cbn. rewrite !dget_dset. case_decide; auto.
  - intros id Hin. cbn. specialize (Hid id Hin). set_solver.
  - intros k Hn. rewrite dget_dset_ne; [done|]. by intros ->.
Qed.

Lemma project_scope t ids events s s' :
  same_scope t ids s s' →
  Forall (λ e, in_scope t (view_key_of e) ∧ ev_event_id e ∈ ids) events →
  (project events s).2 = (project events s').2
  ∧ same_scope t ids (project events s).1 (project events s').1
  ∧ (∀ k, ¬ in_scope t k → dget k (tp_tasks (project events s).1) = dget k (tp_tasks s)).
Proof.
  intros Hs Hev. revert s s' Hs. induction Hev as [|e events [Hk He] _ IH]; intros s s' Hs; [done|].
  cbn. destruct (project_one_scope t ids s s' e Hs Hk He) as (H1 & H2 & H3).
  destruct (project_one s e) as [s1 r1], (project_one s' e) as [s2 r2]. cbn in H1, H2, H3. subst r2.
  destruct r1 as [?|]; [|done]. destruct (IH s1 s2 H2) as (I1 & I2 & I3). split_and!; [done..|].
  intros k Hn. rewrite I3, H3; done.
Qed.

Lemma dget_filter_key (P : view_key → Prop) `{∀ k, Decision (P k)} (d : list (view_key * payload)) k :
  dget k (filter (λ kv, P kv.1) d) = if decide (P k) then dget k d else None.
Proof.
  induction d as [|[k' v] d IH]; [by case_decide|]. rewrite filter_cons. cbn [fst].
  destruct (decide (P k')); cbn [dget]; rewrite IH; repeat case_decide; by subst.
Qed.

Lemma rebuild_base_scope events t s :
  same_scope t (map ev_event_id (selected_events events t)) (rebuild_base events t s) empty_projection
  ∧ (∀ k, ¬ in_scope t k → dget k (tp_tasks (rebuild_base events t s)) = dget k (tp_tasks s)).
Proof.
  destruct t as [t|]; [|split; [by split|]; intros k Hk; by destruct Hk].
  assert (∀ k, dget k (tp_tasks (rebuild_base events (Some t) s))
               = if decide (k.1 ≠ t) then dget k (tp_tasks s) else None) as Hf.
  { intros k. exact (dget_filter_key (λ k, k.1 ≠ t) (tp_tasks s) k). }
  split; [split|].
  - intros k Hk. rewrite Hf, decide_False; [done|]. by intros Hn.
  - intros id Hid. unfold rebuild_base. cbn [tp_event_ids set_field].
    rewrite elem_of_difference, elem_of_list_to_set. set_solver.
  - intros k Hk. by rewrite Hf, decide_True.
Qed.

(** Rebuilding is exact: from any state of the read model, rebuilding one tenant
    (or all of them) from the canonical events ends as a projection of those events
    into an empty read model does — same outcome, same views — and leaves the views
    of every other tenant as they were. *)
Theorem rebuild_exact events t s :
  let '(s', r) := rebuild events t s in
  let '(fresh, r') := project (selected_events events t) empty_projection in
  r = (λ _, Z.of_nat (length (selected_events events t))) <$> r'
  ∧ (∀ k, in_scope t k → dget k (tp_tasks s') = dget k (tp_tasks fresh))
  ∧ (∀ k, ¬ in_scope t k → dget k (tp_tasks s') = dget k (tp_tasks s)).
Proof.
  destruct (rebuild_base_scope events t s) as [Hb Hout]. unfold rebuild.
  assert (Forall (λ e, in_scope t (view_key_of e)
            ∧ ev_event_id e ∈ map ev_event_id (selected_events events t)) (selected_events events t)) as Hsel.
  { apply Forall_forall. intros e He. split; [|by apply list_elem_of_fmap_2].
    destruct t as [t|]; cbn in *; [|done]. by apply list_elem_of_filter in He as [? _]. }
  destruct (project_scope _ _ _ _ _ Hb Hsel) as (H1 & [H2 _] & H3).
  destruct (project (selected_events events t) (rebuild_base events t s)) as [s1 r1].
  destruct (project (selected_events events t) empty_projection) as [s2 r2]. cbn in *. subst r2.
  destruct r1 as [[]|]; cbn; (split_and!; [done|done|intros k Hk; rewrite H3 by done; auto]).
Qed.
End streams.

(** ** The read model against the aggregate *)








Section agreement.
Context `{PydanticInt}.
Local Opaque dupdate.














End agreement.

(** ** Concrete runs *)

Module ProjectionExamples.
#[local] Existing Instance strict_pydantic.

Definition event (id sid ty : string) (version : Z) (p : payload) : CanonicalEvent :=
  mkCanonicalEvent id "t" sid sid (Some "r1") version ty version (mkActor "user" "u") "c" "k" VUser 1 p.
Definition root_stream (sid : string) : list CanonicalEvent :=
  [event (sid +:+ "1") sid "session.created" 1 [("goal", JStr "g"); ("root_session_id", JStr sid)];
   event (sid +:+ "2") sid "run.requested" 2 [("run_id", JStr "r1")];
   event (sid +:+ "3") sid "run.started" 3 [];
   event (sid +:+ "4") sid "run.completed" 4 [("result_summary", JStr "done"); ("result_ref", JStr "ref")]].

(** Two interleaved Sessions with a redelivered event. *)
Definition batch : list CanonicalEvent :=
  take 2 (root_stream "a") ++ take 3 (root_stream "b") ++ take 1 (root_stream "a") ++ drop 2 (root_stream "a").

Example batch_views :
  let s := (project batch empty_projection).1 in
  (option_map (pgetn "status") (get_task "t" "a" s), option_map (pgetn "status") (get_task "t" "b" s))
  = (Some (JStr "ready"), Some (JStr "running")).
Proof. vm_compute. reflexivity. Qed.

Lemma projection_folds_streams_witness :
  ∃ s, project batch empty_projection = (s, Ok tt)
    ∧ stream_view (root_stream "a") None = Ok (dget ("t", "a") (tp_tasks s))
    ∧ current_version (dget ("t", "a") (tp_tasks s)) = Ok 4.
Proof.
  destruct (project batch empty_projection) as [s r] eqn:E.
  assert (r = Ok tt) as ->.
  { assert ((project batch empty_projection).2 = Ok tt) as H by (vm_compute; reflexivity).
    rewrite E in H. exact H. }
  exists s. destruct (projection_folds_streams batch s E ("t", "a")) as (H1 & _ & H3).
  split; [reflexivity|]. split; [exact H1|exact H3].
Defined.

End ProjectionExamples.

(** The events of a pending Skill write are not among the events the projection
    knows: projecting one fails in every state, and only records it as poison. *)
Lemma skill_invocation_unsupported `{PydanticInt} e s :
  ev_type e ∈ ["skill.invocation.requested"; "skill.invocation.settled"] →
  project [e] s = (s <| tp_poison_events := tp_poison_events s ++ [e] |>,
                   Raise UnsupportedEventError ("unsupported canonical event: " +:+ ev_type e)).
Proof.
  intros Hty. assert (str_in (ev_type e) KNOWN_TASK_EVENTS = false) as Hno.
  { apply elem_of_cons in Hty as [->|Hty]; [done|]. by apply list_elem_of_singleton in Hty as ->. }
  cbn [project]. unfold project_one. by rewrite Hno.
Qed.

(** A scheduled retry changes the aggregate and not the view. *)
Lemma retry_scheduled_not_projected `{PydanticInt} e view a :
  ev_type e = "run.retry_scheduled" → dget "approval" (ev_payload e) = None →
  apply_view e view = Ok view
  ∧ (apply (ev_type e) (ev_payload e) a ≫= λ a, Ok (sa_status a)) = Ok (Some SRetryWait).
Proof.
  intros Hty Hap. unfold apply_view, track_budget, account_usage, view_approval, view_body, apply,
    apply_approval, apply_body. by rewrite Hty, Hap.
Qed.
