(* ===== verification/Relay.v ===== *)
(** * The projection relay ([projection/relay.py])

    The relay takes the pending projection records of an outbox and projects their
    events one by one, marking each record published or failed.  It is written
    against two ports, an outbox source and a projection writer; the event store and
    the task projection are the instances it runs with.  The theorems put the three
    together: the read model is at every moment the fold of a prefix of each stream,
    and a relay pass without failures brings it up to date. *)

From S2P Require Import Prelude PyValue Contracts Session Collaboration RuntimeBudget.
From S2P Require Import SkillExecution EventStore TaskProjection.
Local Open Scope Z_scope.

(** ** The ports *)

(** [OutboxItem] and [OutboxSource] *)
Record OutboxItem := mkItem { it_outbox_id : Z; it_event : CanonicalEvent }.

Class OutboxSource (S : Type) := {
  src_pending : S → list OutboxItem;
  src_published : Z → S → S;
  src_failed : Z → S → S;
}.

Class ProjectionWriter (P : Type) := {
  pw_project : list CanonicalEvent → P → P * res unit;
}.

Section relay.
Context {S P : Type} `{OutboxSource S, ProjectionWriter P}.

(** One iteration: the event is projected, then its record is marked. *)
Definition relay_record (st : S * P) (item : OutboxItem) : S * P * bool :=
  match pw_project [it_event item] st.2 with
  | (p, Ok _) => (src_published (it_outbox_id item) st.1, p, true)
  | (p, Raise _ _) => (src_failed (it_outbox_id item) st.1, p, false)
  end.

Fixpoint relay_loop (st : S * P) (items : list OutboxItem) (relayed : Z) : S * P * Z :=
  match items with
  | [] => (st, relayed)
  | item :: items =>
      match relay_record st item with
      | (st, true) => relay_loop st items (relayed + 1)
      | (st, false) => relay_loop st items relayed
      end
  end.

Definition relay_once (limit : Z) (st : S * P) : S * P * Z :=
  relay_loop st (slice_to limit (src_pending st.1)) 0.
End relay.

Definition item_of (r : OutboxRecord) : OutboxItem := mkItem (ob_outbox_id r) (ob_event r).

#[global] Instance event_store_source : OutboxSource EventStore := {
  src_pending s := map item_of (pending_outbox s);
  src_published := mark_outbox_published;
  src_failed := mark_outbox_failed;
}.

Section system.
Context `{PydanticInt}.

#[local] Instance task_projection_writer : ProjectionWriter TaskProjection := {
  pw_project := project;
}.

(** ** The store and the read model together *)

(** The item is that of a stored projection record. *)
Definition outbox_item (s : EventStore) (item : OutboxItem) : Prop :=
  ∃ r, r ∈ es_outbox s ∧ ob_destination r = "projection" ∧ item_of r = item.

(** Store operations of anyone, and single iterations of any number of relays, each
    on a record that is in the outbox. *)
Inductive sys_step : EventStore * TaskProjection → EventStore * TaskProjection → Prop :=
  | sys_store s p op : sys_step (s, p) (run_op s op, p)
  | sys_relay s p item : outbox_item s item → sys_step (s, p) (relay_record (s, p) item).1.

Definition sys_init : EventStore * TaskProjection := (empty_store, empty_projection).

(** *** Streams only grow *)

Lemma run_op_extends s op k : stream_of s k `prefix_of` stream_of (run_op s op) k.
Proof.
  destruct (in_place op) eqn:Ei.
  { destruct (in_place_core s op Ei) as (Hs & _). unfold stream_of. by rewrite Hs. }
  destruct op as [su root sid run cx events result|su root cx appends result| | | | | |]; try done;
    cbn [run_op].
  - destruct (append su root sid run cx events result s) as [s' r] eqn:Ea. cbn [fst].
    apply append_inv in Ea. destruct r as [a|c m].
    + destruct Ea as [(previous & _ & -> & _)|(_ & _ & governed & -> & ->)]; [done|].
      unfold stream_of at 2. cbn [es_streams set_field]. cbn. rewrite dget_dset.
      case_decide; subst; cbn; [by eexists|]. by rewrite stream_of_setdefault.
    + destruct Ea as [->| ->]; [done|]. unfold stream_of at 2. cbn. by rewrite stream_of_setdefault.
  - destruct (append_batch su root cx appends result s) as [s' r] eqn:Ea. cbn [fst].
    destruct r as [a|c m].
    + apply append_batch_inv in Ea as [(previous & _ & -> & _)|(_ & added & _ & Hnd & _ & -> & ->)]; [done|].
      unfold stream_of at 2. cbn. rewrite extend_streams_get by done. by eexists.
    + unfold append_batch in Ea. repeat case_match; simplify_eq; done.
Qed.

(** *** Outbox events are stored events *)

Lemma stored_lookup s e :
  store_ok s → e ∈ stored_events (es_streams s) →
  1 ≤ ev_aggregate_version e
  ∧ stream_of s (view_key_of e) !! Z.to_nat (ev_aggregate_version e - 1) = Some e.
Proof.
  intros [[Hwf Hs] _ _] He. unfold stored_events in He.
  apply list_elem_of_In, in_concat in He as (l & Hl & He).
  apply in_map_iff in Hl as ([k l'] & <- & Hkl). apply list_elem_of_In in Hkl, He.
  apply elem_dget in Hkl; [|done]. cbn in He. apply list_elem_of_lookup in He as [i Hi].
  destruct (Hs _ _ Hkl i e Hi) as (Hv & Ht & Hsid).
  assert (view_key_of e = k) as -> by (unfold view_key_of; rewrite Ht, Hsid; by destruct k).
  split; [lia|]. unfold stream_of. rewrite Hkl. cbn.
  replace (Z.to_nat (ev_aggregate_version e - 1)) with i by lia. done.
Qed.

Lemma route_stored s r :
  store_ok s → r ∈ es_outbox s → ob_event r ∈ stored_events (es_streams s).
Proof.
  intros [_ _ Hr] Hin.
  assert (route r ∈ stored_events (es_streams s) ≫= routes_of) as Hb.
  { rewrite <- Hr. change (map route) with (fmap (M := list) route). by apply list_elem_of_fmap_2. }
  apply list_elem_of_bind in Hb as (e & He & Hst). unfold routes_of in He.
  apply list_elem_of_fmap in He as (d & Hd & _). injection Hd as -> _. done.
Qed.

Lemma item_stored s item : store_ok s → outbox_item s item → it_event item ∈ stored_events (es_streams s).
Proof. intros Hok (r & Hr & _ & <-). by apply route_stored. Qed.
(** *** The read model is a prefix of every stream *)

(** The view of [k] is the fold of the first [n] events of its stream. *)
Definition view_at (s : EventStore) (p : TaskProjection) (k : stream_key) (n : nat) : Prop :=
  (n ≤ length (stream_of s k))%nat
  ∧ stream_view (take n (stream_of s k)) None = Ok (dget k (tp_tasks p)).

Record sys_ok (st : EventStore * TaskProjection) : Prop := {
  sy_store : store_ok st.1;
  sy_prefix : ∀ k, ∃ n, view_at st.1 st.2 k n;
}.

Lemma view_at_version s p k n :
  view_at s p k n → current_version (dget k (tp_tasks p)) = Ok (Z.of_nat n).
Proof.
  intros [Hn Hv]. destruct (stream_versions _ _ _ 0 Hv eq_refl) as [_ ->].
  f_equal. rewrite length_take. lia.
Qed.

Lemma view_at_extends s s' p k n :
  stream_of s k `prefix_of` stream_of s' k → view_at s p k n → view_at s' p k n.
Proof.
  intros [l Hl] [Hn Hv]. split; rewrite Hl; [rewrite length_app; lia|].
  by rewrite take_app_le.
Qed.

Lemma stream_view_snoc l e v view :
  stream_view l None = Ok v → project_view e v = Ok view → stream_view (l ++ [e]) None = Ok (Some view).
Proof.
  unfold stream_view. intros Hl He. rewrite foldM_app, Hl. cbn. by rewrite He.
Qed.

Lemma project_one_raise p e p' c m :
  project_one p e = (p', Raise c m) → tp_tasks p' = tp_tasks p ∧ tp_event_ids p' = tp_event_ids p.
Proof.
  unfold project_one. destruct (negb _); [by intros; simplify_eq|]. case_decide; [done|].
  destruct (project_view _ _); by intros; simplify_eq.
Qed.

(** Projecting one stored event: the views after, and what success means. *)
Lemma project_stored s p e p' r :
  sys_ok (s, p) → e ∈ stored_events (es_streams s) → project [e] p = (p', r) →
  (∀ k, ∃ n n', view_at s p k n ∧ view_at s p' k n' ∧ (n ≤ n')%nat
     ∧ (k = view_key_of e → r = Ok tt → ev_event_id e ∉ tp_event_ids p →
        ev_aggregate_version e ≤ Z.of_nat n')).
Proof.
  intros [Hok Hpre] He Hp k. cbn in *. destruct (Hpre k) as (n & Hn).
  destruct (project_one p e) as [p1 r1] eqn:E1.
  assert (p' = p1 ∧ r = r1) as [-> ->].
  { destruct r1 as [[]|]; by simplify_eq. }
  destruct r1 as [[]|c m].
  - apply project_one_ok in E1 as (_ & [[Hin ->]|(Hout & view & Hv & ->)]).
    { exists n, n. split_and!; [done..|]. intros _ _ []. done. }
    destruct (decide (k = view_key_of e)) as [->|Hne].
    + apply stored_lookup in He as [Hpos Hl]; [|done].
      pose proof (project_view_ok _ _ _ Hv) as (Hcur & _ & _).
      rewrite (view_at_version _ _ _ _ Hn) in Hcur. injection Hcur as Hcur.
      assert (Z.to_nat (ev_aggregate_version e - 1) = n) as Hidx by lia. rewrite Hidx in Hl.
      exists n, (S n). split_and!; [done| |lia|intros; lia].
      split; [apply lookup_lt_Some in Hl; lia|]. cbn. rewrite dget_dset_eq.
      rewrite (take_S_r _ _ _ Hl). destruct Hn as [_ Hn]. by eapply stream_view_snoc.
    + exists n, n. split_and!; [done| |done|done]. destruct Hn as [H1 H2]. split; [done|].
      cbn. by rewrite dget_dset_ne.
  - apply project_one_raise in E1 as [Ht _]. exists n, n. split_and!; [done| |done|done].
    unfold view_at. by rewrite Ht.
Qed.

Lemma relay_record_ok s p item :
  sys_ok (s, p) → outbox_item s item → sys_ok (relay_record (s, p) item).1.
Proof.
  intros Hok Hitem. pose proof (item_stored s item (sy_store _ Hok) Hitem) as He.
  unfold relay_record. cbn [snd fst pw_project task_projection_writer].
  destruct (project [it_event item] p) as [p' r] eqn:Ep.
  pose proof (project_stored _ _ _ _ _ Hok He Ep) as Hv.
  destruct r as [u|c m]; cbn [fst src_published src_failed event_store_source].
  - assert (run_op s (OpPublished (it_outbox_id item)) = mark_outbox_published (it_outbox_id item) s)
      as <- by done.
    split; [apply op_keeps_ok, Hok|]. intros k. destruct (Hv k) as (n & n' & _ & Hn' & _).
    exists n'. cbn [fst snd]. eapply view_at_extends; [apply run_op_extends|done].
  - assert (run_op s (OpFailed (it_outbox_id item)) = mark_outbox_failed (it_outbox_id item) s)
      as <- by done.
    split; [apply op_keeps_ok, Hok|]. intros k. destruct (Hv k) as (n & n' & _ & Hn' & _).
    exists n'. cbn [fst snd]. eapply view_at_extends; [apply run_op_extends|done].
Qed.

Lemma sys_step_ok st st' : sys_ok st → sys_step st st' → sys_ok st'.
Proof.
  intros Hok Hs. destruct Hs as [s p op|s p item Hitem]; [|by apply relay_record_ok].
  split; [apply op_keeps_ok, Hok|]. intros k. destruct (sy_prefix _ Hok k) as [n Hn].
  exists n. eapply view_at_extends; [apply run_op_extends|exact Hn].
Qed.

Lemma sys_init_ok : sys_ok sys_init.
Proof. split; [apply empty_ok|]. intros k. exists 0%nat. split; [cbn; lia|done]. Qed.

Lemma sys_reachable_ok st : rtc sys_step sys_init st → sys_ok st.
Proof.
  generalize sys_init_ok. generalize sys_init. intros st0 Hok.
  induction 1; eauto using sys_step_ok.
Qed.

(** C4. The read model never runs ahead of the store and never skips: whatever the
    interleaving of store operations and of relays (failed projections and repeated
    deliveries included), the view of every Session is the fold of the first [n]
    events of its stream, with [n] its projection version. *)
Theorem read_model_is_prefix s p k :
  rtc sys_step sys_init (s, p) →
  ∃ n, (n ≤ length (stream_of s k))%nat
    ∧ stream_view (take n (stream_of s k)) None = Ok (dget k (tp_tasks p))
    ∧ current_version (dget k (tp_tasks p)) = Ok (Z.of_nat n).
Proof.
  intros Hr. apply sys_reachable_ok in Hr as [_ Hp]. destruct (Hp k) as [n Hn]. exists n.
  destruct Hn as [H1 H2]. split_and!; [done|done|]. by eapply view_at_version.
Qed.

(** *** Catching up *)

(** [uuid4] gives every stored event its own id. *)
Definition unique_ids (s : EventStore) : Prop := NoDup (map ev_event_id (stored_events (es_streams s))).

(** Only the relay publishes projection records. *)
Inductive relay_step : EventStore * TaskProjection → EventStore * TaskProjection → Prop :=
  | relay_store s p op :
      leaves "projection" op → unique_ids (run_op s op) → relay_step (s, p) (run_op s op, p)
  | relay_item s p item : outbox_item s item → relay_step (s, p) (relay_record (s, p) item).1.

(** The view of the event's Session has reached the event. *)
Definition covered (p : TaskProjection) (e : CanonicalEvent) : Prop :=
  ∃ n, current_version (dget (view_key_of e) (tp_tasks p)) = Ok n ∧ ev_aggregate_version e ≤ n.

Definition settled_covered (p : TaskProjection) (r : OutboxRecord) : Prop :=
  ob_destination r = "projection" → ob_published r = true → covered p (ob_event r).

Record relay_ok (st : EventStore * TaskProjection) : Prop := {
  ry_sys : sys_ok st;
  ry_unique : unique_ids st.1;
  ry_outbox : Forall (settled_covered st.2) (es_outbox st.1);
  ry_seen : ∀ id, id ∈ tp_event_ids st.2 →
    ∃ e, e ∈ stored_events (es_streams st.1) ∧ ev_event_id e = id ∧ covered st.2 e;
}.

Lemma unique_event s e e' :
  unique_ids s → e ∈ stored_events (es_streams s) → e' ∈ stored_events (es_streams s) →
  ev_event_id e = ev_event_id e' → e = e'.
Proof.
  intros Hu He He' Hid. apply list_elem_of_lookup in He as [i Hi], He' as [j Hj].
  unfold unique_ids in Hu. change (map ev_event_id) with (fmap (M := list) ev_event_id) in Hu.
  assert (i = j) as ->; [|congruence].
  eapply (NoDup_lookup _ i j (ev_event_id e) Hu); rewrite list_lookup_fmap; [by rewrite Hi|].
  rewrite Hj. cbn. by rewrite Hid.
Qed.

Lemma stored_grows s op e :
  store_ok s → e ∈ stored_events (es_streams s) → e ∈ stored_events (es_streams (run_op s op)).
Proof.
  intros Hok He. apply stored_lookup in He as [_ Hl]; [|done].
  pose proof (run_op_extends s op (view_key_of e)) as Hp.
  eapply prefix_lookup_Some in Hl; [|exact Hp]. apply list_elem_of_lookup_2 in Hl.
  unfold stream_of in Hl. destruct (dget _ _) as [l|] eqn:Ed; [|by apply not_elem_of_nil in Hl].
  unfold stored_events. apply list_elem_of_In, in_concat. exists l.
  split; [|by apply list_elem_of_In]. apply in_map_iff. eexists (_, l). split; [done|].
  apply list_elem_of_In. by eapply dget_Some_elem.
Qed.

Lemma update_first_settled p P f l :
  (∀ r, r ∈ l → P r = true → settled_covered p r → settled_covered p (f r)) →
  Forall (settled_covered p) l → Forall (settled_covered p) (update_first P f l).
Proof.
  intros Hf Hl. induction Hl as [|r l Hr Hl IH]; cbn; [constructor|].
  destruct (P r) eqn:E; constructor; [|done|done|].
  - apply Hf; [left|done..].
  - apply IH. intros x Hx. apply Hf. by right.
Qed.

Lemma numbered_unique l r r' :
  numbered l → r ∈ l → r' ∈ l → ob_outbox_id r = ob_outbox_id r' → r = r'.
Proof.
  intros Hn [i Hi]%list_elem_of_lookup [j Hj]%list_elem_of_lookup Hid.
  destruct (Hn _ _ Hi) as [H1 _], (Hn _ _ Hj) as [H2 _]. assert (i = j) as -> by lia. congruence.
Qed.

Lemma op_settled s op p :
  store_ok s → leaves "projection" op →
  Forall (settled_covered p) (es_outbox s) → Forall (settled_covered p) (es_outbox (run_op s op)).
Proof.
  intros Hok Hop Hs. apply Forall_forall. intros r' Hr' Hd Hp. rewrite Forall_forall in Hs.
  destruct (op_publishes_nothing s op _ Hok Hop r' Hr' Hd Hp) as (r & Hr & Hc & Hpr).
  injection Hc as _ _ Hd' He. rewrite <- He. apply (Hs r Hr); congruence.
Qed.

Lemma project_covers s p e p' r e0 :
  sys_ok (s, p) → e ∈ stored_events (es_streams s) → project [e] p = (p', r) →
  covered p e0 → covered p' e0.
Proof.
  intros Hok He Hp (v & Hv & Hle).
  destruct (project_stored _ _ _ _ _ Hok He Hp (view_key_of e0)) as (n & n' & Hn & Hn' & Hnn & _).
  apply view_at_version in Hn, Hn'. rewrite Hn in Hv. injection Hv as <-.
  eexists. split; [exact Hn'|lia].
Qed.

(** A successful projection covers its event. *)
Lemma project_success_covers s p e p' :
  relay_ok (s, p) → e ∈ stored_events (es_streams s) → project [e] p = (p', Ok tt) → covered p' e.
Proof.
  intros Hok He Hp. destruct (decide (ev_event_id e ∈ tp_event_ids p)) as [Hin|Hout].
  - destruct (ry_seen _ Hok _ Hin) as (e' & He' & Hid & Hc).
    rewrite <- (unique_event s e' e (ry_unique _ Hok) He' He Hid) in *.
    eapply project_covers; [apply Hok|done..].
  - destruct (project_stored _ _ _ _ _ (ry_sys _ Hok) He Hp (view_key_of e))
      as (n & n' & _ & Hn' & _ & Hv). apply view_at_version in Hn'.
    eexists. split; [exact Hn'|by apply Hv].
Qed.

Lemma project_seen p e p' r id :
  project [e] p = (p', r) → id ∈ tp_event_ids p' →
  id ∈ tp_event_ids p ∨ (id = ev_event_id e ∧ r = Ok tt).
Proof.
  intros Hp. assert (project_one p e = (p', r)) as E.
  { cbn in Hp. destruct (project_one p e) as [p1 [[]|]]; by simplify_eq. }
  destruct r as [[]|].
  - apply project_one_ok in E as (_ & [[_ ->]|(_ & view & _ & ->)]); [by left|]. cbn.
    intros [Hi%elem_of_singleton|Hi]%elem_of_union; auto.
  - apply project_one_raise in E as [_ ->]. by left.
Qed.

Lemma relay_record_relay_ok s p item st b :
  relay_ok (s, p) → outbox_item s item → relay_record (s, p) item = (st, b) →
  relay_ok st ∧ es_streams st.1 = es_streams s
  ∧ map ob_core (es_outbox st.1) = map ob_core (es_outbox s)
  ∧ (∀ e, covered p e → covered st.2 e)
  ∧ (b = true → covered st.2 (it_event item)).
Proof.
  intros Hok Hitem Hr. pose proof (item_stored s item (sy_store _ (ry_sys _ Hok)) Hitem) as He.
  pose proof (relay_record_ok s p item (ry_sys _ Hok) Hitem) as Hsys. rewrite Hr in Hsys.
  unfold relay_record in Hr. cbn [snd fst pw_project task_projection_writer] in Hr.
  destruct (project [it_event item] p) as [p' r] eqn:Ep.
  assert (∀ e, covered p e → covered p' e) as Hmono.
  { intros e. by eapply project_covers; [apply Hok|..]. }
  assert (∀ id, id ∈ tp_event_ids p' →
    ∃ e, e ∈ stored_events (es_streams s) ∧ ev_event_id e = id ∧ covered p' e) as Hseen.
  { intros id Hid. destruct (project_seen _ _ _ _ _ Ep Hid) as [Hid'|[-> ->]].
    - destruct (ry_seen _ Hok _ Hid') as (e & ? & ? & ?). exists e. auto.
    - exists (it_event item). split_and!; [done|done|]. by eapply project_success_covers. }
  assert (Forall (settled_covered p') (es_outbox s)) as Hset.
  { eapply Forall_impl; [apply Hok|]. intros x Hx H1 H2. by apply Hmono, Hx. }
  destruct r as [[]|c m]; cbn [src_published src_failed event_store_source] in Hr; simplify_eq; cbn [fst snd].
  - pose proof (project_success_covers _ _ _ _ Hok He Ep) as Hcov.
    split_and!; [|done|by apply update_first_core|done|done].
    split; [done|apply Hok| |done]. cbn.
    destruct Hitem as (r0 & Hr0 & _ & <-). apply update_first_settled; [|done].
    intros r1 Hr1 Hid _ _ _. cbn [item_of it_outbox_id it_event] in *. bool_props.
    by rewrite (numbered_unique _ _ _ (so_numbered _ (sy_store _ (ry_sys _ Hok))) Hr1 Hr0 Hid).
  - split_and!; [|done| |done|done].
    + split; [done|apply Hok| |done]. cbn. apply update_first_settled; [|done].
      intros x _ _ Hx. cbv beta zeta. by destruct (_ && _).
    + apply update_first_core. intros x. cbv beta zeta. by destruct (_ && _).
Qed.

Lemma outbox_item_core s s' item :
  map ob_core (es_outbox s') = map ob_core (es_outbox s) → outbox_item s item → outbox_item s' item.
Proof.
  intros Hc (r & Hr & Hd & <-). apply list_elem_of_lookup in Hr as [i Hi].
  destruct (core_lookup (es_outbox s') (es_outbox s) i r (eq_sym Hc) Hi) as (r' & Hr' & Heq).
  injection Heq as H1 H2 H3 H4. exists r'. split; [by eapply list_elem_of_lookup_2|].
  unfold item_of. rewrite H1, H3, H4. done.
Qed.

(** A relay pass: nothing covered is lost, and a pass that counts every item has
    covered every item. *)
Lemma relay_loop_relay_ok items s p c st c' :
  relay_ok (s, p) → Forall (outbox_item s) items → relay_loop (s, p) items c = (st, c') →
  relay_ok st ∧ es_streams st.1 = es_streams s ∧ (∀ e, covered p e → covered st.2 e)
  ∧ c' ≤ c + Z.of_nat (length items)
  ∧ (c' = c + Z.of_nat (length items) → Forall (λ item, covered st.2 (it_event item)) items).
Proof.
  revert s p c. induction items as [|item items IH]; intros s p c Hok Hit Hl; cbn [relay_loop] in Hl.
  { simplify_eq. split_and!; [done|done|done|cbn; lia|constructor]. }
  apply Forall_cons in Hit as [Hi Hit].
  destruct (relay_record (s, p) item) as [[s1 p1] b] eqn:Er.
  destruct (relay_record_relay_ok _ _ _ _ _ Hok Hi Er) as (Hok1 & Hs1 & Hc1 & Hm & Hb). cbn [fst snd] in *.
  assert (Forall (outbox_item s1) items) as Hit1.
  { eapply Forall_impl; [exact Hit|]. intros x. by apply outbox_item_core. }
  destruct b; destruct (IH _ _ _ Hok1 Hit1 Hl) as (H1 & H2 & H3 & H4 & H5); cbn [length];
    (split_and!; [done|congruence|auto|lia|]); intros Hc; [|lia].
  constructor; [by apply H3, Hb|apply H5; lia].
Qed.

Lemma pending_items s : Forall (outbox_item s) (map item_of (pending_outbox s)).
Proof.
  apply Forall_forall. intros item Hi. change (map item_of) with (fmap (M := list) item_of) in Hi.
  apply list_elem_of_fmap in Hi as (r & -> & Hr). unfold pending_outbox, pending_for in Hr.
  apply list_elem_of_filter in Hr as [(_ & _ & Hd) Hr]. by exists r.
Qed.

Lemma slice_to_prefix {A} n (l : list A) : ∃ k, slice_to n l = take k l.
Proof. unfold slice_to. case_match; eauto. Qed.

Lemma relay_step_ok st st' : relay_ok st → relay_step st st' → relay_ok st'.
Proof.
  intros Hok Hs. destruct Hs as [s p op Hop Hu|s p item Hi].
  - split; [by eapply sys_step_ok; [apply Hok|constructor]|done| |].
    + apply op_settled; [apply Hok|done|apply Hok].
    + intros id Hid. destruct (ry_seen _ Hok _ Hid) as (e & He & ? & ?). exists e.
      split_and!; [|done|done]. apply stored_grows; [apply Hok|done].
  - destruct (relay_record (s, p) item) as [st b] eqn:Er. by eapply relay_record_relay_ok.
Qed.

Lemma relay_init_ok : relay_ok sys_init.
Proof.
  split; [apply sys_init_ok|constructor|constructor|]. intros id Hid. by apply elem_of_empty in Hid.
Qed.

Lemma relay_reachable_ok st : rtc relay_step sys_init st → relay_ok st.
Proof.
  generalize relay_init_ok. generalize sys_init. intros st0 Hok.
  induction 1; eauto using relay_step_ok.
Qed.

(** Every projection record of the stream of [k] that is settled is covered. *)
Lemma stream_covered s p p' k e :
  relay_ok (s, p) → (∀ e, covered p e → covered p' e) → e ∈ stream_of s k →
  (∀ r, r ∈ es_outbox s → ob_destination r = "projection" → session_key r = k → ob_published r = true
        ∨ covered p' (ob_event r)) →
  view_key_of e = k ∧ covered p' e.
Proof.
  intros Hok Hm He Hall. destruct (ry_sys _ Hok) as [[Hst _ Hr] _].
  pose proof (stream_of_ok s k Hst) as Hk. pose proof He as [i Hi]%list_elem_of_lookup.
  destruct (Hk _ _ Hi) as (_ & Ht & Hs).
  assert (view_key_of e = k) as Hkey by (unfold view_key_of; rewrite Ht, Hs; by destruct k).
  split; [done|].
  assert (e ∈ stored_events (es_streams s)) as Hstored.
  { unfold stream_of in He. destruct (dget k _) as [l|] eqn:Ed; [|by apply not_elem_of_nil in He].
    apply list_elem_of_In, in_concat. exists l. split; [|by apply list_elem_of_In].
    apply in_map_iff. exists (k, l). split; [done|]. apply list_elem_of_In. by apply dget_Some_elem. }
  assert ((e, "projection") ∈ map route (es_outbox s)) as Hroute.
  { cbn in Hr. rewrite Hr. apply list_elem_of_bind. exists e. split; [|done].
    unfold routes_of, destinations. left. }
  apply list_elem_of_fmap in Hroute as (r & Hre & Hrin). injection Hre as He1 Hd.
  destruct (Hall r Hrin (eq_sym Hd)) as [Hp|Hc]; [|..].
  - unfold session_key. rewrite <- He1. exact Hkey.
  - rewrite He1. pose proof (ry_outbox _ Hok) as Hf. rewrite Forall_forall in Hf. by apply Hm, Hf.
  - by rewrite He1.
Qed.

(** C27. The relay catches up: when only the relay settles projection records and event
    ids are unique, a pass that relays everything pending leaves the view of every
    Session without poisoned records equal to the fold of its whole stream. *)
Theorem relay_catches_up s p limit s' p' k :
  rtc relay_step sys_init (s, p) →
  relay_once limit (s, p) = (s', p', Z.of_nat (length (pending_outbox s))) →
  (∀ r, r ∈ es_outbox s → session_key r = k → ob_poisoned r = false) →
  stream_of s' k = stream_of s k
  ∧ stream_view (stream_of s' k) None = Ok (dget k (tp_tasks p')).
Proof.
  intros Hr Ho Hpoison. apply relay_reachable_ok in Hr. unfold relay_once in Ho.
  cbn [fst src_pending event_store_source] in Ho.
  destruct (slice_to_prefix limit (map item_of (pending_outbox s))) as [n Hn]. rewrite Hn in Ho.
  pose proof (pending_items s) as Hit.
  destruct (relay_loop_relay_ok _ _ _ _ _ _ Hr (Forall_take _ n _ Hit) Ho) as (Hok & Hst & Hm & Hle & Hcov).
  cbn [fst snd] in *. rewrite length_take, length_map in Hle.
  rewrite take_ge in Hcov by (rewrite length_map; lia). rewrite length_map in Hcov.
  specialize (Hcov eq_refl). rewrite Forall_forall in Hcov.
  assert (stream_of s' k = stream_of s k) as Hsame by (unfold stream_of; by rewrite Hst).
  split; [done|]. destruct (sy_prefix _ (ry_sys _ Hok) k) as [m Hview]. cbn [fst snd] in Hview.
  assert (m = length (stream_of s' k)) as Hm'; [|destruct Hview as [_ Hv]; by rewrite Hm', take_ge in Hv].
  pose proof (view_at_version _ _ _ _ Hview) as Hver. destruct Hview as [Hlen _].
  destruct (decide (m = length (stream_of s' k))) as [|Hne]; [done|exfalso].
  destruct (lookup_lt_is_Some_2 (stream_of s' k) m) as [e He]; [lia|].
  pose proof (stream_of_ok s' k (so_streams _ (sy_store _ (ry_sys _ Hok))) _ _ He) as (Hv & _).
  rewrite Hsame in He. apply list_elem_of_lookup_2 in He as Hel.
  assert (view_key_of e = k ∧ covered p' e) as [Hk (v & Hcv & Hve)].
  { eapply stream_covered; [exact Hr|exact Hm|exact Hel|]. intros r Hrin Hd Hkey.
    destruct (ob_published r) eqn:Ep; [by left|right].
    apply (Hcov (item_of r)), list_elem_of_fmap_2, list_elem_of_filter. auto. }
  rewrite Hk, Hver in Hcv. injection Hcv as <-. lia.
Qed.
End system.

(** ** Witnesses *)

Module RelayExamples.
#[local] Existing Instance strict_pydantic.
#[local] Existing Instance task_projection_writer.

Definition op (cmd sid : string) : StoreOp :=
  OpAppend (mkSupply (λ i, sid +:+ pretty i) (λ i, Z.of_nat i)) sid sid None
    (mkContext cmd "t" (mkActor "user" "u") "corr" 0 "create" None None)
    [mkNewEvent "session.created" [("goal", JStr "g"); ("root_session_id", JStr sid)] VUser;
     mkNewEvent "run.requested" [("run_id", JStr "r1")] VUser] [].

Definition store2 : EventStore := run_op (run_op empty_store (op "c1" "a")) (op "c2" "b").

(** The first record has been relayed; three are pending. *)
Definition first_item : OutboxItem :=
  match pending_outbox store2 with r :: _ => item_of r | [] => mkItem 0 (ProjectionExamples.event "" "" "" 0 []) end.
Definition st1 : EventStore * TaskProjection := (relay_record (store2, empty_projection) first_item).1.

Lemma store_step (s : EventStore) (p : TaskProjection) o :
  leaves "projection" o → bool_decide (unique_ids (run_op s o)) = true → relay_step (s, p) (run_op s o, p).
Proof. intros H1 H2%bool_decide_eq_true_1. by constructor. Qed.

Lemma first_item_pending : outbox_item store2 first_item.
Proof.
  assert (∃ r rs, pending_outbox store2 = r :: rs) as (r & rs & Hr).
  { vm_compute. eauto. }
  pose proof (pending_items store2) as Hp. unfold first_item. rewrite Hr in *.
  by apply Forall_cons in Hp as [Hp _].
Qed.

Lemma st1_reachable : rtc relay_step sys_init st1.
Proof.
  eapply rtc_l; [apply (store_step empty_store empty_projection (op "c1" "a")); [exact I|vm_compute; reflexivity]|].
  eapply rtc_l; [apply (store_step _ empty_projection (op "c2" "b")); [exact I|vm_compute; reflexivity]|].
  eapply rtc_l; [apply (relay_item store2 empty_projection first_item), first_item_pending|].
  apply rtc_refl.
Qed.

Lemma st1_sys_reachable : rtc sys_step sys_init st1.
Proof.
  eapply rtc_l; [apply (sys_store empty_store empty_projection (op "c1" "a"))|].
  eapply rtc_l; [apply (sys_store _ empty_projection (op "c2" "b"))|].
  eapply rtc_l; [apply (sys_relay store2 empty_projection first_item), first_item_pending|].
  apply rtc_refl.
Qed.

Lemma read_model_is_prefix_witness :
  ∃ n, (n ≤ length (stream_of st1.1 ("t", "a")))%nat
    ∧ stream_view (take n (stream_of st1.1 ("t", "a"))) None = Ok (dget ("t", "a") (tp_tasks st1.2))
    ∧ current_version (dget ("t", "a") (tp_tasks st1.2)) = Ok (Z.of_nat n).
Proof. apply (read_model_is_prefix st1.1 st1.2 ("t", "a")). rewrite <- surjective_pairing. exact st1_sys_reachable. Defined.

Lemma relay_catches_up_witness :
  ∃ s p, relay_once 100 st1 = (s, p, 3)
    ∧ stream_view (stream_of s ("t", "b")) None = Ok (dget ("t", "b") (tp_tasks p)).
Proof.
  destruct (relay_once 100 st1) as [[s p] c] eqn:E. exists s, p.
  assert (c = 3) as ->.
  { assert ((relay_once 100 st1).2 = 3) as H by (vm_compute; reflexivity). rewrite E in H. exact H. }
  split; [reflexivity|].
  apply (relay_catches_up st1.1 st1.2 100 s p ("t", "b")).
  - rewrite <- surjective_pairing. exact st1_reachable.
  - rewrite <- surjective_pairing. assert (length (pending_outbox st1.1) = 3%nat) as -> by (vm_compute; reflexivity).
    exact E.
  - assert (Forall (λ r, ob_poisoned r = false) (es_outbox st1.1)) as Hf.
    { vm_compute. repeat constructor. }
    intros r Hr _. rewrite Forall_forall in Hf. by apply Hf.
Defined.
End RelayExamples.
