(* ===== verification/TaskService.v ===== *)
(** * The task service ([session/task_service.py])

    The command handlers of the API: each loads the Session (from its last snapshot
    and the events after it), runs a command of the aggregate, appends the events it
    queued under the caller's expected version, and saves a new snapshot.

    A handler reads first and writes last, so it is a [..._prepare] function of the
    store (the aggregate with its queued events, and the answer) followed by
    [commit].  The admission controller, the approval view and the notifier are the
    ports of the source: functions given to the service.  [time.perf_counter] and
    the log line of [create_task] are left out. *)

From S2P Require Import Prelude PyValue DateTime Digest Contracts Session.
From S2P Require Import Approval Collaboration RuntimeBudget SkillExecution EventStore TaskProjection.
From S2P Require Import Relay.
Local Open Scope Z_scope.

(** ** [contracts/runtime_options.py] *)

Record ReadRefreshGrant := mkGrant {
  gr_capability_id : string;
  gr_max_calls : Z;
  gr_min_interval_seconds : Z;
  gr_duration_seconds : Z;
}.

Section refresh.
Context `{PydanticInt}.

Definition invalid_grant {A} : res A := Raise PyValidationError "ReadRefreshGrant".

(** An [int] field with its default and its bounds. *)
Definition bounded_int (dflt lo hi : Z) (v : option json) : res Z :=
  match v with
  | None => Ok dflt
  | Some v =>
      match lax_int v with
      | Some z => if (lo <=? z) && (z <=? hi) then Ok z else invalid_grant
      | None => invalid_grant
      end
  end.

Definition grant_validate (g : payload) : res ReadRefreshGrant :=
  if negb (forallb (λ k, str_in k ["capability_id"; "max_calls"; "min_interval_seconds";
              "duration_seconds"]) (dkeys g))
  then invalid_grant else
  capability ← match dget "capability_id" g with
               | Some (JStr s) =>
                   let n := Z.of_nat (String.length s) in
                   if (1 <=? n) && (n <=? 512) then Ok s else invalid_grant
               | _ => invalid_grant
               end;
  max_calls ← bounded_int 2 2 10 (dget "max_calls" g);
  interval ← bounded_int 5 1 300 (dget "min_interval_seconds" g);
  duration ← bounded_int 60 1 1800 (dget "duration_seconds" g);
  Ok (mkGrant capability max_calls interval duration).

(** [snapshot], at the clock reading [now]. *)
Definition grant_snapshot (now : Z) (g : ReadRefreshGrant) : payload :=
  [("capability_id", JStr (gr_capability_id g)); ("max_calls", JInt (gr_max_calls g));
   ("min_interval_seconds", JInt (gr_min_interval_seconds g));
   ("expires_at", JStr (isoformat (now + gr_duration_seconds g * 1000000)))].
End refresh.

(** ** Ports and configuration *)

(** [govern_budget] is looked up with [getattr]: a controller may lack it. *)
Record AdmissionController := mkAdmissionController {
  adm_admit : string → CommandContext → res unit;
  adm_govern_budget : option (string → CommandContext → payload → res payload);
}.

Record ApprovalViewReader := mkApprovalReader {
  avr_get : string → string → option ApprovalRecord;
  avr_list_due : Z → Z → list ApprovalRecord;
}.

(** [record_human_response] of the notifier: record, decision, feedback, actor. *)
Notation HumanApprovalNotifier := (ApprovalRecord → string → option string → string → res unit).

Record TaskServiceConfig := mkService {
  svc_admission : AdmissionController;
  svc_approvals : option ApprovalViewReader;
  svc_notifier : option HumanApprovalNotifier;
  svc_runtime_budget : option payload;
}.

(** [dict(runtime_budget) if runtime_budget else None] *)
Definition service_budget (runtime_budget : option payload) : option payload :=
  match runtime_budget with Some (_ :: _) => runtime_budget | _ => None end.

(** A value that is text or [None], as the event store's [run_id]. *)
Definition run_text (v : json) : option string := match v with JStr s => Some s | _ => None end.

Section service.
Context `{PydanticInt} {P : Type} `{ProjectionWriter P}.
Context (svc : TaskServiceConfig).

(** ** Loading and committing *)

Definition load_session (s : EventStore) (tenant_id session_id : string) : res SessionAggregate :=
  match get_snapshot s tenant_id session_id with
  | Some snapshot =>
      session ← from_snapshot (sn_state snapshot) (sn_aggregate_version snapshot);
      replay (load s tenant_id session_id (sn_aggregate_version snapshot + 1) None None) session
  | None =>
      match load s tenant_id session_id 1 None None with
      | [] => Raise NotFoundError ("Session not found: " +:+ session_id)
      | events => from_events events
      end
  end.

Definition after_append (session : SessionAggregate) (result : AppendResult) (st : EventStore * P)
    : EventStore * P * res unit :=
  if apr_deduplicated result then (st, Ok tt) else
  let session := match last (apr_events result) with
                 | Some e => session <| sa_version := ev_aggregate_version e |>
                 | None => session
                 end in
  match snapshot_state session with
  | Raise c m => (st, Raise c m)
  | Ok state =>
      let s := save_snapshot st.1 (mkSnapshot (sa_tenant_id session) (sa_session_id session)
                 (sa_version session) 1 state) in
      ((relay_once 100 (s, st.2)).1, Ok tt)
  end.

(** What a handler has computed when it reaches its [append]. *)
Record Prepared := mkPrepared {
  pr_session : SessionAggregate;
  pr_run_id : option string;
  pr_response : payload;
}.

(** The [append] and [_after_append] that end every command handler. *)
Definition commit (su : Supply) (cx : CommandContext) (p : Prepared) (st : EventStore * P)
    : EventStore * P * res AppendResult :=
  let '(events, session) := release_pending_events (pr_session p) in
  match append su (sa_root_session_id session) (sa_session_id session) (pr_run_id p) cx events
          (pr_response p) st.1 with
  | (s, Raise c m) => (s, st.2, Raise c m)
  | (s, Ok result) =>
      match after_append session result (s, st.2) with
      | (st, Raise c m) => (st, Raise c m)
      | (st, Ok _) => (st, Ok result)
      end
  end.

Definition run_prepared (su : Supply) (cx : CommandContext) (prepared : res Prepared)
    (st : EventStore * P) : EventStore * P * res payload :=
  match prepared with
  | Raise c m => (st, Raise c m)
  | Ok p =>
      match commit su cx p st with
      | (st, Ok result) => (st, Ok (apr_command_result result))
      | (st, Raise c m) => (st, Raise c m)
      end
  end.

(** A handler that answered from what it read, or has something to append. *)
Definition run_reading (su : Supply) (cx : CommandContext) (r : res (payload + Prepared))
    (st : EventStore * P) : EventStore * P * res payload :=
  match r with
  | Raise c m => (st, Raise c m)
  | Ok (inl answer) => (st, Ok answer)
  | Ok (inr p) => run_prepared su cx (Ok p) st
  end.

(** [{k: v for k, v in result.items() if k != "_request_fingerprint"}] *)
Definition public_result (r : payload) : payload :=
  filter (λ kv, kv.1 ≠ "_request_fingerprint") r.

Definition publicly (r : EventStore * P * res payload) : EventStore * P * res payload :=
  (r.1, public_result <$> r.2).

(** ** Budgets and refresh grants *)

Definition govern_runtime_budget (goal : string) (cx : CommandContext) : res (option payload) :=
  let runtime_budget := service_budget (svc_runtime_budget svc) in
  match adm_govern_budget (svc_admission svc) with
  | None => _ ← adm_admit (svc_admission svc) goal cx; Ok runtime_budget
  | Some govern => governed ← govern goal cx (default [] runtime_budget); Ok (Some governed)
  end.

(** [_refresh_snapshots]; the [i]th grant reads the clock [now i]. *)
Definition refresh_snapshots (now : nat → Z) (grants : option (list payload)) : res (list payload) :=
  let grants := default [] grants in
  let budget := default [] (service_budget (svc_runtime_budget svc)) in
  if negb (bool_decide (grants = [])) && negb (is_lit (pgetn "policy_version" budget) "2")
  then Raise CollaborationValidationError "read refresh requires runtime budget policy v2" else
  distinct ← (if bool_decide (grants = []) then Ok true
              else if 8 <? Z.of_nat (length grants) then Ok false
              else ids ← jfromkeys (map (pgetn "capability_id") grants);
                   Ok (Nat.eqb (length ids) (length grants)));
  if negb distinct
  then Raise CollaborationValidationError "at most eight distinct read refresh grants are allowed"
  else
  validated ← mapR (λ ig, g ← grant_validate ig.2; Ok (grant_snapshot (now ig.1) g))
                (imap pair grants);
  Ok validated.

Definition fingerprint (d : payload) : string := sha256_hex (utf8 (json_dumps_spaced (JObj d))).

(** ** [create_task] *)

Record CreateTask := mkCreateTask {
  ct_goal : string;
  ct_source : string;
  ct_schedule_id : option string;
  ct_occurrence_id : option string;
  ct_interaction_mode : option InteractionMode;
  ct_approval_mode : option ApprovalMode;
  ct_read_refresh : option (list payload);
  ct_skill_names : option (list string);
}.

Definition refresh_entry (grants : option (list payload)) : payload :=
  opt_entry "read_refresh" ((λ l, JArr (map JObj l)) <$> grants).

Definition create_fingerprint (c : CreateTask) (approval : ApprovalConfiguration) : string :=
  fingerprint
    ([("goal", JStr (ct_goal c)); ("source", JStr (ct_source c));
      ("schedule_id", jopt (ct_schedule_id c)); ("occurrence_id", jopt (ct_occurrence_id c))]
     ++ approval_public_dict approval
     ++ refresh_entry (ct_read_refresh c)
     ++ opt_entry "skill_names" (jstrs <$> ct_skill_names c)).

(** [uuid_session] and [uuid_run] are the two [uuid4().hex]. *)
Definition create_prepare (uuid_session uuid_run : string) (now : nat → Z) (c : CreateTask)
    (cx : CommandContext) : res Prepared :=
  let interaction :=
    if String.eqb (ct_source c) "schedule" then NonStreaming
    else default Streaming (ct_interaction_mode c) in
  let approval := resolve_approval interaction (ct_approval_mode c) in
  runtime_budget ← govern_runtime_budget (ct_goal c) cx;
  let session_id := "ses_" +:+ uuid_session in
  let run_id := "run_" +:+ uuid_run in
  read_refresh ← refresh_snapshots now (ct_read_refresh c);
  session ← create (mkCreate (ct_goal c) run_id (cx_dept_id cx) (ct_source c) (ct_schedule_id c)
      (ct_occurrence_id c) (Some approval) runtime_budget (Some read_refresh) (ct_skill_names c))
    (empty_session session_id (cx_tenant_id cx));
  Ok (mkPrepared session (run_text (sa_run_id session))
    ([("session_id", JStr session_id); ("run_id", JStr run_id); ("status", JStr "pending");
      ("_request_fingerprint", JStr (create_fingerprint c approval))]
     ++ approval_public_dict approval
     ++ [("status_url", JStr ("/v1/tasks/" +:+ session_id));
         ("result_url", JStr ("/v1/tasks/" +:+ session_id +:+ "/result"));
         ("stream_url", JStr ("/v1/streams/" +:+ session_id))])).

Definition create_task (su : Supply) (uuid_session uuid_run : string) (now : nat → Z)
    (c : CreateTask) (cx : CommandContext) (st : EventStore * P) : EventStore * P * res payload :=
  publicly (run_prepared su cx (create_prepare uuid_session uuid_run now c cx) st).

(** ** Messages, cancellation, closing, resuming *)

Definition run_status_json (a : SessionAggregate) : json := jopt (run_value <$> sa_run_status a).
Definition status_or_created (a : SessionAggregate) : string :=
  match sa_status a with Some s => session_value s | None => "created" end.

Definition command_response (session_id : string) (run_id : json) (status : string) (run_status : json)
    (a : SessionAggregate) : payload :=
  approval_public_dict (sa_approval a)
  ++ [("session_id", JStr session_id); ("run_id", run_id); ("status", JStr status);
      ("run_status", run_status)].

Definition append_message_prepare (s : EventStore) (session_id message : string)
    (cx : CommandContext) : res Prepared :=
  session ← load_session s (cx_tenant_id cx) session_id;
  session ← Session.append_message message session;
  Ok (mkPrepared session (run_text (sa_run_id session))
        (command_response session_id (sa_run_id session) (status_or_created session)
           (run_status_json session) session)).

Definition task_append_message (su : Supply) (session_id message : string) (cx : CommandContext)
    (st : EventStore * P) : EventStore * P * res payload :=
  run_prepared su cx (append_message_prepare st.1 session_id message cx) st.

Definition cancel_prepare (s : EventStore) (session_id reason : string) (cx : CommandContext)
    : res Prepared :=
  session ← load_session s (cx_tenant_id cx) session_id;
  session ← cancel reason session;
  Ok (mkPrepared session (run_text (sa_run_id session))
        (command_response session_id (sa_run_id session) (status_or_created session)
           (run_status_json session) session)).

Definition cancel_task (su : Supply) (session_id reason : string) (cx : CommandContext)
    (st : EventStore * P) : EventStore * P * res payload :=
  run_prepared su cx (cancel_prepare st.1 session_id reason cx) st.

Definition close_prepare (s : EventStore) (session_id reason : string) (cx : CommandContext)
    : res Prepared :=
  session ← load_session s (cx_tenant_id cx) session_id;
  session ← close reason session;
  Ok (mkPrepared session (run_text (sa_run_id session))
        (command_response session_id (sa_run_id session) "closed" (run_status_json session) session)).

Definition close_session (su : Supply) (session_id reason : string) (cx : CommandContext)
    (st : EventStore * P) : EventStore * P * res payload :=
  run_prepared su cx (close_prepare st.1 session_id reason cx) st.

Definition resume_prepare (s : EventStore) (uuid session_id : string) (cx : CommandContext)
    : res Prepared :=
  session ← load_session s (cx_tenant_id cx) session_id;
  let run_id := "run_" +:+ uuid in
  session ← resume run_id session;
  Ok (mkPrepared session (Some run_id)
        (command_response session_id (JStr run_id) "pending" (JStr "pending") session)).

Definition resume_task (su : Supply) (uuid session_id : string) (cx : CommandContext)
    (st : EventStore * P) : EventStore * P * res payload :=
  run_prepared su cx (resume_prepare st.1 uuid session_id cx) st.

(** ** [request_run] *)

Definition run_fingerprint (session_id : string) (mode : option ApprovalMode)
    (read_refresh : option (list payload)) : string :=
  fingerprint ([("session_id", JStr session_id); ("approval_mode", jopt (approval_mode_value <$> mode))]
               ++ refresh_entry read_refresh).

(** The answer to a command whose run is already on the stream. *)
Definition repeated_run (session_id fp : string) (e : CanonicalEvent) : res payload :=
  let p := ev_payload e in
  if negb (is_lit (pgetn "request_fingerprint" p) fp)
  then Raise VersionConflictError "Run command was reused with a different approval mode"
  else
  run_id ← pget "run_id" p;
  match pgetd "approval" (JObj []) p with
  | JObj approval => Ok (dupdate [("session_id", JStr session_id); ("run_id", run_id);
                           ("status", JStr "pending"); ("run_status", JStr "pending")] approval)
  | _ => Raise PyTypeError "argument after ** must be a mapping"
  end.

Definition request_run_prepare (s : EventStore) (uuid : string) (now : nat → Z) (session_id : string)
    (mode : option ApprovalMode) (read_refresh : option (list payload)) (cx : CommandContext)
    : res (payload + Prepared) :=
  let fp := run_fingerprint session_id mode read_refresh in
  match list_find (λ e, is_lit (pgetn "command_id" (ev_payload e)) (cx_command_id cx) = true)
          (load s (cx_tenant_id cx) session_id 1 (Some ["run.requested"]) None) with
  | Some (_, e) => inl <$> repeated_run session_id fp e
  | None =>
      session ← load_session s (cx_tenant_id cx) session_id;
      runtime_budget ← govern_runtime_budget
        (if String.eqb (sa_goal session) EmptyString then "continue task" else sa_goal session) cx;
      let run_id := "run_" +:+ uuid in
      refresh ← refresh_snapshots now read_refresh;
      session ← Session.request_run (mkRequestRun run_id mode (Some (cx_command_id cx)) (Some fp)
                  runtime_budget (Some refresh)) session;
      Ok (inr (mkPrepared session (Some run_id)
        ([("session_id", JStr session_id); ("run_id", JStr run_id); ("status", JStr "pending");
          ("run_status", JStr "pending"); ("_request_fingerprint", JStr fp)]
         ++ approval_public_dict (sa_approval session))))
  end.

Definition request_run_task (su : Supply) (uuid : string) (now : nat → Z) (session_id : string)
    (mode : option ApprovalMode) (read_refresh : option (list payload)) (cx : CommandContext)
    (st : EventStore * P) : EventStore * P * res payload :=
  match request_run_prepare st.1 uuid now session_id mode read_refresh cx with
  | Ok (inl answer) => (st, Ok answer)
  | Ok (inr p) => publicly (run_prepared su cx (Ok p) st)
  | Raise c m => (st, Raise c m)
  end.

(** ** Approvals *)

(** [next((event for event in events if ...), None)] *)
Definition first_event (test : CanonicalEvent → bool) (events : list CanonicalEvent)
    : option CanonicalEvent :=
  match list_find (λ e, test e = true) events with Some (_, e) => Some e | None => None end.

Definition caused (ty command_id : string) (e : CanonicalEvent) : bool :=
  String.eqb (ev_type e) ty && String.eqb (ev_causation_id e) command_id.

Definition reused {A} : res A :=
  Raise VersionConflictError "command was reused with a different request".

Definition terminal_approval_events : list string :=
  ["approval.approved"; "approval.rejected"; "approval.expired"; "approval.cancelled"].

Definition all_events (s : EventStore) (cx : CommandContext) (session_id : string) : list CanonicalEvent :=
  load s (cx_tenant_id cx) session_id 1 None None.

(** The answer to a response that is already on the stream. *)
Definition repeated_response (s : EventStore) (events : list CanonicalEvent)
    (session_id approval_id decision : string) (feedback : option string) (cx : CommandContext)
    (previous : CanonicalEvent) : res payload :=
  let p := ev_payload previous in
  if negb (is_lit (pgetn "approval_id" p) approval_id)
     || negb (is_lit (pgetn "actor_id" p) (actor_id (cx_actor cx)))
     || negb (is_lit (pgetn "decision" p) decision)
     || negb (py_eq (pgetn "feedback" p) (jopt feedback))
  then reused else
  let terminal := first_event (λ e, String.eqb (ev_causation_id e) (cx_command_id cx)
                                    && str_in (ev_type e) terminal_approval_events) events in
  let status := match terminal with Some _ => "runnable" | None => "waiting_for_human" end in
  session ← load_session s (cx_tenant_id cx) session_id;
  Ok (approval_public_dict (sa_approval session)
      ++ [("session_id", JStr session_id); ("run_id", jopt (ev_run_id previous));
          ("status", JStr status); ("run_status", JStr status); ("approval_id", JStr approval_id);
          ("decision", JStr match terminal with
                            | Some e => after_dot (ev_type e)
                            | None => approval_status_value AWaiting
                            end)]).

(** The record from the stream, else from the approval view of the same Session. *)
Definition find_approval (events : list CanonicalEvent) (tenant_id session_id approval_id : string)
    : res ApprovalRecord :=
  record ← approval_from_events events tenant_id session_id approval_id;
  let projected := reader ← svc_approvals svc;
                   projected ← avr_get reader tenant_id approval_id;
                   if String.eqb (ar_session_id projected) session_id then Some projected else None in
  match record, projected with
  | Some r, _ | None, Some r => Ok r
  | None, None => Raise NotFoundError ("Approval not found: " +:+ approval_id)
  end.

(** What remains to be done once a response has been examined: the prepared append
    (none when the decision already stands), the answer without an append, and the
    notification of a terminal decision. *)
Record Response := mkResponse {
  rs_record : ApprovalRecord;
  rs_decided : ApprovalRecord;
  rs_terminal : bool;
  rs_append : option Prepared;
  rs_answer : payload;
}.

Definition response_answer (session_id approval_id : string) (decided : ApprovalRecord)
    (session : SessionAggregate) : payload :=
  approval_public_dict (sa_approval session)
  ++ [("session_id", JStr session_id); ("run_id", sa_run_id session);
      ("status", JStr (status_or_created session)); ("run_status", run_status_json session);
      ("approval_id", JStr approval_id);
      ("decision", JStr (approval_status_value (ar_status decided)))].

Definition respond_prepare (s : EventStore) (now : Z) (events : list CanonicalEvent)
    (session_id approval_id decision : string) (feedback : option string) (cx : CommandContext)
    : res Response :=
  record ← find_approval events (cx_tenant_id cx) session_id approval_id;
  session ← load_session s (cx_tenant_id cx) session_id;
  if String.eqb (approval_status_value (ar_status record)) decision
  then Ok (mkResponse record record true None (response_answer session_id approval_id record session))
  else
  '(decided, terminal) ← vote record (actor_id (cx_actor cx)) decision feedback now;
  session ← record_human_response approval_id (actor_id (cx_actor cx)) decision feedback terminal session;
  let answer := response_answer session_id approval_id decided session in
  Ok (mkResponse record decided terminal
        (Some (mkPrepared session (run_text (sa_run_id session)) answer)) answer).

(** The notification that follows a terminal response, and the answer. *)
Definition notify_response (cx : CommandContext) (feedback : option string) (r : Response)
    (out : EventStore * P * res payload) : EventStore * P * res payload :=
  match out with
  | (st, Raise c m) => (st, Raise c m)
  | (st, Ok answer) =>
      match svc_notifier svc with
      | Some notify =>
          if rs_terminal r
          then match notify (rs_record r) (approval_status_value (ar_status (rs_decided r))) feedback
                       (actor_id (cx_actor cx)) with
               | Ok _ => (st, Ok answer)
               | Raise c m => (st, Raise c m)
               end
          else (st, Ok answer)
      | None => (st, Ok answer)
      end
  end.

Definition record_approval_response (su : Supply) (now : Z) (session_id approval_id decision : string)
    (feedback : option string) (cx : CommandContext) (st : EventStore * P)
    : EventStore * P * res payload :=
  let events := all_events st.1 cx session_id in
  match first_event (caused "human.response.recorded" (cx_command_id cx)) events with
  | Some previous =>
      (st, repeated_response st.1 events session_id approval_id decision feedback cx previous)
  | None =>
      match respond_prepare st.1 now events session_id approval_id decision feedback cx with
      | Raise c m => (st, Raise c m)
      | Ok r =>
          notify_response cx feedback r
            match rs_append r with
            | Some p => run_prepared su cx (Ok p) st
            | None => (st, Ok (rs_answer r))
            end
      end
  end.

(** [_approval_record] *)
Definition approval_record (s : EventStore) (tenant_id session_id approval_id : string)
    : res ApprovalRecord :=
  record ← approval_from_events (load s tenant_id session_id 1 None None) tenant_id session_id
             approval_id;
  match record with
  | Some r => Ok r
  | None => Raise NotFoundError ("Approval not found: " +:+ approval_id)
  end.

Definition open_approval (r : ApprovalRecord) : bool :=
  bool_decide (ar_status r ∈ [ARequested; AWaiting]).

Definition delegation_answer (session_id approval_id : string) (approvers : list json) : payload :=
  [("session_id", JStr session_id); ("approval_id", JStr approval_id); ("status", JStr "waiting");
   ("assigned_approvers", JArr approvers)].

Definition delegate_prepare (s : EventStore) (session_id approval_id to_approver reason : string)
    (cx : CommandContext) : res (payload + Prepared) :=
  let actor := actor_id (cx_actor cx) in
  match first_event (caused "approval.delegated" (cx_command_id cx)) (all_events s cx session_id) with
  | Some e =>
      let p := ev_payload e in
      if negb (is_lit (pgetn "approval_id" p) approval_id)
         || negb (is_lit (pgetn "from_approver" p) actor)
         || negb (is_lit (pgetn "to_approver" p) to_approver)
         || negb (is_lit (pgetn "reason" p) reason)
      then reused else
      record ← approval_record s (cx_tenant_id cx) session_id approval_id;
      Ok (inl (delegation_answer session_id approval_id (ar_assigned_approvers record)))
  | None =>
      record ← approval_record s (cx_tenant_id cx) session_id approval_id;
      if negb (open_approval record)
      then Raise ApprovalValidationError "only a waiting approval can be delegated"
      else if negb (jmem (JStr actor) (ar_assigned_approvers record))
      then Raise ApprovalValidationError "only an assigned approver may delegate"
      else
      voted ← has_voted actor (ar_votes record);
      if (voted : bool)
      then Raise ApprovalValidationError "an approver who already voted cannot delegate"
      else if jmem (JStr to_approver) (ar_assigned_approvers record)
      then Raise ApprovalValidationError "delegate is already assigned"
      else
      session ← load_session s (cx_tenant_id cx) session_id;
      session ← Session.delegate_approval approval_id actor to_approver actor reason session;
      Ok (inr (mkPrepared session (run_text (sa_run_id session))
        (delegation_answer session_id approval_id
           (map (λ v, if is_lit v actor then JStr to_approver else v) (ar_assigned_approvers record)))))
  end.

Definition task_delegate_approval (su : Supply) (session_id approval_id to_approver reason : string)
    (cx : CommandContext) (st : EventStore * P) : EventStore * P * res payload :=
  run_reading su cx (delegate_prepare st.1 session_id approval_id to_approver reason cx) st.

Definition escalation_answer (session_id approval_id : string) (level : Z) (approvers : list json)
    : payload :=
  [("session_id", JStr session_id); ("approval_id", JStr approval_id); ("status", JStr "waiting");
   ("escalation_level", JInt level); ("assigned_approvers", JArr approvers)].

Definition escalate_prepare (s : EventStore) (session_id approval_id : string)
    (approvers : list string) (reason : string) (cx : CommandContext) : res (payload + Prepared) :=
  let additions := fromkeys approvers in
  match first_event (caused "approval.escalated" (cx_command_id cx)) (all_events s cx session_id) with
  | Some e =>
      let p := ev_payload e in
      if negb (is_lit (pgetn "approval_id" p) approval_id) then reused else
      stored ← py_iter (pgetd "approvers" (JArr []) p);
      if negb (py_eq (JArr stored) (jstrs additions)) || negb (is_lit (pgetn "reason" p) reason)
      then reused else
      record ← approval_record s (cx_tenant_id cx) session_id approval_id;
      Ok (inl (escalation_answer session_id approval_id (ar_escalation_level record)
                 (ar_assigned_approvers record)))
  | None =>
      record ← approval_record s (cx_tenant_id cx) session_id approval_id;
      if negb (open_approval record)
      then Raise ApprovalValidationError "only a waiting approval can be escalated"
      else if match ar_assigned_approvers record with
              | [] => false
              | l => negb (jmem (JStr (actor_id (cx_actor cx))) l)
              end
      then Raise ApprovalValidationError "only an assigned approver may escalate"
      else if existsb (λ v, jmem (JStr v) (ar_assigned_approvers record)) additions
      then Raise ApprovalValidationError "escalation approvers must be newly assigned"
      else
      session ← load_session s (cx_tenant_id cx) session_id;
      let level := ar_escalation_level record + 1 in
      session ← Session.escalate_approval approval_id additions level (actor_id (cx_actor cx)) reason
                  None session;
      Ok (inr (mkPrepared session (run_text (sa_run_id session))
        (escalation_answer session_id approval_id level
           (ar_assigned_approvers record ++ map JStr additions))))
  end.

Definition task_escalate_approval (su : Supply) (session_id approval_id : string)
    (approvers : list string) (reason : string) (cx : CommandContext) (st : EventStore * P)
    : EventStore * P * res payload :=
  run_reading su cx (escalate_prepare st.1 session_id approval_id approvers reason cx) st.

(** ** Approval deadlines *)

(** What is due for a record at [current]: the action, its due time and the command. *)
Definition sla_action (current : Z) (r : ApprovalRecord) : option (string * Z * SessionCommand) :=
  if ar_expires_at r <=? current
  then Some ("expired", ar_expires_at r, CmdExpire (ar_approval_id r) current)
  else match ar_escalation_at r with
  | Some at_ =>
      if at_ <=? current
      then Some ("escalated", at_, CmdEscalate (ar_approval_id r) [] (ar_escalation_level r + 1)
                   "approval-sla-worker" "approval_sla_escalation" None)
      else None
  | None => None
  end.

Definition sla_context (action : string) (due_at version : Z) (r : ApprovalRecord) : CommandContext :=
  mkContext ("approval-sla:" +:+ action +:+ ":" +:+ ar_approval_id r +:+ ":" +:+ isoformat due_at)
    (ar_tenant_id r) (mkActor "system" "approval-sla-worker") (ar_run_id r) version
    ("approval_sla_" +:+ action) (Some (ar_approval_id r)) None.

(** One iteration; the boolean says whether it counts as processed. *)
Definition process_sla (su : Supply) (current : Z) (r : ApprovalRecord) (st : EventStore * P)
    : EventStore * P * res bool :=
  match load_session st.1 (ar_tenant_id r) (ar_session_id r) with
  | Raise c m => (st, Raise c m)
  | Ok session =>
      if negb (bool_decide (sa_status session = Some SWaitingForHuman)) then (st, Ok false) else
      match sla_action current r with
      | None => (st, Ok false)
      | Some (action, due_at, command) =>
          match run_command command session with
          | Raise c m => (st, Raise c m)
          | Ok session =>
              match commit su (sla_context action due_at (sa_version session) r)
                      (mkPrepared session (run_text (sa_run_id session))
                         [("session_id", JStr (ar_session_id r)); ("approval_id", JStr (ar_approval_id r));
                          ("status", JStr action)]) st with
              | (st, Raise c m) => (st, Raise c m)
              | (st, Ok result) => (st, Ok (negb (apr_deduplicated result)))
              end
          end
      end
  end.

Fixpoint sla_loop (su : nat → Supply) (current : Z) (records : list ApprovalRecord) (processed : Z)
    (st : EventStore * P) : EventStore * P * res Z :=
  match records with
  | [] => (st, Ok processed)
  | r :: records =>
      match process_sla (su (length records)) current r st with
      | (st, Raise c m) => (st, Raise c m)
      | (st, Ok b) => sla_loop su current records (if (b : bool) then processed + 1 else processed) st
      end
  end.

Definition process_due_approval_slas (su : nat → Supply) (current limit : Z) (st : EventStore * P)
    : EventStore * P * res Z :=
  match svc_approvals svc with
  | None => (st, Ok 0)
  | Some reader => sla_loop su current (avr_list_due reader current limit) 0 st
  end.

(** [get_task], over the task reader [get] *)
Definition service_get_task (get : string → string → option payload) (tenant_id session_id : string)
    : res payload :=
  match get tenant_id session_id with
  | Some task => Ok task
  | None => Raise NotFoundError ("Session not found: " +:+ session_id)
  end.

(** ** What the handlers have in common *)

(** The keys of a payload that [apply] reads. *)
Definition apply_keys : list string :=
  ["approval"; "goal"; "root_session_id"; "parent_session_id"; "role"; "dept_id"; "skill_names";
   "dependency_ids"; "output_contract"; "run_id"; "artifact_refs"; "result_summary"; "result_ref";
   "owner"; "summary"; "decision"; "target_result_ref"].

Lemma apply_reads ty p p' a :
  (∀ k, k ∈ apply_keys → dget k p' = dget k p) → apply ty p' a = apply ty p a.
Proof.
  intros Hk.
  assert (∀ k, str_in k apply_keys = true → pget k p' = pget k p ∧ pgetn k p' = pgetn k p
            ∧ ∀ v, pgetd k v p' = pgetd k v p) as Hs.
  { intros k Hin%str_in_spec. unfold pget, pgetn, pgetd. by rewrite !(Hk k Hin). }
  unfold apply. assert (apply_approval ty p' a = apply_approval ty p a) as ->.
  { unfold apply_approval. by rewrite (Hk "approval") by (apply str_in_spec; reflexivity). }
  destruct (apply_approval ty p a) as [a1|]; [|done]. cbn [mbind res_bind].
  unfold apply_body, apply_session_created, apply_child_created, apply_run_requested,
    apply_run_completed.
  repeat match goal with
  | |- context [pget ?k p'] => rewrite (proj1 (Hs k eq_refl))
  | |- context [pgetn ?k p'] => rewrite (proj1 (proj2 (Hs k eq_refl)))
  | |- context [pgetd ?k _ p'] => rewrite (proj2 (proj2 (Hs k eq_refl)))
  end. done.
Qed.

(** [govern] writes budgets into the payloads, which [apply] does not read. *)
Definition same_effect (e e' : NewEvent) : Prop :=
  ne_type e' = ne_type e ∧ ∀ a, apply_new a e' = apply_new a e.

Lemma govern_same existing proposed sid root run governed :
  govern existing proposed sid root run = Ok governed → Forall2 same_effect proposed governed.
Proof.
  intros Hg%govern_from. eapply Forall2_impl; [exact Hg|]. intros e e' (Hty & _ & Hp & _). split; [done|].
  intros a. unfold apply_new. rewrite Hty. apply apply_reads. intros k Hk. apply Hp. intros ->.
  apply str_in_spec in Hk. revert Hk. unfold governed_key. by destruct (String.eqb _ _).
Qed.

Lemma foldM_same_effect ns ns' a :
  Forall2 same_effect ns ns' → foldM apply_new ns' a = foldM apply_new ns a.
Proof.
  intros Hs. revert a. induction Hs as [|e e' ns ns' [_ He] Hs IH]; intros a; [done|].
  cbn [foldM]. rewrite He. destruct (apply_new a e); [apply IH|done].
Qed.

(** ** Streams and snapshots *)

Lemma load_suffix s tid sid v :
  streams_ok (es_streams s) → 0 ≤ v →
  load s tid sid (v + 1) None None = drop (Z.to_nat v) (stream_of s (tid, sid)).
Proof.
  intros Hok Hv. pose proof (stream_of_ok s (tid, sid) Hok) as Hst. unfold load, limited, type_allowed.
  generalize (stream_of s (tid, sid)) Hst. clear s Hok Hst. intros l Hst.
  assert (∀ l n, (∀ i e, l !! i = Some e → ev_aggregate_version e = Z.of_nat i + 1 + Z.of_nat n) →
    filter (λ e, (v + 1 <=? ev_aggregate_version e) && true = true) l
    = drop (Z.to_nat v - n)%nat l) as Hgen.
  { clear l Hst. intros l. induction l as [|e l IH]; intros n Hl; [by rewrite drop_nil|].
    pose proof (Hl 0%nat e eq_refl) as He. rewrite filter_cons.
    assert (filter (λ e, (v + 1 <=? ev_aggregate_version e) && true = true) l
            = drop (Z.to_nat v - S n) l) as ->.
    { apply IH. intros i e' Hi. rewrite (Hl (S i) e' Hi). lia. }
    destruct (decide _) as [Hd|Hd]; rewrite andb_true_r in Hd.
    - bool_props. replace (Z.to_nat v - n)%nat with 0%nat by lia.
      replace (Z.to_nat v - S n)%nat with 0%nat by lia. done.
    - apply not_true_is_false in Hd. bool_props.
      replace (Z.to_nat v - n)%nat with (S (Z.to_nat v - S n)) by lia. done. }
  rewrite (Hgen l 0%nat); [by rewrite Nat.sub_0_r|]. intros i e Hi. destruct (Hst i e Hi) as [-> _]. lia.
Qed.

Lemma stream_contiguous k l v :
  stream_ok k l → contiguous (Z.of_nat v) (drop v l).
Proof.
  intros Hst. remember (drop v l) as l' eqn:Hl. revert v Hl.
  induction l' as [|e l' IH]; intros v Hl; cbn; [done|].
  assert (l !! v = Some e) as Hv.
  { rewrite <- (Nat.add_0_r v), <- lookup_drop, <- Hl. done. }
  split; [by apply Hst in Hv as [-> _]|]. replace (Z.of_nat v + 1) with (Z.of_nat (S v)) by lia. apply IH.
  rewrite (drop_S _ _ _ Hv) in Hl. congruence.
Qed.

(** Restoring a stream keeps its key and reaches its length. *)
Lemma foldM_restore_version es a a' :
  foldM restore_step es a = Ok a' → contiguous (sa_version a) es →
  sa_version a' = sa_version a + Z.of_nat (length es).
Proof.
  revert a. induction es as [|e es IH]; intros a Hf Hc; cbn [foldM contiguous length] in *.
  { inv_res. lia. }
  apply res_bind_Ok in Hf as (a1 & H1%restore_step_version & H2). destruct Hc as [Hv Hc].
  rewrite (IH a1 H2); [lia|]. by rewrite H1, Hv.
Qed.

Lemma from_events_stream k l a :
  stream_ok k l → from_events l = Ok a →
  ids a = k ∧ sa_version a = Z.of_nat (length l) ∧ sa_pending a = [] ∧ l ≠ [].
Proof.
  intros Hst Hf. destruct l as [|e l]; [done|]. rewrite from_events_unfold in Hf.
  destruct (Hst 0%nat e eq_refl) as (_ & Ht & Hs).
  pose proof (stream_contiguous _ _ 0%nat Hst) as Hc. cbn [drop] in Hc.
  split_and!; [| | |done].
  - rewrite (foldM_restore_ids _ _ _ Hf). unfold ids. cbn. rewrite Ht, Hs. by destruct k.
  - rewrite (foldM_restore_version _ _ _ Hf Hc). done.
  - by rewrite (foldM_restore_pending _ _ _ Hf).
Qed.

(** *** Snapshots *)

Lemma from_snapshot_ids st v a k :
  from_snapshot st v = Ok a → pget "session_id" st = Ok (JStr k.2) → pget "tenant_id" st = Ok (JStr k.1) →
  ids a = k ∧ sa_version a = v ∧ sa_pending a = [].
Proof.
  unfold from_snapshot. intros Ha Hs Ht. rewrite Hs, Ht in Ha. inv_res. by destruct k.
Qed.

Lemma snapshot_state_ids a st :
  snapshot_state a = Ok st →
  pget "session_id" st = Ok (JStr (ids a).2) ∧ pget "tenant_id" st = Ok (JStr (ids a).1).
Proof.
  unfold snapshot_state. destruct (sa_status a); [|done]. intros; inv_res. unfold pget. by dsimp.
Qed.

Lemma snapshot_state_frame v q a : snapshot_state (frame v q a) = snapshot_state a.
Proof. by destruct a. Qed.

(** A snapshot of [k] is that of a prefix of its stream. *)
Record snap_ok (s : EventStore) (k : stream_key) (n : SessionSnapshot) : Prop := {
  sk_version : 1 ≤ sn_aggregate_version n ≤ Z.of_nat (length (stream_of s k));
  sk_session : pget "session_id" (sn_state n) = Ok (JStr k.2);
  sk_tenant : pget "tenant_id" (sn_state n) = Ok (JStr k.1);
  sk_state : let pre := take (Z.to_nat (sn_aggregate_version n)) (stream_of s k) in
    root_stream pre → ∃ b, from_events pre = Ok b ∧ snapshot_state b = Ok (sn_state n);
}.

Definition snaps_ok (s : EventStore) : Prop :=
  ∀ k n, dget k (es_snapshots s) = Some n → snap_ok s k n.

Lemma snap_ok_extends s s' k n :
  stream_of s k `prefix_of` stream_of s' k → snap_ok s k n → snap_ok s' k n.
Proof.
  intros [l Hl] [H1 H2 H3 H4]. split; [rewrite Hl, length_app; lia|done|done|].
  rewrite Hl, take_app_le by lia. done.
Qed.

Lemma snaps_ok_extends s s' :
  (∀ k, stream_of s k `prefix_of` stream_of s' k) → es_snapshots s' = es_snapshots s →
  snaps_ok s → snaps_ok s'.
Proof. intros Hp Hs Hok k n Hn. rewrite Hs in Hn. eapply snap_ok_extends; [apply Hp|auto]. Qed.

Lemma root_stream_app pre post : pre ≠ [] → root_stream (pre ++ post) → root_stream pre.
Proof.
  destruct pre as [|e pre]; [done|]. cbn. intros _ (H1 & H2 & H3). apply Forall_app in H3 as [H3 _]. done.
Qed.

Lemma root_stream_take v l : (0 < v)%nat → root_stream l → root_stream (take v l).
Proof.
  intros Hv Hr. apply (root_stream_app _ (drop v l)); [|by rewrite take_drop].
  destruct l, v; [done|done|lia|done].
Qed.

(** Restoring from a snapshot is restoring from the stream, for a root Session. *)
Lemma load_root_stream s k n :
  streams_ok (es_streams s) → snap_ok s k n → root_stream (stream_of s k) →
  (session ← from_snapshot (sn_state n) (sn_aggregate_version n);
   replay (load s k.1 k.2 (sn_aggregate_version n + 1) None None) session)
  = from_events (stream_of s k).
Proof.
  intros Hst [Hv _ _ Hpre] Hroot. rewrite load_suffix by (done || lia).
  replace (stream_of s (k.1, k.2)) with (stream_of s k) by (by destruct k).
  set (v := sn_aggregate_version n) in *. cbv zeta in Hpre.
  assert (root_stream (take (Z.to_nat v) (stream_of s k))) as Hrpre by (apply root_stream_take; [lia|done]).
  destruct (Hpre Hrpre) as (b & Hb & Hsb).
  pose proof (stream_of_ok s k Hst) as Hsok.
  assert (stream_ok k (take (Z.to_nat v) (stream_of s k))) as Htok.
  { intros i e Hi. apply lookup_take_Some in Hi as [Hi _]. auto. }
  destruct (from_events_stream k _ b Htok Hb) as (_ & Hbv & _ & _). rewrite length_take in Hbv.
  assert (sa_version b = v) as Hbv' by lia.
  pose proof (stream_contiguous k _ (Z.to_nat v) Hsok) as Hc. rewrite Z2Nat.id in Hc by lia.
  transitivity (from_events (take (Z.to_nat v) (stream_of s k) ++ drop (Z.to_nat v) (stream_of s k)));
    [|by rewrite take_drop].
  rewrite (from_events_app _ _ _ Hb). rewrite <- Hbv' in Hc at 1. rewrite <- Hbv' at 1.
  refine (snapshot_then_replay _ _ _ _ Hb _ Hsb Hc). by eapply aligned_stable, root_stream_aligned.
Qed.

(** What loading gives on every stream. *)
Lemma load_session_ids s tid sid a :
  streams_ok (es_streams s) → snaps_ok s → load_session s tid sid = Ok a →
  ids a = (tid, sid) ∧ sa_version a = Z.of_nat (length (stream_of s (tid, sid))) ∧ sa_pending a = [].
Proof.
  intros Hst Hsn. pose proof (stream_of_ok s (tid, sid) Hst) as Hk. unfold load_session, get_snapshot.
  destruct (dget _ _) as [n|] eqn:En.
  - intros (b & Hb & Hr)%res_bind_Ok. destruct (Hsn _ _ En) as [Hv H1 H2 _].
    destruct (from_snapshot_ids _ _ _ _ Hb H1 H2) as (Hid & Hbv & Hp).
    rewrite load_suffix in Hr by (done || lia).
    pose proof (stream_contiguous _ _ (Z.to_nat (sn_aggregate_version n)) Hk) as Hc.
    rewrite Z2Nat.id in Hc by lia. rewrite <- Hbv in Hc at 1. rewrite replay_contiguous in Hr by done.
    split_and!.
    + by rewrite (foldM_restore_ids _ _ _ Hr).
    + rewrite (foldM_restore_version _ _ _ Hr Hc), length_drop, Hbv. lia.
    + by rewrite (foldM_restore_pending _ _ _ Hr).
  - change 1 with (0 + 1). rewrite load_suffix by (done || lia). rewrite drop_0.
    destruct (stream_of s (tid, sid)) as [|e l] eqn:El; [done|]. intros Hf.
    destruct (from_events_stream _ _ _ Hk Hf) as (? & ? & ? & _). done.
Qed.

(** ** Committing *)

(** Restoring a stream of [k], as one fold. *)
Lemma from_events_fold k l :
  stream_ok k l → l ≠ [] → from_events l = foldM restore_step l (empty_session k.2 k.1).
Proof.
  intros Hst Hne. destruct l as [|e l]; [done|]. rewrite from_events_unfold.
  destruct (Hst 0%nat e eq_refl) as (_ & -> & ->). done.
Qed.

(** [a] was loaded from the first events of the stream of [k] (or is new). *)
Record based (s : EventStore) (k : stream_key) (a : SessionAggregate) : Prop := {
  bs_ids : ids a = k;
  bs_pending : sa_pending a = [];
  bs_version : 0 ≤ sa_version a ≤ Z.of_nat (length (stream_of s k));
  bs_state : let pre := take (Z.to_nat (sa_version a)) (stream_of s k) in
    sa_version a = 0 ∨ root_stream pre →
    foldM restore_step pre (empty_session k.2 k.1) = Ok a;
}.

(** The prepared session is what its queued events make of such an aggregate. *)
Definition loaded (s : EventStore) (k : stream_key) (p : Prepared) : Prop :=
  ids (pr_session p) = k ∧ ∃ a, based s k a ∧ tracks a (pr_session p).

Lemma based_extends s s' k a :
  stream_of s k `prefix_of` stream_of s' k → based s k a → based s' k a.
Proof.
  intros [l Hl] [H1 H2 H3 H4]. split; [done|done|rewrite Hl, length_app; lia|].
  rewrite Hl, take_app_le by lia. done.
Qed.

Lemma loaded_extends s s' k p :
  stream_of s k `prefix_of` stream_of s' k → loaded s k p → loaded s' k p.
Proof. intros Hp (Hi & a & Ha & Ht). split; [done|]. exists a. eauto using based_extends. Qed.

Lemma empty_based s k : based s k (empty_session k.2 k.1).
Proof. split; [by destruct k|done|cbn; lia|done]. Qed.

Lemma load_based s tid sid a :
  streams_ok (es_streams s) → snaps_ok s → load_session s tid sid = Ok a → based s (tid, sid) a.
Proof.
  intros Hst Hsn Ha. destruct (load_session_ids s tid sid a Hst Hsn Ha) as (Hid & Hv & Hp).
  split; [done|done|lia|]. cbv zeta. rewrite Hv, Nat2Z.id, take_ge by lia.
  intros Hr. pose proof (stream_of_ok s (tid, sid) Hst) as Hk.
  assert (root_stream (stream_of s (tid, sid))) as Hroot.
  { destruct Hr as [Hz|]; [|done]. exfalso. destruct (stream_of s (tid, sid)) eqn:El; [|done].
    unfold load_session, get_snapshot in Ha. destruct (dget _ _) as [n|] eqn:En.
    - destruct (Hsn _ _ En) as [Hvn _ _ _]. rewrite El in Hvn. cbn in Hvn. lia.
    - change 1 with (0 + 1) in Ha. rewrite load_suffix, El in Ha by (done || lia). done. }
  rewrite <- (from_events_fold _ _ Hk) by (intros E; by rewrite E in Hroot).
  unfold load_session, get_snapshot in Ha. destruct (dget _ _) as [n|] eqn:En.
  - rewrite <- Ha. symmetry. by apply (load_root_stream s (tid, sid)); [|apply Hsn|].
  - change 1 with (0 + 1) in Ha. rewrite load_suffix, drop_0 in Ha by (done || lia).
    by destruct (stream_of s (tid, sid)).
Qed.

Lemma store_events_stores su cx root sid run i v ns :
  Forall2 stores (store_events su cx root sid run i v ns) ns.
Proof.
  apply Forall2_same_length_lookup_2; [by unfold store_events; rewrite length_imap|].
  intros j e n He Hn. apply store_events_lookup in He as (_ & _ & _ & _ & _ & n' & Hn' & ? & ?).
  rewrite Hn in Hn'. by injection Hn' as ->.
Qed.

(** A fresh append stores the events, up to what [govern] writes into them. *)
Lemma append_fresh su root sid run cx events result s s' a :
  append su root sid run cx events result s = (s', Ok a) → apr_deduplicated a = false →
  let k := (cx_tenant_id cx, sid) in
  ∃ governed, Forall2 same_effect events governed
    ∧ apr_events a = store_events su cx root sid run 0 (cx_expected_version cx) governed
    ∧ cx_expected_version cx = Z.of_nat (length (stream_of s k))
    ∧ stream_of s' k = stream_of s k ++ apr_events a
    ∧ (∀ k', k' ≠ k → stream_of s' k' = stream_of s k')
    ∧ es_snapshots s' = es_snapshots s.
Proof.
  intros Ha Hd. pose proof (append_inv _ _ _ _ _ _ _ _ _ _ Ha) as Hi. cbv zeta in *.
  destruct Hi as [(previous & _ & _ & ->)|(Hc & Hv & governed & Hra & Hs)]; [done|].
  exists governed. assert (Forall2 same_effect events governed) as Hsame.
  { unfold append in Ha. rewrite Hc in Ha. destruct (negb _); [done|].
    destruct (govern _ _ _ _ _) as [g|] eqn:Eg; [|done]. apply govern_same in Eg.
    assert (a = mkAppendResult (store_events su cx root sid run 0 (cx_expected_version cx) g) result false)
      as Hra' by congruence.
    rewrite Hra in Hra'. injection Hra' as Heq.
    pose proof (store_events_stores su cx root sid run 0 (cx_expected_version cx) governed) as H1.
    pose proof (store_events_stores su cx root sid run 0 (cx_expected_version cx) g) as H2.
    rewrite <- Heq in H2. clear -Eg H1 H2. revert H1 H2.
    generalize (store_events su cx root sid run 0 (cx_expected_version cx) governed). intros es H1 H2.
    revert events governed Eg H1.
    induction H2 as [|e n es g [E1 E2] H2 IH]; intros events governed Eg H1.
    { inversion H1; subst. done. }
    inversion H1 as [|? n' ? g' [E3 E4] H1']; subst. inversion Eg as [|ev ? evs ? [E5 E6] Eg']; subst.
    constructor; [|by eapply IH]. split; [congruence|]. intros a0. rewrite <- E6. unfold apply_new. congruence. }
  subst a s'. cbn [apr_events]. split_and!; [done|done|done| | |done].
  - unfold stream_of at 1. cbn. by rewrite dget_dset_eq.
  - intros k' Hk'. unfold stream_of at 1. cbn. rewrite dget_dset_ne by done. apply stream_of_setdefault.
Qed.

(** The relay leaves everything but the outbox. *)
Definition outbox_only (s s' : EventStore) : Prop :=
  es_streams s' = es_streams s ∧ es_snapshots s' = es_snapshots s ∧ es_commands s' = es_commands s.

Lemma relay_record_store s p item :
  store_ok s →
  let st := (relay_record (S := EventStore) (P := P) (s, p) item).1 in
  store_ok st.1 ∧ outbox_only s st.1.
Proof.
  intros Hok. unfold relay_record. destruct (pw_project _ _) as [p' [u|c m]]; cbn.
  - split; [|done]. exact (op_keeps_ok s (OpPublished (it_outbox_id item)) Hok).
  - split; [|done]. exact (op_keeps_ok s (OpFailed (it_outbox_id item)) Hok).
Qed.

Lemma relay_once_store limit s p :
  store_ok s →
  let st := (relay_once (S := EventStore) (P := P) limit (s, p)).1 in
  store_ok st.1 ∧ outbox_only s st.1.
Proof.
  unfold relay_once. generalize (slice_to limit (src_pending (s, p).1)) 0. intros items.
  revert s p. induction items as [|item items IH]; intros s p n Hok; cbn [relay_loop]; [done|].
  pose proof (relay_record_store s p item Hok) as (Hok1 & H1 & H2 & H3).
  destruct (relay_record (s, p) item) as [[s1 p1] b]. cbn [fst] in *.
  destruct b; (edestruct (IH s1 p1) as (Hok2 & E1 & E2 & E3); [done|]);
    (split; [exact Hok2|]); (split_and!; [by rewrite E1|by rewrite E2|by rewrite E3]).
Qed.

Lemma last_event_version su cx root sid run v ns :
  match last (store_events su cx root sid run 0 v ns) with
  | Some e => ev_aggregate_version e
  | None => v
  end = v + Z.of_nat (length ns).
Proof.
  assert (length (store_events su cx root sid run 0 v ns) = length ns) as Hl
    by (unfold store_events; by rewrite length_imap).
  rewrite last_lookup, Hl. destruct ns as [|n ns]; [cbn; lia|]. cbn [length Nat.pred].
  destruct (lookup_lt_is_Some_2 (store_events su cx root sid run 0 v (n :: ns)) (length ns)) as [e He].
  { rewrite Hl. cbn. lia. }
  rewrite He. apply store_events_lookup in He as [-> _]. lia.
Qed.

Lemma last_version_last v es :
  last_version v es = match last es with Some e => ev_aggregate_version e | None => v end.
Proof.
  induction es as [|e es IH] using rev_ind; [done|]. unfold last_version in *.
  by rewrite fold_left_app, last_snoc.
Qed.

(** What a fresh append of a prepared session leaves on its stream. *)
Lemma committed_stream s s' k p su cx root r :
  store_ok s → loaded s k p → cx_tenant_id cx = k.1 →
  sa_version (pr_session p) = Z.of_nat (length (stream_of s k)) →
  append su root k.2 (pr_run_id p) cx (sa_pending (pr_session p)) (pr_response p) s = (s', Ok r) →
  apr_deduplicated r = false →
  let a := frame (Z.of_nat (length (stream_of s' k))) [] (pr_session p) in
  match last (apr_events r) with
  | Some e => pr_session p <| sa_pending := [] |> <| sa_version := ev_aggregate_version e |>
  | None => pr_session p <| sa_pending := [] |>
  end = a
  ∧ (root_stream (stream_of s' k) → from_events (stream_of s' k) = Ok a)
  ∧ (stream_of s' k = [] → snapshot_state a = Raise InvalidTransitionError
                             "cannot snapshot a Session that does not exist").
Proof.
  intros Hok (Hid & a0 & [Hi0 Hp0 Hv0 Hs0] & Ht0 & Htv) Hcx Hv Ha Hd.
  pose proof (append_fresh _ _ _ _ _ _ _ _ _ _ Ha Hd) as Hf. cbv zeta in *.
  replace (cx_tenant_id cx, k.2) with k in Hf by (rewrite Hcx; by destruct k).
  destruct Hf as (governed & Hsame & Hev & Hexp & Hstr & _ & _).
  pose proof (append_keeps_ok su root k.2 (pr_run_id p) cx (sa_pending (pr_session p)) (pr_response p) s Hok)
    as Hok'. rewrite Ha in Hok'. cbn [fst] in Hok'.
  assert (length (stream_of s' k) = length (stream_of s k) + length governed)%nat as Hlen.
  { rewrite Hstr, length_app, Hev. unfold store_events. by rewrite length_imap. }
  pose proof (last_event_version su cx root k.2 (pr_run_id p) (cx_expected_version cx) governed) as Hl.
  rewrite <- Hev in Hl.
  split_and!.
  - unfold frame. destruct (last (apr_events r)).
    + rewrite Hl, Hexp, Hlen, Nat2Z.inj_add. by destruct (pr_session p).
    + rewrite Hlen, Nat2Z.inj_add, <- Hexp, <- Hl, Hexp, <- Hv. by destruct (pr_session p).
  - intros Hroot. rewrite (from_events_fold k); [|apply stream_of_ok, Hok'|intros E; by rewrite E in Hroot].
    rewrite Hstr, foldM_app. rewrite <- Htv, Hv, Nat2Z.id, take_ge in Hs0 by lia.
    rewrite Hs0; [|]. 2:{ destruct (stream_of s k) eqn:El; [left; done|right].
      rewrite <- El in *. apply (root_stream_app _ (apr_events r)); [by rewrite El|by rewrite <- Hstr]. }
    cbn [mbind res_bind]. rewrite <- (frame_self a0), <- (frame_core _ _ a0).
    rewrite Hev, (restore_events _ _ _ _ _ (store_events_stores _ _ _ _ _ _ _ _)), (foldM_same_effect _ _ _ Hsame), Ht0.
    cbn [fmap res_fmap]. rewrite frame_core, Hp0, last_version_last, <- Hev.
    f_equal. f_equal. rewrite <- Hstr, Hlen, <- Htv, Hv, <- Hexp, Hl, Hexp. lia.
  - intros Hnil. rewrite snapshot_state_frame. rewrite Hnil in Hlen. cbn in Hlen.
    destruct (stream_of s k) eqn:El; [|cbn in Hlen; lia]. cbn in Hv.
    specialize (Hs0 (or_introl (eq_trans (eq_sym Htv) Hv))). rewrite take_nil in Hs0. cbn in Hs0.
    injection Hs0 as <-. destruct governed; [|cbn in Hlen; lia]. inversion Hsame as [E|]. rewrite <- E in Ht0.
    cbn in Ht0. injection Ht0 as Ht0. unfold snapshot_state.
    assert (sa_status (pr_session p) = None) as -> by (by destruct (pr_session p); cbn in *; simplify_eq).
    done.
Qed.

Record svc_ok (s : EventStore) : Prop := {
  sv_store : store_ok s;
  sv_snaps : snaps_ok s;
}.

Lemma outbox_only_ok s s' :
  svc_ok s → store_ok s' → outbox_only s s' → svc_ok s' ∧ ∀ k, stream_of s' k = stream_of s k.
Proof.
  intros [_ Hsn] Hok (H1 & H2 & _).
  assert (∀ k, stream_of s' k = stream_of s k) as Hst by (intros k; unfold stream_of; by rewrite H1).
  split; [|done]. split; [done|]. apply (snaps_ok_extends s); [|done|done]. intros k. by rewrite Hst.
Qed.

Lemma save_snapshot_ok s n :
  svc_ok s → snap_ok s (sn_tenant_id n, sn_session_id n) n → svc_ok (save_snapshot s n).
Proof.
  intros [Hok Hsn] Hn. split; [exact (op_keeps_ok s (OpSnapshot n) Hok)|].
  unfold save_snapshot. case_match; [|done].
  intros k m Hm. change (dget k (dset (sn_tenant_id n, sn_session_id n) n (es_snapshots s)) = Some m) in Hm.
  rewrite dget_dset in Hm. case_decide; [simplify_eq|apply Hsn in Hm];
    (eapply (snap_ok_extends s); [|done]; done).
Qed.

Lemma save_snapshot_stream s n k : stream_of (save_snapshot s n) k = stream_of s k.
Proof. unfold stream_of. by destruct (in_place_core s (OpSnapshot n) eq_refl) as (<- & _). Qed.

Lemma append_ok su root sid run cx events result s s' r :
  svc_ok s → append su root sid run cx events result s = (s', r) →
  svc_ok s' ∧ ∀ k, stream_of s k `prefix_of` stream_of s' k.
Proof.
  intros [Hok Hsn] Ha. pose proof (append_keeps_ok su root sid run cx events result s Hok) as Hok'.
  pose proof (run_op_extends s (OpAppend su root sid run cx events result)) as Hp. cbn [run_op] in Hp.
  rewrite Ha in *. cbn [fst] in *. split; [|done]. split; [done|].
  apply (snaps_ok_extends s); [done| |done]. apply append_inv in Ha. destruct r as [a|c m].
  - destruct Ha as [(previous & _ & -> & _)|(_ & _ & governed & -> & ->)]; done.
  - by destruct Ha as [->| ->].
Qed.

(** [commit] keeps the snapshots honest and its session is what the stream restores. *)
Lemma commit_keeps su cx p s v k st r :
  svc_ok s → loaded s k p → cx_tenant_id cx = k.1 →
  cx_expected_version cx = sa_version (pr_session p)
    ∨ sa_version (pr_session p) = Z.of_nat (length (stream_of s k)) →
  commit su cx p (s, v) = (st, r) →
  svc_ok st.1 ∧ (∀ k, stream_of s k `prefix_of` stream_of st.1 k)
  ∧ ∀ result, r = Ok result → apr_deduplicated result = false → root_stream (stream_of st.1 k) →
      from_events (stream_of st.1 k)
      = Ok (frame (Z.of_nat (length (stream_of st.1 k))) [] (pr_session p)).
Proof.
  intros Hok Hl Hcx Hv Hc. unfold commit in Hc. cbn [release_pending_events fst snd] in Hc.
  destruct (append _ _ _ _ _ _ _ _) as [s1 [result|c m]] eqn:Ea;
    pose proof (append_ok _ _ _ _ _ _ _ _ _ _ Hok Ea) as [Hok1 Hp1].
  2:{ simplify_eq. cbn. split_and!; [done|done|]. by intros. }
  destruct (apr_deduplicated result) eqn:Ed; unfold after_append in Hc; rewrite Ed in Hc.
  { simplify_eq. cbn. split_and!; [done|done|]. intros ? [= <-]. congruence. }
  pose proof Hl as (Hid & _).
  change (sa_root_session_id (pr_session p <| sa_pending := [] |>)) with (sa_root_session_id (pr_session p)) in Ea.
  change (sa_session_id (pr_session p <| sa_pending := [] |>)) with (ids (pr_session p)).2 in Ea.
  rewrite Hid in Ea.
  assert (sa_version (pr_session p) = Z.of_nat (length (stream_of s k))) as Hver.
  { destruct Hv as [Hv|]; [|done]. rewrite <- Hv.
    apply append_fresh in Ea as (_ & _ & _ & Hexp & _); [|done]. rewrite Hexp, Hcx. by destruct k. }
  destruct (committed_stream _ _ _ _ _ _ _ _ (sv_store _ Hok) Hl Hcx Hver Ea Ed) as (Hses & Hfrom & Hnil).
  cbv zeta in *. rewrite Hses in Hc.
  remember (frame (Z.of_nat (length (stream_of s1 k))) [] (pr_session p)) as a eqn:Ha.
  destruct (snapshot_state a) as [state|c m] eqn:Es.
  2:{ simplify_eq. cbn. split_and!; [done|done|]. by intros. }
  assert (ids a = k) as Hida by (by rewrite Ha, <- Hid).
  assert (sa_version a = Z.of_nat (length (stream_of s1 k))) as Hva by (by rewrite Ha).
  assert (svc_ok (save_snapshot s1 (mkSnapshot (sa_tenant_id a) (sa_session_id a) (sa_version a) 1 state))) as Hok2.
  { apply save_snapshot_ok; [done|].
    change (snap_ok s1 (ids a) (mkSnapshot (sa_tenant_id a) (sa_session_id a) (sa_version a) 1 state)).
    rewrite Hida.
    pose proof (snapshot_state_ids _ _ Es) as Hi. rewrite Hida in Hi. destruct Hi as [Hi1 Hi2].
    split; cbn; [|done|done|].
    - rewrite Hva. destruct (stream_of s1 k) eqn:E1; [by specialize (Hnil eq_refl)|cbn; lia].
    - rewrite Hva, Nat2Z.id, take_ge by lia. intros Hroot. exists a. split; [by apply Hfrom|done]. }
  cbn [fst snd] in Hc. pose proof (relay_once_store 100 _ v (sv_store _ Hok2)) as [Hok3 Hout].
  destruct (relay_once _ _) as [st' n] eqn:Er. cbn [fst] in *. simplify_eq.
  destruct (outbox_only_ok _ _ Hok2 Hok3 Hout) as [Hok4 Hst].
  assert (∀ k, stream_of st.1 k = stream_of s1 k) as Hst1.
  { intros k'. rewrite Hst. apply save_snapshot_stream. }
  split_and!; [done| |].
  - intros k'. rewrite Hst1. apply Hp1.
  - intros ? _ _ Hroot. rewrite Hst1 in *. by apply Hfrom.
Qed.

(** What an accepted new commit leaves on the stream. *)
Lemma commit_fresh su cx p s v st result :
  store_ok s → commit su cx p (s, v) = (st, Ok result) → apr_deduplicated result = false →
  let k := (cx_tenant_id cx, sa_session_id (pr_session p)) in
  stream_of st.1 k = stream_of s k ++ apr_events result
  ∧ cx_expected_version cx = Z.of_nat (length (stream_of s k)).
Proof.
  intros Hok Hc Hd. unfold commit in Hc. cbn [release_pending_events fst snd] in Hc.
  destruct (append _ _ _ _ _ _ _ _) as [s1 [r|c m]] eqn:Ea; [|done].
  destruct (after_append _ _ _) as [st1 [u|]] eqn:Eaf; [|done]. simplify_eq.
  pose proof (append_fresh _ _ _ _ _ _ _ _ _ _ Ea Hd) as (governed & _ & _ & Hexp & Hst & _).
  change (sa_session_id (pr_session p <| sa_pending := [] |>)) with (sa_session_id (pr_session p)) in *.
  cbv zeta. split; [|done]. rewrite <- Hst. unfold after_append in Eaf. rewrite Hd in Eaf.
  destruct (snapshot_state _) as [state|]; [|done]. cbn [fst snd] in Eaf.
  match goal with H : ((relay_once 100 (save_snapshot ?s1 ?n, ?w)).1, _) = _ |- _ =>
    assert (store_ok (save_snapshot s1 n)) as Hok2;
    [|pose proof (relay_once_store 100 _ w Hok2) as [_ (Hs & _)]; injection H as H _; rewrite H in Hs] end.
  { match goal with |- store_ok (save_snapshot ?s1 ?n) => apply (op_keeps_ok s1 (OpSnapshot n)) end.
    pose proof (append_keeps_ok su (sa_root_session_id (pr_session p)) (sa_session_id (pr_session p))
      (pr_run_id p) cx (sa_pending (pr_session p)) (pr_response p) s Hok) as Hk.
    change (append su _ _ _ _ _ _ _) with
      (append su (sa_root_session_id (pr_session p)) (sa_session_id (pr_session p)) (pr_run_id p) cx
         (sa_pending (pr_session p)) (pr_response p) s) in Ea. by rewrite Ea in Hk. }
  unfold stream_of at 1. rewrite Hs. apply save_snapshot_stream.
Qed.

(** ** Requests *)

Inductive TaskRequest :=
  | ReqCreate (uuid_session uuid_run : string) (now : nat → Z) (c : CreateTask)
  | ReqMessage (session_id message : string)
  | ReqRun (uuid : string) (now : nat → Z) (session_id : string) (mode : option ApprovalMode)
      (read_refresh : option (list payload))
  | ReqCancel (session_id reason : string)
  | ReqClose (session_id reason : string)
  | ReqResume (uuid session_id : string)
  | ReqRespond (now : Z) (session_id approval_id decision : string) (feedback : option string)
  | ReqDelegate (session_id approval_id to_approver reason : string)
  | ReqEscalate (session_id approval_id : string) (approvers : list string) (reason : string).

Definition serve (su : Supply) (cx : CommandContext) (req : TaskRequest) (st : EventStore * P)
    : EventStore * P * res payload :=
  match req with
  | ReqCreate us ur now c => create_task su us ur now c cx st
  | ReqMessage sid m => task_append_message su sid m cx st
  | ReqRun uuid now sid mode refresh => request_run_task su uuid now sid mode refresh cx st
  | ReqCancel sid reason => cancel_task su sid reason cx st
  | ReqClose sid reason => close_session su sid reason cx st
  | ReqResume uuid sid => resume_task su uuid sid cx st
  | ReqRespond now sid id decision feedback => record_approval_response su now sid id decision feedback cx st
  | ReqDelegate sid id to reason => task_delegate_approval su sid id to reason cx st
  | ReqEscalate sid id approvers reason => task_escalate_approval su sid id approvers reason cx st
  end.

(** What a request has prepared when it reaches its append. *)
Definition prepares (s : EventStore) (cx : CommandContext) (req : TaskRequest) (p : Prepared) : Prop :=
  match req with
  | ReqCreate us ur now c => create_prepare us ur now c cx = Ok p
  | ReqMessage sid m => append_message_prepare s sid m cx = Ok p
  | ReqRun uuid now sid mode refresh => request_run_prepare s uuid now sid mode refresh cx = Ok (inr p)
  | ReqCancel sid reason => cancel_prepare s sid reason cx = Ok p
  | ReqClose sid reason => close_prepare s sid reason cx = Ok p
  | ReqResume uuid sid => resume_prepare s uuid sid cx = Ok p
  | ReqRespond now sid id decision feedback =>
      ∃ r, respond_prepare s now (all_events s cx sid) sid id decision feedback cx = Ok r
           ∧ rs_append r = Some p
  | ReqDelegate sid id to reason => delegate_prepare s sid id to reason cx = Ok (inr p)
  | ReqEscalate sid id approvers reason => escalate_prepare s sid id approvers reason cx = Ok (inr p)
  end.

(** The new Session of a [ReqCreate], the addressed one of the others. *)
Definition request_session (req : TaskRequest) : string :=
  match req with
  | ReqCreate us _ _ _ => "ses_" +:+ us
  | ReqMessage sid _ | ReqRun _ _ sid _ _ | ReqCancel sid _ | ReqClose sid _ | ReqResume _ sid
  | ReqRespond _ sid _ _ _ | ReqDelegate sid _ _ _ | ReqEscalate sid _ _ _ => sid
  end.

Definition is_create (req : TaskRequest) : bool := match req with ReqCreate _ _ _ _ => true | _ => false end.

(** A handler changes the store by one commit of what it prepared, or not at all. *)
Lemma serve_commits su cx req st :
  (serve su cx req st).1 = st
  ∨ ∃ p, prepares st.1 cx req p ∧ (serve su cx req st).1 = (commit su cx p st).1.
Proof.
  assert (∀ p, (run_prepared su cx (Ok p) st).1 = (commit su cx p st).1) as Hrun.
  { intros p. unfold run_prepared. by destruct (commit su cx p st) as [? []]. }
  destruct req; cbn [serve prepares];
    unfold create_task, task_append_message, request_run_task, cancel_task, close_session, resume_task,
      task_delegate_approval, task_escalate_approval, publicly, run_reading.
  1,2,4,5,6: match goal with |- context [run_prepared _ _ ?r _] => destruct r as [p|c' m'] eqn:E end;
    [right; exists p; split; [done|apply Hrun]|by left].
  - destruct (request_run_prepare _ _ _ _ _ _ _) as [[]|] eqn:E; [by left|right|by left].
    eexists. split; [done|apply Hrun].
  - unfold record_approval_response. destruct (first_event _ _); [by left|].
    destruct (respond_prepare _ _ _ _ _ _ _ _) as [r|] eqn:E; [|by left].
    assert (∀ out, (notify_response cx feedback r out).1 = out.1) as Hn.
    { intros [st' [a|]]; cbn; [|done]. repeat case_match; done. }
    rewrite Hn. destruct (rs_append r) as [p|] eqn:Er; [|by left]. right. exists p. split; [by exists r|apply Hrun].
  - destruct (delegate_prepare _ _ _ _ _ _) as [[]|] eqn:E; [by left|right|by left].
    eexists. split; [done|apply Hrun].
  - destruct (escalate_prepare _ _ _ _ _ _) as [[]|] eqn:E; [by left|right|by left].
    eexists. split; [done|apply Hrun].
Qed.

(** What a handler prepared comes from one command on the loaded (or a new) Session. *)
Lemma prepares_command s cx req p :
  prepares s cx req p →
  ∃ a c, (if is_create req then a = empty_session (request_session req) (cx_tenant_id cx)
          else load_session s (cx_tenant_id cx) (request_session req) = Ok a)
    ∧ run_command c a = Ok (pr_session p).
Proof.
  destruct req; cbn [prepares is_create request_session].
  - unfold create_prepare. intros; inv_res. eexists _, (CmdCreate _). split; [done|]. eassumption.
  - unfold append_message_prepare. intros; inv_res. eexists _, (CmdAppendMessage _). split; eassumption.
  - unfold request_run_prepare. destruct (list_find _ _) as [[]|]; [intros; by inv_res|].
    intros; inv_res. eexists _, (CmdRequestRun _). split; [eassumption|]. simplify_eq. eassumption.
  - unfold cancel_prepare. intros; inv_res. eexists _, (CmdCancel _). split; eassumption.
  - unfold close_prepare. intros; inv_res. eexists _, (CmdClose _). split; eassumption.
  - unfold resume_prepare. intros; inv_res. eexists _, (CmdResume _). split; eassumption.
  - intros (r & Hr & Hp). unfold respond_prepare in Hr. inv_res. case_match; [by simplify_eq|].
    match goal with H : _ ≫= _ = Ok r |- _ => apply res_bind_Ok in H as ([decided terminal] & _ & Hr) end.
    inv_res. cbn in Hp. simplify_eq.
    eexists _, (CmdRespond _ _ _ _ _). split; eassumption.
  - unfold delegate_prepare. destruct (first_event _ _).
    { intros Hr. case_match; [done|]. by inv_res. }
    intros; split_guards. simplify_eq. eexists _, (CmdDelegate _ _ _ _ _). split; eassumption.
  - unfold escalate_prepare, reused. destruct (first_event _ _).
    { intros Hr. split_guards. simplify_eq. }
    intros; split_guards. simplify_eq. eexists _, (CmdEscalate _ _ _ _ _ _). split; eassumption.
Qed.

(** ** Histories of the service *)

(** A command loads the Session, computes, and commits later: everything else may
    happen in between.  A command is well behaved when it appends under the version
    it loaded. *)
Definition foreign (op : StoreOp) : Prop := match op with OpSnapshot _ => False | _ => True end.

Notation svc_state := (EventStore * P * list (CommandContext * Prepared))%type.

Inductive svc_step : svc_state → svc_state → Prop :=
  | step_load st jobs cx sid a cs a' run response :
      load_session st.1 (cx_tenant_id cx) sid = Ok a → run_commands cs a = Ok a' →
      cx_expected_version cx = sa_version a →
      svc_step (st, jobs) (st, (cx, mkPrepared a' run response) :: jobs)
  | step_commit st jobs1 cx p jobs2 su :
      svc_step (st, jobs1 ++ (cx, p) :: jobs2) ((commit su cx p st).1, jobs1 ++ jobs2)
  | step_serve st jobs su cx req :
      (is_create req = true → cx_expected_version cx = 0) →
      svc_step (st, jobs) ((serve su cx req st).1, jobs)
  | step_slas st jobs su current limit :
      svc_step (st, jobs) ((process_due_approval_slas su current limit st).1, jobs)
  | step_other st jobs op : foreign op → svc_step (st, jobs) ((run_op st.1 op, st.2), jobs).

Definition job_ok (s : EventStore) (job : CommandContext * Prepared) : Prop :=
  ∃ k, loaded s k job.2 ∧ cx_tenant_id job.1 = k.1
       ∧ cx_expected_version job.1 = sa_version (pr_session job.2).

Record svc_inv (x : svc_state) : Prop := {
  si_ok : svc_ok x.1.1;
  si_jobs : Forall (job_ok x.1.1) x.2;
}.

Lemma command_loaded s k a cs a' run response :
  based s k a → run_commands cs a = Ok a' → loaded s k (mkPrepared a' run response).
Proof.
  intros Hb Hc. pose proof (run_commands_tracks _ _ _ (bs_pending _ _ _ Hb) Hc) as Ht.
  split; [|by exists a]. cbn. rewrite <- (bs_ids _ _ _ Hb). destruct Ht as [Hf _].
  change (ids (core a') = ids (core a)).
  eapply (foldM_inv (λ x, ids x = ids (core a)) apply_new); [|done|exact Hf].
  intros x e x' _ <- He. by eapply apply_ids.
Qed.

Lemma prepares_loaded s cx req p :
  svc_ok s → (is_create req = true → cx_expected_version cx = 0) → prepares s cx req p →
  let k := (cx_tenant_id cx, request_session req) in
  loaded s k p ∧ (cx_expected_version cx = sa_version (pr_session p)
                  ∨ sa_version (pr_session p) = Z.of_nat (length (stream_of s k))).
Proof.
  intros [Hok Hsn] Hcr (a & c & Ha & Hc)%prepares_command. cbv zeta.
  set (k := (cx_tenant_id cx, request_session req)).
  assert (run_commands [c] a = Ok (pr_session p)) as Hcs by (unfold run_commands; cbn; by rewrite Hc).
  assert (based s k a) as Hb.
  { destruct (is_create req); [subst; apply (empty_based s k)|].
    apply load_based; [apply Hok|done|done]. }
  assert (loaded s k p) as Hl.
  { destruct p as [a' run response]. by eapply command_loaded. }
  split; [done|]. pose proof (run_commands_tracks _ _ _ (bs_pending _ _ _ Hb) Hcs) as [_ Hv].
  rewrite Hv. destruct (is_create req).
  - left. subst. cbn. auto.
  - right. by apply load_session_ids in Ha as (_ & ? & _); [|apply Hok|].
Qed.

Lemma serve_keeps su cx req st :
  svc_ok st.1 → (is_create req = true → cx_expected_version cx = 0) →
  svc_ok (serve su cx req st).1.1
  ∧ ∀ k, stream_of st.1 k `prefix_of` stream_of (serve su cx req st).1.1 k.
Proof.
  intros Hok Hcr. destruct (serve_commits su cx req st) as [->|(p & Hp & ->)]; [done|].
  destruct (prepares_loaded _ _ _ _ Hok Hcr Hp) as [Hl Hv].
  destruct st as [s v], (commit su cx p (s, v)) as [st' r] eqn:Ec.
  destruct (commit_keeps _ _ _ _ _ _ _ _ Hok Hl eq_refl Hv Ec) as (? & ? & _). done.
Qed.

Lemma process_sla_keeps su current r st :
  svc_ok st.1 →
  svc_ok (process_sla su current r st).1.1
  ∧ ∀ k, stream_of st.1 k `prefix_of` stream_of (process_sla su current r st).1.1 k.
Proof.
  intros Hok. unfold process_sla. destruct (load_session _ _ _) as [a|] eqn:Ea; [|done].
  destruct (negb _); [done|]. destruct (sla_action current r) as [[[action due] c]|]; [|done].
  destruct (run_command c a) as [a'|] eqn:Ec; [|done].
  destruct st as [s v]. cbn [fst] in *.
  assert (run_commands [c] a = Ok a') as Hcs by (unfold run_commands; cbn; by rewrite Ec).
  assert (based s (ar_tenant_id r, ar_session_id r) a) as Hb.
  { apply load_based; [apply Hok|apply Hok|done]. }
  match goal with |- context [commit _ ?cx ?p _] =>
    assert (loaded s (ar_tenant_id r, ar_session_id r) p) as Hl by (by eapply command_loaded);
    destruct (commit su cx p (s, v)) as [st' res] eqn:Eco;
    destruct (commit_keeps su cx p s v _ st' res Hok Hl eq_refl (or_introl eq_refl) Eco) as (? & ? & _) end.
  by destruct res.
Qed.

Lemma sla_loop_keeps su current records n st :
  svc_ok st.1 →
  svc_ok (sla_loop su current records n st).1.1
  ∧ ∀ k, stream_of st.1 k `prefix_of` stream_of (sla_loop su current records n st).1.1 k.
Proof.
  revert n st. induction records as [|r records IH]; intros n st Hok; cbn [sla_loop]; [done|].
  pose proof (process_sla_keeps (su (length records)) current r st Hok) as [H1 H2].
  destruct (process_sla _ _ _ _) as [st' [b|]]; cbn [fst] in *; [|done].
  destruct (IH (if b then n + 1 else n) st' H1) as [H3 H4]. split; [exact H3|].
  intros k. etrans; [apply H2|apply H4].
Qed.

Lemma foreign_keeps s op :
  svc_ok s → foreign op → svc_ok (run_op s op) ∧ ∀ k, stream_of s k `prefix_of` stream_of (run_op s op) k.
Proof.
  intros [Hok Hsn] Hf. split; [|apply run_op_extends]. split; [by apply op_keeps_ok|].
  apply (snaps_ok_extends s); [apply run_op_extends| |done].
  destruct op as [su root sid run cx events result|su root cx appends result|n|id|id|d w limit ttl now uuid
    |d w id token disp now|d eid]; cbn [run_op]; try done.
  - destruct (append _ _ _ _ _ _ _ _) as [s' r] eqn:Ea. apply append_inv in Ea. cbn.
    destruct r as [a|]; [destruct Ea as [(? & _ & -> & _)|(_ & _ & governed & -> & ->)]; done|].
    by destruct Ea as [->| ->].
  - destruct (append_batch _ _ _ _ _ _) as [s' r] eqn:Ea. cbn.
    unfold append_batch in Ea. repeat case_match; by simplify_eq.
  - unfold claim_outbox_once. by destruct (claim_loop _ _ _ _ _ _ _ _ _).
  - unfold disposition_outbox. repeat case_match; done.
  - unfold redrive_outbox. repeat case_match; done.
Qed.

Lemma jobs_extend s s' jobs :
  (∀ k, stream_of s k `prefix_of` stream_of s' k) → Forall (job_ok s) jobs → Forall (job_ok s') jobs.
Proof.
  intros Hp Hj. eapply Forall_impl; [exact Hj|]. intros job (k & Hl & ? & ?). exists k.
  split; [|done]. eapply loaded_extends; [apply Hp|done].
Qed.

Lemma svc_step_inv x y : svc_inv x → svc_step x y → svc_inv y.
Proof.
  intros [Hok Hj] Hs. destruct Hs as [st jobs cx sid a cs a' run response Hl Hc Hv|st jobs1 cx p jobs2 su
    |st jobs su cx req Hcr|st jobs su current limit|st jobs op Hf]; cbn [fst snd] in *.
  - split; [done|]. constructor; [|done]. exists (cx_tenant_id cx, sid). cbn.
    pose proof (load_based _ _ _ _ (so_streams _ (sv_store _ Hok)) (sv_snaps _ Hok) Hl) as Hb.
    split_and!; [by eapply command_loaded|done|].
    pose proof (run_commands_tracks _ _ _ (bs_pending _ _ _ Hb) Hc) as [_ ->]. done.
  - apply Forall_app in Hj as [Hj1 Hj2]. apply Forall_cons in Hj2 as [(k & Hl & Hcx & Hv) Hj2].
    destruct st as [s v], (commit su cx p (s, v)) as [st' r] eqn:Ec.
    destruct (commit_keeps _ _ _ _ _ _ _ _ Hok Hl Hcx (or_introl Hv) Ec) as (? & ? & _).
    split; [done|]. cbn. eapply jobs_extend; [done|]. by apply Forall_app.
  - destruct (serve_keeps su cx req st Hok Hcr). split; [done|]. by eapply jobs_extend.
  - assert (svc_ok (process_due_approval_slas su current limit st).1.1
      ∧ ∀ k, stream_of st.1 k `prefix_of` stream_of (process_due_approval_slas su current limit st).1.1 k)
      as [? ?]; [|split; [done|]; by eapply jobs_extend].
    unfold process_due_approval_slas. destruct (svc_approvals svc); [|done]. by apply sla_loop_keeps.
  - destruct (foreign_keeps st.1 op Hok Hf). split; [done|]. by eapply jobs_extend.
Qed.

Lemma svc_reachable v x : rtc svc_step (empty_store, v, []) x → svc_inv x.
Proof.
  assert (svc_inv (empty_store, v, [])) as Hinit.
  { split; [|constructor]. split; [apply empty_ok|]. by intros k n. }
  revert Hinit. generalize (empty_store, v, [] : list (CommandContext * Prepared)). intros y Hinit.
  induction 1; eauto using svc_step_inv.
Qed.

(** Loading is replaying: in every history of commands (interleaved between
    their load and their commit), deadline passes and store operations of other
    components, loading a root Session through its snapshot gives exactly what its
    whole stream restores to. *)
Theorem load_is_replay v st jobs tid sid :
  rtc svc_step (empty_store, v, []) (st, jobs) →
  root_stream (stream_of st.1 (tid, sid)) →
  load_session st.1 tid sid = from_events (stream_of st.1 (tid, sid)).
Proof.
  intros Hr Hroot. apply svc_reachable in Hr as [[Hok Hsn] _]. cbn [fst] in *.
  unfold load_session, get_snapshot. destruct (dget _ _) as [n|] eqn:En.
  - by apply (load_root_stream st.1 (tid, sid)); [apply Hok|apply Hsn|].
  - change 1 with (0 + 1). rewrite load_suffix, drop_0 by (apply Hok || lia).
    by destruct (stream_of st.1 (tid, sid)).
Qed.

(** C5. Commands are linearised by their version: a command on a root Session that loaded it
    at the version its caller announced ([step_load]) and whose append is accepted as new,
    whatever happened in between, leaves a stream that restores to exactly the Session its
    command computed.  A caller that announces another version than the one that is loaded
    is outside of this: [stale_command_accepted]. *)
Theorem committed_session_is_stream v st jobs cx p su st' result :
  rtc svc_step (empty_store, v, []) (st, jobs) → (cx, p) ∈ jobs →
  commit su cx p st = (st', Ok result) → apr_deduplicated result = false →
  let k := ids (pr_session p) in
  root_stream (stream_of st'.1 k) →
  stream_of st'.1 k = stream_of st.1 k ++ apr_events result
  ∧ sa_version (pr_session p) = Z.of_nat (length (stream_of st.1 k))
  ∧ from_events (stream_of st'.1 k)
    = Ok (frame (Z.of_nat (length (stream_of st'.1 k))) [] (pr_session p)).
Proof.
  intros Hr Hin Hc Hd k Hroot. apply svc_reachable in Hr as [Hok Hj]. cbn [fst snd] in *.
  rewrite Forall_forall in Hj. destruct (Hj _ Hin) as (k' & Hl & Hcx & Hv). cbn [fst snd] in *.
  assert (k' = k) as -> by (symmetry; apply Hl).
  destruct st as [s w]. destruct (commit_keeps _ _ _ _ _ _ _ _ Hok Hl Hcx (or_introl Hv) Hc) as (_ & _ & Hres).
  destruct (commit_fresh _ _ _ _ _ _ _ (sv_store _ Hok) Hc Hd) as (Hst & Hexp).
  replace (cx_tenant_id cx, sa_session_id (pr_session p)) with k in * by (rewrite Hcx; done).
  split_and!; [done|by rewrite <- Hv|]. by eapply Hres.
Qed.


(** ** Refused requests *)

Lemma apply_exists ty p a a' : apply ty p a = Ok a' → sa_status a ≠ None → sa_status a' ≠ None.
Proof.
  unfold apply. intros (a1 & (E & _ & _)%apply_approval_status & Hb)%res_bind_Ok. rewrite <- E.
  unfold apply_body, apply_session_created, apply_child_created, apply_run_requested,
    apply_run_completed in Hb.
  repeat match goal with
  | H : (if String.eqb _ _ then _ else _) = Ok _ |- _ => case_match
  | H : (if str_in _ _ then _ else _) = Ok _ |- _ => case_match
  end; inv_res; repeat case_match; cbn in *; first [done|congruence].
Qed.

Lemma raise_event_exists e a a' : raise_event e a = Ok a' → sa_status a ≠ None → sa_status a' ≠ None.
Proof.
  unfold raise_event. intros (a1 & Ha & Hr)%res_bind_Ok Hs. inv_res. exact (apply_exists _ _ _ _ Ha Hs).
Qed.

Lemma require_existing_Ok a u : require_existing a = Ok u → sa_status a ≠ None.
Proof. unfold require_existing. by case_match. Qed.

Lemma created_exists p a a' :
  raise_event (user_event "session.created" p) a = Ok a' → sa_status a' ≠ None.
Proof.
  unfold raise_event, apply. intros; inv_res. cbn [ne_type ne_payload user_event] in *.
  match goal with H : apply_body _ _ _ = Ok _ |- _ => rename H into Hb end.
  unfold apply_body, apply_session_created in Hb. cbn [String.eqb Ascii.eqb Bool.eqb] in Hb. by inv_res.
Qed.

Lemma run_command_exists c a a' : run_command c a = Ok a' → sa_status a' ≠ None.
Proof.
  destruct c; simpl; unfold create, cancel, append_message, Session.request_run, close, resume,
    record_human_response, Session.delegate_approval, Session.escalate_approval, expire_approval,
    require_waiting; intros; split_guards;
  repeat match goal with
  | H : require_existing _ = Ok _ |- _ => apply require_existing_Ok in H
  | H : raise_event (user_event "session.created" _) _ = Ok _ |- _ => apply created_exists in H
  | H : (if _ then raise_event _ _ else _) = Ok _ |- _ => case_match; inv_res
  | H : raise_event _ ?a = Ok _, H' : sa_status ?a ≠ None |- _ => apply raise_event_exists in H; [|exact H']
  end; done.
Qed.

Lemma commit_refused su cx p st st' c m :
  sa_status (pr_session p) ≠ None → commit su cx p st = (st', Raise c m) →
  observed_same st.1 st'.1 ∧ st'.2 = st.2.
Proof.
  intros Hs Hc. unfold commit in Hc. cbn [release_pending_events] in Hc.
  destruct (append _ _ _ _ _ _ _ _) as [s1 [r|]] eqn:Ea; [|simplify_eq; by apply append_refused in Ea].
  exfalso. unfold after_append in Hc. destruct (apr_deduplicated r); [done|].
  assert (∀ v, is_ok (snapshot_state (pr_session p <| sa_pending := [] |> <| sa_version := v |>)) = true) as Hok.
  { intros v. unfold snapshot_state. cbn. by destruct (sa_status (pr_session p)). }
  destruct (last (apr_events r)) as [e|].
  - specialize (Hok (ev_aggregate_version e)). by destruct (snapshot_state _).
  - specialize (Hok (sa_version (pr_session p))).
    replace (pr_session p <| sa_pending := [] |> <| sa_version := sa_version (pr_session p) |>)
      with (pr_session p <| sa_pending := [] |>) in Hok by (by destruct (pr_session p)).
    by destruct (snapshot_state _).
Qed.

(** Answering a response can fail after its append only in the notifier. *)
Definition silent (req : TaskRequest) : Prop :=
  match req with ReqRespond _ _ _ _ _ => svc_notifier svc = None | _ => True end.

Lemma serve_refusal su cx req st st' c m :
  silent req → serve su cx req st = (st', Raise c m) →
  st' = st ∨ ∃ p, prepares st.1 cx req p ∧ commit su cx p st = (st', Raise c m).
Proof.
  assert (∀ p, run_prepared su cx (Ok p) st = (st', Raise c m) → commit su cx p st = (st', Raise c m)) as Hrun.
  { intros p. unfold run_prepared. destruct (commit su cx p st) as [? []]; intros; by simplify_eq. }
  intros Hsil. destruct req; cbn [serve prepares];
    unfold create_task, task_append_message, request_run_task, cancel_task, close_session, resume_task,
      task_delegate_approval, task_escalate_approval, run_reading.
  - unfold publicly. intros [= <- Hs].
    destruct (create_prepare _ _ _ _ _) as [p|] eqn:E; [|by left]. right. exists p. split; [done|].
    apply Hrun. destruct (run_prepared _ _ _ _) as [st1 [a|]]; cbn in *; by simplify_eq.
  - destruct (append_message_prepare _ _ _ _) as [p|] eqn:E; intros Hs; [right; eauto|left; by simplify_eq/=].
  - destruct (request_run_prepare _ _ _ _ _ _ _) as [[]|] eqn:E; intros Hs; simplify_eq; [|by left].
    right. eexists. split; [done|]. apply Hrun. unfold publicly in Hs.
    destruct (run_prepared _ _ _ _) as [st1 [a|]]; cbn in *; by simplify_eq.
  - destruct (cancel_prepare _ _ _ _) as [p|] eqn:E; intros Hs; [right; eauto|left; by simplify_eq/=].
  - destruct (close_prepare _ _ _ _) as [p|] eqn:E; intros Hs; [right; eauto|left; by simplify_eq/=].
  - destruct (resume_prepare _ _ _ _) as [p|] eqn:E; intros Hs; [right; eauto|left; by simplify_eq/=].
  - unfold record_approval_response. destruct (first_event _ _); [intros; left; by simplify_eq|].
    destruct (respond_prepare _ _ _ _ _ _ _ _) as [r|] eqn:E; [|intros; left; by simplify_eq].
    unfold notify_response. cbn in Hsil. rewrite Hsil. intros Hs. destruct (rs_append r) as [p|] eqn:Er.
    + right. exists p. split; [by exists r|]. apply Hrun.
      destruct (run_prepared _ _ _ _) as [st1 [a|]]; by simplify_eq.
    + done.
  - destruct (delegate_prepare _ _ _ _ _ _) as [[]|] eqn:E; intros Hs; simplify_eq; [right; eauto|by left].
  - destruct (escalate_prepare _ _ _ _ _ _) as [[]|] eqn:E; intros Hs; simplify_eq; [right; eauto|by left].
Qed.

(** A refused request changes nothing: when a handler raises, whatever the
    reason, the streams, the stored commands, the outbox, the snapshots and the read
    model are what they were (an approval response apart, when a notifier fails after
    the response was recorded). *)
Theorem refused_request_changes_nothing su cx req st st' c m :
  silent req → serve su cx req st = (st', Raise c m) →
  observed_same st.1 st'.1 ∧ st'.2 = st.2.
Proof.
  intros Hsil Hs. destruct (serve_refusal _ _ _ _ _ _ _ Hsil Hs) as [->|(p & Hp & Hc)]; [done|].
  apply prepares_command in Hp as (a & cmd & _ & Hr%run_command_exists). by eapply commit_refused.
Qed.
End service.

(** ** Witnesses *)

Module TaskServiceExamples.
#[local] Existing Instance strict_pydantic.
#[local] Existing Instance task_projection_writer.

Definition svc : TaskServiceConfig :=
  mkService (mkAdmissionController (λ _ _, Ok tt) None) None None (Some [("policy_version", JStr "2")]).
Definition su (tag : string) : Supply := mkSupply (λ i, tag +:+ pretty i) (λ i, Z.of_nat i).
Definition cx (cmd op : string) (expected : Z) : CommandContext :=
  mkContext cmd "t" (mkActor "user" "u") "corr" expected op None None.
Definition new_task : CreateTask := mkCreateTask "goal" "chat" None None None None None None.

Notation state := (EventStore * TaskProjection)%type.

Definition create_request : TaskRequest := ReqCreate "1" "1" (λ _, 0) new_task.
Definition st1 : state :=
  (serve svc (su "a") (cx "c1" "create" 0) create_request (empty_store, empty_projection)).1.

(** A cancellation loads the Session at version 2. *)
Definition cancelling (expected : Z) : CommandContext := cx "c2" "cancel" expected.
Definition loaded1 : SessionAggregate :=
  match load_session st1.1 "t" "ses_1" with Ok a => a | Raise _ _ => empty_session "ses_1" "t" end.
Definition cancelled1 : SessionAggregate :=
  match cancel "stop" loaded1 with Ok a => a | Raise _ _ => loaded1 end.
Definition job : Prepared := mkPrepared cancelled1 (Some "run_1") [].

(** Another task is created before the cancellation commits. *)
Definition st2 : state :=
  (serve svc (su "b") (cx "c3" "create" 0) (ReqCreate "2" "2" (λ _, 0) new_task) st1).1.
Notation committed := (commit (su "c") (cancelling 2) job st2).

Lemma loaded1_ok : load_session st1.1 "t" "ses_1" = Ok loaded1.
Proof. vm_compute. reflexivity. Qed.
Lemma cancelled1_ok : run_commands [CmdCancel "stop"] loaded1 = Ok cancelled1.
Proof. vm_compute. reflexivity. Qed.
Lemma version1 : 2 = sa_version loaded1.
Proof. vm_compute. reflexivity. Qed.

Lemma st2_reachable : rtc (svc_step svc) (empty_store, empty_projection, []) (st2, [(cancelling 2, job)]).
Proof.
  apply (rtc_l _ _ (st1, [])).
  { exact (step_serve svc (empty_store, empty_projection) [] (su "a") (cx "c1" "create" 0) create_request
             (λ _, eq_refl)). }
  apply (rtc_l _ _ (st1, [(cancelling 2, job)])).
  { exact (step_load svc st1 [] (cancelling 2) "ses_1" loaded1 [CmdCancel "stop"] cancelled1 (Some "run_1") []
             loaded1_ok cancelled1_ok version1). }
  apply rtc_once.
  exact (step_serve svc st1 [(cancelling 2, job)] (su "b") (cx "c3" "create" 0)
           (ReqCreate "2" "2" (λ _, 0) new_task) (λ _, eq_refl)).
Qed.

Lemma root_dec l :
  match l with
  | e :: l => String.eqb (ev_type e) "session.created"
              && String.eqb (py_str (pgetd "role" (JStr "root") (ev_payload e))) "root"
              && forallb (λ e, negb (str_in (ev_type e) child_only)) l
  | [] => false
  end = true → root_stream l.
Proof.
  destruct l as [|e l]; [done|]. intros H. bool_props. split_and!; [done|done|].
  apply Forall_forall. intros x Hx.
  match goal with H : forallb _ _ = true |- _ => rewrite forallb_forall in H;
    specialize (H x (proj1 (list_elem_of_In _ _) Hx)) end. by bool_props.
Qed.

Lemma load_is_replay_witness :
  load_session committed.1.1 "t" "ses_1" = from_events (stream_of committed.1.1 ("t", "ses_1"))
  ∧ is_ok (load_session committed.1.1 "t" "ses_1") = true.
Proof.
  split; [|vm_compute; reflexivity].
  apply (load_is_replay svc empty_projection committed.1 []).
  - apply (rtc_r _ (st2, [(cancelling 2, job)])); [exact st2_reachable|]. exact (step_commit svc st2 [] (cancelling 2) job [] (su "c")).
  - apply root_dec. vm_compute. reflexivity.
Defined.

Lemma job_ids : ids (pr_session job) = ("t", "ses_1").
Proof. vm_compute. reflexivity. Qed.
Lemma committed_fresh :
  match committed.2 with Ok a => negb (apr_deduplicated a) | Raise _ _ => false end = true.
Proof. vm_compute. reflexivity. Qed.
Lemma committed_root :
  root_stream (stream_of committed.1.1 ("t", "ses_1"))
  ∧ length (stream_of committed.1.1 ("t", "ses_1")) = 3%nat.
Proof. split; [apply root_dec|]; vm_compute; reflexivity. Qed.

Lemma committed_session_is_stream_witness :
  ∃ result, committed.2 = Ok result ∧
  from_events (stream_of committed.1.1 ("t", "ses_1")) = Ok (frame (Z.of_nat 3) [] (pr_session job)).
Proof.
  generalize committed_fresh committed_root. destruct committed as [st' r] eqn:E. cbn [fst snd].
  intros Hr [Hroot Hl]. destruct r as [result|]; [|discriminate Hr]. exists result. split; [reflexivity|].
  apply negb_true_iff in Hr. rewrite <- Hl, <- job_ids. rewrite <- job_ids in Hroot.
  apply (committed_session_is_stream svc empty_projection st2 [(cancelling 2, job)] (cancelling 2) job (su "c")
    st' result st2_reachable (list_elem_of_here _ _) E Hr Hroot).
Defined.

Lemma refused_request_changes_nothing_witness :
  ∃ st' m, serve svc (su "d") (cx "c4" "close" 2) (ReqClose "ses_1" "r") st1 = (st', Raise InvalidTransitionError m)
    ∧ observed_same st1.1 st'.1.
Proof.
  destruct (serve svc (su "d") (cx "c4" "close" 2) (ReqClose "ses_1" "r") st1) as [st' [a|c m]] eqn:E.
  - exfalso. assert (is_ok (serve svc (su "d") (cx "c4" "close" 2) (ReqClose "ses_1" "r") st1).2 = false) as H
      by (vm_compute; reflexivity). rewrite E in H. discriminate H.
  - exists st', m. assert (c = InvalidTransitionError) as ->.
    { assert (match (serve svc (su "d") (cx "c4" "close" 2) (ReqClose "ses_1" "r") st1).2 with
              | Raise c _ => c | Ok _ => PyValueError end = InvalidTransitionError) as H
        by (vm_compute; reflexivity). rewrite E in H. exact H. }
    split; [reflexivity|].
    apply (refused_request_changes_nothing svc (su "d") (cx "c4" "close" 2) (ReqClose "ses_1" "r") st1 st'
             InvalidTransitionError m I E).
Defined.

(** The version a command appends under is the caller's, not the one it loaded: a
    cancellation announced for version 3 loads version 2, the run completes, and the
    append is accepted on a Session whose guard refuses it; the snapshot it saves
    has lost the result. *)
Definition st3 : state :=
  (run_op st1.1 (OpAppend (su "r") "ses_1" "ses_1" (Some "run_1") (cx "c5" "runtime" 2)
     [mkNewEvent "run.completed" [("result_summary", JStr "done")] VUser] []), st1.2).
Definition raced : state * res AppendResult := commit (su "c") (cancelling 3) job st3.

Example stale_command_accepted :
  match raced with
  | (st, Ok result) =>
      negb (apr_deduplicated result)
      && match from_events (stream_of st3.1 ("t", "ses_1")) with
         | Ok a => negb (is_ok (cancel "stop" a)) | Raise _ _ => false end
      && match load_session st.1 "t" "ses_1", from_events (stream_of st.1 ("t", "ses_1")) with
         | Ok a, Ok b => is_none (sa_result_summary a) && is_lit (sa_result_summary b) "done"
         | _, _ => false
         end
  | _ => false
  end = true.
Proof. vm_compute. reflexivity. Qed.
End TaskServiceExamples.
