(* ===== verification/RunnableFeed.v ===== *)
(** * The runnable feed ([control/runnable_feed.py])

    The consumer that turns the [control] records of the outbox into entries of the
    run queue: a run that a user requested is queued from its record alone, anything
    else is derived from the Session's events; the Children of a root are derived
    from the task graph, and a waiting Coordinator is woken when what it waits for is
    over.  A record is acknowledged by a background task once it has been handled;
    the pending acknowledgements are part of the state.  Log lines and the polling
    wait of [claim_outbox] are left out. *)

From Stdlib Require Import SpecFloat.
From S2P Require Import Prelude PyValue DateTime Contracts Session Collaboration.
From S2P Require Import RuntimeBudget SkillExecution EventStore ControlStore.
Local Open Scope Z_scope.

Definition COLLABORATION_CONTROL_EVENTS : list string :=
  ["run.requested"; "dependency.changed"; "child.result_published"; "review.completed";
   "run.failed"; "run.cancelled"].
Definition APPROVAL_RESUME_EVENTS : list string :=
  ["approval.approved"; "approval.rejected"; "approval.expired"; "approval.cancelled"].

(** [projection/collaboration/projector.py] *)
Definition COLLABORATION_EVENTS : list string :=
  ["session.created"; "child.created"; "dependency.changed"; "child.delegated"; "session.handed_off";
   "run.requested"; "run.started"; "child.result_published"; "review.completed"; "join.completed";
   "run.completed"; "run.failed"; "run.cancelled"].

(** ** Deriving what is runnable *)

Definition default_budget : ControlStore.RuntimeBudget := mkRuntimeBudget 48 8192 None "1".

(** The budget a payload configures, if it is a dict. *)
Definition configured_budget (dflt : ControlStore.RuntimeBudget) (v : json) : res ControlStore.RuntimeBudget :=
  match v with
  | JObj configured =>
      steps ← py_int (pgetd "max_steps" (JInt 48) configured);
      tokens ← py_int (pgetd "max_output_tokens" (JInt 8192) configured);
      cost ← (if is_none (pgetn "max_cost" configured) then Ok None
              else Some <$> py_float (pgetn "max_cost" configured));
      Ok (mkRuntimeBudget steps tokens cost (py_str (pgetd "policy_version" (JStr "1") configured)))
  | _ => Ok dflt
  end.

(** [f"{tenant_id}:{session_id}:{run_id}"] *)
Definition task_id_of (tenant_id session_id run_id : string) : string :=
  tenant_id +:+ ":" +:+ session_id +:+ ":" +:+ run_id.

(** [[str(item) for item in v if item]] *)
Definition truthy_strs (v : json) : res (list string) :=
  l ← py_iter v; Ok (map py_str (filter (λ x, truthy x = true) l)).

Definition permissions_profile (names : list string) : payload := [("tool_permissions", jstrs names)].

Definition derive_from_record (e : CanonicalEvent) : res (option RunnableItem) :=
  let p := ev_payload e in
  if negb (String.eqb (ev_type e) "run.requested") then Ok None
  else if negb (String.eqb (actor_type (ev_actor e)) "user") then Ok None
  else
  let run_id := pgetn "run_id" p in
  if is_none run_id then Ok None else
  let role := py_str (pgetd "role" (JStr "root") p) in
  budget ← configured_budget default_budget (pgetn "budget" p);
  skill_names ← truthy_strs (pgetd "skill_names" (JArr []) p);
  Ok (Some (mkRunnable (task_id_of (ev_tenant_id e) (ev_session_id e) (py_str run_id)) (ev_tenant_id e)
    (ev_root_session_id e) (ev_session_id e) (py_str run_id) (ev_aggregate_version e) 0 (ev_tenant_id e)
    role (match skill_names with [] => [] | _ => permissions_profile skill_names end) None budget
    (Some (actor_id (ev_actor e))) (optional_str (pgetn "dept_id" p)))).

(** [dict(item) for item in v if isinstance(item, dict)] *)
Definition dict_items (l : list json) : list json := filter (λ v, is_dict v = true) l.

Definition child_resource_profile (p : payload) : res payload :=
  let metadata := match pgetn "metadata" p with JObj m => m | _ => [] end in
  permissions ← py_iter (pgetd "tool_permissions" (JArr []) p);
  Ok ([("tool_permissions", jstrs (map py_str permissions))]
      ++ (match pgetd "required_capabilities" (JArr []) metadata with
          | JArr l => [("required_capabilities", JArr (dict_items l))]
          | _ => []
          end)
      ++ (match pgetd "required_skills" (JArr []) metadata with
          | JArr (_ :: _ as l) => [("required_skills", JArr (dict_items l))]
          | _ => []
          end)).

Definition owner_user_id (events : list CanonicalEvent) : option string :=
  match list_find (λ e, ev_type e = "session.created" ∧ actor_type (ev_actor e) = "user") events with
  | Some (_, e) => Some (actor_id (ev_actor e))
  | None => None
  end.

Definition owner_dept_id (events : list CanonicalEvent) : option string :=
  match list_find (λ e, ev_type e = "session.created") events with
  | Some (_, e) => optional_str (pgetn "dept_id" (ev_payload e))
  | None => None
  end.

(** The variables of the loop of [_derive]. *)
Record Derivation := mkDerivation {
  dv_role : string;
  dv_dependencies : list json;
  dv_run_id : option string;
  dv_budget : ControlStore.RuntimeBudget;
  dv_profile : payload;
  dv_terminal_runs : list string;
}.
#[global] Instance Derivation_eta : Eta Derivation := λ d,
  mkDerivation (dv_role d) (dv_dependencies d) (dv_run_id d) (dv_budget d) (dv_profile d)
    (dv_terminal_runs d).

Definition derivation0 : Derivation := mkDerivation "root" [] None default_budget [] [].

Definition derive_created (e : CanonicalEvent) (d : Derivation) : res Derivation :=
  let p := ev_payload e in
  let role := py_str (pgetd "role" (JStr (dv_role d)) p) in
  dependencies ← py_iter (pgetd "dependency_ids" (JArr (dv_dependencies d)) p);
  profile ← (if String.eqb (ev_type e) "child.created" then child_resource_profile p
             else if truthy (pgetn "skill_names" p)
             then names ← truthy_strs (pgetd "skill_names" (JArr []) p); Ok (permissions_profile names)
             else Ok (dv_profile d));
  budget ← configured_budget (dv_budget d) (pgetn "budget" p);
  Ok (d <| dv_role := role |> <| dv_dependencies := dependencies |> <| dv_profile := profile |>
        <| dv_budget := budget |>).

Definition derive_step (d : Derivation) (e : CanonicalEvent) : res Derivation :=
  let p := ev_payload e in
  if str_in (ev_type e) ["session.created"; "child.created"] then derive_created e d
  else if String.eqb (ev_type e) "dependency.changed" then
    deps ← py_iter (pgetd "dependency_ids" (JArr []) p);
    Ok (d <| dv_dependencies := deps |>)
  else if str_in (ev_type e) ["run.requested"; "session.resumed"] then
    run_id ← pget "run_id" p;
    budget ← configured_budget (dv_budget d) (pgetn "budget" p);
    Ok (d <| dv_run_id := Some (py_str run_id) |> <| dv_budget := budget |>)
  else if str_in (ev_type e) RUN_TERMINAL_EVENTS then
    Ok match ev_run_id e with
       | Some r => d <| dv_terminal_runs := r :: dv_terminal_runs d |>
       | None => d
       end
  else Ok d.

Definition derive (events : list CanonicalEvent) (source_version : Z) : res (option RunnableItem) :=
  match last events with
  | None => Ok None
  | Some latest =>
      d ← foldM derive_step events derivation0;
      let recovering := negb (bool_decide (pending_skill_invocations events (dv_run_id d) = [])) in
      match dv_run_id d with
      | None => Ok None
      | Some run_id =>
          if str_in run_id (dv_terminal_runs d) && negb recovering
             || negb (bool_decide (dv_dependencies d = [])) && negb recovering
          then Ok None
          else Ok (Some (mkRunnable (task_id_of (ev_tenant_id latest) (ev_session_id latest) run_id)
            (ev_tenant_id latest) (ev_root_session_id latest) (ev_session_id latest) run_id source_version 0
            (ev_tenant_id latest) (dv_role d) (dv_profile d) None (dv_budget d)
            (owner_user_id events) (owner_dept_id events)))
      end
  end.

(** ** The Children of a root *)

(** The dictionaries of [_derive_collaboration]. *)
Record ChildFacts := mkChildFacts {
  cf_versions : list (string * Z);
  cf_budgets : list (string * ControlStore.RuntimeBudget);
  cf_profiles : list (string * payload);
}.

Definition child_facts_step (f : ChildFacts) (e : CanonicalEvent) : res ChildFacts :=
  let sid := ev_session_id e in
  let versions := dset sid (Z.max (default 0 (dget sid (cf_versions f))) (ev_aggregate_version e))
                    (cf_versions f) in
  if negb (String.eqb (ev_type e) "child.created")
  then Ok (mkChildFacts versions (cf_budgets f) (cf_profiles f))
  else
  profile ← child_resource_profile (ev_payload e);
  budgets ← match pgetn "runtime_budget" (ev_payload e) with
            | JObj _ => b ← configured_budget default_budget (pgetn "runtime_budget" (ev_payload e));
                        Ok (dset sid b (cf_budgets f))
            | _ => Ok (cf_budgets f)
            end;
  Ok (mkChildFacts versions budgets (dset sid profile (cf_profiles f))).

Definition derive_collaboration (events : list CanonicalEvent) (graph : CollaborationAggregate)
    : res (list RunnableItem) :=
  match events with
  | [] => Ok []
  | first :: _ =>
      let root := ev_root_session_id first in
      let tenant_id := ev_tenant_id first in
      facts ← foldM child_facts_step events (mkChildFacts [] [] []);
      items ← mapR (λ node,
        match cn_run_id node with
        | None => Ok None
        | Some run_id =>
            match dget (cn_session_id node) (cf_versions facts) with
            | None => Raise PyKeyError (cn_session_id node)
            | Some version => Ok (Some (mkRunnable (task_id_of tenant_id (cn_session_id node) run_id)
                tenant_id root (cn_session_id node) run_id version 0 tenant_id (role_value (cn_role node))
                (default [] (dget (cn_session_id node) (cf_profiles facts))) None
                (default default_budget (dget (cn_session_id node) (cf_budgets facts)))
                (owner_user_id events) (owner_dept_id events)))
            end
        end) (runnable graph);
      Ok (omap (M := list) id items)
  end.

Definition terminal_node_statuses : list string := ["completed"; "failed"; "cancelled"].
Definition waiting_phases : list string := ["agent.waiting_children"; "collaboration.waiting_children"].

Definition terminal_node (n : CollaborationNode) : bool := str_in (cn_status n) terminal_node_statuses.

(** The Children whose end a suspended Coordinator waits for: those its checkpoint
    names, or all of them when it names none and all are over. *)
Definition wait_set (graph : CollaborationAggregate) (checkpoint : RuntimeCheckpoint)
    : res (option (list string)) :=
  waiting ← py_iter (pgetd "waiting_child_ids" (JArr []) (cp_state checkpoint));
  match waiting with
  | _ :: _ => Ok (Some (map py_str waiting))
  | [] =>
      let children := children (ca_nodes graph) in
      if bool_decide (children = []) || existsb (λ n, negb (terminal_node n)) children
      then Ok None
      else Ok (Some (map cn_session_id children))
  end.

Definition wake_waiting_coordinator (graph : CollaborationAggregate) (s : ControlStore)
    : ControlStore * res bool :=
  match dget (ca_root_session_id graph) (ca_nodes graph) with
  | None => (s, Ok false)
  | Some root =>
      match cn_run_id root with
      | None => (s, Ok false)
      | Some run_id =>
          if terminal_node root then (s, Ok false) else
          let task_id := task_id_of (ca_tenant_id graph) (ca_root_session_id graph) run_id in
          let early_wake :=
            if existsb (λ n, negb (is_none (jopt (cn_parent_session_id n))) && terminal_node n)
                 (dvalues (ca_nodes graph))
            then ((wake_assignment task_id s).1, Ok false) else (s, Ok false) in
          match load_checkpoint s (ca_tenant_id graph) (ca_root_session_id graph) run_id with
          | None => early_wake
          | Some checkpoint =>
              if negb (str_in (cp_phase checkpoint) waiting_phases) then early_wake else
              match wait_set graph checkpoint with
              | Raise c m => (s, Raise c m)
              | Ok None => (s, Ok false)
              | Ok (Some waiting) =>
                  if negb (forallb (λ sid, match dget sid (ca_nodes graph) with
                                           | Some n => terminal_node n | None => false end) waiting)
                  then (s, Ok false)
                  else let '(s, woken) := wake_assignment task_id s in (s, Ok woken)
              end
          end
      end
  end.

(** ** One record *)

(** A terminal event, or an invocation requested after one, settles the assignment. *)
Definition settle_terminal (src : EventStore) (e : CanonicalEvent) (s : ControlStore) : res ControlStore :=
  if negb (str_in (ev_type e) RUN_TERMINAL_EVENTS || String.eqb (ev_type e) "skill.invocation.requested")
  then Ok s
  else
  let observed := load src (ev_tenant_id e) (ev_session_id e) 1 None None in
  match list_find (λ t, ev_run_id t = ev_run_id e ∧ str_in (ev_type t) RUN_TERMINAL_EVENTS = true) observed with
  | None => Ok s
  | Some (_, terminal) =>
      let task_id := task_id_of (ev_tenant_id e) (ev_session_id e) (py_str (jopt (ev_run_id e))) in
      match pending_skill_invocations observed (ev_run_id e) with
      | _ :: _ => suspend_assignment task_id "waiting_for_tool" s
      | [] => Ok (finish_assignment task_id (String.substring 4 (String.length (ev_type terminal)) (ev_type terminal)) s)
      end
  end.

(** [item.user_id or ...]: the first that is a non-empty text. *)
Definition opt_or (a b : option string) : option string := if opt_truthy a then a else b.

Definition complete_owner (src : EventStore) (item : RunnableItem) : RunnableItem :=
  if negb (String.eqb (ri_root_session_id item) (ri_session_id item))
     && (bool_decide (ri_user_id item = None) || bool_decide (ri_dept_id item = None))
  then
    let root_events := load src (ri_tenant_id item) (ri_root_session_id item) 1 None None in
    mkRunnable (ri_task_id item) (ri_tenant_id item) (ri_root_session_id item) (ri_session_id item)
      (ri_run_id item) (ri_source_version item) (ri_priority item) (ri_queue_partition item)
      (ri_role item) (ri_required_capability item) (ri_deadline item) (ri_budget item)
      (opt_or (ri_user_id item) (owner_user_id root_events))
      (opt_or (ri_dept_id item) (owner_dept_id root_events))
  else item.

Definition derive_item (src : EventStore) (e : CanonicalEvent) : res (option RunnableItem) :=
  hot ← derive_from_record e;
  item ← (match hot with
          | Some item => Ok (Some item)
          | None => derive (load src (ev_tenant_id e) (ev_session_id e) 1 None None) (ev_aggregate_version e)
          end : res (option RunnableItem));
  Ok (option_map (complete_owner src) item).

Definition count (b : bool) : Z := if b then 1 else 0.

(** Queue the item; an approval that comes back wakes a run that is already queued. *)
Definition offer_item (e : CanonicalEvent) (item : option RunnableItem) (s : ControlStore)
    : ControlStore * Z :=
  match item with
  | None => (s, 0)
  | Some item =>
      let '(s, inserted) := enqueue item s in
      if inserted then (s, 1)
      else if str_in (ev_type e) APPROVAL_RESUME_EVENTS
      then let '(s, woken) := wake_assignment (ri_task_id item) s in (s, count woken)
      else (s, 0)
  end.

Definition enqueue_all (items : list RunnableItem) (s : ControlStore) : ControlStore * Z :=
  fold_left (λ acc item, let '(s, inserted) := enqueue item acc.1 in (s, acc.2 + count inserted))
    items (s, 0).

Definition feed_children (src : EventStore) (e : CanonicalEvent) (s : ControlStore)
    : ControlStore * Z * res unit :=
  if String.eqb (ev_root_session_id e) (ev_session_id e)
     || negb (str_in (ev_type e) COLLABORATION_CONTROL_EVENTS)
  then (s, 0, Ok tt)
  else
  let root_events := load_root src (ev_tenant_id e) (ev_root_session_id e) (Some COLLABORATION_EVENTS) None in
  match (graph ← collab_from_events (ev_tenant_id e) (ev_root_session_id e) root_events;
         items ← derive_collaboration root_events graph; Ok (graph, items)) with
  | Raise c m => (s, 0, Raise c m)
  | Ok (graph, items) =>
      let '(s, n) := enqueue_all items s in
      match wake_waiting_coordinator graph s with
      | (s, Raise c m) => (s, n, Raise c m)
      | (s, Ok _) => (s, n, Ok tt)
      end
  end.

(** The body of the [try]. *)
Definition feed_record (src : EventStore) (e : CanonicalEvent) (s : ControlStore)
    : ControlStore * Z * res unit :=
  match settle_terminal src e s with
  | Raise c m => (s, 0, Raise c m)
  | Ok s =>
      match derive_item src e with
      | Raise c m => (s, 0, Raise c m)
      | Ok item =>
          let '(s, n) := offer_item e item s in
          let '(s, n', r) := feed_children src e s in
          (s, n + n', r)
      end
  end.

(** ** The consumer *)

Record Feed := mkFeed {
  fd_source : EventStore;
  fd_control : ControlStore;
  fd_ack_tasks : list ClaimedOutboxRecord;
  fd_next_recovery : Z;
}.
#[global] Instance Feed_eta : Eta Feed := λ f,
  mkFeed (fd_source f) (fd_control f) (fd_ack_tasks f) (fd_next_recovery f).

(** One iteration; [now] is the clock of a negative acknowledgement. *)
Definition feed_one (worker_id : string) (now : Z) (f : Feed) (c : ClaimedOutboxRecord) : Feed * Z :=
  match feed_record (fd_source f) (co_event c) (fd_control f) with
  | (s, n, Ok _) => (f <| fd_control := s |> <| fd_ack_tasks := fd_ack_tasks f ++ [c] |>, n)
  | (s, n, Raise _ _) =>
      (f <| fd_control := s |>
         <| fd_source := (disposition_outbox "control" worker_id (co_outbox_id c) (co_claim_token c) "nack"
                            now (fd_source f)).1 |>, n)
  end.

Fixpoint feed_loop (worker_id : string) (now : nat → Z) (records : list ClaimedOutboxRecord)
    (f : Feed) (enqueued : Z) : Feed * Z :=
  match records with
  | [] => (f, enqueued)
  | c :: records =>
      let '(f, n) := feed_one worker_id (now (length records)) f c in
      feed_loop worker_id now records f (enqueued + n)
  end.

(** [_ack] of a scheduled acknowledgement. *)
Definition run_ack (worker_id : string) (now : Z) (c : ClaimedOutboxRecord) (f : Feed) : Feed :=
  f <| fd_source := (disposition_outbox "control" worker_id (co_outbox_id c) (co_claim_token c) "ack" now
                       (fd_source f)).1 |>.

(** Wake a list of assignments, one after the other. *)
Definition wake_all (tasks : list string) (s : ControlStore) : ControlStore * Z :=
  fold_left (λ acc t, let '(s, woken) := wake_assignment t acc.1 in (s, acc.2 + count woken)) tasks (s, 0).

Definition assignment_task (a : RuntimeAssignment) : string :=
  task_id_of (ra_tenant_id a) (ra_session_id a) (ra_run_id a).

Definition recover_waiting_approvals (limit : Z) (src : EventStore) (s : ControlStore) : ControlStore * Z :=
  wake_all (map assignment_task
    (filter (λ a, existsb (λ e, bool_decide (ev_run_id e = Some (ra_run_id a))
                                && str_in (ev_type e) APPROVAL_RESUME_EVENTS)
                    (load src (ra_tenant_id a) (ra_session_id a) 1 None None) = true)
       (list_waiting_assignments limit "waiting_for_human" s))) s.

Definition recover_waiting_tools (limit : Z) (s : ControlStore) : ControlStore * Z :=
  wake_all (map assignment_task (list_waiting_assignments limit "waiting_for_tool" s)) s.

Fixpoint recover_coordinators (src : EventStore) (waiting : list RuntimeAssignment) (s : ControlStore)
    (recovered : Z) : ControlStore * res Z :=
  match waiting with
  | [] => (s, Ok recovered)
  | a :: waiting =>
      match load_root src (ra_tenant_id a) (ra_root_session_id a) (Some COLLABORATION_EVENTS) None with
      | [] => recover_coordinators src waiting s recovered
      | root_events =>
          match collab_from_events (ra_tenant_id a) (ra_root_session_id a) root_events with
          | Raise c m => (s, Raise c m)
          | Ok graph =>
              match wake_waiting_coordinator graph s with
              | (s, Raise c m) => (s, Raise c m)
              | (s, Ok woken) => recover_coordinators src waiting s (recovered + count woken)
              end
          end
      end
  end.

Definition recover_waiting_coordinators (limit : Z) (src : EventStore) (s : ControlStore)
    : ControlStore * res Z :=
  recover_coordinators src (list_waiting_assignments limit "waiting_children" s) s 0.

(** The periodic recovery at the end of a pass. *)
Definition recover_waiting (interval monotonic : Z) (f : Feed) : Feed * res Z :=
  if monotonic <? fd_next_recovery f then (f, Ok 0) else
  let f := f <| fd_next_recovery := monotonic + Z.max 0 interval |> in
  match recover_waiting_coordinators 100 (fd_source f) (fd_control f) with
  | (s, Raise c m) => (f <| fd_control := s |>, Raise c m)
  | (s, Ok n1) =>
      let '(s, n2) := recover_waiting_tools 100 s in
      let '(s, n3) := recover_waiting_approvals 100 (fd_source f) s in
      (f <| fd_control := s |>, Ok (n1 + n2 + n3))
  end.

Record FeedClock := mkFeedClock {
  fc_claim : Z;
  fc_uuid : nat → string;
  fc_nack : nat → Z;
  fc_monotonic : Z;
}.

Definition run_once (worker_id : string) (limit interval : Z) (clock : FeedClock) (f : Feed)
    : Feed * res Z :=
  let '(src, records) :=
    claim_outbox_once "control" worker_id limit (30 * second) (fc_claim clock) (fc_uuid clock) (fd_source f) in
  let '(f, enqueued) := feed_loop worker_id (fc_nack clock) records (f <| fd_source := src |>) 0 in
  match recover_waiting interval (fc_monotonic clock) f with
  | (f, Ok n) => (f, Ok (enqueued + n))
  | (f, Raise c m) => (f, Raise c m)
  end.

(** ** Which run is derived *)

(** The runs a Session was asked to run, in order, and those that ended. *)
Definition run_requests (events : list CanonicalEvent) : list string :=
  omap (λ e, if str_in (ev_type e) ["run.requested"; "session.resumed"]
             then Some (py_str (pgetn "run_id" (ev_payload e))) else None) events.
Definition ended_runs (events : list CanonicalEvent) : list string :=
  omap (λ e, if str_in (ev_type e) RUN_TERMINAL_EVENTS then ev_run_id e else None) events.

(** The dependencies that the last creation or change left. *)
Definition dependencies_step (deps : list json) (e : CanonicalEvent) : list json :=
  let read dflt := match py_iter (pgetd "dependency_ids" (JArr dflt) (ev_payload e)) with
                   | Ok l => l | Raise _ _ => deps end in
  if str_in (ev_type e) ["session.created"; "child.created"] then read deps
  else if String.eqb (ev_type e) "dependency.changed" then read [] else deps.
Definition dependencies_after (events : list CanonicalEvent) : list json :=
  fold_left dependencies_step events [].

Lemma run_requests_snoc events e :
  run_requests (events ++ [e]) = run_requests events ++ run_requests [e].
Proof. apply omap_app. Qed.

Lemma pget_pgetn k p v : pget k p = Ok v → pgetn k p = v.
Proof. unfold pget, pgetn. by destruct (dget k p); intros; simplify_eq. Qed.

(** The loop of [_derive], read off its events. *)
Lemma derive_fold events d :
  foldM derive_step events derivation0 = Ok d →
  dv_run_id d = last (run_requests events)
  ∧ (∀ r, r ∈ dv_terminal_runs d ↔ r ∈ ended_runs events)
  ∧ dv_dependencies d = dependencies_after events.
Proof.
  revert d. induction events as [|e events IH] using rev_ind; intros d Hd.
  { cbn in Hd. by simplify_eq. }
  rewrite foldM_app in Hd. apply res_bind_Ok in Hd as (d1 & H1 & Hd). cbn [foldM] in Hd.
  apply res_bind_Ok in Hd as (d2 & H2 & Hd). injection Hd as ->.
  destruct (IH _ H1) as (E1 & E2 & E3). rewrite run_requests_snoc, last_app.
  unfold dependencies_after, ended_runs in *. rewrite fold_left_app, omap_app. cbn [fold_left].
  rewrite <- E3. unfold derive_step in H2. unfold run_requests at 1, dependencies_step. cbn [omap list_omap].
  destruct (str_in (ev_type e) ["session.created"; "child.created"]) eqn:Ec.
  { assert (str_in (ev_type e) ["run.requested"; "session.resumed"] = false
            ∧ str_in (ev_type e) RUN_TERMINAL_EVENTS = false) as [-> ->].
    { apply str_in_spec in Ec. repeat (apply elem_of_cons in Ec as [->|Ec]; [done|]).
      by apply elem_of_nil in Ec. }
    unfold derive_created in H2. apply res_bind_Ok in H2 as (deps & Hdeps & H2). inv_res. cbn.
    rewrite Hdeps, app_nil_r. done. }
  destruct (String.eqb (ev_type e) "dependency.changed") eqn:Edc.
  { apply String.eqb_eq in Edc. rewrite Edc.
    apply res_bind_Ok in H2 as (deps & Hdeps & H2). inv_res. cbn. rewrite Hdeps, app_nil_r. done. }
  destruct (str_in (ev_type e) ["run.requested"; "session.resumed"]) eqn:Er.
  { assert (str_in (ev_type e) RUN_TERMINAL_EVENTS = false) as ->.
    { apply str_in_spec in Er. repeat (apply elem_of_cons in Er as [->|Er]; [done|]).
      by apply elem_of_nil in Er. }
    apply res_bind_Ok in H2 as (run & Hrun & H2). inv_res. cbn.
    apply pget_pgetn in Hrun. rewrite Hrun, app_nil_r. done. }
  destruct (str_in (ev_type e) RUN_TERMINAL_EVENTS); injection H2 as <-; cbn; [|by rewrite app_nil_r].
  destruct (ev_run_id e) as [r|]; cbn; [|by rewrite app_nil_r].
  split_and!; [done| |done]. intros r'. rewrite elem_of_app, elem_of_cons, list_elem_of_singleton, E2. tauto.
Qed.

(** The run is over, or waits for others, and no invocation needs it. *)
Definition held_back (events : list CanonicalEvent) (run : string) : Prop :=
  pending_skill_invocations events (Some run) = []
  ∧ (run ∈ ended_runs events ∨ dependencies_after events ≠ []).

(** The feed queues exactly the live run: whenever a Session's events can be
    read, what is derived is the run that was requested last, for its Session, and
    nothing is derived exactly when no run was requested, or that run is over or
    blocked and no Skill invocation of it is unsettled. *)
Theorem derive_exact events v o :
  derive events v = Ok o →
  match o with
  | Some i => last (run_requests events) = Some (ri_run_id i) ∧ ¬ held_back events (ri_run_id i)
      ∧ ri_source_version i = v
      ∧ ∃ e, last events = Some e
          ∧ ri_task_id i = task_id_of (ev_tenant_id e) (ev_session_id e) (ri_run_id i)
  | None => events = [] ∨ last (run_requests events) = None
      ∨ ∃ run, last (run_requests events) = Some run ∧ held_back events run
  end.
Proof.
  unfold derive. destruct (last events) as [e|] eqn:El; [|intros [= <-]; left; by apply last_None].
  intros Hd. apply res_bind_Ok in Hd as (d & Hf & Hd).
  destruct (derive_fold _ _ Hf) as (H1 & H2 & H3). rewrite <- H1. unfold held_back. rewrite <- H3.
  destruct (dv_run_id d) as [run|]; [|injection Hd as <-; auto].
  assert (str_in run (dv_terminal_runs d) = bool_decide (run ∈ ended_runs events)) as Ht.
  { apply eq_true_iff_eq. rewrite str_in_spec, H2. by rewrite bool_decide_eq_true. }
  rewrite Ht in Hd. destruct (_ || _) eqn:Eb; injection Hd as <-.
  - right; right. exists run. split; [done|]. rewrite <- andb_orb_distrib_l in Eb. bool_props.
    split; [done|]. match goal with H : _ || _ = true |- _ => apply orb_true_iff in H as [H|H] end;
      bool_props; auto.
  - cbn. split_and!; [done| |done|by exists e]. intros [Hp Hor]. rewrite Hp in Eb. cbn in Eb.
    rewrite !andb_true_r in Eb. bool_props. tauto.
Qed.

(** ** The hot path *)

(** Events that leave the role, the dependencies and the resources as they are. *)
Definition neutral (e : CanonicalEvent) : bool :=
  negb (str_in (ev_type e) ["session.created"; "child.created"; "dependency.changed"]).

Lemma neutral_step d e d' :
  neutral e = true → derive_step d e = Ok d' →
  dv_role d' = dv_role d ∧ dv_profile d' = dv_profile d ∧ dv_dependencies d' = dv_dependencies d
  ∧ (is_dict (pgetn "budget" (ev_payload e)) = false → dv_budget d' = dv_budget d).
Proof.
  unfold neutral, derive_step. intros Hn Hd. bool_props. cbn [str_in existsb] in Hn.
  apply orb_false_iff in Hn as [H1 Hn]. apply orb_false_iff in Hn as [H2 Hn].
  apply orb_false_iff in Hn as [H3 _].
  unfold str_in at 1 in Hd. cbn [existsb] in Hd. rewrite H1, H2, H3 in Hd. cbn [orb] in Hd.
  destruct (str_in (ev_type e) ["run.requested"; "session.resumed"]).
  - inv_res. cbn. split_and!; [done..|]. intros Hb.
    match goal with H : configured_budget _ ?v = Ok _ |- _ => destruct v end; cbn in *; by simplify_eq.
  - destruct (str_in _ _); [|by simplify_eq]. destruct (ev_run_id e); by simplify_eq.
Qed.

Lemma neutral_fold events d d' :
  Forall (λ e, neutral e = true) events → foldM derive_step events d = Ok d' →
  dv_role d' = dv_role d ∧ dv_profile d' = dv_profile d ∧ dv_dependencies d' = dv_dependencies d
  ∧ (Forall (λ e, is_dict (pgetn "budget" (ev_payload e)) = false) events → dv_budget d' = dv_budget d).
Proof.
  intros Hn. revert d. induction Hn as [|e events He Hn IH]; intros d Hd; cbn [foldM] in Hd.
  { by simplify_eq. }
  apply res_bind_Ok in Hd as (d1 & H1 & H2). destruct (neutral_step _ _ _ He H1) as (E1 & E2 & E3 & E4).
  destruct (IH _ H2) as (F1 & F2 & F3 & F4). split_and!; [congruence..|].
  intros Hb. apply Forall_cons in Hb as [Hb1 Hb2]. rewrite F4, E4; done.
Qed.

(** A root Session, created by the user who requests the run. *)
Record root_request (created e : CanonicalEvent) (names : list string) : Prop := {
  rq_created : ev_type created = "session.created";
  rq_requested : ev_type e = "run.requested";
  rq_user : actor_type (ev_actor e) = "user";
  rq_owner : ev_actor created = ev_actor e;
  rq_role : pgetd "role" (JStr "root") (ev_payload created) = JStr "root";
  rq_role' : dget "role" (ev_payload e) = None;
  rq_no_deps : dget "dependency_ids" (ev_payload created) = None;
  rq_dept : pgetn "dept_id" (ev_payload created) = pgetn "dept_id" (ev_payload e);
  rq_budget : is_dict (pgetn "budget" (ev_payload created)) = false;
  rq_skills : pgetd "skill_names" (JArr []) (ev_payload created) = jstrs names;
  rq_skills' : pgetd "skill_names" (JArr []) (ev_payload e) = jstrs names;
  rq_names : Forall (λ n, n ≠ EmptyString) names;
}.

Lemma truthy_strs_names names : Forall (λ n, n ≠ EmptyString) names → truthy_strs (jstrs names) = Ok names.
Proof.
  intros Hn. unfold truthy_strs, jstrs. cbn [py_iter mbind res_bind]. f_equal.
  induction Hn as [|n names H1 H2 IH]; [done|]. cbn [map]. rewrite filter_cons_True; [|by destruct n].
  cbn [map py_str]. by rewrite IH.
Qed.

(** What the creation of such a Session sets. *)
Lemma created_derivation created e names d :
  root_request created e names → derive_step derivation0 created = Ok d →
  dv_role d = "root" ∧ dv_dependencies d = [] ∧ dv_budget d = default_budget
  ∧ dv_profile d = match names with [] => [] | _ => permissions_profile names end.
Proof.
  intros H. unfold derive_step. rewrite (rq_created _ _ _ H). cbn [str_in existsb String.eqb Ascii.eqb Bool.eqb orb].
  unfold derive_created. rewrite (rq_created _ _ _ H). cbn [dv_role dv_dependencies dv_profile dv_budget derivation0].
  assert (pgetd "dependency_ids" (JArr []) (ev_payload created) = JArr []) as ->
    by (unfold pgetd; by rewrite (rq_no_deps _ _ _ H)).
  cbn [py_iter mbind res_bind String.eqb Ascii.eqb Bool.eqb].
  intros Hd. apply res_bind_Ok in Hd as (profile & Hp & Hd). apply res_bind_Ok in Hd as (b & Hb & Hd).
  injection Hd as <-. cbn. split_and!.
  - by rewrite (rq_role _ _ _ H).
  - done.
  - pose proof (rq_budget _ _ _ H) as Hnb. destruct (pgetn "budget" (ev_payload created)); cbn in *; by simplify_eq.
  - pose proof (rq_skills _ _ _ H) as Hs. rewrite Hs, truthy_strs_names in Hp by apply (rq_names _ _ _ H).
    unfold pgetd in Hs. unfold pgetn in Hp. destruct (dget "skill_names" (ev_payload created)) as [v|]; cbn in *.
    + subst v. destruct names; cbn in Hp; by simplify_eq.
    + destruct names; [|done]. by simplify_eq.
Qed.

Lemma owner_user_head e l :
  ev_type e = "session.created" → actor_type (ev_actor e) = "user" →
  owner_user_id (e :: l) = Some (actor_id (ev_actor e)).
Proof. intros H1 H2. unfold owner_user_id. cbn. by rewrite decide_True. Qed.
Lemma owner_dept_head e l :
  ev_type e = "session.created" → owner_dept_id (e :: l) = optional_str (pgetn "dept_id" (ev_payload e)).
Proof. intros H1. unfold owner_dept_id. cbn. by rewrite decide_True. Qed.

(** The hot path is the derivation: for a run that its Session's owner requests
    on a root Session (with the budget it carries, and not already over), queueing
    from the record alone gives exactly the item that deriving from the whole stream
    gives. *)
Theorem hot_path_agrees created mid e names :
  root_request created e names → Forall (λ m, neutral m = true) mid →
  is_ok (foldM derive_step (created :: mid) derivation0) = true →
  py_str (pgetn "run_id" (ev_payload e)) ∉ ended_runs mid →
  dget "run_id" (ev_payload e) ≠ None → pgetn "run_id" (ev_payload e) ≠ JNull →
  is_dict (pgetn "budget" (ev_payload e)) = true
    ∨ Forall (λ m, is_dict (pgetn "budget" (ev_payload m)) = false) mid →
  derive_from_record e = derive (created :: mid ++ [e]) (ev_aggregate_version e).
Proof.
  intros H Hn Hok Hend Hrun Hnull Hbud. pose proof H as [Hc Hr Hu Ho _ Hrole' _ Hdept _ _ Hs' Hnames].
  destruct (foldM derive_step (created :: mid) derivation0) as [d|] eqn:Ef; [clear Hok|done].
  assert (last (created :: mid ++ [e]) = Some e) as Hlast by apply (last_snoc e (created :: mid)).
  unfold derive. rewrite Hlast. change (created :: mid ++ [e]) with ((created :: mid) ++ [e]).
  rewrite foldM_app, Ef. cbn [mbind res_bind foldM].
  pose proof (derive_fold _ _ Ef) as (_ & Hterm & _).
  cbn [foldM] in Ef. apply res_bind_Ok in Ef as (d1 & H1 & H2).
  destruct (created_derivation _ _ _ _ H H1) as (C1 & C2 & C3 & C4).
  destruct (neutral_fold _ _ _ Hn H2) as (N1 & N2 & N3 & N4).
  unfold derive_from_record, derive_step. rewrite Hr, Hu. cbn [negb String.eqb Ascii.eqb Bool.eqb str_in existsb orb].
  assert (is_none (pgetn "run_id" (ev_payload e)) = false) as -> by (by destruct (pgetn "run_id" (ev_payload e))).
  assert (pget "run_id" (ev_payload e) = Ok (pgetn "run_id" (ev_payload e))) as ->.
  { unfold pget, pgetn. by destruct (dget "run_id" (ev_payload e)). }
  cbn [mbind res_bind]. rewrite Hs', truthy_strs_names by done.
  assert (configured_budget (dv_budget d) (pgetn "budget" (ev_payload e))
          = configured_budget default_budget (pgetn "budget" (ev_payload e))) as ->.
  { destruct Hbud as [Hb|Hb]; [by destruct (pgetn "budget" (ev_payload e))|]. by rewrite N4, C3. }
  destruct (configured_budget _ _) as [b|]; cbn [mbind res_bind]; [|done].
  cbn [dv_run_id dv_terminal_runs dv_dependencies].
  assert (str_in (py_str (pgetn "run_id" (ev_payload e))) (dv_terminal_runs d) = false) as Hte.
  { apply str_in_false. rewrite Hterm. cbn [ended_runs omap list_omap].
    unfold ended_runs. cbn [omap list_omap]. rewrite Hc. cbn. exact Hend. }
  destruct d as [role deps run budget profile terminal]. cbn in *. subst deps role profile. rewrite Hte, C2. cbn.
  rewrite (owner_user_head created (mid ++ [e])), (owner_dept_head created (mid ++ [e])), Ho, Hdept, C1, C4
    by (by rewrite ?Ho).
  unfold pgetd. rewrite Hrole'. done.
Qed.

(** ** No requested run is lost *)

Definition queued (s : ControlStore) (task_id : string) : Prop := task_id ∈ dkeys (ct_queue s).

(** Tasks stay known to the queue. *)
Definition queue_grows (s s' : ControlStore) : Prop := ∀ t, queued s t → queued s' t.

#[global] Instance queue_grows_preorder : PreOrder queue_grows.
Proof. split; [by intros s t|]. intros s1 s2 s3 H1 H2 t Ht. auto. Qed.

Lemma grows_same s s' : ct_queue s' = ct_queue s → queue_grows s s'.
Proof. intros H t. unfold queued. by rewrite H. Qed.

Lemma grows_dset s s' k v : ct_queue s' = dset k v (ct_queue s) → queue_grows s s'.
Proof.
  intros H t. unfold queued. rewrite H, dkeys_dset. case_match; [done|]. rewrite elem_of_app. auto.
Qed.

Create HintDb queue.
#[export] Hint Extern 1 (queue_grows _ _) => (by apply grows_same) : queue.
#[export] Hint Extern 2 (queue_grows _ _) => (eapply grows_dset; reflexivity) : queue.

Ltac queue_cases := repeat case_match; simplify_eq; auto with queue.

Lemma enqueue_grows item s : queue_grows s (enqueue item s).1.
Proof. unfold enqueue. queue_cases. Qed.
Lemma enqueue_queued item s : queued (enqueue item s).1 (ri_task_id item).
Proof.
  unfold enqueue, queued. destruct (dget _ _) eqn:E; [by eapply dget_Some_key|].
  change (ri_task_id item ∈ dkeys (dset (ri_task_id item) (item, "queued", None) (ct_queue s))).
  rewrite dkeys_dset. case_match; [done|]. rewrite elem_of_app. right. by left.
Qed.
Lemma requeue_grows t s : queue_grows s (requeue t s).
Proof. unfold requeue. queue_cases. Qed.
Lemma settle_queue_grows t b s : queue_grows s (settle_queue t b s).
Proof.
  unfold settle_queue. destruct (dget t (ct_queue s)) as [[[item st] owner]|]; [|auto with queue].
  destruct b; eapply grows_dset; reflexivity.
Qed.
Lemma wake_grows t s : queue_grows s (wake_assignment t s).1.
Proof. unfold wake_assignment. queue_cases. Qed.
Lemma finish_grows t o s : queue_grows s (finish_assignment t o s).
Proof. unfold finish_assignment. etrans; [|apply settle_queue_grows]. queue_cases. Qed.
Lemma expire_grows t a s : queue_grows s (expire_assignment t a s).
Proof. unfold expire_assignment. etrans; [|apply requeue_grows]. auto with queue. Qed.

Lemma fold_grows {A B} (f : ControlStore * B → A → ControlStore * B) l acc :
  (∀ acc a, queue_grows acc.1 (f acc a).1) → queue_grows acc.1 (fold_left f l acc).1.
Proof.
  intros Hf. revert acc. induction l as [|a l IH]; intros acc; cbn; [done|]. etrans; [apply Hf|apply IH].
Qed.

Lemma claim_grows w limit ttl now uuid s : queue_grows s (claim w limit ttl now uuid s).1.
Proof.
  unfold claim. cbn [fst]. generalize (imap pair (first_n limit (claim_candidates s now))). intros l.
  revert s. induction l as [|x l IH]; intros s; cbn; [done|].
  etrans; [|apply IH]. eapply grows_dset. reflexivity.
Qed.

Lemma start_loop_grows r rt limit now uuid entries s claimed :
  queue_grows s (start_loop r rt limit now uuid entries s claimed).1.
Proof.
  revert s claimed. induction entries as [|[t [a st]] entries IH]; intros s claimed; cbn [start_loop]; [done|].
  destruct (startable _ _ _ _ _); [|apply IH]. unfold start_assignment.
  case_match; [by apply grows_same|]. etrans; [|apply IH]. by apply grows_same.
Qed.

Lemma recover_grows now s : queue_grows s (recover_expired now s).1.
Proof.
  unfold recover_expired. etrans; [|apply fold_grows].
  - etrans; [|apply (fold_grows _ _ (_, _))]; [by apply grows_same|].
    intros [s1 n] [t [a st]]. cbn. case_match; [apply expire_grows|done].
  - intros [s1 n] [t [[item st] owner]]. cbn. case_match; [apply requeue_grows|done].
Qed.

(** No operation of the control store forgets a task. *)
Lemma run_cop_grows s op : queue_grows s (run_cop s op).
Proof.
  destruct op; cbn [run_cop].
  - apply enqueue_grows.
  - apply claim_grows.
  - unfold reschedule. queue_cases.
  - unfold acquire_lease. queue_cases.
  - unfold renew_lease. cbv zeta. queue_cases.
  - unfold release_lease. queue_cases.
  - unfold assign. queue_cases.
  - unfold claim_assignments. repeat case_match; auto with queue. apply start_loop_grows.
  - unfold renew_assignment_claim. cbv zeta. queue_cases.
  - unfold abandon_stale_assignment. repeat case_match; auto with queue. apply expire_grows.
  - apply finish_grows.
  - unfold suspend_assignment. case_match; cbn [or_same]; [done|apply finish_grows].
  - unfold suspend_with_checkpoint. cbv zeta. repeat case_match; cbn [or_same]; try done;
      (etrans; [|apply settle_queue_grows]; auto with queue).
  - apply wake_grows.
  - unfold register_runtime. repeat case_match; cbn [or_same]; auto with queue.
  - unfold heartbeat. repeat case_match; cbn [or_same]; auto with queue.
  - unfold reserve_capacity. queue_cases.
  - by apply grows_same.
  - unfold save_checkpoint. repeat case_match; cbn [or_same]; auto with queue.
  - by apply grows_same.
  - apply recover_grows.
Qed.

Lemma wake_coordinator_grows g s : queue_grows s (wake_waiting_coordinator g s).1.
Proof.
  unfold wake_waiting_coordinator.
  assert (∀ t b, queue_grows s (let '(s', w) := wake_assignment t s in (s', Ok w : res bool)).1
          ∧ queue_grows s (if b : bool then ((wake_assignment t s).1, Ok false : res bool) else (s, Ok false)).1) as Hw.
  { intros t b. pose proof (wake_grows t s). split; [by destruct (wake_assignment t s)|by destruct b]. }
  destruct (dget _ _) as [root|]; [|done]. destruct (cn_run_id root) as [run|]; [|done].
  destruct (terminal_node root); [done|]. destruct (load_checkpoint _ _ _ _) as [c|]; [|apply Hw].
  destruct (negb _); [apply Hw|]. destruct (wait_set g c) as [[w|]|]; [|done|done].
  destruct (negb _); [done|apply (Hw _ true)].
Qed.

Lemma offer_grows e item s : queue_grows s (offer_item e item s).1.
Proof.
  destruct item as [item|]; [|done]. cbn [offer_item]. pose proof (enqueue_grows item s) as Hg.
  destruct (enqueue item s) as [s1 b]. cbn [fst] in *. destruct b; [done|]. case_match; [|done].
  pose proof (wake_grows (ri_task_id item) s1) as Hw. destruct (wake_assignment _ s1).
  etrans; [exact Hg|exact Hw].
Qed.

Lemma offer_queued e item s : queued (offer_item e (Some item) s).1 (ri_task_id item).
Proof.
  cbn [offer_item]. pose proof (enqueue_queued item s) as Hq.
  destruct (enqueue item s) as [s1 b]. cbn [fst] in *. destruct b; [done|]. case_match; [|done].
  pose proof (wake_grows (ri_task_id item) s1) as Hw. destruct (wake_assignment _ s1). by apply Hw.
Qed.

Lemma children_grows src e s : queue_grows s (feed_children src e s).1.1.
Proof.
  unfold feed_children. case_match; [done|]. case_match; [|done]. case_match.
  pose proof (fold_grows (λ acc item, let '(s, inserted) := enqueue item acc.1 in (s, acc.2 + count inserted))
    l (s, 0)) as Hg. unfold enqueue_all.
  destruct (fold_left _ l (s, 0)) as [s1 n]. cbn [fst] in Hg.
  pose proof (wake_coordinator_grows c s1) as Hw. destruct (wake_waiting_coordinator c s1) as [s2 r].
  cbn [fst] in Hw. assert (queue_grows s s1) as Hs1.
  { apply Hg. intros [s3 m] item. pose proof (enqueue_grows item s3). cbn. by destruct (enqueue item s3). }
  destruct r; (etrans; [exact Hs1|exact Hw]).
Qed.

Lemma settle_terminal_grows src e s s' : settle_terminal src e s = Ok s' → queue_grows s s'.
Proof.
  unfold settle_terminal. case_match; [intros; by simplify_eq|].
  destruct (list_find _ _) as [[i t]|]; [|intros; by simplify_eq].
  destruct (pending_skill_invocations _ _); intros Hs; [|unfold suspend_assignment in Hs; split_guards];
    simplify_eq; apply finish_grows.
Qed.

Lemma feed_record_grows src e s : queue_grows s (feed_record src e s).1.1.
Proof.
  unfold feed_record. destruct (settle_terminal src e s) as [s1|] eqn:E1; [|done].
  apply settle_terminal_grows in E1. destruct (derive_item src e) as [item|]; [|done].
  pose proof (offer_grows e item s1) as H2. destruct (offer_item e item s1) as [s2 n].
  pose proof (children_grows src e s2) as H3. destruct (feed_children src e s2) as [[s3 n'] r]. cbn in *.
  etrans; [exact E1|]. by etrans.
Qed.

(** A record that was handled has its item in the queue. *)
Lemma feed_record_queues src e s s' n u item :
  feed_record src e s = (s', n, Ok u) → derive_item src e = Ok (Some item) → queued s' (ri_task_id item).
Proof.
  intros Hf Hd. unfold feed_record in Hf. rewrite Hd in Hf.
  destruct (settle_terminal src e s) as [s1|]; [|done].
  pose proof (offer_queued e item s1) as H2. destruct (offer_item e (Some item) s1) as [s2 n1].
  pose proof (children_grows src e s2) as H3. destruct (feed_children src e s2) as [[s3 n'] r]. cbn in *.
  simplify_eq. by apply H3.
Qed.

(** What a user's request asks of the queue. *)
Definition request_queued (s : ControlStore) (e : CanonicalEvent) : Prop :=
  ∀ item, derive_from_record e = Ok (Some item) → queued s (ri_task_id item).

Lemma request_queued_grows s s' e : queue_grows s s' → request_queued s e → request_queued s' e.
Proof. intros Hg Hr item Hi. by apply Hg, Hr. Qed.

Lemma feed_record_requested src e s s' n u :
  feed_record src e s = (s', n, Ok u) → request_queued s' e.
Proof.
  intros Hf item Hi.
  assert (derive_item src e = Ok (Some (complete_owner src item))) as Hd.
  { unfold derive_item. by rewrite Hi. }
  pose proof (feed_record_queues _ _ _ _ _ _ _ Hf Hd) as Hq. unfold complete_owner in Hq. by case_match.
Qed.

(** The record a claim stands for. *)
Definition claim_of (src : EventStore) (c : ClaimedOutboxRecord) : Prop :=
  ∃ r, r ∈ es_outbox src ∧ co_outbox_id c = pretty (ob_outbox_id r) ∧ co_event c = ob_event r.

Definition acked_queued (s : ControlStore) (r : OutboxRecord) : Prop :=
  ob_destination r = "control" → ob_published r = true → request_queued s (ob_event r).

Record feed_ok (f : Feed) : Prop := {
  fo_store : store_ok (fd_source f);
  fo_acked : Forall (acked_queued (fd_control f)) (es_outbox (fd_source f));
  fo_acks : Forall (λ c, claim_of (fd_source f) c ∧ request_queued (fd_control f) (co_event c)) (fd_ack_tasks f);
}.

Lemma claim_of_core src src' c :
  map ob_core (es_outbox src') = map ob_core (es_outbox src) → claim_of src c → claim_of src' c.
Proof.
  intros Hc (r & Hr & Hid & He). apply list_elem_of_lookup in Hr as [i Hi].
  destruct (core_lookup (es_outbox src') (es_outbox src) i r (eq_sym Hc) Hi) as (r' & Hr' & Heq).
  injection Heq as H1 H2 H3 H4. exists r'. split; [by eapply list_elem_of_lookup_2|]. by rewrite H1, H4.
Qed.

Lemma claim_of_app src src' new c :
  map ob_core (es_outbox src') = map ob_core (es_outbox src) ++ new → claim_of src c → claim_of src' c.
Proof.
  intros Hc (r & Hr & Hid & He). apply list_elem_of_lookup in Hr as [i Hi].
  assert (map ob_core (es_outbox src') !! i = Some (ob_core r)) as Hl.
  { rewrite Hc. apply lookup_app_l_Some. change (map ob_core) with (fmap (M := list) ob_core).
    by rewrite list_lookup_fmap, Hi. }
  change (map ob_core) with (fmap (M := list) ob_core) in Hl. rewrite list_lookup_fmap in Hl.
  destruct (es_outbox src' !! i) as [r'|] eqn:Er; [|done]. cbn in Hl. injection Hl as H1 H2 H3 H4.
  exists r'. split; [by eapply list_elem_of_lookup_2|]. by rewrite H1, H4.
Qed.

(** Every interleaving of passes, acknowledgements, and operations of other
    components on the two stores; only this feed acknowledges [control] records.  A pass
    may run as a whole, or in parts between which the others act: its claim (an operation
    on the source), each of its claimed records, and its recovery. *)
Inductive feed_step : Feed → Feed → Prop :=
  | step_run worker limit interval clock f : feed_step f (run_once worker limit interval clock f).1
  | step_record worker now f c :
      claim_of (fd_source f) c → feed_step f (feed_one worker now f c).1
  | step_recover interval now f : feed_step f (recover_waiting interval now f).1
  | step_ack worker now f l1 c l2 :
      fd_ack_tasks f = l1 ++ c :: l2 →
      feed_step f (run_ack worker now c f <| fd_ack_tasks := l1 ++ l2 |>)
  | step_source f op :
      leaves "control" op → feed_step f (f <| fd_source := run_op (fd_source f) op |>)
  | step_control f op : feed_step f (f <| fd_control := run_cop (fd_control f) op |>).

Definition feed_init : Feed := mkFeed empty_store new_control [] 0.

(** The control side moves forward. *)
Lemma feed_ok_control f s :
  feed_ok f → queue_grows (fd_control f) s → feed_ok (f <| fd_control := s |>).
Proof.
  intros [H1 H2 H3] Hg. split; cbn; [done| |].
  - eapply Forall_impl; [exact H2|]. intros r Hr Hd Hp. by eapply request_queued_grows, Hr.
  - eapply Forall_impl; [exact H3|]. intros c [Hc Hr]. split; [done|by eapply request_queued_grows].
Qed.

(** The source side moves, without publishing [control] records. *)
Lemma feed_ok_source f op :
  feed_ok f → leaves "control" op → feed_ok (f <| fd_source := run_op (fd_source f) op |>).
Proof.
  intros [H1 H2 H3] Hop. split; cbn; [by apply op_keeps_ok| |].
  - apply Forall_forall. intros r' Hr' Hd Hp. rewrite Forall_forall in H2.
    destruct (op_publishes_nothing _ op _ H1 Hop r' Hr' Hd Hp) as (r & Hr & Hc & Hpr).
    injection Hc as _ _ Hd' He. rewrite <- He. apply (H2 r Hr); congruence.
  - destruct (op_outbox_core (fd_source f) op H1) as [new Hn]. eapply Forall_impl; [exact H3|].
    intros c [Hc Hr]. split; [by eapply claim_of_app|done].
Qed.

Lemma feed_ok_acks f l :
  feed_ok f → Forall (λ c, claim_of (fd_source f) c ∧ request_queued (fd_control f) (co_event c)) l →
  feed_ok (f <| fd_ack_tasks := l |>).
Proof. intros [H1 H2 H3] Hl. by split. Qed.

Lemma claim_record_unique src r r' c :
  store_ok src → r ∈ es_outbox src → co_outbox_id c = pretty (ob_outbox_id r) →
  find_first (has_outbox_id (co_outbox_id c)) (es_outbox src) = Some r' → r' = r.
Proof.
  intros Hok Hr Hid Hf. destruct (update_first_split _ (λ x, x) _ _ Hf) as (l1 & l2 & Hl & Hp & _).
  unfold has_outbox_id in Hp. bool_props. rewrite Hid in Hp. apply (inj pretty) in Hp.
  assert (r' ∈ es_outbox src) as Hr' by (rewrite Hl; apply elem_of_app; right; left).
  apply list_elem_of_lookup in Hr as [i Hi], Hr' as [j Hj].
  destruct (so_numbered _ Hok _ _ Hi) as [E1 _], (so_numbered _ Hok _ _ Hj) as [E2 _].
  assert (i = j) as -> by lia. congruence.
Qed.

Lemma ack_keeps worker now c f :
  feed_ok f → claim_of (fd_source f) c → request_queued (fd_control f) (co_event c) →
  feed_ok (run_ack worker now c f).
Proof.
  intros [H1 H2 H3] Hc Hq. unfold run_ack.
  set (op := OpDispose "control" worker (co_outbox_id c) (co_claim_token c) "ack" now).
  assert ((disposition_outbox "control" worker (co_outbox_id c) (co_claim_token c) "ack" now (fd_source f)).1
          = run_op (fd_source f) op) as -> by done.
  split; [exact (op_keeps_ok _ op H1)| |].
  - change (Forall (acked_queued (fd_control f)) (es_outbox (disposition_outbox "control" worker
      (co_outbox_id c) (co_claim_token c) "ack" now (fd_source f)).1)). unfold disposition_outbox. destruct (find_first _ _) as [r|] eqn:Ef; [|done].
    destruct (negb _); [done|]. cbn [dispose String.eqb Ascii.eqb Bool.eqb].
    destruct Hc as (r0 & Hr0 & Hid & He).
    assert (r = r0) as -> by (by eapply claim_record_unique).
    destruct (update_first_split _ (λ _, release (r0 <| ob_published := true |>)) _ _ Ef) as (l1 & l2 & Hl & _ & Hu).
    cbn [fst]. change (es_outbox (?s <| es_outbox := ?l |>)) with l. cbn. rewrite Hu. rewrite Hl in H2.
    apply Forall_app in H2 as [Hl1 Hl2]. apply Forall_cons in Hl2 as [_ Hl2].
    apply Forall_app. split; [done|]. constructor; [|done]. intros _ _. cbn. by rewrite <- He.
  - destruct (op_outbox_core (fd_source f) op H1) as [new Hn]. eapply Forall_impl; [exact H3|].
    intros c' [Hc' Hr]. split; [by eapply claim_of_app|done].
Qed.

Lemma claim_loop_claimed d w limit ttl now uuid blocked claimed l c :
  c ∈ (claim_loop d w limit ttl now uuid blocked claimed l).2 →
  c ∈ claimed ∨ ∃ r, r ∈ l ∧ co_outbox_id c = pretty (ob_outbox_id r) ∧ co_event c = ob_event r.
Proof.
  revert blocked claimed. induction l as [|r l IH]; intros blocked claimed; cbn [claim_loop]; [by left|].
  assert (∀ blocked claimed, c ∈ (claim_loop d w limit ttl now uuid blocked claimed l).2 →
    c ∈ claimed ∨ ∃ r0, r0 ∈ r :: l ∧ co_outbox_id c = pretty (ob_outbox_id r0) ∧ co_event c = ob_event r0) as IH'.
  { intros b cl Hin. destruct (IH _ _ Hin) as [?|(r0 & ? & ?)]; [by left|]. right. exists r0.
    split; [by right|done]. }
  clear IH. cbv zeta.
  repeat match goal with
  | |- context [if ?b then _ else _] => destruct b
  | |- context [let '(_, _) := claim_loop ?d ?w ?li ?t ?n ?u ?b ?cl l in _] =>
      pose proof (IH' b cl); destruct (claim_loop d w li t n u b cl l)
  end; cbn [snd] in *; try done.
  - intros [?|Hx%list_elem_of_singleton]%elem_of_app; [by left|]. subst c. right. exists r. split; [left|done].
  - intros Hin. destruct (H Hin) as [[?|Hx%list_elem_of_singleton]%elem_of_app|?]; [by left| |by right].
    subst c. right. exists r. split; [left|done].
Qed.

Lemma feed_one_keeps worker now f c :
  feed_ok f → claim_of (fd_source f) c →
  feed_ok (feed_one worker now f c).1
  ∧ ∀ c', claim_of (fd_source f) c' → claim_of (fd_source (feed_one worker now f c).1) c'.
Proof.
  intros Hok Hc. unfold feed_one.
  pose proof (feed_record_grows (fd_source f) (co_event c) (fd_control f)) as Hg.
  destruct (feed_record (fd_source f) (co_event c) (fd_control f)) as [[s n] [u|cl m]] eqn:Ef; cbn [fst] in *.
  - split; [|done]. pose proof (feed_ok_control f s Hok Hg) as Hok1.
    apply (feed_ok_acks (f <| fd_control := s |>)); [done|]. apply Forall_app. split; [apply Hok1|].
    constructor; [|done]. split; [done|]. by eapply feed_record_requested.
  - set (op := OpDispose "control" worker (co_outbox_id c) (co_claim_token c) "nack" now).
    split; [|].
    + assert (leaves "control" op) as Hop by (by right).
      exact (feed_ok_source _ op (feed_ok_control f s Hok Hg) Hop).
    + intros c' Hc'. destruct (op_outbox_core (fd_source f) op (fo_store _ Hok)) as [new Hn].
      exact (claim_of_app (fd_source f) (run_op (fd_source f) op) new c' Hn Hc').
Qed.

Lemma feed_loop_keeps worker now records f n :
  feed_ok f → Forall (claim_of (fd_source f)) records → feed_ok (feed_loop worker now records f n).1.
Proof.
  revert f n. induction records as [|c records IH]; intros f n Hok Hr; cbn [feed_loop]; [done|].
  apply Forall_cons in Hr as [Hc Hr].
  destruct (feed_one_keeps worker (now (length records)) f c Hok Hc) as [Hok1 Hcl].
  destruct (feed_one worker (now (length records)) f c) as [f1 k]. cbn [fst] in *.
  apply IH; [done|]. eapply Forall_impl; [exact Hr|]. done.
Qed.

Lemma wake_all_grows tasks s : queue_grows s (wake_all tasks s).1.
Proof.
  unfold wake_all. apply (fold_grows _ _ (s, 0)). intros [s1 n] t. cbn.
  pose proof (wake_grows t s1). by destruct (wake_assignment t s1).
Qed.

Lemma recover_coordinators_grows src waiting s n :
  queue_grows s (recover_coordinators src waiting s n).1.
Proof.
  revert s n. induction waiting as [|a waiting IH]; intros s n; cbn [recover_coordinators]; [done|].
  destruct (load_root _ _ _ _ _); [apply IH|]. destruct (collab_from_events _ _ _); [|done].
  match goal with |- context [wake_waiting_coordinator ?g s] =>
    pose proof (wake_coordinator_grows g s) as Hw; destruct (wake_waiting_coordinator g s) as [s1 [b|]] end;
    [|done]. etrans; [exact Hw|apply IH].
Qed.

Lemma recover_waiting_keeps interval monotonic f : feed_ok f → feed_ok (recover_waiting interval monotonic f).1.
Proof.
  intros Hok. unfold recover_waiting. destruct (monotonic <? _); [done|].
  assert (feed_ok (f <| fd_next_recovery := monotonic + Z.max 0 interval |>)) as Hok1 by (by destruct Hok).
  revert Hok1. generalize (f <| fd_next_recovery := monotonic + Z.max 0 interval |>). clear f Hok. intros f Hok.
  unfold recover_waiting_coordinators.
  pose proof (recover_coordinators_grows (fd_source f)
    (list_waiting_assignments 100 "waiting_children" (fd_control f)) (fd_control f) 0) as Hg.
  destruct (recover_coordinators _ _ _ _) as [s1 [n1|]]; cbn [fst] in Hg; [|by apply feed_ok_control].
  unfold recover_waiting_tools, recover_waiting_approvals.
  match goal with |- context [wake_all ?t s1] =>
    pose proof (wake_all_grows t s1) as H2; destruct (wake_all t s1) as [s2 n2] end.
  match goal with |- context [wake_all ?t s2] =>
    pose proof (wake_all_grows t s2) as H3; destruct (wake_all t s2) as [s3 n3] end.
  cbn [fst] in *. apply feed_ok_control; [done|]. etrans; [exact Hg|]. etrans; [exact H2|exact H3].
Qed.

Lemma run_once_keeps worker limit interval clock f :
  feed_ok f → feed_ok (run_once worker limit interval clock f).1.
Proof.
  intros Hok. unfold run_once.
  set (op := OpClaim "control" worker limit (30 * second) (fc_claim clock) (fc_uuid clock)).
  pose proof (feed_ok_source f op Hok I) as Hok1. cbn [run_op op] in Hok1.
  pose proof (op_outbox_core (fd_source f) op (fo_store _ Hok)) as [new Hnew].
  unfold op in Hnew. cbn [run_op] in Hnew. unfold claim_outbox_once in *.
  pose proof (claim_loop_claimed "control" worker limit (30 * second) (fc_claim clock) (fc_uuid clock) [] []
                (es_outbox (fd_source f))) as Hcl.
  destruct (claim_loop _ _ _ _ _ _ _ _ _) as [outbox records]. cbn [fst snd] in *.
  pose proof (feed_loop_keeps worker (fc_nack clock) records
    (f <| fd_source := fd_source f <| es_outbox := outbox |> |>) 0 Hok1) as Hok2.
  destruct (feed_loop _ _ _ _ _) as [f1 n]. cbn [fst] in Hok2.
  assert (feed_ok f1) as Hok3.
  { apply Hok2. apply Forall_forall. intros c Hc. destruct (Hcl c Hc) as [?%not_elem_of_nil|(r & Hr)]; [done|].
    apply (claim_of_app (fd_source f) _ new); [done|]. by exists r. }
  pose proof (recover_waiting_keeps interval (fc_monotonic clock) f1 Hok3) as Hok4.
  by destruct (recover_waiting _ _ _) as [f2 []].
Qed.

Lemma feed_step_ok f f' : feed_ok f → feed_step f f' → feed_ok f'.
Proof.
  intros Hok Hs. destruct Hs as [worker limit interval clock f|worker now f c Hc|interval now f|worker now f l1 c l2 Hl|f op Hop|f op].
  - by apply run_once_keeps.
  - by apply feed_one_keeps.
  - by apply recover_waiting_keeps.
  - pose proof (fo_acks _ Hok) as Ha. rewrite Hl in Ha. apply Forall_app in Ha as [Ha1 Ha2].
    apply Forall_cons in Ha2 as [[Hc Hq] Ha2].
    pose proof (ack_keeps worker now c f Hok Hc Hq) as Hok1.
    apply feed_ok_acks; [done|]. pose proof (fo_acks _ Hok1) as Ha.
    change (fd_ack_tasks (run_ack worker now c f)) with (fd_ack_tasks f) in Ha. rewrite Hl in Ha.
    apply Forall_app in Ha as [? Ha']. apply Forall_cons in Ha' as [_ ?]. by apply Forall_app.
  - by apply feed_ok_source.
  - apply feed_ok_control; [done|apply run_cop_grows].
Qed.

Lemma feed_reachable_ok f : rtc feed_step feed_init f → feed_ok f.
Proof.
  assert (feed_ok feed_init) as H0 by (split; [apply empty_ok|constructor|constructor]).
  revert H0. generalize feed_init. intros f0 H0. induction 1; eauto using feed_step_ok.
Qed.

(** C18. No run that a user requests is lost between the stores: whatever the
    interleaving of feed passes (whole, or record by record), late acknowledgements and
    other work on both stores, when the outbox record of a user's run request has been
    acknowledged its run is known to the control queue.  The requests of Coordinators and
    runtimes, which are queued when their dependencies are completed, are not covered. *)
Theorem acknowledged_request_is_queued f r item :
  rtc feed_step feed_init f → r ∈ es_outbox (fd_source f) → ob_destination r = "control" →
  ob_published r = true → derive_from_record (ob_event r) = Ok (Some item) →
  ∃ entry, dget (ri_task_id item) (ct_queue (fd_control f)) = Some entry.
Proof.
  intros Hr%feed_reachable_ok Hin Hd Hp Hi. pose proof (fo_acked _ Hr) as Ha. rewrite Forall_forall in Ha.
  pose proof (Ha r Hin Hd Hp item Hi) as Hq. unfold queued in Hq. apply dmem_true in Hq.
  unfold dmem in Hq. case_match; [by eexists|done].
Qed.

(** ** Witnesses *)

Module FeedExamples.
Definition user : Actor := mkActor "user" "u1".
Definition event (ty : string) (version : Z) (actor : Actor) (run : option string) (p : payload) : CanonicalEvent :=
  mkCanonicalEvent ("e" +:+ pretty version) "t" "s" "s" run version ty version actor "c" "k" VUser 1 p.
Definition created : CanonicalEvent :=
  event "session.created" 1 user None
    [("goal", JStr "g"); ("role", JStr "root"); ("root_session_id", JStr "s"); ("dept_id", JStr "d7");
     ("skill_names", jstrs ["search"])].
Definition first_run : CanonicalEvent :=
  event "run.requested" 2 user (Some "r1") [("run_id", JStr "r1"); ("budget", JObj [("max_steps", JInt 5)]);
    ("dept_id", JStr "d7"); ("skill_names", jstrs ["search"])].
Definition first_end : CanonicalEvent := event "run.completed" 3 (mkActor "runtime" "x") (Some "r1") [].
Definition second_run (actor : Actor) : CanonicalEvent :=
  event "run.requested" 4 actor (Some "r2") [("run_id", JStr "r2"); ("budget", JObj [("max_steps", JInt 9)]);
    ("dept_id", JStr "d7"); ("skill_names", jstrs ["search"])].

Lemma derive_exact_witness :
  ∃ i, derive [created; first_run; first_end; second_run user] 4 = Ok (Some i)
    ∧ ri_run_id i = "r2" ∧ ¬ held_back [created; first_run; first_end; second_run user] "r2"
    ∧ derive [created; first_run; first_end] 3 = Ok None.
Proof.
  destruct (derive [created; first_run; first_end; second_run user] 4) as [[i|]|] eqn:E;
    [|vm_compute in E; discriminate E..].
  exists i. destruct (derive_exact _ _ _ E) as (H1 & H2 & _).
  assert (ri_run_id i = "r2") as Hr by (vm_compute in E; injection E as <-; reflexivity).
  rewrite Hr in H2. split; [reflexivity|]. split; [exact Hr|]. split; [exact H2|]. vm_compute. reflexivity.
Defined.

Lemma second_request : root_request created (second_run user) ["search"].
Proof. split; try (vm_compute; reflexivity). repeat constructor. discriminate. Qed.

Lemma hot_path_agrees_witness :
  ∃ i, derive_from_record (second_run user) = Ok (Some i)
    ∧ derive [created; first_run; first_end; second_run user] 4 = Ok (Some i).
Proof.
  destruct (derive_from_record (second_run user)) as [[i|]|] eqn:E; [|vm_compute in E; discriminate E..].
  exists i. split; [reflexivity|]. rewrite <- E. symmetry.
  apply (hot_path_agrees created [first_run; first_end] (second_run user) ["search"] second_request).
  - repeat constructor.
  - vm_compute. reflexivity.
  - apply (bool_decide_eq_true_1 (_ ∉ _)). vm_compute. reflexivity.
  - discriminate.
  - discriminate.
  - left. reflexivity.
Defined.

(** A run that somebody else requests is queued for the requester on the hot path and
    for the Session's owner when it is derived from the stream. *)
Example hot_path_owner_differs :
  match derive_from_record (second_run (mkActor "user" "u2")),
        derive [created; first_run; first_end; second_run (mkActor "user" "u2")] 4 with
  | Ok (Some i), Ok (Some j) => (ri_task_id i, ri_user_id i) = (ri_task_id j, Some "u2") ∧ ri_user_id j = Some "u1"
  | _, _ => False
  end.
Proof. vm_compute. split; reflexivity. Qed.

(** A task is created, the feed passes over it and acknowledges. *)
Definition append_op : StoreOp :=
  OpAppend (mkSupply (λ i, pretty i) (λ i, Z.of_nat i)) "s" "s" (Some "r1")
    (mkContext "c1" "t" user "corr" 0 "create" None None)
    [mkNewEvent (ev_type created) (ev_payload created) VUser;
     mkNewEvent (ev_type first_run) (ev_payload first_run) VUser] [].
Definition clock : FeedClock := mkFeedClock 100 (λ i, pretty i) (λ _, 200) 300.
Definition f1 : Feed := feed_init <| fd_source := run_op empty_store append_op |>.
Definition f2 : Feed := (run_once "w" 10 0 clock f1).1.
Definition ack : ClaimedOutboxRecord :=
  match fd_ack_tasks f2 with c :: _ => c | [] => mkClaimed "" "" created "" 0 end.
Definition f3 : Feed := run_ack "w" 400 ack f2 <| fd_ack_tasks := [] |>.

Lemma f3_reachable : rtc feed_step feed_init f3.
Proof.
  apply (rtc_l _ _ f1); [exact (step_source feed_init append_op I)|].
  apply (rtc_l _ _ f2); [exact (step_run "w" 10 0 clock f1)|].
  apply rtc_once. apply (step_ack "w" 400 f2 [] ack []). vm_compute. reflexivity.
Qed.

Lemma acknowledged_request_is_queued_witness :
  ∃ r item, r ∈ es_outbox (fd_source f3) ∧ ob_published r = true
    ∧ derive_from_record (ob_event r) = Ok (Some item) ∧ ri_task_id item = "t:s:r1"
    ∧ ∃ entry, dget "t:s:r1" (ct_queue (fd_control f3)) = Some entry.
Proof.
  destruct (es_outbox (fd_source f3) !! 2%nat) as [r|] eqn:E; [|vm_compute in E; discriminate E].
  assert (option_map (λ r, (ob_destination r, ob_published r)) (es_outbox (fd_source f3) !! 2%nat)
          = Some ("control", true)) as Hr by (vm_compute; reflexivity).
  assert (option_map (λ r, match derive_from_record (ob_event r) with
                           | Ok (Some i) => ri_task_id i | _ => "" end) (es_outbox (fd_source f3) !! 2%nat)
          = Some "t:s:r1") as Hi by (vm_compute; reflexivity).
  rewrite E in Hr, Hi. cbn [option_map] in Hr, Hi. injection Hr as Hd Hp. injection Hi as Hi.
  destruct (derive_from_record (ob_event r)) as [[item|]|] eqn:Ei; [|discriminate Hi..].
  exists r, item. split; [exact (list_elem_of_lookup_2 _ _ _ E)|]. split; [exact Hp|]. split; [exact Ei|].
  split; [exact Hi|]. rewrite <- Hi.
  apply (acknowledged_request_is_queued f3 r item f3_reachable (list_elem_of_lookup_2 _ _ _ E) Hd Hp Ei).
Defined.
End FeedExamples.
