(* ===== verification/Orchestrator.v ===== *)
(** * The orchestrator ([control/orchestrator.py], [runtime/clients.py])

    The scheduler: it claims one queued item, takes the lease of its Session, asks a
    provisioner for a runtime, assigns the run to it and records the fact in the
    Session's stream through the fenced Session client; when something is missing it
    releases the lease and puts the item back.  The Session client and the
    provisioner are ports with their implementations as instances.  The wake call to
    the runtime and the log lines are left out. *)

From S2P Require Import Prelude PyValue DateTime Contracts Collaboration RuntimeBudget.
From S2P Require Import SkillExecution EventStore ControlStore.
Local Open Scope Z_scope.

(** ** The fenced Session client *)

Definition append_at (su : Supply) (a : RuntimeAssignment) (events : list NewEvent)
    (command_id operation : string) (expected_version : Z) (s : EventStore)
    : EventStore * res (list CanonicalEvent) :=
  let '(s, r) := append su (ra_root_session_id a) (ra_session_id a) (Some (ra_run_id a))
    (mkContext command_id (ra_tenant_id a) (mkActor "runtime" (ra_runtime_id a)) (ra_run_id a)
       expected_version operation None None) events
    [("session_id", JStr (ra_session_id a)); ("run_id", JStr (ra_run_id a))] s in
  (s, apr_events <$> r).

Definition stream_length (s : EventStore) (a : RuntimeAssignment) : Z :=
  Z.of_nat (length (load s (ra_tenant_id a) (ra_session_id a) 1 None None)).

(** [FencedSessionClient.append]: a conflict with the version the caller named is
    retried once at the end of the stream. *)
Definition fenced_append (su su' : Supply) (now : Z) (a : RuntimeAssignment) (events : list NewEvent)
    (command_id operation : string) (expected_version : option Z) (control : ControlStore) (s : EventStore)
    : EventStore * res (list CanonicalEvent) :=
  match assert_fencing (resource_of a) (ra_fencing_token a) now control with
  | Raise c m => (s, Raise c m)
  | Ok _ =>
      let version := match expected_version with Some v => v | None => stream_length s a end in
      match append_at su a events command_id operation version s with
      | (s, Raise VersionConflictError m) =>
          match expected_version with
          | None => (s, Raise VersionConflictError m)
          | Some _ => append_at su' a events command_id operation (stream_length s a) s
          end
      | r => r
      end
  end.

(** [FencedSessionClient.load] *)
Definition fenced_load (now : Z) (a : RuntimeAssignment) (control : ControlStore) (s : EventStore)
    : res (list CanonicalEvent) :=
  _ ← assert_fencing (resource_of a) (ra_fencing_token a) now control;
  Ok (load s (ra_tenant_id a) (ra_session_id a) 1 None None).

(** The Session port of the scheduler: supplies, clock, and the arguments of [append]. *)
Class SessionClient := {
  sc_append : Supply * Supply → Z → RuntimeAssignment → list NewEvent → string → string → option Z →
    ControlStore → EventStore → EventStore * res (list CanonicalEvent);
}.

Definition fenced_client : SessionClient := {|
  sc_append su now := fenced_append su.1 su.2 now;
|}.

(** ** Provisioners *)

Class RuntimeProvisioner (V : Type) := {
  pv_provision : (nat → Z) → RunnableItem → RuntimeLease → ControlStore → V → V * res RuntimeInstance;
  pv_cancel : string → V → V;
}.

(** [LocalRuntimeProvisioner]: a new runtime for each run. *)
Record LocalProvisioner := mkLocal {
  lp_node_id : string;
  lp_counter : Z;
  lp_cancelled : gset string;
}.

#[global] Instance local_provisioner : RuntimeProvisioner LocalProvisioner := {
  pv_provision _ item _ _ v :=
    let counter := lp_counter v + 1 in
    (mkLocal (lp_node_id v) counter (lp_cancelled v),
     Ok (mkRuntime ("runtime-" +:+ lp_node_id v +:+ "-" +:+ pretty counter) "agent" AGENT_RUNTIME_POOL
           (lp_node_id v) (runtime_requirements_from_profile (ri_required_capability item)) 1 "legacy"));
  pv_cancel runtime_id v := mkLocal (lp_node_id v) (lp_counter v) ({[runtime_id]} ∪ lp_cancelled v);
}.

(** [RegisteredRuntimeProvisioner]: a healthy member of the pool. *)
Inductive RegisteredProvisioner := Registered.

#[global] Instance registered_provisioner : RuntimeProvisioner RegisteredProvisioner := {
  pv_provision clock item _ control v :=
    (v, match select_runtime item clock control with
        | Some r => Ok r
        | None => Raise RuntimeCapacityUnavailable
                    ("no Runtime capacity is available for role=" +:+ ri_role item)
        end);
  pv_cancel _ v := v;
}.

(** ** The scheduler *)

Record Orch (V : Type) := mkOrch {
  oc_events : EventStore;
  oc_control : ControlStore;
  oc_provisioner : V;
}.
Arguments mkOrch {V} _ _ _.
Arguments oc_events {V} _.
Arguments oc_control {V} _.
Arguments oc_provisioner {V} _.

(** The clock readings and identifiers of one call. *)
Record SchedClock := mkSchedClock {
  sk_claim : Z;
  sk_claim_uuid : nat → string;
  sk_acquire : Z;
  sk_lease_uuid : string;
  sk_select : nat → Z;
  sk_register : Z * Z;
  sk_assign : Z * Z;
  sk_fencing : Z;
  sk_supply : Supply * Supply;
  sk_reschedule : Z * Z;
  sk_delay : Z;
}.

Section orchestrator.
Context {V : Type} `{RuntimeProvisioner V} `{SessionClient}.
Context (id : string) (lease_ttl : Z) (register_selected : bool).

Definition with_control (st : Orch V) (s : ControlStore) : Orch V :=
  mkOrch (oc_events st) s (oc_provisioner st).

(** Give the item back to the queue, under the claim it was taken with. *)
Definition give_back (clock : SchedClock) (claim : ClaimedRunnable) (delay : Z) (s : ControlStore)
    : ControlStore :=
  reschedule (ri_task_id (cr_item claim)) (Some id) (Some (cr_claim_token claim)) delay
    (sk_reschedule clock).1 (sk_reschedule clock).2 s.

Definition undo (clock : SchedClock) (claim : ClaimedRunnable) (lease : RuntimeLease) (delay : Z)
    (s : ControlStore) : ControlStore :=
  give_back clock claim delay (release_lease lease s).

Definition new_assignment (item : RunnableItem) (runtime : RuntimeInstance) (lease : RuntimeLease)
    : RuntimeAssignment :=
  mkAssignment (ri_tenant_id item) (ri_root_session_id item) (ri_session_id item) (ri_run_id item)
    (rt_runtime_id runtime) (le_lease_id lease) (le_fencing_token lease) (ri_role item)
    (ri_required_capability item) (ri_deadline item) (ri_budget item) (Some (le_expires_at lease)) None
    (ri_user_id item) (ri_dept_id item) None None.

Definition lifecycle_events (previous : option RuntimeAssignment) (item : RunnableItem)
    (runtime : RuntimeInstance) (lease : RuntimeLease) : list NewEvent :=
  match previous with
  | Some p =>
      [mkNewEvent "runtime.failed"
         [("run_id", JStr (ri_run_id item)); ("runtime_id", JStr (ra_runtime_id p));
          ("error", JObj [("code", JStr "runtime_lease_expired"); ("category", JStr "orchestration");
                          ("retryable", JBool true)])] VInternal;
       mkNewEvent "runtime.reprovisioned"
         [("run_id", JStr (ri_run_id item)); ("previous_runtime_id", JStr (ra_runtime_id p));
          ("runtime_id", JStr (rt_runtime_id runtime)); ("lease_id", JStr (le_lease_id lease));
          ("fencing_token", JInt (le_fencing_token lease))] VInternal]
  | None =>
      [mkNewEvent "run.scheduled"
         [("run_id", JStr (ri_run_id item)); ("runtime_id", JStr (rt_runtime_id runtime));
          ("lease_id", JStr (le_lease_id lease)); ("fencing_token", JInt (le_fencing_token lease))] VInternal]
  end.

Definition schedule_command (item : RunnableItem) (lease : RuntimeLease) : string :=
  "orchestrator:schedule:" +:+ ri_run_id item +:+ ":" +:+ pretty (le_fencing_token lease).

(** The [try] body from the registration on. *)
Definition place (clock : SchedClock) (claim : ClaimedRunnable) (previous : option RuntimeAssignment)
    (lease : RuntimeLease) (runtime : RuntimeInstance) (st : Orch V)
    : Orch V * res (option RuntimeAssignment) :=
  let item := cr_item claim in
  match (if register_selected
         then register_runtime runtime (sk_register clock).1 (sk_register clock).2 (oc_control st)
         else Ok (oc_control st)) with
  | Raise c m => (st, Raise c m)
  | Ok s =>
      let a := new_assignment item runtime lease in
      match assign (ri_task_id item) a (cr_claim_token claim) (sk_assign clock).1 (sk_assign clock).2 s with
      | (s, false) => (with_control st (undo clock claim lease 0 s), Ok None)
      | (s, true) =>
          let st := with_control st s in
          match sc_append (sk_supply clock) (sk_fencing clock) a
                  (lifecycle_events previous item runtime lease) (schedule_command item lease)
                  "orchestrator.schedule" (Some (ri_source_version item)) s (oc_events st) with
          | (e, Ok _) => (mkOrch e s (oc_provisioner st), Ok (Some a))
          | (e, Raise c m) => (mkOrch e s (oc_provisioner st), Raise c m)
          end
      end
  end.

Definition schedule_once (clock : SchedClock) (st : Orch V) : Orch V * res (option RuntimeAssignment) :=
  let '(s, claimed) := claim id 1 (30 * second) (sk_claim clock) (sk_claim_uuid clock) (oc_control st) in
  match claimed with
  | [] => (with_control st s, Ok None)
  | claim :: _ =>
      let item := cr_item claim in
      let previous := get_assignment s (ri_task_id item) in
      match acquire_lease (session_resource (ri_tenant_id item) (ri_session_id item)) id lease_ttl
              (sk_acquire clock) (sk_lease_uuid clock) s with
      | (s, None) => (with_control st (give_back clock claim 0 s), Ok None)
      | (s, Some lease) =>
          let '(v, provisioned) := pv_provision (sk_select clock) item lease s (oc_provisioner st) in
          let st := mkOrch (oc_events st) s v in
          match provisioned with
          | Raise RuntimeCapacityUnavailable _ =>
              (with_control st (undo clock claim lease (sk_delay clock) s), Ok None)
          | Raise c m => (with_control st (undo clock claim lease 0 s), Raise c m)
          | Ok runtime =>
              match place clock claim previous lease runtime st with
              | (st, Raise c m) => (with_control st (undo clock claim lease 0 (oc_control st)), Raise c m)
              | r => r
              end
          end
      end
  end.

(** ** The other operations *)

Definition assignment_task_id (tenant_id session_id run_id : string) : string :=
  tenant_id +:+ ":" +:+ session_id +:+ ":" +:+ run_id.

Definition recover (now : Z) (st : Orch V) : Orch V * Z :=
  let '(s, n) := recover_expired now (oc_control st) in (with_control st s, n).

Definition release_lost (a : RuntimeAssignment) (now now' : Z) (st : Orch V) : Orch V :=
  with_control st (reschedule (assignment_task_id (ra_tenant_id a) (ra_session_id a) (ra_run_id a))
                     None None 0 now now' (oc_control st)).

(** [None if v is None else str(v)] *)
Definition text_or_none (v : json) : option string := if is_none v then None else Some (py_str v).

Definition watched_item (task : payload) : res RunnableItem :=
  tenant ← pget "tenant_id" task;
  session ← pget "session_id" task;
  run ← pget "run_id" task;
  version ← (v ← pget "projection_version" task; py_int v);
  priority ← py_int (pgetd "priority" (JInt 0) task);
  capability ← py_dict (pgetd "required_capability" (JObj []) task);
  max_steps ← py_int (pgetd "max_steps" (JInt 48) task);
  max_tokens ← py_int (pgetd "max_output_tokens" (JInt 8192) task);
  Ok (mkRunnable (assignment_task_id (py_str tenant) (py_str session) (py_str run)) (py_str tenant)
        (py_str (pgetd "root_session_id" (JStr (py_str session)) task)) (py_str session) (py_str run)
        version priority (py_str (pgetd "queue_partition" (JStr (py_str tenant)) task))
        (py_str (pgetd "role" (JStr "root") task)) capability None
        (mkRuntimeBudget max_steps max_tokens None "1")
        (text_or_none (pgetn "user_id" task)) (text_or_none (pgetn "dept_id" task))).

(** The two filters of [watch]; a status that cannot be hashed raises. *)
Definition watchable (task : payload) : res bool :=
  let status := pgetn "status" task in
  if negb (hashable status) then Raise PyTypeError "unhashable type" else
  Ok ((is_lit status "pending" || is_lit status "runnable")
      && match pgetn "runnable" task with JBool false => false | _ => true end).

Fixpoint watch (tasks : list payload) (enqueued : Z) (s : ControlStore) : ControlStore * res Z :=
  match tasks with
  | [] => (s, Ok enqueued)
  | task :: tasks =>
      match watchable task with
      | Raise c m => (s, Raise c m)
      | Ok false => watch tasks enqueued s
      | Ok true =>
          match watched_item task with
          | Raise c m => (s, Raise c m)
          | Ok item =>
              let '(s, inserted) := enqueue item s in
              watch tasks (if inserted then enqueued + 1 else enqueued) s
          end
      end
  end.

Definition orch_cancel (a : RuntimeAssignment) (st : Orch V) : Orch V :=
  mkOrch (oc_events st)
    (request_cancel (ra_tenant_id a) (ra_session_id a) (ra_run_id a) (oc_control st))
    (pv_cancel (ra_runtime_id a) (oc_provisioner st)).

Definition orch_heartbeat (a : RuntimeAssignment) (built now now' now'' : Z) (s : ControlStore)
    : ControlStore * res RuntimeLease :=
  match renew_lease (mkLease (session_resource (ra_tenant_id a) (ra_session_id a)) (ra_lease_id a) id
          (ra_fencing_token a) built) lease_ttl now now' s with
  | Raise c m => (s, Raise c m)
  | Ok (s, renewed) =>
      match heartbeat (ra_runtime_id a) (Some (ra_fencing_token a)) "legacy" now'' s with
      | Raise c m => (s, Raise c m)
      | Ok s => (s, Ok renewed)
      end
  end.

Definition reconcile (now : Z) (clock : SchedClock) (st : Orch V)
    : Orch V * res (option RuntimeAssignment) :=
  schedule_once clock (recover now st).1.

(** ** Scheduling in the control store *)

Lemma run_cops_app ops ops' s : run_cops (ops ++ ops') s = run_cops ops' (run_cops ops s).
Proof. unfold run_cops. by rewrite fold_left_app. Qed.

Definition control_history (s s' : ControlStore) : Prop := ∃ ops, s' = run_cops ops s.

#[local] Instance control_history_preorder : PreOrder control_history.
Proof.
  split; [intros s; by exists []|]. intros s1 s2 s3 [o1 ->] [o2 ->]. exists (o1 ++ o2). by rewrite run_cops_app.
Qed.

Lemma one_cop op s s' : run_cop s op = s' → control_history s s'.
Proof. intros <-. by exists [op]. Qed.

Lemma give_back_history clock claim delay s : control_history s (give_back clock claim delay s).
Proof.
  exact (one_cop (CReschedule (ri_task_id (cr_item claim)) (Some id) (Some (cr_claim_token claim)) delay
           (sk_reschedule clock).1 (sk_reschedule clock).2) s _ eq_refl).
Qed.

Lemma undo_history clock claim lease delay s : control_history s (undo clock claim lease delay s).
Proof. etrans; [exact (one_cop (CRelease lease) s _ eq_refl)|apply give_back_history]. Qed.

Lemma place_history clock claim previous lease runtime st :
  control_history (oc_control st) (oc_control (place clock claim previous lease runtime st).1).
Proof.
  unfold place. destruct (if register_selected then _ else _) as [s|] eqn:Er; [|done].
  assert (control_history (oc_control st) s) as H1.
  { destruct register_selected; [|by simplify_eq]. destruct (sk_register clock) as [t t'].
    apply (one_cop (CRegister runtime t t')). cbn [run_cop or_same]. cbn in Er. by rewrite Er. }
  destruct (assign _ _ _ _ _ _) as [s1 b] eqn:Ea.
  assert (control_history s s1) as H2.
  { destruct (sk_assign clock) as [t t']. eapply (one_cop (CAssign _ _ _ t t')). cbn [run_cop].
    cbn in Ea. by rewrite Ea. }
  destruct b; [destruct (sc_append _ _ _ _ _ _ _ _ _) as [e []]|]; cbn; try (by etrans).
  etrans; [exact H1|]. etrans; [exact H2|apply undo_history].
Qed.

(** A scheduling pass is a history of the control store: however it ends, it
    only ever acts through the store's operations, so everything proved of control
    histories (exclusive claims, increasing tokens, fencing) holds with schedulers
    in them. *)
Theorem schedule_once_history clock st :
  control_history (oc_control st) (oc_control (schedule_once clock st).1).
Proof.
  unfold schedule_once. destruct (claim _ _ _ _ _ _) as [s claimed] eqn:Ec.
  assert (control_history (oc_control st) s) as H1.
  { apply (one_cop (CClaim id 1 (30 * second) (sk_claim clock) (sk_claim_uuid clock))). cbn [run_cop].
    by rewrite Ec. }
  destruct claimed as [|c claimed]; [done|].
  destruct (acquire_lease _ _ _ _ _ _) as [s1 lease] eqn:El.
  assert (control_history s s1) as H2.
  { eapply (one_cop (CAcquire _ _ _ _ _)). cbn [run_cop]. by rewrite El. }
  destruct lease as [lease|]; cbn [oc_control with_control fst].
  2:{ etrans; [exact H1|]. etrans; [exact H2|apply give_back_history]. }
  destruct (pv_provision _ _ _ _ _) as [v [runtime|e m]].
  - pose proof (place_history clock c (get_assignment s (ri_task_id (cr_item c))) lease runtime
      (mkOrch (oc_events st) s1 v)) as H3. cbn [oc_control] in H3.
    destruct (place _ _ _ _ _ _) as [st' [r|e m]]; cbn [fst oc_control with_control] in *.
    + etrans; [exact H1|]. etrans; [exact H2|exact H3].
    + etrans; [exact H1|]. etrans; [exact H2|]. etrans; [exact H3|apply undo_history].
  - destruct e; cbn; (etrans; [exact H1|]; etrans; [exact H2|apply undo_history]).
Qed.

(** *** One claim *)

(** What a claim of one item leaves: the item is marked and its claim recorded. *)
Lemma claim_one now uuid s s' c cs :
  claim id 1 (30 * second) now uuid s = (s', c :: cs) →
  s' = take_item id (cr_claim_token c) (now + 30 * second) s (cr_item c).
Proof.
  unfold claim, first_n. change (1 <? 0) with false. cbv iota. change (Z.to_nat 1) with 1%nat.
  destruct (claim_candidates s now) as [|item items]; [done|]. cbn [take imap fold_left].
  destruct items; cbn; intros; by simplify_eq.
Qed.

Record held (claim : ClaimedRunnable) (now : Z) (s : ControlStore) : Prop := {
  hd_entry : dget (ri_task_id (cr_item claim)) (ct_queue s) = Some (cr_item claim, "claimed", Some id);
  hd_claim : dget (ri_task_id (cr_item claim)) (ct_queue_claims s)
             = Some (cr_claim_token claim, now + 30 * second);
}.

Lemma claimed_held now uuid s s' c cs :
  claim id 1 (30 * second) now uuid s = (s', c :: cs) →
  held c now s' ∧ ct_leases s' = ct_leases s ∧ ct_lease_counters s' = ct_lease_counters s.
Proof.
  intros ->%claim_one. split_and!; [|done|done].
  split; unfold take_item; [exact (dget_dset_eq _ _ _)|exact (dget_dset_eq _ _ _)].
Qed.

Lemma held_same claim now s s' :
  ct_queue s' = ct_queue s → ct_queue_claims s' = ct_queue_claims s → held claim now s → held claim now s'.
Proof. intros H1 H2 [H3 H4]. split; by rewrite ?H1, ?H2. Qed.

(** Under a claim that is still live, the item goes back to the queue. *)
Lemma give_back_queues clock claim now delay s :
  held claim now s → (sk_reschedule clock).1 < now + 30 * second →
  dget (ri_task_id (cr_item claim)) (ct_queue (give_back clock claim delay s))
    = Some (cr_item claim, "queued", None)
  ∧ ct_leases (give_back clock claim delay s) = ct_leases s.
Proof.
  intros [H1 H2] Ht. unfold give_back, reschedule. rewrite H1.
  assert (owns_claim s (ri_task_id (cr_item claim)) (cr_item claim, "claimed", Some id) (Some id)
            (Some (cr_claim_token claim)) (sk_reschedule clock).1 = true) as ->.
  { unfold owns_claim. rewrite H2. cbn [snd]. rewrite !bool_decide_eq_true_2 by done.
    cbn. by apply Z.ltb_lt. }
  rewrite andb_false_r. cbv zeta.
  destruct (dget _ (ct_assignments _)) as [[a st]|]; (split; [exact (dget_dset_eq _ _ _)|done]).
Qed.

Lemma release_held claim now lease s : held claim now s → held claim now (release_lease lease s).
Proof.
  intros Hh. unfold release_lease. repeat case_match; [|done..].
  by apply (held_same _ _ s).
Qed.

(** Leases of [s'] come from [s], or are the one that is about to be released. *)
Definition only_adds (lease : RuntimeLease) (s s' : ControlStore) : Prop :=
  ct_leases s' = dset (le_resource_id lease) lease (ct_leases s).

Lemma undo_restores clock claim lease now delay s0 s :
  dict_wf (ct_leases s0) → only_adds lease s0 s → held claim now s →
  (sk_reschedule clock).1 < now + 30 * second →
  dget (ri_task_id (cr_item claim)) (ct_queue (undo clock claim lease delay s))
    = Some (cr_item claim, "queued", None)
  ∧ ∀ r l, dget r (ct_leases (undo clock claim lease delay s)) = Some l → dget r (ct_leases s0) = Some l.
Proof.
  intros Hwf Ho Hh Ht. unfold undo.
  destruct (give_back_queues clock claim now delay _ (release_held _ _ lease _ Hh) Ht) as [-> ->].
  split; [done|]. intros r l. unfold release_lease. rewrite Ho, dget_dset_eq, String.eqb_refl.
  change (dget r (ddel (le_resource_id lease) (dset (le_resource_id lease) lease (ct_leases s0))) = Some l
          → dget r (ct_leases s0) = Some l).
  destruct (decide (r = le_resource_id lease)) as [->|Hne].
  - rewrite dget_ddel_eq; [done|by apply dset_wf].
  - by rewrite dget_ddel_ne, dget_dset_ne.
Qed.

Lemma acquire_adds resource owner ttl now uuid s s' lease :
  acquire_lease resource owner ttl now uuid s = (s', Some lease) →
  only_adds lease s s' ∧ le_resource_id lease = resource ∧ le_owner lease = owner
  ∧ le_fencing_token lease = lease_counter s resource + 1
  ∧ ct_queue s' = ct_queue s ∧ ct_queue_claims s' = ct_queue_claims s.
Proof. unfold acquire_lease. case_match; [done|]. intros; by simplify_eq. Qed.

Lemma acquire_none resource owner ttl now uuid s s' :
  acquire_lease resource owner ttl now uuid s = (s', None) → s' = s.
Proof. unfold acquire_lease. case_match; intros; by simplify_eq. Qed.

Lemma registered_same clock runtime s s' :
  (if register_selected then register_runtime runtime (sk_register clock).1 (sk_register clock).2 s
   else Ok s) = Ok s' →
  ct_queue s' = ct_queue s ∧ ct_queue_claims s' = ct_queue_claims s ∧ ct_leases s' = ct_leases s.
Proof.
  destruct register_selected; [|intros; by simplify_eq]. unfold register_runtime.
  intros; split_guards. by simplify_eq.
Qed.

(** Backpressure gives everything back: when a pass schedules nothing (the
    Session is leased, no runtime has capacity, or the assignment is refused), the
    claimed item is queued again and no lease remains that was not there before. *)
Theorem unscheduled_item_returned clock st st' c cs :
  leases_ok (oc_control st) →
  (claim id 1 (30 * second) (sk_claim clock) (sk_claim_uuid clock) (oc_control st)).2 = c :: cs →
  (sk_reschedule clock).1 < sk_claim clock + 30 * second →
  schedule_once clock st = (st', Ok None) →
  dget (ri_task_id (cr_item c)) (ct_queue (oc_control st')) = Some (cr_item c, "queued", None)
  ∧ (∀ r l, dget r (ct_leases (oc_control st')) = Some l → dget r (ct_leases (oc_control st)) = Some l)
  ∧ oc_events st' = oc_events st.
Proof.
  intros [Hwf _] Hc Ht Hs. unfold schedule_once in Hs.
  destruct (claim _ _ _ _ _ _) as [s claimed] eqn:Ec. cbn [snd] in Hc. subst claimed.
  destruct (claimed_held _ _ _ _ _ _ Ec) as (Hh & Hl & _). rewrite <- Hl in *.
  destruct (acquire_lease _ _ _ _ _ _) as [s1 [lease|]] eqn:El.
  2:{ apply acquire_none in El as ->. injection Hs as <-. cbn.
      destruct (give_back_queues clock c _ 0 s Hh Ht) as [-> ->]. done. }
  destruct (acquire_adds _ _ _ _ _ _ _ _ El) as (Ho & _ & _ & _ & Hq & Hqc).
  assert (held c (sk_claim clock) s1) as Hh1 by (by eapply held_same).
  destruct (pv_provision _ _ _ _ _) as [v [runtime|e m]].
  - destruct (place _ _ _ _ _ _) as [st2 [o|]] eqn:Ep; [|done]. injection Hs as -> ->.
    unfold place in Ep. cbn [oc_control oc_events oc_provisioner] in Ep.
    destruct (if register_selected then _ else _) as [s2|] eqn:Er; [|done].
    destruct (registered_same _ _ _ _ Er) as (R1 & R2 & R3).
    destruct (assign _ _ _ _ _ _) as [s3 [|]] eqn:Ea.
    { destruct (sc_append _ _ _ _ _ _ _ _ _) as [? []]; simplify_eq. }
    assert (s3 = s2) as -> by (unfold assign in Ea; repeat case_match; by simplify_eq).
    injection Ep as <-. cbn [oc_control oc_events with_control].
    destruct (undo_restores clock c lease (sk_claim clock) 0 s s2 Hwf) as [H1 H2]; [| |done|].
    + unfold only_adds. by rewrite R3.
    + by eapply held_same.
    + done.
  - destruct e; try done. injection Hs as <-. cbn [oc_control oc_events with_control].
    destruct (undo_restores clock c lease (sk_claim clock) (sk_delay clock) s s1 Hwf Ho Hh1 Ht). done.
Qed.

Lemma assign_true task a token now now' s s' item status owner :
  assign task a token now now' s = (s', true) → dget task (ct_queue s) = Some (item, status, owner) →
  dget task (ct_queue s') = Some (item, "assigned", owner)
  ∧ dget task (ct_assignments s') = Some (a, "assigned") ∧ ct_leases s' = ct_leases s
  ∧ ∃ lease, dget (resource_of a) (ct_leases s) = Some lease ∧ live now' lease = true.
Proof.
  unfold assign. intros Ha Hq. destruct (may_assign s task a token now now') eqn:Em; cbn [negb] in Ha; [|done].
  unfold may_assign in Em. rewrite Hq in Em. destruct (dget task (ct_queue_claims s)) as [[tok exp]|]; [|done].
  unfold resource_of. destruct (dget _ (ct_leases s)) as [lease|]; [|done].
  apply andb_true_iff in Em as [_ Hl]. case_match; [done|].
  change (dget task (ct_queue (?x <| ct_assignments := ?y |> <| ct_pending_wakes := ?z |>)))
    with (dget task (ct_queue x)) in Ha. cbn in Ha. rewrite Hq in Ha. injection Ha as <-.
  split_and!; [exact (dget_dset_eq _ _ _)|exact (dget_dset_eq _ _ _)|done|by exists lease].
Qed.

(** A scheduled run is owned: when a pass returns an assignment, the control
    store holds it as assigned, for the claimed item, under a lease this scheduler
    took on the Session with a token no holder had before. *)
Theorem scheduled_run_is_owned clock st st' a :
  schedule_once clock st = (st', Ok (Some a)) →
  ∃ item lease,
    dget (ri_task_id item) (ct_queue (oc_control st')) = Some (item, "assigned", Some id)
    ∧ dget (ri_task_id item) (ct_assignments (oc_control st')) = Some (a, "assigned")
    ∧ (ra_tenant_id a, ra_session_id a, ra_run_id a)
      = (ri_tenant_id item, ri_session_id item, ri_run_id item)
    ∧ dget (resource_of a) (ct_leases (oc_control st')) = Some lease
    ∧ le_owner lease = id ∧ le_lease_id lease = ra_lease_id a
    ∧ le_fencing_token lease = ra_fencing_token a
    ∧ ra_fencing_token a = lease_counter (oc_control st) (resource_of a) + 1
    ∧ live (sk_assign clock).2 lease = true.
Proof.
  intros Hs. unfold schedule_once in Hs. destruct (claim _ _ _ _ _ _) as [s [|c cs]] eqn:Ec; [done|].
  destruct (claimed_held _ _ _ _ _ _ Ec) as ([Hh _] & Hl & Hcnt).
  destruct (acquire_lease _ _ _ _ _ _) as [s1 [lease|]] eqn:El; [|done].
  destruct (acquire_adds _ _ _ _ _ _ _ _ El) as (Ho & Hres & Hown & Htok & Hq & _).
  destruct (pv_provision _ _ _ _ _) as [v [runtime|e m]]; [|by destruct e].
  destruct (place _ _ _ _ _ _) as [st2 [o|]] eqn:Ep; [|done]. injection Hs as -> ->.
  unfold place in Ep. cbn [oc_control oc_events oc_provisioner] in Ep.
  destruct (if register_selected then _ else _) as [s2|] eqn:Er; [|done].
  destruct (registered_same _ _ _ _ Er) as (R1 & _ & R3).
  destruct (assign _ _ _ _ _ _) as [s3 [|]] eqn:Ea; [|done].
  destruct (sc_append _ _ _ _ _ _ _ _ _) as [ev [evs|]]; [|done]. injection Ep as <- <-.
  rewrite <- Hq, <- R1 in Hh. destruct (assign_true _ _ _ _ _ _ _ _ _ _ Ea Hh) as (A1 & A2 & A3 & l & A4 & A5).
  assert (resource_of (new_assignment (cr_item c) runtime lease) = le_resource_id lease) as Hr by done.
  assert (dget (le_resource_id lease) (ct_leases s2) = Some lease) as Hlease by (by rewrite R3, Ho, dget_dset_eq).
  exists (cr_item c), lease. rewrite Hr in *. rewrite Hlease in A4. injection A4 as <-.
  cbn [oc_control]. rewrite A3. split_and!; try done.
  cbn. rewrite Htok, Hres. unfold lease_counter. by rewrite Hcnt.
Qed.
End orchestrator.

(** ** Witnesses *)

Module OrchestratorExamples.
Definition item : RunnableItem :=
  mkRunnable "t:s:r1" "t" "s" "s" "r1" 2 0 "t" "root" [] None (mkRuntimeBudget 48 8192 None "1") None None.
Definition runtime : RuntimeInstance := mkRuntime "rt1" "agent" "agent" "n1" [] 1 "legacy".
Definition queued1 : ControlStore := run_cops [CEnqueue item] new_control.
Definition with_runtime : ControlStore := run_cops [CEnqueue item; CRegister runtime 0 0] new_control.
Definition events : EventStore :=
  run_op empty_store (OpAppend (mkSupply pretty Z.of_nat) "s" "s" (Some "r1")
    (mkContext "c1" "t" (mkActor "user" "u") "corr" 0 "create" None None)
    [mkNewEvent "session.created" [("goal", JStr "g")] VUser;
     mkNewEvent "run.requested" [("run_id", JStr "r1")] VUser] []).
Definition su : Supply * Supply := (mkSupply (λ i, "x" +:+ pretty i) Z.of_nat, mkSupply pretty Z.of_nat).
Definition clock : SchedClock :=
  mkSchedClock 1 pretty 2 "u" (λ _, 3) (4, 5) (6, 7) 8 su (9, 10) 100.

Definition start (s : ControlStore) : Orch RegisteredProvisioner := mkOrch events s Registered.
Notation run client := (schedule_once (H0 := client) "orch" (30 * second) false clock).

Lemma new_leases_ok : leases_ok queued1.
Proof. split; [vm_compute; constructor|]. intros r l Hl. vm_compute in Hl. discriminate Hl. Qed.

(** No runtime is registered: the item is back in the queue. *)
Lemma unscheduled_item_returned_witness :
  dget "t:s:r1" (ct_queue (oc_control (run fenced_client (start queued1)).1)) = Some (item, "queued", None)
  ∧ ct_leases (oc_control (run fenced_client (start queued1)).1) = [].
Proof.
  split; [|vm_compute; reflexivity].
  destruct (claim "orch" 1 (30 * second) 1 pretty queued1) as [s [|c cs]] eqn:Ec;
    [vm_compute in Ec; discriminate Ec|].
  destruct (run fenced_client (start queued1)) as [st' r] eqn:Es.
  assert (r = Ok None) as ->.
  { assert ((run fenced_client (start queued1)).2 = Ok None) as H by (vm_compute; reflexivity).
    rewrite Es in H. exact H. }
  assert (cr_item c = item) as Hi.
  { assert (map cr_item (claim "orch" 1 (30 * second) 1 pretty queued1).2 = [item]) as H by (vm_compute; reflexivity).
    rewrite Ec in H. cbn in H. injection H as H _. exact H. }
  destruct (unscheduled_item_returned (H0 := fenced_client) "orch" (30 * second) false clock (start queued1) st' c cs
    new_leases_ok) as (H & _).
  - cbn [oc_control start sk_claim sk_claim_uuid clock]. rewrite Ec. reflexivity.
  - vm_compute. reflexivity.
  - exact Es.
  - rewrite Hi in H. exact H.
Defined.

Lemma scheduled_run_is_owned_witness :
  ∃ st' a lease, run fenced_client (start with_runtime) = (st', Ok (Some a))
    ∧ length (stream_of (oc_events st') ("t", "s")) = 3%nat
    ∧ dget (resource_of a) (ct_leases (oc_control st')) = Some lease
    ∧ le_fencing_token lease = ra_fencing_token a.
Proof.
  destruct (run fenced_client (start with_runtime)) as [st' r] eqn:Es.
  assert (length (stream_of (oc_events st') ("t", "s")) = 3%nat) as Hlen.
  { assert (length (stream_of (oc_events (run fenced_client (start with_runtime)).1) ("t", "s")) = 3%nat) as H
      by (vm_compute; reflexivity). rewrite Es in H. exact H. }
  destruct r as [[a|]|];
    [|exfalso; assert (match (run fenced_client (start with_runtime)).2 with Ok (Some _) => true | _ => false end
       = true) as H by (vm_compute; reflexivity); rewrite Es in H; discriminate H..].
  destruct (scheduled_run_is_owned (H0 := fenced_client) "orch" (30 * second) false clock (start with_runtime) st' a Es)
    as (i & lease & _ & _ & _ & Hl & _ & _ & Ht & _).
  exists st', a, lease. split; [reflexivity|]. split; [exact Hlen|]. split; [exact Hl|exact Ht].
Defined.

(** When the Session service fails after the assignment, the claim that the
    rescheduling names is already spent: the item stays assigned without a lease.
    While its runtime is alive neither recovery nor the runtime takes it up. *)
Definition unavailable : SessionClient :=
  {| sc_append _ _ _ _ _ _ _ _ s := (s, Raise PyRuntimeError "session service unavailable") |}.
Definition stranded : Orch RegisteredProvisioner := (run unavailable (start with_runtime)).1.

Example failed_schedule_strands_run :
  let s := oc_control stranded in
  let later := run_cops [CHeartbeat "rt1" None "legacy" (60 * second); CRecover (61 * second)] s in
  is_ok (run unavailable (start with_runtime)).2 = false
  ∧ option_map (λ e, e.1.2) (dget "t:s:r1" (ct_queue later)) = Some "assigned"
  ∧ option_map snd (dget "t:s:r1" (ct_assignments later)) = Some "assigned"
  ∧ ct_leases later = []
  ∧ (claim_assignments "rt1" "agent" "legacy" 10 (62 * second) pretty later).2 = []
  ∧ (claim "orch" 10 (30 * second) (62 * second) pretty later).2 = [].
Proof. vm_compute. repeat split. Qed.
End OrchestratorExamples.
