(* ===== verification/DeliveryWorker.v ===== *)
(** * The delivery worker ([delivery/worker.py])

    The worker creates jobs from the [delivery] records of the outbox, claims what is
    due and delivers it: it renews its claim, asks the sink's circuit, announces the
    attempt in the Session's stream, marks the side effect, calls the sink, and
    records the outcome; a delivery that is cancelled (its heartbeat lost the claim,
    or the worker stops) after the side effect began is marked for reconciliation.

    A delivery is a sequence of awaits.  [env i] is what everybody else does before
    the [i]th of them and [cancel] says at which one the task is cancelled, so a run
    of [deliver] is one interleaving.  The sink adapters are functions given to the
    worker, and a call is logged in [w_calls].  The metrics, the sleeping heartbeat
    task (its effects are a renewal, which is an operation of [env], and the
    cancellation) and the tenant semaphores are left out. *)

From S2P Require Import Prelude PyValue DateTime Contracts Collaboration RuntimeBudget.
From S2P Require Import SkillExecution EventStore DeliveryStore TaskProjection Relay.
Local Open Scope Z_scope.

(** ** [CircuitBreaker] *)

Record CircuitBreaker := mkBreaker {
  cb_failure_threshold : Z;
  cb_reset_after : Z;
  cb_failures : list (string * Z);
  cb_opened_at : list (string * Z);
}.

Definition breaker_allow (sink_id : string) (now : Z) (b : CircuitBreaker) : CircuitBreaker * bool :=
  match dget sink_id (cb_opened_at b) with
  | None => (b, true)
  | Some opened =>
      if cb_reset_after b <=? now - opened
      then (mkBreaker (cb_failure_threshold b) (cb_reset_after b) (dset sink_id 0 (cb_failures b))
              (ddel sink_id (cb_opened_at b)), true)
      else (b, false)
  end.

Definition breaker_record (sink_id : string) (response : SinkResponse) (now : Z) (b : CircuitBreaker)
    : CircuitBreaker :=
  if rs_succeeded response
  then mkBreaker (cb_failure_threshold b) (cb_reset_after b) (dset sink_id 0 (cb_failures b))
         (ddel sink_id (cb_opened_at b))
  else if negb (rs_retryable response) then b
  else
  let failures := default 0 (dget sink_id (cb_failures b)) + 1 in
  mkBreaker (cb_failure_threshold b) (cb_reset_after b) (dset sink_id failures (cb_failures b))
    (if cb_failure_threshold b <=? failures then dset sink_id now (cb_opened_at b) else cb_opened_at b).

(** ** Ingestion *)

(** The jobs of one event, for every sink that wants it; the clock is read twice a job. *)
Fixpoint create_jobs (now : nat → Z) (e : CanonicalEvent) (sinks : list ResultSinkConfig)
    (s : DeliveryStore) : DeliveryStore :=
  match sinks with
  | [] => s
  | sink :: rest =>
      create_jobs now e rest
        (create_job (now (2 * length rest)%nat) (now (2 * length rest + 1)%nat) e sink s).1
  end.

(** The loop of [ingest_once]; the operations of this store do not raise, so a record
    is always published. *)
Fixpoint ingest_loop (now : nat → nat → Z) (records : list OutboxRecord) (es : EventStore)
    (ds : DeliveryStore) (ingested : Z) : EventStore * DeliveryStore * Z :=
  match records with
  | [] => (es, ds, ingested)
  | r :: records =>
      let e := ob_event r in
      let sinks := list_sinks (ev_tenant_id e) (ev_session_id e) (ev_type e) ds in
      let ds := create_jobs (now (length records)) e sinks ds in
      ingest_loop now records (mark_outbox_published (ob_outbox_id r) es) ds (ingested + 1)
  end.

Definition ingest_once (now : nat → nat → Z) (limit : Z) (es : EventStore) (ds : DeliveryStore)
    : EventStore * DeliveryStore * Z :=
  ingest_loop now (slice_to limit (pending_delivery_outbox es)) es ds 0.

(** ** What ingestion leaves *)

(** From [s] to [s'] only jobs that satisfy [R] were added. *)
Definition adds (R : DeliveryJob → Prop) (s s' : DeliveryStore) : Prop :=
  ds_sinks s' = ds_sinks s
  ∧ (∀ id j, job_at id s = Some j → job_at id s' = Some j)
  ∧ (∀ id j, job_at id s' = Some j → job_at id s = Some j ∨ R j ∧ id = j_delivery_id j).

Lemma adds_refl R s : adds R s s.
Proof. split_and!; auto. Qed.

Lemma adds_trans (R : DeliveryJob → Prop) s1 s2 s3 : adds R s1 s2 → adds R s2 s3 → adds R s1 s3.
Proof.
  intros (A1 & A2 & A3) (B1 & B2 & B3). split_and!; [congruence|auto|].
  intros id j Hj. destruct (B3 id j Hj) as [Hj'|]; auto.
Qed.

Lemma adds_mono (R R' : DeliveryJob → Prop) s s' : (∀ j, R j → R' j) → adds R s s' → adds R' s s'.
Proof. intros HR (A1 & A2 & A3). split_and!; [done|done|]. intros id j Hj. destruct (A3 id j Hj) as [|[]]; auto. Qed.

Definition job_for (e : CanonicalEvent) (sink : ResultSinkConfig) (j : DeliveryJob) : Prop :=
  ∃ n1 n2, j = build_delivery_job n1 n2 e sink.

Lemma create_job_adds n1 n2 e sink s :
  adds (job_for e sink) s (create_job n1 n2 e sink s).1
  ∧ is_Some (job_at (delivery_id_for (ev_event_id e) (sk_sink_id sink)) (create_job n1 n2 e sink s).1).
Proof.
  unfold create_job. case_match eqn:E; cbn [fst].
  - split; [apply adds_refl|by eexists].
  - change (adds (job_for e sink) s (put_job (build_delivery_job n1 n2 e sink) s)
      ∧ is_Some (job_at (delivery_id_for (ev_event_id e) (sk_sink_id sink))
                   (put_job (build_delivery_job n1 n2 e sink) s))).
    rewrite put_set_job. split; [split_and!; [done|..]|].
    + intros id j Hj. rewrite job_at_set. case_decide; [|done]. subst. unfold job_at in Hj. congruence.
    + intros id j. rewrite job_at_set. case_decide; [|auto]. intros [= <-]. right. split; [|done]. by exists n1, n2.
    + rewrite job_at_set, decide_True by done. by eexists.
Qed.

Lemma create_jobs_adds now e sinks s :
  adds (λ j, ∃ sink, sink ∈ sinks ∧ job_for e sink j) s (create_jobs now e sinks s)
  ∧ ∀ sink, sink ∈ sinks → is_Some (job_at (delivery_id_for (ev_event_id e) (sk_sink_id sink))
                                      (create_jobs now e sinks s)).
Proof.
  revert s. induction sinks as [|k sinks IH]; intros s.
  - split; [apply adds_refl|]. by intros ? ?%not_elem_of_nil.
  - cbn [create_jobs]. set (n1 := now _). set (n2 := now _).
    destruct (IH (create_job n1 n2 e k s).1) as [H1 H2]. destruct (create_job_adds n1 n2 e k s) as [H3 H4]. split.
    + eapply adds_trans; [eapply adds_mono, H3|eapply adds_mono, H1].
      * intros j Hj. exists k. split; [left|done].
      * intros j (sink & Hs & Hj). exists sink. split; [by right|done].
    + intros sink [->|Hs]%elem_of_cons; [|by apply H2]. destruct H4 as [j Hj]. exists j. by apply H1.
Qed.

Definition wanted (ds : DeliveryStore) (r : OutboxRecord) (sink : ResultSinkConfig) : Prop :=
  sink ∈ list_sinks (ev_tenant_id (ob_event r)) (ev_session_id (ob_event r)) (ev_type (ob_event r)) ds.

Lemma wanted_sinks ds ds' r sink : ds_sinks ds' = ds_sinks ds → wanted ds' r sink ↔ wanted ds r sink.
Proof. intros Hs. unfold wanted, list_sinks. by rewrite Hs. Qed.

Lemma ingest_loop_adds now records es ds n es' ds' n' :
  ingest_loop now records es ds n = (es', ds', n') →
  n' = n + Z.of_nat (length records)
  ∧ es' = fold_left (λ s r, mark_outbox_published (ob_outbox_id r) s) records es
  ∧ adds (λ j, ∃ r sink, r ∈ records ∧ wanted ds r sink ∧ job_for (ob_event r) sink j) ds ds'
  ∧ ∀ r sink, r ∈ records → wanted ds r sink →
      is_Some (job_at (delivery_id_for (ev_event_id (ob_event r)) (sk_sink_id sink)) ds').
Proof.
  revert es ds n. induction records as [|r records IH]; cbn [ingest_loop fold_left]; intros es ds n.
  - intros [= <- <- <-]. split_and!; [cbn; lia|done|apply adds_refl|]. by intros ? ? ?%not_elem_of_nil.
  - intros (H1 & H2 & H3 & H4)%IH.
    destruct (create_jobs_adds (now (length records)) (ob_event r)
      (list_sinks (ev_tenant_id (ob_event r)) (ev_session_id (ob_event r)) (ev_type (ob_event r)) ds) ds) as [H5 H6].
    split_and!; [cbn; lia|done| |].
    + eapply adds_trans; eapply adds_mono; [|exact H5| |exact H3].
      * intros j (sink & Hs & Hj). exists r, sink. split_and!; [left|done|done].
      * intros j (r' & sink & Hr & Hs & Hj). exists r', sink. split_and!; [by right| |done].
        eapply wanted_sinks; [|exact Hs]. symmetry. apply H5.
    + intros r' sink [->|Hr]%elem_of_cons Hw.
      * destruct (H6 sink Hw) as [j Hj]. exists j. by apply H3.
      * apply H4; [done|]. by eapply wanted_sinks; [apply H5|].
Qed.

(** Ingestion turns each of the first [limit] pending delivery records into one job
    per interested sink and then publishes the record: every such job exists
    afterwards, a job that existed is untouched, and every new job is the one built
    from one of these records and a sink that wants it. *)
Theorem ingest_exact now limit es ds es' ds' n :
  ingest_once now limit es ds = (es', ds', n) →
  let records := slice_to limit (pending_delivery_outbox es) in
  n = Z.of_nat (length records)
  ∧ es' = fold_left (λ s r, mark_outbox_published (ob_outbox_id r) s) records es
  ∧ (∀ r sink, r ∈ records → wanted ds r sink →
       is_Some (job_at (delivery_id_for (ev_event_id (ob_event r)) (sk_sink_id sink)) ds'))
  ∧ (∀ id j, job_at id ds = Some j → job_at id ds' = Some j)
  ∧ (∀ id j, job_at id ds' = Some j → job_at id ds = Some j
       ∨ ∃ r sink n1 n2, r ∈ records ∧ wanted ds r sink
           ∧ j = build_delivery_job n1 n2 (ob_event r) sink ∧ id = j_delivery_id j).
Proof.
  intros (H1 & H2 & (_ & H3 & H4) & H5)%ingest_loop_adds. cbv zeta. split_and!; [lia|done|done|done|].
  intros id j [|[(r & sink & Hr & Hw & n1 & n2 & Hj) Hid]]%H4; [by left|]. right. by exists r, sink, n1, n2.
Qed.

(** ** The delivery of a job *)

Record WorkerConfig := mkWorkerConfig {
  wc_worker_id : string;
  wc_max_attempts : Z;
  wc_base_retry_delay : Z;
  wc_claim_ttl : Z;
  wc_circuit_failure_threshold : Z;
  wc_circuit_reset_after : Z;
  wc_circuit_probe_ttl : Z;
  wc_max_concurrent : Z;
  wc_max_concurrent_per_tenant : Z;
}.

(** The checks of [__init__]. *)
Definition worker_init (c : WorkerConfig) : res WorkerConfig :=
  if wc_circuit_failure_threshold c <? 1
  then Raise PyValueError "circuit_failure_threshold must be positive"
  else if (wc_max_concurrent c <? 1)
          || negb ((1 <=? wc_max_concurrent_per_tenant c)
                   && (wc_max_concurrent_per_tenant c <=? wc_max_concurrent c))
  then Raise PyValueError "Delivery concurrency limits are invalid"
  else Ok c.

Record World (P : Type) := mkWorld {
  w_events : EventStore;
  w_views : P;
  w_store : DeliveryStore;
  w_breaker : option CircuitBreaker;
  w_calls : list DeliveryJob;
}.
Arguments mkWorld {P} _ _ _ _ _.
Arguments w_events {P} _.
Arguments w_views {P} _.
Arguments w_store {P} _.
Arguments w_breaker {P} _.
Arguments w_calls {P} _.

(** How a step of the task ends. *)
Inductive outcome (A : Type) :=
  | Ret (a : A)
  | Exn (c : exn_class) (m : string)
  | Cancelled.
Arguments Ret {A} _.
Arguments Exn {A} _ _.
Arguments Cancelled {A}.

(** The task: the number of its next await, whether the side effect has begun, and
    the world. *)
Record Task (P : Type) := mkTask {
  tk_await : nat;
  tk_started : bool;
  tk_world : World P;
}.
Arguments mkTask {P} _ _ _.
Arguments tk_await {P} _.
Arguments tk_started {P} _.
Arguments tk_world {P} _.

(** An adapter is looked up by sink type; an exception of it is its class name. *)
Notation SinkAdapter := (DeliveryJob → ResultSinkConfig → SinkResponse + string)%type.

Section worker.
Context {P : Type} `{ProjectionWriter P}.
Context (conf : WorkerConfig) (adapters : list (string * SinkAdapter)).
Context (env : nat → World P → World P) (cancel : option nat) (lease_lost : bool).
Context (clock : nat → Z) (uuid : nat → string) (supply : nat → Supply).

Definition prog (A : Type) : Type := Task P → Task P * outcome A.

Definition ret {A} (a : A) : prog A := λ t, (t, Ret a).
Definition bind {A B} (m : prog A) (k : A → prog B) : prog B := λ t,
  match m t with
  | (t, Ret a) => k a t
  | (t, Exn c e) => (t, Exn c e)
  | (t, Cancelled) => (t, Cancelled)
  end.
Notation "x <- m ;; k" := (bind m (λ x, k)) (at level 100, m at next level, right associativity).

(** One await: the others go first; a cancelled await does not run. *)
Definition await {A} (op : nat → World P → World P * res A) : prog A := λ t,
  let i := tk_await t in
  let w := env i (tk_world t) in
  if bool_decide (cancel = Some i) then (mkTask (S i) (tk_started t) w, Cancelled) else
  let '(w, r) := op i w in
  (mkTask (S i) (tk_started t) w, match r with Ok a => Ret a | Raise c m => Exn c m end).

(** An operation of the delivery store. *)
Definition on_store {A} (op : nat → DeliveryStore → DeliveryStore * res A) : prog A :=
  await (λ i w, let '(s, r) := op i (w_store w) in
                (mkWorld (w_events w) (w_views w) s (w_breaker w) (w_calls w), r)).
Definition pure_op {A} (r : DeliveryStore * A) : DeliveryStore * res A := (r.1, Ok r.2).

(** *** [_write_status] *)

Definition status_event (status : DeliveryStatus) : option string :=
  match status with
  | DAttempting => Some "delivery.attempting" | DRetryWait => Some "delivery.retrying"
  | DSucceeded => Some "delivery.succeeded" | DFailed => Some "delivery.failed"
  | DDeadLettered => Some "delivery.dead_lettered" | DReconciling => Some "delivery.reconciling"
  | DPending => None
  end.

Definition status_context (job : DeliveryJob) (status : DeliveryStatus) (version : Z) : CommandContext :=
  mkContext ("delivery:" +:+ j_delivery_id job +:+ ":" +:+ pretty (j_attempt_count job) +:+ ":"
               +:+ delivery_value status)
    (j_tenant_id job) (mkActor "delivery" "result-delivery-worker") (j_delivery_id job) version
    ("delivery." +:+ delivery_value status) None None.

Definition status_payload (job : DeliveryJob) (status : DeliveryStatus) (summary : string) : payload :=
  [("delivery_id", JStr (j_delivery_id job)); ("sink_id", JStr (j_sink_id job));
   ("status", JStr (delivery_value status)); ("attempt_count", JInt (j_attempt_count job));
   ("response_summary", JStr (str_take 2000 summary))].

Definition append_status (job : DeliveryJob) (ty : string) (status : DeliveryStatus) (summary : string)
    (version : Z) : prog AppendResult :=
  await (λ i w,
    let '(es, r) := append (supply i) (j_root_session_id job) (j_session_id job) (j_run_id job)
      (status_context job status version) [mkNewEvent ty (status_payload job status summary) VUser]
      [("delivery_id", JStr (j_delivery_id job)); ("status", JStr (delivery_value status))] (w_events w) in
    (mkWorld es (w_views w) (w_store w) (w_breaker w) (w_calls w), r)).

Definition relay_views : prog unit :=
  await (λ _ w, let '(es, v, _) := relay_once 100 (w_events w, w_views w) in
                (mkWorld es v (w_store w) (w_breaker w) (w_calls w), Ok tt)).

(** [for _ in range(5)]: a version conflict takes the next iteration. *)
Fixpoint write_loop (tries : nat) (job : DeliveryJob) (ty : string) (status : DeliveryStatus)
    (summary : string) : prog unit :=
  match tries with
  | O => λ t, (t, Exn VersionConflictError
      ("could not append delivery status after concurrent Session writes: " +:+ j_delivery_id job))
  | S tries =>
      n <- await (λ _ w, (w, Ok (Z.of_nat (length (load (w_events w) (j_tenant_id job) (j_session_id job)
                                                     1 None None)))));;
      if n =? 0 then ret tt else λ t,
      match append_status job ty status summary n t with
      | (t, Exn VersionConflictError _) => write_loop tries job ty status summary t
      | (t, Ret result) => if apr_deduplicated result then (t, Ret tt) else relay_views t
      | (t, Exn c m) => (t, Exn c m)
      | (t, Cancelled) => (t, Cancelled)
      end
  end.

Definition write_status (job : DeliveryJob) (status : DeliveryStatus) (summary : string) : prog unit :=
  match status_event status with
  | None => ret tt
  | Some ty => write_loop 5 job ty status summary
  end.

(** [_mark_reconciling] *)
Definition reconcile_job (job : DeliveryJob) (reason : string) : prog unit :=
  marked <- on_store (λ _ s, pure_op (mark_reconciling job reason s));;
  if (marked : bool) then write_status job DReconciling reason else ret tt.

(** *** [_deliver] *)

(** The circuit's permission and the probe token; the local breaker is not awaited. *)
Definition ask_circuit (job : DeliveryJob) (now : Z) : prog (bool * option string) := λ t,
  let w := tk_world t in
  match w_breaker w with
  | Some b =>
      let '(b, allowed) := breaker_allow (j_sink_id job) now b in
      (mkTask (tk_await t) (tk_started t) (mkWorld (w_events w) (w_views w) (w_store w) (Some b) (w_calls w)),
       Ret (allowed, None))
  | None =>
      on_store (λ i s,
        let '(s, p) := acquire_sink_circuit (clock i) (uuid i) (j_tenant_id job) (j_sink_id job)
                         (wc_worker_id conf) (wc_circuit_probe_ttl conf) s in
        (s, Ok (pm_allowed p, pm_probe_token p))) t
  end.

(** The call of the sink: logged, then awaited. *)
Definition call_sink (adapter : SinkAdapter) (job : DeliveryJob) (config : ResultSinkConfig)
    : prog SinkResponse := λ t,
  let w := tk_world t in
  let t := mkTask (tk_await t) (tk_started t)
             (mkWorld (w_events w) (w_views w) (w_store w) (w_breaker w) (w_calls w ++ [job])) in
  await (λ _ w, (w, Ok match adapter job config with
                       | inl response => response
                       | inr exn => mkResponse false true exn []
                       end)) t.

Definition set_started : prog unit := λ t, (mkTask (tk_await t) true (tk_world t), Ret tt).

(** From the decision of the circuit to the response; [None] when the claim is lost. *)
Definition attempt_sink (job : DeliveryJob) (config : ResultSinkConfig) (adapter : SinkAdapter)
    : prog (option SinkResponse) :=
  _ <- write_status job DAttempting "attempting";;
  begun <- on_store (λ i s, pure_op (begin_side_effect (clock i) job s));;
  if negb begun then ret None else
  _ <- set_started;;
  response <- call_sink adapter job config;;
  ret (Some response).

Definition record_circuit_result (job : DeliveryJob) (now : Z) (attempted : bool) (response : SinkResponse)
    (probe_token : option string) : prog unit := λ t,
  let w := tk_world t in
  match w_breaker w with
  | Some b =>
      (mkTask (tk_await t) (tk_started t)
         (mkWorld (w_events w) (w_views w) (w_store w) (Some (breaker_record (j_sink_id job) response now b))
            (w_calls w)), Ret tt)
  | None =>
      if attempted then
        on_store (λ i s,
          let '(s, _) := record_sink_circuit_result (clock i) (j_tenant_id job) (j_sink_id job) response
            (wc_circuit_failure_threshold conf) (wc_circuit_reset_after conf) probe_token s in
          (s, Ok tt)) t
      else (t, Ret tt)
  end.

(** [base_retry_delay * (2 ** max(0, attempt_count - 1))] *)
Definition retry_delay (job : DeliveryJob) : Z :=
  wc_base_retry_delay conf * 2 ^ Z.max 0 (j_attempt_count job - 1).

(** The last part: the attempt is recorded; when it cannot be, a side effect that
    began is reconciled and the exception goes on. *)
Definition finish_attempt (job : DeliveryJob) (now : Z) (response : SinkResponse) : prog unit := λ t,
  match on_store (λ i s, record_attempt (clock i) job response (Some (now + retry_delay job))
                           (wc_max_attempts conf) s) t with
  | (t, Ret updated) => write_status updated (j_status updated) (rs_summary response) t
  | (t, Exn c m) =>
      if tk_started t then
        (_ <- reconcile_job job "attempt_completion_lost";; (λ t, (t, Exn c m))) t
      else (t, Exn c m)
  | (t, Cancelled) => (t, Cancelled)
  end.

(** The [try] body. *)
Definition deliver_body (job : DeliveryJob) : prog unit :=
  renewed <- on_store (λ i s, pure_op (renew_claim (clock i) job (wc_claim_ttl conf) s));;
  if negb renewed then ret tt else
  config <- on_store (λ _ s, (s, Ok (get_sink (j_tenant_id job) (j_sink_id job) s)));;
  λ t,
  let now := clock (tk_await t) in
  match config, dget (j_sink_type job) adapters with
  | Some config, Some adapter =>
      (permission <- ask_circuit job now;;
       let '(allowed, probe_token) := permission in
       if negb allowed then
         let response := mkResponse false true "sink circuit is open" [] in
         _ <- record_circuit_result job now false response probe_token;;
         finish_attempt job now response
       else
         attempted <- attempt_sink job config adapter;;
         match attempted with
         | None => ret tt
         | Some response =>
             _ <- record_circuit_result job now true response probe_token;;
             finish_attempt job now response
         end) t
  | _, _ =>
      (let response := mkResponse false false "delivery adapter or sink config not found" [] in
       _ <- record_circuit_result job now false response None;;
       finish_attempt job now response) t
  end.

Definition deliver (job : DeliveryJob) : prog unit := λ t,
  match deliver_body job t with
  | (t, Cancelled) =>
      let reraise (t : Task P) : Task P * outcome unit := if lease_lost then (t, Ret tt) else (t, Cancelled) in
      if tk_started t then
        (_ <- reconcile_job job (if lease_lost then "lease_lost" else "worker_cancelled");; reraise) t
      else reraise t
  | r => r
  end.

Definition start_task (w : World P) : Task P := mkTask O false w.

(** [redeliver] *)
Definition redeliver (tenant_id delivery_id token : string) (now : Z) (w : World P)
    : Task P * outcome bool :=
  match begin_redelivery now token tenant_id delivery_id (wc_worker_id conf) (wc_claim_ttl conf) (w_store w) with
  | (s, None) => (start_task w, Ret false)
  | (s, Some job) =>
      (_ <- deliver job;; ret true)
        (start_task (mkWorld (w_events w) (w_views w) s (w_breaker w) (w_calls w)))
  end.

(** The part of [run_once] before the deliveries: ingest, then claim within the limits. *)
Definition take_jobs (now : nat → nat → Z) (claim_now : Z) (limit : Z) (w : World P)
    : World P * list DeliveryJob :=
  let '(es, s, _) := ingest_once now limit (w_events w) (w_store w) in
  let '(s, jobs) := claim_due claim_now uuid (wc_worker_id conf) (wc_claim_ttl conf)
                      (Z.min limit (wc_max_concurrent conf)) (Some (wc_max_concurrent_per_tenant conf)) s in
  (mkWorld es (w_views w) s (w_breaker w) (w_calls w), jobs).

(** ** The claim of a delivery *)

(** The operation does not hand out the token again. *)
Definition fresh_token (token : string) (op : DeliveryOp) : Prop :=
  match op with
  | DClaim _ uuid _ _ _ _ => ∀ i, uuid i ≠ token
  | DRedeliver _ uuid _ _ _ _ => uuid ≠ token
  | _ => True
  end.

(** Under the handle's token the stored job is the handle's worker's, with its side
    effect begun. *)
Definition claim_begun (job current : DeliveryJob) : Prop :=
  j_claim_token current = j_claim_token job →
  j_claimed_by current = j_claimed_by job ∧ is_Some (j_side_effect_started_at current).

(** The claim is spent: recorded, given to reconciliation, or taken over. *)
Definition claim_spent (job current : DeliveryJob) : Prop := j_claim_token current ≠ j_claim_token job.

Definition stored (R : DeliveryJob → Prop) (job : DeliveryJob) (s : DeliveryStore) : Prop :=
  jobs_ok s ∧ ∃ current, job_at (j_delivery_id job) s = Some current ∧ R current.

Lemma spent_begun job s : stored (claim_spent job) job s → stored (claim_begun job) job s.
Proof. intros (Hok & c & Hc & Hs). split; [done|]. exists c. by split. Qed.

Lemma begun_step op job j j' token :
  j_claim_token job = Some token → fresh_token token op → job_step op j j' →
  claim_begun job j → claim_begun job j'.
Proof.
  unfold claim_begun. intros Ht Hf Hs Hb. destruct Hs; subst; cbn in *; rewrite ?Ht in *; auto.
  all: intros Heq; try (by simplify_eq).
  - simplify_eq. by edestruct Hf.
  - destruct (Hb Heq). split; [done|by eexists].
Qed.

Lemma spent_step op job j j' token :
  j_claim_token job = Some token → fresh_token token op → job_step op j j' →
  claim_spent job j → claim_spent job j'.
Proof.
  unfold claim_spent. intros Ht Hf Hs Hb. destruct Hs; subst; cbn in *; rewrite ?Ht in *; auto.
  all: intros Heq; simplify_eq; by try edestruct Hf.
Qed.

Lemma stored_step (R : DeliveryJob → Prop) job s op :
  (∀ j j', job_step op j j' → R j → R j') → stored R job s → stored R job (run_delivery s op).
Proof.
  intros HR (Hok & c & Hc & Hr). split; [by apply run_delivery_ok|].
  destruct (run_delivery_step s op _ c Hok Hc) as (c' & Hc' & Hs). exists c'. split; [done|by eapply HR].
Qed.

Lemma begin_side_effect_begun now job s s' :
  jobs_ok s → begin_side_effect now job s = (s', true) → stored (claim_begun job) job s'.
Proof.
  intros Hok E. assert (s' = run_delivery s (DBegin now job)) as -> by (cbn; by rewrite E).
  split; [by apply run_delivery_ok|]. cbn [run_delivery]. revert E. unfold begin_side_effect.
  case_match eqn:L; [|done]. intros _. apply live_claim_Some in L as (Hc & Hs & _ & _). cbn [fst].
  rewrite job_at_set, decide_True by done. eexists. split; [done|]. unfold same_claim in Hs. bool_props.
  intros _. split; [done|by eexists].
Qed.

Lemma mark_reconciling_spends job reason s token :
  j_claim_token job = Some token → stored (claim_begun job) job s →
  stored (claim_spent job) job (mark_reconciling job reason s).1.
Proof.
  intros Ht (Hok & c & Hc & Hb). split; [exact (run_delivery_ok s (DReconcile job reason) Hok)|].
  unfold mark_reconciling. unfold job_at in Hc. rewrite Hc. case_match eqn:E; cbn [fst].
  - exists c. split; [done|]. intros Heq. destruct (Hb Heq) as [H1 H2].
    unfold same_claim in E. rewrite H1, Heq, !bool_decide_true in E by done. cbn in E.
    apply bool_decide_eq_true in E. destruct H2. congruence.
  - rewrite job_at_set, decide_True by done. eexists. split; [done|]. unfold claim_spent. cbn. congruence.
Qed.

Lemma record_attempt_spends now job r next max s s' u token :
  j_claim_token job = Some token → jobs_ok s →
  record_attempt now job r next max s = (s', Ok u) → stored (claim_spent job) job s'.
Proof.
  intros Ht Hok E. assert (s' = run_delivery s (DRecord now job r next max)) as Hs' by (cbn; by rewrite E).
  split; [rewrite Hs'; by apply run_delivery_ok|]. clear Hs'.
  destruct (record_attempt_at now job r next max s) as [[m G]|(c & Hc & _ & _ & G)]; [congruence|].
  rewrite G in E. simplify_eq. unfold job_at. cbn. exists (attempted_job now r next max c).
  split; [exact (dget_dset_eq _ _ _)|]. unfold claim_spent. cbn. congruence.
Qed.

(** ** A program logic for the tasks *)

(** A step ends after it began, and is cancelled only at one of its own awaits. *)
Definition timely {A} (t t' : Task P) (o : outcome A) : Prop :=
  (tk_await t ≤ tk_await t')%nat
  ∧ (o = Cancelled → ∃ i, cancel = Some i ∧ (tk_await t ≤ i < tk_await t')%nat).

Definition triple {A} (Pre : Task P → Prop) (m : prog A) (Post : Task P → outcome A → Prop) : Prop :=
  ∀ t, Pre t → Post (m t).1 (m t).2 ∧ timely t (m t).1 (m t).2.

Lemma job_triple_ret {A} (Pre : Task P → Prop) (a : A) Post : (∀ t, Pre t → Post t (Ret a)) → triple Pre (ret a) Post.
Proof. intros HP t Ht. split; [by apply HP|]. by split. Qed.

Lemma triple_exn {A} (Pre : Task P → Prop) c e (Post : Task P → outcome A → Prop) :
  (∀ t, Pre t → Post t (Exn c e)) → triple Pre (λ t, (t, Exn c e)) Post.
Proof. intros HP t Ht. split; [by apply HP|]. by split. Qed.

Lemma job_triple_weaken {A} (Pre Pre' : Task P → Prop) (m : prog A) (Post Post' : Task P → outcome A → Prop) :
  triple Pre m Post → (∀ t, Pre' t → Pre t) → (∀ t o, Post t o → Post' t o) → triple Pre' m Post'.
Proof. intros Hm H1 H2 t Ht. destruct (Hm t (H1 t Ht)). split; [by apply H2|done]. Qed.

Lemma timely_trans {A B} (t t1 t2 : Task P) (o1 : outcome A) (o2 : outcome B) :
  timely t t1 o1 → timely t1 t2 o2 → timely t t2 o2.
Proof.
  intros [H1 _] [H2 H3]. split; [lia|]. intros Ho. destruct (H3 Ho) as (i & Hi & ?). exists i. split; [done|lia].
Qed.

Lemma timely_as {A B} (t t' : Task P) (o : outcome A) (o' : outcome B) :
  timely t t' o → (o' = Cancelled → o = Cancelled) → timely t t' o'.
Proof. intros [H1 H2] Ho. split; [done|]. auto. Qed.

Lemma job_triple_bind {A B} Pre (m : prog A) (k : A → prog B) Mid Post :
  triple Pre m Mid → (∀ a, triple (λ t, Mid t (Ret a)) (k a) Post) →
  (∀ t c e, Mid t (Exn c e) → Post t (Exn c e)) → (∀ t, Mid t Cancelled → Post t Cancelled) →
  triple Pre (bind m k) Post.
Proof.
  intros Hm Hk He Hc t Ht. unfold bind. destruct (Hm t Ht) as [HM Hti]. destruct (m t) as [t1 [a|c e|]]; cbn in *.
  - destruct (Hk a t1 HM) as [HP Hti2]. split; [done|by eapply timely_trans].
  - split; [by apply He|by eapply timely_as].
  - split; [by apply Hc|by eapply timely_as].
Qed.

(** Steps that do not raise. *)
Definition total {A} (m : prog A) : Prop := ∀ t c e, (m t).2 ≠ Exn c e.

Lemma triple_total {A} Pre (m : prog A) Post :
  triple Pre m Post → total m → triple Pre m (λ t o, Post t o ∧ ∀ c e, o ≠ Exn c e).
Proof. intros Hm Ht t Hp. destruct (Hm t Hp). split; [split; [done|apply Ht]|done]. Qed.

Lemma await_total {A} (op : nat → World P → World P * res A) :
  (∀ i w, ∃ a, (op i w).2 = Ok a) → total (await op).
Proof.
  intros Hop t c e. unfold await. case_match; [done|].
  destruct (Hop (tk_await t) (env (tk_await t) (tk_world t))) as [a Ha]. destruct (op _ _) as [w []]; done.
Qed.

(** What the task knows: whether its side effect began, the calls made and a fact of
    the store. *)
Definition knows (started : bool) (calls : list DeliveryJob) (Q : DeliveryStore → Prop) (t : Task P) : Prop :=
  tk_started t = started ∧ w_calls (tk_world t) = calls ∧ Q (w_store (tk_world t)).

Definition keeps {A} (started : bool) (calls : list DeliveryJob) (Q : DeliveryStore → Prop) (m : prog A) : Prop :=
  triple (knows started calls Q) m (λ t _, knows started calls Q t).

Lemma keeps_bind {A B} b cs Q (m : prog A) (k : A → prog B) :
  keeps b cs Q m → (∀ a, keeps b cs Q (k a)) → keeps b cs Q (bind m k).
Proof. intros. by eapply job_triple_bind. Qed.

Lemma keeps_ret {A} b cs Q (a : A) : keeps b cs Q (ret a).
Proof. by apply job_triple_ret. Qed.

(** The others use the delivery store through its operations, with their own tokens. *)
Definition others (token : string) : Prop :=
  ∀ i w, w_calls (env i w) = w_calls w
    ∧ ∃ ops, Forall (fresh_token token) ops ∧ w_store (env i w) = delivery_history ops (w_store w).

(** A fact of the store that operations with other tokens keep. *)
Definition stable (token : string) (Q : DeliveryStore → Prop) : Prop :=
  ∀ s op, fresh_token token op → Q s → Q (run_delivery s op).

Lemma stable_history token Q ops s :
  stable token Q → Forall (fresh_token token) ops → Q s → Q (delivery_history ops s).
Proof. intros HQ Hops. revert s. induction Hops; intros s Hs; cbn; auto. Qed.

Lemma stable_ok token : stable token jobs_ok.
Proof. intros s op _. apply run_delivery_ok. Qed.
Lemma stable_begun token job : j_claim_token job = Some token → stable token (stored (claim_begun job) job).
Proof. intros Ht s op Hop. apply stored_step. intros j j'. by eapply begun_step. Qed.
Lemma stable_spent token job : j_claim_token job = Some token → stable token (stored (claim_spent job) job).
Proof. intros Ht s op Hop. apply stored_step. intros j j'. by eapply spent_step. Qed.

Section logic.
Context (token : string) (Hothers : others token).

(** An operation of the store that leads from [Q] to [Q'] of its result. *)
Lemma triple_on_store {A} b cs (Q : DeliveryStore → Prop) (Q' : res A → DeliveryStore → Prop) op :
  stable token Q → (∀ i s, Q s → Q' (op i s).2 (op i s).1) →
  triple (knows b cs Q) (on_store op)
    (λ t o, match o with
            | Ret a => knows b cs (Q' (Ok a)) t
            | Exn c m => knows b cs (Q' (Raise c m)) t
            | Cancelled => knows b cs Q t
            end).
Proof.
  intros HQ Hop t (Hb & Hc & Hs). unfold on_store, await, timely. destruct (Hothers (tk_await t) (tk_world t))
    as [Hcalls (ops & Hops & Hst)].
  assert (Q (w_store (env (tk_await t) (tk_world t)))) as Hq by (rewrite Hst; by eapply stable_history).
  unfold knows. case_bool_decide as Hca; cbn.
  - split; [split_and!; [done|by rewrite Hcalls|done]|]. split; [lia|]. intros _. exists (tk_await t). split; [done|lia].
  - specialize (Hop (tk_await t) _ Hq). destruct (op _ _) as [s' [a|c m]]; cbn in *.
    all: split; [split_and!; [done|by rewrite Hcalls|done]|]; split; [lia|done].
Qed.

(** An await that leaves the delivery store and the calls alone. *)
Lemma keeps_await {A} b cs Q (op : nat → World P → World P * res A) :
  stable token Q → (∀ i w, w_store (op i w).1 = w_store w ∧ w_calls (op i w).1 = w_calls w) →
  keeps b cs Q (await op).
Proof.
  intros HQ Hop t (Hb & Hc & Hs). unfold await, timely. destruct (Hothers (tk_await t) (tk_world t))
    as [Hcalls (ops & Hops & Hst)].
  assert (Q (w_store (env (tk_await t) (tk_world t)))) as Hq by (rewrite Hst; by eapply stable_history).
  unfold knows. case_bool_decide as Hca; cbn.
  - split; [split_and!; [done|by rewrite Hcalls|done]|]. split; [lia|]. intros _. exists (tk_await t). split; [done|lia].
  - destruct (Hop (tk_await t) (env (tk_await t) (tk_world t))) as [H1 H2].
    destruct (op _ _) as [w' [a|c m]]; cbn in *.
    all: split; [split_and!; [done|congruence|by rewrite H1]|]; split; [lia|done].
Qed.

Lemma keeps_on_store {A} b cs Q (op : nat → DeliveryStore → DeliveryStore * res A) :
  stable token Q → (∀ i s, Q s → Q (op i s).1) → keeps b cs Q (on_store op).
Proof.
  intros HQ Hop. eapply job_triple_weaken; [by apply (triple_on_store b cs Q (λ _, Q))|done|].
  by intros t [].
Qed.

Lemma keeps_write_loop tries job ty status summary b cs Q :
  stable token Q → keeps b cs Q (write_loop tries job ty status summary).
Proof.
  intros HQ. induction tries as [|tries IH]; cbn [write_loop]; [by apply triple_exn|].
  apply keeps_bind; [by apply keeps_await|]. intros n. case_match; [apply keeps_ret|]. intros t Ht.
  assert (keeps b cs Q (append_status job ty status summary n)) as Ha.
  { apply keeps_await; [done|]. intros i w. by destruct (append _ _ _ _ _ _ _ _). }
  assert (keeps b cs Q relay_views) as Hr.
  { apply keeps_await; [done|]. intros i w. by destruct (relay_once _ _) as [[] ?]. }
  destruct (Ha t Ht) as [H1 H2]. destruct (append_status job ty status summary n t) as [t1 [r|c m|]]; cbn in *.
  - case_match; [split; [done|by eapply timely_as]|].
    destruct (Hr t1 H1) as [? ?]. split; [done|by eapply timely_trans].
  - destruct c; try (split; [done|by eapply timely_as]).
    destruct (IH t1 H1) as [? ?]. split; [done|by eapply timely_trans].
  - split; [done|by eapply timely_as].
Qed.

Lemma keeps_write_status job status summary b cs Q :
  stable token Q → keeps b cs Q (write_status job status summary).
Proof. intros. unfold write_status. case_match; [by apply keeps_write_loop|apply keeps_ret]. Qed.

Lemma keeps_circuit_result job now attempted response probe b cs Q :
  stable token Q → keeps b cs Q (record_circuit_result job now attempted response probe).
Proof.
  intros HQ t Ht. unfold record_circuit_result. destruct (w_breaker _).
  - split; [done|by split].
  - destruct attempted; [|split; [done|by split]]. apply keeps_on_store; [done| |done].
    intros i s Hs. by apply (HQ s (DResult (clock i) (j_tenant_id job) (j_sink_id job) response
      (wc_circuit_failure_threshold conf) (wc_circuit_reset_after conf) probe)).
Qed.

Lemma circuit_result_total job now attempted response probe :
  total (record_circuit_result job now attempted response probe).
Proof.
  intros t c e. unfold record_circuit_result. destruct (w_breaker _); [done|]. destruct attempted; [|done].
  apply await_total. intros i w. by eexists.
Qed.

Lemma keeps_ask_circuit job now b cs Q : stable token Q → keeps b cs Q (ask_circuit job now).
Proof.
  intros HQ t Ht. unfold ask_circuit. destruct (w_breaker _).
  - destruct (breaker_allow _ _ _). split; [done|by split].
  - apply keeps_on_store; [done| |done]. intros i s Hs.
    pose proof (HQ s (DAcquire (clock i) (uuid i) (j_tenant_id job) (j_sink_id job) (wc_worker_id conf)
      (wc_circuit_probe_ttl conf)) I Hs) as H1. cbn in H1.
    by destruct (acquire_sink_circuit _ _ _ _ _ _ _).
Qed.

Context (job : DeliveryJob) (Htoken : j_claim_token job = Some token) (calls : list DeliveryJob).

(** The three phases of a delivery. *)
Notation before := (knows false calls jobs_ok).
Notation begun := (knows true (calls ++ [job]) (stored (claim_begun job) job)).
Notation spent := (knows true (calls ++ [job]) (stored (claim_spent job) job)).

Definition accounted (t : Task P) (o : outcome unit) : Prop :=
  match o with Cancelled => begun t | _ => spent t end.

Hint Resolve stable_ok stable_begun stable_spent : core.

Lemma spent_is_begun t : spent t → begun t.
Proof. intros (? & ? & ?). split_and!; [done..|by apply spent_begun]. Qed.

Lemma reconcile_accounted reason : triple begun (reconcile_job job reason) accounted.
Proof.
  unfold reconcile_job. eapply job_triple_bind.
  - eapply (triple_on_store _ _ _ (λ _, stored (claim_spent job) job)); [by eauto|].
    intros i s Hs. cbn. by eapply mark_reconciling_spends.
  - intros marked. destruct marked; [|by apply job_triple_ret].
    eapply job_triple_weaken; [by eapply keeps_write_status, stable_spent|done|].
    intros t [] Hs; cbn; [done|done|by apply spent_is_begun].
  - done.
  - done.
Qed.

Lemma finish_accounted now response : triple begun (finish_attempt job now response) accounted.
Proof.
  intros t Ht. unfold finish_attempt.
  destruct (triple_on_store true (calls ++ [job]) (stored (claim_begun job) job)
    (λ r, match r with Ok _ => stored (claim_spent job) job | _ => stored (claim_begun job) job end)
    (λ i s, record_attempt (clock i) job response (Some (now + retry_delay job)) (wc_max_attempts conf) s)
    ltac:(eauto)) with t as [H1 H2]; [|done|].
  { intros i s Hs. destruct (record_attempt _ _ _ _ _ s) as [s' [u|c m]] eqn:E; cbn.
    - eapply record_attempt_spends; [done|apply Hs|done].
    - destruct (record_attempt_at (clock i) job response (Some (now + retry_delay job)) (wc_max_attempts conf) s)
        as [[m' G]|(? & _ & _ & _ & G)]; rewrite G in E; by simplify_eq. }
  destruct (on_store _ t) as [t1 [u|c m|]]; cbn in *.
  - destruct (keeps_write_status u (j_status u) (rs_summary response) _ _ _ (stable_spent token job Htoken) t1 H1)
      as [H3 H4]. split; [|by eapply timely_trans].
    destruct (write_status _ _ _ t1) as [t2 []]; cbn in *; [done|done|by apply spent_is_begun].
  - pose proof (proj1 H1) as Hst. rewrite Hst.
    destruct (job_triple_bind begun (reconcile_job job "attempt_completion_lost") (λ _ t, (t, Exn c m)) accounted accounted)
      with t1 as [H3 H4]; [by apply reconcile_accounted|by intros; apply triple_exn|done|done|done|].
    split; [done|by eapply timely_trans].
  - split; [done|by eapply timely_as].
Qed.

Lemma finish_before now response : keeps false calls jobs_ok (finish_attempt job now response).
Proof.
  intros t Ht. unfold finish_attempt.
  destruct (keeps_on_store false calls jobs_ok
    (λ i s, record_attempt (clock i) job response (Some (now + retry_delay job)) (wc_max_attempts conf) s))
    with t as [H1 H2]; [by eauto| |done|].
  { intros i s Hs. exact (run_delivery_ok s (DRecord (clock i) job response _ _) Hs). }
  destruct (on_store _ t) as [t1 [u|c m|]]; cbn in *.
  - destruct (keeps_write_status u (j_status u) (rs_summary response) _ _ _ (stable_ok token) t1 H1) as [H3 H4].
    split; [done|by eapply timely_trans].
  - pose proof (proj1 H1) as Hst. rewrite Hst. split; [done|by eapply timely_as].
  - split; [done|by eapply timely_as].
Qed.

Lemma attempt_phases config adapter :
  triple before (attempt_sink job config adapter)
    (λ t o, match o with
            | Ret (Some _) => begun t
            | Cancelled => before t ∨ begun t
            | _ => before t
            end).
Proof.
  unfold attempt_sink. eapply job_triple_bind; [by eapply keeps_write_status, stable_ok| |done|by left].
  intros []. eapply job_triple_bind.
  - eapply (triple_on_store _ _ _ (λ r s, if r is Ok true then stored (claim_begun job) job s else jobs_ok s));
      [by eauto|].
    intros i s Hs. cbn. destruct (begin_side_effect (clock i) job s) as [s' []] eqn:E; cbn.
    + by eapply begin_side_effect_begun.
    + pose proof (run_delivery_ok s (DBegin (clock i) job) Hs) as H1. cbn in H1. by rewrite E in H1.
  - cbn. intros [|]; cbn; [|by apply job_triple_ret].
    apply (job_triple_bind _ set_started _ (λ t o, knows true calls (stored (claim_begun job) job) t ∧ o = Ret tt)).
    + intros t (H1 & H2 & H3). split; [by split_and!|by split].
    + intros []. apply (job_triple_bind _ _ _ (λ t o, begun t ∧ ∀ c e, o ≠ Exn c e)).
      * apply triple_total; [|intros t; by apply await_total; eauto].
        intros t [(H1 & H2 & H3) _]. unfold call_sink.
        match goal with |- context [await ?op ?t'] =>
          destruct (keeps_await true (calls ++ [job]) (stored (claim_begun job) job) op) with t' as [Hk Hti] end;
          [by eauto|done| |exact (conj Hk Hti)].
        split_and!; [done| |done]. cbn. by rewrite H2.
      * intros r. apply job_triple_ret. by intros t [? _].
      * intros t c e [_ Hn]. by destruct (Hn c e).
      * intros t [? _]. by right.
    + by intros t c e [].
    + by intros t [].
  - done.
  - by left.
Qed.

Lemma body_accounted :
  triple before (deliver_body job) (λ t o, before t ∨ accounted t o).
Proof.
  unfold deliver_body. eapply job_triple_bind; [eapply keeps_on_store; [by eauto|]| | |]; [|..|by left|by left].
  { intros i s Hs. exact (run_delivery_ok s (DRenew (clock i) job (wc_claim_ttl conf)) Hs). }
  intros [|]; [|by apply job_triple_ret; left]. cbn [negb].
  eapply job_triple_bind; [by eapply keeps_on_store; [eauto|]| |by left|by left].
  intros config t Ht. cbv zeta.
  assert (∀ now response probe, triple before
    (_ <- record_circuit_result job now false response probe;; finish_attempt job now response)
    (λ t o, before t ∨ accounted t o)) as Hrefused.
  { intros. eapply job_triple_bind; [by eapply keeps_circuit_result, stable_ok| |by left|by left].
    intros []. eapply job_triple_weaken; [by apply finish_before|done|by left]. }
  destruct config as [config|]; [|by apply Hrefused].
  destruct (dget (j_sink_type job) adapters) as [adapter|]; [|by apply Hrefused].
  generalize (clock (tk_await t)). intros now.
  refine (job_triple_bind before (ask_circuit job now) _ (λ t _, before t) (λ t o, before t ∨ accounted t o)
            _ _ _ _ t Ht); [by eapply keeps_ask_circuit, stable_ok| |by left|by left].
  intros [[|] probe]; cbn [negb]; [|by apply Hrefused].
  eapply job_triple_bind; [apply attempt_phases| |by left|].
  - intros [response|]; [|by apply job_triple_ret; left].
    eapply job_triple_bind; [apply triple_total; [by eapply keeps_circuit_result, stable_begun|]| | |].
    + intros ? c e. apply circuit_result_total.
    + intros []. eapply job_triple_weaken; [by apply finish_accounted|by intros ? [? _]|by right].
    + intros ? c m [_ Hn]. by destruct (Hn c m).
    + intros ? [? _]. by right.
  - intros ? [?|?]; [by left|by right].
Qed.

Lemma deliver_phases t : before t → before (deliver job t).1 ∨ spent (deliver job t).1.
Proof.
  intros Ht. unfold deliver. destruct (body_accounted t Ht) as [Hb Hti].
  destruct (deliver_body job t) as [t1 [a|c e|]]; cbn in *; [done..|].
  destruct Hb as [Hb|Hb]; pose proof (proj1 Hb) as Hst; rewrite Hst; [by destruct lease_lost; left|]. right.
  destruct Hti as [_ Hca]. destruct (Hca eq_refl) as (i & Hi & Hlt).
  destruct (reconcile_accounted (if lease_lost then "lease_lost" else "worker_cancelled") t1 Hb) as [Hr [_ Hcr]].
  unfold bind. destruct (reconcile_job _ _ t1) as [t2 [a|c e|]]; cbn in *; [by destruct lease_lost|done|].
  destruct (Hcr eq_refl) as (i' & Hi' & ?). simplify_eq. lia.
Qed.
End logic.

(** C6. A delivery leaves no side effect unaccounted for, whatever the other workers
    do between its awaits and wherever it is cancelled: it calls the sink at most
    once, and only after it marked the side effect; when it ends, by success,
    exception or cancellation, a stored job whose sink was called is no longer under
    this delivery's claim, so the attempt was recorded, given to reconciliation, or
    taken over by another claim. *)
Theorem side_effect_accounted token job w :
  j_claim_token job = Some token → others token → jobs_ok (w_store w) →
  let t := (deliver job (start_task w)).1 in
  w_calls (tk_world t) = w_calls w ++ (if tk_started t then [job] else [])
  ∧ jobs_ok (w_store (tk_world t))
  ∧ (tk_started t = true → ∃ current,
       job_at (j_delivery_id job) (w_store (tk_world t)) = Some current
       ∧ j_claim_token current ≠ Some token).
Proof.
  intros Ht Ho Hok. cbv zeta.
  destruct (deliver_phases token Ho job Ht (w_calls w) (start_task w)) as [(H1 & H2 & H3)|(H1 & H2 & H3)];
    [by split_and!| |].
  - rewrite H1, H2, (right_id_L [] (++)). done.
  - rewrite H1, H2. destruct H3 as (H3 & c & Hc & Hs). split_and!; [done..|]. intros _. exists c.
    split; [done|]. unfold claim_spent in Hs. congruence.
Qed.
End worker.

(** ** Concrete runs *)

Module DeliveryWorkerExamples.
Import DeliveryExamples.
#[local] Existing Instance strict_pydantic.
#[local] Existing Instance task_projection_writer.

Definition conf : WorkerConfig := mkWorkerConfig "w" 5 1 60 3 30 10 8 2.
Definition webhook : SinkAdapter := λ _ _, inl (mkResponse true false "ok" []).

(** A claimed job, its worker alone in the world. *)
Definition claimed_store : DeliveryStore :=
  delivery_history (three_jobs ++ [DClaim 100 tokens "w" 60 10 None]) new_delivery_store.
Definition world : World TaskProjection := mkWorld empty_store empty_projection claimed_store None [].
Definition alone (i : nat) (w : World TaskProjection) : World TaskProjection := w.

Definition clock (i : nat) : Z := 110 + Z.of_nat i.
Definition supply (i : nat) : Supply := mkSupply tokens (λ i, Z.of_nat i).
Definition adapters : list (string * SinkAdapter) := [("webhook", webhook)].

Notation run cancel :=
  (deliver conf adapters alone cancel true clock tokens supply (handle "tok0") (start_task world)).1.

Definition final_status (t : Task TaskProjection) : option DeliveryStatus :=
  j_status <$> job_at e1_id (w_store (tk_world t)).

Example delivered_once :
  final_status (run None) = Some DSucceeded ∧ length (w_calls (tk_world (run None))) = 1%nat.
Proof. vm_compute. done. Qed.

(** Cancelled before the side effect began; while the sink is called. *)
Example cancelled_early :
  final_status (run (Some 3%nat)) = Some DAttempting ∧ w_calls (tk_world (run (Some 3%nat))) = [].
Proof. vm_compute. done. Qed.
Example cancelled_in_call :
  final_status (run (Some 5%nat)) = Some DReconciling ∧ length (w_calls (tk_world (run (Some 5%nat)))) = 1%nat.
Proof. vm_compute. done. Qed.

Lemma alone_others : others alone "tok0".
Proof. intros i w. split; [done|]. exists []. by split. Qed.

Lemma claimed_store_ok : jobs_ok claimed_store.
Proof. apply delivery_history_ok, jobs_ok_new. Qed.

Lemma run_started : tk_started (run (Some 5%nat)) = true.
Proof. vm_compute. reflexivity. Qed.

Lemma side_effect_accounted_witness :
  ∃ current, job_at (j_delivery_id (handle "tok0")) (w_store (tk_world (run (Some 5%nat)))) = Some current
    ∧ j_claim_token current ≠ Some "tok0".
Proof.
  pose proof (side_effect_accounted conf adapters alone (Some 5%nat) true clock tokens supply
    "tok0" (handle "tok0") world eq_refl alone_others claimed_store_ok) as H.
  cbv zeta in H. destruct H as (_ & _ & H). apply H. exact run_started.
Defined.

(** A finished run of a watched Session is pending delivery. *)
Definition finished : EventStore :=
  run_op empty_store (OpAppend (mkSupply (λ i, "e" +:+ pretty i) (λ i, Z.of_nat i)) "s" "s" (Some "r")
    (mkContext "c1" "t" (mkActor "user" "u") "corr" 0 "run" None None)
    [mkNewEvent "run.completed" [] VUser] []).
Definition watched : DeliveryStore := register_sink (sink "k" "s") new_delivery_store.

Lemma ingest_exact_witness :
  ∃ es ds, ingest_once (λ _ _, 5) 100 finished watched = (es, ds, 1)
    ∧ length (es_outbox es) = length (es_outbox finished).
Proof.
  destruct (ingest_once (λ _ _, 5) 100 finished watched) as [[es ds] n] eqn:E. exists es, ds.
  destruct (ingest_exact (λ _ _, 5) 100 finished watched es ds n E) as (H1 & H2 & _).
  assert (length (slice_to 100 (pending_delivery_outbox finished)) = 1%nat) as Hlen by (vm_compute; reflexivity).
  rewrite H1, Hlen. split; [reflexivity|]. rewrite H2. clear. vm_compute. reflexivity.
Defined.
End DeliveryWorkerExamples.
