(* ===== verification/Routing.v ===== *)
(** * Routing plans ([contracts/routing.py])

    The bounded plan a router submits: its steps, the validators of the contract
    models and the digest that names its content.  The models are frozen pydantic
    models; [plan_valid] is what their validation checks, and a value that reaches the
    services has passed it. *)

From Stdlib Require Import SpecFloat Ascii.
From S2P Require Import Prelude PyValue Digest.
Local Open Scope Z_scope.

Definition PLAN_VERSION : string := "bounded-plan-v1".

Inductive RouteKind :=
  | DirectAnswer | SingleCapability | SequentialPlan | CoordinatorDag | Clarify | Fallback.
#[global] Instance RouteKind_eq_dec : EqDecision RouteKind.
Proof. solve_decision. Defined.

Definition route_kind_value (k : RouteKind) : string :=
  match k with
  | DirectAnswer => "direct_answer" | SingleCapability => "single_capability"
  | SequentialPlan => "sequential_plan" | CoordinatorDag => "coordinator_dag"
  | Clarify => "clarify" | Fallback => "fallback"
  end.

Inductive PlanRiskClass := PLow | PMedium | PHigh | PCritical.
Definition plan_risk_value (r : PlanRiskClass) : string :=
  match r with PLow => "low" | PMedium => "medium" | PHigh => "high" | PCritical => "critical" end.

Record RouteTarget := mkTarget {
  rg_kind : string;
  rg_name : string;
  rg_permission : option string;
  rg_publisher : option string;
  rg_version : string;
  rg_capability_id : option string;
  rg_binding_id : option string;
  rg_server_id : option string;
  rg_config_revision : option Z;
  rg_content_digest : option string;
}.

Record PlanOutputContract := mkPlanOutput {
  po_result_kind : string;
  po_required_fields : list string;
  po_require_artifacts : bool;
  po_require_evidence : bool;
}.

Record PlanAssignment := mkPlanAssignment {
  pa_execution_scope : string;
  pa_role : string;
  pa_profile_id : option string;
  pa_model : option string;
  pa_harness : option string;
}.

Record PlanBudget := mkPlanBudget {
  pb_fraction : spec_float;
  pb_max_steps : option Z;
  pb_max_output_tokens : option Z;
  pb_max_cost : option spec_float;
}.

Record RoutingPlanStep := mkStep {
  rp_task_key : string;
  rp_goal : string;
  rp_dependencies : list string;
  rp_input_refs : list string;
  rp_output_contract : PlanOutputContract;
  rp_assignment : PlanAssignment;
  rp_budget : PlanBudget;
  rp_capability : option RouteTarget;
  rp_parallel_group : option string;
  rp_risk_class : PlanRiskClass;
  rp_requires_review : bool;
}.

Record RoutingPlan := mkPlan {
  pl_plan_version : string;
  pl_route_kind : RouteKind;
  pl_success_criteria : list string;
  pl_constraints : list string;
  pl_risk_class : PlanRiskClass;
  pl_steps : list RoutingPlanStep;
  pl_plan_digest : string;
}.

(** ** Validation *)

Definition within (lo hi : Z) (s : string) : bool :=
  let n := Z.of_nat (String.length s) in (lo <=? n) && (n <=? hi).
Definition opt_within (lo hi : Z) (s : option string) : bool :=
  match s with Some s => within lo hi s | None => true end.
Definition at_most {A} (n : Z) (l : list A) : bool := Z.of_nat (length l) <=? n.

(** [str.isalnum] of a character. *)
Definition char_alnum (c : ascii) : bool :=
  let n := Z.of_N (ord c) in
  is_digit c || ((65 <=? n) && (n <=? 90)) || ((97 <=? n) && (n <=? 122))
  || existsb (Z.eqb n) [170; 178; 179; 181; 185; 186; 188; 189; 190]
  || ((192 <=? n) && (n <=? 255) && negb (n =? 215) && negb (n =? 247)).

(** [field.replace("_", "").isalnum()] *)
Definition identifier_chars (s : string) : bool :=
  match List.filter (λ c, negb (Ascii.eqb c "_"%char)) (str_list s) with
  | [] => false
  | l => forallb char_alnum l
  end.

Definition output_contract_valid (o : PlanOutputContract) : bool :=
  str_in (po_result_kind o) ["tool_result"; "child_result"; "review"]
  && at_most 16 (po_required_fields o)
  && bool_decide (NoDup (po_required_fields o))
  && forallb (λ f, within 1 64 f && identifier_chars f) (po_required_fields o).

Definition assignment_valid (a : PlanAssignment) : bool :=
  str_in (pa_execution_scope a) ["current"; "child"]
  && str_in (pa_role a) ["root"; "coordinator"; "worker"; "reviewer"; "repair"]
  && opt_within 1 128 (pa_profile_id a) && opt_within 1 128 (pa_model a) && opt_within 1 128 (pa_harness a)
  && negb (String.eqb (pa_execution_scope a) "child" && str_in (pa_role a) ["root"; "coordinator"]).

Definition opt_positive (n : option Z) : bool := match n with Some n => 1 <=? n | None => true end.

Definition f64_one : spec_float := f64_of_ratio false 1 1.

Definition budget_valid (b : PlanBudget) : bool :=
  f64_gtb (pb_fraction b) f64_zero && f64_leb (pb_fraction b) f64_one
  && opt_positive (pb_max_steps b) && opt_positive (pb_max_output_tokens b)
  && match pb_max_cost b with Some c => f64_gtb c f64_zero | None => true end.

(** [^[a-z0-9][a-z0-9._-]*$] *)
Definition key_start (c : ascii) : bool :=
  let n := Z.of_N (ord c) in is_digit c || ((97 <=? n) && (n <=? 122)).
Definition key_pattern (s : string) : bool :=
  match str_list s with
  | [] => false
  | c :: l => key_start c && forallb (λ c, key_start c || existsb (Ascii.eqb c) ["."; "_"; "-"]%char) l
  end.

Definition target_valid (t : RouteTarget) : bool :=
  within 1 256 (rg_name t) && opt_within 1 64 (rg_permission t) && opt_within 1 256 (rg_publisher t)
  && within 1 128 (rg_version t) && opt_within 1 256 (rg_capability_id t) && opt_within 1 256 (rg_binding_id t)
  && opt_within 1 128 (rg_server_id t)
  && match rg_config_revision t with Some n => 0 <=? n | None => true end
  && opt_within 1 256 (rg_content_digest t).

Definition step_valid (s : RoutingPlanStep) : bool :=
  within 1 128 (rp_task_key s) && key_pattern (rp_task_key s) && within 1 4000 (rp_goal s)
  && at_most 32 (rp_dependencies s) && at_most 32 (rp_input_refs s)
  && output_contract_valid (rp_output_contract s) && assignment_valid (rp_assignment s)
  && budget_valid (rp_budget s)
  && match rp_capability s with Some t => target_valid t | None => true end
  && opt_within 1 128 (rp_parallel_group s).

(** [^sha256:[0-9a-f]{64}$] *)
Definition digest_pattern (s : string) : bool :=
  String.prefix "sha256:" s
  && let hex := drop 7 (str_list s) in
     Nat.eqb (length hex) 64
     && forallb (λ c, is_digit c || ((97 <=? Z.of_N (ord c)) && (Z.of_N (ord c) <=? 102))) hex.

Definition plan_valid (p : RoutingPlan) : bool :=
  (match pl_route_kind p with SequentialPlan | CoordinatorDag => true | _ => false end)
  && match pl_success_criteria p with [] => false | l => at_most 16 l end
  && at_most 32 (pl_constraints p)
  && match pl_steps p with [] => false | l => at_most 32 l && forallb step_valid l end
  && digest_pattern (pl_plan_digest p).

(** ** The digest *)

Definition digest_of (value : json) : string := "sha256:" +:+ sha256_hex (utf8 (json_dumps false value)).

Definition jint_opt : option Z → json := jopt_obj JInt.
Definition jfloat_opt : option spec_float → json := jopt_obj JFloat.

(** [model_dump(mode="json")] *)
Definition target_dump (t : RouteTarget) : json :=
  JObj [("kind", JStr (rg_kind t)); ("name", JStr (rg_name t)); ("permission", jopt (rg_permission t));
        ("publisher", jopt (rg_publisher t)); ("version", JStr (rg_version t));
        ("capability_id", jopt (rg_capability_id t)); ("binding_id", jopt (rg_binding_id t));
        ("server_id", jopt (rg_server_id t)); ("config_revision", jint_opt (rg_config_revision t));
        ("content_digest", jopt (rg_content_digest t))].

Definition step_dump (s : RoutingPlanStep) : json :=
  let o := rp_output_contract s in let a := rp_assignment s in let b := rp_budget s in
  JObj [("task_key", JStr (rp_task_key s)); ("goal", JStr (rp_goal s));
        ("dependencies", jstrs (rp_dependencies s)); ("input_refs", jstrs (rp_input_refs s));
        ("output_contract",
          JObj [("result_kind", JStr (po_result_kind o)); ("required_fields", jstrs (po_required_fields o));
                ("require_artifacts", JBool (po_require_artifacts o));
                ("require_evidence", JBool (po_require_evidence o))]);
        ("assignment",
          JObj [("execution_scope", JStr (pa_execution_scope a)); ("role", JStr (pa_role a));
                ("profile_id", jopt (pa_profile_id a)); ("model", jopt (pa_model a));
                ("harness", jopt (pa_harness a))]);
        ("budget",
          JObj [("fraction", JFloat (pb_fraction b)); ("max_steps", jint_opt (pb_max_steps b));
                ("max_output_tokens", jint_opt (pb_max_output_tokens b)); ("max_cost", jfloat_opt (pb_max_cost b))]);
        ("capability", jopt_obj target_dump (rp_capability s));
        ("parallel_group", jopt (rp_parallel_group s));
        ("risk_class", JStr (plan_risk_value (rp_risk_class s)));
        ("requires_review", JBool (rp_requires_review s))].

(** [RoutingPlan.create]: the payload is validated again, which a plan of validated
    steps passes. *)
Definition plan_create (route_kind : RouteKind) (success_criteria constraints : list string)
    (risk_class : PlanRiskClass) (steps : list RoutingPlanStep) : RoutingPlan :=
  let payload :=
    [("plan_version", JStr PLAN_VERSION); ("route_kind", JStr (route_kind_value route_kind));
     ("success_criteria", jstrs success_criteria); ("constraints", jstrs constraints);
     ("risk_class", JStr (plan_risk_value risk_class)); ("steps", JArr (map step_dump steps))] in
  mkPlan PLAN_VERSION route_kind success_criteria constraints risk_class steps (digest_of (JObj payload)).

(** ** A created plan is valid *)

Definition lower_hex (c : ascii) : bool :=
  is_digit c || ((97 <=? Z.of_N (ord c)) && (Z.of_N (ord c) <=? 102)).

Lemma nibble_cases x : 0 ≤ x < 16 →
  x = 0 ∨ x = 1 ∨ x = 2 ∨ x = 3 ∨ x = 4 ∨ x = 5 ∨ x = 6 ∨ x = 7
  ∨ x = 8 ∨ x = 9 ∨ x = 10 ∨ x = 11 ∨ x = 12 ∨ x = 13 ∨ x = 14 ∨ x = 15.
Proof. lia. Qed.

Lemma hex_digit_lower w : lower_hex (hex_digit (Z.to_N (Z.land w 15))) = true.
Proof.
  assert (0 ≤ Z.land w 15 < 16) as Hb.
  { change 15 with (Z.ones 4). rewrite Z.land_ones by lia. by apply Z.mod_pos_bound. }
  apply nibble_cases in Hb. repeat (destruct Hb as [->|Hb]; [reflexivity|]). by rewrite Hb.
Qed.

Lemma str_list_of l : str_list (str_of l) = l.
Proof. induction l as [|c l IH]; cbn; [done|]. by rewrite IH. Qed.
Lemma str_list_app s1 s2 : str_list (s1 +:+ s2) = str_list s1 ++ str_list s2.
Proof. induction s1 as [|c s IH]; cbn; [done|]. by rewrite <- IH. Qed.

Lemma hex32_shape w : length (str_list (hex32 w)) = 8%nat ∧ forallb lower_hex (str_list (hex32 w)) = true.
Proof.
  unfold hex32. rewrite str_list_of. split; [done|]. cbn [map forallb]. by rewrite !hex_digit_lower.
Qed.

Lemma hex32s_shape ws :
  length (str_list (String.concat EmptyString (map hex32 ws))) = (8 * length ws)%nat
  ∧ forallb lower_hex (str_list (String.concat EmptyString (map hex32 ws))) = true.
Proof.
  induction ws as [|w ws IH]; [done|]. cbn [map]. destruct (hex32_shape w) as [H1 H2], IH as [H3 H4].
  destruct ws as [|w' ws]; [cbn [map String.concat length]; by rewrite H1|].
  change (String.concat EmptyString (hex32 w :: map hex32 (w' :: ws)))
    with (hex32 w +:+ (EmptyString +:+ String.concat EmptyString (map hex32 (w' :: ws)))).
  rewrite !str_list_app, !length_app, !forallb_app, H1, H2, H3, H4. cbn. split; [lia|done].
Qed.

Lemma sha_round_length st kw : length st = 8%nat → length (sha_round st kw) = 8%nat.
Proof. intros H. unfold sha_round. by repeat (case_match; simplify_eq/=; try done). Qed.

Lemma sha_block_length st b : length st = 8%nat → length (sha_block st b) = 8%nat.
Proof.
  intros H. unfold sha_block. rewrite length_zip_with, H.
  assert (∀ l s, length s = 8%nat → length (fold_left sha_round l s) = 8%nat) as Hf.
  { induction l as [|x l IH]; intros s Hs; cbn; [done|]. by apply IH, sha_round_length. }
  by rewrite Hf.
Qed.

Lemma sha256_hex_shape msg :
  length (str_list (sha256_hex msg)) = 64%nat ∧ forallb lower_hex (str_list (sha256_hex msg)) = true.
Proof.
  unfold sha256_hex.
  match goal with |- context [fold_left sha_block ?l ?s] => assert (length (fold_left sha_block l s) = 8%nat) as Hl end.
  { generalize (blocks (length (words (sha_pad msg))) (words (sha_pad msg))). intros l.
    assert (length h256 = 8%nat) as Hs by done. revert Hs. generalize h256.
    induction l as [|x l IH]; intros s Hs; cbn; [done|]. by apply IH, sha_block_length. }
  destruct (hex32s_shape (fold_left sha_block (blocks (length (words (sha_pad msg))) (words (sha_pad msg))) h256))
    as [H1 H2]. rewrite Hl in H1. done.
Qed.

Lemma digest_of_pattern v : digest_pattern (digest_of v) = true.
Proof.
  unfold digest_of. destruct (sha256_hex_shape (utf8 (json_dumps false v))) as [H1 H2].
  revert H1 H2. generalize (sha256_hex (utf8 (json_dumps false v))). intros s H1 H2.
  unfold digest_pattern. rewrite str_list_app. change (drop 7 (str_list "sha256:" ++ str_list s)) with (str_list s).
  rewrite H1. apply andb_true_iff. split; [cbn; by destruct s|]. cbn [Nat.eqb andb]. exact H2.
Qed.

(** [RoutingPlan.create] yields a value of the model exactly when its arguments are
    within the model's bounds: a plan kind, 1 to 16 criteria, at most 32 constraints and
    1 to 32 valid steps; the digest it computes always has the required form. *)
Theorem plan_create_valid k criteria constraints risk steps :
  plan_valid (plan_create k criteria constraints risk steps) = true ↔
  (k = SequentialPlan ∨ k = CoordinatorDag)
  ∧ (1 ≤ length criteria ≤ 16)%nat ∧ (length constraints ≤ 32)%nat
  ∧ (1 ≤ length steps ≤ 32)%nat ∧ Forall (λ s, step_valid s = true) steps.
Proof.
  unfold plan_valid, plan_create. cbn [pl_route_kind pl_success_criteria
    pl_constraints pl_steps pl_plan_digest]. rewrite digest_of_pattern, andb_true_r, !andb_true_iff.
  unfold at_most. rewrite Z.leb_le.
  assert (match k with SequentialPlan | CoordinatorDag => true | _ => false end = true
    ↔ k = SequentialPlan ∨ k = CoordinatorDag) as -> by (destruct k; naive_solver).
  assert (forallb step_valid steps = true ↔ Forall (λ s, step_valid s = true) steps) as Hall.
  { rewrite forallb_forall, Forall_forall. by setoid_rewrite list_elem_of_In. }
  destruct criteria as [|c criteria]; [cbn [length]; naive_solver lia|].
  destruct steps as [|s steps]; [cbn [length]; naive_solver lia|].
  rewrite andb_true_iff, !Z.leb_le, Hall. cbn [length].
  set (A := Forall _ (s :: steps)). clearbody A. naive_solver lia.
Qed.
