(* ===== verification/CollaborationService.v ===== *)
(** * The collaboration service ([session/collaboration_service.py])

    The command boundary of the task graph: every command rebuilds the graph of the
    root from its events, checks the caller's role and the graph, and appends its
    events; a plan is appended as one batch.  A command is a function from the store
    to what it will write ([Work]), and [perform] is the append and the relay that end
    it.  [child_id] is [uuid5], executable ([Digest]). *)

From Stdlib Require Import SpecFloat.
From S2P Require Import Prelude PyValue DateTime Digest Contracts Session.
From S2P Require Import Collaboration RuntimeBudget SkillExecution EventStore Relay Routing.
Local Open Scope Z_scope.

#[global] Instance OutputContract_eq_dec : EqDecision OutputContract.
Proof. solve_decision. Defined.

(** ** Results ([contracts/collaboration.py]) *)

Record ChildResult := mkChildResult {
  cr_summary : string;
  cr_result_ref : string;
  cr_artifact_refs : list string;
  cr_evidence_refs : list string;
  cr_limitations : list string;
}.

Definition child_result_dict (r : ChildResult) : payload :=
  [("summary", JStr (cr_summary r)); ("result_ref", JStr (cr_result_ref r));
   ("artifact_refs", jstrs (cr_artifact_refs r)); ("evidence_refs", jstrs (cr_evidence_refs r));
   ("limitations", jstrs (cr_limitations r))].

Record ReviewResult := mkReviewResult {
  rv_decision : ReviewDecision;
  rv_evidence_refs : list string;
  rv_findings : list string;
  rv_repair_suggestions : list string;
}.

Definition review_init (r : ReviewResult) : res ReviewResult :=
  match rv_evidence_refs r with
  | [] => Raise PyValueError "review decisions require evidence"
  | _ => Ok r
  end.

(** ** Helpers *)

Definition f64_mul : spec_float → spec_float → spec_float := SFmul f64_prec f64_emax.
Definition str_drop (n : nat) (s : string) : string := str_of (drop n (str_list s)).

Definition child_id (tenant_id root_session_id task_key : string) : string :=
  "ses_" +:+ uuid5_hex NAMESPACE_URL
               ("auraclaw:" +:+ tenant_id +:+ ":" +:+ root_session_id +:+ ":" +:+ task_key).

Definition child_run_id (child_session_id : string) : string := "run_" +:+ str_drop 4 child_session_id.

Definition require_coordinator (cx : CommandContext) : res unit :=
  if String.eqb (actor_type (cx_actor cx)) "coordinator" then Ok tt
  else Raise AuthorizationError "only a Coordinator can change the Task DAG".

Definition require_child (g : CollaborationAggregate) (child_session_id : string) : res CollaborationNode :=
  let refused := Raise CollaborationValidationError "Child must belong to the same Root and tenant" in
  match dget child_session_id (ca_nodes g) with
  | Some node => if bool_decide (cn_role node = CRoot) then refused else Ok node
  | None => refused
  end.

Definition graph (s : EventStore) (tenant_id root_session_id : string) : res CollaborationAggregate :=
  collab_from_events tenant_id root_session_id (load_root s tenant_id root_session_id None None).

(** [_same_child_budget] *)
Definition same_child_budget (stored requested : payload) : bool :=
  if negb (is_lit (pgetn "policy_version" stored) "2") then py_eq (JObj stored) (JObj requested)
  else py_eq (JObj (filter (λ kv, kv.1 ∉ ["policy_version"; "scope_id"]) stored))
             (JObj (dupdate [("max_steps", JInt 48); ("max_output_tokens", JInt 8192)] requested)).

Definition initial_status (dependency_ids : list string) : json :=
  JStr (match dependency_ids with [] => "runnable" | _ => "blocked" end).

(** [model_copy(update={"approval_mode_source": "inherited"}).public_dict()] *)
Definition inherited_approval (parent : SessionAggregate) : payload :=
  approval_public_dict (sa_approval parent <| approval_mode_source := SrcInherited |>).

(** What a command will write: nothing, the events of one stream, or a batch. *)
Inductive Work :=
  | Answer (answer : payload)
  | WriteStream (session_id : string) (run_id : option string) (events : list NewEvent) (response : payload)
  | WriteBatch (appends : list StreamAppend) (response : payload).

Section service.
Context `{PydanticInt} (limits : CollaborationLimits).

(** ** Children *)

(** The payload of [child.created] in [create_child]. *)
Definition child_payload (root_session_id parent_session_id : string) (spec : ChildSpec) (inherited : payload)
    : payload :=
  [("approval", JObj inherited); ("task_key", JStr (cs_task_key spec));
   ("root_session_id", JStr root_session_id); ("parent_session_id", JStr parent_session_id);
   ("role", JStr (role_value (cs_role spec))); ("goal", JStr (cs_goal spec));
   ("input_refs", jstrs (cs_input_refs spec));
   ("output_contract", JObj (contract_as_dict (cs_output_contract spec)));
   ("dependency_ids", jstrs (cs_dependency_ids spec));
   ("tool_permissions", jstrs (cs_tool_permissions spec));
   ("budget", JFloat (cs_budget spec)); ("runtime_budget", JObj (cs_runtime_budget spec));
   ("target_session_id", pgetn "target_session_id" (cs_metadata spec));
   ("metadata", JObj (cs_metadata spec))].

(** [_child_created_payload] *)
Definition child_created_payload (root_session_id parent_session_id : string) (spec : ChildSpec)
    (inherited : payload) : payload :=
  let p := child_payload root_session_id parent_session_id spec inherited in
  match pgetn "skill_names" (cs_metadata spec) with
  | JArr ((_ :: _) as names) => dset "skill_names" (JArr (map (λ v, JStr (py_str v)) names)) p
  | _ => p
  end.

Definition child_events (created : payload) (inherited : payload) (child_session_id : string) : list NewEvent :=
  [mkNewEvent "child.created" created VInternal;
   mkNewEvent "run.requested"
     [("run_id", JStr (child_run_id child_session_id)); ("approval", JObj inherited)] VInternal].

Definition child_response (root_session_id child_session_id : string) (parent : option string)
    (role : CollaborationRole) (status : json) : payload :=
  [("session_id", JStr child_session_id); ("root_session_id", JStr root_session_id);
   ("parent_session_id", jopt parent); ("role", JStr (role_value role)); ("status", status)].

(** The stored Child is the one the specification asks for. *)
Definition same_child (parent_session_id : string) (spec : ChildSpec) (n : CollaborationNode) : bool :=
  bool_decide (cn_parent_session_id n = Some parent_session_id)
  && bool_decide (cn_role n = cs_role spec) && String.eqb (cn_goal n) (cs_goal spec)
  && bool_decide (cn_output_contract n = cs_output_contract spec)
  && bool_decide (cn_dependency_ids n = cs_dependency_ids spec)
  && py_eq (JFloat (cn_budget n)) (JFloat (cs_budget spec))
  && same_child_budget (cn_runtime_budget n) (cs_runtime_budget spec).

Definition create_child (s : nat → EventStore) (root_session_id parent_session_id : string) (spec : ChildSpec)
    (cx : CommandContext) : res Work :=
  _ ← require_coordinator cx;
  g ← graph (s 0%nat) (cx_tenant_id cx) root_session_id;
  let child := child_id (cx_tenant_id cx) root_session_id (cs_task_key spec) in
  let fresh :=
    _ ← validate_new_child g parent_session_id child spec limits;
    parent ← from_events (load (s 1%nat) (cx_tenant_id cx) parent_session_id 1 None None);
    let inherited := inherited_approval parent in
    Ok (WriteStream child None
          (child_events (child_payload root_session_id parent_session_id spec inherited) inherited child)
          (child_response root_session_id child (Some parent_session_id) (cs_role spec)
             (initial_status (cs_dependency_ids spec)))) in
  match dget child (ca_nodes g) with
  | Some existing =>
      if String.eqb (cn_task_key existing) (cs_task_key spec) then
        if same_child parent_session_id spec existing
        then Ok (Answer (child_response root_session_id child (cn_parent_session_id existing)
                           (cn_role existing) (JStr (cn_status existing))))
        else Raise CollaborationValidationError
               "existing child task_key was reused with a different specification"
      else fresh
  | None => fresh
  end.

(** [request_review] loads the graph to check the target, and then creates a Child. *)
Definition request_review (s : nat → EventStore) (root_session_id parent_session_id task_key target_session_id
    goal : string) (budget : spec_float) (runtime_budget : payload) (cx : CommandContext) : res Work :=
  g ← graph (s 0%nat) (cx_tenant_id cx) root_session_id;
  _ ← require_child g target_session_id;
  contract ← contract_init (mkContract "1" [] false false);
  spec ← child_spec_init (mkChildSpec task_key CReviewer goal contract [target_session_id] [] [] budget
           runtime_budget [("target_session_id", JStr target_session_id)]);
  create_child (λ i, s (S i)) root_session_id parent_session_id spec cx.

(** ** Plans *)

(** [visit] of [_topological_steps]: the steps in order, the sets [visiting] and
    [visited]. *)
Notation topo_state := (list RoutingPlanStep * (gset string * gset string))%type.

Fixpoint topo_visit (fuel : nat) (by_key : list (string * RoutingPlanStep)) (st : topo_state) (key : string)
    : res topo_state :=
  match fuel with
  | O => Raise Diverges "topo_visit"
  | S fuel =>
      let '(ordered, (visiting, visited)) := st in
      if decide (key ∈ visiting) then Raise CollaborationValidationError "Task DAG must be acyclic"
      else if decide (key ∈ visited) then Ok st
      else match dget key by_key with
      | None => Raise PyKeyError key
      | Some step =>
          st ← foldM (λ st dependency,
                 if dmem dependency by_key then topo_visit fuel by_key st dependency
                 else Raise CollaborationValidationError
                        ("plan references an unknown dependency: " +:+ dependency))
                 (rp_dependencies step) (ordered, ({[key]} ∪ visiting, visited));
          Ok (st.1 ++ [step], (st.2.1 ∖ {[key]}, {[key]} ∪ st.2.2))
      end
  end.

Definition topological_steps (by_key : list (string * RoutingPlanStep)) : res (list RoutingPlanStep) :=
  fst <$> foldM (topo_visit (2 + length by_key) by_key) (dkeys by_key) ([], (∅, ∅)).

(** [{key: value ... if value is not None}] *)
Definition without_none (l : payload) : payload := filter (λ kv, is_none kv.2 = false) l.

Definition plan_metadata (step : RoutingPlanStep) (plan_digest : string) (target : option string) : payload :=
  let a := rp_assignment step in
  let base := [("routing_plan_digest", JStr plan_digest);
               ("risk_class", JStr (plan_risk_value (rp_risk_class step)));
               ("requires_review", JBool (rp_requires_review step))] in
  let capabilities :=
    match rp_capability step with
    | Some c =>
        if negb (String.eqb (rg_kind c) "skill") then
          match rg_capability_id c with
          | Some id =>
              [("required_capabilities", JArr [JObj
                 ([("capability_id", JStr id); ("version", JStr (rg_version c))]
                  ++ match rg_content_digest c with Some d => [("content_digest", JStr d)] | None => [] end)])]
          | None => []
          end
        else
          [("skill_names", JArr [JStr (match rg_publisher c with
                                       | Some p => p +:+ "/" +:+ rg_name c | None => rg_name c end)]);
           ("required_skills", JArr [JObj
              [("publisher", jopt (rg_publisher c)); ("name", JStr (rg_name c)); ("version", JStr (rg_version c));
               ("package_digest", jopt (rg_content_digest c)); ("binding_id", jopt (rg_binding_id c))]])]
    | None => []
    end in
  base ++ capabilities
  ++ without_none [("profile_id", jopt (pa_profile_id a)); ("model", jopt (pa_model a));
                   ("harness", jopt (pa_harness a)); ("parallel_group", jopt (rp_parallel_group step));
                   ("target_session_id", jopt target)].

Definition plan_child_spec (step : RoutingPlanStep) (child_ids : list (string * string)) (plan_digest : string)
    : res ChildSpec :=
  deps ← mapR (λ key, match dget key child_ids with
                      | Some id => Ok id
                      | None => Raise CollaborationValidationError
                                  ("plan references a non-child dependency: " +:+ key)
                      end) (rp_dependencies step);
  role ← role_of (pa_role (rp_assignment step));
  let reviewer := bool_decide (role = CReviewer) in
  target ← (if reviewer then match deps with
                             | d :: _ => Ok (Some d)
                             | [] => Raise PyIndexError "tuple index out of range"
                             end else Ok None);
  if reviewer && match target with None => true | Some _ => false end
  then Raise CollaborationValidationError "reviewer plan steps require a target dependency" else
  let o := rp_output_contract step in
  let b := rp_budget step in
  contract ← contract_init (mkContract "1" (if reviewer then [] else po_required_fields o)
               (po_require_artifacts o) (po_require_evidence o));
  child_spec_init (mkChildSpec (rp_task_key step) role (rp_goal step) contract deps (rp_input_refs step)
    (match rp_capability step with Some c => [rg_name c] | None => [] end)
    (f64_mul (pb_fraction b) (cl_max_budget limits))
    (without_none [("max_steps", jint_opt (pb_max_steps b));
                   ("max_output_tokens", jint_opt (pb_max_output_tokens b));
                   ("max_cost", jfloat_opt (pb_max_cost b))])
    (plan_metadata step plan_digest target)).

Definition plan_child_answer (task_key child_session_id : string) (role : CollaborationRole)
    (dependency_ids : list string) : json :=
  JObj [("task_key", JStr task_key); ("session_id", JStr child_session_id);
        ("run_id", JStr (child_run_id child_session_id)); ("role", JStr (role_value role));
        ("dependency_ids", jstrs dependency_ids); ("status", initial_status dependency_ids)].

(** [_existing_plan_child] *)
Definition existing_plan_child (g : CollaborationAggregate) (root_session_id : string) (step : RoutingPlanStep)
    (child_ids : list (string * string)) (plan_digest : string) : res json :=
  match dget (default EmptyString (dget (rp_task_key step) child_ids)) (ca_nodes g) with
  | None => Raise PyKeyError (rp_task_key step)
  | Some node =>
      spec ← plan_child_spec step child_ids plan_digest;
      if same_child root_session_id spec node
         && bool_decide (cn_input_refs node = cs_input_refs spec)
         && bool_decide (cn_tool_permissions node = cs_tool_permissions spec)
         && is_lit (pgetn "routing_plan_digest" (cn_metadata node)) plan_digest
      then Ok (plan_child_answer (rp_task_key step) (cn_session_id node) (cn_role node) (cn_dependency_ids node))
      else Raise CollaborationValidationError
             "existing child task_key was reused with a different plan specification"
  end.

Record Staging := mkStaging {
  sg_graph : CollaborationAggregate;
  sg_appends : list StreamAppend;
  sg_responses : list (string * json);
}.

(** One iteration of the loop over the ordered steps. *)
Definition stage_step (root_session_id plan_digest : string) (child_ids : list (string * string))
    (inherited : payload) (st : Staging) (step : RoutingPlanStep) : res Staging :=
  spec ← plan_child_spec step child_ids plan_digest;
  let child := default EmptyString (dget (rp_task_key step) child_ids) in
  '(_, g) ← stage_new_child (sg_graph st) root_session_id child spec limits;
  Ok (mkStaging g
        (sg_appends st ++ [mkStreamAppend child None 0
           (child_events (child_created_payload root_session_id root_session_id spec inherited) inherited child)])
        (dset (rp_task_key step)
           (plan_child_answer (rp_task_key step) child (cs_role spec) (cs_dependency_ids spec))
           (sg_responses st))).

Definition plan_answer (root_session_id plan_digest : string) (children : list json) : payload :=
  [("root_session_id", JStr root_session_id); ("plan_digest", JStr plan_digest);
   ("status", JStr "submitted"); ("children", JArr children)].

(** The dict [child_ids] of a plan. *)
Definition plan_ids (tenant_id root_session_id : string) (steps : list RoutingPlanStep) : list (string * string) :=
  map (λ step, (rp_task_key step, child_id tenant_id root_session_id (rp_task_key step))) steps.

(** The checks of the plan itself. *)
Definition check_plan (plan : RoutingPlan) : res unit :=
  let steps := pl_steps plan in
  if negb (bool_decide (pl_route_kind plan = CoordinatorDag))
  then Raise CollaborationValidationError "submit_plan requires a coordinator DAG"
  else if negb (String.eqb (pl_plan_digest (plan_create (pl_route_kind plan) (pl_success_criteria plan)
                              (pl_constraints plan) (pl_risk_class plan) steps)) (pl_plan_digest plan))
  then Raise CollaborationValidationError "routing plan digest does not match its content"
  else if match steps with [] => true | _ => false end
          || negb (forallb (λ s, String.eqb (pa_execution_scope (rp_assignment s)) "child") steps)
  then Raise CollaborationValidationError
         "submit_plan requires every plan step to use child execution scope"
  else if negb (bool_decide (NoDup (map rp_task_key steps)))
  then Raise CollaborationValidationError "routing plan task keys must be unique"
  else Ok tt.

Definition submit_plan (s : nat → EventStore) (root_session_id : string) (plan : RoutingPlan) (cx : CommandContext)
    : res Work :=
  _ ← require_coordinator cx;
  _ ← check_plan plan;
  let steps := pl_steps plan in
  g ← graph (s 0%nat) (cx_tenant_id cx) root_session_id;
  parent ← from_events (load (s 1%nat) (cx_tenant_id cx) root_session_id 1 None None);
  let inherited := inherited_approval parent in
  let child_ids := plan_ids (cx_tenant_id cx) root_session_id steps in
  let existing := map (λ kc, dmem kc.2 (ca_nodes g)) child_ids in
  if existsb Datatypes.id existing then
    if negb (forallb Datatypes.id existing)
    then Raise CollaborationValidationError "plan overlaps an incomplete existing Child DAG"
    else
      children ← mapR (λ step, existing_plan_child g root_session_id step child_ids (pl_plan_digest plan)) steps;
      Ok (Answer (plan_answer root_session_id (pl_plan_digest plan) children))
  else
  ordered ← topological_steps (map (λ step, (rp_task_key step, step)) steps);
  st ← foldM (stage_step root_session_id (pl_plan_digest plan) child_ids inherited) ordered (mkStaging g [] []);
  Ok (WriteBatch (sg_appends st)
        (plan_answer root_session_id (pl_plan_digest plan)
           (map (λ step, default JNull (dget (rp_task_key step) (sg_responses st))) steps))).

(** ** Commands on one Child *)

(** [_append] *)
Definition append_to (g : CollaborationAggregate) (session_id : string) (events : list NewEvent)
    (response : payload) : res Work :=
  match dget session_id (ca_nodes g) with
  | None => Raise PyKeyError session_id
  | Some n => Ok (WriteStream session_id (cn_run_id n) events response)
  end.

Definition set_dependencies (s : EventStore) (root_session_id child_session_id : string)
    (dependency_ids : list string) (cx : CommandContext) : res Work :=
  _ ← require_coordinator cx;
  g ← graph s (cx_tenant_id cx) root_session_id;
  _ ← require_child g child_session_id;
  _ ← validate_dependencies (ca_nodes g) child_session_id dependency_ids;
  append_to g child_session_id
    [mkNewEvent "dependency.changed" [("dependency_ids", jstrs dependency_ids)] VInternal]
    [("session_id", JStr child_session_id); ("dependency_ids", jstrs dependency_ids)].

Definition delegate (s : EventStore) (root_session_id child_session_id owner : string) (cx : CommandContext)
    : res Work :=
  _ ← require_coordinator cx;
  g ← graph s (cx_tenant_id cx) root_session_id;
  _ ← require_child g child_session_id;
  if String.eqb (strip owner) EmptyString
  then Raise CollaborationValidationError "delegate owner is required"
  else append_to g child_session_id [mkNewEvent "child.delegated" [("owner", JStr owner)] VInternal]
         [("session_id", JStr child_session_id); ("owner", JStr owner)].

Definition handoff (s : EventStore) (root_session_id child_session_id owner reason : string)
    (cx : CommandContext) : res Work :=
  _ ← require_coordinator cx;
  g ← graph s (cx_tenant_id cx) root_session_id;
  node ← require_child g child_session_id;
  if String.eqb (strip owner) EmptyString
  then Raise CollaborationValidationError "handoff owner is required"
  else append_to g child_session_id
         [mkNewEvent "session.handed_off"
            [("previous_owner", jopt (cn_owner node)); ("owner", JStr owner); ("reason", JStr reason)] VInternal]
         [("session_id", JStr child_session_id); ("owner", JStr owner)].

(** [node.owner is not None and node.owner != context.actor.id] *)
Definition foreign_owner (n : CollaborationNode) (cx : CommandContext) : bool :=
  match cn_owner n with Some o => negb (String.eqb o (actor_id (cx_actor cx))) | None => false end.

(** [except ValueError] *)
Definition value_error_as {A} (c : exn_class) (r : res A) : res A :=
  match r with Raise PyValueError m => Raise c m | r => r end.

Definition completed_response (session_id : string) (p : payload) : payload :=
  dupdate [("session_id", JStr session_id); ("status", JStr "completed")] p.

Definition publish_child_result (s : EventStore) (root_session_id child_session_id : string)
    (child_result : ChildResult) (cx : CommandContext) : res Work :=
  g ← graph s (cx_tenant_id cx) root_session_id;
  if String.eqb child_session_id root_session_id
  then Raise AuthorizationError "a Worker cannot write the Root Session" else
  node ← require_child g child_session_id;
  if bool_decide (cn_role node = CReviewer) || negb (String.eqb (actor_type (cx_actor cx)) "worker")
  then Raise AuthorizationError "only a Worker can publish its Child Result"
  else if foreign_owner node cx
  then Raise AuthorizationError "Worker does not own this Child Session"
  else
  let p := dset "contract_version" (JStr (oc_version (cn_output_contract node))) (child_result_dict child_result) in
  _ ← value_error_as CollaborationValidationError (contract_validate (cn_output_contract node) p);
  append_to g child_session_id
    [mkNewEvent "child.result_published" p VUser;
     mkNewEvent "run.completed"
       [("run_id", jopt (cn_run_id node)); ("result_summary", JStr (cr_summary child_result));
        ("result_ref", JStr (cr_result_ref child_result))] VUser]
    (completed_response child_session_id p).

(** [graph.nodes.get(node.target_session_id)] of a value that may not be a string. *)
Definition require_target (g : CollaborationAggregate) (target : json) : res CollaborationNode :=
  match target with
  | JStr sid => require_child g sid
  | _ => if hashable target
         then Raise CollaborationValidationError "Child must belong to the same Root and tenant"
         else Raise PyTypeError "unhashable type"
  end.

Definition publish_review (s : EventStore) (root_session_id review_session_id : string) (review : ReviewResult)
    (cx : CommandContext) : res Work :=
  g ← graph s (cx_tenant_id cx) root_session_id;
  node ← require_child g review_session_id;
  if negb (bool_decide (cn_role node = CReviewer)) || negb (String.eqb (actor_type (cx_actor cx)) "reviewer")
  then Raise AuthorizationError "only a Reviewer can publish a review decision"
  else if foreign_owner node cx
  then Raise AuthorizationError "Reviewer does not own this Review Session"
  else if is_none (cn_target_session_id node)
  then Raise CollaborationValidationError "Review Session has no target"
  else
  target ← require_target g (cn_target_session_id node);
  match cn_result target with
  | None => Raise CollaborationValidationError "Reviewer target has no published result"
  | Some result =>
      ref ← pget "result_ref" result;
      let p := [("target_session_id", cn_target_session_id node); ("target_result_ref", ref);
                ("decision", JStr (review_value (rv_decision review)));
                ("evidence_refs", jstrs (rv_evidence_refs review)); ("findings", jstrs (rv_findings review));
                ("repair_suggestions", jstrs (rv_repair_suggestions review))] in
      append_to g review_session_id
        [mkNewEvent "review.completed" p VUser;
         mkNewEvent "run.completed"
           [("run_id", jopt (cn_run_id node)); ("result_summary", JStr (review_value (rv_decision review)))] VUser]
        (completed_response review_session_id p)
  end.

Definition cancel_child (s : EventStore) (root_session_id child_session_id reason : string) (cx : CommandContext)
    : res Work :=
  _ ← require_coordinator cx;
  g ← graph s (cx_tenant_id cx) root_session_id;
  node ← require_child g child_session_id;
  if str_in (cn_status node) ["completed"; "cancelled"]
  then Ok (Answer [("session_id", JStr child_session_id); ("status", JStr (cn_status node))])
  else append_to g child_session_id
         [mkNewEvent "run.cancelled" [("run_id", jopt (cn_run_id node)); ("reason", JStr reason)] VUser]
         [("session_id", JStr child_session_id); ("status", JStr "cancelled")].

(** ** Joining *)

(** One iteration of the loop of [join]: the results and the reviews so far. *)
Definition join_item (g : CollaborationAggregate) (acc : list payload * list json) (sid : string)
    : res (list payload * list json) :=
  match dget sid (ca_nodes g) with
  | None => Raise PyKeyError sid
  | Some node =>
      match cn_result node with
      | None => Raise PyAssertionError EmptyString
      | Some result =>
          if bool_decide (cn_role node = CReviewer) then
            target ← pget "target_session_id" result;
            ref ← pget "target_result_ref" result;
            decision ← pget "decision" result;
            evidence ← pget "evidence_refs" result;
            Ok (acc.1, acc.2 ++ [JObj [("review_session_id", JStr sid); ("target_session_id", target);
                                       ("target_result_ref", ref); ("decision", decision);
                                       ("evidence_refs", evidence)]])
          else Ok (acc.1 ++ [[("session_id", JStr sid); ("role", JStr (role_value (cn_role node)));
                              ("result_ref", pgetn "result_ref" result);
                              ("artifact_refs", pgetd "artifact_refs" (JArr []) result)]], acc.2)
      end
  end.

Definition join_artifacts (acc : list (json * json)) (item : payload) : res (list (json * json)) :=
  refs ← py_iter (pgetn "artifact_refs" item);
  Ok (acc ++ map (λ r, (r, pgetn "session_id" item)) refs).

Definition join (s : EventStore) (root_session_id : string) (child_session_ids : list string)
    (result_summary result_ref : string) (cx : CommandContext) : res Work :=
  _ ← require_coordinator cx;
  g ← graph s (cx_tenant_id cx) root_session_id;
  _ ← require_joinable g child_session_ids;
  '(results, reviews) ← foldM (join_item g) child_session_ids ([], []);
  artifacts ← foldM join_artifacts results [];
  let lineage := [("child_results", JArr (map JObj results)); ("reviews", JArr reviews);
                  ("artifact_lineage",
                    JArr (map (λ rs, JObj [("artifact_ref", rs.1); ("source_session_id", rs.2)]) artifacts))] in
  append_to g root_session_id
    [mkNewEvent "join.completed" (("child_session_ids", jstrs child_session_ids) :: lineage) VInternal;
     mkNewEvent "run.completed"
       [("result_summary", JStr result_summary); ("result_ref", JStr result_ref);
        ("artifact_refs", JArr (map fst artifacts)); ("lineage", JObj lineage)] VUser]
    [("session_id", JStr root_session_id); ("status", JStr "completed");
     ("result_summary", JStr result_summary); ("result_ref", JStr result_ref); ("lineage", JObj lineage)].

(** [CoordinatorRole.runnable] *)
Definition coordinator_runnable (s : EventStore) (tenant_id root_session_id : string) : res (list string) :=
  g ← graph s tenant_id root_session_id; Ok (map cn_session_id (runnable g)).

(** ** Requests *)

Inductive CollabRequest :=
  | ReqCreateChild (parent : string) (spec : ChildSpec)
  | ReqSubmitPlan (plan : RoutingPlan)
  | ReqDependencies (child : string) (dependency_ids : list string)
  | ReqDelegateChild (child owner : string)
  | ReqHandoff (child owner reason : string)
  | ReqPublishResult (child : string) (result : ChildResult)
  | ReqPublishReview (child : string) (review : ReviewResult)
  | ReqReview (parent task_key target goal : string) (budget : spec_float) (runtime_budget : payload)
  | ReqCancelChild (child reason : string)
  | ReqJoin (children : list string) (summary ref : string).

(** What a request of root [root] will write; [s i] is the store that its [i]th read finds,
    since the others act between its awaits. *)
Definition prepare (s : nat → EventStore) (root : string) (cx : CommandContext) (req : CollabRequest) : res Work :=
  match req with
  | ReqCreateChild parent spec => create_child s root parent spec cx
  | ReqSubmitPlan plan => submit_plan s root plan cx
  | ReqDependencies child deps => set_dependencies (s 0%nat) root child deps cx
  | ReqDelegateChild child owner => delegate (s 0%nat) root child owner cx
  | ReqHandoff child owner reason => handoff (s 0%nat) root child owner reason cx
  | ReqPublishResult child result => publish_child_result (s 0%nat) root child result cx
  | ReqPublishReview child review => publish_review (s 0%nat) root child review cx
  | ReqReview parent key target goal budget rb => request_review s root parent key target goal budget rb cx
  | ReqCancelChild child reason => cancel_child (s 0%nat) root child reason cx
  | ReqJoin children summary ref => join (s 0%nat) root children summary ref cx
  end.

Context {P : Type} `{ProjectionWriter P}.

(** The append of a command and the relay that follows it. *)
Definition perform (su : Supply) (root : string) (cx : CommandContext) (w : Work) (st : EventStore * P)
    : EventStore * P * res payload :=
  let written (r : EventStore * res AppendResult) :=
    match r with
    | (s, Raise c m) => (s, st.2, Raise c m)
    | (s, Ok result) => ((relay_once 100 (s, st.2)).1, Ok (apr_command_result result))
    end in
  match w with
  | Answer answer => (st, Ok answer)
  | WriteStream sid run events response => written (append su root sid run cx events response st.1)
  | WriteBatch appends response => written (append_batch su root cx appends response st.1)
  end.

(** A whole request: its reads, and the append to the store [st] that it finds then.  What
    the others did between them is not seen by its checks; the append is refused when the
    version of a stream it writes is not the expected one. *)
Definition serve_collaboration (su : Supply) (root : string) (cx : CommandContext) (req : CollabRequest)
    (reads : nat → EventStore) (st : EventStore * P) : EventStore * P * res payload :=
  match prepare reads root cx req with
  | Raise c m => (st, Raise c m)
  | Ok w => perform su root cx w st
  end.
End service.

(** ** The order of the steps *)

Section topo.
Context (by_key : list (string * RoutingPlanStep)).
Context (Hkeys : ∀ k s, dget k by_key = Some s → rp_task_key s = k).

Definition step_graph : dep_graph := map (λ ks, (ks.1, rp_dependencies ks.2)) by_key.

Lemma graph_get_step k s : dget k by_key = Some s → graph_get step_graph k = rp_dependencies s.
Proof.
  clear Hkeys. unfold graph_get, step_graph. induction by_key as [|[k' s'] l IH]; cbn; [done|].
  case_decide; [by intros [= ->]|done].
Qed.

Lemma dkeys_step_graph : dkeys step_graph = dkeys by_key.
Proof. unfold step_graph, dkeys. by rewrite <- list_fmap_compose. Qed.

(** The steps placed so far: distinct, each after what it depends on. *)
Record placed (o : list RoutingPlanStep) (visited : gset string) : Prop := {
  pd_keys : ∀ k, k ∈ visited ↔ k ∈ map rp_task_key o;
  pd_nodup : NoDup (map rp_task_key o);
  pd_steps : ∀ s, s ∈ o → dget (rp_task_key s) by_key = Some s ∧ rp_dependencies s ⊆ dkeys by_key;
  pd_order : ∀ i s d, o !! i = Some s → d ∈ rp_dependencies s →
      ∃ j s', (j < i)%nat ∧ o !! j = Some s' ∧ rp_task_key s' = d;
  pd_grounded : ∀ k, k ∈ visited → grounded step_graph k;
}.

Lemma placed_nil : placed [] ∅.
Proof. split; [set_solver|constructor|by intros ? ?%not_elem_of_nil|done|set_solver]. Qed.

Lemma placed_snoc o visited key step :
  placed o visited → key ∉ visited → dget key by_key = Some step →
  (∀ d, d ∈ rp_dependencies step → d ∈ dkeys by_key ∧ d ∈ visited) →
  placed (o ++ [step]) ({[key]} ∪ visited).
Proof.
  intros [H1 H2 H3 H4 H5] Hk Hg Hd. pose proof (Hkeys _ _ Hg) as Hkey. split.
  - intros k. rewrite map_app, elem_of_union, elem_of_singleton, elem_of_app, H1. cbn.
    rewrite list_elem_of_singleton, Hkey. tauto.
  - rewrite map_app. apply NoDup_app. split_and!; [done| |apply NoDup_singleton].
    intros k Hin. cbn. rewrite list_elem_of_singleton, Hkey. intros ->. by apply Hk, H1.
  - intros s [Hs|Hs%list_elem_of_singleton]%elem_of_app; [by apply H3|]. subst s.
    split; [by rewrite Hkey|]. intros d Hin. by apply Hd.
  - intros i s d Hi Hin. apply lookup_app_Some in Hi as [Hi|[Hlen Hi]].
    + destruct (H4 i s d Hi Hin) as (j & s' & Hj & Hs' & Hd'). exists j, s'.
      split_and!; [done| |done]. by apply lookup_app_l_Some.
    + apply list_lookup_singleton_Some in Hi as [_ <-].
      destruct (Hd d Hin) as [_ Hv]. apply H1, list_elem_of_fmap in Hv as (s' & -> & Hs').
      apply list_elem_of_lookup in Hs' as [j Hj]. exists j, s'. split_and!; [|by apply lookup_app_l_Some|done].
      apply lookup_lt_Some in Hj. lia.
  - intros k [->%elem_of_singleton|Hin]%elem_of_union; [|by apply H5].
    constructor. intros d Hdep. unfold depends in Hdep. rewrite (graph_get_step _ _ Hg) in Hdep.
    apply H5. by apply Hd.
Qed.

(** What a successful visit leaves. *)
Definition topo_post (o : list RoutingPlanStep) (visiting visited : gset string) (goals : list string)
    (st : list RoutingPlanStep * (gset string * gset string)) : Prop :=
  st.2.1 = visiting ∧ visited ⊆ st.2.2 ∧ (∀ k, k ∈ goals → k ∈ st.2.2)
  ∧ (visited ## visiting → st.2.2 ## visiting)
  ∧ (visited ## visiting → placed o visited → placed st.1 st.2.2).

(** The body of the loop over the dependencies of a step. *)
Definition visit_dependency (fuel : nat) st (dependency : string) :=
  if dmem dependency by_key then topo_visit fuel by_key st dependency
  else Raise CollaborationValidationError ("plan references an unknown dependency: " +:+ dependency).

Lemma topo_visit_S fuel o visiting visited key :
  topo_visit (S fuel) by_key (o, (visiting, visited)) key =
  if decide (key ∈ visiting) then Raise CollaborationValidationError "Task DAG must be acyclic"
  else if decide (key ∈ visited) then Ok (o, (visiting, visited))
  else match dget key by_key with
  | None => Raise PyKeyError key
  | Some step =>
      st ← foldM (visit_dependency fuel) (rp_dependencies step) (o, ({[key]} ∪ visiting, visited));
      Ok (st.1 ++ [step], (st.2.1 ∖ {[key]}, {[key]} ∪ st.2.2))
  end.
Proof. done. Qed.

Lemma topo_folds (f : list RoutingPlanStep * (gset string * gset string) → string → res _) :
  (∀ o visiting visited k st, f (o, (visiting, visited)) k = Ok st → topo_post o visiting visited [k] st) →
  ∀ goals o visiting visited st, foldM f goals (o, (visiting, visited)) = Ok st →
    topo_post o visiting visited goals st.
Proof.
  intros Hone goals. induction goals as [|k goals IH]; intros o visiting visited st Hf.
  { cbn in Hf. inv_res. split_and!; try done. set_solver. }
  cbn [foldM] in Hf. apply res_bind_Ok in Hf as ([o1 [v1 w1]] & H1 & H2).
  apply Hone in H1 as (Hv & Hw & Hg & Hd & Hp). cbn in *. subst v1.
  apply IH in H2 as (Hv2 & Hw2 & Hg2 & Hd2 & Hp2). split_and!; [done|set_solver|set_solver|auto|auto].
Qed.

Lemma dependencies_known fuel deps st st' :
  foldM (visit_dependency fuel) deps st = Ok st' → deps ⊆ dkeys by_key.
Proof.
  revert st. induction deps as [|d deps IH]; intros st Hf; [set_solver|].
  cbn [foldM] in Hf. apply res_bind_Ok in Hf as (st1 & H1 & H2). unfold visit_dependency in H1.
  destruct (dmem d by_key) eqn:E; [|done]. apply dmem_true in E. specialize (IH _ H2). set_solver.
Qed.

Lemma topo_visit_ok fuel o visiting visited key st :
  topo_visit fuel by_key (o, (visiting, visited)) key = Ok st → topo_post o visiting visited [key] st.
Proof.
  revert o visiting visited key st. induction fuel as [|fuel IH]; intros o visiting visited key st Hv; [done|].
  rewrite topo_visit_S in Hv. destruct (decide (key ∈ visiting)) as [|Hn]; [done|].
  destruct (decide (key ∈ visited)) as [Hin|Hnv].
  { inv_res. split_and!; try done. set_solver. }
  destruct (dget key by_key) as [step|] eqn:Hg; [|done].
  apply res_bind_Ok in Hv as ([o1 [v1 w1]] & Hf & Hst). inv_res.
  pose proof (dependencies_known _ _ _ _ Hf) as Hk.
  apply (topo_folds (visit_dependency fuel)) in Hf as (Hv1 & Hw & Hs & Hd & Hp).
  2:{ intros ????? Hvd. unfold visit_dependency in Hvd. case_match; [by apply IH|done]. }
  cbn in *. subst v1. split_and!; cbn; [set_solver|set_solver|set_solver|set_solver|].
  intros Hdis Hpl. apply placed_snoc; [apply Hp; [set_solver|done]|set_solver|done|].
  intros d Hin. split; [by apply Hk|by apply Hs].
Qed.

(** A visit that raises has found an unknown dependency or a cycle. *)
Definition bad_graph : Prop :=
  (∃ k s d, dget k by_key = Some s ∧ d ∈ rp_dependencies s ∧ d ∉ dkeys by_key)
  ∨ ∃ k, tc (depends step_graph) k k.

Lemma topo_visit_raises fuel o visiting visited key c m :
  key ∈ dkeys by_key → (unvisiting step_graph visiting + 2 ≤ fuel)%nat →
  (∀ v, v ∈ visiting → tc (depends step_graph) v key) →
  topo_visit fuel by_key (o, (visiting, visited)) key = Raise c m →
  c = CollaborationValidationError ∧ bad_graph.
Proof.
  revert o visiting visited key. induction fuel as [|fuel IH]; intros o visiting visited key Hkey Hfuel Hreach Hv;
    [lia|].
  rewrite topo_visit_S in Hv. destruct (decide (key ∈ visiting)) as [Hin|Hn].
  { simplify_eq. split; [done|]. right. exists key. auto. }
  destruct (decide (key ∈ visited)); [done|].
  destruct (dget key by_key) as [step|] eqn:Hg; [|by apply dget_None in Hg].
  destruct (foldM _ _ _) as [st|c' m'] eqn:Hf; [done|]. cbn in Hv. simplify_eq.
  pose proof (graph_get_step _ _ Hg) as Hdeps.
  assert (unvisiting step_graph ({[key]} ∪ visiting) < unvisiting step_graph visiting)%nat as Hlt
    by (apply unvisiting_lt; [by rewrite dkeys_step_graph|done]).
  assert (∀ d, d ∈ rp_dependencies step → ∀ v, v ∈ ({[key]} ∪ visiting : gset string) →
    tc (depends step_graph) v d) as Hr.
  { intros d Hd v [->%elem_of_singleton|Hvv]%elem_of_union.
    - apply tc_once. unfold depends. by rewrite Hdeps.
    - eapply tc_r; [by apply Hreach|]. unfold depends. by rewrite Hdeps. }
  assert (∀ d, d ∈ rp_dependencies step → d ∉ dkeys by_key → bad_graph) as Hu.
  { intros d Hd Hnk. left. by exists key, step, d. }
  clear Hdeps Hg. revert Hf Hr Hu. generalize visited at 1. generalize o at 1.
  generalize (rp_dependencies step) as ds. intros ds. induction ds as [|d ds IHds]; intros o' w Hf Hr Hu; [done|].
  cbn [foldM] in Hf. destruct (visit_dependency fuel (o', ({[key]} ∪ visiting, w)) d) as [st1|c1 m1] eqn:Hvd;
    unfold visit_dependency in Hvd; destruct (dmem d by_key) eqn:Em; try done; cbn in Hf.
  - destruct st1 as [o1 [v1 w1]]. pose proof (topo_visit_ok _ _ _ _ _ _ Hvd) as (Hv1 & _). cbn in Hv1. subst v1.
    eapply IHds; [exact Hf|intros d' Hd'; apply Hr; by right|intros d' Hd'; apply Hu; by right].
  - simplify_eq. eapply IH; [by apply dmem_true| |apply Hr; by left|exact Hvd]. lia.
  - simplify_eq. split; [done|]. apply (Hu d); [by left|by apply dmem_false].
Qed.

Lemma topo_all_raises fuel goals o visited c m :
  (2 + length by_key ≤ fuel)%nat → goals ⊆ dkeys by_key →
  foldM (topo_visit fuel by_key) goals (o, (∅, visited)) = Raise c m →
  c = CollaborationValidationError ∧ bad_graph.
Proof.
  intros Hfuel. revert o visited. induction goals as [|k goals IH]; intros o visited Hsub Hf; [done|].
  cbn [foldM] in Hf. destruct (topo_visit fuel by_key (o, (∅, visited)) k) as [[o1 [v1 w1]]|] eqn:Hs; cbn in Hf.
  - pose proof (topo_visit_ok _ _ _ _ _ _ Hs) as (Hv1 & _). cbn in Hv1. subst v1.
    eapply IH; [set_solver|exact Hf].
  - simplify_eq. eapply (topo_visit_raises fuel o ∅ visited k); [set_solver| |by intros v ?%elem_of_empty|exact Hs].
    assert (unvisiting step_graph ∅ ≤ length by_key)%nat as Hu.
    { unfold unvisiting. etrans; [apply length_filter|]. rewrite dkeys_step_graph. unfold dkeys. by rewrite length_fmap. }
    lia.
Qed.
End topo.

Definition keyed (steps : list RoutingPlanStep) : list (string * RoutingPlanStep) :=
  map (λ step, (rp_task_key step, step)) steps.

Lemma keyed_keys steps k s : dget k (keyed steps) = Some s → rp_task_key s = k ∧ s ∈ steps.
Proof.
  induction steps as [|x steps IH]; cbn; [done|]. case_decide; [intros [= ->]; split; [done|left]|].
  intros [? ?]%IH. split; [done|by right].
Qed.

Lemma dkeys_keyed steps : dkeys (keyed steps) = map rp_task_key steps.
Proof. unfold keyed, dkeys. by rewrite <- list_fmap_compose. Qed.

Lemma dget_keyed steps s : NoDup (map rp_task_key steps) → s ∈ steps → dget (rp_task_key s) (keyed steps) = Some s.
Proof.
  induction steps as [|x steps IH]; cbn; intros Hnd Hs; [by apply not_elem_of_nil in Hs|].
  apply NoDup_cons in Hnd as [Hx Hnd]. apply elem_of_cons in Hs as [->|Hs]; [by rewrite decide_True|].
  rewrite decide_False; [by apply IH|]. intros Heq. apply Hx. rewrite <- Heq. by apply list_elem_of_fmap_2.
Qed.

(** The dependencies of a plan name its own steps. *)
Definition plan_known (steps : list RoutingPlanStep) : Prop :=
  ∀ s, s ∈ steps → rp_dependencies s ⊆ map rp_task_key steps.

Lemma topological_steps_spec steps :
  NoDup (map rp_task_key steps) →
  match topological_steps (keyed steps) with
  | Ok ordered =>
      ordered ≡ₚ steps ∧ plan_known steps ∧ acyclic (step_graph (keyed steps))
      ∧ ∀ i s d, ordered !! i = Some s → d ∈ rp_dependencies s →
          ∃ j s', (j < i)%nat ∧ ordered !! j = Some s' ∧ rp_task_key s' = d
  | Raise c _ =>
      c = CollaborationValidationError ∧ ¬ (plan_known steps ∧ acyclic (step_graph (keyed steps)))
  end.
Proof.
  intros Hnd. assert (∀ k s, dget k (keyed steps) = Some s → rp_task_key s = k) as Hk
    by (intros k s Hg; by apply keyed_keys in Hg as [? _]).
  unfold topological_steps. destruct (foldM _ _ _) as [[o [v w]]|c m] eqn:Hf; cbn [fmap res_fmap fst].
  - destruct (topo_folds (keyed steps) Hk _ (topo_visit_ok (keyed steps) Hk _) _ _ _ _ _ Hf) as (_ & _ & Hall & _ & Hp).
    clear Hf. cbn in Hall, Hp. specialize (Hp ltac:(set_solver) (placed_nil (keyed steps) Hk)).
    destruct Hp as [H1 H2 H3 H4 H5].
    assert (∀ s, s ∈ o ↔ s ∈ steps) as Hel.
    { intros s. split; [intros Hs; by apply H3 in Hs as [[_ ?]%keyed_keys _]|]. intros Hs.
      assert (rp_task_key s ∈ map rp_task_key o) as (s' & Heq & Hs')%list_elem_of_fmap.
      { apply H1, Hall. rewrite dkeys_keyed. by apply list_elem_of_fmap_2. }
      pose proof (dget_keyed steps s Hnd Hs) as Hg. rewrite Heq in Hg.
      apply H3 in Hs' as Hs2. destruct Hs2 as [Hg' _]. by simplify_eq. }
    split_and!; [|..|done].
    + apply NoDup_Permutation; [by eapply NoDup_fmap_1|by eapply NoDup_fmap_1|done].
    + intros s Hs. rewrite <- dkeys_keyed. by apply H3, Hel.
    + intros k Hc. destruct (decide (k ∈ dkeys (keyed steps))) as [Hin|Hout].
      * apply (grounded_no_cycle (step_graph (keyed steps)) k); [|done]. by apply H5, Hall.
      * inversion Hc as [? ? Hd|? ? ? Hd]; subst; unfold depends, graph_get in Hd.
        all: assert (dget k (step_graph (keyed steps)) = None) as E
          by (apply dget_None; by rewrite dkeys_step_graph).
        all: rewrite E in Hd; by apply not_elem_of_nil in Hd.
  - apply (topo_all_raises _ Hk) in Hf as [-> Hbad]; [|done|done]. split; [done|]. intros [Hkn Hac].
    destruct Hbad as [(k & s & d & Hg & Hd & Hn)|[k Hc]]; [|by apply (Hac k)].
    apply Hn. rewrite dkeys_keyed. apply keyed_keys in Hg as [_ Hs]. by apply (Hkn s Hs).
Qed.

(** Ordering a plan always ends and decides whether it is a DAG: when the steps
    have distinct keys, [_topological_steps] returns the steps in an order in which
    each comes after everything it depends on exactly when all dependencies are known
    and acyclic, and raises the collaboration error otherwise. *)
Theorem topological_steps_exact steps :
  NoDup (map rp_task_key steps) →
  match topological_steps (keyed steps) with
  | Ok ordered =>
      ordered ≡ₚ steps ∧ plan_known steps ∧ acyclic (step_graph (keyed steps))
      ∧ ∀ i s d, ordered !! i = Some s → d ∈ rp_dependencies s →
          ∃ j s', (j < i)%nat ∧ ordered !! j = Some s' ∧ rp_task_key s' = d
  | Raise c _ =>
      c = CollaborationValidationError ∧ ¬ (plan_known steps ∧ acyclic (step_graph (keyed steps)))
  end.
Proof. apply topological_steps_spec. Qed.

(** ** The events of a Child rebuild the node that was checked *)

Lemma role_roundtrip r : role_of (role_value r) = Ok r.
Proof. by destruct r. Qed.

Lemma str_tuple_jstrs l : str_tuple (jstrs l) = Ok l.
Proof. unfold str_tuple, jstrs. cbn. f_equal. induction l as [|s l IH]; cbn; [done|]. by rewrite IH. Qed.

Lemma contract_roundtrip c : contract_init c = Ok c → contract_from_dict (contract_as_dict c) = Ok c.
Proof.
  intros Hc. unfold contract_from_dict, contract_as_dict, pgetd. dsimp. cbn [default Datatypes.id].
  rewrite str_tuple_jstrs. cbn -[contract_init]. by destruct c.
Qed.

Lemma contract_init_id c c' : contract_init c = Ok c' → c' = c.
Proof. unfold contract_init. case_match; [|done]. by intros [= ->]. Qed.

Lemma child_spec_id s s' : child_spec_init s = Ok s' → s' = s.
Proof. unfold child_spec_init. intros. split_guards. inv_res. by repeat (case_match; inv_res). Qed.

(** The payload is written with a checked contract. *)
Lemma child_created_rebuilds root parent spec inherited e :
  contract_init (cs_output_contract spec) = Ok (cs_output_contract spec) →
  stored_from root (mkNewEvent "child.created" (child_created_payload root parent spec inherited) VInternal) e →
  ∃ n, child_node e = Ok n
    ∧ n <| cn_runtime_budget := cs_runtime_budget spec |>
      = mkNode (ev_tenant_id e) (ev_session_id e) root (Some parent) (cs_role spec) (cs_goal spec)
          (cs_task_key spec) (cs_output_contract spec) (cs_dependency_ids spec) (cs_input_refs spec)
          (cs_tool_permissions spec) (cs_metadata spec) None (cs_budget spec) (cs_runtime_budget spec)
          "blocked" None (pgetn "target_session_id" (cs_metadata spec)) None.
Proof.
  intros Hc (_ & Hroot & Hk & Hg). change (governed_key _) with "runtime_budget" in *.
  assert (∀ k, str_in k ["runtime_budget"; "skill_names"] = false →
    dget k (ev_payload e) = dget k (child_payload root parent spec inherited)) as Hget.
  { intros k Hn%str_in_false. rewrite Hk by set_solver. unfold child_created_payload.
    repeat case_match; try done; cbn [ne_payload]; apply dget_dset_ne; set_solver. }
  assert (∃ d, dget "runtime_budget" (ev_payload e) = Some (JObj d)) as [d Hd].
  { destruct Hg as [->|?]; [|done]. exists (cs_runtime_budget spec). unfold child_created_payload.
    repeat case_match; try done; cbn [ne_payload]; by rewrite dget_dset_ne. }
  unfold child_node, pget, pgetd, pgetn. rewrite Hd, !Hget by done. unfold child_payload. dsimp.
  cbn -[str_tuple role_of contract_from_dict jstrs contract_as_dict role_value]. rewrite role_roundtrip.
  cbn -[str_tuple contract_from_dict jstrs contract_as_dict]. rewrite contract_roundtrip by done.
  cbn -[str_tuple jstrs]. rewrite !str_tuple_jstrs. cbn. eexists. split; [done|]. cbn.
  rewrite Hroot. unfold pgetn. by rewrite dget_sget.
Qed.

(** ** A submitted plan *)

Section plan.
Context `{PydanticInt} (limits : CollaborationLimits).

Lemma plan_child_contract step ids digest spec :
  plan_child_spec limits step ids digest = Ok spec →
  contract_init (cs_output_contract spec) = Ok (cs_output_contract spec).
Proof.
  unfold plan_child_spec. intros. inv_res. case_match; [done|]. inv_res.
  match goal with Hs : child_spec_init _ = Ok _ |- _ => apply child_spec_id in Hs; subst spec end.
  cbn [cs_output_contract].
  match goal with Hc : contract_init _ = Ok ?c |- _ => pose proof (contract_init_id _ _ Hc); by subst c end.
Qed.

(** The Child of a step under the dict [child_ids]. *)
Definition child_of (ids : list (string * string)) (step : RoutingPlanStep) : string :=
  default EmptyString (dget (rp_task_key step) ids).

Definition planned_append (root digest : string) (ids : list (string * string)) (inherited : payload)
    (step : RoutingPlanStep) (a : StreamAppend) : Prop :=
  ∃ spec, plan_child_spec limits step ids digest = Ok spec
    ∧ a = mkStreamAppend (child_of ids step) None 0
            (child_events (child_created_payload root root spec inherited) inherited (child_of ids step)).

(** The steps of a plan, staged one after the other, each where it fits. *)
Inductive staged_in_turn (root digest : string) (ids : list (string * string))
    : list RoutingPlanStep → CollaborationAggregate → CollaborationAggregate → Prop :=
  | staged_none g : staged_in_turn root digest ids [] g g
  | staged_step step rest spec g g1 g' :
      plan_child_spec limits step ids digest = Ok spec →
      fits limits g root (child_of ids step) spec →
      graph_ok limits g1 → dkeys (ca_nodes g1) = dkeys (ca_nodes g) ++ [child_of ids step] →
      ca_tenant_id g1 = ca_tenant_id g → ca_root_session_id g1 = ca_root_session_id g →
      (∀ k, static <$> dget k (ca_nodes g1)
         = if decide (k = child_of ids step) then Some (static (staged_node g root (child_of ids step) spec))
           else static <$> dget k (ca_nodes g)) →
      staged_in_turn root digest ids rest g1 g' → staged_in_turn root digest ids (step :: rest) g g'.

Lemma stage_steps root digest ids inherited ordered st st' :
  graph_ok limits (sg_graph st) →
  foldM (stage_step limits root digest ids inherited) ordered st = Ok st' →
  staged_in_turn root digest ids ordered (sg_graph st) (sg_graph st')
  ∧ ∃ new, sg_appends st' = sg_appends st ++ new
      ∧ Forall2 (planned_append root digest ids inherited) ordered new.
Proof.
  revert st. induction ordered as [|step ordered IH]; intros st Hg Hf; cbn [foldM] in Hf.
  { inv_res. split; [constructor|]. exists []. by rewrite app_nil_r. }
  apply res_bind_Ok in Hf as (st1 & H1 & H2). unfold stage_step in H1.
  apply res_bind_Ok in H1 as (spec & Hspec & H1). apply res_bind_Ok in H1 as ([n g] & Hst & H1). inv_res.
  destruct (stage_new_child_keeps_limits _ _ _ _ _ _ _ Hg Hst) as (Hg1 & Hk1 & _).
  destruct (stage_new_child_nodes _ _ _ _ _ _ _ Hg Hst) as (Hfit & Ht & Hr & Hget).
  apply IH in H2 as (Hturn & new & Ha & Hn); [|done]. cbn [sg_graph sg_appends] in *.
  split; [by eapply staged_step|].
  eexists. rewrite Ha, <- app_assoc. split; [done|]. constructor; [|exact Hn]. by exists spec.
Qed.

(** What staging leaves: the nodes that were there, and a new node for each step. *)
Lemma staged_nodes root digest ids ordered g g' :
  staged_in_turn root digest ids ordered g g' → graph_ok limits g →
  graph_ok limits g' ∧ dkeys (ca_nodes g') = dkeys (ca_nodes g) ++ map (child_of ids) ordered
  ∧ (∀ k, k ∈ dkeys (ca_nodes g) → static <$> dget k (ca_nodes g') = static <$> dget k (ca_nodes g))
  ∧ ∀ step spec, step ∈ ordered → plan_child_spec limits step ids digest = Ok spec →
      static <$> dget (child_of ids step) (ca_nodes g') = Some (static (staged_node g root (child_of ids step) spec)).
Proof.
  induction 1 as [g|step rest spec g g1 g' Hspec Hfit Hg1 Hk Ht Hr Hget _ IH]; intros Hg.
  { split_and!; [done|by rewrite app_nil_r|done|]. intros step spec Hin. by apply not_elem_of_nil in Hin. }
  destruct (IH Hg1) as (Hg' & Hk' & Hold & Hnew). clear IH.
  assert (child_of ids step ∉ dkeys (ca_nodes g)) as Hfresh by apply Hfit.
  split_and!; [done|by rewrite Hk', Hk, <- app_assoc| |].
  - intros k Hin. rewrite Hold by (rewrite Hk; set_solver). rewrite Hget, decide_False; [done|]. by intros ->.
  - intros x spec' [->|Hin]%elem_of_cons Hx.
    + rewrite Hold by (rewrite Hk; set_solver). rewrite Hget, decide_True by done. congruence.
    + rewrite (Hnew _ _ Hin Hx). unfold staged_node. by rewrite Ht, Hr.
Qed.

(** The sessions of the staged appends, whatever the graph. *)
Lemma stage_steps_sessions root digest ids inherited ordered st st' :
  foldM (stage_step limits root digest ids inherited) ordered st = Ok st' →
  map st_session_id (sg_appends st') = map st_session_id (sg_appends st) ++ map (child_of ids) ordered.
Proof.
  revert st. induction ordered as [|step ordered IH]; intros st Hf; cbn [foldM map] in *.
  { inv_res. by rewrite app_nil_r. }
  apply res_bind_Ok in Hf as (st1 & H1 & H2). unfold stage_step in H1.
  apply res_bind_Ok in H1 as (spec & _ & H1). apply res_bind_Ok in H1 as ([n g] & _ & H1). inv_res.
  rewrite (IH _ H2). cbn [sg_appends]. by rewrite map_app, <- app_assoc.
Qed.

Context {P : Type} `{ProjectionWriter P}.

Lemma relay_streams limit (s : EventStore) (v : P) :
  es_streams (relay_once limit (s, v)).1.1 = es_streams s.
Proof.
  unfold relay_once. generalize (slice_to limit (src_pending (s, v).1)) 0. intros items. revert s v.
  induction items as [|item items IH]; intros s v n; cbn [relay_loop]; [done|].
  unfold relay_record. cbn [fst snd]. destruct (pw_project _ v) as [v1 [u|c m]]; by rewrite IH.
Qed.

Lemma submit_plan_batch s root plan cx appends response :
  submit_plan limits s root plan cx = Ok (WriteBatch appends response) →
  ∃ g ordered st inherited,
    let ids := plan_ids (cx_tenant_id cx) root (pl_steps plan) in
    graph (s 0%nat) (cx_tenant_id cx) root = Ok g ∧ NoDup (map rp_task_key (pl_steps plan))
    ∧ Forall (λ kc, kc.2 ∉ dkeys (ca_nodes g)) ids
    ∧ topological_steps (keyed (pl_steps plan)) = Ok ordered
    ∧ foldM (stage_step limits root (pl_plan_digest plan) ids inherited) ordered (mkStaging g [] []) = Ok st
    ∧ appends = sg_appends st.
Proof.
  unfold submit_plan. intros Hs. apply res_bind_Ok in Hs as (u & _ & Hs).
  apply res_bind_Ok in Hs as (u' & Hc & Hs). apply res_bind_Ok in Hs as (g & Hg & Hs).
  apply res_bind_Ok in Hs as (parent & _ & Hs).
  assert (NoDup (map rp_task_key (pl_steps plan))) as Hnd.
  { revert Hc. unfold check_plan. intros Hc. split_guards. bool_props. done. }
  destruct (existsb _ _) eqn:Eex.
  { destruct (negb _); [done|]. apply res_bind_Ok in Hs as (children & _ & Hs). done. }
  apply res_bind_Ok in Hs as (ordered & Ho & Hs). apply res_bind_Ok in Hs as (st & Hst & Hs). inv_res.
  exists g, ordered, st, (inherited_approval parent). split_and!; [done|done| |done|done|done].
  apply Forall_forall. intros kc Hkc. apply dmem_false. apply not_true_iff_false. intros Hd.
  apply not_true_iff_false in Eex. apply Eex, existsb_exists. exists true. split; [|done].
  rewrite <- Hd. apply in_map_iff. exists kc. split; [done|]. by apply list_elem_of_In.
Qed.

Lemma submit_plan_stream s root plan cx sid run events response :
  submit_plan limits s root plan cx = Ok (WriteStream sid run events response) → False.
Proof.
  unfold submit_plan. intros Hs. apply res_bind_Ok in Hs as (u & _ & Hs).
  apply res_bind_Ok in Hs as (u' & _ & Hs). apply res_bind_Ok in Hs as (g & _ & Hs).
  apply res_bind_Ok in Hs as (parent & _ & Hs). destruct (existsb _ _).
  { destruct (negb _); [done|]. by apply res_bind_Ok in Hs as (children & _ & Hs). }
  apply res_bind_Ok in Hs as (ordered & _ & Hs). by apply res_bind_Ok in Hs as (st & _ & Hs).
Qed.

Lemma plan_ids_get tenant root steps step :
  NoDup (map rp_task_key steps) → step ∈ steps →
  child_of (plan_ids tenant root steps) step = child_id tenant root (rp_task_key step).
Proof.
  unfold child_of, plan_ids. induction steps as [|x steps IH]; cbn; intros Hnd Hs; [by apply not_elem_of_nil in Hs|].
  apply NoDup_cons in Hnd as [Hx Hnd]. apply elem_of_cons in Hs as [->|Hs]; [by rewrite decide_True|].
  rewrite decide_False; [by apply IH|]. intros Heq. apply Hx. rewrite <- Heq. by apply list_elem_of_fmap_2.
Qed.

(** The streams a committed batch leaves. *)
Lemma batch_streams su root cx appends result s s' a :
  append_batch su root cx appends result s = (s', Ok a) →
  s' = s ∨ ∃ added, Forall2 (staged_for root cx) appends added
    ∧ Forall (λ item, st_expected_version item
        = Z.of_nat (length (stream_of s (cx_tenant_id cx, st_session_id item)))) appends
    ∧ NoDup (dkeys added) ∧ dkeys added = map st_session_id appends
    ∧ ∀ k, stream_of s' k
        = stream_of s k ++ (if decide (k.1 = cx_tenant_id cx) then default [] (dget k.2 added) else []).
Proof.
  intros [(p & _ & -> & _)|(_ & added & Hadd & Hnd & Hv & _ & ->)]%append_batch_inv; [by left|].
  right. exists added. split_and!; [done|done|done|by eapply staged_keys_of|].
  intros k. by apply extend_streams_get.
Qed.

Lemma planned_sessions root digest ids inherited ordered new :
  Forall2 (planned_append root digest ids inherited) ordered new →
  map st_session_id new = map (child_of ids) ordered.
Proof. induction 1 as [|x y ? ? (spec & _ & ->) _ IH]; [done|]. cbn [map]. by rewrite IH. Qed.

(** What a planned Child's stream holds after the batch; it rebuilds [node] (the governed
    run budget apart). *)
Definition child_written (root digest : string) (ids : list (string * string))
    (cx : CommandContext) (step : RoutingPlanStep) (stream : list CanonicalEvent) (node : CollaborationNode) : Prop :=
  ∃ created requested spec n,
    stream = [created; requested] ∧ ev_type requested = "run.requested"
    ∧ plan_child_spec limits step ids digest = Ok spec ∧ child_node created = Ok n
    ∧ node = n <| cn_runtime_budget := cs_runtime_budget spec |>
    ∧ node = staged_node (mkCollab (cx_tenant_id cx) root [] [] []) root (child_of ids step) spec.

Lemma planned_written root digest ids inherited cx step item kv :
  planned_append root digest ids inherited step item → staged_for root cx item kv →
  ∃ node, child_written root digest ids cx step kv.2 node.
Proof.
  intros (spec & Hspec & ->) (_ & Hpos & Hf). cbn [st_events st_session_id] in *. unfold child_events in Hf.
  inversion Hf as [|n1 created l1 l2 Hc Hf']; subst. inversion Hf' as [|n2 requested l3 l4 Hr Hf'']; subst.
  inversion Hf''; subst.
  destruct (child_created_rebuilds root root spec inherited created) as (n & Hn & Heq);
    [by eapply plan_child_contract|done|].
  exists (n <| cn_runtime_budget := cs_runtime_budget spec |>), created, requested, spec, n.
  split; [done|]. split; [by destruct Hr|]. split; [done|]. split; [done|]. split; [done|]. rewrite Heq.
  destruct kv as [key stream]. cbn in *. subst stream.
  destruct (Hpos 0%nat created eq_refl) as (_ & -> & ->). done.
Qed.

(** The stream of the Child of one step, before and after. *)
Lemma planned_stream root digest ids inherited cx ordered new added s s' i step :
  Forall2 (planned_append root digest ids inherited) ordered new → Forall2 (staged_for root cx) new added →
  NoDup (dkeys added) →
  Forall (λ item, st_expected_version item = Z.of_nat (length (stream_of s (cx_tenant_id cx, st_session_id item)))) new →
  (∀ k, stream_of s' k = stream_of s k ++ (if decide (k.1 = cx_tenant_id cx) then default [] (dget k.2 added) else [])) →
  ordered !! i = Some step →
  stream_of s (cx_tenant_id cx, child_of ids step) = []
  ∧ ∃ node, child_written root digest ids cx step (stream_of s' (cx_tenant_id cx, child_of ids step)) node.
Proof.
  intros Hnew Hadd Hwf Hv Hstr Hi.
  destruct (Forall2_lookup_l _ _ _ _ _ Hnew Hi) as (item & Hitem & Hp).
  destruct (Forall2_lookup_l _ _ _ _ _ Hadd Hitem) as (kv & Hkv & Hsf).
  assert (st_session_id item = child_of ids step ∧ st_expected_version item = 0) as [Hid Hz].
  { by destruct Hp as (spec & _ & ->). }
  rewrite Forall_lookup in Hv. pose proof (Hv i item Hitem) as Hver. rewrite Hid in Hver.
  assert (stream_of s (cx_tenant_id cx, child_of ids step) = []) as Hempty by (apply nil_length_inv; lia).
  split; [done|]. rewrite Hstr, Hempty. cbn [fst snd]. rewrite decide_True by done.
  assert (dget (child_of ids step) added = Some kv.2) as ->.
  { apply elem_dget; [exact Hwf|]. destruct Hsf as [Hk _]. rewrite <- Hid, <- Hk, <- surjective_pairing.
    by eapply list_elem_of_lookup_2. }
  cbn [default app]. by eapply planned_written.
Qed.

(** C19. A submitted plan becomes Children all at once and within the limits of the graph
    it was checked against: when [submit_plan] succeeds and wrote anything, the plan's
    steps were staged one after the other in the graph that it had loaded, each where it
    fits (known parent, new id and task key, room in the root, under the parent, in depth
    and in the total budget, known dependencies), which leaves a graph within the counts,
    widths and depths, acyclic, and with exactly the old nodes and one per step.
    Whatever the others did between the load and the append, each Child's stream was
    empty and now holds its creation, which rebuilds exactly the node that was staged (its
    status and the governed run budget apart), and its run request; no other stream
    changed.  Two plans that are checked against the same graph may exceed the limits
    together ([plans_exceed_together]). *)
Theorem submitted_plan_atomic su root cx plan reads st st' result g :
  serve_collaboration limits su root cx (ReqSubmitPlan plan) reads st = (st', Ok result) →
  graph (reads 0%nat) (cx_tenant_id cx) root = Ok g → graph_ok limits g →
  let tid := cx_tenant_id cx in
  let digest := pl_plan_digest plan in
  let ids := plan_ids tid root (pl_steps plan) in
  (∀ k, stream_of st'.1 k = stream_of st.1 k)
  ∨ ∃ ordered g',
      ordered ≡ₚ pl_steps plan ∧ staged_in_turn root digest ids ordered g g' ∧ graph_ok limits g'
      ∧ dkeys (ca_nodes g') = dkeys (ca_nodes g) ++ map (child_of ids) ordered
      ∧ (∀ k, k ∈ dkeys (ca_nodes g) → static <$> dget k (ca_nodes g') = static <$> dget k (ca_nodes g))
      ∧ (∀ step, step ∈ pl_steps plan →
           stream_of st.1 (tid, child_of ids step) = []
           ∧ ∃ node, child_written root digest ids cx step (stream_of st'.1 (tid, child_of ids step)) node
               ∧ static <$> dget (child_of ids step) (ca_nodes g') = Some (static node))
      ∧ (∀ k, (k.1 = tid → k.2 ∉ map (child_of ids) ordered) → stream_of st'.1 k = stream_of st.1 k).
Proof.
  intros Hs Hg Hok. cbv zeta. unfold serve_collaboration, prepare in Hs.
  destruct (submit_plan limits reads root plan cx) as [w|c m] eqn:Hw; [|done].
  destruct w as [answer|sid run events response|appends response]; cbn [perform] in Hs.
  - left. by simplify_eq.
  - by apply submit_plan_stream in Hw.
  - apply submit_plan_batch in Hw as (g0 & ordered & sg & inherited & Hg0 & Hnd & _ & Ho & Hst & ->).
    cbv zeta in Hst. assert (g0 = g) as -> by congruence.
    pose proof (topological_steps_spec _ Hnd) as Htopo. rewrite Ho in Htopo. destruct Htopo as (Hperm & _).
    apply stage_steps in Hst as (Hturn & new & Ha & Hnew); [|done]. cbn [sg_appends sg_graph app] in *. rewrite Ha in Hs.
    destruct (staged_nodes _ _ _ _ _ _ Hturn Hok) as (Hok' & Hk & Hold & Hnodes).
    destruct (collab_events_root _ _ _ _ Hg) as [Htid Hroot].
    destruct (append_batch _ _ _ _ _ _) as [s1 [a|c m]] eqn:Eb; [|done].
    assert (∀ k, stream_of st'.1 k = stream_of s1 k) as Hst'.
    { intros k. injection Hs as <- <-. unfold stream_of. by rewrite relay_streams. }
    apply batch_streams in Eb as [->|(added & Hadd & Hv & Hwf & Hkeys & Hstr)]; [by left|]. right.
    exists ordered, (sg_graph sg).
    pose proof (planned_sessions _ _ _ _ _ _ Hnew) as Hnk.
    split_and!; [done|done|done|exact Hk|done| |].
    + intros step Hstep. pose proof Hstep as Hin. rewrite <- Hperm in Hstep. apply list_elem_of_lookup in Hstep as [i Hi].
      destruct (planned_stream _ _ _ _ _ _ _ _ _ _ _ _ Hnew Hadd Hwf Hv Hstr Hi) as (Hempty & node & Hnode).
      split; [done|]. exists node. rewrite Hst'. split; [done|].
      destruct Hnode as (created & requested & spec & n & _ & _ & Hspec & _ & _ & ->).
      rewrite (Hnodes step spec) by (done || by rewrite Hperm). unfold staged_node. by rewrite Htid, Hroot.
    + intros k Hout. rewrite Hst', Hstr. case_decide as Hd; [|by rewrite app_nil_r].
      assert (dget k.2 added = None) as ->; [|by rewrite app_nil_r].
      apply dget_None. rewrite Hkeys, Hnk. by apply Hout.
Qed.
End plan.

(** ** Who writes what *)

Section scope.
Context `{PydanticInt} (limits : CollaborationLimits).

Definition child_of_root (g : CollaborationAggregate) (sid : string) (P : CollaborationNode → Prop) : Prop :=
  ∃ n, dget sid (ca_nodes g) = Some n ∧ cn_role n ≠ CRoot ∧ P n.

Definition owned_by (cx : CommandContext) (n : CollaborationNode) : Prop :=
  ∀ o, cn_owner n = Some o → o = actor_id (cx_actor cx).

(** The sessions a request may write, in the graph it found. *)
Definition may_write (g : CollaborationAggregate) (root : string) (cx : CommandContext) (req : CollabRequest)
    (sid : string) : Prop :=
  let by_actor kind := actor_type (cx_actor cx) = kind in
  match req with
  | ReqCreateChild _ _ | ReqSubmitPlan _ | ReqReview _ _ _ _ _ _ =>
      by_actor "coordinator" ∧ sid ∉ dkeys (ca_nodes g)
  | ReqDependencies child _ | ReqDelegateChild child _ | ReqHandoff child _ _ =>
      by_actor "coordinator" ∧ sid = child ∧ child_of_root g child (λ _, True)
  | ReqCancelChild child _ =>
      by_actor "coordinator" ∧ sid = child
      ∧ child_of_root g child (λ n, cn_status n ∉ ["completed"; "cancelled"])
  | ReqPublishResult child result =>
      by_actor "worker" ∧ sid = child ∧ child ≠ root
      ∧ child_of_root g child (λ n, cn_role n ≠ CReviewer ∧ owned_by cx n
          ∧ contract_validate (cn_output_contract n)
              (dset "contract_version" (JStr (oc_version (cn_output_contract n))) (child_result_dict result)) = Ok tt)
  | ReqPublishReview child _ =>
      by_actor "reviewer" ∧ sid = child
      ∧ child_of_root g child (λ n, cn_role n = CReviewer ∧ owned_by cx n
          ∧ ∃ target, cn_target_session_id n = JStr target
              ∧ child_of_root g target (λ t, is_Some (cn_result t)))
  | ReqJoin children _ _ =>
      by_actor "coordinator" ∧ sid = root ∧ require_joinable g children = Ok tt
  end.

Lemma require_coordinator_Ok cx u : require_coordinator cx = Ok u → actor_type (cx_actor cx) = "coordinator".
Proof. unfold require_coordinator. destruct (String.eqb_spec (actor_type (cx_actor cx)) "coordinator"); naive_solver. Qed.

Lemma require_child_Ok g sid n :
  require_child g sid = Ok n → dget sid (ca_nodes g) = Some n ∧ cn_role n ≠ CRoot.
Proof. unfold require_child. intros. repeat case_match; simplify_eq; split; [done|]. by bool_props. Qed.

Lemma append_to_Ok g sid events response w :
  append_to g sid events response = Ok w → ∃ run, w = WriteStream sid run events response.
Proof. unfold append_to. case_match; naive_solver. Qed.

Lemma value_error_as_Ok {A} c (r : res A) a : value_error_as c r = Ok a → r = Ok a.
Proof. destruct r as [|[]]; naive_solver. Qed.

Lemma foreign_owner_false n cx : foreign_owner n cx = false → owned_by cx n.
Proof.
  unfold foreign_owner, owned_by. intros Hf o Ho. rewrite Ho in Hf.
  destruct (String.eqb_spec o (actor_id (cx_actor cx))); by simplify_eq/=.
Qed.

(** The sessions of the streams a command writes. *)
Definition work_streams (w : Work) : list string :=
  match w with
  | Answer _ => []
  | WriteStream sid _ _ _ => [sid]
  | WriteBatch appends _ => map st_session_id appends
  end.

Lemma create_child_scoped s root parent spec cx w sid :
  create_child limits s root parent spec cx = Ok w → sid ∈ work_streams w →
  actor_type (cx_actor cx) = "coordinator"
  ∧ ∃ g, graph (s 0%nat) (cx_tenant_id cx) root = Ok g ∧ sid ∉ dkeys (ca_nodes g).
Proof.
  unfold create_child. intros Hc Hsid. apply res_bind_Ok in Hc as (u & Hu & Hc).
  apply res_bind_Ok in Hc as (g & Hg & Hc). split; [by eapply require_coordinator_Ok|].
  exists g. split; [done|]. cbv zeta in Hc. set (child := child_id _ _ _) in *.
  assert (∀ X, (_ ← validate_new_child g parent child spec limits; X) = Ok w →
    (∀ w, X = Ok w → sid ∈ work_streams w → sid = child) → sid ∉ dkeys (ca_nodes g)) as Hfresh.
  { intros X Hx Hin. apply res_bind_Ok in Hx as ([] & Hv & Hx). rewrite (Hin _ Hx Hsid).
    unfold validate_new_child in Hv. split_guards.
    match goal with H : dmem child _ = false |- _ => by rewrite dmem_false in H end. }
  destruct (dget child (ca_nodes g)) as [existing|].
  - destruct (String.eqb _ _); [destruct (same_child _ _ _); [|done]|].
    + simplify_eq. by apply not_elem_of_nil in Hsid.
    + apply (Hfresh _ Hc). intros w' Hw' Hin. inv_res. by apply list_elem_of_singleton in Hin.
  - apply (Hfresh _ Hc). intros w' Hw' Hin. inv_res. by apply list_elem_of_singleton in Hin.
Qed.

Ltac scoped :=
  repeat match goal with
  | H : require_coordinator _ = Ok _ |- _ => apply require_coordinator_Ok in H
  | H : require_child _ _ = Ok _ |- _ => apply require_child_Ok in H as [? ?]
  | H : append_to _ _ _ _ = Ok _ |- _ => apply append_to_Ok in H as [? ->]
  | H : foreign_owner _ _ = false |- _ => apply foreign_owner_false in H
  | H : _ ∈ work_streams (WriteStream _ _ _ _) |- _ => apply list_elem_of_singleton in H as ->
  | H : _ ∈ work_streams (Answer _) |- _ => by apply not_elem_of_nil in H
  | u : unit |- _ => destruct u
  end; bool_props;
  try (eexists; split; [eassumption|]; split_and!; try done; eexists; split_and!; eassumption || done).

Lemma submit_plan_scoped s root plan cx w sid :
  submit_plan limits s root plan cx = Ok w → sid ∈ work_streams w →
  actor_type (cx_actor cx) = "coordinator"
  ∧ ∃ g, graph (s 0%nat) (cx_tenant_id cx) root = Ok g ∧ sid ∉ dkeys (ca_nodes g).
Proof.
  intros Hp Hsid.
  destruct w as [answer|? ? ? ?|appends response];
    [by apply not_elem_of_nil in Hsid|by apply submit_plan_stream in Hp|].
  split.
  { unfold submit_plan in Hp. apply res_bind_Ok in Hp as (u & Hu & _). by eapply require_coordinator_Ok. }
  destruct (submit_plan_batch _ _ _ _ _ _ _ Hp) as (g & ordered & st & inherited & Hg & Hnd & Hnew & Ho & Hst & ->).
  exists g. split; [done|]. cbn [work_streams] in Hsid.
  rewrite (stage_steps_sessions _ _ _ _ _ _ _ _ Hst) in Hsid. cbn [sg_appends map app] in Hsid.
  apply list_elem_of_fmap in Hsid as (step & -> & Hstep).
  pose proof (topological_steps_spec _ Hnd) as Htopo. rewrite Ho in Htopo. destruct Htopo as (Hperm & _).
  rewrite Hperm in Hstep. rewrite plan_ids_get by done. rewrite Forall_forall in Hnew.
  apply (Hnew (rp_task_key step, _)). unfold plan_ids. apply list_elem_of_fmap. by exists step.
Qed.

Lemma publish_review_scoped s root child review cx w sid :
  publish_review s root child review cx = Ok w → sid ∈ work_streams w →
  ∃ g, graph s (cx_tenant_id cx) root = Ok g ∧ may_write g root cx (ReqPublishReview child review) sid.
Proof.
  unfold publish_review. intros Hp Hsid. split_guards. destruct (cn_result _) as [result|] eqn:Er; [|done].
  inv_res. scoped. eexists. split; [eassumption|]. cbn. split_and!; [done|done|].
  match goal with H : require_target _ ?t = Ok _ |- _ => destruct t eqn:Et; cbn in H; try done end.
  scoped. eexists. split_and!; [eassumption..|]. eexists. split; [done|]. eexists. by split_and!.
Qed.

(** The read that gives a request the graph its write is checked against. *)
Definition guard_read (req : CollabRequest) : nat := match req with ReqReview _ _ _ _ _ _ => 1 | _ => 0 end.

(** Every stream a command will write is one its request may write. *)
Lemma prepare_scoped s root cx req w sid :
  prepare limits s root cx req = Ok w → sid ∈ work_streams w →
  ∃ g, graph (s (guard_read req)) (cx_tenant_id cx) root = Ok g ∧ may_write g root cx req sid.
Proof.
  intros Hp Hsid. destruct req as [parent spec|plan|child deps|child owner|child owner reason|child result
    |child review|parent key target goal budget rb|child reason|ids summary ref]; cbn [prepare may_write guard_read] in *.
  - destruct (create_child_scoped _ _ _ _ _ _ _ Hp Hsid) as (Ha & g & Hg & Hn). by exists g.
  - destruct (submit_plan_scoped _ _ _ _ _ _ Hp Hsid) as (Ha & g & Hg & Hn). by exists g.
  - unfold set_dependencies in Hp. inv_res. scoped.
  - unfold delegate in Hp. split_guards. scoped.
  - unfold handoff in Hp. split_guards. scoped.
  - unfold publish_child_result in Hp. split_guards. scoped.
    match goal with H : value_error_as _ _ = Ok () |- _ => apply value_error_as_Ok in H end.
    eexists. split; [eassumption|]. split_and!; [done..|]. eexists. by split_and!.
  - by apply (publish_review_scoped _ _ _ _ _ _ _ Hp).
  - unfold request_review in Hp. inv_res.
    match goal with H : create_child _ _ _ _ _ _ = _ |- _ =>
      destruct (create_child_scoped _ _ _ _ _ _ _ H Hsid) as (Ha & g & Hg & Hn) end. by exists g.
  - unfold cancel_child in Hp. inv_res. case_match; inv_res; scoped.
    eexists. split; [eassumption|]. split_and!; [done..|]. eexists. split_and!; [eassumption..|].
    by apply str_in_false.
  - unfold join in Hp. inv_res. scoped.
    match goal with x : list payload * list json |- _ => destruct x end. inv_res. scoped.
Qed.

Context {P : Type} `{ProjectionWriter P}.

(** What performing a piece of work changes. *)
Lemma perform_scoped su root cx w (st st' : EventStore * P) r :
  perform su root cx w st = (st', r) →
  match r with
  | Raise _ _ => observed_same st.1 st'.1 ∧ st'.2 = st.2
  | Ok _ => ∀ k, stream_of st'.1 k ≠ stream_of st.1 k → k.1 = cx_tenant_id cx ∧ k.2 ∈ work_streams w
  end.
Proof.
  assert (∀ s1 (v : P) k, stream_of (relay_once 100 (s1, v)).1.1 k = stream_of s1 k) as Hrelay.
  { intros. unfold stream_of. by rewrite relay_streams. }
  destruct w as [answer|sid run events response|appends response]; cbn [perform work_streams].
  - by intros [= <- <-].
  - destruct (append _ _ _ _ _ _ _ _) as [s1 [a|c m]] eqn:Ea; intros [= <- <-].
    + intros k. rewrite Hrelay. intros Hk.
      pose proof (append_inv _ _ _ _ _ _ _ _ _ _ Ea) as Hinv. cbn in Hinv.
      destruct Hinv as [(p & _ & -> & _)|(_ & _ & gov & _ & ->)]; [done|].
      destruct (decide (k = (cx_tenant_id cx, sid))) as [->|Hne]; [split; [done|by left]|].
      destruct Hk. unfold stream_of at 1. cbn. rewrite dget_dset_ne by done. apply stream_of_setdefault.
    + split; [by eapply append_refused|done].
  - destruct (append_batch _ _ _ _ _ _) as [s1 [a|c m]] eqn:Ea; intros [= <- <-].
    + intros k. rewrite Hrelay. intros Hk.
      apply batch_streams in Ea as [->|(added & _ & _ & _ & Hkeys & Hstr)]; [done|]. rewrite Hstr in Hk.
      case_decide as Hd; [|by rewrite app_nil_r in Hk]. split; [done|]. rewrite <- Hkeys.
      destruct (decide (k.2 ∈ dkeys added)) as [|Hnot]; [done|]. destruct Hk.
      apply dget_None in Hnot. rewrite Hnot. apply app_nil_r.
    + unfold append_batch in Ea. repeat case_match; by simplify_eq.
Qed.

(** C20. Roles bound the streams a collaboration request can change: a Coordinator
    creates sessions that were not in the graph and changes existing Children or, to
    join finished ones, the Root; a Worker only its own Child with a result that
    satisfies the Child's contract; a Reviewer only its own review of a published
    result.  The graph is the one that the request loaded, and the change is to the store
    that it finds when it appends, whatever the others did in between.  A refused request
    changes neither what a reader of the store sees nor the views. *)
Theorem role_scoped_writes su root cx req reads (st st' : EventStore * P) r :
  serve_collaboration limits su root cx req reads st = (st', r) →
  match r with
  | Raise _ _ => observed_same st.1 st'.1 ∧ st'.2 = st.2
  | Ok _ => ∀ k, stream_of st'.1 k ≠ stream_of st.1 k →
      k.1 = cx_tenant_id cx
      ∧ ∃ g, graph (reads (guard_read req)) (cx_tenant_id cx) root = Ok g ∧ may_write g root cx req k.2
  end.
Proof.
  unfold serve_collaboration. destruct (prepare limits reads root cx req) as [w|c m] eqn:Hw.
  - intros Hp%perform_scoped. destruct r; [|done]. intros k Hk. destruct (Hp k Hk) as [Ht Hin].
    split; [done|]. by eapply prepare_scoped.
  - by intros [= <- <-].
Qed.
End scope.

(** ** Witnesses *)

Module CollaborationServiceExamples.
#[local] Existing Instance strict_pydantic.

(** A view that only counts. *)
#[local] Instance counting : ProjectionWriter nat := { pw_project e n := (S n, Ok tt) }.

Definition half : spec_float := S754_finite false 4503599627370496 (-53).
Definition limits : CollaborationLimits := CollaborationExamples.limits.

Definition step (key role : string) (deps : list string) : RoutingPlanStep :=
  mkStep key "goal" deps [] (mkPlanOutput "child_result" ["summary"] false false)
    (mkPlanAssignment "child" role None None None) (mkPlanBudget half None None None) None None PLow false.
Definition plan : RoutingPlan :=
  plan_create CoordinatorDag ["done"] [] PLow [step "review" "reviewer" ["work"]; step "work" "worker" []].

Definition su (tag : string) : Supply := mkSupply (λ i, tag +:+ pretty i) (λ i, Z.of_nat i).
Definition cx (cmd kind id op : string) (expected : Z) : CommandContext :=
  mkContext cmd "t" (mkActor kind id) "corr" expected op None None.
Definition coordinator : CommandContext := cx "c2" "coordinator" "co" "plan" 2.

(** A store with one Root Session. *)
Definition store1 : EventStore :=
  run_op empty_store (OpAppend (su "a") "root" "root" None (cx "c1" "user" "u" "create" 0)
    [mkNewEvent "session.created" [("goal", JStr "g"); ("root_session_id", JStr "root")] VUser;
     mkNewEvent "run.requested" [("run_id", JStr "r1")] VUser] []).
Definition g1 : CollaborationAggregate :=
  match graph store1 "t" "root" with Ok g => g | Raise _ _ => new_collaboration "t" "root" end.

Notation submitted := (serve_collaboration limits (su "b") "root" coordinator (ReqSubmitPlan plan) (λ _, store1) (store1, O)).
Definition answer : payload := match submitted.2 with Ok p => p | Raise _ _ => [] end.

Lemma graph1 : graph store1 "t" "root" = Ok g1.
Proof. vm_compute. reflexivity. Qed.

Lemma submitted_ok : submitted = (submitted.1, Ok answer).
Proof. vm_compute. reflexivity. Qed.

Lemma plan_written : ¬ ∀ k, stream_of submitted.1.1 k = stream_of (store1, O).1 k.
Proof.
  intros Hsame. assert (length (stream_of submitted.1.1 ("t", child_id "t" "root" "work")) = 2%nat) as Hw.
  { vm_compute. reflexivity. }
  rewrite Hsame in Hw. revert Hw. vm_compute. discriminate.
Qed.

Lemma g1_alone : ∃ n, ca_nodes g1 = [("root", n)] ∧ cn_dependency_ids n = [] ∧ ca_root_session_id g1 = "root".
Proof. vm_compute. eexists. split_and!; reflexivity. Qed.

Lemma g1_ok : graph_ok limits g1.
Proof.
  destruct g1_alone as (n & Hn & Hd & Hr). split.
  - rewrite Hn. apply NoDup_singleton.
  - rewrite Hn, Hr. by left.
  - vm_compute. discriminate.
  - intros p. vm_compute. discriminate.
  - rewrite Hn. intros k ->%list_elem_of_singleton. exists 0. rewrite <- Hn. vm_compute.
    split; [reflexivity|discriminate].
  - rewrite Hn. apply NoDup_singleton.
  - rewrite Hn. intros k m Hk%dget_Some_elem. apply list_elem_of_singleton in Hk. injection Hk as -> ->.
    rewrite Hd. apply list_subseteq_nil.
  - assert (∀ s d, ¬ depends (nodes_graph (ca_nodes g1)) s d) as Hno.
    { intros s d. unfold depends. rewrite graph_get_nodes, Hn.
      destruct (dget s _) as [m|] eqn:E; [|apply not_elem_of_nil].
      apply dget_Some_elem, list_elem_of_singleton in E. injection E as -> ->. rewrite Hd. apply not_elem_of_nil. }
    intros s Hc. inversion Hc as [? ? Hd'|? ? ? Hd']; by apply Hno in Hd'.
Qed.

Lemma three_nodes : (length (dkeys (ca_nodes g1)) + length (pl_steps plan))%nat = 3%nat.
Proof. vm_compute. reflexivity. Qed.

(** The reviewer's step precedes its target in the plan. *)
Lemma submitted_plan_atomic_witness :
  ∃ ordered g', ordered ≡ₚ pl_steps plan ∧ graph_ok limits g'
    ∧ length (dkeys (ca_nodes g')) = 3%nat.
Proof.
  destruct (submitted_plan_atomic limits (su "b") "root" coordinator plan (λ _, store1) (store1, O) submitted.1 answer g1
              submitted_ok graph1 g1_ok) as [Hsame|(ordered & g' & Hp & _ & Hok & Hk & _)].
  - exfalso. exact (plan_written Hsame).
  - exists ordered, g'. split; [exact Hp|]. split; [exact Hok|]. rewrite Hk, length_app, length_map, Hp. exact three_nodes.
Defined.

(** The Worker publishes for its own Child, not for the Reviewer's. *)
Definition result1 : ChildResult := mkChildResult "found" "ref" [] [] [].
Definition work_id : string := Eval vm_compute in child_id "t" "root" "work".
Definition review_id : string := Eval vm_compute in child_id "t" "root" "review".
Definition st2 : EventStore * nat := Eval vm_compute in submitted.1.
Definition worker : CommandContext := cx "c3" "worker" "w1" "publish" 2.
Notation publish sid := (serve_collaboration limits (su "d") "root" worker (ReqPublishResult sid result1) (λ _, st2.1) st2).

Lemma published_work : ∃ answer, publish work_id = ((publish work_id).1, Ok answer).
Proof. vm_compute. eexists. reflexivity. Qed.
Lemma work_changed : stream_of (publish work_id).1.1 ("t", work_id) ≠ stream_of st2.1 ("t", work_id).
Proof. vm_compute. discriminate. Qed.
Lemma refused_review : ∃ c m, publish review_id = ((publish review_id).1, Raise c m).
Proof. vm_compute. eexists _, _. reflexivity. Qed.

Lemma role_scoped_writes_witness :
  (∃ g, graph st2.1 "t" "root" = Ok g ∧ child_of_root g work_id (λ n, cn_role n ≠ CReviewer))
  ∧ (publish review_id).1.2 = st2.2.
Proof.
  destruct published_work as (answer & Hwork). destruct refused_review as (c & m & Hreview). split.
  - destruct (role_scoped_writes limits (su "d") "root" worker (ReqPublishResult work_id result1) (λ _, st2.1) st2
      (publish work_id).1 (Ok answer) Hwork ("t", work_id) work_changed)
      as (_ & g & Hg & (_ & _ & _ & n & Hn & Hroot & Hrev & _)).
    exists g. split; [exact Hg|]. exists n. split; [exact Hn|]. split; [exact Hroot|exact Hrev].
  - exact (proj2 (role_scoped_writes limits (su "d") "root" worker (ReqPublishResult review_id result1) (λ _, st2.1) st2
      (publish review_id).1 (Raise c m) Hreview)).
Defined.

(** Two plans checked against the same graph exceed a limit of one Child together. *)
Definition one_child : CollaborationLimits := mkLimits 4 8 1 (cl_max_budget limits).
Definition single (key : string) : RoutingPlan :=
  plan_create CoordinatorDag ["done"] [] PLow [step key "worker" []].
Definition submit_single (key command : string) (st : EventStore * nat) : EventStore * nat * res payload :=
  serve_collaboration one_child (su key) "root" (cx command "coordinator" "co" "plan" 2) (ReqSubmitPlan (single key))
    (λ _, store1) st.
Definition after_two : EventStore * nat := (submit_single "b" "c4" (submit_single "a" "c3" (store1, O)).1).1.
Example plans_exceed_together :
  (is_ok (submit_single "a" "c3" (store1, O)).2,
   is_ok (submit_single "b" "c4" (submit_single "a" "c3" (store1, O)).1).2,
   (λ g, length (children (ca_nodes g))) <$> graph after_two.1 "t" "root",
   is_ok (serve_collaboration one_child (su "b") "root" (cx "c4" "coordinator" "co" "plan" 2) (ReqSubmitPlan (single "b"))
            (λ _, (submit_single "a" "c3" (store1, O)).1.1) (submit_single "a" "c3" (store1, O)).1).2)
  = (true, true, Ok 2%nat, false).
Proof. vm_compute. reflexivity. Qed.

(** A reviewer's step without dependencies: the subscript raises before the guard that
    names the mistake. *)
Example reviewer_without_target :
  plan_child_spec limits (step "review" "reviewer" []) [] "d"
    = Raise PyIndexError "tuple index out of range".
Proof. reflexivity. Qed.

Definition two_steps : list RoutingPlanStep := [step "review" "reviewer" ["work"]; step "work" "worker" []].

Lemma two_keys : NoDup (map rp_task_key two_steps).
Proof. apply (bool_decide_unpack _). vm_compute. exact I. Qed.
Lemma two_ordered : topological_steps (keyed two_steps) = Ok (reverse two_steps).
Proof. vm_compute. reflexivity. Qed.

Lemma topological_steps_exact_witness :
  topological_steps (keyed two_steps) = Ok (reverse two_steps) ∧ acyclic (step_graph (keyed two_steps)).
Proof.
  split; [exact two_ordered|].
  pose proof (topological_steps_exact two_steps two_keys) as Ht. rewrite two_ordered in Ht.
  exact (proj1 (proj2 (proj2 Ht))).
Defined.
End CollaborationServiceExamples.
