(* ===== verification/ApprovalModes.v ===== *)
(** * Approval modes ([policy/approval_modes.py])

    When the policy engine asks for an approval, the resolver looks at the mode the
    user chose for the run, in the Session's own events: it leaves the decision to a
    human, or records that the run has full access, or asks an automatic reviewer and
    records the outcome.  A recorded decision is a fact of the Session's stream, and
    the first one recorded counts for everybody.

    The resolver is a sequence of awaits on the event store; [env i] is what everybody
    else (other resolvers included) does to the store before the [i]th of them, so a
    run of [resolve] is one interleaving.  The reviewer is a function given to the
    resolver; a call that times out or fails raises.  [clock] are the reads of the
    clock.  The reasons shown to users are written as their UTF-8 bytes. *)

From S2P Require Import Prelude PyValue DateTime Digest Contracts Session.
From S2P Require Import Collaboration RuntimeBudget SkillExecution EventStore Approval.
Local Open Scope Z_scope.

(** ** Requests and decisions *)

(** [ToolPermission] and [PolicyDecision] of [contracts/tools.py]. *)
Inductive PolicyDecision := Allow | Deny | AllowWithConstraints | RequireApproval.
#[global] Instance PolicyDecision_eq_dec : EqDecision PolicyDecision.
Proof. solve_decision. Defined.
Definition policy_decision_value (d : PolicyDecision) : string :=
  match d with
  | Allow => "allow" | Deny => "deny" | AllowWithConstraints => "allow_with_constraints"
  | RequireApproval => "require_approval"
  end.

(** [InternalRequestContext] and [PolicyEvaluateRequest] of [contracts/internal.py]. *)
Record InternalRequestContext := mkInternal {
  ic_tenant_id : string;
  ic_service_identity : string;
  ic_request_id : string;
  ic_correlation_id : string;
  ic_causation_id : string;
  ic_deadline : option Z;
}.

Record PolicyEvaluateRequest := mkEvaluate {
  pe_session_id : option string;
  pe_run_id : option string;
  pe_context : InternalRequestContext;
  pe_subject : string;
  pe_action : string;
  pe_resource : string;
  pe_input_digest : string;
  pe_policy_version : option string;
  pe_attributes : payload;
}.

Record ReviewVerdict := mkVerdict { rr_approved : bool; rr_reason : string }.

Definition verdict_dump (r : ReviewVerdict) : payload :=
  [("approved", JBool (rr_approved r)); ("reason", JStr (rr_reason r))].

(** The facts a resolver records. *)
Inductive Fact := ModeResolved | ReviewRequested | ReviewCompleted.
#[global] Instance Fact_eq_dec : EqDecision Fact.
Proof. solve_decision. Defined.
Definition fact_type (f : Fact) : string :=
  match f with
  | ModeResolved => "policy.mode.resolved"
  | ReviewRequested => "policy.review.requested"
  | ReviewCompleted => "policy.review.completed"
  end.

(** A datetime read from text and compared with an aware one. *)
Definition aware_fromisoformat (s : string) : res Z :=
  '(t, o) ← fromisoformat s;
  match o with
  | Some o => Ok (t - o)
  | None => Raise PyTypeError "can't compare offset-naive and offset-aware datetimes"
  end.

(** [_outcome] *)
Definition review_outcome (now : Z) (evidence : payload) : res (PolicyDecision * payload) :=
  let expires := pgetn "approval_expires_at" evidence in
  expired ← (if truthy expires then (λ t, t <=? now) <$> aware_fromisoformat (py_str expires) else Ok false);
  if (expired : bool) then
    Ok (RequireApproval,
        dupdate evidence [("approved", JBool false);
                          ("reason", JStr "自动批准已过期，需要人工确认")])
  else
  Ok (match pgetn "approved" evidence with JBool true => Allow | _ => RequireApproval end, evidence).

Section resolver.
Context `{PydanticInt}.

(** [_session] *)
Definition current_session (events : list CanonicalEvent) (run_id : option string) : res SessionAggregate :=
  match events with
  | [] => Raise AuthorizationError "approval context Session does not exist"
  | _ =>
      session ← from_events events;
      if negb (py_eq (sa_run_id session) (jopt run_id)) || in_terminal_run (sa_run_status session)
      then Raise AuthorizationError "approval context does not belong to the current Run"
      else Ok session
  end.

(** ** Recording a fact *)

(** The context of the append of a fact. *)
Definition fact_context (req : PolicyEvaluateRequest) (fact : Fact) (digest : string) (version : Z)
    : CommandContext :=
  mkContext (fact_type fact +:+ ":" +:+ digest) (ic_tenant_id (pe_context req))
    (mkActor "policy" "approval-mode-resolver") (ic_correlation_id (pe_context req)) version
    "approval_mode_decision" (Some (ic_causation_id (pe_context req))) None.

Definition is_fact (fact : Fact) (digest : string) (e : CanonicalEvent) : bool :=
  String.eqb (ev_type e) (fact_type fact) && is_lit (pgetn "action_digest" (ev_payload e)) digest.

Fixpoint first_of {A} (P : A → bool) (l : list A) : option A :=
  match l with [] => None | x :: l => if P x then Some x else first_of P l end.

(** What everybody else does, and the store as the resolver finds it at its next
    await. *)
Record World := mkWorld { wd_store : EventStore; wd_awaits : nat }.

Context (env : nat → list StoreOp) (su : nat → Supply).

Definition await (w : World) : World :=
  mkWorld (fold_left run_op (env (wd_awaits w)) (wd_store w)) (S (wd_awaits w)).

(** The loop of [_record], with the attempts left. *)
Fixpoint record_loop (attempts : nat) (req : PolicyEvaluateRequest) (session_id digest : string) (fact : Fact)
    (p : payload) (w : World) : World * res payload :=
  match attempts with
  | O => (w, Raise VersionConflictError "Session changed repeatedly during approval evaluation")
  | S attempts =>
      let tenant := ic_tenant_id (pe_context req) in
      let w := await w in
      let events := load (wd_store w) tenant session_id 1 None None in
      match current_session events (pe_run_id req) with
      | Raise c m => (w, Raise c m)
      | Ok session =>
          match first_of (is_fact fact digest) events with
          | Some e => (w, Ok (ev_payload e))
          | None =>
              match pget "approval_mode_revision" p with
              | Raise c m => (w, Raise c m)
              | Ok revision =>
                  if negb (py_eq (JInt (Z.of_N (approval_mode_revision (sa_approval session)))) revision)
                  then (w, Raise AuthorizationError "approval mode changed during evaluation")
                  else
                  let w := await w in
                  let '(s, r) := append (su (wd_awaits w)) (sa_root_session_id session) (sa_session_id session)
                                   (pe_run_id req) (fact_context req fact digest (sa_version session))
                                   [mkNewEvent (fact_type fact) p VUser] p (wd_store w) in
                  let w := mkWorld s (wd_awaits w) in
                  match r with
                  | Ok result => (w, Ok (apr_command_result result))
                  | Raise VersionConflictError _ => record_loop attempts req session_id digest fact p w
                  | Raise c m => (w, Raise c m)
                  end
              end
          end
      end
  end.

Definition record : PolicyEvaluateRequest → string → string → Fact → payload → World → World * res payload :=
  record_loop 8.

(** ** Resolving *)

Context (reviewer : option (PolicyEvaluateRequest → string → string → json → res ReviewVerdict))
        (review_timeout : Z) (clock : nat → Z).

Definition action_of (req : PolicyEvaluateRequest) : json :=
  JObj [("action", JStr (pe_action req)); ("resource", JStr (pe_resource req));
        ("input_digest", JStr (pe_input_digest req)); ("subject", JStr (pe_subject req));
        ("attributes", JObj (pe_attributes req))].

Definition base_evidence (approval : ApprovalConfiguration) (session_id run_id policy_version : string) : payload :=
  dupdate (approval_public_dict approval)
    [("session_id", JStr session_id); ("run_id", JStr run_id); ("policy_version", JStr policy_version)].

Definition mode_digest (req : PolicyEvaluateRequest) (evidence : payload) : string :=
  sha256_hex (utf8 (json_dumps true (JObj (dupdate
    [("tenant_id", JStr (ic_tenant_id (pe_context req))); ("action", action_of req)] evidence)))).

Definition mode_evidence (req : PolicyEvaluateRequest) (mode : ApprovalMode) (evidence : payload) : payload :=
  dupdate evidence
    [("action_digest", JStr (mode_digest req evidence)); ("decision_source", JStr (approval_mode_value mode));
     ("action_kind", pgetd "action_kind" (JStr "operation") (pe_attributes req));
     ("action_label", JStr (pe_resource req))].

(** The user's words, from the Session's events; the last 24000 characters. *)
Definition user_intent (goal : string) (events : list CanonicalEvent) : string :=
  let messages := goal :: flat_map (λ e,
    if String.eqb (ev_type e) "user.message.appended"
    then match dget "message" (ev_payload e) with Some m => [py_str m] | None => [] end else []) events in
  let text := str_list (String.concat (str1 (chr 10)) messages) in
  str_of (drop (length text - 24000) text).

Definition review_count (run_id : option string) (events : list CanonicalEvent) : nat :=
  length (filter (λ e, ev_type e = "policy.review.requested" ∧ ev_run_id e = run_id) events).

(** The reviewer is asked while time is left, for at most 32 reviews of the run. *)
Definition review_asked (req : PolicyEvaluateRequest) (events : list CanonicalEvent) (remaining : Z) : bool :=
  match reviewer with Some _ => true | None => false end
  && (0 <? remaining) && (review_count (pe_run_id req) events <? 32)%nat.

Definition review_verdict (req : PolicyEvaluateRequest) (digest : string) (goal : string)
    (events : list CanonicalEvent) (remaining : Z) : ReviewVerdict :=
  if review_asked req events remaining then
    match reviewer with
    | Some review =>
        match review req digest (user_intent goal events) (action_of req) with
        | Ok r => r
        | Raise _ _ => mkVerdict false "自动审核未能确认安全，需要人工确认"
        end
    | None => mkVerdict false "自动审核不可用，需要人工确认"
    end
  else mkVerdict false "自动审核不可用，需要人工确认".

(** The automatic review of an action that has no completed review in [events]. *)
Definition review_action (req : PolicyEvaluateRequest) (session_id goal : string) (events : list CanonicalEvent)
    (digest : string) (evidence : payload) (w : World) : World * res (PolicyDecision * payload) :=
  let '(w, started) := record req session_id digest ReviewRequested
    (dupdate evidence [("review_id", JStr digest);
                       ("expires_at", JStr (isoformat (clock 0%nat + review_timeout)))]) w in
  match (started ← started; expires ← pget "expires_at" started; aware_fromisoformat (py_str expires)) with
  | Raise c m => (w, Raise c m)
  | Ok expires =>
      let verdict := review_verdict req digest goal events (expires - clock 1%nat) in
      let w := if review_asked req events (expires - clock 1%nat) then await w else w in
      let '(w, saved) := record req session_id digest ReviewCompleted
        (dupdate (dupdate (dupdate evidence [("review_id", JStr digest)]) (verdict_dump verdict))
           [("approval_expires_at", JStr (isoformat (clock 2%nat + 5 * minute)))]) w in
      (w, saved ← saved; review_outcome (clock 3%nat) saved)
  end.

Definition resolve_session (req : PolicyEvaluateRequest) (session_id run_id policy_version : string) (w : World)
    : World * res (PolicyDecision * payload) :=
  let w := await w in
  let events := load (wd_store w) (ic_tenant_id (pe_context req)) session_id 1 None None in
  match current_session events (pe_run_id req) with
  | Raise c m => (w, Raise c m)
  | Ok session =>
      let evidence := base_evidence (sa_approval session) session_id run_id policy_version in
      match effective_approval_mode (sa_approval session) with
      | None | Some RequestApproval =>
          (w, Ok (RequireApproval, dset "decision_source" (JStr "request_approval") evidence))
      | Some mode =>
          let digest := mode_digest req evidence in
          let evidence := mode_evidence req mode evidence in
          match mode with
          | FullAccess =>
              let '(w, saved) := record req session_id digest ModeResolved
                (dupdate evidence [("approved", JBool true); ("reason", JStr "无需逐次人工审批")]) w in
              (w, saved ← saved; Ok (Allow, saved))
          | _ =>
              match first_of (λ e, String.eqb (ev_type e) "policy.review.completed"
                                   && is_lit (pgetn "review_id" (ev_payload e)) digest) events with
              | Some e => (w, review_outcome (clock 0%nat) (ev_payload e))
              | None => review_action req session_id (sa_goal session) events digest evidence w
              end
          end
      end
  end.

Definition resolve (req : PolicyEvaluateRequest) (decision : PolicyDecision) (policy_version : string) (w : World)
    : World * res (PolicyDecision * payload) :=
  if negb (bool_decide (decision = RequireApproval)) then (w, Ok (decision, []))
  else if negb (opt_truthy (pe_session_id req)) || negb (opt_truthy (pe_run_id req))
  then (w, Ok (decision, [("decision_source", JStr "request_approval")]))
  else resolve_session req (default EmptyString (pe_session_id req)) (default EmptyString (pe_run_id req))
         policy_version w.
End resolver.

(** ** Facts in the store *)

Lemma govern_unbudgeted existing e sid root run governed :
  ne_type e ≠ "child.created" → ne_type e ≠ "run.requested" →
  govern existing [e] sid root run = Ok governed → governed = [e].
Proof.
  intros H1%String.eqb_neq H2%String.eqb_neq Hg. unfold govern in Hg.
  apply res_bind_Ok in Hg as (budgets & _ & Hg). apply res_bind_Ok in Hg as (result & Hr & Hg).
  assert (governed = result) as -> by (destruct (negb _); by inv_res).
  destruct (proposed_child _ _ _ _) as [child|]; [|by inv_res].
  unfold govern_child in Hr. apply res_bind_Ok in Hr as (prun & _ & Hr).
  destruct (negb _); [by inv_res|]. inv_res. cbn [map]. by rewrite H1, H2.
Qed.

(** What an operation on the store adds to the streams and to the stored commands. *)
Lemma run_op_effect s op :
  ((∀ k, stream_of (run_op s op) k = stream_of s k) ∧ es_commands (run_op s op) = es_commands s)
  ∨ (∃ su root sid run cx events result governed existing,
       op = OpAppend su root sid run cx events result
       ∧ dget (command_key_of cx) (es_commands s) = None
       ∧ govern existing events sid root run = Ok governed
       ∧ (∀ k, stream_of (run_op s op) k = stream_of s k
            ++ (if decide (k = (cx_tenant_id cx, sid))
                then store_events su cx root sid run 0 (cx_expected_version cx) governed else []))
       ∧ es_commands (run_op s op) = dset (command_key_of cx) result (es_commands s))
  ∨ (∃ su root cx appends result added, op = OpBatch su root cx appends result
       ∧ dget (command_key_of cx) (es_commands s) = None
       ∧ Forall2 (staged_for root cx) appends added ∧ NoDup (dkeys added)
       ∧ (∀ k, stream_of (run_op s op) k = stream_of s k
            ++ (if decide (k.1 = cx_tenant_id cx) then default [] (dget k.2 added) else []))
       ∧ es_commands (run_op s op) = dset (command_key_of cx) result (es_commands s)).
Proof.
  destruct (in_place op) eqn:Ei.
  { left. destruct (in_place_core s op Ei) as (Hs & Hc & _). split; [|done].
    intros k. unfold stream_of. by rewrite Hs. }
  destruct op as [su root sid run cx events result|su root cx appends result| | | | | |]; try done; cbn [run_op].
  - destruct (append su root sid run cx events result s) as [s' [a|c m]] eqn:Ea; cbn [fst].
    + pose proof (append_inv _ _ _ _ _ _ _ _ _ _ Ea) as Hi. cbn in Hi.
      destruct Hi as [(previous & _ & -> & _)|(Hc & Hv & governed & -> & ->)]; [by left|]. right. left.
      unfold append in Ea. rewrite Hc in Ea. cbv zeta in Ea. destruct (negb _); [done|].
      destruct (govern _ _ _ _ _) as [g|] eqn:Eg; [|done].
      assert (store_events su cx root sid run 0 (cx_expected_version cx) g
        = store_events su cx root sid run 0 (cx_expected_version cx) governed) as Hg by (by simplify_eq).
      exists su, root, sid, run, cx, events, result, g, (root_events (s <| es_streams := dsetdefault (cx_tenant_id cx, sid) [] (es_streams s) |>) (cx_tenant_id cx) root).
      split_and!; [done|done|exact Eg| |done]. intros k. rewrite Hg. unfold stream_of at 1. cbn. rewrite dget_dset.
      case_decide as Hk; [by subst|]. cbn. rewrite app_nil_r. apply stream_of_setdefault.
    + left. apply append_refused in Ea as (Hs & Hc & _). by split.
  - destruct (append_batch su root cx appends result s) as [s' [a|c m]] eqn:Ea; cbn [fst].
    + apply append_batch_inv in Ea as [(previous & _ & -> & _)|(Hc & added & Hadd & Hnd & _ & _ & ->)]; [by left|].
      right. right. exists su, root, cx, appends, result, added. split_and!; [done..| |done].
      intros k. by apply extend_streams_get.
    + left. unfold append_batch in Ea. repeat case_match; by simplify_eq.
Qed.

Definition fact_key (tenant : string) (fact : Fact) (digest : string) : command_key :=
  (tenant, "approval_mode_decision", fact_type fact +:+ ":" +:+ digest).

Lemma fact_key_inj t f d t' f' d' : fact_key t f d = fact_key t' f' d' → t = t' ∧ f = f' ∧ d = d'.
Proof. unfold fact_key. intros [= -> Hk]. destruct f, f'; cbn in Hk; by simplify_eq. Qed.

Definition fact_payload (fact : Fact) (digest : string) (p : payload) : Prop :=
  is_lit (pgetn "action_digest" p) digest = true
  ∧ (fact = ReviewCompleted → is_lit (pgetn "review_id" p) digest = true).

Lemma is_lit_inj v s s' : is_lit v s = true → is_lit v s' = true → s = s'.
Proof. destruct v; try done. cbn. intros ->%String.eqb_eq H%String.eqb_eq. done. Qed.

(** Every stored fact is the answer stored for its decision, and conversely. *)
Record facts_ok (s : EventStore) : Prop := {
  fo_event : ∀ k e fact, e ∈ stream_of s k → ev_type e = fact_type fact →
    ∃ d, fact_payload fact d (ev_payload e) ∧ dget (fact_key k.1 fact d) (es_commands s) = Some (ev_payload e);
  fo_command : ∀ t fact d p, dget (fact_key t fact d) (es_commands s) = Some p →
    fact_payload fact d p
    ∧ ∃ sid e, e ∈ stream_of s (t, sid) ∧ ev_type e = fact_type fact ∧ ev_payload e = p;
}.

Definition no_fact (n : NewEvent) : Prop := ∀ fact, ne_type n ≠ fact_type fact.

(** The append of a resolver, whatever became of what it read. *)
Definition resolver_append (cx : CommandContext) (events : list NewEvent) (result : payload) : Prop :=
  ∃ req fact d v, cx = fact_context req fact d v ∧ events = [mkNewEvent (fact_type fact) result VUser]
    ∧ fact_payload fact d result.

(** The operations on the store: those of resolvers, and those that neither use the
    resolver's operation name nor write its facts. *)
Definition mode_op (op : StoreOp) : Prop :=
  match op with
  | OpAppend su root sid run cx events result =>
      resolver_append cx events result
      ∨ cx_operation cx ≠ "approval_mode_decision" ∧ Forall no_fact events
  | OpBatch su root cx appends result =>
      cx_operation cx ≠ "approval_mode_decision" ∧ Forall (λ item, Forall no_fact (st_events item)) appends
  | _ => True
  end.

Lemma foreign_key cx t f d : cx_operation cx ≠ "approval_mode_decision" → fact_key t f d ≠ command_key_of cx.
Proof. unfold fact_key, command_key_of. intros Hne Heq. by simplify_eq. Qed.

(** Foreign events leave the invariant alone. *)
Lemma facts_ok_foreign s s' cx result :
  facts_ok s → cx_operation cx ≠ "approval_mode_decision" →
  es_commands s' = dset (command_key_of cx) result (es_commands s) →
  (∀ k, ∃ new, stream_of s' k = stream_of s k ++ new ∧ ∀ e fact, e ∈ new → ev_type e ≠ fact_type fact) →
  facts_ok s'.
Proof.
  intros [He Hc] Hop Hcmd Hstr.
  assert (∀ t f d, dget (fact_key t f d) (es_commands s') = dget (fact_key t f d) (es_commands s)) as Hget.
  { intros. rewrite Hcmd. apply dget_dset_ne. by apply foreign_key. }
  split.
  - intros k e fact Hin Hty. destruct (Hstr k) as (new & Hs & Hnew). rewrite Hs in Hin.
    apply elem_of_app in Hin as [Hin|Hin]; [|by destruct (Hnew _ fact Hin)].
    setoid_rewrite Hget. by eapply He.
  - intros t fact d p. rewrite Hget. intros (Hp & sid & e & Hin & Hty & Hpay)%Hc. split; [done|].
    exists sid, e. destruct (Hstr (t, sid)) as (new & -> & _). split_and!; [|done..]. apply elem_of_app. by left.
Qed.

(** A resolver's append that is accepted is the first of its decision. *)
Lemma facts_ok_recorded s s' req fact d v p sid e :
  facts_ok s → fact_payload fact d p →
  dget (command_key_of (fact_context req fact d v)) (es_commands s) = None →
  es_commands s' = dset (command_key_of (fact_context req fact d v)) p (es_commands s) →
  ev_type e = fact_type fact → ev_payload e = p →
  (∀ k, stream_of s' k = stream_of s k
     ++ (if decide (k = (ic_tenant_id (pe_context req), sid)) then [e] else [])) →
  facts_ok s'.
Proof.
  intros [He Hc] Hp Hnone Hcmd Hty Hpay Hstr.
  change (command_key_of _) with (fact_key (ic_tenant_id (pe_context req)) fact d) in Hnone, Hcmd.
  set (t := ic_tenant_id (pe_context req)) in *.
  assert (∀ t' f' d', dget (fact_key t' f' d') (es_commands s') =
    if decide (fact_key t' f' d' = fact_key t fact d) then Some p else dget (fact_key t' f' d') (es_commands s)) as Hget.
  { intros. rewrite Hcmd. apply dget_dset. }
  assert (∀ f f', fact_type f = fact_type f' → f = f') as Hinj by (by intros [] []).
  split.
  - intros k e' f' Hin Hty'. rewrite Hstr in Hin. apply elem_of_app in Hin as [Hin|Hin].
    + destruct (He _ _ _ Hin Hty') as (d' & Hp' & Hd'). exists d'. split; [done|]. rewrite Hget.
      case_decide as Hk; [|done]. rewrite Hk in Hd'. congruence.
    + case_decide as Hk; [|by apply not_elem_of_nil in Hin]. apply list_elem_of_singleton in Hin. subst e'.
      assert (f' = fact) as -> by (apply Hinj; congruence). exists d. rewrite Hpay. split; [done|].
      subst k. cbn. rewrite Hget. by rewrite decide_True.
  - intros t' f' d' p'. rewrite Hget. case_decide as Hk.
    + intros [= <-]. apply fact_key_inj in Hk as (-> & -> & ->). split; [done|]. exists sid, e.
      rewrite Hstr, decide_True by done. split_and!; [apply elem_of_app; right; by left|done..].
    + intros (Hp' & sid' & e' & Hin & Hty' & Hpay')%Hc. split; [done|]. exists sid', e'. rewrite Hstr.
      split_and!; [apply elem_of_app; by left|done..].
Qed.

Lemma mode_op_facts s op : facts_ok s → mode_op op → facts_ok (run_op s op).
Proof.
  intros Hok Hop. destruct (run_op_effect s op) as [[Hs Hc]|[H|H]].
  - destruct Hok as [He Hcm]. split.
    + intros k e fact. rewrite Hs, Hc. apply He.
    + intros t fact d p. rewrite Hc. setoid_rewrite Hs. apply Hcm.
  - destruct H as (su & root & sid & run & cx & events & result & governed & existing & -> & Hnone & Hg & Hs & Hc).
    destruct Hop as [(req & fact & d & v & -> & -> & Hp)|[Hop Hev]].
    + apply govern_unbudgeted in Hg as ->; [|by destruct fact..].
      eapply (facts_ok_recorded s _ req fact d v result sid); [done|done|done|done| | |exact Hs]; done.
    + eapply (facts_ok_foreign s); [done|done|done|]. intros k. eexists. split; [apply Hs|].
      intros e fact Hin. case_decide; [|by apply not_elem_of_nil in Hin].
      apply list_elem_of_lookup in Hin as [i Hi]. apply store_events_lookup in Hi as (_ & _ & _ & _ & _ & n & Hn & Hty & _).
      rewrite Hty. destruct (Forall2_lookup_r _ _ _ _ _ (govern_from _ _ _ _ _ _ Hg) Hn) as (n0 & Hn0 & -> & _).
      rewrite Forall_lookup in Hev. by apply (Hev _ _ Hn0).
  - destruct H as (su & root & cx & appends & result & added & -> & _ & Hadd & Hnd & Hs & Hc). destruct Hop as [Hop Hev].
    eapply (facts_ok_foreign s); [done|done|done|]. intros k. eexists. split; [apply Hs|].
    intros e fact Hin. case_decide; [|by apply not_elem_of_nil in Hin].
    destruct (dget k.2 added) as [new|] eqn:Hg; [|by apply not_elem_of_nil in Hin]. cbn in Hin.
    apply dget_Some_elem, list_elem_of_lookup in Hg as [i Hi].
    destruct (Forall2_lookup_r _ _ _ _ _ Hadd Hi) as (item & Hitem & _ & _ & Hfrom). cbn in Hfrom.
    apply list_elem_of_lookup in Hin as [j Hj]. destruct (Forall2_lookup_r _ _ _ _ _ Hfrom Hj) as (n & Hn & -> & _).
    rewrite Forall_lookup in Hev. pose proof (Hev _ _ Hitem) as Hevs. rewrite Forall_lookup in Hevs.
    by apply (Hevs _ _ Hn).
Qed.

(** *** Where a fact is stored

    [home] gives the Session that a digest was computed for; the digest covers the
    Session, so resolvers of two Sessions share one only if SHA-256 collides. *)
Definition stored_at_home (home : string → string) (op : StoreOp) : Prop :=
  match op with
  | OpAppend su root sid run cx events result => ∀ req fact d v, cx = fact_context req fact d v → sid = home d
  | _ => True
  end.

Definition facts_placed (home : string → string) (s : EventStore) : Prop :=
  ∀ k e fact d, e ∈ stream_of s k → ev_type e = fact_type fact → fact_payload fact d (ev_payload e) → k.2 = home d.

Lemma facts_placed_app home s s' :
  facts_placed home s →
  (∀ k, ∃ new, stream_of s' k = stream_of s k ++ new
     ∧ ∀ e fact d, e ∈ new → ev_type e = fact_type fact → fact_payload fact d (ev_payload e) → k.2 = home d) →
  facts_placed home s'.
Proof.
  intros Hp Hs k e fact d. destruct (Hs k) as (new & -> & Hnew). intros [Hin|Hin]%elem_of_app; [by apply Hp|by apply Hnew].
Qed.

Lemma placed_op home s op : facts_placed home s → mode_op op → stored_at_home home op → facts_placed home (run_op s op).
Proof.
  intros Hp Hop Hpl. eapply facts_placed_app; [exact Hp|]. intros k. destruct (run_op_effect s op) as [[Hs _]|[H|H]].
  - exists []. rewrite Hs, app_nil_r. split; [done|]. intros e f d Hin. by apply not_elem_of_nil in Hin.
  - destruct H as (su & root & sid & run & cx & events & result & governed & existing & -> & _ & Hg & Hs & _).
    eexists. split; [apply Hs|]. intros e fact d Hin Hty Hd. case_decide as Hk; [|by apply not_elem_of_nil in Hin]. subst k.
    apply list_elem_of_lookup in Hin as [i Hi]. apply store_events_lookup in Hi as (_ & _ & _ & _ & _ & n & Hn & Hty' & Hpay).
    destruct Hop as [(req & fact' & d' & v & -> & -> & Hp')|[_ Hev]].
    + apply govern_unbudgeted in Hg as ->; [|by destruct fact'..]. apply list_lookup_singleton_Some in Hn as [_ <-].
      cbn. rewrite (Hpl req fact' d' v eq_refl). f_equal. cbn in Hpay. rewrite Hpay in Hd. by apply (is_lit_inj _ _ _ (proj1 Hp') (proj1 Hd)).
    + destruct (Forall2_lookup_r _ _ _ _ _ (govern_from _ _ _ _ _ _ Hg) Hn) as (n0 & Hn0 & Hnt & _).
      rewrite Forall_lookup in Hev. destruct (Hev _ _ Hn0 fact). congruence.
  - destruct H as (su & root & cx & appends & result & added & -> & _ & Hadd & Hnd & Hs & _). destruct Hop as [_ Hev].
    eexists. split; [apply Hs|]. intros e fact d Hin Hty _. case_decide; [|by apply not_elem_of_nil in Hin].
    destruct (dget k.2 added) as [new|] eqn:Hg; [|by apply not_elem_of_nil in Hin]. cbn in Hin.
    apply dget_Some_elem, list_elem_of_lookup in Hg as [i Hi].
    destruct (Forall2_lookup_r _ _ _ _ _ Hadd Hi) as (item & Hitem & _ & _ & Hfrom). cbn in Hfrom.
    apply list_elem_of_lookup in Hin as [j Hj]. destruct (Forall2_lookup_r _ _ _ _ _ Hfrom Hj) as (n & Hn & Hnt & _).
    rewrite Forall_lookup in Hev. pose proof (Hev _ _ Hitem) as Hevs. rewrite Forall_lookup in Hevs.
    destruct (Hevs _ _ Hn fact). congruence.
Qed.

(** A stored answer stays. *)
Lemma command_kept s op key p :
  dget key (es_commands s) = Some p → dget key (es_commands (run_op s op)) = Some p.
Proof.
  intros Hk. destruct (run_op_effect s op) as [[_ ->]|[H|H]]; [done|..].
  - destruct H as (su & root & sid & run & cx & events & result & governed & existing & -> & Hnone & _ & _ & ->).
    rewrite dget_dset_ne; [done|]. intros ->. congruence.
  - destruct H as (su & root & cx & appends & result & added & -> & Hnone & _ & _ & _ & ->).
    rewrite dget_dset_ne; [done|]. intros ->. congruence.
Qed.

(** A later store: what was known then still holds. *)
Definition later (s s' : EventStore) : Prop :=
  (facts_ok s → facts_ok s')
  ∧ ∀ key p, dget key (es_commands s) = Some p → dget key (es_commands s') = Some p.

#[global] Instance later_preorder : PreOrder later.
Proof. split; [by split|]. intros s1 s2 s3 [H1 H2] [H3 H4]. split; auto. Qed.

Lemma mode_op_later s op : mode_op op → later s (run_op s op).
Proof. intros Hop. split; [intros; by apply mode_op_facts|]. apply command_kept. Qed.

Lemma mode_ops_later s ops : Forall mode_op ops → later s (fold_left run_op ops s).
Proof.
  intros Hops. revert s. induction Hops as [|op ops Hop _ IH]; intros s; cbn [fold_left]; [reflexivity|].
  transitivity (run_op s op); [by apply mode_op_later|apply IH].
Qed.

Lemma facts_ok_empty : facts_ok empty_store.
Proof.
  split; [|by intros ????]. intros k e fact Hin. by apply not_elem_of_nil in Hin.
Qed.

Lemma facts_ok_reachable ops : Forall mode_op ops → facts_ok (run_ops ops).
Proof. intros Hops. by apply (mode_ops_later empty_store ops Hops), facts_ok_empty. Qed.

Lemma first_of_Some {A} (P : A → bool) l x : first_of P l = Some x → x ∈ l ∧ P x = true.
Proof.
  induction l as [|y l IH]; cbn; [done|]. destruct (P y) eqn:E.
  - intros [= ->]. split; [by left|done].
  - intros [H1 H2]%IH. split; [by right|done].
Qed.

(** A reachable store, each fact in the Session its digest was computed for. *)
Record modes_ok (home : string → string) (s : EventStore) : Prop := {
  mo_store : store_ok s;
  mo_facts : facts_ok s;
  mo_placed : facts_placed home s;
}.

Lemma modes_ok_op home s op : modes_ok home s → mode_op op → stored_at_home home op → modes_ok home (run_op s op).
Proof. intros [H1 H2 H3] Hop Hpl. split; [by apply op_keeps_ok|by apply mode_op_facts|by apply placed_op]. Qed.

Lemma modes_ok_ops home ops s :
  Forall mode_op ops → Forall (stored_at_home home) ops → modes_ok home s → modes_ok home (fold_left run_op ops s).
Proof.
  intros Hops. revert s. induction Hops as [|op ops Hop _ IH]; intros s Hpl Hs; cbn [fold_left]; [done|].
  apply Forall_cons in Hpl as [Hp Hpl]. apply IH; [done|]. by apply modes_ok_op.
Qed.

Lemma modes_ok_reachable home ops : Forall mode_op ops → Forall (stored_at_home home) ops → modes_ok home (run_ops ops).
Proof.
  intros Hops Hpl. apply (modes_ok_ops home ops empty_store Hops Hpl). split; [apply empty_ok|apply facts_ok_empty|].
  intros k e fact d Hin. by apply not_elem_of_nil in Hin.
Qed.

Section races.
Context `{PydanticInt}.

Lemma current_session_inv events run session : current_session events run = Ok session →
  from_events events = Ok session ∧ py_eq (sa_run_id session) (jopt run) = true
  ∧ in_terminal_run (sa_run_status session) = false.
Proof.
  unfold current_session. intros Hc. destruct events; [done|]. apply res_bind_Ok in Hc as (s0 & Hs0 & Hc).
  destruct (negb _ || _) eqn:Eg; [done|]. injection Hc as <-. by bool_props.
Qed.

Lemma loaded_session_id s t sid session :
  store_ok s → from_events (load s t sid 1 None None) = Ok session → sa_session_id session = sid.
Proof.
  intros Hok Hf. pose proof (stream_of_ok s (t, sid) (so_streams _ Hok)) as Hst.
  destruct (load s t sid 1 None None) as [|e l] eqn:El; [done|].
  assert (ev_session_id e = sid) as Hsid.
  { assert (e ∈ load s t sid 1 None None) as Hin by (rewrite El; by left). unfold load, limited in Hin.
    apply list_elem_of_filter in Hin as [_ Hin]. apply list_elem_of_lookup in Hin as [i Hi]. by destruct (Hst i e Hi) as (_ & _ & ->). }
  rewrite from_events_unfold in Hf. apply foldM_restore_ids in Hf. unfold ids in Hf. injection Hf as _ ->. exact Hsid.
Qed.

Lemma await_later env w : (∀ n, Forall mode_op (env n)) → later (wd_store w) (wd_store (await env w)).
Proof. intros Henv. apply mode_ops_later, Henv. Qed.

Lemma fact_event_stored s t sid fact d e :
  facts_ok s → e ∈ load s t sid 1 None None → is_fact fact d e = true →
  dget (fact_key t fact d) (es_commands s) = Some (ev_payload e).
Proof.
  intros [He _] Hin Hf. unfold is_fact in Hf. apply andb_true_iff in Hf as [Hty%String.eqb_eq Hd].
  unfold load, limited in Hin. apply list_elem_of_filter in Hin as [_ Hin].
  destruct (He _ _ _ Hin Hty) as (d' & [Hd' _] & Hk). by rewrite (is_lit_inj _ _ _ Hd Hd').
Qed.

Lemma record_loop_spec env su attempts req sid d fact p w w' r :
  (∀ n, Forall mode_op (env n)) → fact_payload fact d p → facts_ok (wd_store w) →
  record_loop env su attempts req sid d fact p w = (w', r) →
  later (wd_store w) (wd_store w')
  ∧ ∀ q, r = Ok q → dget (fact_key (ic_tenant_id (pe_context req)) fact d) (es_commands (wd_store w')) = Some q.
Proof.
  intros Henv Hp. revert w. induction attempts as [|attempts IH]; intros w Hok Hr; cbn [record_loop] in Hr.
  { injection Hr as <- <-. by split. }
  pose proof (await_later env w Henv) as Hl1. set (w1 := await env w) in *. pose proof (proj1 Hl1 Hok) as Hok1.
  destruct (current_session _ _) as [session|]; [|injection Hr as <- <-; by split].
  destruct (first_of _ _) as [e|] eqn:Ef.
  { injection Hr as <- <-. split; [done|]. intros q [= <-]. apply first_of_Some in Ef as [Hin Hf].
    by eapply fact_event_stored. }
  destruct (pget _ p) as [revision|]; [|injection Hr as <- <-; by split].
  destruct (negb _); [injection Hr as <- <-; by split|].
  pose proof (await_later env w1 Henv) as Hl2. set (w2 := await env w1) in *. pose proof (proj1 Hl2 Hok1) as Hok2.
  set (cx := fact_context req fact d (sa_version session)) in *.
  set (op := OpAppend (su (wd_awaits w2)) (sa_root_session_id session) (sa_session_id session) (pe_run_id req) cx
               [mkNewEvent (fact_type fact) p VUser] p).
  destruct (append _ _ _ _ cx _ p _) as [s a] eqn:Ea. cbn zeta in Hr.
  assert (run_op (wd_store w2) op = s) as Hrun by (cbn [run_op op]; by rewrite Ea).
  assert (later (wd_store w) s) as Hl.
  { rewrite <- Hrun. transitivity (wd_store w1); [done|]. transitivity (wd_store w2); [done|].
    apply mode_op_later. left. by exists req, fact, d, (sa_version session). }
  destruct a as [a|c m].
  - injection Hr as <- <-. split; [done|]. intros q [= <-]. cbn [wd_store]. apply append_inv in Ea. cbn in Ea.
    change (command_key_of cx) with (fact_key (ic_tenant_id (pe_context req)) fact d) in Ea.
    destruct Ea as [(previous & Hc & -> & ->)|(_ & _ & governed & -> & ->)]; [done|]. exact (dget_dset_eq _ _ _).
  - assert ((mkWorld s (wd_awaits w2), Raise c m) = (w', r) →
      later (wd_store w) (wd_store w') ∧ ∀ q, r = Ok q →
        dget (fact_key (ic_tenant_id (pe_context req)) fact d) (es_commands (wd_store w')) = Some q) as Hstop.
    { intros [= <- <-]. by split. }
    destruct c; try (by apply Hstop). apply IH in Hr as [H1 H2]; [|by apply Hl].
    split; [by transitivity s|done].
Qed.

Lemma record_loop_placed home env su attempts req sid d fact p w w' r :
  (∀ n, Forall mode_op (env n)) → (∀ n, Forall (stored_at_home home) (env n)) → fact_payload fact d p → sid = home d →
  modes_ok home (wd_store w) → record_loop env su attempts req sid d fact p w = (w', r) → modes_ok home (wd_store w').
Proof.
  intros Henv Hpl Hp Hhome. revert w. induction attempts as [|attempts IH]; intros w Hok Hr; cbn [record_loop] in Hr.
  { by injection Hr as <- <-. }
  pose proof (modes_ok_ops home _ _ (Henv (wd_awaits w)) (Hpl (wd_awaits w)) Hok) as Hok1. fold (wd_store (await env w)) in Hok1.
  set (w1 := await env w) in *. change (modes_ok home (wd_store w1)) in Hok1.
  destruct (current_session _ _) as [session|] eqn:Es; [|by injection Hr as <- <-].
  apply current_session_inv in Es as (Es & _). apply (loaded_session_id _ _ _ _ (mo_store _ _ Hok1)) in Es.
  destruct (first_of _ _) as [e|]; [by injection Hr as <- <-|].
  destruct (pget _ p) as [revision|]; [|by injection Hr as <- <-].
  destruct (negb _); [by injection Hr as <- <-|].
  pose proof (modes_ok_ops home _ _ (Henv (wd_awaits w1)) (Hpl (wd_awaits w1)) Hok1) as Hok2.
  set (w2 := await env w1) in *. change (modes_ok home (wd_store w2)) in Hok2.
  set (cx := fact_context req fact d (sa_version session)) in *.
  set (op := OpAppend (su (wd_awaits w2)) (sa_root_session_id session) (sa_session_id session) (pe_run_id req) cx
               [mkNewEvent (fact_type fact) p VUser] p).
  destruct (append _ _ _ _ cx _ p _) as [s a] eqn:Ea. cbn zeta in Hr.
  assert (modes_ok home s) as Hs.
  { replace s with (run_op (wd_store w2) op) by (cbn [run_op op]; by rewrite Ea). apply modes_ok_op; [done| |].
    - left. by exists req, fact, d, (sa_version session).
    - intros req' fact' d' v' Heq. assert (fact_key (ic_tenant_id (pe_context req)) fact d
        = fact_key (ic_tenant_id (pe_context req')) fact' d') as Hk by (exact (f_equal command_key_of Heq)).
      apply fact_key_inj in Hk as (_ & _ & <-). congruence. }
  destruct a as [a|c m]; [by injection Hr as <- <-|].
  destruct c; try (by injection Hr as <- <-). by eapply (IH (mkWorld s (wd_awaits w2))).
Qed.

(** C22. The first recorded decision counts for everybody: two attempts to record the
    same decision (tenant, kind of fact, digest of the action and the mode), however
    they interleave with each other and with the other work on the store, that both
    return, return the same fact, and it is in a stream of the tenant. *)
Theorem first_writer_wins env1 env2 su1 su2 ops1 ops2 ops req1 req2 sid1 sid2 fact d p1 p2 w1 w2 w1' w2' q1 q2 :
  (∀ n, Forall mode_op (env1 n)) → (∀ n, Forall mode_op (env2 n)) →
  fact_payload fact d p1 → fact_payload fact d p2 →
  Forall mode_op ops1 → Forall mode_op ops2 → Forall mode_op ops →
  wd_store w1 = run_ops ops1 → wd_store w2 = run_ops ops2 →
  ic_tenant_id (pe_context req1) = ic_tenant_id (pe_context req2) →
  record env1 su1 req1 sid1 d fact p1 w1 = (w1', Ok q1) →
  record env2 su2 req2 sid2 d fact p2 w2 = (w2', Ok q2) →
  wd_store w2' = fold_left run_op ops (wd_store w1') →
  q1 = q2
  ∧ ∃ sid e, e ∈ stream_of (wd_store w2') (ic_tenant_id (pe_context req2), sid)
      ∧ ev_type e = fact_type fact ∧ ev_payload e = q2.
Proof.
  intros He1 He2 Hp1 Hp2 Ho1 Ho2 Ho Hw1 Hw2 Ht Hr1 Hr2 Hlater.
  pose proof (facts_ok_reachable _ Ho1) as Hok1. rewrite <- Hw1 in Hok1.
  pose proof (facts_ok_reachable _ Ho2) as Hok2. rewrite <- Hw2 in Hok2.
  destruct (record_loop_spec _ _ _ _ _ _ _ _ _ _ _ He1 Hp1 Hok1 Hr1) as [_ H1]. specialize (H1 _ eq_refl).
  destruct (record_loop_spec _ _ _ _ _ _ _ _ _ _ _ He2 Hp2 Hok2 Hr2) as [Hl2 H2]. specialize (H2 _ eq_refl).
  apply (proj2 (mode_ops_later _ _ Ho)) in H1. rewrite <- Hlater, Ht in H1.
  split; [congruence|]. by apply (fo_command _ (proj1 Hl2 Hok2)) in H2 as [_ H2].
Qed.

(** *** What the resolver may allow *)

Lemma review_outcome_allow now evidence ev :
  review_outcome now evidence = Ok (Allow, ev) →
  ev = evidence ∧ pgetn "approved" ev = JBool true
  ∧ (truthy (pgetn "approval_expires_at" ev) = true →
     ∃ t, aware_fromisoformat (py_str (pgetn "approval_expires_at" ev)) = Ok t ∧ now < t).
Proof.
  unfold review_outcome. intros Ho. apply res_bind_Ok in Ho as (expired & He & Ho). destruct expired; [by inv_res|].
  injection Ho as Hd <-. split; [done|]. split.
  { by destruct (pgetn "approved" evidence) as [|[]| | | | |]. }
  intros Ht. rewrite Ht in He. apply res_fmap_Ok in He as (t & Heq & Ht'). exists t. split; [done|].
  by apply Z.leb_gt.
Qed.

Lemma evidence_get req mode evidence l k :
  dget k (rev l) = None → dget k (dupdate (mode_evidence req mode evidence) l) = dget k (mode_evidence req mode evidence).
Proof. intros Hk. by rewrite dget_dupdate, Hk. Qed.

Lemma evidence_digest req mode evidence l :
  dget "action_digest" (rev l) = None →
  is_lit (pgetn "action_digest" (dupdate (mode_evidence req mode evidence) l)) (mode_digest req evidence) = true.
Proof.
  intros Hl. unfold pgetn. rewrite evidence_get by done. unfold mode_evidence. rewrite dget_dupdate.
  cbn [rev app]. rewrite dget_sget. cbn -[mode_digest]. apply String.eqb_refl.
Qed.

Lemma dupdate_app {V} (d l l' : list (string * V)) : dupdate (dupdate d l) l' = dupdate d (l ++ l').
Proof. unfold dupdate. by rewrite fold_left_app. Qed.

Section resolving.
Context (env : nat → list StoreOp) (su : nat → Supply).
Context (reviewer : option (PolicyEvaluateRequest → string → string → json → res ReviewVerdict)).
Context (review_timeout : Z) (clock : nat → Z).
Context (home : string → string).
Context (Henv : ∀ n, Forall mode_op (env n)) (Hplaced : ∀ n, Forall (stored_at_home home) (env n)).

(** A fact about the action with this digest, stored in the Session, with its payload. *)
Definition fact_in (s : EventStore) (tenant sid digest : string) (fact : Fact) (p : payload) : Prop :=
  fact_payload fact digest p
  ∧ ∃ e, e ∈ stream_of s (tenant, sid) ∧ ev_type e = fact_type fact ∧ ev_payload e = p.

Lemma record_stored req sid d fact p w w' q :
  fact_payload fact d p → sid = home d → modes_ok home (wd_store w) → record env su req sid d fact p w = (w', Ok q) →
  modes_ok home (wd_store w') ∧ fact_in (wd_store w') (ic_tenant_id (pe_context req)) sid d fact q.
Proof.
  intros Hp Hh Hok Hr. pose proof (record_loop_placed _ _ _ _ _ _ _ _ _ _ _ _ Henv Hplaced Hp Hh Hok Hr) as Hok'.
  split; [done|]. destruct (record_loop_spec _ _ _ _ _ _ _ _ _ _ _ Henv Hp (mo_facts _ _ Hok) Hr) as [_ Hq].
  destruct (fo_command _ (mo_facts _ _ Hok') _ _ _ _ (Hq _ eq_refl)) as (Hp' & sid' & e & Hin & Hty & <-). split; [done|].
  exists e. split_and!; [|done..]. pose proof (mo_placed _ _ Hok' _ _ _ _ Hin Hty Hp') as Hk. cbn in Hk. congruence.
Qed.

(** A completed review of the action that approved it, and that had not expired when its
    approval was read. *)
Definition review_allowed (s : EventStore) (tenant sid digest : string) (ev : payload) : Prop :=
  fact_in s tenant sid digest ReviewCompleted ev ∧ pgetn "approved" ev = JBool true
  ∧ (truthy (pgetn "approval_expires_at" ev) = true →
     ∃ t i, aware_fromisoformat (py_str (pgetn "approval_expires_at" ev)) = Ok t ∧ clock i < t).

Lemma review_action_allow req sid goal events mode evidence w w' ev :
  modes_ok home (wd_store w) → sid = home (mode_digest req evidence) →
  review_action env su reviewer review_timeout clock req sid goal events (mode_digest req evidence)
    (mode_evidence req mode evidence) w = (w', Ok (Allow, ev)) →
  review_allowed (wd_store w') (ic_tenant_id (pe_context req)) sid (mode_digest req evidence) ev.
Proof.
  intros Hok Hh. unfold review_action.
  destruct (record env su req sid _ ReviewRequested _ w) as [w1 started] eqn:E1.
  destruct (started ≫= _) as [expires|] eqn:E2; [|done].
  apply res_bind_Ok in E2 as (s1 & -> & _).
  apply record_stored in E1 as [Hok1 _]; [|split; [by apply evidence_digest|done]|done|done].
  set (verdict := review_verdict _ _ _ _ _ _). set (w2 := if review_asked _ _ _ _ then _ else _).
  assert (modes_ok home (wd_store w2)) as Hok2.
  { subst w2. destruct (review_asked _ _ _ _); [|done]. by apply modes_ok_ops. }
  destruct (record env su req sid _ ReviewCompleted _ w2) as [w3 saved] eqn:E3.
  intros Hr. injection Hr as <- Hr. apply res_bind_Ok in Hr as (s3 & -> & Hr).
  apply record_stored in E3 as [_ Hf]; [| |done|done].
  - apply review_outcome_allow in Hr as (-> & Happ & Hexp). split_and!; [done..|].
    intros Ht. destruct (Hexp Ht) as (t & ? & ?). by exists t, 3%nat.
  - rewrite !dupdate_app. split; [by apply evidence_digest|]. intros _. unfold pgetn. rewrite dget_dupdate.
    rewrite dget_sget. cbn -[mode_digest]. apply String.eqb_refl.
Qed.

(** The authority of a permission: the Session's current, unfinished run, as the
    resolver loads it in [w], is the one of the request, and either its mode is full
    access and that resolution is a fact stored in that Session by [w'], or its mode is
    automatic review and so is a completed review that approved the action and has not
    expired.  The fact names the digest of this action, Session, run and mode. *)
Definition mode_authority (req : PolicyEvaluateRequest) (version : string) (w w' : World) (ev : payload) : Prop :=
  let tenant := ic_tenant_id (pe_context req) in
  ∃ sid run session,
    pe_session_id req = Some sid ∧ pe_run_id req = Some run
    ∧ from_events (load (wd_store (await env w)) tenant sid 1 None None) = Ok session
    ∧ py_eq (sa_run_id session) (JStr run) = true ∧ in_terminal_run (sa_run_status session) = false
    ∧ let digest := mode_digest req (base_evidence (sa_approval session) sid run version) in
      (effective_approval_mode (sa_approval session) = Some FullAccess
         ∧ fact_in (wd_store w') tenant sid digest ModeResolved ev
       ∨ effective_approval_mode (sa_approval session) = Some AutoReview
         ∧ review_allowed (wd_store w') tenant sid digest ev).

(** The digests that a request may be resolved under are at home in its Session. *)
Definition request_placed (req : PolicyEvaluateRequest) (version : string) : Prop :=
  ∀ sid run approval, pe_session_id req = Some sid → pe_run_id req = Some run →
    sid = home (mode_digest req (base_evidence approval sid run version)).

(** The resolver grants what needs an approval only on the authority of the mode the
    user chose; the evidence it returns is the stored fact. *)
Lemma resolve_allow req decision version ops w w' ev :
  Forall mode_op ops → Forall (stored_at_home home) ops → request_placed req version → wd_store w = run_ops ops →
  resolve env su reviewer review_timeout clock req decision version w = (w', Ok (Allow, ev)) →
  decision = Allow ∧ ev = [] ∨ decision = RequireApproval ∧ mode_authority req version w w' ev.
Proof.
  intros Hops Hpl Hreq Hw. pose proof (modes_ok_reachable home _ Hops Hpl) as Hok. rewrite <- Hw in Hok. clear Hops Hpl Hw ops.
  unfold resolve. case_bool_decide as Hd; cbn [negb]; [|intros Hr; left; injection Hr as <- -> <-; by split].
  destruct (pe_session_id req) as [sid|] eqn:Esid; [|intros Hr; by simplify_eq/=].
  destruct (pe_run_id req) as [run|] eqn:Erun; [|rewrite orb_true_r; intros Hr; by simplify_eq/=].
  destruct (negb _ || negb _); [intros Hr; by simplify_eq/=|].
  intros Hr. right. split; [done|]. unfold mode_authority. cbv zeta. cbn [default] in Hr. unfold resolve_session in Hr.
  pose proof (modes_ok_ops home _ _ (Henv (wd_awaits w)) (Hplaced (wd_awaits w)) Hok) as Hok1.
  set (w1 := await env w) in *. change (modes_ok home (wd_store w1)) in Hok1.
  set (events := load (wd_store w1) _ _ _ _ _) in *. cbv zeta in Hr. rewrite Erun in Hr.
  destruct (current_session events (Some run)) as [session|] eqn:Es; [|done].
  apply current_session_inv in Es as (Hfe & Hrun & Hterm).
  pose proof (Hreq sid run (sa_approval session) Esid Erun) as Hhome.
  set (d := mode_digest req _) in *.
  exists sid, run, session. split_and!; [done..|]. fold d.
  destruct (effective_approval_mode (sa_approval session)) as [[]|]; try (by simplify_eq/=).
  - right. split; [done|]. destruct (first_of _ events) as [e|] eqn:Ef; [|by eapply review_action_allow].
    injection Hr as <- Ho. apply first_of_Some in Ef as [Hin Hty]. apply andb_true_iff in Hty as [Hty%String.eqb_eq Hd'].
    apply review_outcome_allow in Ho as (-> & Happ & Hexp).
    assert (e ∈ stream_of (wd_store w1) (ic_tenant_id (pe_context req), sid)) as Hin'.
    { unfold events, load, limited in Hin. by apply list_elem_of_filter in Hin as [_ Hin]. }
    split_and!; [split|done|].
    + destruct (fo_event _ (mo_facts _ _ Hok1) _ _ ReviewCompleted Hin' Hty) as (d' & [Ha Hb] & _).
      pose proof (is_lit_inj _ _ _ Hd' (Hb eq_refl)) as <-. by split.
    + by exists e.
    + intros Ht. destruct (Hexp Ht) as (t & ? & ?). by exists t, 0%nat.
  - left. split; [done|]. destruct (record _ _ _ _ _ ModeResolved _ w1) as [w2 saved] eqn:E1.
    injection Hr as <- Hr. apply res_bind_Ok in Hr as (s1 & -> & Hr). injection Hr as <-.
    apply record_stored in E1 as [_ Hf]; [done| |done|done]. split; [by apply evidence_digest|done].
Qed.

(** It turns a request for an approval into a permission or leaves it. *)
Lemma resolve_decides req version w w' d ev :
  resolve env su reviewer review_timeout clock req RequireApproval version w = (w', Ok (d, ev)) →
  d = Allow ∨ d = RequireApproval.
Proof.
  assert (∀ now p, review_outcome now p = Ok (d, ev) → d = Allow ∨ d = RequireApproval) as Hout.
  { intros now p. unfold review_outcome. intros Ho. apply res_bind_Ok in Ho as ([] & _ & Ho); [inv_res; auto|].
    destruct (pgetn "approved" p) as [|[]| | | | |]; inv_res; auto. }
  unfold resolve. rewrite bool_decide_eq_true_2 by done. cbn [negb].
  destruct (negb (opt_truthy _) || _); [intros; simplify_eq; auto|].
  unfold resolve_session. cbv zeta. destruct (current_session _ _) as [session|]; [|done].
  destruct (effective_approval_mode _) as [[]|]; try (intros; simplify_eq; by auto).
  - destruct (first_of _ _); [intros [= _ Ho]; eauto|]. unfold review_action.
    destruct (record _ _ _ _ _ _ _ _) as [w1 started]. destruct (started ≫= _); [|done].
    destruct (record _ _ _ _ _ _ _ _) as [w2 saved]. intros [= _ Hr].
    apply res_bind_Ok in Hr as (? & _ & Hr). eauto.
  - destruct (record _ _ _ _ _ _ _ _) as [w2 saved]. intros [= _ Hr].
    apply res_bind_Ok in Hr as (? & _ & Hr). inv_res. auto.
Qed.
End resolving.
End races.

(** ** Witnesses *)

Module ApprovalModeExamples.
#[local] Existing Instance strict_pydantic.

Definition su (tag : string) (n : nat) : Supply := mkSupply (λ i, tag +:+ pretty n +:+ "_" +:+ pretty i) (λ i, Z.of_nat i).
Definition full_access : payload :=
  [("effective_approval_mode", JStr "full_access"); ("interaction_mode", JStr "streaming");
   ("approval_mode_source", JStr "explicit"); ("approval_mode_revision", JInt 1)].
Definition create_op : StoreOp :=
  OpAppend (su "a" 0) "s" "s" None (mkContext "c1" "t" (mkActor "user" "u") "corr" 0 "create" None None)
    [mkNewEvent "session.created" [("goal", JStr "g"); ("root_session_id", JStr "s")] VUser;
     mkNewEvent "run.requested" [("run_id", JStr "r1"); ("approval", JObj full_access)] VUser] [].

Definition mail_request : PolicyEvaluateRequest :=
  mkEvaluate (Some "s") (Some "r1") (mkInternal "t" "action-hands" "q" "corr" "cause" None) "user" "tool.call"
    "mail.send" "digest" None [].

Lemma create_op_ok : Forall mode_op [create_op].
Proof.
  constructor; [|constructor]. right. split; [discriminate|].
  repeat constructor; intros []; discriminate.
Qed.

Lemma quiet_ok : ∀ n : nat, Forall mode_op ((λ _, []) n).
Proof. constructor. Qed.

Notation world1 := (mkWorld (run_ops [create_op]) 0).
(** A rival resolver records the decision between the load and the append of the first. *)
Definition fact_of (reason : string) : payload :=
  [("action_digest", JStr "d"); ("approval_mode_revision", JInt 1); ("reason", JStr reason)].
Definition rival : StoreOp :=
  OpAppend (su "r" 0) "s" "s" (Some "r1") (fact_context mail_request ModeResolved "d" 2)
    [mkNewEvent "policy.mode.resolved" (fact_of "rival") VUser] (fact_of "rival").
Definition race (n : nat) : list StoreOp := if Nat.eqb n 1 then [rival] else [].

Lemma fact_of_ok reason : fact_payload ModeResolved "d" (fact_of reason).
Proof. split; [reflexivity|discriminate]. Qed.

Lemma race_ok n : Forall mode_op (race n).
Proof.
  unfold race. destruct (Nat.eqb n 1); [|constructor]. constructor; [|constructor]. left.
  exists mail_request, ModeResolved, "d", 2. split_and!; [reflexivity|reflexivity|apply fact_of_ok].
Qed.

Notation first := (record race (su "x") mail_request "s" "d" ModeResolved (fact_of "first") world1).

Lemma first_ok : first = (first.1, Ok (fact_of "rival")).
Proof. vm_compute. reflexivity. Qed.

(** The second attempt starts with the rival's fact in place. *)
Definition ops2 : list StoreOp := [create_op; rival].
Lemma ops2_ok : Forall mode_op ops2.
Proof. constructor; [exact (Forall_inv create_op_ok)|exact (race_ok 1)]. Qed.
Notation world2 := (mkWorld (run_ops ops2) 0).
Notation later_attempt := (record (λ _, []) (su "y") mail_request "s" "d" ModeResolved (fact_of "second") world2).
Lemma later_ok : later_attempt = (later_attempt.1, Ok (fact_of "rival")).
Proof. vm_compute. reflexivity. Qed.
Lemma later_store : wd_store later_attempt.1 = fold_left run_op [] (wd_store first.1).
Proof. vm_compute. reflexivity. Qed.

Lemma first_writer_wins_witness :
  ∃ sid e, e ∈ stream_of (wd_store later_attempt.1) ("t", sid) ∧ ev_type e = "policy.mode.resolved".
Proof.
  destruct (first_writer_wins race (λ _, []) (su "x") (su "y") [create_op] ops2 [] mail_request mail_request "s" "s"
              ModeResolved "d" (fact_of "first") (fact_of "second") world1 world2 first.1 later_attempt.1
              (fact_of "rival") (fact_of "rival") race_ok quiet_ok (fact_of_ok "first") (fact_of_ok "second")
              create_op_ok ops2_ok (Forall_nil_2 _) eq_refl eq_refl eq_refl first_ok later_ok later_store)
    as (_ & sid & e & Hin & Hty & _).
  exists sid, e. split; [exact Hin|exact Hty].
Defined.
End ApprovalModeExamples.
