(* ===== verification/Policy.v ===== *)
(** * The policy service ([action/policy.py], [policy/governance.py], [policy/internal_service.py])

    Module-free: the engine that classifies a capability, the product constraints that
    narrow its decision, and the service that composes both with the approval modes
    ([ApprovalModes]) and keeps decisions and approvals.  The service keeps them in
    memory or delegates to a state store, which is a parameter ([PolicyStateStore]).
    The approvals are a state machine per (tenant, approval): [waiting], then one of
    [approved], [rejected], [cancelled], [expired]. *)

From Stdlib Require Import SpecFloat.
From S2P Require Import Prelude PyValue DateTime Digest Contracts Session Approval.
From S2P Require Import EventStore ApprovalModes.
Local Open Scope Z_scope.

(** ** The engine *)

(** [ToolPermission] of [contracts/tools.py]. *)
Inductive ToolPermission := ReadOnly | SuggestOnly | WriteWithApproval | WriteAutonomous | DestructiveAdmin.
#[global] Instance ToolPermission_eq_dec : EqDecision ToolPermission.
Proof. solve_decision. Defined.
Definition permission_value (p : ToolPermission) : string :=
  match p with
  | ReadOnly => "read-only" | SuggestOnly => "suggest-only" | WriteWithApproval => "write-with-approval"
  | WriteAutonomous => "write-autonomous" | DestructiveAdmin => "destructive/admin"
  end.
Definition permission_of : string → res ToolPermission :=
  enum_of permission_value [ReadOnly; SuggestOnly; WriteWithApproval; WriteAutonomous; DestructiveAdmin].

(** [PolicyEngine.evaluate] looks at the permission of the capability only. *)
Definition engine_evaluate (permission : ToolPermission) : PolicyDecision :=
  match permission with
  | SuggestOnly => Deny
  | WriteWithApproval | DestructiveAdmin => RequireApproval
  | _ => Allow
  end.

(** ** Product constraints *)

Record ProductionPolicy := mkProduction {
  pp_runtime_budget : payload;
  pp_model_provider : option string;
  pp_model_name : option string;
  pp_model_data_region : string;
  pp_allowed_data_regions : list string;
  pp_share_max_ttl : Z;
  pp_share_classifications : list string;
  pp_approvers : list string;
  pp_required_approvals : Z;
  pp_ttl_seconds : Z;
  pp_escalation_after_seconds : Z;
}.

Definition production_init (p : ProductionPolicy) : res ProductionPolicy :=
  if match pp_approvers p with [] => false | l => Z.of_nat (length (fromkeys l)) <? pp_required_approvals p end
  then Raise PyValueError "approval quorum exceeds configured approvers"
  else if pp_ttl_seconds p <=? pp_escalation_after_seconds p
  then Raise PyValueError "approval escalation must occur before approval expiry"
  else Ok p.

(** [x or y] *)
Definition py_or (v w : json) : json := if truthy v then v else w.

Definition govern_approval (p : ProductionPolicy) (constraints : payload) : payload :=
  let governed := dupdate constraints
    [("approval_ttl_seconds", JInt (pp_ttl_seconds p));
     ("escalation_after_seconds", JInt (pp_escalation_after_seconds p))] in
  match pp_approvers p with
  | [] => governed
  | l => dupdate governed
           [("assigned_approvers", jstrs l);
            ("required_approvals", JInt (Z.min (pp_required_approvals p) (Z.of_nat (length l))))]
  end.

(** The result of the branches that may refuse. *)
Definition refused : res (option payload) := Ok None.

Definition govern_model (p : ProductionPolicy) (attributes constraints : payload) : res (option payload) :=
  let region := py_str (py_or (pgetn "required_data_region" attributes) (JStr (pp_model_data_region p))) in
  if negb (str_in region (pp_allowed_data_regions p)) then refused else
  providers ← py_iter (pgetd "allowed_providers" (JArr []) attributes);
  let providers := map py_str providers in
  if opt_truthy (pp_model_provider p) && negb (match providers with [] => true | _ => false end)
     && negb (str_in (default EmptyString (pp_model_provider p)) providers) then refused else
  let requested_model := pgetn "preferred_model" attributes in
  if opt_truthy (pp_model_name p) && truthy requested_model
     && negb (py_eq requested_model (jopt (pp_model_name p))) then refused else
  requested ← py_int (pgetd "max_output_tokens" (JInt 8192) attributes);
  limit ← (v ← pget "max_output_tokens" (pp_runtime_budget p); py_int v);
  let governed := dupdate constraints
    [("data_region", JStr region); ("max_output_tokens", JInt (Z.min requested limit))] in
  let governed := if opt_truthy (pp_model_provider p)
    then dset "allowed_providers" (JArr [jopt (pp_model_provider p)]) governed else governed in
  let governed := if opt_truthy (pp_model_name p)
    then dset "preferred_model" (jopt (pp_model_name p)) governed else governed in
  let max_cost := pgetn "max_cost" (pp_runtime_budget p) in
  if is_none max_cost then Ok (Some governed)
  else cost ← py_float max_cost; Ok (Some (dset "run_max_cost" (JFloat cost) governed)).

Definition govern_share (p : ProductionPolicy) (attributes constraints : payload) : res (option payload) :=
  let classification := py_str (pgetd "classification" (JStr "internal") attributes) in
  if negb (str_in classification (pp_share_classifications p)) then refused else
  let audience := strip (py_str (pgetd "audience" (JStr EmptyString) attributes)) in
  if String.eqb audience EmptyString then refused else
  ttl ← py_int (pgetd "ttl_seconds" (JInt 300) attributes);
  Ok (Some (dupdate constraints
    [("audience", JStr audience); ("ttl_seconds", JInt (Z.min ttl (pp_share_max_ttl p)));
     ("classification", JStr classification)])).

(** [ProductionPolicy.govern] *)
Definition production_govern (p : ProductionPolicy) (request : PolicyEvaluateRequest) (decision : PolicyDecision)
    (constraints : payload) : res (PolicyDecision * payload) :=
  if bool_decide (decision = RequireApproval) then Ok (decision, govern_approval p constraints)
  else if negb (bool_decide (decision = Allow) || bool_decide (decision = AllowWithConstraints))
  then Ok (decision, constraints)
  else
  governed ←
    (if String.eqb (pe_action request) "task.create"
     then Ok (Some (dset "runtime_budget" (JObj (pp_runtime_budget p)) constraints))
     else if String.eqb (pe_action request) "model.generate" then govern_model p (pe_attributes request) constraints
     else if String.eqb (pe_action request) "artifact.share" then govern_share p (pe_attributes request) constraints
     else Ok (Some constraints));
  match governed with
  | None => Ok (Deny, [])
  | Some governed =>
      if negb (py_eq (JObj governed) (JObj constraints)) then Ok (AllowWithConstraints, governed)
      else Ok (decision, governed)
  end.

(** ** Approvals *)

Record ApprovalCommandRequest := mkApprovalCommand {
  ac_context : InternalRequestContext;
  ac_operation : string;
  ac_approval_id : string;
  ac_session_id : string;
  ac_run_id : string;
  ac_action_digest : string;
  ac_policy_version : string;
  ac_decision : option string;
  ac_feedback : option string;
  ac_actor_id : option string;
  ac_expires_at : option Z;
}.

Record ApprovalValidationResponse := mkValidation { av_valid : bool; av_status : string }.

(** The dict kept for an approval. *)
Record ApprovalEntry := mkEntry {
  ae_request : ApprovalCommandRequest;
  ae_request_digest : string;
  ae_status : string;
  ae_decision : option string;
}.
#[global] Instance ApprovalEntry_eta : Eta ApprovalEntry := λ r,
  mkEntry (ae_request r) (ae_request_digest r) (ae_status r) (ae_decision r).

Definition command_digest (req : ApprovalCommandRequest) (expires_at : Z) : string :=
  approval_request_digest (ic_tenant_id (ac_context req)) (ac_approval_id req) (ac_session_id req) (ac_run_id req)
    (ac_action_digest req) (ac_policy_version req) expires_at.

Notation Approvals := (list ((string * string) * ApprovalEntry)).

Definition entry_key (req : ApprovalCommandRequest) : string * string :=
  (ic_tenant_id (ac_context req), ac_approval_id req).

Definition same_approval_scope (a b : ApprovalCommandRequest) : bool :=
  String.eqb (ac_session_id a) (ac_session_id b) && String.eqb (ac_run_id a) (ac_run_id b)
  && String.eqb (ac_action_digest a) (ac_action_digest b) && String.eqb (ac_policy_version a) (ac_policy_version b).

Definition invalid_response (status : string) : ApprovalValidationResponse := mkValidation false status.

Definition approval_requested (now : Z) (req : ApprovalCommandRequest) (s : Approvals)
    : Approvals * ApprovalValidationResponse :=
  match ac_expires_at req with
  | None => (s, invalid_response "expired")
  | Some expires =>
      if expires <=? now then (s, invalid_response "expired") else
      let digest := command_digest req expires in
      match dget (entry_key req) s with
      | Some e =>
          if negb (String.eqb (ae_request_digest e) digest) then (s, invalid_response "conflict")
          else (s, mkValidation
                     (String.eqb (ae_status e) "approved"
                      && match ac_expires_at (ae_request e) with Some t => now <? t | None => false end)
                     (ae_status e))
      | None => (dset (entry_key req) (mkEntry req digest "waiting" None) s, invalid_response "waiting")
      end
  end.

(** An operation on an entry in scope, which expires at [expires]. *)
Definition approval_transition (now expires : Z) (req : ApprovalCommandRequest) (e : ApprovalEntry)
    : ApprovalEntry * ApprovalValidationResponse :=
  let status := ae_status e in
  let waiting := String.eqb status "waiting" in
  let due := waiting && (expires <=? now) in
  let expire := (e <| ae_status := "expired" |>, invalid_response "expired") in
  if String.eqb (ac_operation req) "record_human_response" then
    match ac_decision req with
    | Some decision =>
        if negb (str_in decision ["approve"; "reject"]) then (e, invalid_response "conflict") else
        let target := if String.eqb decision "approve" then "approved" else "rejected" in
        let answer := mkValidation (String.eqb target "approved") target in
        if due then expire
        else if String.eqb status target then (e, answer)
        else if negb waiting then (e, invalid_response "conflict")
        else (e <| ae_status := target |> <| ae_decision := Some decision |>, answer)
    | None => (e, invalid_response "conflict")
    end
  else if String.eqb (ac_operation req) "cancel" then
    if due then expire
    else if String.eqb status "cancelled" then (e, invalid_response "cancelled")
    else if negb waiting then (e, invalid_response "conflict")
    else (e <| ae_status := "cancelled" |>, invalid_response "cancelled")
  else if String.eqb (ac_operation req) "expire" then
    if String.eqb status "expired" then (e, invalid_response "expired")
    else if negb waiting then (e, invalid_response "conflict")
    else if now <? expires then (e, invalid_response "waiting")
    else expire
  else
    let e := if due then e <| ae_status := "expired" |> else e in
    (e, mkValidation ((now <? expires) && bool_decide (ae_decision e = Some "approve")
                      && String.eqb (ae_status e) "approved")
          (ae_status e)).

(** [approval] with the approvals in memory. *)
Definition approval_command (now : Z) (req : ApprovalCommandRequest) (s : Approvals)
    : Approvals * ApprovalValidationResponse :=
  if String.eqb (ac_operation req) "record_human_response"
     && negb (String.eqb (ic_service_identity (ac_context req)) "task-api")
  then (s, invalid_response "forbidden")
  else if String.eqb (ac_operation req) "request" then approval_requested now req s
  else match dget (entry_key req) s with
  | None => (s, invalid_response "not_found")
  | Some e =>
      if negb (same_approval_scope (ae_request e) req) then (s, invalid_response "conflict")
      else match ac_expires_at (ae_request e) with
      | None => (s, invalid_response "conflict")
      | Some expires =>
          let '(e, answer) := approval_transition now expires req e in
          (dset (entry_key req) e s, answer)
      end
  end.

(** ** The service *)

Record PolicyEvaluateResponse := mkResponse {
  er_decision_id : string;
  er_decision : PolicyDecision;
  er_policy_version : string;
  er_constraints : payload;
  er_expires_at : Z;
}.

Record PolicyValidateDecisionRequest := mkValidate {
  vd_context : InternalRequestContext;
  vd_decision_id : string;
  vd_action : string;
  vd_resource : string;
}.

Record PolicyValidateDecisionResponse := mkDecisionValidation {
  dv_valid : bool;
  dv_decision : PolicyDecision;
  dv_policy_version : string;
  dv_constraints : payload;
  dv_expires_at : Z;
}.

(** The protocol [PolicyStateStore], over a state of its own. *)
Record PolicyStateStore (St : Type) := mkPolicyStore {
  ps_ensure_active_version : string → St → St * res bool;
  ps_record_decision : PolicyEvaluateRequest → PolicyEvaluateResponse → St → St * res unit;
  ps_command_approval : ApprovalCommandRequest → St → St * res ApprovalValidationResponse;
  ps_validate_decision : PolicyValidateDecisionRequest → St → St * res PolicyValidateDecisionResponse;
}.
Arguments ps_ensure_active_version {St}.
Arguments ps_record_decision {St}.
Arguments ps_command_approval {St}.
Arguments ps_validate_decision {St}.

Section service.
Context {St : Type} (version : string) (store : option (PolicyStateStore St))
        (governance : option ProductionPolicy).
(** The mode resolver, if one is configured. *)
Context (mode_resolver : option (PolicyEvaluateRequest → PolicyDecision → string → World →
                                 World * res (PolicyDecision * payload))).

Record PolicyService := mkPolicyService {
  sv_approvals : Approvals;
  sv_decisions : list (string * (PolicyEvaluateRequest * PolicyEvaluateResponse));
  sv_store : St;
  sv_world : World;
}.

(** The capability of a request: of its fields the engine reads the permission. *)
Definition request_permission (attributes : payload) : res ToolPermission :=
  permission ← permission_of (py_str (pgetd "permission" (JStr "read-only") attributes));
  _ ← risk_of (py_str (pgetd "risk_level" (JStr "low") attributes));
  Ok permission.

Definition for_review (req : PolicyEvaluateRequest) : bool :=
  String.eqb (ic_service_identity (pe_context req)) "model-gateway"
  && is_lit (pgetn "purpose" (pe_attributes req)) "approval_review".

(** The decision of [evaluate]. *)
Definition decide_request (req : PolicyEvaluateRequest) (w : World) : World * res (PolicyDecision * payload) :=
  match request_permission (pe_attributes req) with
  | Raise c m => (w, Raise c m)
  | Ok permission =>
      let decision := engine_evaluate permission in
      let '(w, r) := match mode_resolver with
                     | Some resolver => if negb (for_review req) then resolver req decision version w
                                        else (w, Ok (decision, []))
                     | None => (w, Ok (decision, []))
                     end in
      (w, '(decision, constraints) ← r;
          match governance with
          | Some policy => production_govern policy req decision constraints
          | None => Ok (decision, constraints)
          end)
  end.

Definition evaluate (uuid : string) (now : Z) (req : PolicyEvaluateRequest) (s : PolicyService)
    : PolicyService * res PolicyEvaluateResponse :=
  let '(st, active) := match store with
                       | Some store => ps_ensure_active_version store version (sv_store s)
                       | None => (sv_store s, Ok true)
                       end in
  let s := mkPolicyService (sv_approvals s) (sv_decisions s) st (sv_world s) in
  match active with
  | Raise c m => (s, Raise c m)
  | Ok false => (s, Raise VersionConflictError "configured policy version does not match the active bundle")
  | Ok true =>
      let '(w, decided) := decide_request req (sv_world s) in
      let s := mkPolicyService (sv_approvals s) (sv_decisions s) (sv_store s) w in
      match decided with
      | Raise c m => (s, Raise c m)
      | Ok (decision, constraints) =>
          let response := mkResponse uuid decision version constraints (now + 5 * minute) in
          match store with
          | Some store =>
              let '(st, r) := ps_record_decision store req response (sv_store s) in
              (mkPolicyService (sv_approvals s) (sv_decisions s) st (sv_world s), _ ← r; Ok response)
          | None =>
              (mkPolicyService (sv_approvals s) (dset uuid (req, response) (sv_decisions s)) (sv_store s)
                 (sv_world s), Ok response)
          end
      end
  end.

Definition permits (d : PolicyDecision) : bool :=
  bool_decide (d = Allow) || bool_decide (d = AllowWithConstraints).

Definition validate_decision (now : Z) (req : PolicyValidateDecisionRequest) (s : PolicyService)
    : PolicyService * res PolicyValidateDecisionResponse :=
  match store with
  | Some store =>
      let '(st, r) := ps_validate_decision store req (sv_store s) in
      (mkPolicyService (sv_approvals s) (sv_decisions s) st (sv_world s), r)
  | None =>
      (s, Ok match dget (vd_decision_id req) (sv_decisions s) with
             | None => mkDecisionValidation false Deny version [] now
             | Some (original, response) =>
                 let valid := String.eqb (ic_tenant_id (pe_context original)) (ic_tenant_id (vd_context req))
                   && String.eqb (pe_action original) (vd_action req)
                   && String.eqb (pe_resource original) (vd_resource req)
                   && (now <? er_expires_at response) && permits (er_decision response) in
                 mkDecisionValidation valid (if valid then er_decision response else Deny)
                   (er_policy_version response) (if valid then er_constraints response else [])
                   (er_expires_at response)
             end)
  end.

Definition service_approval (now : Z) (req : ApprovalCommandRequest) (s : PolicyService)
    : PolicyService * res ApprovalValidationResponse :=
  match store with
  | Some store =>
      if String.eqb (ac_operation req) "record_human_response"
         && negb (String.eqb (ic_service_identity (ac_context req)) "task-api")
      then (s, Ok (invalid_response "forbidden"))
      else
      let '(st, r) := ps_command_approval store req (sv_store s) in
      (mkPolicyService (sv_approvals s) (sv_decisions s) st (sv_world s), r)
  | None =>
      let '(approvals, answer) := approval_command now req (sv_approvals s) in
      (mkPolicyService approvals (sv_decisions s) (sv_store s) (sv_world s), Ok answer)
  end.
End service.

(** ** The approvals as a state machine *)

Definition run_approvals (history : list (Z * ApprovalCommandRequest)) : Approvals :=
  fold_left (λ s c, (approval_command c.1 c.2 s).1) history [].

Lemma run_approvals_snoc history c :
  run_approvals (history ++ [c]) = (approval_command c.1 c.2 (run_approvals history)).1.
Proof. unfold run_approvals. by rewrite fold_left_app. Qed.

(** The human's approval of the request [q], which expires at [x]. *)
Definition approves (q : ApprovalCommandRequest) (x : Z) (c : Z * ApprovalCommandRequest) : Prop :=
  ac_operation c.2 = "record_human_response"
  ∧ ic_service_identity (ac_context c.2) = "task-api" ∧ ac_decision c.2 = Some "approve"
  ∧ entry_key c.2 = entry_key q ∧ same_approval_scope q c.2 = true ∧ c.1 < x.

(** What the history says of an entry: the request it was created by and, once it is
    approved, the response that approved it. *)
Definition entry_history (history : list (Z * ApprovalCommandRequest)) (key : string * string) (e : ApprovalEntry)
    : Prop :=
  ∃ i t0 x, history !! i = Some (t0, ae_request e) ∧ ac_operation (ae_request e) = "request"
    ∧ entry_key (ae_request e) = key ∧ ac_expires_at (ae_request e) = Some x ∧ t0 < x
    ∧ ae_request_digest e = command_digest (ae_request e) x
    ∧ (ae_status e = "approved" → ∃ j c, (i < j)%nat ∧ history !! j = Some c ∧ approves (ae_request e) x c).

Lemma entry_history_snoc history key e c : entry_history history key e → entry_history (history ++ [c]) key e.
Proof.
  intros (i & t0 & x & H1 & H2 & H3 & H4 & H5 & H6 & H7). exists i, t0, x.
  split_and!; [by apply lookup_app_l_Some|done..|]. intros Hs. destruct (H7 Hs) as (j & d & Hij & Hj & Hd).
  exists j, d. split_and!; [done|by apply lookup_app_l_Some|done].
Qed.

(** The outcomes of a transition: the request stays, and the status changes at most
    from [waiting]; to [approved] only by a timely human response. *)
Lemma approval_transition_spec now x req e e' answer :
  approval_transition now x req e = (e', answer) →
  ae_request e' = ae_request e ∧ ae_request_digest e' = ae_request_digest e
  ∧ (e' = e ∨ ae_status e = "waiting" ∧
       (ae_status e' ∈ ["rejected"; "cancelled"; "expired"]
        ∨ ae_status e' = "approved" ∧ ac_operation req = "record_human_response"
          ∧ ac_decision req = Some "approve" ∧ now < x)).
Proof.
  unfold approval_transition. intros Ht.
  destruct (String.eqb_spec (ac_operation req) "record_human_response") as [Hop|].
  - destruct (ac_decision req) as [d|]; [|injection Ht as <- <-; by split_and!; [| |left]].
    destruct (negb (str_in _ _)) eqn:Ein; [injection Ht as <- <-; by split_and!; [| |left]|].
    destruct (String.eqb_spec (ae_status e) "waiting") as [Hw|]; cbn [andb negb] in Ht.
    + destruct (Z.leb_spec x now); [injection Ht as <- <-; cbn; split_and!; [done|done|right; split; [done|left; set_solver]]|].
      destruct (String.eqb (ae_status e) _); [injection Ht as <- <-; by split_and!; [| |left]|].
      injection Ht as <- <-. cbn. split_and!; [done|done|]. right. split; [done|].
      apply negb_false_iff, str_in_spec in Ein. destruct (String.eqb_spec d "approve") as [->|]; [by right|left; set_solver].
    + destruct (String.eqb (ae_status e) _); injection Ht as <- <-; by split_and!; [| |left].
  - destruct (String.eqb_spec (ae_status e) "waiting") as [Hw|]; cbn [andb negb] in Ht;
      repeat case_match; injection Ht as <- <-; cbn; split_and!; try done; auto; right; split; set_solver.
Qed.

Lemma run_approvals_history history key e :
  dget key (run_approvals history) = Some e → entry_history history key e.
Proof.
  revert key e. induction history as [|[now req] history IH] using rev_ind; intros key e; [done|].
  rewrite run_approvals_snoc. cbn [fst snd]. set (s := run_approvals history) in *.
  assert (dget key s = Some e → entry_history (history ++ [(now, req)]) key e) as Hkeep.
  { intros Hk. by apply entry_history_snoc, IH. }
  unfold approval_command. destruct (_ && _) eqn:Eid; [done|].
  destruct (String.eqb_spec (ac_operation req) "request") as [Hop|Hop].
  - unfold approval_requested. destruct (ac_expires_at req) as [x|] eqn:Ex; [|done].
    destruct (Z.leb_spec x now); [done|]. destruct (dget (entry_key req) s) as [e0|] eqn:E0; [by case_match|].
    cbn [fst]. rewrite dget_dset. case_decide as Hk; [|done]. intros [= <-]. cbn.
    exists (length history), now, x. split_and!; try done. apply list_lookup_middle. done.
  - destruct (dget (entry_key req) s) as [e0|] eqn:E0; [|done].
    destruct (negb (same_approval_scope _ _)) eqn:Esc; [done|]. destruct (ac_expires_at (ae_request e0)) as [x|] eqn:Ex; [|done].
    destruct (approval_transition now x req e0) as [e1 answer] eqn:Et. cbn [fst]. rewrite dget_dset.
    case_decide as Hk; [|done]. intros [= <-]. subst key.
    destruct (approval_transition_spec _ _ _ _ _ _ Et) as (Hr & Hd & Hcase).
    destruct (IH _ _ E0) as (i & t0 & x' & H1 & H2 & H3 & H4 & H5 & H6 & H7).
    assert (x' = x) as -> by congruence.
    destruct Hcase as [->|[Hw Hcase]]; [by apply entry_history_snoc, IH|].
    exists i, t0, x. rewrite Hr, Hd. split_and!; [by apply lookup_app_l_Some|done..|].
    intros Happ. rewrite Happ in Hcase. destruct Hcase as [Hin|(_ & Hop1 & Hdec & Hnow)]; [set_solver|].
    exists (length history), (now, req). split_and!; [by eapply lookup_lt_Some|by apply list_lookup_middle|].
    rewrite Hop1 in Eid. cbn in Eid. apply negb_false_iff in Eid as Eid'. apply negb_false_iff in Esc.
    split_and!; try done. by apply String.eqb_eq.
Qed.

(** An approval the service reports as valid was given: if, after any history of
    commands, a validation or a repeated request is answered as valid, the history holds
    the request of this approval (made before its expiry, which is still ahead), for
    the same scope, and after it the approving response of a human, through the task
    API, for the same scope and before the expiry. *)
Theorem valid_approval_was_given history now v answer s' :
  approval_command now v (run_approvals history) = (s', answer) → av_valid answer = true →
  ac_operation v = "validate" ∨ ac_operation v = "request" →
  ∃ i j t0 q x c, (i < j)%nat ∧ history !! i = Some (t0, q) ∧ history !! j = Some c
    ∧ ac_operation q = "request" ∧ entry_key q = entry_key v ∧ ac_expires_at q = Some x ∧ t0 < x ∧ now < x
    ∧ (ac_operation v = "validate" → same_approval_scope q v = true)
    ∧ (ac_operation v = "request" → ∃ y, ac_expires_at v = Some y ∧ command_digest q x = command_digest v y)
    ∧ approves q x c.
Proof.
  intros Hc Hv Hop.
  assert (∃ e x, dget (entry_key v) (run_approvals history) = Some e ∧ ae_status e = "approved"
    ∧ ac_expires_at (ae_request e) = Some x ∧ now < x
    ∧ (ac_operation v = "validate" → same_approval_scope (ae_request e) v = true)
    ∧ (ac_operation v = "request" → ∃ y, ac_expires_at v = Some y ∧ ae_request_digest e = command_digest v y))
    as (e & x & Hg & Hs & Hx & Hnow & Hscope & Hdig).
  { unfold approval_command in Hc. destruct Hop as [Hop|Hop]; rewrite Hop in *; cbn in Hc.
    - destruct (dget _ _) as [e|] eqn:Eg; [|by simplify_eq/=].
      destruct (negb (same_approval_scope _ _)) eqn:Esc; [by simplify_eq/=|]. apply negb_false_iff in Esc.
      destruct (ac_expires_at (ae_request e)) as [x|] eqn:Ex; [|by simplify_eq/=].
      destruct (approval_transition now x v e) as [e1 a] eqn:Et. injection Hc as _ ->.
      unfold approval_transition in Et. rewrite Hop in Et. cbn in Et. injection Et as _ <-. cbn in Hv.
      bool_props. exists e, x. split_and!; try done. destruct (_ && _); [by cbn in *|done].
    - unfold approval_requested in Hc. destruct (ac_expires_at v) as [y|] eqn:Ey; [|by simplify_eq/=].
      destruct (y <=? now); [by simplify_eq/=|]. destruct (dget _ _) as [e|] eqn:Eg; [|by simplify_eq/=].
      destruct (negb (String.eqb _ _)) eqn:Ed; [by simplify_eq/=|]. injection Hc as _ <-. cbn in Hv. bool_props.
      destruct (ac_expires_at (ae_request e)) as [x|] eqn:Ex; [|done]. bool_props.
      exists e, x. split_and!; try done. intros _. by exists y. }
  destruct (run_approvals_history _ _ _ Hg) as (i & t0 & x' & H1 & H2 & H3 & H4 & H5 & H6 & H7).
  assert (x' = x) as -> by congruence. destruct (H7 Hs) as (j & c & Hij & Hj & Hap).
  exists i, j, t0, (ae_request e), x, c. split_and!; try done. intros Ho. destruct (Hdig Ho) as (y & Hy & Hd).
  exists y. split; [done|]. congruence.
Qed.

(** An approval is settled once: the status of an entry that no longer waits is
    never changed by any command. *)
Theorem settled_approval_final history later key e :
  dget key (run_approvals history) = Some e → ae_status e ≠ "waiting" →
  ∃ e', dget key (run_approvals (history ++ later)) = Some e'
    ∧ ae_status e' = ae_status e ∧ ae_request e' = ae_request e.
Proof.
  intros Hk Hw. induction later as [|[now req] later IH] using rev_ind.
  { rewrite app_nil_r. by exists e. }
  destruct IH as (e1 & Hk1 & Hs1 & Hr1). rewrite app_assoc, run_approvals_snoc. cbn [fst snd].
  unfold approval_command. destruct (_ && _); [by exists e1|].
  destruct (String.eqb (ac_operation req) "request").
  - unfold approval_requested. repeat case_match; try (by exists e1). cbn [fst]. rewrite dget_dset_ne; [by exists e1|].
    intros ->. congruence.
  - destruct (dget (entry_key req) _) as [e0|] eqn:E0; [|by exists e1].
    destruct (negb _); [by exists e1|]. destruct (ac_expires_at _) as [x|]; [|by exists e1].
    destruct (approval_transition now x req e0) as [e2 a] eqn:Et. cbn [fst]. rewrite dget_dset.
    case_decide as Heq; [|by exists e1]. subst key. rewrite Hk1 in E0. injection E0 as ->.
    destruct (approval_transition_spec _ _ _ _ _ _ Et) as (Hr & _ & [->|[Hwait _]]); [by exists e0|congruence].
Qed.

(** ** What governance may grant *)

(** Constraints a governed model call carries. *)
Record model_governed (p : ProductionPolicy) (attributes governed : payload) : Prop := {
  mg_region : ∃ region, dget "data_region" governed = Some (JStr region) ∧ region ∈ pp_allowed_data_regions p;
  mg_tokens : ∃ n requested limit budget,
    dget "max_output_tokens" governed = Some (JInt n)
    ∧ py_int (pgetd "max_output_tokens" (JInt 8192) attributes) = Ok requested
    ∧ dget "max_output_tokens" (pp_runtime_budget p) = Some budget ∧ py_int budget = Ok limit
    ∧ n ≤ requested ∧ n ≤ limit;
  mg_provider : ∀ provider, pp_model_provider p = Some provider → provider ≠ EmptyString →
    dget "allowed_providers" governed = Some (JArr [JStr provider])
    ∧ ∃ requested, py_iter (pgetd "allowed_providers" (JArr []) attributes) = Ok requested
        ∧ (requested = [] ∨ provider ∈ map py_str requested);
  mg_model : ∀ name, pp_model_name p = Some name → name ≠ EmptyString →
    dget "preferred_model" governed = Some (JStr name)
    ∧ (truthy (pgetn "preferred_model" attributes) = false
       ∨ py_eq (pgetn "preferred_model" attributes) (JStr name) = true);
  mg_cost : ∀ c, dget "max_cost" (pp_runtime_budget p) = Some c → is_none c = false →
    ∃ f, py_float c = Ok f ∧ dget "run_max_cost" governed = Some (JFloat f);
}.

Definition model_keys : list string :=
  ["data_region"; "max_output_tokens"; "allowed_providers"; "preferred_model"; "run_max_cost"].

Lemma opt_truthy_Some s : s ≠ EmptyString → opt_truthy (Some s) = true.
Proof. destruct s; done. Qed.

Lemma dget_if_dset (b : bool) (k k' : string) (v : json) (d : payload) : k ≠ k' → dget k (if b then dset k' v d else d) = dget k d.
Proof. intros Hk. destruct b; [by apply dget_dset_ne|done]. Qed.

Lemma govern_model_spec p attributes constraints governed :
  govern_model p attributes constraints = Ok (Some governed) →
  model_governed p attributes governed ∧ ∀ k, k ∉ model_keys → dget k governed = dget k constraints.
Proof.
  unfold govern_model. intros Hg. cbv zeta in Hg.
  set (region := py_str (py_or _ _)) in *.
  destruct (str_in region _) eqn:Er; cbn [negb] in Hg; [|done]. apply str_in_spec in Er.
  apply res_bind_Ok in Hg as (providers & Hp & Hg).
  destruct (_ && _ && _) eqn:Eprov in Hg; [done|].
  destruct (_ && _ && _) eqn:Emodel in Hg; [done|].
  apply res_bind_Ok in Hg as (requested & Hreq & Hg). apply res_bind_Ok in Hg as (limit & Hlim & Hg).
  apply res_bind_Ok in Hlim as (budget & Hb & Hlim).
  set (base := dupdate constraints _) in *.
  set (g1 := if opt_truthy (pp_model_provider p) then _ else base) in *.
  set (g2 := if opt_truthy (pp_model_name p) then _ else g1) in *.
  assert (∀ k, k ≠ "allowed_providers" → dget k g1 = dget k base) as H1.
  { intros k Hk. by apply dget_if_dset. }
  assert (∀ k, k ≠ "preferred_model" → dget k g2 = dget k g1) as H2.
  { intros k Hk. by apply dget_if_dset. }
  assert (∀ k, k ≠ "run_max_cost" → dget k governed = dget k g2) as H3.
  { intros k Hk. destruct (is_none _); inv_res; [done|]. by apply dget_dset_ne. }
  assert (∀ k, k ∉ model_keys → dget k governed = dget k constraints) as Hother.
  { intros k Hk. unfold model_keys in Hk. rewrite H3, H2, H1 by set_solver. subst base. rewrite dget_dupdate.
    cbn [rev app dget]. rewrite !decide_False by set_solver. done. }
  assert (∀ k v, k ∈ ["data_region"; "max_output_tokens"] → dget k base = Some v → dget k governed = Some v) as Hbase.
  { intros k v Hk Hv. rewrite H3, H2, H1 by set_solver. done. }
  split; [|exact Hother]. split.
  - exists region. split; [|done]. apply Hbase; [set_solver|]. subst base. rewrite dget_dupdate. reflexivity.
  - exists (Z.min requested limit), requested, limit, budget. split_and!; [|done| |done|lia|lia].
    + apply Hbase; [set_solver|]. subst base. rewrite dget_dupdate. reflexivity.
    + unfold pget in Hb. by destruct (dget _ _); simplify_eq.
  - intros provider Hpp Hne. rewrite H3, H2 by done. subst g1. rewrite Hpp in *. rewrite opt_truthy_Some in * by done.
    split; [exact (dget_dset_eq _ _ _)|]. exists providers. split; [done|].
    destruct providers as [|v providers]; [by left|right]. cbn [map negb andb default] in Eprov.
    apply negb_false_iff in Eprov. by apply str_in_spec in Eprov.
  - intros name Hn Hne. rewrite H3 by done. subst g2. rewrite Hn in *. rewrite opt_truthy_Some in * by done.
    split; [exact (dget_dset_eq _ _ _)|]. cbn [andb jopt] in Emodel. apply andb_false_iff in Emodel as [Ht|Ht]; [by left|right].
    by apply negb_false_iff.
  - intros c Hc Hnone. assert (pgetn "max_cost" (pp_runtime_budget p) = c) as Hpc by (unfold pgetn; by rewrite Hc).
    rewrite Hpc, Hnone in Hg. inv_res.
    eexists. split; [done|]. exact (dget_dset_eq _ _ _).
Qed.

(** Constraints a governed artifact share carries. *)
Definition share_governed (p : ProductionPolicy) (attributes governed : payload) : Prop :=
  (∃ classification, dget "classification" governed = Some (JStr classification)
     ∧ classification ∈ pp_share_classifications p)
  ∧ (∃ audience, dget "audience" governed = Some (JStr audience) ∧ audience ≠ EmptyString)
  ∧ ∃ ttl requested, dget "ttl_seconds" governed = Some (JInt ttl)
      ∧ py_int (pgetd "ttl_seconds" (JInt 300) attributes) = Ok requested
      ∧ ttl ≤ requested ∧ ttl ≤ pp_share_max_ttl p.

Lemma govern_share_spec p attributes constraints governed :
  govern_share p attributes constraints = Ok (Some governed) →
  share_governed p attributes governed
  ∧ ∀ k, k ∉ ["audience"; "ttl_seconds"; "classification"] → dget k governed = dget k constraints.
Proof.
  unfold govern_share. intros Hg. cbv zeta in Hg.
  destruct (str_in _ _) eqn:Ec; cbn [negb] in Hg; [|done]. apply str_in_spec in Ec.
  destruct (String.eqb_spec (strip (py_str (pgetd "audience" (JStr EmptyString) attributes))) EmptyString); [done|].
  apply res_bind_Ok in Hg as (requested & Hr & Hg). inv_res. split.
  - unfold share_governed. split_and!.
    + eexists. split; [exact (dget_dset_eq _ _ _)|done].
    + eexists. rewrite !dget_dset_ne by done. split; [exact (dget_dset_eq _ _ _)|done].
    + eexists _, requested. rewrite dget_dset_ne by done. split_and!; [exact (dget_dset_eq _ _ _)|done|lia|lia].
  - intros k Hk. by rewrite !dget_dset_ne by set_solver.
Qed.

(** C38. Governance only narrows: it permits nothing the engine did not permit, an
    approval stays required, with the product's time limits and a quorum its distinct
    approvers can reach; a permitted model call carries an allowed region, the
    configured provider and model, and at most the tokens requested and budgeted; a
    permitted share an allowed classification, an audience and at most the maximal
    lifetime; and constraints it does not own are kept. *)
Theorem governance_narrows p0 p request decision constraints decision' governed :
  production_init p0 = Ok p →
  production_govern p request decision constraints = Ok (decision', governed) →
  (permits decision' = true → permits decision = true)
  ∧ (decision = RequireApproval → decision' = RequireApproval
     ∧ ∃ ttl escalation, dget "approval_ttl_seconds" governed = Some (JInt ttl)
         ∧ dget "escalation_after_seconds" governed = Some (JInt escalation) ∧ escalation < ttl
         ∧ (pp_approvers p ≠ [] → ∃ n, dget "required_approvals" governed = Some (JInt n)
              ∧ n ≤ Z.of_nat (length (fromkeys (pp_approvers p)))))
  ∧ (permits decision' = true → pe_action request = "model.generate" →
       model_governed p (pe_attributes request) governed)
  ∧ (permits decision' = true → pe_action request = "artifact.share" →
       share_governed p (pe_attributes request) governed)
  ∧ (permits decision' = true → pe_action request = "task.create" →
       dget "runtime_budget" governed = Some (JObj (pp_runtime_budget p)))
  ∧ (permits decision' = true → ∀ k,
       k ∉ model_keys → k ∉ ["audience"; "ttl_seconds"; "classification"; "runtime_budget"] →
       dget k governed = dget k constraints).
Proof.
  intros Hinit Hg. unfold production_govern in Hg. case_bool_decide as Hra.
  { assert (governed = govern_approval p constraints) as -> by congruence. assert (decision' = decision) as -> by congruence.
    clear Hg. subst decision. split_and!; try done. intros _. split; [done|].
    unfold production_init in Hinit. split_guards. exists (pp_ttl_seconds p), (pp_escalation_after_seconds p).
    unfold govern_approval. cbv zeta. destruct (pp_approvers p) as [|a l] eqn:Ea.
    - rewrite !dget_dupdate. bool_props. by split_and!.
    - rewrite !dget_dupdate. bool_props. split_and!; [done|done|done|].
      intros _. eexists. split; [reflexivity|lia]. }
  destruct (negb _) eqn:Ep.
  { injection Hg as <- <-. assert (permits decision = false) as -> by (unfold permits; by apply negb_true_iff). done. }
  assert (permits decision = true) as Hperm by (by apply negb_false_iff in Ep).
  apply res_bind_Ok in Hg as ([g|] & Hg & Hd); [|by simplify_eq/=].
  assert (governed = g) as -> by (destruct (negb (py_eq (JObj g) (JObj constraints))); congruence). clear Hd.
  split; [done|]. split; [done|].
  destruct (String.eqb_spec (pe_action request) "task.create") as [Ha|].
  { rewrite Ha. assert (g = dset "runtime_budget" (JObj (pp_runtime_budget p)) constraints) as -> by congruence.
    split_and!; try done; intros _.
    - intros _. exact (dget_dset_eq _ _ _).
    - intros k _ Hk. apply dget_dset_ne. set_solver. }
  destruct (String.eqb_spec (pe_action request) "model.generate") as [Ha|].
  { rewrite Ha. apply govern_model_spec in Hg as [Hm Hk]. split_and!; try done. auto. }
  destruct (String.eqb_spec (pe_action request) "artifact.share") as [Ha|].
  { rewrite Ha. apply govern_share_spec in Hg as [Hm Hk]. split_and!; try done. intros _ k _ Hn. apply Hk. set_solver. }
  assert (g = constraints) as -> by congruence. by split_and!.
Qed.

(** ** Decisions of the service *)

Lemma production_govern_permits p req d c d' g :
  production_govern p req d c = Ok (d', g) → permits d' = true → permits d = true.
Proof.
  unfold production_govern. case_bool_decide; [by intros [= <- _]|].
  destruct (negb _) eqn:Ep; [by intros [= <- _]|]. intros _ _. by apply negb_false_iff in Ep.
Qed.

Section authority.
Context `{PydanticInt} (env : nat → list StoreOp) (su : nat → Supply).
Context (reviewer : option (PolicyEvaluateRequest → string → string → json → res ReviewVerdict)).
Context (review_timeout : Z) (clock : nat → Z).
Context (home : string → string).
Context (Henv : ∀ n, Forall mode_op (env n)) (Hplaced : ∀ n, Forall (stored_at_home home) (env n)).

(** C21. What needs an approval is permitted only by the user's mode: whenever the
    service permits a request for a capability that the engine wants approved (a write
    with approval or a destructive one), with or without product constraints, a mode
    resolver is configured, and the mode of the request's current run authorises it by a
    fact stored in the request's own Session that carries the digest of this very action
    (with its tenant, Session, run, mode and policy version): the resolution of full
    access, or a completed automatic review that approved it and has not expired.
    Without product constraints that fact is also the evidence the decision returns.
    A digest is assumed to belong to one Session ([stored_at_home], [request_placed]), which
    fails only if SHA-256 collides. *)
Theorem approval_needs_authority version governance (configured : bool) req permission ops w w' d c :
  Forall mode_op ops → Forall (stored_at_home home) ops → request_placed home req version → wd_store w = run_ops ops →
  request_permission (pe_attributes req) = Ok permission →
  permission ∈ [WriteWithApproval; DestructiveAdmin] →
  decide_request version governance
    (if configured then Some (resolve env su reviewer review_timeout clock) else None) req w = (w', Ok (d, c)) →
  permits d = true →
  configured = true ∧ for_review req = false
  ∧ ∃ ev, mode_authority env clock req version w w' ev ∧ (governance = None → c = ev).
Proof.
  intros Hops Hpl Hreq Hw Hperm Hneeds Hd Hp. unfold decide_request in Hd. rewrite Hperm in Hd.
  assert (engine_evaluate permission = RequireApproval) as Hengine.
  { apply elem_of_cons in Hneeds as [->|Hn]; [done|]. by apply list_elem_of_singleton in Hn as ->. }
  rewrite Hengine in Hd.
  assert (∀ w1 (r : res (PolicyDecision * payload)),
    (w1, '(decision, constraints) ← r; match governance with
                                       | Some policy => production_govern policy req decision constraints
                                       | None => Ok (decision, constraints) end) = (w', Ok (d, c)) →
    w1 = w' ∧ ∃ d0 c0, r = Ok (d0, c0) ∧ permits d0 = true ∧ (governance = None → c = c0)) as Hgov.
  { intros w1 r Hr. injection Hr as <- Hr. split; [done|]. apply res_bind_Ok in Hr as ([d0 c0] & -> & Hr).
    exists d0, c0. split; [done|]. destruct governance as [policy|]; [|by injection Hr as -> ->].
    split; [by eapply production_govern_permits|done]. }
  destruct configured; [|apply Hgov in Hd as (_ & d0 & c0 & Hr & Hp0 & _); by simplify_eq/=].
  destruct (for_review req); cbn [negb] in Hd; [apply Hgov in Hd as (_ & d0 & c0 & Hr & Hp0 & _); by simplify_eq/=|].
  destruct (resolve _ _ _ _ _ _ _ _ _) as [w1 r] eqn:Er. apply Hgov in Hd as (-> & d0 & c0 & -> & Hp0 & Hc).
  split; [done|]. split; [done|].
  destruct (resolve_decides _ _ _ _ _ _ _ _ _ _ _ Er) as [->| ->]; [|done].
  destruct (resolve_allow _ _ _ _ _ _ Henv Hplaced _ _ _ _ _ _ _ Hops Hpl Hreq Hw Er) as [[Hno _]|[_ Hauth]]; [done|by exists c0].
Qed.
End authority.

(** ** Witnesses *)

Module PolicyExamples.
#[local] Existing Instance strict_pydantic.
Import ApprovalModeExamples.

Definition policy : ProductionPolicy :=
  mkProduction [("max_output_tokens", JInt 4096)] (Some "prov") (Some "model") "eu" ["eu"] 600 ["internal"]
    ["alice"; "bob"] 2 3600 900.
Definition model_call : PolicyEvaluateRequest :=
  mkEvaluate None None (mkInternal "t" "agent-runtime" "q" "corr" "cause" None) "user" "model.generate" "m" "digest"
    None [("max_output_tokens", JInt 100000)].
Definition model_constraints : payload :=
  match production_govern policy model_call Allow [] with Ok (_, g) => g | Raise _ _ => [] end.

Lemma governance_narrows_witness : model_governed policy (pe_attributes model_call) model_constraints.
Proof.
  exact (proj1 (proj2 (proj2 (governance_narrows policy policy model_call Allow [] AllowWithConstraints
           model_constraints eq_refl eq_refl))) eq_refl eq_refl).
Defined.

(** A request, its approval by a human, and its validation. *)
Definition command (op identity : string) (decision : option string) : ApprovalCommandRequest :=
  mkApprovalCommand (mkInternal "t" identity "q" "corr" "cause" None) op "a1" "s" "r1" "d" "v1" decision None None
    (if String.eqb op "request" then Some 100 else None).
Definition history : list (Z * ApprovalCommandRequest) :=
  [(1, command "request" "action-hands" None); (2, command "record_human_response" "task-api" (Some "approve"))].
Definition check : ApprovalCommandRequest := command "validate" "action-hands" None.
Notation checked := (approval_command 50 check (run_approvals history)).

Lemma checked_ok : av_valid checked.2 = true.
Proof. vm_compute. reflexivity. Qed.
Lemma checked_pair : checked = (checked.1, checked.2).
Proof. apply surjective_pairing. Qed.

Lemma valid_approval_was_given_witness :
  ∃ q x c, ac_operation q = "request" ∧ same_approval_scope q check = true ∧ approves q x c ∧ 50 < x.
Proof.
  destruct (valid_approval_was_given history 50 check checked.2 checked.1 checked_pair checked_ok
              (or_introl eq_refl)) as (i & j & t0 & q & x & c & _ & _ & _ & Hop & _ & _ & _ & Hx & Hs & _ & Ha).
  exists q, x, c. split; [exact Hop|]. split; [exact (Hs eq_refl)|]. split; [exact Ha|exact Hx].
Defined.

Definition approved_entry : ApprovalEntry :=
  match dget ("t", "a1") (run_approvals history) with Some e => e | None => mkEntry check EmptyString EmptyString None end.
Lemma approved_ok : dget ("t", "a1") (run_approvals history) = Some approved_entry.
Proof. vm_compute. reflexivity. Qed.
Lemma approved_settled : ae_status approved_entry ≠ "waiting".
Proof. vm_compute. discriminate. Qed.

(** The expiry of an approved entry and a late cancellation change nothing. *)
Lemma settled_approval_final_witness :
  ∃ e, dget ("t", "a1") (run_approvals (history ++ [(200, command "expire" "policy" None);
                                                    (201, command "cancel" "policy" None)])) = Some e
       ∧ ae_status e = ae_status approved_entry.
Proof.
  destruct (settled_approval_final history [(200, command "expire" "policy" None); (201, command "cancel" "policy" None)]
              ("t", "a1") approved_entry approved_ok approved_settled) as (e & He & Hs & _).
  exists e. split; [exact He|exact Hs].
Defined.

(** A request for a write under full access. *)
Definition write_request : PolicyEvaluateRequest :=
  mkEvaluate (Some "s") (Some "r1") (mkInternal "t" "action-hands" "q" "corr" "cause" None) "user" "tool.call"
    "mail.send" "digest" None [("permission", JStr "write-with-approval")].
Notation granted_write :=
  (decide_request "v1" (Some policy) (Some (resolve (λ _, []) (su "b") None 20000000 (λ _, 0))) write_request
     (mkWorld (run_ops [create_op]) 0)).
Definition write_decision : PolicyDecision := match granted_write.2 with Ok (d, _) => d | Raise _ _ => Deny end.
Definition write_constraints : payload := match granted_write.2 with Ok (_, c) => c | Raise _ _ => [] end.

Lemma granted_write_ok : granted_write = (granted_write.1, Ok (write_decision, write_constraints)).
Proof. vm_compute. reflexivity. Qed.
Lemma write_permitted : permits write_decision = true.
Proof. vm_compute. reflexivity. Qed.
Lemma write_needs : WriteWithApproval ∈ [WriteWithApproval; DestructiveAdmin].
Proof. by left. Qed.

Definition at_home (digest : string) : string := "s".
Lemma create_op_placed : Forall (stored_at_home at_home) [create_op].
Proof. constructor; [|constructor]. intros req fact d v. destruct fact; discriminate. Qed.
Lemma quiet_placed : ∀ n : nat, Forall (stored_at_home at_home) ((λ _, []) n).
Proof. constructor. Qed.
Lemma write_placed : request_placed at_home write_request "v1".
Proof. intros sid run approval [= <-] _. reflexivity. Qed.

Lemma approval_needs_authority_witness :
  ∃ ev, mode_authority (λ _, []) (λ _, 0) write_request "v1" (mkWorld (run_ops [create_op]) 0) granted_write.1 ev
    ∧ (Some policy = None → write_constraints = ev).
Proof.
  exact (proj2 (proj2 (approval_needs_authority (λ _, []) (su "b") None 20000000 (λ _, 0) at_home quiet_ok quiet_placed "v1"
    (Some policy) true write_request WriteWithApproval [create_op] (mkWorld (run_ops [create_op]) 0) granted_write.1
    write_decision write_constraints create_op_ok create_op_placed write_placed eq_refl eq_refl write_needs granted_write_ok
    write_permitted))).
Defined.
End PolicyExamples.
