(* ===== verification/InvocationStore.v ===== *)
(** * Tool invocations ([infrastructure/persistence/postgres_invocation_store.py])

    The table of tool invocations shared by the replicas that execute tools: one row
    per (tenant, invocation) and per (tenant, idempotency key), claimed by a replica
    under a token with an expiry.  Each SQL statement, or transaction, is a function of
    the table and of the time of the transaction; the follow-up that copies a status to
    the attempt row is part of its operation, since only [get_status] reads it.
    [jsonb] is the JSON value stored.  A query without [ORDER BY] that matches several
    rows returns one of them: [pick]. *)

From S2P Require Import Prelude PyValue Digest Approval.
Local Open Scope Z_scope.

(** ** Results ([contracts/tools.py]) *)

Inductive ToolResultStatus := TSuccess | TError | TDenied | TTimeout | TCancelled | TUnknown.
#[global] Instance ToolResultStatus_eq_dec : EqDecision ToolResultStatus.
Proof. solve_decision. Defined.

Definition result_status_value (s : ToolResultStatus) : string :=
  match s with
  | TSuccess => "success" | TError => "error" | TDenied => "denied" | TTimeout => "timeout"
  | TCancelled => "cancelled" | TUnknown => "unknown"
  end.
Definition all_result_statuses : list ToolResultStatus :=
  [TSuccess; TError; TDenied; TTimeout; TCancelled; TUnknown].
Definition result_status_of (s : string) : res ToolResultStatus :=
  match find (λ r, String.eqb (result_status_value r) s) all_result_statuses with
  | Some r => Ok r
  | None => Raise PyValueError ("'" +:+ s +:+ "' is not a valid ToolResultStatus")
  end.

(** The fields hold whatever was stored: dataclasses do not check types. *)
Record ArtifactRef := mkArtifactRef {
  af_artifact_id : json;
  af_version : json;
  af_content_hash : json;
  af_media_type : json;
  af_size : json;
}.

Definition artifact_as_dict (a : ArtifactRef) : payload :=
  [("artifact_id", af_artifact_id a); ("version", af_version a); ("content_hash", af_content_hash a);
   ("media_type", af_media_type a); ("size", af_size a)].

(** The constructor of [ArtifactRef] applied to the keys of a dictionary. *)
Definition artifact_keys : list string := ["artifact_id"; "version"; "content_hash"; "media_type"; "size"].
Definition artifact_of (d : payload) : res ArtifactRef :=
  if negb (forallb (λ k, dmem k d) artifact_keys && forallb (λ k, str_in k artifact_keys) (dkeys d))
  then Raise PyTypeError "ArtifactRef.__init__"
  else Ok (mkArtifactRef (pgetn "artifact_id" d) (pgetn "version" d) (pgetn "content_hash" d)
             (pgetn "media_type" d) (pgetn "size" d)).

Inductive ResultContent := RValue (v : json) | RArtifact (a : ArtifactRef).

Record ToolResult := mkToolResult {
  tr_status : ToolResultStatus;
  tr_content : ResultContent;
  tr_summary : string;
  tr_metadata : payload;
  tr_error_code : json;
  tr_side_effect_status : string;
}.

Definition result_as_dict (r : ToolResult) : payload :=
  [("status", JStr (result_status_value (tr_status r)));
   ("content", match tr_content r with
               | RArtifact a => JObj [("artifact_ref", JObj (artifact_as_dict a))]
               | RValue v => v
               end);
   ("summary", JStr (tr_summary r)); ("metadata", JObj (tr_metadata r)); ("error_code", tr_error_code r);
   ("side_effect_status", JStr (tr_side_effect_status r))].

(** [_tool_result] *)
Definition tool_result_of (p : payload) : res ToolResult :=
  content ← match pgetn "content" p with
            | JObj d => match dget "artifact_ref" d with
                        | Some a => d ← py_dict a; RArtifact <$> artifact_of d
                        | None => Ok (RValue (JObj d))
                        end
            | v => Ok (RValue v)
            end;
  status ← (v ← pget "status" p; result_status_of (py_str v));
  metadata ← py_dict (pgetd "metadata" (JObj []) p);
  Ok (mkToolResult status content (py_str (pgetd "summary" (JStr EmptyString) p)) metadata
        (pgetn "error_code" p) (py_str (pgetd "side_effect_status" (JStr "not_started") p))).

Definition recovery_result (side_effect_status : string) : ToolResult :=
  mkToolResult TUnknown (RValue JNull) "persisted invocation requires operator recovery" []
    (JStr "invocation_recovery_required") side_effect_status.
Definition in_progress_result (side_effect_status : string) : ToolResult :=
  mkToolResult TUnknown (RValue JNull) "tool invocation is owned by another Hands replica" []
    (JStr "invocation_in_progress") side_effect_status.

(** ** The tables *)

Record InvocationRow := mkRow {
  iv_tenant_id : string;
  iv_tool_invocation_id : string;
  iv_idempotency_key : string;
  iv_root_session_id : string;
  iv_session_id : string;
  iv_run_id : string;
  iv_argument_digest : string;
  iv_status : string;
  iv_result : option payload;
  iv_side_effect : string;
  iv_owner : option string;
  iv_claim_token : option string;
  iv_claim_expires : option Z;
  iv_cancel_requested : option Z;
}.
#[global] Instance InvocationRow_eta : Eta InvocationRow := λ r,
  mkRow (iv_tenant_id r) (iv_tool_invocation_id r) (iv_idempotency_key r) (iv_root_session_id r)
    (iv_session_id r) (iv_run_id r) (iv_argument_digest r) (iv_status r) (iv_result r) (iv_side_effect r)
    (iv_owner r) (iv_claim_token r) (iv_claim_expires r) (iv_cancel_requested r).

(** The first attempt of an invocation: its status and error code. *)
Record AttemptRow := mkAttemptRow {
  at_tenant_id : string;
  at_tool_invocation_id : string;
  at_status : string;
  at_error_code : json;
  at_completed_at : option Z;
}.

Record InvocationTables := mkTables { tb_rows : list InvocationRow; tb_attempts : list AttemptRow }.
Definition empty_tables : InvocationTables := mkTables [] [].

(** Which of several matching rows a query returns. *)
Class RowOrder := {
  pick : list InvocationRow → option InvocationRow;
  pick_in l r : pick l = Some r → r ∈ l;
  pick_some l : l ≠ [] → is_Some (pick l);
}.

(** [WHERE tenant_id=$1 AND idempotency_key=$2] *)
Definition by_key (i : ToolInvocation) (r : InvocationRow) : bool :=
  String.eqb (iv_tenant_id r) (ti_tenant_id i) && String.eqb (iv_idempotency_key r) (ti_idempotency_key i).
Definition by_id (tenant_id tool_invocation_id : string) (r : InvocationRow) : bool :=
  String.eqb (iv_tenant_id r) tenant_id && String.eqb (iv_tool_invocation_id r) tool_invocation_id.

Definition claim_active (now : Z) (r : InvocationRow) : bool :=
  match iv_claim_expires r with Some t => now <? t | None => false end.

(** [AND execution_claim_token=$3 AND execution_claim_expires_at > now()] *)
Definition claim_held (now : Z) (i : ToolInvocation) (token : string) (r : InvocationRow) : bool :=
  by_key i r && bool_decide (iv_claim_token r = Some token) && claim_active now r.

(** [UPDATE ... SET f WHERE p], with the number of rows. *)
Definition update_rows (p : InvocationRow → bool) (f : InvocationRow → InvocationRow) (t : InvocationTables)
    : InvocationTables * nat :=
  (mkTables (map (λ r, if p r then f r else r) (tb_rows t)) (tb_attempts t), length (List.filter p (tb_rows t))).

Definition terminal_attempt : list string := ["success"; "error"; "denied"; "timeout"; "cancelled"; "unknown"].

(** [_set_attempt_status]: the attempt of the invocation with the idempotency key. *)
Definition set_attempt_status (now : Z) (i : ToolInvocation) (status : string) (error_code : json)
    (t : InvocationTables) : InvocationTables :=
  let matches (a : AttemptRow) := existsb (λ r, by_key i r
    && by_id (at_tenant_id a) (at_tool_invocation_id a) r) (tb_rows t) in
  mkTables (tb_rows t)
    (map (λ a, if matches a
               then mkAttemptRow (at_tenant_id a) (at_tool_invocation_id a) status error_code
                      (if str_in status terminal_attempt then Some now else at_completed_at a)
               else a) (tb_attempts t)).

(** ** Operations *)

Record InvocationBegin := mkBegin {
  ib_acquired : bool;
  ib_conflict : bool;
  ib_claim_token : option string;
  ib_cached_result : option ToolResult;
}.

Definition acquired (token : string) : InvocationBegin := mkBegin true false (Some token) None.
Definition conflicting : InvocationBegin := mkBegin false true None None.
Definition cached (r : ToolResult) : InvocationBegin := mkBegin false false None (Some r).

Definition new_row (now : Z) (i : ToolInvocation) (digest owner token : string) (ttl : Z) : InvocationRow :=
  mkRow (ti_tenant_id i) (ti_tool_invocation_id i) (ti_idempotency_key i) (ti_root_session_id i)
    (ti_session_id i) (ti_run_id i) digest "accepted" None "not_started" (Some owner) (Some token)
    (Some (now + ttl)) None.

(** The stored result, or the recovery result. *)
Definition stored_or (r : InvocationRow) (default : ToolResult) : res InvocationBegin :=
  match iv_result r with
  | Some p => cached <$> tool_result_of p
  | None => Ok (cached default)
  end.

Definition recovered (r : InvocationRow) : InvocationRow :=
  r <| iv_status := "unknown" |> <| iv_result := Some (result_as_dict (recovery_result "unknown")) |>
    <| iv_side_effect := "unknown" |> <| iv_owner := None |> <| iv_claim_token := None |>
    <| iv_claim_expires := None |>.

Definition reclaimed (now : Z) (owner token : string) (ttl : Z) (r : InvocationRow) : InvocationRow :=
  r <| iv_status := "accepted" |> <| iv_result := None |> <| iv_owner := Some owner |>
    <| iv_claim_token := Some token |> <| iv_claim_expires := Some (now + ttl) |>
    <| iv_cancel_requested := None |>.

(** A [begin] that found the row [r]. *)
Definition begin_existing (now : Z) (i : ToolInvocation) (digest owner token : string) (ttl : Z)
    (r : InvocationRow) (t : InvocationTables) : InvocationTables * res InvocationBegin :=
  if negb (String.eqb (iv_idempotency_key r) (ti_idempotency_key i))
     || negb (String.eqb (iv_argument_digest r) digest)
  then (t, Ok conflicting)
  else if String.eqb (iv_status r) "waiting_approval" && match ti_approval_id i with None => true | _ => false end
  then (t, stored_or r (recovery_result "not_started"))
  else match iv_result r, str_in (iv_status r) ["accepted"; "executing"; "waiting_approval"] with
  | Some p, false => (t, cached <$> tool_result_of p)
  | _, _ =>
      if String.eqb (iv_status r) "executing" && negb (claim_active now r) then
        let t := (update_rows (by_key i) recovered t).1 in
        (set_attempt_status now i "unknown" (JStr "invocation_recovery_required") t,
         Ok (cached (recovery_result "unknown")))
      else if str_in (iv_status r) ["accepted"; "executing"] && claim_active now r
      then (t, Ok (cached (in_progress_result (iv_side_effect r))))
      else if negb (str_in (iv_status r) ["accepted"; "waiting_approval"])
      then (t, stored_or r (recovery_result (iv_side_effect r)))
      else ((update_rows (by_key i) (reclaimed now owner token ttl) t).1, Ok (acquired token))
  end.

Section operations.
Context `{RowOrder}.

Definition begin (now : Z) (i : ToolInvocation) (digest owner token : string) (ttl : Z) (t : InvocationTables)
    : InvocationTables * res InvocationBegin :=
  let same r := by_key i r || by_id (ti_tenant_id i) (ti_tool_invocation_id i) r in
  match List.filter same (tb_rows t) with
  | [] =>
      (mkTables (tb_rows t ++ [new_row now i digest owner token ttl])
         (tb_attempts t ++ [mkAttemptRow (ti_tenant_id i) (ti_tool_invocation_id i) "accepted" JNull None]),
       Ok (acquired token))
  | matches =>
      match pick matches with
      | None => (t, Raise PyAssertionError EmptyString)
      | Some r => begin_existing now i digest owner token ttl r t
      end
  end.
End operations.

(** A claimed update succeeds when it updated one row. *)
Definition claimed_update (now : Z) (i : ToolInvocation) (token : string) (f : InvocationRow → InvocationRow)
    (status : string) (error_code : json) (t : InvocationTables) : InvocationTables * bool :=
  let '(t, n) := update_rows (claim_held now i token) f t in
  if Nat.eqb n 1 then (set_attempt_status now i status error_code t, true) else (t, false).

Definition mark_executing (now : Z) (i : ToolInvocation) (token : string) : InvocationTables → InvocationTables * bool :=
  claimed_update now i token (λ r, r <| iv_status := "executing" |> <| iv_side_effect := "unknown" |>)
    "executing" JNull.

Definition wait_for_approval (now : Z) (i : ToolInvocation) (result : ToolResult) (token : string)
    : InvocationTables → InvocationTables * bool :=
  claimed_update now i token
    (λ r, r <| iv_status := "waiting_approval" |> <| iv_result := Some (result_as_dict result) |>
            <| iv_side_effect := "not_started" |> <| iv_owner := None |> <| iv_claim_token := None |>
            <| iv_claim_expires := None |>)
    "waiting_approval" (tr_error_code result).

Definition complete (now : Z) (i : ToolInvocation) (result : ToolResult) (token : string)
    : InvocationTables → InvocationTables * bool :=
  claimed_update now i token
    (λ r, r <| iv_status := result_status_value (tr_status result) |>
            <| iv_result := Some (result_as_dict result) |>
            <| iv_side_effect := tr_side_effect_status result |> <| iv_owner := None |>
            <| iv_claim_token := None |> <| iv_claim_expires := None |>)
    (result_status_value (tr_status result)) (tr_error_code result).

Definition renew (now : Z) (i : ToolInvocation) (owner token : string) (ttl : Z) (t : InvocationTables)
    : InvocationTables * bool :=
  let '(t, n) := update_rows
    (λ r, claim_held now i token r && bool_decide (iv_owner r = Some owner)
          && str_in (iv_status r) ["accepted"; "executing"])
    (λ r, r <| iv_claim_expires := Some (now + ttl) |>) t in
  (t, Nat.eqb n 1).

Definition cancelled_result : payload :=
  [("status", JStr "cancelled"); ("content", JNull); ("summary", JStr "tool invocation was cancelled");
   ("metadata", JObj []); ("error_code", JStr "tool_cancelled"); ("side_effect_status", JStr "not_started")].

Definition request_cancelled (now : Z) (r : InvocationRow) : InvocationRow :=
  let r' := r <| iv_cancel_requested := Some (default now (iv_cancel_requested r)) |> in
  if String.eqb (iv_status r) "waiting_approval"
  then r' <| iv_status := "cancelled" |> <| iv_result := Some cancelled_result |> else r'.

Definition request_cancel_invocation (now : Z) (tenant_id tool_invocation_id : string) (t : InvocationTables)
    : InvocationTables * bool :=
  let p r := by_id tenant_id tool_invocation_id r
             && str_in (iv_status r) ["accepted"; "executing"; "waiting_approval"] in
  match List.filter p (tb_rows t) with
  | [] => (t, false)
  | r :: _ =>
      let t := (update_rows p (request_cancelled now) t).1 in
      (if String.eqb (iv_status r) "waiting_approval"
       then mkTables (tb_rows t)
              (map (λ a, if String.eqb (at_tenant_id a) tenant_id
                            && String.eqb (at_tool_invocation_id a) tool_invocation_id
                         then mkAttemptRow tenant_id tool_invocation_id "cancelled" (JStr "tool_cancelled") (Some now)
                         else a) (tb_attempts t))
       else t, true)
  end.

Definition is_cancel_requested (i : ToolInvocation) (token : string) (t : InvocationTables) : bool :=
  match List.filter (λ r, by_key i r && bool_decide (iv_claim_token r = Some token)) (tb_rows t) with
  | r :: _ => match iv_cancel_requested r with Some _ => true | None => false end
  | [] => false
  end.

Record InvocationStatusRecord := mkStatusRecord {
  ir_status : string;
  ir_side_effect_status : string;
  ir_error_code : json;
  ir_cancel_requested : bool;
  ir_result : option ToolResult;
  ir_root_session_id : option string;
  ir_session_id : option string;
  ir_run_id : option string;
}.

Definition invocation_status (tenant_id tool_invocation_id : string) (t : InvocationTables)
    : res (option InvocationStatusRecord) :=
  match List.filter (by_id tenant_id tool_invocation_id) (tb_rows t) with
  | [] => Ok None
  | r :: _ =>
      result ← match iv_result r with Some p => Some <$> tool_result_of p | None => Ok None end;
      let error_code := match List.filter (λ a, String.eqb (at_tenant_id a) tenant_id
                                && String.eqb (at_tool_invocation_id a) tool_invocation_id) (tb_attempts t) with
                        | a :: _ => at_error_code a
                        | [] => JNull
                        end in
      Ok (Some (mkStatusRecord (iv_status r) (iv_side_effect r) error_code
                  (match iv_cancel_requested r with Some _ => true | None => false end) result
                  (Some (iv_root_session_id r)) (Some (iv_session_id r)) (Some (iv_run_id r))))
  end.

(** ** Histories of operations *)

Inductive InvocationOp :=
  | IBegin (now : Z) (i : ToolInvocation) (digest owner token : string) (ttl : Z)
  | IMark (now : Z) (i : ToolInvocation) (token : string)
  | IWait (now : Z) (i : ToolInvocation) (result : ToolResult) (token : string)
  | IComplete (now : Z) (i : ToolInvocation) (result : ToolResult) (token : string)
  | IRenew (now : Z) (i : ToolInvocation) (owner token : string) (ttl : Z)
  | ICancel (now : Z) (tenant_id tool_invocation_id : string).

Section histories.
Context `{RowOrder}.
Implicit Types (t : InvocationTables) (r : InvocationRow) (o : InvocationOp).

Definition invocation_step t o : InvocationTables :=
  match o with
  | IBegin now i digest owner token ttl => (begin now i digest owner token ttl t).1
  | IMark now i token => (mark_executing now i token t).1
  | IWait now i result token => (wait_for_approval now i result token t).1
  | IComplete now i result token => (complete now i result token t).1
  | IRenew now i owner token ttl => (renew now i owner token ttl t).1
  | ICancel now tenant id => (request_cancel_invocation now tenant id t).1
  end.
Definition invocation_run (ops : list InvocationOp) t : InvocationTables := fold_left invocation_step ops t.

(** What an operation does to a row. *)
Definition row_change o r r' : Prop :=
  match o with
  | IBegin now i digest owner token ttl => by_key i r = true ∧
      (iv_status r = "executing" ∧ r' = recovered r ∨
       (iv_status r = "accepted" ∨ iv_status r = "waiting_approval") ∧ r' = reclaimed now owner token ttl r)
  | IMark now i token => claim_held now i token r = true ∧
      r' = r <| iv_status := "executing" |> <| iv_side_effect := "unknown" |>
  | IWait now i result token => claim_held now i token r = true ∧
      r' = r <| iv_status := "waiting_approval" |> <| iv_result := Some (result_as_dict result) |>
             <| iv_side_effect := "not_started" |> <| iv_owner := None |> <| iv_claim_token := None |>
             <| iv_claim_expires := None |>
  | IComplete now i result token => claim_held now i token r = true ∧
      r' = r <| iv_status := result_status_value (tr_status result) |>
             <| iv_result := Some (result_as_dict result) |>
             <| iv_side_effect := tr_side_effect_status result |> <| iv_owner := None |>
             <| iv_claim_token := None |> <| iv_claim_expires := None |>
  | IRenew now i owner token ttl => claim_held now i token r = true ∧
      str_in (iv_status r) ["accepted"; "executing"] = true ∧ r' = r <| iv_claim_expires := Some (now + ttl) |>
  | ICancel now tenant id => by_id tenant id r = true ∧
      str_in (iv_status r) ["accepted"; "executing"; "waiting_approval"] = true ∧ r' = request_cancelled now r
  end.

(** The columns of the two uniqueness constraints. *)
Definition row_key r : string * string := (iv_tenant_id r, iv_idempotency_key r).
Definition row_id r : string * string := (iv_tenant_id r, iv_tool_invocation_id r).

Definition tables_wf t : Prop := NoDup (map row_key (tb_rows t)) ∧ NoDup (map row_id (tb_rows t)).

Lemma by_key_spec i r : by_key i r = true ↔ row_key r = (ti_tenant_id i, ti_idempotency_key i).
Proof.
  unfold by_key, row_key. rewrite andb_true_iff, !String.eqb_eq. split; [intros [-> ->]; done|by intros [= -> ->]].
Qed.
Lemma by_id_spec tenant id r : by_id tenant id r = true ↔ row_id r = (tenant, id).
Proof.
  unfold by_id, row_id. rewrite andb_true_iff, !String.eqb_eq. split; [intros [-> ->]; done|by intros [= -> ->]].
Qed.
Lemma claimed_spec now i token r :
  claim_held now i token r = true → by_key i r = true ∧ iv_claim_token r = Some token.
Proof. unfold claim_held. intros; bool_props. done. Qed.

Lemma row_change_key o r r' : row_change o r r' → row_key r' = row_key r ∧ row_id r' = row_id r.
Proof.
  destruct o; cbn.
  1: by intros [_ [[_ ->]|[_ ->]]].
  1-4: intros H'; decompose [and] H'; by subst.
  intros (_ & _ & ->). unfold request_cancelled. by destruct (String.eqb _ _).
Qed.

(** Distinct rows have distinct keys. *)
Lemma key_row_unique t r1 r2 : tables_wf t → r1 ∈ tb_rows t → r2 ∈ tb_rows t → row_key r1 = row_key r2 → r1 = r2.
Proof.
  intros [Hnd _]. revert Hnd. generalize (tb_rows t) as l. induction l as [|r l IH]; cbn; [set_solver|].
  intros [Hr Hl]%NoDup_cons [->|H1]%elem_of_cons [->|H2]%elem_of_cons Hk; [done|..].
  - destruct Hr. rewrite Hk. by apply list_elem_of_fmap_2.
  - destruct Hr. rewrite <- Hk. by apply list_elem_of_fmap_2.
  - by apply IH.
Qed.

(** An operation changes rows in place, or appends one row with fresh keys. *)
Definition rows_step o (l l' : list InvocationRow) : Prop :=
  Forall2 (λ r r', r' = r ∨ row_change o r r') l l'.

Lemma rows_step_refl o l : rows_step o l l.
Proof. apply Forall2_same_length_lookup_2; [done|]. intros. left. congruence. Qed.

Lemma update_rows_step o p f l :
  (∀ r, r ∈ l → p r = true → row_change o r (f r)) → rows_step o l (map (λ r, if p r then f r else r) l).
Proof.
  induction l as [|r l IH]; intros Hp; cbn; constructor.
  - destruct (p r) eqn:E; [right; apply Hp; [left|done]|by left].
  - apply IH. intros. apply Hp; [by right|done].
Qed.

Lemma claimed_update_step o now i token f status code t :
  (∀ r, claim_held now i token r = true → row_change o r (f r)) →
  rows_step o (tb_rows t) (tb_rows (claimed_update now i token f status code t).1).
Proof.
  intros Hf. unfold claimed_update. cbn. destruct (Nat.eqb _ 1); cbn; apply update_rows_step; auto.
Qed.

Definition begin_row (o : InvocationOp) : option InvocationRow :=
  match o with
  | IBegin now i digest owner token ttl => Some (new_row now i digest owner token ttl)
  | _ => None
  end.

Lemma begin_step now i digest owner token ttl t : tables_wf t →
  let o := IBegin now i digest owner token ttl in
  rows_step o (tb_rows t) (tb_rows (invocation_step t o)) ∨
  (∃ r, begin_row o = Some r ∧ tb_rows (invocation_step t o) = tb_rows t ++ [r] ∧
        row_key r ∉ map row_key (tb_rows t) ∧ row_id r ∉ map row_id (tb_rows t)).
Proof.
  intros Hwf o. cbn [invocation_step o]. unfold begin.
  set (same := λ r, by_key i r || by_id (ti_tenant_id i) (ti_tool_invocation_id i) r).
  destruct (List.filter same (tb_rows t)) as [|r1 l1] eqn:Ef.
  - right. exists (new_row now i digest owner token ttl). split_and!; [done|done|..];
      intros (r & Hk & Hr)%list_elem_of_fmap; apply list_elem_of_In in Hr;
      (assert (In r (List.filter same (tb_rows t))) as Hin; [apply filter_In; split; [done|]|by rewrite Ef in Hin]);
      unfold same; apply orb_true_iff; [left; by apply by_key_spec|right; by apply by_id_spec].
  - left. destruct (pick (r1 :: l1)) as [r|] eqn:Ep; [|apply rows_step_refl].
    apply pick_in in Ep. rewrite <- Ef in Ep. apply list_elem_of_In, filter_In in Ep as [Hin%list_elem_of_In Hsame].
    assert (iv_idempotency_key r = ti_idempotency_key i → by_key i r = true) as Hkey.
    { intros Hk. unfold same in Hsame. apply orb_true_iff in Hsame as [?|Hid]; [done|].
      apply by_id_spec in Hid as [= ??]. apply by_key_spec. unfold row_key. congruence. }
    unfold begin_existing. destruct (negb (String.eqb (iv_idempotency_key r) _)) eqn:Ek; [apply rows_step_refl|].
    bool_props. specialize (Hkey Ek).
    assert (∀ r', r' ∈ tb_rows t → by_key i r' = true → r' = r) as Huniq.
    { intros r' Hr' Hk'. apply by_key_spec in Hk', Hkey. eapply key_row_unique; eauto. congruence. }
    repeat case_match; try apply rows_step_refl; bool_props; cbn; apply update_rows_step;
      intros r' Hr' Hk'; pose proof (Huniq r' Hr' Hk') as ->; cbn; (split; [done|]);
      first [by left|right; split; [|done]];
      repeat match goal with H : str_in _ _ = true |- _ => apply str_in_spec in H end; set_solver.
Qed.

Lemma invocation_rows o t : tables_wf t →
  rows_step o (tb_rows t) (tb_rows (invocation_step t o)) ∨
  (∃ r, begin_row o = Some r ∧ tb_rows (invocation_step t o) = tb_rows t ++ [r] ∧
        row_key r ∉ map row_key (tb_rows t) ∧ row_id r ∉ map row_id (tb_rows t)).
Proof.
  intros Hwf. destruct o; [by apply begin_step|left..]; cbn [invocation_step].
  1-3: apply claimed_update_step; done.
  - unfold renew. cbn. apply update_rows_step. cbn. intros r _ Hr. bool_props. done.
  - unfold request_cancel_invocation. destruct (List.filter _ _) as [|r l] eqn:E; [apply rows_step_refl|].
    cbn [fst]. destruct (String.eqb (iv_status r) "waiting_approval"); cbn; apply update_rows_step; cbn;
      intros r' _ Hr'; by bool_props.
Qed.

Lemma rows_step_keys o l l' : rows_step o l l' → map row_key l' = map row_key l ∧ map row_id l' = map row_id l.
Proof.
  induction 1 as [|r r' l l' Hr _ [IHk IHi]]; [done|]. cbn. rewrite IHk, IHi.
  destruct Hr as [->|[-> ->]%row_change_key]; done.
Qed.

Lemma invocation_step_wf o t : tables_wf t → tables_wf (invocation_step t o).
Proof.
  intros Hwf. unfold tables_wf.
  destruct (invocation_rows o t Hwf) as [[-> ->]%rows_step_keys|(r & _ & -> & Hk & Hi)]; [done|].
  rewrite !map_app. destruct Hwf. split; apply NoDup_app; split_and!; try done; try apply NoDup_singleton;
    by intros x Hx ->%list_elem_of_singleton.
Qed.
Lemma invocation_run_wf ops t : tables_wf t → tables_wf (invocation_run ops t).
Proof. apply fold_left_inv. intros. by apply invocation_step_wf. Qed.
Lemma reachable_wf ops : tables_wf (invocation_run ops empty_tables).
Proof. apply invocation_run_wf. split; apply NoDup_nil_2. Qed.

(** An invariant of the rows with a key that is in the table. *)
Lemma rows_invariant (P : InvocationRow → Prop) key ops t : tables_wf t →
  (∀ o r r', o ∈ ops → row_key r = key → P r → row_change o r r' → P r') →
  key ∈ map row_key (tb_rows t) → (∀ r, r ∈ tb_rows t → row_key r = key → P r) →
  key ∈ map row_key (tb_rows (invocation_run ops t)) ∧
  (∀ r, r ∈ tb_rows (invocation_run ops t) → row_key r = key → P r).
Proof.
  intros Hwf Hstep Hkey HP. unfold invocation_run.
  apply (fold_left_inv (λ t, tables_wf t ∧ key ∈ map row_key (tb_rows t) ∧
    ∀ r, r ∈ tb_rows t → row_key r = key → P r)); [|done].
  clear t Hwf Hkey HP. intros t o Ho (Hwf & Hkey & HP). split; [by apply invocation_step_wf|].
  destruct (invocation_rows o t Hwf) as [Hr|(r & _ & -> & Hk & _)].
  - destruct (rows_step_keys o _ _ Hr) as [-> _]. split; [done|]. intros r' Hr' Hk'.
    apply list_elem_of_lookup in Hr' as [n Hn]. destruct (Forall2_lookup_r _ _ _ _ _ Hr Hn) as (r & Hl & Hc).
    apply list_elem_of_lookup_2 in Hl. destruct Hc as [->|Hc]; [by apply HP|].
    destruct (row_change_key _ _ _ Hc) as [Hck _]. eapply (Hstep o r r'); [done|congruence|apply HP; [done|congruence]|done].
  - rewrite map_app. split; [apply elem_of_app; by left|].
    intros r' [Hr'| ->%list_elem_of_singleton]%elem_of_app Hk'; [by apply HP|]. destruct Hk. by rewrite Hk'.
Qed.

(** A row without further transitions: its result is stored and nobody holds it. *)
Definition settled_row r : Prop :=
  str_in (iv_status r) ["accepted"; "executing"; "waiting_approval"] = false ∧ is_Some (iv_result r) ∧
  iv_claim_token r = None.

Lemma settled_row_final o r r' : settled_row r → row_change o r r' → False.
Proof.
  intros (Hs & _ & Ht). destruct o; cbn [row_change].
  1: intros [_ [[E _]|[[E|E] _]]]; by rewrite E in Hs.
  1-4: intros [[_ Hc]%claimed_spec _]; congruence.
  intros (_ & E & _). congruence.
Qed.

Lemma result_status_settled s : str_in (result_status_value s) ["accepted"; "executing"; "waiting_approval"] = false.
Proof. by destruct s. Qed.

Definition executing_as (token : string) r : Prop :=
  iv_status r = "executing" ∧ iv_claim_token r = Some token ∨ settled_row r.

Lemma executing_as_step token o r r' :
  (∀ now i result, o = IWait now i result token → by_key i r = false) →
  executing_as token r → row_change o r r' → executing_as token r'.
Proof.
  intros Hwait [[Hs Ht]|Hr] Hc; [|by destruct (settled_row_final _ _ _ Hr Hc)].
  destruct o; cbn [row_change] in Hc.
  - destruct Hc as [_ [[_ ->]|[[E|E] _]]]; [right|congruence..]. repeat split; done.
  - destruct Hc as [_ ->]. by left.
  - destruct Hc as [[Hk Hc]%claimed_spec _]. rewrite Ht in Hc. simplify_eq. by erewrite Hwait in Hk.
  - destruct Hc as [_ ->]. right. repeat split; [apply result_status_settled|done].
  - destruct Hc as (_ & _ & ->). by left.
  - destruct Hc as (_ & _ & ->). left. unfold request_cancelled. by rewrite Hs.
Qed.

Lemma claimed_update_true now i token f status code t :
  (claimed_update now i token f status code t).2 = true →
  ∃ r, r ∈ tb_rows t ∧ claim_held now i token r = true ∧ f r ∈ tb_rows (claimed_update now i token f status code t).1.
Proof.
  unfold claimed_update. cbn. destruct (List.filter _ _) as [|r l] eqn:E; [done|].
  assert (In r (List.filter (claim_held now i token) (tb_rows t))) as [Hr Hc]%filter_In by (rewrite E; by left).
  destruct (Nat.eqb _ 1); [|done]. intros _. exists r. split_and!; [by apply list_elem_of_In|done|]. cbn.
  apply list_elem_of_fmap. exists r. rewrite Hc. split; [done|]. by apply list_elem_of_In.
Qed.

(** The token of a grant is that of every later grant of the key. *)
Lemma granted_token_unique before now i token after now' i' token' :
  let t := invocation_run before empty_tables in
  (mark_executing now i token t).2 = true →
  (∀ wnow wi result, IWait wnow wi result token ∈ after →
     (ti_tenant_id wi, ti_idempotency_key wi) ≠ (ti_tenant_id i, ti_idempotency_key i)) →
  (ti_tenant_id i', ti_idempotency_key i') = (ti_tenant_id i, ti_idempotency_key i) →
  (mark_executing now' i' token' (invocation_run after (mark_executing now i token t).1)).2 = true →
  token' = token.
Proof.
  intros t Hmark Hwait Hsame Hmark'. pose proof (reachable_wf before) as Hwf. fold t in Hwf.
  pose proof (invocation_step_wf (IMark now i token) t Hwf) as Hwf'. cbn in Hwf'.
  destruct (claimed_update_true _ _ _ _ _ _ _ Hmark) as (r & Hr & Hc & Hin).
  apply claimed_spec in Hc as [Hk Ht]. apply by_key_spec in Hk.
  destruct (rows_invariant (executing_as token) (ti_tenant_id i, ti_idempotency_key i) after
    (mark_executing now i token t).1 Hwf') as [_ HP].
  - intros o r1 r2 Ho Hk1 H1 Hc. eapply executing_as_step; [|done..].
    intros wnow wi result ->. destruct (by_key wi r1) eqn:E; [|done]. apply by_key_spec in E.
    destruct (Hwait _ _ _ Ho). congruence.
  - rewrite <- Hk. apply (list_elem_of_fmap_2 row_key) in Hin. exact Hin.
  - intros r1 Hr1 Hk1. left. rewrite (key_row_unique _ _ _ Hwf' Hr1 Hin); [done|]. etrans; [exact Hk1|]. symmetry. exact Hk.
  - destruct (claimed_update_true _ _ _ _ _ _ _ Hmark') as (r2 & Hr2 & [Hk2 Ht2]%claimed_spec & _).
    apply by_key_spec in Hk2. destruct (HP r2 Hr2) as [[_ E]|(_ & _ & E)]; congruence.
Qed.

(** C9. Once a replica has been granted the execution of an invocation
    ([mark_executing] returned true) no other claim on the same idempotency key is
    granted it, whatever the replicas do afterwards: expired claims are recovered as
    [unknown], not executed again.  The replica itself does not park its invocation
    after the grant. *)
Theorem executing_once before now i token after now' i' token' :
  let t := invocation_run before empty_tables in
  (mark_executing now i token t).2 = true →
  (∀ wnow wi result, IWait wnow wi result token ∈ after →
     (ti_tenant_id wi, ti_idempotency_key wi) ≠ (ti_tenant_id i, ti_idempotency_key i)) →
  (ti_tenant_id i', ti_idempotency_key i') = (ti_tenant_id i, ti_idempotency_key i) →
  (mark_executing now' i' token' (invocation_run after (mark_executing now i token t).1)).2 = true →
  token' = token.
Proof. exact (granted_token_unique before now i token after now' i' token'). Qed.

(** What [_tool_result] reads back: a dictionary with an [artifact_ref] key is taken
    for a reference. *)
Definition plain_content (c : ResultContent) : Prop :=
  match c with RValue (JObj d) => dget "artifact_ref" d = None | _ => True end.

Lemma result_read_back x : plain_content (tr_content x) → tool_result_of (result_as_dict x) = Ok x.
Proof.
  destruct x as [s c sm md ec se]. cbn [tr_content]. intros Hc.
  assert (result_status_of (result_status_value s) = Ok s) as Hs by by destruct s.
  unfold tool_result_of, result_as_dict, pgetn, pget, pgetd. dsimp.
  cbn [sget String.eqb Ascii.eqb Bool.eqb default from_option id tr_status tr_content tr_summary tr_metadata
       tr_error_code tr_side_effect_status py_str].
  destruct c as [v|a].
  - destruct v as [| | | | | |d]; try rewrite Hc; cbn [mbind res_bind mret res_ret py_str py_dict]; rewrite Hs; done.
  - assert (artifact_of (artifact_as_dict a) = Ok a) as Ha by by destruct a.
    cbn [mbind res_bind]. rewrite dget_sget. cbn [sget String.eqb Ascii.eqb Bool.eqb mbind res_bind py_dict].
    rewrite Ha. cbn [mbind res_bind fmap res_fmap py_str py_dict]. rewrite Hs. done.
Qed.

Lemma settled_row_stays ops r t : tables_wf t → settled_row r → r ∈ tb_rows t → r ∈ tb_rows (invocation_run ops t).
Proof.
  intros Hwf Hset Hin. unfold invocation_run.
  apply (fold_left_inv (λ t, tables_wf t ∧ r ∈ tb_rows t)); [|done]. clear t Hwf Hin.
  intros t o _ [Hwf Hin]. split; [by apply invocation_step_wf|].
  destruct (invocation_rows o t Hwf) as [Hr|(r' & _ & -> & _)]; [|apply elem_of_app; by left].
  apply list_elem_of_lookup in Hin as [n Hn]. destruct (Forall2_lookup_l _ _ _ _ _ Hr Hn) as (r' & Hl & Hc).
  destruct Hc as [->|Hc]; [by eapply list_elem_of_lookup_2|]. by destruct (settled_row_final _ _ _ Hset Hc).
Qed.

(** [begin] on a table with a settled row under its key. *)
Lemma begin_settled now i digest owner token ttl t r p : tables_wf t → r ∈ tb_rows t → settled_row r →
  by_key i r = true → iv_result r = Some p →
  let b := begin now i digest owner token ttl t in
  b.1 = t ∧ (b.2 = Ok conflicting ∨ b.2 = cached <$> tool_result_of p) ∧
  (iv_argument_digest r = digest → iv_tool_invocation_id r = ti_tool_invocation_id i →
   b.2 = cached <$> tool_result_of p).
Proof.
  intros Hwf Hin (Hs & _ & Ht) Hk Hp. cbn. unfold begin.
  set (same := λ r, by_key i r || by_id (ti_tenant_id i) (ti_tool_invocation_id i) r).
  assert (In r (List.filter same (tb_rows t))) as Hr.
  { apply filter_In. split; [by apply list_elem_of_In|]. unfold same. by rewrite Hk. }
  destruct (List.filter same (tb_rows t)) as [|r1 l] eqn:Ef; [done|].
  destruct (pick_some (r1 :: l)) as [r2 Hpick]; [done|]. rewrite Hpick.
  apply pick_in in Hpick. rewrite <- Ef in Hpick.
  apply list_elem_of_In, filter_In in Hpick as [Hin2%list_elem_of_In Hsame].
  assert (begin_existing now i digest owner token ttl r t =
    if String.eqb (iv_argument_digest r) digest then (t, cached <$> tool_result_of p) else (t, Ok conflicting)) as Hrow.
  { unfold begin_existing. unfold by_key in Hk. apply andb_true_iff in Hk as [_ ->]. rewrite Hp, Hs. cbn [negb orb].
    destruct (String.eqb (iv_argument_digest r) digest); [|done]. cbn [negb].
    destruct (String.eqb_spec (iv_status r) "waiting_approval") as [E|_]; [by rewrite E in Hs|done]. }
  pose proof (proj1 (by_key_spec i r) Hk) as Hkey.
  destruct (decide (iv_idempotency_key r2 = ti_idempotency_key i)) as [E2|E2].
  - assert (r2 = r) as ->.
    { apply (key_row_unique t); [done..|]. rewrite Hkey. unfold same in Hsame.
      apply orb_true_iff in Hsame as [?%by_key_spec|[= ??]%by_id_spec]; [done|]. unfold row_key. congruence. }
    rewrite Hrow. destruct (String.eqb_spec (iv_argument_digest r) digest) as [|Hne]; cbn [fst snd].
    + split_and!; [done|by right|done].
    + split_and!; [done|by left|done].
  - assert (begin_existing now i digest owner token ttl r2 t = (t, Ok conflicting)) as ->.
    { unfold begin_existing. apply String.eqb_neq in E2. by rewrite E2. }
    cbn [fst snd]. split_and!; [done|by left|]. intros _ Hid. exfalso.
    unfold same in Hsame. apply orb_true_iff in Hsame as [H2|H2].
    { apply by_key_spec in H2. injection H2. congruence. }
    apply by_id_spec in H2. destruct Hwf as [_ Hnd].
    assert (r2 = r) as ->; [|by injection Hkey].
    assert (row_id r2 = row_id r) as Hids by (injection Hkey as Hten _; rewrite H2; unfold row_id; congruence).
    apply list_elem_of_lookup in Hin as [n Hn], Hin2 as [n2 Hn2].
    assert (n2 = n) as ->; [|congruence].
    eapply (NoDup_lookup (map row_id (tb_rows t))); [done|..]; rewrite list_lookup_fmap.
    + by rewrite Hn2.
    + rewrite Hn. cbn. by rewrite Hids.
Qed.

(** Once [complete] has stored a result, any later [begin] with the same
    idempotency key leaves the tables as they are and never acquires the invocation:
    it conflicts, or returns the very result that was stored, and it does return it
    when the argument digest and the invocation are those of the row.  (The content
    is not a dictionary with an [artifact_ref] key.) *)
Theorem completed_replayed before now i result token after now' i' digest owner token' ttl :
  let t := invocation_run before empty_tables in
  let t' := invocation_run after (complete now i result token t).1 in
  let b := begin now' i' digest owner token' ttl t' in
  (complete now i result token t).2 = true → plain_content (tr_content result) →
  (ti_tenant_id i', ti_idempotency_key i') = (ti_tenant_id i, ti_idempotency_key i) →
  b.1 = t' ∧ (b.2 = Ok conflicting ∨ b.2 = Ok (cached result)) ∧
  (∀ r, r ∈ tb_rows t → by_key i r = true → iv_argument_digest r = digest →
     iv_tool_invocation_id r = ti_tool_invocation_id i' → b.2 = Ok (cached result)).
Proof.
  intros t t' b Hdone Hplain Hsame. pose proof (reachable_wf before) as Hwf. fold t in Hwf.
  pose proof (invocation_step_wf (IComplete now i result token) t Hwf) as Hwf1. cbn in Hwf1.
  destruct (claimed_update_true _ _ _ _ _ _ _ Hdone) as (r & Hr & Hc & Hin).
  apply claimed_spec in Hc as [Hk _]. pose proof (proj1 (by_key_spec i r) Hk) as Hkey.
  eapply (settled_row_stays after) in Hin; [|exact Hwf1|].
  2: { repeat split; [apply result_status_settled|]. by exists (result_as_dict result). }
  destruct (begin_settled now' i' digest owner token' ttl t' _ (result_as_dict result)
    (invocation_run_wf after _ Hwf1) Hin) as (H1 & H2 & H3).
  - repeat split; [apply result_status_settled|]. by exists (result_as_dict result).
  - apply by_key_spec. rewrite Hsame. exact Hkey.
  - reflexivity.
  - rewrite (result_read_back _ Hplain) in H2, H3. split_and!; [exact H1|exact H2|].
    intros r2 Hr2 Hk2%by_key_spec Hd Hi.
    assert (r2 = r) as -> by (apply (key_row_unique t); [done..|]; congruence). exact (H3 Hd Hi).
Qed.
End histories.

(** ** A concrete history *)

Module InvocationExamples.
#[local] Instance first_match : RowOrder.
Proof.
  refine {| pick := λ l, head l |}.
  - intros [|r' l] r; [done|]. intros [= ->]. left.
  - intros [|r l]; [done|]. by exists r.
Defined.

Definition inv (id : string) : ToolInvocation :=
  mkInvocation id "t" "root" "s" "r1" "mail.send" "1" [] "write" "key" None 1 "user:u" None None None None None None.
Definition answer : ToolResult := mkToolResult TSuccess (RValue (JStr "sent")) "ok" [] JNull "committed".

Notation taken := [IBegin 0 (inv "i1") "d" "hands-1" "token-1" 60].
Notation granted := [IBegin 0 (inv "i1") "d" "hands-1" "token-1" 60; IMark 1 (inv "i1") "token-1"].
Notation rivals := [IBegin 30 (inv "i1") "d" "hands-2" "token-2" 60; ICancel 31 "t" "i1"].
Notation late := [IBegin 90 (inv "i1") "d" "hands-2" "token-2" 60; IMark 91 (inv "i1") "token-2"].

Lemma granted_once : (mark_executing 1 (inv "i1") "token-1" (invocation_run taken empty_tables)).2 = true.
Proof. vm_compute. reflexivity. Qed.
Lemma granted_again : (mark_executing 40 (inv "i1") "token-1"
  (invocation_run rivals (mark_executing 1 (inv "i1") "token-1" (invocation_run taken empty_tables)).1)).2 = true.
Proof. vm_compute. reflexivity. Qed.

(** The claim that expired while executing is recovered, not executed again. *)
Example expired_recovered :
  let t := invocation_run granted empty_tables in
  (begin 90 (inv "i1") "d" "hands-2" "token-2" 60 t).2 = Ok (cached (recovery_result "unknown")) ∧
  (mark_executing 91 (inv "i1") "token-2" (invocation_run late t)).2 = false.
Proof. vm_compute. split; reflexivity. Qed.

Lemma no_wait_in_rivals wnow wi result : IWait wnow wi result "token-1" ∈ rivals →
  (ti_tenant_id wi, ti_idempotency_key wi) ≠ (ti_tenant_id (inv "i1"), ti_idempotency_key (inv "i1")).
Proof. intros H. exfalso. repeat (apply elem_of_cons in H as [H|H]; [discriminate|]). by apply elem_of_nil in H. Qed.

Lemma executing_once_witness : "token-1" = "token-1".
Proof.
  exact (executing_once taken 1 (inv "i1") "token-1" rivals 40 (inv "i1") "token-1" granted_once no_wait_in_rivals
           eq_refl granted_again).
Defined.

Lemma completed : (complete 2 (inv "i1") answer "token-1" (invocation_run granted empty_tables)).2 = true.
Proof. vm_compute. reflexivity. Qed.

Lemma completed_replayed_witness :
  (begin 95 (inv "i1") "d" "hands-2" "token-2" 60
     (invocation_run late (complete 2 (inv "i1") answer "token-1" (invocation_run granted empty_tables)).1)).2
  ≠ Ok (acquired "token-2").
Proof.
  destruct (completed_replayed granted 2 (inv "i1") answer "token-1" late 95 (inv "i1") "d" "hands-2" "token-2" 60
              completed I eq_refl) as (_ & [E|E] & _); rewrite E; discriminate.
Defined.
End InvocationExamples.
