(* ===== verification/GatewayCapacity.v ===== *)
(** * Admission to tool execution ([_ExecutionCapacity] of [action/tool_gateway.py])

    The gateway bounds how many executions wait and run, over all tenants and per
    tenant: two counters with a dictionary by tenant for the queue and for the
    executions in flight, one semaphore for all tenants and one per active tenant.
    The sections under [_guard] contain no await, so the lock is never contended and
    each of them is one step.  A ticket moves through the phases of [admit],
    [execute] and [close]; timeouts and cancellations take the [finally] blocks, and
    may come in any phase.  The metrics are left out, but not the suspension they
    are: [admit] emits after it has counted the caller, and a task cancelled there
    never gets its ticket ([CAdmitCancelled]). *)

From S2P Require Import Prelude.
Local Open Scope Z_scope.

(** ** State *)

Record CapacityLimits := mkLimits {
  cl_global : Z;
  cl_tenant : Z;
  cl_global_queue : Z;
  cl_tenant_queue : Z;
  cl_queue_timeout : Z;
}.

(** The checks of [__init__]. *)
Definition capacity_limits (l : CapacityLimits) : res CapacityLimits :=
  if Z.min (Z.min (cl_global l) (cl_tenant l)) (Z.min (cl_global_queue l) (cl_tenant_queue l)) <? 1
  then Raise PyValueError "tool capacity and queue limits must be positive"
  else if cl_global l <? cl_tenant l
  then Raise PyValueError "tenant tool capacity cannot exceed global capacity"
  else if cl_global_queue l <? cl_tenant_queue l
  then Raise PyValueError "tenant tool queue limit cannot exceed global queue limit"
  else if cl_queue_timeout l <=? 0 then Raise PyValueError "tool queue timeout must be positive"
  else Ok l.

(** A semaphore is the number of its free permits; the semaphores of the tenants are
    objects, so that a dropped one can still be held. *)
Record Capacity := mkCapacity {
  cp_global : Z;
  cp_tenant_slots : list (string * nat);
  cp_semaphores : list Z;
  cp_queued : Z;
  cp_queued_by_tenant : list (string * Z);
  cp_inflight : Z;
  cp_inflight_by_tenant : list (string * Z);
}.
#[global] Instance Capacity_eta : Eta Capacity := λ c,
  mkCapacity (cp_global c) (cp_tenant_slots c) (cp_semaphores c) (cp_queued c) (cp_queued_by_tenant c)
    (cp_inflight c) (cp_inflight_by_tenant c).

Definition new_capacity (l : CapacityLimits) : Capacity := mkCapacity (cl_global l) [] [] 0 [] 0 [].

(** Where a ticket is: not yet in [execute]; waiting for the tenant's semaphore, for
    the global one, or about to be marked; running; past the [finally] of [execute];
    closed. *)
Inductive Phase :=
  | PQueued | PTenantWait (slot : nat) | PGlobalWait (slot : nat) | PReady (slot : nat) | PActive (slot : nat)
  | PLeft | PClosed.

Record Ticket := mkTicket {
  tc_tenant_id : string;
  tc_queued : bool;
  tc_active : bool;
  tc_phase : Phase;
}.

(** ** Operations *)

(** [admit]: the reason of the rejection, or the caller is counted. *)
Definition admit_capacity (l : CapacityLimits) (tenant : string) (c : Capacity) : Capacity + string :=
  let tenant_queued := default 0 (dget tenant (cp_queued_by_tenant c)) in
  if cl_global_queue l <=? cp_queued c then inr "global_queue_full"
  else if cl_tenant_queue l <=? tenant_queued then inr "tenant_queue_full"
  else inl (c <| cp_queued := cp_queued c + 1 |>
              <| cp_queued_by_tenant := dset tenant (tenant_queued + 1) (cp_queued_by_tenant c) |>).

(** [d[k] - 1] stored back, or the key removed. *)
Definition decrement (tenant : string) (d : list (string * Z)) : res (list (string * Z)) :=
  match dget tenant d with
  | None => Raise PyKeyError tenant
  | Some n => Ok (if n - 1 =? 0 then ddel tenant d else dset tenant (n - 1) d)
  end.

Definition leave_queue (tenant : string) (c : Capacity) : res Capacity :=
  d ← decrement tenant (cp_queued_by_tenant c);
  Ok (c <| cp_queued := cp_queued c - 1 |> <| cp_queued_by_tenant := d |>).

Definition discard_idle_tenant (tenant : string) (c : Capacity) : Capacity :=
  if negb (dmem tenant (cp_queued_by_tenant c)) && negb (dmem tenant (cp_inflight_by_tenant c))
  then c <| cp_tenant_slots := ddel tenant (cp_tenant_slots c) |> else c.

Definition mark_started (tenant : string) (c : Capacity) : res Capacity :=
  c ← leave_queue tenant c;
  Ok (c <| cp_inflight := cp_inflight c + 1 |>
        <| cp_inflight_by_tenant :=
             dset tenant (default 0 (dget tenant (cp_inflight_by_tenant c)) + 1) (cp_inflight_by_tenant c) |>).

Definition mark_finished (tenant : string) (c : Capacity) : res Capacity :=
  d ← decrement tenant (cp_inflight_by_tenant c);
  Ok (discard_idle_tenant tenant (c <| cp_inflight := cp_inflight c - 1 |> <| cp_inflight_by_tenant := d |>)).

(** [_tenant_slots.setdefault(tenant, asyncio.Semaphore(limit))] *)
Definition tenant_slot (l : CapacityLimits) (tenant : string) (c : Capacity) : Capacity * nat :=
  match dget tenant (cp_tenant_slots c) with
  | Some s => (c, s)
  | None =>
      let s := length (cp_semaphores c) in
      (c <| cp_tenant_slots := dset tenant s (cp_tenant_slots c) |>
         <| cp_semaphores := cp_semaphores c ++ [cl_tenant l] |>, s)
  end.

Definition release_global (c : Capacity) : Capacity := c <| cp_global := cp_global c + 1 |>.
Definition release_slot (s : nat) (c : Capacity) : Capacity :=
  c <| cp_semaphores := alter (λ v, v + 1) s (cp_semaphores c) |>.

(** The [finally] of [execute]. *)
Definition leave_execute (t : Ticket) (c : Capacity) : res Capacity :=
  match tc_phase t with
  | PGlobalWait s => Ok (release_slot s c)
  | PReady s => Ok (release_slot s (release_global c))
  | PActive s => mark_finished (tc_tenant_id t) (release_slot s (release_global c))
  | _ => Ok c
  end.

Definition close_ticket (t : Ticket) (c : Capacity) : res Capacity :=
  if negb (tc_queued t) then Ok c else
  c ← leave_queue (tc_tenant_id t) c; Ok (discard_idle_tenant (tc_tenant_id t) c).

(** ** Histories *)

Inductive CapacityEvent :=
  | CAdmit (tenant : string)
  | CAdmitCancelled (tenant : string)
  | CEnter (k : nat)
  | CTenantAcquired (k : nat)
  | CGlobalAcquired (k : nat)
  | CStarted (k : nat)
  | CLeave (k : nat)
  | CClose (k : nat).

(** The tickets handed out, and the tenants of the callers that lost theirs. *)
Record Admission := mkAdmission {
  ad_capacity : Capacity;
  ad_tickets : list Ticket;
  ad_lost : list string;
}.

Definition at_phase (p : Phase) (t : Ticket) : Ticket := mkTicket (tc_tenant_id t) (tc_queued t) (tc_active t) p.
Definition put_ticket (k : nat) (t : Ticket) (c : Capacity) (a : Admission) : Admission :=
  mkAdmission c (<[k := t]> (ad_tickets a)) (ad_lost a).

(** An event that its ticket's phase, or a semaphore, does not allow does not happen. *)
Definition capacity_step (l : CapacityLimits) (a : Admission) (e : CapacityEvent) : res Admission :=
  let c := ad_capacity a in
  let on k (f : Ticket → res Admission) := match ad_tickets a !! k with Some t => f t | None => Ok a end in
  match e with
  | CAdmit tenant =>
      match admit_capacity l tenant c with
      | inl c => Ok (mkAdmission c (ad_tickets a ++ [mkTicket tenant true false PQueued]) (ad_lost a))
      | inr _ => Ok a
      end
  | CAdmitCancelled tenant =>
      match admit_capacity l tenant c with
      | inl c => Ok (mkAdmission c (ad_tickets a) (tenant :: ad_lost a))
      | inr _ => Ok a
      end
  | CEnter k => on k (λ t,
      match tc_phase t with
      | PQueued => let '(c, s) := tenant_slot l (tc_tenant_id t) c in Ok (put_ticket k (at_phase (PTenantWait s) t) c a)
      | _ => Ok a
      end)
  | CTenantAcquired k => on k (λ t,
      match tc_phase t with
      | PTenantWait s =>
          match cp_semaphores c !! s with
          | Some v => if 0 <? v
                      then Ok (put_ticket k (at_phase (PGlobalWait s) t)
                                 (c <| cp_semaphores := <[s := v - 1]> (cp_semaphores c) |>) a)
                      else Ok a
          | None => Ok a
          end
      | _ => Ok a
      end)
  | CGlobalAcquired k => on k (λ t,
      match tc_phase t with
      | PGlobalWait s => if 0 <? cp_global c
                         then Ok (put_ticket k (at_phase (PReady s) t) (c <| cp_global := cp_global c - 1 |>) a)
                         else Ok a
      | _ => Ok a
      end)
  | CStarted k => on k (λ t,
      match tc_phase t with
      | PReady s => c ← mark_started (tc_tenant_id t) c;
                    Ok (put_ticket k (mkTicket (tc_tenant_id t) false true (PActive s)) c a)
      | _ => Ok a
      end)
  | CLeave k => on k (λ t,
      match tc_phase t with
      | PTenantWait _ | PGlobalWait _ | PReady _ | PActive _ =>
          c ← leave_execute t c; Ok (put_ticket k (mkTicket (tc_tenant_id t) (tc_queued t) false PLeft) c a)
      | _ => Ok a
      end)
  | CClose k => on k (λ t,
      match tc_phase t with
      | PQueued | PLeft => c ← close_ticket t c;
                           Ok (put_ticket k (mkTicket (tc_tenant_id t) false (tc_active t) PClosed) c a)
      | _ => Ok a
      end)
  end.

Definition capacity_run (l : CapacityLimits) (es : list CapacityEvent) (a : Admission) : res Admission :=
  foldM (capacity_step l) es a.
Definition opened (l : CapacityLimits) : Admission := mkAdmission (new_capacity l) [] [].

(** ** Counting *)

Definition cnt {A} (P : A → bool) (l : list A) : Z := Z.of_nat (length (List.filter P l)).

Lemma cnt_nonneg {A} (P : A → bool) l : 0 ≤ cnt P l.
Proof. unfold cnt. lia. Qed.
Lemma cnt_cons {A} (P : A → bool) x l : cnt P (x :: l) = Z.b2z (P x) + cnt P l.
Proof. unfold cnt. cbn [List.filter]. destruct (P x); cbn [length Z.b2z]; lia. Qed.
Lemma cnt_snoc {A} (P : A → bool) x l : cnt P (l ++ [x]) = cnt P l + Z.b2z (P x).
Proof. unfold cnt. rewrite List.filter_app, length_app. cbn [List.filter]. destruct (P x); cbn [length Z.b2z]; lia. Qed.
Lemma cnt_insert {A} (P : A → bool) k x y l :
  l !! k = Some x → cnt P (<[k := y]> l) = cnt P l - Z.b2z (P x) + Z.b2z (P y).
Proof.
  revert k. induction l as [|z l IH]; intros [|k] Hk; try done.
  - injection Hk as ->. change (<[0%nat := y]> (x :: l)) with (y :: l). rewrite !cnt_cons. lia.
  - change (<[S k := y]> (z :: l)) with (z :: <[k := y]> l). rewrite !cnt_cons, (IH k Hk). lia.
Qed.
Lemma cnt_pos {A} (P : A → bool) k x l : l !! k = Some x → P x = true → 0 < cnt P l.
Proof.
  intros Hk HP. assert (In x (List.filter P l)) as Hin.
  { apply filter_In. split; [|done]. apply list_elem_of_In. by eapply list_elem_of_lookup_2. }
  unfold cnt. destruct (List.filter P l); [done|]. cbn [length]. lia.
Qed.
Lemma cnt_mono {A} (P Q : A → bool) l : (∀ x, x ∈ l → P x = true → Q x = true) → cnt P l ≤ cnt Q l.
Proof.
  induction l as [|x l IH]; intros H; [unfold cnt; cbn; lia|]. rewrite !cnt_cons.
  assert (Z.b2z (P x) ≤ Z.b2z (Q x)).
  { destruct (P x) eqn:E; [rewrite (H x); [done|left|done]|]. destruct (Q x); cbn; lia. }
  assert (cnt P l ≤ cnt Q l) by (apply IH; intros; apply H; [by right|done]). lia.
Qed.
Lemma cnt_zero {A} (P : A → bool) l : (∀ x, x ∈ l → P x = false) → cnt P l = 0.
Proof.
  induction l as [|x l IH]; intros H; [done|]. rewrite cnt_cons, (H x) by left. rewrite IH; [done|].
  intros. apply H. by right.
Qed.

(** A dictionary of counters: the positive ones. *)
Definition counter (n : Z) : option Z := if n =? 0 then None else Some n.
Definition counts (d : list (string * Z)) (f : string → Z) : Prop := dict_wf d ∧ ∀ t, dget t d = counter (f t).
Definition one_at (t u : string) : Z := Z.b2z (String.eqb u t).

Lemma counts_ext d f g : counts d f → (∀ t, f t = g t) → counts d g.
Proof. intros [Hwf Hd] Hfg. split; [done|]. intros t. by rewrite Hd, Hfg. Qed.

Lemma counts_value d f t : counts d f → default 0 (dget t d) = f t.
Proof. intros [_ Hd]. rewrite Hd. unfold counter. by destruct (Z.eqb_spec (f t) 0). Qed.

Lemma counts_increment d f t : counts d f → 0 ≤ f t →
  counts (dset t (f t + 1) d) (λ u, f u + one_at t u).
Proof.
  intros [Hwf Hd] Hf. split; [by apply dset_wf|]. intros u. rewrite dget_dset. unfold one_at, counter.
  destruct (String.eqb_spec u t) as [->|Hne]; cbn [Z.b2z].
  - rewrite decide_True by done. destruct (Z.eqb_spec (f t + 1) 0); [lia|done].
  - rewrite decide_False by done. rewrite Hd. unfold counter. by replace (f u + 0) with (f u) by lia.
Qed.

Lemma counts_decrement d f t : counts d f → 0 < f t →
  ∃ d', decrement t d = Ok d' ∧ counts d' (λ u, f u - one_at t u).
Proof.
  intros [Hwf Hd] Hf. unfold decrement. rewrite Hd. unfold counter at 1. destruct (Z.eqb_spec (f t) 0); [lia|].
  eexists. split; [done|]. split; [destruct (f t - 1 =? 0); auto using ddel_wf, dset_wf|]. intros u. unfold one_at.
  destruct (String.eqb_spec u t) as [->|Hne]; cbn [Z.b2z].
  - unfold counter. destruct (f t - 1 =? 0); [by apply dget_ddel_eq|by apply dget_dset_eq].
  - rewrite Z.sub_0_r, <- Hd. destruct (f t - 1 =? 0); [by apply dget_ddel_ne|by apply dget_dset_ne].
Qed.

Lemma counts_mem d f t : counts d f → dmem t d = negb (f t =? 0).
Proof. intros [_ Hd]. unfold dmem. rewrite Hd. unfold counter. by destruct (f t =? 0). Qed.

(** ** The invariant *)

Definition phase_slot (p : Phase) : option nat :=
  match p with PTenantWait s | PGlobalWait s | PReady s | PActive s => Some s | _ => None end.
Definition holds_slot (s : nat) (t : Ticket) : bool :=
  match tc_phase t with PGlobalWait r | PReady r | PActive r => Nat.eqb r s | _ => false end.
Definition holds_global (t : Ticket) : bool :=
  match tc_phase t with PReady _ | PActive _ => true | _ => false end.

Definition ticket_ok (t : Ticket) : Prop :=
  match tc_phase t with
  | PQueued | PTenantWait _ | PGlobalWait _ | PReady _ => tc_queued t = true ∧ tc_active t = false
  | PActive _ => tc_queued t = false ∧ tc_active t = true
  | PLeft => tc_active t = false
  | PClosed => tc_queued t = false ∧ tc_active t = false
  end.

Definition queued_of (tenant : string) (t : Ticket) : bool := tc_queued t && String.eqb tenant (tc_tenant_id t).
Definition active_of (tenant : string) (t : Ticket) : bool := tc_active t && String.eqb tenant (tc_tenant_id t).
Definition in_queue (a : Admission) (tenant : string) : Z :=
  cnt (queued_of tenant) (ad_tickets a) + cnt (String.eqb tenant) (ad_lost a).
Definition in_flight (a : Admission) (tenant : string) : Z := cnt (active_of tenant) (ad_tickets a).

Record capacity_inv (l : CapacityLimits) (a : Admission) : Prop := {
  ci_tickets : ∀ k t, ad_tickets a !! k = Some t → ticket_ok t;
  ci_queued : cp_queued (ad_capacity a) = cnt tc_queued (ad_tickets a) + Z.of_nat (length (ad_lost a));
  ci_queued_by : counts (cp_queued_by_tenant (ad_capacity a)) (in_queue a);
  ci_inflight : cp_inflight (ad_capacity a) = cnt tc_active (ad_tickets a);
  ci_inflight_by : counts (cp_inflight_by_tenant (ad_capacity a)) (in_flight a);
  ci_queue_limit : cp_queued (ad_capacity a) ≤ cl_global_queue l;
  ci_queue_limits : ∀ tenant, in_queue a tenant ≤ cl_tenant_queue l;
  ci_global : cp_global (ad_capacity a) = cl_global l - cnt holds_global (ad_tickets a) ∧ 0 ≤ cp_global (ad_capacity a);
  ci_semaphores : ∀ s v, cp_semaphores (ad_capacity a) !! s = Some v →
    v = cl_tenant l - cnt (holds_slot s) (ad_tickets a) ∧ 0 ≤ v;
  ci_slot : ∀ k t s, ad_tickets a !! k = Some t → phase_slot (tc_phase t) = Some s →
    dget (tc_tenant_id t) (cp_tenant_slots (ad_capacity a)) = Some s;
  ci_slots_wf : dict_wf (cp_tenant_slots (ad_capacity a));
  ci_slots : ∀ tenant s, dget tenant (cp_tenant_slots (ad_capacity a)) = Some s →
    (s < length (cp_semaphores (ad_capacity a)))%nat ∧ 0 < in_queue a tenant + in_flight a tenant;
  ci_slots_inj : ∀ t1 t2 s, dget t1 (cp_tenant_slots (ad_capacity a)) = Some s →
    dget t2 (cp_tenant_slots (ad_capacity a)) = Some s → t1 = t2;
}.

Lemma in_queue_nonneg a u : 0 ≤ in_queue a u.
Proof. unfold in_queue. pose proof (cnt_nonneg (queued_of u) (ad_tickets a)).
  pose proof (cnt_nonneg (String.eqb u) (ad_lost a)). lia. Qed.
Lemma in_flight_nonneg a u : 0 ≤ in_flight a u.
Proof. apply cnt_nonneg. Qed.

Lemma queued_of_one u t : Z.b2z (queued_of u t) = Z.b2z (tc_queued t) * one_at (tc_tenant_id t) u.
Proof. unfold queued_of, one_at. by destruct (tc_queued t), (String.eqb u (tc_tenant_id t)). Qed.
Lemma active_of_one u t : Z.b2z (active_of u t) = Z.b2z (tc_active t) * one_at (tc_tenant_id t) u.
Proof. unfold active_of, one_at. by destruct (tc_active t), (String.eqb u (tc_tenant_id t)). Qed.
Lemma one_at_same u : one_at u u = 1.
Proof. unfold one_at. by rewrite String.eqb_refl. Qed.

Lemma ticket_queued a k t : ad_tickets a !! k = Some t → tc_queued t = true → 0 < in_queue a (tc_tenant_id t).
Proof.
  intros Hk Hq. assert (0 < cnt (queued_of (tc_tenant_id t)) (ad_tickets a)).
  { eapply cnt_pos; [exact Hk|]. unfold queued_of. by rewrite Hq, String.eqb_refl. }
  pose proof (cnt_nonneg (String.eqb (tc_tenant_id t)) (ad_lost a)). unfold in_queue. lia.
Qed.
Lemma ticket_active a k t : ad_tickets a !! k = Some t → tc_active t = true → 0 < in_flight a (tc_tenant_id t).
Proof. intros Hk Ha. eapply cnt_pos; [exact Hk|]. unfold active_of. by rewrite Ha, String.eqb_refl. Qed.

Section put.
Context (l : CapacityLimits) (a : Admission) (k : nat) (t t' : Ticket) (c' : Capacity).
Context (Hinv : capacity_inv l a) (Hk : ad_tickets a !! k = Some t) (Htenant : tc_tenant_id t' = tc_tenant_id t).
Notation dq := (Z.b2z (tc_queued t') - Z.b2z (tc_queued t)).
Notation da := (Z.b2z (tc_active t') - Z.b2z (tc_active t)).
Notation T := (tc_tenant_id t).

Lemma in_queue_put u : in_queue (put_ticket k t' c' a) u = in_queue a u + dq * one_at T u.
Proof.
  unfold in_queue, put_ticket. cbn [ad_tickets ad_lost]. rewrite (cnt_insert _ _ _ _ _ Hk), !queued_of_one, Htenant. lia.
Qed.
Lemma in_flight_put u : in_flight (put_ticket k t' c' a) u = in_flight a u + da * one_at T u.
Proof.
  unfold in_flight, put_ticket. cbn [ad_tickets]. rewrite (cnt_insert _ _ _ _ _ Hk), !active_of_one, Htenant. lia.
Qed.

(** A ticket with a slot is queued or in flight. *)
Lemma slot_counted b j t2 s : (∀ j t, ad_tickets b !! j = Some t → ticket_ok t) →
  ad_tickets b !! j = Some t2 → phase_slot (tc_phase t2) = Some s →
  0 < in_queue b (tc_tenant_id t2) + in_flight b (tc_tenant_id t2).
Proof.
  intros Hok Hj Hs. specialize (Hok j t2 Hj). unfold ticket_ok in Hok.
  pose proof (in_flight_nonneg b (tc_tenant_id t2)). pose proof (in_queue_nonneg b (tc_tenant_id t2)).
  assert (tc_queued t2 = true ∨ tc_active t2 = true) as [H2|H2] by (destruct (tc_phase t2); naive_solver).
  - pose proof (ticket_queued b j t2 Hj H2). lia.
  - pose proof (ticket_active b j t2 Hj H2). lia.
Qed.

(** A ticket moves on: the counters follow. *)
Lemma put_inv : ticket_ok t' → dq ≤ 0 →
  cp_queued c' = cp_queued (ad_capacity a) + dq → cp_inflight c' = cp_inflight (ad_capacity a) + da →
  counts (cp_queued_by_tenant c') (λ u, in_queue a u + dq * one_at T u) →
  counts (cp_inflight_by_tenant c') (λ u, in_flight a u + da * one_at T u) →
  cp_global c' = cp_global (ad_capacity a) + Z.b2z (holds_global t) - Z.b2z (holds_global t') → 0 ≤ cp_global c' →
  length (cp_semaphores c') = length (cp_semaphores (ad_capacity a)) →
  (∀ s v', cp_semaphores c' !! s = Some v' → ∃ v, cp_semaphores (ad_capacity a) !! s = Some v
     ∧ v' = v + Z.b2z (holds_slot s t) - Z.b2z (holds_slot s t') ∧ 0 ≤ v') →
  (∀ s, phase_slot (tc_phase t') = Some s → dget T (cp_tenant_slots (ad_capacity a)) = Some s) →
  cp_tenant_slots c' = (if in_queue a T + in_flight a T + dq + da =? 0
    then ddel T (cp_tenant_slots (ad_capacity a)) else cp_tenant_slots (ad_capacity a)) →
  capacity_inv l (put_ticket k t' c' a).
Proof.
  intros Hok Hdq Hq Hf Hqb Hfb Hg Hg0 Hlen Hsem Hslot Hslots. destruct Hinv as [I1 I2 I3 I4 I5 I6 I7 I8 I9 I10 I11 I12 I13].
  assert (∀ j t, ad_tickets (put_ticket k t' c' a) !! j = Some t → ticket_ok t) as Hoks.
  { intros j t2 Hj. unfold put_ticket in Hj. cbn [ad_tickets] in Hj.
    apply list_lookup_insert_Some in Hj as [(-> & -> & _)|[_ Hj]]; eauto. }
  assert (∀ u s, dget u (cp_tenant_slots c') = Some s → dget u (cp_tenant_slots (ad_capacity a)) = Some s) as Hsub.
  { intros u s. rewrite Hslots. case_match; [|done]. destruct (decide (u = T)) as [->|]; [by rewrite dget_ddel_eq|].
    by rewrite dget_ddel_ne. }
  constructor; cbn [put_ticket ad_capacity ad_tickets ad_lost].
  - exact Hoks.
  - rewrite (cnt_insert _ _ _ _ _ Hk). lia.
  - eapply counts_ext; [exact Hqb|]. intros u. symmetry. apply in_queue_put.
  - rewrite (cnt_insert _ _ _ _ _ Hk). lia.
  - eapply counts_ext; [exact Hfb|]. intros u. symmetry. apply in_flight_put.
  - lia.
  - intros u. rewrite in_queue_put. specialize (I7 u).
    assert (dq * one_at T u ≤ 0) by (unfold one_at; destruct (String.eqb u T); cbn [Z.b2z]; lia). lia.
  - rewrite (cnt_insert _ _ _ _ _ Hk). split; [lia|done].
  - intros s v' Hv'. destruct (Hsem s v' Hv') as (v & Hv & -> & H0). destruct (I9 s v Hv) as [-> _].
    rewrite (cnt_insert _ _ _ _ _ Hk). split; [lia|done].
  - intros j t2 s Hj Hs. rewrite Hslots.
    assert (dget (tc_tenant_id t2) (cp_tenant_slots (ad_capacity a)) = Some s) as Hd.
    { apply list_lookup_insert_Some in Hj as [(-> & -> & _)|[_ Hj]]; [|eauto]. rewrite Htenant. auto. }
    destruct (Z.eqb_spec (in_queue a T + in_flight a T + dq + da) 0) as [E|]; [|done].
    rewrite dget_ddel_ne; [done|]. intros Heq.
    pose proof (slot_counted (put_ticket k t' c' a) j t2 s Hoks Hj Hs) as Hpos.
    rewrite in_queue_put, in_flight_put, Heq, one_at_same in Hpos. lia.
  - rewrite Hslots. case_match; auto using ddel_wf.
  - intros u s Hu. rewrite Hlen. destruct (I12 u s (Hsub u s Hu)) as [H1 H2]. split; [done|].
    rewrite in_queue_put, in_flight_put. destruct (decide (u = T)) as [->|Hne].
    + rewrite one_at_same. rewrite Hslots in Hu.
      destruct (Z.eqb_spec (in_queue a T + in_flight a T + dq + da) 0); [by rewrite dget_ddel_eq in Hu|].
      pose proof (in_queue_nonneg (put_ticket k t' c' a) T) as N1. rewrite in_queue_put, one_at_same in N1.
      pose proof (in_flight_nonneg (put_ticket k t' c' a) T) as N2. rewrite in_flight_put, one_at_same in N2. lia.
    + unfold one_at. apply String.eqb_neq in Hne as ->. cbn [Z.b2z]. lia.
  - intros t1 t2 s H1 H2. eapply I13; eauto.
Qed.
End put.

Section events.
Context (l : CapacityLimits).
Implicit Types (a b : Admission) (t : Ticket) (c : Capacity).

Lemma opened_inv : is_ok (capacity_limits l) = true → capacity_inv l (opened l).
Proof.
  unfold capacity_limits. intros H. repeat case_match; try discriminate. bool_props.
  assert (∀ f, (∀ u, f u = 0) → counts [] f) as Hnil.
  { intros f Hf. split; [apply NoDup_nil_2|]. intros u. by rewrite Hf. }
  constructor; cbn; try done; try (apply Hnil; done); try lia; try (intros; lia); try apply NoDup_nil_2.
  - intros u. unfold in_queue, cnt. cbn. lia.
  - unfold cnt. cbn. lia.
Qed.

(** Admission, with the ticket handed out or lost. *)
Lemma admit_inv a tenant c tickets lost : capacity_inv l a →
  admit_capacity l tenant (ad_capacity a) = inl c →
  (tickets = ad_tickets a ++ [mkTicket tenant true false PQueued] ∧ lost = ad_lost a ∨
   tickets = ad_tickets a ∧ lost = tenant :: ad_lost a) →
  capacity_inv l (mkAdmission c tickets lost).
Proof.
  intros [I1 I2 I3 I4 I5 I6 I7 I8 I9 I10 I11 I12 I13] Hadm Hcase. unfold admit_capacity in Hadm.
  rewrite (counts_value _ _ tenant I3) in Hadm. repeat case_match; try discriminate. bool_props. simplify_eq.
  set (b := mkAdmission _ _ _).
  assert (∀ u, in_queue b u = in_queue a u + one_at tenant u) as Hq.
  { intros u. unfold in_queue, one_at. cbn. destruct Hcase as [[-> ->]|[-> ->]];
      [rewrite cnt_snoc; unfold queued_of; cbn|rewrite cnt_cons]; lia. }
  assert (∀ u, in_flight b u = in_flight a u) as Hf.
  { intros u. unfold in_flight. cbn. destruct Hcase as [[-> _]|[-> _]]; [|done]. rewrite cnt_snoc. cbn. lia. }
  assert (∀ P, P (mkTicket tenant true false PQueued) = false → cnt P tickets = cnt P (ad_tickets a)) as Hcnt.
  { intros P HP. destruct Hcase as [[-> _]|[-> _]]; [|done]. rewrite cnt_snoc, HP. cbn. lia. }
  assert (∀ k t, tickets !! k = Some t → ad_tickets a !! k = Some t ∨ t = mkTicket tenant true false PQueued) as Hold.
  { intros k t. destruct Hcase as [[-> _]|[-> _]]; [|auto].
    intros [Hk|[_ Hk]]%lookup_app_Some; [by left|]. apply list_lookup_singleton_Some in Hk as [_ Hk]. by right. }
  pose proof (in_queue_nonneg a tenant).
  constructor; cbn [ad_capacity ad_tickets ad_lost b cp_queued cp_queued_by_tenant cp_inflight cp_inflight_by_tenant
    cp_global cp_semaphores cp_tenant_slots set_field].
  - intros k t Hk. destruct (Hold k t Hk) as [| ->]; [by eapply I1|done].
  - cbn. destruct Hcase as [[-> ->]|[-> ->]]; [rewrite cnt_snoc|]; cbn [tc_queued Z.b2z length]; lia.
  - eapply counts_ext; [by apply (counts_increment _ _ tenant I3)|]. intros u. by rewrite Hq.
  - rewrite Hcnt by done. exact I4.
  - eapply counts_ext; [exact I5|]. done.
  - cbn. lia.
  - intros u. rewrite Hq. unfold one_at. destruct (String.eqb_spec u tenant) as [->|]; cbn [Z.b2z]; [lia|].
    specialize (I7 u). lia.
  - rewrite Hcnt by done. exact I8.
  - intros s v Hv. rewrite Hcnt by done. by apply I9.
  - intros k t s Hk Hs. destruct (Hold k t Hk) as [| ->]; [by eapply I10|done].
  - exact I11.
  - intros u s Hu. rewrite Hq, Hf. destruct (I12 u s Hu). split; [done|]. unfold one_at.
    destruct (String.eqb u tenant); cbn [Z.b2z]; lia.
  - exact I13.
Qed.

(** [setdefault] of the tenant's semaphore. *)
Lemma tenant_slot_inv a tenant : capacity_inv l a → 0 < in_queue a tenant → 0 < cl_tenant l →
  let cs := tenant_slot l tenant (ad_capacity a) in
  capacity_inv l (mkAdmission cs.1 (ad_tickets a) (ad_lost a)) ∧ dget tenant (cp_tenant_slots cs.1) = Some cs.2.
Proof.
  intros Hinv Hq Hl. cbn zeta. unfold tenant_slot.
  destruct (dget tenant (cp_tenant_slots (ad_capacity a))) as [s|] eqn:Hs; [by destruct a|].
  destruct Hinv as [I1 I2 I3 I4 I5 I6 I7 I8 I9 I10 I11 I12 I13].
  cbn [fst snd]. split; [|apply dget_dset_eq].
  assert (∀ u s, dget u (cp_tenant_slots (ad_capacity a)) = Some s →
    dget u (dset tenant (length (cp_semaphores (ad_capacity a))) (cp_tenant_slots (ad_capacity a))) = Some s) as Hmono.
  { intros u s Hu. rewrite dget_dset_ne; [done|]. intros ->. congruence. }
  constructor; cbn [ad_capacity ad_tickets ad_lost]; try done.
  - intros s v [Hv|[Hlen Hv]]%lookup_app_Some; [by apply I9|].
    apply list_lookup_singleton_Some in Hv as [Hs0 <-].
    assert (s = length (cp_semaphores (ad_capacity a))) as -> by lia.
    rewrite cnt_zero; [lia|]. intros t [k Hk]%list_elem_of_lookup.
    assert (∀ r, phase_slot (tc_phase t) = Some r → Nat.eqb r (length (cp_semaphores (ad_capacity a))) = false) as Hr.
    { intros r Hr. destruct (I12 _ _ (I10 k t r Hk Hr)). apply Nat.eqb_neq. lia. }
    unfold holds_slot. destruct (tc_phase t); try done; by apply Hr.
  - intros k t s Hk Hp. apply Hmono. eapply I10; eauto.
  - by apply dset_wf.
  - intros u s. cbn. rewrite length_app, dget_dset. change (in_queue (mkAdmission _ _ _) u) with (in_queue a u).
    change (in_flight (mkAdmission _ _ _) u) with (in_flight a u). case_decide as E.
    + intros [= <-]. subst u. pose proof (in_flight_nonneg a tenant). cbn. lia.
    + intros Hu. destruct (I12 u s Hu). cbn. lia.
  - intros t1 t2 s. cbn. rewrite !dget_dset. repeat case_decide; intros H1 H2; simplify_eq; [done|..|by eapply I13].
    + destruct (I12 _ _ H2). lia.
    + destruct (I12 _ _ H1). lia.
Qed.

Lemma slot_lookup a k t s : capacity_inv l a → ad_tickets a !! k = Some t → phase_slot (tc_phase t) = Some s →
  ∃ v, cp_semaphores (ad_capacity a) !! s = Some v.
Proof.
  intros [I1 I2 I3 I4 I5 I6 I7 I8 I9 I10 I11 I12 I13] Hk Hs.
  destruct (I12 _ _ (I10 _ _ _ Hk Hs)) as [Hlt _]. by apply lookup_lt_is_Some_2.
Qed.

(** The counts of a ticket that stays queued or in flight. *)
Lemma counts_same d f u : counts d f → counts d (λ v, f v + 0 * one_at u v).
Proof. intros Hd. eapply counts_ext; [exact Hd|]. intros v. lia. Qed.

Lemma ticket_total a k t : capacity_inv l a → ad_tickets a !! k = Some t → tc_queued t = true ∨ tc_active t = true →
  0 < in_queue a (tc_tenant_id t) + in_flight a (tc_tenant_id t).
Proof.
  intros Hinv Hk Ht. pose proof (in_flight_nonneg a (tc_tenant_id t)).
  pose proof (in_queue_nonneg a (tc_tenant_id t)).
  destruct Ht as [Ht|Ht]; [pose proof (ticket_queued a k t Hk Ht)|pose proof (ticket_active a k t Hk Ht)]; lia.
Qed.

(** A queued ticket moves to a phase in which it is still queued. *)
Lemma waiting_inv a k t p c : capacity_inv l a → ad_tickets a !! k = Some t →
  tc_queued t = true → tc_active t = false →
  match p with PQueued | PTenantWait _ | PGlobalWait _ | PReady _ | PLeft => True | _ => False end →
  (∀ s, phase_slot p = Some s → dget (tc_tenant_id t) (cp_tenant_slots (ad_capacity a)) = Some s) →
  c = ad_capacity a <| cp_global := cp_global c |> <| cp_semaphores := cp_semaphores c |> →
  cp_global c = cp_global (ad_capacity a) + Z.b2z (holds_global t) - Z.b2z (holds_global (at_phase p t)) →
  0 ≤ cp_global c → length (cp_semaphores c) = length (cp_semaphores (ad_capacity a)) →
  (∀ s v', cp_semaphores c !! s = Some v' → ∃ v, cp_semaphores (ad_capacity a) !! s = Some v
     ∧ v' = v + Z.b2z (holds_slot s t) - Z.b2z (holds_slot s (at_phase p t)) ∧ 0 ≤ v') →
  capacity_inv l (put_ticket k (at_phase p t) c a).
Proof.
  intros Hinv Hk Hq Ha Hp Hslot Hc Hg Hg0 Hlen Hsem.
  apply (put_inv l a k t (at_phase p t) c Hinv Hk eq_refl); cbn [at_phase tc_queued tc_active tc_phase]; rewrite ?Hq, ?Ha;
    cbn [Z.b2z]; try done; try (rewrite Hc; cbn; try lia; try apply counts_same; by destruct Hinv).
  - unfold ticket_ok. cbn. by destruct p.
  - rewrite Hc. cbn. pose proof (ticket_total a k t Hinv Hk (or_introl Hq)).
    destruct (Z.eqb_spec (in_queue a (tc_tenant_id t) + in_flight a (tc_tenant_id t) + (1 - 1) + (0 - 0)) 0); [lia|done].
Qed.

Lemma discard_spec c f g tenant : counts (cp_queued_by_tenant c) f → counts (cp_inflight_by_tenant c) g →
  0 ≤ f tenant → 0 ≤ g tenant →
  discard_idle_tenant tenant c = c <| cp_tenant_slots := if f tenant + g tenant =? 0
    then ddel tenant (cp_tenant_slots c) else cp_tenant_slots c |>.
Proof.
  intros Hf Hg H1 H2. unfold discard_idle_tenant. rewrite (counts_mem _ _ _ Hf), (counts_mem _ _ _ Hg), !negb_involutive.
  destruct (Z.eqb_spec (f tenant) 0), (Z.eqb_spec (g tenant) 0), (Z.eqb_spec (f tenant + g tenant) 0);
    cbn [andb]; try lia; by destruct c.
Qed.

Lemma leave_queue_ok c f tenant : counts (cp_queued_by_tenant c) f → 0 < f tenant →
  ∃ d, leave_queue tenant c = Ok (c <| cp_queued := cp_queued c - 1 |> <| cp_queued_by_tenant := d |>)
    ∧ counts d (λ u, f u + (0 - 1) * one_at tenant u).
Proof.
  intros Hf H0. unfold leave_queue. destruct (counts_decrement _ _ _ Hf H0) as (d & -> & Hd). exists d. split; [done|].
  eapply counts_ext; [exact Hd|]. intros u. cbn. lia.
Qed.

Lemma started_inv a k t s : capacity_inv l a → ad_tickets a !! k = Some t → tc_phase t = PReady s →
  ∃ c, mark_started (tc_tenant_id t) (ad_capacity a) = Ok c
    ∧ capacity_inv l (put_ticket k (mkTicket (tc_tenant_id t) false true (PActive s)) c a).
Proof.
  intros Hinv Hk Hp. pose proof (ci_tickets _ _ Hinv k t Hk) as Hok. unfold ticket_ok in Hok. rewrite Hp in Hok.
  destruct Hok as [Hq Ha].
  pose proof (ticket_queued a k t Hk Hq) as H0.
  unfold mark_started. destruct (leave_queue_ok _ _ _ (ci_queued_by _ _ Hinv) H0) as (d & -> & Hd). cbn [mbind res_bind].
  eexists. split; [done|].
  apply (put_inv l a k t (mkTicket (tc_tenant_id t) false true (PActive s)) _ Hinv Hk eq_refl); cbn [tc_queued tc_active tc_phase]; rewrite ?Hq, ?Ha; cbn [Z.b2z]; try done.
  - cbn. rewrite (counts_value _ _ (tc_tenant_id t) (ci_inflight_by _ _ Hinv)).
    eapply counts_ext; [apply (counts_increment _ _ _ (ci_inflight_by _ _ Hinv)), in_flight_nonneg|]. intros u. cbn. lia.
  - unfold holds_global. rewrite Hp. cbn. lia.
  - cbn. by destruct (ci_global _ _ Hinv).
  - intros r v Hv. exists v. split; [done|]. unfold holds_slot. rewrite Hp. cbn [tc_phase].
    destruct (ci_semaphores _ _ Hinv r v Hv). lia.
  - intros r [= <-]. apply (ci_slot _ _ Hinv k); [done|]. by rewrite Hp.
  - cbn. pose proof (ticket_total a k t Hinv Hk (or_introl Hq)).
    destruct (Z.eqb_spec (in_queue a (tc_tenant_id t) + in_flight a (tc_tenant_id t) + (0 - 1) + (1 - 0)) 0); [lia|done].
Qed.

Lemma finished_inv a k t s : capacity_inv l a → ad_tickets a !! k = Some t → tc_phase t = PActive s →
  ∃ c, mark_finished (tc_tenant_id t) (release_slot s (release_global (ad_capacity a))) = Ok c
    ∧ capacity_inv l (put_ticket k (mkTicket (tc_tenant_id t) (tc_queued t) false PLeft) c a).
Proof.
  intros Hinv Hk Hp. pose proof (ci_tickets _ _ Hinv k t Hk) as Hok. unfold ticket_ok in Hok. rewrite Hp in Hok.
  destruct Hok as [Hq Ha].
  pose proof (ticket_active a k t Hk Ha) as H0.
  unfold mark_finished. cbn [release_slot release_global cp_inflight_by_tenant].
  destruct (counts_decrement _ _ _ (ci_inflight_by _ _ Hinv) H0) as (d & Hd1 & Hd2).
  change (cp_inflight_by_tenant (release_slot s (release_global (ad_capacity a)))) with
    (cp_inflight_by_tenant (ad_capacity a)). rewrite Hd1. cbn [mbind res_bind].
  erewrite (discard_spec _ (in_queue a)); [|exact (ci_queued_by _ _ Hinv)|exact Hd2|apply in_queue_nonneg|].
  2: cbn; rewrite one_at_same; lia.
  eexists. split; [done|].
  apply (put_inv l a k t (mkTicket (tc_tenant_id t) (tc_queued t) false PLeft) _ Hinv Hk eq_refl); cbn [tc_queued tc_active tc_phase]; rewrite ?Hq, ?Ha; cbn [Z.b2z]; try done.
  all: try (cbn; lia).
  - cbn. apply (counts_same _ _ _ (ci_queued_by _ _ Hinv)).
  - unfold holds_global. rewrite Hp. cbn. lia.
  - cbn. destruct (ci_global _ _ Hinv). lia.
  - cbn. by rewrite length_alter.
  - intros r v. cbn. intros Hv. unfold holds_slot. rewrite Hp. cbn [tc_phase]. destruct (Nat.eqb_spec s r) as [->|Hne]; cbn [Z.b2z].
    + rewrite list_lookup_alter_eq in Hv. destruct (cp_semaphores (ad_capacity a) !! r) as [v0|] eqn:E; [|done].
      cbn in Hv. injection Hv as <-. exists v0. destruct (ci_semaphores _ _ Hinv r v0 E). split_and!; [done|lia|lia].
    + rewrite list_lookup_alter, decide_False in Hv by done. exists v. destruct (ci_semaphores _ _ Hinv r v Hv). split_and!; [done|lia|lia].
  - cbn. rewrite one_at_same.
    match goal with |- (if ?x =? 0 then _ else _) = (if ?y =? 0 then _ else _) => replace x with y by lia end. done.
Qed.

Lemma close_inv a k t : capacity_inv l a → ad_tickets a !! k = Some t →
  match tc_phase t with PQueued | PLeft => True | _ => False end →
  ∃ c, close_ticket t (ad_capacity a) = Ok c
    ∧ capacity_inv l (put_ticket k (mkTicket (tc_tenant_id t) false (tc_active t) PClosed) c a).
Proof.
  intros Hinv Hk Hp. pose proof (ci_tickets _ _ Hinv k t Hk) as Hok. unfold ticket_ok in Hok.
  assert (tc_active t = false ∧ holds_global t = false ∧ (∀ s, holds_slot s t = false)) as (Ha & Hg & Hs).
  { unfold holds_global, holds_slot. destruct (tc_phase t); naive_solver. }
  assert (∀ c, cp_tenant_slots c = (if in_queue a (tc_tenant_id t) + in_flight a (tc_tenant_id t)
             + (Z.b2z false - Z.b2z (tc_queued t)) + 0 =? 0
            then ddel (tc_tenant_id t) (cp_tenant_slots (ad_capacity a)) else cp_tenant_slots (ad_capacity a)) →
    counts (cp_queued_by_tenant c) (λ u, in_queue a u + (Z.b2z false - Z.b2z (tc_queued t)) * one_at (tc_tenant_id t) u) →
    cp_queued c = cp_queued (ad_capacity a) + (Z.b2z false - Z.b2z (tc_queued t)) →
    cp_inflight c = cp_inflight (ad_capacity a) → cp_inflight_by_tenant c = cp_inflight_by_tenant (ad_capacity a) →
    cp_global c = cp_global (ad_capacity a) → cp_semaphores c = cp_semaphores (ad_capacity a) →
    capacity_inv l (put_ticket k (mkTicket (tc_tenant_id t) false (tc_active t) PClosed) c a)) as Hput.
  { intros c C1 C2 C3 C4 C5 C6 C7.
    apply (put_inv l a k t (mkTicket (tc_tenant_id t) false (tc_active t) PClosed) _ Hinv Hk eq_refl); cbn [tc_queued tc_active tc_phase]; rewrite ?Ha, ?Hg, ?C4, ?C5, ?C6, ?C7;
      cbn [Z.b2z]; try done; try lia.
    - destruct (tc_queued t); cbn; lia.
    - apply (counts_same _ _ _ (ci_inflight_by _ _ Hinv)).
    - unfold holds_global. cbn. lia.
    - by destruct (ci_global _ _ Hinv).
    - intros r v Hv. exists v. rewrite Hs. cbn. destruct (ci_semaphores _ _ Hinv r v Hv). split_and!; [done|lia|lia]. }
  unfold close_ticket. destruct (tc_queued t) eqn:Hq; cbn [negb].
  - pose proof (ticket_queued a k t Hk Hq) as H0.
    destruct (leave_queue_ok _ _ _ (ci_queued_by _ _ Hinv) H0) as (d & -> & Hd). cbn [mbind res_bind].
    erewrite discard_spec; [|exact Hd|exact (ci_inflight_by _ _ Hinv)| |apply in_flight_nonneg].
    2: cbn; rewrite one_at_same; lia.
    eexists. split; [done|]. apply Hput; try done; cbn.
    rewrite one_at_same.
    match goal with |- (if ?x =? 0 then _ else _) = (if ?y =? 0 then _ else _) => replace x with y by lia end. done.
  - eexists. split; [done|]. apply Hput; try done; cbn; try lia; [|apply (counts_same _ _ _ (ci_queued_by _ _ Hinv))].
    match goal with |- _ = (if ?x =? 0 then _ else _) => destruct (Z.eqb_spec x 0) as [E|]; [|done] end.
    destruct (dget (tc_tenant_id t) (cp_tenant_slots (ad_capacity a))) as [s|] eqn:Es.
    + destruct (ci_slots _ _ Hinv _ _ Es). lia.
    + symmetry. clear -Es. induction (cp_tenant_slots (ad_capacity a)) as [|[u s] d IH]; [done|]. cbn in *.
      case_decide; [done|]. by rewrite IH.
Qed.

(** A ticket waiting in [execute] leaves it without having started. *)
Lemma unwind_inv a k t s : capacity_inv l a → ad_tickets a !! k = Some t → phase_slot (tc_phase t) = Some s →
  match tc_phase t with PActive _ => False | _ => True end →
  ∃ c, leave_execute t (ad_capacity a) = Ok c
    ∧ capacity_inv l (put_ticket k (mkTicket (tc_tenant_id t) (tc_queued t) false PLeft) c a).
Proof.
  intros Hinv Hk Hs Hp. pose proof (ci_tickets _ _ Hinv k t Hk) as Hok. unfold ticket_ok in Hok.
  assert (tc_queued t = true ∧ tc_active t = false) as [Hq Ha] by (destruct (tc_phase t); naive_solver).
  destruct (ci_global _ _ Hinv) as [Hg Hg0].
  assert (mkTicket (tc_tenant_id t) (tc_queued t) false PLeft = at_phase PLeft t) as -> by (unfold at_phase; by rewrite Ha).
  assert (∀ r v', alter (λ v, v + 1) s (cp_semaphores (ad_capacity a)) !! r = Some v' →
    ∃ v, cp_semaphores (ad_capacity a) !! r = Some v ∧ v' = v + Z.b2z (Nat.eqb s r) ∧ 0 ≤ v') as Halter.
  { intros r v' Hv. rewrite list_lookup_alter in Hv. destruct (Nat.eqb_spec s r) as [<-|Hne]; cbn [Z.b2z].
    - rewrite decide_True in Hv by done. destruct (cp_semaphores (ad_capacity a) !! s) as [v|] eqn:E; [|done].
      cbn in Hv. injection Hv as <-. exists v. destruct (ci_semaphores _ _ Hinv s v E). split_and!; [done|lia|lia].
    - rewrite decide_False in Hv by done. exists v'. destruct (ci_semaphores _ _ Hinv r v' Hv). split_and!; [done|lia|lia]. }
  unfold leave_execute. destruct (tc_phase t) as [|r|r|r|r| |] eqn:Ep; try done; injection Hs as ->;
    (eexists; split; [done|]); apply waiting_inv; try done; unfold holds_global, holds_slot; rewrite ?Ep; cbn; try lia;
    rewrite ?length_alter; try done.
  - by destruct (ad_capacity a).
  - intros r v Hv. exists v. destruct (ci_semaphores _ _ Hinv r v Hv). split_and!; [done|lia|lia].
  - intros r v (v0 & E & -> & H0)%Halter. exists v0. split_and!; [done|lia|lia].
  - intros r v (v0 & E & -> & H0)%Halter. exists v0. split_and!; [done|lia|lia].
Qed.

Lemma capacity_step_ok a e : 0 < cl_tenant l → capacity_inv l a →
  ∃ b, capacity_step l a e = Ok b ∧ capacity_inv l b.
Proof.
  intros Hl Hinv. pose proof (ci_global _ _ Hinv) as [Hg Hg0]. destruct e as [tenant|tenant|k|k|k|k|k|k]; cbn [capacity_step].
  1-2: destruct (admit_capacity l tenant (ad_capacity a)) as [c|] eqn:E; [|by exists a];
    (eexists; split; [done|]); (eapply admit_inv; [done|exact E|]); auto.
  all: destruct (ad_tickets a !! k) as [t|] eqn:Hk; [|by exists a];
    pose proof (ci_tickets _ _ Hinv k t Hk) as Hok; unfold ticket_ok in Hok;
    destruct (tc_phase t) as [|s|s|s|s| |] eqn:Hp; try (by exists a).
  - destruct Hok as [Hq Ha]. assert (0 < in_queue a (tc_tenant_id t)) as H0.
    { by eapply ticket_queued. }
    destruct (tenant_slot_inv a (tc_tenant_id t) Hinv H0 Hl) as [Hinv' Hd].
    destruct (tenant_slot l (tc_tenant_id t) (ad_capacity a)) as [c s]. cbn [fst snd] in *.
    eexists. split; [done|]. apply (waiting_inv _ k t (PTenantWait s) c Hinv' Hk Hq Ha I); cbn; try done.
    + by intros ? [= <-].
    + by destruct c.
    + unfold holds_global. rewrite Hp. cbn. lia.
    + by destruct (ci_global _ _ Hinv').
    + intros r v Hv. exists v. unfold holds_slot. rewrite Hp. cbn.
      destruct (ci_semaphores _ _ Hinv' r v Hv). split_and!; [done|lia|lia].
  - destruct Hok as [Hq Ha]. destruct (slot_lookup a k t s Hinv Hk) as [v Hv]; [by rewrite Hp|]. rewrite Hv.
    destruct (Z.ltb_spec 0 v); [|by exists a]. eexists. split; [done|].
    apply (waiting_inv a k t (PGlobalWait s)); try done; unfold holds_global, holds_slot; rewrite ?Hp; cbn; try lia.
    + intros r [= <-]. apply (ci_slot _ _ Hinv k); [done|]. by rewrite Hp.
    + by rewrite length_insert.
    + intros r v' [(<- & <- & _)|[Hne Hv']]%list_lookup_insert_Some.
      * exists v. rewrite Nat.eqb_refl. cbn. split_and!; [done|lia|lia].
      * exists v'. apply Nat.eqb_neq in Hne as ->. cbn. destruct (ci_semaphores _ _ Hinv r v' Hv'). split_and!; [done|lia|lia].
  - destruct Hok as [Hq Ha]. destruct (Z.ltb_spec 0 (cp_global (ad_capacity a))); [|by exists a]. eexists. split; [done|].
    apply (waiting_inv a k t (PReady s)); try done; unfold holds_global, holds_slot; rewrite ?Hp; cbn; try lia.
    + intros r [= <-]. apply (ci_slot _ _ Hinv k); [done|]. by rewrite Hp.
    + intros r v Hv. exists v. destruct (ci_semaphores _ _ Hinv r v Hv). split_and!; [done|lia|lia].
  - destruct (started_inv a k t s Hinv Hk Hp) as (c & -> & Hc). by eexists.
  - destruct (unwind_inv a k t s Hinv Hk) as (c & -> & Hc); [by rewrite Hp|by rewrite Hp|]. by eexists.
  - destruct (unwind_inv a k t s Hinv Hk) as (c & -> & Hc); [by rewrite Hp|by rewrite Hp|]. by eexists.
  - destruct (unwind_inv a k t s Hinv Hk) as (c & -> & Hc); [by rewrite Hp|by rewrite Hp|]. by eexists.
  - unfold leave_execute. rewrite Hp. destruct (finished_inv a k t s Hinv Hk Hp) as (c & -> & Hc). by eexists.
  - destruct (close_inv a k t Hinv Hk) as (c & -> & Hc); [by rewrite Hp|]. by eexists.
  - destruct (close_inv a k t Hinv Hk) as (c & -> & Hc); [by rewrite Hp|]. by eexists.
Qed.

Lemma capacity_run_ok a es : 0 < cl_tenant l → capacity_inv l a →
  ∃ b, capacity_run l es a = Ok b ∧ capacity_inv l b.
Proof.
  intros Hl. revert a. induction es as [|e es IH]; intros a Hinv; [by exists a|].
  destruct (capacity_step_ok a e Hl Hinv) as (b & Hb & Hinvb). destruct (IH b Hinvb) as (c & Hc & Hinvc).
  exists c. split; [|done]. unfold capacity_run in *. cbn [foldM]. rewrite Hb. exact Hc.
Qed.

Lemma limits_positive : is_ok (capacity_limits l) = true → 0 < cl_tenant l.
Proof. unfold capacity_limits. intros. repeat case_match; try discriminate. bool_props. lia. Qed.

(** The tickets of a tenant in flight hold permits of the tenant's semaphore. *)
Lemma in_flight_limit a tenant : capacity_inv l a → 0 < cl_tenant l → in_flight a tenant ≤ cl_tenant l.
Proof.
  intros Hinv Hl. pose proof (in_flight_nonneg a tenant) as H0.
  destruct (decide (in_flight a tenant = 0)) as [->|Hne]; [lia|].
  assert (∀ t, t ∈ ad_tickets a → active_of tenant t = true → ∃ s, tc_phase t = PActive s ∧
    dget tenant (cp_tenant_slots (ad_capacity a)) = Some s) as Hact.
  { intros t [k Hk]%list_elem_of_lookup Ht. unfold active_of in Ht. bool_props. subst tenant.
    pose proof (ci_tickets _ _ Hinv k t Hk) as Hok. unfold ticket_ok in Hok.
    destruct (tc_phase t) as [|s|s|s|s| |] eqn:E; try (destruct Hok; congruence); [|congruence].
    exists s. split; [done|]. apply (ci_slot _ _ Hinv k); [done|]. by rewrite E. }
  destruct (dget tenant (cp_tenant_slots (ad_capacity a))) as [s|] eqn:Hs.
  - destruct (ci_slots _ _ Hinv _ _ Hs) as [[v Hv]%lookup_lt_is_Some_2 _].
    destruct (ci_semaphores _ _ Hinv s v Hv) as [Hv1 Hv2].
    assert (in_flight a tenant ≤ cnt (holds_slot s) (ad_tickets a)); [|lia]. apply cnt_mono.
    intros t Ht Hat. destruct (Hact t Ht Hat) as (s' & Hp & [= <-]). unfold holds_slot. rewrite Hp. apply Nat.eqb_refl.
  - exfalso. apply Hne. apply cnt_zero. intros t Ht. destruct (active_of tenant t) eqn:E; [|done].
    by destruct (Hact t Ht E) as (? & _ & ?).
Qed.

Lemma counts_none d : counts d (λ _, 0) → d = [].
Proof. intros [_ Hd]. destruct d as [|[k n] d]; [done|]. specialize (Hd k). cbn in Hd. by rewrite decide_True in Hd. Qed.

(** C25. In every history of admissions, timeouts, cancellations and completions no
    operation fails, the counters count the tickets, no more executions run at once
    than the global limit, nor of one tenant than the tenant limit, and the queues
    keep their limits; and when every ticket is closed and none was lost, the
    capacity is as new: all permits are back and no tenant is left. *)
Theorem capacity_respected es : is_ok (capacity_limits l) = true →
  ∃ a, capacity_run l es (opened l) = Ok a ∧
  let c := ad_capacity a in
  cp_inflight c = cnt tc_active (ad_tickets a) ∧ cp_inflight c ≤ cl_global l ∧
  (∀ tenant, default 0 (dget tenant (cp_inflight_by_tenant c)) = cnt (active_of tenant) (ad_tickets a) ∧
             cnt (active_of tenant) (ad_tickets a) ≤ cl_tenant l) ∧
  cp_queued c ≤ cl_global_queue l ∧
  (∀ tenant, default 0 (dget tenant (cp_queued_by_tenant c)) ≤ cl_tenant_queue l) ∧
  (Forall (λ t, tc_phase t = PClosed) (ad_tickets a) → ad_lost a = [] →
   c = new_capacity l <| cp_semaphores := cp_semaphores c |>).
Proof.
  intros Hl. pose proof (limits_positive Hl) as H0. destruct (capacity_run_ok (opened l) es H0 (opened_inv Hl)) as (a & Ha & Hinv).
  exists a. split; [done|]. cbn zeta. pose proof (ci_inflight _ _ Hinv) as Hif.
  destruct (ci_global _ _ Hinv) as [Hg Hg0]. split_and!.
  - done.
  - rewrite Hif. assert (cnt tc_active (ad_tickets a) ≤ cnt holds_global (ad_tickets a)); [|lia]. apply cnt_mono.
    intros t [k Hk]%list_elem_of_lookup Ht. pose proof (ci_tickets _ _ Hinv k t Hk) as Hok. unfold ticket_ok in Hok.
    unfold holds_global. destruct (tc_phase t); try (destruct Hok; congruence); try done.
  - intros tenant. split; [by rewrite (counts_value _ _ tenant (ci_inflight_by _ _ Hinv))|by apply in_flight_limit].
  - apply (ci_queue_limit _ _ Hinv).
  - intros tenant. rewrite (counts_value _ _ tenant (ci_queued_by _ _ Hinv)). apply (ci_queue_limits _ _ Hinv).
  - intros Hall Hlost. rewrite List.Forall_forall in Hall.
    assert (∀ P, (∀ t, tc_phase t = PClosed → ticket_ok t → P t = false) → cnt P (ad_tickets a) = 0) as Hzero.
    { intros P HP. apply cnt_zero. intros t Ht. apply HP; [apply Hall; by apply list_elem_of_In|].
      apply list_elem_of_lookup in Ht as [k Hk]. by apply (ci_tickets _ _ Hinv k). }
    assert (∀ tenant, in_queue a tenant = 0) as Hq.
    { intros u. unfold in_queue. rewrite Hlost, Hzero; [done|]. intros t Hp Hok. unfold ticket_ok in Hok. rewrite Hp in Hok.
      unfold queued_of. by destruct Hok as [-> _]. }
    assert (∀ tenant, in_flight a tenant = 0) as Hf.
    { intros u. apply Hzero. intros t Hp Hok. unfold ticket_ok in Hok. rewrite Hp in Hok.
      unfold active_of. by destruct Hok as [_ ->]. }
    assert (cp_tenant_slots (ad_capacity a) = []) as Hslots.
    { destruct (cp_tenant_slots (ad_capacity a)) as [|[u s] d] eqn:E; [done|].
      destruct (ci_slots _ _ Hinv u s) as [_ Hpos]; [rewrite E; cbn; by rewrite decide_True|]. rewrite Hq, Hf in Hpos. lia. }
    pose proof (counts_none _ (counts_ext _ _ _ (ci_queued_by _ _ Hinv) Hq)) as Hqb.
    pose proof (counts_none _ (counts_ext _ _ _ (ci_inflight_by _ _ Hinv) Hf)) as Hfb.
    pose proof (ci_queued _ _ Hinv) as Hqc. rewrite Hlost in Hqc. rewrite Hzero in Hg, Hif, Hqc;
      try (intros t Hp Hok; unfold ticket_ok in Hok; rewrite Hp in Hok; by destruct Hok as [? ?]).
    2: intros t Hp _; unfold holds_global; by rewrite Hp.
    destruct (ad_capacity a). cbn in *. subst. by rewrite Z.sub_0_r.
Qed.

Lemma lost_grows a e b : capacity_step l a e = Ok b → ∃ x, ad_lost b = x ++ ad_lost a.
Proof.
  intros H. destruct e; cbn [capacity_step] in H; repeat case_match; inv_res; subst; cbn;
    try (by exists []). by exists [tenant].
Qed.

(** A caller cancelled in [admit] after it was counted keeps its place in the queue
    for ever: once as many callers of a tenant were lost as its queue holds, every
    admission of the tenant is rejected, whatever else happens. *)
Theorem lost_admissions_exhaust es es' tenant a b : is_ok (capacity_limits l) = true →
  capacity_run l es (opened l) = Ok a → cl_tenant_queue l ≤ cnt (String.eqb tenant) (ad_lost a) →
  capacity_run l es' a = Ok b →
  ∃ reason, admit_capacity l tenant (ad_capacity b) = inr reason.
Proof.
  intros Hl Ha Hlost Hb. pose proof (limits_positive Hl) as H0.
  destruct (capacity_run_ok (opened l) es H0 (opened_inv Hl)) as (a' & Ha' & Hinv). rewrite Ha in Ha'. injection Ha' as <-.
  destruct (capacity_run_ok a es' H0 Hinv) as (b' & Hb' & Hinvb). rewrite Hb in Hb'. injection Hb' as <-.
  assert (cl_tenant_queue l ≤ cnt (String.eqb tenant) (ad_lost b)) as Hlostb.
  { eapply (foldM_inv (λ a, cl_tenant_queue l ≤ cnt (String.eqb tenant) (ad_lost a)) (capacity_step l));
      [|exact Hlost|exact Hb]. cbn. intros x e y _ Hx [z Hz]%lost_grows. rewrite Hz. unfold cnt in *.
    rewrite List.filter_app, length_app. lia. }
  unfold admit_capacity. rewrite (counts_value _ _ tenant (ci_queued_by _ _ Hinvb)).
  pose proof (cnt_nonneg (queued_of tenant) (ad_tickets b)). unfold in_queue.
  destruct (cl_global_queue l <=? _); [by eexists|].
  destruct (Z.leb_spec (cl_tenant_queue l) (cnt (queued_of tenant) (ad_tickets b) + cnt (String.eqb tenant) (ad_lost b)));
    [by eexists|lia].
Qed.
End events.

(** ** A concrete history *)

Module CapacityExamples.
Definition small : CapacityLimits := mkLimits 2 1 4 2 5.
Definition busy : list CapacityEvent :=
  [CAdmit "a"; CAdmit "a"; CAdmit "a"; CAdmit "b"; CEnter 0; CEnter 1; CEnter 2; CTenantAcquired 0; CTenantAcquired 1;
   CTenantAcquired 2; CGlobalAcquired 0; CGlobalAcquired 2; CStarted 0; CStarted 2].
Definition finish : list CapacityEvent :=
  [CLeave 0; CClose 0; CTenantAcquired 1; CLeave 1; CClose 1; CLeave 2; CClose 2].

(** The second call of tenant [a] waits for the first; the third is rejected. *)
Example busy_state : fmap (λ a, (cp_inflight (ad_capacity a), cp_queued (ad_capacity a), map tc_phase (ad_tickets a)))
  (capacity_run small busy (opened small)) = Ok (2, 1, [PActive 0; PTenantWait 0; PActive 1]).
Proof. vm_compute. reflexivity. Qed.

Lemma small_ok : is_ok (capacity_limits small) = true.
Proof. reflexivity. Qed.

Lemma capacity_respected_witness :
  ∃ a, capacity_run small (busy ++ finish) (opened small) = Ok a ∧ cp_inflight (ad_capacity a) ≤ 2.
Proof.
  destruct (capacity_respected small (busy ++ finish) small_ok) as (a & Ha & _ & Hlim & _).
  exists a. split; [exact Ha|exact Hlim].
Defined.

Notation lost_twice := [CAdmitCancelled "a"; CAdmitCancelled "a"].
Definition after_lost : Admission := match capacity_run small lost_twice (opened small) with Ok a => a | Raise _ _ => opened small end.
Definition later : Admission := match capacity_run small [CAdmit "b"; CEnter 0; CLeave 0; CClose 0] after_lost with Ok a => a | Raise _ _ => opened small end.

Lemma lost_admissions_exhaust_witness : ∃ reason, admit_capacity small "a" (ad_capacity later) = inr reason.
Proof.
  exact (lost_admissions_exhaust small lost_twice [CAdmit "b"; CEnter 0; CLeave 0; CClose 0] "a" after_lost later small_ok
           eq_refl (proj1 (Z.leb_le 2 2) eq_refl) eq_refl).
Defined.
End CapacityExamples.
