(* ===== verification/JsonSchema.v ===== *)
(** * Bounded JSON Schema validation ([contracts/json_schema.py])

    The checks around the validator of the [jsonschema] package: the bounds on the
    schema and on the instance, computed with an explicit stack, the choice of the
    dialect, the JSON pointers of an error and the order in which errors are
    reported.  The package itself is the class [SchemaEngine]; the work counter that
    wraps its keywords, and the patterns, are part of it. *)

From Stdlib Require Import Ascii.
From S2P Require Import Prelude PyValue Digest JsonCodec Contracts.
Local Open Scope Z_scope.

(** ** [_check_bounds] *)

(** [item.values()] or the elements: what [pending.extend] pushes, in order. *)
Definition child_values (v : json) : list json :=
  match v with JObj d => map snd d | JArr l => l | _ => [] end.

Definition ref_keywords : list string := ["$ref"; "$dynamicRef"; "$recursiveRef"].

(** A reference out of the document. *)
Definition external_ref (v : json) : bool :=
  match v with
  | JObj d => existsb (λ k, match dget k d with
                            | Some (JStr s) => negb (String.prefix "#" s)
                            | _ => false end) ref_keywords
  | _ => false
  end.
Definition has_member (k : string) (v : json) : bool := match v with JObj d => dmem k d | _ => false end.

Definition max_depth : Z := 64.
Definition max_nodes (schema : bool) : Z := if schema then 10000 else 50000.

Definition limits_exceeded : res unit :=
  Raise InvalidToolSchemaError "JSON Schema or instance exceeds validation limits".

(** The loop; the head of [pending] is the item that [pop] returns. *)
Fixpoint bounds_loop (fuel : nat) (schema : bool) (pending : list (json * Z)) (count : Z) (patterns unevaluated : bool)
    : res unit :=
  match pending with
  | [] =>
      if patterns && unevaluated
      then Raise InvalidToolSchemaError
             "patternProperties combined with unevaluatedProperties is not supported within bounded validation"
      else Ok tt
  | (item, depth) :: pending =>
      match fuel with
      | O => Raise Diverges EmptyString
      | S fuel =>
          let count := count + 1 in
          if (max_depth <? depth) || (max_nodes schema <? count) then limits_exceeded
          else if schema && external_ref item
          then Raise InvalidToolSchemaError "external JSON Schema references are not allowed"
          else bounds_loop fuel schema (rev (map (λ c, (c, depth + 1)) (child_values item)) ++ pending) count
                 (patterns || schema && has_member "patternProperties" item)
                 (unevaluated || schema && has_member "unevaluatedProperties" item)
      end
  end.

(** The number of values in a value: the loop takes one of them each time. *)
Fixpoint node_count (v : json) : nat :=
  match v with
  | JArr l => S (list_sum (map node_count l))
  | JObj d => S (list_sum (map (λ kv, match kv with (_, w) => node_count w end) d))
  | _ => 1%nat
  end.

Definition check_bounds (schema : bool) (value : json) : res unit :=
  bounds_loop (node_count value) schema [(value, 0)] 0 false false.

(** *** What the loop decides, by recursion on the value *)

Fixpoint nodes (v : json) (depth : Z) : list (json * Z) :=
  (v, depth) ::
  match v with
  | JArr l => flat_map (λ w, nodes w (depth + 1)) l
  | JObj d => flat_map (λ kv, match kv with (_, w) => nodes w (depth + 1) end) d
  | _ => []
  end.

Definition bounds_spec (schema : bool) (value : json) : Prop :=
  (∀ v n, (v, n) ∈ nodes value 0 → n ≤ max_depth) ∧
  Z.of_nat (length (nodes value 0)) ≤ max_nodes schema ∧
  (schema = true →
    (∀ v n, (v, n) ∈ nodes value 0 → external_ref v = false) ∧
    ¬ ((∃ v n, (v, n) ∈ nodes value 0 ∧ has_member "patternProperties" v = true) ∧
       (∃ v n, (v, n) ∈ nodes value 0 ∧ has_member "unevaluatedProperties" v = true))).

Lemma nodes_children v depth : nodes v depth = (v, depth) :: flat_map (λ w, nodes w (depth + 1)) (child_values v).
Proof.
  destruct v; try done. cbn. f_equal. induction d as [|[k w] d IH]; [done|]. cbn. by rewrite IH.
Qed.

Lemma node_count_children v : node_count v = S (list_sum (map node_count (child_values v))).
Proof.
  destruct v; try done. cbn. f_equal. rewrite map_map. f_equal. apply map_ext. by intros [].
Qed.

Definition stack_nodes (pending : list (json * Z)) : list (json * Z) := flat_map (λ p, nodes p.1 p.2) pending.

Lemma stack_nodes_app l k : stack_nodes (l ++ k) = stack_nodes l ++ stack_nodes k.
Proof. apply flat_map_app. Qed.

Lemma stack_nodes_children depth l :
  stack_nodes (rev (map (λ c, (c, depth)) l)) ≡ₚ flat_map (λ w, nodes w depth) l.
Proof.
  induction l as [|w l IH]; [done|]. cbn [map rev flat_map]. rewrite stack_nodes_app, IH.
  unfold stack_nodes. cbn [flat_map fst snd]. rewrite app_nil_r. apply Permutation_app_comm.
Qed.

Definition pending_count (pending : list (json * Z)) : nat := list_sum (map (λ p, node_count p.1) pending).

Lemma pending_count_cons p l : pending_count (p :: l) = (node_count p.1 + pending_count l)%nat.
Proof. done. Qed.
Lemma pending_count_app l k : pending_count (l ++ k) = (pending_count l + pending_count k)%nat.
Proof. unfold pending_count. by rewrite map_app, list_sum_app. Qed.
Lemma pending_count_children depth l :
  pending_count (rev (map (λ c, (c, depth)) l)) = list_sum (map node_count l).
Proof.
  induction l as [|w l IH]; [done|]. cbn [map rev]. rewrite pending_count_app, IH.
  unfold pending_count, list_sum. cbn [map fold_right fst]. lia.
Qed.

(** A flag after one more node. *)
Lemma flag_step (flag schema : bool) (k : string) (item : json) (depth : Z) (l : list (json * Z)) :
  (flag = true ∨ schema = true ∧ ∃ v n, ((v = item ∧ n = depth) ∨ (v, n) ∈ l) ∧ has_member k v = true) ↔
  ((flag = true ∨ schema = true ∧ has_member k item = true) ∨
   schema = true ∧ ∃ v n, (v, n) ∈ l ∧ has_member k v = true).
Proof.
  split.
  - intros [Hf|(Hs & v & n & [[-> ->]|Hin] & Hk)]; [by left; left|by left; right|right]. split; [done|]. by exists v, n.
  - intros [[Hf|[Hs Hk]]|(Hs & v & n & Hin & Hk)]; [by left|right; split; [done|]..].
    + exists item, depth. split; [by left|done].
    + exists v, n. split; [by right|done].
Qed.

(** The loop ends within its fuel and visits every node of the stack. *)
Lemma bounds_loop_spec fuel schema pending count patterns unevaluated : (pending_count pending ≤ fuel)%nat →
  let all := stack_nodes pending in
  let r := bounds_loop fuel schema pending count patterns unevaluated in
  (r = Ok tt ∨ ∃ m, r = Raise InvalidToolSchemaError m) ∧
  (r = Ok tt ↔
    (∀ v n, (v, n) ∈ all → n ≤ max_depth) ∧
    (all = [] ∨ count + Z.of_nat (length all) ≤ max_nodes schema) ∧
    (schema = true → ∀ v n, (v, n) ∈ all → external_ref v = false) ∧
    ¬ ((patterns = true ∨ schema = true ∧ ∃ v n, (v, n) ∈ all ∧ has_member "patternProperties" v = true) ∧
       (unevaluated = true ∨ schema = true ∧ ∃ v n, (v, n) ∈ all ∧ has_member "unevaluatedProperties" v = true))).
Proof.
  revert pending count patterns unevaluated. induction fuel as [|fuel IH]; intros pending count patterns unevaluated Hfuel.
  all: destruct pending as [|[item depth] pending].
  1,3: cbn; split; [destruct (patterns && unevaluated); [right; by eexists|by left]|];
    destruct patterns, unevaluated; cbn; set_solver.
  { exfalso. rewrite pending_count_cons in Hfuel. cbn [fst] in Hfuel. rewrite node_count_children in Hfuel. lia. }
  set (next := rev (map (λ c, (c, depth + 1)) (child_values item)) ++ pending).
  assert (stack_nodes ((item, depth) :: pending) ≡ₚ (item, depth) :: stack_nodes next) as Hperm.
  { unfold next. rewrite stack_nodes_app, stack_nodes_children.
    change (stack_nodes ((item, depth) :: pending)) with (nodes item depth ++ stack_nodes pending).
    by rewrite nodes_children. }
  assert (pending_count next ≤ fuel)%nat as Hnext.
  { unfold next. rewrite pending_count_app, pending_count_children. rewrite pending_count_cons in Hfuel.
    cbn [fst] in Hfuel. rewrite node_count_children in Hfuel. lia. }
  assert (∀ v n, (v, n) ∈ stack_nodes ((item, depth) :: pending) ↔
            (v = item ∧ n = depth) ∨ (v, n) ∈ stack_nodes next) as Hin.
  { intros v n. rewrite Hperm, elem_of_cons. naive_solver. }
  pose proof (Permutation_length Hperm) as Hlen. cbn [length] in Hlen.
  set (all := stack_nodes ((item, depth) :: pending)) in *. cbn zeta. cbn [bounds_loop]. fold next.
  setoid_rewrite Hin. rewrite Hlen, !flag_step.
  assert (all ≠ []) as Hne by (intros E; by rewrite E in Hlen).
  destruct (Z.ltb_spec max_depth depth) as [Hd|Hd]; cbn [orb].
  { split; [right; by eexists|]. split; [discriminate|]. intros (H & _). specialize (H item depth (or_introl (conj eq_refl eq_refl))). lia. }
  destruct (Z.ltb_spec (max_nodes schema) (count + 1)) as [Hc|Hc].
  { split; [right; by eexists|]. split; [discriminate|]. intros (_ & [|H] & _); [done|]. lia. }
  destruct (schema && external_ref item) eqn:Hx.
  { apply andb_true_iff in Hx as [-> Hx]. split; [right; by eexists|]. split; [discriminate|].
    intros (_ & _ & H & _). specialize (H eq_refl item depth (or_introl (conj eq_refl eq_refl))). congruence. }
  destruct (IH next (count + 1) (patterns || schema && has_member "patternProperties" item)
    (unevaluated || schema && has_member "unevaluatedProperties" item) Hnext) as [H1 H2].
  split; [exact H1|]. rewrite H2, !orb_true_iff, !andb_true_iff.
  assert (stack_nodes next = [] ↔ length (stack_nodes next) = 0%nat) as Hnil by (symmetry; apply length_zero_iff_nil).
  rewrite Hnil. clear H1 H2 IH Hnil Hperm. split.
  - intros (A1 & A2 & A3 & A4). split_and!.
    + intros v n [[-> ->]|H]; eauto.
    + right. lia.
    + intros -> v n [[-> ->]|H]; [by destruct (external_ref item)|eauto].
    + exact A4.
  - intros (A1 & A2 & A3 & A4). split_and!.
    + intros v n H. eauto.
    + right. destruct A2 as [|A2]; [done|]. lia.
    + intros -> v n H. eapply (A3 eq_refl); eauto.
    + exact A4.
Qed.

(** C36. [_check_bounds] always ends; it accepts exactly the values whose nodes are at
    depth at most 64 and at most 10000 (schema) or 50000 (instance) in number, and, for a
    schema, that hold no external reference and do not combine [patternProperties]
    with [unevaluatedProperties]; it raises [InvalidToolSchemaError] otherwise. *)
Theorem check_bounds_exact schema value :
  (check_bounds schema value = Ok tt ↔ bounds_spec schema value) ∧
  (check_bounds schema value = Ok tt ∨ ∃ m, check_bounds schema value = Raise InvalidToolSchemaError m).
Proof.
  unfold check_bounds, bounds_spec.
  destruct (bounds_loop_spec (node_count value) schema [(value, 0)] 0 false false) as [H1 H2].
  { rewrite pending_count_cons. unfold pending_count. cbn [map list_sum fold_right fst]. unfold list_sum. cbn. lia. }
  unfold stack_nodes in H2. cbn [flat_map fst snd] in H2. rewrite app_nil_r in H2. split; [|exact H1].
  rewrite H2. assert (nodes value 0 ≠ []) as Hne by by rewrite nodes_children.
  split.
  - intros (A1 & [|A2] & A3 & A4); [done|]. split_and!; [done|lia|]. intros ->. split; [by apply A3|].
    intros [P1 P2]. apply A4. split; right; by split.
  - intros (A1 & A2 & A3). split_and!; [done|right; lia|intros Hs; by apply A3|].
    intros [[|[Hs P1]] [|[_ P2]]]; try done. by destruct (proj2 (A3 Hs)).
Qed.

(** ** JSON pointers *)

Fixpoint escape_part (s : string) : string :=
  match s with
  | EmptyString => EmptyString
  | String c s => (if Ascii.eqb c "~" then "~0" else if Ascii.eqb c "/" then "~1" else str1 c) +:+ escape_part s
  end.

(** [_pointer] *)
Definition json_pointer (path : list json) : string :=
  match path with
  | [] => EmptyString
  | _ => "/" +:+ String.concat "/" (map (λ p, escape_part (py_str p)) path)
  end.

(** The reference tokens of a pointer (RFC 6901). *)
Fixpoint split_slash (s : string) : list string :=
  match s with
  | EmptyString => [EmptyString]
  | String c s =>
      if Ascii.eqb c "/" then EmptyString :: split_slash s
      else match split_slash s with t :: ts => String c t :: ts | [] => [str1 c] end
  end.
Fixpoint unescape_part (s : string) : string :=
  match s with
  | String "~" (String "0" s) => String "~" (unescape_part s)
  | String "~" (String "1" s) => String "/" (unescape_part s)
  | String c s => String c (unescape_part s)
  | EmptyString => EmptyString
  end.
Definition pointer_tokens (s : string) : list string :=
  match s with
  | EmptyString => []
  | String _ s => map unescape_part (split_slash s)
  end.

Lemma unescape_escape s : unescape_part (escape_part s) = s.
Proof.
  induction s as [|c s IH]; [done|]. cbn [escape_part].
  destruct (Ascii.eqb_spec c "~") as [->|H1].
  { change (String "~" (unescape_part (escape_part s)) = String "~" s). by rewrite IH. }
  destruct (Ascii.eqb_spec c "/") as [->|H2].
  { change (String "/" (unescape_part (escape_part s)) = String "/" s). by rewrite IH. }
  assert (∀ t, unescape_part (String c t) = String c (unescape_part t)) as Hc.
  { intros t. destruct c as [[] [] [] [] [] [] [] []]; done. }
  change (unescape_part (String c (escape_part s)) = String c s). by rewrite Hc, IH.
Qed.

Lemma split_slash_ne s : split_slash s ≠ [].
Proof. destruct s as [|c s]; cbn; [done|]. destruct (Ascii.eqb c "/"); [done|]. by destruct (split_slash s). Qed.

Lemma split_escaped s rest ts : (rest = EmptyString ∧ ts = [] ∨ ∃ r, rest = String "/" r ∧ ts = split_slash r) →
  split_slash (escape_part s +:+ rest) = escape_part s :: ts.
Proof.
  intros Hr. assert (∀ c t, Ascii.eqb c "/" = false → split_slash (t +:+ rest) = t :: ts →
    split_slash (String c t +:+ rest) = String c t :: ts) as Hcons.
  { intros c t Hc Ht. change (String c t +:+ rest) with (String c (t +:+ rest)). cbn [split_slash].
    by rewrite Hc, Ht. }
  induction s as [|c s IH].
  - destruct Hr as [[-> ->]|(r & -> & ->)]; done.
  - cbn [escape_part]. destruct (Ascii.eqb_spec c "~") as [->|H1]; [apply Hcons; [done|]; by apply Hcons|].
    destruct (Ascii.eqb_spec c "/") as [->|H2]; [apply Hcons; [done|]; by apply Hcons|].
    apply Hcons; [by apply Ascii.eqb_neq|done].
Qed.

Lemma split_concat l : l ≠ [] → split_slash (String.concat "/" (map escape_part l)) = map escape_part l.
Proof.
  induction l as [|s l IH]; [done|]. intros _. destruct l as [|s' l].
  - change (String.concat "/" (map escape_part [s])) with (escape_part s).
    assert (∀ t, t +:+ EmptyString = t) as Hnil.
    { induction t as [|c t IHt]; [done|]. change (String c (t +:+ EmptyString) = String c t). by rewrite IHt. }
    rewrite <- (Hnil (escape_part s)) at 1. apply split_escaped. by left.
  - change (String.concat "/" (map escape_part (s :: s' :: l)))
      with (escape_part s +:+ String "/" (String.concat "/" (map escape_part (s' :: l)))).
    cbn [map]. apply split_escaped. right. eexists. split; [done|]. symmetry. by apply IH.
Qed.

(** The pointer reported for a location gives back every step of the path: the
    escapes of [~] and [/] are inverted by reading it as RFC 6901 says, so distinct
    paths have distinct pointers. *)
Theorem pointer_roundtrip path : pointer_tokens (json_pointer path) = map py_str path.
Proof.
  destruct path as [|p path]; [done|]. unfold json_pointer.
  change (map unescape_part (split_slash (String.concat "/" (map (λ p, escape_part (py_str p)) (p :: path))))
    = map py_str (p :: path)).
  rewrite <- (map_map py_str escape_part), split_concat by done. rewrite map_map.
  rewrite (map_ext _ id) by apply unescape_escape. by rewrite map_id.
Qed.

(** ** Validation *)

(** An error of [iter_errors]. *)
Record SchemaError := mkSchemaError {
  se_absolute_path : list json;
  se_absolute_schema_path : list json;
  se_validator : json;
  se_validator_value : json;
  se_instance : json;
}.

(** How the iteration of the errors ends: exhausted, out of the work limit or the size
    and time limits of a pattern, or at a reference that does not resolve. *)
Inductive IterationEnd := Exhausted | LimitExceeded (message : string) | UnresolvedReference.

Inductive Dialect := Draft7 | Draft201909 | Draft202012.

Class SchemaEngine := {
  meta_valid : Dialect → json → bool;
  iter_errors : Dialect → json → json → list SchemaError * IterationEnd;
}.

(** A raised [SchemaValidationError], with its [validation_errors]. *)
Record SchemaFailure := mkSchemaFailure { sf_message : string; sf_validation_errors : list json }.

Fixpoint finite_json (v : json) : bool :=
  match v with
  | JFloat f => f64_isfinite f
  | JArr l => forallb finite_json l
  | JObj d => forallb (λ kv, match kv with (_, w) => finite_json w end) d
  | _ => true
  end.

(** [json.loads] of the encoded text: the members in key order. *)
Fixpoint decoded (v : json) : json :=
  match v with
  | JArr l => JArr (map decoded l)
  | JObj d => JObj (sort_members (map (λ kv, match kv with (k, w) => (k, decoded w) end) d))
  | v => v
  end.

Lemma sort_insert_map {A B} (f : A → B) (le : A → A → bool) (le' : B → B → bool) x l :
  (∀ a b, le' (f a) (f b) = le a b) → sort_insert le' (f x) (map f l) = map f (sort_insert le x l).
Proof. intros Hle. induction l as [|y l IH]; [done|]. cbn [map sort_insert]. rewrite Hle, IH. by case_match. Qed.
Lemma sort_members_map {V W} (f : V → W) d :
  sort_members (map (λ kv, (kv.1, f kv.2)) d) = map (λ kv, (kv.1, f kv.2)) (sort_members d).
Proof.
  unfold sort_members. induction d as [|kv d IH]; [done|]. cbn [map py_sorted]. rewrite IH.
  by apply (sort_insert_map (λ kv : string * V, (kv.1, f kv.2))).
Qed.

(** The text with sorted keys is the plain text of [decoded]. *)
Lemma dumps_decoded v : json_dumps true v = json_plain (decoded v).
Proof.
  revert v. apply (json_nested_ind (λ v, json_dumps true v = json_plain (decoded v))).
  - by intros [].
  - intros l IH. unfold json_dumps, json_plain in *. cbn [json_text decoded]. rewrite map_map. do 3 f_equal.
    apply map_ext_in. intros w Hw. rewrite Forall_forall in IH. apply IH. by apply list_elem_of_In.
  - intros d IH. cbn [decoded]. rewrite plain_object. unfold json_dumps. cbn [json_text].
    assert (map (λ kv, match kv with (k, v) => (k, json_text true "," ":" true v) end) d
      = map (λ kv, (kv.1, json_plain kv.2)) (map (λ kv, match kv with (k, w) => (k, decoded w) end) d)) as ->.
    { rewrite map_map. apply map_ext_in. intros [k w] Hw. cbn. f_equal. rewrite Forall_forall in IH.
      apply (IH (k, w)). by apply list_elem_of_In. }
    rewrite sort_members_map, map_map. done.
Qed.

Lemma forallb_perm {A} (f : A → bool) l k : l ≡ₚ k → forallb f l = forallb f k.
Proof. induction 1; cbn; try congruence. by destruct (f x), (f y). Qed.

Lemma decoded_plain v : plain_json v = true → plain_json (decoded v) = true.
Proof.
  revert v. apply (json_nested_ind (λ v, plain_json v = true → plain_json (decoded v) = true)).
  - by intros [].
  - intros l IH Hl. cbn [plain_json decoded] in *. rewrite forallb_forall in *. intros w Hw.
    apply in_map_iff in Hw as (x & <- & Hx). rewrite Forall_forall in IH. apply IH; [by apply list_elem_of_In|auto].
  - intros d IH Hd. cbn [plain_json decoded] in *. apply andb_true_iff in Hd as [Hnd Hd]. apply bool_decide_eq_true_1 in Hnd.
    pose proof (py_sorted_perm (λ a b : string * json, String.leb a.1 b.1)
      (map (λ kv, match kv with (k, w) => (k, decoded w) end) d)) as Hp.
    apply andb_true_iff. split.
    + apply bool_decide_eq_true_2. unfold dkeys, sort_members. rewrite Hp. fold (dkeys (map (λ kv, match kv with (k, w) => (k, decoded w) end) d)).
      assert (dkeys (map (λ kv : string * json, match kv with (k, w) => (k, decoded w) end) d) = dkeys d) as ->; [|done].
      unfold dkeys. rewrite <- list_fmap_compose. apply list_fmap_ext. by intros ? [].
    + unfold sort_members. rewrite (forallb_perm _ _ _ Hp). rewrite forallb_forall in *. intros [k w] Hw.
      apply in_map_iff in Hw as ([k' x] & [= <- <-] & Hx). rewrite Forall_forall in IH.
      apply (IH (k', x)); [by apply list_elem_of_In|]. by apply (Hd (k', x)).
Qed.

(** [decoded] is what [json.loads] makes of the encoded text. *)
Lemma decoded_read v : plain_json v = true → json_loads (json_dumps true v) = Ok (decoded v).
Proof. intros. rewrite dumps_decoded. by apply json_roundtrip, decoded_plain. Qed.

Definition dialects : list (string * Dialect) :=
  [("https://json-schema.org/draft/2020-12/schema", Draft202012);
   ("https://json-schema.org/draft/2019-09/schema", Draft201909);
   ("http://json-schema.org/draft-07/schema#", Draft7); ("http://json-schema.org/draft-07/schema", Draft7)].

Definition unsupported_dialect {A} : res A := Raise InvalidToolSchemaError "unsupported JSON Schema dialect".
Definition schema_dialect (schema : json) : res Dialect :=
  match schema with
  | JObj d =>
      match dget "$schema" d with
      | None | Some JNull => Ok Draft202012
      | Some (JStr s) => match dget s dialects with Some x => Ok x | None => unsupported_dialect end
      | Some v => if hashable v then unsupported_dialect else Raise PyTypeError "unhashable type"
      end
  | _ => Ok Draft202012
  end.

Definition max_schema_size : Z := 256 * 1024.

Section validator.
Context `{SchemaEngine}.

(** [_validator]: the dialect of an acceptable schema. *)
Definition schema_validator (schema : json) : res Dialect :=
  check_bounds true schema ;;;
  dialect ← schema_dialect schema;
  if meta_valid dialect schema then Ok dialect
  else Raise InvalidToolSchemaError "tool declares an invalid JSON Schema".

Definition check_schema (schema : json) : res unit :=
  if negb (finite_json schema) then Raise PyValueError "Out of range float values are not JSON compliant"
  else if max_schema_size <? Z.of_nat (String.length (json_dumps true schema))
  then Raise InvalidToolSchemaError "JSON Schema exceeds size limit"
  else schema_validator (decoded schema) ;;; Ok tt.

(** [[key for key in error.validator_value if key not in error.instance]] *)
Definition missing_keys (value : json) (d : payload) : json :=
  JArr (List.filter (λ k, match k with JStr s => negb (dmem s d) | _ => true end)
          (match value with JArr l => l | _ => [] end)).

Definition error_message (e : SchemaError) : string :=
  let location := json_pointer (se_absolute_path e) in
  let location := if String.eqb location EmptyString then "$" else location in
  let keyword := py_str (se_validator e) in
  str_take 512
    (if String.eqb keyword "type" then location +:+ " must be " +:+ py_str (se_validator_value e)
     else match String.eqb keyword "required", se_instance e with
          | true, JObj d =>
              location +:+ " is missing required fields: " +:+ py_str (missing_keys (se_validator_value e) d)
          | _, _ => location +:+ " violates " +:+ keyword
          end).

(** [_detail] *)
Definition error_detail (e : SchemaError) : json :=
  JObj [("instance_path", JStr (json_pointer (se_absolute_path e)));
        ("schema_path", JStr (json_pointer (se_absolute_schema_path e)));
        ("keyword", JStr (py_str (se_validator e))); ("message", JStr (error_message e))].

(** The key [(error.validator != "required", len(error.absolute_path))]. *)
Definition error_rank (e : SchemaError) : Z := if is_lit (se_validator e) "required" then 0 else 1.
Definition error_leb (e f : SchemaError) : bool :=
  (error_rank e <? error_rank f)
  || (error_rank e =? error_rank f)
     && Nat.leb (length (se_absolute_path e)) (length (se_absolute_path f)).

(** [validate]: [None] when the value is valid. *)
Definition validate_json (value schema : json) : res (option SchemaFailure) :=
  check_schema schema ;;;
  check_bounds false value ;;;
  dialect ← schema_validator (decoded schema);
  let '(errors, ending) := iter_errors dialect (decoded schema) value in
  match ending, Nat.ltb (length errors) 8 with
  | LimitExceeded m, true => Raise InvalidToolSchemaError m
  | UnresolvedReference, true =>
      Raise InvalidToolSchemaError "JSON Schema reference cannot be resolved within limits"
  | _, _ =>
      match py_sorted error_leb (take 8 errors) with
      | [] => Ok None
      | first :: rest => Ok (Some (mkSchemaFailure (error_message first) (map error_detail (first :: rest))))
      end
  end.

Lemma error_leb_total e f : error_leb e f = false → error_leb f e = true.
Proof.
  unfold error_leb. rewrite orb_false_iff, andb_false_iff, orb_true_iff, andb_true_iff, !Z.ltb_lt, !Z.ltb_ge, !Z.eqb_eq,
    Z.eqb_neq, Nat.leb_le, Nat.leb_gt. lia.
Qed.

(** [validate] accepts a value exactly when the schema and the value are within
    their bounds, the dialect accepts the schema and iterating the errors ends without
    one; a refusal reports between one and eight of the errors, its message is that of
    the first, and no reported error comes before it in the order (missing fields
    first, then the shallower location). *)
Theorem validate_exact value schema :
  (validate_json value schema = Ok None ↔
    check_schema schema = Ok tt ∧ bounds_spec false value ∧
    ∃ dialect, schema_validator (decoded schema) = Ok dialect ∧
      iter_errors dialect (decoded schema) value = ([], Exhausted)) ∧
  (∀ f, validate_json value schema = Ok (Some f) →
    ∃ dialect errors ending first rest, schema_validator (decoded schema) = Ok dialect ∧
      iter_errors dialect (decoded schema) value = (errors, ending) ∧
      first :: rest ≡ₚ take 8 errors ∧ (length rest < 8)%nat ∧
      f = mkSchemaFailure (error_message first) (map error_detail (first :: rest)) ∧
      Forall (λ e, error_leb first e = true) rest).
Proof.
  unfold validate_json. split.
  - split.
    + intros H1. do 2 apply res_bind_Ok in H1 as ([] & ? & H1).
      apply res_bind_Ok in H1 as (dialect & Hd & H1). split_and!; [done|by apply check_bounds_exact|].
      exists dialect. split; [done|]. destruct (iter_errors dialect (decoded schema) value) as [[|e errors] ending].
      * by destruct ending.
      * exfalso. destruct (py_sorted error_leb (take 8 (e :: errors))) eqn:E.
        { pose proof (py_sorted_perm error_leb (take 8 (e :: errors))) as Hp. rewrite E in Hp.
          by apply Permutation_nil_cons in Hp. }
        destruct ending, (Nat.ltb (length (e :: errors)) 8); discriminate.
    + intros (-> & Hb & dialect & Hd & He). apply check_bounds_exact in Hb. rewrite Hb. cbn [mbind res_bind].
      rewrite Hd. cbn [mbind res_bind]. by rewrite He.
  - intros f H1. do 2 apply res_bind_Ok in H1 as ([] & ? & H1).
    apply res_bind_Ok in H1 as (dialect & Hd & H1).
    destruct (iter_errors dialect (decoded schema) value) as [errors ending] eqn:He.
    pose proof (py_sorted_perm error_leb (take 8 errors)) as Hp.
    assert (StronglySorted (λ e f, error_leb e f = true) (py_sorted error_leb (take 8 errors))) as Hs.
    { apply py_sorted_sorted; [|done|apply error_leb_total]. intros x y z. unfold error_leb.
      rewrite !orb_true_iff, !andb_true_iff, !Z.ltb_lt, !Z.eqb_eq, !Nat.leb_le. lia. }
    exists dialect, errors, ending. destruct (py_sorted error_leb (take 8 errors)) as [|first rest].
    { destruct ending, (Nat.ltb (length errors) 8); discriminate. }
    exists first, rest. split_and!; try done.
    + apply Permutation_length in Hp. rewrite length_take in Hp. cbn [length] in Hp. lia.
    + destruct ending, (Nat.ltb (length errors) 8); try discriminate; by injection H1.
    + by apply StronglySorted_inv in Hs as [_ Hs].
Qed.
End validator.

Module SchemaExamples.
(** An engine that knows [required] and reports an unknown member. *)
#[local] Instance tiny_engine : SchemaEngine := {|
  meta_valid := λ _ s, is_dict s;
  iter_errors := λ _ s v,
    match s, v with
    | JObj sd, JObj vd =>
        let required := match dget "required" sd with Some (JArr l) => l | _ => [] end in
        (map (λ kv, mkSchemaError [JStr kv.1] [JStr "additionalProperties"] (JStr "additionalProperties")
                      (JBool false) kv.2) (List.filter (λ kv, negb (jmem (JStr kv.1) required)) vd)
         ++ (if forallb (λ k, match k with JStr k => dmem k vd | _ => false end) required then []
             else [mkSchemaError [] [JStr "required"] (JStr "required") (JArr required) v]), Exhausted)
    | _, _ => ([], Exhausted)
    end
|}.

Definition schema : json := JObj [("required", JArr [JStr "to"; JStr "body"])].
Example accepted : validate_json (JObj [("to", JStr "x"); ("body", JNull)]) schema = Ok None.
Proof. vm_compute. reflexivity. Qed.
(** The missing field is reported first. *)
Example refused : match validate_json (JObj [("to/cc", JNull); ("to", JNull)]) schema with
  | Ok (Some f) => sf_message f
  | _ => EmptyString
  end = "$ is missing required fields: ['body']".
Proof. vm_compute. reflexivity. Qed.
Example external : check_schema (JObj [("items", JArr [JObj [("$ref", JStr "https://example.org/s")]])])
  = Raise InvalidToolSchemaError "external JSON Schema references are not allowed".
Proof. vm_compute. reflexivity. Qed.
Example escaped : json_pointer [JStr "a/b"; JInt 3; JStr "~"] = "/a~1b/3/~0".
Proof. reflexivity. Qed.
End SchemaExamples.
