(* ===== verification/ToolRegistry.v ===== *)
(** * The registry of tools ([ToolCapability] of [contracts/tools.py], [ToolRegistry] of
    [action/tool_gateway.py])

    Capabilities by (model name, version), each with an owner whose set is replaced as
    a whole; lookups see the capabilities of a tenant. *)

From Stdlib Require Import SpecFloat.
From S2P Require Import Prelude PyValue Digest Approval ApprovalModes Policy JsonSchema.
Local Open Scope Z_scope.

Record ToolCapability := mkCapability {
  tc_name : string;
  tc_version : string;
  tc_description : string;
  tc_input_schema : json;
  tc_output_schema : json;
  tc_permission : ToolPermission;
  tc_risk_level : RiskLevel;
  tc_runtime_location : string;
  tc_timeout_seconds : spec_float;
  tc_owner : string;
  tc_allowed_credential_operations : list string;
  tc_cache_result : bool;
  tc_invocation_ref : option CapabilityInvocationRef;
}.
#[global] Instance ToolPermission_eq_dec : EqDecision ToolPermission.
Proof. solve_decision. Defined.
#[global] Instance RiskLevel_eq_dec : EqDecision RiskLevel.
Proof. solve_decision. Defined.

(** [__post_init__] *)
Definition capability_init (c : ToolCapability) : res ToolCapability :=
  if negb (tc_cache_result c) && negb (bool_decide (tc_permission c = ReadOnly))
  then Raise PyValueError "Only read-only queries may disable result replay" else Ok c.

(** [==] of the dataclass. *)
Definition capability_eqb (a b : ToolCapability) : bool :=
  String.eqb (tc_name a) (tc_name b) && String.eqb (tc_version a) (tc_version b)
  && String.eqb (tc_description a) (tc_description b) && py_eq (tc_input_schema a) (tc_input_schema b)
  && py_eq (tc_output_schema a) (tc_output_schema b) && bool_decide (tc_permission a = tc_permission b)
  && bool_decide (tc_risk_level a = tc_risk_level b) && String.eqb (tc_runtime_location a) (tc_runtime_location b)
  && SFeqb (tc_timeout_seconds a) (tc_timeout_seconds b) && String.eqb (tc_owner a) (tc_owner b)
  && bool_decide (tc_allowed_credential_operations a = tc_allowed_credential_operations b)
  && Bool.eqb (tc_cache_result a) (tc_cache_result b) && bool_decide (tc_invocation_ref a = tc_invocation_ref b).

(** [CapabilityInvocationRef.model_name] *)
Definition model_name (r : CapabilityInvocationRef) : string :=
  "mcp_" +:+ str_take 48 (sha256_hex (utf8 (json_dumps true (JObj (ref_dump r))))).

Notation tool_key := (string * string)%type.

Record ToolRegistry := mkRegistry {
  rg_capabilities : list (tool_key * ToolCapability);
  rg_discoverable : list tool_key;
}.
Definition empty_registry : ToolRegistry := mkRegistry [] [].

(** [_key] *)
Definition registry_key (c : ToolCapability) : tool_key :=
  (match tc_invocation_ref c with Some r => model_name r | None => tc_name c end, tc_version c).

Section registry.
Context `{SchemaEngine}.
Implicit Types (c : ToolCapability) (g : ToolRegistry).

Definition check_schemas c : res unit := check_schema (tc_input_schema c) ;;; check_schema (tc_output_schema c).

(** A set of keys keeps each of them once. *)
Definition set_add (k : tool_key) (l : list tool_key) : list tool_key := if decide (k ∈ l) then l else l ++ [k].

Definition register c g : res ToolRegistry :=
  check_schemas c ;;;
  let key := registry_key c in
  if dmem key (rg_capabilities g)
  then Raise PyValueError ("Tool already registered: " +:+ tc_name c +:+ "@" +:+ tc_version c)
  else Ok (mkRegistry (dset key c (rg_capabilities g)) (set_add key (rg_discoverable g))).

(** [__init__] *)
Definition registry_init (capabilities : list ToolCapability) : res ToolRegistry :=
  foldM (λ g c, register c g) capabilities empty_registry.

Definition visible (tenant_id : option string) c : bool :=
  match tenant_id, tc_invocation_ref c with
  | Some t, Some r => match rf_tenant_id r with Some u => String.eqb u t | None => true end
  | _, _ => true
  end.

Definition registry_get (name version : string) (tenant_id : option string) g : res ToolCapability :=
  let fallback :=
    match List.filter (λ c, String.eqb (tc_name c) name && String.eqb (tc_version c) version && visible tenant_id c)
            (dvalues (rg_capabilities g)) with
    | _ :: _ :: _ => Raise PolicyDeniedError "ambiguous_capability: load an explicit capability target"
    | [c] => Ok c
    | [] => Raise PolicyDeniedError ("Tool is not registered or is stale: " +:+ name +:+ "@" +:+ version)
    end in
  match dget (name, version) (rg_capabilities g) with
  | Some c => if visible tenant_id c then Ok c else fallback
  | None => fallback
  end.

Definition prepare_one (owner : string) g (prepared : list (tool_key * ToolCapability)) c
    : res (list (tool_key * ToolCapability)) :=
  check_schemas c ;;;
  if negb (String.eqb (tc_owner c) owner)
  then Raise PyValueError "Tool owner does not match registry update"
  else
  let key := registry_key c in
  if dmem key prepared then Raise PyValueError "Tool alias or ownership collision"
  else if match dget key (rg_capabilities g) with Some p => negb (capability_eqb p c) | None => false end
  then Raise PyValueError "Tool version changed without version bump"
  else Ok (dset key c prepared).

Definition prepare_owner (owner : string) (capabilities : list ToolCapability) g
    : res (list (tool_key * ToolCapability)) :=
  foldM (prepare_one owner g) capabilities
    (List.filter (λ kc, negb (String.eqb (tc_owner kc.2) owner)) (rg_capabilities g)).

Definition replace_owner (owner : string) (capabilities : list ToolCapability) g : res ToolRegistry :=
  prepared ← prepare_owner owner capabilities g; Ok (mkRegistry prepared (dkeys prepared)).

Definition revoke_owner (owner : string) g : ToolRegistry :=
  let removed := dkeys (List.filter (λ kc, String.eqb (tc_owner kc.2) owner) (rg_capabilities g)) in
  mkRegistry (List.filter (λ kc, negb (bool_decide (kc.1 ∈ removed))) (rg_capabilities g))
    (List.filter (λ k, negb (bool_decide (k ∈ removed))) (rg_discoverable g)).

(** Order on (name, version). *)
Definition capability_leb (a b : ToolCapability) : bool :=
  if String.eqb (tc_name a) (tc_name b) then String.leb (tc_version a) (tc_version b)
  else String.leb (tc_name a) (tc_name b).

Definition discover (permissions : list ToolPermission) g : list ToolCapability :=
  py_sorted capability_leb
    (dvalues (List.filter (λ kc, bool_decide (kc.1 ∈ rg_discoverable g)
       && match permissions with [] => true | _ => bool_decide (tc_permission kc.2 ∈ permissions) end)
       (rg_capabilities g))).

(** ** Histories of a registry *)

Inductive RegistryOp :=
  | GRegister (c : ToolCapability)
  | GReplace (owner : string) (capabilities : list ToolCapability)
  | GRevoke (owner : string).

(** An operation that raises leaves the registry as it was. *)
Definition registry_step g (o : RegistryOp) : ToolRegistry :=
  match o with
  | GRegister c => match register c g with Ok g' => g' | Raise _ _ => g end
  | GReplace owner capabilities => match replace_owner owner capabilities g with Ok g' => g' | Raise _ _ => g end
  | GRevoke owner => revoke_owner owner g
  end.
Definition registry_run (ops : list RegistryOp) : ToolRegistry := fold_left registry_step ops empty_registry.

(** Each capability is under its own key, once, and what is discovered is registered. *)
Record registry_wf g : Prop := {
  rw_keys : dict_wf (rg_capabilities g);
  rw_key : ∀ k c, dget k (rg_capabilities g) = Some c → k = registry_key c;
  rw_discoverable : ∀ k, k ∈ rg_discoverable g ↔ k ∈ dkeys (rg_capabilities g);
}.

Lemma filter_dict_wf (P : tool_key * ToolCapability → bool) d : dict_wf d → dict_wf (List.filter P d).
Proof.
  unfold dict_wf, dkeys. induction d as [|[k c] d IH]; cbn; [done|]. intros [Hk Hd]%NoDup_cons.
  destruct (P (k, c)); cbn; [|by apply IH]. apply NoDup_cons. split; [|by apply IH].
  intros ([k' c'] & -> & Hin)%list_elem_of_fmap. apply Hk. apply list_elem_of_fmap. exists (k', c'). split; [done|].
  apply list_elem_of_In, filter_In in Hin as [Hin _]. by apply list_elem_of_In.
Qed.

Lemma dget_filter (P : tool_key * ToolCapability → bool) d k : dict_wf d →
  dget k (List.filter P d) = match dget k d with Some c => if P (k, c) then Some c else None | None => None end.
Proof.
  unfold dict_wf, dkeys. induction d as [|[k' c] d IH]; cbn; [done|]. intros [Hk Hd]%NoDup_cons.
  destruct (decide (k = k')) as [->|Hne].
  - destruct (P (k', c)) eqn:E; cbn; [by rewrite decide_True|]. rewrite IH by done.
    assert (dget k' d = None) as ->; [|done]. by apply dget_None.
  - destruct (P (k', c)); cbn; [rewrite decide_False by done|]; by apply IH.
Qed.

(** The loop of [prepare_owner]. *)
Definition prepared_ok owner g (d : list (tool_key * ToolCapability)) (done : list ToolCapability) : Prop :=
  dict_wf d ∧ NoDup (map registry_key done) ∧ Forall (λ c, tc_owner c = owner) done ∧
  (∀ k c, dget k d = Some c ↔
     (c ∈ done ∧ k = registry_key c) ∨ (dget k (rg_capabilities g) = Some c ∧ tc_owner c ≠ owner)) ∧
  (∀ c p, c ∈ done → dget (registry_key c) (rg_capabilities g) = Some p → capability_eqb p c = true).

Lemma prepare_one_ok owner g d done c d' : prepared_ok owner g d done → prepare_one owner g d c = Ok d' →
  prepared_ok owner g d' (done ++ [c]).
Proof.
  intros (Hwf & Hnd & Hown & Hget & Heq) Hstep. unfold prepare_one in Hstep.
  apply res_bind_Ok in Hstep as ([] & _ & Hstep). split_guards. bool_props. subst.
  match goal with H : dmem _ d = false |- _ => rename H into Hmem end.
  apply dmem_false, dget_None in Hmem. split_and!.
  - by apply dset_wf.
  - rewrite map_app. apply NoDup_app. split_and!; [done| |apply NoDup_singleton].
    intros k Hk ->%list_elem_of_singleton. apply list_elem_of_fmap in Hk as (c' & Hc & Hin).
    assert (dget (registry_key c) d = Some c') by (apply Hget; left; done). congruence.
  - apply Forall_app. split; [done|]. by constructor.
  - intros k c'. rewrite dget_dset. destruct (decide (k = registry_key c)) as [->|Hne].
    + split.
      * intros [= <-]. left. split; [apply elem_of_app; right; left|done].
      * intros [[[Hin| ->%list_elem_of_singleton]%elem_of_app Hk]|[Hin Ho]]; [|done|].
        { assert (dget (registry_key c) d = Some c') by (apply Hget; left; done). congruence. }
        assert (dget (registry_key c) d = Some c') by (apply Hget; right; done). congruence.
    + rewrite Hget, elem_of_app, list_elem_of_singleton. naive_solver.
  - intros c' p [Hin| ->%list_elem_of_singleton]%elem_of_app Hp; [by eapply Heq|].
    match goal with H : match _ with Some _ => _ | None => _ end = false |- _ => rewrite Hp in H; by bool_props end.
Qed.

Lemma prepare_owner_ok owner g cs d : dict_wf (rg_capabilities g) → prepare_owner owner cs g = Ok d →
  prepared_ok owner g d cs.
Proof.
  intros Hwf. unfold prepare_owner.
  set (d0 := List.filter _ (rg_capabilities g)).
  assert (prepared_ok owner g d0 []) as H0.
  { split_and!; [by apply filter_dict_wf|apply NoDup_nil_2|constructor| |by intros ? ? ?%elem_of_nil].
    intros k c. unfold d0. rewrite dget_filter by done. cbn [snd].
    destruct (dget k (rg_capabilities g)) as [c'|]; [|set_solver].
    destruct (String.eqb_spec (tc_owner c') owner) as [E|E]; cbn [negb]; set_solver. }
  assert (∀ done cs d1, prepared_ok owner g d1 done → foldM (prepare_one owner g) cs d1 = Ok d →
    prepared_ok owner g d (done ++ cs)) as Hloop; [|intros; by apply (Hloop [] cs d0)].
  clear H0. intros done cs'. revert done. induction cs' as [|c cs' IH]; intros done d1 Hd1 Hf; cbn [foldM] in Hf.
  - injection Hf as <-. by rewrite app_nil_r.
  - apply res_bind_Ok in Hf as (d2 & Hd2 & Hf). replace (done ++ c :: cs') with ((done ++ [c]) ++ cs') by by rewrite <- app_assoc.
    eapply IH; [|exact Hf]. by eapply prepare_one_ok.
Qed.

Lemma registry_step_wf g o : registry_wf g → registry_wf (registry_step g o).
Proof.
  intros [W1 W2 W3]. destruct o as [c|owner cs|owner]; cbn [registry_step].
  - destruct (register c g) as [g'|] eqn:E; [|done]. unfold register in E. apply res_bind_Ok in E as ([] & _ & E).
    split_guards. constructor; cbn [rg_capabilities rg_discoverable]; [by apply dset_wf| |].
    + intros k c'. rewrite dget_dset. case_decide; [by intros [= <-]|apply W2].
    + intros k. rewrite dkeys_dset. unfold set_add. specialize (W3 k). repeat case_decide; set_solver.
  - destruct (replace_owner owner cs g) as [g'|] eqn:E; [|done]. apply res_bind_Ok in E as (d & Hd & [= <-]).
    apply prepare_owner_ok in Hd as (Hwf & _ & _ & Hget & _); [|done].
    constructor; cbn [rg_capabilities rg_discoverable]; [done| |done].
    intros k c [[_ ->]|[Hc _]]%Hget; [done|by apply W2].
  - constructor; cbn [revoke_owner rg_capabilities rg_discoverable]; [by apply filter_dict_wf| |].
    + intros k c. rewrite dget_filter by done. destruct (dget k (rg_capabilities g)) eqn:E; [|done].
      case_match; [|done]. intros [= <-]. by apply W2.
    + intros k. set (removed := dkeys _). rewrite list_elem_of_In, filter_In, <- list_elem_of_In, W3.
      rewrite <- !dmem_true. unfold dmem. rewrite dget_filter by done. cbn [fst].
      destruct (dget k (rg_capabilities g)), (bool_decide (k ∈ removed)); cbn; naive_solver.
Qed.

Lemma registry_run_wf ops : registry_wf (registry_run ops).
Proof.
  unfold registry_run. apply fold_left_inv; [intros; by apply registry_step_wf|].
  constructor; cbn; [apply NoDup_nil_2|done|done].
Qed.

(** A replacement of an owner's tools, when it is accepted, leaves exactly the given
    tools for the owner, each under its key, and every other owner's tools as they
    were; no key that was registered gets a different tool, and what is registered is
    what can be discovered.  A refused replacement changes nothing. *)
Theorem replace_owner_exact ops owner cs :
  let g := registry_run ops in
  let g' := registry_step g (GReplace owner cs) in
  (is_ok (replace_owner owner cs g) = false → g' = g) ∧
  (is_ok (replace_owner owner cs g) = true →
     (∀ k c, dget k (rg_capabilities g') = Some c ↔
        (c ∈ cs ∧ k = registry_key c) ∨ (dget k (rg_capabilities g) = Some c ∧ tc_owner c ≠ owner)) ∧
     Forall (λ c, tc_owner c = owner) cs ∧ NoDup (map registry_key cs) ∧
     (∀ k c c', dget k (rg_capabilities g) = Some c → dget k (rg_capabilities g') = Some c' →
        c' = c ∨ capability_eqb c c' = true) ∧
     (∀ k, k ∈ rg_discoverable g' ↔ is_Some (dget k (rg_capabilities g')))).
Proof.
  cbn zeta. pose proof (registry_run_wf ops) as [W1 W2 W3]. cbn [registry_step]. set (g := registry_run ops) in *.
  destruct (replace_owner owner cs g) as [g'|] eqn:E; cbn [is_ok]; [|done]. split; [done|]. intros _.
  apply res_bind_Ok in E as (d & Hd & [= <-]). apply prepare_owner_ok in Hd as (Hwf & Hnd & Hown & Hget & Heq); [|done].
  split_and!; [done..| |].
  - intros k c c' Hc [[Hin ->]|[Hc' _]]%Hget; [right; by eapply Heq|left; cbn in *; congruence].
  - intros k. cbn [rg_discoverable rg_capabilities]. rewrite <- dmem_true. unfold dmem. destruct (dget k d); [by eauto|].
    split; [done|]. by intros [].
Qed.

(** What a lookup returns is registered with that version, under the name asked for
    or with it, and may be seen by the tenant; a name that several visible tools
    share is refused. *)
Theorem registry_get_visible name version tenant ops c :
  let g := registry_run ops in
  registry_get name version tenant g = Ok c →
  dget (registry_key c) (rg_capabilities g) = Some c ∧ tc_version c = version ∧ visible tenant c = true ∧
  (registry_key c = (name, version) ∨
   tc_name c = name ∧
   ∀ c', c' ∈ dvalues (rg_capabilities g) → tc_name c' = name → tc_version c' = version → visible tenant c' = true → c' = c).
Proof.
  cbn zeta. pose proof (registry_run_wf ops) as [W1 W2 W3]. set (g := registry_run ops) in *. unfold registry_get.
  set (P := λ c, String.eqb (tc_name c) name && String.eqb (tc_version c) version && visible tenant c).
  set (fallback := match List.filter P _ with [] => _ | _ => _ end).
  assert (∀ c, fallback = Ok c → dget (registry_key c) (rg_capabilities g) = Some c ∧ tc_version c = version ∧
    visible tenant c = true ∧ (registry_key c = (name, version) ∨ tc_name c = name ∧
     ∀ c', c' ∈ dvalues (rg_capabilities g) → tc_name c' = name → tc_version c' = version → visible tenant c' = true →
       c' = c)) as Hfall.
  { intros c1. unfold fallback. destruct (List.filter P (dvalues (rg_capabilities g))) as [|c2 [|]] eqn:E; try done.
    intros [= ->]. assert (∀ c', In c' (List.filter P (dvalues (rg_capabilities g))) ↔ c' = c1) as Hall.
    { intros c'. rewrite E. cbn. naive_solver. }
    pose proof (proj2 (Hall c1) eq_refl) as [Hin HP]%filter_In. unfold P in HP. bool_props.
    apply list_elem_of_In in Hin. apply elem_of_dvalues in Hin as [k Hk]; [|done]. split_and!; [|done|done|].
    - by rewrite <- (W2 _ _ Hk).
    - right. split; [done|]. intros c' Hc' <- <- Hv. apply Hall, filter_In. split; [by apply list_elem_of_In|].
      unfold P. by rewrite !String.eqb_refl, Hv. }
  destruct (dget (name, version) (rg_capabilities g)) as [c1|] eqn:E; [|apply Hfall].
  destruct (visible tenant c1) eqn:Ev; [|apply Hfall]. intros [= ->].
  pose proof (W2 _ _ E) as Hk. rewrite <- Hk. split_and!; [done| |done|by left].
  unfold registry_key in Hk. congruence.
Qed.
End registry.

Module RegistryExamples.
(** An engine that accepts every schema and value. *)
#[local] Instance lax_engine : SchemaEngine := {|
  meta_valid := λ _ _, true; iter_errors := λ _ _ _, ([], Exhausted) |}.

Definition tool (name version owner : string) (r : option CapabilityInvocationRef) : ToolCapability :=
  mkCapability name version "a tool" (JObj []) (JObj []) ReadOnly RiskLow "hands" (f64_of_decimal false 30 0) owner [] true r.
Definition scoped (tenant : string) : CapabilityInvocationRef := mkCapabilityRef "cap" "srv" "1" "digest" (Some tenant) 0.

Definition platform_then_server : list RegistryOp :=
  [GRegister (tool "search" "1" "platform" None);
   GReplace "mcp:srv" [tool "lookup" "1" "mcp:srv" (Some (scoped "t1")); tool "lookup" "1" "mcp:srv" (Some (scoped "t2"))]].

Lemma lookup_t1 : registry_get "lookup" "1" (Some "t1") (registry_run platform_then_server)
  = Ok (tool "lookup" "1" "mcp:srv" (Some (scoped "t1"))).
Proof. vm_compute. reflexivity. Qed.
(** Without a tenant the name is ambiguous; a changed tool needs a new version. *)
Example lookup_ambiguous : registry_get "lookup" "1" None (registry_run platform_then_server)
  = Raise PolicyDeniedError "ambiguous_capability: load an explicit capability target".
Proof. vm_compute. reflexivity. Qed.
Example changed_tool : replace_owner "platform" [tool "search" "1" "platform" (Some (scoped "t1"))] (registry_run platform_then_server)
  = Raise PyValueError "Tool alias or ownership collision".
Proof. vm_compute. reflexivity. Qed.

Lemma registry_get_visible_witness : visible (Some "t1") (tool "lookup" "1" "mcp:srv" (Some (scoped "t1"))) = true.
Proof.
  destruct (registry_get_visible "lookup" "1" (Some "t1") platform_then_server _ lookup_t1) as (_ & _ & Hv & _). exact Hv.
Defined.
End RegistryExamples.
