(* ===== verification/Interleave.v ===== *)
(** * Tasks that suspend

    An asynchronous function is a sequence of awaits between which the rest of the
    process, and of the system, acts on what it shares.  [env i] is what the others do
    before the [i]th await of a task and [cancelled i] says that the task is cancelled
    at it, so that a run is one interleaving; an await that is cancelled does not run.
    Code between two awaits runs without interruption. *)

From S2P Require Import Prelude.

(** How a piece of a task ends. *)
Inductive outcome (A : Type) :=
  | Ret (a : A)
  | Exn (c : exn_class) (m : string)
  | Cancelled.
Arguments Ret {A} _.
Arguments Exn {A} _ _.
Arguments Cancelled {A}.

Definition of_res {A} (r : res A) : outcome A := match r with Ok a => Ret a | Raise c m => Exn c m end.

(** A task: the number of its next await and the shared world. *)
Record Thread (W : Type) := mkThread { th_await : nat; th_world : W }.
Arguments mkThread {W} _ _.
Arguments th_await {W} _.
Arguments th_world {W} _.

Record Schedule (W : Type) := mkSchedule { sc_env : nat → W → W; sc_cancelled : nat → bool }.
Arguments mkSchedule {W} _ _.
Arguments sc_env {W} _ _ _.
Arguments sc_cancelled {W} _ _.

Definition prog (W A : Type) : Type := Thread W → Thread W * outcome A.

Section prog.
Context {W : Type}.
Implicit Types (t : Thread W).

Definition ret {A} (a : A) : prog W A := λ t, (t, Ret a).
Definition raise {A} (c : exn_class) (m : string) : prog W A := λ t, (t, Exn c m).
Definition bind {A B} (m : prog W A) (k : A → prog W B) : prog W B := λ t,
  match m t with
  | (t, Ret a) => k a t
  | (t, Exn c e) => (t, Exn c e)
  | (t, Cancelled) => (t, Cancelled)
  end.

(** Code that does not suspend. *)
Definition lift {A} (r : res A) : prog W A := λ t, (t, of_res r).
Definition modify (f : W → W) : prog W unit := λ t, (mkThread (th_await t) (f (th_world t)), Ret tt).
Definition gets {A} (f : nat → W → A) : prog W A := λ t, (t, Ret (f (th_await t) (th_world t))).

Definition await (sched : Schedule W) {A} (op : nat → W → W * res A) : prog W A := λ t,
  let i := th_await t in
  let w := sc_env sched i (th_world t) in
  if sc_cancelled sched i then (mkThread (S i) w, Cancelled)
  else let '(w, r) := op i w in (mkThread (S i) w, of_res r).

(** [try: m except ...: h], where [h] says which exceptions it handles. *)
Definition catch {A} (m : prog W A) (h : exn_class → string → option (prog W A)) : prog W A := λ t,
  match m t with
  | (t, Exn c e) => match h c e with Some k => k t | None => (t, Exn c e) end
  | r => r
  end.

(** [try: m except asyncio.CancelledError: h] *)
Definition catch_cancel {A} (m h : prog W A) : prog W A := λ t,
  match m t with (t, Cancelled) => h t | r => r end.

(** [try: m finally: f]: an exception of [f] replaces the outcome. *)
Definition finally {A} (m : prog W A) (f : prog W unit) : prog W A := λ t,
  let '(t, o) := m t in
  match f t with
  | (t, Ret _) => (t, o)
  | (t, Exn c e) => (t, Exn c e)
  | (t, Cancelled) => (t, Cancelled)
  end.

(** ** Invariants of a task *)

(** [m] goes from [P] to [Q], however it ends. *)
Definition leads {A} (P Q : Thread W → Prop) (m : prog W A) : Prop := ∀ t, P t → Q (m t).1.

(** [m] keeps [P], and when it returns [a] then [R a] holds. *)
Definition returns {A} (P : Thread W → Prop) (R : A → Prop) (m : prog W A) : Prop :=
  ∀ t, P t → P (m t).1 ∧ ∀ a, (m t).2 = Ret a → R a.

Lemma leads_bind {A B} (P Q : Thread W → Prop) (R : A → Prop) (m : prog W A) (k : A → prog W B) :
  (∀ t, P t → Q t) → returns P R m → (∀ a, R a → leads P Q (k a)) → leads P Q (bind m k).
Proof.
  intros HPQ Hm Hk t Ht. unfold bind. destruct (Hm t Ht) as [H1 H2].
  destruct (m t) as [t' [a|c e|]]; cbn [fst snd] in *; auto. apply Hk; auto.
Qed.

(** [m] ends in [S a] when it returns [a], and in [Q] otherwise. *)
Definition ends {A} (P : Thread W → Prop) (S : A → Thread W → Prop) (Q : Thread W → Prop) (m : prog W A) : Prop :=
  ∀ t, P t → match (m t).2 with Ret a => S a (m t).1 | _ => Q (m t).1 end.

Lemma ends_bind {A B} (P Q : Thread W → Prop) (S : A → Thread W → Prop) (m : prog W A) (k : A → prog W B) :
  ends P S Q m → (∀ a, leads (S a) Q (k a)) → leads P Q (bind m k).
Proof.
  intros Hm Hk t Ht. specialize (Hm t Ht). unfold bind.
  destruct (m t) as [t' [a|c e|]]; cbn [fst snd] in *; auto. by apply Hk.
Qed.
Lemma ends_weaken {A} (P Q : Thread W → Prop) (R : A → Prop) (m : prog W A) :
  (∀ t, P t → Q t) → returns P R m → ends P (λ a t, P t ∧ R a) Q m.
Proof.
  intros HPQ Hm t Ht. destruct (Hm t Ht) as [H1 H2]. destruct (m t) as [t' [a|c e|]]; cbn [fst snd] in *; auto.
Qed.

Lemma leads_returns {A} (P : Thread W → Prop) (m : prog W A) : leads P P m → returns P (λ _, True) m.
Proof. intros H t Ht. split; [by apply H|done]. Qed.

Lemma leads_seq {A B} (P Q : Thread W → Prop) (m : prog W A) (k : A → prog W B) :
  leads P P m → (∀ t, P t → Q t) → (∀ a, leads P Q (k a)) → leads P Q (bind m k).
Proof. intros Hm HPQ Hk. eapply leads_bind; [done|by apply leads_returns|auto]. Qed.

(** The first part reaches [Q], the rest keeps it. *)
Lemma leads_then {A B} (P Q : Thread W → Prop) (m : prog W A) (k : A → prog W B) :
  leads P Q m → (∀ a, leads Q Q (k a)) → leads P Q (bind m k).
Proof.
  intros Hm Hk t Ht. specialize (Hm t Ht). unfold bind.
  destruct (m t) as [t' [a|c e|]]; cbn [fst] in *; auto. by apply Hk.
Qed.

Lemma leads_ret {A} (P Q : Thread W → Prop) (a : A) : (∀ t, P t → Q t) → leads P Q (ret a).
Proof. intros H t Ht. by apply H. Qed.
Lemma leads_raise {A} (P Q : Thread W → Prop) c m : (∀ t, P t → Q t) → leads P Q (@raise A c m).
Proof. intros H t Ht. by apply H. Qed.
Lemma leads_lift {A} (P Q : Thread W → Prop) (r : res A) : (∀ t, P t → Q t) → leads P Q (lift r).
Proof. intros H t Ht. by apply H. Qed.
Lemma returns_lift {A} (P : Thread W → Prop) (r : res A) : returns P (λ a, r = Ok a) (lift r).
Proof. intros t Ht. split; [done|]. intros a. cbn. destruct r; [|done]. by intros [= ->]. Qed.
Lemma leads_gets {A} (P Q : Thread W → Prop) (f : nat → W → A) : (∀ t, P t → Q t) → leads P Q (gets f).
Proof. intros H t Ht. by apply H. Qed.
Lemma leads_modify (P Q : Thread W → Prop) f :
  (∀ n w, P (mkThread n w) → Q (mkThread n (f w))) → leads P Q (modify f).
Proof. intros H [n w] Ht. by apply H. Qed.

(** A predicate that the others keep, and that does not depend on the await. *)
Definition stable (sched : Schedule W) (P : Thread W → Prop) : Prop :=
  (∀ n w, P (mkThread n w) → P (mkThread n (sc_env sched n w))) ∧
  (∀ n m w, P (mkThread n w) → P (mkThread m w)).

Lemma returns_await sched {A} (P : Thread W → Prop) (R : A → Prop) (op : nat → W → W * res A) :
  stable sched P → (∀ n w, P (mkThread n w) → P (mkThread n (op n w).1) ∧ ∀ a, (op n w).2 = Ok a → R a) →
  returns P R (await sched op).
Proof.
  intros [He Hn] Hop [n w] Ht. unfold await. cbn [th_await th_world]. apply He in Ht.
  destruct (sc_cancelled sched n); [split; [by eapply Hn|done]|].
  destruct (Hop n _ Ht) as [H1 H2]. destruct (op n (sc_env sched n w)) as [w' r]. cbn [fst snd] in *.
  split; [by eapply Hn|]. intros a. destruct r; [|done]. cbn. intros [= ->]. auto.
Qed.

(** An await whose operation reaches [Q]. *)
Lemma leads_await sched {A} (P Q : Thread W → Prop) (op : nat → W → W * res A) :
  stable sched P → (∀ n w, P (mkThread n w) → Q (mkThread n w)) → (∀ n m w, Q (mkThread n w) → Q (mkThread m w)) →
  (∀ n w, P (mkThread n w) → Q (mkThread n (op n w).1)) → leads P Q (await sched op).
Proof.
  intros [He Hn] HPQ HQ Hop [n w] Ht. unfold await. cbn [th_await th_world]. apply He in Ht.
  destruct (sc_cancelled sched n); [by eapply HQ, HPQ|].
  specialize (Hop n _ Ht). destruct (op n (sc_env sched n w)) as [w' r]. by eapply HQ.
Qed.

Lemma leads_catch {A} (P Q : Thread W → Prop) (m : prog W A) h :
  leads P Q m → (∀ c e k, h c e = Some k → leads Q Q k) → leads P Q (catch m h).
Proof.
  intros Hm Hh t Ht. specialize (Hm t Ht). unfold catch. destruct (m t) as [t' [a|c e|]]; cbn [fst] in *; auto.
  destruct (h c e) as [k|] eqn:E; [|done]. by apply (Hh c e k).
Qed.
Lemma leads_catch_cancel {A} (P Q : Thread W → Prop) (m h : prog W A) :
  leads P Q m → leads Q Q h → leads P Q (catch_cancel m h).
Proof.
  intros Hm Hh t Ht. specialize (Hm t Ht). unfold catch_cancel. destruct (m t) as [t' [a|c e|]]; cbn [fst] in *; auto.
Qed.
Lemma leads_finally {A} (P Q : Thread W → Prop) (m : prog W A) f :
  leads P Q m → leads Q Q f → leads P Q (finally m f).
Proof.
  intros Hm Hf t Ht. specialize (Hm t Ht). unfold finally. destruct (m t) as [t' o]. cbn [fst] in Hm.
  specialize (Hf t' Hm). by destruct (f t') as [t'' [u|c e|]].
Qed.
Lemma leads_if {A} (P Q : Thread W → Prop) (b : bool) (m k : prog W A) :
  (b = true → leads P Q m) → (b = false → leads P Q k) → leads P Q (if b then m else k).
Proof. destruct b; auto. Qed.

(** ** Triples that see how a task ends *)

(** From [P], [m] returns some [a] with [S a], or ends otherwise with [E]: of the
    exception, or of [None] when it is cancelled. *)
Definition triple {A} (P : Thread W → Prop) (m : prog W A) (S : A → Thread W → Prop)
    (E : option exn_class → Thread W → Prop) : Prop :=
  ∀ t, P t → match m t with
             | (t, Ret a) => S a t
             | (t, Exn c _) => E (Some c) t
             | (t, Cancelled) => E None t
             end.

Lemma triple_bind {A B} P (m : prog W A) (k : A → prog W B) S E T :
  triple P m S E → (∀ a, triple (S a) (k a) T E) → triple P (bind m k) T E.
Proof.
  intros Hm Hk t Ht. specialize (Hm t Ht). unfold bind. destruct (m t) as [t' [a|c e|]]; [|done..]. by apply Hk.
Qed.
Lemma triple_ret {A} (P : Thread W → Prop) (a : A) S E : (∀ t, P t → S a t) → triple P (ret a) S E.
Proof. intros H t Ht. by apply H. Qed.
Lemma triple_raise {A} (P : Thread W → Prop) c m S E : (∀ t, P t → E (Some c) t) → triple P (@raise A c m) S E.
Proof. intros H t Ht. by apply H. Qed.
Lemma triple_lift {A} (P : Thread W → Prop) (r : res A) S E :
  (∀ a t, r = Ok a → P t → S a t) → (∀ c m t, r = Raise c m → P t → E (Some c) t) → triple P (lift r) S E.
Proof. intros H1 H2 t Ht. unfold lift. destruct r; cbn; eauto. Qed.
Lemma triple_gets {A} (P : Thread W → Prop) (f : nat → W → A) S E :
  (∀ n w, P (mkThread n w) → S (f n w) (mkThread n w)) → triple P (gets f) S E.
Proof. intros H [n w] Ht. by apply H. Qed.
Lemma triple_modify P f S E :
  (∀ n w, P (mkThread n w) → S tt (mkThread n (f w))) → triple P (modify f) S E.
Proof. intros H [n w] Ht. by apply H. Qed.
Lemma triple_weaken {A} (P P' : Thread W → Prop) (m : prog W A) S S' E E' :
  triple P' m S' E' → (∀ t, P t → P' t) → (∀ a t, S' a t → S a t) → (∀ c t, E' c t → E c t) → triple P m S E.
Proof.
  intros H HP HS HE t Ht. specialize (H t (HP t Ht)). destruct (m t) as [t' [a|c e|]]; auto.
Qed.
Lemma triple_catch {A} P (m : prog W A) h S E F :
  triple P m S F → (∀ c e, match h c e with
                           | Some k => triple (F (Some c)) k S E
                           | None => ∀ t, F (Some c) t → E (Some c) t
                           end) →
  (∀ t, F None t → E None t) → triple P (catch m h) S E.
Proof.
  intros Hm Hh Hc t Ht. specialize (Hm t Ht). unfold catch. destruct (m t) as [t' [a|c e|]]; [done| |by apply Hc].
  specialize (Hh c e). destruct (h c e) as [k|]; by apply Hh.
Qed.
Lemma triple_catch_cancel {A} P (m h : prog W A) S E F :
  triple P m S F → triple (F None) h S E → (∀ c t, F (Some c) t → E (Some c) t) → triple P (catch_cancel m h) S E.
Proof.
  intros Hm Hh Hc t Ht. specialize (Hm t Ht). unfold catch_cancel. destruct (m t) as [t' [a|c e|]]; [done|by apply Hc|by apply Hh].
Qed.
Lemma triple_given {A} (P : Thread W → Prop) (F : Prop) (m : prog W A) S E :
  (F → triple P m S E) → triple (λ t, P t ∧ F) m S E.
Proof. intros H t [Ht HF]. by apply H. Qed.
(** An await in a process that nobody else changes. *)
Lemma triple_await (sched : Schedule W) {A} (P : Thread W → Prop) (op : nat → W → W * res A) S E :
  (∀ n w, sc_env sched n w = w) → (∀ n m w, P (mkThread n w) → P (mkThread m w)) →
  (∀ t, P t → E None t) →
  (∀ n m w, P (mkThread n w) → match op n w with
                               | (w', Ok a) => S a (mkThread m w')
                               | (w', Raise c _) => E (Some c) (mkThread m w')
                               end) →
  triple P (await sched op) S E.
Proof.
  intros He Hn Hc Hop [n w] Ht. unfold await. cbn [th_await th_world]. rewrite He.
  destruct (sc_cancelled sched n); [by eapply Hc, Hn|].
  specialize (Hop n (Datatypes.S n) w Ht). destruct (op n w) as [w' [a|c e]]; done.
Qed.

(** ** Assertions about the world *)

(** From [I], [m] returns some [a] with [S a], and ends otherwise with [E]. *)
Definition task {A} (I : W → Prop) (m : prog W A) (S : A → W → Prop) (E : W → Prop) : Prop :=
  triple (λ t, I (th_world t)) m (λ a t, S a (th_world t)) (λ _ t, E (th_world t)).

(** The others keep [I]. *)
Definition kept (sched : Schedule W) (I : W → Prop) : Prop := ∀ n w, I w → I (sc_env sched n w).

Lemma task_await sched {A} (I : W → Prop) (op : nat → W → W * res A) S E :
  kept sched I → (∀ w, I w → E w) →
  (∀ n w, I w → match op n w with (w', Ok a) => S a w' | (w', Raise _ _) => E w' end) → task I (await sched op) S E.
Proof.
  intros Hk HE Hop [n w] Hw. unfold await. cbn [th_await th_world] in *. apply (Hk n) in Hw.
  destruct (sc_cancelled sched n); [by apply HE|].
  specialize (Hop n _ Hw). by destruct (op n (sc_env sched n w)) as [w' [a|c m]].
Qed.
Lemma task_bind {A B} I (m : prog W A) (k : A → prog W B) S E T :
  task I m S E → (∀ a, task (S a) (k a) T E) → task I (bind m k) T E.
Proof. intros Hm Hk. eapply triple_bind; [exact Hm|exact Hk]. Qed.
Lemma task_ret {A} (I : W → Prop) (a : A) S E : (∀ w, I w → S a w) → task I (ret a) S E.
Proof. intros H t Ht. by apply H. Qed.
Lemma task_raise {A} (I : W → Prop) c m (S : A → W → Prop) E : (∀ w, I w → E w) → task I (raise c m) S E.
Proof. intros H t Ht. by apply H. Qed.
Lemma task_lift {A} (I : W → Prop) (r : res A) S E :
  (∀ a w, r = Ok a → I w → S a w) → (∀ w, I w → E w) → task I (lift r) S E.
Proof. intros H1 H2 t Ht. unfold lift. destruct r; cbn; eauto. Qed.
Lemma task_gets {A} (I : W → Prop) (f : nat → W → A) S E : (∀ n w, I w → S (f n w) w) → task I (gets f) S E.
Proof. intros H [n w] Ht. by apply H. Qed.
Lemma task_modify I f S E : (∀ w, I w → S tt (f w)) → task I (modify f) S E.
Proof. intros H [n w] Ht. by apply H. Qed.
Lemma task_catch {A} I (m : prog W A) h S E F :
  task I m S F → (∀ c e, match h c e with Some k => task F k S E | None => ∀ w, F w → E w end) → (∀ w, F w → E w) →
  task I (catch m h) S E.
Proof.
  intros Hm Hh HF. eapply triple_catch; [exact Hm| |by intros; apply HF].
  intros c e. specialize (Hh c e). destruct (h c e); [exact Hh|by intros; apply Hh].
Qed.
Lemma task_weaken {A} (I I' : W → Prop) (m : prog W A) S S' E E' :
  task I' m S' E' → (∀ w, I w → I' w) → (∀ a w, S' a w → S a w) → (∀ w, E' w → E w) → task I m S E.
Proof. intros Hm HI HS HE. eapply triple_weaken; [exact Hm|intros; by apply HI|intros; by apply HS|intros; by apply HE]. Qed.
Lemma task_given {A} (I : W → Prop) (F : Prop) (m : prog W A) S E : (F → task I m S E) → task (λ w, I w ∧ F) m S E.
Proof. intros H t [Ht HF]. by apply H. Qed.
Lemma task_exists {A B} (I : B → W → Prop) (m : prog W A) S E :
  (∀ b, task (I b) m S E) → task (λ w, ∃ b, I b w) m S E.
Proof. intros H t [b Hb]. by apply (H b). Qed.
Lemma task_run {A} I (m : prog W A) S E n w :
  task I m S E → I w →
  match m (mkThread n w) with (t, Ret a) => S a (th_world t) | (t, _) => E (th_world t) end.
Proof. intros Hm Hw. specialize (Hm (mkThread n w) Hw). by destruct (m (mkThread n w)) as [t [a|c e|]]. Qed.
End prog.

#[export] Hint Resolve leads_ret leads_raise leads_lift leads_gets : task.

(** ** Logs of effects *)

Section logs.
Context {E : Type} (may_follow : list E → E → Prop).

(** Every event of the log was allowed by what came before it. *)
Definition allowed (l : list E) : Prop := ∀ l1 e l2, l = l1 ++ e :: l2 → may_follow l1 e.
(** The log may go on with these events. *)
Fixpoint may_go_on (l events : list E) : Prop :=
  match events with
  | [] => True
  | e :: events => may_follow l e ∧ may_go_on (l ++ [e]) events
  end.

Lemma allowed_nil : allowed [].
Proof. intros l1 e l2 E'. by destruct l1. Qed.
Lemma allowed_snoc l e : allowed l → may_follow l e → allowed (l ++ [e]).
Proof.
  intros Hl He l1 e' l2 E'. destruct l2 as [|x l2 _] using rev_ind.
  - apply app_inj_tail in E' as [-> ->]. done.
  - rewrite app_comm_cons, app_assoc in E'. apply app_inj_tail in E' as [-> _]. by apply (Hl l1 e' l2).
Qed.
Lemma allowed_app l events : allowed l → may_go_on l events → allowed (l ++ events).
Proof.
  revert l. induction events as [|e events IH]; intros l Hl He; [by rewrite app_nil_r|].
  destruct He as [He Hes]. replace (l ++ e :: events) with ((l ++ [e]) ++ events) by by rewrite <- app_assoc.
  apply IH; [by apply allowed_snoc|done].
Qed.
Lemma may_go_on_app l events more : may_go_on l (events ++ more) ↔ may_go_on l events ∧ may_go_on (l ++ events) more.
Proof.
  revert l. induction events as [|e events IH]; intros l; cbn [may_go_on app].
  { rewrite app_nil_r. tauto. }
  rewrite IH, <- app_assoc. cbn [app]. tauto.
Qed.
End logs.

Definition ends_in {E} (l tail : list E) : Prop := ∃ l0, l = l0 ++ tail.
Lemma ends_in_app {E} (l tail more : list E) : ends_in l tail → ends_in (l ++ more) (tail ++ more).
Proof. intros [l0 ->]. exists l0. by rewrite <- app_assoc. Qed.
Lemma ends_in_suffix {E} (l before tail : list E) : ends_in l (before ++ tail) → ends_in l tail.
Proof. intros [l0 ->]. exists (l0 ++ before). by rewrite <- app_assoc. Qed.
