(* ===== verification/ToolGateway.v ===== *)
(** * The tool gateway ([ToolGateway] of [action/tool_gateway.py])

    One execution of a tool: the lookup of the capability, the validation of the
    arguments, admission, the claim of the invocation in the shared store, the policy
    decision and its approval, the grant of execution, the call of the adapter and the
    recording of the result.  An execution is a task ([Interleave]); the others act on
    the state of the gateway and on the invocation store before each await, and it may
    be cancelled at any of them.

    The services the gateway calls are answers by the number of the await
    ([GatewayServices]); admission and the keyed lock are answers too, [GatewayCapacity]
    is the component.  Metrics are awaits without effect.  The task that monitors a
    claim acts through [renew], one of the operations of the others, and by cancelling
    the execution. *)

From Stdlib Require Import SpecFloat.
From S2P Require Import Prelude PyValue DateTime Digest Contracts Approval ApprovalModes Policy JsonSchema.
From S2P Require Import ToolRegistry InvocationStore Interleave.
Local Open Scope Z_scope.

(** ** State *)

Notation execution_key := (string * string)%type.

Record GatewayState := mkGateway {
  gs_registry : ToolRegistry;
  gs_results : list (execution_key * (string * ToolResult));
  gs_pending_approvals : list ((string * string * string * string) * ApprovalRecord);
  gs_inflight : list (execution_key * list nat);
  gs_claim_tokens : list (execution_key * string);
  gs_claim_monitors : list (execution_key * nat);
  gs_claim_owners : list (execution_key * nat);
  gs_statuses : list (execution_key * string);
  gs_local_outcomes : list (execution_key * InvocationStatusRecord);
}.
#[global] Instance GatewayState_eta : Eta GatewayState := λ g,
  mkGateway (gs_registry g) (gs_results g) (gs_pending_approvals g) (gs_inflight g) (gs_claim_tokens g)
    (gs_claim_monitors g) (gs_claim_owners g) (gs_statuses g) (gs_local_outcomes g).

(** A call of an adapter. *)
Record AdapterCall := mkCall { ac_invocation : ToolInvocation; ac_capability : ToolCapability }.

(** The gateway, the invocation store with the operations that made it, and, of this
    execution, the calls and whether its ticket is in the queue. *)
Record GatewayWorld := mkGatewayWorld {
  gw_state : GatewayState;
  gw_tables : InvocationTables;
  gw_history : list InvocationOp;
  gw_calls : list AdapterCall;
  gw_queued : bool;
}.

(** ** Services *)

Record PolicyEvaluation := mkEvaluation {
  pe_decision : PolicyDecision;
  pe_decision_id : option string;
  pe_policy_version : string;
  pe_constraints : payload;
}.

(** What a call of an adapter, under [wait_for], comes to. *)
Inductive AdapterOutcome :=
  | AdapterValue (raw : json)
  | AdapterTimeout
  | AdapterConnector (message code status side_effect_status : string) (metadata : payload)
  | AdapterDenied (message code : string)
  | AdapterError (message code : string) (status_code : Z)
  | AdapterFailure.

Record GatewayConfig := mkConfig {
  gc_instance_id : string;
  gc_has_store : bool;
  gc_has_controller : bool;
  gc_has_metrics : bool;
  gc_has_credential_proxy : bool;
  gc_credential_adapters : list string;
  gc_max_inline_bytes : Z;
  gc_approval_ttl : Z;
  gc_execution_claim_ttl : Z;
  gc_policy_version : string;
}.

(** The checks of [__init__]; the capacity has its own. *)
Definition gateway_init (c : GatewayConfig) (cancellation_poll_interval : Z) : res GatewayConfig :=
  if gc_execution_claim_ttl c <=? 0 then Raise PyValueError "execution_claim_ttl must be positive"
  else if cancellation_poll_interval <=? 0
  then Raise PyValueError "cancellation_poll_interval must be positive" else Ok c.

(** The answers at each await.  [sv_policy] is a plain decision or an evaluation;
    [sv_fault] makes a statement of the store raise, before or after it took effect;
    [sv_artifact] stores a large output. *)
Record GatewayServices := mkServices {
  sv_clock : nat → Z;
  sv_uuid : nat → string;
  sv_token : nat → string;
  sv_policy : nat → ToolCapability → ToolInvocation → res (PolicyDecision + PolicyEvaluation);
  sv_approval : nat → string → string → res (option ApprovalRecord);
  sv_find_approved : nat → ToolInvocation → string → string → res (option ApprovalRecord);
  sv_validate_approval : nat → ToolInvocation → string → string → string → res bool;
  sv_request_approval : nat → ApprovalRecord → res unit;
  sv_adapter : nat → spec_float → option string → AdapterCall → AdapterOutcome;
  sv_artifact : nat → ToolInvocation → list Z → res ArtifactRef;
  sv_admit : nat → option string;
  sv_lock : nat → res unit;
  sv_slot : nat → res unit;
  sv_fault : nat → option (exn_class * bool);
  sv_safe_error_text : string → string;
  sv_redact_text : string → string;
}.

(** ** Pure parts *)

(** [SecretRedactor.redact]: every text of a value. *)
Fixpoint redact_texts (f : string → string) (v : json) : json :=
  match v with
  | JStr s => JStr (f s)
  | JArr l => JArr (map (redact_texts f) l)
  | JObj d => JObj (map (λ kv, match kv with (k, w) => (k, redact_texts f w) end) d)
  | v => v
  end.

(** [timedelta(seconds=f)] for a float: the whole seconds exactly, the microseconds of
    the rest in floating point, rounded half to even. *)
Definition whole_part (m : positive) (e : Z) : Z := if 0 <=? e then Z.shiftl (Z.pos m) e else Z.shiftr (Z.pos m) (- e).
Definition round_half_even (whole rest den : Z) : Z :=
  if 2 * rest <? den then whole
  else if den <? 2 * rest then whole + 1
  else if Z.even whole then whole else whole + 1.
Definition timedelta_of_seconds (f : spec_float) : res Z :=
  match f with
  | S754_nan => Raise PyValueError "cannot convert float NaN to integer"
  | S754_infinity _ => Raise PyOverflowError "cannot convert float infinity to integer"
  | S754_zero _ => Ok 0
  | S754_finite s m e =>
      let seconds := whole_part m e in
      let frac := match f64_of_Z seconds with
                  | Ok i => f64_sub (S754_finite false m e) i
                  | Raise _ _ => S754_zero false
                  end in
      let us := match SFmul f64_prec f64_emax frac (f64_of_decimal false 1 6) with
                | S754_finite _ pm pe =>
                    let w := seconds * 1000000 + whole_part pm pe in
                    if 0 <=? pe then w
                    else round_half_even w (Z.land (Z.pos pm) (Z.shiftl 1 (- pe) - 1)) (Z.shiftl 1 (- pe))
                | _ => seconds * 1000000
                end in
      let us := if s then - us else us in
      if 999999999 * 86400000000 + 86399999999 <? Z.abs us then Raise PyOverflowError "days" else Ok us
  end.
(** [delta.total_seconds()] *)
Definition total_seconds (us : Z) : spec_float := f64_of_ratio (us <? 0) (Z.abs us) 1000000.
(** [min(a, b)] and [max(a, b)] of floats. *)
Definition f64_min (a b : spec_float) : spec_float := if f64_ltb b a then b else a.
Definition f64_max (a b : spec_float) : spec_float := if f64_gtb b a then b else a.

Definition denied_result (summary error_code side_effect_status : string) : ToolResult :=
  mkToolResult TDenied (RValue JNull) summary [] (JStr error_code) side_effect_status.

(** [_capacity_result] *)
Definition capacity_result (reason : string) : ToolResult :=
  mkToolResult TError (RValue JNull) "Action Hands capacity is temporarily exhausted"
    [("retryable", JBool true); ("capacity_reason", JStr reason)] (JStr "hands_capacity_exhausted") "not_started".

(** [_claim_lost_result] *)
Definition claim_lost_result (phase : string) : ToolResult :=
  mkToolResult TUnknown (RValue JNull) ("tool invocation claim expired " +:+ phase) []
    (JStr "invocation_claim_lost") "not_started".

Definition conflict_result : ToolResult :=
  denied_result "idempotency key was already used for a different action" "idempotency_conflict" "not_started".
Definition uncommitted_result (summary : string) : ToolResult :=
  mkToolResult TUnknown (RValue JNull) summary [] (JStr "invocation_completion_uncommitted") "unknown".
Definition cancelled_tool_result : ToolResult :=
  mkToolResult TCancelled (RValue JNull) "tool invocation was cancelled" [] (JStr "tool_cancelled") "unknown".

Definition error_details (stage : string) (rest : payload) : payload :=
  [("error_details", JObj ([("stage", JStr stage); ("origin", JStr "local"); ("retryable", JBool false)] ++ rest))].

(** The outcome of validation as the gateway catches it: [InvalidToolSchemaError] is a
    [SchemaValidationError]. *)
Definition caught_schema (r : res (option SchemaFailure)) : res (option (string * string * list json)) :=
  match r with
  | Ok None => Ok None
  | Ok (Some f) => Ok (Some (sf_message f, "tool_schema_invalid", sf_validation_errors f))
  | Raise InvalidToolSchemaError m => Ok (Some (m, "tool_schema_definition_invalid", []))
  | Raise c m => Raise c m
  end.

Definition argument_error (failure : string * string * list json) : ToolResult :=
  let '(message, code, errors) := failure in
  mkToolResult TError (RValue JNull) message
    (error_details "argument_validation" [("validation_errors", JArr errors)]) (JStr code) "not_started".

(** The result of an adapter that raised. *)
Definition adapter_result (safe_error_text redact_text : string → string) (i : ToolInvocation) (o : AdapterOutcome)
    : json + ToolResult :=
  match o with
  | AdapterValue raw => inl raw
  | AdapterTimeout =>
      inr (mkToolResult TTimeout (RValue JNull) "tool execution timed out" (error_details "transport" [])
             (JStr "tool_timeout") "unknown")
  | AdapterConnector message code status side_effect metadata =>
      inr (mkToolResult (match result_status_of status with Ok s => s | Raise _ _ => TError end) (RValue JNull)
             (safe_error_text (redact_text message))
             (match redact_texts redact_text (JObj metadata) with JObj d => d | _ => [] end)
             (JStr code) side_effect)
  | AdapterDenied message code =>
      inr (denied_result (if String.eqb message EmptyString
                          then "controlled execution boundary denied the tool call" else message)
             code "not_started")
  | AdapterError message code status_code =>
      inr (mkToolResult (if (status_code =? 401) || (status_code =? 403) then TDenied else TError) (RValue JNull)
             (if String.eqb message EmptyString then "tool execution failed" else message) [] (JStr code) "not_started")
  | AdapterFailure =>
      inr (mkToolResult TError (RValue JNull) "tool adapter failed"
             (error_details "dispatch" [("diagnostic_id", JStr (ti_tool_invocation_id i))])
             (JStr "tool_adapter_error") "unknown")
  end.

(** The checks of [_execute_adapter] before the credential proxy is called. *)
Definition adapter_scope (conf : GatewayConfig) (i : ToolInvocation) (c : ToolCapability) : option AdapterOutcome :=
  if String.eqb (tc_runtime_location c) "credential_proxy" then
    if negb (gc_has_credential_proxy conf) || match ti_credential_ref i with None => true | _ => false end
    then Some (AdapterDenied "credential proxy execution requires credential_ref" "policy_denied")
    else match tc_allowed_credential_operations c with
         | [] => None
         | l => if str_in (ti_expected_side_effect i) l then None
                else Some (AdapterDenied "tool operation is outside capability scope" "policy_denied")
         end
  else None.

(** The request for a human approval, from the evidence of the policy. *)
Definition approval_request (conf : GatewayConfig) (redact : json → json) (uuid : string) (now : Z)
    (i : ToolInvocation) (c : ToolCapability) (digest version : string) (evidence : payload) : res ApprovalRecord :=
  let reason := pgetn "reason" evidence in
  let reason := if truthy reason then py_str reason
                else permission_value (tc_permission c) +:+ " action requires human approval" in
  assigned ← (match dget "assigned_approvers" evidence with Some v => py_iter v | None => Ok [] end);
  required ← py_int (pgetd "required_approvals" (JInt 1) evidence);
  ttl ← py_float (pgetd "approval_ttl_seconds" (JFloat (total_seconds (gc_approval_ttl conf))) evidence);
  ttl ← timedelta_of_seconds (f64_min (total_seconds (gc_approval_ttl conf)) ttl);
  escalation ← (match pgetn "escalation_after_seconds" evidence with
                | JNull => Ok None
                | v => s ← py_float v; Some <$> timedelta_of_seconds s
                end);
  Approval.request uuid now (ti_tenant_id i) (ti_session_id i) (ti_run_id i) digest (ti_tool_name i)
    (match redact (JObj (ti_arguments i)) with JObj d => d | _ => [] end) (tc_risk_level c) reason
    (ti_expected_side_effect i) version (map py_str assigned) required escalation ttl.

Definition approval_required_result (pending : ApprovalRecord) : ToolResult :=
  mkToolResult TDenied (RValue JNull) "human approval is required before execution"
    [("approval_request", JObj (as_event_payload pending))] (JStr "approval_required") "not_started".

(** What is recorded about the dispatch in the metadata of its result. *)
Definition with_dispatch (c : ToolCapability) (r : ToolResult) : ToolResult :=
  mkToolResult (tr_status r) (tr_content r) (tr_summary r)
    (dupdate (tr_metadata r)
       [("dispatch_started", JBool (negb (String.eqb (tr_side_effect_status r) "not_started")));
        ("tool_permission", JStr (permission_value (tc_permission c)))])
    (tr_error_code r) (tr_side_effect_status r).

Section gateway.
Context `{SchemaEngine} `{RowOrder}.
Context (conf : GatewayConfig) (sv : GatewayServices).
Context (others : nat → GatewayWorld → GatewayState * list InvocationOp) (cancelled : nat → bool).

(** The others change the state of the gateway and act on the invocation store. *)
Definition gateway_schedule : Schedule GatewayWorld :=
  mkSchedule (λ n w, let '(st, ops) := others n w in
    mkGatewayWorld st (invocation_run ops (gw_tables w)) (gw_history w ++ ops) (gw_calls w) (gw_queued w)) cancelled.

Notation P := (prog GatewayWorld).
Notation "x <- m ;; k" := (bind m (λ x, k)) (at level 100, m at next level, right associativity).

Definition answer {A} (f : nat → res A) : P A := await gateway_schedule (λ n w, (w, f n)).
Definition suspend : P unit := answer (λ _, Ok tt).
Definition emit_metric : P unit := if gc_has_metrics conf then suspend else ret tt.
Definition state_op (f : GatewayState → GatewayState) : P unit :=
  modify (λ w, mkGatewayWorld (f (gw_state w)) (gw_tables w) (gw_history w) (gw_calls w) (gw_queued w)).
Definition set_queued (b : bool) : P unit :=
  modify (λ w, mkGatewayWorld (gw_state w) (gw_tables w) (gw_history w) (gw_calls w) b).
Definition now : P Z := gets (λ n _, sv_clock sv n).

Definition redact (v : json) : json :=
  if gc_has_credential_proxy conf then redact_texts (sv_redact_text sv) v else v.

(** A statement of the invocation store. *)
Definition on_invocations {A} (op : nat → InvocationOp) (run : nat → InvocationTables → InvocationTables * res A) : P A :=
  await gateway_schedule (λ n w,
    let '(tables, r) := run n (gw_tables w) in
    let done := mkGatewayWorld (gw_state w) tables (gw_history w ++ [op n]) (gw_calls w) (gw_queued w) in
    match sv_fault sv n with
    | Some (c, applied) => (if (applied : bool) then done else w, Raise c EmptyString)
    | None => (done, r)
    end).
Definition on_claim (op : nat → InvocationOp) (run : nat → InvocationTables → InvocationTables * bool) : P bool :=
  on_invocations op (λ n t, let '(t, b) := run n t in (t, Ok b)).

Definition exec_key (i : ToolInvocation) : execution_key := (ti_tenant_id i, ti_tool_invocation_id i).

(** [_claim_token] *)
Definition claim_token (i : ToolInvocation) : P string :=
  r <- gets (λ _ w, dget (exec_key i) (gs_claim_tokens (gw_state w)));;
  match r with Some token => ret token | None => raise PyKeyError (ti_tool_invocation_id i) end.

(** [_complete_claimed] *)
Definition complete_claimed (i : ToolInvocation) (r : ToolResult) : P bool :=
  token <- claim_token i;;
  on_claim (λ n, IComplete (sv_clock sv n) i r token) (λ n, complete (sv_clock sv n) i r token).

(** *** [_resolve_approval], [_pending_approval_is_waiting] *)

Definition check_record (i : ToolInvocation) (digest version : string) (r : ApprovalRecord) : P bool :=
  if negb (String.eqb (ar_run_id r) (ti_run_id i))
  then raise ApprovalValidationError "approval belongs to a different Run"
  else
  t <- now;;
  _ <- lift (Approval.validate r (ti_tenant_id i) (ti_session_id i) digest version t);;
  ret true.

Definition resolve_action_approval (i : ToolInvocation) (digest version : string) : P bool :=
  match ti_approval_id i with
  | Some id =>
      if gc_has_controller conf then answer (λ n, sv_validate_approval sv n i id digest version)
      else
      r <- answer (λ n, sv_approval sv n (ti_tenant_id i) id);;
      match r with
      | None => raise ApprovalValidationError "approval does not exist"
      | Some r => check_record i digest version r
      end
  | None =>
      r <- answer (λ n, sv_find_approved sv n i digest version);;
      match r with
      | None => ret false
      | Some r => if negb (String.eqb (ar_run_id r) (ti_run_id i)) then ret false else check_record i digest version r
      end
  end.

Definition pending_is_waiting (pending : ApprovalRecord) : P bool :=
  r <- answer (λ n, sv_approval sv n (ar_tenant_id pending) (ar_approval_id pending));;
  ret (match r with
       | None => true
       | Some r => bool_decide (ar_status r ∈ [ARequested; AWaiting])
       end).

(** The pending request of this action, or a new one. *)
Definition pending_request (i : ToolInvocation) (c : ToolCapability) (digest version : string) (evidence : payload)
    : P ApprovalRecord :=
  let key := (ti_tenant_id i, ti_session_id i, ti_run_id i, digest) in
  known <- gets (λ _ w, dget key (gs_pending_approvals (gw_state w)));;
  known <- (match known with
            | None => ret None
            | Some p =>
                waiting <- pending_is_waiting p;;
                if (waiting : bool) then ret (Some p)
                else
                _ <- state_op (λ g, g <| gs_pending_approvals := ddel key (gs_pending_approvals g) |>);;
                ret None
            end);;
  match known with
  | Some p => ret p
  | None =>
      uuid <- gets (λ n _, sv_uuid sv n);;
      t <- now;;
      p <- lift (approval_request conf redact uuid t i c digest version evidence);;
      _ <- state_op (λ g, g <| gs_pending_approvals := dset key p (gs_pending_approvals g) |>);;
      _ <- (if gc_has_controller conf then answer (λ n, sv_request_approval sv n p) else ret tt);;
      ret p
  end.

(** *** [_dispatch] *)

(** [_execute_adapter] under [wait_for]: the call is logged, then awaited. *)
Definition call_adapter (timeout : spec_float) (decision_id : option string) (i : ToolInvocation) (c : ToolCapability)
    : P AdapterOutcome :=
  match adapter_scope conf i c with
  | Some o => ret o
  | None =>
      _ <- modify (λ w, mkGatewayWorld (gw_state w) (gw_tables w) (gw_history w) (gw_calls w ++ [mkCall i c]) (gw_queued w));;
      answer (λ n, Ok (sv_adapter sv n timeout decision_id (mkCall i c)))
  end.

(** [_extract_artifact] *)
Definition extract_artifact (i : ToolInvocation) (content : json) : P ResultContent :=
  let serialized := utf8 (json_dumps false content) in
  if Z.of_nat (length serialized) <=? gc_max_inline_bytes conf
  then ret (RValue (match content with
                    | JNull | JStr _ | JObj _ => content
                    | v => JObj [("value", v)]
                    end))
  else
  a <- answer (λ n, sv_artifact sv n i serialized);;
  ret (RArtifact a).

Definition dispatch (i : ToolInvocation) (c : ToolCapability) (decision_id : option string) : P ToolResult :=
  t <- now;;
  if match ti_deadline i with Some d => d <=? t | None => false end
  then ret (mkToolResult TTimeout (RValue JNull) "tool deadline elapsed before dispatch" []
              (JStr "deadline_exceeded") "not_started")
  else
  let timeout := match ti_deadline i with
                 | Some d => f64_min (tc_timeout_seconds c) (total_seconds (d - t))
                 | None => tc_timeout_seconds c
                 end in
  outcome <- call_adapter (f64_max timeout (f64_of_decimal false 1 (-3))) decision_id i c;;
  match adapter_result (sv_safe_error_text sv) (if gc_has_credential_proxy conf then sv_redact_text sv else id) i outcome with
  | inr r => ret r
  | inl raw =>
      let output := redact raw in
      failure <- lift (caught_schema (validate_json output (tc_output_schema c)));;
      match failure with
      | Some (message, _, errors) =>
          ret (mkToolResult TError (RValue JNull) message
                 (error_details "output_validation" [("validation_errors", JArr errors)])
                 (JStr "tool_output_schema_invalid") "unknown")
      | None =>
          content <- extract_artifact i output;;
          ret (mkToolResult TSuccess content (ti_tool_name i +:+ " completed")
                 [("tool_version", JStr (tc_version c))] JNull "completed")
      end
  end.

(** *** [_execute_claimed] *)

(** A result kept for replay in this process. *)
Definition remember (c : ToolCapability) (key : execution_key) (digest : string) (r : ToolResult) : P unit :=
  if tc_cache_result c then state_op (λ g, g <| gs_results := dset key (digest, r) (gs_results g) |>) else ret tt.

(** The claim: a result that ends the execution, or the invocation is claimed. *)
Definition begin_claim (task : nat) (i : ToolInvocation) (digest : string) : P (option ToolResult) :=
  token <- gets (λ n _, sv_token sv n);;
  persisted <- on_invocations
    (λ n, IBegin (sv_clock sv n) i digest (gc_instance_id conf) token (gc_execution_claim_ttl conf))
    (λ n, begin (sv_clock sv n) i digest (gc_instance_id conf) token (gc_execution_claim_ttl conf));;
  if ib_conflict persisted then ret (Some conflict_result)
  else match ib_cached_result persisted with
  | Some r => ret (Some r)
  | None =>
      match ib_acquired persisted, ib_claim_token persisted with
      | true, Some token =>
          _ <- state_op (λ g, g <| gs_claim_tokens := dset (exec_key i) token (gs_claim_tokens g) |>
                                <| gs_claim_owners := dset (exec_key i) task (gs_claim_owners g) |>
                                <| gs_claim_monitors := dset (exec_key i) task (gs_claim_monitors g) |>);;
          ret None
      | _, _ => ret (Some (mkToolResult TUnknown (RValue JNull) "tool invocation execution claim was not acquired" []
                       (JStr "invocation_claim_failed") "not_started"))
      end
  end.

(** The decision, its identity, the version of the policy and the evidence. *)
Definition policy_answer (a : PolicyDecision + PolicyEvaluation) : PolicyEvaluation :=
  match a with
  | inl d => mkEvaluation d None (gc_policy_version conf) []
  | inr e => e
  end.

Definition deny (persistent : bool) (i : ToolInvocation) (c : ToolCapability) (digest : string) (key : execution_key)
    : P ToolResult :=
  let result := denied_result "tool policy denied execution" "policy_denied" "not_started" in
  committed <- (if persistent then complete_claimed i result else ret true);;
  if negb committed then ret (claim_lost_result "before policy result was committed")
  else
  _ <- remember c key digest result;;
  ret result.

Definition park (persistent : bool) (i : ToolInvocation) (c : ToolCapability) (digest : string) (e : PolicyEvaluation)
    : P ToolResult :=
  pending <- pending_request i c digest (pe_policy_version e) (pe_constraints e);;
  let result := approval_required_result pending in
  if negb persistent then ret result
  else
  token <- claim_token i;;
  parked <- on_claim (λ n, IWait (sv_clock sv n) i result token) (λ n, wait_for_approval (sv_clock sv n) i result token);;
  ret (if (parked : bool) then result else claim_lost_result "before approval state was committed").

(** From the grant of execution to the recorded result. *)
Definition run_granted (persistent : bool) (i : ToolInvocation) (c : ToolCapability) (digest : string)
    (key : execution_key) (decision_id : option string) : P ToolResult :=
  granted <- (if persistent then
                token <- claim_token i;;
                on_claim (λ n, IMark (sv_clock sv n) i token) (λ n, mark_executing (sv_clock sv n) i token)
              else ret true);;
  if negb granted then ret (claim_lost_result "before dispatch")
  else
  result <- dispatch i c decision_id;;
  let result := with_dispatch c result in
  committed <- (if persistent then complete_claimed i result else ret true);;
  if negb committed
  then ret (uncommitted_result "tool invocation completed after its execution claim was lost")
  else
  _ <- remember c key digest result;;
  ret result.

Definition execute_claimed (task : nat) (i : ToolInvocation) (c : ToolCapability) (digest : string)
    (key : execution_key) : P ToolResult :=
  let persistent := gc_has_store conf && tc_cache_result c in
  ended <- (if persistent then begin_claim task i digest else ret None);;
  match ended with
  | Some r => ret r
  | None =>
      a <- answer (λ n, sv_policy sv n c i);;
      let e := policy_answer a in
      match pe_decision e with
      | Deny => deny persistent i c digest key
      | RequireApproval =>
          approved <- resolve_action_approval i digest (pe_policy_version e);;
          if (approved : bool) then run_granted persistent i c digest key (pe_decision_id e)
          else park persistent i c digest e
      | _ => run_granted persistent i c digest key (pe_decision_id e)
      end
  end.

(** *** [_execute_once] *)

(** A [TimeoutError] of the waits, or of the body, is a full queue. *)
Definition queue_timeout {A} (m : P A) (k : P A) : P A :=
  catch m (λ c _, match c with PyTimeoutError => Some k | _ => None end).

(** [async with self._capacity.execute(ticket)], with the [except _CapacityRejected]
    around it. *)
Definition in_capacity (body : P ToolResult) : P ToolResult :=
  let full := capacity_result "queue_timeout" in
  waited <- queue_timeout (_ <- answer (sv_slot sv);; _ <- answer (sv_slot sv);; ret true) (_ <- emit_metric;; ret false);;
  if negb waited then ret full
  else
  _ <- set_queued false;;
  finally (queue_timeout (_ <- suspend;; body) (_ <- emit_metric;; ret full)) suspend.

(** [close]: a ticket still in the queue leaves it. *)
Definition close_capacity : P unit :=
  queued <- gets (λ _ w, gw_queued w);;
  if (queued : bool) then suspend else ret tt.

Definition in_lock (task : nat) (i : ToolInvocation) (c : ToolCapability) (digest : string) (key : execution_key)
    : P ToolResult :=
  _ <- answer (sv_lock sv);;
  previous <- gets (λ _ w, if tc_cache_result c then dget key (gs_results (gw_state w)) else None);;
  match previous with
  | Some (d, r) => ret (if String.eqb d digest then r else conflict_result)
  | None => in_capacity (execute_claimed task i c digest key)
  end.

Definition stale_capability (summary : string) : ToolResult := denied_result summary "stale_capability" "not_started".

Definition execute_once (task : nat) (i : ToolInvocation) : P ToolResult :=
  found <- gets (λ _ w, registry_get (ti_tool_name i) (ti_tool_version i) (Some (ti_tenant_id i)) (gs_registry (gw_state w)));;
  match found with
  | Raise PolicyDeniedError message =>
      if str_contains "ambiguous_capability" message
      then ret (denied_result message "ambiguous_capability" "not_started")
      else
      _ <- emit_metric;;
      ret (stale_capability message)
  | Raise c message => raise c message
  | Ok c =>
      if match ti_capability_ref i with Some r => negb (bool_decide (Some r = tc_invocation_ref c)) | None => false end
      then
        _ <- emit_metric;;
        ret (stale_capability EmptyString)
      else
      let i := i <| ti_tool_name := tc_name c |> <| ti_capability_ref := tc_invocation_ref c |> in
      failure <- lift (caught_schema (validate_json (JObj (ti_arguments i)) (tc_input_schema c)));;
      match failure with
      | Some f =>
          _ <- emit_metric;;
          ret (argument_error f)
      | None =>
          let digest := invocation_action_digest i in
          let key := (ti_tenant_id i, ti_idempotency_key i) in
          rejected <- gets (λ n _, sv_admit sv n);;
          match rejected with
          | Some reason => _ <- emit_metric;; ret (capacity_result reason)
          | None =>
              _ <- set_queued true;;
              _ <- suspend;;
              finally
                (queue_timeout (in_lock task i c digest key)
                   (_ <- emit_metric;; ret (capacity_result "queue_timeout")))
                close_capacity
          end
      end
  end.

(** *** [execute] *)

Definition outcome_record (i : ToolInvocation) (status side_effect : string) (error_code : json) (r : option ToolResult)
    : InvocationStatusRecord :=
  mkStatusRecord status side_effect error_code false r (Some (ti_root_session_id i)) (Some (ti_session_id i))
    (Some (ti_run_id i)).

Definition set_outcome (i : ToolInvocation) (status side_effect : string) (error_code : json) (r : option ToolResult)
    : P unit :=
  state_op (λ g, g <| gs_statuses := dset (exec_key i) status (gs_statuses g) |>
    <| gs_local_outcomes := dset (exec_key i) (outcome_record i status side_effect error_code r) (gs_local_outcomes g) |>).

Definition owns_execution (task : nat) (i : ToolInvocation) (g : GatewayState) : bool :=
  bool_decide (dget (exec_key i) (gs_claim_owners g) = Some task).

(** The [except asyncio.CancelledError] of [execute]. *)
Definition cancelled_execution (task : nat) (i : ToolInvocation) : P ToolResult :=
  token <- gets (λ _ w, if gc_has_store conf && owns_execution task i (gw_state w)
                        then dget (exec_key i) (gs_claim_tokens (gw_state w)) else None);;
  match token with
  | None => ret cancelled_tool_result
  | Some token =>
      committed <- on_claim (λ n, IComplete (sv_clock sv n) i cancelled_tool_result token)
                     (λ n, complete (sv_clock sv n) i cancelled_tool_result token);;
      ret (if (committed : bool) then cancelled_tool_result
           else uncommitted_result "cancelled invocation could not commit its terminal state")
  end.

(** The [finally] of [execute]. *)
Definition leave_execution (task : nat) (i : ToolInvocation) : P unit :=
  owner <- gets (λ _ w, owns_execution task i (gw_state w));;
  _ <- (if (owner : bool) then
          monitor <- gets (λ _ w, dget (exec_key i) (gs_claim_monitors (gw_state w)));;
          _ <- state_op (λ g, g <| gs_claim_monitors := ddel (exec_key i) (gs_claim_monitors g) |>);;
          _ <- (match monitor with Some _ => suspend | None => ret tt end);;
          state_op (λ g, g <| gs_claim_tokens := ddel (exec_key i) (gs_claim_tokens g) |>
                           <| gs_claim_owners := ddel (exec_key i) (gs_claim_owners g) |>)
        else ret tt);;
  state_op (λ g,
    match dget (exec_key i) (gs_inflight g) with
    | None => g
    | Some tasks =>
        let tasks := List.filter (λ t, negb (Nat.eqb t task)) tasks in
        g <| gs_inflight := match tasks with
                            | [] => ddel (exec_key i) (gs_inflight g)
                            | _ => dset (exec_key i) tasks (gs_inflight g)
                            end |>
    end).

Definition execute (task : nat) (i : ToolInvocation) : P ToolResult :=
  _ <- state_op (λ g,
         let tasks := default [] (dget (exec_key i) (gs_inflight g)) in
         g <| gs_inflight := dset (exec_key i) (if decide (task ∈ tasks) then tasks else task :: tasks) (gs_inflight g) |>);;
  _ <- set_outcome i "accepted" "unknown" JNull None;;
  result <- finally (catch_cancel (execute_once task i) (cancelled_execution task i)) (leave_execution task i);;
  _ <- set_outcome i (result_status_value (tr_status result)) (tr_side_effect_status result) (tr_error_code result)
         (Some result);;
  ret result.

(** *** [cancel], [get_status], [get_authoritative_status] *)

(** Whether a cancellation was requested, and the tasks that are cancelled. *)
Definition cancel_invocation (tool_invocation_id : string) (tenant_id : option string) : P (bool * list nat) :=
  persisted <- (match gc_has_store conf, tenant_id with
                | true, Some t => on_claim (λ n, ICancel (sv_clock sv n) t tool_invocation_id)
                                    (λ n, request_cancel_invocation (sv_clock sv n) t tool_invocation_id)
                | _, _ => ret false
                end);;
  tasks <- gets (λ _ w, flat_map (λ kt,
             if String.eqb kt.1.2 tool_invocation_id
                && match tenant_id with Some t => String.eqb kt.1.1 t | None => true end
             then kt.2 else []) (gs_inflight (gw_state w)));;
  ret ((persisted : bool) || match tasks with [] => false | _ => true end, tasks).

Definition get_status (tool_invocation_id : string) (g : GatewayState) : option string :=
  match List.filter (λ ks, String.eqb ks.1.2 tool_invocation_id) (gs_statuses g) with
  | [(_, status)] => Some status
  | _ => None
  end.

Definition get_authoritative_status (tenant_id tool_invocation_id : string) : P (option InvocationStatusRecord) :=
  if gc_has_store conf
  then await gateway_schedule (λ _ w, (w, invocation_status tenant_id tool_invocation_id (gw_tables w)))
  else gets (λ _ w, dget (tenant_id, tool_invocation_id) (gs_local_outcomes (gw_state w))).
End gateway.

(** ** What an execution keeps *)

Section keeps.
Context `{SchemaEngine} `{RowOrder}.
Context (conf : GatewayConfig) (sv : GatewayServices).
Context (others : nat → GatewayWorld → GatewayState * list InvocationOp) (cancelled : nat → bool).

(** A predicate that survives what the others do, and what this execution does except
    for the call of the adapter. *)
Record steady (Q : GatewayWorld → Prop) : Prop := {
  st_state : ∀ w st b, Q w → Q (mkGatewayWorld st (gw_tables w) (gw_history w) (gw_calls w) b);
  st_ops : ∀ w ops, Q w →
    Q (mkGatewayWorld (gw_state w) (invocation_run ops (gw_tables w)) (gw_history w ++ ops) (gw_calls w) (gw_queued w));
}.

Notation on_world Q := (λ t : Thread GatewayWorld, Q (th_world t)).
Definition keeps {A} (Q : GatewayWorld → Prop) (m : prog GatewayWorld A) : Prop := leads (on_world Q) (on_world Q) m.

Section steady.
Context (Q : GatewayWorld → Prop) (HQ : steady Q).

Lemma steady_stable : stable (gateway_schedule others cancelled) (on_world Q).
Proof.
  split; cbn; [|done]. intros n w Hw. destruct (others n w) as [st ops].
  apply (st_state Q HQ (mkGatewayWorld (gw_state w) (invocation_run ops (gw_tables w)) (gw_history w ++ ops)
    (gw_calls w) (gw_queued w)) st (gw_queued w)). by apply st_ops.
Qed.

Lemma keeps_return {A} (a : A) : keeps Q (ret a).
Proof. by apply leads_ret. Qed.
Lemma keeps_raise {A} c m : keeps Q (@raise _ A c m).
Proof. by apply leads_raise. Qed.
Lemma keeps_lift {A} (r : res A) : keeps Q (lift r).
Proof. by apply leads_lift. Qed.
Lemma keeps_gets {A} (f : nat → GatewayWorld → A) : keeps Q (gets f).
Proof. by apply leads_gets. Qed.
Lemma keeps_now : keeps Q (now sv).
Proof. apply keeps_gets. Qed.
Lemma keeps_then {A B} (m : prog GatewayWorld A) (k : A → prog GatewayWorld B) :
  keeps Q m → (∀ a, keeps Q (k a)) → keeps Q (bind m k).
Proof. intros. by apply leads_seq. Qed.
Lemma keeps_catch {A} (m : prog GatewayWorld A) h :
  keeps Q m → (∀ c e k, h c e = Some k → keeps Q k) → keeps Q (catch m h).
Proof. apply leads_catch. Qed.
Lemma keeps_queue_timeout {A} (m k : prog GatewayWorld A) : keeps Q m → keeps Q k → keeps Q (queue_timeout m k).
Proof. intros Hm Hk. apply keeps_catch; [done|]. intros c e k'. destruct c; try done. by intros [= <-]. Qed.
Lemma keeps_finally {A} (m : prog GatewayWorld A) f : keeps Q m → keeps Q f → keeps Q (finally m f).
Proof. apply leads_finally. Qed.
Lemma keeps_catch_cancel {A} (m h : prog GatewayWorld A) : keeps Q m → keeps Q h → keeps Q (catch_cancel m h).
Proof. apply leads_catch_cancel. Qed.

Lemma returns_answer {A} (f : nat → res A) :
  returns (on_world Q) (λ a, ∃ n, f n = Ok a) (answer others cancelled f).
Proof. apply returns_await; [apply steady_stable|]. cbn. eauto. Qed.
Lemma keeps_answer {A} (f : nat → res A) : keeps Q (answer others cancelled f).
Proof. intros t Ht. by destruct (returns_answer f t Ht). Qed.
Lemma keeps_suspend : keeps Q (suspend others cancelled).
Proof. apply keeps_answer. Qed.
Lemma keeps_emit_metric : keeps Q (emit_metric conf others cancelled).
Proof. unfold emit_metric. destruct (gc_has_metrics conf); [apply keeps_suspend|apply keeps_return]. Qed.
Lemma keeps_state_op f : keeps Q (state_op f).
Proof. apply leads_modify. cbn. intros _ w Hw. by apply (st_state Q HQ w). Qed.
Lemma keeps_set_queued b : keeps Q (set_queued b).
Proof. apply leads_modify. cbn. intros _ w Hw. by apply (st_state Q HQ w). Qed.

(** A statement of the store is a step of its history. *)
Lemma ends_on_invocations {A} op (run : nat → InvocationTables → InvocationTables * res A) (S : A → GatewayWorld → Prop) :
  (∀ n t, (run n t).1 = invocation_step t (op n)) →
  (∀ n w a, Q w → (run n (gw_tables w)).2 = Ok a →
     S a (mkGatewayWorld (gw_state w) (invocation_step (gw_tables w) (op n)) (gw_history w ++ [op n]) (gw_calls w) (gw_queued w))) →
  ends (on_world Q) (λ a, on_world (S a)) (on_world Q) (on_invocations sv others cancelled op run).
Proof.
  intros Hrun HS [n w] Ht. unfold on_invocations, await. cbn [th_await th_world] in *.
  apply (proj1 steady_stable n w) in Ht. cbn [th_world] in Ht. set (w' := sc_env _ n w) in *.
  destruct (sc_cancelled _ n); [done|]. pose proof (Hrun n (gw_tables w')) as Hr. pose proof (HS n w') as HS'.
  destruct (run n (gw_tables w')) as [tables r] eqn:E. cbn [fst snd] in *. subst tables.
  pose proof (st_ops Q HQ w' [op n] Ht) as Hops. cbn in Hops.
  destruct (sv_fault sv n) as [[c []]|]; cbn; [done|done|]. destruct r as [a|c e]; cbn; [by apply HS'|done].
Qed.

Lemma keeps_on_invocations {A} op (run : nat → InvocationTables → InvocationTables * res A) :
  (∀ n t, (run n t).1 = invocation_step t (op n)) → keeps Q (on_invocations sv others cancelled op run).
Proof.
  intros Hrun t Ht. pose proof (ends_on_invocations op run (λ _, Q) Hrun) as He.
  specialize (He (λ n w a Hw _, st_ops Q HQ w [op n] Hw) t Ht). by destruct (on_invocations _ _ _ op run t) as [t' [| |]].
Qed.
Lemma keeps_on_claim op run :
  (∀ n t, (run n t).1 = invocation_step t (op n)) → keeps Q (on_claim sv others cancelled op run).
Proof.
  intros Hrun. apply keeps_on_invocations. intros n t. specialize (Hrun n t). by destruct (run n t).
Qed.
End steady.
End keeps.

#[export] Hint Resolve keeps_return keeps_raise keeps_lift keeps_gets keeps_now keeps_answer keeps_suspend keeps_emit_metric
  keeps_state_op keeps_set_queued : task.

(** Follow the structure of a program all of whose parts keep a steady predicate. *)
Ltac keep :=
  repeat first
    [ solve [eauto with task]
    | apply keeps_then; [|intros ?]
    | apply keeps_on_claim; [done|reflexivity]
    | apply keeps_queue_timeout
    | apply keeps_finally
    | match goal with
      | |- keeps _ (if ?b then _ else _) => destruct b
      | |- keeps _ (match ?x with _ => _ end) => destruct x
      end ].

(** ** The guard of a dispatch *)

Section guard.
Context `{SchemaEngine} `{RowOrder}.
Context (conf : GatewayConfig) (sv : GatewayServices).
Context (others : nat → GatewayWorld → GatewayState * list InvocationOp) (cancelled : nat → bool).
Implicit Types (i : ToolInvocation) (c : ToolCapability) (w : GatewayWorld).

Section kept.
Context (Q : GatewayWorld → Prop) (HQ : steady Q).
#[local] Hint Resolve HQ : task.

Lemma keeps_claim_token i : keeps Q (claim_token i).
Proof. unfold claim_token. keep. Qed.
Hint Resolve keeps_claim_token : task.
Lemma keeps_complete_claimed i r : keeps Q (complete_claimed sv others cancelled i r).
Proof. unfold complete_claimed. keep. Qed.
Lemma keeps_check_record i digest version r : keeps Q (check_record sv i digest version r).
Proof. unfold check_record. keep. Qed.
Hint Resolve keeps_complete_claimed keeps_check_record : task.
Lemma keeps_resolve_action_approval i digest version : keeps Q (resolve_action_approval conf sv others cancelled i digest version).
Proof. unfold resolve_action_approval. keep. Qed.
Lemma keeps_pending_request i c digest version evidence :
  keeps Q (pending_request conf sv others cancelled i c digest version evidence).
Proof. unfold pending_request, pending_is_waiting. keep. Qed.
Hint Resolve keeps_resolve_action_approval keeps_pending_request : task.
Lemma keeps_extract_artifact i content : keeps Q (extract_artifact conf sv others cancelled i content).
Proof. unfold extract_artifact. keep. Qed.
Lemma keeps_remember c key digest r : keeps Q (remember c key digest r).
Proof. unfold remember. keep. Qed.
Hint Resolve keeps_extract_artifact keeps_remember : task.
Lemma keeps_begin_claim task i digest : keeps Q (begin_claim conf sv others cancelled task i digest).
Proof.
  unfold begin_claim. apply keeps_then; [keep|intros token]. apply keeps_then; [|intros ?; keep].
  by apply keeps_on_invocations.
Qed.
Lemma keeps_deny persistent i c digest key : keeps Q (deny sv others cancelled persistent i c digest key).
Proof. unfold deny. keep. Qed.
Lemma keeps_park persistent i c digest e : keeps Q (park conf sv others cancelled persistent i c digest e).
Proof. unfold park. keep. Qed.
Lemma keeps_cancelled_execution task i : keeps Q (cancelled_execution conf sv others cancelled task i).
Proof. unfold cancelled_execution. keep. Qed.
Lemma keeps_leave_execution task i : keeps Q (leave_execution others cancelled task i).
Proof. unfold leave_execution. keep. Qed.
Lemma keeps_set_outcome i status side_effect code r : keeps Q (set_outcome i status side_effect code r).
Proof. unfold set_outcome. keep. Qed.
Lemma keeps_close_capacity : keeps Q (close_capacity others cancelled).
Proof. unfold close_capacity. keep. Qed.
End kept.

(** What the policy and, when it asks for one, an approval said about the action. *)
Definition approval_given i (digest version : string) : Prop :=
  (∃ n id, gc_has_controller conf = true ∧ ti_approval_id i = Some id ∧
     sv_validate_approval sv n i id digest version = Ok true) ∨
  (∃ r n, ar_run_id r = ti_run_id i ∧
     ((∃ m id, ti_approval_id i = Some id ∧ sv_approval sv m (ti_tenant_id i) id = Ok (Some r)) ∨
      (∃ m, ti_approval_id i = None ∧ sv_find_approved sv m i digest version = Ok (Some r))) ∧
     Approval.validate r (ti_tenant_id i) (ti_session_id i) digest version (sv_clock sv n) = Ok tt).

Definition policy_permits i c : Prop :=
  ∃ n a, sv_policy sv n c i = Ok a ∧
  let e := policy_answer conf a in
  (pe_decision e = Allow ∨ pe_decision e = AllowWithConstraints ∨
   pe_decision e = RequireApproval ∧ approval_given i (invocation_action_digest i) (pe_policy_version e)).

(** This execution was granted by the store. *)
Definition granted_in (h : list InvocationOp) i : Prop :=
  ∃ h1 h2 now token, h = h1 ++ IMark now i token :: h2 ∧
    (mark_executing now i token (invocation_run h1 empty_tables)).2 = true.

(** The invocation as it is executed: by the capability's name. *)
Definition resolved i c : ToolInvocation := i <| ti_tool_name := tc_name c |> <| ti_capability_ref := tc_invocation_ref c |>.

Record dispatch_permitted i0 (call : AdapterCall) (h : list InvocationOp) : Prop := {
  dp_invocation : ac_invocation call = resolved i0 (ac_capability call);
  dp_capability : ∃ g, registry_get (ti_tool_name i0) (ti_tool_version i0) (Some (ti_tenant_id i0)) g
                       = Ok (ac_capability call);
  dp_arguments : validate_json (JObj (ti_arguments i0)) (tc_input_schema (ac_capability call)) = Ok None;
  dp_policy : policy_permits (ac_invocation call) (ac_capability call);
  dp_scope : adapter_scope conf (ac_invocation call) (ac_capability call) = None;
  dp_deadline : ∀ d, ti_deadline i0 = Some d → ∃ n, sv_clock sv n < d;
  dp_grant : gc_has_store conf = true → tc_cache_result (ac_capability call) = true → granted_in h (ac_invocation call);
}.

Definition consistent w : Prop := gw_tables w = invocation_run (gw_history w) empty_tables.
Definition not_called w : Prop := consistent w ∧ gw_calls w = [].
Definition called_within i0 w : Prop := consistent w ∧
  (gw_calls w = [] ∨ ∃ call, gw_calls w = [call] ∧ dispatch_permitted i0 call (gw_history w)).

Lemma invocation_run_app ops1 ops2 t : invocation_run (ops1 ++ ops2) t = invocation_run ops2 (invocation_run ops1 t).
Proof. apply fold_left_app. Qed.

Lemma granted_in_app h ops i : granted_in h i → granted_in (h ++ ops) i.
Proof.
  intros (h1 & h2 & n & token & -> & Hm). exists h1, (h2 ++ ops), n, token. split; [|done]. by rewrite <- app_assoc.
Qed.

Lemma not_called_steady : steady not_called.
Proof.
  split; [done|]. intros w ops [H1 H2]. split; [|done]. unfold consistent in *. cbn [gw_tables gw_history].
  by rewrite invocation_run_app, <- H1.
Qed.
Lemma called_within_steady i0 : steady (called_within i0).
Proof.
  split; [done|]. intros w ops [H1 H2]. split.
  { unfold consistent in *. cbn [gw_tables gw_history]. by rewrite invocation_run_app, <- H1. }
  cbn [gw_calls gw_history].
  destruct H2 as [|(call & Hc & [])]; [by left|right]. exists call. split; [done|]. constructor; auto using granted_in_app.
Qed.
Lemma not_called_within i0 w : not_called w → called_within i0 w.
Proof. intros [H1 H2]. split; [done|by left]. Qed.

Notation on_world Q := (λ t : Thread GatewayWorld, Q (th_world t)).
Notation guarded i0 J m := (leads (on_world J) (on_world (called_within i0)) m).
#[local] Hint Resolve not_called_steady called_within_steady : task.
#[local] Hint Resolve keeps_claim_token keeps_complete_claimed keeps_resolve_action_approval keeps_pending_request
  keeps_extract_artifact keeps_remember keeps_begin_claim keeps_deny keeps_park keeps_cancelled_execution
  keeps_leave_execution keeps_set_outcome keeps_close_capacity : task.

Lemma guarded_keeps {A} i0 J (m : prog GatewayWorld A) :
  (∀ w, J w → called_within i0 w) → keeps J m → guarded i0 J m.
Proof. intros HJ Hm t Ht. apply HJ, Hm, Ht. Qed.

Lemma guarded_dispatch i0 i c decision_id J : steady J → (∀ w, J w → not_called w) →
  (∀ w, J w → adapter_scope conf i c = None → (∀ d, ti_deadline i = Some d → ∃ n, sv_clock sv n < d) →
     dispatch_permitted i0 (mkCall i c) (gw_history w)) →
  guarded i0 J (dispatch conf sv others cancelled i c decision_id).
Proof.
  intros HJ Hnot Hperm. assert (∀ w, J w → called_within i0 w) as Hwithin by (intros; by apply not_called_within, Hnot).
  unfold dispatch. eapply (leads_bind _ _ (λ t, ∃ n, t = sv_clock sv n)); [by intros t ?%Hwithin| |].
  { intros [n w] Hw. split; [done|]. cbn. intros t [= <-]. by exists n. }
  intros t [n ->]. apply leads_if; intros Hd; [apply guarded_keeps; [done|by apply keeps_return]|].
  apply leads_then; [|intros o; destruct (adapter_result _ _ i o); keep].
  unfold call_adapter. destruct (adapter_scope conf i c) eqn:Hscope; [apply guarded_keeps; [done|by apply keeps_return]|].
  apply leads_then; [|intros []; by apply keeps_answer, called_within_steady].
  apply leads_modify. cbn. intros _ w Hw. destruct (Hnot w Hw) as [Hc Hn]. split; [done|]. right.
  exists (mkCall i c). cbn. rewrite Hn. split; [done|]. apply Hperm; [done|done|].
  intros d Hdl. exists n. rewrite Hdl in Hd. by bool_props.
Qed.

Lemma ends_mark i token : ends (on_world not_called)
  (λ (b : bool) t, not_called (th_world t) ∧ (b = true → granted_in (gw_history (th_world t)) i)) (on_world not_called)
  (on_claim sv others cancelled (λ n, IMark (sv_clock sv n) i token) (λ n, mark_executing (sv_clock sv n) i token)).
Proof.
  unfold on_claim. apply (ends_on_invocations sv others cancelled not_called not_called_steady _ _
    (λ (b : bool) w, not_called w ∧ (b = true → granted_in (gw_history w) i))).
  { intros n t. unfold invocation_step. by destruct (mark_executing (sv_clock sv n) i token t). }
  intros n w b Hw Hb. split; [exact (st_ops not_called not_called_steady w [IMark (sv_clock sv n) i token] Hw)|]. intros ->. cbn [gw_history].
  exists (gw_history w), [], (sv_clock sv n), token. split; [done|]. destruct Hw as [<- _].
  destruct (mark_executing (sv_clock sv n) i token (gw_tables w)) as [t b]. by injection Hb as ->.
Qed.

Lemma guarded_run i0 i c digest key decision_id :
  i = resolved i0 c → policy_permits i c →
  (∃ g, registry_get (ti_tool_name i0) (ti_tool_version i0) (Some (ti_tenant_id i0)) g = Ok c) →
  validate_json (JObj (ti_arguments i0)) (tc_input_schema c) = Ok None →
  guarded i0 not_called
    (run_granted conf sv others cancelled (gc_has_store conf && tc_cache_result c) i c digest key decision_id).
Proof.
  intros Hi Hpol Hreg Hargs. unfold run_granted. set (persistent := gc_has_store conf && tc_cache_result c).
  eapply (ends_bind _ _ (λ b t, not_called (th_world t) ∧
    (b = true → persistent = true → granted_in (gw_history (th_world t)) i))).
  { destruct persistent.
    - intros t Ht. pose proof (keeps_claim_token not_called i t Ht) as Htok. unfold bind.
      destruct (claim_token i t) as [t' [token|e m|]]; cbn [fst snd] in *; try by apply not_called_within.
      pose proof (ends_mark i token t' Htok) as Hm. destruct (on_claim _ _ _ _ _ t') as [t2 [b|e m|]]; cbn [fst snd] in *;
        [naive_solver|by apply not_called_within..].
    - intros t Ht. cbn. done. }
  intros b. apply leads_if; intros Hb.
  { intros t [Ht _]. by apply not_called_within. }
  apply negb_false_iff in Hb as ->.
  set (J := λ w, not_called w ∧ (persistent = true → granted_in (gw_history w) i)).
  assert (steady J) as HJ.
  { split.
    - intros w st q [H1 H2]. split; [by apply (st_state _ not_called_steady)|done].
    - intros w ops [H1 H2]. split; [by apply (st_ops _ not_called_steady)|]. cbn. intros. by apply granted_in_app, H2. }
  apply (leads_then _ (on_world (called_within i0))).
  - intros t [H1 H2]. apply (guarded_dispatch i0 i c decision_id J HJ); [by intros w []| |by split; auto].
    intros w [_ Hg] Hscope Hdl. constructor; cbn; try done.
    + intros d Hd. apply Hdl. by rewrite Hi.
    + intros Hs Hc. apply Hg. unfold persistent. by rewrite Hs, Hc.
  - intros r. keep.
Qed.

Lemma approval_answer i digest version J : steady J →
  returns (on_world J) (λ b, b = true → approval_given i digest version)
    (resolve_action_approval conf sv others cancelled i digest version).
Proof.
  intros HJ. assert (∀ r, ((∃ m id, ti_approval_id i = Some id ∧ sv_approval sv m (ti_tenant_id i) id = Ok (Some r)) ∨
      (∃ m, ti_approval_id i = None ∧ sv_find_approved sv m i digest version = Ok (Some r))) →
    returns (on_world J) (λ b, b = true → approval_given i digest version) (check_record sv i digest version r)) as Hcheck.
  { intros r Hr t Ht. split; [by apply keeps_check_record|]. unfold check_record.
    destruct (String.eqb_spec (ar_run_id r) (ti_run_id i)) as [Hrun|]; cbn [negb]; [|done].
    unfold now, gets, bind, lift. cbn.
    destruct (Approval.validate r (ti_tenant_id i) (ti_session_id i) digest version (sv_clock sv (th_await t))) as [[]|] eqn:E;
      cbn; [|done]. intros b _ _. right. by exists r, (th_await t). }
  unfold resolve_action_approval. destruct (ti_approval_id i) as [id|] eqn:Hid.
  - destruct (gc_has_controller conf) eqn:Hctl.
    + intros t Ht. destruct (returns_answer others cancelled J HJ (λ n, sv_validate_approval sv n i id digest version) t Ht)
        as [H1 H2]. split; [done|]. intros b Hb ->. destruct (H2 _ Hb) as [n Hn]. left. by exists n, id.
    + intros t Ht. destruct (returns_answer others cancelled J HJ (λ n, sv_approval sv n (ti_tenant_id i) id) t Ht) as [H1 H2].
      unfold bind. destruct (answer _ _ _ t) as [t' [r|e m|]]; cbn [fst snd] in *; [|split; [exact H1|done]..].
      destruct r as [r|]; [|split; [exact H1|intros b Hb; by simplify_eq/=]]. apply Hcheck; [|done]. left. destruct (H2 _ eq_refl) as [n Hn]. by exists n, id.
  - intros t Ht. destruct (returns_answer others cancelled J HJ (λ n, sv_find_approved sv n i digest version) t Ht) as [H1 H2].
    unfold bind. destruct (answer _ _ _ t) as [t' [r|e m|]]; cbn [fst snd] in *; [|split; [exact H1|done]..].
    destruct r as [r|]; [|split; [exact H1|intros b Hb; by simplify_eq/=]]. destruct (negb _); [split; [exact H1|intros b Hb; by simplify_eq/=]|]. apply Hcheck; [|done]. right.
    destruct (H2 _ eq_refl) as [n Hn]. by exists n.
Qed.

Lemma guarded_execute_claimed i0 i c key task :
  i = resolved i0 c →
  (∃ g, registry_get (ti_tool_name i0) (ti_tool_version i0) (Some (ti_tenant_id i0)) g = Ok c) →
  validate_json (JObj (ti_arguments i0)) (tc_input_schema c) = Ok None →
  guarded i0 not_called (execute_claimed conf sv others cancelled task i c (invocation_action_digest i) key).
Proof.
  intros Hi Hreg Hargs. unfold execute_claimed. cbn zeta. set (persistent := gc_has_store conf && tc_cache_result c).
  assert (∀ w, not_called w → called_within i0 w) as Hwithin by apply not_called_within.
  apply leads_seq; [destruct persistent; [apply keeps_begin_claim, not_called_steady|by apply leads_ret]|intros t; apply Hwithin|]. intros [r|].
  { apply guarded_keeps; [done|keep]. }
  eapply leads_bind; [intros t; apply Hwithin|by apply returns_answer, not_called_steady|].
  intros a [n Ha]. cbn beta.
  assert (pe_decision (policy_answer conf a) = Allow ∨ pe_decision (policy_answer conf a) = AllowWithConstraints →
    guarded i0 not_called (run_granted conf sv others cancelled persistent i c (invocation_action_digest i) key
      (pe_decision_id (policy_answer conf a)))) as Hallow.
  { intros Hd. apply guarded_run; try done. exists n, a. split; [done|]. cbn. tauto. }
  destruct (pe_decision (policy_answer conf a)) eqn:Hd.
  - apply Hallow. by left.
  - apply guarded_keeps; [done|keep].
  - apply Hallow. by right.
  - eapply leads_bind; [intros t; apply Hwithin|by apply approval_answer, not_called_steady|].
    intros b Hb. apply leads_if; intros E; [|apply guarded_keeps; [done|keep]].
    apply guarded_run; try done. exists n, a. split; [done|]. cbn. right. right. split; [done|by apply Hb].
Qed.

Lemma guarded_queue_timeout {A} i0 J (m k : prog GatewayWorld A) :
  guarded i0 J m → keeps (called_within i0) k → guarded i0 J (queue_timeout m k).
Proof. intros Hm Hk. apply leads_catch; [done|]. intros c e k'. destruct c; try done. by intros [= <-]. Qed.

Lemma caught_schema_valid r : caught_schema r = Ok None → r = Ok None.
Proof. destruct r as [[]|[] m]; done. Qed.

Lemma guarded_in_lock i0 i c key task :
  i = resolved i0 c →
  (∃ g, registry_get (ti_tool_name i0) (ti_tool_version i0) (Some (ti_tenant_id i0)) g = Ok c) →
  validate_json (JObj (ti_arguments i0)) (tc_input_schema c) = Ok None →
  guarded i0 not_called (in_lock conf sv others cancelled task i c (invocation_action_digest i) key).
Proof.
  intros Hi Hreg Hargs. assert (∀ w, not_called w → called_within i0 w) as Hwithin by apply not_called_within.
  assert (∀ {A} (m : prog GatewayWorld A), keeps not_called m → guarded i0 not_called m) as Hkeep.
  { intros A m. by apply guarded_keeps. }
  unfold in_lock. apply leads_seq; [by apply keeps_answer, not_called_steady|intros t; apply Hwithin|]. intros _.
  apply leads_seq; [by apply keeps_gets|intros t; apply Hwithin|]. intros [[d r]|]; [by apply Hkeep, keeps_return|].
  unfold in_capacity. cbn zeta. apply leads_seq; [|intros t; apply Hwithin|].
  { apply (keeps_queue_timeout not_called); keep. }
  intros b. apply leads_if; intros _; [by apply Hkeep, keeps_return|].
  apply leads_seq; [by apply keeps_set_queued, not_called_steady|intros t; apply Hwithin|]. intros _.
  apply leads_finally; [|by apply keeps_suspend, called_within_steady].
  apply guarded_queue_timeout; [|keep].
  apply leads_seq; [by apply keeps_suspend, not_called_steady|intros t; apply Hwithin|]. intros _.
  by apply guarded_execute_claimed.
Qed.

Lemma guarded_execute_once i0 task : guarded i0 not_called (execute_once conf sv others cancelled task i0).
Proof.
  assert (∀ w, not_called w → called_within i0 w) as Hwithin by apply not_called_within.
  assert (∀ {A} (m : prog GatewayWorld A), keeps not_called m → guarded i0 not_called m) as Hkeep.
  { intros A m. by apply guarded_keeps. }
  unfold execute_once. eapply (leads_bind _ _ (λ r, ∃ g, r = registry_get (ti_tool_name i0) (ti_tool_version i0)
    (Some (ti_tenant_id i0)) g)); [intros t; apply Hwithin| |].
  { intros [n w] Hw. split; [done|]. cbn. intros r [= <-]. by eexists. }
  intros found [g Hfound]. destruct found as [c|e message]; [|apply Hkeep; destruct e; keep].
  apply leads_if; intros _; [apply Hkeep; keep|]. cbn zeta. fold (resolved i0 c).
  eapply leads_bind; [intros t; apply Hwithin|by apply returns_lift|]. intros [failure|] Hargs; [apply Hkeep; keep|].
  apply caught_schema_valid in Hargs. change (ti_arguments (resolved i0 c)) with (ti_arguments i0) in Hargs.
  apply leads_seq; [by apply keeps_gets|intros t; apply Hwithin|]. intros [reason|]; [apply Hkeep; keep|].
  apply leads_seq; [by apply keeps_set_queued, not_called_steady|intros t; apply Hwithin|]. intros _.
  apply leads_seq; [by apply keeps_suspend, not_called_steady|intros t; apply Hwithin|]. intros _.
  apply leads_finally; [|by apply keeps_close_capacity, called_within_steady].
  apply guarded_queue_timeout; [|keep]. apply guarded_in_lock; [done|by exists g|done].
Qed.

Lemma guarded_execute i0 task : guarded i0 not_called (execute conf sv others cancelled task i0).
Proof.
  assert (∀ w, not_called w → called_within i0 w) as Hwithin by apply not_called_within.
  unfold execute. apply leads_seq; [by apply keeps_state_op, not_called_steady|intros t; apply Hwithin|]. intros _.
  apply leads_seq; [by apply keeps_set_outcome, not_called_steady|intros t; apply Hwithin|]. intros _.
  apply leads_then; [|intros r; keep].
  apply leads_finally; [|by apply keeps_leave_execution, called_within_steady].
  apply leads_catch_cancel; [apply guarded_execute_once|by apply keeps_cancelled_execution, called_within_steady].
Qed.

(** C7. However the others interleave and wherever it is cancelled, one execution calls an
    adapter at most once, and only with arguments that satisfy the schema of a
    capability registered under that name and visible to the tenant, after the policy
    allowed the action or a human approval of this very action, run and policy version
    was valid, within the scope of the credential and before the deadline, and, when
    results are kept in the invocation store, after the store granted it the
    execution. *)
Theorem dispatch_guarded i task w : consistent w → gw_calls w = [] →
  let w' := th_world (execute conf sv others cancelled task i (mkThread 0 w)).1 in
  gw_calls w' = [] ∨ ∃ call, gw_calls w' = [call] ∧ dispatch_permitted i call (gw_history w').
Proof. intros Hw Hc. exact (proj2 (guarded_execute i task (mkThread 0 w) (conj Hw Hc))). Qed.

(** C8. Two executions of the same idempotency key do not both call an adapter: when this
    one did, every grant of the key in the whole history of the store, before and
    after, was to the token under which this execution was granted (no replica parks
    an invocation it was granted). *)
Theorem dispatch_exclusive i task w :
  let w' := th_world (execute conf sv others cancelled task i (mkThread 0 w)).1 in
  consistent w → gw_calls w = [] → gc_has_store conf = true →
  (∀ call, call ∈ gw_calls w' → tc_cache_result (ac_capability call) = true) → gw_calls w' ≠ [] →
  (∀ h1 h2 n j token, gw_history w' = h1 ++ IMark n j token :: h2 →
     ∀ wn wi r, IWait wn wi r token ∈ h2 → (ti_tenant_id wi, ti_idempotency_key wi) ≠ (ti_tenant_id j, ti_idempotency_key j)) →
  ∃ token, ∀ h1 h2 n j token', gw_history w' = h1 ++ IMark n j token' :: h2 →
    (ti_tenant_id j, ti_idempotency_key j) = (ti_tenant_id i, ti_idempotency_key i) →
    (mark_executing n j token' (invocation_run h1 empty_tables)).2 = true → token' = token.
Proof.
  intros w' Hw Hc Hstore Hcache Hne Hpark.
  destruct (proj2 (guarded_execute i task (mkThread 0 w) (conj Hw Hc))) as [|(call & Hcall & Hperm)]; [done|].
  fold w' in Hcall, Hperm. assert (tc_cache_result (ac_capability call) = true) as Hcr.
  { apply Hcache. rewrite Hcall. left. }
  destruct (dp_grant _ _ _ Hperm Hstore Hcr) as (g1 & g2 & gn & token & Hg & Hgm). exists token.
  assert ((ti_tenant_id (ac_invocation call), ti_idempotency_key (ac_invocation call))
    = (ti_tenant_id i, ti_idempotency_key i)) as Hkey by (by rewrite (dp_invocation _ _ _ Hperm)).
  intros h1 h2 n j token' Hh Hj Hm.
  assert (∀ a b n1 j1 t1 n2 j2 t2, gw_history w' = a ++ IMark n1 j1 t1 :: b →
    (ti_tenant_id j2, ti_idempotency_key j2) = (ti_tenant_id j1, ti_idempotency_key j1) →
    (mark_executing n1 j1 t1 (invocation_run a empty_tables)).2 = true →
    ∀ b1 b2, b = b1 ++ IMark n2 j2 t2 :: b2 →
    (mark_executing n2 j2 t2 (invocation_run (a ++ IMark n1 j1 t1 :: b1) empty_tables)).2 = true → t2 = t1) as Hafter.
  { intros a b n1 j1 t1 n2 j2 t2 Ha Hk Hm1 b1 b2 -> Hm2. rewrite invocation_run_app in Hm2. cbn [invocation_run fold_left] in Hm2.
    eapply (granted_token_unique a n1 j1 t1 b1 n2 j2 t2 Hm1); [|exact Hk|exact Hm2].
    intros wn wi r Hin. eapply Hpark; [exact Ha|]. apply elem_of_app. by left. }
  pose proof Hh as Hsplit. rewrite Hg in Hsplit. apply app_eq_inv in Hsplit as [(k & E1 & E2)|(k & E1 & E2)].
  - destruct k as [|o k]; cbn in E2; [by injection E2|]. injection E2 as <- ->.
    subst g1. symmetry. eapply (Hafter h1 _ n j token' gn (ac_invocation call)); [exact Hh|congruence|exact Hm|reflexivity|].
    exact Hgm.
  - destruct k as [|o k]; cbn in E2; [by injection E2|]. injection E2 as <- ->.
    subst h1. eapply (Hafter _ _ _ _ _ n j token'); [exact Hg|congruence|exact Hgm|reflexivity|]. exact Hm.
Qed.
End guard.

(** ** Concrete executions *)

Module GatewayExamples.
#[local] Existing Instance RegistryExamples.lax_engine.
#[local] Existing Instance InvocationExamples.first_match.

Definition mail : ToolCapability :=
  mkCapability "mail.send" "1" "sends a mail" (JObj []) (JObj []) WriteAutonomous RiskMedium "hands"
    (f64_of_decimal false 30 0) "platform" [] true None.
Definition idle : GatewayState :=
  mkGateway (registry_run [GRegister mail]) [] [] [] [] [] [] [] [].
Definition start : GatewayWorld := mkGatewayWorld idle empty_tables [] [] false.
Definition conf : GatewayConfig :=
  mkConfig "hands-1" true false false false [] 65536 3600000000 30000000 "m3-v1".

(** Every service answers; [fault] is what happens to the statements of the store. *)
Definition services (fault : nat → option (exn_class * bool)) : GatewayServices :=
  mkServices (λ n, Z.of_nat n) (λ n, "u" +:+ pretty n) (λ n, "token" +:+ pretty n) (λ _ _ _, Ok (inl Allow))
    (λ _ _ _, Ok None) (λ _ _ _ _, Ok None) (λ _ _ _ _ _, Ok true) (λ _ _, Ok tt)
    (λ _ _ _ _, AdapterValue (JStr "sent")) (λ _ _ _, Raise ArtifactAccessError EmptyString) (λ _, None) (λ _, Ok tt)
    (λ _, Ok tt) fault id id.

Definition mail_call : ToolInvocation :=
  mkInvocation "i1" "t" "root" "s" "r1" "mail.send" "1" [("to", JStr "bob")] "send" "key" None 1 "user:u" None None None
    None None None.
Definition alone (n : nat) (w : GatewayWorld) : GatewayState * list InvocationOp := (gw_state w, []).

Notation run fault := (execute conf (services fault) alone (λ _, false) 7 mail_call (mkThread 0 start)).
Notation quiet := (λ _ : nat, @None (exn_class * bool)).
Notation final := (th_world (run quiet).1).

Example sent : (run quiet).2 = Ret (with_dispatch mail
    (mkToolResult TSuccess (RValue (JStr "sent")) "mail.send completed" [("tool_version", JStr "1")] JNull "completed")).
Proof. vm_compute. reflexivity. Qed.
Lemma called_once : gw_calls final = [mkCall (resolved mail_call mail) mail].
Proof. vm_compute. reflexivity. Qed.

Lemma dispatch_guarded_witness : ∃ call, gw_calls final = [call] ∧ granted_in (gw_history final) (ac_invocation call).
Proof.
  destruct (dispatch_guarded conf (services quiet) alone (λ _, false) mail_call 7 start eq_refl eq_refl)
    as [E|(call & Hcall & Hperm)].
  - exfalso. rewrite called_once in E. discriminate E.
  - exists call. split; [exact Hcall|]. apply (dp_grant _ _ _ _ _ Hperm); [reflexivity|].
    rewrite called_once in Hcall. injection Hcall as <-. reflexivity.
Defined.

Definition is_wait (o : InvocationOp) : bool := match o with IWait _ _ _ _ => true | _ => false end.
Lemma never_parked : forallb (λ o, negb (is_wait o)) (gw_history final) = true.
Proof. vm_compute. reflexivity. Qed.
Lemma no_park h1 h2 n j token : gw_history final = h1 ++ IMark n j token :: h2 →
  ∀ wn wi r, IWait wn wi r token ∈ h2 → (ti_tenant_id wi, ti_idempotency_key wi) ≠ (ti_tenant_id j, ti_idempotency_key j).
Proof.
  intros Hh wn wi r Hin. exfalso. pose proof never_parked as Hall. rewrite Hh, forallb_forall in Hall.
  apply list_elem_of_In in Hin. specialize (Hall (IWait wn wi r token)). cbn in Hall.
  assert (false = true); [|done]. apply Hall, in_or_app. right. by right.
Qed.
Lemma cached_call call : call ∈ gw_calls final → tc_cache_result (ac_capability call) = true.
Proof. rewrite called_once. intros ->%list_elem_of_singleton. reflexivity. Qed.
Lemma some_call : gw_calls final ≠ [].
Proof. rewrite called_once. discriminate. Qed.

Lemma dispatch_exclusive_witness : ∃ token, ∀ h1 h2 n j token', gw_history final = h1 ++ IMark n j token' :: h2 →
  (ti_tenant_id j, ti_idempotency_key j) = (ti_tenant_id mail_call, ti_idempotency_key mail_call) →
  (mark_executing n j token' (invocation_run h1 empty_tables)).2 = true → token' = token.
Proof.
  exact (dispatch_exclusive conf (services quiet) alone (λ _, false) mail_call 7 start eq_refl eq_refl eq_refl cached_call
           some_call no_park).
Defined.

(** The statement that records the result times out (the tenth await): the tool has
    been called, and the execution reports a full queue, a retryable error whose side
    effect has not started. *)
Definition late_timeout (n : nat) : option (exn_class * bool) := if Nat.eqb n 9 then Some (PyTimeoutError, false) else None.
Example timeout_after_dispatch :
  (run late_timeout).2 = Ret (capacity_result "queue_timeout")
  ∧ gw_calls (th_world (run late_timeout).1) = [mkCall (resolved mail_call mail) mail]
  ∧ tr_side_effect_status (capacity_result "queue_timeout") = "not_started".
Proof. vm_compute. split_and!; reflexivity. Qed.
End GatewayExamples.
