(* ===== verification/SkillContracts.v ===== *)
(** * Contracts of Skills ([contracts/skills.py], [contracts/skill_workflows.py])

    The pydantic models as records.  A model is built by its constructor, which refuses
    values outside the constraints: [<record>_valid] are the constraints and
    [SkillWorkflow_validate] reads a workflow document from JSON.  Pydantic itself is
    not part of the repository: what it does to values of the wrong type is the class
    [Pydantic], of which only the identity on integers and booleans is assumed. *)

From Stdlib Require Import Ascii.
From S2P Require Import Prelude PyValue Contracts Routing InvocationStore.
Local Open Scope Z_scope.

(** ** Patterns *)

Fixpoint split_on (c : ascii) (s : string) : list string :=
  match s with
  | EmptyString => [EmptyString]
  | String d s =>
      if Ascii.eqb d c then EmptyString :: split_on c s
      else match split_on c s with
           | t :: l => String d t :: l
           | [] => [str1 d]
           end
  end.

Definition in_range (lo hi : N) (c : ascii) : bool := ((lo <=? ord c) && (ord c <=? hi))%N.
Definition is_lower (c : ascii) : bool := in_range 97 122 c.
Definition is_alpha (c : ascii) : bool := is_lower c || in_range 65 90 c.
Definition all_chars (p : ascii → bool) (s : string) : bool := forallb p (str_list s).
Definition one_of (l : list ascii) (c : ascii) : bool := existsb (Ascii.eqb c) l.

(** [^[a-z0-9]+(?:[._-][a-z0-9]+)*$]: alphanumeric at both ends, never two separators in
    a row. *)
Fixpoint name_chars (after_separator : bool) (l : list ascii) : bool :=
  match l with
  | [] => negb after_separator
  | c :: l =>
      if is_lower c || is_digit c then name_chars false l
      else one_of ["."; "_"; "-"]%char c && negb after_separator && name_chars true l
  end.
Definition skill_name_pattern (s : string) : bool := name_chars true (str_list s).

(** [0|[1-9]\d*] *)
Definition numeric_pattern (s : string) : bool :=
  match str_list s with
  | [c] => is_digit c
  | c :: l => is_digit c && negb (Ascii.eqb c "0") && forallb is_digit l
  | [] => false
  end.

(** [text.partition("-")]: what is before the first hyphen and what is after it. *)
Fixpoint partition_dash (s : string) : string * option string :=
  match s with
  | EmptyString => (EmptyString, None)
  | String c s => if Ascii.eqb c "-" then (EmptyString, Some s) else let '(a, b) := partition_dash s in (String c a, b)
  end.

(** [_SEMVER] *)
Definition is_semver (s : string) : bool :=
  let '(core, prerelease) := partition_dash s in
  match split_on "." core with
  | [a; b; c] => numeric_pattern a && numeric_pattern b && numeric_pattern c
  | _ => false
  end
  && match prerelease with
     | Some p => negb (String.eqb p EmptyString) && all_chars (λ c, is_digit c || is_alpha c || one_of ["."; "-"]%char c) p
     | None => true
     end.

Definition word_chars (s : string) : bool :=
  negb (String.eqb s EmptyString) && all_chars (λ c, is_digit c || is_alpha c || one_of ["_"; "-"]%char c) s.
Definition prefixed_pattern (prefix s : string) : bool :=
  String.prefix prefix s && word_chars (str_of (drop (String.length prefix) (str_list s))).

Definition opt_pattern (p : string → bool) (o : option string) : bool := match o with Some s => p s | None => true end.
Definition opt_at_most (n : Z) (o : option string) : bool :=
  match o with Some s => Z.of_nat (String.length s) <=? n | None => true end.

(** ** Enumerations *)

Inductive SkillPublicationStatus := PStaged | PValidating | PActive | PRestoring | PQuarantined | PRetired | PRevoked.
Definition publication_status_value (s : SkillPublicationStatus) : string :=
  match s with
  | PStaged => "staged" | PValidating => "validating" | PActive => "active" | PRestoring => "restoring"
  | PQuarantined => "quarantined" | PRetired => "retired" | PRevoked => "revoked"
  end.
Inductive SkillRevocationAction := RContinue | RPause | RCancel.
Definition revocation_action_value (a : SkillRevocationAction) : string :=
  match a with RContinue => "continue" | RPause => "pause" | RCancel => "cancel" end.
Inductive SkillInstallationStatus := IActive | IDisabled | IDraining | IUninstalled.
Definition installation_status_value (s : SkillInstallationStatus) : string :=
  match s with IActive => "active" | IDisabled => "disabled" | IDraining => "draining" | IUninstalled => "uninstalled" end.
Inductive SkillPackageRetentionStatus := KRetained | KPurged.
Inductive SkillUpgradePhase := UDraining | UDeleting | UCompleted | UBlocked.

#[global] Instance SkillPublicationStatus_eq_dec : EqDecision SkillPublicationStatus.
Proof. solve_decision. Defined.
#[global] Instance SkillRevocationAction_eq_dec : EqDecision SkillRevocationAction.
Proof. solve_decision. Defined.
#[global] Instance SkillInstallationStatus_eq_dec : EqDecision SkillInstallationStatus.
Proof. solve_decision. Defined.
#[global] Instance SkillPackageRetentionStatus_eq_dec : EqDecision SkillPackageRetentionStatus.
Proof. solve_decision. Defined.
#[global] Instance SkillUpgradePhase_eq_dec : EqDecision SkillUpgradePhase.
Proof. solve_decision. Defined.

(** ** The manifest *)

Record SkillToolRequirement := mkToolRequirement { tq_name : string; tq_version : string }.
Record SkillRequirement := mkSkillRequirement { sq_name : string; sq_version : string; sq_publisher : option string }.
Record SkillWorkflowEntrypoint := mkEntrypoint { we_api_version : string; we_entrypoint : string }.
Inductive ReferenceMediaType := MediaJson | MediaMarkdown.
#[global] Instance ReferenceMediaType_eq_dec : EqDecision ReferenceMediaType.
Proof. solve_decision. Defined.
Record SkillReferenceRequirement := mkReferenceRequirement {
  rq_path : string;
  rq_media_type : ReferenceMediaType;
  rq_max_bytes : Z;
  rq_preload : bool;
}.

Record SkillManifest := mkManifest {
  sm_name : string;
  sm_version : string;
  sm_description : string;
  sm_applies_when : list string;
  sm_not_when : list string;
  sm_input_schema : payload;
  sm_output_schema : payload;
  sm_required_tools : list SkillToolRequirement;
  sm_required_resources : list string;
  sm_required_skills : list SkillRequirement;
  sm_workflow : option SkillWorkflowEntrypoint;
  sm_required_references : list SkillReferenceRequirement;
  sm_allowed_roles : list string;
  sm_data_classification : string;
  sm_risk_level : string;
  sm_max_steps : Z;
  sm_timeout_seconds : Z;
  sm_publisher : string;
  sm_signature_payload_version : option string;
  sm_signature_key_id : option string;
  sm_signature : string;
}.

(** A comparison with up to three numbers: [>=1.2]. *)
Definition version_operators : list string := [">="; "<="; "=="; ">"; "<"; "="].
Fixpoint strip_operator (l : list string) (s : string) : string :=
  match l with
  | [] => s
  | p :: l => if String.prefix p s then str_of (drop (String.length p) (str_list s)) else strip_operator l s
  end.
Definition version_clause (s : string) : bool :=
  let parts := split_on "." (strip_operator version_operators s) in
  (Z.of_nat (length parts) <=? 3) && forallb numeric_pattern parts.
Definition version_range (s : string) : bool := String.eqb s "*" || forallb (λ c, version_clause (strip c)) (split_on "," s).

(** [scripts/(segment/)*segment.workflow.json] and [references/(segment/)*segment]. *)
Definition path_chars (s : string) : bool :=
  negb (String.eqb s EmptyString) && all_chars (λ c, is_digit c || is_alpha c || one_of ["_"; "."; "-"]%char c) s.
Definition entrypoint_pattern (s : string) : bool :=
  match split_on "/" s with
  | "scripts" :: (_ :: _) as segments =>
      forallb path_chars segments
      && let name := default EmptyString (last segments) in
         let n := String.length name in
         let stem := (n - String.length ".workflow.json")%nat in
         Nat.ltb (String.length ".workflow.json") n
         && String.eqb (str_of (drop stem (str_list name))) ".workflow.json"
  | _ => false
  end.
Definition reference_pattern (s : string) : bool :=
  match split_on "/" s with
  | "references" :: (_ :: _) as segments => forallb path_chars segments
  | _ => false
  end.
(** [[a-z0-9-]+:[A-Za-z0-9_-]+] *)
Definition signature_pattern (s : string) : bool :=
  match split_on ":" s with
  | [algorithm; value] =>
      negb (String.eqb algorithm EmptyString) && all_chars (λ c, is_lower c || is_digit c || Ascii.eqb c "-") algorithm
      && word_chars value
  | _ => false
  end.

Definition object_schema (d : payload) : bool := is_lit (pgetn "type" d) "object".

(** The constraints of the fields and the validators of [SkillManifest]. *)
Definition manifest_valid (m : SkillManifest) : bool :=
  within 1 256 (sm_name m) && skill_name_pattern (sm_name m) && is_semver (sm_version m)
  && within 1 4096 (sm_description m)
  && forallb (λ t, within 1 256 (tq_name t) && within 1 128 (tq_version t) && version_range (tq_version t))
       (sm_required_tools m)
  && forallb (within 1 2048) (sm_required_resources m)
  && forallb (λ k, within 1 256 (sq_name k) && skill_name_pattern (sq_name k) && within 1 128 (sq_version k)
        && opt_within 1 128 (sq_publisher k) && opt_pattern skill_name_pattern (sq_publisher k)
        && version_range (sq_version k)) (sm_required_skills m)
  && match sm_workflow m with
     | Some w => String.eqb (we_api_version w) "skills.auraclaw.io/v1alpha1" && within 1 512 (we_entrypoint w)
                 && entrypoint_pattern (we_entrypoint w)
     | None => true
     end
  && forallb (λ r, within 1 512 (rq_path r) && reference_pattern (rq_path r)
        && (1 <=? rq_max_bytes r) && (rq_max_bytes r <=? 1024 * 1024)) (sm_required_references m)
  && (1 <=? sm_max_steps m) && (sm_max_steps m <=? 1000)
  && (1 <=? sm_timeout_seconds m) && (sm_timeout_seconds m <=? 86400)
  && within 1 128 (sm_publisher m) && skill_name_pattern (sm_publisher m)
  && opt_pattern (String.eqb "v2") (sm_signature_payload_version m)
  && opt_within 1 128 (sm_signature_key_id m) && opt_pattern skill_name_pattern (sm_signature_key_id m)
  && signature_pattern (sm_signature m)
  && bool_decide (NoDup (map tq_name (sm_required_tools m))) && bool_decide (NoDup (sm_required_resources m))
  && bool_decide (NoDup (map (λ k, (sq_publisher k, sq_name k)) (sm_required_skills m)))
  && bool_decide (NoDup (map rq_path (sm_required_references m)))
  && negb (str_in (sm_name m) (map sq_name (sm_required_skills m)))
  && match sm_allowed_roles m with [] => false | l => negb (str_in EmptyString l) end
  && object_schema (sm_input_schema m) && object_schema (sm_output_schema m).

(** ** Lifecycle records *)

Record SkillUpgradeState := mkUpgrade {
  ug_tenant_id : string;
  ug_publisher : string;
  ug_name : string;
  ug_operation_id : string;
  ug_command_id : string;
  ug_current_version : string;
  ug_package_digest : string;
  ug_generation : Z;
  ug_phase : SkillUpgradePhase;
  ug_reason_code : option string;
  ug_actor_id : string;
  ug_correlation_id : string;
  ug_causation_id : string;
  ug_updated_at : Z;
}.
#[global] Instance SkillUpgradeState_eta : Eta SkillUpgradeState := λ u,
  mkUpgrade (ug_tenant_id u) (ug_publisher u) (ug_name u) (ug_operation_id u) (ug_command_id u)
    (ug_current_version u) (ug_package_digest u) (ug_generation u) (ug_phase u) (ug_reason_code u) (ug_actor_id u)
    (ug_correlation_id u) (ug_causation_id u) (ug_updated_at u).
Definition upgrade_valid (u : SkillUpgradeState) : bool :=
  is_semver (ug_current_version u) && digest_pattern (ug_package_digest u) && (1 <=? ug_generation u).

Record SkillPackageRecord := mkPackageRecord {
  pk_tenant_id : string;
  pk_manifest : SkillManifest;
  pk_package_digest : string;
  pk_artifact_ref : ArtifactRef;
  pk_signature_key_id : option string;
  pk_retention_status : SkillPackageRetentionStatus;
  pk_retention_until : Z;
  pk_legal_hold : bool;
  pk_retention_revision : Z;
  pk_retention_updated_by : string;
  pk_retention_updated_at : Z;
  pk_created_at : Z;
  pk_purged_at : option Z;
}.
Definition package_valid (p : SkillPackageRecord) : bool :=
  within 1 128 (pk_tenant_id p) && manifest_valid (pk_manifest p) && digest_pattern (pk_package_digest p)
  && opt_at_most 256 (pk_signature_key_id p) && (1 <=? pk_retention_revision p)
  && within 1 256 (pk_retention_updated_by p)
  && Bool.eqb (bool_decide (pk_retention_status p = KPurged)) (bool_decide (is_Some (pk_purged_at p))).

Record SkillPublicationRecord := mkPublication {
  pb_publication_id : string;
  pb_tenant_id : string;
  pb_publisher : string;
  pb_name : string;
  pb_version : string;
  pb_package_digest : string;
  pb_status : SkillPublicationStatus;
  pb_revision : Z;
  pb_created_by : string;
  pb_updated_by : string;
  pb_created_at : Z;
  pb_updated_at : Z;
  pb_reason_code : option string;
  pb_revocation_action : option SkillRevocationAction;
  pb_revocation_policy_version : option string;
  pb_revocation_policy_decision_id : option string;
}.
#[global] Instance SkillPublicationRecord_eta : Eta SkillPublicationRecord := λ r,
  mkPublication (pb_publication_id r) (pb_tenant_id r) (pb_publisher r) (pb_name r) (pb_version r) (pb_package_digest r)
    (pb_status r) (pb_revision r) (pb_created_by r) (pb_updated_by r) (pb_created_at r) (pb_updated_at r) (pb_reason_code r)
    (pb_revocation_action r) (pb_revocation_policy_version r) (pb_revocation_policy_decision_id r).
Definition no_evidence (policy_version decision : option string) : bool :=
  match policy_version, decision with None, None => true | _, _ => false end.
Definition publication_valid (r : SkillPublicationRecord) : bool :=
  prefixed_pattern "skp_" (pb_publication_id r) && within 1 128 (pb_tenant_id r)
  && within 1 128 (pb_publisher r) && skill_name_pattern (pb_publisher r)
  && within 1 256 (pb_name r) && skill_name_pattern (pb_name r) && is_semver (pb_version r)
  && digest_pattern (pb_package_digest r) && (1 <=? pb_revision r)
  && within 1 256 (pb_created_by r) && within 1 256 (pb_updated_by r)
  && opt_at_most 128 (pb_reason_code r) && opt_at_most 128 (pb_revocation_policy_version r)
  && opt_at_most 256 (pb_revocation_policy_decision_id r)
  && implb (bool_decide (pb_status r ∈ [PRestoring; PQuarantined; PRetired; PRevoked])) (opt_truthy (pb_reason_code r))
  && match pb_status r with
     | PRevoked => bool_decide (is_Some (pb_revocation_action r)) && opt_truthy (pb_revocation_policy_version r)
     | _ => match pb_revocation_action r with Some _ => false | None => true end
            && no_evidence (pb_revocation_policy_version r) (pb_revocation_policy_decision_id r)
     end.

Record SkillInstallationRecord := mkInstallation {
  il_installation_id : string;
  il_tenant_id : string;
  il_publisher : string;
  il_name : string;
  il_version_constraint : string;
  il_pinned_package_digest : option string;
  il_status : SkillInstallationStatus;
  il_auto_upgrade : bool;
  il_revision : Z;
  il_created_by : string;
  il_updated_by : string;
  il_created_at : Z;
  il_updated_at : Z;
  il_reason_code : option string;
  il_uninstall_action : option SkillRevocationAction;
  il_uninstall_policy_version : option string;
  il_uninstall_policy_decision_id : option string;
}.
(** [(?:==|=)?] before a version with an optional prerelease. *)
Definition exact_version (s : string) : bool := is_semver (strip_operator ["=="; "="] s).
Definition installation_valid (r : SkillInstallationRecord) : bool :=
  prefixed_pattern "ski_" (il_installation_id r) && within 1 128 (il_tenant_id r)
  && within 1 128 (il_publisher r) && skill_name_pattern (il_publisher r)
  && within 1 256 (il_name r) && skill_name_pattern (il_name r)
  && within 1 128 (il_version_constraint r) && (exact_version (il_version_constraint r) || version_range (il_version_constraint r))
  && opt_pattern digest_pattern (il_pinned_package_digest r) && (1 <=? il_revision r)
  && within 1 256 (il_created_by r) && within 1 256 (il_updated_by r)
  && opt_at_most 128 (il_reason_code r) && opt_at_most 128 (il_uninstall_policy_version r)
  && opt_at_most 256 (il_uninstall_policy_decision_id r)
  && negb (bool_decide (is_Some (il_pinned_package_digest r)) && il_auto_upgrade r)
  && implb (bool_decide (il_status r ∈ [IDisabled; IDraining; IUninstalled])) (opt_truthy (il_reason_code r))
  && implb (bool_decide (il_status r = IDraining))
       (bool_decide (is_Some (il_uninstall_action r)) && opt_truthy (il_uninstall_policy_version r))
  && match il_uninstall_action r with
     | Some RPause => false
     | Some _ => opt_truthy (il_uninstall_policy_version r)
     | None => no_evidence (il_uninstall_policy_version r) (il_uninstall_policy_decision_id r)
     end
  && implb (bool_decide (il_status r ∈ [IActive; IDisabled]))
       (match il_uninstall_action r with Some _ => false | None => true end
        && no_evidence (il_uninstall_policy_version r) (il_uninstall_policy_decision_id r)).

(** ** Bindings and activations *)

Record ResolvedSkillTool := mkResolvedTool {
  rt_capability_id : string;
  rt_canonical_name : string;
  rt_version : string;
  rt_schema_digest : string;
  rt_expected_side_effect : string;
}.
Record ResolvedSkillResource := mkResolvedResource {
  rr_capability_id : string;
  rr_server_id : string;
  rr_uri_template : string;
  rr_content_digest : string;
}.
Record ResolvedSkillDependency := mkResolvedDependency {
  rd_capability_id : string;
  rd_skill_name : string;
  rd_skill_version : string;
  rd_publisher : string;
  rd_package_digest : string;
  rd_artifact_ref : ArtifactRef;
}.
Record ResolvedSkillWorkflow := mkResolvedWorkflow {
  rw_api_version : string;
  rw_entrypoint : string;
  rw_workflow_digest : string;
  rw_reference_paths : list string;
}.
Record SkillBinding := mkBinding {
  sb_skill_name : string;
  sb_skill_version : string;
  sb_publisher : string;
  sb_package_digest : string;
  sb_artifact_ref : ArtifactRef;
  sb_resolved_tools : list ResolvedSkillTool;
  sb_resolved_resources : list ResolvedSkillResource;
  sb_resolved_skills : list ResolvedSkillDependency;
  sb_resolved_workflow : option ResolvedSkillWorkflow;
  sb_policy_version : string;
  sb_policy_decision_id : option string;
  sb_max_steps : Z;
  sb_timeout_seconds : Z;
}.
Record SkillActivation := mkActivation {
  sa_skill_activation_id : string;
  sa_activation_key : string;
  sa_binding : SkillBinding;
  sa_input_digest : string;
}.

(** ** Workflow documents *)

Record WorkflowReference := mkReference { wr_id : string; wr_path : string; wr_required : bool }.
Inductive RetryStrategy := NoBackoff | Exponential.
Inductive RetryCause := OnTimeout | OnUnavailable | OnRateLimited.
Definition retry_cause_value (c : RetryCause) : string :=
  match c with OnTimeout => "timeout" | OnUnavailable => "unavailable" | OnRateLimited => "rate_limited" end.
Definition retry_strategy_value (s : RetryStrategy) : string :=
  match s with NoBackoff => "none" | Exponential => "exponential" end.
Record WorkflowRetry := mkRetry {
  ry_max_attempts : Z;
  ry_strategy : RetryStrategy;
  ry_retry_on : list RetryCause;
}.
Inductive WorkflowOperation := ToolCallOperation | ResourceReadOperation.
Definition operation_value (o : WorkflowOperation) : string :=
  match o with ToolCallOperation => "tool.call" | ResourceReadOperation => "resource.read" end.
Record WorkflowStep := mkWorkflowStep {
  ws_id : string;
  ws_operation : WorkflowOperation;
  ws_capability : string;
  ws_arguments : list (string * payload);
  ws_result : string;
  ws_timeout_seconds : Z;
  ws_retry : WorkflowRetry;
}.
Record SkillWorkflow := mkWorkflow {
  sw_api_version : string;
  sw_kind : string;
  sw_references : list WorkflowReference;
  sw_steps : list WorkflowStep;
  sw_outputs : list (string * payload);
}.

Definition WORKFLOW_API_VERSION : string := "skills.auraclaw.io/v1alpha1".
(** [_IDENTIFIER] *)
Definition identifier_chars (s : string) : bool :=
  match s with
  | String c s => is_alpha c && all_chars (λ c, is_digit c || is_alpha c || one_of ["_"; "-"]%char c) s
  | EmptyString => false
  end.
Definition identifier_pattern (s : string) : bool := identifier_chars s && (Z.of_nat (String.length s) <=? 128).

Class Pydantic := {
  pydantic_ints :: PydanticInt;
  lax_bool : json → option bool;
  lax_bool_bool : ∀ b, lax_bool (JBool b) = Some b;
  (** The JSON reader of [model_validate_json]. *)
  pydantic_read : string → option json;
}.

Section pydantic.
Context `{Pydantic}.

Definition model_error {A} : res A := Raise PyValidationError "SkillWorkflow".

(** A field of an object, with its default. *)
Definition field {A} (k : string) (parse : json → option A) (dflt : option A) (d : payload) : res A :=
  match dget k d with
  | Some v => match parse v with Some a => Ok a | None => model_error end
  | None => match dflt with Some a => Ok a | None => model_error end
  end.
Definition text_of (lo hi : Z) (v : json) : option string :=
  match v with JStr s => if within lo hi s then Some s else None | _ => None end.
Definition identifier_of (v : json) : option string :=
  match text_of 1 128 v with Some s => if identifier_pattern s then Some s else None | None => None end.
Definition literal_of {E} (value : E → string) (members : list E) (v : json) : option E :=
  match v with
  | JStr s => List.find (λ e, String.eqb (value e) s) members
  | _ => None
  end.
Definition int_of (lo hi : Z) (v : json) : option Z :=
  match lax_int v with Some z => if (lo <=? z) && (z <=? hi) then Some z else None | None => None end.
Definition array_of {A} (parse : json → option A) (v : json) : option (list A) :=
  match v with JArr l => mapM parse l | _ => None end.
(** [dict[str, dict[str, Any]]] *)
Definition dicts_of (v : json) : option (list (string * payload)) :=
  match v with
  | JObj d => mapM (λ kv, match kv.2 with JObj e => Some (kv.1, e) | _ => None end) d
  | _ => None
  end.
Definition model_of {A} (keys : list string) (parse : payload → res A) (v : json) : option A :=
  match v with
  | JObj d => if forallb (λ k, str_in k keys) (dkeys d) then match parse d with Ok a => Some a | Raise _ _ => None end else None
  | _ => None
  end.

Definition reference_of : json → option WorkflowReference :=
  model_of ["id"; "path"; "required"] (λ d,
    i ← field "id" identifier_of None d;
    p ← field "path" (text_of 1 512) None d;
    r ← field "required" lax_bool (Some true) d;
    Ok (mkReference i p r)).
Definition retry_of : json → option WorkflowRetry :=
  model_of ["max_attempts"; "strategy"; "retry_on"] (λ d,
    n ← field "max_attempts" (int_of 1 5) (Some 1) d;
    s ← field "strategy" (literal_of retry_strategy_value [NoBackoff; Exponential]) (Some NoBackoff) d;
    l ← field "retry_on" (array_of (literal_of retry_cause_value [OnTimeout; OnUnavailable; OnRateLimited])) (Some []) d;
    Ok (mkRetry n s l)).
Definition workflow_step_of : json → option WorkflowStep :=
  model_of ["id"; "operation"; "capability"; "arguments"; "result"; "timeout_seconds"; "retry"] (λ d,
    i ← field "id" identifier_of None d;
    o ← field "operation" (literal_of operation_value [ToolCallOperation; ResourceReadOperation]) None d;
    c ← field "capability" (text_of 1 256) None d;
    a ← field "arguments" dicts_of (Some []) d;
    r ← field "result" identifier_of None d;
    t ← field "timeout_seconds" (int_of 1 3600) (Some 30) d;
    y ← field "retry" retry_of (Some (mkRetry 1 NoBackoff [])) d;
    Ok (mkWorkflowStep i o c a r t y)).

(** [validate_uniqueness] *)
Definition workflow_unique (w : SkillWorkflow) : bool :=
  bool_decide (NoDup (map ws_id (sw_steps w))) && bool_decide (NoDup (map ws_result (sw_steps w)))
  && bool_decide (NoDup (map wr_id (sw_references w))).

Definition SkillWorkflow_validate (v : json) : res SkillWorkflow :=
  match model_of ["apiVersion"; "kind"; "references"; "steps"; "outputs"] (λ d,
    a ← field "apiVersion" (literal_of id [WORKFLOW_API_VERSION]) None d;
    k ← field "kind" (literal_of id ["Workflow"]) None d;
    r ← field "references" (array_of reference_of) (Some []) d;
    s ← field "steps" (array_of workflow_step_of) None d;
    (if (1 <=? Z.of_nat (length s)) && (Z.of_nat (length s) <=? 1000) then Ok tt else model_error) ;;;
    o ← field "outputs" dicts_of (Some []) d;
    let w := mkWorkflow a k r s o in
    if workflow_unique w then Ok w else model_error) v with
  | Some w => Ok w
  | None => model_error
  end.
End pydantic.

(** [model_dump(mode="json", by_alias=True)] *)
Definition dicts_json (l : list (string * payload)) : json := JObj (map (λ kv, (kv.1, JObj kv.2)) l).
Definition reference_dump (r : WorkflowReference) : json :=
  JObj [("id", JStr (wr_id r)); ("path", JStr (wr_path r)); ("required", JBool (wr_required r))].
Definition retry_dump (y : WorkflowRetry) : json :=
  JObj [("max_attempts", JInt (ry_max_attempts y)); ("strategy", JStr (retry_strategy_value (ry_strategy y)));
        ("retry_on", JArr (map (λ c, JStr (retry_cause_value c)) (ry_retry_on y)))].
Definition workflow_step_dump (s : WorkflowStep) : json :=
  JObj [("id", JStr (ws_id s)); ("operation", JStr (operation_value (ws_operation s)));
        ("capability", JStr (ws_capability s)); ("arguments", dicts_json (ws_arguments s));
        ("result", JStr (ws_result s)); ("timeout_seconds", JInt (ws_timeout_seconds s));
        ("retry", retry_dump (ws_retry s))].
Definition workflow_dump (w : SkillWorkflow) : json :=
  JObj [("apiVersion", JStr (sw_api_version w)); ("kind", JStr (sw_kind w));
        ("references", JArr (map reference_dump (sw_references w)));
        ("steps", JArr (map workflow_step_dump (sw_steps w))); ("outputs", dicts_json (sw_outputs w))].

(** ** What [model_validate] reads *)

Section models.
Context `{Pydantic}.

Lemma field_Ok {A} k (parse : json → option A) dflt d a : field k parse dflt d = Ok a →
  (∃ v, dget k d = Some v ∧ parse v = Some a) ∨ dget k d = None ∧ dflt = Some a.
Proof.
  unfold field. destruct (dget k d) as [v|]; [|destruct dflt; intros [= ->]; auto].
  destruct (parse v) eqn:E; intros [= ->]. left. eauto.
Qed.
Lemma field_literal {A} k (parse : json → option A) dflt d v a :
  dget k d = Some v → parse v = Some a → field k parse dflt d = Ok a.
Proof. unfold field. by intros -> ->. Qed.
Lemma model_of_Some {A} keys (parse : payload → res A) v a : model_of keys parse v = Some a → ∃ d, v = JObj d ∧ parse d = Ok a.
Proof.
  unfold model_of. destruct v; try done. case_match; [|done]. destruct (parse d) eqn:E; [|done].
  intros [= ->]. eauto.
Qed.
Lemma array_of_Some {A} (parse : json → option A) v l : array_of parse v = Some l →
  ∃ vs, v = JArr vs ∧ Forall2 (λ v a, parse v = Some a) vs l.
Proof. unfold array_of. destruct v; try done. intros Hm%mapM_Some. eauto. Qed.
Lemma array_of_map {A} (parse : json → option A) (dump : A → json) l :
  Forall (λ a, parse (dump a) = Some a) l → array_of parse (JArr (map dump l)) = Some l.
Proof.
  intros Hl. unfold array_of. apply mapM_Some. induction Hl; cbn; constructor; auto.
Qed.
(** Elements that were read are read back. *)
Lemma array_reread {A} (parse : json → option A) (dump : A → json) v l :
  (∀ v a, parse v = Some a → parse (dump a) = Some a) → array_of parse v = Some l →
  array_of parse (JArr (map dump l)) = Some l.
Proof.
  intros Hr (vs & -> & Hf)%array_of_Some. apply array_of_map. induction Hf; constructor; eauto.
Qed.
Lemma dicts_of_Some v l : dicts_of v = Some l → v = dicts_json l.
Proof.
  unfold dicts_of, dicts_json. destruct v; try done. intros Hm%mapM_Some. f_equal.
  induction Hm as [|[k x] [k' e] d l Hx _ IH]; [done|]. cbn in *. destruct x; try done. by injection Hx as -> ->; rewrite IH.
Qed.
Lemma dicts_reread l : dicts_of (dicts_json l) = Some l.
Proof. unfold dicts_of, dicts_json. apply mapM_Some. induction l as [|[k e] l IH]; cbn; constructor; auto. Qed.

Lemma text_reread lo hi v s : text_of lo hi v = Some s → text_of lo hi (JStr s) = Some s.
Proof. unfold text_of. destruct v; try done. case_match eqn:E; [|done]. intros [= ->]. by rewrite E. Qed.
Lemma identifier_reread v s : identifier_of v = Some s → identifier_of (JStr s) = Some s.
Proof.
  unfold identifier_of. destruct (text_of 1 128 v) as [t|] eqn:Ht; [|done]. case_match eqn:E; [|done].
  intros [= ->]. by rewrite (text_reread _ _ _ _ Ht), E.
Qed.
Lemma int_reread lo hi v z : int_of lo hi v = Some z → int_of lo hi (JInt z) = Some z.
Proof.
  unfold int_of. destruct (lax_int v); [|done]. case_match eqn:E; [|done]. intros [= ->]. by rewrite lax_int_int, E.
Qed.

Lemma field_reread {A} k (parse : json → option A) dflt (dump : A → json) d a :
  (∀ v a, parse v = Some a → parse (dump a) = Some a) → (∀ a, dflt = Some a → parse (dump a) = Some a) →
  field k parse dflt d = Ok a → parse (dump a) = Some a.
Proof. intros H1 H2 [(v & _ & Hv)|[_ ?]]%field_Ok; eauto. Qed.
Lemma model_of_build {A} keys (parse : payload → res A) d a :
  forallb (λ k, str_in k keys) (dkeys d) = true → parse d = Ok a → model_of keys parse (JObj d) = Some a.
Proof. unfold model_of. by intros -> ->. Qed.
Lemma bool_reread v b : lax_bool v = Some b → lax_bool (JBool b) = Some b.
Proof. intros _. apply lax_bool_bool. Qed.
Lemma literal_reread {E} (value : E → string) members v e :
  (∀ e, e ∈ members → List.find (λ x, String.eqb (value x) (value e)) members = Some e) →
  literal_of value members v = Some e → literal_of value members (JStr (value e)) = Some e.
Proof.
  unfold literal_of. destruct v; try done. intros Hm Hf. apply Hm. apply find_some in Hf as [Hf _]. by apply list_elem_of_In.
Qed.

(** Build a literal object's model field by field. *)
Ltac refield :=
  match goal with |- (field ?k ?parse ?dflt ?d ≫= _) = _ =>
    erewrite (field_literal k parse dflt d); [|rewrite dget_sget; reflexivity|eassumption]; cbn [mbind res_bind]
  end.
Ltac of_field H lem := eapply field_reread in H; [|exact lem|]; [|by intros ? [= <-]].

Lemma reference_reread v r : reference_of v = Some r → reference_of (reference_dump r) = Some r.
Proof.
  intros (d & -> & Hd)%model_of_Some. apply res_bind_Ok in Hd as (i & Hi & Hd). apply res_bind_Ok in Hd as (p & Hp & Hd).
  apply res_bind_Ok in Hd as (b & Hb & Hd). injection Hd as <-.
  of_field Hi identifier_reread. of_field Hp (text_reread 1 512).
  eapply (field_reread _ _ _ JBool) in Hb; [|exact bool_reread|intros; apply lax_bool_bool].
  apply model_of_build; [done|]. cbn [wr_id wr_path wr_required]. by repeat refield.
Qed.

Lemma strategy_reread v s :
  literal_of retry_strategy_value [NoBackoff; Exponential] v = Some s →
  literal_of retry_strategy_value [NoBackoff; Exponential] (JStr (retry_strategy_value s)) = Some s.
Proof. apply literal_reread. by intros []. Qed.
Lemma cause_reread v c :
  literal_of retry_cause_value [OnTimeout; OnUnavailable; OnRateLimited] v = Some c →
  literal_of retry_cause_value [OnTimeout; OnUnavailable; OnRateLimited] (JStr (retry_cause_value c)) = Some c.
Proof. apply literal_reread. by intros []. Qed.
Lemma operation_reread v o :
  literal_of operation_value [ToolCallOperation; ResourceReadOperation] v = Some o →
  literal_of operation_value [ToolCallOperation; ResourceReadOperation] (JStr (operation_value o)) = Some o.
Proof. apply literal_reread. by intros []. Qed.

Lemma int_default lo hi (n z : Z) : (lo <=? n) && (n <=? hi) = true → Some n = Some z → int_of lo hi (JInt z) = Some z.
Proof. intros Hb [= <-]. unfold int_of. by rewrite lax_int_int, Hb. Qed.

Lemma retry_reread v y : retry_of v = Some y → retry_of (retry_dump y) = Some y.
Proof.
  intros (d & -> & Hd)%model_of_Some. apply res_bind_Ok in Hd as (n & Hn & Hd). apply res_bind_Ok in Hd as (s & Hs & Hd).
  apply res_bind_Ok in Hd as (l & Hl & Hd). injection Hd as <-.
  eapply field_reread in Hn; [|exact (int_reread 1 5)|intros ?; by apply int_default].
  of_field Hs strategy_reread.
  eapply (field_reread _ _ _ (λ l, JArr (map (λ c, JStr (retry_cause_value c)) l))) in Hl;
    [|intros ? ?; apply array_reread, cause_reread|by intros ? [= <-]].
  apply model_of_build; [done|]. cbn [ry_max_attempts ry_strategy ry_retry_on]. by repeat refield.
Qed.
Lemma default_retry y : Some (mkRetry 1 NoBackoff []) = Some y → retry_of (retry_dump y) = Some y.
Proof.
  intros [= <-]. assert (int_of 1 5 (JInt 1) = Some 1) by by apply (int_default 1 5 1).
  apply model_of_build; [done|]. refield. reflexivity.
Qed.

Lemma step_reread v s : workflow_step_of v = Some s → workflow_step_of (workflow_step_dump s) = Some s.
Proof.
  intros (d & -> & Hd)%model_of_Some. apply res_bind_Ok in Hd as (i & Hi & Hd). apply res_bind_Ok in Hd as (o & Ho & Hd).
  apply res_bind_Ok in Hd as (c & Hc & Hd). apply res_bind_Ok in Hd as (a & Ha & Hd). apply res_bind_Ok in Hd as (r & Hr & Hd).
  apply res_bind_Ok in Hd as (t & Ht & Hd). apply res_bind_Ok in Hd as (y & Hy & Hd). injection Hd as <-.
  of_field Hi identifier_reread. of_field Ho operation_reread. of_field Hc (text_reread 1 256).
  eapply (field_reread _ _ _ dicts_json) in Ha; [|intros; apply dicts_reread|intros; apply dicts_reread].
  of_field Hr identifier_reread.
  eapply field_reread in Ht; [|exact (int_reread 1 3600)|intros ?; by apply int_default].
  eapply field_reread in Hy; [|exact retry_reread|exact default_retry].
  apply model_of_build; [done|].
  cbn [ws_id ws_operation ws_capability ws_arguments ws_result ws_timeout_seconds ws_retry]. by repeat refield.
Qed.

Lemma literal1_reread l v t : literal_of id [l] v = Some t → literal_of id [l] (JStr (id t)) = Some t.
Proof. apply literal_reread. intros e ->%list_elem_of_singleton. cbn. by rewrite String.eqb_refl. Qed.

(** A document that was read is read back from its dump. *)
Lemma workflow_reread v w : SkillWorkflow_validate v = Ok w → SkillWorkflow_validate (workflow_dump w) = Ok w.
Proof.
  unfold SkillWorkflow_validate. destruct (model_of _ _ v) as [w'|] eqn:Hm; [|done]. intros [= ->].
  apply model_of_Some in Hm as (d & -> & Hd).
  apply res_bind_Ok in Hd as (a & Ha & Hd). apply res_bind_Ok in Hd as (k & Hk & Hd). apply res_bind_Ok in Hd as (r & Hr & Hd).
  apply res_bind_Ok in Hd as (s & Hs & Hd). apply res_bind_Ok in Hd as ([] & Hlen & Hd). apply res_bind_Ok in Hd as (o & Ho & Hd).
  cbv zeta in Hd. destruct (workflow_unique _) eqn:Hu; [|done]. injection Hd as <-.
  of_field Ha (literal1_reread WORKFLOW_API_VERSION). of_field Hk (literal1_reread "Workflow").
  eapply (field_reread _ _ _ (λ l, JArr (map reference_dump l))) in Hr;
    [|intros ? ?; apply array_reread, reference_reread|by intros ? [= <-]].
  eapply (field_reread _ _ _ (λ l, JArr (map workflow_step_dump l))) in Hs; [|intros ? ?; apply array_reread, step_reread|done].
  eapply (field_reread _ _ _ dicts_json) in Ho; [|intros; apply dicts_reread|intros; apply dicts_reread].
  unfold workflow_dump. erewrite model_of_build; [reflexivity|done|]. cbn [sw_api_version sw_kind sw_references sw_steps sw_outputs].
  do 4 refield. rewrite Hlen. cbn [mbind res_bind]. refield. cbv zeta. by rewrite Hu.
Qed.
End models.
