(* ===== verification/SkillWorkflow.v ===== *)
(** * Compiling Skill workflows ([domain/skill_workflows.py])

    [compile_skill_workflow] admits the declarative workflow of a package: it reads the
    document, checks it against the manifest and the files of the package, and checks
    that the selectors of every step name results of earlier steps and known references.
    [resolve_workflow_value] evaluates an expression at run time. *)

From Stdlib Require Import Ascii.
From S2P Require Import Prelude PyValue Digest JsonCodec Contracts SkillContracts.
Local Open Scope Z_scope.

Record CompiledSkillWorkflow := mkCompiled {
  cw_document : SkillWorkflow;
  cw_digest : string;
  cw_entrypoint : string;
  cw_reference_paths : list string;
}.

Notation schema_error m := (Raise SchemaValidationError m%string).

(** ** [_validate_json_depth], [_copy_json] *)

Definition MAX_JSON_DEPTH : Z := 32.

Fixpoint validate_json_depth (depth : Z) (v : json) : res unit :=
  if MAX_JSON_DEPTH <? depth then Raise PyValueError "JSON nesting is too deep" else
  match v with
  | JObj d =>
      if 10000 <? Z.of_nat (length d) then Raise PyValueError "JSON object is too large" else
      (fix go (d : payload) : res unit :=
         match d with
         | [] => Ok tt
         | (_, w) :: d => validate_json_depth (depth + 1) w ;;; go d
         end) d
  | JArr l =>
      if 10000 <? Z.of_nat (length l) then Raise PyValueError "JSON array is too large" else
      (fix go (l : list json) : res unit :=
         match l with
         | [] => Ok tt
         | w :: l => validate_json_depth (depth + 1) w ;;; go l
         end) l
  | _ => Ok tt
  end.

Definition copy_json (v : json) : res json := json_loads (json_plain v).

(** ** Selectors *)

(** [_SELECTOR.fullmatch] *)
Definition selector_parts (s : string) : list string :=
  split_on "." (match s with String c r => if Ascii.eqb c "$" then r else s | EmptyString => s end).
Definition selector_pattern (s : string) : bool :=
  match s with
  | String c r =>
      Ascii.eqb c "$" && match split_on "." r with
                         | root :: parts => str_in root ["input"; "state"; "references"] && forallb identifier_chars parts
                         | [] => false
                         end
  | EmptyString => false
  end.

Definition validate_expression (expression : payload) (available_results reference_ids : list string) : res unit :=
  if negb (Nat.eqb (length expression) 1) then schema_error "Workflow expression must contain exactly one operator" else
  match dget "literal" expression with
  | Some v => validate_json_depth 0 v
  | None =>
      match dget "from" expression with
      | Some (JStr selector) =>
          if negb (selector_pattern selector) then schema_error "Workflow selector is invalid" else
          match selector_parts selector with
          | "state" :: parts =>
              if match parts with p :: _ => str_in p available_results | [] => false end then Ok tt
              else schema_error "Workflow selector references unavailable state"
          | "references" :: parts =>
              match parts with
              | [] => schema_error "Workflow reference selector requires an id"
              | p :: _ => if str_in p reference_ids then Ok tt
                          else schema_error "Workflow selector references an unknown reference id"
              end
          | _ => Ok tt
          end
      | _ => schema_error "Workflow selector is invalid"
      end
  end.

(** The path of a selector in a value. *)
Fixpoint follow (selector : string) (v : json) (parts : list string) : res json :=
  match parts with
  | [] => Ok v
  | p :: parts =>
      match v with
      | JObj d => match dget p d with
                  | Some w => follow selector w parts
                  | None => schema_error ("Workflow selector did not resolve: " +:+ selector)
                  end
      | _ => schema_error ("Workflow selector did not resolve: " +:+ selector)
      end
  end.

Definition resolve_workflow_value (inputs state references : payload) (expression : payload) : res json :=
  match expression with
  | [("literal", v)] => copy_json v
  | _ =>
      match dget "from" expression with
      | Some (JStr selector) =>
          match selector_parts selector with
          | root :: parts =>
              match dget root [("input", inputs); ("state", state); ("references", references)] with
              | Some d => v ← follow selector (JObj d) parts; copy_json v
              | None => schema_error "Workflow selector root is invalid"
              end
          | [] => schema_error "Workflow selector root is invalid"
          end
      | _ => schema_error "Workflow expression is invalid"
      end
  end.

(** ** [compile_skill_workflow] *)

Definition MAX_WORKFLOW_BYTES : Z := 256 * 1024.

(** [except (UnicodeDecodeError, JSONDecodeError, ValidationError, ValueError)] *)
Definition value_errors_as {A} (m : string) (r : res A) : res A :=
  match r with
  | Ok a => Ok a
  | Raise c e => if is_value_error c then schema_error m else Raise c e
  end.

Definition declared (m : SkillManifest) (s : WorkflowStep) : res unit :=
  match ws_operation s with
  | ToolCallOperation =>
      if str_in (ws_capability s) (map tq_name (sm_required_tools m)) then Ok tt
      else schema_error ("Workflow Tool is not declared by the Skill: " +:+ ws_capability s)
  | ResourceReadOperation =>
      if str_in (ws_capability s) (sm_required_resources m) then Ok tt
      else schema_error ("Workflow Resource is not declared by the Skill: " +:+ ws_capability s)
  end.

(** One turn of the loop over the steps: the results so far and the total of the
    timeouts. *)
Definition check_step (m : SkillManifest) (reference_ids : list string) (acc : list string * Z) (s : WorkflowStep)
    : res (list string * Z) :=
  declared m s ;;;
  _ ← mapR (λ e, validate_expression e.2 acc.1 reference_ids) (ws_arguments s);
  Ok (acc.1 ++ [ws_result s], acc.2 + ws_timeout_seconds s * ry_max_attempts (ws_retry s)).

(** One turn of the loop over the references: the path, or nothing for an optional
    reference without a file. *)
Definition check_reference `{RecursionLimit} (m : SkillManifest) (files : list (string * list Z)) (r : WorkflowReference) : res (list string) :=
  match List.find (λ q, String.eqb (rq_path q) (wr_path r)) (rev (sm_required_references m)) with
  | None => schema_error ("Workflow reference is not declared by the Skill: " +:+ wr_path r)
  | Some requirement =>
      match dget (wr_path r) files with
      | None => if wr_required r then schema_error ("Required Skill reference is missing: " +:+ wr_path r) else Ok []
      | Some content =>
          if rq_max_bytes requirement <? Z.of_nat (length content)
          then schema_error ("Skill reference exceeds its maximum size: " +:+ wr_path r)
          else
          match rq_media_type requirement with
          | MediaJson =>
              value_errors_as ("Skill reference is not valid JSON: " +:+ wr_path r)
                (v ← json_loads_bytes content; validate_json_depth 0 v)
          | MediaMarkdown => Ok tt
          end ;;;
          Ok [wr_path r]
      end
  end.

Definition workflow_digest (w : SkillWorkflow) : string :=
  "sha256:" +:+ sha256_hex (utf8 (json_dumps true (workflow_dump w))).

Section compile.
Context `{Pydantic, RecursionLimit}.

Definition read_workflow (raw : list Z) : res SkillWorkflow :=
  value_errors_as "Skill workflow is invalid"
    (v ← json_loads_bytes raw; validate_json_depth 0 v ;;; SkillWorkflow_validate v).

Definition compile_skill_workflow (m : SkillManifest) (files : list (string * list Z)) : res (option CompiledSkillWorkflow) :=
  match sm_workflow m with
  | None =>
      if existsb (λ f, String.prefix "scripts/" f.1) files
      then schema_error "Skill scripts require a workflow entrypoint" else Ok None
  | Some descriptor =>
      match dget (we_entrypoint descriptor) files with
      | None => schema_error "Skill workflow entrypoint is missing"
      | Some raw =>
          if MAX_WORKFLOW_BYTES <? Z.of_nat (length raw) then schema_error "Skill workflow exceeds the maximum size" else
          document ← read_workflow raw;
          if negb (String.eqb (sw_api_version document) (we_api_version descriptor))
          then schema_error "Skill workflow apiVersion does not match manifest"
          else if sm_max_steps m <? Z.of_nat (length (sw_steps document))
          then schema_error "Skill workflow exceeds manifest max_steps" else
          let reference_ids := map wr_id (sw_references document) in
          checked ← foldM (check_step m reference_ids) (sw_steps document) ([], 0);
          if sm_timeout_seconds m <? checked.2 then schema_error "Skill workflow step timeouts exceed manifest timeout" else
          paths ← mapR (check_reference m files) (sw_references document);
          _ ← mapR (λ e, validate_expression e.2 checked.1 reference_ids) (sw_outputs document);
          Ok (Some (mkCompiled document (workflow_digest document) (we_entrypoint descriptor) (concat paths)))
      end
  end.
End compile.

(** ** What compilation guarantees *)

Definition expressions_at (w : SkillWorkflow) (n : nat) : list (string * payload) :=
  match sw_steps w !! n with Some s => ws_arguments s | None => sw_outputs w end.

(** The value of an earlier result or of a reference, or the inputs. *)
Definition provided (w : SkillWorkflow) (n : nat) (inputs state references : payload) (base : json) : Prop :=
  base = JObj inputs ∨
  (∃ s, s ∈ take n (sw_steps w) ∧ dget (ws_result s) state = Some base) ∨
  (∃ r, r ∈ sw_references w ∧ dget (wr_id r) references = Some base).

(** The expressions that [validate_expression] accepts. *)
Definition expression_ok (available_results reference_ids : list string) (e : payload) : Prop :=
  (∃ v, e = [("literal", v)] ∧ validate_json_depth 0 v = Ok tt) ∨
  ∃ selector, e = [("from", JStr selector)] ∧
    ((∃ parts, selector_parts selector = "input" :: parts) ∨
     (∃ p parts, selector_parts selector = "state" :: p :: parts ∧ p ∈ available_results) ∨
     (∃ p parts, selector_parts selector = "references" :: p :: parts ∧ p ∈ reference_ids)).

Lemma singleton_get {V} (k : string) (v : V) (e : list (string * V)) : length e = 1%nat → dget k e = Some v → e = [(k, v)].
Proof. destruct e as [|[k' w] [|]]; cbn; try done. intros _. case_decide; [|done]. by intros [= ->]; subst. Qed.

Lemma selector_head s : selector_pattern s = true →
  ∃ root parts, selector_parts s = root :: parts ∧ (root = "input" ∨ root = "state" ∨ root = "references").
Proof.
  unfold selector_pattern, selector_parts. destruct s as [|c r]; [done|].
  intros [-> H]%andb_true_iff. destruct (split_on "." r) as [|root parts]; [done|].
  apply andb_true_iff in H as [H _]. apply str_in_spec in H. exists root, parts. split; [done|]. set_solver.
Qed.

Lemma validate_expression_ok e available ids :
  validate_expression e available ids = Ok tt → expression_ok available ids e.
Proof.
  unfold validate_expression. destruct (Nat.eqb (length e) 1) eqn:Hl; [|done]. apply Nat.eqb_eq in Hl. cbn [negb].
  destruct (dget "literal" e) as [v|] eqn:Hlit.
  { intros. left. exists v. split; [by apply singleton_get|done]. }
  destruct (dget "from" e) as [[]|] eqn:Hfrom; try done.
  destruct (selector_pattern s) eqn:Hp; [|done]. cbn [negb].
  destruct (selector_head s Hp) as (root & parts & Hs & [-> | [-> | ->]]); rewrite Hs; intros H.
  all: right; exists s; split; [by apply singleton_get|].
  - left. eauto.
  - right; left. destruct parts as [|p parts]; [done|]. destruct (str_in p available) eqn:Hin; [|done].
    apply str_in_spec in Hin. eauto.
  - right; right. destruct parts as [|p parts]; [done|]. destruct (str_in p ids) eqn:Hin; [|done].
    apply str_in_spec in Hin. eauto.
Qed.

Lemma mapR_all {A B} (f : A → res B) l k : mapR f l = Ok k → ∀ a, a ∈ l → ∃ b, f a = Ok b.
Proof. intros H%mapR_Ok a Ha. apply list_elem_of_lookup in Ha as [i Hi]. destruct (Forall2_lookup_l _ _ _ _ _ H Hi) as (b & _ & Hb). eauto. Qed.

Definition step_ok (m : SkillManifest) (ids : list string) (before : list WorkflowStep) (s : WorkflowStep) : Prop :=
  declared m s = Ok tt ∧ ∀ e, e ∈ ws_arguments s → expression_ok (map ws_result before) ids e.2.

(** The loop over the steps, from any point of it. *)
Lemma check_steps_ok m ids steps : ∀ before total acc,
  foldM (check_step m ids) steps (map ws_result before, total) = Ok acc →
  acc.1 = map ws_result (before ++ steps) ∧
  acc.2 = total + foldr Z.add 0 (map (λ s, ws_timeout_seconds s * ry_max_attempts (ws_retry s)) steps) ∧
  ∀ n s, steps !! n = Some s → step_ok m ids (before ++ take n steps) s.
Proof.
  induction steps as [|s steps IH]; intros before total acc H; cbn [foldM] in H.
  { injection H as <-. rewrite app_nil_r. cbn. split_and!; [done|lia|]. intros n s. by rewrite lookup_nil. }
  apply res_bind_Ok in H as (acc1 & H1 & H2). unfold check_step in H1. cbn [fst snd] in H1.
  apply res_bind_Ok in H1 as ([] & Hd & H1). apply res_bind_Ok in H1 as (us & Hm & H1). injection H1 as <-.
  assert (map ws_result before ++ [ws_result s] = map ws_result (before ++ [s])) as E by by rewrite map_app.
  rewrite E in H2. destruct (IH _ _ _ H2) as (-> & -> & Hs). rewrite <- app_assoc. cbn [app map foldr].
  split_and!; [done|lia|]. intros [|n] x Hx; cbn in Hx.
  - injection Hx as <-. cbn [take]. rewrite app_nil_r. split; [done|]. intros e He.
    destruct (mapR_all _ _ _ Hm e He) as [[] Hv]. by apply validate_expression_ok.
  - cbn [take]. specialize (Hs n x Hx). by rewrite <- app_assoc in Hs.
Qed.

Section compiled.
Context `{Pydantic, RecursionLimit}.

(** Everything the checks of [compile_skill_workflow] establish. *)
Lemma compile_inv m files c : compile_skill_workflow m files = Ok (Some c) →
  ∃ descriptor raw paths, sm_workflow m = Some descriptor ∧ dget (we_entrypoint descriptor) files = Some raw ∧
    read_workflow raw = Ok (cw_document c) ∧ Z.of_nat (length raw) <= MAX_WORKFLOW_BYTES ∧
    Z.of_nat (length (sw_steps (cw_document c))) <= sm_max_steps m ∧
    foldr Z.add 0 (map (λ s, ws_timeout_seconds s * ry_max_attempts (ws_retry s)) (sw_steps (cw_document c))) <= sm_timeout_seconds m ∧
    mapR (check_reference m files) (sw_references (cw_document c)) = Ok paths ∧ cw_reference_paths c = concat paths ∧
    cw_digest c = workflow_digest (cw_document c) ∧
    (∀ n s, sw_steps (cw_document c) !! n = Some s →
      step_ok m (map wr_id (sw_references (cw_document c))) (take n (sw_steps (cw_document c))) s) ∧
    (∀ e, e ∈ sw_outputs (cw_document c) →
      expression_ok (map ws_result (sw_steps (cw_document c))) (map wr_id (sw_references (cw_document c))) e.2).
Proof.
  unfold compile_skill_workflow. intros Hc. destruct (sm_workflow m) as [descriptor|] eqn:Hm; [|by case_match].
  destruct (dget (we_entrypoint descriptor) files) as [raw|] eqn:Hraw; [|done]. split_guards.
  match goal with Hf : foldM _ _ _ = Ok ?k |- _ => destruct (check_steps_ok m _ _ [] 0 k Hf) as (E1 & E2 & E3) end.
  match goal with H : mapR _ (sw_references _) = Ok ?p |- _ => exists descriptor, raw, p end. bool_props. cbn [cw_document cw_digest cw_reference_paths].
  rewrite E2 in *. rewrite E1 in *. split_and!; try done; try lia.
  intros e He. match goal with H : mapR _ (sw_outputs _) = Ok _ |- _ => destruct (mapR_all _ _ _ H e He) as [[] Hv] end.
  by apply validate_expression_ok.
Qed.

(** An accepted expression reads what is there. *)
Lemma resolve_accepted w n e inputs state references :
  expression_ok (map ws_result (take n (sw_steps w))) (map wr_id (sw_references w)) e →
  (∀ s, s ∈ take n (sw_steps w) → ws_result s ∈ dkeys state) →
  (∀ r, r ∈ sw_references w → wr_id r ∈ dkeys references) →
  (∃ v, e = [("literal", v)] ∧ resolve_workflow_value inputs state references e = copy_json v) ∨
  ∃ selector base path, e = [("from", JStr selector)] ∧ provided w n inputs state references base ∧
    resolve_workflow_value inputs state references e = (v ← follow selector base path; copy_json v).
Proof.
  assert (∀ (k : string) (d : payload), k ∈ dkeys d → ∃ v, dget k d = Some v) as Hin.
  { intros k d Hk. destruct (dget k d) eqn:E; [eauto|]. by apply dget_None in E. }
  intros [(v & -> & _)|(selector & -> & Hs)] Hstate Hrefs; [left; by exists v|right].
  change (resolve_workflow_value inputs state references [("from", JStr selector)]) with
    (match selector_parts selector with
     | root :: parts =>
         match dget root [("input", inputs); ("state", state); ("references", references)] with
         | Some d => v ← follow selector (JObj d) parts; copy_json v
         | None => schema_error "Workflow selector root is invalid"
         end
     | [] => schema_error "Workflow selector root is invalid"
     end).
  destruct Hs as [[parts ->] | [(p & parts & -> & Hp) | (p & parts & -> & Hp)]]; rewrite dget_sget; cbn [sget String.eqb Ascii.eqb Bool.eqb].
  - exists selector, (JObj inputs), parts. split; [done|]. split; [by left|done].
  - apply list_elem_of_fmap in Hp as (s & -> & Hs). destruct (Hin _ _ (Hstate s Hs)) as [base Hb].
    exists selector, base, parts. cbn [follow]. rewrite Hb. split; [done|]. split; [|done]. right; left. eauto.
  - apply list_elem_of_fmap in Hp as (r & -> & Hr). destruct (Hin _ _ (Hrefs r Hr)) as [base Hb].
    exists selector, base, parts. cbn [follow]. rewrite Hb. split; [done|]. split; [|done]. right; right. eauto.
Qed.

(** C39. Selectors of an admitted workflow are well scoped: in any state that holds the
    results of the steps before step [n] (all of them for the outputs) and with the
    references loaded, an expression of step [n] is a literal, which evaluates to a copy of
    itself, or reads a path in the inputs, in the result of an earlier step or in a
    reference; the root of a selector is never missing. *)
Theorem compiled_workflow_scoped m files c n name e inputs state references :
  compile_skill_workflow m files = Ok (Some c) → (n ≤ length (sw_steps (cw_document c)))%nat →
  (name, e) ∈ expressions_at (cw_document c) n →
  (∀ s, s ∈ take n (sw_steps (cw_document c)) → ws_result s ∈ dkeys state) →
  (∀ r, r ∈ sw_references (cw_document c) → wr_id r ∈ dkeys references) →
  (∃ v, e = [("literal", v)] ∧ resolve_workflow_value inputs state references e = copy_json v ∧
     (plain_json v = true → copy_json v = Ok v)) ∨
  ∃ selector base path, e = [("from", JStr selector)] ∧ provided (cw_document c) n inputs state references base ∧
    resolve_workflow_value inputs state references e = (v ← follow selector base path; copy_json v).
Proof.
  intros Hc Hn He Hstate Hrefs. apply compile_inv in Hc as (descriptor & raw & paths & _ & _ & _ & _ & _ & _ & _ & _ & _ & Hsteps & Houts).
  assert (expression_ok (map ws_result (take n (sw_steps (cw_document c)))) (map wr_id (sw_references (cw_document c))) e) as Hok.
  { unfold expressions_at in He. destruct (sw_steps (cw_document c) !! n) as [s|] eqn:Hs.
    - by apply (proj2 (Hsteps n s Hs)) in He.
    - apply lookup_ge_None in Hs. rewrite take_ge by lia. by apply Houts in He. }
  destruct (resolve_accepted _ _ _ inputs _ _ Hok Hstate Hrefs) as [(v & -> & Hr)|?]; [left|by right].
  exists v. split_and!; [done..|]. apply json_roundtrip.
Qed.

(** An admitted workflow stays within its manifest: the number of its steps, the sum
    over the steps of the time-outs of all attempts, the tools and resources it calls and
    the references it reads are those the manifest allows; step ids, results and reference
    ids are distinct and the digest is that of the canonical text of the document. *)
Theorem compiled_workflow_bounded m files c : compile_skill_workflow m files = Ok (Some c) →
  Z.of_nat (length (sw_steps (cw_document c))) <= sm_max_steps m ∧
  foldr Z.add 0 (map (λ s, ws_timeout_seconds s * ry_max_attempts (ws_retry s)) (sw_steps (cw_document c))) <= sm_timeout_seconds m ∧
  (∀ s, s ∈ sw_steps (cw_document c) →
    match ws_operation s with
    | ToolCallOperation => ws_capability s ∈ map tq_name (sm_required_tools m)
    | ResourceReadOperation => ws_capability s ∈ sm_required_resources m
    end) ∧
  (∀ p, p ∈ cw_reference_paths c → p ∈ map rq_path (sm_required_references m)) ∧
  cw_digest c = workflow_digest (cw_document c).
Proof.
  intros (descriptor & raw & paths & _ & _ & _ & _ & Hmax & Htime & Hpaths & Hrp & Hd & Hsteps & _)%compile_inv.
  split_and!; [done|done| | |done].
  - intros s [n Hs]%list_elem_of_lookup. destruct (Hsteps n s Hs) as [Hdecl _]. unfold declared in Hdecl.
    destruct (ws_operation s), (str_in _ _) eqn:E; try done; by apply str_in_spec in E.
  - intros p Hp. rewrite Hrp in Hp. apply list_elem_of_In, in_concat in Hp as (l & Hl & Hp).
    apply list_elem_of_In in Hl. apply mapR_Ok in Hpaths. apply list_elem_of_lookup in Hl as [i Hi].
    destruct (Forall2_lookup_r _ _ _ _ _ Hpaths Hi) as (r & _ & Hr). unfold check_reference in Hr.
    destruct (List.find _ _) as [q|] eqn:Hq; [|done]. apply find_some in Hq as [Hq Heq]. apply String.eqb_eq in Heq.
    assert (l = [] ∨ l = [wr_path r]) as [-> | ->]; [|by destruct Hp|].
    { destruct (dget _ files); [|case_match; naive_solver]. split_guards. by right. }
    apply list_elem_of_In in Hp. rewrite list_elem_of_singleton in Hp. subst p. apply list_elem_of_fmap. exists q. split; [done|].
    apply list_elem_of_In, in_rev. done.
Qed.
End compiled.

(** ** What compilation raises *)

Lemma depth_ok n v : validate_json_depth n v = Ok tt → n <= MAX_JSON_DEPTH.
Proof. destruct v; cbn [validate_json_depth]; destruct (MAX_JSON_DEPTH <? n) eqn:E; try done; intros _; lia. Qed.
Lemma depth_array n l w : validate_json_depth n (JArr l) = Ok tt → w ∈ l → validate_json_depth (n + 1) w = Ok tt.
Proof.
  cbn [validate_json_depth]. destruct (MAX_JSON_DEPTH <? n); [done|]. destruct (10000 <? _); [done|]. induction l as [|x l IH]; intros Hd; [by intros ?%elem_of_nil|intros [->|Hw]%elem_of_cons].
  - by apply res_bind_Ok in Hd as ([] & -> & _).
  - apply res_bind_Ok in Hd as ([] & _ & Hd). by apply IH.
Qed.
Lemma depth_object n d k w : validate_json_depth n (JObj d) = Ok tt → (k, w) ∈ d → validate_json_depth (n + 1) w = Ok tt.
Proof.
  cbn [validate_json_depth]. destruct (MAX_JSON_DEPTH <? n); [done|]. destruct (10000 <? _); [done|]. induction d as [|[k' x] d IH]; intros Hd; [by intros ?%elem_of_nil|intros [E|Hw]%elem_of_cons].
  - injection E as -> ->. by apply res_bind_Ok in Hd as ([] & -> & _).
  - apply res_bind_Ok in Hd as ([] & _ & Hd). by apply IH.
Qed.
Lemma depth_raises n v c e : validate_json_depth n v = Raise c e → c = PyValueError.
Proof.
  revert n c e. apply (json_nested_ind (λ v, ∀ n c e, validate_json_depth n v = Raise c e → c = PyValueError)); clear v.
  - intros []; try done; intros n c e; cbn [validate_json_depth]; destruct (MAX_JSON_DEPTH <? n); congruence.
  - intros l IH n c e. cbn [validate_json_depth]. destruct (MAX_JSON_DEPTH <? n); [congruence|]. destruct (10000 <? _); [congruence|].
    induction IH as [|w l Hw _ IH]; [done|]. cbn [mbind res_bind]. destruct (validate_json_depth (n + 1) w) as [[]|] eqn:E; cbn [mbind res_bind]; [exact IH|].
    intros [= -> ->]. by eapply Hw.
  - intros d IH n c e. cbn [validate_json_depth]. destruct (MAX_JSON_DEPTH <? n); [congruence|]. destruct (10000 <? _); [congruence|].
    induction IH as [|[k w] d Hw _ IH]; [done|]. cbn [mbind res_bind]. destruct (validate_json_depth (n + 1) w) as [[]|] eqn:E; cbn [mbind res_bind]; [exact IH|].
    intros [= -> ->]. by eapply Hw.
Qed.
(** Less deep is better. *)
Lemma depth_mono v : ∀ n m, validate_json_depth n v = Ok tt → m <= n → validate_json_depth m v = Ok tt.
Proof.
  revert v. apply (json_nested_ind (λ v, ∀ n m, validate_json_depth n v = Ok tt → m <= n → validate_json_depth m v = Ok tt)).
  - intros v. assert (∀ n m, n <= MAX_JSON_DEPTH → m <= n → MAX_JSON_DEPTH <? m = false) as Hd by (intros; lia).
    destruct v; try done; intros n m Hv%depth_ok Hm; cbn [validate_json_depth]; by rewrite (Hd n m).
  - intros l IH n m Hn Hm. pose proof (depth_ok _ _ Hn). cbn [validate_json_depth] in *.
    rewrite (proj2 (Z.ltb_ge MAX_JSON_DEPTH n)) in Hn by lia. rewrite (proj2 (Z.ltb_ge MAX_JSON_DEPTH m)) by lia. destruct (10000 <? _); [done|].
    induction IH as [|w l Hw _ IH]; [done|]. apply res_bind_Ok in Hn as ([] & H1 & H2). rewrite (Hw _ (m + 1) H1) by lia. auto.
  - intros d IH n m Hn Hm. pose proof (depth_ok _ _ Hn). cbn [validate_json_depth] in *.
    rewrite (proj2 (Z.ltb_ge MAX_JSON_DEPTH n)) in Hn by lia. rewrite (proj2 (Z.ltb_ge MAX_JSON_DEPTH m)) by lia. destruct (10000 <? _); [done|].
    induction IH as [|[k w] d Hw _ IH]; [done|]. apply res_bind_Ok in Hn as ([] & H1 & H2). cbn in Hw. rewrite (Hw _ (m + 1) H1) by lia. auto.
Qed.

(** Expressions whose literals are within the depth. *)
Definition shallow (es : list (string * payload)) : Prop :=
  ∀ k e v, (k, e) ∈ es → dget "literal" e = Some v → validate_json_depth 0 v = Ok tt.

Lemma shallow_dicts n es : validate_json_depth n (dicts_json es) = Ok tt → -2 <= n → shallow es.
Proof.
  intros H Hn k e v He Hv. assert ((k, JObj e) ∈ map (λ kv : string * payload, (kv.1, JObj kv.2)) es) as Hin.
  { apply list_elem_of_fmap. by exists (k, e). }
  apply (depth_object _ _ k (JObj e)) in H; [|done]. apply dget_Some_elem in Hv. apply (depth_object _ _ _ _ H) in Hv.
  eapply depth_mono; [exact Hv|lia].
Qed.

(** The exceptions that leave the compilation of a package with these files: besides
    [SchemaValidationError], those of reading one of them that no handler takes. *)
Definition escapes `{RecursionLimit} (files : list (string * list Z)) (c : exn_class) (e : string) : Prop :=
  c = SchemaValidationError
  ∨ ∃ path content, dget path files = Some content ∧ json_loads_bytes content = Raise c e
      ∧ (c = PyRecursionError ∧ (recursion_limit < length content)%nat ∨ c = Unrepresentable).

Section escaping.
Context `{RecursionLimit} (files : list (string * list Z)).

Definition only_schema_errors {A} (r : res A) : Prop :=
  match r with Ok _ => True | Raise c e => escapes files c e end.

Lemma only_bind {A B} (r : res A) (f : A → res B) :
  only_schema_errors r → (∀ a, r = Ok a → only_schema_errors (f a)) → only_schema_errors (r ≫= f).
Proof. destruct r; cbn; auto. Qed.
Lemma only_if {A} (b : bool) (r r' : res A) :
  only_schema_errors r → only_schema_errors r' → only_schema_errors (if b then r else r').
Proof. by destruct b. Qed.
Lemma only_mapR {A B} (f : A → res B) l : (∀ a, a ∈ l → only_schema_errors (f a)) → only_schema_errors (mapR f l).
Proof.
  induction l as [|a l IH]; intros Hf; [done|]. cbn [mapR]. apply only_bind; [by apply Hf; left|]. intros b _.
  apply only_bind; [|done]. apply IH. intros. apply Hf. by right.
Qed.
Lemma only_foldM {A B} (f : B → A → res B) l : (∀ a b, a ∈ l → only_schema_errors (f b a)) → ∀ b, only_schema_errors (foldM f l b).
Proof.
  induction l as [|a l IH]; intros Hf b; [done|]. cbn [foldM]. apply only_bind; [by apply Hf; left|]. intros b' _.
  apply IH. intros. apply Hf. by right.
Qed.
(** Reading a file and what follows it, under the handlers. *)
Lemma only_read {A} m path content (f : json → res A) :
  dget path files = Some content → (∀ v c e, f v = Raise c e → is_value_error c = true) →
  only_schema_errors (value_errors_as m (json_loads_bytes content ≫= f)).
Proof.
  intros Hfile Hf. destruct (json_loads_bytes content) as [v|c e] eqn:E; cbn [mbind res_bind].
  - destruct (f v) as [a|c e] eqn:Ev; [done|]. cbn. rewrite (Hf _ _ _ Ev). by left.
  - cbn. destruct (is_value_error c) eqn:Ec; [by left|]. right. exists path, content. split_and!; [done|done|].
    destruct (json_loads_bytes_raises _ _ _ E) as [?|[->|[-> ?]]]; [congruence|by right|by left].
Qed.

Lemma validate_expression_only k es e available ids :
  shallow es → (k, e) ∈ es → only_schema_errors (validate_expression e available ids).
Proof.
  intros Hs He. unfold validate_expression. apply only_if; [by left|].
  destruct (dget "literal" e) as [v|] eqn:Hv; [by rewrite (Hs k e v He Hv)|].
  destruct (dget "from" e) as [[]|]; try by left. apply only_if; [by left|].
  repeat (case_match; try done; try by left).
Qed.

End escaping.

Section raises.
Context `{Pydantic, RecursionLimit}.

Lemma validate_raises v c e : SkillWorkflow_validate v = Raise c e → c = PyValidationError.
Proof. unfold SkillWorkflow_validate. destruct (model_of _ _ v); [done|]. by intros [= <- _]. Qed.

(** The expressions of a document that was read are shallow. *)
Lemma read_shallow raw w : read_workflow raw = Ok w →
  (∀ s, s ∈ sw_steps w → shallow (ws_arguments s)) ∧ shallow (sw_outputs w).
Proof.
  unfold read_workflow, value_errors_as. intros Hr.
  destruct (v ← json_loads_bytes raw; validate_json_depth 0 v ;;; SkillWorkflow_validate v) as [w'|c e] eqn:E; [|by case_match].
  injection Hr as ->. apply res_bind_Ok in E as (v & _ & E). apply res_bind_Ok in E as ([] & Hv & E).
  unfold SkillWorkflow_validate in E. destruct (model_of _ _ v) as [w'|] eqn:Hm; [|done]. injection E as ->.
  apply model_of_Some in Hm as (d & -> & Hd).
  apply res_bind_Ok in Hd as (a & _ & Hd). apply res_bind_Ok in Hd as (k & _ & Hd). apply res_bind_Ok in Hd as (r & _ & Hd).
  apply res_bind_Ok in Hd as (s & Hs & Hd). apply res_bind_Ok in Hd as ([] & _ & Hd). apply res_bind_Ok in Hd as (o & Ho & Hd).
  cbv zeta in Hd. destruct (workflow_unique _); [|done]. injection Hd as <-. cbn [sw_steps sw_outputs]. split.
  - intros x Hx. apply field_Ok in Hs as [(vs & Hs & (us & -> & Hf)%array_of_Some)|[_ ?]]; [|done].
    apply dget_Some_elem in Hs. pose proof (depth_object _ _ _ _ Hv Hs) as H1.
    apply list_elem_of_lookup in Hx as [i Hi]. destruct (Forall2_lookup_r _ _ _ _ _ Hf Hi) as (u & Hu & Hp).
    apply list_elem_of_lookup_2 in Hu. pose proof (depth_array _ _ _ H1 Hu) as H2.
    apply model_of_Some in Hp as (sd & -> & Hp). do 3 apply res_bind_Ok in Hp as (? & _ & Hp).
    apply res_bind_Ok in Hp as (args & Ha & Hp). do 3 apply res_bind_Ok in Hp as (? & _ & Hp). injection Hp as <-.
    cbn [ws_arguments]. apply field_Ok in Ha as [(av & Ha & ->%dicts_of_Some)|[_ [= <-]]]; [|intros ???; set_solver].
    apply dget_Some_elem in Ha. eapply shallow_dicts; [exact (depth_object _ _ _ _ H2 Ha)|lia].
  - apply field_Ok in Ho as [(ov & Ho & ->%dicts_of_Some)|[_ [= <-]]]; [|intros ???; set_solver].
    apply dget_Some_elem in Ho. eapply shallow_dicts; [exact (depth_object _ _ _ _ Hv Ho)|lia].
Qed.

(** C35. Admission refuses with [SchemaValidationError], but for one exception: whatever bytes
    the package holds, an unreadable document, a value of the wrong type, JSON that is nested
    too deeply for the depth check or a failed check is reported as a schema error (the depth
    check of literals, which raises [ValueError], cannot fail after that of the document).
    What else may leave [compile_skill_workflow] is the [RecursionError] of [json.loads] on a
    file of the package that is nested more deeply than the interpreter allows, which takes
    more bytes than that limit, and which no handler takes.  ([Unrepresentable] is no exception of
    the program: the model cannot hold a file with characters outside Latin-1.) *)
Theorem compile_raises_schema_errors m files c e :
  compile_skill_workflow m files = Raise c e → escapes files c e.
Proof.
  assert (only_schema_errors files (compile_skill_workflow m files)) as Hall; [|by intros Hr; rewrite Hr in Hall].
  unfold compile_skill_workflow. destruct (sm_workflow m) as [descriptor|]; [|apply only_if; [by left|done]].
  destruct (dget _ files) as [raw|] eqn:Hraw; [|by left]. apply only_if; [by left|].
  apply only_bind.
  { eapply only_read; [exact Hraw|]. intros v k x. destruct (validate_json_depth 0 v) as [[]|k' x'] eqn:Ed; cbn [mbind res_bind].
    - by intros ->%validate_raises.
    - intros [= <- _]. by apply depth_raises in Ed as ->. }
  intros w [Hargs Houts]%read_shallow. do 2 (apply only_if; [by left|]). apply only_bind.
  { apply only_foldM. intros s b Hs. unfold check_step. apply only_bind.
    { unfold declared. destruct (ws_operation s), (str_in _ _); try done; by left. }
    intros _ _. apply only_bind; [|done]. apply only_mapR. intros [k x] Hx. by eapply validate_expression_only; [apply Hargs|]. }
  intros acc _. apply only_if; [by left|]. apply only_bind.
  { apply only_mapR. intros r _. unfold check_reference. destruct (List.find _ _) as [q|]; [|by left].
    destruct (dget (wr_path r) files) as [content|] eqn:Hcontent; [|apply only_if; [by left|done]]. apply only_if; [by left|].
    apply only_bind; [|done]. destruct (rq_media_type q); [|done]. eapply only_read; [exact Hcontent|].
    intros v k x. by intros ->%depth_raises. }
  intros paths _. apply only_bind; [|done]. apply only_mapR. intros [k x] Hx. by eapply validate_expression_only.
Qed.

(** C40. An admitted document is determined by what its digest covers: the JSON that
    [model_dump] makes of it validates to the same document. *)
Theorem admitted_document_roundtrip m files c : compile_skill_workflow m files = Ok (Some c) →
  SkillWorkflow_validate (workflow_dump (cw_document c)) = Ok (cw_document c).
Proof.
  intros (descriptor & raw & paths & _ & _ & Hr & _)%compile_inv. unfold read_workflow, value_errors_as in Hr.
  destruct (v ← json_loads_bytes raw; validate_json_depth 0 v ;;; SkillWorkflow_validate v) as [w|k e] eqn:E; [|by case_match].
  injection Hr as <-. apply res_bind_Ok in E as (v & _ & E). apply res_bind_Ok in E as ([] & _ & E).
  by eapply workflow_reread.
Qed.
End raises.

(** ** Concrete workflows *)

Module SkillWorkflowExamples.

#[local] Instance plain_pydantic : Pydantic := {|
  pydantic_ints := strict_pydantic;
  lax_bool := λ v, match v with JBool b => Some b | _ => None end;
  lax_bool_bool := λ b, eq_refl;
  pydantic_read := λ s, match json_loads s with Ok v => Some v | Raise _ _ => None end;
|}.

#[local] Instance a_thousand : RecursionLimit := 1000%nat.

Definition select (s : string) : json := JObj [("from", JStr s)].
Definition report_document (source : string) : json :=
  JObj [("apiVersion", JStr WORKFLOW_API_VERSION); ("kind", JStr "Workflow");
        ("references", JArr [JObj [("id", JStr "rates"); ("path", JStr "references/rates.json")]]);
        ("steps", JArr
          [JObj [("id", JStr "find"); ("operation", JStr "tool.call"); ("capability", JStr "crm.find");
                 ("arguments", JObj [("name", select "$input.name")]); ("result", JStr "customer")];
           JObj [("id", JStr "send"); ("operation", JStr "tool.call"); ("capability", JStr "mail.send");
                 ("arguments", JObj [("to", select source); ("rate", select "$references.rates.daily");
                                     ("subject", JObj [("literal", JStr "report")])]);
                 ("result", JStr "sent"); ("timeout_seconds", JInt 60);
                 ("retry", JObj [("max_attempts", JInt 3); ("retry_on", JArr [JStr "timeout"])])]]);
        ("outputs", JObj [("id", select "$state.sent.id")])].

Definition report_manifest : SkillManifest :=
  mkManifest "report" "1.0.0" "Send a report" [] [] [("type", JStr "object")] [("type", JStr "object")]
    [mkToolRequirement "crm.find" "*"; mkToolRequirement "mail.send" ">=1"] [] []
    (Some (mkEntrypoint WORKFLOW_API_VERSION "scripts/main.workflow.json"))
    [mkReferenceRequirement "references/rates.json" MediaJson 65536 false] ["coordinator"] "internal" "medium" 20 300
    "acme" None None "ed25519:abc".
Example manifest_ok : manifest_valid report_manifest = true.
Proof. vm_compute. reflexivity. Qed.

Definition package_files (source : string) : list (string * list Z) :=
  [("scripts/main.workflow.json", utf8 (json_plain (report_document source)));
   ("references/rates.json", utf8 (json_plain (JObj [("daily", JInt 2)])))].

Definition compiled_report : CompiledSkillWorkflow :=
  match compile_skill_workflow report_manifest (package_files "$state.customer.mail") with
  | Ok (Some c) => c
  | _ => mkCompiled (mkWorkflow EmptyString EmptyString [] [] []) EmptyString EmptyString []
  end.
Lemma report_compiles : compile_skill_workflow report_manifest (package_files "$state.customer.mail") = Ok (Some compiled_report).
Proof. vm_compute. reflexivity. Qed.

(** A step cannot read its own result. *)
Example own_result_refused : compile_skill_workflow report_manifest (package_files "$state.sent.id") =
  Raise SchemaValidationError "Workflow selector references unavailable state".
Proof. vm_compute. reflexivity. Qed.

Definition report_state : payload := [("customer", JObj [("mail", JStr "a@b.c")])].
Definition report_references : payload := [("rates", JObj [("daily", JInt 2)])].
Example mail_resolved : resolve_workflow_value [] report_state report_references [("from", JStr "$state.customer.mail")] = Ok (JStr "a@b.c").
Proof. vm_compute. reflexivity. Qed.

Lemma report_steps : length (sw_steps (cw_document compiled_report)) = 2%nat ∧
  map ws_result (take 1 (sw_steps (cw_document compiled_report))) = ["customer"] ∧
  map wr_id (sw_references (cw_document compiled_report)) = ["rates"] ∧
  expressions_at (cw_document compiled_report) 1 !! 0%nat = Some ("to", [("from", JStr "$state.customer.mail")]).
Proof. vm_compute. done. Qed.

Lemma compiled_workflow_scoped_witness :
  (∃ v, [("from", JStr "$state.customer.mail")] = [("literal", v)] ∧
     resolve_workflow_value [] report_state report_references [("from", JStr "$state.customer.mail")] = copy_json v ∧
     (plain_json v = true → copy_json v = Ok v)) ∨
  ∃ selector base path, [("from", JStr "$state.customer.mail")] = [("from", JStr selector)] ∧
    provided (cw_document compiled_report) 1 [] report_state report_references base ∧
    resolve_workflow_value [] report_state report_references [("from", JStr "$state.customer.mail")]
      = (v ← follow selector base path; copy_json v).
Proof.
  destruct report_steps as (Hlen & Hres & Hrefs & Hexp).
  apply (compiled_workflow_scoped report_manifest (package_files "$state.customer.mail") compiled_report 1 "to").
  - exact report_compiles.
  - rewrite Hlen. lia.
  - by apply list_elem_of_lookup_2 in Hexp.
  - intros s Hs. apply (list_elem_of_fmap_2 ws_result) in Hs. change (ws_result <$> ?l) with (map ws_result l) in Hs.
    rewrite Hres in Hs. exact Hs.
  - intros r Hr. apply (list_elem_of_fmap_2 wr_id) in Hr. change (wr_id <$> ?l) with (map wr_id l) in Hr.
    rewrite Hrefs in Hr. exact Hr.
Defined.

Lemma compiled_workflow_bounded_witness :
  Z.of_nat (length (sw_steps (cw_document compiled_report))) <= 20 ∧
  foldr Z.add 0 (map (λ s, ws_timeout_seconds s * ry_max_attempts (ws_retry s)) (sw_steps (cw_document compiled_report))) <= 300 ∧
  (∀ s, s ∈ sw_steps (cw_document compiled_report) →
    match ws_operation s with
    | ToolCallOperation => ws_capability s ∈ map tq_name (sm_required_tools report_manifest)
    | ResourceReadOperation => ws_capability s ∈ sm_required_resources report_manifest
    end) ∧
  (∀ p, p ∈ cw_reference_paths compiled_report → p ∈ map rq_path (sm_required_references report_manifest)) ∧
  cw_digest compiled_report = workflow_digest (cw_document compiled_report).
Proof. exact (compiled_workflow_bounded report_manifest _ _ report_compiles). Defined.

Lemma unread_document : compile_skill_workflow report_manifest [("scripts/main.workflow.json", [91])] =
  Raise SchemaValidationError "Skill workflow is invalid".
Proof. vm_compute. reflexivity. Qed.
(** A document of 1001 brackets: the error of the reader leaves the compilation. *)
Definition deep_files : list (string * list Z) := [("scripts/main.workflow.json", repeat 91 1001)].
Lemma deep_document :
  compile_skill_workflow report_manifest deep_files = Raise PyRecursionError "maximum recursion depth exceeded".
Proof. vm_compute. reflexivity. Qed.
Lemma compile_raises_schema_errors_witness : escapes deep_files PyRecursionError "maximum recursion depth exceeded".
Proof. exact (compile_raises_schema_errors report_manifest _ _ _ deep_document). Defined.

Lemma admitted_document_roundtrip_witness :
  SkillWorkflow_validate (workflow_dump (cw_document compiled_report)) = Ok (cw_document compiled_report).
Proof. exact (admitted_document_roundtrip report_manifest _ _ report_compiles). Defined.
End SkillWorkflowExamples.
