(* ===== verification/WorkflowExecutor.v ===== *)
(** * Executing Skill workflows ([runtime/skill_workflow.py])

    [RuntimeSkillWorkflowExecutor.execute] runs the steps of an admitted workflow in
    order: it resolves the arguments, calls the tool or reads the resource, keeps the
    result in the state and reports progress.  A step that writes is announced through
    the progress callback before it is dispatched and settled when its outcome is known;
    a step whose outcome is unknown is not dispatched again but looked up.

    The executor is a task ([Interleave]) whose services are answers by the number of the
    await ([WorkflowServices]); [we_expired] says that the deadline is what cancels the
    task at an await.  The effects of a run are logged in order.  The abstract
    specification is the step relation [write_step]: what may happen to the writes of one
    step after another; [execution_follows_protocol] is the refinement. *)

From Stdlib Require Import Ascii.
From S2P Require Import Prelude PyValue Digest JsonCodec Contracts InvocationStore SkillContracts SkillWorkflow Interleave.
Local Open Scope Z_scope.

(** ** Data *)

Record ToolCall := mkToolCall {
  tl_tool_invocation_id : string;
  tl_name : json;
  tl_arguments : payload;
  tl_version : string;
  tl_expected_side_effect : string;
  tl_approval_id : option string;
  tl_idempotency_key : string;
}.

Record WorkflowExecutionResult := mkExecution {
  we_status : string;
  we_output : payload;
  we_completed_steps : list string;
  we_pending_step_id : option string;
  we_pending_invocation_id : option string;
  we_approval_id : option string;
  we_approval_request : option payload;
  we_error_code : option string;
}.
Definition ended_with (status : string) (completed : list string) (error : option string) : WorkflowExecutionResult :=
  mkExecution status [] completed None None None None error.
Definition stopped (status : string) (completed : list string) (step invocation : option string) (error : string)
    : WorkflowExecutionResult :=
  mkExecution status [] completed step invocation None None (Some error).

Record WorkflowStepProgress := mkProgress {
  wp_next_step_index : Z;
  wp_completed_steps : list string;
  wp_state : payload;
  wp_pending_invocation_id : option string;
  wp_settled_invocation_id : option string;
}.

(** The dictionary [context] that [execute] shares with [_execute]. *)
Record WorkflowContext := mkContext {
  wx_completed : list string;
  wx_step_id : option string;
  wx_invocation_id : option string;
  wx_write_in_flight : bool;
}.

(** What a run does, in order.  [EProgress]: the progress callback returned.  [EDispatch]:
    the client is called.  [EAnswer]: its result, the timeout of the step included. *)
Inductive WorkflowEffect :=
  | EProgress (p : WorkflowStepProgress)
  | EDispatch (call : ToolCall)
  | EAnswer (id : string) (result : payload)
  | ELookup (id : string) (observed : payload)
  | ERead (uri : string).

Record WorkflowWorld := mkWorkflowWorld { ww_context : WorkflowContext; ww_effects : list WorkflowEffect }.

Inductive ReadAnswer := ReadContents (contents : json) | ReadTimeout | ReadError (code : string).

(** The client, the callbacks and the deadline, by the number of the await.  [we_status]
    is absent when the client has no [invocation_status]. *)
Record WorkflowServices := mkWorkflowServices {
  sv_load_part : nat → string → res (list json);
  sv_status : option (nat → string → res payload);
  sv_execute : nat → ToolCall → res payload;
  sv_read : nat → string → ReadAnswer;
  sv_guard : option (nat → res (option payload));
  sv_progress : option (nat → WorkflowStepProgress → res unit);
  sv_expired : nat → bool;
}.

(** ** Pure parts *)

(** [v in {...}] for a set of literals: the value is hashed. *)
Definition in_set (v : json) (l : list string) : res bool :=
  if hashable v then Ok (existsb (is_lit v) l) else Raise PyTypeError "unhashable type".

(** [v not in {None, "unknown"}] *)
Definition known_effect (v : json) : res bool :=
  if hashable v then Ok (negb (is_none v || is_lit v "unknown")) else Raise PyTypeError "unhashable type".

(** [_optional_string] *)
Definition nonempty_string (v : json) : option string :=
  match v with JStr s => if String.eqb s EmptyString then None else Some s | _ => None end.

(** [d.get("status") in {"error", "denied", "cancelled"} and
    d.get("side_effect_status") not in {None, "unknown"}] *)
Definition refused_for_good (d : payload) : res bool :=
  refused ← in_set (pgetn "status" d) ["error"; "denied"; "cancelled"];
  if (refused : bool) then known_effect (pgetn "side_effect_status" d) else Ok false.
Definition outcome_known (d : payload) : res bool :=
  if is_lit (pgetn "status" d) "success" then Ok true else refused_for_good d.

(** [_invocation_id] *)
Definition invocation_id (activation_id digest step_id : string) : string :=
  "wfi_" +:+ str_take 40 (sha256_hex (utf8 (String.concat (str1 (chr 0)) [activation_id; digest; step_id]))).

(** [_single_text] *)
Definition single_text (parts : list json) (label : string) : res string :=
  match List.flat_map (λ p, match p with JObj d => match pgetn "text" d with JStr s => [s] | _ => [] end | _ => [] end) parts with
  | [s] => Ok s
  | _ => schema_error (label +:+ " must contain exactly one text part")
  end.

Definition MAX_STATE_BYTES : Z := 1024 * 1024.

(** [_guard_state_size]: the text of [json.dumps] is ASCII. *)
Definition guard_state_size (v : json) : res unit :=
  if MAX_STATE_BYTES <? Z.of_nat (String.length (json_plain v)) then schema_error "Workflow state exceeds the maximum size" else Ok tt.

(** [_copy_object] *)
Definition copy_object (d : payload) : res payload :=
  match json_loads (json_plain (JObj d)) with
  | Ok (JObj e) => Ok e
  | Ok _ => schema_error "Workflow state must be an object"
  | Raise c m => if is_value_error c then schema_error "Workflow state is not JSON compatible" else Raise c m
  end.

(** [_approval_request] *)
Definition workflow_approval_request (result : payload) : payload :=
  match pgetn "metadata" result with
  | JObj m => match pgetn "approval_request" m with JObj r => r | _ => [] end
  | _ => []
  end.

(** [urllib.parse.quote(text, safe="")] *)
Definition upper_hex (n : Z) : ascii := let c := hex_digit (Z.to_N n) in if is_digit c then c else chr (ord c - 32).
Definition quote_byte (b : Z) : string :=
  let c := chr (Z.to_N b) in
  if (b <? 128) && (is_digit c || is_alpha c || one_of ["_"; "."; "-"; "~"]%char c) then str1 c
  else String "%" (String (upper_hex (b / 16)) (str1 (upper_hex (b mod 16)))).
Definition quote (s : string) : string := String.concat EmptyString (map quote_byte (utf8 s)).

(** The fields [{name}] of a template and the text between them. *)
Definition field_char (c : ascii) : bool := is_digit c || is_alpha c || one_of ["_"; "."; "-"]%char c.
Fixpoint span_field (s : string) : string * string :=
  match s with
  | String c s' => if field_char c then let '(a, r) := span_field s' in (String c a, r) else (EmptyString, s)
  | EmptyString => (EmptyString, s)
  end.
Fixpoint template_parts (fuel : nat) (s : string) : list (ascii + string) :=
  match fuel, s with
  | S fuel, String c s =>
      if Ascii.eqb c "{" then
        match span_field s with
        | (String a name, String d r) =>
            if Ascii.eqb d "}" then inr (String a name) :: template_parts fuel r else inl c :: template_parts fuel s
        | _ => inl c :: template_parts fuel s
        end
      else inl c :: template_parts fuel s
  | _, _ => []
  end.

(** [_expand_uri_template] *)
Definition expand_uri_template (template : string) (arguments : payload) : res string :=
  let parts := template_parts (String.length template) template in
  let fields := List.flat_map (λ p, match p with inr f => [f] | inl _ => [] end) parts in
  if forallb (λ f, dmem f arguments) fields && forallb (λ k, str_in k fields) (dkeys arguments)
  then Ok (String.concat EmptyString
    (map (λ p, match p with inl c => str1 c | inr f => quote (py_str (pgetn f arguments)) end) parts))
  else schema_error "Workflow Resource arguments do not match URI template".

(** The retried attempts of a call have their own identity. *)
Definition attempt_id (invocation : string) (attempt : Z) : string :=
  if attempt =? 1 then invocation else invocation +:+ "_r" +:+ pretty attempt.

Definition timed_out (side_effect : string) : payload :=
  [("status", JStr (if String.eqb side_effect "read" then "timeout" else "unknown"));
   ("error_code", JStr "timeout"); ("side_effect_status", JStr "unknown")].

(** The condition under which [_call_tool] does not try again. *)
Definition call_settled (side_effect : string) (retry : WorkflowRetry) (attempt : Z) (result : payload) : res bool :=
  if negb (String.eqb side_effect "read") then Ok true else
  final ← in_set (pgetn "status" result) ["unknown"; "cancelled"];
  Ok ((final : bool) || (ry_max_attempts retry <=? attempt)
      || negb (match nonempty_string (pgetn "error_code" result) with
               | Some c => str_in c (map retry_cause_value (ry_retry_on retry))
               | None => false
               end)
      || is_lit (pgetn "error_code" result) "approval_required").

(** The status of a step with its result, for a tool that writes. *)
Definition step_status (writes : bool) (result : payload) : res json :=
  let status := pgetn "status" result in
  if negb (is_lit status "success") && writes then
    known ← known_effect (pgetn "side_effect_status" result);
    Ok (if (known : bool) then status else JStr "unknown")
  else Ok status.

Definition keyed_by {A} (key : A → string) (l : list A) : list (string * A) := fold_left (λ d a, dset (key a) a d) l [].
Definition lookup_key {A} (k : string) (d : list (string * A)) : res A :=
  match dget k d with Some a => Ok a | None => Raise PyKeyError k end.

(** ** The executor *)

Section executor.
Context `{Pydantic}.
Context (sv : WorkflowServices) (cancelled : nat → bool).

Definition workflow_schedule : Schedule WorkflowWorld := mkSchedule (λ _ w, w) cancelled.

Notation P := (prog WorkflowWorld).
Notation "x <- m ;; k" := (bind m (λ x, k)) (at level 100, m at next level, right associativity).

Definition log_effects (effects : list WorkflowEffect) : P unit :=
  modify (λ w, mkWorkflowWorld (ww_context w) (ww_effects w ++ effects)).
Definition set_context (f : WorkflowContext → WorkflowContext) : P unit :=
  modify (λ w, mkWorkflowWorld (f (ww_context w)) (ww_effects w)).

(** An await: the answer, or what it raises, and the effect of one that returned. *)
Definition ask {A} (effects : A → list WorkflowEffect) (op : nat → res A) : P A :=
  await workflow_schedule (λ n w,
    match op n with
    | Ok a => (mkWorkflowWorld (ww_context w) (ww_effects w ++ effects a), Ok a)
    | Raise c m => (w, Raise c m)
    end).
Definition pause : P unit := ask (λ _, []) (λ _, Ok tt).

Definition report (p : WorkflowStepProgress) : P unit :=
  match sv_progress sv with
  | Some f => ask (λ _, [EProgress p]) (λ n, f n p)
  | None => ret tt
  end.

(** [getattr(self._client, "invocation_status", None)]: [{}] without it. *)
Definition look_up (id : string) : P payload :=
  match sv_status sv with
  | Some f => ask (λ o, [ELookup id o]) (λ n, f n id)
  | None => ret []
  end.

(** *** [_load_workflow], [_load_references] *)

Definition load_workflow (resolved : ResolvedSkillWorkflow) : P SkillWorkflow :=
  parts <- ask (λ _, []) (λ n, sv_load_part sv n (rw_entrypoint resolved));;
  text <- lift (single_text parts "Skill workflow");;
  document <- lift (value_errors_as "Skill workflow is invalid at Runtime"
    (match pydantic_read text with Some v => SkillWorkflow_validate v | None => Raise PyValidationError EmptyString end));;
  if String.eqb (workflow_digest document) (rw_workflow_digest resolved) then ret document
  else raise SchemaValidationError "Skill workflow digest does not match binding".

Definition load_reference (r : WorkflowReference) : P (string * json) :=
  parts <- ask (λ _, []) (λ n, sv_load_part sv n (wr_path r));;
  text <- lift (single_text parts ("Skill reference " +:+ wr_path r));;
  v <- lift (match json_loads text with
             | Raise PyJSONDecodeError _ => schema_error "Executor references must be JSON"
             | x => x
             end);;
  ret (wr_id r, v).
Fixpoint load_each (l : list WorkflowReference) (acc : payload) : P payload :=
  match l with
  | [] => ret acc
  | r :: l => kv <- load_reference r;; load_each l (dset kv.1 kv.2 acc)
  end.
Definition load_references (document : SkillWorkflow) : P payload :=
  references <- load_each (sw_references document) [];;
  _ <- lift (guard_state_size (JObj references));;
  ret references.

(** *** [_call_tool], [_read_resource] *)

Definition dispatch_call (side_effect : string) (call : ToolCall) : P payload :=
  _ <- log_effects [EDispatch call];;
  catch (ask (λ r, [EAnswer (tl_tool_invocation_id call) r]) (λ n, sv_execute sv n call))
    (λ c m, match c with
            | PyTimeoutError =>
                Some (_ <- log_effects [EAnswer (tl_tool_invocation_id call) (timed_out side_effect)];; ret (timed_out side_effect))
            | _ => None
            end).

Fixpoint call_tool (attempts : nat) (attempt : Z) (step : WorkflowStep) (invocation : string) (name : json)
    (arguments : payload) (version side_effect : string) (approval_id : option string) : P payload :=
  match attempts with
  | O => raise PyRuntimeError "unreachable Workflow retry state"
  | S attempts =>
      let id := attempt_id invocation attempt in
      result <- dispatch_call side_effect (mkToolCall id name arguments version side_effect approval_id id);;
      settled <- lift (call_settled side_effect (ws_retry step) attempt result);;
      if (settled : bool) then ret result
      else
      _ <- (match ry_strategy (ws_retry step) with Exponential => pause | NoBackoff => ret tt end);;
      call_tool attempts (attempt + 1) step invocation name arguments version side_effect approval_id
  end.

Definition resource_uri (loaded resource arguments : payload) : res string :=
  if is_lit (pgetn "kind" loaded) "resource" then py_str <$> pget "uri" resource
  else t ← pget "uri_template" resource; expand_uri_template (py_str t) arguments.

Fixpoint read_attempts (attempts : nat) (attempt : Z) (step : WorkflowStep) (uri : string) : P payload :=
  match attempts with
  | O => raise PyRuntimeError "unreachable Resource retry state"
  | S attempts =>
      answer <- ask (λ _, [ERead uri]) (λ n, Ok (sv_read sv n uri));;
      match answer with
      | ReadContents contents =>
          ret [("status", JStr "success"); ("content", JObj [("uri", JStr uri); ("contents", contents)])]
      | _ =>
          let code := match answer with ReadError c => c | _ => "timeout" end in
          if (ry_max_attempts (ws_retry step) <=? attempt)
             || negb (str_in code (map retry_cause_value (ry_retry_on (ws_retry step))))
          then ret [("status", JStr "error"); ("error_code", JStr code)]
          else
          _ <- (match ry_strategy (ws_retry step) with Exponential => pause | NoBackoff => ret tt end);;
          read_attempts attempts (attempt + 1) step uri
      end
  end.
Definition read_resource (step : WorkflowStep) (loaded arguments : payload) : P payload :=
  match pgetn "resource" loaded with
  | JObj resource =>
      uri <- lift (resource_uri loaded resource arguments);;
      read_attempts (Z.to_nat (ry_max_attempts (ws_retry step))) 1 step uri
  | _ => raise SchemaValidationError "Workflow Resource contract is invalid"
  end.

(** *** [_execute] *)

(** What the loop is called with. *)
Record WorkflowInput := mkInput {
  wi_activation : SkillActivation;
  wi_inputs : payload;
  wi_loaded : payload;
  wi_approval_id : option string;
  wi_approval_step_id : option string;
}.

(** The loop's own state. *)
Record LoopState := mkLoop {
  lp_pending : option string;
  lp_completed : list string;
  lp_state : payload;
}.

(** What is established about the tool of a step: its side effect. *)
Definition writes_of (side_effect : string) : bool := negb (String.eqb side_effect "read").

Definition stale_tool (loaded_tool : json) (tool : ResolvedSkillTool) : res bool :=
  ref ← jgetd "invocation_ref" JNull loaded_tool;
  Ok (match ref with
      | JObj r => negb (is_lit (pgetn "capability_id" r) (rt_capability_id tool) && is_lit (pgetn "version" r) (rt_version tool)
                        && is_lit (pgetn "content_digest" r) (rt_schema_digest tool))
      | _ => false
      end).
Definition target_name (loaded_tool : json) (step : WorkflowStep) : res json :=
  m ← jgetd "model_tool" (JObj []) loaded_tool;
  f ← jgetd "function" (JObj []) m;
  name ← jgetd "name" JNull f;
  Ok (if truthy name then name else JStr (ws_capability step)).

(** The result of a tool step, or the end of the execution. *)
Definition tool_step (wi : WorkflowInput) (index : Z) (step : WorkflowStep) (invocation : string) (lp : LoopState)
    (arguments : payload) (tool : ResolvedSkillTool) : P (WorkflowExecutionResult + payload) :=
  let loaded_tool := default (JObj []) (dget (rt_capability_id tool) (wi_loaded wi)) in
  stale <- lift (stale_tool loaded_tool tool);;
  if (stale : bool) then ret (inl (ended_with "failed" (lp_completed lp) (Some "stale_capability"))) else
  name <- lift (target_name loaded_tool step);;
  _ <- set_context (λ x, mkContext (wx_completed x) (wx_step_id x) (wx_invocation_id x) (writes_of (rt_expected_side_effect tool)));;
  if bool_decide (lp_pending lp = Some invocation) then
    observed <- look_up invocation;;
    refused <- lift (refused_for_good observed);;
    if (refused : bool) then
      ret (inl (ended_with (if is_lit (pgetn "status" observed) "cancelled" then "cancelled" else "failed") (lp_completed lp)
             (Some (let c := pgetn "error_code" observed in if truthy c then py_str c else "workflow_step_failed"))))
    else if negb (is_lit (pgetn "status" observed) "success") then
      ret (inl (stopped "unknown" (lp_completed lp) (Some (ws_id step)) (Some invocation) "workflow_result_pending"))
    else
    match pgetn "result" observed with
    | JObj recorded =>
        if is_lit (pgetn "status" recorded) "success" then ret (inr recorded)
        else ret (inl (stopped "unknown" (lp_completed lp) (Some (ws_id step)) (Some invocation) "workflow_result_unavailable"))
    | _ => ret (inl (stopped "unknown" (lp_completed lp) (Some (ws_id step)) (Some invocation) "workflow_result_unavailable"))
    end
  else
    _ <- (if writes_of (rt_expected_side_effect tool) && match sv_progress sv with Some _ => true | None => false end then
            state <- lift (copy_object (lp_state lp));;
            report (mkProgress index (lp_completed lp) state (Some invocation) None)
          else ret tt);;
    r <- call_tool (Z.to_nat (ry_max_attempts (ws_retry step))) 1 step invocation name arguments (rt_version tool)
           (rt_expected_side_effect tool)
           (if bool_decide (wi_approval_step_id wi = Some (ws_id step)) then wi_approval_id wi else None);;
    ret (inr r).

Definition resource_step (wi : WorkflowInput) (step : WorkflowStep) (arguments : payload) (resource : ResolvedSkillResource)
    : P payload :=
  match dget (rr_capability_id resource) (wi_loaded wi) with
  | Some (JObj loaded) => read_resource step loaded arguments
  | _ => raise SchemaValidationError "Workflow Resource binding is not loaded"
  end.

Definition result_error (result : payload) : string :=
  default "workflow_step_failed" (nonempty_string (pgetn "error_code" result)).

(** What follows the result of a step: the end, or the loop's state for the next step. *)
Definition conclude_step (index : Z) (step : WorkflowStep) (invocation : string) (writes : bool) (lp : LoopState)
    (result : payload) : P (WorkflowExecutionResult + LoopState) :=
  known <- lift (if writes && match sv_progress sv with Some _ => true | None => false end then outcome_known result else Ok false);;
  _ <- (if (known : bool) then
          state <- lift (copy_object (lp_state lp));;
          report (mkProgress index (lp_completed lp) state None (Some invocation))
        else ret tt);;
  if is_lit (pgetn "error_code" result) "approval_required" then
    let request := workflow_approval_request result in
    ret (inl (mkExecution "waiting_for_approval" [] (lp_completed lp) (Some (ws_id step)) (Some invocation)
      (match nonempty_string (pgetn "approval_id" request) with Some a => Some a | None => nonempty_string (pgetn "approval_id" result) end)
      (Some request) (Some "approval_required")))
  else
  _ <- set_context (λ x, mkContext (wx_completed x) (wx_step_id x) (wx_invocation_id x) false);;
  status <- lift (step_status writes result);;
  if negb (is_lit status "success") then
    ret (inl (stopped (if is_lit status "unknown" then "unknown" else if is_lit status "cancelled" then "cancelled" else "failed")
      (lp_completed lp) (Some (ws_id step)) (Some invocation) (result_error result)))
  else
  let state := dset (ws_result step) (pgetd "content" (JObj result) result) (lp_state lp) in
  _ <- lift (guard_state_size (JObj state));;
  let completed := lp_completed lp ++ [ws_id step] in
  _ <- set_context (λ x, mkContext completed (wx_step_id x) (wx_invocation_id x) (wx_write_in_flight x));;
  _ <- (match sv_progress sv with
        | Some _ => copied <- lift (copy_object state);; report (mkProgress (index + 1) completed copied None None)
        | None => ret tt
        end);;
  ret (inr (mkLoop None completed state)).

(** [before_step], when nothing is pending. *)
Definition guard_step (step : WorkflowStep) (lp : LoopState) : P (option WorkflowExecutionResult) :=
  match sv_guard sv, lp_pending lp with
  | Some f, None =>
      disposition <- ask (λ _, []) (λ n, f n);;
      ret (match disposition with
           | Some d =>
               if is_lit (pgetn "action" d) "continue" then None
               else Some (stopped (if is_lit (pgetn "action" d) "cancel" then "cancelled" else "paused") (lp_completed lp)
                            (Some (ws_id step)) None "skill_binding_revoked")
           | None => None
           end)
  | _, _ => ret None
  end.

(** One turn of the loop. *)
Definition execute_step (wi : WorkflowInput) (resolved : ResolvedSkillWorkflow) (references : payload) (index : Z)
    (step : WorkflowStep) (lp : LoopState) : P (WorkflowExecutionResult + LoopState) :=
  let binding := sa_binding (wi_activation wi) in
  ended <- guard_step step lp;;
  match ended with
  | Some r => ret (inl r)
  | None =>
      arguments <- lift (mapR (λ e, v ← resolve_workflow_value (wi_inputs wi) (lp_state lp) references e.2; Ok (e.1, v))
                           (ws_arguments step));;
      let invocation := invocation_id (sa_skill_activation_id (wi_activation wi)) (rw_workflow_digest resolved) (ws_id step) in
      _ <- set_context (λ x, mkContext (wx_completed x) (Some (ws_id step)) (Some invocation) false);;
      match ws_operation step with
      | ToolCallOperation =>
          tool <- lift (lookup_key (ws_capability step) (keyed_by rt_canonical_name (sb_resolved_tools binding)));;
          r <- tool_step wi index step invocation lp arguments tool;;
          match r with
          | inl stop => ret (inl stop)
          | inr result => conclude_step index step invocation (writes_of (rt_expected_side_effect tool)) lp result
          end
      | ResourceReadOperation =>
          resource <- lift (lookup_key (ws_capability step) (keyed_by rr_uri_template (sb_resolved_resources binding)));;
          result <- resource_step wi step arguments resource;;
          conclude_step index step invocation false lp result
      end
  end.

Fixpoint execute_steps (wi : WorkflowInput) (resolved : ResolvedSkillWorkflow) (references : payload) (index : Z)
    (steps : list WorkflowStep) (lp : LoopState) : P (WorkflowExecutionResult + LoopState) :=
  match steps with
  | [] => ret (inr lp)
  | step :: steps =>
      r <- execute_step wi resolved references index step lp;;
      match r with
      | inl stop => ret (inl stop)
      | inr lp => execute_steps wi resolved references (index + 1) steps lp
      end
  end.

Definition execute_body (wi : WorkflowInput) (resume_state : payload) (start : Z) (pending : option string)
    : P WorkflowExecutionResult :=
  match sb_resolved_workflow (sa_binding (wi_activation wi)) with
  | None => ret (ended_with "not_configured" [] None)
  | Some resolved =>
      document <- load_workflow resolved;;
      references <- load_references document;;
      if (start <? 0) || (Z.of_nat (length (sw_steps document)) <? start)
      then raise SchemaValidationError "Workflow resume cursor is invalid" else
      state <- lift (copy_object resume_state);;
      let completed := map ws_id (take (Z.to_nat start) (sw_steps document)) in
      _ <- set_context (λ x, mkContext completed (wx_step_id x) (wx_invocation_id x) (wx_write_in_flight x));;
      r <- execute_steps wi resolved references start (drop (Z.to_nat start) (sw_steps document)) (mkLoop pending completed state);;
      match r with
      | inl stop => ret stop
      | inr lp =>
          output <- lift (mapR (λ e, v ← resolve_workflow_value (wi_inputs wi) (lp_state lp) references e.2; Ok (e.1, v))
                            (sw_outputs document));;
          _ <- lift (guard_state_size (JObj output));;
          ret (mkExecution "completed" output (lp_completed lp) None None None None None)
      end
  end.

(** *** [execute] *)

(** What the lookup of a pending write says about it. *)
Definition settle_observed (resume_state : payload) (start : Z) (completed : list string) (id : string) (observed : payload)
    : P (option string) :=
  known <- lift (outcome_known observed);;
  if (known : bool) then
    _ <- (match sv_progress sv with
          | Some _ => state <- lift (copy_object resume_state);; report (mkProgress start completed state None (Some id))
          | None => ret tt
          end);;
    ret None
  else ret (Some id).

(** The deadline has passed before the first step: a pending write is looked up. *)
Definition exhausted (resume_state : payload) (start : Z) (pending : option string) (completed : list string)
    : P WorkflowExecutionResult :=
  pending <- (match pending with
              | Some id =>
                  if String.eqb id EmptyString then ret (Some id) else
                  observed <- catch (look_up id) (λ c m, Some (ret []));;
                  settle_observed resume_state start completed id observed
              | None => ret None
              end);;
  ret (stopped (if opt_truthy pending then "unknown" else "failed") completed None pending "workflow_budget_exhausted").

Definition cancel_here {A} : P A := λ t, (t, Cancelled).

(** [asyncio.timeout]: the cancellation by the deadline leaves as [TimeoutError]. *)
Definition under_deadline {A} (m : P A) : P A :=
  catch_cancel m (n <- gets (λ n _, n);; if sv_expired sv (pred n) then raise PyTimeoutError EmptyString else cancel_here).

Definition execution_deadline (deadline assignment_deadline : option Z) (start_time timeout_seconds : Z) : Z :=
  let d := default (start_time + timeout_seconds * 1000000) deadline in
  match assignment_deadline with Some a => Z.min d a | None => d end.

(** [start_time] and [now] are the two readings of the clock. *)
Definition workflow_execute (wi : WorkflowInput) (resume_state : payload) (start : Z) (deadline assignment_deadline : option Z)
    (pending : option string) (completed : list string) (start_time now : Z) : P WorkflowExecutionResult :=
  if execution_deadline deadline assignment_deadline start_time (sb_timeout_seconds (sa_binding (wi_activation wi))) - now <=? 0
  then exhausted resume_state start pending completed
  else
  _ <- set_context (λ _, mkContext completed None None false);;
  catch (under_deadline (execute_body wi resume_state start pending))
    (λ c m,
      match c with
      | PyTimeoutError =>
          Some (x <- gets (λ _ w, ww_context w);;
                ret (stopped (if wx_write_in_flight x then "unknown" else "failed") (wx_completed x) (wx_step_id x)
                       (wx_invocation_id x) "workflow_budget_exhausted"))
      | SchemaValidationError | InvalidToolSchemaError =>
          Some (x <- gets (λ _ w, ww_context w);; ret (ended_with "failed" (wx_completed x) (error_code c)))
      | _ => None
      end).

(** A run from its first effect. *)
Definition workflow_run (wi : WorkflowInput) (resume_state : payload) (start : Z) (deadline assignment_deadline : option Z)
    (pending : option string) (completed : list string) (start_time now : Z)
    : Thread WorkflowWorld * outcome WorkflowExecutionResult :=
  workflow_execute wi resume_state start deadline assignment_deadline pending completed start_time now
    (mkThread 0 (mkWorkflowWorld (mkContext completed None None false) [])).
End executor.

(** ** The protocol of writes *)

(** Where the write of the current step is.  [Awaiting]: dispatched by an earlier run,
    outcome unknown. *)
Inductive write_phase :=
  | Idle
  | Awaiting (id : string)
  | Looked (id : string) (observed : payload)
  | Announced (id : string)
  | Sent (id : string)
  | Answered (id : string) (result : payload)
  | Settled (id : string).

Notation write_state := (Z * write_phase)%type.

(** A call that may change something outside. *)
Definition is_write (c : ToolCall) : bool := writes_of (tl_expected_side_effect c).

(** Nothing is open: the step may be passed. *)
Definition closed_phase (ph : write_phase) : Prop :=
  match ph with
  | Idle | Settled _ => True
  | Looked _ observed => outcome_known observed = Ok true
  | _ => False
  end.

(** What may happen next, where [ids] are the invocation ids of the steps: a write is
    announced under the id of the step before it is dispatched, once; it is settled only
    when its outcome is known; the step is passed only when nothing is open. *)
Inductive write_step (ids : list string) : write_state → WorkflowEffect → write_state → Prop :=
  | step_announce k id completed state : 0 <= k → ids !! Z.to_nat k = Some id →
      write_step ids (k, Idle) (EProgress (mkProgress k completed state (Some id) None)) (k, Announced id)
  | step_send k id call : tl_tool_invocation_id call = id → is_write call = true →
      write_step ids (k, Announced id) (EDispatch call) (k, Sent id)
  | step_answer k id result : write_step ids (k, Sent id) (EAnswer id result) (k, Answered id result)
  | step_look k id observed : write_step ids (k, Awaiting id) (ELookup id observed) (k, Looked id observed)
  | step_settle k id result completed state : outcome_known result = Ok true →
      write_step ids (k, Answered id result) (EProgress (mkProgress k completed state None (Some id))) (k, Settled id)
  | step_settle_looked k id observed completed state : outcome_known observed = Ok true →
      write_step ids (k, Looked id observed) (EProgress (mkProgress k completed state None (Some id))) (k, Settled id)
  | step_advance k ph completed state : closed_phase ph →
      write_step ids (k, ph) (EProgress (mkProgress (k + 1) completed state None None)) (k + 1, Idle)
  | step_read_call k call : is_write call = false → write_step ids (k, Idle) (EDispatch call) (k, Idle)
  | step_read_answer k id result : write_step ids (k, Idle) (EAnswer id result) (k, Idle)
  | step_read_resource k uri : write_step ids (k, Idle) (ERead uri) (k, Idle).

Inductive write_trace (ids : list string) (s : write_state) : list WorkflowEffect → write_state → Prop :=
  | trace_nil : write_trace ids s [] s
  | trace_snoc l s1 e s2 : write_trace ids s l s1 → write_step ids s1 e s2 → write_trace ids s (l ++ [e]) s2.

(** The outcome of a dispatched write is accounted for: it is known, or the write waits
    for an approval. *)
Definition accounted (result : payload) : Prop :=
  is_lit (pgetn "status" result) "success" = true ∨ known_effect (pgetn "side_effect_status" result) = Ok true ∨
  is_lit (pgetn "error_code" result) "approval_required" = true.
Definition calm (ph : write_phase) : Prop :=
  match ph with
  | Announced _ | Sent _ => False
  | Answered _ result => accounted result
  | _ => True
  end.

(** *** Dispatches of a trace *)

Definition dispatched (l : list WorkflowEffect) : list string :=
  List.flat_map (λ e, match e with EDispatch c => if is_write c then [tl_tool_invocation_id c] else [] | _ => [] end) l.

(** Whether the write of the current step has been dispatched, now or before. *)
Definition begun (ph : write_phase) : bool := match ph with Idle | Announced _ => false | _ => true end.

Lemma write_trace_bounds ids s l s' : write_trace ids s l s' → s.1 <= s'.1 ∧
  (begun s.2 = true → s'.1 = s.1 → begun s'.2 = true).
Proof.
  induction 1 as [|l s1 e s2 _ [IH1 IH2] Hs]; [done|]. inversion Hs; subst; cbn in *; split; auto; try lia.
  all: intros Hb Hk; specialize (IH2 Hb Hk); done.
Qed.

(** The dispatched writes are the ids of distinct steps, in order, none of them the
    step of a write that an earlier run dispatched. *)
Definition dispatch_inv (ids : list string) (s : write_state) (l : list WorkflowEffect) (s' : write_state) : Prop :=
  ∃ ks : list Z, Forall2 (λ k id, ids !! Z.to_nat k = Some id) ks (dispatched l) ∧ StronglySorted Z.lt ks ∧
    Forall (λ k, s.1 <= k ∧ 0 <= k ∧ (k < s'.1 ∨ k = s'.1 ∧ begun s'.2 = true) ∧ (begun s.2 = true → s.1 < k)) ks ∧
    match s'.2 with Announced id => 0 <= s'.1 ∧ ids !! Z.to_nat s'.1 = Some id | _ => True end.

Lemma StronglySorted_snoc (ks : list Z) k : StronglySorted Z.lt ks → Forall (λ j, j < k) ks → StronglySorted Z.lt (ks ++ [k]).
Proof.
  induction 1 as [|j ks Hks IH Hj]; intros Hk; [repeat constructor|]. apply Forall_cons in Hk as [Hjk Hk].
  cbn. constructor; [auto|]. apply Forall_app; auto.
Qed.

Lemma dispatch_inv_trace ids s l s' :
  match s.2 with Announced _ => False | _ => True end → write_trace ids s l s' → dispatch_inv ids s l s'.
Proof.
  intros Hs0. induction 1 as [|l s1 e s2 Ht (ks & Hf & Hsort & Hks & Ha) Hs].
  { exists []. repeat split; try constructor. by destruct (s.2). }
  assert (dispatched (l ++ [e]) = dispatched l ++ dispatched [e]) as Hd by apply flat_map_app.
  pose proof (write_trace_bounds _ _ _ _ Ht) as [Hle Hbegun].
  assert (Hsame : s1.1 <= s2.1 → (s1.1 = s2.1 → begun s1.2 = true → begun s2.2 = true) → dispatched [e] = [] →
    match s2.2 with Announced id => 0 <= s2.1 ∧ ids !! Z.to_nat s2.1 = Some id | _ => True end → dispatch_inv ids s (l ++ [e]) s2).
  { intros H1 H2 H3 H4. exists ks. rewrite Hd, H3, app_nil_r. split_and!; [done..| |done].
    eapply Forall_impl; [exact Hks|]. cbn. intros k (? & ? & Hk & ?). split_and!; try done.
    destruct Hk as [?|[-> ?]]; [left; lia|]. destruct (decide (s1.1 = s2.1)) as [E|]; [right; auto|left; lia]. }
  inversion Hs; subst; cbn [fst snd] in *; try (apply Hsame; cbn; solve [done|lia|auto]).
  - (* sent *) destruct Ha as [Hk0 Hid].
    exists (ks ++ [k]). rewrite Hd. cbn. match goal with Hw : is_write call = true |- _ => rewrite Hw end. cbn.
    split_and!; [|apply StronglySorted_snoc; [done|]| |done].
    + apply Forall2_app; [done|]. by repeat constructor.
    + eapply Forall_impl; [exact Hks|]. cbn. intros j (_ & _ & [?|[_ ?]] & _); [lia|done].
    + apply Forall_app; split.
      * eapply Forall_impl; [exact Hks|]. cbn. intros j (? & ? & [?|[? ?]] & ?); split_and!; auto.
      * apply Forall_cons; split; [|constructor]. cbn. split_and!; [lia|done|auto|]. intros Hb. destruct (decide (k = s.1)) as [->|]; [|lia].
        by specialize (Hbegun Hb eq_refl).
  - (* read *) apply Hsame; cbn; auto; try lia. match goal with Hw : is_write call = false |- _ => by rewrite Hw end.
Qed.

(** Distinct steps have distinct ids: every write is dispatched at most once, and the
    write of the first step not at all when an earlier run dispatched it. *)
Lemma dispatched_once ids s l s' : NoDup ids → match s.2 with Announced _ => False | _ => True end →
  write_trace ids s l s' → NoDup (dispatched l) ∧
  ∀ id, begun s.2 = true → 0 <= s.1 → ids !! Z.to_nat s.1 = Some id → id ∉ dispatched l.
Proof.
  intros Hnd Hs0 Ht. destruct (dispatch_inv_trace _ _ _ _ Hs0 Ht) as (ks & Hf & Hsort & Hks & _). split.
  - clear -Hnd Hf Hsort Hks. revert Hf. generalize (dispatched l) as ds. intros ds Hf. induction Hf as [|k id ks ds Hk Hf IH]; [constructor|].
    apply StronglySorted_inv in Hsort as [Hsort Hlt]. apply Forall_cons in Hks as [Hk' Hks]. constructor; [|by apply IH].
    intros Hin. apply list_elem_of_lookup in Hin as [i Hi]. destruct (Forall2_lookup_r _ _ _ _ _ Hf Hi) as (j & Hj & Hid).
    pose proof (NoDup_lookup _ _ _ _ Hnd Hk Hid). rewrite Forall_lookup in Hlt, Hks. specialize (Hlt i j Hj). specialize (Hks i j Hj). lia.
  - intros id Hb H0 Hid Hin. apply list_elem_of_lookup in Hin as [i Hi]. destruct (Forall2_lookup_r _ _ _ _ _ Hf Hi) as (j & Hj & Hid').
    pose proof (NoDup_lookup _ _ _ _ Hnd Hid Hid'). rewrite Forall_lookup in Hks. destruct (Hks i j Hj) as (? & ? & _ & Hlt).
    specialize (Hlt Hb). lia.
Qed.

(** ** The executor follows the protocol *)

Section quiet.
Context `{Pydantic} (sv : WorkflowServices) (cancelled : nat → bool).
Implicit Types (Q : WorkflowWorld → Prop) (E : option exn_class → Thread WorkflowWorld → Prop).

Definition on_world (Q : WorkflowWorld → Prop) (t : Thread WorkflowWorld) : Prop := Q (th_world t).

(** What has no effect keeps any fact about the world. *)
Lemma quiet_lift {A} Q E (r : res A) : (∀ c t, Q (th_world t) → E (Some c) t) →
  triple (on_world Q) (lift r) (λ a t, on_world Q t ∧ r = Ok a) E.
Proof. intros HE. apply triple_lift; [done|]. intros c m t _. apply HE. Qed.
Lemma quiet_ret {A} Q E (a : A) : triple (on_world Q) (ret a) (λ b t, on_world Q t ∧ b = a) E.
Proof. by apply triple_ret. Qed.
Lemma quiet_raise {A} Q E c m S : (∀ t, Q (th_world t) → E (Some c) t) → triple (on_world Q) (@raise WorkflowWorld A c m) S E.
Proof. intros HE. by apply triple_raise. Qed.
Lemma quiet_ask {A} Q E (op : nat → res A) : (∀ c t, Q (th_world t) → E c t) →
  triple (on_world Q) (ask cancelled (λ _, []) op) (λ a t, on_world Q t ∧ ∃ n, op n = Ok a) E.
Proof.
  intros HE. apply triple_await; [done|done|by apply (HE None)|].
  intros n m [x l] Ht. destruct (op n) as [a|c e] eqn:Eop; cbn in *.
  - split; [|by exists n]. unfold on_world. cbn. by rewrite app_nil_r.
  - by apply HE.
Qed.
Lemma quiet_pause Q E : (∀ c t, Q (th_world t) → E c t) → triple (on_world Q) (pause cancelled) (λ _, on_world Q) E.
Proof. intros HE. eapply triple_weaken; [by apply quiet_ask|done| |done]. by intros a t [? _]. Qed.
Lemma quiet_if {A} P (b : bool) (m k : prog WorkflowWorld A) S E :
  triple P m S E → triple P k S E → triple P (if b then m else k) S E.
Proof. by destruct b. Qed.
End quiet.

(** A result of the executor, with the phase it leaves. *)
Definition Done (ids : list string) (s0 : write_state) (r : WorkflowExecutionResult) (t : Thread WorkflowWorld) : Prop :=
  ∃ s, write_trace ids s0 (ww_effects (th_world t)) s ∧ (we_status r ≠ "unknown" → calm s.2).

Section steps.
Context `{Pydantic} (sv : WorkflowServices) (cancelled : nat → bool).
Context (progress : nat → WorkflowStepProgress → res unit) (Hprogress : sv_progress sv = Some progress).
(** The client reports refusals as results; it does not raise schema errors. *)
Context (Hclient : ∀ n call c m, sv_execute sv n call = Raise c m → c ≠ SchemaValidationError ∧ c ≠ InvalidToolSchemaError).
Context (ids : list string) (s0 : write_state).

Definition St (s : write_state) (x : WorkflowContext) (w : WorkflowWorld) : Prop :=
  write_trace ids s0 (ww_effects w) s ∧ ww_context w = x.

(** How a step may end with an exception: a time-out is reported by what the context says,
    a schema error always as a failure. *)
Definition Err (c : option exn_class) (t : Thread WorkflowWorld) : Prop :=
  ∃ s, write_trace ids s0 (ww_effects (th_world t)) s ∧
    match c with
    | None | Some PyTimeoutError => wx_write_in_flight (ww_context (th_world t)) = false → calm s.2
    | Some SchemaValidationError | Some InvalidToolSchemaError => calm s.2
    | _ => True
    end.

Lemma err_calm s x c t : calm s.2 → St s x (th_world t) → Err c t.
Proof. intros Hc [Ht _]. exists s. split; [done|]. destruct c as [[]|]; auto. Qed.
Lemma err_flight s x c t : wx_write_in_flight x = true →
  c ≠ Some SchemaValidationError → c ≠ Some InvalidToolSchemaError → St s x (th_world t) → Err c t.
Proof.
  intros Hf H1 H2 [Ht Hx]. exists s. split; [done|]. rewrite Hx. destruct c as [[]|]; try done; intros; congruence.
Qed.

Ltac errs := first [eapply err_calm; [|eassumption]; done | eapply err_flight; [..|eassumption]; done].

(** An effect that the protocol allows. *)
Lemma St_step s s' e x w : write_step ids s e s' → St s x w → St s' x (mkWorkflowWorld (ww_context w) (ww_effects w ++ [e])).
Proof. intros Hs [Ht Hx]. split; [by eapply trace_snoc|done]. Qed.

Lemma run_record s s' e x : write_step ids s e s' → triple (on_world (St s x)) (log_effects [e]) (λ _, on_world (St s' x)) Err.
Proof. intros Hs. apply triple_modify. intros n w Hw. by eapply St_step. Qed.

Lemma run_set_context s x f : triple (on_world (St s x)) (set_context f) (λ _, on_world (St s (f x))) Err.
Proof. apply triple_modify. intros n w [Ht Hx]. cbn in *. split; [done|]. cbn. by rewrite Hx. Qed.

Lemma run_report s s' p x : write_step ids s (EProgress p) s' → calm s.2 →
  triple (on_world (St s x)) (report sv cancelled p) (λ _, on_world (St s' x)) Err.
Proof.
  intros Hs Hc. unfold report. rewrite Hprogress. apply triple_await; [done|done|intros t Ht; errs|].
  intros n m w Hw. destruct (progress n p) as [[]|c e]; [by eapply St_step|]. errs.
Qed.

Lemma run_lift {A} s x (r : res A) : calm s.2 → triple (on_world (St s x)) (lift r) (λ a t, on_world (St s x) t ∧ r = Ok a) Err.
Proof. intros Hc. apply quiet_lift. intros c t Ht. errs. Qed.

(** *** Calls *)

Lemma run_dispatch_read k x call side :
  is_write call = false → triple (on_world (St (k, Idle) x)) (dispatch_call sv cancelled side call) (λ _, on_world (St (k, Idle) x)) Err.
Proof.
  intros Hw. unfold dispatch_call. eapply triple_bind; [apply run_record; by apply step_read_call|]. intros [].
  eapply (triple_catch _ _ _ _ _ (λ c, on_world (St (k, Idle) x))).
  - apply triple_await; [done..|]. intros n m w Ht. destruct (sv_execute sv n call); [|done].
    eapply St_step; [apply step_read_answer|done].
  - intros c e. destruct c; try (intros t Ht; errs).
    eapply triple_bind; [apply run_record, step_read_answer|]. intros []. by apply triple_ret.
  - intros t Ht. errs.
Qed.

Lemma run_dispatch_write k id x call side :
  is_write call = true → tl_tool_invocation_id call = id → wx_write_in_flight x = true →
  triple (on_world (St (k, Announced id) x)) (dispatch_call sv cancelled side call) (λ r, on_world (St (k, Answered id r) x)) Err.
Proof.
  intros Hw Hid Hx. unfold dispatch_call. eapply triple_bind; [apply run_record; by apply step_send|]. intros [].
  eapply (triple_catch _ _ _ _ _ (λ c t, on_world (St (k, Sent id) x) t ∧ c ≠ Some SchemaValidationError ∧ c ≠ Some InvalidToolSchemaError)).
  - apply triple_await; [done|done|by intros t Ht|]. intros n m w Ht. destruct (sv_execute sv n call) as [r|c e] eqn:Hr.
    + eapply St_step; [|done]. rewrite Hid. constructor.
    + split; [done|]. destruct (Hclient n call c e Hr). split; congruence.
  - intros c e. destruct c; try (intros t (Ht & ? & ?); errs).
    eapply (triple_bind _ _ _ (λ _, on_world (St (k, Answered id (timed_out side)) x))); [|intros []; by apply triple_ret].
    eapply triple_weaken; [apply (run_record (k, Sent id) (k, Answered id (timed_out side))); rewrite Hid; constructor|by intros t [? _]|done|done].
  - intros t (Ht & ? & ?). errs.
Qed.

Lemma run_call_read n : ∀ k x attempt step invocation name arguments version side approval,
  writes_of side = false →
  triple (on_world (St (k, Idle) x)) (call_tool sv cancelled n attempt step invocation name arguments version side approval)
    (λ _, on_world (St (k, Idle) x)) Err.
Proof.
  induction n as [|n IH]; intros k x attempt step invocation name arguments version side approval Hside; cbn [call_tool].
  { apply quiet_raise. intros t Ht. errs. }
  eapply triple_bind; [by apply run_dispatch_read|]. intros r. eapply triple_bind; [by apply run_lift|]. intros b.
  apply triple_given. intros _. apply quiet_if; [by apply triple_ret|].
  eapply (triple_bind _ _ _ (λ _, on_world (St (k, Idle) x))); [|intros []; by apply IH].
  destruct (ry_strategy (ws_retry step)); [by apply triple_ret|]. apply quiet_pause. intros c t Ht. errs.
Qed.

Lemma run_call_write n k x step invocation name arguments version side approval :
  writes_of side = true → wx_write_in_flight x = true →
  triple (on_world (St (k, Announced invocation) x)) (call_tool sv cancelled n 1 step invocation name arguments version side approval)
    (λ r, on_world (St (k, Answered invocation r) x)) Err.
Proof.
  intros Hside Hx. destruct n as [|n]; cbn [call_tool].
  { apply quiet_raise. intros t Ht. errs. }
  eapply triple_bind; [by apply run_dispatch_write|]. intros r. unfold call_settled. unfold writes_of in Hside. rewrite Hside.
  intros t Ht. exact Ht.
Qed.

Lemma run_read_attempts n : ∀ k x attempt step uri,
  triple (on_world (St (k, Idle) x)) (read_attempts sv cancelled n attempt step uri) (λ _, on_world (St (k, Idle) x)) Err.
Proof.
  induction n as [|n IH]; intros k x attempt step uri; cbn [read_attempts].
  { apply quiet_raise. intros t Ht. errs. }
  eapply (triple_bind _ _ _ (λ _, on_world (St (k, Idle) x))).
  - apply triple_await; [done|done|intros t Ht; errs|]. intros i m w Ht. eapply St_step; [apply step_read_resource|done].
  - assert (∀ code, triple (on_world (St (k, Idle) x))
      (if (ry_max_attempts (ws_retry step) <=? attempt) || negb (str_in code (map retry_cause_value (ry_retry_on (ws_retry step))))
       then ret [("status", JStr "error"); ("error_code", JStr code)]
       else bind (match ry_strategy (ws_retry step) with Exponential => pause cancelled | NoBackoff => ret tt end)
              (λ _, read_attempts sv cancelled n (attempt + 1) step uri)) (λ _, on_world (St (k, Idle) x)) Err) as Hretry.
    { intros code. apply quiet_if; [by apply triple_ret|].
      eapply (triple_bind _ _ _ (λ _, on_world (St (k, Idle) x))); [|intros []; apply IH].
      destruct (ry_strategy (ws_retry step)); [by apply triple_ret|]. apply quiet_pause. intros c t Ht. errs. }
    intros [contents| |code]; [by apply triple_ret|apply Hretry..].
Qed.

Lemma run_resource_step k x wi step arguments resource :
  triple (on_world (St (k, Idle) x)) (resource_step sv cancelled wi step arguments resource) (λ _, on_world (St (k, Idle) x)) Err.
Proof.
  unfold resource_step. destruct (dget _ _) as [[]|]; try (apply quiet_raise; intros t Ht; errs).
  unfold read_resource. destruct (pgetn _ _); try (apply quiet_raise; intros t Ht; errs).
  eapply triple_bind; [by apply run_lift|]. intros uri. apply triple_given. intros _. apply run_read_attempts.
Qed.

(** Looking a pending write up. *)
Lemma run_look_up_raw k id x :
  triple (on_world (St (k, Awaiting id) x)) (look_up sv cancelled id)
    (λ o t, on_world (St (k, Looked id o) x) t ∨ o = [] ∧ on_world (St (k, Awaiting id) x) t)
    (λ _, on_world (St (k, Awaiting id) x)).
Proof.
  unfold look_up. destruct (sv_status sv) as [f|]; [|intros t Ht; by right].
  apply triple_await; [done..|]. intros n m w Ht. destruct (f n id) as [o|c e]; [|done].
  left. eapply St_step; [constructor|done].
Qed.
Lemma run_look_up k id x :
  triple (on_world (St (k, Awaiting id) x)) (look_up sv cancelled id)
    (λ o t, on_world (St (k, Looked id o) x) t ∨ o = [] ∧ on_world (St (k, Awaiting id) x) t) Err.
Proof. eapply triple_weaken; [apply run_look_up_raw|done|done|]. intros c t Ht. by apply (err_calm (k, Awaiting id) x). Qed.

(** What the result of a step comes with. *)
Definition ready (invocation : string) (writes : bool) (result : payload) (ph : write_phase) : Prop :=
  match ph with
  | Idle => writes = false
  | Answered id r => writes = true ∧ id = invocation ∧ r = result
  | Looked id o => id = invocation ∧ outcome_known o = Ok true ∧ is_lit (pgetn "status" result) "success" = true
  | _ => False
  end.

(** Before a step. *)
Definition entering (k : Z) (invocation : string) (lp : LoopState) (ph : write_phase) : Prop :=
  0 <= k ∧ ids !! Z.to_nat k = Some invocation ∧
  ((lp_pending lp = None ∧ ph = Idle) ∨ (lp_pending lp = Some invocation ∧ ph = Awaiting invocation)).

Lemma entering_calm k i lp ph : entering k i lp ph → calm ph.
Proof. by intros (_ & _ & [[_ ->]|[_ ->]]). Qed.

Lemma Done_calm s x r t : calm s.2 → St s x (th_world t) → Done ids s0 r t.
Proof. intros Hc [Ht _]. by exists s. Qed.

(** The end of the execution, or the result with the phase it is ready in. *)
Definition after_tool (k : Z) (invocation : string) (writes : bool) (r : WorkflowExecutionResult + payload)
    (t : Thread WorkflowWorld) : Prop :=
  match r with
  | inl stop => Done ids s0 stop t
  | inr result => ∃ ph x, St (k, ph) x (th_world t) ∧ wx_write_in_flight x = writes ∧ ready invocation writes result ph
  end.

(** The branch that looks a pending write up. *)
Lemma run_pending k step invocation x writes lp : wx_write_in_flight x = writes →
  triple (on_world (St (k, Awaiting invocation) x))
    (bind (look_up sv cancelled invocation) (λ observed,
     bind (lift (refused_for_good observed)) (λ refused : bool,
       if refused then
         ret (inl (ended_with (if is_lit (pgetn "status" observed) "cancelled" then "cancelled" else "failed") (lp_completed lp)
                (Some (let c := pgetn "error_code" observed in if truthy c then py_str c else "workflow_step_failed"))))
       else if negb (is_lit (pgetn "status" observed) "success") then
         ret (inl (stopped "unknown" (lp_completed lp) (Some (ws_id step)) (Some invocation) "workflow_result_pending"))
       else
       match pgetn "result" observed with
       | JObj recorded =>
           if is_lit (pgetn "status" recorded) "success" then ret (inr recorded)
           else ret (inl (stopped "unknown" (lp_completed lp) (Some (ws_id step)) (Some invocation) "workflow_result_unavailable"))
       | _ => ret (inl (stopped "unknown" (lp_completed lp) (Some (ws_id step)) (Some invocation) "workflow_result_unavailable"))
       end)))
    (after_tool k invocation writes) Err.
Proof.
  intros Hx. eapply triple_bind; [apply run_look_up|]. intros o t [Ht|[-> Ht]].
  - revert t Ht. eapply triple_bind; [by apply run_lift|]. intros b. apply triple_given. intros Hb.
    assert (∀ r t, on_world (St (k, Looked invocation o) x) t → Done ids s0 r t) as Hdone by (intros r t Ht; by apply (Done_calm (k, Looked invocation o) x)).
    destruct b; [apply triple_ret; intros; by apply Hdone|].
    destruct (is_lit (pgetn "status" o) "success") eqn:Hs; cbn [negb]; [|apply triple_ret; intros; by apply Hdone].
    destruct (pgetn "result" o); try (apply triple_ret; intros; by apply Hdone).
    destruct (is_lit (pgetn "status" d) "success") eqn:Hd; [|apply triple_ret; intros; by apply Hdone].
    apply triple_ret. intros t Ht. exists (Looked invocation o), x. split; [exact Ht|]. split; [done|]. split; [done|]. split; [|exact Hd].
    unfold outcome_known. by rewrite Hs.
  - by apply (Done_calm (k, Awaiting invocation) x).
Qed.

Lemma run_tool_step k ph x wi step invocation lp arguments tool :
  entering k invocation lp ph →
  triple (on_world (St (k, ph) x)) (tool_step sv cancelled wi k step invocation lp arguments tool)
    (after_tool k invocation (writes_of (rt_expected_side_effect tool))) Err.
Proof.
  intros Hent. pose proof (entering_calm _ _ _ _ Hent) as Hcalm. unfold tool_step.
  eapply triple_bind; [by apply run_lift|]. intros stale. apply triple_given. intros _.
  destruct stale; [apply triple_ret; intros t Ht; by apply (Done_calm (k, ph) x)|].
  eapply triple_bind; [by apply run_lift|]. intros name. apply triple_given. intros _.
  eapply triple_bind; [apply run_set_context|]. intros [].
  set (writes := writes_of (rt_expected_side_effect tool)).
  match goal with |- triple (on_world (St _ ?y)) _ _ _ => set (x' := y) end.
  destruct Hent as (Hk & Hid & [[Hnone ->]|[Hpend ->]]).
  2:{ rewrite bool_decide_eq_true_2 by done. by apply run_pending. }
  rewrite bool_decide_eq_false_2 by congruence. rewrite Hprogress, andb_true_r.
  destruct writes eqn:Hw.
  - eapply (triple_bind _ _ _ (λ _, on_world (St (k, Announced invocation) x'))).
    + eapply triple_bind; [by apply run_lift|]. intros state. apply triple_given. intros _.
      by apply (run_report (k, Idle) (k, Announced invocation)); [constructor|].
    + intros []. eapply triple_bind; [by apply run_call_write|]. intros r. apply triple_ret. intros t Ht.
      by exists (Answered invocation r), x'.
  - eapply (triple_bind _ _ _ (λ _, on_world (St (k, Idle) x'))); [by apply triple_ret|]. intros [].
    eapply triple_bind; [by apply run_call_read|]. intros r. apply triple_ret. intros t Ht. by exists Idle, x'.
Qed.

(** *** Concluding a step *)

Lemma run_lift_type {A} s x (r : res A) : (∀ c m, r = Raise c m → c = PyTypeError) →
  triple (on_world (St s x)) (lift r) (λ a t, on_world (St s x) t ∧ r = Ok a) Err.
Proof.
  intros Hr. apply triple_lift; [done|]. intros c m t E [Ht _]. rewrite (Hr c m E). by exists s.
Qed.
Lemma in_set_raises v l c m : in_set v l = Raise c m → c = PyTypeError.
Proof. unfold in_set. case_match; [done|]. by intros [= <- _]. Qed.
Lemma known_effect_raises v c m : known_effect v = Raise c m → c = PyTypeError.
Proof. unfold known_effect. case_match; [done|]. by intros [= <- _]. Qed.
Lemma outcome_known_raises r c m : outcome_known r = Raise c m → c = PyTypeError.
Proof.
  unfold outcome_known, refused_for_good. destruct (is_lit _ _); [done|].
  destruct (in_set _ _) as [[]|k e] eqn:E; cbn [mbind res_bind]; [apply known_effect_raises|done|].
  intros [= <- _]. by eapply in_set_raises.
Qed.
Lemma step_status_raises writes r c m : step_status writes r = Raise c m → c = PyTypeError.
Proof.
  unfold step_status. destruct (_ && _); [|done]. destruct (known_effect _) as [[]|k e] eqn:E; cbn [mbind res_bind]; [done|done|].
  intros [= <- _]. by eapply known_effect_raises.
Qed.
Lemma step_status_success writes r st : step_status writes r = Ok st → is_lit st "success" = true →
  is_lit (pgetn "status" r) "success" = true.
Proof.
  unfold step_status. destruct (is_lit (pgetn "status" r) "success") eqn:E; [done|]. cbn [negb andb].
  destruct writes; [|intros [= <-]; congruence]. intros (b & _ & Hs)%res_bind_Ok Hl. destruct b; injection Hs as <-; [congruence|done].
Qed.
Lemma step_status_failed r st : step_status true r = Ok st → is_lit st "unknown" = false → accounted r.
Proof.
  unfold step_status. destruct (is_lit (pgetn "status" r) "success") eqn:E; cbn [negb andb]; [intros; by left|].
  intros (b & Hb & Hs)%res_bind_Ok Hl. destruct b; injection Hs as <-; [right; by left|done].
Qed.
Lemma outcome_accounted r : outcome_known r = Ok true → accounted r.
Proof.
  unfold outcome_known, refused_for_good. destruct (is_lit (pgetn "status" r) "success") eqn:E; [intros; by left|].
  intros (b & _ & Hs)%res_bind_Ok. destruct b; [|done]. right; by left.
Qed.

(** The phase after a known outcome was settled, if it was. *)
Definition settled_phase (known : bool) (invocation : string) (ph : write_phase) : write_phase :=
  if known then Settled invocation else ph.

Lemma ready_calm invocation writes result ph known :
  ready invocation writes result ph → (known = true → outcome_known result = Ok true) → known = true → calm ph.
Proof.
  intros Hr Hk Hb. destruct ph; try done. destruct Hr as (_ & _ & ->). by apply outcome_accounted, Hk.
Qed.
(** A step that succeeded leaves nothing open. *)
Lemma ready_closed invocation writes result ph known status :
  ready invocation writes result ph → (writes = true → outcome_known result = Ok known) →
  step_status writes result = Ok status → is_lit status "success" = true → closed_phase (settled_phase known invocation ph).
Proof.
  intros Hr Hk Hs Hl. destruct known; [done|]. destruct ph; try done; [by destruct Hr as (_ & ? & _)|].
  destruct Hr as (-> & _ & ->). specialize (Hk eq_refl). apply step_status_success in Hs; [|done].
  unfold outcome_known in Hk. by rewrite Hs in Hk.
Qed.
Lemma closed_calm ph : closed_phase ph → calm ph.
Proof. by destruct ph. Qed.

(** The loop's state for the next step, or the end. *)
Definition after_step (k : Z) (r : WorkflowExecutionResult + LoopState) (t : Thread WorkflowWorld) : Prop :=
  match r with
  | inl stop => Done ids s0 stop t
  | inr lp => lp_pending lp = None ∧ ∃ x, St (k + 1, Idle) x (th_world t) ∧ wx_write_in_flight x = false
  end.

Lemma run_settle k ph x invocation writes lp result (known : bool) :
  ready invocation writes result ph → (known = true → writes = true ∧ outcome_known result = Ok true) →
  triple (on_world (St (k, ph) x))
    (if known then
       bind (lift (copy_object (lp_state lp))) (λ state,
         report sv cancelled (mkProgress k (lp_completed lp) state None (Some invocation)))
     else ret tt)
    (λ _, on_world (St (k, settled_phase known invocation ph) x)) Err.
Proof.
  intros Hr Hk. destruct known; [|by apply triple_ret]. destruct (Hk eq_refl) as [Hw Ho].
  assert (calm ph) as Hc by (eapply ready_calm; [done|intros _; exact Ho|done]).
  eapply triple_bind; [by apply run_lift|]. intros state. apply triple_given. intros _.
  apply run_report; [|done]. destruct ph; try done; cbn in Hr; try congruence.
  - destruct Hr as (-> & ? & _). by constructor.
  - destruct Hr as (_ & -> & ->). by constructor.
Qed.

Lemma run_conclude k ph x step invocation writes lp result :
  wx_write_in_flight x = writes → ready invocation writes result ph →
  triple (on_world (St (k, ph) x)) (conclude_step sv cancelled k step invocation writes lp result) (after_step k) Err.
Proof.
  intros Hx Hr. unfold conclude_step. rewrite Hprogress, andb_true_r.
  eapply triple_bind; [apply run_lift_type; intros c m; destruct writes; [apply outcome_known_raises|done]|].
  intros known. apply triple_given. intros Hknown.
  assert (known = true → writes = true ∧ outcome_known result = Ok true) as Hk.
  { intros ->. by destruct writes. }
  assert (writes = true → outcome_known result = Ok known) as Hk' by (intros ->; exact Hknown).
  eapply triple_bind; [by apply (run_settle k ph x invocation writes lp result known)|]. intros []. clear Hknown.
  set (ph2 := settled_phase known invocation ph).
  destruct (is_lit (pgetn "error_code" result) "approval_required") eqn:Happ.
  { apply triple_ret. intros t Ht. eapply Done_calm; [|exact Ht]. cbn. unfold ph2. destruct known; [done|].
    destruct ph; try done. destruct Hr as (_ & _ & ->). right; by right. }
  eapply triple_bind; [apply run_set_context|]. intros [].
  match goal with |- triple (on_world (St _ ?y)) _ _ _ => set (x' := y) end.
  eapply triple_bind; [apply run_lift_type, step_status_raises|]. intros status. apply triple_given. intros Hs.
  destruct (is_lit status "success") eqn:Hsucc; cbn [negb].
  2:{ apply triple_ret. intros t [Ht _]. exists (k, ph2). split; [done|]. cbn [we_status stopped].
      destruct (is_lit status "unknown") eqn:Hu; [done|]. intros _. cbn. unfold ph2. destruct known; [done|].
      destruct ph; try done. destruct Hr as (-> & _ & ->). by eapply step_status_failed. }
  assert (closed_phase ph2) as Hclosed by by eapply ready_closed.
  pose proof (closed_calm _ Hclosed) as Hcalm.
  eapply triple_bind; [by apply run_lift|]. intros []. apply triple_given. intros _.
  eapply triple_bind; [apply run_set_context|]. intros [].
  match goal with |- triple (on_world (St _ ?y)) _ _ _ => set (x2 := y) end.
  eapply (triple_bind _ _ _ (λ _, on_world (St (k + 1, Idle) x2))).
  - eapply triple_bind; [by apply run_lift|]. intros copied. apply triple_given. intros _.
    apply run_report; [by constructor|done].
  - intros []. apply triple_ret. intros t Ht. split; [done|]. by exists x2.
Qed.

(** *** The loop *)

Lemma run_guard k ph x step lp : calm ph →
  triple (on_world (St (k, ph) x)) (guard_step sv cancelled step lp)
    (λ r t, on_world (St (k, ph) x) t ∧ ∀ stop, r = Some stop → we_status stop ≠ "unknown") Err.
Proof.
  intros Hc. unfold guard_step. destruct (sv_guard sv) as [f|]; [|by apply triple_ret].
  destruct (lp_pending lp); [by apply triple_ret|].
  eapply triple_bind; [apply quiet_ask; intros c t Ht; errs|]. intros d. apply triple_given. intros _. apply triple_ret.
  intros t Ht. split; [done|]. intros stop. destruct d as [d|]; [|done]. case_match; [done|]. intros [= <-]. cbn. by case_match.
Qed.

Lemma run_step k ph x wi resolved references step lp :
  entering k (invocation_id (sa_skill_activation_id (wi_activation wi)) (rw_workflow_digest resolved) (ws_id step)) lp ph →
  (lp_pending lp ≠ None → ws_operation step = ToolCallOperation) →
  triple (on_world (St (k, ph) x)) (execute_step sv cancelled wi resolved references k step lp) (after_step k) Err.
Proof.
  intros Hent Htool. pose proof (entering_calm _ _ _ _ Hent) as Hcalm. unfold execute_step.
  eapply triple_bind; [by apply run_guard|]. intros [stop|].
  { apply triple_ret. intros t [Ht _]. by apply (Done_calm (k, ph) x). }
  apply triple_given. intros _.
  eapply triple_bind; [by apply run_lift|]. intros arguments. apply triple_given. intros _.
  eapply triple_bind; [apply run_set_context|]. intros [].
  match goal with |- triple (on_world (St _ ?y)) _ _ _ => set (x' := y) end.
  destruct (ws_operation step) eqn:Hop.
  - eapply triple_bind; [by apply run_lift|]. intros tool. apply triple_given. intros _.
    eapply triple_bind; [by apply run_tool_step|]. intros [stop|result]; [by apply triple_ret|].
    intros t (ph' & y & Ht & Hy & Hr). by apply (run_conclude k ph' y).
  - assert (ph = Idle) as ->.
    { destruct Hent as (_ & _ & [[_ ->]|[Hp _]]); [done|]. by discriminate Htool; rewrite Hp. }
    eapply triple_bind; [by apply run_lift|]. intros resource. apply triple_given. intros _.
    eapply triple_bind; [apply run_resource_step|]. intros result. by apply run_conclude.
Qed.

(** The steps from index [k] have the ids from [k] on. *)
Definition named (wi : WorkflowInput) (resolved : ResolvedSkillWorkflow) (k : Z) (steps : list WorkflowStep) : Prop :=
  0 <= k ∧ ∀ j s, steps !! j = Some s → ids !! (Z.to_nat k + j)%nat =
    Some (invocation_id (sa_skill_activation_id (wi_activation wi)) (rw_workflow_digest resolved) (ws_id s)).

Lemma run_steps wi resolved references steps : ∀ k ph x lp,
  named wi resolved k steps →
  ((lp_pending lp = None ∧ ph = Idle) ∨
   (∃ p s, lp_pending lp = Some p ∧ ph = Awaiting p ∧ head steps = Some s ∧ ws_operation s = ToolCallOperation ∧
      ids !! Z.to_nat k = Some p)) →
  triple (on_world (St (k, ph) x)) (execute_steps sv cancelled wi resolved references k steps lp)
    (λ r t, match r with inl stop => Done ids s0 stop t | inr _ => ∃ s y, St s y (th_world t) ∧ calm s.2 end) Err.
Proof.
  induction steps as [|step steps IH]; intros k ph x lp [Hk Hn] Hp; cbn [execute_steps].
  { apply triple_ret. intros t Ht. exists (k, ph), x. split; [done|]. by destruct Hp as [[_ ->]|(p & s & _ & -> & _)]. }
  pose proof (Hn 0%nat step eq_refl) as Hid. rewrite Nat.add_0_r in Hid.
  eapply triple_bind.
  - apply run_step.
    + split_and!; [done|done|]. destruct Hp as [?|(p & s & ? & ? & _ & _ & Hp)]; [by left|right]. rewrite Hp in Hid. by injection Hid as <-.
    + destruct Hp as [[-> _]|(p & s & _ & _ & [= ->] & ? & _)]; [done|by intros].
  - intros [stop|lp']; [by apply triple_ret|]. intros t (Hnone & y & Ht & _). apply (IH (k + 1) Idle y lp'); [|by left|exact Ht].
    split; [lia|]. intros j s Hs. rewrite <- (Hn (S j) s Hs). f_equal. lia.
Qed.
End steps.

(** *** A whole execution *)

Section whole.
Context `{Pydantic} (sv : WorkflowServices) (cancelled : nat → bool).
Context (progress : nat → WorkflowStepProgress → res unit) (Hprogress : sv_progress sv = Some progress).
Context (Hclient : ∀ n call c m, sv_execute sv n call = Raise c m → c ≠ SchemaValidationError ∧ c ≠ InvalidToolSchemaError).
Context (wi : WorkflowInput) (start : Z) (pending : option string).

(** The client serves [document] for the workflow of the binding. *)
Definition served (resolved : ResolvedSkillWorkflow) (document : SkillWorkflow) : Prop :=
  ∃ n parts text v, sv_load_part sv n (rw_entrypoint resolved) = Ok parts ∧ single_text parts "Skill workflow" = Ok text ∧
    pydantic_read text = Some v ∧ SkillWorkflow_validate v = Ok document ∧ workflow_digest document = rw_workflow_digest resolved.

Definition step_ids (resolved : ResolvedSkillWorkflow) (document : SkillWorkflow) : list string :=
  map (λ s, invocation_id (sa_skill_activation_id (wi_activation wi)) (rw_workflow_digest resolved) (ws_id s)) (sw_steps document).

(** The ids of the document that was served, if one was. *)
Definition valid_ids (ids : list string) : Prop :=
  ids = [] ∨ ∃ resolved document, sb_resolved_workflow (sa_binding (wi_activation wi)) = Some resolved ∧
    served resolved document ∧ ids = step_ids resolved document.

Definition first_phase : write_phase := match pending with Some p => Awaiting p | None => Idle end.

(** A pending write is that of the first step, which calls a tool. *)
Definition resumes_pending : Prop := ∀ p resolved document,
  pending = Some p → sb_resolved_workflow (sa_binding (wi_activation wi)) = Some resolved → served resolved document →
  ∃ s, sw_steps document !! Z.to_nat start = Some s ∧ ws_operation s = ToolCallOperation ∧
    invocation_id (sa_skill_activation_id (wi_activation wi)) (rw_workflow_digest resolved) (ws_id s) = p.
Context (Hpend : resumes_pending).

Definition final (r : WorkflowExecutionResult) (t : Thread WorkflowWorld) : Prop :=
  ∃ ids, valid_ids ids ∧ Done ids (start, first_phase) r t.
Definition failing (c : option exn_class) (t : Thread WorkflowWorld) : Prop :=
  ∃ ids, valid_ids ids ∧ Err ids (start, first_phase) c t.
Definition traced (c : option exn_class) (t : Thread WorkflowWorld) : Prop :=
  ∃ ids s, valid_ids ids ∧ write_trace ids (start, first_phase) (ww_effects (th_world t)) s.

(** Nothing has happened yet. *)
Definition fresh (x : WorkflowContext) (w : WorkflowWorld) : Prop := ww_effects w = [] ∧ ww_context w = x.

Lemma first_calm : calm first_phase.
Proof. unfold first_phase. by destruct pending. Qed.
Lemma fresh_St ids x w : fresh x w → St ids (start, first_phase) (start, first_phase) x w.
Proof. intros [E Hx]. split; [|done]. rewrite E. constructor. Qed.
Lemma fresh_failing x c t : fresh x (th_world t) → failing c t.
Proof. intros Hf. exists []. split; [by left|]. eapply err_calm; [|by apply fresh_St]. apply first_calm. Qed.

Lemma run_load x resolved :
  triple (on_world (fresh x)) (load_workflow sv cancelled resolved)
    (λ document t, on_world (fresh x) t ∧ served resolved document) failing.
Proof.
  unfold load_workflow.
  eapply triple_bind; [apply quiet_ask; intros c t; apply fresh_failing|]. intros parts. apply triple_given. intros [n Hn].
  eapply triple_bind; [apply quiet_lift; intros c t; apply fresh_failing|]. intros text. apply triple_given. intros Ht.
  eapply triple_bind; [apply quiet_lift; intros c t; apply fresh_failing|]. intros document. apply triple_given. intros Hd.
  destruct (String.eqb _ _) eqn:E; [|apply quiet_raise; intros t; apply fresh_failing].
  apply String.eqb_eq in E. apply triple_ret. intros t Hf. split; [done|].
  unfold value_errors_as in Hd. destruct (pydantic_read text) as [v|] eqn:Hv; [|done].
  exists n, parts, text, v. split_and!; try done. destruct (SkillWorkflow_validate v); [congruence|by case_match].
Qed.

Lemma run_load_each x l : ∀ acc, triple (on_world (fresh x)) (load_each sv cancelled l acc) (λ _, on_world (fresh x)) failing.
Proof.
  induction l as [|r l IH]; intros acc; cbn [load_each]; [by apply triple_ret|].
  eapply (triple_bind _ _ _ (λ _, on_world (fresh x))); [|intros kv; apply IH]. unfold load_reference.
  eapply triple_bind; [apply quiet_ask; intros c t; apply fresh_failing|]. intros parts. apply triple_given. intros _.
  eapply triple_bind; [apply quiet_lift; intros c t; apply fresh_failing|]. intros text. apply triple_given. intros _.
  eapply triple_bind; [apply quiet_lift; intros c t; apply fresh_failing|]. intros v. apply triple_given. intros _.
  by apply triple_ret.
Qed.

Lemma ids_named resolved document : 0 <= start →
  named (step_ids resolved document) wi resolved start (drop (Z.to_nat start) (sw_steps document)).
Proof.
  intros H0. split; [done|]. intros j s Hs. rewrite lookup_drop in Hs. unfold step_ids.
  change (map ?f ?l) with (f <$> l). by rewrite list_lookup_fmap, Hs.
Qed.

Lemma Done_final ids r t : valid_ids ids → Done ids (start, first_phase) r t → final r t.
Proof. intros. by exists ids. Qed.

Lemma run_body x resume_state :
  triple (on_world (fresh x)) (execute_body sv cancelled wi resume_state start pending) final failing.
Proof.
  unfold execute_body. destruct (sb_resolved_workflow (sa_binding (wi_activation wi))) as [resolved|] eqn:Hres.
  2:{ apply triple_ret. intros t Hf. exists []. split; [by left|]. eapply Done_calm; [|by apply fresh_St]. apply first_calm. }
  eapply triple_bind; [apply run_load|]. intros document. apply triple_given. intros Hserved.
  eapply (triple_bind _ _ _ (λ _, on_world (fresh x))).
  { eapply triple_bind; [apply run_load_each|]. intros references.
    eapply triple_bind; [apply quiet_lift; intros c t; apply fresh_failing|]. intros []. apply triple_given. intros _.
    by apply triple_ret. }
  intros references. destruct ((start <? 0) || (Z.of_nat (length (sw_steps document)) <? start)) eqn:Hcursor.
  { apply quiet_raise. intros t. apply fresh_failing. }
  apply orb_false_iff in Hcursor as [H0 _]. apply Z.ltb_ge in H0.
  eapply triple_bind; [apply quiet_lift; intros c t; apply fresh_failing|]. intros state. apply triple_given. intros _.
  set (ids := step_ids resolved document).
  assert (valid_ids ids) as Hvalid by (right; by exists resolved, document).
  assert (∀ c t, Err ids (start, first_phase) c t → failing c t) as Hfail by (intros; by exists ids).
  eapply triple_bind.
  { eapply triple_weaken; [apply (run_set_context ids (start, first_phase) (start, first_phase) x)| |done|exact Hfail].
    intros t. apply fresh_St. }
  intros [].
  match goal with |- triple (on_world (St _ _ _ ?y)) _ _ _ => set (x' := y) end.
  eapply triple_bind.
  { eapply triple_weaken; [eapply (run_steps sv cancelled progress Hprogress Hclient ids (start, first_phase))|done|done|exact Hfail].
    - by apply ids_named.
    - unfold first_phase. destruct pending as [p|] eqn:Hp; [|by left]. right.
      destruct (Hpend p resolved document Hp Hres Hserved) as (s & Hs & Hop & Hid). exists p, s. split_and!; try done.
      + rewrite <- (Nat.add_0_r (Z.to_nat start)) in Hs. rewrite <- lookup_drop in Hs.
        by destruct (drop (Z.to_nat start) (sw_steps document)).
      + unfold ids, step_ids. change (map ?f ?l) with (f <$> l). by rewrite list_lookup_fmap, Hs, <- Hid. }
  intros [stop|lp]; [apply triple_ret; intros t; by apply Done_final|].
  intros t (s & y & Ht & Hc). revert t Ht.
  change (triple (on_world (St ids (start, first_phase) s y))
    (bind (lift (mapR (λ e, v ← resolve_workflow_value (wi_inputs wi) (lp_state lp) references e.2; Ok (e.1, v)) (sw_outputs document)))
      (λ output, bind (lift (guard_state_size (JObj output))) (λ _,
         ret (mkExecution "completed" output (lp_completed lp) None None None None None)))) final failing).
  eapply triple_bind; [apply quiet_lift; intros c t Ht; apply Hfail; by eapply err_calm|]. intros output. apply triple_given. intros _.
  eapply triple_bind; [apply quiet_lift; intros c t Ht; apply Hfail; by eapply err_calm|]. intros []. apply triple_given. intros _.
  apply triple_ret. intros t Ht. apply (Done_final ids); [done|]. by eapply Done_calm.
Qed.

(** The deadline passed before the start. *)
Definition at_rest (x : WorkflowContext) (t : Thread WorkflowWorld) : Prop :=
  ∃ s, calm s.2 ∧ St [] (start, first_phase) s x (th_world t).

Lemma at_rest_final x r t : at_rest x t → final r t.
Proof. intros (s & Hc & Ht). exists []. split; [by left|]. by eapply Done_calm. Qed.
Lemma traced_St s x c t : St [] (start, first_phase) s x (th_world t) → traced c t.
Proof. intros [Ht _]. exists [], s. split; [by left|done]. Qed.
Lemma ret_at_rest s x (a : option string) : calm s.2 →
  triple (on_world (St [] (start, first_phase) s x)) (ret a) (λ _, at_rest x) traced.
Proof. intros Hc. apply triple_ret. intros t Ht. by exists s. Qed.

Lemma run_settle_observed x resume_state completed p observed : first_phase = Awaiting p →
  triple (on_world (St [] (start, first_phase) (start, Looked p observed) x))
    (settle_observed sv cancelled resume_state start completed p observed) (λ _, at_rest x) traced.
Proof.
  intros Hph. unfold settle_observed.
  eapply triple_bind; [apply quiet_lift; intros c t; apply traced_St|]. intros known. apply triple_given. intros Hk.
  destruct known; [|by apply (ret_at_rest (start, Looked p observed))]. rewrite Hprogress.
  eapply (triple_bind _ _ _ (λ _, on_world (St [] (start, first_phase) (start, Settled p) x)));
    [|intros []; by apply (ret_at_rest (start, Settled p))].
  eapply triple_bind; [apply quiet_lift; intros c t; apply traced_St|]. intros state. apply triple_given. intros _.
  eapply triple_weaken; [apply (run_report sv cancelled progress Hprogress [] (start, first_phase) (start, Looked p observed) (start, Settled p));
    [by constructor|done]|done|done|].
  intros c t (s & Ht & _). exists [], s. split; [by left|done].
Qed.

Lemma run_exhausted x resume_state completed :
  triple (on_world (fresh x)) (exhausted sv cancelled resume_state start pending completed) final traced.
Proof.
  pose proof first_calm as Hcalm. unfold exhausted.
  eapply (triple_bind _ _ _ (λ _, at_rest x)); [|intros p; apply triple_ret; intros t; apply at_rest_final].
  eapply (triple_weaken _ (on_world (St [] (start, first_phase) (start, first_phase) x)) _ _ (λ _, at_rest x) _ traced);
    [|intros t; apply fresh_St|done|done].
  assert (first_phase = match pending with Some p => Awaiting p | None => Idle end) as Hph by done.
  destruct pending as [p|]; [|by apply (ret_at_rest (start, first_phase))].
  destruct (String.eqb p EmptyString); [by apply (ret_at_rest (start, first_phase))|].
  eapply (triple_bind _ _ _ (λ o t, on_world (St [] (start, first_phase) (start, Looked p o) x) t ∨
    o = [] ∧ on_world (St [] (start, first_phase) (start, first_phase) x) t)).
  { rewrite Hph. eapply triple_catch; [apply run_look_up_raw| |intros t Ht; eapply traced_St; rewrite Hph; exact Ht].
    intros c e. apply triple_ret. intros t Ht. by right. }
  intros o t [Ht|[-> Ht]]; [by apply run_settle_observed|]. cbn. exists (start, first_phase). by split.
Qed.

Lemma run_deadline x resume_state :
  triple (on_world (fresh x)) (under_deadline sv (execute_body sv cancelled wi resume_state start pending)) final failing.
Proof.
  eapply triple_catch_cancel; [apply run_body| |done].
  eapply (triple_bind _ _ _ (λ _, failing None)); [by apply triple_gets|]. intros n. apply quiet_if; [apply triple_raise|by intros t Ht].
  intros t (ids & Hv & s & Ht & Hc). exists ids. split; [done|]. by exists s.
Qed.

Lemma run_execute resume_state deadline assignment_deadline completed start_time now :
  triple (on_world (fresh (mkContext completed None None false)))
    (workflow_execute sv cancelled wi resume_state start deadline assignment_deadline pending completed start_time now) final traced.
Proof.
  unfold workflow_execute. apply quiet_if; [apply run_exhausted|].
  eapply (triple_bind _ _ _ (λ _, on_world (fresh (mkContext completed None None false)))).
  { apply triple_modify. by intros n w [? ?]. }
  intros []. eapply triple_catch; [apply run_deadline| |].
  - assert (∀ c t, failing c t → traced c t) as Htr by (intros c t (ids & Hv & s & Ht & _); by exists ids, s).
    intros c e. destruct c; try apply Htr.
    + (* SchemaValidationError *) eapply (triple_bind _ _ _ (λ _, failing (Some SchemaValidationError))); [by apply triple_gets|].
      intros y. apply triple_ret. intros t (ids & Hv & s & Ht & Hc). exists ids. split; [done|]. by exists s.
    + eapply (triple_bind _ _ _ (λ _, failing (Some InvalidToolSchemaError))); [by apply triple_gets|].
      intros y. apply triple_ret. intros t (ids & Hv & s & Ht & Hc). exists ids. split; [done|]. by exists s.
    + eapply (triple_bind _ _ _ (λ y t, failing (Some PyTimeoutError) t ∧ ww_context (th_world t) = y)); [by apply triple_gets|].
      intros y. apply triple_ret. intros t [(ids & Hv & s & Ht & Hc) Hy]. exists ids. split; [done|]. exists s. split; [done|].
      cbn. rewrite Hy in Hc. destruct (wx_write_in_flight y); [done|]. intros _. by apply Hc.
  - intros t (ids & Hv & s & Ht & _). by exists ids, s.
Qed.
End whole.

Lemma trace_last ids s l e s' : write_trace ids s (l ++ [e]) s' → ∃ s1, write_trace ids s l s1 ∧ write_step ids s1 e s'.
Proof.
  intros Ht. inversion Ht as [E|l1 s1 e1 s2 Ht' Hs E]; [by destruct l|].
  apply app_inj_tail in E as [-> ->]. by exists s1.
Qed.

Lemma trace_app ids s l1 l2 s' : write_trace ids s (l1 ++ l2) s' → ∃ s1, write_trace ids s l1 s1 ∧ write_trace ids s1 l2 s'.
Proof.
  revert s'. induction l2 as [|e l2 IH] using rev_ind; intros s' Ht.
  { rewrite app_nil_r in Ht. exists s'. split; [done|constructor]. }
  rewrite app_assoc in Ht. apply trace_last in Ht as (s1 & Ht & Hs).
  destruct (IH _ Ht) as (s2 & H1 & H2). exists s2. split; [done|]. by eapply trace_snoc.
Qed.

(** A write is dispatched right after its announcement. *)
Lemma announced_first ids s l1 c l2 s' : match s.2 with Announced _ => False | _ => True end →
  write_trace ids s (l1 ++ EDispatch c :: l2) s' → is_write c = true →
  ∃ l p, l1 = l ++ [EProgress p] ∧ wp_pending_invocation_id p = Some (tl_tool_invocation_id c).
Proof.
  intros Hs0 Ht Hw. replace (l1 ++ EDispatch c :: l2) with ((l1 ++ [EDispatch c]) ++ l2) in Ht by by rewrite <- app_assoc.
  apply trace_app in Ht as (s2 & Ht & _). apply trace_last in Ht as (s1 & Ht & Hs).
  assert (∃ n, s1.2 = Announced n ∧ tl_tool_invocation_id c = n) as (n & En & Ec) by (inversion Hs; subst; [by eexists|congruence]).
  destruct l1 as [|e l _] using rev_ind; [inversion Ht as [E|l0 ? ? ? ? ? E]; [by subst; rewrite En in Hs0|by destruct l0]|].
  apply trace_last in Ht as (s0 & _ & Hlast). exists l. inversion Hlast; subst; cbn in En; simplify_eq. by eexists.
Qed.

(** C13. The executor implements the protocol of writes: whatever the client answers and
    wherever the run is cancelled or the deadline passes, the effects of an execution are
    a run of [write_step], from an open write of an earlier run or from none; and when the
    execution returns a status other than [unknown], every write it dispatched has a known
    outcome (success, a known effect, or a request for approval). *)
Theorem execution_follows_protocol `{Pydantic} sv cancelled progress wi resume_state start deadline assignment_deadline
    pending completed start_time now :
  sv_progress sv = Some progress →
  (∀ n call c m, sv_execute sv n call = Raise c m → c ≠ SchemaValidationError ∧ c ≠ InvalidToolSchemaError) →
  resumes_pending sv wi start pending →
  ∃ ids s, valid_ids sv wi ids ∧
    write_trace ids (start, first_phase pending) (ww_effects (th_world
      (workflow_run sv cancelled wi resume_state start deadline assignment_deadline pending completed start_time now).1)) s ∧
    ∀ r, (workflow_run sv cancelled wi resume_state start deadline assignment_deadline pending completed start_time now).2 = Ret r →
      we_status r ≠ "unknown" → calm s.2.
Proof.
  intros Hprogress Hclient Hpend.
  pose proof (run_execute sv cancelled progress Hprogress Hclient wi start pending Hpend resume_state deadline assignment_deadline
    completed start_time now (mkThread 0 (mkWorkflowWorld (mkContext completed None None false) [])) (conj eq_refl eq_refl)) as Hrun.
  unfold workflow_run. destruct (workflow_execute _ _ _ _ _ _ _ _ _ _ _ _) as [t [r|c m|]]; cbn [fst snd].
  - destruct Hrun as (ids & Hv & s & Ht & Hc). exists ids, s. split_and!; [done..|]. by intros r' [= <-].
  - destruct Hrun as (ids & s & Hv & Ht). by exists ids, s.
  - destruct Hrun as (ids & s & Hv & Ht). by exists ids, s.
Qed.

(** C14. Writes are dispatched at most once and never blindly: when the steps of the served
    document have distinct invocation ids, no write is dispatched twice in an execution, a
    write of an earlier run whose outcome is unknown is not dispatched again, and every
    write is dispatched right after the progress callback has recorded it as pending. *)
Theorem writes_dispatched_once `{Pydantic} sv cancelled progress wi resume_state start deadline assignment_deadline
    pending completed start_time now :
  sv_progress sv = Some progress →
  (∀ n call c m, sv_execute sv n call = Raise c m → c ≠ SchemaValidationError ∧ c ≠ InvalidToolSchemaError) →
  resumes_pending sv wi start pending →
  (∀ resolved document, sb_resolved_workflow (sa_binding (wi_activation wi)) = Some resolved →
    served sv resolved document → NoDup (step_ids wi resolved document)) → 0 <= start →
  let effects := ww_effects (th_world
    (workflow_run sv cancelled wi resume_state start deadline assignment_deadline pending completed start_time now).1) in
  NoDup (dispatched effects) ∧ (∀ p, pending = Some p → p ∉ dispatched effects) ∧
  ∀ l1 c l2, effects = l1 ++ EDispatch c :: l2 → is_write c = true →
    ∃ l p, l1 = l ++ [EProgress p] ∧ wp_pending_invocation_id p = Some (tl_tool_invocation_id c).
Proof.
  intros Hprogress Hclient Hpend Hdistinct H0 effects.
  pose proof (run_execute sv cancelled progress Hprogress Hclient wi start pending Hpend resume_state deadline assignment_deadline
    completed start_time now (mkThread 0 (mkWorkflowWorld (mkContext completed None None false) [])) (conj eq_refl eq_refl)) as Hrun.
  assert (∃ ids s, valid_ids sv wi ids ∧ write_trace ids (start, first_phase pending) effects s) as (ids & s & Hv & Ht).
  { unfold effects, workflow_run. destruct (workflow_execute _ _ _ _ _ _ _ _ _ _ _ _) as [t [r|c m|]]; cbn [fst].
    - destruct Hrun as (ids & Hv & s & Ht & _). by exists ids, s.
    - done.
    - done. }
  assert (match (start, first_phase pending).2 with Announced _ => False | _ => True end) as Hs0 by (unfold first_phase; by destruct pending).
  assert (NoDup ids) as Hnd by (destruct Hv as [->|(resolved & document & H1 & H2 & ->)]; [constructor|eauto]).
  destruct (dispatched_once _ _ _ _ Hnd Hs0 Ht) as [H1 H2]. split_and!; [done| |].
  - intros p Hp. destruct Hv as [->|(resolved & document & Hr & Hserved & ->)].
    + destruct (dispatch_inv_trace _ _ _ _ Hs0 Ht) as (ks & Hf & _). intros Hin.
      apply list_elem_of_lookup in Hin as [i Hi]. destruct (Forall2_lookup_r _ _ _ _ _ Hf Hi) as (k & _ & Hk). by rewrite lookup_nil in Hk.
    + apply H2; [by subst|done|]. destruct (Hpend p resolved document Hp Hr Hserved) as (st & Hst & _ & <-).
      unfold step_ids. change (map ?f ?l) with (f <$> l). cbn [fst]. by rewrite list_lookup_fmap, Hst.
  - intros l1 c l2 E Hw. rewrite E in Ht. by eapply announced_first.
Qed.

Module WorkflowExecutorExamples.
Import SkillWorkflowExamples.
#[local] Existing Instance plain_pydantic.

Definition the_artifact : ArtifactRef := mkArtifactRef (JStr "art-1") (JStr "1") (JStr "sha256:0") (JStr "application/zip") (JInt 1).
Definition report_resolved : ResolvedSkillWorkflow :=
  mkResolvedWorkflow WORKFLOW_API_VERSION "scripts/main.workflow.json" (cw_digest compiled_report) ["references/rates.json"].
Definition report_binding : SkillBinding :=
  mkBinding "report" "1.0.0" "acme" "sha256:1" the_artifact
    [mkResolvedTool "cap-find" "crm.find" "1" "sha256:2" "read"; mkResolvedTool "cap-send" "mail.send" "1" "sha256:3" "external"]
    [] [] (Some report_resolved) "p1" None 20 300.
Definition report_input : WorkflowInput :=
  mkInput (mkActivation "act-1" "key-1" report_binding "sha256:4") [("name", JStr "ada")] [] None None.

Definition text_part (v : json) : list json := [JObj [("text", JStr (json_plain v))]].
Definition load_report (path : string) : list json :=
  if String.eqb path "scripts/main.workflow.json" then text_part (report_document "$state.customer.mail")
  else text_part (JObj [("daily", JInt 2)]).

(** A gateway: the customer is found, the mail is sent as [send] says, and [status] is
    what it says of an earlier invocation. *)
Definition report_services (send status : payload) : WorkflowServices :=
  mkWorkflowServices (λ _ path, Ok (load_report path)) (Some (λ _ _, Ok status))
    (λ _ call, Ok (if String.eqb (tl_expected_side_effect call) "read"
                   then [("status", JStr "success"); ("content", JObj [("mail", JStr "a@b.c")])] else send))
    (λ _ _, ReadError "unused") None (Some (λ _ _, Ok tt)) (λ _, false).

Definition sent_result : payload := [("status", JStr "success"); ("content", JObj [("id", JStr "m-1")])].
Definition unstarted_result : payload :=
  [("status", JStr "timeout"); ("error_code", JStr "deadline_exceeded"); ("side_effect_status", JStr "not_started")].
Definition run_report (send status : payload) (start : Z) (pending : option string) :=
  workflow_run (report_services send status) (λ _, false) report_input
    (if start =? 0 then [] else report_state) start None None pending [] 0 0.

Definition find_id : string := invocation_id "act-1" (cw_digest compiled_report) "find".
Definition send_id : string := invocation_id "act-1" (cw_digest compiled_report) "send".

(** The workflow from its start. *)
Example report_runs : let r := run_report sent_result [] 0 None in
  dispatched (ww_effects (th_world r.1)) = [send_id] ∧
  ∃ e, r.2 = Ret e ∧ we_status e = "completed" ∧ we_output e = [("id", JStr "m-1")] ∧ we_completed_steps e = ["find"; "send"].
Proof. split; [vm_compute; done|]. eexists. split; [vm_compute; reflexivity|done]. Qed.

(** A write whose outcome an earlier run left unknown is not dispatched again. *)
Example report_resumes : let r := run_report sent_result [("status", JStr "unknown")] 1 (Some send_id) in
  dispatched (ww_effects (th_world r.1)) = [] ∧ ∃ e, r.2 = Ret e ∧ we_status e = "unknown" ∧ we_pending_invocation_id e = Some send_id.
Proof. split; [vm_compute; done|]. eexists. split; [vm_compute; reflexivity|vm_compute; done]. Qed.

(** A write that the gateway refused before it started ends the workflow, but is never
    settled: its invocation stays announced. *)
Example timeout_unsettled : let r := run_report unstarted_result [] 0 None in
  (∃ e, r.2 = Ret e ∧ we_status e = "failed" ∧ we_pending_invocation_id e = Some send_id) ∧
  existsb (λ e, match e with EProgress p => bool_decide (wp_settled_invocation_id p = Some send_id) | _ => false end)
    (ww_effects (th_world r.1)) = false.
Proof. split; [eexists; split; [vm_compute; reflexivity|vm_compute; done]|vm_compute; done]. Qed.

(** With a stale tool a pending write is dropped without a lookup. *)
Definition stale_input : WorkflowInput :=
  mkInput (mkActivation "act-1" "key-1" report_binding "sha256:4") [("name", JStr "ada")]
    [("cap-send", JObj [("invocation_ref", JObj [("capability_id", JStr "other")])])] None None.
Example stale_forgets_pending :
  (workflow_run (report_services sent_result [("status", JStr "unknown")]) (λ _, false) stale_input report_state 1 None None
     (Some send_id) [] 0 0).2 = Ret (ended_with "failed" ["find"] (Some "stale_capability")).
Proof. vm_compute. done. Qed.

Lemma Ok_injective {A} (a b : A) : Ok a = Ok b → a = b.
Proof. by intros [= ->]. Qed.

(** What the services serve is the compiled document. *)
Lemma report_served send status resolved document :
  sb_resolved_workflow (sa_binding (wi_activation report_input)) = Some resolved →
  served (report_services send status) resolved document → resolved = report_resolved ∧ document = cw_document compiled_report.
Proof.
  intros [= <-] (n & parts & text & v & [= <-] & Htext & Hv & Hd & _). split; [done|].
  assert (single_text (load_report "scripts/main.workflow.json") "Skill workflow" = Ok (json_plain (report_document "$state.customer.mail"))) as E
    by (vm_compute; reflexivity).
  cbn [rw_entrypoint report_resolved] in Htext. rewrite E in Htext. injection Htext as <-.
  assert ((match pydantic_read (json_plain (report_document "$state.customer.mail")) with Some v => SkillWorkflow_validate v | None => Raise PyValidationError EmptyString end)
    = Ok (cw_document compiled_report)) as E2 by (vm_compute; reflexivity).
  rewrite Hv, Hd in E2. exact (Ok_injective _ _ E2).
Qed.
Lemma report_client send status n call c m : sv_execute (report_services send status) n call = Raise c m →
  c ≠ SchemaValidationError ∧ c ≠ InvalidToolSchemaError.
Proof. done. Qed.
Lemma second_step : (λ s, (ws_operation s, ws_id s)) <$> sw_steps (cw_document compiled_report) !! 1%nat = Some (ToolCallOperation, "send").
Proof. vm_compute. reflexivity. Qed.
Lemma report_resumes_pending send status : resumes_pending (report_services send status) report_input 1 (Some send_id).
Proof.
  intros p resolved document [= <-] Hr Hs. destruct (report_served _ _ _ _ Hr Hs) as [-> ->].
  pose proof second_step as E. apply fmap_Some in E as (s & Hs1 & [= Hop Hid]). exists s. split_and!; [exact Hs1|done|].
  unfold send_id. by rewrite <- Hid.
Qed.
Lemma report_ids_distinct send status resolved document :
  sb_resolved_workflow (sa_binding (wi_activation report_input)) = Some resolved →
  served (report_services send status) resolved document → NoDup (step_ids report_input resolved document).
Proof.
  intros Hr Hs. destruct (report_served _ _ _ _ Hr Hs) as [-> ->].
  assert (bool_decide (NoDup (step_ids report_input report_resolved (cw_document compiled_report))) = true) as E by (vm_compute; reflexivity).
  by apply bool_decide_eq_true in E.
Qed.

Lemma execution_follows_protocol_witness :
  let run := run_report sent_result [("status", JStr "unknown")] 1 (Some send_id) in
  ∃ ids s, valid_ids (report_services sent_result [("status", JStr "unknown")]) report_input ids ∧
    write_trace ids (1, first_phase (Some send_id)) (ww_effects (th_world run.1)) s ∧
    ∀ r, run.2 = Ret r → we_status r ≠ "unknown" → calm s.2.
Proof.
  apply (execution_follows_protocol (report_services sent_result [("status", JStr "unknown")]) (λ _, false) (λ _ _, Ok tt)
    report_input report_state 1 None None (Some send_id) [] 0 0).
  - done.
  - apply report_client.
  - apply report_resumes_pending.
Defined.

Lemma writes_dispatched_once_witness :
  let effects := ww_effects (th_world (run_report sent_result [("status", JStr "unknown")] 1 (Some send_id)).1) in
  NoDup (dispatched effects) ∧ (∀ p, Some send_id = Some p → p ∉ dispatched effects) ∧
  ∀ l1 c l2, effects = l1 ++ EDispatch c :: l2 → is_write c = true →
    ∃ l p, l1 = l ++ [EProgress p] ∧ wp_pending_invocation_id p = Some (tl_tool_invocation_id c).
Proof.
  apply (writes_dispatched_once (report_services sent_result [("status", JStr "unknown")]) (λ _, false) (λ _ _, Ok tt)
    report_input report_state 1 None None (Some send_id) [] 0 0).
  - done.
  - apply report_client.
  - apply report_resumes_pending.
  - apply report_ids_distinct.
  - done.
Defined.
End WorkflowExecutorExamples.
