(* ===== verification/SkillLifecycle.v ===== *)
(** * The Skill lifecycle store ([action/skill_lifecycle.py])

    [InMemorySkillLifecycleStore] keeps packages, publications, installations and
    upgrades of Skills by tenant.  Publishing is a command with an idempotency key: it
    changes the package, the publication and the installation together or not at all, may
    supersede the older versions, and announces itself through an outbox.  A superseded
    package is erased by the holder of the claim on the upgrade.

    Every method runs under the lock of the store or without suspension, so that it is a
    function of the state.  Its result comes with the state it leaves, also when it raises.
    Clock readings and [uuid4] are arguments. *)

From Stdlib Require Import Ascii OrderedTypeEx.
From S2P Require Import Prelude PyValue Contracts InvocationStore SkillContracts.
Local Open Scope Z_scope.

(** ** Data *)

Notation PackageKey := (string * string * string * string)%type.
Notation InstallationKey := (string * string * string)%type.
Notation CommandKey := (string * string)%type.

Record SkillPublishCommit := mkPublishCommit {
  pc_command_id : string;
  pc_request_digest : string;
  pc_actor_id : string;
  pc_correlation_id : string;
  pc_causation_id : string;
  pc_expected_publication_revision : Z;
  pc_package : SkillPackageRecord;
  pc_publication : SkillPublicationRecord;
  pc_installation : option SkillInstallationRecord;
  pc_occurred_at : Z;
  pc_replace_purged : bool;
  pc_upgrade : option SkillUpgradeState;
  pc_expected_installation_revision : option Z;
}.

Record SkillRestoreCommit := mkRestoreCommit {
  rc_command_id : string;
  rc_request_digest : string;
  rc_actor_id : string;
  rc_reason_code : string;
  rc_correlation_id : string;
  rc_causation_id : string;
  rc_expected_revision : Z;
  rc_publication : SkillPublicationRecord;
  rc_occurred_at : Z;
}.

Record SkillInstallationCommit := mkInstallationCommit {
  ic_command_id : string;
  ic_request_digest : string;
  ic_operation : string;
  ic_force_uninstall : bool;
  ic_actor_id : string;
  ic_correlation_id : string;
  ic_causation_id : string;
  ic_reason_code : option string;
  ic_expected_revision : Z;
  ic_installation : SkillInstallationRecord;
  ic_occurred_at : Z;
}.

Record SkillAdmissionAuditRecord := mkAdmission {
  ad_admission_id : string;
  ad_tenant_id : string;
  ad_command_id : string;
  ad_operation : string;
  ad_actor_id : string;
  ad_correlation_id : string;
  ad_causation_id : string;
  ad_publisher : option string;
  ad_name : option string;
  ad_version : option string;
  ad_package_digest : option string;
  ad_artifact_id : option string;
  ad_outcome : string;
  ad_stage : string;
  ad_safe_error_code : option string;
  ad_duration_ms : Z;
  ad_occurred_at : Z;
  ad_content_policy_version : string;
}.

Record SkillPublishCommitResult := mkCommitResult {
  cr_package : SkillPackageRecord;
  cr_publication : SkillPublicationRecord;
  cr_installation : option SkillInstallationRecord;
  cr_replayed : bool;
}.

Record SkillOutboxRecord := mkSkillOutbox {
  so_outbox_id : string;
  so_tenant_id : string;
  so_command_id : string;
  so_event_type : string;
  so_payload : payload;
  so_attempt : Z;
}.

(** The fields of the store, in the order of the class. *)
Record LifecycleStore := mkLifecycle {
  ls_admission_audits : list SkillAdmissionAuditRecord;
  ls_upgrades : list (InstallationKey * SkillUpgradeState);
  ls_upgrade_claims : list (InstallationKey * (string * Z * Z));
  ls_packages : list (PackageKey * SkillPackageRecord);
  ls_package_tombstones : list SkillPackageRecord;
  ls_publications : list (PackageKey * SkillPublicationRecord);
  ls_installations : list (InstallationKey * SkillInstallationRecord);
  ls_restore_commands : list (CommandKey * string);
  ls_installation_commands : list (CommandKey * (string * InstallationKey));
  ls_commands : list (CommandKey * (string * option SkillPublishCommitResult));
  ls_outbox : list (string * SkillOutboxRecord);
  ls_claimed_outbox : list (string * string);
}.
#[global] Instance LifecycleStore_eta : Eta LifecycleStore := λ s,
  mkLifecycle (ls_admission_audits s) (ls_upgrades s) (ls_upgrade_claims s) (ls_packages s) (ls_package_tombstones s)
    (ls_publications s) (ls_installations s) (ls_restore_commands s) (ls_installation_commands s) (ls_commands s)
    (ls_outbox s) (ls_claimed_outbox s).

Definition empty_lifecycle : LifecycleStore := mkLifecycle [] [] [] [] [] [] [] [] [] [] [] [].

(** ** Keys *)

Definition package_key (p : SkillPackageRecord) : PackageKey :=
  (pk_tenant_id p, sm_publisher (pk_manifest p), sm_name (pk_manifest p), sm_version (pk_manifest p)).
Definition publication_key (r : SkillPublicationRecord) : PackageKey :=
  (pb_tenant_id r, pb_publisher r, pb_name r, pb_version r).
Definition installation_key (r : SkillInstallationRecord) : InstallationKey :=
  (il_tenant_id r, il_publisher r, il_name r).
Definition upgrade_key (u : SkillUpgradeState) : InstallationKey := (ug_tenant_id u, ug_publisher u, ug_name u).

(** ** [skill_version_key] and the order of its tuples *)

(** [(0, int(part))] or [(1, part)]. *)
Inductive PreKey := PreNum (n : Z) | PreText (s : string).
(** An element of the outer tuple; the flag [not bool(prerelease)] is an integer. *)
Inductive KeyItem := KInt (n : Z) | KParts (l : list PreKey).

Definition all_digits (s : string) : bool := negb (String.eqb s EmptyString) && all_chars is_digit s.

Definition pre_key (part : string) : res PreKey :=
  if all_digits part then PreNum <$> int_of_string part else Ok (PreText part).
Definition skill_version_key (version : string) : res (list KeyItem) :=
  let '(core, pre) := partition_dash version in
  let pre := default EmptyString pre in
  numbers ← mapR int_of_string (split_on "." core);
  parts ← mapR pre_key (List.filter (λ p, negb (String.eqb p EmptyString)) (split_on "." pre));
  Ok (map KInt numbers ++ [KInt (if String.eqb pre EmptyString then 1 else 0); KParts parts]).

(** Tuples compare by their first difference. *)
Fixpoint tuple_compare {A} (cmp : A → A → res comparison) (l k : list A) : res comparison :=
  match l, k with
  | [], [] => Ok Eq
  | [], _ => Ok Lt
  | _, [] => Ok Gt
  | a :: l, b :: k =>
      c ← cmp a b;
      match c with Eq => tuple_compare cmp l k | _ => Ok c end
  end.
Definition pre_compare (a b : PreKey) : comparison :=
  match a, b with
  | PreNum n, PreNum m => (n ?= m)
  | PreNum _, PreText _ => Lt
  | PreText _, PreNum _ => Gt
  | PreText s, PreText t => String.compare s t
  end.
(** An integer and a tuple are different, and not ordered. *)
Definition item_compare (a b : KeyItem) : res comparison :=
  match a, b with
  | KInt n, KInt m => Ok (n ?= m)
  | KParts l, KParts k => tuple_compare (λ x y, Ok (pre_compare x y)) l k
  | _, _ => Raise PyTypeError "'<' not supported between instances of 'int' and 'tuple'"
  end.
Definition version_compare (v w : string) : res comparison :=
  a ← skill_version_key v;
  b ← skill_version_key w;
  tuple_compare item_compare a b.
Definition version_gt (v w : string) : res bool := (λ c, match c with Gt => true | _ => false end) <$> version_compare v w.
Definition version_le (v w : string) : res bool := negb <$> version_gt v w.

(** ** Packages, publications, installations *)

Notation lifecycle A := (LifecycleStore → LifecycleStore * res A).
Definition bind_store {A B} (m : lifecycle A) (k : A → lifecycle B) : lifecycle B := λ s,
  match m s with (s, Ok a) => k a s | (s, Raise e x) => (s, Raise e x) end.
Notation "x <-- m ;; k" := (bind_store m (λ x, k)) (at level 100, m at next level, right associativity).

Notation conflict m := (Raise VersionConflictError m%string).

Definition same_digest_package (p : SkillPackageRecord) (l : list SkillPackageRecord) : option SkillPackageRecord :=
  List.find (λ q, String.eqb (pk_tenant_id q) (pk_tenant_id p) && String.eqb (pk_package_digest q) (pk_package_digest p)) l.

Definition put_package (p : SkillPackageRecord) : lifecycle SkillPackageRecord := λ s,
  match dget (package_key p) (ls_packages s) with
  | Some e =>
      if negb (String.eqb (pk_package_digest e) (pk_package_digest p)) then (s, conflict "Skill version is immutable") else (s, Ok e)
  | None =>
      if match same_digest_package p (dvalues (ls_packages s)) with
         | Some o => negb (bool_decide (package_key o = package_key p))
         | None => false
         end then (s, conflict "Skill package digest belongs to another version") else
      (s <| ls_packages := dset (package_key p) p (ls_packages s) |>, Ok p)
  end.

Definition update_package_retention (p : SkillPackageRecord) (expected_revision : Z) : lifecycle SkillPackageRecord := λ s,
  match dget (package_key p) (ls_packages s) with
  | None => (s, Raise NotFoundError "Skill package was not found")
  | Some e =>
      if negb (String.eqb (pk_package_digest e) (pk_package_digest p)) then (s, conflict "Skill version is immutable") else
      if negb (pk_retention_revision e =? expected_revision) then (s, conflict "Skill package retention revision conflict") else
      if negb (pk_retention_revision p =? expected_revision + 1)
      then (s, conflict "Skill package retention next revision is invalid") else
      (s <| ls_packages := dset (package_key p) p (ls_packages s) |>, Ok p)
  end.

(** [_validate_revision] *)
Definition validate_revision (existing : option Z) (revision expected_revision : Z) (label : string) : res unit :=
  if negb (default 0 existing =? expected_revision) then conflict ("Skill " +:+ label +:+ " revision conflict") else
  if negb (revision =? expected_revision + 1) then conflict ("Skill " +:+ label +:+ " next revision is invalid") else Ok tt.

Definition check_publication (r : SkillPublicationRecord) (expected_revision : Z) (s : LifecycleStore) : res unit :=
  let existing := dget (publication_key r) (ls_publications s) in
  _ ← validate_revision (pb_revision <$> existing) (pb_revision r) expected_revision "publication";
  if match existing with Some e => negb (String.eqb (pb_publication_id e) (pb_publication_id r)) | None => false end
  then conflict "Skill publication identity is immutable" else
  match dget (publication_key r) (ls_packages s) with
  | None => Raise NotFoundError "Skill package was not found"
  | Some p =>
      if negb (String.eqb (pk_package_digest p) (pb_package_digest r)) then conflict "Skill publication package digest mismatch" else
      if match existing with Some e => negb (String.eqb (pb_package_digest e) (pb_package_digest r)) | None => false end
      then conflict "Published Skill version is immutable" else Ok tt
  end.
Definition put_publication (r : SkillPublicationRecord) (expected_revision : Z) : lifecycle SkillPublicationRecord := λ s,
  match check_publication r expected_revision s with
  | Raise e m => (s, Raise e m)
  | Ok _ => (s <| ls_publications := dset (publication_key r) r (ls_publications s) |>, Ok r)
  end.

Definition check_installation (r : SkillInstallationRecord) (expected_revision : Z) (s : LifecycleStore) : res unit :=
  let existing := dget (installation_key r) (ls_installations s) in
  _ ← validate_revision (il_revision <$> existing) (il_revision r) expected_revision "installation";
  if match existing with Some e => negb (String.eqb (il_installation_id e) (il_installation_id r)) | None => false end
  then conflict "Skill installation identity is immutable" else Ok tt.
Definition put_installation (r : SkillInstallationRecord) (expected_revision : Z) : lifecycle SkillInstallationRecord := λ s,
  match check_installation r expected_revision s with
  | Raise e m => (s, Raise e m)
  | Ok _ => (s <| ls_installations := dset (installation_key r) r (ls_installations s) |>, Ok r)
  end.

Definition commit_installation_change (c : SkillInstallationCommit) : lifecycle SkillInstallationRecord := λ s,
  let command_key := (il_tenant_id (ic_installation c), ic_command_id c) in
  match dget command_key (ls_installation_commands s) with
  | Some (digest, key) =>
      if negb (String.eqb digest (ic_request_digest c)) then (s, conflict "Skill installation command id was reused") else
      match dget key (ls_installations s) with
      | Some current => (s, Ok current)
      | None => (s, conflict "Skill installation command result is incomplete")
      end
  | None =>
      (result <-- put_installation (ic_installation c) (ic_expected_revision c);;
       λ s, (s <| ls_installation_commands :=
                 dset command_key (ic_request_digest c, installation_key result) (ls_installation_commands s) |>, Ok result)) s
  end.

Definition check_restore (c : SkillRestoreCommit) (current : SkillPublicationRecord) : res unit :=
  let updated := rc_publication c in
  if negb (pb_revision current =? rc_expected_revision c) then conflict "Skill publication revision conflict" else
  if negb (bool_decide (pb_status current = PRetired)) then conflict "Skill publication is not retired" else
  if negb (bool_decide (pb_status updated = PRestoring)) || negb (pb_revision updated =? pb_revision current + 1)
     || negb (String.eqb (pb_package_digest updated) (pb_package_digest current))
     || negb (String.eqb (pb_publication_id updated) (pb_publication_id current))
  then conflict "Skill restore transition is invalid" else Ok tt.
Definition commit_restore (c : SkillRestoreCommit) : lifecycle SkillPublicationRecord := λ s,
  let command_key := (pb_tenant_id (rc_publication c), rc_command_id c) in
  let key := publication_key (rc_publication c) in
  match dget command_key (ls_restore_commands s) with
  | Some digest =>
      if negb (String.eqb digest (rc_request_digest c)) then (s, conflict "Skill restore command id was reused") else
      match dget key (ls_publications s) with
      | Some current => (s, Ok current)
      | None => (s, conflict "Skill restore command result is incomplete")
      end
  | None =>
      match dget key (ls_publications s) with
      | None => (s, Raise NotFoundError "Skill publication was not found")
      | Some current =>
          match check_restore c current with
          | Raise e m => (s, Raise e m)
          | Ok _ =>
              (s <| ls_publications := dset key (rc_publication c) (ls_publications s) |>
                 <| ls_restore_commands := dset command_key (rc_request_digest c) (ls_restore_commands s) |>, Ok (rc_publication c))
          end
      end
  end.

(** ** Publishing *)

Definition same_skill (r : SkillPublicationRecord) (tenant publisher name : string) : bool :=
  bool_decide ((pb_tenant_id r, pb_publisher r, pb_name r) = (tenant, publisher, name)).

Definition not_above (c : SkillPublishCommit) (current : SkillPublicationRecord) : res unit :=
  let target := pc_package c in
  if negb (same_skill current (pk_tenant_id target) (sm_publisher (pk_manifest target)) (sm_name (pk_manifest target))) then Ok tt else
  if bool_decide (pb_status current = PStaged) then Ok tt else
  above ← version_gt (pb_version current) (sm_version (pk_manifest target));
  if (above : bool) then conflict "Skill upgrade cannot downgrade the current version" else Ok tt.

Definition validate_upgrade (c : SkillPublishCommit) (publications : list SkillPublicationRecord)
    (installation : option SkillInstallationRecord) : res unit :=
  match installation with
  | None => conflict "Skill installation revision conflict"
  | Some i =>
      if negb (bool_decide (Some (il_revision i) = pc_expected_installation_revision c))
      then conflict "Skill installation revision conflict" else
      match pc_installation c with
      | None => conflict "Skill installation next revision is invalid"
      | Some n =>
          if negb (il_revision n =? il_revision i + 1) then conflict "Skill installation next revision is invalid" else
          _ ← mapR (not_above c) publications; Ok tt
      end
  end.

Definition superseded_publication (old : SkillPublicationRecord) (c : SkillPublishCommit) : SkillPublicationRecord :=
  old <| pb_status := PRevoked |> <| pb_revocation_action := Some RContinue |>
      <| pb_revocation_policy_version := Some "skill-upgrade-v1" |> <| pb_reason_code := Some "skill_version_replaced" |>
      <| pb_revision := pb_revision old + 1 |> <| pb_updated_by := pc_actor_id c |> <| pb_updated_at := pc_occurred_at c |>.

(** The condition of [_replace_purged]. *)
Definition replace_ready (c : SkillPublishCommit) (n : SkillInstallationRecord) (p : SkillPackageRecord)
    (r : SkillPublicationRecord) (i : SkillInstallationRecord) : bool :=
  bool_decide (pk_retention_status (pc_package c) = KRetained) && bool_decide (pb_status (pc_publication c) = PActive)
  && String.eqb (pb_package_digest (pc_publication c)) (pk_package_digest (pc_package c))
  && bool_decide (il_status n = IActive)
  && bool_decide (il_pinned_package_digest n = Some (pk_package_digest (pc_package c)))
  && bool_decide (pk_retention_status p = KPurged) && negb (pk_legal_hold p)
  && bool_decide (pb_status r = PRevoked) && (pb_revision r =? pc_expected_publication_revision c)
  && bool_decide (il_status i = IUninstalled)
  && bool_decide (Some (il_revision i) = pc_expected_installation_revision c).

Definition published : Type := SkillPackageRecord * SkillPublicationRecord * option SkillInstallationRecord.

Definition replace_purged (c : SkillPublishCommit) : lifecycle published := λ s,
  let key := package_key (pc_package c) in
  match pc_installation c, dget key (ls_packages s), dget key (ls_publications s), dget key.1 (ls_installations s) with
  | Some n, Some p, Some r, Some i =>
      if negb (replace_ready c n p r i) then (s, conflict "Purged Skill replacement preconditions changed") else
      if negb (pb_revision (pc_publication c) =? pb_revision r + 1)
      then (s, conflict "Skill publication next revision is invalid") else
      if negb (il_revision n =? il_revision i + 1) then (s, conflict "Skill installation next revision is invalid") else
      (s <| ls_package_tombstones := ls_package_tombstones s ++ [p] |>
         <| ls_packages := dset key (pc_package c) (ls_packages s) |>
         <| ls_publications := dset key (pc_publication c) (ls_publications s) |>
         <| ls_installations := dset key.1 n (ls_installations s) |>, Ok (pc_package c, pc_publication c, Some n))
  | _, _, _, _ => (s, conflict "Purged Skill replacement preconditions changed")
  end.

Definition publish_publication (c : SkillPublishCommit) : lifecycle SkillPublicationRecord := λ s,
  let r := pc_publication c in
  match dget (publication_key r) (ls_publications s) with
  | Some current =>
      if (pb_revision r =? pc_expected_publication_revision c) && String.eqb (pb_package_digest current) (pb_package_digest r)
         && bool_decide (pb_status current = pb_status r)
      then (s, Ok current) else put_publication r (pc_expected_publication_revision c) s
  | None => put_publication r (pc_expected_publication_revision c) s
  end.

Definition publish_installation (c : SkillPublishCommit) : lifecycle (option SkillInstallationRecord) := λ s,
  match pc_installation c with
  | None => (s, Ok None)
  | Some n =>
      match dget (installation_key n) (ls_installations s) with
      | None => (i <-- put_installation n 0;; λ s, (s, Ok (Some i))) s
      | Some current =>
          if bool_decide (is_Some (pc_upgrade c))
          then (i <-- put_installation n (default 0 (pc_expected_installation_revision c));; λ s, (s, Ok (Some i))) s else
          if negb (bool_decide (il_status current = il_status n))
             || negb (bool_decide (il_pinned_package_digest current = il_pinned_package_digest n))
          then (s, conflict "Skill installation revision conflict") else (s, Ok (Some current))
      end
  end.

(** The body of the [try] statement. *)
Definition publish_records (c : SkillPublishCommit) : lifecycle published :=
  if pc_replace_purged c then replace_purged c else
  package <-- put_package (pc_package c);;
  publication <-- publish_publication c;;
  installation <-- publish_installation c;;
  λ s, (s, Ok (package, publication, installation)).

Definition supersede (c : SkillPublishCommit) (publication : SkillPublicationRecord)
    (e : PackageKey * SkillPublicationRecord) : PackageKey * SkillPublicationRecord :=
  if bool_decide (e.1.1 = (publication_key publication).1) && negb (String.eqb (pb_version e.2) (pb_version publication))
     && bool_decide (pb_status e.2 = PActive)
  then (e.1, superseded_publication e.2 c) else e.

Definition publish_outbox_payload (r : SkillPublishCommitResult) : payload :=
  [("publisher", JStr (pb_publisher (cr_publication r))); ("name", JStr (pb_name (cr_publication r)));
   ("version", JStr (pb_version (cr_publication r))); ("package_digest", JStr (pb_package_digest (cr_publication r)));
   ("publication_status", JStr (publication_status_value (pb_status (cr_publication r))));
   ("artifact_ref", JObj (artifact_as_dict (pk_artifact_ref (cr_package r))))].

Definition publish_outbox_id (c : SkillPublishCommit) : string :=
  pk_tenant_id (pc_package c) +:+ ":" +:+ pc_command_id c +:+ ":published".

(** After the records: superseding, the result of the command, the outbox. *)
Definition finish_publish (c : SkillPublishCommit) (done : published) : lifecycle SkillPublishCommitResult := λ s,
  let '(package, publication, installation) := done in
  let s := match pc_upgrade c with
           | Some u =>
               s <| ls_publications := map (supersede c publication) (ls_publications s) |>
                 <| ls_upgrades := dset (package_key package).1 u (ls_upgrades s) |>
           | None => s
           end in
  let result := mkCommitResult package publication installation false in
  (s <| ls_commands := dset (pk_tenant_id (pc_package c), pc_command_id c) (pc_request_digest c, Some result) (ls_commands s) |>
     <| ls_outbox := dset (publish_outbox_id c)
          (mkSkillOutbox (publish_outbox_id c) (pk_tenant_id (pc_package c)) (pc_command_id c) "skill.publication.committed"
             (publish_outbox_payload result) 0) (ls_outbox s) |>, Ok result).

(** A command that was committed before. *)
Definition replay_publish (c : SkillPublishCommit) (digest : string) (result : option SkillPublishCommitResult)
    (s : LifecycleStore) : res SkillPublishCommitResult :=
  if negb (String.eqb digest (pc_request_digest c)) then conflict "Skill command id was reused" else
  match result with
  | None => conflict "Published Skill version was removed"
  | Some r =>
      Ok (mkCommitResult (cr_package r)
            (default (cr_publication r) (dget (publication_key (cr_publication r)) (ls_publications s)))
            (cr_installation r) true)
  end.

Definition commit_publish (c : SkillPublishCommit) : lifecycle SkillPublishCommitResult := λ s,
  match dget (pk_tenant_id (pc_package c), pc_command_id c) (ls_commands s) with
  | Some (digest, result) => (s, replay_publish c digest result s)
  | None =>
      match (if bool_decide (is_Some (pc_upgrade c))
             then validate_upgrade c (dvalues (ls_publications s))
                    (dget (package_key (pc_package c)).1 (ls_installations s))
             else Ok tt) with
      | Raise e m => (s, Raise e m)
      | Ok _ =>
          match publish_records c s with
          | (t, Raise e m) =>
              (t <| ls_packages := ls_packages s |> <| ls_package_tombstones := ls_package_tombstones s |>
                 <| ls_publications := ls_publications s |> <| ls_installations := ls_installations s |>, Raise e m)
          | (t, Ok done) => finish_publish c done t
          end
      end
  end.

(** ** Upgrades *)

Definition is_replaced_package (u : SkillUpgradeState) (p : SkillPackageRecord) : res bool :=
  if String.eqb (pk_tenant_id p) (ug_tenant_id u) && String.eqb (sm_publisher (pk_manifest p)) (ug_publisher u)
     && String.eqb (sm_name (pk_manifest p)) (ug_name u) && negb (String.eqb (pk_package_digest p) (ug_package_digest u))
  then version_le (sm_version (pk_manifest p)) (ug_current_version u) else Ok false.

(** The claim on an upgrade: the token, the generation, the expiry. *)
Definition live_upgrade_claim (now : Z) (o : option (string * Z * Z)) : bool := match o with Some (_, _, e) => now <? e | None => false end.

Definition claim_upgrade (u : SkillUpgradeState) (ttl now : Z) (token : string) (s : LifecycleStore)
    : LifecycleStore * option string :=
  match dget (upgrade_key u) (ls_upgrades s) with
  | None => (s, None)
  | Some current =>
      if negb (ug_generation current =? ug_generation u) || bool_decide (ug_phase current = UCompleted)
         || live_upgrade_claim now (dget (upgrade_key u) (ls_upgrade_claims s))
      then (s, None) else
      (s <| ls_upgrade_claims := dset (upgrade_key u) (token, ug_generation u, now + ttl) (ls_upgrade_claims s) |>, Some token)
  end.

(** [_owns_upgrade] *)
Definition owns_upgrade (u : SkillUpgradeState) (token : string) (now : Z) (s : LifecycleStore) : bool :=
  match dget (upgrade_key u) (ls_upgrades s), dget (upgrade_key u) (ls_upgrade_claims s) with
  | Some current, Some (t, generation, expiry) =>
      (ug_generation current =? ug_generation u) && String.eqb t token && (generation =? ug_generation u) && (now <? expiry)
  | _, _ => false
  end.

(** [now] is the reading of the ownership check, [later] the one after it. *)
Definition renew_upgrade (u : SkillUpgradeState) (token : string) (ttl now later : Z) (s : LifecycleStore) : LifecycleStore * bool :=
  if owns_upgrade u token now s
  then (s <| ls_upgrade_claims := dset (upgrade_key u) (token, ug_generation u, later + ttl) (ls_upgrade_claims s) |>, true)
  else (s, false).

Definition set_phase (phase : SkillUpgradePhase) (reason : option string) (now : Z) (u : SkillUpgradeState) : SkillUpgradeState :=
  u <| ug_phase := phase |> <| ug_reason_code := reason |> <| ug_updated_at := now |>.

Definition set_upgrade_phase (u : SkillUpgradeState) (token : string) (phase : SkillUpgradePhase) (reason : option string)
    (now later : Z) (s : LifecycleStore) : LifecycleStore * bool :=
  match dget (upgrade_key u) (ls_upgrades s) with
  | Some current =>
      if owns_upgrade u token now s then
        let s := s <| ls_upgrades := dset (upgrade_key u) (set_phase phase reason later current) (ls_upgrades s) |> in
        (if bool_decide (phase = UDeleting) then s
         else s <| ls_upgrade_claims := ddel (upgrade_key u) (ls_upgrade_claims s) |>, true)
      else (s, false)
  | None => (s, false)
  end.

(** *** Removing a replaced package *)

Definition names_package (p : SkillPackageRecord) (q : SkillPackageRecord) : bool :=
  bool_decide (package_key q = package_key p) && String.eqb (pk_package_digest q) (pk_package_digest p).

(** The command published this package. *)
Definition published_it (p : SkillPackageRecord) (v : string * option SkillPublishCommitResult) : bool :=
  match v.2 with Some r => names_package p (cr_package r) | None => false end.

Definition forget_result (p : SkillPackageRecord) (e : CommandKey * (string * option SkillPublishCommitResult))
    : CommandKey * (string * option SkillPublishCommitResult) :=
  if published_it p e.2 then (e.1, (e.2.1, None)) else e.

Definition outbox_of (commands : list CommandKey) (o : SkillOutboxRecord) : bool :=
  bool_decide ((so_tenant_id o, so_command_id o) ∈ commands).

Definition admission_of (u : SkillUpgradeState) (p : SkillPackageRecord) (a : SkillAdmissionAuditRecord) : bool :=
  String.eqb (ad_tenant_id a) (pk_tenant_id p) && bool_decide (ad_publisher a = Some (ug_publisher u))
  && bool_decide (ad_name a = Some (ug_name u)) && bool_decide (ad_version a = Some (sm_version (pk_manifest p)))
  && (bool_decide (ad_package_digest a = Some (pk_package_digest p))
      || (negb (String.eqb (sm_version (pk_manifest p)) (ug_current_version u))
          && match ad_package_digest a with None => true | Some _ => false end)).

Definition cancelled_publication (r : SkillPublicationRecord) : bool :=
  bool_decide (pb_status r = PRevoked) && bool_decide (pb_revocation_action r = Some RCancel).

(** The guards after the ownership of the upgrade. *)
Definition removable (u : SkillUpgradeState) (p : SkillPackageRecord) (s : LifecycleStore) : bool :=
  negb (pk_legal_hold p)
  && negb (match dget (package_key p).1 (ls_installations s) with
           | Some i => bool_decide (il_pinned_package_digest i = Some (pk_package_digest p))
           | None => false
           end)
  && match dget (package_key p) (ls_packages s) with
     | Some current =>
         if String.eqb (pk_package_digest current) (pk_package_digest p)
         then match dget (package_key p) (ls_publications s) with Some r => cancelled_publication r | None => true end
              && negb (pk_legal_hold current)
         else true
     | None => true
     end.

Definition remove_records (p : SkillPackageRecord) (s : LifecycleStore) : LifecycleStore :=
  match dget (package_key p) (ls_packages s) with
  | Some current =>
      if String.eqb (pk_package_digest current) (pk_package_digest p)
      then s <| ls_publications := ddel (package_key p) (ls_publications s) |>
             <| ls_packages := ddel (package_key p) (ls_packages s) |>
      else s
  | None => s
  end.

Definition erase_package (u : SkillUpgradeState) (p : SkillPackageRecord) (s : LifecycleStore) : LifecycleStore :=
  let s := remove_records p s in
  let removed := dkeys (List.filter (λ e, published_it p e.2) (ls_commands s)) in
  let gone := dkeys (List.filter (λ e, outbox_of removed e.2) (ls_outbox s)) in
  s <| ls_package_tombstones := List.filter (λ q, negb (names_package p q)) (ls_package_tombstones s) |>
    <| ls_commands := map (forget_result p) (ls_commands s) |>
    <| ls_outbox := List.filter (λ e, negb (bool_decide (e.1 ∈ gone))) (ls_outbox s) |>
    <| ls_claimed_outbox := List.filter (λ e, negb (bool_decide (e.1 ∈ gone))) (ls_claimed_outbox s) |>
    <| ls_admission_audits := List.filter (λ a, negb (admission_of u p a)) (ls_admission_audits s) |>.

Definition remove_replaced_package (u : SkillUpgradeState) (token : string) (p : SkillPackageRecord) (now : Z)
    : lifecycle bool := λ s,
  if negb (owns_upgrade u token now s) then (s, Ok false) else
  match is_replaced_package u p with
  | Raise e m => (s, Raise e m)
  | Ok replaced => if replaced && removable u p s then (erase_package u p s, Ok true) else (s, Ok false)
  end.

(** ** The outbox *)

(** The loop of [claim_outbox]: a record that is claimed is passed over. *)
Fixpoint claim_records (limit : nat) (owner : string) (l : list (string * SkillOutboxRecord)) (claims : list (string * string))
    : list (string * string) * list SkillOutboxRecord :=
  match l with
  | [] => (claims, [])
  | (id, r) :: l =>
      if dmem id claims then claim_records limit owner l claims else
      let claims := dset id owner claims in
      match limit with
      | S (S _ as n) => let '(claims, rs) := claim_records n owner l claims in (claims, r :: rs)
      | _ => (claims, [r])
      end
  end.
(** A record is claimed before the limit is compared. *)
Definition claim_lifecycle_outbox (owner : string) (limit : Z) (s : LifecycleStore) : LifecycleStore * list SkillOutboxRecord :=
  let '(claims, rs) := claim_records (Z.to_nat limit) owner (ls_outbox s) (ls_claimed_outbox s) in
  (s <| ls_claimed_outbox := claims |>, rs).

Definition holds_outbox (id owner : string) (s : LifecycleStore) : bool :=
  bool_decide (dget id (ls_claimed_outbox s) = Some owner).
Definition renew_outbox (id owner : string) (s : LifecycleStore) : bool := holds_outbox id owner s.
Definition complete_outbox (id owner : string) (s : LifecycleStore) : LifecycleStore * bool :=
  if holds_outbox id owner s
  then (s <| ls_outbox := ddel id (ls_outbox s) |> <| ls_claimed_outbox := ddel id (ls_claimed_outbox s) |>, true) else (s, false).
Definition fail_outbox (id owner : string) (s : LifecycleStore) : LifecycleStore * bool :=
  if negb (holds_outbox id owner s) then (s, false) else
  (s <| ls_outbox := match dget id (ls_outbox s) with
                     | Some r => dset id (mkSkillOutbox (so_outbox_id r) (so_tenant_id r) (so_command_id r) (so_event_type r)
                                            (so_payload r) (so_attempt r + 1)) (ls_outbox s)
                     | None => ls_outbox s
                     end |> <| ls_claimed_outbox := ddel id (ls_claimed_outbox s) |>, true).

(** ** Admissions and reading *)

Definition record_admission (a : SkillAdmissionAuditRecord) (s : LifecycleStore) : LifecycleStore :=
  s <| ls_admission_audits := ls_admission_audits s ++ [a] |>.
Definition admission_leb (a b : SkillAdmissionAuditRecord) : bool :=
  if ad_occurred_at a =? ad_occurred_at b then String.leb (ad_admission_id a) (ad_admission_id b)
  else ad_occurred_at a <? ad_occurred_at b.
Definition delete_admissions_before (cutoff limit : Z) (s : LifecycleStore) : LifecycleStore * Z :=
  let candidates := take (Z.to_nat limit)
    (py_sorted admission_leb (List.filter (λ a, ad_occurred_at a <? cutoff) (ls_admission_audits s))) in
  let deleted := remove_dups (map ad_admission_id candidates) in
  (s <| ls_admission_audits := List.filter (λ a, negb (str_in (ad_admission_id a) deleted)) (ls_admission_audits s) |>,
   Z.of_nat (length deleted)).

Definition opt_matches (o : option string) (s : string) : bool := match o with Some x => String.eqb s x | None => true end.
Definition list_admissions (tenant : string) (outcome stage content_policy_version : option string) (limit : Z) (s : LifecycleStore)
    : list SkillAdmissionAuditRecord :=
  take (Z.to_nat limit)
    (List.filter (λ a, String.eqb (ad_tenant_id a) tenant && opt_matches outcome (ad_outcome a) && opt_matches stage (ad_stage a)
                       && opt_matches content_policy_version (ad_content_policy_version a)) (rev (ls_admission_audits s))).

Definition list_upgrades (tenant : string) (s : LifecycleStore) : list SkillUpgradeState :=
  List.filter (λ u, String.eqb (ug_tenant_id u) tenant) (dvalues (ls_upgrades s)).
Definition list_pending_upgrades (limit : Z) (s : LifecycleStore) : list SkillUpgradeState :=
  take (Z.to_nat limit) (List.filter (λ u, negb (bool_decide (ug_phase u = UCompleted))) (dvalues (ls_upgrades s))).
Definition get_publish_command_digest (tenant command : string) (s : LifecycleStore) : option string :=
  fst <$> dget (tenant, command) (ls_commands s).

Fixpoint texts_leb (l k : list string) : bool :=
  match l, k with
  | [], _ => true
  | _, [] => false
  | a :: l, b :: k => if String.eqb a b then texts_leb l k else String.leb a b
  end.
Definition list_packages (tenant : string) (s : LifecycleStore) : list SkillPackageRecord :=
  let key p := [sm_publisher (pk_manifest p); sm_name (pk_manifest p); sm_version (pk_manifest p)] in
  py_sorted (λ p q, texts_leb (key p) (key q)) (List.filter (λ p, String.eqb (pk_tenant_id p) tenant) (dvalues (ls_packages s))).
Definition list_package_tombstones (tenant publisher name : string) (s : LifecycleStore) : list SkillPackageRecord :=
  List.filter (λ p, String.eqb (pk_tenant_id p) tenant && String.eqb (sm_publisher (pk_manifest p)) publisher
                    && String.eqb (sm_name (pk_manifest p)) name) (ls_package_tombstones s).
Definition list_publications (tenant : string) (s : LifecycleStore) : list SkillPublicationRecord :=
  let key r := [pb_publisher r; pb_name r; pb_version r] in
  py_sorted (λ p q, texts_leb (key p) (key q)) (List.filter (λ r, String.eqb (pb_tenant_id r) tenant) (dvalues (ls_publications s))).
Definition list_installations (tenant : string) (s : LifecycleStore) : list SkillInstallationRecord :=
  let key r := [il_publisher r; il_name r] in
  py_sorted (λ p q, texts_leb (key p) (key q)) (List.filter (λ r, String.eqb (il_tenant_id r) tenant) (dvalues (ls_installations s))).
Definition list_tenants (s : LifecycleStore) : list string :=
  py_sorted String.leb (remove_dups (map pb_tenant_id (dvalues (ls_publications s)) ++ map il_tenant_id (dvalues (ls_installations s)))).
Definition has_artifact_reference (tenant artifact : string) (version : Z) (s : LifecycleStore) : bool :=
  existsb (λ p, String.eqb (pk_tenant_id p) tenant && py_eq (af_artifact_id (pk_artifact_ref p)) (JStr artifact)
                && py_eq (af_version (pk_artifact_ref p)) (JInt version) && bool_decide (pk_retention_status p = KRetained))
    (dvalues (ls_packages s)).

(** ** Histories of the store *)

Inductive LifecycleOp :=
  | OpPublish (c : SkillPublishCommit)
  | OpPutPackage (p : SkillPackageRecord)
  | OpRetention (p : SkillPackageRecord) (expected_revision : Z)
  | OpPutPublication (r : SkillPublicationRecord) (expected_revision : Z)
  | OpPutInstallation (r : SkillInstallationRecord) (expected_revision : Z)
  | OpChangeInstallation (c : SkillInstallationCommit)
  | OpRestore (c : SkillRestoreCommit)
  | OpClaimUpgrade (u : SkillUpgradeState) (ttl now : Z) (token : string)
  | OpRenewUpgrade (u : SkillUpgradeState) (token : string) (ttl now later : Z)
  | OpSetPhase (u : SkillUpgradeState) (token : string) (phase : SkillUpgradePhase) (reason : option string) (now later : Z)
  | OpRemovePackage (u : SkillUpgradeState) (token : string) (p : SkillPackageRecord) (now : Z)
  | OpClaimOutbox (owner : string) (limit : Z)
  | OpCompleteOutbox (id owner : string)
  | OpFailOutbox (id owner : string)
  | OpRecordAdmission (a : SkillAdmissionAuditRecord)
  | OpDeleteAdmissions (cutoff limit : Z).

Definition lifecycle_apply (o : LifecycleOp) (s : LifecycleStore) : LifecycleStore :=
  match o with
  | OpPublish c => (commit_publish c s).1
  | OpPutPackage p => (put_package p s).1
  | OpRetention p n => (update_package_retention p n s).1
  | OpPutPublication r n => (put_publication r n s).1
  | OpPutInstallation r n => (put_installation r n s).1
  | OpChangeInstallation c => (commit_installation_change c s).1
  | OpRestore c => (commit_restore c s).1
  | OpClaimUpgrade u ttl now token => (claim_upgrade u ttl now token s).1
  | OpRenewUpgrade u token ttl now later => (renew_upgrade u token ttl now later s).1
  | OpSetPhase u token phase reason now later => (set_upgrade_phase u token phase reason now later s).1
  | OpRemovePackage u token p now => (remove_replaced_package u token p now s).1
  | OpClaimOutbox owner limit => (claim_lifecycle_outbox owner limit s).1
  | OpCompleteOutbox id owner => (complete_outbox id owner s).1
  | OpFailOutbox id owner => (fail_outbox id owner s).1
  | OpRecordAdmission a => record_admission a s
  | OpDeleteAdmissions cutoff limit => (delete_admissions_before cutoff limit s).1
  end.
Definition lifecycle_run (ops : list LifecycleOp) (s : LifecycleStore) : LifecycleStore := foldl (λ s o, lifecycle_apply o s) s ops.

Lemma lifecycle_run_inv (P : LifecycleStore → Prop) (ok : LifecycleOp → Prop) :
  (∀ o s, ok o → P s → P (lifecycle_apply o s)) → ∀ ops s, Forall ok ops → P s → P (lifecycle_run ops s).
Proof.
  intros Hstep ops. induction ops as [|o ops IH]; intros s Hok Hs; [done|]. apply Forall_cons in Hok as [Ho Hok]. apply (IH (lifecycle_apply o s)); auto.
Qed.

(** *** What the operations leave alone *)

(** Nothing but the four tables of records. *)
Definition same_but_records (s t : LifecycleStore) : Prop :=
  t <| ls_packages := ls_packages s |> <| ls_package_tombstones := ls_package_tombstones s |>
    <| ls_publications := ls_publications s |> <| ls_installations := ls_installations s |> = s.

Lemma same_but_records_refl s : same_but_records s s.
Proof. by destruct s. Qed.
Lemma same_but_records_trans s t u : same_but_records s t → same_but_records t u → same_but_records s u.
Proof. unfold same_but_records. destruct s, t, u. cbn. intros [=] [=]. by subst. Qed.
Lemma bind_store_rel {A B} (R : LifecycleStore → LifecycleStore → Prop) (m : lifecycle A) (k : A → lifecycle B) s :
  (∀ s t u, R s t → R t u → R s u) → R s (m s).1 → (∀ a t, (m s) = (t, Ok a) → R t (k a t).1) → R s (bind_store m k s).1.
Proof.
  intros Ht Hm Hk. unfold bind_store. destruct (m s) as [t [a|e x]] eqn:E; cbn [fst] in *; [|done]. eapply Ht; [exact Hm|]. by apply Hk.
Qed.

Create HintDb lifecycle.
#[local] Hint Resolve same_but_records_refl same_but_records_trans : lifecycle.

Ltac split_store :=
  repeat match goal with
  | |- context [match ?x with _ => _ end] =>
      lazymatch x with
      | context [match _ with _ => _ end] => fail
      | _ => destruct x eqn:?; cbn [fst snd]
      end
  end.

Lemma put_package_records p s : same_but_records s (put_package p s).1.
Proof. unfold put_package. split_store; first [apply same_but_records_refl | by destruct s]. Qed.
Lemma put_publication_records r n s : same_but_records s (put_publication r n s).1.
Proof. unfold put_publication. split_store; first [apply same_but_records_refl | by destruct s]. Qed.
Lemma put_installation_records r n s : same_but_records s (put_installation r n s).1.
Proof. unfold put_installation. split_store; first [apply same_but_records_refl | by destruct s]. Qed.
#[local] Hint Resolve put_package_records put_publication_records put_installation_records : lifecycle.

Lemma publish_publication_records c s : same_but_records s (publish_publication c s).1.
Proof. unfold publish_publication. split_store; auto with lifecycle. Qed.
Lemma publish_installation_records c s : same_but_records s (publish_installation c s).1.
Proof.
  unfold publish_installation. split_store; auto with lifecycle.
  all: apply bind_store_rel; eauto with lifecycle.
Qed.
Lemma replace_purged_records c s : same_but_records s (replace_purged c s).1.
Proof. unfold replace_purged. split_store; auto with lifecycle. by destruct s. Qed.
#[local] Hint Resolve publish_publication_records publish_installation_records replace_purged_records : lifecycle.
Lemma publish_records_records c s : same_but_records s (publish_records c s).1.
Proof.
  unfold publish_records. destruct (pc_replace_purged c); [apply replace_purged_records|].
  do 3 (apply bind_store_rel; [eauto with lifecycle|auto with lifecycle|intros]). auto with lifecycle.
Qed.

Lemma publish_refused c s s' e m : commit_publish c s = (s', Raise e m) → s' = s.
Proof.
  unfold commit_publish. destruct (dget _ (ls_commands s)) as [[digest result]|]; [by intros [= <-]|].
  destruct (if bool_decide _ then _ else _) as [u|e' m']; [|by intros [= <-]].
  pose proof (publish_records_records c s) as Hrec. destruct (publish_records c s) as [t [done|e' m']]; cbn [fst] in Hrec.
  - unfold finish_publish. by destruct done as [[package publication] installation].
  - intros [= <- _ _]. exact Hrec.
Qed.

(** A publish command that is refused, at whatever point, leaves the store as it was:
    package, publication and installation change together or not at all. *)
Theorem refused_publish_changes_nothing c s s' e m : commit_publish c s = (s', Raise e m) → s' = s.
Proof. apply publish_refused. Qed.

(** *** Commands *)

Lemma dget_map_values {K V W} `{EqDecision K} (g : K → V → W) k (d : list (K * V)) :
  dget k (map (λ e, (e.1, g e.1 e.2)) d) = g k <$> dget k d.
Proof. induction d as [|[k' v] d IH]; cbn; [done|]. case_decide; by subst. Qed.

Lemma forget_result_eq p e : forget_result p e = (e.1, if published_it p e.2 then (e.2.1, None) else e.2).
Proof. unfold forget_result. destruct (published_it p e.2); by destruct e. Qed.

Lemma dget_forget k p d : dget k (map (forget_result p) d) = (λ v, if published_it p v then (v.1, None) else v) <$> dget k d.
Proof.
  rewrite <- (dget_map_values (λ _ v, if published_it p v then (v.1, None) else v)). f_equal. apply map_ext, forget_result_eq.
Qed.

Lemma records_commands s t : same_but_records s t → ls_commands t = ls_commands s.
Proof. intros E. pose proof (f_equal ls_commands E) as F. by destruct s, t. Qed.
Lemma remove_records_commands p s : ls_commands (remove_records p s) = ls_commands s.
Proof. unfold remove_records. by split_store. Qed.

(** A stored command keeps its digest; its result may only be forgotten. *)
Definition command_kept (s t : LifecycleStore) : Prop := ∀ k d v, dget k (ls_commands s) = Some (d, v) →
  ∃ v', dget k (ls_commands t) = Some (d, v') ∧ (v' = v ∨ v' = None).
Lemma command_kept_eq s t : ls_commands t = ls_commands s → command_kept s t.
Proof. intros E k d v H. exists v. rewrite E. auto. Qed.
Lemma command_kept_trans s t u : command_kept s t → command_kept t u → command_kept s u.
Proof.
  intros H1 H2 k d v H. destruct (H1 _ _ _ H) as (v1 & E1 & Hv1). destruct (H2 _ _ _ E1) as (v2 & E2 & Hv2).
  exists v2. split; [done|]. destruct Hv2 as [->| ->]; auto.
Qed.

(** What a committed command leaves in the store. *)
Lemma publish_committed c s s' r : commit_publish c s = (s', Ok r) →
  ∃ v, dget (pk_tenant_id (pc_package c), pc_command_id c) (ls_commands s') = Some (pc_request_digest c, Some v) ∧
    cr_package v = cr_package r ∧ cr_installation v = cr_installation r ∧ (cr_replayed r = false → v = r).
Proof.
  unfold commit_publish. destruct (dget _ (ls_commands s)) as [[digest result]|] eqn:E.
  { intros [= <- Hr]. unfold replay_publish in Hr. destruct (negb _) eqn:Hd; [done|]. apply negb_false_iff, String.eqb_eq in Hd as ->.
    destruct result as [v|]; [|done]. injection Hr as <-. by exists v. }
  destruct (if bool_decide _ then _ else _) as [u|e' m']; [|done].
  destruct (publish_records c s) as [t [[[package publication] installation]|e' m']]; [|done].
  unfold finish_publish. cbv zeta. intros [= <- <-]. eexists. cbn. rewrite dget_dset_eq. done.
Qed.

Lemma publish_kept c s : command_kept s (commit_publish c s).1.
Proof.
  unfold commit_publish. destruct (dget _ (ls_commands s)) as [[digest result]|] eqn:E; [by apply command_kept_eq|].
  destruct (if bool_decide _ then _ else _) as [u|e' m']; [|by apply command_kept_eq].
  pose proof (records_commands _ _ (publish_records_records c s)) as Hrec.
  destruct (publish_records c s) as [t [[[package publication] installation]|e' m']]; cbn [fst] in *; [|by apply command_kept_eq].
  unfold finish_publish. cbv zeta. intros k d v Hk. exists v. split; [|by left]. cbn.
  assert (∀ x : LifecycleStore, ls_commands (match pc_upgrade c with
    | Some u => x <| ls_publications := map (supersede c publication) (ls_publications x) |>
                  <| ls_upgrades := dset (package_key package).1 u (ls_upgrades x) |>
    | None => x end) = ls_commands x) as -> by (intros x; by destruct (pc_upgrade c)).
  rewrite Hrec, dget_dset. case_decide as Hk'; [subst; congruence|done].
Qed.

Lemma lifecycle_kept o s : command_kept s (lifecycle_apply o s).
Proof.
  destruct o; cbn [lifecycle_apply]; try apply publish_kept;
    try (apply command_kept_eq, records_commands; auto with lifecycle; fail).
  - apply command_kept_eq. unfold update_package_retention. by split_store.
  - apply command_kept_eq. unfold commit_installation_change. split_store; try done.
    pose proof (put_installation_records (ic_installation c) (ic_expected_revision c) s) as Hr%records_commands.
    unfold bind_store. destruct (put_installation _ _ _) as [t [a|e x]]; cbn in *; congruence.
  - apply command_kept_eq. unfold commit_restore. by split_store.
  - apply command_kept_eq. unfold claim_upgrade. by split_store.
  - apply command_kept_eq. unfold renew_upgrade. by split_store.
  - apply command_kept_eq. unfold set_upgrade_phase. by split_store.
  - unfold remove_replaced_package. split_store; try by apply command_kept_eq.
    intros k d v Hk. cbn. rewrite dget_forget, remove_records_commands, Hk. cbn. destruct (published_it p (d, v)); eauto.
  - apply command_kept_eq. unfold claim_lifecycle_outbox. by destruct (claim_records _ _ _ _).
  - apply command_kept_eq. unfold complete_outbox. by split_store.
  - apply command_kept_eq. unfold fail_outbox. by split_store.
  - by apply command_kept_eq.
  - by apply command_kept_eq.
Qed.
Lemma lifecycle_run_kept ops s : command_kept s (lifecycle_run ops s).
Proof.
  revert s. induction ops as [|o ops IH]; intros s; [by apply command_kept_eq|].
  apply (command_kept_trans _ (lifecycle_apply o s)); [apply lifecycle_kept|apply (IH (lifecycle_apply o s))].
Qed.

(** C16. A publish command takes effect once: after it was committed, and whatever happened
    since, the command changes nothing; with the same request it returns the package and
    the installation it committed then, marked as replayed, with the publication of the
    committed version as it is now (the committed one when there is none any more), unless
    the package was erased; and with another request it is refused. *)
Theorem publish_exactly_once c c' s s1 r ops : commit_publish c s = (s1, Ok r) →
  pk_tenant_id (pc_package c') = pk_tenant_id (pc_package c) → pc_command_id c' = pc_command_id c →
  let s2 := lifecycle_run ops s1 in
  (commit_publish c' s2).1 = s2 ∧
  match (commit_publish c' s2).2 with
  | Ok r' => pc_request_digest c' = pc_request_digest c ∧ cr_replayed r' = true ∧
             cr_package r' = cr_package r ∧ cr_installation r' = cr_installation r ∧
             (cr_replayed r = false →
              cr_publication r' = match dget (publication_key (cr_publication r)) (ls_publications s2) with
                                  | Some current => current
                                  | None => cr_publication r
                                  end)
  | Raise e m => e = VersionConflictError ∧
      (m = "Skill command id was reused" ∧ pc_request_digest c' ≠ pc_request_digest c ∨
       m = "Published Skill version was removed" ∧ pc_request_digest c' = pc_request_digest c)
  end.
Proof.
  intros Hc Ht Hid s2. destruct (publish_committed _ _ _ _ Hc) as (v & Hv & Hp & Hi & Hfirst).
  destruct (lifecycle_run_kept ops _ _ _ _ Hv) as (v' & Hv' & Hcases).
  unfold commit_publish. rewrite Ht, Hid. fold s2 in Hv'. rewrite Hv'. cbn [fst snd]. split; [done|].
  unfold replay_publish. destruct (String.eqb_spec (pc_request_digest c) (pc_request_digest c')) as [E|E]; cbn.
  - destruct Hcases as [->| ->]; cbn.
    + split_and!; try done. intros Hr. rewrite (Hfirst Hr). by destruct (dget _ (ls_publications s2)).
    + split; [done|]. by right.
  - split; [done|]. left. split; [done|]. congruence.
Qed.

(** *** The tables of records *)

(** Every record is stored under its own key, and a published version has its package. *)
Record lifecycle_ok (s : LifecycleStore) : Prop := mkLifecycleOk {
  ok_packages_wf : dict_wf (ls_packages s);
  ok_package_key : ∀ k p, dget k (ls_packages s) = Some p → package_key p = k;
  ok_publications_wf : dict_wf (ls_publications s);
  ok_publication_key : ∀ k r, dget k (ls_publications s) = Some r → publication_key r = k;
  ok_installations_wf : dict_wf (ls_installations s);
  ok_installation_key : ∀ k i, dget k (ls_installations s) = Some i → installation_key i = k;
  ok_backed : ∀ k r, dget k (ls_publications s) = Some r →
    ∃ p, dget k (ls_packages s) = Some p ∧ pk_package_digest p = pb_package_digest r;
}.

(** The records of a commit are about the same version. *)
Definition coherent (c : SkillPublishCommit) : Prop :=
  publication_key (pc_publication c) = package_key (pc_package c) ∧
  ∀ n, pc_installation c = Some n → installation_key n = (package_key (pc_package c)).1.
Definition op_ok (o : LifecycleOp) : Prop := match o with OpPublish c => coherent c | _ => True end.

Lemma empty_lifecycle_ok : lifecycle_ok empty_lifecycle.
Proof. split; cbn; try done; constructor. Qed.

(** Only the three tables matter. *)
Lemma lifecycle_ok_tables s t : ls_packages t = ls_packages s → ls_publications t = ls_publications s →
  ls_installations t = ls_installations s → lifecycle_ok s → lifecycle_ok t.
Proof. intros E1 E2 E3 []. by split; rewrite ?E1, ?E2, ?E3. Qed.

(** Storing a package under its key keeps the digest of one that is there, or replaces it
    together with its publication. *)
Lemma set_package_ok p s : lifecycle_ok s →
  (∀ r, dget (package_key p) (ls_publications s) = Some r → pk_package_digest p = pb_package_digest r) →
  lifecycle_ok (s <| ls_packages := dset (package_key p) p (ls_packages s) |>).
Proof.
  intros [] Hd. split; cbn; auto with aura.
  - intros k q. rewrite dget_dset. case_decide; [|auto]. by intros [= <-].
  - intros k r Hr. rewrite dget_dset. case_decide as Hk; [|auto]. subst. eauto.
Qed.
Lemma set_publication_ok r p s : lifecycle_ok s →
  dget (publication_key r) (ls_packages s) = Some p → pk_package_digest p = pb_package_digest r →
  lifecycle_ok (s <| ls_publications := dset (publication_key r) r (ls_publications s) |>).
Proof.
  intros [] Hp Hd. split; cbn; auto with aura.
  - intros k q. rewrite dget_dset. case_decide; [|auto]. by intros [= <-].
  - intros k q. rewrite dget_dset. case_decide; [|auto]. intros [= <-]. subst. eauto.
Qed.
Lemma set_installation_ok i s : lifecycle_ok s →
  lifecycle_ok (s <| ls_installations := dset (installation_key i) i (ls_installations s) |>).
Proof.
  intros []. split; cbn; auto with aura. intros k q. rewrite dget_dset. case_decide; [|auto]. by intros [= <-].
Qed.

Lemma put_package_ok p s : lifecycle_ok s → lifecycle_ok (put_package p s).1.
Proof.
  intros Hs. unfold put_package. destruct (dget _ (ls_packages s)) as [e|] eqn:E; split_store; try done.
  all: apply set_package_ok; [done|]; intros r Hr; apply (ok_backed _ Hs) in Hr as (q & Hq & _); congruence.
Qed.
Lemma check_publication_ok r n s u : check_publication r n s = Ok u →
  ∃ p, dget (publication_key r) (ls_packages s) = Some p ∧ pk_package_digest p = pb_package_digest r.
Proof.
  unfold check_publication. cbv zeta. intros H. inv_res. split_guards.
  destruct (dget (publication_key r) (ls_packages s)) as [p|]; [|done]. split_guards. bool_props. by exists p.
Qed.
Lemma put_publication_ok r n s : lifecycle_ok s → lifecycle_ok (put_publication r n s).1.
Proof.
  intros Hs. unfold put_publication. destruct (check_publication r n s) as [u|] eqn:E; [|done].
  destruct (check_publication_ok _ _ _ _ E) as (p & Hp & Hd). by eapply set_publication_ok.
Qed.
Lemma put_installation_ok r n s : lifecycle_ok s → lifecycle_ok (put_installation r n s).1.
Proof. intros Hs. unfold put_installation. destruct (check_installation r n s); [|done]. by apply set_installation_ok. Qed.
#[local] Hint Resolve put_package_ok put_publication_ok put_installation_ok : lifecycle.

Lemma bind_store_inv {A B} (I : LifecycleStore → Prop) (m : lifecycle A) (k : A → lifecycle B) s :
  I (m s).1 → (∀ a t, m s = (t, Ok a) → I t → I (k a t).1) → I (bind_store m k s).1.
Proof. intros Hm Hk. unfold bind_store. destruct (m s) as [t [a|e x]] eqn:E; cbn [fst] in *; [|done]. by apply Hk. Qed.

Lemma replace_purged_ok c s : coherent c → lifecycle_ok s → lifecycle_ok (replace_purged c s).1.
Proof.
  intros [Hk Hi] Hs. unfold replace_purged. split_store; try done.
  match goal with H : negb (replace_ready _ _ _ _ _) = false |- _ => apply negb_false_iff in H; unfold replace_ready in H; bool_props end.
  pose proof (Hi _ eq_refl) as Hi'. cbn in Hi'. destruct Hs. split; cbn; auto with aura.
  all: try (intros k q; rewrite dget_dset; case_decide; [|auto]; intros [= <-]; congruence).
  intros k q. rewrite !dget_dset. case_decide; [|auto]. intros [= <-]. exists (pc_package c). split; [done|congruence].
Qed.
Lemma publish_publication_ok c s : lifecycle_ok s → lifecycle_ok (publish_publication c s).1.
Proof. intros Hs. unfold publish_publication. split_store; auto with lifecycle. Qed.
Lemma publish_installation_ok c s : lifecycle_ok s → lifecycle_ok (publish_installation c s).1.
Proof.
  intros Hs. unfold publish_installation. split_store; auto with lifecycle.
  all: apply bind_store_inv; [auto with lifecycle|by intros i t _ Ht].
Qed.
Lemma publish_records_ok c s : coherent c → lifecycle_ok s → lifecycle_ok (publish_records c s).1.
Proof.
  intros Hc Hs. unfold publish_records. destruct (pc_replace_purged c); [by apply replace_purged_ok|].
  apply bind_store_inv; [by apply put_package_ok|]. intros p t _ Ht.
  apply bind_store_inv; [by apply publish_publication_ok|]. intros r t' _ Ht'.
  apply bind_store_inv; [by apply publish_installation_ok|]. by intros i t2 _ Ht2.
Qed.

Lemma supersede_pair c r e : supersede c r e = (e.1, (supersede c r e).2).
Proof. unfold supersede. destruct (_ && _); by destruct e. Qed.
Lemma dget_supersede c r k d : dget k (map (supersede c r) d) = (λ v, (supersede c r (k, v)).2) <$> dget k d.
Proof.
  rewrite <- (dget_map_values (λ k v, (supersede c r (k, v)).2)).
  rewrite (map_ext _ (λ e, (e.1, (supersede c r (e.1, e.2)).2))); [done|]. intros [k' v]. apply supersede_pair.
Qed.
Lemma dkeys_supersede c r d : dkeys (map (supersede c r) d) = dkeys d.
Proof.
  unfold dkeys. change (map (supersede c r) d) with (supersede c r <$> d). rewrite <- list_fmap_compose. apply list_fmap_ext.
  intros i e _. cbn. by rewrite supersede_pair.
Qed.
Lemma supersede_keeps c r k v : publication_key (supersede c r (k, v)).2 = publication_key v ∧
  pb_package_digest (supersede c r (k, v)).2 = pb_package_digest v.
Proof. unfold supersede. by destruct (_ && _). Qed.

Lemma supersede_ok c r s : lifecycle_ok s → lifecycle_ok (s <| ls_publications := map (supersede c r) (ls_publications s) |>).
Proof.
  intros []. split; cbn; auto.
  - unfold dict_wf. by rewrite dkeys_supersede.
  - intros k v. rewrite dget_supersede. intros (v' & Hv & ->)%fmap_Some. rewrite (proj1 (supersede_keeps c r k v')). auto.
  - intros k v. rewrite dget_supersede. intros (v' & Hv & ->)%fmap_Some. rewrite (proj2 (supersede_keeps c r k v')). auto.
Qed.
Lemma finish_publish_ok c d s : lifecycle_ok s → lifecycle_ok (finish_publish c d s).1.
Proof.
  intros Hs. unfold finish_publish. destruct d as [[package publication] installation]. destruct (pc_upgrade c).
  - by eapply lifecycle_ok_tables; [..|apply (supersede_ok c publication s Hs)].
  - by eapply lifecycle_ok_tables; [..|apply Hs].
Qed.
Lemma commit_publish_ok c s : coherent c → lifecycle_ok s → lifecycle_ok (commit_publish c s).1.
Proof.
  intros Hc Hs. unfold commit_publish. destruct (dget _ (ls_commands s)) as [[digest result]|]; [done|].
  destruct (if bool_decide _ then _ else _) as [u|e m]; [|done].
  pose proof (publish_records_ok c s Hc Hs) as Ht. destruct (publish_records c s) as [t [d|e m]]; cbn [fst] in *.
  - by apply finish_publish_ok.
  - by eapply lifecycle_ok_tables; [..|apply Hs].
Qed.

Lemma update_package_retention_ok p n s : lifecycle_ok s → lifecycle_ok (update_package_retention p n s).1.
Proof.
  intros Hs. unfold update_package_retention. destruct (dget _ (ls_packages s)) as [e|] eqn:E; split_store; try done.
  apply set_package_ok; [done|]. intros r Hr. bool_props. apply (ok_backed _ Hs) in Hr as (q & Hq & Hd). congruence.
Qed.
Lemma commit_installation_change_ok c s : lifecycle_ok s → lifecycle_ok (commit_installation_change c s).1.
Proof.
  intros Hs. unfold commit_installation_change. split_store; try done.
  apply bind_store_inv; [by apply put_installation_ok|]. intros i t _ Ht. by eapply lifecycle_ok_tables; [..|apply Ht].
Qed.
Lemma commit_restore_ok c s : lifecycle_ok s → lifecycle_ok (commit_restore c s).1.
Proof.
  intros Hs. unfold commit_restore. split_store; try done.
  match goal with E : dget (publication_key (rc_publication c)) (ls_publications s) = Some ?r, F : check_restore c ?r = Ok _ |- _ =>
    apply (ok_backed _ Hs) in E as (p & Hp & Hd); unfold check_restore in F end.
  split_guards. bool_props.
  eapply lifecycle_ok_tables; [..|apply (set_publication_ok (rc_publication c) p s Hs Hp)]; try done. congruence.
Qed.
Lemma remove_records_ok p s : lifecycle_ok s → lifecycle_ok (remove_records p s).
Proof.
  intros Hs. unfold remove_records. split_store; try done. pose proof Hs as []. split; cbn; auto with aura.
  - intros k q. destruct (decide (k = package_key p)) as [->|Hk]; [by rewrite dget_ddel_eq|rewrite dget_ddel_ne by done; auto].
  - intros k q. destruct (decide (k = package_key p)) as [->|Hk]; [by rewrite dget_ddel_eq|rewrite dget_ddel_ne by done; auto].
  - intros k q. destruct (decide (k = package_key p)) as [->|Hk]; [by rewrite dget_ddel_eq|rewrite !dget_ddel_ne by done; auto].
Qed.

Lemma lifecycle_apply_ok o s : op_ok o → lifecycle_ok s → lifecycle_ok (lifecycle_apply o s).
Proof.
  intros Ho Hs. destruct o; cbn [lifecycle_apply];
    auto using commit_publish_ok, update_package_retention_ok, commit_installation_change_ok, commit_restore_ok with lifecycle.
  - unfold claim_upgrade. split_store; try done; by eapply lifecycle_ok_tables; [..|apply Hs].
  - unfold renew_upgrade. split_store; try done; by eapply lifecycle_ok_tables; [..|apply Hs].
  - unfold set_upgrade_phase. split_store; try done; by eapply lifecycle_ok_tables; [..|apply Hs].
  - unfold remove_replaced_package. split_store; try done. by eapply lifecycle_ok_tables; [..|apply (remove_records_ok p s Hs)].
  - unfold claim_lifecycle_outbox. destruct (claim_records _ _ _ _). by eapply lifecycle_ok_tables; [..|apply Hs].
  - unfold complete_outbox. split_store; try done; by eapply lifecycle_ok_tables; [..|apply Hs].
  - unfold fail_outbox. split_store; try done; by eapply lifecycle_ok_tables; [..|apply Hs].
  - by eapply lifecycle_ok_tables; [..|apply Hs].
  - by eapply lifecycle_ok_tables; [..|apply Hs].
Qed.
Lemma lifecycle_run_ok ops s : Forall op_ok ops → lifecycle_ok s → lifecycle_ok (lifecycle_run ops s).
Proof. apply lifecycle_run_inv, lifecycle_apply_ok. Qed.

(** *** Revisions *)

(** What an operation may do to the publication of one version. *)
Definition publication_step (before after : option SkillPublicationRecord) : Prop :=
  match before, after with
  | Some r, Some r' => r' = r ∨ pb_revision r' = pb_revision r + 1
  | None, Some r' => pb_revision r' = 1
  | Some r, None => False
  | None, None => True
  end.
Definition installation_step (before after : option SkillInstallationRecord) : Prop :=
  match before, after with
  | Some i, Some i' => i' = i ∨ il_revision i' = il_revision i + 1
  | None, Some i' => il_revision i' = 1
  | Some i, None => False
  | None, None => True
  end.
Lemma publication_step_refl o : publication_step o o.
Proof. destruct o; cbn; auto. Qed.
Lemma installation_step_refl o : installation_step o o.
Proof. destruct o; cbn; auto. Qed.
#[local] Hint Resolve publication_step_refl installation_step_refl : lifecycle.

Definition publications_step (s t : LifecycleStore) : Prop :=
  ∀ k, publication_step (dget k (ls_publications s)) (dget k (ls_publications t)).
Definition installations_step (s t : LifecycleStore) : Prop :=
  ∀ k, installation_step (dget k (ls_installations s)) (dget k (ls_installations t)).

(** Only the publication of version [k] changes. *)
Definition only_publication (k : PackageKey) (s t : LifecycleStore) : Prop :=
  publications_step s t ∧ ∀ k', k' ≠ k → dget k' (ls_publications t) = dget k' (ls_publications s).
Lemma only_publication_eq k s t : ls_publications t = ls_publications s → only_publication k s t.
Proof. intros E. split; intros k'; rewrite E; auto with lifecycle. Qed.

Lemma put_publication_step r n s : only_publication (publication_key r) s (put_publication r n s).1.
Proof.
  unfold put_publication. destruct (check_publication r n s) as [u|] eqn:E; [|by apply only_publication_eq].
  unfold check_publication in E. cbv zeta in E. unfold validate_revision in E. split_guards. bool_props.
  split; intros k; cbn; rewrite dget_dset; [|intros Hk; by rewrite decide_False].
  case_decide as Hk; [subst k|auto with lifecycle].
  destruct (dget (publication_key r) (ls_publications s)); cbn in *; [right|]; lia.
Qed.
Lemma put_installation_step r n s : installations_step s (put_installation r n s).1.
Proof.
  unfold put_installation. destruct (check_installation r n s) as [u|] eqn:E; intros k; [|auto with lifecycle].
  unfold check_installation in E. cbv zeta in E. unfold validate_revision in E. split_guards. bool_props.
  cbn. rewrite dget_dset. case_decide as Hk; [subst k|auto with lifecycle].
  destruct (dget (installation_key r) (ls_installations s)); cbn in *; [right|]; lia.
Qed.
Lemma put_package_publications p s : ls_publications (put_package p s).1 = ls_publications s.
Proof. unfold put_package. by split_store. Qed.
Lemma put_package_installations p s : ls_installations (put_package p s).1 = ls_installations s.
Proof. unfold put_package. by split_store. Qed.
Lemma put_publication_installations r n s : ls_installations (put_publication r n s).1 = ls_installations s.
Proof. unfold put_publication. by split_store. Qed.
Lemma put_installation_publications r n s : ls_publications (put_installation r n s).1 = ls_publications s.
Proof. unfold put_installation. by split_store. Qed.

Lemma publish_publication_step c s : only_publication (publication_key (pc_publication c)) s (publish_publication c s).1.
Proof.
  unfold publish_publication. destruct (dget _ _); [destruct (_ && _)|];
    solve [by apply only_publication_eq|apply put_publication_step].
Qed.
Lemma publish_publication_installations c s : ls_installations (publish_publication c s).1 = ls_installations s.
Proof.
  unfold publish_publication. destruct (dget _ _); [destruct (_ && _)|]; try done; apply put_publication_installations.
Qed.
Lemma publish_installation_step c s : installations_step s (publish_installation c s).1.
Proof.
  unfold publish_installation. destruct (pc_installation c) as [n|]; [|intros k; auto with lifecycle].
  assert (∀ m, installations_step s (bind_store (put_installation n m) (λ i t, (t, Ok (Some i))) s).1) as Hput.
  { intros m. unfold bind_store. pose proof (put_installation_step n m s) as Hs. by destruct (put_installation n m s) as [t [i|e x]]. }
  destruct (dget _ _); [|apply Hput]. destruct (bool_decide _); [apply Hput|].
  destruct (_ || _); intros k; auto with lifecycle.
Qed.
Lemma publish_installation_publications c s : ls_publications (publish_installation c s).1 = ls_publications s.
Proof.
  unfold publish_installation. destruct (pc_installation c) as [n|]; [|done].
  assert (∀ m, ls_publications (bind_store (put_installation n m) (λ i t, (t, Ok (Some i))) s).1 = ls_publications s) as Hput.
  { intros m. unfold bind_store. pose proof (put_installation_publications n m s) as Hs. by destruct (put_installation n m s) as [t [i|e x]]. }
  destruct (dget _ _); [|apply Hput]. destruct (bool_decide _); [apply Hput|]. by destruct (_ || _).
Qed.

Lemma replace_purged_step c s : coherent c → lifecycle_ok s →
  only_publication (publication_key (pc_publication c)) s (replace_purged c s).1 ∧ installations_step s (replace_purged c s).1.
Proof.
  intros [Hk Hi] Hs. rewrite Hk. unfold replace_purged.
  assert (only_publication (package_key (pc_package c)) s s ∧ installations_step s s) as Hrefl.
  { split; [by apply only_publication_eq|intros k; auto with lifecycle]. }
  destruct (pc_installation c) as [n|]; [|exact Hrefl]. destruct (dget _ (ls_packages s)) as [p|]; [|exact Hrefl].
  destruct (dget _ (ls_publications s)) as [r|] eqn:Hr; [|exact Hrefl].
  destruct (dget _ (ls_installations s)) as [i|] eqn:Hn; [|exact Hrefl].
  destruct (negb _); [exact Hrefl|]. destruct (negb (pb_revision _ =? _)) eqn:E1; [exact Hrefl|].
  destruct (negb (il_revision _ =? _)) eqn:E2; [exact Hrefl|]. bool_props. split; [split|]; intros k; cbn -[package_key].
  - rewrite dget_dset. case_decide; [|auto with lifecycle]. subst. rewrite Hr. by right.
  - intros Hne. rewrite dget_dset. by rewrite decide_False.
  - rewrite dget_dset. case_decide; [|auto with lifecycle]. subst. rewrite Hn. by right.
Qed.

(** The records of a publish command: one publication and installations step. *)
Lemma publish_records_step c s : coherent c → lifecycle_ok s →
  only_publication (publication_key (pc_publication c)) s (publish_records c s).1 ∧ installations_step s (publish_records c s).1.
Proof.
  intros Hc Hs. unfold publish_records. destruct (pc_replace_purged c); [by apply replace_purged_step|].
  unfold bind_store. pose proof (put_package_publications (pc_package c) s) as H1.
  pose proof (put_package_installations (pc_package c) s) as H2.
  destruct (put_package (pc_package c) s) as [s1 [p|e x]]; cbn [fst] in *.
  2:{ split; [by apply only_publication_eq|intros k; rewrite H2; auto with lifecycle]. }
  pose proof (publish_publication_step c s1) as H3. pose proof (publish_publication_installations c s1) as H4.
  assert (∀ t, only_publication (publication_key (pc_publication c)) s1 t → only_publication (publication_key (pc_publication c)) s t) as Hlift.
  { intros t [Ha Hb]. split; intros k; rewrite <- H1; [apply Ha|apply Hb]. }
  destruct (publish_publication c s1) as [s2 [r|e x]]; cbn [fst] in *.
  2:{ split; [by apply Hlift|intros k; rewrite H4, H2; auto with lifecycle]. }
  pose proof (publish_installation_step c s2) as H5. pose proof (publish_installation_publications c s2) as H6.
  assert (∀ t, ls_publications t = ls_publications s2 → installations_step s2 t →
    only_publication (publication_key (pc_publication c)) s t ∧ installations_step s t) as Hend.
  { intros t Ht Hi. split.
    - apply Hlift. destruct H3 as [Ha Hb]. split; intros k; rewrite Ht; [apply Ha|apply Hb].
    - intros k. rewrite <- H2, <- H4. apply Hi. }
  destruct (publish_installation c s2) as [s3 [i|e x]]; cbn [fst] in *; by apply Hend.
Qed.

Lemma publish_publication_key c s t r : lifecycle_ok s → publish_publication c s = (t, Ok r) →
  publication_key r = publication_key (pc_publication c).
Proof.
  intros Hs. unfold publish_publication.
  assert (∀ n, put_publication (pc_publication c) n s = (t, Ok r) → publication_key r = publication_key (pc_publication c)) as Hput.
  { intros n. unfold put_publication. destruct (check_publication _ _ _); [|done]. by intros [= _ <-]. }
  destruct (dget _ _) as [cur|] eqn:E; [|apply Hput]. destruct (_ && _); [|apply Hput].
  intros [= _ <-]. by apply (ok_publication_key _ Hs).
Qed.
Lemma publish_records_key c s t p r i : coherent c → lifecycle_ok s → publish_records c s = (t, Ok (p, r, i)) →
  publication_key r = publication_key (pc_publication c).
Proof.
  intros Hc Hs. unfold publish_records. destruct (pc_replace_purged c).
  { unfold replace_purged. destruct (pc_installation c); [|done]. repeat (destruct (dget _ _); [|done]).
    repeat (destruct (negb _); [done|]). by intros [= _ _ <- _]. }
  unfold bind_store. pose proof (put_package_ok (pc_package c) s Hs) as H1.
  destruct (put_package (pc_package c) s) as [s1 [q|e x]]; cbn [fst] in H1; [|done].
  destruct (publish_publication c s1) as [s2 [r'|e x]] eqn:E; [|done].
  destruct (publish_installation c s2) as [s3 [j|e x]]; [|done]. intros [= _ _ <- _]. by eapply publish_publication_key.
Qed.

(** Superseding adds one to the revision of an active version, and does not touch the
    version that was published. *)
Lemma supersede_step c r k v : publication_step (Some v) (Some (supersede c r (k, v)).2).
Proof. unfold supersede. destruct (_ && _); cbn; auto. Qed.
Lemma supersede_same c r k v : pb_version v = pb_version r → (supersede c r (k, v)).2 = v.
Proof. intros E. unfold supersede. cbn [fst snd]. rewrite E, String.eqb_refl. cbn. by rewrite andb_false_r. Qed.

Lemma finish_publish_step c p r i t : lifecycle_ok t →
  (∀ k, k ≠ publication_key r → publication_step (dget k (ls_publications t)) (dget k (ls_publications (finish_publish c (p, r, i) t).1))) ∧
  dget (publication_key r) (ls_publications (finish_publish c (p, r, i) t).1) = dget (publication_key r) (ls_publications t) ∧
  ls_installations (finish_publish c (p, r, i) t).1 = ls_installations t.
Proof.
  intros Ht. unfold finish_publish. cbv zeta. destruct (pc_upgrade c) as [u|]; cbn; split_and!; try done; auto with lifecycle.
  - intros k _. rewrite dget_supersede. destruct (dget k (ls_publications t)); cbn [fmap option_fmap option_map]; [apply supersede_step|done].
  - rewrite dget_supersede. destruct (dget (publication_key r) (ls_publications t)) as [v|] eqn:E; [|done]. cbn. f_equal.
    apply supersede_same. apply (ok_publication_key _ Ht) in E. unfold publication_key in E. congruence.
Qed.

Lemma commit_publish_step c s : coherent c → lifecycle_ok s →
  publications_step s (commit_publish c s).1 ∧ installations_step s (commit_publish c s).1.
Proof.
  intros Hc Hs. assert (publications_step s s ∧ installations_step s s) as Hrefl by (split; intros k; auto with lifecycle).
  destruct (commit_publish c s) as [s' [a|e x]] eqn:E; [|by apply publish_refused in E as ->]. revert E. cbn [fst].
  unfold commit_publish. destruct (dget _ (ls_commands s)) as [[digest result]|]; [by intros [= <-]|].
  destruct (if bool_decide _ then _ else _) as [u|e m]; [|by intros [=]].
  pose proof (publish_records_step c s Hc Hs) as [[Ha Hb] Hi]. pose proof (publish_records_ok c s Hc Hs) as Ht.
  destruct (publish_records c s) as [t [[[p r] i]|e m]] eqn:E; cbn [fst] in *; [|by intros [=]].
  pose proof (publish_records_key _ _ _ _ _ _ Hc Hs E) as Hkey. destruct (finish_publish_step c p r i t Ht) as (Hf & Hsame & Hins).
  intros Hf'. rewrite Hf' in Hf, Hsame, Hins. cbn [fst] in *. split; intros k; [|by rewrite Hins].
  destruct (decide (k = publication_key r)) as [->|Hk]; [rewrite Hsame; apply Ha|].
  rewrite <- Hb by congruence. by apply Hf.
Qed.

(** The publication of a version is only dropped with its package, by the holder of the
    claim on the upgrade that replaced it, after it was cancelled. *)
Definition erased (o : LifecycleOp) (s : LifecycleStore) (k : PackageKey) (r : SkillPublicationRecord) : Prop :=
  ∃ u token p now, o = OpRemovePackage u token p now ∧ package_key p = k ∧ owns_upgrade u token now s = true ∧
    is_replaced_package u p = Ok true ∧ pk_legal_hold p = false ∧ cancelled_publication r = true.

Lemma remove_step u token p now s k r : lifecycle_ok s → dget k (ls_publications s) = Some r →
  let t := (remove_replaced_package u token p now s).1 in
  dget k (ls_publications t) = Some r ∨
  dget k (ls_publications t) = None ∧ erased (OpRemovePackage u token p now) s k r.
Proof.
  intros Hs Hr. cbv zeta. unfold remove_replaced_package. destruct (owns_upgrade u token now s) eqn:Ho; cbn [negb]; [|by left].
  destruct (is_replaced_package u p) as [[|]|e m] eqn:Hrep; [|by left|by left]. cbn [andb].
  destruct (removable u p s) eqn:Hrem; [|by left]. unfold erase_package. cbn [fst]. cbv zeta. cbn.
  unfold removable in Hrem. unfold remove_records.
  destruct (dget (package_key p) (ls_packages s)) as [q|] eqn:Hq; [|by left].
  destruct (String.eqb (pk_package_digest q) (pk_package_digest p)) eqn:Hd; [|by left]. cbn.
  destruct (decide (k = package_key p)) as [->|Hk]; [|left; by rewrite dget_ddel_ne].
  right. rewrite dget_ddel_eq by apply Hs. split; [done|]. rewrite Hr in Hrem. bool_props.
  exists u, token, p, now. done.
Qed.
Lemma remove_publications_none u token p now s k : lifecycle_ok s → dget k (ls_publications s) = None →
  dget k (ls_publications (remove_replaced_package u token p now s).1) = None.
Proof.
  intros Hs Hr. unfold remove_replaced_package. destruct (negb _); [done|]. destruct (is_replaced_package u p) as [b|]; [|done].
  destruct (b && removable u p s); [|done]. cbn. unfold remove_records. destruct (dget (package_key p) (ls_packages s)); [|done].
  destruct (String.eqb _ _); [|done]. cbn. destruct (decide (k = package_key p)) as [->|Hk]; [|by rewrite dget_ddel_ne].
  rewrite dget_ddel_eq; [done|apply Hs].
Qed.

Lemma restore_step c s : publications_step s (commit_restore c s).1.
Proof.
  assert (publications_step s s) as Hrefl by (intros k; auto with lifecycle). unfold commit_restore.
  destruct (dget _ (ls_restore_commands s)) as [d|]. { destruct (negb _); [done|]. by destruct (dget _ _). }
  destruct (dget _ (ls_publications s)) as [cur|] eqn:E; [|done].
  destruct (check_restore c cur) as [u|] eqn:Hcheck; [|done]. unfold check_restore in Hcheck. split_guards. bool_props.
  intros k. cbn. rewrite dget_dset. case_decide; [|auto with lifecycle]. subst. rewrite E. by right.
Qed.
Lemma change_installation_step c s : installations_step s (commit_installation_change c s).1.
Proof.
  assert (installations_step s s) as Hrefl by (intros k; auto with lifecycle). unfold commit_installation_change.
  destruct (dget _ (ls_installation_commands s)) as [[d key]|]. { destruct (negb _); [done|]. by destruct (dget _ _). }
  unfold bind_store. pose proof (put_installation_step (ic_installation c) (ic_expected_revision c) s) as Hi.
  by destruct (put_installation _ _ _) as [t [a|e x]].
Qed.

Lemma other_tables_step o s : op_ok o → lifecycle_ok s →
  match o with OpPublish _ | OpRemovePackage _ _ _ _ => True | _ =>
    publications_step s (lifecycle_apply o s) ∧ installations_step s (lifecycle_apply o s) end.
Proof.
  intros Ho Hs.
  assert (∀ t, ls_publications t = ls_publications s → ls_installations t = ls_installations s →
    publications_step s t ∧ installations_step s t) as Hsame.
  { intros t E1 E2. split; intros k; rewrite ?E1, ?E2; auto with lifecycle. }
  destruct o; cbn [lifecycle_apply]; try exact I;
    try (apply Hsame; unfold update_package_retention, claim_upgrade, renew_upgrade, set_upgrade_phase, complete_outbox, fail_outbox;
         split_store; done).
  - apply Hsame; [apply put_package_publications|apply put_package_installations].
  - split; [apply put_publication_step|]. intros k. rewrite put_publication_installations. auto with lifecycle.
  - split; [|apply put_installation_step]. intros k. rewrite put_installation_publications. auto with lifecycle.
  - split; [|apply change_installation_step]. intros k. unfold commit_installation_change.
    destruct (dget _ (ls_installation_commands s)) as [[d key]|].
    { destruct (negb _); [|destruct (dget key _)]; auto with lifecycle. }
    unfold bind_store. pose proof (put_installation_publications (ic_installation c) (ic_expected_revision c) s) as E.
    destruct (put_installation _ _ _) as [t [a|e x]]; cbn in *; rewrite E; auto with lifecycle.
  - split; [apply restore_step|]. intros k. unfold commit_restore. split_store; cbn; auto with lifecycle.
  - apply Hsame; unfold claim_lifecycle_outbox; by destruct (claim_records _ _ _ _).
Qed.
Lemma remove_installations u token p now s : ls_installations (remove_replaced_package u token p now s).1 = ls_installations s.
Proof.
  unfold remove_replaced_package. split_store; try done. cbn. unfold remove_records. by split_store.
Qed.

(** No update is lost: whatever operation runs next on a reachable store, every
    publication and installation is as it was, or has the next revision; a new one starts
    at revision 1, an installation is never dropped, and a publication only by the erasure
    of its replaced package, cancelled, by the holder of the claim on the upgrade. *)
Theorem revisions_advance ops o k j : Forall op_ok (o :: ops) → let s := lifecycle_run ops empty_lifecycle in
  let t := lifecycle_apply o s in
  match dget k (ls_publications s), dget k (ls_publications t) with
  | Some r, Some r' => r' = r ∨ pb_revision r' = pb_revision r + 1
  | None, Some r' => pb_revision r' = 1
  | Some r, None => erased o s k r
  | None, None => True
  end ∧ installation_step (dget j (ls_installations s)) (dget j (ls_installations t)).
Proof.
  intros [Ho Hops]%Forall_cons s t. pose proof (lifecycle_run_ok ops _ Hops empty_lifecycle_ok) as Hs. fold s in Hs.
  assert (publications_step s t → installations_step s t →
    match dget k (ls_publications s), dget k (ls_publications t) with
    | Some r, Some r' => r' = r ∨ pb_revision r' = pb_revision r + 1
    | None, Some r' => pb_revision r' = 1
    | Some r, None => erased o s k r
    | None, None => True
    end ∧ installation_step (dget j (ls_installations s)) (dget j (ls_installations t))) as Hstep.
  { intros Hp Hi. split; [|apply Hi]. specialize (Hp k). unfold publication_step in Hp. by destruct (dget k (ls_publications s)), (dget k (ls_publications t)). }
  pose proof (other_tables_step o s Ho Hs) as Hother. subst t. destruct o; try (apply Hstep; apply Hother).
  - destruct (commit_publish_step c s Ho Hs). by apply Hstep.
  - cbn [lifecycle_apply] in *. split; [|rewrite remove_installations; auto with lifecycle].
    destruct (dget k (ls_publications s)) as [r|] eqn:Hr.
    + destruct (remove_step u token p now s k r Hs Hr) as [->|[-> He]]; [by left|done].
    + by rewrite remove_publications_none.
Qed.

(** In every history each record is stored under its own key and every publication has
    its package, with the digest it names. *)
Theorem publications_backed ops : Forall op_ok ops → lifecycle_ok (lifecycle_run ops empty_lifecycle).
Proof. intros H. apply lifecycle_run_ok; [done|apply empty_lifecycle_ok]. Qed.

(** *** Upgrades *)

Lemma validate_upgrade_Ok c l i u : validate_upgrade c l i = Ok u →
  ∃ cur n, i = Some cur ∧ pc_installation c = Some n ∧ Some (il_revision cur) = pc_expected_installation_revision c ∧
    il_revision n = il_revision cur + 1 ∧ ∀ r, r ∈ l → not_above c r = Ok tt.
Proof.
  unfold validate_upgrade. destruct i as [cur|]; [|done]. destruct (negb _) eqn:E; [done|].
  destruct (pc_installation c) as [n|]; [|done]. intros H. split_guards. bool_props. exists cur, n. split_and!; try done.
  intros r Hr. match goal with H : mapR _ _ = Ok _ |- _ => apply mapR_Ok in H end.
  apply list_elem_of_lookup in Hr as [m Hm]. match goal with H : Forall2 _ _ _ |- _ => destruct (Forall2_lookup_l _ _ _ _ _ H Hm) as ([] & _ & ?) end.
  done.
Qed.

(** An upgrade never downgrades and leaves one active version: after a publish command
    with an upgrade was executed, no other version of the Skill is active, every version
    that had left staging is at most the new one in the order of versions, and the
    installation has the revision after the one the command named. *)
Theorem upgrade_supersedes ops c u t r : Forall op_ok ops → coherent c → pc_upgrade c = Some u →
  let s := lifecycle_run ops empty_lifecycle in
  commit_publish c s = (t, Ok r) → cr_replayed r = false →
  (∀ k q, k.1 = (package_key (pc_package c)).1 → dget k (ls_publications t) = Some q →
     pb_status q = PActive → k = package_key (pc_package c)) ∧
  (∀ k q, k.1 = (package_key (pc_package c)).1 → dget k (ls_publications s) = Some q → pb_status q ≠ PStaged →
     version_gt (pb_version q) (sm_version (pk_manifest (pc_package c))) = Ok false) ∧
  ∃ i n, dget (package_key (pc_package c)).1 (ls_installations s) = Some i ∧ pc_installation c = Some n ∧
    Some (il_revision i) = pc_expected_installation_revision c ∧ il_revision n = il_revision i + 1.
Proof.
  intros Hops Hc Hu s Hcommit Hrep. pose proof (lifecycle_run_ok ops _ Hops empty_lifecycle_ok) as Hs. fold s in Hs.
  unfold commit_publish in Hcommit. destruct (dget _ (ls_commands s)) as [[digest result]|].
  { injection Hcommit as _ Hr. unfold replay_publish in Hr. destruct (negb _); [done|]. destruct result; [|done]. injection Hr as <-. done. }
  rewrite Hu in Hcommit. cbn [is_Some bool_decide] in Hcommit. rewrite bool_decide_eq_true_2 in Hcommit by done.
  destruct (validate_upgrade _ _ _) as [v|] eqn:Hval; [|done]. destruct (validate_upgrade_Ok _ _ _ _ Hval) as (i & n & Hi & Hn & Hrev & Hnext & Hnot).
  pose proof (publish_records_ok c s Hc Hs) as Ht. destruct (publish_records c s) as [t' [[[p q'] j]|e m]] eqn:E; [|done]. cbn [fst] in Ht.
  pose proof (publish_records_key _ _ _ _ _ _ Hc Hs E) as Hkey. destruct Hc as [Hc1 Hc2]. rewrite Hc1 in Hkey.
  split_and!; [| |by exists i, n].
  - intros k q Hk Hq Hact. unfold finish_publish in Hcommit. rewrite Hu in Hcommit. injection Hcommit as <- _. cbn in Hq.
    rewrite dget_supersede in Hq. apply fmap_Some in Hq as (q0 & Hq0 & ->). apply (ok_publication_key _ Ht) in Hq0.
    unfold supersede in Hact. cbn [fst snd] in Hact. rewrite Hkey, Hk, bool_decide_eq_true_2 in Hact by done. cbn [andb] in Hact.
    destruct (String.eqb_spec (pb_version q0) (pb_version q')) as [Ev|Ev]; cbn [negb andb] in Hact; rewrite ?andb_false_r in Hact.
    + apply (f_equal snd) in Hq0, Hkey. destruct k as [k1 k2], (package_key (pc_package c)) as [g1 g2]. cbn in *. congruence.
    + destruct (decide (pb_status q0 = PActive)) as [Ea|Ea].
      * by rewrite bool_decide_eq_true_2 in Hact.
      * by rewrite bool_decide_eq_false_2 in Hact by done.
  - intros k q Hk Hq Hst. assert (q ∈ dvalues (ls_publications s)) as Hin by (apply elem_of_dvalues; [apply Hs|by exists k]).
    specialize (Hnot q Hin). apply (ok_publication_key _ Hs) in Hq. unfold not_above, same_skill in Hnot.
    rewrite bool_decide_eq_true_2 in Hnot by (unfold publication_key in Hq; subst k; exact Hk). cbn [negb] in Hnot.
    rewrite bool_decide_eq_false_2 in Hnot by done. split_guards. done.
Qed.

(** *** The claim on an upgrade *)

Definition claim_holder (k : InstallationKey) (s : LifecycleStore) : option string :=
  (λ c, c.1.1) <$> dget k (ls_upgrade_claims s).
Definition issues (token : string) (o : LifecycleOp) : Prop :=
  match o with OpClaimUpgrade _ _ _ t => t = token | _ => False end.

Lemma owns_holder u token now s : owns_upgrade u token now s = true → claim_holder (upgrade_key u) s = Some token.
Proof.
  unfold owns_upgrade, claim_holder. destruct (dget _ (ls_upgrades s)); [|done].
  destruct (dget _ (ls_upgrade_claims s)) as [[[t g] e]|]; [|done]. intros H. bool_props. cbn. by subst.
Qed.

(** Operations that leave the claims alone. *)
Lemma same_claims o s : match o with OpClaimUpgrade _ _ _ _ | OpRenewUpgrade _ _ _ _ _ | OpSetPhase _ _ _ _ _ _ => True
  | _ => ls_upgrade_claims (lifecycle_apply o s) = ls_upgrade_claims s end.
Proof.
  assert (∀ t, same_but_records s t → ls_upgrade_claims t = ls_upgrade_claims s) as Hrec.
  { intros t E. pose proof (f_equal ls_upgrade_claims E). by destruct s, t. }
  destruct o; cbn [lifecycle_apply]; try exact I; auto with lifecycle.
  - destruct (commit_publish c s) as [s' [r|e m]] eqn:E; cbn [fst]; [|by apply publish_refused in E as ->].
    revert E. unfold commit_publish. destruct (dget _ (ls_commands s)) as [[digest result]|]; [by intros [= <- _]|].
    destruct (if bool_decide _ then _ else _) as [v|e m]; [|by intros [=]].
    pose proof (Hrec _ (publish_records_records c s)) as Ht. destruct (publish_records c s) as [t [[[p q] i]|e m]]; [|by intros [=]].
    unfold finish_publish. intros [= <- _]. cbn [fst] in Ht. destruct (pc_upgrade c); exact Ht.
  - unfold update_package_retention. by split_store.
  - unfold commit_installation_change. split_store; try done.
    unfold bind_store. pose proof (Hrec _ (put_installation_records (ic_installation c) (ic_expected_revision c) s)) as Ht.
    by destruct (put_installation _ _ _) as [t [a|e x]].
  - unfold commit_restore. by split_store.
  - unfold remove_replaced_package. split_store; try done. cbn. unfold remove_records. by split_store.
  - unfold claim_lifecycle_outbox. by destruct (claim_records _ _ _ _).
  - unfold complete_outbox. by split_store.
  - unfold fail_outbox. by split_store.
Qed.

(** Nobody becomes the holder of a claim but by claiming. *)
Definition not_holder (k : InstallationKey) (token : string) (s : LifecycleStore) : Prop :=
  dict_wf (ls_upgrade_claims s) ∧ claim_holder k s ≠ Some token.
Lemma holder_step k token o s : ¬ issues token o → not_holder k token s → not_holder k token (lifecycle_apply o s).
Proof.
  intros Ho [Hwf Hs]. unfold not_holder, claim_holder in *. pose proof (same_claims o s) as Hsame.
  destruct o; try (rewrite Hsame; done); clear Hsame; cbn [lifecycle_apply].
  - unfold claim_upgrade. split_store; try done. cbn. split; [by apply dset_wf|]. rewrite dget_dset. destruct (decide (k = upgrade_key u)); [|exact Hs].
    cbn. intros [= ->]. by apply Ho.
  - unfold renew_upgrade. destruct (owns_upgrade _ _ _ _) eqn:E; [|done]. apply owns_holder in E. unfold claim_holder in E.
    cbn. split; [by apply dset_wf|]. rewrite dget_dset. destruct (decide (k = upgrade_key u)); [|exact Hs]. subst. cbn. congruence.
  - unfold set_upgrade_phase. split_store; try done. cbn. split; [by apply ddel_wf|].
    destruct (decide (k = upgrade_key u)) as [->|Hk]; [by rewrite dget_ddel_eq|rewrite dget_ddel_ne by done; exact Hs].
Qed.
Lemma holder_run k token ops s : Forall (λ o, ¬ issues token o) ops → not_holder k token s → not_holder k token (lifecycle_run ops s).
Proof. apply lifecycle_run_inv, holder_step. Qed.

Lemma claims_wf_step o s : dict_wf (ls_upgrade_claims s) → dict_wf (ls_upgrade_claims (lifecycle_apply o s)).
Proof.
  intros Hwf. pose proof (same_claims o s) as Hsame. destruct o; try (rewrite Hsame; done); clear Hsame; cbn [lifecycle_apply].
  - unfold claim_upgrade. split_store; cbn; auto with aura.
  - unfold renew_upgrade. split_store; cbn; auto with aura.
  - unfold set_upgrade_phase. split_store; cbn; auto with aura.
Qed.
Lemma claims_wf_run ops : dict_wf (ls_upgrade_claims (lifecycle_run ops empty_lifecycle)).
Proof.
  apply (lifecycle_run_inv (λ s, dict_wf (ls_upgrade_claims s)) (λ _, True)); [intros o s _; apply claims_wf_step| |constructor].
  by apply Forall_true.
Qed.

(** A lost claim never comes back: once another worker has claimed the upgrade, the old
    token renews nothing, sets no phase and erases no package, whatever happens later, as
    long as no claim is given that token again; and while a claim is live nobody else gets one. *)
Theorem lost_claim_fenced before u token token' v ttl now s1 ops : let s := lifecycle_run before empty_lifecycle in
  upgrade_key v = upgrade_key u → token' ≠ token →
  claim_upgrade v ttl now token' s = (s1, Some token') → Forall (λ o, ¬ issues token o) ops →
  (∀ w ttl' now' token'', upgrade_key w = upgrade_key u → now' < now + ttl → claim_upgrade w ttl' now' token'' s1 = (s1, None)) ∧
  let s2 := lifecycle_run ops s1 in
  (∀ ttl' now' later, renew_upgrade u token ttl' now' later s2 = (s2, false)) ∧
  (∀ phase reason now' later, set_upgrade_phase u token phase reason now' later s2 = (s2, false)) ∧
  (∀ p now', remove_replaced_package u token p now' s2 = (s2, Ok false)).
Proof.
  intros s Hk Hne Hclaim Hops. pose proof (claims_wf_run before) as Hwf. fold s in Hwf. unfold claim_upgrade in Hclaim. destruct (dget (upgrade_key v) (ls_upgrades s)) as [cur|] eqn:Hcur; [|done].
  destruct (_ || _); [done|]. injection Hclaim as <-.
  assert (∀ now', owns_upgrade u token now' (lifecycle_run ops
    (s <| ls_upgrade_claims := dset (upgrade_key v) (token', ug_generation v, now + ttl) (ls_upgrade_claims s) |>)) = false) as Hno.
  { intros now'. apply not_true_is_false. intros H%owns_holder. revert H. apply holder_run; [done|].
    split; [by apply dset_wf|]. unfold claim_holder. cbn. rewrite Hk, dget_dset_eq. cbn. congruence. }
  cbv zeta. split_and!.
  - intros w ttl' now' token'' Hw Hlt. unfold claim_upgrade. cbn. rewrite Hw, <- Hk, Hcur, dget_dset_eq. cbn.
    rewrite (proj2 (Z.ltb_lt _ _) Hlt), orb_true_r. done.
  - intros. unfold renew_upgrade. by rewrite Hno.
  - intros. unfold set_upgrade_phase. destruct (dget (upgrade_key u) (ls_upgrades _)); [|done]. by rewrite Hno.
  - intros. unfold remove_replaced_package. by rewrite Hno.
Qed.

(** *** The order of versions *)

Lemma digit_not_space c : is_digit c = true → is_space c = false.
Proof. destruct c as [[] [] [] [] [] [] [] []]; vm_compute; congruence. Qed.
Lemma digit_not_sign c : is_digit c = true → Ascii.eqb c "-" = false ∧ Ascii.eqb c "+" = false.
Proof. destruct c as [[] [] [] [] [] [] [] []]; vm_compute; split; congruence. Qed.

Lemma rstrip_digits s : all_chars is_digit s = true → rstrip s = s.
Proof.
  unfold all_chars. induction s as [|c s IH]; cbn; [done|]. intros [Hc Hs]%andb_true_iff. rewrite (IH Hs), (digit_not_space c Hc).
  by destruct s.
Qed.
Lemma read_digits_go_all s v n : all_chars is_digit s = true → ∃ v' n', read_digits_go s v n = (v', n', EmptyString).
Proof.
  unfold all_chars. revert v n. induction s as [|c s IH]; cbn; intros v n; [by eexists _, _|].
  intros [Hc Hs]%andb_true_iff. rewrite Hc. by apply IH.
Qed.
Lemma int_of_digits s : all_digits s = true → ∃ z, int_of_string s = Ok z.
Proof.
  unfold all_digits. destruct s as [|c s]; [done|]. intros [_ Hall]%andb_true_iff. unfold int_of_string.
  assert (strip (String c s) = String c s) as ->.
  { unfold strip. pose proof Hall as Hall'. unfold all_chars in Hall. cbn in Hall. apply andb_true_iff in Hall as [Hc _].
    cbn [lstrip]. rewrite (digit_not_space c Hc). by apply rstrip_digits. }
  unfold all_chars in Hall. cbn in Hall. apply andb_true_iff in Hall as [Hc Hs].
  cbn [read_sign]. destruct (digit_not_sign c Hc) as [-> ->]. unfold read_digits. rewrite Hc.
  destruct (read_digits_go_all s (digit_val c) 1 Hs) as (v & n & ->). by eexists.
Qed.
Lemma numeric_digits s : numeric_pattern s = true → all_digits s = true.
Proof.
  unfold numeric_pattern, all_digits, all_chars. destruct s as [|c [|d s]]; cbn; [done| |].
  - by intros ->.
  - intros [[-> _]%andb_true_iff H]%andb_true_iff. done.
Qed.

(** The key of a version is three numbers, the flag and the identifiers. *)
Definition version_shape (key : list KeyItem) : Prop := ∃ a b c f l, key = [KInt a; KInt b; KInt c; KInt f; KParts l].
Lemma mapR_total {A B} (f : A → res B) l : (∀ a, a ∈ l → ∃ b, f a = Ok b) → ∃ k, mapR f l = Ok k.
Proof.
  induction l as [|a l IH]; intros H; [by eexists|]. destruct (H a) as [b Hb]; [left|].
  destruct IH as [k Hk]; [intros x Hx; apply H; by right|]. cbn. rewrite Hb, Hk. by eexists.
Qed.
Lemma pre_keys_total l : ∃ k, mapR pre_key l = Ok k.
Proof.
  apply mapR_total. intros p _. unfold pre_key. destruct (all_digits p) eqn:E; [|by eexists].
  destruct (int_of_digits p E) as [z ->]. by eexists.
Qed.
Lemma semver_shape v : is_semver v = true → ∃ key, skill_version_key v = Ok key ∧ version_shape key.
Proof.
  unfold is_semver, skill_version_key. destruct (partition_dash v) as [core pre]. intros [Hcore _]%andb_true_iff.
  destruct (split_on "." core) as [|a [|b [|c [|]]]]; try done. bool_props.
  destruct (int_of_digits a) as [x Hx]; [by apply numeric_digits|]. destruct (int_of_digits b) as [y Hy]; [by apply numeric_digits|].
  destruct (int_of_digits c) as [z Hz]; [by apply numeric_digits|].
  destruct (pre_keys_total (List.filter (λ p, negb (String.eqb p EmptyString)) (split_on "." (default EmptyString pre)))) as [l Hl].
  cbn -[split_on]. rewrite Hx, Hy, Hz, Hl. cbn. eexists. split; [done|]. by eexists _, _, _, _, _.
Qed.

(** A comparison that is antisymmetric and transitive. *)
Class LawfulCompare {A} (cmp : A → A → comparison) : Prop := {
  cmp_antisym : ∀ a b, cmp b a = CompOpp (cmp a b);
  cmp_trans : ∀ c a b d, cmp a b = c → cmp b d = c → cmp a d = c;
}.
#[global] Instance Z_lawful : LawfulCompare Z.compare.
Proof.
  split; [intros; apply Z.compare_antisym|]. intros c a b d. destruct c; rewrite ?Z.compare_eq_iff, ?Z.compare_lt_iff, ?Z.compare_gt_iff; lia.
Qed.
Lemma string_compare_trans s t u : String.compare s t = Lt → String.compare t u = Lt → String.compare s u = Lt.
Proof.
  change String.compare with String_as_OT.cmp. rewrite !String_as_OT.cmp_lt. apply String_as_OT.lt_trans.
Qed.
#[global] Instance string_lawful : LawfulCompare String.compare.
Proof.
  split; [intros; apply String.compare_antisym|]. intros c a b d H1 H2. destruct c.
  - apply String.compare_eq_iff in H1, H2. subst. by apply (String_as_OT.cmp_eq d d).
  - by eapply string_compare_trans.
  - rewrite String.compare_antisym in H1, H2. rewrite String.compare_antisym.
    destruct (String.compare b a) eqn:E1; try done. destruct (String.compare d b) eqn:E2; try done.
    by rewrite (string_compare_trans _ _ _ E2 E1).
Qed.
#[global] Instance pre_lawful : LawfulCompare pre_compare.
Proof.
  split.
  - intros [n|s] [m|t]; cbn; try done; apply cmp_antisym.
  - intros c [n|s] [m|t] [k|u]; cbn; try congruence; apply cmp_trans.
Qed.

Section lawful.
Context {A} (cmp : A → A → comparison) `{!LawfulCompare cmp}.

Lemma cmp_flip a b c : cmp a b = c → cmp b a = CompOpp c.
Proof. intros <-. apply cmp_antisym. Qed.
Lemma cmp_Eq_l a b d c : cmp a b = Eq → cmp b d = c → cmp a d = c.
Proof.
  intros H1 H2. destruct c; [by eapply cmp_trans| |]; destruct (cmp a d) eqn:E; try done.
  - pose proof (cmp_trans _ _ _ _ (cmp_flip _ _ _ H1) E). cbn in *. congruence.
  - apply cmp_flip in E. pose proof (cmp_trans _ _ _ _ H2 E) as X. apply cmp_flip in H1. cbn in *. congruence.
  - pose proof (cmp_trans _ _ _ _ (cmp_flip _ _ _ H1) E). cbn in *. congruence.
  - apply cmp_flip in E. pose proof (cmp_trans _ _ _ _ H2 E) as X. apply cmp_flip in H1. cbn in *. congruence.
Qed.
Lemma cmp_Eq_r a b d c : cmp a b = c → cmp b d = Eq → cmp a d = c.
Proof.
  intros H1%cmp_flip H2%cmp_flip. pose proof (cmp_flip _ _ _ (cmp_Eq_l _ _ _ _ H2 H1)) as H3. by destruct c.
Qed.

(** Lexicographic comparison. *)
Fixpoint lex_compare (l k : list A) : comparison :=
  match l, k with
  | [], [] => Eq
  | [], _ => Lt
  | _, [] => Gt
  | a :: l, b :: k => match cmp a b with Eq => lex_compare l k | c => c end
  end.
#[global] Instance lex_lawful : LawfulCompare lex_compare.
Proof.
  split.
  - intros l. induction l as [|a l IH]; intros [|b k]; cbn; try done. rewrite (cmp_antisym a b). destruct (cmp a b); cbn; auto.
  - intros c l. revert c. induction l as [|a l IH]; intros c [|b k] [|d j]; cbn; try congruence.
    destruct (cmp a b) eqn:E1, (cmp b d) eqn:E2; intros H1 H2; try congruence.
    all: first [rewrite (cmp_trans _ _ _ _ E1 E2) | rewrite (cmp_Eq_l _ _ _ _ E1 E2) | rewrite (cmp_Eq_r _ _ _ _ E1 E2)].
    all: first [by eapply IH | congruence].
Qed.
Lemma tuple_compare_lex l k : tuple_compare (λ a b, Ok (cmp a b)) l k = Ok (lex_compare l k).
Proof. revert k. induction l as [|a l IH]; intros [|b k]; cbn; try done. destruct (cmp a b); [apply IH|done..]. Qed.
End lawful.

(** The comparison of two keys of versions, on the five components. *)
Definition key_compare (x y : Z * Z * Z * Z * list PreKey) : comparison :=
  let '(a, b, c, f, l) := x in
  let '(a', b', c', f', l') := y in
  match lex_compare Z.compare [a; b; c; f] [a'; b'; c'; f'] with Eq => lex_compare pre_compare l l' | r => r end.
#[global] Instance key_lawful : LawfulCompare key_compare.
Proof.
  split.
  - intros [[[[a b] c] f] l] [[[[a' b'] c'] f'] l']. unfold key_compare. rewrite (cmp_antisym [a; b; c; f]).
    destruct (lex_compare _ _ _); cbn [CompOpp]; [apply cmp_antisym|done..].
  - intros r [[[[a b] c] f] l] [[[[a' b'] c'] f'] l'] [[[[a2 b2] c2] f2] l2]. unfold key_compare.
    destruct (lex_compare _ [a; b; c; f] _) eqn:E1, (lex_compare _ [a'; b'; c'; f'] _) eqn:E2; intros H1 H2; try congruence.
    all: first [rewrite (cmp_trans _ _ _ _ E1 E2) | rewrite (cmp_Eq_l _ _ _ _ _ E1 E2) | rewrite (cmp_Eq_r _ _ _ _ _ E1 E2)].
    all: first [by eapply cmp_trans | congruence].
Qed.
Lemma items_compare x y : let '(a, b, c, f, l) := x in let '(a', b', c', f', l') := y in
  tuple_compare item_compare [KInt a; KInt b; KInt c; KInt f; KParts l] [KInt a'; KInt b'; KInt c'; KInt f'; KParts l'] = Ok (key_compare x y).
Proof.
  destruct x as [[[[a b] c] f] l], y as [[[[a' b'] c'] f'] l']. cbn. rewrite tuple_compare_lex.
  destruct (a ?= a'); cbn; [|done..]. destruct (b ?= b'); cbn; [|done..]. destruct (c ?= c'); cbn; [|done..].
  destruct (f ?= f'); cbn; [|done..]. by destruct (lex_compare _ l l').
Qed.

(** The components of the key of a version. *)
Definition version_parts (v : string) : Z * Z * Z * Z * list PreKey :=
  match skill_version_key v with Ok [KInt a; KInt b; KInt c; KInt f; KParts l] => (a, b, c, f, l) | _ => (0, 0, 0, 0, []) end.
Lemma semver_compare v w : is_semver v = true → is_semver w = true →
  version_compare v w = Ok (key_compare (version_parts v) (version_parts w)).
Proof.
  intros Hv Hw. destruct (semver_shape v Hv) as (? & Hkv & a & b & c & f & l & ->).
  destruct (semver_shape w Hw) as (? & Hkw & a' & b' & c' & f' & l' & ->).
  unfold version_compare, version_parts. rewrite Hkv, Hkw. apply (items_compare (a, b, c, f, l) (a', b', c', f', l')).
Qed.

Lemma partition_dash_none u : (partition_dash u).2 = None → (partition_dash u).1 = u.
Proof.
  induction u as [|c u IH]; cbn; [done|]. destruct (Ascii.eqb c "-"); [done|]. destruct (partition_dash u) as [x y]. cbn in *. intros H. by rewrite IH.
Qed.
Lemma partition_dash_app u p : (partition_dash u).2 = None → partition_dash (u +:+ "-" +:+ p) = (u, Some p).
Proof.
  induction u as [|c u IH]; [done|]. intros H.
  change (String c u +:+ "-" +:+ p) with (String c (u +:+ "-" +:+ p)). cbn in H |- *. destruct (Ascii.eqb c "-"); [done|].
  destruct (partition_dash u) as [x y]. cbn in H. by rewrite IH.
Qed.

(** On versions of the required form the comparison always answers, and is a total
    preorder: comparing the other way round gives the opposite answer, and both [<] and
    [=] are transitive; a release is above its prereleases. *)
Theorem version_order_total u v w c : is_semver u = true → is_semver v = true → is_semver w = true →
  (∃ r, version_compare u v = Ok r ∧ version_compare v u = Ok (CompOpp r)) ∧
  (version_compare u v = Ok c → version_compare v w = Ok c → version_compare u w = Ok c) ∧
  (∀ p, is_semver (u +:+ "-" +:+ p) = true → (partition_dash u).2 = None → version_compare (u +:+ "-" +:+ p) u = Ok Lt).
Proof.
  intros Hu Hv Hw. split_and!.
  - rewrite !semver_compare by done. eexists. split; [done|]. f_equal. apply cmp_antisym.
  - rewrite !semver_compare by done. intros [= H1] [= H2]. f_equal. by eapply cmp_trans.
  - intros p Hp Hdash. destruct (semver_shape u Hu) as (? & Hku & a & b & c' & f & l & ->). rewrite semver_compare by done.
    destruct (semver_shape _ Hp) as (? & Hkp & a2 & b2 & c2 & f2 & l2 & ->). unfold version_parts. rewrite Hku, Hkp.
    unfold skill_version_key in Hku, Hkp. rewrite partition_dash_app in Hkp by done. pose proof (partition_dash_none _ Hdash) as Hcore.
    unfold is_semver in Hp. rewrite partition_dash_app in Hp by done. apply andb_true_iff in Hp as [_ Hp].
    destruct (partition_dash u) as [core pre]. cbn in Hdash, Hcore. subst. cbn [default from_option id] in *. 
    apply andb_true_iff in Hp as [Hp%negb_true_iff _]. rewrite Hp in Hkp.
    destruct (mapR int_of_string (split_on "." u)) as [n|]; [|done]. cbn [mbind res_bind] in *.
    destruct (mapR pre_key _) as [l3|] in Hku; [|done]. destruct (mapR pre_key _) as [l4|] in Hkp; [|done].
    injection Hku as Hku. injection Hkp as Hkp. destruct n as [|n1 [|n2 [|n3 [|n4 [|]]]]]; cbn in Hku, Hkp; simplify_eq.
    cbn. by rewrite !Z.compare_refl.
Qed.

Module SkillLifecycleExamples.

Definition manifest_of (version : string) : SkillManifest :=
  mkManifest "report" version "Send a report" [] [] [("type", JStr "object")] [("type", JStr "object")] [] [] [] None []
    ["worker"] "internal" "medium" 20 900 "acme" None None "ed25519:abc".
Definition artifact_named (id : string) : ArtifactRef := mkArtifactRef (JStr id) (JInt 1) (JStr "h") (JStr "application/zip") (JInt 10).
Definition package_of (version digest artifact : string) : SkillPackageRecord :=
  mkPackageRecord "t1" (manifest_of version) digest (artifact_named artifact) None KRetained 0 false 1 "ada" 0 0 None.
Definition publication_of (version digest : string) (status : SkillPublicationStatus) (revision : Z) : SkillPublicationRecord :=
  mkPublication ("skp_" +:+ version) "t1" "acme" "report" version digest status revision "ada" "ada" 0 0 None None None None.
Definition installation_of (revision : Z) (digest : string) : SkillInstallationRecord :=
  mkInstallation "ski_1" "t1" "acme" "report" "*" (Some digest) IActive false revision "ada" "ada" 0 0 None None None None.
Definition upgrade_to (version digest : string) (generation : Z) : SkillUpgradeState :=
  mkUpgrade "t1" "acme" "report" "op-1" ("cmd-" +:+ version) version digest generation UDraining None "ada" "co" "ca" 0.
Definition publish_of (version digest : string) (revision : Z) (upgrade : option SkillUpgradeState) : SkillPublishCommit :=
  mkPublishCommit ("cmd-" +:+ version) ("req-" +:+ version) "ada" "co" "ca" 0 (package_of version digest ("art-" +:+ version))
    (publication_of version digest PActive 1) (Some (installation_of revision digest)) 5 false upgrade
    (match upgrade with Some _ => Some (revision - 1) | None => None end).

Definition first : LifecycleOp := OpPublish (publish_of "1.0.0" "sha256:a" 1 None).
Definition second : SkillPublishCommit := publish_of "1.1.0" "sha256:b" 2 (Some (upgrade_to "1.1.0" "sha256:b" 1)).
Definition downgrade : SkillPublishCommit := publish_of "1.1.0-rc.1" "sha256:c" 3 (Some (upgrade_to "1.1.0-rc.1" "sha256:c" 2)).
Definition one : LifecycleStore := lifecycle_run [first] empty_lifecycle.
Definition two : LifecycleStore := lifecycle_run [first; OpPublish second] empty_lifecycle.

Lemma coherent_publish version digest revision upgrade : coherent (publish_of version digest revision upgrade).
Proof. split; [done|]. by intros n [= <-]. Qed.
Lemma ops_ok : Forall op_ok [first; OpPublish second].
Proof. repeat constructor; apply coherent_publish. Qed.

Example second_published : is_ok (commit_publish second one).2 = true ∧
  (pb_status <$> dget ("t1", "acme", "report", "1.0.0") (ls_publications two)) = Some PRevoked.
Proof. vm_compute. done. Qed.
Example downgrade_refused : (commit_publish downgrade two).2 = Raise VersionConflictError "Skill upgrade cannot downgrade the current version".
Proof. vm_compute. done. Qed.
Example version_examples : map (λ p, version_compare p.1 p.2)
  [("1.2.3", "1.10.0"); ("1.0.0", "1.0.0-rc.1"); ("1.0.0-rc.2", "1.0.0-rc.10"); ("1.0.0-1", "1.0.0-a"); ("1.0.0-01", "1.0.0-1")] =
  [Ok Lt; Ok Gt; Ok Lt; Ok Lt; Ok Eq].
Proof. vm_compute. done. Qed.

(** Replacing a purged version does not look for its digest under another version, so that
    two versions of a tenant may have the same digest, which [put_package] refuses. *)
Definition purged (p : SkillPackageRecord) : SkillPackageRecord :=
  mkPackageRecord (pk_tenant_id p) (pk_manifest p) (pk_package_digest p) (pk_artifact_ref p) None KPurged 0 false 2 "ada" 0 0 (Some 9).
Definition revoked_publication : SkillPublicationRecord :=
  mkPublication "skp_1.0.0" "t1" "acme" "report" "1.0.0" "sha256:a" PRevoked 2 "ada" "ada" 0 0 (Some "old") (Some RCancel) (Some "p1") None.
Definition uninstalled : SkillInstallationRecord :=
  mkInstallation "ski_1" "t1" "acme" "report" "*" (Some "sha256:a") IUninstalled false 2 "ada" "ada" 0 0 (Some "old") None None None.
Definition replacement : SkillPublishCommit :=
  mkPublishCommit "cmd-9" "req-9" "ada" "co" "ca" 2 (package_of "1.0.0" "sha256:z" "art-9")
    (publication_of "1.0.0" "sha256:z" PActive 3) (Some (installation_of 3 "sha256:z")) 9 true None (Some 2).
Example replaced_digest_shared :
  let s := lifecycle_run [first; OpPutPackage (package_of "2.0.0" "sha256:z" "art-2"); OpPutPublication revoked_publication 1;
    OpPutInstallation uninstalled 1; OpRetention (purged (package_of "1.0.0" "sha256:a" "art-1.0.0")) 1; OpPublish replacement] empty_lifecycle in
  map (λ p, (sm_version (pk_manifest p), pk_package_digest p)) (list_packages "t1" s) = [("1.0.0", "sha256:z"); ("2.0.0", "sha256:z")].
Proof. vm_compute. done. Qed.

Lemma refused_publish_changes_nothing_witness : two = two.
Proof.
  apply (refused_publish_changes_nothing downgrade two two VersionConflictError "Skill upgrade cannot downgrade the current version").
  vm_compute. reflexivity.
Defined.

Definition second_result : SkillPublishCommitResult :=
  mkCommitResult (pc_package second) (pc_publication second) (pc_installation second) false.
Lemma second_committed : commit_publish second one = (two, Ok second_result).
Proof. vm_compute. done. Qed.
Lemma publish_exactly_once_witness :
  (commit_publish second (lifecycle_run [OpDeleteAdmissions 1 1] two)).1 = lifecycle_run [OpDeleteAdmissions 1 1] two ∧
  match (commit_publish second (lifecycle_run [OpDeleteAdmissions 1 1] two)).2 with
  | Ok r' => pc_request_digest second = pc_request_digest second ∧ cr_replayed r' = true ∧
             cr_package r' = cr_package second_result ∧ cr_installation r' = cr_installation second_result ∧
             (cr_replayed second_result = false →
              cr_publication r' = match dget (publication_key (cr_publication second_result))
                                          (ls_publications (lifecycle_run [OpDeleteAdmissions 1 1] two)) with
                                  | Some current => current
                                  | None => cr_publication second_result
                                  end)
  | Raise e m => e = VersionConflictError ∧
      (m = "Skill command id was reused" ∧ pc_request_digest second ≠ pc_request_digest second ∨
       m = "Published Skill version was removed" ∧ pc_request_digest second = pc_request_digest second)
  end.
Proof. exact (publish_exactly_once second second one two second_result [OpDeleteAdmissions 1 1] second_committed eq_refl eq_refl). Defined.

Lemma revisions_advance_witness :
  match dget ("t1", "acme", "report", "1.0.0") (ls_publications one), dget ("t1", "acme", "report", "1.0.0") (ls_publications two) with
  | Some r, Some r' => r' = r ∨ pb_revision r' = pb_revision r + 1
  | None, Some r' => pb_revision r' = 1
  | Some r, None => erased (OpPublish second) one ("t1", "acme", "report", "1.0.0") r
  | None, None => True
  end ∧ installation_step (dget ("t1", "acme", "report") (ls_installations one)) (dget ("t1", "acme", "report") (ls_installations two)).
Proof.
  apply (revisions_advance [first] (OpPublish second) ("t1", "acme", "report", "1.0.0") ("t1", "acme", "report")).
  repeat constructor; apply coherent_publish.
Defined.

Lemma publications_backed_witness : lifecycle_ok two.
Proof. apply (publications_backed [first; OpPublish second] ops_ok). Defined.

Lemma upgrade_supersedes_witness :
  (∀ k q, k.1 = ("t1", "acme", "report") → dget k (ls_publications two) = Some q → pb_status q = PActive →
     k = ("t1", "acme", "report", "1.1.0")) ∧
  (∀ k q, k.1 = ("t1", "acme", "report") → dget k (ls_publications one) = Some q → pb_status q ≠ PStaged →
     version_gt (pb_version q) "1.1.0" = Ok false) ∧
  ∃ i n, dget ("t1", "acme", "report") (ls_installations one) = Some i ∧ pc_installation second = Some n ∧
    Some (il_revision i) = pc_expected_installation_revision second ∧ il_revision n = il_revision i + 1.
Proof.
  apply (upgrade_supersedes [first] second (upgrade_to "1.1.0" "sha256:b" 1) two second_result).
  - repeat constructor; apply coherent_publish.
  - apply coherent_publish.
  - done.
  - exact second_committed.
  - done.
Defined.

Definition the_upgrade : SkillUpgradeState := upgrade_to "1.1.0" "sha256:b" 1.
Definition claimed : list LifecycleOp := [first; OpPublish second; OpClaimUpgrade the_upgrade 30 100 "tok-a"].
Definition reclaimed_store : LifecycleStore := (claim_upgrade the_upgrade 30 200 "tok-b" (lifecycle_run claimed empty_lifecycle)).1.
Lemma reclaims : claim_upgrade the_upgrade 30 200 "tok-b" (lifecycle_run claimed empty_lifecycle) = (reclaimed_store, Some "tok-b").
Proof. vm_compute. done. Qed.
Lemma lost_claim_fenced_witness :
  (∀ w ttl' now' token'', upgrade_key w = upgrade_key the_upgrade → now' < 200 + 30 →
     claim_upgrade w ttl' now' token'' reclaimed_store = (reclaimed_store, None)) ∧
  let s2 := lifecycle_run [OpRecordAdmission (mkAdmission "a" "t1" "c" "o" "ada" "co" "ca" None None None None None "ok" "s" None 1 1 "p")]
              reclaimed_store in
  (∀ ttl' now' later, renew_upgrade the_upgrade "tok-a" ttl' now' later s2 = (s2, false)) ∧
  (∀ phase reason now' later, set_upgrade_phase the_upgrade "tok-a" phase reason now' later s2 = (s2, false)) ∧
  (∀ p now', remove_replaced_package the_upgrade "tok-a" p now' s2 = (s2, Ok false)).
Proof.
  apply (lost_claim_fenced claimed the_upgrade "tok-a" "tok-b" the_upgrade 30 200 reclaimed_store).
  - done.
  - done.
  - exact reclaims.
  - repeat constructor. by intros [].
Defined.

Lemma version_order_total_witness :
  (∃ r, version_compare "1.0.0" "1.1.0" = Ok r ∧ version_compare "1.1.0" "1.0.0" = Ok (CompOpp r)) ∧
  (version_compare "1.0.0" "1.1.0" = Ok Lt → version_compare "1.1.0" "2.0.0" = Ok Lt → version_compare "1.0.0" "2.0.0" = Ok Lt) ∧
  (∀ p, is_semver ("1.0.0" +:+ "-" +:+ p) = true → (partition_dash "1.0.0").2 = None →
     version_compare ("1.0.0" +:+ "-" +:+ p) "1.0.0" = Ok Lt).
Proof. exact (version_order_total "1.0.0" "1.1.0" "2.0.0" Lt eq_refl eq_refl eq_refl). Defined.
End SkillLifecycleExamples.
