(* ===== verification/SkillUpgradeCleanup.v ===== *)
(** * Erasing replaced packages ([action/skill_upgrade_cleanup.py])

    [SkillUpgradeCleanupWorker._process] erases the packages an upgrade has replaced: it
    claims the upgrade, waits until no binding uses them, closes their publications, has
    the bytes purged and removes the records, and marks the upgrade completed when nothing
    is left.  The worker is a task ([Interleave]): between two awaits other workers, the
    publishers and its own heartbeat change the store, arbitrarily.  The reference reader,
    the projector and the artifact service are answers by the number of the await.  What
    the worker does is logged, so that the order of its effects can be stated. *)

From S2P Require Import Prelude PyValue Contracts InvocationStore SkillContracts SkillLifecycle Interleave.
Local Open Scope Z_scope.

(** ** The worker's world *)

(** What the worker has done, in order.  [EvListed]: the packages to erase were read.
    [EvReferenced]: the answer of the reference reader.  [EvFenced]: the claim was renewed.
    [EvClosed]: the publication of the package was found closed or absent, or was written
    as the record.  [EvPhase]: the phase was set. *)
Inductive CleanupEvent :=
  | EvListed (l : list SkillPackageRecord)
  | EvReferenced (p : SkillPackageRecord) (referenced : bool)
  | EvFenced
  | EvClosed (p : SkillPackageRecord) (written : option SkillPublicationRecord)
  | EvRebuilt
  | EvPurged (p : SkillPackageRecord)
  | EvRemoved (p : SkillPackageRecord) (removed : bool)
  | EvPhase (phase : SkillUpgradePhase) (set : bool).

(** [cw_lost] is the event the heartbeat sets when it cannot renew the claim. *)
Record CleanupWorld := mkCleanup { cw_store : LifecycleStore; cw_lost : bool; cw_log : list CleanupEvent }.

(** [cl_env] is what the others do to the store before an await, [cl_beat] whether the
    heartbeat has lost the claim by then, [cl_now] and [cl_later] the two readings of the
    clock in an operation of the store. *)
Record CleanupServices := mkCleanupServices {
  cl_env : nat → LifecycleStore → LifecycleStore;
  cl_beat : nat → LifecycleStore → bool;
  cl_cancelled : nat → bool;
  cl_now : nat → Z;
  cl_later : nat → Z;
  cl_token : string;
  cl_ttl : Z;
  cl_referenced : nat → SkillUpgradeState → SkillPackageRecord → res bool;
  cl_rebuild : nat → res unit;
  cl_purge : nat → SkillPackageRecord → res unit;
}.

(** [type(exc).__name__] *)
Definition type_name (c : exn_class) : string :=
  match c with
  | NotFoundError => "NotFoundError"
  | VersionConflictError => "VersionConflictError"
  | InvalidTransitionError => "InvalidTransitionError"
  | AuthorizationError => "AuthorizationError"
  | SchemaValidationError => "SchemaValidationError"
  | PolicyDeniedError => "PolicyDeniedError"
  | ArtifactAccessError => "ArtifactAccessError"
  | PyTimeoutError => "TimeoutError"
  | PyValidationError => "ValidationError"
  | PyValueError => "ValueError"
  | PyTypeError => "TypeError"
  | PyRuntimeError => "RuntimeError"
  | PyKeyError => "KeyError"
  | _ => "Exception"
  end.

Section worker.
Context (cl : CleanupServices).
Notation P := (prog CleanupWorld).
Notation "x <- m ;; k" := (bind m (λ x, k)) (at level 100, m at next level, right associativity).

Definition cleanup_schedule : Schedule CleanupWorld :=
  mkSchedule (λ n w, let s := cl_env cl n (cw_store w) in mkCleanup s (cw_lost w || cl_beat cl n s) (cw_log w)) (cl_cancelled cl).

(** An operation of the store, and the event of its result. *)
Definition on_store {A} (op : nat → LifecycleStore → LifecycleStore * res A) (event : A → list CleanupEvent) : P A :=
  await cleanup_schedule (λ n w,
    match op n (cw_store w) with
    | (s, Ok a) => (mkCleanup s (cw_lost w) (cw_log w ++ event a), Ok a)
    | (s, Raise c m) => (mkCleanup s (cw_lost w) (cw_log w), Raise c m)
    end).
Definition plain {A} (m : LifecycleStore → LifecycleStore * A) (s : LifecycleStore) : LifecycleStore * res A :=
  ((m s).1, Ok (m s).2).
Definition ask_service {A} (op : nat → res A) (event : A → list CleanupEvent) : P A :=
  on_store (λ n s, (s, op n)) event.

Section process.
Context (u : SkillUpgradeState).

Definition claim_it : P (option string) := on_store (λ n, plain (claim_upgrade u (cl_ttl cl) (cl_now cl n) (cl_token cl))) (λ _, []).

Definition set_phase_of (phase : SkillUpgradePhase) (reason : option string) : P bool :=
  on_store (λ n, plain (set_upgrade_phase u (cl_token cl) phase reason (cl_now cl n) (cl_later cl n))) (λ b, [EvPhase phase b]).

(** [fence] *)
Definition fence : P unit :=
  lost <- gets (λ _ w, cw_lost w);;
  if (lost : bool) then raise VersionConflictError "Skill cleanup claim was lost" else
  owned <- on_store (λ n, plain (renew_upgrade u (cl_token cl) (cl_ttl cl) (cl_now cl n) (cl_later cl n)))
             (λ b, if b : bool then [EvFenced] else []);;
  if (owned : bool) then ret tt else raise VersionConflictError "Skill cleanup claim was lost".

(** [_old_packages]: the packages and the tombstones by version, digest and artifact. *)
Definition old_key (p : SkillPackageRecord) : string * string * json :=
  (sm_version (pk_manifest p), pk_package_digest p, af_artifact_id (pk_artifact_ref p)).
Definition same_old (p q : SkillPackageRecord) : bool :=
  String.eqb (sm_version (pk_manifest p)) (sm_version (pk_manifest q)) && String.eqb (pk_package_digest p) (pk_package_digest q)
  && py_eq (af_artifact_id (pk_artifact_ref p)) (af_artifact_id (pk_artifact_ref q)).
(** A later package takes the place of an earlier one with the same key. *)
Fixpoint put_old (p : SkillPackageRecord) (l : list SkillPackageRecord) : list SkillPackageRecord :=
  match l with
  | [] => [p]
  | q :: l => if same_old q p then p :: l else q :: put_old p l
  end.
Definition collect_old (l : list SkillPackageRecord) : res (list SkillPackageRecord) :=
  foldM (λ acc p, replaced ← is_replaced_package u p; Ok (if (replaced : bool) then put_old p acc else acc)) l [].
Definition old_packages : P (list SkillPackageRecord) :=
  packages <- on_store (λ n s, (s, Ok (list_packages (ug_tenant_id u) s))) (λ _, []);;
  on_store (λ n s, (s, collect_old (packages ++ list_package_tombstones (ug_tenant_id u) (ug_publisher u) (ug_name u) s)))
    (λ l, [EvListed l]).

Definition referenced (p : SkillPackageRecord) : P bool := ask_service (λ n, cl_referenced cl n u p) (λ b, [EvReferenced p b]).
Definition rebuild_projection : P unit := ask_service (cl_rebuild cl) (λ _, [EvRebuilt]).
Definition purge_bytes (p : SkillPackageRecord) : P unit := ask_service (λ n, cl_purge cl n p) (λ _, [EvPurged p]).

(** The first loop: a package under a legal hold or in use ends the process. *)
Fixpoint drain (l : list SkillPackageRecord) : P bool :=
  match l with
  | [] => ret true
  | p :: l =>
      if pk_legal_hold p then
        _ <- set_phase_of UBlocked (Some "skill_package_legal_hold");; ret false
      else
      used <- referenced p;;
      if (used : bool) then _ <- set_phase_of UDraining (Some "skill_binding_active");; ret false
      else drain l
  end.

(** The publication the worker writes over the one it read. *)
Definition closing (now : Z) (r : SkillPublicationRecord) : SkillPublicationRecord :=
  r <| pb_status := PRevoked |> <| pb_revocation_action := Some RCancel |> <| pb_revision := pb_revision r + 1 |>
    <| pb_updated_by := ug_actor_id u |> <| pb_updated_at := now |> <| pb_reason_code := Some "skill_version_replaced" |>.

Definition needs_closing (p : SkillPackageRecord) (o : option SkillPublicationRecord) : option SkillPublicationRecord :=
  match o with
  | Some r => if String.eqb (pb_package_digest r) (pk_package_digest p) && negb (cancelled_publication r) then Some r else None
  | None => None
  end.
Definition close_publication (p : SkillPackageRecord) : P unit :=
  publication <- on_store (λ n s, (s, Ok (dget (ug_tenant_id u, ug_publisher u, ug_name u, sm_version (pk_manifest p)) (ls_publications s))))
                   (λ o, match needs_closing p o with Some _ => [] | None => [EvClosed p None] end);;
  match needs_closing p publication with
  | Some r =>
      now <- gets (λ n _, cl_later cl n);;
      _ <- on_store (λ n, put_publication (closing now r) (pb_revision r)) (λ w, [EvClosed p (Some w)]);; ret tt
  | None => ret tt
  end.

(** One turn of the second loop. *)
Definition erase_one (p : SkillPackageRecord) : P bool :=
  _ <- fence;;
  _ <- close_publication p;;
  _ <- rebuild_projection;;
  used <- referenced p;;
  if (used : bool) then _ <- set_phase_of UDraining (Some "skill_binding_active");; ret false else
  _ <- fence;;
  _ <- purge_bytes p;;
  _ <- fence;;
  removed <- on_store (λ n, remove_replaced_package u (cl_token cl) p (cl_now cl n)) (λ b, [EvRemoved p b]);;
  if (removed : bool) then ret true else raise VersionConflictError "Skill cleanup metadata changed".
Fixpoint erase_all (l : list SkillPackageRecord) : P bool :=
  match l with
  | [] => ret true
  | p :: l => go <- erase_one p;; if (go : bool) then erase_all l else ret false
  end.

(** The body of the [try] statement. *)
Definition cleanup_body : P bool :=
  packages <- old_packages;;
  free <- drain packages;;
  if negb free then ret false else
  _ <- fence;;
  deleting <- set_phase_of UDeleting None;;
  if negb deleting then ret false else
  go <- erase_all packages;;
  if negb go then ret false else
  _ <- fence;;
  rest <- old_packages;;
  match rest with
  | _ :: _ => raise VersionConflictError "Skill cleanup inventory changed"
  | [] => _ <- rebuild_projection;; set_phase_of UCompleted None
  end.

(** Waiting for the heartbeat at the end: a cancellation there is suppressed. *)
Definition stop_heartbeat : P unit := catch_cancel (on_store (λ n s, (s, Ok tt)) (λ _, [])) (ret tt).

(** [_process] *)
Definition process : P bool :=
  token <- claim_it;;
  match token with
  | None => ret false
  | Some _ =>
      finally (catch cleanup_body (λ c _, Some (_ <- set_phase_of UBlocked (Some (type_name c));; ret false))) stop_heartbeat
  end.
End process.
End worker.

(** ** The order of effects *)

(** The log after [l] may continue with [e]. *)
Definition may_follow (l : list CleanupEvent) (e : CleanupEvent) : Prop :=
  match e with
  | EvPurged p => ∃ w, ends_in l [EvClosed p w; EvRebuilt; EvReferenced p false; EvFenced]
  | EvRemoved p _ => ends_in l [EvPurged p; EvFenced]
  | EvPhase UCompleted _ => ends_in l [EvFenced; EvListed []; EvRebuilt]
  | EvPhase UDeleting _ => ends_in l [EvFenced]
  | _ => True
  end.
(** Every event of the log was allowed by what came before it. *)
Definition ordered : list CleanupEvent → Prop := allowed may_follow.
(** What is purged was listed first, free of a legal hold. *)
Definition listed_first (l : list CleanupEvent) : Prop := ∀ p, EvPurged p ∈ l →
  ∃ packages l', l = EvListed packages :: l' ∧ p ∈ packages ∧ pk_legal_hold p = false.

Section proofs.
Context (cl : CleanupServices) (u : SkillUpgradeState).

Definition logged (F : list CleanupEvent → Prop) (t : Thread CleanupWorld) : Prop := F (cw_log (th_world t)).
Definition after (F : list CleanupEvent → Prop) (events : list CleanupEvent) (l : list CleanupEvent) : Prop :=
  ∃ l0, F l0 ∧ l = l0 ++ events.

Definition good (l : list CleanupEvent) : Prop := ordered l ∧ listed_first l.
(** The packages of the first listing are [packages]. *)
Definition started (packages : list SkillPackageRecord) (l : list CleanupEvent) : Prop :=
  good l ∧ ∃ l', l = EvListed packages :: l'.
(** From [F], [m] ends in a good log, and in [S a] when it returns [a]. *)
Definition leaves {A} (F : list CleanupEvent → Prop) (m : prog CleanupWorld A) (S : A → list CleanupEvent → Prop) : Prop :=
  triple (logged F) m (λ a, logged (S a)) (λ _, logged good).

Lemma leaves_bind {A B} F (m : prog CleanupWorld A) (k : A → prog CleanupWorld B) S T :
  leaves F m S → (∀ a, leaves (S a) (k a) T) → leaves F (bind m k) T.
Proof. apply triple_bind. Qed.
Lemma leaves_ret {A} F (a : A) S : (∀ l, F l → S a l) → leaves F (ret a) S.
Proof. intros H. apply triple_ret. intros t. apply H. Qed.
Lemma leaves_raise {A} F c m (S : A → list CleanupEvent → Prop) : (∀ l, F l → good l) → leaves F (raise c m) S.
Proof. intros H. apply triple_raise. intros t. apply H. Qed.
Lemma leaves_weaken {A} (F F' : list CleanupEvent → Prop) (m : prog CleanupWorld A) (S S' : A → list CleanupEvent → Prop) :
  leaves F' m S' → (∀ l, F l → F' l) → (∀ a l, S' a l → S a l) → leaves F m S.
Proof. intros H H1 H2. eapply triple_weaken; [exact H|intros t; apply H1|intros a t; apply H2|done]. Qed.
Lemma leaves_given {A} (F : list CleanupEvent → Prop) (Q : Prop) (m : prog CleanupWorld A) S :
  (Q → leaves F m S) → leaves (λ l, F l ∧ Q) m S.
Proof. intros H t [Ht HQ]. by apply H. Qed.
Lemma leaves_gets {A} F (f : nat → CleanupWorld → A) : leaves F (gets f) (λ _, F).
Proof. by apply triple_gets. Qed.
Lemma leaves_if {A} F (b : bool) (m k : prog CleanupWorld A) S :
  (b = true → leaves F m S) → (b = false → leaves F k S) → leaves F (if b then m else k) S.
Proof. destruct b; auto. Qed.

(** The others do not write the log of the worker. *)
Lemma leaves_on_store {A} F (op : nat → LifecycleStore → LifecycleStore * res A) event (R : A → Prop) :
  (∀ l, F l → good l) → (∀ n s a, (op n s).2 = Ok a → R a) →
  leaves F (on_store cl op event) (λ a l, after F (event a) l ∧ R a).
Proof.
  intros Hgood HR [n w] Ht. unfold on_store, await. cbn [th_await th_world].
  change (cw_log (sc_env (cleanup_schedule cl) n w)) with (cw_log w).
  unfold logged in *. cbn [th_world] in Ht. destruct (sc_cancelled _ _); [by apply Hgood|].
  set (w' := sc_env (cleanup_schedule cl) n w). assert (cw_log w' = cw_log w) as Hw by done.
  specialize (HR n (cw_store w')). destruct (op n (cw_store w')) as [s [a|c m]]; cbn in *.
  - split; [by exists (cw_log w)|by apply HR].
  - by apply Hgood.
Qed.
(** An await whose event is allowed after anything in [F]. *)
Lemma leaves_event {A} F (op : nat → LifecycleStore → LifecycleStore * res A) event :
  (∀ l, F l → good l) → leaves F (on_store cl op event) (λ a, after F (event a)).
Proof.
  intros Hgood. eapply leaves_weaken; [apply (leaves_on_store F op event (λ _, True)); done|done|]. by intros a l [? _].
Qed.

Definition is_purge (e : CleanupEvent) : bool := match e with EvPurged _ => true | _ => false end.
Lemma good_snoc l e : good l → may_follow l e → is_purge e = false → good (l ++ [e]).
Proof.
  intros [Hl Hf] He Hp. split; [by apply allowed_snoc|]. intros p [Hin|Hin%list_elem_of_singleton]%elem_of_app.
  - destruct (Hf p Hin) as (packages & l' & -> & Hp'). by exists packages, (l' ++ [e]).
  - by subst.
Qed.
Lemma after_good F e : (∀ l, F l → good l) → (∀ l, F l → may_follow l e) → is_purge e = false → ∀ l, after F [e] l → good l.
Proof. intros H1 H2 H3 l (l0 & Hl0 & ->). apply good_snoc; auto. Qed.
Lemma started_after packages F e : (∀ l, F l → started packages l) → (∀ l, F l → may_follow l e) → is_purge e = false →
  ∀ l, after F [e] l → started packages l.
Proof.
  intros H1 H2 H3 l (l0 & Hl0 & ->). destruct (H1 _ Hl0) as [Hg [l' ->]]. split; [apply good_snoc; auto|]. by eexists.
Qed.
Lemma started_good packages l : started packages l → good l.
Proof. by intros [? _]. Qed.

(** Blocking and draining may happen at any time. *)
Definition idle_phase (phase : SkillUpgradePhase) : Prop := match phase with UBlocked | UDraining => True | _ => False end.
Lemma leaves_stop F phase reason (b : bool) : (∀ l, F l → good l) → idle_phase phase →
  leaves F (bind (set_phase_of cl u phase reason) (λ _, ret b)) (λ b' l, b' = b ∧ good l).
Proof.
  intros Hgood Hp. eapply leaves_bind; [by apply leaves_event|]. intros a. apply leaves_ret. intros l Hl. split; [done|].
  revert l Hl. apply after_good; [done| |done]. intros l _. by destruct phase.
Qed.

Lemma leaves_fence F : (∀ l, F l → good l) → leaves F (fence cl u) (λ _, after F [EvFenced]).
Proof.
  intros Hgood. eapply leaves_bind; [apply leaves_gets|]. intros lost. apply leaves_if; intros _; [by apply leaves_raise|].
  eapply leaves_bind; [by apply leaves_event|]. intros [|]; [by apply leaves_ret|]. apply leaves_raise.
  intros l (l0 & Hl0 & ->). rewrite app_nil_r. auto.
Qed.

Lemma leaves_old F : (∀ l, F l → good l) → leaves F (old_packages cl u) (λ packages, after F [EvListed packages]).
Proof.
  intros Hgood. eapply leaves_bind.
  { eapply (leaves_weaken F F _ (λ _, F)); [by apply leaves_event|done|]. intros a l (l0 & Hl0 & ->). by rewrite app_nil_r. }
  intros packages. by apply leaves_event.
Qed.

(** What a step returns that may go on: [S], or [false] after a good log. *)
Definition goes_on (S : list CleanupEvent → Prop) (b : bool) (l : list CleanupEvent) : Prop :=
  if b then S l else good l.

Lemma leaves_drain packages l : leaves (started packages) (drain cl u l)
  (goes_on (λ log, started packages log ∧ Forall (λ p, pk_legal_hold p = false) l)).
Proof.
  induction l as [|p l IH]; [apply leaves_ret; intros log Hlog; by split|]. cbn [drain]. apply leaves_if; intros Hh.
  { eapply leaves_weaken; [apply leaves_stop; [apply started_good|exact I]|done|]. by intros a log [-> Hl]. }
  eapply leaves_bind; [apply leaves_event, started_good|]. intros used.
  assert (∀ log, after (started packages) [EvReferenced p used] log → started packages log) as Hst by by apply started_after.
  apply leaves_if; intros _.
  - eapply leaves_weaken; [apply leaves_stop; [|exact I]|done|].
    + apply started_good.
    + by intros a log [-> Hl].
  - eapply leaves_weaken; [apply IH|exact Hst|]. intros [|] log; cbn; [|done]. intros [H1 H2]. split; [done|by constructor].
Qed.

(** The publication is closed, in one or two awaits. *)
Lemma leaves_close packages F p : (∀ l, F l → started packages l) →
  leaves F (close_publication cl u p) (λ _ l, ∃ w, after F [EvClosed p w] l).
Proof.
  intros HF. assert (∀ l, F l → good l) as Hgood by (intros l Hl; by eapply started_good, HF).
  eapply leaves_bind; [by apply leaves_event|]. intros o. cbv beta. destruct (needs_closing p o) as [r|].
  - assert (∀ l, after F [] l → F l) as Hnil by (intros l (l0 & Hl0 & ->); by rewrite app_nil_r).
    eapply leaves_bind; [apply leaves_gets|]. intros now. cbv beta. eapply leaves_bind.
    { apply leaves_event. intros l Hl. by apply Hgood, Hnil. }
    intros w. apply leaves_ret. intros l (l0 & Hl0 & ->). exists (Some w), l0. split; [by apply Hnil|done].
  - apply leaves_ret. intros l Hl. by exists None.
Qed.

Lemma after_ends F e l : after F e l → ends_in l e.
Proof. intros (l0 & _ & ->). by exists l0. Qed.
Lemma after_after F e e' l : after (after F e) e' l → after F (e ++ e') l.
Proof. intros (l1 & (l0 & Hl0 & ->) & ->). exists l0. by rewrite <- app_assoc. Qed.

(** Purging: the one event that [listed_first] constrains. *)
Lemma started_purge packages F p : p ∈ packages → pk_legal_hold p = false →
  (∀ l, F l → started packages l) → (∀ l, F l → may_follow l (EvPurged p)) → ∀ l, after F [EvPurged p] l → started packages l.
Proof.
  intros Hin Hh HF Hf l (l0 & Hl0 & ->). destruct (HF _ Hl0) as [[Ho Hl] [l' ->]]. split; [|by eexists]. split; [apply allowed_snoc; auto|].
  intros q [Hq|Hq%list_elem_of_singleton]%elem_of_app.
  - destruct (Hl q Hq) as (ps & l2 & [= -> ->] & Hq'). by exists ps, (l2 ++ [EvPurged p]).
  - injection Hq as ->. by exists packages, (l' ++ [EvPurged p]).
Qed.

Lemma leaves_erase packages p : p ∈ packages → pk_legal_hold p = false →
  leaves (started packages) (erase_one cl u p) (goes_on (started packages)).
Proof.
  intros Hin Hh. assert (∀ F e, (∀ l, F l → started packages l) → (∀ l, F l → may_follow l e) → is_purge e = false →
    ∀ l, after F [e] l → started packages l) as Hst by (intros F e; apply started_after).
  pose proof (started_good packages) as Hsg.
  eapply leaves_bind; [by apply leaves_fence|]. intros [].
  assert (∀ l, after (started packages) [EvFenced] l → started packages l) as S1 by by apply Hst.
  eapply leaves_bind; [by apply (leaves_close packages)|]. intros []. intros t (w & Ht). revert t Ht.
  change (leaves (after (after (started packages) [EvFenced]) [EvClosed p w]) (bind (rebuild_projection cl) (λ _, bind (referenced cl u p) (λ used : bool,
    if used then bind (set_phase_of cl u UDraining (Some "skill_binding_active")) (λ _, ret false) else
    bind (fence cl u) (λ _, bind (purge_bytes cl p) (λ _, bind (fence cl u) (λ _,
      bind (on_store cl (λ n, remove_replaced_package u (cl_token cl) p (cl_now cl n)) (λ b, [EvRemoved p b])) (λ removed : bool,
        if removed then ret true else raise VersionConflictError "Skill cleanup metadata changed")))))))
    (goes_on (started packages))).
  set (F1 := after (after (started packages) [EvFenced]) [EvClosed p w]).
  assert (∀ l, F1 l → started packages l) as S2 by by apply Hst.
  eapply leaves_bind; [apply leaves_event; eauto|]. intros []. set (F2 := after F1 [EvRebuilt]).
  assert (∀ l, F2 l → started packages l) as S3 by by apply Hst.
  eapply leaves_bind; [apply leaves_event; eauto|]. intros used. set (F3 := after F2 [EvReferenced p used]).
  assert (∀ l, F3 l → started packages l) as S4 by by apply Hst.
  destruct used.
  { eapply leaves_weaken; [apply leaves_stop; [eauto|exact I]|done|]. by intros a log [-> Hl]. }
  eapply leaves_bind; [apply leaves_fence; eauto|]. intros []. set (F4 := after F3 [EvFenced]).
  assert (∀ l, F4 l → started packages l) as S5 by by apply Hst.
  eapply leaves_bind; [apply leaves_event; eauto|]. intros []. set (F5 := after F4 [EvPurged p]).
  assert (∀ l, F5 l → started packages l) as S6.
  { apply started_purge; [done..|]. intros l Hl. exists w. do 3 apply after_after in Hl. by eapply after_ends. }
  eapply leaves_bind; [apply leaves_fence; eauto|]. intros []. set (F6 := after F5 [EvFenced]).
  assert (∀ l, F6 l → started packages l) as S7 by by apply Hst.
  eapply leaves_bind; [apply leaves_event; eauto|]. intros removed.
  assert (∀ l, after F6 [EvRemoved p removed] l → started packages l) as S8.
  { apply Hst; [done| |done]. intros l Hl. apply after_after in Hl. by eapply after_ends. }
  destruct removed; [by apply leaves_ret|apply leaves_raise; eauto].
Qed.

Lemma leaves_erase_all packages l : Forall (λ p, p ∈ packages ∧ pk_legal_hold p = false) l →
  leaves (started packages) (erase_all cl u l) (goes_on (started packages)).
Proof.
  induction 1 as [|p l [Hin Hh] _ IH]; [by apply leaves_ret|]. cbn [erase_all].
  eapply leaves_bind; [by apply leaves_erase|]. intros [|]; cbn [goes_on]; [exact IH|by apply leaves_ret].
Qed.

Definition empty_log (l : list CleanupEvent) : Prop := l = [].
Lemma empty_log_good l : empty_log l → good l.
Proof. intros ->. split; [apply allowed_nil|]. intros p Hp. by apply not_elem_of_nil in Hp. Qed.

Lemma leaves_body : leaves empty_log (cleanup_body cl u) (λ _, good).
Proof.
  eapply leaves_bind; [apply leaves_old, empty_log_good|]. intros packages.
  assert (∀ l, after empty_log [EvListed packages] l → started packages l) as S0.
  { intros l (l0 & -> & ->). split; [|by exists []]. apply (good_snoc []); [by apply empty_log_good|exact I|done]. }
  eapply leaves_bind; [eapply leaves_weaken; [apply leaves_drain|exact S0|done]|]. intros [|]; cbn [goes_on negb]; [|by apply leaves_ret].
  apply leaves_given. intros Hh. pose proof (started_good packages) as Hsg.
  eapply leaves_bind; [by apply leaves_fence|]. intros [].
  eapply leaves_bind; [apply leaves_event; by apply after_good|]. intros deleting.
  assert (∀ l, after (after (started packages) [EvFenced]) [EvPhase UDeleting deleting] l → started packages l) as S1.
  { apply started_after; [by apply started_after| |done]. intros l Hl. by eapply after_ends. }
  destruct deleting; cbn [negb]; [|apply leaves_ret; eauto].
  eapply leaves_bind; [eapply leaves_weaken; [apply (leaves_erase_all packages packages)|exact S1|done]|].
  { rewrite Forall_forall in Hh |- *. auto. }
  intros [|]; cbn [goes_on negb]; [|by apply leaves_ret].
  eapply leaves_bind; [by apply leaves_fence|]. intros []. set (F1 := after (started packages) [EvFenced]).
  assert (∀ l, F1 l → good l) as G1 by by apply after_good.
  eapply leaves_bind; [by apply leaves_old|]. intros rest. assert (∀ l, after F1 [EvListed rest] l → good l) as G2 by by apply after_good.
  destruct rest as [|p rest]; [|by apply leaves_raise].
  eapply leaves_bind; [by apply leaves_event|]. intros [].
  assert (∀ l, after (after F1 [EvListed []]) [EvRebuilt] l → good l) as G3 by by apply after_good.
  eapply leaves_weaken; [by apply leaves_event|done|]. intros b. apply after_good; [done| |done].
  intros l Hl. do 2 apply after_after in Hl. by eapply after_ends.
Qed.

Lemma leaves_leads {A} F (m : prog CleanupWorld A) S : leaves F m S → (∀ a l, S a l → good l) → leads (logged F) (logged good) m.
Proof.
  intros Hm HS t Ht. specialize (Hm t Ht). destruct (m t) as [t' [a|c e|]]; cbn [fst]; [by eapply HS|exact Hm..].
Qed.

Lemma process_good t : logged empty_log t → logged good (process cl u t).1.
Proof.
  revert t. change (leads (logged empty_log) (logged good) (process cl u)).
  assert (leads (logged empty_log) (logged good) (bind (claim_it cl u) (λ token, match token with
    | None => ret false
    | Some _ => finally (catch (cleanup_body cl u) (λ c _, Some (bind (set_phase_of cl u UBlocked (Some (type_name c))) (λ _, ret false))))
                  (stop_heartbeat cl)
    end))) as H; [|exact H].
  eapply ends_bind.
  { intros t Ht. pose proof (leaves_event empty_log (λ n, plain (claim_upgrade u (cl_ttl cl) (cl_now cl n) (cl_token cl))) (λ _, [])
      empty_log_good t Ht) as Hc. fold (claim_it cl u) in Hc.
    instantiate (1 := λ _, logged empty_log). destruct (claim_it cl u t) as [t' [o|c e|]]; cbn [fst snd]; [|exact Hc..].
    destruct Hc as (l0 & Hl0 & E). unfold logged. by rewrite E, Hl0. }
  intros [token|]; [|apply leads_ret; intros t; apply empty_log_good].
  apply leads_finally; [apply leads_catch|].
  - eapply leaves_leads; [apply leaves_body|done].
  - intros c e k [= <-]. eapply leaves_leads; [by apply leaves_stop|]. by intros b l [_ ?].
  - apply leads_catch_cancel; [|by apply leads_ret]. eapply leaves_leads; [by apply leaves_event|].
    intros a l (l0 & Hl0 & ->). by rewrite app_nil_r.
Qed.
End proofs.

(** C15. Erasing is safe in every interleaving: whatever the other workers and the services
    do, and wherever the worker is cancelled or loses its claim, it has the bytes of a
    package purged only when it listed the package free of a legal hold, and right after it
    closed the publication, rebuilt the projection, was told that no binding uses the
    package, and renewed its claim; it removes the records only after the bytes, with a
    renewed claim in between, and completes the upgrade only after it found nothing left. *)
Theorem erasure_ordered cl u store :
  let log := cw_log (th_world (process cl u (mkThread 0 (mkCleanup store false []))).1) in
  (∀ l1 e l2, log = l1 ++ e :: l2 → may_follow l1 e) ∧
  ∀ p, EvPurged p ∈ log → ∃ packages l, log = EvListed packages :: l ∧ p ∈ packages ∧ pk_legal_hold p = false.
Proof. intros log. apply (process_good cl u (mkThread 0 (mkCleanup store false []))). done. Qed.

Module SkillUpgradeCleanupExamples.
Import SkillLifecycleExamples.

Definition digest_a : string := "sha256:aaaaaaaaaaaaaaaaaaaaaaaaaaaaaaaaaaaaaaaaaaaaaaaaaaaaaaaaaaaaaaaa".
Definition digest_b : string := "sha256:bbbbbbbbbbbbbbbbbbbbbbbbbbbbbbbbbbbbbbbbbbbbbbbbbbbbbbbbbbbbbbbb".
Definition old_publication (status : SkillPublicationStatus) (reason : option string) (revision : Z) : SkillPublicationRecord :=
  mkPublication "skp_old" "t1" "acme" "report" "1.0.0" digest_a status revision "ada" "ada" 0 0 reason None None None.
Definition publish_old : SkillPublishCommit :=
  mkPublishCommit "cmd-1" "req-1" "ada" "co" "ca" 0 (package_of "1.0.0" digest_a "art-1") (old_publication PActive None 1)
    (Some (installation_of 1 digest_a)) 5 false None None.
Definition publish_new : SkillPublishCommit := publish_of "1.1.0" digest_b 2 (Some (upgrade_to "1.1.0" digest_b 1)).
Definition the_replacement : SkillUpgradeState := upgrade_to "1.1.0" digest_b 1.

(** The old version is superseded by the upgrade, or had been retired before it. *)
Definition superseded : LifecycleStore := lifecycle_run [OpPublish publish_old; OpPublish publish_new] empty_lifecycle.
Definition retired : LifecycleStore :=
  lifecycle_run [OpPublish publish_old; OpPutPublication (old_publication PRetired (Some "obsolete") 2) 1; OpPublish publish_new]
    empty_lifecycle.

Definition quiet : CleanupServices :=
  mkCleanupServices (λ _ s, s) (λ _ _, false) (λ _, false) (λ n, Z.of_nat n) (λ n, Z.of_nat n) "tok" 30
    (λ _ _ _, Ok false) (λ _, Ok tt) (λ _ _, Ok tt).
Definition run_cleanup (cl : CleanupServices) (s : LifecycleStore) := process cl the_replacement (mkThread 0 (mkCleanup s false [])).

Example cleanup_completes : (run_cleanup quiet superseded).2 = Ret true ∧
  ls_packages (cw_store (th_world (run_cleanup quiet superseded).1)) = [(("t1", "acme", "report", "1.1.0"), package_of "1.1.0" digest_b "art-1.1.0")] ∧
  map ug_phase (list_upgrades "t1" (cw_store (th_world (run_cleanup quiet superseded).1))) = [UCompleted].
Proof. vm_compute. done. Qed.

(** The claim is taken over during the run: nothing is purged. *)
Definition hijacked : CleanupServices :=
  mkCleanupServices (λ n s, if Nat.eqb n 5 then (claim_upgrade the_replacement 30 1000 "other" s).1 else s) (λ _ _, false) (λ _, false)
    (λ n, if Nat.leb n 4 then Z.of_nat n else 1000) (λ n, if Nat.leb n 4 then Z.of_nat n else 1000) "tok" 30
    (λ _ _ _, Ok false) (λ _, Ok tt) (λ _ _, Ok tt).
Example takeover_stops : (run_cleanup hijacked superseded).2 = Ret false ∧
  existsb is_purge (cw_log (th_world (run_cleanup hijacked superseded).1)) = false.
Proof. vm_compute. done. Qed.

(** Over a version that was retired before the upgrade the worker writes a revoked
    publication without a policy version, which the model of publications does not admit. *)
Definition written_publications (l : list CleanupEvent) : list SkillPublicationRecord :=
  List.flat_map (λ e, match e with EvClosed _ (Some r) => [r] | _ => [] end) l.
Example retired_closed_invalid :
  publication_valid (old_publication PRetired (Some "obsolete") 2) = true ∧
  map publication_valid (written_publications (cw_log (th_world (run_cleanup quiet retired).1))) = [false] ∧
  map publication_valid (written_publications (cw_log (th_world (run_cleanup quiet superseded).1))) = [true].
Proof. vm_compute. done. Qed.

Notation quiet_log := (cw_log (th_world (process quiet the_replacement (mkThread 0 (mkCleanup superseded false []))).1)).
Definition old_package : SkillPackageRecord := package_of "1.0.0" digest_a "art-1".
Lemma old_purged : EvPurged old_package ∈ quiet_log.
Proof.
  assert (quiet_log !! 9%nat = Some (EvPurged old_package)) as E by (vm_compute; reflexivity).
  exact (list_elem_of_lookup_2 _ _ _ E).
Qed.
Lemma erasure_ordered_witness : (∀ l1 e l2, quiet_log = l1 ++ e :: l2 → may_follow l1 e) ∧
  ∃ packages l, quiet_log = EvListed packages :: l ∧ old_package ∈ packages ∧ pk_legal_hold old_package = false.
Proof.
  destruct (erasure_ordered quiet the_replacement superseded) as [H1 H2]. split; [exact H1|exact (H2 old_package old_purged)].
Defined.
End SkillUpgradeCleanupExamples.
