(* ===== verification/RuntimeCommit.v ===== *)
(** * The commits of a runtime ([runtime/{event_committer,execution_guard,progress_store,execution_state}.py])

    A runtime records what a run does as facts in the Session's stream.  The guard asks
    the control store whether the runtime still owns the run, whether it was cancelled
    and whether its deadline has passed; the committer appends a fact once, under a
    command id made of the fact, the run and the identity of what it is about, and tries
    again when the stream moved; the progress store records a checkpoint.

    The methods are tasks ([Interleave]) over the two stores.  [rt_others i] are the
    operations of everybody else before the [i]th await.  What the runtime does is
    logged, so that the order of its effects can be stated.  The Session client is that
    of [runtime/clients.py]: the check of the token and the append are two awaits. *)

From S2P Require Import Prelude PyValue DateTime Digest JsonCodec Contracts RuntimeBudget.
From S2P Require Import SkillExecution EventStore ControlStore Relay Orchestrator Interleave.
Local Open Scope Z_scope.

(** ** The phases of an execution *)

Inductive RuntimePhase :=
  | MODEL_PENDING | MODEL_COMPLETED | MODEL_RECORDED | TOOL_PENDING | TOOL_COMPLETED
  | APPROVAL_WAITING | COMPLETED
  | CAPABILITY_MODEL_PENDING | CAPABILITY_MODEL_COMPLETED | CAPABILITY_WORKFLOW_RUNNING
  | CAPABILITY_CALL_COMPLETED | CAPABILITY_APPROVAL_WAITING | CAPABILITY_SKILL_REVOKED_PAUSED
  | CAPABILITY_SKILL_REVOKED_CANCELLED | CAPABILITY_COMPLETED
  | AGENT_WAITING_CHILDREN | AGENT_COMPLETED.
#[global] Instance RuntimePhase_eq_dec : EqDecision RuntimePhase.
Proof. solve_decision. Defined.

Definition phase_value (p : RuntimePhase) : string :=
  match p with
  | MODEL_PENDING => "model_pending"
  | MODEL_COMPLETED => "model_completed"
  | MODEL_RECORDED => "model_recorded"
  | TOOL_PENDING => "tool_pending"
  | TOOL_COMPLETED => "tool_completed"
  | APPROVAL_WAITING => "approval_waiting"
  | COMPLETED => "completed"
  | CAPABILITY_MODEL_PENDING => "capability.model_pending"
  | CAPABILITY_MODEL_COMPLETED => "capability.model_completed"
  | CAPABILITY_WORKFLOW_RUNNING => "capability.workflow_running"
  | CAPABILITY_CALL_COMPLETED => "capability.call_completed"
  | CAPABILITY_APPROVAL_WAITING => "capability.approval_waiting"
  | CAPABILITY_SKILL_REVOKED_PAUSED => "capability.skill_revoked_paused"
  | CAPABILITY_SKILL_REVOKED_CANCELLED => "capability.skill_revoked_cancelled"
  | CAPABILITY_COMPLETED => "capability.completed"
  | AGENT_WAITING_CHILDREN => "agent.waiting_children"
  | AGENT_COMPLETED => "agent.completed"
  end.

(** [_LEGAL_TRANSITIONS] *)
Definition legal_successors (p : RuntimePhase) : list RuntimePhase :=
  match p with
  | MODEL_PENDING => [MODEL_COMPLETED]
  | MODEL_COMPLETED => [MODEL_RECORDED]
  | MODEL_RECORDED => [TOOL_PENDING; COMPLETED]
  | TOOL_PENDING => [TOOL_COMPLETED]
  | TOOL_COMPLETED => [MODEL_RECORDED; APPROVAL_WAITING]
  | APPROVAL_WAITING => [TOOL_PENDING; MODEL_RECORDED]
  | COMPLETED => []
  | CAPABILITY_MODEL_PENDING => [CAPABILITY_MODEL_COMPLETED]
  | CAPABILITY_MODEL_COMPLETED =>
      [CAPABILITY_WORKFLOW_RUNNING; CAPABILITY_CALL_COMPLETED; CAPABILITY_MODEL_PENDING; AGENT_WAITING_CHILDREN]
  | CAPABILITY_WORKFLOW_RUNNING => [CAPABILITY_WORKFLOW_RUNNING; CAPABILITY_CALL_COMPLETED]
  | CAPABILITY_CALL_COMPLETED =>
      [CAPABILITY_WORKFLOW_RUNNING; CAPABILITY_MODEL_PENDING; CAPABILITY_APPROVAL_WAITING; CAPABILITY_COMPLETED;
       AGENT_WAITING_CHILDREN; AGENT_COMPLETED]
  | CAPABILITY_APPROVAL_WAITING => [CAPABILITY_MODEL_COMPLETED]
  | CAPABILITY_SKILL_REVOKED_PAUSED => [CAPABILITY_MODEL_PENDING; CAPABILITY_SKILL_REVOKED_CANCELLED]
  | CAPABILITY_SKILL_REVOKED_CANCELLED => []
  | CAPABILITY_COMPLETED => []
  | AGENT_WAITING_CHILDREN => [CAPABILITY_MODEL_PENDING; AGENT_COMPLETED]
  | AGENT_COMPLETED => []
  end.

Definition require_legal_transition (current target : RuntimePhase) : res unit :=
  if bool_decide (target ∈ legal_successors current) then Ok tt
  else Raise PyValueError ("illegal Runtime transition: " +:+ phase_value current +:+ " -> " +:+ phase_value target).

(** ** What the tasks of a runtime share *)

Record RuntimeToolCall := mkRuntimeToolCall {
  tc_tool_invocation_id : string;
  tc_name : string;
  tc_arguments : payload;
  tc_version : string;
  tc_expected_side_effect : string;
  tc_approval_id : option string;
  tc_credential_ref : option string;
  tc_idempotency_key : option string;
}.

(** [Stored] are the events an append of the runtime added to the stream, [Dispatched] has
    the stream as it was when the tool was called. *)
Inductive RuntimeEffect :=
  | Fenced (now : Z)
  | Checked (wall : Z)
  | Stored (events : list CanonicalEvent)
  | Loaded (checkpoint : option RuntimeCheckpoint)
  | Saved (phase : string)
  | Dispatched (call : RuntimeToolCall) (stream : list CanonicalEvent)
  | Observed (invocation_id : string) (answer : payload)
  | Suspended (reason : string)
  | Finished (outcome : string).

Record RuntimeWorld := mkRuntimeWorld {
  rw_control : ControlStore;
  rw_events : EventStore;
  rw_log : list RuntimeEffect;
}.
#[global] Instance RuntimeWorld_eta : Eta RuntimeWorld := λ w,
  mkRuntimeWorld (rw_control w) (rw_events w) (rw_log w).

(** The answers of the services by the number of the await: the clock of the control
    store, [datetime.now] of the runtime, the identifiers and times of the event store,
    the tool client, the hook around a tool, the status and the release of the capability
    controller. *)
Record RuntimeServices := mkRuntimeServices {
  rt_others : nat → list StoreOp * list ControlOp;
  rt_cancelled : nat → bool;
  rt_clock : nat → Z;
  rt_wall : nat → Z;
  rt_supply : nat → Supply;
  rt_tool : nat → RuntimeToolCall → res payload;
  rt_hook : nat → res unit;
  rt_status : nat → string → res payload;
  rt_release : nat → res unit;
}.

Definition ops_after (s : EventStore) (ops : list StoreOp) : EventStore := fold_left run_op ops s.

Section runtime.
Context (rt : RuntimeServices) (a : RuntimeAssignment).
Notation P := (prog RuntimeWorld).
Notation "x <- m ;; k" := (bind m (λ x, k)) (at level 100, m at next level, right associativity).

Definition rt_schedule : Schedule RuntimeWorld :=
  mkSchedule (λ n w, mkRuntimeWorld (run_cops (rt_others rt n).2 (rw_control w))
                       (ops_after (rw_events w) (rt_others rt n).1) (rw_log w)) (rt_cancelled rt).

Definition note_effect (e : RuntimeEffect) (w : RuntimeWorld) : RuntimeWorld := w <| rw_log := rw_log w ++ [e] |>.

(** Calls of the control store. *)
Definition ask_control {A} (f : nat → ControlStore → res A) : P A :=
  await rt_schedule (λ n w, (w, f n (rw_control w))).
Definition tell_control (f : nat → ControlStore → res ControlStore) (e : RuntimeEffect) : P unit :=
  await rt_schedule (λ n w,
    match f n (rw_control w) with
    | Ok s => (note_effect e (w <| rw_control := s |>), Ok tt)
    | Raise c m => (w, Raise c m)
    end).

(** ** The guard *)

(** [assert_fencing], with what it has seen. *)
Definition guard_fence : P unit :=
  await rt_schedule (λ n w,
    match assert_fencing (resource_of a) (ra_fencing_token a) (rt_clock rt n) (rw_control w) with
    | Ok _ => (note_effect (Fenced (rt_clock rt n)) w, Ok tt)
    | Raise c m => (w, Raise c m)
    end).

(** [RuntimeExecutionGuard.check] *)
Definition guard_check : P unit :=
  _ <- guard_fence;;
  cancelled <- ask_control (λ _ s, Ok (is_cancelled s (ra_tenant_id a) (ra_session_id a) (ra_run_id a)));;
  if (cancelled : bool) then raise RuntimeCancelledError ("Runtime run cancelled: " +:+ ra_run_id a) else
  now <- gets (λ n _, rt_wall rt n);;
  if match ra_deadline a with Some d => d <=? now | None => false end
  then raise RuntimeDeadlineExceededError ("Runtime deadline exceeded: " +:+ ra_run_id a)
  else modify (note_effect (Checked now)).

(** [fence] when recovering, [check] otherwise *)
Definition guard (recovery : bool) : P unit := if recovery then guard_fence else guard_check.

(** [load_checkpoint] *)
Definition read_checkpoint : P (option RuntimeCheckpoint) :=
  await rt_schedule (λ _ w,
    let c := load_checkpoint (rw_control w) (ra_tenant_id a) (ra_session_id a) (ra_run_id a) in
    (note_effect (Loaded c) w, Ok c)).

(** ** The Session client *)

Definition stream_at (s : EventStore) : list CanonicalEvent := load s (ra_tenant_id a) (ra_session_id a) 1 None None.

Definition read_stream : P (list CanonicalEvent) := await rt_schedule (λ _ w, (w, Ok (stream_at (rw_events w)))).

(** [FencedSessionClient.load] *)
Definition session_load : P (list CanonicalEvent) := _ <- guard_fence;; read_stream.

(** [_append_at] *)
Definition append_event (events : list NewEvent) (command_id operation : string) (version : Z) : P (list CanonicalEvent) :=
  await rt_schedule (λ n w,
    match append_at (rt_supply rt n) a events command_id operation version (rw_events w) with
    | (s, Ok stored) => (note_effect (Stored stored) (w <| rw_events := s |>), Ok stored)
    | (s, Raise c m) => (w <| rw_events := s |>, Raise c m)
    end).

(** [FencedSessionClient.append]: a conflict with the version the caller named is
    retried once, at the end of the stream. *)
Definition session_append (events : list NewEvent) (command_id operation : string) (expected : option Z)
    : P (list CanonicalEvent) :=
  _ <- guard_fence;;
  version <- match expected with
             | Some v => ret v
             | None => current <- read_stream;; ret (Z.of_nat (length current))
             end;;
  catch (append_event events command_id operation version) (λ c _,
    match c, expected with
    | VersionConflictError, Some _ => Some (
        current <- read_stream;;
        append_event events command_id operation (Z.of_nat (length current)))
    | _, _ => None
    end).

(** ** The committer *)

Definition APPROVAL_TERMINAL_TYPES : list string :=
  ["approval.approved"; "approval.rejected"; "approval.expired"; "approval.cancelled"; "human.response.recorded"].

Definition identity_keys : list string :=
  ["run_id"; "model_call_id"; "tool_invocation_id"; "approval_id"; "checkpoint_id"; "reservation_id"].

Definition names (identity : string) (p : payload) : bool := existsb (λ k, is_lit (pgetn k p) identity) identity_keys.

Definition approval_request_is_pending (existing : list CanonicalEvent) (approval_id : string) : bool :=
  fold_left (λ open e,
    if negb (String.eqb (py_str (pgetd "approval_id" (JStr EmptyString) (ev_payload e))) approval_id) then open
    else if String.eqb (ev_type e) "approval.requested" then true
    else if str_in (ev_type e) APPROVAL_TERMINAL_TYPES then false else open) existing false.

(** The fact is in the events the runtime has read. *)
Definition is_recorded (existing : list CanonicalEvent) (event_type identity : string) : bool :=
  if String.eqb event_type "approval.requested" then approval_request_is_pending existing identity
  else existsb (λ e, String.eqb (ev_type e) event_type && names identity (ev_payload e)) existing.

(** The facts that settle a call which was not dispatched. *)
Definition local_settlement (event_type : string) (p : payload) : res bool :=
  if String.eqb event_type "tool.call.requested" && is_lit (pgetn "runtime_decision" p) "not_dispatched" then Ok true
  else if String.eqb event_type "tool.call.completed" then
    status ← jgetd "status" JNull (pgetd "result" (JObj []) p);
    if negb (is_lit status "denied") then Ok false else
    effect ← jgetd "side_effect_status" JNull (pgetd "result" (JObj []) p);
    Ok (is_lit effect "not_started")
  else Ok false.

Definition recovery_types : list string := ["run.failed"; "run.cancelled"; "runtime.progress.recorded"].

Definition fact_command (event_type identity : string) : string :=
  "runtime:" +:+ event_type +:+ ":" +:+ ra_run_id a +:+ ":" +:+ identity.

(** The attempts that are left; [existing] is the list of the caller, which is kept up to
    date. *)
Fixpoint append_attempts (attempts : nat) (existing : list CanonicalEvent) (event_type : string) (p : payload)
    (identity : string) (v : Visibility) (recovery : bool) : P (list CanonicalEvent) :=
  match attempts with
  | O => ret existing
  | S attempts =>
      if is_recorded existing event_type identity then ret existing else
      _ <- guard recovery;;
      appended <- catch (stored <- session_append [mkNewEvent event_type p v] (fact_command event_type identity)
                                     ("runtime." +:+ event_type) (Some (Z.of_nat (length existing)));;
                         ret (Some stored))
                    (λ c m, match c, attempts with
                            | VersionConflictError, S _ => Some (ret None)
                            | _, _ => None
                            end);;
      match appended with
      | None =>
          refreshed <- session_load;;
          append_attempts attempts refreshed event_type p identity v recovery
      | Some [] => session_load
      | Some stored => ret (existing ++ stored)
      end
  end.

Definition append_once (existing : list CanonicalEvent) (event_type : string) (p : payload) (identity : string)
    (v : Visibility) (recovery : bool) : P (list CanonicalEvent) :=
  settlement <- lift (local_settlement event_type p);;
  if recovery && negb settlement && negb (str_in event_type recovery_types)
  then raise PyValueError "Recovery cannot begin new execution"
  else append_attempts 8 existing event_type p identity v recovery.

Definition capability_recovery_types : list string := "skill.invocation.settled" :: SKILL_TERMINAL_EVENTS.

(** The identity in the command id of a capability event. *)
Definition capability_identity (e : NewEvent) : res string :=
  let p := ne_payload e in
  if String.prefix "skill.invocation." (ne_type e) then
    invocation ← pget "tool_invocation_id" p;
    Ok (py_str invocation +:+ ":" +:+ py_str (pgetd "invocation_cycle" (JInt 0) p))
  else if truthy (pgetn "skill_activation_id" p) then Ok (py_str (pgetn "skill_activation_id" p))
  else Ok (String.substring 0 24 (sha256_hex (utf8 (json_dumps true (JObj p))))).

Definition of_activation (types : list string) (identity : string) (e : CanonicalEvent) : bool :=
  str_in (ev_type e) types && is_lit (pgetn "skill_activation_id" (ev_payload e)) identity.

(** The three attempts at a terminal event of a Skill. *)
Fixpoint terminal_attempts (attempts : nat) (e : NewEvent) (identity : string) (recovery : bool) : P unit :=
  match attempts with
  | O => raise VersionConflictError "Skill terminal event conflicted with concurrent events"
  | S attempts =>
      existing <- session_load;;
      if existsb (of_activation SKILL_TERMINAL_EVENTS identity) existing then ret tt else
      _ <- guard recovery;;
      conflict <- catch (_ <- session_append [e] ("runtime:skill.terminal:" +:+ identity) "runtime.skill.terminal"
                                (Some (Z.of_nat (length existing)));; ret false)
                    (λ c _, match c with VersionConflictError => Some (ret true) | _ => None end);;
      if (conflict : bool) then terminal_attempts attempts e identity recovery else ret tt
  end.

Definition append_capability_event (e : NewEvent) (recovery : bool) : P unit :=
  if recovery && negb (str_in (ne_type e) capability_recovery_types)
  then raise PyValueError "Recovery cannot begin new execution" else
  identity <- lift (capability_identity e);;
  done <- (if String.eqb (ne_type e) "skill.activated"
           then existing <- session_load;; ret (existsb (of_activation ["skill.activated"] identity) existing)
           else ret false);;
  if (done : bool) then ret tt else
  if str_in (ne_type e) SKILL_TERMINAL_EVENTS then terminal_attempts 3 e identity recovery else
  _ <- guard recovery;;
  _ <- session_append [e] ("runtime:" +:+ ne_type e +:+ ":" +:+ identity) ("runtime." +:+ ne_type e) None;;
  ret tt.

(** ** Progress *)

Definition task_id : string := assignment_task_id (ra_tenant_id a) (ra_session_id a) (ra_run_id a).

Definition save_to_control (phase : string) (state : payload) : P unit :=
  now <- gets (λ n _, rt_wall rt n);;
  tell_control (λ n s, save_checkpoint (mkCheckpoint (ra_tenant_id a) (ra_session_id a) (ra_run_id a)
                         (ra_fencing_token a) phase state now) (rt_clock rt n) s) (Saved phase).

(** The text of a checkpoint, which names it. *)
Definition checkpoint_text (phase : RuntimePhase) (state : payload) : string :=
  json_dumps true (JObj [("phase", JStr (phase_value phase)); ("state", JObj state)]).

(** [RuntimeProgressStore.save_checkpoint] of the engine, which has a Session and a committer *)
Definition save_progress (phase : RuntimePhase) (state : payload) : P unit :=
  if String.eqb (rb_policy_version (ra_budget a)) "2" then
    let encoded := checkpoint_text phase state in
    let identity := sha256_hex (utf8 encoded) in
    events <- session_load;;
    stored <- lift (decoded ← json_loads encoded; match decoded with JObj d => pget "state" d | _ => Raise PyTypeError EmptyString end);;
    _ <- append_once events "runtime.progress.recorded"
           [("checkpoint_id", JStr identity); ("phase", JStr (phase_value phase)); ("state", stored)]
           identity VInternal true;;
    save_to_control (phase_value phase) state
  else save_to_control (phase_value phase) state.

(** [suspend_for_children] *)
Definition suspend_for_children (state : payload) (child_session_ids : list json) : P unit :=
  let waiting := fromkeys (map py_str (filter (λ v, truthy v = true) child_session_ids)) in
  match waiting with
  | [] => raise CollaborationValidationError "waiting_children requires a non-empty persisted Child wait set"
  | _ =>
      let state := dset "waiting_child_ids" (jstrs waiting) state in
      now <- gets (λ n _, rt_wall rt n);;
      _ <- (if String.eqb (rb_policy_version (ra_budget a)) "2" then save_progress AGENT_WAITING_CHILDREN state else ret tt);;
      tell_control (λ n s, suspend_with_checkpoint task_id
                             (mkCheckpoint (ra_tenant_id a) (ra_session_id a) (ra_run_id a) (ra_fencing_token a)
                                (phase_value AGENT_WAITING_CHILDREN) state now) "waiting_children" (rt_clock rt n) s)
        (Suspended "waiting_children")
  end.
End runtime.

(** ** A fact with a command id of its own *)

(** The events an accepted append stores are those proposed, but for the budget. *)
Lemma append_stores su root sid run cx events result s s' r :
  append su root sid run cx events result s = (s', Ok r) → apr_deduplicated r = false →
  Forall2 (stored_from root) events (apr_events r).
Proof.
  unfold append. destruct (dget _ _) as [previous|].
  { unfold replayed_command. destruct (negb _); intros; simplify_eq; done. }
  destruct (negb _); [done|]. destruct (govern _ _ _ _ _) as [governed|] eqn:Eg; [|done].
  intros [= _ <-] _. cbn [apr_events]. by eapply store_events_from, govern_from.
Qed.

Lemma names_key k identity p : k ∈ identity_keys → pgetn k p = JStr identity → names identity p = true.
Proof.
  intros Hk Hp. apply existsb_exists. exists k. split; [by apply list_elem_of_In|]. rewrite Hp. apply String.eqb_refl.
Qed.

Section fact.
(** A fact in the stream [(tenant, session)], by its type and identity, and the command
    that records it. *)
Context (tenant session operation command event_type identity : string).
Notation key := (tenant, operation, command).

Definition names_fact (ty : string) (p : payload) : bool := String.eqb ty event_type && names identity p.

Definition facts (s : EventStore) : list CanonicalEvent :=
  List.filter (λ e, names_fact (ev_type e) (ev_payload e)) (stream_of s (tenant, session)).

(** The fact is stored once when its command was accepted, and not at all before. *)
Definition recorded_by_command (s : EventStore) : Prop :=
  length (facts s) = match dget key (es_commands s) with Some _ => 1%nat | None => 0%nat end.

(** Who stores the fact uses the command, and the command stores nothing else. *)
Definition stores_properly (op : StoreOp) : Prop :=
  match op with
  | OpAppend _ _ sid _ cx events _ =>
      if decide (command_key_of cx = key)
      then sid = session ∧ ∃ e, events = [e] ∧ names_fact (ne_type e) (ne_payload e) = true
      else Forall (λ e, names_fact (ne_type e) (ne_payload e) = false) events
  | OpBatch _ _ cx appends _ =>
      command_key_of cx ≠ key
      ∧ Forall (λ item, Forall (λ e, names_fact (ne_type e) (ne_payload e) = false) (st_events item)) appends
  | _ => True
  end.

Lemma names_stored root n e : stored_from root n e → names identity (ev_payload e) = names identity (ne_payload n).
Proof.
  intros (_ & _ & Hk & _). unfold names, pgetn. cbn [existsb identity_keys].
  rewrite !Hk; [done|unfold governed_key; case_match; done..].
Qed.
Lemma is_fact_stored root n e : stored_from root n e → names_fact (ev_type e) (ev_payload e) = names_fact (ne_type n) (ne_payload n).
Proof. intros H. unfold names_fact. rewrite (names_stored _ _ _ H). by destruct H as [-> _]. Qed.

Lemma filter_stored root ns es b :
  Forall2 (stored_from root) ns es → Forall (λ n, names_fact (ne_type n) (ne_payload n) = b) ns →
  List.filter (λ e, names_fact (ev_type e) (ev_payload e)) es = if b then es else [].
Proof.
  induction 1 as [|n e ns es Hne _ IH]; intros Hf; [by destruct b|].
  apply Forall_cons in Hf as [Hn Hf]. cbn. rewrite (is_fact_stored _ _ _ Hne), Hn, IH by done. by destruct b.
Qed.

Lemma facts_app s s' new :
  stream_of s' (tenant, session) = stream_of s (tenant, session) ++ new →
  facts s' = facts s ++ List.filter (λ e, names_fact (ev_type e) (ev_payload e)) new.
Proof. intros H. unfold facts. by rewrite H, List.filter_app. Qed.

Lemma append_recorded su root sid run cx events result s s' r :
  append su root sid run cx events result s = (s', r) →
  stores_properly (OpAppend su root sid run cx events result) → recorded_by_command s →
  recorded_by_command s' ∧ (∀ x, r = Ok x → command_key_of cx = key → dget key (es_commands s') ≠ None)
  ∧ (dget key (es_commands s) ≠ None → dget key (es_commands s') ≠ None).
Proof.
  intros Ha Hp Hr. destruct r as [x|c m].
  2:{ apply append_refused in Ha as (Hs & Hc & _). unfold recorded_by_command, facts in *. rewrite Hs, Hc. done. }
  pose proof Ha as Hst. apply append_inv in Ha as [(previous & Hprev & -> & ->)|(Hnone & _ & governed & Hx & Hs')].
  { split_and!; [done| |done]. intros _ _ <-. by rewrite Hprev. }
  assert (apr_deduplicated x = false) as Hd by by rewrite Hx.
  eapply append_stores in Hst; [|done].
  assert (es_commands s' = dset (command_key_of cx) result (es_commands s)) as Hc by by rewrite Hs'.
  assert (∀ k, stream_of s' k = stream_of s k ++ if decide (k = (cx_tenant_id cx, sid)) then apr_events x else []) as Hk.
  { intros k. rewrite Hs'. unfold stream_of at 1. cbn. rewrite dget_dset. case_decide as E; subst; [done|].
    by rewrite stream_of_setdefault, app_nil_r. }
  clear Hs' Hx. unfold recorded_by_command in *. rewrite (facts_app _ _ _ (Hk _)), Hc, length_app, Hr, dget_dset.
  cbn [stores_properly] in Hp. split_and!; [| |intros ?; destruct (decide (key = command_key_of cx)); done].
  2:{ intros y _ E. by rewrite decide_True. }
  destruct (decide (command_key_of cx = key)) as [E|E].
  - rewrite (decide_True (P := key = _)) by done. rewrite E in Hnone. rewrite Hnone.
    destruct Hp as (-> & e & -> & He). rewrite decide_True by (by injection E as -> _ _).
    erewrite (filter_stored _ _ _ true Hst) by by repeat constructor.
    apply Forall2_length in Hst. cbn in *. lia.
  - rewrite (decide_False (P := key = _)) by done. case_decide as E'.
    + erewrite (filter_stored _ _ _ false Hst) by done. cbn. lia.
    + cbn. lia.
Qed.

Lemma step_recorded s op :
  stores_properly op → recorded_by_command s →
  recorded_by_command (run_op s op) ∧ (dget key (es_commands s) ≠ None → dget key (es_commands (run_op s op)) ≠ None).
Proof.
  intros Hp Hr. destruct (in_place op) eqn:Ei.
  { destruct (in_place_core s op Ei) as (Hs & Hc & _). unfold recorded_by_command, facts, stream_of in *. by rewrite Hs, Hc. }
  destruct op as [su root sid run cx events result|su root cx appends result| | | | | |]; try done; cbn [run_op].
  - destruct (append su root sid run cx events result s) as [s' r] eqn:Ea.
    destruct (append_recorded _ _ _ _ _ _ _ _ _ _ Ea Hp Hr) as (H1 & _ & H3). done.
  - destruct (append_batch su root cx appends result s) as [s' [x|c m]] eqn:Ea; cbn [fst].
    2:{ unfold append_batch in Ea. repeat case_match; simplify_eq; done. }
    apply append_batch_inv in Ea as [(previous & _ & -> & _)|(_ & added & Hadd & Hnd & _ & _ & Hs')]; [done|].
    destruct Hp as [Hne Hno].
    assert (∀ k, stream_of s' k = stream_of s k ++ (if decide (k.1 = cx_tenant_id cx) then default [] (dget k.2 added) else [])) as Hk.
    { intros k. rewrite Hs'. unfold stream_of at 1. cbn. by apply extend_streams_get. }
    assert (dget key (es_commands s') = dget key (es_commands s)) as Hc by (rewrite Hs'; cbn; by apply dget_dset_ne).
    specialize (Hk (tenant, session)). cbn [fst snd] in Hk. rewrite Hc. split; [|done]. unfold recorded_by_command in *. rewrite (facts_app _ _ _ Hk), Hc, length_app, <- Hr.
    enough (List.filter (λ e, names_fact (ev_type e) (ev_payload e))
              (if decide (tenant = cx_tenant_id cx) then default [] (dget session added) else []) = []) as -> by (cbn; lia).
    case_decide; [|done]. destruct (dget session added) as [new|] eqn:E; [|done]. cbn.
    apply dget_Some_elem in E. apply list_elem_of_lookup in E as [i Hi].
    destruct (Forall2_lookup_r _ _ _ _ _ Hadd Hi) as (item & Hitem & _ & _ & Hst). cbn [snd] in Hst.
    erewrite (filter_stored _ _ _ false Hst); [done|]. eapply Forall_lookup_1 in Hno; done.
Qed.

Lemma steps_recorded ops s :
  Forall stores_properly ops → recorded_by_command s →
  recorded_by_command (ops_after s ops)
  ∧ (dget key (es_commands s) ≠ None → dget key (es_commands (ops_after s ops)) ≠ None).
Proof.
  unfold ops_after. revert s. induction ops as [|op ops IH]; intros s Hp Hr; cbn [fold_left]; [done|].
  apply Forall_cons in Hp as [Hop Hp]. destruct (step_recorded s op Hop Hr) as [H1 H2].
  destruct (IH _ Hp H1) as [H3 H4]. auto.
Qed.

(** What the runtime has read is in the stream. *)
Lemma recorded_read s existing :
  event_type ≠ "approval.requested" →
  recorded_by_command s → (∀ e, e ∈ existing → e ∈ stream_of s (tenant, session)) →
  is_recorded existing event_type identity = true → dget key (es_commands s) ≠ None.
Proof.
  intros Hne Hr Hin Hf. unfold is_recorded in Hf. rewrite (proj2 (String.eqb_neq _ _)) in Hf by done.
  apply existsb_exists in Hf as (e & He & Hf). apply list_elem_of_In in He.
  unfold recorded_by_command in Hr. intros Hnone. rewrite Hnone in Hr. apply length_zero_iff_nil in Hr.
  assert (In e (facts s)) as Hin' by (apply filter_In; split; [by apply list_elem_of_In, Hin|exact Hf]).
  by rewrite Hr in Hin'.
Qed.
End fact.

(** ** What the tasks of a runtime keep *)

Section tasks.
Context (rt : RuntimeServices) (a : RuntimeAssignment).
Notation sched := (rt_schedule rt).

(** [good] are the operations on the event store that a property tolerates. *)
Context (good : StoreOp → Prop).
Hypothesis others_good : ∀ n, Forall good (rt_others rt n).1.

Implicit Types (J : EventStore → Prop) (T : list RuntimeEffect → Prop).

(** An assertion about the stored events and the log. *)
Definition asserts J T (w : RuntimeWorld) : Prop := J (rw_events w) ∧ T (rw_log w).
Definition kept_by J : Prop := ∀ s op, good op → J s → J (run_op s op).

(** An append of the runtime is one of them. *)
Definition own_context (command_id operation : string) (version : Z) : CommandContext :=
  mkContext command_id (ra_tenant_id a) (mkActor "runtime" (ra_runtime_id a)) (ra_run_id a) version operation None None.
Definition may_append (events : list NewEvent) (command_id operation : string) : Prop :=
  ∀ su v, good (OpAppend su (ra_root_session_id a) (ra_session_id a) (Some (ra_run_id a))
                  (own_context command_id operation v) events
                  [("session_id", JStr (ra_session_id a)); ("run_id", JStr (ra_run_id a))]).

Notation stream s := (stream_of s (ra_tenant_id a, ra_session_id a)).
Definition seen (l : list CanonicalEvent) (s : EventStore) : Prop := ∀ e, e ∈ l → e ∈ stream s.
Definition command_stored (command_id operation : string) (s : EventStore) : Prop :=
  dget (ra_tenant_id a, operation, command_id) (es_commands s) ≠ None.

(** [T] admits the checks of the guard, and the events of an append right after the check
    of the token. *)
Definition in_time (wall : Z) : Prop := match ra_deadline a with Some d => wall < d | None => True end.
Record admits_checks T : Prop := {
  admits_fenced : ∀ l now, T l → T (l ++ [Fenced now]);
  admits_checked : ∀ l wall, in_time wall → T l → T (l ++ [Checked wall]);
}.
Definition admits_events T (events : list NewEvent) : Prop :=
  ∀ l now es, es = [] ∨ Forall2 (stored_from (ra_root_session_id a)) events es → T l → T (l ++ [Fenced now; Stored es]).

Lemma closed_and J J' : kept_by J → kept_by J' → kept_by (λ s, J s ∧ J' s).
Proof. intros H1 H2 s op Hg [Ha Hb]. split; [by apply H1|by apply H2]. Qed.
Lemma closed_seen l : kept_by (seen l).
Proof. intros s op _ Hs e He. pose proof (run_op_extends s op (ra_tenant_id a, ra_session_id a)) as Hp.
  eapply elem_of_prefix; [by apply Hs|done]. Qed.

Lemma commands_kept s op K : dget K (es_commands s) ≠ None → dget K (es_commands (run_op s op)) ≠ None.
Proof.
  intros Hs. destruct (in_place op) eqn:Ei; [by destruct (in_place_core s op Ei) as (_ & -> & _)|].
  destruct op as [su root sid run cx events result|su root cx appends result| | | | | |]; try done; cbn [run_op].
  - destruct (append su root sid run cx events result s) as [s' [x|c m]] eqn:Ea; cbn [fst].
    + apply append_inv in Ea as [(? & _ & -> & _)|(_ & _ & g & _ & ->)]; [done|]. cbn. rewrite dget_dset. by case_decide.
    + apply append_refused in Ea as (_ & -> & _). done.
  - destruct (append_batch su root cx appends result s) as [s' [x|c m]] eqn:Ea; cbn [fst].
    + apply append_batch_inv in Ea as [(? & _ & -> & _)|(_ & added & _ & _ & _ & _ & ->)]; [done|].
      cbn. rewrite dget_dset. by case_decide.
    + unfold append_batch in Ea. repeat case_match; simplify_eq; done.
Qed.
Lemma closed_accepted command_id operation : kept_by (command_stored command_id operation).
Proof. intros s op _. apply commands_kept. Qed.

Lemma closed_ops J s ops : kept_by J → Forall good ops → J s → J (ops_after s ops).
Proof.
  intros HJ. unfold ops_after. revert s. induction ops as [|op ops IH]; intros s Hg Hs; cbn [fold_left]; [done|].
  apply Forall_cons in Hg as [Hop Hg]. apply IH; [done|]. by apply HJ.
Qed.
Lemma closed_kept J T : kept_by J → kept sched (asserts J T).
Proof. intros HJ n w [Hw Ht]. split; [exact (closed_ops J _ _ HJ (others_good n) Hw)|exact Ht]. Qed.

Lemma keeps_control {A} J T (f : nat → ControlStore → res A) :
  kept_by J → task (asserts J T) (ask_control rt f) (λ _, asserts J T) (asserts J T).
Proof. intros HJ. apply task_await; [by apply closed_kept|done|]. intros n w Hw. by destruct (f n (rw_control w)). Qed.
Lemma tells_control J T T' f e :
  kept_by J → (∀ l, T l → T' (l ++ [e])) → task (asserts J T) (tell_control rt f e) (λ _, asserts J T') (asserts J T).
Proof.
  intros HJ HT. apply task_await; [by apply closed_kept|done|]. intros n w [H1 H2].
  destruct (f n (rw_control w)); [|by split]. split; [exact H1|exact (HT _ H2)].
Qed.

Lemma fences J T T' :
  kept_by J → (∀ l now, T l → T' (l ++ [Fenced now])) → task (asserts J T) (guard_fence rt a) (λ _, asserts J T') (asserts J T).
Proof.
  intros HJ HT. apply task_await; [by apply closed_kept|done|]. intros n w [H1 H2].
  destruct (assert_fencing _ _ _ _); [|by split]. split; [exact H1|exact (HT _ _ H2)].
Qed.
Lemma keeps_fence J T : kept_by J → admits_checks T → task (asserts J T) (guard_fence rt a) (λ _, asserts J T) (asserts J T).
Proof. intros HJ HT. apply fences; [done|apply HT]. Qed.

Lemma checks J T T' :
  kept_by J → (∀ l now, T l → T (l ++ [Fenced now])) → (∀ l wall, in_time wall → T l → T' (l ++ [Checked wall])) →
  task (asserts J T) (guard_check rt a) (λ _, asserts J T') (asserts J T).
Proof.
  intros HJ HF HC. unfold guard_check. eapply task_bind; [by apply fences|intros []].
  eapply task_bind; [by apply keeps_control|]. intros [|]; [by apply task_raise|].
  eapply (task_bind _ _ _ (λ _, asserts J T)); [by apply task_gets|]. intros now.
  destruct (match ra_deadline a with Some d => d <=? now | None => false end) eqn:Ed; [by apply task_raise|].
  apply task_modify. intros w [H1 H2]. split; [exact H1|]. apply HC; [|exact H2].
  unfold in_time. destruct (ra_deadline a); [lia|done].
Qed.
Lemma keeps_guard J T recovery : kept_by J → admits_checks T → task (asserts J T) (guard rt a recovery) (λ _, asserts J T) (asserts J T).
Proof. intros HJ HT. destruct recovery; [by apply keeps_fence|apply checks; [done|apply HT..]]. Qed.

Lemma stream_at_seen s : seen (stream_at a s) s.
Proof. intros e He. unfold stream_at, load in He. cbn in He. by apply list_elem_of_filter in He as [_ He]. Qed.

(** What a load returns is the stream at some moment. *)
Lemma loads_stream J T :
  kept_by J → admits_checks T →
  task (asserts J T) (session_load rt a) (λ l w, asserts J T w ∧ seen l (rw_events w) ∧ ∃ s, J s ∧ l = stream_at a s) (asserts J T).
Proof.
  intros HJ HT. eapply task_bind; [by apply keeps_fence|intros []].
  apply task_await; [by apply closed_kept|done|]. intros n w Hw. split_and!; [done|apply stream_at_seen|].
  exists (rw_events w). split; [apply Hw|done].
Qed.
Lemma reads_stream J T :
  kept_by J → task (asserts J T) (read_stream rt a) (λ l, asserts (λ s, J s ∧ seen l s) T) (asserts J T).
Proof. intros HJ. apply task_await; [by apply closed_kept|done|]. intros n w [H1 H2]. by split; [split; [|apply stream_at_seen]|]. Qed.
Lemma loads_session J T :
  kept_by J → admits_checks T → task (asserts J T) (session_load rt a) (λ l, asserts (λ s, J s ∧ seen l s) T) (asserts J T).
Proof. intros HJ HT. eapply task_bind; [by apply keeps_fence|intros []]. by apply reads_stream. Qed.

Lemma appends_event J T T' events command_id operation version :
  kept_by J → may_append events command_id operation →
  (∀ l es, es = [] ∨ Forall2 (stored_from (ra_root_session_id a)) events es → T l → T' (l ++ [Stored es])) →
  task (asserts J T) (append_event rt a events command_id operation version)
    (λ l, asserts (λ s, J s ∧ command_stored command_id operation s ∧ seen l s) T') (asserts J T).
Proof.
  intros HJ Hm HT. apply task_await; [by apply closed_kept|done|]. intros n w [Hw Ht]. unfold append_at.
  pose proof (HJ _ _ (Hm (rt_supply rt n) version) Hw) as Hw'. cbn [run_op] in Hw'. unfold own_context in Hw'.
  destruct (append _ _ _ _ _ _ _ _) as [s' [x|c m]] eqn:Ea; [|by split].
  cbn [fmap res_fmap]. pose proof (append_stores _ _ _ _ _ _ _ _ _ _ Ea) as Hst.
  apply append_inv in Ea as [(previous & Hp & -> & ->)|(_ & _ & g & Hx & ->)].
  - split; [|by apply HT; [left|]]. split_and!; [exact Hw'| |by intros e He%elem_of_nil].
    unfold command_stored. unfold command_key_of in Hp. cbn in Hp |- *. by rewrite Hp.
  - split; [|apply HT; [right; apply Hst; by rewrite Hx|exact Ht]].
    split_and!; [exact Hw'|unfold command_stored; cbn; by rewrite dget_dset_eq|]. intros e He. unfold stream_of. cbn.
    rewrite dget_dset_eq. cbn. apply elem_of_app. by right.
Qed.

Lemma weak_seen J l T : ∀ w : RuntimeWorld, asserts (λ s, J s ∧ seen l s) T w → asserts J T w.
Proof. by intros w [[? _] ?]. Qed.

Lemma appends_session J T events command_id operation expected :
  kept_by J → admits_checks T → may_append events command_id operation → admits_events T events →
  task (asserts J T) (session_append rt a events command_id operation expected)
    (λ l, asserts (λ s, J s ∧ command_stored command_id operation s ∧ seen l s) T) (asserts J T).
Proof.
  intros HJ HT Hm HE. unfold session_append.
  set (T' := λ l, ∃ l0 now, l = l0 ++ [Fenced now] ∧ T l0).
  assert (∀ J w, asserts J T' w → asserts J T w) as Hback.
  { intros J' w [H1 (l0 & now & E & H2)]. split; [exact H1|]. rewrite E. by apply HT. }
  assert (∀ version, task (asserts J T') (append_event rt a events command_id operation version)
            (λ l, asserts (λ s, J s ∧ command_stored command_id operation s ∧ seen l s) T) (asserts J T')) as Happ.
  { intros version. apply appends_event; [done|done|]. intros l es Hes (l0 & now & -> & H2). rewrite <- app_assoc. by apply HE. }
  eapply task_bind; [apply (fences J T T' HJ); intros l now Hl; exists l, now; by split|intros []].
  refine (task_weaken _ (asserts J T') _ _ _ _ _ _ (λ _ H, H) (λ _ _ H, H) (Hback J)).
  eapply (task_bind _ _ _ (λ _, asserts J T')).
  { destruct expected; [by apply task_ret|]. eapply task_bind; [by apply reads_stream|]. intros l. apply task_ret.
    apply weak_seen. }
  intros version. eapply task_catch; [apply Happ| |done].
  intros c m. destruct c, expected; try done. eapply task_bind; [by apply reads_stream|]. intros l.
  eapply task_weaken; [apply Happ|apply weak_seen|done|done].
Qed.

(** A fact is recorded when its command was accepted, or when the runtime has seen it. *)
Definition fact_committed (event_type identity : string) (s : EventStore) : Prop :=
  command_stored (fact_command a event_type identity) ("runtime." +:+ event_type) s
  ∨ ∃ l, seen l s ∧ is_recorded l event_type identity = true.

Lemma closed_committed event_type identity : kept_by (fact_committed event_type identity).
Proof.
  intros s op Hg [H|(l & Hl & Hr)]; [left; by apply commands_kept|right]. exists l. split; [|done]. by apply closed_seen.
Qed.

Section once.
Context (event_type : string) (p : payload) (identity : string) (v : Visibility) (recovery : bool).
Context (T : list RuntimeEffect → Prop).
Hypothesis Hmay : may_append [mkNewEvent event_type p v] (fact_command a event_type identity) ("runtime." +:+ event_type).
Hypothesis HT : admits_checks T.
Hypothesis HE : admits_events T [mkNewEvent event_type p v].

Lemma attempts_commit attempts existing J :
  kept_by J →
  task (asserts (λ s, J s ∧ seen existing s) T) (append_attempts rt a attempts existing event_type p identity v recovery)
    (λ l, asserts (λ s, J s ∧ seen l s ∧ (attempts ≠ O → fact_committed event_type identity s)) T) (asserts J T).
Proof.
  intros HJ. revert existing. induction attempts as [|attempts IH]; intros existing; cbn [append_attempts].
  { apply task_ret. intros w [[H1 H2] H3]. split; [|exact H3]. by split_and!. }
  pose proof (closed_and _ _ HJ (closed_seen existing)) as HJs.
  destruct (is_recorded existing event_type identity) eqn:Er.
  { apply task_ret. intros w [[H1 H2] H3]. split; [|exact H3]. split_and!; [done|done|]. intros _. right. by exists existing. }
  eapply task_bind; [eapply task_weaken; [by apply keeps_guard, HT|done|done|apply weak_seen]|]. intros []. cbn beta.
  eapply (task_bind _ _ _ (λ r, match r with
    | Some l => asserts (λ s, (J s ∧ seen existing s) ∧ fact_committed event_type identity s ∧ seen l s) T
    | None => λ w, asserts J T w ∧ attempts ≠ O
    end)).
  - eapply task_catch with (F := asserts (λ s, J s ∧ seen existing s) T); [| |apply weak_seen].
    + eapply task_bind; [by apply appends_session|]. intros l. apply task_ret. intros w ((H1 & H2 & H3) & H4).
      split; [|exact H4]. repeat split; [apply H1|apply H1|by left|exact H3].
    + intros c m. destruct c, attempts; cbn -[weak_seen]; try apply weak_seen.
      all: apply task_ret; intros w Hw; split; [by eapply weak_seen|done].
  - intros [[|e l]|].
    + eapply task_weaken; [eapply (loads_session (λ s, J s ∧ fact_committed event_type identity s) T)| | |].
      * by apply closed_and, closed_committed.
      * exact HT.
      * intros w [[[H1 _] [H2 _]] H3]. by split.
      * intros l w [[[H1 H2] H3] H4]. split; [|exact H4]. by split_and!.
      * by intros w [[H1 _] H2].
    + apply task_ret. intros w [([H1 H2] & H3 & H4) H5]. split; [|exact H5]. split_and!; [done| |done].
      intros e' [He|He]%elem_of_app; auto.
    + apply task_given. intros Hne. eapply task_bind; [by apply loads_session|]. intros refreshed.
      eapply task_weaken; [apply IH|done| |done]. intros l w [(H1 & H2 & H3) H4]. split; [|exact H4]. split_and!; auto.
Qed.

Lemma once_commits existing J :
  kept_by J →
  task (asserts (λ s, J s ∧ seen existing s) T) (append_once rt a existing event_type p identity v recovery)
    (λ l, asserts (λ s, J s ∧ seen l s ∧ fact_committed event_type identity s) T) (asserts J T).
Proof.
  intros HJ. unfold append_once. eapply (task_bind _ _ _ (λ _, asserts (λ s, J s ∧ seen existing s) T)).
  { apply task_lift; [done|apply weak_seen]. }
  intros settlement. destruct (_ && _); [apply task_raise, weak_seen|].
  eapply task_weaken; [by apply attempts_commit|done| |done]. intros l w [(H1 & H2 & H3) H4]. split; [|exact H4]. split_and!; auto.
Qed.
End once.

Lemma lifts {A} J T (r : res A) : task (asserts J T) (lift r) (λ x w, asserts J T w ∧ r = Ok x) (asserts J T).
Proof. by apply task_lift. Qed.

Section capability.
Context (T : list RuntimeEffect → Prop) (e : NewEvent) (recovery : bool).
Hypothesis Hmay : ∀ command_id operation, may_append [e] command_id operation.
Hypothesis HT : admits_checks T.
Hypothesis HE : admits_events T [e].

Lemma terminal_keeps attempts identity J :
  kept_by J → task (asserts J T) (terminal_attempts rt a attempts e identity recovery) (λ _, asserts J T) (asserts J T).
Proof.
  intros HJ. induction attempts as [|attempts IH]; cbn [terminal_attempts]; [by apply task_raise|].
  eapply task_bind; [by apply loads_session|]. intros existing.
  refine (task_weaken _ (asserts J T) _ _ _ _ _ _ (weak_seen _ _ _) (λ _ _ H, H) (λ _ H, H)).
  destruct (existsb _ _); [by apply task_ret|]. eapply task_bind; [by apply keeps_guard|]. intros [].
  eapply (task_bind _ _ _ (λ _, asserts J T)).
  - eapply task_catch; [|intros c m; destruct c; try done; by apply task_ret|done].
    eapply task_bind; [by apply appends_session|]. intros l. apply task_ret. intros w [[H1 _] H2]. by split.
  - intros [|]; [exact IH|by apply task_ret].
Qed.

Lemma capability_keeps J :
  kept_by J → task (asserts J T) (append_capability_event rt a e recovery) (λ _, asserts J T) (asserts J T).
Proof.
  intros HJ. unfold append_capability_event. destruct (_ && _); [by apply task_raise|].
  eapply (task_bind _ _ _ (λ _, asserts J T)); [by apply task_lift|]. intros identity.
  eapply (task_bind _ _ _ (λ _, asserts J T)).
  { destruct (String.eqb _ _); [|by apply task_ret]. eapply task_bind; [by apply loads_session|]. intros l.
    apply task_ret, weak_seen. }
  intros [|]; [by apply task_ret|]. destruct (str_in _ _); [by apply terminal_keeps|].
  eapply task_bind; [by apply keeps_guard|]. intros []. eapply task_bind; [by apply appends_session|]. intros l.
  apply task_ret. intros w [[H1 _] H2]. by split.
Qed.
End capability.

(** The fact of a checkpoint. *)
Definition progress_event (p : payload) : NewEvent := mkNewEvent "runtime.progress.recorded" p VInternal.

Lemma saves_progress phase state J T T' :
  kept_by J → admits_checks T → (∀ p identity, may_append [progress_event p] (fact_command a "runtime.progress.recorded" identity)
                    ("runtime." +:+ "runtime.progress.recorded")) →
  (∀ p, admits_events T [progress_event p]) → (∀ l, T l → T' (l ++ [Saved (phase_value phase)])) →
  task (asserts J T) (save_progress rt a phase state) (λ _, asserts J T') (asserts J T).
Proof.
  intros HJ HT Hm HE Hs.
  assert (task (asserts J T) (save_to_control rt a (phase_value phase) state) (λ _, asserts J T') (asserts J T)) as Hsave.
  { eapply (task_bind _ _ _ (λ _, asserts J T)); [by apply task_gets|]. intros now. by apply tells_control. }
  unfold save_progress. destruct (String.eqb _ _); [|exact Hsave].
  eapply task_bind; [by apply loads_session|]. intros events.
  eapply (task_bind _ _ _ (λ _, asserts (λ s, J s ∧ seen events s) T)); [apply task_lift; [done|apply weak_seen]|].
  intros stored. eapply task_bind; [by apply once_commits; [apply Hm| |apply HE|]|]. intros l.
  eapply task_weaken; [exact Hsave| |done|done]. intros w [[H1 _] H2]. by split.
Qed.
End tasks.

(** ** Facts are recorded once *)

Lemma recorded_le tenant session operation command event_type identity s :
  recorded_by_command tenant session operation command event_type identity s →
  (length (facts tenant session event_type identity s) ≤ 1)%nat.
Proof. unfold recorded_by_command. destruct (dget _ _); lia. Qed.

Lemma committed_once a event_type identity s :
  event_type ≠ "approval.requested" →
  recorded_by_command (ra_tenant_id a) (ra_session_id a) ("runtime." +:+ event_type)
    (fact_command a event_type identity) event_type identity s →
  fact_committed a event_type identity s → length (facts (ra_tenant_id a) (ra_session_id a) event_type identity s) = 1%nat.
Proof.
  intros Hne Hr Hc.
  assert (dget (ra_tenant_id a, "runtime." +:+ event_type, fact_command a event_type identity) (es_commands s) ≠ None) as Hd.
  { destruct Hc as [Hc|(l' & Hl' & Hrec)]; [done|]. by eapply recorded_read. }
  unfold recorded_by_command in Hr. by destruct (dget _ _).
Qed.

(** C11. A fact that only its own command stores is in the stream at most once, and once
    [append_once] has returned exactly once: whatever the others do before each await,
    other runtimes that record the same fact included, and however often the append is
    retried or cancelled.  (Approval requests, which may be repeated once they are
    closed, are excluded.) *)
Theorem fact_recorded_once rt a n w existing event_type p identity v recovery :
  let key_facts := facts (ra_tenant_id a) (ra_session_id a) event_type identity in
  (∀ i, Forall (stores_properly (ra_tenant_id a) (ra_session_id a) ("runtime." +:+ event_type)
                  (fact_command a event_type identity) event_type identity) (rt_others rt i).1) →
  event_type ≠ "approval.requested" → names identity p = true →
  recorded_by_command (ra_tenant_id a) (ra_session_id a) ("runtime." +:+ event_type)
    (fact_command a event_type identity) event_type identity (rw_events w) →
  seen a existing (rw_events w) →
  let '(t, o) := append_once rt a existing event_type p identity v recovery (mkThread n w) in
  (length (key_facts (rw_events (th_world t))) ≤ 1)%nat
  ∧ ∀ l, o = Ret l → length (key_facts (rw_events (th_world t))) = 1%nat.
Proof.
  intros key_facts Ho Hne Hp Hr Hs.
  set (good := stores_properly _ _ _ _ _ _) in Ho. set (J := recorded_by_command _ _ _ _ _ _) in Hr.
  assert (kept_by good J) as HJ by (intros s op Hg Hj; by apply step_recorded).
  assert (may_append a good [mkNewEvent event_type p v] (fact_command a event_type identity) ("runtime." +:+ event_type)) as Hm.
  { intros su ver. unfold good, stores_properly. rewrite decide_True by done. split; [done|]. eexists. split; [done|].
    unfold names_fact. cbn [ne_type ne_payload]. by rewrite String.eqb_refl, Hp. }
  pose proof (task_run _ _ _ _ n w (once_commits rt a good Ho event_type p identity v recovery (λ _, True)
    Hm (Build_admits_checks _ _ (λ _ _ _, I) (λ _ _ _ _, I)) (λ _ _ _ _ _, I) existing J HJ) (conj (conj Hr Hs) I)) as H.
  destruct (append_once _ _ _ _ _ _ _ _ _) as [t [l|c m|]]; [|by split; [eapply recorded_le, H|]..].
  destruct H as [(Hj & Hl & Hc) _]. split; [by eapply recorded_le|]. intros _ _. by apply committed_once.
Qed.

(** ** Concrete runs *)

Module RuntimeCommitExamples.
Definition rc_budget : RuntimeBudget := mkRuntimeBudget 48 8192 None "1".
Definition rc_assignment : RuntimeAssignment :=
  mkAssignment "t1" "s1" "s1" "r1" "rt1" "lea_l" 1 "root" [] (Some (100 * second)) rc_budget None None None None None None.
Definition rc_control : ControlStore := (acquire_lease (session_resource "t1" "s1") "o1" (60 * second) 0 "l" new_control).1.
Definition rc_supply (tag : string) : Supply := mkSupply (λ i, tag +:+ pretty i) (λ i, Z.of_nat i).

(** What the others do, by the number of the await. *)
Definition rc_services (others : nat → list StoreOp * list ControlOp) : RuntimeServices := {|
  rt_others := others;
  rt_cancelled := λ _, false;
  rt_clock := λ i, Z.of_nat i;
  rt_wall := λ i, Z.of_nat i;
  rt_supply := λ i, rc_supply (pretty i);
  rt_tool := λ _ _, Ok [("status", JStr "success")];
  rt_hook := λ _, Ok tt;
  rt_status := λ _ _, Ok [("status", JStr "success"); ("side_effect_status", JStr "completed")];
  rt_release := λ _, Ok tt;
|}.

Definition message : StoreOp :=
  OpAppend (rc_supply "m") "s1" "s1" None (mkContext "c1" "t1" (mkActor "user" "u1") "c1" 0 "message" None None)
    [mkNewEvent "user.message.appended" [("message", JStr "hello")] VUser] [].
Definition started_fact : payload := [("run_id", JStr "r1")].
(** Another runtime that was given the run records the same fact. *)
Definition other_start : StoreOp :=
  OpAppend (rc_supply "o") "s1" "s1" (Some "r1")
    (mkContext "runtime:run.started:r1:r1" "t1" (mkActor "runtime" "rt2") "r1" 1 "runtime.run.started" None None)
    [mkNewEvent "run.started" started_fact VInternal] [].
Definition racing (i : nat) : list StoreOp * list ControlOp :=
  match i with 3%nat => ([message], []) | 5%nat => ([other_start], []) | _ => ([], []) end.

Definition rc_world : RuntimeWorld := mkRuntimeWorld rc_control empty_store [].
Definition raced : Thread RuntimeWorld * outcome (list CanonicalEvent) :=
  append_once (rc_services racing) rc_assignment [] "run.started" started_fact "r1" VInternal false (mkThread 0 rc_world).

(** The append conflicts with the message, its repetition with the other runtime, and the
    fact is there once. *)
Example race_result :
  (map ev_type <$> match raced.2 with Ret l => Ok l | _ => Raise PyValueError EmptyString end)
    = Ok ["user.message.appended"; "run.started"]
  ∧ length (facts "t1" "s1" "run.started" "r1" (rw_events (th_world raced.1))) = 1%nat.
Proof. vm_compute. done. Qed.

Lemma fact_recorded_once_witness :
  let '(t, o) := append_once (rc_services racing) rc_assignment [] "run.started" started_fact "r1" VInternal false (mkThread 0 rc_world) in
  (length (facts "t1" "s1" "run.started" "r1" (rw_events (th_world t))) ≤ 1)%nat
  ∧ ∀ l, o = Ret l → length (facts "t1" "s1" "run.started" "r1" (rw_events (th_world t))) = 1%nat.
Proof.
  apply (fact_recorded_once (rc_services racing) rc_assignment 0 rc_world [] "run.started" started_fact "r1" VInternal false).
  - intros i. do 6 (destruct i as [|i]; [repeat constructor; try (eexists; split; reflexivity)|]). constructor.
  - discriminate.
  - reflexivity.
  - reflexivity.
  - intros e He. by apply elem_of_nil in He.
Defined.

(** An approval that was rejected is requested again in the same run: the command is
    known, nothing is stored, and the runtime goes on as if the request were open. *)
Definition rejection : StoreOp :=
  OpAppend (rc_supply "j") "s1" "s1" (Some "r1") (mkContext "c2" "t1" (mkActor "user" "u1") "c2" 1 "respond" None None)
    [mkNewEvent "approval.rejected" [("approval_id", JStr "apr_1")] VUser] [].
Definition asked_twice : Thread RuntimeWorld * outcome (list CanonicalEvent) :=
  let request events := append_once (rc_services (λ i, if Nat.eqb i 4 then ([rejection], []) else ([], []))) rc_assignment
    events "approval.requested" [("approval_id", JStr "apr_1")] "apr_1" VUser false in
  bind (request []) (λ _, bind (session_load (rc_services (λ i, if Nat.eqb i 4 then ([rejection], []) else ([], [])))
    rc_assignment) request) (mkThread 0 rc_world).
Example rerequest_lost :
  match asked_twice.2 with
  | Ret l => (map ev_type l, approval_request_is_pending l "apr_1") = (["approval.requested"; "approval.rejected"], false)
  | _ => False
  end.
Proof. vm_compute. done. Qed.
End RuntimeCommitExamples.
