(* ===== verification/AgentRun.v ===== *)
(** * The execution of a run ([runtime/{execution_engine,tool_round}.py])

    What the engine does around the turns of the model: it starts a run once, executes a
    tool round so that the call is recorded before it is made and its result after, and
    after a stop reconciles the Skill invocations whose outcome is not known, without
    executing anything.  The methods are tasks over the two stores ([RuntimeCommit]); the
    tools and the capability controller are answers of the services.  The turns
    themselves ([_execute_capability_loop]) are not modelled. *)

From S2P Require Import Prelude PyValue DateTime Digest JsonCodec Contracts RuntimeBudget.
From S2P Require Import SkillExecution EventStore ControlStore Relay Orchestrator Interleave RuntimeCommit.
Local Open Scope Z_scope.

(** ** The response of the model in a checkpoint *)

Record ModelResponse := mkResponse {
  mr_model_call_id : string;
  mr_provider : string;
  mr_model : string;
  mr_completed_output : string;
  mr_deltas : list string;
  mr_tool_calls : list RuntimeToolCall;
  mr_finish_reason : string;
  mr_usage : payload;
}.

Definition tool_call_to_dict (c : RuntimeToolCall) : payload :=
  [("tool_invocation_id", JStr (tc_tool_invocation_id c)); ("name", JStr (tc_name c));
   ("arguments", JObj (tc_arguments c)); ("version", JStr (tc_version c));
   ("expected_side_effect", JStr (tc_expected_side_effect c)); ("approval_id", jopt (tc_approval_id c));
   ("credential_ref", jopt (tc_credential_ref c)); ("idempotency_key", jopt (tc_idempotency_key c))].

Definition response_to_dict (r : ModelResponse) : payload :=
  [("model_call_id", JStr (mr_model_call_id r)); ("provider", JStr (mr_provider r)); ("model", JStr (mr_model r));
   ("completed_output", JStr (mr_completed_output r)); ("deltas", jstrs (mr_deltas r));
   ("tool_calls", JArr (map (λ c, JObj (tool_call_to_dict c)) (mr_tool_calls r)));
   ("finish_reason", JStr (mr_finish_reason r)); ("usage", JObj (mr_usage r))].

(** A member of an object that may be anything. *)
Definition jget (k : string) (v : json) : res json :=
  match v with JObj d => pget k d | _ => Raise PyTypeError k end.

(** An optional text of a call; a value that is no text is kept by the source and has no
    form here. *)
Definition text_member (v : json) : res (option string) :=
  match v with JNull => Ok None | JStr s => Ok (Some s) | _ => Raise Unrepresentable EmptyString end.

Definition tool_call_from_dict (v : json) : res RuntimeToolCall :=
  invocation ← jget "tool_invocation_id" v;
  name ← jget "name" v;
  arguments ← (w ← jgetd "arguments" (JObj []) v; py_dict w);
  version ← jgetd "version" (JStr "1") v;
  side_effect ← jgetd "expected_side_effect" (JStr "read") v;
  approval ← (w ← jgetd "approval_id" JNull v; text_member w);
  credential ← (w ← jgetd "credential_ref" JNull v; text_member w);
  key ← (w ← jgetd "idempotency_key" JNull v; text_member w);
  Ok (mkRuntimeToolCall (py_str invocation) (py_str name) arguments (py_str version) (py_str side_effect) approval
        credential key).

Definition response_from_dict (d : payload) : res ModelResponse :=
  call_id ← pget "model_call_id" d;
  provider ← pget "provider" d;
  model ← pget "model" d;
  output ← pget "completed_output" d;
  deltas ← py_iter (pgetd "deltas" (JArr []) d);
  calls ← (l ← py_iter (pgetd "tool_calls" (JArr []) d); mapR tool_call_from_dict l);
  usage ← py_dict (pgetd "usage" (JObj []) d);
  Ok (mkResponse (py_str call_id) (py_str provider) (py_str model) (py_str output) (map py_str deltas) calls
        (py_str (pgetd "finish_reason" (JStr "stop") d)) usage).

Inductive FinishReasonKind := FStop | FToolCalls | FTruncated | FRefused | FUnknown.

Definition replace_dashes (s : string) : string :=
  str_of (map (λ c, if Ascii.eqb c (chr 45) then chr 95 else c) (str_list s)).

(** [_classify_finish_reason] *)
Definition classify_finish_reason (r : ModelResponse) : FinishReasonKind :=
  match mr_tool_calls r with
  | _ :: _ => FToolCalls
  | [] =>
      let reason := replace_dashes (str_lower (strip (mr_finish_reason r))) in
      if str_in reason ["stop"; "end_turn"; "completed"] then FStop
      else if str_in reason ["tool_calls"; "function_call"; "function_calls"] then FToolCalls
      else if str_in reason ["length"; "max_tokens"; "max_output_tokens"] then FTruncated
      else if str_in reason ["content_filter"; "safety"; "refusal"; "refused"] then FRefused
      else FUnknown
  end.

Inductive ToolRoundDisposition := CONTINUE | WAITING_FOR_HUMAN.

Record ToolRoundResult := mkRound {
  tr_disposition : ToolRoundDisposition;
  tr_result : payload;
  tr_resumed_from_checkpoint : bool;
}.

(** [asdict(assignment.budget)] *)
Definition budget_dict (b : RuntimeBudget) : payload :=
  [("max_steps", JInt (rb_max_steps b)); ("max_output_tokens", JInt (rb_max_output_tokens b));
   ("max_cost", match rb_max_cost b with Some c => JFloat c | None => JNull end);
   ("policy_version", JStr (rb_policy_version b))].

Definition belongs_to_run (run_id : string) (e : CanonicalEvent) : bool := bool_decide (ev_run_id e = Some run_id).

Section engine.
Context (rt : RuntimeServices) (a : RuntimeAssignment).
(** Whether the engine has a capability controller. *)
Context (controller : bool).
Notation P := (prog RuntimeWorld).
Notation "x <- m ;; k" := (bind m (λ x, k)) (at level 100, m at next level, right associativity).

Definition call_service {A} (f : nat → res A) (note : A → list RuntimeEffect) : P A :=
  await (rt_schedule rt) (λ n w,
    match f n with
    | Ok x => (w <| rw_log := rw_log w ++ note x |>, Ok x)
    | Raise c m => (w, Raise c m)
    end).

Definition hook : P unit := call_service (rt_hook rt) (λ _, []).
Definition release_run : P unit := if controller then call_service (rt_release rt) (λ _, []) else ret tt.
Definition finish_run (outcome : string) : P unit :=
  tell_control rt (λ _ s, Ok (finish_assignment (task_id a) outcome s)) (Finished outcome).
Definition suspend_run (reason : string) : P unit :=
  tell_control rt (λ _ s, suspend_assignment (task_id a) reason s) (Suspended reason).

(** [self._tools.execute]; a call is logged when it is made. *)
Definition execute_tool (call : RuntimeToolCall) : P payload :=
  await (rt_schedule rt) (λ n w, (note_effect (Dispatched call (stream_of (rw_events w) (ra_tenant_id a, ra_session_id a))) w, rt_tool rt n call)).

(** ** A tool round *)

Section round.
Context (response : ModelResponse) (call : RuntimeToolCall) (index sequence : Z).

Definition is_completed (e : CanonicalEvent) : bool :=
  String.eqb (ev_type e) "tool.call.completed"
  && is_lit (pgetn "tool_invocation_id" (ev_payload e)) (tc_tool_invocation_id call).

Definition requested_payload : payload :=
  [("tool_invocation_id", JStr (tc_tool_invocation_id call)); ("name", JStr (tc_name call));
   ("arguments", JObj (tc_arguments call)); ("version", JStr (tc_version call));
   ("expected_side_effect", JStr (tc_expected_side_effect call)); ("activity", JObj [("source", JStr "tool")])].

Definition pending_state : payload :=
  [("response", JObj (response_to_dict response)); ("tool_index", JInt index);
   ("tool_invocation_id", JStr (tc_tool_invocation_id call)); ("sequence", JInt sequence)].
Definition completed_state (result : payload) : payload :=
  [("response", JObj (response_to_dict response)); ("tool_index", JInt index);
   ("tool_invocation_id", JStr (tc_tool_invocation_id call)); ("result", JObj result); ("sequence", JInt sequence)].
Definition waiting_state (approval_id : string) : payload :=
  [("response", JObj (response_to_dict response)); ("tool_index", JInt index);
   ("tool_invocation_id", JStr (tc_tool_invocation_id call)); ("approval_id", JStr approval_id);
   ("sequence", JInt sequence)].

(** The checkpoint says that this call was made. *)
Definition resumes (checkpoint : option RuntimeCheckpoint) : option RuntimeCheckpoint :=
  match checkpoint with
  | Some c => if String.eqb (cp_phase c) (phase_value TOOL_COMPLETED)
                 && is_lit (pgetn "tool_invocation_id" (cp_state c)) (tc_tool_invocation_id call) then Some c else None
  | None => None
  end.

(** The part between the two checkpoints. *)
Definition run_tool : P payload :=
  _ <- save_progress rt a TOOL_PENDING pending_state;;
  _ <- hook;;
  _ <- guard_check rt a;;
  result <- execute_tool call;;
  _ <- guard_check rt a;;
  _ <- save_progress rt a TOOL_COMPLETED (completed_state result);;
  _ <- hook;;
  ret result.

(** The approval a result asks for, with its id. *)
Definition asked_approval (result : payload) : res (payload * string) :=
  request ← jgetd "approval_request" (JObj []) (pgetd "metadata" (JObj []) result);
  id ← jgetd "approval_id" (JStr (tc_tool_invocation_id call)) request;
  request ← py_dict request;
  Ok (request, py_str id).

Definition wait_for_human (events : list CanonicalEvent) (result : payload) (resumed : bool) : P ToolRoundResult :=
  approval <- lift (asked_approval result);;
  _ <- append_once rt a events "approval.requested" approval.1 approval.2 VUser false;;
  events <- session_load rt a;;
  _ <- append_once rt a events "tool.call.denied"
         [("tool_invocation_id", JStr (tc_tool_invocation_id call)); ("name", JStr (tc_name call));
          ("error_code", JStr "approval_required"); ("approval_id", JStr approval.2)]
         (tc_tool_invocation_id call) VInternal false;;
  _ <- save_progress rt a APPROVAL_WAITING (waiting_state approval.2);;
  ret (mkRound WAITING_FOR_HUMAN result resumed).

Definition completed_payload (result : payload) : payload :=
  [("tool_invocation_id", JStr (tc_tool_invocation_id call)); ("name", JStr (tc_name call)); ("result", JObj result)].

Definition settle_round (result : payload) (resumed : bool) : P ToolRoundResult :=
  events <- session_load rt a;;
  if is_lit (pgetn "error_code" result) "approval_required" then wait_for_human events result resumed else
  _ <- append_once rt a events "tool.call.completed" (completed_payload result) (tc_tool_invocation_id call) VInternal false;;
  _ <- save_progress rt a MODEL_RECORDED
         [("response", JObj (response_to_dict response)); ("sequence", JInt sequence)];;
  ret (mkRound CONTINUE result resumed).

(** [ToolRoundExecutor.execute] *)
Definition tool_round : P ToolRoundResult :=
  events <- session_load rt a;;
  match List.find is_completed events with
  | Some e =>
      result <- lift (py_dict (pgetd "result" (JObj []) (ev_payload e)));;
      ret (mkRound CONTINUE result true)
  | None =>
      _ <- append_once rt a events "tool.call.requested" requested_payload (tc_tool_invocation_id call) VInternal false;;
      checkpoint <- read_checkpoint rt a;;
      match resumes checkpoint with
      | Some c =>
          result <- lift (v ← pget "result" (cp_state c); py_dict v);;
          settle_round result true
      | None => result <- run_tool;; settle_round result false
      end
  end.
End round.

(** ** Reconciling after a stop *)

(** The members of a set of texts; a value that cannot be hashed raises. *)
Definition in_texts (v : json) (l : list string) : res bool :=
  if hashable v then Ok (existsb (is_lit v) l) else Raise PyTypeError "unhashable type".

(** The answer settles the invocation. *)
Definition observation_settles (observed : payload) : res bool :=
  let status := pgetn "status" observed in
  let effect := pgetn "side_effect_status" observed in
  if is_lit status "success" then Ok true else
  ended ← in_texts status ["error"; "denied"; "cancelled"];
  if negb ended then Ok false else
  unknown ← (if is_none effect then Ok true else in_texts effect ["unknown"]);
  Ok (negb unknown).

Definition settled_event (requested : CanonicalEvent) (observed : payload) : NewEvent :=
  mkNewEvent "skill.invocation.settled"
    (dset "side_effect_status" (pgetn "side_effect_status" observed)
       (dset "status" (pgetn "status" observed) (ev_payload requested))) VInternal.

(** The loop over the pending invocations. *)
Fixpoint observe_pending (pending : list CanonicalEvent) : P unit :=
  match pending with
  | [] => ret tt
  | requested :: pending =>
      invocation <- lift (py_str <$> pget "tool_invocation_id" (ev_payload requested));;
      observed <- call_service (λ n, rt_status rt n invocation) (λ answer, [Observed invocation answer]);;
      known <- lift (observation_settles observed);;
      _ <- (if known : bool then append_capability_event rt a (settled_event requested observed) true else ret tt);;
      observe_pending pending
  end.

Definition stopped_payload (activation : json) : payload :=
  [("skill_activation_id", activation); ("error_code", JStr "run_stopped_after_invocation_settled")].

Fixpoint cancel_activations (activations : list json) : P unit :=
  match activations with
  | [] => ret tt
  | activation :: activations =>
      _ <- append_capability_event rt a (mkNewEvent "skill.cancelled" (stopped_payload activation) VInternal) true;;
      cancel_activations activations
  end.

(** [dict.fromkeys(e.payload["skill_activation_id"] for e in pending)] *)
Definition activations_of (pending : list CanonicalEvent) : res (list json) :=
  map fst <$> foldM (λ d e, v ← pget "skill_activation_id" (ev_payload e); jd_set v tt d) pending [].

Definition run_terminal_event (events : list CanonicalEvent) : option CanonicalEvent :=
  List.find (λ e, belongs_to_run (ra_run_id a) e && str_in (ev_type e) RUN_TERMINAL_EVENTS) events.

(** [event.type[4:]] *)
Definition outcome_of (e : CanonicalEvent) : string :=
  String.substring 4 (String.length (ev_type e) - 4) (ev_type e).

Definition run_failed_payload : payload :=
  [("run_id", JStr (ra_run_id a)); ("error_code", JStr "run_stopped_after_invocation_settled")].

(** What follows when nothing is pending any more. *)
Definition conclude_stopped (pending : list CanonicalEvent) : P bool :=
  activations <- lift (activations_of pending);;
  _ <- cancel_activations activations;;
  events <- session_load rt a;;
  let terminal := run_terminal_event events in
  _ <- (match terminal with
        | Some _ => ret []
        | None => append_once rt a events "run.failed" run_failed_payload (ra_run_id a) VInternal true
        end);;
  _ <- release_run;;
  _ <- finish_run (match terminal with Some e => outcome_of e | None => "failed" end);;
  ret true.

(** [_recover_pending_outcomes] *)
Definition recover_pending_outcomes : P bool :=
  _ <- guard_fence rt a;;
  events <- session_load rt a;;
  match pending_skill_invocations events (Some (ra_run_id a)) with
  | [] => ret false
  | pending =>
      if negb controller then _ <- suspend_run "waiting_for_tool";; ret true else
      _ <- observe_pending (take 8 pending);;
      events <- session_load rt a;;
      match pending_skill_invocations events (Some (ra_run_id a)) with
      | _ :: _ => _ <- suspend_run "waiting_for_tool";; ret true
      | [] => conclude_stopped pending
      end
  end.

(** ** Reservations and calls that are not made *)

Definition reserve_budget (identity kind : string) (tokens : Z) : P unit :=
  facts <- session_load rt a;;
  _ <- append_once rt a facts "runtime.budget.reserved"
         [("reservation_id", JStr identity); ("kind", JStr kind); ("output_tokens", JInt tokens)] identity VInternal false;;
  ret tt.

(** [_settle_local_stop] *)
Definition settle_local_stop (call : RuntimeToolCall) (turn_index : Z) (code : string) : P unit :=
  events <- session_load rt a;;
  _ <- append_once rt a events "tool.call.completed"
         [("tool_invocation_id", JStr (tc_tool_invocation_id call)); ("name", JStr (tc_name call));
          ("turn_index", JInt turn_index);
          ("result", JObj [("status", JStr "denied"); ("error_code", JStr code);
             ("side_effect_status", JStr "not_started"); ("retryable", JBool false);
             ("summary", JStr "Runtime stopped this call before execution.");
             ("metadata", JObj [("decision", JStr "not_dispatched");
                ("policy_version", JStr (rb_policy_version (ra_budget a)))])])]
         (tc_tool_invocation_id call) VInternal true;;
  ret tt.

(** [_settle_unstarted_batch] *)
Fixpoint settle_unstarted_batch (calls : list RuntimeToolCall) (turn_index : Z) (code : string) : P unit :=
  match calls with
  | [] => ret tt
  | call :: calls =>
      events <- session_load rt a;;
      _ <- append_once rt a events "tool.call.requested"
             [("tool_invocation_id", JStr (tc_tool_invocation_id call)); ("name", JStr (tc_name call));
              ("arguments", JObj (tc_arguments call)); ("turn_index", JInt turn_index);
              ("runtime_decision", JStr "not_dispatched"); ("version", JStr (tc_version call));
              ("expected_side_effect", JStr (tc_expected_side_effect call))]
             (tc_tool_invocation_id call) VInternal true;;
      _ <- settle_local_stop call turn_index code;;
      settle_unstarted_batch calls turn_index code
  end.

(** ** Starting a run *)

Definition started_payload : payload :=
  [("run_id", JStr (ra_run_id a)); ("runtime_id", JStr (ra_runtime_id a));
   ("budget_snapshot", JObj (budget_dict (ra_budget a)))].

(** The budget of the run is the one it was started with. *)
Definition same_budget (events : list CanonicalEvent) : bool :=
  match List.find (λ e, belongs_to_run (ra_run_id a) e && String.eqb (ev_type e) "run.started") events with
  | Some e => negb (dmem "budget_snapshot" (ev_payload e))
              || py_eq (pgetn "budget_snapshot" (ev_payload e)) (JObj (budget_dict (ra_budget a)))
  | None => true
  end.

(** [execute] up to the turns of the model: [None] when it returns, [Some events] when the
    turns follow. *)
Definition begin_run : P (option (list CanonicalEvent)) :=
  if negb (str_in (rb_policy_version (ra_budget a)) ["1"; "2"])
  then raise CollaborationValidationError "unsupported Runtime budget policy version" else
  stopped <- catch (_ <- guard_check rt a;; ret None) (λ c m,
    match c with
    | RuntimeCancelledError | RuntimeDeadlineExceededError => Some (
        recovered <- recover_pending_outcomes;;
        if (recovered : bool) then ret (Some tt) else raise c m)
    | _ => None
    end);;
  match stopped with
  | Some _ => ret None
  | None =>
      if rb_max_steps (ra_budget a) <? 1
      then raise RuntimeStepBudgetExceededError "Runtime step budget is exhausted" else
      events <- session_load rt a;;
      match run_terminal_event events with
      | Some terminal =>
          recovered <- recover_pending_outcomes;;
          if (recovered : bool) then ret None else _ <- finish_run (outcome_of terminal);; ret None
      | None =>
          if negb (same_budget events)
          then raise CollaborationValidationError "Run budget snapshot changed during recovery" else
          events <- append_once rt a events "run.started" started_payload (ra_run_id a) VInternal false;;
          if existsb (λ e, String.eqb (ev_type e) "run.completed" && belongs_to_run (ra_run_id a) e) events
          then _ <- release_run;; _ <- finish_run "completed";; ret None
          else ret (Some events)
      end
  end.
End engine.

(** ** The protocol of a tool round *)

(** Asking: the call is being recorded; ready: the checkpoint does not say that it was
    made; pending: it will be made; cleared: the guard has just been asked; called; made:
    the checkpoint has the result; settled. *)
Inductive RoundStage := Asking | Ready | Pending | Cleared | Called | Made | Settled.

(** The facts that a stage may store. *)
Definition stage_types (st : RoundStage) : list string :=
  match st with
  | Asking => ["tool.call.requested"]
  | Ready | Called => ["runtime.progress.recorded"]
  | Made => ["tool.call.completed"; "approval.requested"; "tool.call.denied"; "runtime.progress.recorded"]
  | _ => []
  end.

Definition stage_busy (st : RoundStage) : bool := match st with Cleared | Settled => false | _ => true end.

Section protocol.
Context (a : RuntimeAssignment) (call : RuntimeToolCall).
Notation id := (tc_tool_invocation_id call).

(** The second component says that the token has just been checked: only then events are
    stored. *)
Inductive round_step : RoundStage * bool → RuntimeEffect → RoundStage * bool → Prop :=
  | round_fenced st b now : stage_busy st = true → round_step (st, b) (Fenced now) (st, true)
  | round_checked st b wall : in_time a wall → stage_busy st = true → st ≠ Pending → round_step (st, b) (Checked wall) (st, false)
  | round_stored st es : Forall (λ e, ev_type e ∈ stage_types st) es → round_step (st, true) (Stored es) (st, false)
  | round_resumed b c : resumes call c ≠ None → round_step (Asking, b) (Loaded c) (Made, false)
  | round_ready b c : resumes call c = None → round_step (Asking, b) (Loaded c) (Ready, false)
  | round_pending b : round_step (Ready, b) (Saved (phase_value TOOL_PENDING)) (Pending, false)
  | round_cleared b wall : in_time a wall → round_step (Pending, b) (Checked wall) (Cleared, false)
  | round_called b s :
      length (List.filter (λ e, names_fact "tool.call.requested" id (ev_type e) (ev_payload e)) s) = 1%nat →
      round_step (Cleared, b) (Dispatched call s) (Called, false)
  | round_made b : round_step (Called, b) (Saved (phase_value TOOL_COMPLETED)) (Made, false)
  | round_settled b phase : phase ∈ [MODEL_RECORDED; APPROVAL_WAITING] →
      round_step (Made, b) (Saved (phase_value phase)) (Settled, false).

Inductive round_run : RoundStage * bool → list RuntimeEffect → RoundStage * bool → Prop :=
  | round_nil st : round_run st [] st
  | round_snoc st l st' e st'' : round_run st l st' → round_step st' e st'' → round_run st (l ++ [e]) st''.

(** The log of a round that started after [l0] and is in the stage. *)
Definition at_stage (l0 : list RuntimeEffect) (st : RoundStage) (l : list RuntimeEffect) : Prop :=
  ∃ new b, l = l0 ++ new ∧ round_run (Asking, false) new (st, b).

Lemma advances l0 st st' b' l e :
  (∀ b, round_step (st, b) e (st', b')) → at_stage l0 st l → at_stage l0 st' (l ++ [e]).
Proof.
  intros He (new & b & -> & Hr). exists (new ++ [e]), b'. split; [by rewrite app_assoc|]. by eapply round_snoc.
Qed.

Lemma stage_admits l0 st : stage_busy st = true → st ≠ Pending → admits_checks a (at_stage l0 st).
Proof.
  intros Hb Hp. split.
  - intros l now. eapply advances. intros b. by apply round_fenced.
  - intros l wall Hw. eapply advances. intros b. by apply round_checked.
Qed.

Lemma stage_events l0 st n : stage_busy st = true → ne_type n ∈ stage_types st → admits_events a (at_stage l0 st) [n].
Proof.
  intros Hb Hn l now es Hes (new & b & -> & Hr). exists (new ++ [Fenced now; Stored es]), false.
  split; [by rewrite app_assoc|]. change [Fenced now; Stored es] with ([Fenced now] ++ [Stored es]). rewrite app_assoc.
  eapply round_snoc; [eapply round_snoc; [done|by apply round_fenced]|]. apply round_stored.
  destruct Hes as [->|Hf]; [constructor|]. inversion Hf as [|? e ? ? (Ht & _) Hn']; subst. inversion Hn'; subst.
  constructor; [by rewrite Ht|constructor].
Qed.
End protocol.

(** ** A tool round follows the protocol *)

Section round_proof.
Context (rt : RuntimeServices) (a : RuntimeAssignment).
Context (response : ModelResponse) (call : RuntimeToolCall) (index sequence : Z).
Notation id := (tc_tool_invocation_id call).
Notation recorded ty := (recorded_by_command (ra_tenant_id a) (ra_session_id a) ("runtime." +:+ ty) (fact_command a ty id) ty id).
Notation proper ty := (stores_properly (ra_tenant_id a) (ra_session_id a) ("runtime." +:+ ty) (fact_command a ty id) ty id).
Notation REQUESTED := "tool.call.requested".
Notation DONE := "tool.call.completed".

Definition tolerated (op : StoreOp) : Prop := proper REQUESTED op ∧ proper DONE op.
Definition both_recorded (s : EventStore) : Prop := recorded REQUESTED s ∧ recorded DONE s.

Hypothesis others : ∀ i, Forall tolerated (rt_others rt i).1.
Context (l0 : list RuntimeEffect).
Notation stage := (at_stage a call l0).
Notation kept_by := (kept_by tolerated).

Lemma closed_both : kept_by both_recorded.
Proof. intros s op [H1 H2] [H3 H4]. split; by apply step_recorded. Qed.

(** An append of another fact is tolerated. *)
Lemma other_tolerated ty p v command_id :
  ty ≠ REQUESTED → ty ≠ DONE → may_append a tolerated [mkNewEvent ty p v] command_id ("runtime." +:+ ty).
Proof.
  intros H1 H2 su ver. split; cbn [stores_properly]; rewrite decide_False.
  2,4: unfold command_key_of, own_context; cbn [cx_tenant_id cx_operation cx_command_id]; intros [= E _]; naive_solver.
  all: constructor; [|constructor]; unfold names_fact; cbn [ne_type]; by rewrite (proj2 (String.eqb_neq _ _)).
Qed.
Lemma call_tolerated ty p v :
  ty = REQUESTED ∨ ty = DONE → names id p = true →
  may_append a tolerated [mkNewEvent ty p v] (fact_command a ty id) ("runtime." +:+ ty).
Proof.
  intros Hty Hp su ver. split; cbn [stores_properly];
  destruct Hty as [-> | ->]; case_decide as E; try (by unfold command_key_of, own_context in E; cbn in E; injection E).
  all: try (split; [done|]; eexists; split; [done|]; unfold names_fact; cbn [ne_type ne_payload]; by rewrite Hp).
  all: try (exfalso; by apply E).
  all: constructor; [reflexivity|constructor].
Qed.

Lemma stage_saves st st' phase state J :
  kept_by J → stage_busy st = true → st ≠ Pending → "runtime.progress.recorded" ∈ stage_types st →
  (∀ b, round_step a call (st, b) (Saved (phase_value phase)) (st', false)) →
  task (asserts J (stage st)) (save_progress rt a phase state) (λ _, asserts J (stage st')) (asserts J (stage st)).
Proof.
  intros HJ Hb Hp Ht Hs. apply (saves_progress rt a tolerated others); [done|by apply stage_admits| | |].
  - intros p identity. by apply other_tolerated.
  - intros p. by apply stage_events.
  - intros l. by eapply advances.
Qed.

Lemma stage_once st ty p v existing J :
  kept_by J → stage_busy st = true → st ≠ Pending → ty ∈ stage_types st → ty = REQUESTED ∨ ty = DONE → names id p = true →
  task (asserts (λ s, J s ∧ seen a existing s) (stage st)) (append_once rt a existing ty p id v false)
    (λ _, asserts (λ s, J s ∧ fact_committed a ty id s) (stage st)) (asserts J (stage st)).
Proof.
  intros HJ Hb Hp Ht Hty Hn. eapply task_weaken.
  - apply (once_commits rt a tolerated others); [by apply call_tolerated|by apply stage_admits|by apply stage_events|exact HJ].
  - done.
  - intros l w [(H1 & _ & H3) H4]. by split.
  - done.
Qed.
Lemma stage_other_once st ty p identity v existing J :
  kept_by J → stage_busy st = true → st ≠ Pending → ty ∈ stage_types st → ty ≠ REQUESTED → ty ≠ DONE →
  task (asserts (λ s, J s ∧ seen a existing s) (stage st)) (append_once rt a existing ty p identity v false)
    (λ _, asserts J (stage st)) (asserts J (stage st)).
Proof.
  intros HJ Hb Hp Ht H1 H2. eapply task_weaken.
  - apply (once_commits rt a tolerated others); [by apply other_tolerated|by apply stage_admits|by apply stage_events|exact HJ].
  - done.
  - intros l w [(H3 & _ & _) H4]. by split.
  - done.
Qed.

Lemma stage_loads st J :
  kept_by J → stage_busy st = true → st ≠ Pending →
  task (asserts J (stage st)) (session_load rt a) (λ l, asserts (λ s, J s ∧ seen a l s) (stage st)) (asserts J (stage st)).
Proof. intros HJ Hb Hp. apply (loads_session rt a tolerated others); [done|by apply stage_admits]. Qed.

(** How a round may end. *)
Definition ended (w : RuntimeWorld) : Prop := asserts both_recorded (λ l, ∃ st, stage st l) w.
Lemma ends_at J st w : (∀ s, J s → both_recorded s) → asserts J (stage st) w → ended w.
Proof. intros HJ [H1 H2]. split; [by apply HJ|by exists st]. Qed.

Definition settled_round (r : ToolRoundResult) (w : RuntimeWorld) : Prop :=
  ended w ∧ (tr_disposition r = CONTINUE → fact_committed a DONE id (rw_events w)).

Notation request_noted := (λ s, both_recorded s ∧ fact_committed a REQUESTED id s).

Lemma closed_requested : kept_by request_noted.
Proof. apply closed_and; [apply closed_both|apply closed_committed]. Qed.

Lemma keeps_hook st J : kept_by J → task (asserts J (stage st)) (hook rt) (λ _, asserts J (stage st)) (asserts J (stage st)).
Proof.
  intros HJ. apply task_await; [by apply (closed_kept rt tolerated others)|done|]. intros n w [H1 H2].
  destruct (rt_hook rt n); [|by split]. split; [exact H1|]. cbn. by rewrite app_nil_r.
Qed.

Lemma tool_called :
  task (asserts request_noted (stage Cleared)) (execute_tool rt a call) (λ _, asserts request_noted (stage Called)) ended.
Proof.
  apply task_await; [apply (closed_kept rt tolerated others), closed_requested|by intros w; apply ends_at; intros s [? _]|].
  intros n w [[H1 H2] H3].
  assert (asserts request_noted (stage Called) (note_effect (Dispatched call (stream_of (rw_events w) (ra_tenant_id a, ra_session_id a))) w)) as H.
  { split; [done|]. eapply advances; [|exact H3]. intros b. apply round_called. by eapply committed_once; [|apply H1|]. }
  destruct (rt_tool rt n call); [exact H|]. eapply ends_at; [|exact H]. by intros s [? _].
Qed.

Ltac ended_from := let w := fresh in let Hw := fresh in
  intros w Hw; eapply ends_at; [|exact Hw]; intros ? Hj; first [exact Hj|apply Hj].

Lemma tool_runs :
  task (asserts request_noted (stage Ready)) (run_tool rt a response call index sequence)
    (λ _, asserts request_noted (stage Made)) ended.
Proof.
  pose proof closed_requested as HJ. unfold run_tool.
  eapply task_bind; [eapply task_weaken; [apply (stage_saves Ready Pending); [exact HJ|done|done|by left|intros b; apply round_pending]|done|done|ended_from]|intros []].
  eapply task_bind; [eapply task_weaken; [by apply keeps_hook|done|done|ended_from]|intros []].
  eapply task_bind; [eapply task_weaken; [apply (checks rt a tolerated others request_noted (stage Pending) (stage Cleared))|done|done|ended_from]|intros []].
  1:{ exact HJ. }
  1:{ intros l now. eapply advances. intros b. by apply round_fenced. }
  1:{ intros l wall Hw. eapply advances. intros b. by apply round_cleared. }
  eapply task_bind; [apply tool_called|intros result].
  eapply task_bind; [eapply task_weaken; [apply (checks rt a tolerated others request_noted (stage Called) (stage Called))|done|done|ended_from]|intros []].
  1:{ exact HJ. }
  1,2: by apply stage_admits.
  eapply task_bind; [eapply task_weaken; [apply (stage_saves Called Made); [exact HJ|done|done|by left|intros b; apply round_made]|done|done|ended_from]|intros []].
  eapply task_bind; [eapply task_weaken; [by apply keeps_hook|done|done|ended_from]|intros []].
  by apply task_ret.
Qed.

Lemma round_waits events result resumed :
  task (asserts (λ s, both_recorded s ∧ seen a events s) (stage Made)) (wait_for_human rt a response call index sequence events result resumed)
    settled_round ended.
Proof.
  pose proof closed_both as HJ. unfold wait_for_human.
  eapply (task_bind _ _ _ (λ _, asserts (λ s, both_recorded s ∧ seen a events s) (stage Made))).
  { apply task_lift; [done|ended_from]. }
  intros approval. eapply task_bind.
  { eapply task_weaken; [apply (stage_other_once Made); [exact HJ|done|done|set_solver|done|done]|done|done|ended_from]. }
  intros ?. cbn beta. eapply task_bind; [eapply task_weaken; [by apply (stage_loads Made)|done|done|ended_from]|].
  intros l. eapply task_bind.
  { eapply task_weaken; [apply (stage_other_once Made); [exact HJ|done|done|set_solver|done|done]|done|done|ended_from]. }
  intros ?. cbn beta. eapply task_bind.
  { eapply task_weaken; [apply (stage_saves Made Settled); [exact HJ|done|done|set_solver|intros b; apply round_settled; set_solver]
      |done|done|ended_from]. }
  intros []. apply task_ret. intros w Hw. split; [by eapply ends_at|done].
Qed.

Lemma round_settles result resumed :
  task (asserts request_noted (stage Made)) (settle_round rt a response call index sequence result resumed) settled_round ended.
Proof.
  pose proof closed_both as HJ. unfold settle_round.
  eapply task_weaken with (I' := asserts both_recorded (stage Made)); [|intros w [[H1 _] H2]; by split|intros ? ? Hw; exact Hw|intros ? Hw; exact Hw].
  eapply task_bind; [eapply task_weaken; [by apply (stage_loads Made)|done|done|ended_from]|]. intros events.
  destruct (is_lit _ _); [apply round_waits|].
  eapply task_bind.
  { eapply task_weaken; [apply (stage_once Made DONE)|done|done|ended_from].
    - exact HJ.
    - done.
    - done.
    - set_solver.
    - by right.
    - apply (names_key "tool_invocation_id"); [set_solver|done]. }
  intros ?. cbn beta. eapply task_bind.
  { eapply task_weaken; [apply (stage_saves Made Settled _ _ (λ s, both_recorded s ∧ fact_committed a DONE id s))|done|done|ended_from].
    - apply closed_and; [exact HJ|apply closed_committed].
    - done.
    - done.
    - set_solver.
    - intros b. apply round_settled. set_solver. }
  intros []. apply task_ret. intros w [[H1 H2] H3]. split; [|done]. split; [done|by exists Settled].
Qed.

Lemma round_ends :
  task (asserts both_recorded (λ l, l = l0)) (tool_round rt a response call index sequence) settled_round ended.
Proof.
  pose proof closed_both as HJ. unfold tool_round.
  eapply task_weaken with (I' := asserts both_recorded (stage Asking)); [| |intros ? ? Hw; exact Hw|intros ? Hw; exact Hw].
  2:{ intros w [H1 H2]. split; [exact H1|]. exists [], false. rewrite app_nil_r. split; [exact H2|constructor]. }
  eapply task_bind; [eapply task_weaken; [by apply (stage_loads Asking)|done|done|ended_from]|]. intros events.
  destruct (List.find _ events) as [e|] eqn:Ef.
  - eapply (task_bind _ _ _ (λ _, asserts (λ s, both_recorded s ∧ seen a events s) (stage Asking))).
    { apply task_lift; [done|ended_from]. }
    intros result. apply task_ret. intros w [[H1 H2] H3]. split; [by split; [|eexists]|]. intros _. right.
    exists events. split; [exact H2|]. apply List.find_some in Ef as [Hin Hc].
    unfold is_completed in Hc. apply andb_true_iff in Hc as [Ht Hi]. unfold is_recorded.
    rewrite (proj2 (String.eqb_neq _ _)) by done. apply existsb_exists. exists e. split; [done|]. rewrite Ht. cbn [andb].
    apply existsb_exists. exists "tool_invocation_id". split; [apply list_elem_of_In; set_solver|exact Hi].
  - eapply task_bind.
    { eapply task_weaken; [apply (stage_once Asking REQUESTED)|done|done|ended_from].
      - exact HJ.
      - done.
      - done.
      - set_solver.
      - by left.
      - apply (names_key "tool_invocation_id"); [set_solver|done]. }
    intros ?. cbn beta.
    eapply (task_bind _ _ _ (λ c, asserts request_noted (stage (match resumes call c with Some _ => Made | None => Ready end)))).
    { apply task_await; [apply (closed_kept rt tolerated others), closed_requested|ended_from|]. intros n w [H1 H2].
      split; [exact H1|]. eapply advances; [|exact H2]. intros b.
      destruct (resumes call _) eqn:Er; [apply round_resumed; by rewrite Er|by apply round_ready]. }
    intros c. destruct (resumes call c) as [k|].
    + eapply (task_bind _ _ _ (λ _, asserts request_noted (stage Made))); [apply task_lift; [done|ended_from]|].
      intros result. apply round_settles.
    + eapply task_bind; [apply tool_runs|]. intros result. apply round_settles.
Qed.
End round_proof.

(** C10. The effects of a tool round, whatever the others do before each await and wherever
    it is cancelled or fails, are a run of the protocol [round_step]: events are stored
    only right after a check of the token; the tool is called at most once, only when the
    checkpoint does not say that it was made, after the checkpoint that announces it,
    right after the guard has found the run neither lost nor cancelled nor late, and when
    exactly one request of the call is in the stream; its result is stored only after the
    checkpoint that has it.  A round that continues leaves exactly one result of the call
    in the stream. *)
Theorem tool_round_follows_protocol rt a response call index sequence n w :
  let id := tc_tool_invocation_id call in
  (∀ i, Forall (tolerated a call) (rt_others rt i).1) → both_recorded a call (rw_events w) →
  let '(t, o) := tool_round rt a response call index sequence (mkThread n w) in
  (∃ new st, rw_log (th_world t) = rw_log w ++ new ∧ round_run a call (Asking, false) new st)
  ∧ (length (facts (ra_tenant_id a) (ra_session_id a) "tool.call.requested" id (rw_events (th_world t))) ≤ 1)%nat
  ∧ ∀ r, o = Ret r → tr_disposition r = CONTINUE →
      length (facts (ra_tenant_id a) (ra_session_id a) "tool.call.completed" id (rw_events (th_world t))) = 1%nat.
Proof.
  intros id Ho Hb.
  pose proof (task_run _ _ _ _ n w (round_ends rt a response call index sequence Ho (rw_log w)) (conj Hb eq_refl)) as H.
  assert (∀ t : Thread RuntimeWorld, ended a call (rw_log w) (th_world t) →
    (∃ new st, rw_log (th_world t) = rw_log w ++ new ∧ round_run a call (Asking, false) new st)
    ∧ (length (facts (ra_tenant_id a) (ra_session_id a) "tool.call.requested" id (rw_events (th_world t))) ≤ 1)%nat) as He.
  { intros t [[H1 _] (st & new & b & E & Hr)]. split; [by exists new, (st, b)|by eapply recorded_le]. }
  destruct (tool_round _ _ _ _ _ _ _) as [t [r|c m|]]; [|by destruct (He t H)..].
  destruct H as [H Hc]. destruct (He t H) as [H1 H2]. split_and!; [done|done|]. intros r' [= <-] Hd.
  eapply committed_once; [done|apply H|by apply Hc].
Qed.

(** ** After a stop nothing is executed *)

(** A fact that reconciling stores: the settlement of an invocation whose outcome the
    gateway has told, with the status it told, the end of an activation, or the failure of
    the run. *)
Definition settlement (a : RuntimeAssignment) (before : list RuntimeEffect) (e : CanonicalEvent) : Prop :=
  (ev_type e = "skill.invocation.settled" ∧ ∃ invocation answer,
     Observed invocation answer ∈ before ∧ observation_settles answer = Ok true
     ∧ py_str (pgetn "tool_invocation_id" (ev_payload e)) = invocation
     ∧ pgetn "status" (ev_payload e) = pgetn "status" answer)
  ∨ ev_type e = "skill.cancelled"
  ∨ ev_type e = "run.failed" ∧ names (ra_run_id a) (ev_payload e) = true.

(** Reconciling checks the token, asks for outcomes, stores settlements right after a check
    of the token, and suspends or finishes the assignment. *)
Inductive reconciles (a : RuntimeAssignment) : list RuntimeEffect → Prop :=
  | rec_nil : reconciles a []
  | rec_fenced l now : reconciles a l → reconciles a (l ++ [Fenced now])
  | rec_checked l wall : reconciles a l → reconciles a (l ++ [Checked wall])
  | rec_observed l invocation answer : reconciles a l → reconciles a (l ++ [Observed invocation answer])
  | rec_stored l now es : reconciles a l → Forall (settlement a l) es → reconciles a (l ++ [Fenced now; Stored es])
  | rec_suspended l : reconciles a l → reconciles a (l ++ [Suspended "waiting_for_tool"])
  | rec_finished l outcome : reconciles a l → reconciles a (l ++ [Finished outcome]).

Section reconcile.
Context (rt : RuntimeServices) (a : RuntimeAssignment) (controller : bool).
Context (l0 : list RuntimeEffect) (J : EventStore → Prop).
Notation any := (λ _ : StoreOp, True).
Hypothesis HJ : kept_by any J.

Lemma any_others i : Forall any (rt_others rt i).1.
Proof. by apply Forall_true. Qed.

(** The log since [l0] reconciles and has what [R] says. *)
Definition reconciling (R : list RuntimeEffect → Prop) (l : list RuntimeEffect) : Prop :=
  ∃ new, l = l0 ++ new ∧ reconciles a new ∧ R new.
Definition growing (R : list RuntimeEffect → Prop) : Prop := ∀ l more, R l → R (l ++ more).
Notation plain_log := (reconciling (λ _, True)).

Lemma reconciling_snoc R R' l more :
  (∀ new, reconciles a new → R new → reconciles a (new ++ more) ∧ R' (new ++ more)) →
  reconciling R l → reconciling R' (l ++ more).
Proof.
  intros H (new & -> & Hr & HR). destruct (H new Hr HR) as [H1 H2]. exists (new ++ more). by rewrite app_assoc.
Qed.
Lemma reconciling_checks R : growing R → admits_checks a (reconciling R).
Proof.
  intros HR. split.
  - intros l now. apply reconciling_snoc. intros new Hr Hn. split; [by apply rec_fenced|by apply HR].
  - intros l wall _. apply reconciling_snoc. intros new Hr Hn. split; [by apply rec_checked|by apply HR].
Qed.
Lemma reconciling_events R n :
  growing R → (∀ l e, R l → stored_from (ra_root_session_id a) n e → settlement a l e) →
  admits_events a (reconciling R) [n].
Proof.
  intros HR Hs l now es Hes. apply reconciling_snoc. intros new Hr Hn. split; [|by apply HR]. apply rec_stored; [done|].
  destruct Hes as [->|Hf]; [constructor|]. inversion Hf as [|? e ? ? He Hn']; subst. inversion Hn'; subst.
  constructor; [by apply Hs|constructor].
Qed.

Lemma stored_member n e k :
  k ≠ "budget" → k ≠ "runtime_budget" → stored_from (ra_root_session_id a) n e →
  pgetn k (ev_payload e) = pgetn k (ne_payload n).
Proof. intros H1 H2 (_ & _ & Hk & _). unfold pgetn. rewrite Hk; [done|]. unfold governed_key. by case_match. Qed.

Lemma observes pending :
  task (asserts J plain_log) (observe_pending rt a pending) (λ _, asserts J plain_log) (asserts J plain_log).
Proof.
  induction pending as [|requested pending IH]; cbn [observe_pending]; [by apply task_ret|].
  eapply task_bind; [apply lifts|]. intros invocation. apply task_given. intros Hi.
  eapply (task_bind _ _ _ (λ answer, asserts J (reconciling (λ new, Observed invocation answer ∈ new)))).
  { apply task_await; [by apply (closed_kept rt any any_others)|done|]. intros n w [H1 H2].
    destruct (rt_status rt n invocation) as [answer|c m]; [|by split]. split; [exact H1|]. revert H2.
    apply reconciling_snoc. intros new Hr _. split; [by apply rec_observed|]. set_solver. }
  intros observed. set (R := λ new, Observed invocation observed ∈ new).
  assert (growing R) as HR by (intros l more Hl; unfold R in *; set_solver).
  assert (∀ w, asserts J (reconciling R) w → asserts J plain_log w) as Hback.
  { intros w [H1 (new & H2 & H3 & _)]. split; [exact H1|]. by exists new. }
  eapply (task_bind _ _ _ (λ known w, asserts J (reconciling R) w ∧ observation_settles observed = Ok known)).
  { refine (task_weaken _ _ _ _ _ _ _ (lifts _ _ _) (λ _ H, H) (λ _ _ H, H) Hback). }
  intros known. apply task_given. intros Hk.
  eapply (task_bind _ _ _ (λ _, asserts J plain_log)); [|intros []; exact IH].
  destruct known; [|by apply task_ret].
  eapply task_weaken; [apply (capability_keeps rt a any any_others (reconciling R))|done|intros ?; exact Hback|exact Hback].
  - by intros command_id operation su v.
  - by apply reconciling_checks.
  - apply reconciling_events; [exact HR|]. intros l e Hl He. left. split; [apply He|]. exists invocation, observed.
    split_and!; [exact Hl|exact Hk| |].
    + rewrite (stored_member (settled_event requested observed) e); [|done|done|exact He]. cbn [settled_event ne_payload]. unfold pgetn.
      rewrite !dget_dset_ne by done. destruct (pget "tool_invocation_id" (ev_payload requested)) as [v|] eqn:Ep; [|done].
      unfold pget in Ep. destruct (dget _ _); [|done]. cbn in *. by simplify_eq.
    + rewrite (stored_member (settled_event requested observed) e); [|done|done|exact He]. cbn [settled_event ne_payload]. unfold pgetn.
      rewrite dget_dset_ne by done. by rewrite dget_dset_eq.
  - exact HJ.
Qed.

Lemma plain_checks : admits_checks a plain_log.
Proof. by apply reconciling_checks. Qed.
Lemma plain_tells e : (∀ new, reconciles a new → reconciles a (new ++ [e])) → ∀ l, plain_log l → plain_log (l ++ [e]).
Proof. intros He l. apply reconciling_snoc. intros new Hr _. split; [by apply He|done]. Qed.

Lemma cancels activations :
  task (asserts J plain_log) (cancel_activations rt a activations) (λ _, asserts J plain_log) (asserts J plain_log).
Proof.
  induction activations as [|activation activations IH]; cbn [cancel_activations]; [by apply task_ret|].
  eapply (task_bind _ _ _ (λ _, asserts J plain_log)); [|intros []; exact IH].
  apply (capability_keeps rt a any any_others plain_log); [by intros ? ? ? ?|apply plain_checks| |exact HJ].
  apply reconciling_events; [done|]. intros l e _ He. right. left. apply He.
Qed.

Lemma releases : task (asserts J plain_log) (release_run rt controller) (λ _, asserts J plain_log) (asserts J plain_log).
Proof.
  unfold release_run. destruct controller; [|by apply task_ret].
  apply task_await; [by apply (closed_kept rt any any_others)|done|]. intros n w [H1 H2].
  destruct (rt_release rt n); [|by split]. split; [exact H1|]. cbn. by rewrite app_nil_r.
Qed.
Lemma finishes outcome : task (asserts J plain_log) (finish_run rt a outcome) (λ _, asserts J plain_log) (asserts J plain_log).
Proof. apply (tells_control rt any any_others); [exact HJ|]. apply plain_tells. intros. by apply rec_finished. Qed.
Lemma suspends : task (asserts J plain_log) (suspend_run rt a "waiting_for_tool") (λ _, asserts J plain_log) (asserts J plain_log).
Proof. apply (tells_control rt any any_others); [exact HJ|]. apply plain_tells. intros. by apply rec_suspended. Qed.
Lemma reads_events :
  task (asserts J plain_log) (session_load rt a) (λ l, asserts (λ s, J s ∧ seen a l s) plain_log) (asserts J plain_log).
Proof. apply (loads_session rt a any any_others); [exact HJ|apply plain_checks]. Qed.

Lemma concludes pending : task (asserts J plain_log) (conclude_stopped rt a controller pending) (λ _, asserts J plain_log) (asserts J plain_log).
Proof.
  unfold conclude_stopped. eapply (task_bind _ _ _ (λ _, asserts J plain_log)); [by apply task_lift|]. intros activations.
  eapply task_bind; [apply cancels|intros []]. eapply task_bind; [apply reads_events|]. intros events.
  eapply (task_bind _ _ _ (λ _, asserts J plain_log)).
  { destruct (run_terminal_event a events); [apply task_ret, weak_seen|].
    eapply task_weaken; [apply (once_commits rt a any any_others _ _ _ _ _ plain_log)|done| |done].
    - by intros ? ?.
    - apply plain_checks.
    - apply reconciling_events; [done|]. intros l e _ He. right. right. split; [apply He|].
      rewrite (names_stored _ _ _ _ He). apply (names_key "run_id"); [set_solver|done].
    - exact HJ.
    - intros l w [(H1 & _) H2]. by split. }
  intros ?. cbn beta. eapply task_bind; [apply releases|intros []]. eapply task_bind; [apply finishes|intros []].
  by apply task_ret.
Qed.

Lemma recovers : task (asserts J plain_log) (recover_pending_outcomes rt a controller) (λ _, asserts J plain_log) (asserts J plain_log).
Proof.
  unfold recover_pending_outcomes. eapply task_bind; [apply (keeps_fence rt a any any_others); [exact HJ|apply plain_checks]|intros []].
  eapply task_bind; [apply reads_events|]. intros events.
  eapply task_weaken with (I' := asserts J plain_log); [|apply weak_seen|intros ? ? Hw; exact Hw|intros ? Hw; exact Hw].
  destruct (pending_skill_invocations events _) as [|r pending]; [by apply task_ret|].
  destruct (negb controller); [eapply task_bind; [apply suspends|intros []; by apply task_ret]|].
  eapply task_bind; [apply observes|intros []]. eapply task_bind; [apply reads_events|]. intros events'.
  eapply task_weaken with (I' := asserts J plain_log); [|apply weak_seen|intros ? ? Hw; exact Hw|intros ? Hw; exact Hw].
  destruct (pending_skill_invocations events' _); [apply concludes|].
  eapply task_bind; [apply suspends|intros []; by apply task_ret].
Qed.
End reconcile.

(** The stream the runtime can load has the end of the run. *)
Definition run_ended (a : RuntimeAssignment) (s : EventStore) : Prop :=
  ∃ e, e ∈ stream_at a s ∧ belongs_to_run (ra_run_id a) e = true ∧ str_in (ev_type e) RUN_TERMINAL_EVENTS = true.

Lemma run_ended_closed a : kept_by (λ _, True) (run_ended a).
Proof.
  intros s op _ (e & He & H). exists e. split; [|exact H]. unfold stream_at, load in *. cbn in *.
  apply list_elem_of_filter in He as [Hv He]. apply list_elem_of_filter. split; [exact Hv|].
  eapply elem_of_prefix; [exact He|apply run_op_extends].
Qed.

Lemma run_ended_found a s : run_ended a s → run_terminal_event a (stream_at a s) ≠ None.
Proof.
  intros (e & He & H1 & H2) Hn. unfold run_terminal_event in Hn. eapply List.find_none in Hn; [|by apply list_elem_of_In].
  by rewrite H1, H2 in Hn.
Qed.

Lemma begins rt a controller l0 :
  task (asserts (run_ended a) (reconciling a l0 (λ _, True))) (begin_run rt a controller)
    (λ r w, asserts (run_ended a) (reconciling a l0 (λ _, True)) w ∧ r = None)
    (asserts (run_ended a) (reconciling a l0 (λ _, True))).
Proof.
  set (T := reconciling a l0 (λ _, True)). pose proof (run_ended_closed a) as HJ.
  pose proof (plain_checks a l0) as HT. fold T in HT.
  pose proof (recovers rt a controller l0 _ HJ) as Hrec. fold T in Hrec.
  unfold begin_run. destruct (negb _); [by apply task_raise|].
  eapply (task_bind _ _ _ (λ _, asserts (run_ended a) T)).
  { eapply task_catch with (F := asserts (run_ended a) T); [| |done].
    - eapply (task_bind _ _ _ (λ _, asserts (run_ended a) T)); [|intros []; by apply task_ret].
      apply (checks rt a _ (any_others rt)); [exact HJ|apply HT..].
    - intros c m. destruct c; try done.
      all: eapply task_bind; [exact Hrec|]; intros [|]; [by apply task_ret|by apply task_raise]. }
  intros [[]|]; [by apply task_ret|]. destruct (_ <? _); [by apply task_raise|].
  eapply task_bind; [by apply (loads_stream rt a _ (any_others rt))|]. intros events.
  eapply task_weaken with (I' := λ w, asserts (run_ended a) T w ∧ ∃ s, run_ended a s ∧ events = stream_at a s);
    [|by intros w (H1 & _ & H2)|intros ? ? Hw; exact Hw|intros ? Hw; exact Hw].
  apply task_given. intros (s & Hs & ->). pose proof (run_ended_found a s Hs) as Hf.
  destruct (run_terminal_event a (stream_at a s)) as [terminal|]; [|done].
  eapply task_bind; [exact Hrec|]. intros [|]; [by apply task_ret|].
  eapply task_bind; [apply (finishes rt a l0 _ HJ)|]. intros []. by apply task_ret.
Qed.

(** C12. After a stop nothing is executed: reconciling calls no tool, saves no checkpoint
    and stores only settlements, whatever the others do and wherever it is cancelled: an
    invocation is settled only with the status the gateway told for it, and only when that
    says what became of its side effect.  And a run whose stream has its end is not begun
    again: beginning it does no more than that. *)
Theorem stopped_run_only_settles rt a controller n w :
  (∃ new, rw_log (th_world (recover_pending_outcomes rt a controller (mkThread n w)).1) = rw_log w ++ new ∧ reconciles a new)
  ∧ (run_ended a (rw_events w) →
     (∃ new, rw_log (th_world (begin_run rt a controller (mkThread n w)).1) = rw_log w ++ new ∧ reconciles a new)
     ∧ ∀ events, (begin_run rt a controller (mkThread n w)).2 ≠ Ret (Some events)).
Proof.
  assert (reconciling a (rw_log w) (λ _, True) (rw_log w)) as H0.
  { exists []. rewrite app_nil_r. split_and!; [done|apply rec_nil|done]. }
  split.
  - assert (kept_by (λ _, True) (λ _, True)) as HJ by done.
    pose proof (task_run _ _ _ _ n w (recovers rt a controller (rw_log w) _ HJ) (conj I H0)) as H.
    destruct (recover_pending_outcomes _ _ _ _) as [t [x|c m|]]; destruct H as [_ (new & E & Hr & _)]; by exists new.
  - intros He. pose proof (task_run _ _ _ _ n w (begins rt a controller (rw_log w)) (conj He H0)) as H.
    destruct (begin_run _ _ _ _) as [t [x|c m|]]; [destruct H as [[_ (new & E & Hr & _)] ->]|destruct H as [_ (new & E & Hr & _)]..].
    all: split; [by exists new|done].
Qed.

(** ** Responses survive a checkpoint *)

Lemma tool_call_roundtrip c : tool_call_from_dict (JObj (tool_call_to_dict c)) = Ok c.
Proof. destruct c as [i n args v e [ap|] [cr|] [k|]]; reflexivity. Qed.

Lemma mapR_roundtrip {A B} (f : A → json) (g : json → res B) (h : A → B) (l : list A) :
  (∀ x, g (f x) = Ok (h x)) → mapR g (map f l) = Ok (map h l).
Proof. intros H. induction l as [|x l IH]; [done|]. cbn [map mapR]. by rewrite H, IH. Qed.

(** A response of the model that a checkpoint keeps is read back as it was, with its
    tool calls. *)
Theorem response_roundtrip r : response_from_dict (response_to_dict r) = Ok r.
Proof.
  destruct r as [i p m o ds cs f u].
  change (response_from_dict (response_to_dict (mkResponse i p m o ds cs f u))) with
    (calls ← mapR tool_call_from_dict (map (λ c, JObj (tool_call_to_dict c)) cs);
     Ok (mkResponse i p m o (map py_str (map JStr ds)) calls f u)).
  rewrite (mapR_roundtrip _ _ (λ c, c)); [|apply tool_call_roundtrip].
  assert (map py_str (map JStr ds) = ds) as -> by (rewrite map_map; apply map_id). cbn. by rewrite map_id.
Qed.

(** ** Concrete runs *)

Module AgentRunExamples.
Import RuntimeCommitExamples.

Definition ar_call : RuntimeToolCall := mkRuntimeToolCall "inv_1" "search" [("q", JStr "x")] "1" "read" None None None.
Definition ar_response : ModelResponse :=
  mkResponse "mdl_1" "p" "m" "" [] [ar_call] "tool_calls" [("output_tokens", JInt 5)].
Definition nobody (i : nat) : list StoreOp * list ControlOp := ([], []).

(** The run is cancelled by somebody else before the [i]th await. *)
Definition cancelled_at (i j : nat) : list StoreOp * list ControlOp :=
  if Nat.eqb i j then ([], [CCancel "t1" "s1" "r1"]) else ([], []).

Definition effect_name (e : RuntimeEffect) : string :=
  match e with
  | Fenced _ => "fenced"
  | Checked _ => "checked"
  | Stored es => String.concat "+" (map ev_type es)
  | Loaded _ => "loaded"
  | Saved phase => phase
  | Dispatched c _ => "call " +:+ tc_name c
  | Observed i _ => "observed " +:+ i
  | Suspended reason => reason
  | Finished outcome => outcome
  end.
Definition steps_of (t : Thread RuntimeWorld) : list string :=
  List.filter (λ s, negb (String.eqb s "fenced")) (map effect_name (rw_log (th_world t))).

Definition round_of (others : nat → list StoreOp * list ControlOp) (w : RuntimeWorld) :=
  tool_round (rc_services others) rc_assignment ar_response ar_call 0 0 (mkThread 0 w).

Example round_effects :
  steps_of (round_of nobody rc_world).1
  = ["checked"; "tool.call.requested"; "loaded"; "tool_pending"; "checked"; "call search"; "checked"; "tool_completed";
     "checked"; "tool.call.completed"; "model_recorded"].
Proof. vm_compute. done. Qed.

(** A second round of the same call finds its result and does nothing. *)
Example round_again :
  steps_of (round_of nobody (th_world (round_of nobody rc_world).1)).1 = steps_of (round_of nobody rc_world).1.
Proof. vm_compute. done. Qed.

(** A run that is cancelled while the request is recorded does not call the tool. *)
Example cancelled_round :
  (steps_of (round_of (cancelled_at 6) rc_world).1, match (round_of (cancelled_at 6) rc_world).2 with Exn c _ => Some c | _ => None end)
  = (["checked"; "tool.call.requested"; "loaded"; "tool_pending"], Some RuntimeCancelledError).
Proof. vm_compute. done. Qed.

Lemma tool_round_follows_protocol_witness :
  let '(t, o) := tool_round (rc_services nobody) rc_assignment ar_response ar_call 0 0 (mkThread 0 rc_world) in
  (∃ new st, rw_log (th_world t) = [] ++ new ∧ round_run rc_assignment ar_call (Asking, false) new st)
  ∧ (length (facts "t1" "s1" "tool.call.requested" "inv_1" (rw_events (th_world t))) ≤ 1)%nat
  ∧ ∀ r, o = Ret r → tr_disposition r = CONTINUE →
      length (facts "t1" "s1" "tool.call.completed" "inv_1" (rw_events (th_world t))) = 1%nat.
Proof.
  apply (tool_round_follows_protocol (rc_services nobody) rc_assignment ar_response ar_call 0 0 0 rc_world).
  - intros i. constructor.
  - split; reflexivity.
Defined.

(** A Skill invocation is pending when the run is cancelled: it is settled, the activation
    and the run are ended. *)
Definition invocation_requested : StoreOp :=
  OpAppend (rc_supply "i") "s1" "s1" (Some "r1") (mkContext "c3" "t1" (mkActor "runtime" "rt1") "r1" 0 "skill" None None)
    [mkNewEvent "skill.invocation.requested" [("skill_activation_id", JStr "act_1"); ("tool_invocation_id", JStr "inv_9")] VInternal] [].
Definition stopped_world : RuntimeWorld := mkRuntimeWorld rc_control (ops_after empty_store [invocation_requested]) [].
Definition recovered_run := begin_run (rc_services (cancelled_at 0)) rc_assignment true (mkThread 0 stopped_world).

Example recovered_effects :
  (steps_of recovered_run.1, match recovered_run.2 with Ret None => true | _ => false end)
  = (["observed inv_9"; "skill.invocation.settled"; "skill.cancelled"; "run.failed"; "failed"], true).
Proof. vm_compute. done. Qed.

(** Beginning the run again after it has ended stores nothing. *)
Example begun_again :
  steps_of (begin_run (rc_services nobody) rc_assignment true (mkThread 0 (th_world recovered_run.1 <| rw_log := [] |>
    <| rw_control := rc_control |>))).1 = ["checked"; "failed"].
Proof. vm_compute. done. Qed.
End AgentRunExamples.
