(* ===== verification/RepeatPolicy.v ===== *)
(** * Repeated tool calls ([runtime/repeat_policy.py])

    Before a call is dispatched the runtime compares it with the settlements of the run: a
    call whose outcome the stream already tells, or whose target failed for good, is not
    dispatched again; the decision names the settlement it rests on.  Nothing is cached.
    The payloads of events are Python values: a member of the wrong kind raises as in the
    source. *)

From Stdlib Require Import SpecFloat.
From S2P Require Import Prelude PyValue DateTime Digest Contracts JsonSchema SkillExecution ControlStore RuntimeCommit.
Local Open Scope Z_scope.

(** [digest] *)
Definition value_digest (v : json) : string := sha256_hex (utf8 (json_dumps false v)).

(** ** The shape of arguments *)

(** [k in value] for the keys of a dict. *)
Definition key_in (k : json) (d : payload) : res bool :=
  if negb (hashable k) then Raise PyTypeError "unhashable type"
  else Ok (match k with JStr s => dmem s d | _ => false end).

Definition is_number (v : json) : bool := match v with JInt _ | JFloat _ => true | _ => false end.

(** The member of [checks] named by [expected]: [Some false] is a mismatch. *)
Definition type_check (expected : json) (v : json) : option bool :=
  match expected with
  | JStr t =>
      if String.eqb t "object" then Some (is_dict v)
      else if String.eqb t "array" then Some (is_list v)
      else if String.eqb t "string" then Some (is_str v)
      else if String.eqb t "boolean" then Some (match v with JBool _ => true | _ => false end)
      else if String.eqb t "integer" then Some (match v with JInt _ => true | _ => false end)
      else if String.eqb t "number" then Some (is_number v)
      else if String.eqb t "null" then Some (is_none v)
      else None
  | _ => None
  end.

(** [obvious_shape_error]; [levels] is four less the depth. *)
Fixpoint obvious_shape_error (levels : nat) (schema v : json) : res bool :=
  match levels, schema with
  | S levels, JObj s =>
      match type_check (pgetn "type" s) v with
      | Some false => Ok true
      | _ =>
          match v with
          | JObj d =>
              missing ← match pgetd "required" (JArr []) s with
                        | JArr l => anyR (λ k, b ← key_in k d; Ok (negb b)) (take 64 l)
                        | _ => Ok false
                        end;
              if (missing : bool) then Ok true else
              match pgetd "properties" (JObj []) s with
              | JObj properties =>
                  anyR (λ kv, match dget kv.1 properties with
                              | Some member => obvious_shape_error levels member kv.2
                              | None => Ok false
                              end) (take 64 d)
              | _ => Ok false
              end
          | _ => Ok false
          end
      end
  | _, _ => Ok false
  end.

(** ** Targets *)

Record RepeatTarget := mkTarget {
  tg_binding : string;
  tg_arguments : string;
  tg_read_only : bool;
  tg_schema_valid : bool;
  tg_error_family : option string;
  tg_capability_id : option string;
}.

(** Tuples of three texts, as Python compares them. *)
Definition text_leb (a b : string) : bool := match String.compare a b with Gt => false | _ => true end.
Definition triple_leb (a b : string * string * string) : bool :=
  if negb (String.eqb a.1.1 b.1.1) then text_leb a.1.1 b.1.1
  else if negb (String.eqb a.1.2 b.1.2) then text_leb a.1.2 b.1.2
  else text_leb a.2 b.2.

Definition error_triple (e : json) : res (string * string * string) :=
  instance ← jgetd "instance_path" (JStr EmptyString) e;
  schema ← jgetd "schema_path" (JStr EmptyString) e;
  keyword ← jgetd "keyword" (JStr EmptyString) e;
  Ok (py_str instance, py_str schema, py_str keyword).

(** [error_family]: tuples are written as arrays. *)
Definition error_family (errors : json) : res string :=
  l ← py_iter errors;
  triples ← mapR error_triple l;
  Ok (value_digest (JArr (map (λ t, JArr [JStr t.1.1; JStr t.1.2; JStr t.2]) (py_sorted triple_leb triples)))).

(** [item.get("model_tool", {}).get("function", {})] *)
Definition model_function (item : payload) : res json :=
  jgetd "function" (JObj []) (pgetd "model_tool" (JObj []) item).

Fixpoint filterR {A} (f : A → res bool) (l : list A) : res (list A) :=
  match l with
  | [] => Ok []
  | a :: l => b ← f a; l ← filterR f l; Ok (if (b : bool) then a :: l else l)
  end.

(** The loaded tools with this name. *)
Definition loaded_tools (name : string) (capability_state : payload) : res (list payload) :=
  match pgetd "loaded" (JObj []) capability_state with
  | JObj loaded =>
      filterR (λ item,
        if is_lit (pgetn "kind" item) "tool" then
          function ← model_function item;
          n ← jgetd "name" JNull function;
          Ok (is_lit n name)
        else Ok false) (omap (λ kv, match kv.2 with JObj d => Some d | _ => None end) loaded)
  | _ => Raise PyAttributeError "values"
  end.

Definition identity_scope (a : RuntimeAssignment) : payload :=
  [("tenant", JStr (ra_tenant_id a)); ("user", jopt (ra_user_id a)); ("dept", jopt (ra_dept_id a));
   ("run", JStr (ra_run_id a))].

Section target.
Context `{SchemaEngine}.

(** The answer of the schema to the arguments: whether they are valid, and the family of
    their errors.  [InvalidToolSchemaError] is a [SchemaValidationError], so the first
    handler takes it, with no errors. *)
Definition check_arguments (arguments schema : json) : res (bool * option string) :=
  match validate_json arguments schema with
  | Ok None => Ok (true, None)
  | Ok (Some f) => family ← error_family (JArr (sf_validation_errors f)); Ok (false, Some family)
  | Raise SchemaValidationError _ | Raise InvalidToolSchemaError _ =>
      family ← error_family (JArr []); Ok (false, Some family)
  | Raise c m => Raise c m
  end.

Definition repeat_target (a : RuntimeAssignment) (call : RuntimeToolCall) (capability_state : payload)
    : res (option RepeatTarget) :=
  if str_in (tc_name call) ["auraclaw.capabilities.search"; "auraclaw.capabilities.load"] then
    Ok (Some (mkTarget
      (value_digest (JObj (identity_scope a ++ [("control_tool", JStr (tc_name call)); ("policy", JStr "2")])))
      (value_digest (JObj (tc_arguments call))) true true None None))
  else
  matches ← loaded_tools (tc_name call) capability_state;
  match matches with
  | [item] =>
      function ← model_function item;
      schema ← jgetd "parameters" (JObj []) function;
      checked ← check_arguments (JObj (tc_arguments call)) schema;
      Ok (Some (mkTarget (value_digest (JObj (identity_scope a ++ [("loaded", JObj item)])))
        (value_digest (JObj (tc_arguments call))) (is_lit (pgetn "permission" item) "read-only")
        checked.1 checked.2 (Some (py_str (pgetd "capability_id" (JStr EmptyString) item)))))
  | _ => Ok None
  end.
End target.

(** ** The settlements of a run *)

Definition of_type (run_id ty : string) (e : CanonicalEvent) : bool :=
  bool_decide (ev_run_id e = Some run_id) && String.eqb (ev_type e) ty.

Notation requests_dict := (list (json * payload)).

(** [{payload.get("tool_invocation_id"): payload ...}] *)
Definition requests_of (run_id : string) (events : list CanonicalEvent) : res requests_dict :=
  foldM (λ d e, if of_type run_id "tool.call.requested" e
                then jd_set (pgetn "tool_invocation_id" (ev_payload e)) (ev_payload e) d else Ok d) events [].

(** [requested.get(invocation, {}).get("repeat_identity", {})] *)
Definition repeat_identity (requested : requests_dict) (invocation : json) : res json :=
  if negb (hashable invocation) then Raise PyTypeError "unhashable type" else
  Ok (pgetd "repeat_identity" (JObj []) (default [] (jd_get invocation requested))).

Definition result_of (e : CanonicalEvent) : json := pgetd "result" (JObj []) (ev_payload e).

(** An earlier settlement: its event, the identity of its request and its result. *)
Record PriorSettlement := mkPriorSettlement { sd_event : CanonicalEvent; sd_identity : json; sd_result : json }.

Section decision.
Context (a : RuntimeAssignment) (call : RuntimeToolCall) (target : RepeatTarget).

Definition settled_before (requested : requests_dict) (e : CanonicalEvent) : res (option PriorSettlement) :=
  if negb (of_type (ra_run_id a) "tool.call.completed" e) then Ok None else
  let invocation := pgetn "tool_invocation_id" (ev_payload e) in
  identity ← repeat_identity requested invocation;
  if is_lit invocation (tc_tool_invocation_id call) then Ok None else
  binding ← jgetd "binding" JNull identity;
  if negb (is_lit binding (tg_binding target)) then Ok None else
  code ← jgetd "error_code" JNull (result_of e);
  if is_lit code "tool_repeat_suppressed" then Ok None else
  Ok (Some (mkPriorSettlement e identity (result_of e))).

Fixpoint history_of (requested : requests_dict) (events : list CanonicalEvent) : res (list PriorSettlement) :=
  match events with
  | [] => Ok []
  | e :: events =>
      s ← settled_before requested e;
      l ← history_of requested events;
      Ok (match s with Some s => s :: l | None => l end)
  end.

(** [result.get("metadata", {}).get("error_details", {})] *)
Definition prior_details (result : json) : res json :=
  metadata ← jgetd "metadata" (JObj []) result; jgetd "error_details" (JObj []) metadata.

(** A correction of the same errors that did not succeed. *)
Definition invalid_before (s : PriorSettlement) : res bool :=
  code ← jgetd "error_code" JNull (sd_result s);
  if negb (is_lit code "tool_schema_invalid") then Ok false else
  effect ← jgetd "side_effect_status" JNull (sd_result s);
  if negb (is_lit effect "not_started") then Ok false else
  details ← prior_details (sd_result s);
  errors ← jgetd "validation_errors" JNull details;
  if negb (truthy errors) then Ok true else
  family ← error_family errors;
  Ok (bool_decide (Some family = tg_error_family target)).

(** ** Refreshing a read *)

Definition refresh_grant (events : list CanonicalEvent) (run_id : option string) : res (option json) :=
  match List.find (λ e, String.eqb (ev_type e) "run.requested"
                        && py_eq (pgetn "run_id" (ev_payload e)) (jopt run_id)) events with
  | Some requested_run =>
      if negb (tg_read_only target) then Ok None else
      match tg_capability_id target with
      | Some id =>
          if String.eqb id EmptyString then Ok None else
          l ← py_iter (pgetd "read_refresh" (JArr []) (ev_payload requested_run));
          foldM (λ found g, match found with
                            | Some _ => Ok found
                            | None => c ← jgetd "capability_id" JNull g; Ok (if is_lit c id then Some g else None)
                            end) l None
      | None => Ok None
      end
  | None => Ok None
  end.

(** A write that succeeded after the read. *)
Definition confirmed_write (requested : requests_dict) (source e : CanonicalEvent) : res bool :=
  if negb (String.eqb (ev_type e) "tool.call.completed") || negb (bool_decide (ev_run_id e = ev_run_id source))
     || negb (ev_occurred_at source <? ev_occurred_at e) then Ok false else
  status ← jgetd "status" JNull (result_of e);
  if negb (is_lit status "success") then Ok false else
  metadata ← jgetd "metadata" (JObj []) (result_of e);
  permission ← jgetd "tool_permission" JNull metadata;
  if negb (hashable permission) then Raise PyTypeError "unhashable type" else
  if existsb (is_lit permission) ["write-with-approval"; "write-autonomous"; "destructive/admin"] then Ok true else
  identity ← repeat_identity requested (pgetn "tool_invocation_id" (ev_payload e));
  read_only ← jgetd "read_only" JNull identity;
  Ok (match read_only with JBool false => true | _ => false end).

(** [now < datetime.fromisoformat(v)], for an aware [now] *)
Definition before_text (now : Z) (v : json) : res bool :=
  match v with
  | JStr s =>
      '(t, offset) ← fromisoformat s;
      match offset with
      | Some o => Ok (now <? t - o)
      | None => Raise PyTypeError "can't compare offset-naive and offset-aware datetimes"
      end
  | _ => Raise PyTypeError "fromisoformat: argument must be str"
  end.

Definition jsub (k : string) (v : json) : res json :=
  match v with JObj d => pget k d | _ => Raise PyTypeError k end.

Definition read_refresh_allowed (history : list PriorSettlement) (events : list CanonicalEvent) (source : CanonicalEvent)
    (now : Z) (requested : requests_dict) : res bool :=
  written ← anyR (confirmed_write requested source) events;
  if (written : bool) then Ok true else
  grant ← refresh_grant events (ev_run_id source);
  match grant with
  | None => Ok false
  | Some g =>
      calls ← (v ← jsub "max_calls" g; py_int v);
      if negb (Z.of_nat (length history) <? calls) then Ok false else
      v ← jsub "expires_at" g; before_text now v
  end.

(** ** The decision *)

Inductive RepeatStep :=
  | Continue
  | Refresh
  | Suppress (source : CanonicalEvent) (reason : string).

(** The members of a set of texts. *)
Definition in_names (v : json) (l : list string) : res bool :=
  if hashable v then Ok (existsb (is_lit v) l) else Raise PyTypeError "unhashable type".

(** [v is False] *)
Definition is_false (v : json) : bool := match v with JBool false => true | _ => false end.

Definition five_minutes : spec_float := f64_of_ratio false 300 1.

(** [float(result.get("retry_after", details.get("retry_after", 0)) or 0)], zero when it is
    no number *)
Definition retry_after (result details : json) : res spec_float :=
  fallback ← jgetd "retry_after" (JInt 0) details;
  v ← jgetd "retry_after" fallback result;
  match py_float (if truthy v then v else JInt 0) with
  | Raise PyTypeError _ | Raise PyValueError _ => Ok f64_zero
  | r => r
  end.

(** A failure that may be tried again, within the bounds of the policy. *)
Definition retry_step (history : list PriorSettlement) (s : PriorSettlement) (details : json) : res RepeatStep :=
  backoff ← retry_after (sd_result s) details;
  if f64_isfinite backoff && f64_gtb backoff five_minutes then Ok (Suppress (sd_event s) "retry_backoff_exceeds_policy") else
  same ← filterR (λ h, v ← jgetd "arguments" JNull (sd_identity h); Ok (is_lit v (tg_arguments target))) history;
  Ok (if 3 <=? Z.of_nat (length same) then Suppress (sd_event s) "retry_limit_reached" else Continue).

(** The body of the loop over the history, newest first. *)
Definition judge (history : list PriorSettlement) (events : list CanonicalEvent) (requested : requests_dict) (now : Z)
    (s : PriorSettlement) : res RepeatStep :=
  let result := sd_result s in
  details ← prior_details result;
  fallback ← jgetd "retryable" JNull details;
  retryable ← jgetd "retryable" fallback result;
  stage ← (if is_false retryable then v ← jgetd "stage" JNull details; in_names v ["output_validation"; "authorization"; "identity"]
           else Ok false);
  if (stage : bool) then Ok (Suppress (sd_event s) "non_retryable_target_failure") else
  arguments ← jgetd "arguments" JNull (sd_identity s);
  if negb (is_lit arguments (tg_arguments target)) then Ok Continue else
  status ← jgetd "status" JNull result;
  effect ← jgetd "side_effect_status" JNull result;
  if is_lit status "unknown" || is_lit effect "unknown" then Ok (Suppress (sd_event s) "prior_execution_unknown") else
  if tg_read_only target && is_lit status "success" then
    refresh ← read_refresh_allowed history events (sd_event s) now requested;
    Ok (if (refresh : bool) then Refresh else Suppress (sd_event s) "existing_read_result")
  else
  code ← jgetd "error_code" JNull result;
  if is_lit code "tool_schema_invalid" then Ok Continue else
  failed ← in_names status ["error"; "denied"; "failed"];
  if negb failed then Ok Continue else
  if is_false retryable then Ok (Suppress (sd_event s) "non_retryable_failure") else
  if negb (tg_read_only target) && negb (is_lit effect "not_started")
  then Ok (Suppress (sd_event s) "write_retry_requires_reconciliation") else
  retry_step history s details.

Fixpoint judge_all (history : list PriorSettlement) (events : list CanonicalEvent) (requested : requests_dict) (now : Z)
    (newest_first : list PriorSettlement) : res RepeatStep :=
  match newest_first with
  | [] => Ok Continue
  | s :: older =>
      step ← judge history events requested now s;
      match step with Continue => judge_all history events requested now older | _ => Ok step end
  end.

Definition suppression (source : CanonicalEvent) (reason : string) : res payload :=
  invocation ← pget "tool_invocation_id" (ev_payload source);
  Ok [("status", JStr "denied"); ("error_code", JStr "tool_repeat_suppressed");
      ("side_effect_status", JStr "not_started"); ("retryable", JBool false);
      ("summary", JStr ("This request was not executed. Inspect the referenced prior result. " +:+
        "It is historical evidence, not a refreshed query. Do not repeat unchanged " +:+
        "requests; continue other authorized work or report the limitation."));
      ("metadata", JObj [("policy_version", JStr "2"); ("decision", JStr "not_dispatched"); ("reason", JStr reason);
        ("source_invocation_id", invocation); ("source_occurred_at", JStr (isoformat (ev_occurred_at source)))])].

(** [repeat_decision] of a target *)
Definition decide_repeat (events : list CanonicalEvent) (now : Z) : res (option payload) :=
  requested ← requests_of (ra_run_id a) events;
  history ← history_of requested events;
  invalid ← filterR invalid_before history;
  step ← match last invalid with
         | Some s => if negb (tg_schema_valid target) && (3 <=? Z.of_nat (length invalid))
                     then Ok (Suppress (sd_event s) "schema_correction_exhausted")
                     else judge_all history events requested now (rev history)
         | None => judge_all history events requested now (rev history)
         end;
  match step with
  | Suppress source reason => Some <$> suppression source reason
  | _ => Ok None
  end.
End decision.

Definition repeat_decision (a : RuntimeAssignment) (call : RuntimeToolCall) (target : option RepeatTarget)
    (events : list CanonicalEvent) (now : Z) : res (option payload) :=
  match target with
  | None => Ok None
  | Some target => decide_repeat a call target events now
  end.

(** ** Progress and waiting *)

(** [l[-n:]] *)
Definition last_n {A} (n : nat) (l : list A) : list A := drop (length l - n) l.

Definition no_progress (events : list CanonicalEvent) (run_id : string) : res bool :=
  let recent := last_n 8 (map result_of (List.filter (of_type run_id "tool.call.completed") events)) in
  codes ← mapR (jgetd "error_code" JNull) recent;
  if Z.of_nat (length (List.filter (λ c, is_lit c "tool_repeat_suppressed") codes)) <? 4 then Ok false else
  succeeded ← anyR (λ r, s ← jgetd "status" JNull r; Ok (is_lit s "success")) recent;
  Ok (negb succeeded).

(** [(now - t).total_seconds()] *)
Definition seconds_since (now t : Z) : spec_float := f64_of_ratio (now - t <? 0) (Z.abs (now - t)) second.

(** [max(0.0, x)] *)
Definition positive_part (x : spec_float) : spec_float := if f64_gtb x f64_zero then x else f64_zero.

(** The wait that one settlement asks for; [None] when it is not one of the target. *)
Definition wait_for (target : RepeatTarget) (events : list CanonicalEvent) (requests : requests_dict) (run_id : string)
    (now : Z) (e : CanonicalEvent) : res (option spec_float) :=
  if negb (of_type run_id "tool.call.completed" e) then Ok None else
  identity ← repeat_identity requests (pgetn "tool_invocation_id" (ev_payload e));
  binding ← jgetd "binding" JNull identity;
  if negb (is_lit binding (tg_binding target)) then Ok None else
  arguments ← jgetd "arguments" JNull identity;
  if negb (is_lit arguments (tg_arguments target)) then Ok None else
  let result := result_of e in
  code ← jgetd "error_code" JNull result;
  if is_lit code "tool_repeat_suppressed" then Ok None else
  details ← prior_details result;
  status ← jgetd "status" JNull result;
  delay ← (if is_lit status "success" then
             grant ← refresh_grant target events (Some run_id);
             match grant with
             | Some g => v ← jsub "min_interval_seconds" g; py_float v
             | None => Ok f64_zero
             end
           else
             fallback ← jgetd "retryable" JNull details;
             retryable ← jgetd "retryable" fallback result;
             match retryable with
             | JBool true => d ← retry_after result details; Ok (if f64_isfinite d then d else f64_zero)
             | _ => Ok f64_zero
             end);
  Ok (Some (positive_part (f64_sub delay (seconds_since now (ev_occurred_at e))))).

Fixpoint first_wait (wait : CanonicalEvent → res (option spec_float)) (newest_first : list CanonicalEvent) : res spec_float :=
  match newest_first with
  | [] => Ok f64_zero
  | e :: older =>
      w ← wait e;
      match w with Some w => Ok w | None => first_wait wait older end
  end.

Definition wait_seconds (target : option RepeatTarget) (events : list CanonicalEvent) (run_id : string) (now : Z)
    : res spec_float :=
  match target with
  | None => Ok f64_zero
  | Some target =>
      requests ← requests_of run_id events;
      first_wait (wait_for target events requests run_id now) (rev events)
  end.

(** ** What a decision rests on *)

(** The member [k] of a value is the text [s]. *)
Definition member_is (k s : string) (v : json) : Prop := jgetd k JNull v = Ok (JStr s).

Lemma jgetd_lit k v w s : jgetd k JNull v = Ok w → is_lit w s = true → member_is k s v.
Proof. unfold member_is. intros -> Hs. destruct w; try done. cbn in Hs. apply String.eqb_eq in Hs. by subst. Qed.
Lemma member_lit k s v w : member_is k s v → jgetd k JNull v = Ok w → is_lit w s = true.
Proof. unfold member_is. intros -> [= <-]. cbn. apply String.eqb_refl. Qed.

Section grounds.
Context (a : RuntimeAssignment) (call : RuntimeToolCall) (target : RepeatTarget).

(** An earlier settlement of the run about the same target: its request had the binding of
    the target, it is of another invocation, and it is no suppression. *)
Record about_target (requested : requests_dict) (s : PriorSettlement) : Prop := {
  at_event : of_type (ra_run_id a) "tool.call.completed" (sd_event s) = true;
  at_other : is_lit (pgetn "tool_invocation_id" (ev_payload (sd_event s))) (tc_tool_invocation_id call) = false;
  at_identity : repeat_identity requested (pgetn "tool_invocation_id" (ev_payload (sd_event s))) = Ok (sd_identity s);
  at_binding : member_is "binding" (tg_binding target) (sd_identity s);
  at_result : sd_result s = result_of (sd_event s);
  at_executed : ∃ code, jgetd "error_code" JNull (sd_result s) = Ok code ∧ is_lit code "tool_repeat_suppressed" = false;
}.

(** The request of the settlement had the arguments of the target. *)
Definition same_arguments (s : PriorSettlement) : Prop := member_is "arguments" (tg_arguments target) (sd_identity s).

(** The result is a failure. *)
Definition ended_in_failure (result : json) : Prop :=
  ∃ status, member_is "status" status result ∧ status ∈ ["error"; "denied"; "failed"].

(** The result, or else its error details, says that the call must not be tried again. *)
Definition not_retryable (result : json) : Prop :=
  ∃ details fallback, prior_details result = Ok details ∧ jgetd "retryable" JNull details = Ok fallback
    ∧ jgetd "retryable" fallback result = Ok (JBool false).

(** The result, or else its error details, asks for a finite wait of more than 300 seconds. *)
Definition waits_too_long (result : json) : Prop :=
  ∃ details fallback v wait, prior_details result = Ok details ∧ jgetd "retry_after" (JInt 0) details = Ok fallback
    ∧ jgetd "retry_after" fallback result = Ok v ∧ py_float v = Ok wait
    ∧ f64_isfinite wait = true ∧ f64_gtb wait (f64_of_ratio false 300 1) = true.

(** A correction of the same errors that the schema refused, before anything started. *)
Definition failed_correction (s : PriorSettlement) : Prop :=
  member_is "error_code" "tool_schema_invalid" (sd_result s)
  ∧ member_is "side_effect_status" "not_started" (sd_result s)
  ∧ ∃ details errors, prior_details (sd_result s) = Ok details ∧ jgetd "validation_errors" JNull details = Ok errors
      ∧ (truthy errors = false ∨ ∃ family, error_family errors = Ok family ∧ tg_error_family target = Some family).

(** [e] is a write of the run of [source] that succeeded after it. *)
Definition written_since (requested : requests_dict) (source e : CanonicalEvent) : Prop :=
  ev_type e = "tool.call.completed" ∧ ev_run_id e = ev_run_id source ∧ ev_occurred_at source < ev_occurred_at e
  ∧ member_is "status" "success" (result_of e)
  ∧ ((∃ metadata permission, jgetd "metadata" (JObj []) (result_of e) = Ok metadata
        ∧ member_is "tool_permission" permission metadata
        ∧ permission ∈ ["write-with-approval"; "write-autonomous"; "destructive/admin"])
     ∨ ∃ identity, repeat_identity requested (pgetn "tool_invocation_id" (ev_payload e)) = Ok identity
         ∧ jgetd "read_only" JNull identity = Ok (JBool false)).

(** No grant of the run request lets the read be done again: there is none for this
    capability, its calls are used up, or it has expired. *)
Definition no_refresh_left (history : list PriorSettlement) (events : list CanonicalEvent) (now : Z)
    (source : CanonicalEvent) : Prop :=
  refresh_grant target events (ev_run_id source) = Ok None
  ∨ ∃ g max_calls calls, refresh_grant target events (ev_run_id source) = Ok (Some g)
      ∧ jsub "max_calls" g = Ok max_calls ∧ py_int max_calls = Ok calls
      ∧ (calls ≤ Z.of_nat (length history)
         ∨ ∃ expires, jsub "expires_at" g = Ok expires ∧ before_text now expires = Ok false).

(** What a reason says of the settlement [s]. *)
Inductive reason_holds (requested : requests_dict) (history : list PriorSettlement) (events : list CanonicalEvent)
    (now : Z) (s : PriorSettlement) : string → Prop :=
  | exhausted_reason earlier before_s after_s :
      tg_schema_valid target = false → failed_correction s → history = before_s ++ s :: after_s →
      Forall (λ h, ¬ failed_correction h) after_s →
      earlier `sublist_of` before_s → Forall failed_correction earlier → (2 ≤ length earlier)%nat →
      reason_holds requested history events now s "schema_correction_exhausted"
  | target_reason details stage :
      not_retryable (sd_result s) → prior_details (sd_result s) = Ok details → member_is "stage" stage details →
      stage ∈ ["output_validation"; "authorization"; "identity"] →
      reason_holds requested history events now s "non_retryable_target_failure"
  | unknown_reason :
      same_arguments s → member_is "status" "unknown" (sd_result s) ∨ member_is "side_effect_status" "unknown" (sd_result s) →
      reason_holds requested history events now s "prior_execution_unknown"
  | read_reason :
      same_arguments s → tg_read_only target = true → member_is "status" "success" (sd_result s) →
      (∀ e, e ∈ events → ¬ written_since requested (sd_event s) e) → no_refresh_left history events now (sd_event s) →
      reason_holds requested history events now s "existing_read_result"
  | failed_reason :
      same_arguments s → ended_in_failure (sd_result s) → not_retryable (sd_result s) →
      reason_holds requested history events now s "non_retryable_failure"
  | write_reason effect :
      same_arguments s → ended_in_failure (sd_result s) → tg_read_only target = false →
      jgetd "side_effect_status" JNull (sd_result s) = Ok effect → effect ≠ JStr "not_started" →
      reason_holds requested history events now s "write_retry_requires_reconciliation"
  | backoff_reason :
      same_arguments s → ended_in_failure (sd_result s) → waits_too_long (sd_result s) →
      reason_holds requested history events now s "retry_backoff_exceeds_policy"
  | limit_reason same :
      same_arguments s → ended_in_failure (sd_result s) → ¬ not_retryable (sd_result s) →
      same `sublist_of` history → Forall same_arguments same → (3 ≤ length same)%nat →
      reason_holds requested history events now s "retry_limit_reached".

Lemma history_about requested events history s :
  history_of a call target requested events = Ok history → s ∈ history →
  sd_event s ∈ events ∧ about_target requested s.
Proof.
  revert history. induction events as [|e events IH]; intros history Hh Hs; cbn [history_of] in Hh.
  { injection Hh as <-. by apply elem_of_nil in Hs. }
  apply res_bind_Ok in Hh as (o & Ho & Hh). apply res_bind_Ok in Hh as (l & Hl & Hh). injection Hh as <-.
  assert (s ∈ l → sd_event s ∈ e :: events ∧ about_target requested s) as Hrest.
  { intros Hin. destruct (IH l Hl Hin) as [H1 H2]. split; [by right|done]. }
  destruct o as [x|]; [|by apply Hrest]. apply elem_of_cons in Hs as [->|Hs]; [|by apply Hrest].
  unfold settled_before in Ho. destruct (of_type _ _ e) eqn:Et; cbn [negb] in Ho; [|done].
  apply res_bind_Ok in Ho as (identity & Hi & Ho). destruct (is_lit (pgetn _ _) _) eqn:Einv; [done|].
  apply res_bind_Ok in Ho as (binding & Hb & Ho). destruct (is_lit binding _) eqn:Eb; cbn [negb] in Ho; [|done].
  apply res_bind_Ok in Ho as (code & Hc & Ho). destruct (is_lit code _) eqn:Ec; [done|]. injection Ho as <-.
  split; [by left|]. split; cbn; [done|done|exact Hi|by eapply jgetd_lit|done|by exists code].
Qed.

Lemma filterR_length {A} (f : A → res bool) l k :
  filterR f l = Ok k → k = List.filter (λ x, match f x with Ok b => b | Raise _ _ => false end) l.
Proof.
  revert k. induction l as [|x l IH]; intros k Hf; cbn [filterR] in Hf; [by injection Hf as <-|].
  apply res_bind_Ok in Hf as (b & Hb & Hf). apply res_bind_Ok in Hf as (l' & Hl & Hf). injection Hf as <-.
  cbn. rewrite Hb, <- (IH _ Hl). by destruct b.
Qed.

Ltac step_in H x Hx := let H' := fresh in rename H into H'; apply res_bind_Ok in H' as (x & Hx & H).

Lemma is_lit_inv v s : is_lit v s = true → v = JStr s.
Proof. destruct v; cbn; try done. intros ->%String.eqb_eq. done. Qed.

Lemma in_names_inv v l : in_names v l = Ok true → ∃ s, v = JStr s ∧ s ∈ l.
Proof.
  unfold in_names. destruct (hashable v); [|done]. intros [= (x & Hx & Hv)%existsb_exists]. exists x.
  split; [by apply is_lit_inv|by apply list_elem_of_In].
Qed.

Lemma failure_of status result :
  jgetd "status" JNull result = Ok status → in_names status ["error"; "denied"; "failed"] = Ok true → ended_in_failure result.
Proof. intros Hs (x & -> & Hx)%in_names_inv. by exists x. Qed.

Lemma correction_iff s b : invalid_before target s = Ok b → (b = true ↔ failed_correction s).
Proof.
  unfold invalid_before, failed_correction, member_is. intros Hi. step_in Hi code Hc. rewrite Hc.
  destruct (is_lit code _) eqn:Ec; cbn [negb] in Hi.
  2:{ injection Hi as <-. split; [done|]. intros ([= ->] & _). done. }
  apply is_lit_inv in Ec as ->. step_in Hi effect He. rewrite He. destruct (is_lit effect _) eqn:Ee; cbn [negb] in Hi.
  2:{ injection Hi as <-. split; [done|]. intros (_ & [= ->] & _). done. }
  apply is_lit_inv in Ee as ->. step_in Hi details Hd. step_in Hi errors Hv.
  destruct (truthy errors) eqn:Et; cbn [negb] in Hi.
  2:{ injection Hi as <-. split; [|done]. intros _. split; [done|]. split; [done|]. exists details, errors. auto. }
  step_in Hi family Hf. injection Hi as <-. rewrite bool_decide_eq_true. split.
  - intros Hq. split; [done|]. split; [done|]. exists details, errors. split_and!; [done|done|right; by exists family].
  - intros (_ & _ & details' & errors' & Hd' & Hv' & Hor). rewrite Hd in Hd'. injection Hd' as <-. rewrite Hv in Hv'.
    injection Hv' as <-. destruct Hor as [?|(f & Hf' & ->)]; [congruence|]. rewrite Hf in Hf'. by injection Hf' as ->.
Qed.

Lemma filterR_Forall {A} (f : A → res bool) (P : A → Prop) l k :
  (∀ x b, f x = Ok b → (b = true ↔ P x)) → filterR f l = Ok k → k `sublist_of` l ∧ Forall P k.
Proof.
  intros Hf. revert k. induction l as [|x l IH]; intros k Hk; cbn [filterR] in Hk; [by injection Hk as <-|].
  step_in Hk b Hb. step_in Hk k' Hk'. injection Hk as <-. destruct (IH _ Hk'). pose proof (Hf _ _ Hb) as Hp.
  destruct b; [split; [by constructor|constructor; [by apply Hp|done]]|split; [by constructor|done]].
Qed.

(** The last element kept splits the list. *)
Lemma filterR_last {A} (f : A → res bool) (P : A → Prop) l k s :
  (∀ x b, f x = Ok b → (b = true ↔ P x)) → filterR f l = Ok k → last k = Some s →
  P s ∧ ∃ before_s after_s kept, l = before_s ++ s :: after_s ∧ Forall (λ h, ¬ P h) after_s
    ∧ kept `sublist_of` before_s ∧ Forall P kept ∧ length k = S (length kept).
Proof.
  intros Hf. revert k. induction l as [|x l IH]; intros k Hk Hl; cbn [filterR] in Hk; [by injection Hk as <-|].
  step_in Hk b Hb. step_in Hk k' Hk'. injection Hk as <-. pose proof (Hf _ _ Hb) as Hp. destruct (last k') as [y|] eqn:El.
  - assert (last (if b then x :: k' else k') = Some y) as Hy by (destruct b; [by rewrite last_cons, El|done]).
    rewrite Hy in Hl. injection Hl as ->. destruct (IH _ Hk' El) as (HP & before_s & after_s & kept & -> & Ha & Hs & HF & Hn).
    split; [done|]. destruct b.
    + exists (x :: before_s), after_s, (x :: kept). split; [done|]. split; [done|].
      split; [by apply sublist_skip|]. split; [constructor; [by apply Hp|done]|]. cbn. by rewrite Hn.
    + exists (x :: before_s), after_s, kept. split; [done|]. split; [done|].
      split; [by apply sublist_cons|]. done.
  - apply last_None in El as ->. destruct b; [|done]. injection Hl as <-. split; [by apply Hp|]. exists [], l, [].
    split; [done|]. split; [|done]. clear -Hf Hk'. revert Hk'. induction l as [|y l IH]; intros Hk; [done|].
    cbn [filterR] in Hk. step_in Hk b Hb. step_in Hk k' Hk'. destruct b; [done|]. injection Hk as ->.
    constructor; [|by apply IH]. intros Hy%(Hf _ _ Hb). done.
Qed.

Lemma invalid_reason requested events now history invalid s :
  tg_schema_valid target = false → filterR (invalid_before target) history = Ok invalid → last invalid = Some s →
  3 ≤ Z.of_nat (length invalid) → reason_holds requested history events now s "schema_correction_exhausted".
Proof.
  intros Hv Hi Hl Hn. destruct (filterR_last _ _ _ _ _ correction_iff Hi Hl) as (HP & b & a' & kept & Hh & Ha & Hs & Hk & Hlen).
  by apply (exhausted_reason _ _ _ _ _ kept b a'); [..|lia].
Qed.

Lemma confirmed_write_complete requested source e :
  confirmed_write requested source e = Ok false → ¬ written_since requested source e.
Proof.
  unfold confirmed_write, written_since, member_is. intros Hc (Hty & Hrun & Ht & Hs & Hw).
  rewrite Hty, String.eqb_refl, bool_decide_eq_true_2 in Hc by done. rewrite (proj2 (Z.ltb_lt _ _) Ht) in Hc.
  cbn [negb orb] in Hc. rewrite Hs in Hc. cbn [mbind res_bind is_lit] in Hc. rewrite String.eqb_refl in Hc. cbn [negb] in Hc.
  step_in Hc metadata Hm. step_in Hc permission Hp. destruct (hashable permission) eqn:Eh; cbn [negb] in Hc; [|done].
  destruct (existsb _ _) eqn:Ex; [done|]. destruct Hw as [(m & p & Hm' & Hp' & Hin)|(identity & Hi & Hr)].
  - rewrite Hm in Hm'. injection Hm' as <-. rewrite Hp in Hp'. injection Hp' as ->.
    rewrite <- not_true_iff_false, existsb_exists in Ex. apply Ex. exists p. split; [by apply list_elem_of_In|].
    apply String.eqb_refl.
  - rewrite Hi in Hc. cbn [mbind res_bind] in Hc. rewrite Hr in Hc. done.
Qed.

Lemma anyR_false {A} (f : A → res bool) l : anyR f l = Ok false → ∀ x, x ∈ l → f x = Ok false.
Proof.
  induction l as [|y l IH]; cbn [anyR]; intros Hf x Hx; [by apply elem_of_nil in Hx|]. step_in Hf b Hb. destruct b; [done|].
  apply elem_of_cons in Hx as [->|Hx]; [done|by apply IH].
Qed.

Lemma refresh_refused history events source now requested :
  read_refresh_allowed target history events source now requested = Ok false →
  (∀ e, e ∈ events → ¬ written_since requested source e) ∧ no_refresh_left history events now source.
Proof.
  unfold read_refresh_allowed. intros Hr. step_in Hr written Hw. destruct written; [done|]. split.
  { intros e He. apply confirmed_write_complete. by apply (anyR_false _ _ Hw). }
  step_in Hr grant Hg. unfold no_refresh_left. rewrite Hg. destruct grant as [g|]; [right|by left].
  step_in Hr calls Hc. step_in Hc max_calls Hm. exists g, max_calls, calls. split_and!; [done|done|done|].
  destruct (Z.of_nat (length history) <? calls) eqn:El; cbn [negb] in Hr; [right|left; by apply Z.ltb_ge in El].
  step_in Hr expires He. by exists expires.
Qed.

Lemma backoff_exceeds result details b :
  prior_details result = Ok details → retry_after result details = Ok b →
  f64_isfinite b && f64_gtb b five_minutes = true → waits_too_long result.
Proof.
  unfold retry_after. intros Hd Hb Hgt. step_in Hb fallback Hf. step_in Hb v Hv. exists details, fallback, v, b.
  apply andb_true_iff in Hgt as [H1 H2]. split_and!; try done. destruct (truthy v) eqn:Et.
  - destruct (py_float v) as [x|c m]; [done|]. destruct c; try done; injection Hb as <-; done.
  - exfalso. injection Hb as <-. vm_compute in H2. done.
Qed.

(** A settlement that suppresses is named with a reason that holds of it. *)
Lemma judge_grounds history events requested now s source reason :
  judge target history events requested now s = Ok (Suppress source reason) →
  source = sd_event s ∧ reason_holds requested history events now s reason.
Proof.
  unfold judge. intros Hj. step_in Hj details Hd. step_in Hj fallback Hfb. step_in Hj retryable Hr. step_in Hj stage Hs.
  assert (is_false retryable = true → not_retryable (sd_result s)) as Hfinal.
  { intros Hret. exists details, fallback. split_and!; [done|done|]. rewrite Hr. by destruct retryable as [|[]| | | | |]. }
  destruct stage.
  { injection Hj as <- <-. split; [done|]. destruct (is_false retryable); [|done].
    apply res_bind_Ok in Hs as (v & Hv & (x & -> & Hx)%in_names_inv). by eapply target_reason; [by apply Hfinal|..]. }
  step_in Hj arguments Ha. destruct (is_lit arguments _) eqn:Ea; cbn [negb] in Hj; [|done].
  pose proof (jgetd_lit _ _ _ _ Ha Ea) as Hargs. step_in Hj status Hst. step_in Hj effect He.
  destruct (is_lit status "unknown" || is_lit effect "unknown") eqn:Eu.
  { injection Hj as <- <-. split; [done|]. apply unknown_reason; [done|].
    apply orb_true_iff in Eu as [Eu|Eu]; [left|right]; by eapply jgetd_lit. }
  destruct (tg_read_only target && is_lit status "success") eqn:Er.
  { step_in Hj refresh Hrf. destruct refresh; [done|]. injection Hj as <- <-. split; [done|].
    apply andb_true_iff in Er as [Er Es]. apply refresh_refused in Hrf as [Hw Hn].
    apply read_reason; [done|done|by eapply jgetd_lit|done|done]. }
  step_in Hj code Hc. destruct (is_lit code _); [done|]. step_in Hj failed Hf. destruct failed; cbn [negb] in Hj; [|done].
  pose proof (failure_of _ _ Hst Hf) as Hfail. destruct (is_false retryable) eqn:Eret.
  { injection Hj as <- <-. split; [done|]. apply failed_reason; auto. }
  destruct (negb (tg_read_only target) && negb (is_lit effect "not_started")) eqn:Ew.
  { injection Hj as <- <-. split; [done|]. apply andb_true_iff in Ew as [Ew1 Ew2]. apply negb_true_iff in Ew1, Ew2.
    eapply write_reason; [done|done|done|done|]. by intros ->. }
  unfold retry_step in Hj. step_in Hj backoff Hb. destruct (f64_isfinite backoff && f64_gtb backoff five_minutes) eqn:Eb.
  { injection Hj as <- <-. split; [done|]. apply backoff_reason; [done|done|by eapply backoff_exceeds]. }
  step_in Hj same Hsame. destruct (3 <=? Z.of_nat (length same)) eqn:El; [|done]. injection Hj as <- <-. split; [done|].
  apply Z.leb_le in El. apply (filterR_Forall _ same_arguments) in Hsame as [H1 H2].
  - apply (limit_reason _ _ _ _ _ same); [done|done| |done|done|lia]. intros (d & f & Hd' & Hf' & Hr').
    rewrite Hd in Hd'. injection Hd' as <-. rewrite Hfb in Hf'. injection Hf' as <-. rewrite Hr in Hr'. by injection Hr' as ->.
  - intros x b Hx. apply res_bind_Ok in Hx as (v & Hv & [= <-]). unfold same_arguments, member_is. rewrite Hv.
    split; [intros ->%is_lit_inv; done|intros [= ->]; apply String.eqb_refl].
Qed.

Lemma judge_all_grounds history events requested now l source reason :
  judge_all target history events requested now l = Ok (Suppress source reason) →
  ∃ s, s ∈ l ∧ source = sd_event s ∧ reason_holds requested history events now s reason.
Proof.
  induction l as [|s l IH]; cbn [judge_all]; [done|]. intros Hj. step_in Hj step Hs. destruct step as [| |e r].
  - destruct (IH Hj) as (x & Hx & H). exists x. split; [by right|exact H].
  - done.
  - injection Hj as <- <-. apply judge_grounds in Hs as [-> Hr]. exists s. split; [by left|done].
Qed.

(** The settlement leaves it open what became of a write, or says that its side effect
    may have happened. *)
Definition uncertain (result : json) : Prop :=
  member_is "status" "unknown" result ∨ member_is "side_effect_status" "unknown" result
  ∨ ((∃ status, jgetd "status" JNull result = Ok status ∧ in_names status ["error"; "denied"; "failed"] = Ok true)
     ∧ (∀ effect, jgetd "side_effect_status" JNull result = Ok effect → is_lit effect "not_started" = false)
     ∧ ∀ code, jgetd "error_code" JNull result = Ok code → is_lit code "tool_schema_invalid" = false).

Lemma judge_write history events requested now s step :
  tg_read_only target = false → judge target history events requested now s = Ok step →
  step ≠ Refresh
  ∧ (member_is "arguments" (tg_arguments target) (sd_identity s) → uncertain (sd_result s) → step ≠ Continue).
Proof.
  intros Hro. unfold judge. intros Hj. step_in Hj details Hd. step_in Hj fallback Hfb. step_in Hj retryable Hr.
  step_in Hj stage Hs. destruct stage; [by injection Hj as <-|].
  step_in Hj arguments Ha. destruct (is_lit arguments _) eqn:Ea; cbn [negb] in Hj.
  2:{ injection Hj as <-. split; [done|]. intros Hm. by rewrite (member_lit _ _ _ _ Hm Ha) in Ea. }
  step_in Hj status Hst. step_in Hj effect He.
  destruct (is_lit status "unknown" || is_lit effect "unknown") eqn:Eu; [by injection Hj as <-|].
  rewrite Hro in Hj. cbn [andb negb] in Hj. step_in Hj code Hc.
  apply orb_false_iff in Eu as [Eu1 Eu2].
  assert (¬ member_is "status" "unknown" (sd_result s)) as H1 by (intros Hm; by rewrite (member_lit _ _ _ _ Hm Hst) in Eu1).
  assert (¬ member_is "side_effect_status" "unknown" (sd_result s)) as H2
    by (intros Hm; by rewrite (member_lit _ _ _ _ Hm He) in Eu2).
  destruct (is_lit code _) eqn:Ec.
  { injection Hj as <-. split; [done|]. intros _ [?|[?|(_ & _ & Hu)]]; [done|done|]. by rewrite (Hu _ Hc) in Ec. }
  step_in Hj failed Hf. destruct failed; cbn [negb] in Hj.
  2:{ injection Hj as <-. split; [done|]. intros _ [?|[?|((st & Hst' & Hin) & _)]]; [done|done|].
      rewrite Hst in Hst'. injection Hst' as <-. by rewrite Hf in Hin. }
  destruct (is_false retryable); [by injection Hj as <-|].
  destruct (is_lit effect "not_started") eqn:En; cbn [negb] in Hj; [|by injection Hj as <-].
  split; [|intros _ [?|[?|(_ & Hu & _)]]; [done|done|by rewrite (Hu _ He) in En]].
  unfold retry_step in Hj. step_in Hj backoff Hb. destruct (f64_isfinite backoff && f64_gtb backoff five_minutes); [by injection Hj as <-|].
  step_in Hj same Hsame. by destruct (3 <=? Z.of_nat (length same)); injection Hj as <-.
Qed.

Lemma judge_all_write history events requested now l step s :
  tg_read_only target = false → judge_all target history events requested now l = Ok step → s ∈ l →
  member_is "arguments" (tg_arguments target) (sd_identity s) → uncertain (sd_result s) →
  ∃ source reason, step = Suppress source reason.
Proof.
  intros Hro. induction l as [|x l IH]; cbn [judge_all]; intros Hj Hs Ha Hu; [by apply elem_of_nil in Hs|].
  step_in Hj st Hst. destruct (judge_write _ _ _ _ _ _ Hro Hst) as [H1 H2].
  destruct st as [| |e r]; [|done|injection Hj as <-; by eauto].
  apply elem_of_cons in Hs as [->|Hs]; [by destruct (H2 Ha Hu)|by apply IH].
Qed.
End grounds.

Lemma history_complete a call target requested events history e s :
  history_of a call target requested events = Ok history → e ∈ events →
  settled_before a call target requested e = Ok (Some s) → s ∈ history.
Proof.
  revert history. induction events as [|x events IH]; intros history Hh He Hs; [by apply elem_of_nil in He|].
  cbn [history_of] in Hh. apply res_bind_Ok in Hh as (o & Ho & Hh). apply res_bind_Ok in Hh as (l & Hl & Hh).
  injection Hh as <-. apply elem_of_cons in He as [->|He].
  - rewrite Hs in Ho. injection Ho as <-. by left.
  - pose proof (IH _ Hl He Hs). destruct o; [by right|done].
Qed.

(** The step that decides, for both ways to it. *)
Lemma decide_repeat_inv a call target events now d :
  decide_repeat a call target events now = Ok d →
  ∃ requested history step, requests_of (ra_run_id a) events = Ok requested
    ∧ history_of a call target requested events = Ok history
    ∧ ((∃ s, s ∈ history ∧ step = Suppress (sd_event s) "schema_correction_exhausted"
             ∧ reason_holds target requested history events now s "schema_correction_exhausted")
       ∨ judge_all target history events requested now (rev history) = Ok step)
    ∧ match step with Suppress source reason => Some <$> suppression source reason | _ => Ok None end = Ok d.
Proof.
  unfold decide_repeat. intros Hd. apply res_bind_Ok in Hd as (requested & Hr & Hd).
  apply res_bind_Ok in Hd as (history & Hh & Hd). apply res_bind_Ok in Hd as (invalid & Hi & Hd).
  apply res_bind_Ok in Hd as (step & Hs & Hd). exists requested, history, step. split_and!; [done|done| |done].
  destruct (last invalid) as [s|] eqn:El; [|by right].
  destruct (negb (tg_schema_valid target) && _) eqn:En; [|by right]. left. injection Hs as <-.
  apply andb_true_iff in En as [En Hn]. apply negb_true_iff in En.
  rewrite Z.leb_le in Hn. exists s. split_and!; [|done|by eapply invalid_reason].
  apply last_Some_elem_of in El. destruct (filterR_Forall _ _ _ _ (correction_iff target) Hi) as [Hsub _].
  by eapply elem_of_sublist.
Qed.

(** C31. A call is suppressed only on the evidence of the run: the decision names a
    settlement of the same run about the same target, of another invocation and not itself
    a suppression, gives a reason that holds of it, and says that nothing was executed. *)
Theorem suppression_grounded a call target events now d :
  repeat_decision a call (Some target) events now = Ok (Some d) →
  ∃ requested history s reason metadata,
    requests_of (ra_run_id a) events = Ok requested ∧ history_of a call target requested events = Ok history
    ∧ s ∈ history ∧ sd_event s ∈ events ∧ about_target a call target requested s
    ∧ reason_holds target requested history events now s reason
    ∧ pgetn "metadata" d = JObj metadata ∧ pgetn "reason" metadata = JStr reason
    ∧ pgetn "source_invocation_id" metadata = pgetn "tool_invocation_id" (ev_payload (sd_event s))
    ∧ pgetn "status" d = JStr "denied" ∧ pgetn "side_effect_status" d = JStr "not_started"
    ∧ pgetn "retryable" d = JBool false.
Proof.
  cbn [repeat_decision]. intros Hd. apply decide_repeat_inv in Hd as (requested & history & step & Hr & Hh & Hs & Hd).
  assert (∃ s reason, s ∈ history ∧ step = Suppress (sd_event s) reason ∧ reason_holds target requested history events now s reason) as
    (s & reason & Hin & -> & Hreason).
  { destruct Hs as [(s & Hin & -> & Hg)|Hj]; [by eauto|]. destruct step as [| |source reason]; [done|done|].
    apply judge_all_grounds in Hj as (s & Hin & -> & Hg). exists s, reason. split_and!; [|done|done].
    apply list_elem_of_In. apply in_rev. by apply list_elem_of_In. }
  destruct (history_about _ _ _ _ _ _ _ Hh Hin) as [Hev Hab].
  unfold suppression in Hd. destruct (pget "tool_invocation_id" (ev_payload (sd_event s))) as [v|] eqn:Ep; [|done].
  cbn [mbind res_bind fmap res_fmap] in Hd. injection Hd as <-.
  exists requested, history, s, reason. eexists. split_and!; try done; try reflexivity.
  unfold pget in Ep. unfold pgetn. destruct (dget "tool_invocation_id" (ev_payload (sd_event s))); [|done].
  injection Ep as ->. reflexivity.
Qed.

(** C28. A write is not repeated while the run does not know what became of it: when an
    earlier call of the same target with the same arguments ended with an unknown status
    or side effect, or failed after it may have started, the call is not dispatched. *)
Theorem uncertain_write_not_repeated a call target events now requested e s d :
  tg_read_only target = false → requests_of (ra_run_id a) events = Ok requested → e ∈ events →
  settled_before a call target requested e = Ok (Some s) →
  member_is "arguments" (tg_arguments target) (sd_identity s) → uncertain (sd_result s) →
  repeat_decision a call (Some target) events now = Ok d → d ≠ None.
Proof.
  intros Hro Hr He Hs Ha Hu Hd. cbn [repeat_decision] in Hd.
  apply decide_repeat_inv in Hd as (requested' & history & step & Hr' & Hh & Hstep & Hd).
  rewrite Hr in Hr'. injection Hr' as <-. pose proof (history_complete _ _ _ _ _ _ _ _ Hh He Hs) as Hin.
  assert (∃ source reason, step = Suppress source reason) as (source & reason & ->).
  { destruct Hstep as [(x & _ & -> & _)|Hj]; [by eauto|]. eapply judge_all_write; [done|exact Hj| |exact Ha|exact Hu].
    apply list_elem_of_In, in_rev. rewrite rev_involutive. by apply list_elem_of_In. }
  destruct (suppression source reason); [|done]. by injection Hd as <-.
Qed.


(** ** Concrete runs *)

Module RepeatExamples.
Import RuntimeCommitExamples.

Definition settled_event_of (version : Z) (ty : string) (p : payload) : CanonicalEvent :=
  mkCanonicalEvent ("evt_" +:+ pretty version) "t1" "s1" "s1" (Some "r1") version ty (version * second)
    (mkActor "runtime" "rt1") "r1" "c" VInternal 1 p.
Definition write_target : RepeatTarget := mkTarget "b" "args" false true None (Some "cap").
Definition read_target : RepeatTarget := mkTarget "b" "args" true true None (Some "cap").
Definition identity_of_request : json := JObj [("binding", JStr "b"); ("arguments", JStr "args"); ("read_only", JBool false)].
Definition repeated_call : RuntimeToolCall := mkRuntimeToolCall "inv_2" "send" [] "1" "write" None None None.

(** An earlier call with this result. *)
Definition run_events (result : payload) : list CanonicalEvent :=
  [settled_event_of 1 "tool.call.requested" [("tool_invocation_id", JStr "inv_1"); ("repeat_identity", identity_of_request)];
   settled_event_of 2 "tool.call.completed" [("tool_invocation_id", JStr "inv_1"); ("result", JObj result)]].
Definition reason_of (target : RepeatTarget) (result : payload) : option json :=
  match repeat_decision rc_assignment repeated_call (Some target) (run_events result) (10 * second) with
  | Ok (Some d) => match pgetn "metadata" d with JObj m => Some (pgetn "reason" m) | _ => None end
  | _ => None
  end.

Definition timed_out_write : payload := [("status", JStr "unknown"); ("error_code", JStr "tool_timeout")].
Example decisions :
  (reason_of write_target timed_out_write,
   reason_of write_target [("status", JStr "error"); ("side_effect_status", JStr "started")],
   reason_of write_target [("status", JStr "error"); ("side_effect_status", JStr "not_started")],
   reason_of write_target [("status", JStr "success")],
   reason_of read_target [("status", JStr "success")],
   reason_of read_target [("status", JStr "error"); ("retry_after", JInt 301)])
  = (Some (JStr "prior_execution_unknown"), Some (JStr "write_retry_requires_reconciliation"), None, None,
     Some (JStr "existing_read_result"), Some (JStr "retry_backoff_exceeds_policy")).
Proof. vm_compute. done. Qed.

Definition evidence : CanonicalEvent := settled_event_of 2 "tool.call.completed"
  [("tool_invocation_id", JStr "inv_1"); ("result", JObj timed_out_write)].
Definition earlier : PriorSettlement := mkPriorSettlement evidence identity_of_request (JObj timed_out_write).
Definition earlier_requests : list (json * payload) :=
  [(JStr "inv_1", [("tool_invocation_id", JStr "inv_1"); ("repeat_identity", identity_of_request)])].
Definition decided : payload :=
  match repeat_decision rc_assignment repeated_call (Some write_target) (run_events timed_out_write) (10 * second) with
  | Ok (Some d) => d | _ => [] end.

Lemma suppression_grounded_witness :
  ∃ requested history s reason metadata,
    requests_of "r1" (run_events timed_out_write) = Ok requested
    ∧ history_of rc_assignment repeated_call write_target requested (run_events timed_out_write) = Ok history
    ∧ s ∈ history ∧ sd_event s ∈ run_events timed_out_write ∧ about_target rc_assignment repeated_call write_target requested s
    ∧ reason_holds write_target requested history (run_events timed_out_write) (10 * second) s reason
    ∧ pgetn "metadata" decided = JObj metadata ∧ pgetn "reason" metadata = JStr reason
    ∧ pgetn "source_invocation_id" metadata = pgetn "tool_invocation_id" (ev_payload (sd_event s))
    ∧ pgetn "status" decided = JStr "denied" ∧ pgetn "side_effect_status" decided = JStr "not_started"
    ∧ pgetn "retryable" decided = JBool false.
Proof. apply (suppression_grounded rc_assignment repeated_call write_target (run_events timed_out_write) (10 * second) decided). vm_compute. reflexivity. Defined.

Lemma uncertain_write_not_repeated_witness : Some decided ≠ None.
Proof.
  apply (uncertain_write_not_repeated rc_assignment repeated_call write_target (run_events timed_out_write) (10 * second)
           earlier_requests evidence earlier (Some decided)).
  - reflexivity.
  - vm_compute. reflexivity.
  - unfold run_events. apply elem_of_cons. right. apply elem_of_cons. by left.
  - vm_compute. reflexivity.
  - reflexivity.
  - left. reflexivity.
  - vm_compute. reflexivity.
Defined.

(** Four suppressions among the last eight results and no success: no progress. *)
Definition suppressed_result : CanonicalEvent := settled_event_of 3 "tool.call.completed"
  [("tool_invocation_id", JStr "inv_3"); ("result", JObj [("status", JStr "denied"); ("error_code", JStr "tool_repeat_suppressed")])].
Example progress :
  (no_progress (replicate 4 suppressed_result) "r1", no_progress (replicate 3 suppressed_result) "r1") = (Ok true, Ok false).
Proof. vm_compute. done. Qed.

(** The handler of the invalid schema is not reached: the arguments are blamed for it. *)
Example invalid_schema_blamed `{SchemaEngine} :
  check_arguments (JObj []) (JObj [("$ref", JStr "http://example.org/schema")])
  = Ok (false, Some (value_digest (JArr []))).
Proof. vm_compute. reflexivity. Qed.
End RepeatExamples.
