(* ===== verification/ArtifactStore.v ===== *)
(** * Artifact metadata ([infrastructure/persistence/postgres_artifact_repository.py])

    The table [artifact.metadata], one row per (tenant, artifact), and the receipts of
    removed skill packages, shared by the replicas of the artifact service.  Each SQL
    statement is a function of the tables and of the time of its transaction; a method that
    sends two statements is two functions, since others act between them.  Columns that no
    statement reads (heartbeats, counters of attempts, producer, lineage, access list) are
    left out.  A comparison with NULL is not true. *)

From stdpp Require Import gmap.
From S2P Require Import Prelude PyValue DateTime Digest.
Local Open Scope Z_scope.

(** ** Rows *)

Inductive ArtifactStatus := APending | AScanning | AReady | AQuarantined | ADeleting | ADeleted | AReconciling.
#[global] Instance ArtifactStatus_eq_dec : EqDecision ArtifactStatus.
Proof. solve_decision. Defined.

Definition artifact_status_value (s : ArtifactStatus) : string :=
  match s with
  | APending => "pending" | AScanning => "scanning" | AReady => "ready" | AQuarantined => "quarantined"
  | ADeleting => "deleting" | ADeleted => "deleted" | AReconciling => "reconciling"
  end.

(** [PendingUpload] ([artifact/internal_service.py]) *)
Record PendingUpload := mkPending {
  pu_tenant_id : string;
  pu_artifact_id : string;
  pu_upload_id : string;
  pu_object_key : string;
  pu_root_session_id : string;
  pu_session_id : string;
  pu_name : string;
  pu_media_type : string;
  pu_expected_size : Z;
  pu_expected_checksum : string;
  pu_classification : string;
  pu_expires_at : Z;
  pu_version : Z;
  pu_retention_until : option Z;
  pu_legal_hold : bool;
  pu_upload_mode : string;
  pu_multipart_upload_id : option string;
  pu_multipart_part_size : option Z;
  pu_multipart_completed : bool;
  pu_gc_claim_token : option string;
  pu_finalize_claim_token : option string;
  pu_skill_bound_digest : option string;
  pu_skill_publish_claim_token : option string;
  pu_lifecycle_status : ArtifactStatus;
  pu_scan_status : string;
  pu_object_operation_ref : option string;
}.

Record ArtifactRow := mkArtifactRow {
  ar_tenant_id : string;
  ar_artifact_id : string;
  ar_root_session_id : string;
  ar_session_id : string;
  ar_media_type : string;
  ar_name : string;
  ar_version : Z;
  ar_size : Z;
  ar_storage_ref : string;
  ar_classification : string;
  ar_status : ArtifactStatus;
  ar_upload_id : string;
  ar_upload_expires_at : Z;
  ar_expected_checksum : string;
  ar_scan_status : string;
  ar_scan_error : option string;
  ar_upload_mode : string;
  ar_multipart_upload_id : option string;
  ar_multipart_part_size : option Z;
  ar_multipart_completed_at : option Z;
  ar_retention_until : option Z;
  ar_legal_hold : bool;
  ar_deleted_at : option Z;
  ar_finalize_claim_token : option string;
  ar_finalize_claim_expires_at : option Z;
  ar_gc_claim_token : option string;
  ar_gc_claim_expires_at : option Z;
  ar_gc_last_error : option string;
  ar_object_known : bool;
  ar_reconciliation_reason : option string;
  ar_reconciliation_updated_at : option Z;
  ar_object_operation_ref : option string;
  ar_object_side_effect_started_at : option Z;
  ar_skill_bound_at : option Z;
  ar_skill_bound_digest : option string;
  ar_skill_publish_claim_token : option string;
  ar_skill_publish_claim_expires_at : option Z;
  ar_physical_removal_pending : bool;
}.
#[global] Instance ArtifactRow_eta : Eta ArtifactRow := λ r,
  mkArtifactRow (ar_tenant_id r) (ar_artifact_id r) (ar_root_session_id r) (ar_session_id r) (ar_media_type r)
    (ar_name r) (ar_version r) (ar_size r) (ar_storage_ref r) (ar_classification r) (ar_status r) (ar_upload_id r)
    (ar_upload_expires_at r) (ar_expected_checksum r) (ar_scan_status r) (ar_scan_error r) (ar_upload_mode r)
    (ar_multipart_upload_id r) (ar_multipart_part_size r) (ar_multipart_completed_at r) (ar_retention_until r)
    (ar_legal_hold r) (ar_deleted_at r) (ar_finalize_claim_token r) (ar_finalize_claim_expires_at r)
    (ar_gc_claim_token r) (ar_gc_claim_expires_at r) (ar_gc_last_error r) (ar_object_known r)
    (ar_reconciliation_reason r) (ar_reconciliation_updated_at r) (ar_object_operation_ref r)
    (ar_object_side_effect_started_at r) (ar_skill_bound_at r) (ar_skill_bound_digest r)
    (ar_skill_publish_claim_token r) (ar_skill_publish_claim_expires_at r) (ar_physical_removal_pending r).

(** [_pending] *)
Definition pending_of (r : ArtifactRow) : PendingUpload :=
  mkPending (ar_tenant_id r) (ar_artifact_id r) (ar_upload_id r) (ar_storage_ref r) (ar_root_session_id r)
    (ar_session_id r) (ar_name r) (ar_media_type r) (ar_size r) (ar_expected_checksum r) (ar_classification r)
    (ar_upload_expires_at r) (ar_version r) (ar_retention_until r) (ar_legal_hold r) (ar_upload_mode r)
    (ar_multipart_upload_id r) (ar_multipart_part_size r) (match ar_multipart_completed_at r with Some _ => true | None => false end)
    (ar_gc_claim_token r) (ar_finalize_claim_token r) (ar_skill_bound_digest r) (ar_skill_publish_claim_token r)
    (ar_status r) (ar_scan_status r) (ar_object_operation_ref r).

Notation artifact_key := (string * string)%type.
Definition key_of_pending (p : PendingUpload) : artifact_key := (pu_tenant_id p, pu_artifact_id p).

Record ArtifactTables := mkArtifactTables { at_rows : gmap artifact_key ArtifactRow; at_receipts : gset (string * string) }.
Definition no_artifacts : ArtifactTables := mkArtifactTables ∅ ∅.

(** [_removal_digest] *)
Definition removal_digest (tenant_id artifact_id : string) (version : Z) : string :=
  let zero := String (Ascii.ascii_of_nat 0) EmptyString in
  sha256_hex (utf8 (tenant_id +:+ zero +:+ artifact_id +:+ zero +:+ pretty version)).

(** ** Conditions *)

Definition skill_media_type : string := "application/vnd.auraclaw.skill-package+json".
Definition sql_eq (a b : option string) : bool :=
  match a, b with Some x, Some y => String.eqb x y | _, _ => false end.
(** [t <= now()] and [t > now()] *)
Definition is_past (now : Z) (t : option Z) : bool := match t with Some t => t <=? now | None => false end.
Definition is_future (now : Z) (t : option Z) : bool := match t with Some t => now <? t | None => false end.
(** [t IS NULL], [t IS NULL OR t <= now()] *)
Definition is_null {A} (o : option A) : bool := match o with None => true | Some _ => false end.
Definition is_free (now : Z) (t : option Z) : bool := is_null t || is_past now t.
Definition status_in (l : list ArtifactStatus) (r : ArtifactRow) : bool := bool_decide (ar_status r ∈ l).
Definition same_upload (p : PendingUpload) (r : ArtifactRow) : bool := String.eqb (ar_upload_id r) (pu_upload_id p).
Definition skill_root (r : ArtifactRow) : bool :=
  String.eqb (ar_root_session_id r) "skill-registry" || String.prefix "skill-upload:" (ar_root_session_id r).

(** The claim of [p] is the claim of the row, and has not expired. *)
Definition finalize_held (now : Z) (p : PendingUpload) (r : ArtifactRow) : bool :=
  sql_eq (ar_finalize_claim_token r) (pu_finalize_claim_token p) && is_future now (ar_finalize_claim_expires_at r).
Definition gc_held (now : Z) (p : PendingUpload) (r : ArtifactRow) : bool :=
  sql_eq (ar_gc_claim_token r) (pu_gc_claim_token p) && is_future now (ar_gc_claim_expires_at r).

(** [UPDATE ... SET f WHERE tenant_id=$1 AND artifact_id=$2 AND c]: the row before and the
    row after when one was updated. *)
Definition update_one (k : artifact_key) (c : ArtifactRow → bool) (f : ArtifactRow → ArtifactRow) (t : ArtifactTables)
    : ArtifactTables * option ArtifactRow :=
  match at_rows t !! k with
  | Some r => if c r then (mkArtifactTables (<[k := f r]> (at_rows t)) (at_receipts t), Some (f r)) else (t, None)
  | None => (t, None)
  end.
(** [str(result) == "UPDATE 1"] *)
Definition updated {A B} (r : A * option B) : A * bool := (r.1, negb (is_null r.2)).
Definition returned (r : ArtifactTables * option ArtifactRow) : ArtifactTables * option PendingUpload :=
  (r.1, pending_of <$> r.2).
(** [UPDATE ... SET f WHERE c] *)
Definition update_all (c : ArtifactRow → bool) (f : ArtifactRow → ArtifactRow) (t : ArtifactTables) : ArtifactTables :=
  mkArtifactTables ((λ r, if c r then f r else r) <$> at_rows t) (at_receipts t).
Definition count_rows (c : ArtifactRow → bool) (t : ArtifactTables) : nat :=
  length (List.filter (λ kr, c kr.2) (map_to_list (at_rows t))).

(** The object of the row may or may not have been changed: somebody has to look. *)
Definition unresolved (now : Z) (reason : string) (r : ArtifactRow) : ArtifactRow :=
  r <| ar_status := AReconciling |> <| ar_object_known := false |> <| ar_reconciliation_reason := Some reason |>
    <| ar_reconciliation_updated_at := Some now |>.
(** The claim of the garbage collector, and what it is released with. *)
Definition gc_taken (now : Z) (token : string) (ttl : Z) (r : ArtifactRow) : ArtifactRow :=
  r <| ar_gc_claim_token := Some token |> <| ar_gc_claim_expires_at := Some (now + ttl) |>.
Definition gc_free (r : ArtifactRow) : ArtifactRow :=
  r <| ar_gc_claim_token := None |> <| ar_gc_claim_expires_at := None |>.
Definition finalize_free (r : ArtifactRow) : ArtifactRow :=
  r <| ar_finalize_claim_token := None |> <| ar_finalize_claim_expires_at := None |>.
Definition known_row (r : ArtifactRow) : ArtifactRow :=
  r <| ar_object_known := true |> <| ar_object_side_effect_started_at := None |>.
Definition erased_row (now : Z) (r : ArtifactRow) : ArtifactRow :=
  known_row (gc_free (r <| ar_status := ADeleted |> <| ar_deleted_at := Some now |> <| ar_gc_last_error := None |>
    <| ar_reconciliation_reason := None |>)).

(** ** Uploads *)

Definition row_of_pending (p : PendingUpload) : ArtifactRow :=
  {| ar_tenant_id := pu_tenant_id p; ar_artifact_id := pu_artifact_id p; ar_root_session_id := pu_root_session_id p;
     ar_session_id := pu_session_id p; ar_media_type := pu_media_type p; ar_name := pu_name p; ar_version := 1;
     ar_size := pu_expected_size p; ar_storage_ref := pu_object_key p; ar_classification := pu_classification p;
     ar_status := APending; ar_upload_id := pu_upload_id p; ar_upload_expires_at := pu_expires_at p;
     ar_expected_checksum := pu_expected_checksum p; ar_scan_status := "pending"; ar_scan_error := None;
     ar_upload_mode := pu_upload_mode p; ar_multipart_upload_id := pu_multipart_upload_id p;
     ar_multipart_part_size := pu_multipart_part_size p; ar_multipart_completed_at := None;
     ar_retention_until := pu_retention_until p; ar_legal_hold := false; ar_deleted_at := None;
     ar_finalize_claim_token := None; ar_finalize_claim_expires_at := None; ar_gc_claim_token := None;
     ar_gc_claim_expires_at := None; ar_gc_last_error := None; ar_object_known := true; ar_reconciliation_reason := None;
     ar_reconciliation_updated_at := None; ar_object_operation_ref := None; ar_object_side_effect_started_at := None;
     ar_skill_bound_at := None; ar_skill_bound_digest := None; ar_skill_publish_claim_token := None;
     ar_skill_publish_claim_expires_at := None; ar_physical_removal_pending := false |}.

Definition save_pending (p : PendingUpload) (t : ArtifactTables) : ArtifactTables * res unit :=
  match at_rows t !! key_of_pending p with
  | Some _ => (t, Raise PyRuntimeError "duplicate key value violates unique constraint")
  | None => (mkArtifactTables (<[key_of_pending p := row_of_pending p]> (at_rows t)) (at_receipts t), Ok tt)
  end.

Definition mark_multipart_completed (now : Z) (p : PendingUpload) (t : ArtifactTables) : ArtifactTables * bool :=
  updated (update_one (key_of_pending p)
    (λ r, same_upload p r && status_in [APending; AScanning] r && finalize_held now p r)
    (λ r, r <| ar_multipart_completed_at := Some now |> <| ar_object_side_effect_started_at := None |>) t).

(** [claim_finalize]: an owner that was lost after it had touched the object leaves the
    row to reconciliation; otherwise a free upload is claimed. *)
Definition abandon_finalize (now : Z) (p : PendingUpload) (t : ArtifactTables) : ArtifactTables :=
  (update_one (key_of_pending p)
    (λ r, same_upload p r && status_in [AScanning] r && is_past now (ar_finalize_claim_expires_at r)
          && negb (is_null (ar_object_side_effect_started_at r)))
    (unresolved now "finalize_owner_lost_after_side_effect") t).1.
Definition take_finalize (now : Z) (token : string) (ttl : Z) (p : PendingUpload) (t : ArtifactTables)
    : ArtifactTables * option PendingUpload :=
  returned (update_one (key_of_pending p)
    (λ r, same_upload p r && status_in [APending; AScanning] r && is_null (ar_object_side_effect_started_at r)
          && is_free now (ar_finalize_claim_expires_at r))
    (λ r, r <| ar_status := AScanning |> <| ar_scan_status := "scanning" |> <| ar_finalize_claim_token := Some token |>
            <| ar_finalize_claim_expires_at := Some (now + ttl) |>) t).

Definition get_upload (tenant_id artifact_id upload_id : string) (t : ArtifactTables) : option PendingUpload :=
  r ← at_rows t !! (tenant_id, artifact_id);
  if String.eqb (ar_upload_id r) upload_id && status_in [APending; AScanning] r then Some (pending_of r) else None.

Definition mark_ready (now : Z) (p : PendingUpload) (version : Z) (t : ArtifactTables) : ArtifactTables * bool :=
  updated (update_one (key_of_pending p)
    (λ r, same_upload p r
          && ((status_in [APending] r && is_null (pu_finalize_claim_token p)) || (status_in [AScanning] r && finalize_held now p r)))
    (λ r, known_row (finalize_free (r <| ar_status := AReady |> <| ar_scan_status := "clean" |> <| ar_version := version |>
            <| ar_reconciliation_reason := None |>))) t).

Definition mark_quarantined (now : Z) (p : PendingUpload) (reason : string) (t : ArtifactTables) : ArtifactTables * bool :=
  updated (update_one (key_of_pending p)
    (λ r, same_upload p r && status_in [APending; AScanning] r && finalize_held now p r)
    (λ r, known_row (finalize_free (r <| ar_status := AQuarantined |> <| ar_scan_status := "quarantined" |>
            <| ar_scan_error := Some reason |>))) t).

Definition renew_finalize (now ttl : Z) (p : PendingUpload) (t : ArtifactTables) : ArtifactTables * bool :=
  updated (update_one (key_of_pending p) (λ r, same_upload p r && status_in [AScanning] r && finalize_held now p r)
    (λ r, r <| ar_finalize_claim_expires_at := Some (now + ttl) |>) t).

Definition exists_row (k : artifact_key) (c : ArtifactRow → bool) (t : ArtifactTables) : bool :=
  match at_rows t !! k with Some r => c r | None => false end.
Definition validate_finalize (now : Z) (p : PendingUpload) : ArtifactTables → bool :=
  exists_row (key_of_pending p) (λ r, same_upload p r && status_in [AScanning] r && finalize_held now p r).

Definition select_row (k : artifact_key) (c : ArtifactRow → bool) (t : ArtifactTables) : option PendingUpload :=
  r ← at_rows t !! k; if c r then Some (pending_of r) else None.
Definition get_ready (tenant_id artifact_id : string) (version : Z) : ArtifactTables → option PendingUpload :=
  select_row (tenant_id, artifact_id)
    (λ r, (ar_version r =? version) && status_in [AReady] r && ar_object_known r && is_null (ar_deleted_at r)).

(** ** Deletion *)

(** [claim_ready_delete], in two statements. *)
Definition abandon_delete (now : Z) (tenant_id artifact_id : string) (version : Z) (t : ArtifactTables) : ArtifactTables :=
  (update_one (tenant_id, artifact_id)
    (λ r, (ar_version r =? version) && status_in [ADeleting] r && is_past now (ar_gc_claim_expires_at r)
          && negb (is_null (ar_object_side_effect_started_at r)))
    (unresolved now "delete_owner_lost_after_side_effect") t).1.

(** The row may be deleted: at the end of its retention, or for the purge of a bound skill
    package; [include_deleted] takes deleted and unresolved skill packages as well. *)
Definition deletable (now : Z) (ignore_retention include_deleted : bool) (r : ArtifactRow) : bool :=
  (status_in [AReady] r || (include_deleted && status_in [ADeleted; AReconciling] r)
   || (status_in [ADeleting] r && is_past now (ar_gc_claim_expires_at r)))
  && (include_deleted || (is_null (ar_deleted_at r) && ar_object_known r && is_null (ar_object_side_effect_started_at r)))
  && negb (ar_legal_hold r)
  && (include_deleted || negb (ar_physical_removal_pending r))
  && (negb include_deleted || String.eqb (ar_media_type r) skill_media_type)
  && ((ignore_retention && String.eqb (ar_media_type r) skill_media_type && negb (is_null (ar_skill_bound_at r)))
      || is_past now (ar_retention_until r))
  && is_free now (ar_gc_claim_expires_at r).
Definition take_delete (now : Z) (token : string) (ttl : Z) (ignore_retention include_deleted : bool)
    (tenant_id artifact_id : string) (version : Z) (t : ArtifactTables) : ArtifactTables * option PendingUpload :=
  returned (update_one (tenant_id, artifact_id)
    (λ r, (ar_version r =? version) && deletable now ignore_retention include_deleted r)
    (λ r, gc_taken now token ttl (known_row (r <| ar_status := ADeleting |> <| ar_deleted_at := None |>
            <| ar_physical_removal_pending := ar_physical_removal_pending r || include_deleted |>))) t).

Definition is_removed (tenant_id artifact_id : string) (version : Z) (t : ArtifactTables) : bool :=
  bool_decide ((tenant_id, removal_digest tenant_id artifact_id version) ∈ at_receipts t).

Definition has_shared_storage (p : PendingUpload) (t : ArtifactTables) : bool :=
  existsb (λ kr, String.eqb (ar_storage_ref kr.2) (pu_object_key p)
                 && negb (String.eqb (ar_tenant_id kr.2) (pu_tenant_id p) && String.eqb (ar_artifact_id kr.2) (pu_artifact_id p)
                          && (ar_version kr.2 =? pu_version p))
                 && is_null (ar_deleted_at kr.2)) (map_to_list (at_rows t)).

Definition mark_ready_removed (now : Z) (p : PendingUpload) (t : ArtifactTables) : ArtifactTables * bool :=
  if exists_row (key_of_pending p)
       (λ r, (ar_version r =? pu_version p) && status_in [ADeleting] r && gc_held now p r
             && String.eqb (ar_media_type r) skill_media_type && negb (ar_legal_hold r)) t
  then (mkArtifactTables (delete (key_of_pending p) (at_rows t))
          ({[(pu_tenant_id p, removal_digest (pu_tenant_id p) (pu_artifact_id p) (pu_version p))]} ∪ at_receipts t), true)
  else (t, false).

Definition mark_ready_deleted (now : Z) (p : PendingUpload) (t : ArtifactTables) : ArtifactTables * bool :=
  updated (update_one (key_of_pending p) (λ r, status_in [ADeleting] r && gc_held now p r) (erased_row now) t).

Definition renew_gc (now ttl : Z) (p : PendingUpload) (t : ArtifactTables) : ArtifactTables * bool :=
  updated (update_one (key_of_pending p) (λ r, gc_held now p r && is_null (ar_deleted_at r))
    (λ r, r <| ar_gc_claim_expires_at := Some (now + ttl) |>) t).
Definition validate_gc (now : Z) (p : PendingUpload) : ArtifactTables → bool :=
  exists_row (key_of_pending p) (λ r, gc_held now p r && is_null (ar_deleted_at r)).

(** The two kinds of claims. *)
Inductive ArtifactOperation := OpFinalize | OpGc.
Definition operation_name (o : ArtifactOperation) : string := match o with OpFinalize => "finalize" | OpGc => "gc" end.
Definition operation_ref (o : ArtifactOperation) (p : PendingUpload) : string :=
  operation_name o +:+ ":" +:+ pu_artifact_id p +:+ ":" +:+ pretty (pu_version p).

Definition mark_artifact_reconciling (now : Z) (p : PendingUpload) (o : ArtifactOperation) (reason : string) (t : ArtifactTables)
    : ArtifactTables * bool :=
  updated (update_one (key_of_pending p)
    (λ r, match o with
          | OpFinalize => sql_eq (ar_finalize_claim_token r) (pu_finalize_claim_token p)
          | OpGc => sql_eq (ar_gc_claim_token r) (pu_gc_claim_token p)
          end && is_null (ar_deleted_at r))
    (λ r, unresolved now reason (r <| ar_object_operation_ref := Some (operation_ref o p) |>)) t).

Definition begin_object_side_effect (now : Z) (p : PendingUpload) (o : ArtifactOperation) (t : ArtifactTables)
    : ArtifactTables * bool :=
  updated (update_one (key_of_pending p)
    (λ r, match o with
          | OpFinalize => same_upload p r && status_in [AScanning] r && finalize_held now p r
          | OpGc => gc_held now p r && is_null (ar_deleted_at r)
          end)
    (λ r, r <| ar_object_side_effect_started_at := Some now |> <| ar_object_operation_ref := Some (operation_ref o p) |>) t).

Definition is_deleted (tenant_id artifact_id : string) (version : Z) : ArtifactTables → bool :=
  exists_row (tenant_id, artifact_id)
    (λ r, (ar_version r =? version) && status_in [ADeleted] r && negb (is_null (ar_deleted_at r))).

Definition release_ready_delete (now : Z) (p : PendingUpload) (error : string) (t : ArtifactTables) : ArtifactTables * bool :=
  updated (update_one (key_of_pending p) (λ r, status_in [ADeleting] r && gc_held now p r)
    (λ r, gc_free (r <| ar_status := AReady |> <| ar_gc_last_error := Some error |> <| ar_object_side_effect_started_at := None |>)) t).

Definition get_ready_delete_claim (now : Z) (tenant_id artifact_id : string) (version : Z) (claim_token : string)
    : ArtifactTables → option PendingUpload :=
  select_row (tenant_id, artifact_id)
    (λ r, (ar_version r =? version) && status_in [ADeleting] r && is_null (ar_deleted_at r)
          && sql_eq (ar_gc_claim_token r) (Some claim_token) && is_future now (ar_gc_claim_expires_at r)).

(** ** Skill packages *)

Definition publication_ttl : Z := 15 * 60 * second.

Definition claim_skill_publication (now : Z) (tenant_id artifact_id : string) (version : Z) (command_id : string)
    (t : ArtifactTables) : ArtifactTables * option PendingUpload :=
  returned (update_one (tenant_id, artifact_id)
    (λ r, (ar_version r =? version) && status_in [AReady] r && ar_object_known r && is_null (ar_deleted_at r)
          && String.eqb (ar_media_type r) skill_media_type && skill_root r
          && (negb (is_null (ar_skill_bound_at r))
              || (is_future now (ar_retention_until r)
                  && (is_free now (ar_skill_publish_claim_expires_at r)
                      || sql_eq (ar_skill_publish_claim_token r) (Some command_id)))))
    (λ r, r <| ar_skill_publish_claim_token := Some command_id |>
            <| ar_skill_publish_claim_expires_at := Some (now + publication_ttl) |>) t).

(** [package_digest.removeprefix("sha256:")] *)
Definition content_hash (package_digest : string) : option string :=
  if String.prefix "sha256:" package_digest
  then Some (String.substring 7 (String.length package_digest - 7) package_digest) else None.

Definition bind_skill_publication (now : Z) (p : PendingUpload) (package_digest : string) (t : ArtifactTables)
    : ArtifactTables * bool :=
  match content_hash package_digest with
  | None => (t, false)
  | Some hash =>
      updated (update_one (key_of_pending p)
        (λ r, (ar_version r =? pu_version p) && String.eqb (ar_expected_checksum r) hash && is_null (ar_deleted_at r)
              && ((status_in [AReady] r
                   && (sql_eq (ar_skill_publish_claim_token r) (pu_skill_publish_claim_token p)
                       || sql_eq (ar_skill_bound_digest r) (Some package_digest)))
                  || (status_in [ADeleting] r && gc_held now p r)))
        (λ r, gc_free (r <| ar_status := AReady |> <| ar_skill_bound_at := Some now |>
                <| ar_skill_bound_digest := Some package_digest |> <| ar_skill_publish_claim_token := None |>
                <| ar_skill_publish_claim_expires_at := None |> <| ar_gc_last_error := None |>)) t)
  end.

(** ** Claims on whichever rows are due *)

(** The rows a claim takes: the first [limit] due ones that no other transaction holds
    locked ([FOR UPDATE SKIP LOCKED]), in the order of [rank]; between equal ranks the
    statement leaves the order open. *)
Definition row_leb (rank : ArtifactRow → option Z) (a b : artifact_key * ArtifactRow) : bool :=
  match rank a.2, rank b.2 with
  | Some x, Some y => if x =? y then match String.compare (ar_artifact_id a.2) (ar_artifact_id b.2) with Gt => false | _ => true end
                      else x <? y
  | Some _, None => true
  | None, Some _ => false
  | None, None => match String.compare (ar_artifact_id a.2) (ar_artifact_id b.2) with Gt => false | _ => true end
  end.
Definition due_keys (locked : artifact_key → bool) (limit : Z) (rank : ArtifactRow → option Z) (c : ArtifactRow → bool)
    (t : ArtifactTables) : list artifact_key :=
  take (Z.to_nat limit)
    (map fst (py_sorted (row_leb rank) (List.filter (λ kr, c kr.2 && negb (locked kr.1)) (map_to_list (at_rows t))))).
Definition claim_rows (keys : list artifact_key) (f : ArtifactRow → ArtifactRow) (t : ArtifactTables)
    : ArtifactTables * list PendingUpload :=
  (mkArtifactTables (foldr (λ k rows, alter f k rows) (at_rows t) keys) (at_receipts t),
   omap (λ k, pending_of <$> (f <$> at_rows t !! k)) keys).

(** [claim_skill_orphans] *)
Definition abandon_orphans (now : Z) : ArtifactTables → ArtifactTables :=
  update_all (λ r, status_in [ADeleting] r && is_past now (ar_gc_claim_expires_at r)
                   && negb (is_null (ar_object_side_effect_started_at r)) && String.eqb (ar_media_type r) skill_media_type)
    (unresolved now "orphan_owner_lost_after_side_effect").
Definition orphaned (now : Z) (r : ArtifactRow) : bool :=
  status_in [AReady] r && ar_object_known r && is_null (ar_deleted_at r) && negb (ar_legal_hold r)
  && String.eqb (ar_media_type r) skill_media_type && skill_root r && is_null (ar_skill_bound_at r)
  && is_past now (ar_retention_until r) && is_free now (ar_skill_publish_claim_expires_at r)
  && is_free now (ar_gc_claim_expires_at r) && is_null (ar_object_side_effect_started_at r).
Definition take_orphans (now : Z) (token : string) (ttl limit : Z) (locked : artifact_key → bool) (t : ArtifactTables)
    : ArtifactTables * list PendingUpload :=
  claim_rows (due_keys locked limit ar_retention_until (orphaned now) t)
    (λ r, gc_taken now token ttl (r <| ar_status := ADeleting |>)) t.

Definition cleanup_pending (now : Z) (t : ArtifactTables) : ArtifactTables * nat :=
  let expired r := status_in [APending] r && (ar_upload_expires_at r <=? now) && negb (ar_legal_hold r) in
  (update_all expired (λ r, r <| ar_status := ADeleted |> <| ar_deleted_at := Some now |>) t, count_rows expired t).

Definition to_reconcile (now : Z) (r : ArtifactRow) : bool :=
  status_in [AReconciling] r && negb (ar_object_known r) && negb (ar_physical_removal_pending r) && is_null (ar_deleted_at r)
  && is_free now (ar_gc_claim_expires_at r).
Definition claim_reconciling (now : Z) (token : string) (ttl limit : Z) (locked : artifact_key → bool) (t : ArtifactTables)
    : ArtifactTables * list PendingUpload :=
  claim_rows (due_keys locked limit ar_reconciliation_updated_at (to_reconcile now) t) (gc_taken now token ttl) t.

Definition resolve_reconciling (now : Z) (p : PendingUpload) (status : ArtifactStatus) (reason : string) (t : ArtifactTables)
    : ArtifactTables * bool :=
  if negb (bool_decide (status ∈ [AReady; APending; ADeleted; AQuarantined])) then (t, false) else
  updated (update_one (key_of_pending p)
    (λ r, sql_eq (ar_gc_claim_token r) (pu_gc_claim_token p) && status_in [AReconciling] r && negb (ar_object_known r)
          && negb (ar_physical_removal_pending r) && is_future now (ar_gc_claim_expires_at r))
    (λ r, gc_free (finalize_free (known_row (r <| ar_status := status |>
            <| ar_deleted_at := match status with ADeleted => Some now | _ => ar_deleted_at r end |>
            <| ar_scan_status := match status with AReady => "clean" | AQuarantined => "quarantined" | _ => ar_scan_status r end |>
            <| ar_reconciliation_reason := Some reason |> <| ar_reconciliation_updated_at := Some now |>)))) t).

(** [expired_uploads] *)
Definition abandon_uploads (now : Z) : ArtifactTables → ArtifactTables :=
  update_all (λ r, status_in [APending; AScanning] r && is_past now (ar_gc_claim_expires_at r)
                   && negb (is_null (ar_object_side_effect_started_at r)) && is_null (ar_deleted_at r))
    (unresolved now "gc_owner_lost_after_side_effect").
Definition expired_upload (now : Z) (r : ArtifactRow) : bool :=
  status_in [APending; AScanning] r && ar_object_known r && (ar_upload_expires_at r <=? now) && negb (ar_legal_hold r)
  && is_null (ar_deleted_at r) && is_free now (ar_gc_claim_expires_at r) && is_null (ar_object_side_effect_started_at r).
Definition take_expired (now : Z) (token : string) (ttl limit : Z) (locked : artifact_key → bool) (t : ArtifactTables)
    : ArtifactTables * list PendingUpload :=
  claim_rows (due_keys locked limit (λ r, Some (ar_upload_expires_at r)) (expired_upload now) t) (gc_taken now token ttl) t.

Definition mark_deleted (now : Z) (p : PendingUpload) (t : ArtifactTables) : ArtifactTables * bool :=
  updated (update_one (key_of_pending p)
    (λ r, same_upload p r && status_in [APending; AScanning] r && negb (ar_legal_hold r) && gc_held now p r)
    (erased_row now) t).

Definition release_gc (now : Z) (p : PendingUpload) (error : string) (t : ArtifactTables) : ArtifactTables * bool :=
  updated (update_one (key_of_pending p) (λ r, same_upload p r && gc_held now p r)
    (λ r, gc_free (r <| ar_gc_last_error := Some error |> <| ar_object_side_effect_started_at := None |>)) t).

(** ** Any operation by anybody *)

Inductive RepoOp :=
  | RSavePending (p : PendingUpload)
  | RMultipartCompleted (p : PendingUpload)
  | RAbandonFinalize (p : PendingUpload)
  | RTakeFinalize (token : string) (ttl : Z) (p : PendingUpload)
  | RMarkReady (p : PendingUpload) (version : Z)
  | RMarkQuarantined (p : PendingUpload) (reason : string)
  | RRenewFinalize (ttl : Z) (p : PendingUpload)
  | RAbandonDelete (tenant_id artifact_id : string) (version : Z)
  | RTakeDelete (token : string) (ttl : Z) (ignore_retention include_deleted : bool) (tenant_id artifact_id : string) (version : Z)
  | RReadyRemoved (p : PendingUpload)
  | RReadyDeleted (p : PendingUpload)
  | RRenewGc (ttl : Z) (p : PendingUpload)
  | RReconciling (p : PendingUpload) (o : ArtifactOperation) (reason : string)
  | RBegin (p : PendingUpload) (o : ArtifactOperation)
  | RReleaseDelete (p : PendingUpload) (error : string)
  | RClaimPublication (tenant_id artifact_id : string) (version : Z) (command_id : string)
  | RBind (p : PendingUpload) (digest : string)
  | RAbandonOrphans
  | RTakeOrphans (token : string) (ttl limit : Z) (locked : artifact_key → bool)
  | RCleanupPending
  | RClaimReconciling (token : string) (ttl limit : Z) (locked : artifact_key → bool)
  | RResolve (p : PendingUpload) (status : ArtifactStatus) (reason : string)
  | RAbandonUploads
  | RTakeExpired (token : string) (ttl limit : Z) (locked : artifact_key → bool)
  | RMarkDeleted (p : PendingUpload)
  | RReleaseGc (p : PendingUpload) (error : string).

Definition run_repo (now : Z) (op : RepoOp) (t : ArtifactTables) : ArtifactTables :=
  match op with
  | RSavePending p => (save_pending p t).1
  | RMultipartCompleted p => (mark_multipart_completed now p t).1
  | RAbandonFinalize p => abandon_finalize now p t
  | RTakeFinalize token ttl p => (take_finalize now token ttl p t).1
  | RMarkReady p version => (mark_ready now p version t).1
  | RMarkQuarantined p reason => (mark_quarantined now p reason t).1
  | RRenewFinalize ttl p => (renew_finalize now ttl p t).1
  | RAbandonDelete tenant_id artifact_id version => abandon_delete now tenant_id artifact_id version t
  | RTakeDelete token ttl i d tenant_id artifact_id version => (take_delete now token ttl i d tenant_id artifact_id version t).1
  | RReadyRemoved p => (mark_ready_removed now p t).1
  | RReadyDeleted p => (mark_ready_deleted now p t).1
  | RRenewGc ttl p => (renew_gc now ttl p t).1
  | RReconciling p o reason => (mark_artifact_reconciling now p o reason t).1
  | RBegin p o => (begin_object_side_effect now p o t).1
  | RReleaseDelete p error => (release_ready_delete now p error t).1
  | RClaimPublication tenant_id artifact_id version command_id => (claim_skill_publication now tenant_id artifact_id version command_id t).1
  | RBind p digest => (bind_skill_publication now p digest t).1
  | RAbandonOrphans => abandon_orphans now t
  | RTakeOrphans token ttl limit locked => (take_orphans now token ttl limit locked t).1
  | RCleanupPending => (cleanup_pending now t).1
  | RClaimReconciling token ttl limit locked => (claim_reconciling now token ttl limit locked t).1
  | RResolve p status reason => (resolve_reconciling now p status reason t).1
  | RAbandonUploads => abandon_uploads now t
  | RTakeExpired token ttl limit locked => (take_expired now token ttl limit locked t).1
  | RMarkDeleted p => (mark_deleted now p t).1
  | RReleaseGc p error => (release_gc now p error t).1
  end.

(** What the operation presents as its own. *)
Definition presented (op : RepoOp) : option PendingUpload :=
  match op with
  | RMultipartCompleted p | RMarkReady p _ | RMarkQuarantined p _ | RRenewFinalize _ p | RReadyRemoved p | RReadyDeleted p
  | RRenewGc _ p | RReconciling p _ _ | RBegin p _ | RReleaseDelete p _ | RBind p _ | RResolve p _ _ | RMarkDeleted p | RReleaseGc p _ => Some p
  | _ => None
  end.
(** The operation presents a claim of the row. *)
Definition presents_claim (op : RepoOp) (r : ArtifactRow) : bool :=
  match presented op with
  | Some p => sql_eq (ar_gc_claim_token r) (pu_gc_claim_token p) || sql_eq (ar_finalize_claim_token r) (pu_finalize_claim_token p)
  | None => false
  end.

(** ** What an operation does to a row *)


Lemma update_one_row k k' c f t r :
  at_rows t !! k = Some r →
  at_rows (update_one k' c f t).1 !! k = Some (if bool_decide (k = k') && c r then f r else r).
Proof.
  intros Hr. unfold update_one. case_bool_decide as Hk; cbn [andb].
  - subst k'. rewrite Hr. destruct (c r); [cbn; by rewrite lookup_insert_eq|done].
  - destruct (at_rows t !! k') as [r'|]; [|done]. destruct (c r'); [|done]. cbn. by rewrite lookup_insert_ne.
Qed.
Lemma update_all_row k c f t r :
  at_rows t !! k = Some r → at_rows (update_all c f t) !! k = Some (if c r then f r else r).
Proof. intros Hr. cbn. by rewrite lookup_fmap, Hr. Qed.

Lemma claim_rows_row k keys f t r :
  at_rows t !! k = Some r → NoDup keys →
  at_rows (claim_rows keys f t).1 !! k = Some (if bool_decide (k ∈ keys) then f r else r).
Proof.
  intros Hr. cbn. induction keys as [|k' keys IH]; intros Hk; cbn [foldr].
  { by rewrite bool_decide_eq_false_2 by (by apply not_elem_of_nil). }
  apply NoDup_cons in Hk as [Hn Hk]. specialize (IH Hk). destruct (decide (k = k')) as [->|Hne].
  - rewrite lookup_alter_eq, IH. rewrite bool_decide_eq_false_2 by done. by rewrite bool_decide_eq_true_2 by by left.
  - rewrite lookup_alter_ne by done. rewrite IH. f_equal. repeat case_bool_decide; set_solver.
Qed.

Lemma due_keys_spec locked limit rank c t k :
  k ∈ due_keys locked limit rank c t → ∃ r, at_rows t !! k = Some r ∧ c r = true.
Proof.
  unfold due_keys. intros Hk. apply elem_of_take in Hk as (i & Hk & _). apply list_elem_of_lookup_2 in Hk.
  apply list_elem_of_fmap in Hk as ([k' r] & -> & Hk). rewrite py_sorted_perm in Hk.
  apply list_elem_of_In, filter_In in Hk as [Hk Hc]. apply list_elem_of_In, elem_of_map_to_list in Hk.
  apply andb_true_iff in Hc as [Hc _]. by exists r.
Qed.
Lemma due_keys_nodup locked limit rank c t : NoDup (due_keys locked limit rank c t).
Proof.
  unfold due_keys. eapply sublist_NoDup; [|apply sublist_take].
  rewrite (Permutation_map fst (py_sorted_perm _ _)).
  eapply sublist_NoDup; [apply (NoDup_fst_map_to_list (at_rows t))|]. apply fmap_sublist.
  induction (map_to_list (at_rows t)) as [|x l IH]; cbn; [done|]. destruct (c x.2 && negb (locked x.1)); by constructor.
Qed.

Lemma claim_due_row k locked limit rank c f t r :
  at_rows t !! k = Some r →
  ∃ b, at_rows (claim_rows (due_keys locked limit rank c t) f t).1 !! k = Some (if b && c r then f r else r).
Proof.
  intros Hr. exists (bool_decide (k ∈ due_keys locked limit rank c t)).
  rewrite (claim_rows_row k _ f t r Hr) by apply due_keys_nodup. case_bool_decide as Hk; [|done].
  apply due_keys_spec in Hk as (r' & Hr' & Hc). rewrite Hr in Hr'. injection Hr' as <-. by rewrite Hc.
Qed.

Lemma status_in_spec l r : status_in l r = true → Exists (λ s, ar_status r = s) l.
Proof. intros H%bool_decide_eq_true. apply Exists_exists. by eexists. Qed.

(** Splits the conditions of a statement. *)
Ltac conditions :=
  repeat match goal with
    | H : _ && _ = true |- _ => apply andb_true_iff in H as [? ?]
    | H : _ || _ = true |- _ => apply orb_true_iff in H as [H|H]
    | H : _ || _ = false |- _ => apply orb_false_iff in H as [? ?]
    | H : negb _ = true |- _ => apply negb_true_iff in H
    | H : status_in _ _ = true |- _ => apply status_in_spec in H
    | H : Exists _ [] |- _ => by apply Exists_nil in H
    | H : Exists _ (_ :: _) |- _ => apply Exists_cons in H as [H|H]
    | H : bool_decide _ = true |- _ => apply bool_decide_eq_true in H
    end.

(** The row after an operation, by cases on the condition of its statement. *)
Ltac row_of Hr :=
  first [ rewrite (update_one_row _ _ _ _ _ _ Hr) | rewrite (update_all_row _ _ _ _ _ Hr)
        | match goal with |- context [claim_rows (due_keys ?l ?n ?rank ?c ?t) ?f ?t] =>
            let b := fresh "b" in let E := fresh in destruct (claim_due_row _ l n rank c f t _ Hr) as [b E]; rewrite E; clear E end ];
  match goal with |- context [if ?c then _ else _] => let E := fresh "Hwhere" in destruct c eqn:E; [conditions|] end.
Ltac open_op := unfold mark_multipart_completed, abandon_finalize, take_finalize, mark_ready, mark_quarantined, renew_finalize,
  abandon_delete, take_delete, mark_ready_deleted, renew_gc, mark_artifact_reconciling, begin_object_side_effect, release_ready_delete,
  claim_skill_publication, abandon_orphans, take_orphans, cleanup_pending, claim_reconciling, abandon_uploads, take_expired,
  mark_deleted, release_gc; cbn [updated returned fst].

Lemma is_future_past now t : is_future now t = true → is_past now t = false.
Proof. destruct t as [t|]; cbn; [|done]. intros H. apply Z.ltb_lt in H. by apply Z.leb_gt. Qed.
Lemma is_future_free now t : is_future now t = true → is_free now t = false.
Proof. intros H. unfold is_free. rewrite is_future_past by done. by destruct t. Qed.

(** A condition that cannot hold. *)
Ltac refute := exfalso; unfold deletable, orphaned, expired_upload, to_reconcile, finalize_held, gc_held in *; conditions; congruence.

Lemma save_pending_row k p t r : at_rows t !! k = Some r → at_rows (save_pending p t).1 !! k = Some r.
Proof.
  intros Hr. unfold save_pending. destruct (at_rows t !! key_of_pending p) as [r'|] eqn:E; [done|].
  cbn. rewrite lookup_insert_ne; [done|]. intros <-. by rewrite Hr in E.
Qed.
Lemma removed_row k now p t r :
  at_rows t !! k = Some r →
  at_rows (mark_ready_removed now p t).1 !! k = Some r
  ∨ k = key_of_pending p ∧ ar_status r = ADeleting ∧ gc_held now p r = true ∧ ar_legal_hold r = false.
Proof.
  intros Hr. unfold mark_ready_removed, exists_row. destruct (decide (k = key_of_pending p)) as [->|Hk].
  - rewrite Hr. match goal with |- context [if ?c then _ else _] => destruct c eqn:E end; [conditions; by right|by left].
  - left. destruct (at_rows t !! key_of_pending p) as [r'|]; [|done].
    match goal with |- context [if ?c then _ else _] => destruct c end; [cbn; by rewrite lookup_delete_ne|done].
Qed.
Lemma bind_row k now p digest t r :
  at_rows t !! k = Some r →
  at_rows (bind_skill_publication now p digest t).1 !! k = Some r
  ∨ ∃ r', at_rows (bind_skill_publication now p digest t).1 !! k = Some r' ∧ ar_status r' = AReady ∧ ar_legal_hold r' = ar_legal_hold r
      ∧ (ar_status r = AReady ∨ ar_status r = ADeleting ∧ gc_held now p r = true)
      ∧ ar_gc_claim_token r' = None ∧ ar_gc_claim_expires_at r' = None.
Proof.
  intros Hr. unfold bind_skill_publication. destruct (content_hash digest) as [hash|]; [|by left].
  cbn [updated fst]. row_of Hr; [right..|by left]; eexists; (split; [reflexivity|]); cbn; auto 7.
Qed.

(** C24. Deletion is exclusive: while a row is being deleted under a claim that has not
    expired, an operation that does not present a claim of the row leaves the row exactly
    as it is, whatever the operation and its arguments are. *)
Theorem deletion_exclusive now op t k r :
  at_rows t !! k = Some r → ar_status r = ADeleting → is_future now (ar_gc_claim_expires_at r) = true →
  presents_claim op r = false → at_rows (run_repo now op t) !! k = Some r.
Proof.
  intros Hr Hs He Hp. pose proof (is_future_past _ _ He) as Hpast. pose proof (is_future_free _ _ He) as Hfree.
  destruct op; unfold presents_claim in Hp; cbn [presented run_repo] in *; conditions.
  all: try (open_op; row_of Hr; try done; refute).
  - by apply save_pending_row.
  - destruct (removed_row _ now p _ _ Hr) as [?|(_ & _ & ? & _)]; [done|refute].
  - destruct o; open_op; row_of Hr; try done; refute.
  - destruct o; open_op; row_of Hr; try done; refute.
  - destruct (bind_row _ now p digest _ _ Hr) as [?|(r' & _ & _ & _ & [?|[_ ?]] & _)]; [done|refute|refute].
  - unfold resolve_reconciling. destruct (negb _); [done|]. cbn [updated fst]. row_of Hr; try done; refute.
Qed.

(** What an operation may do to a held row that is not being deleted: its object is erased
    from the records only when the object of an unresolved row was found to be gone; a claim
    of the collector is not given to anybody, unless for looking at an unresolved object; and
    a claim it has (from before the hold) is prolonged only for its live holder. *)
Record held_step (now : Z) (op : RepoOp) (r r' : ArtifactRow) : Prop := {
  hs_held : ar_legal_hold r' = true;
  hs_kept : ar_status r' ≠ ADeleting;
  hs_deleted : ar_status r' = ADeleted → ar_status r = ADeleted
    ∨ ar_status r = AReconciling ∧ ∃ p reason, op = RResolve p ADeleted reason;
  hs_claim : ∀ token, ar_gc_claim_token r' = Some token → ar_gc_claim_token r = Some token
    ∨ ar_status r = AReconciling ∧ ∃ ttl limit locked, op = RClaimReconciling token ttl limit locked;
  hs_expiry : ∀ t, ar_gc_claim_expires_at r' = Some t → ar_gc_claim_expires_at r = Some t
    ∨ (ar_status r = AReconciling ∧ ∃ token ttl limit locked, op = RClaimReconciling token ttl limit locked)
    ∨ ∃ ttl p, op = RRenewGc ttl p ∧ gc_held now p r = true;
}.
Lemma held_unchanged now op r : ar_legal_hold r = true → ar_status r ≠ ADeleting → held_step now op r r.
Proof. intros Hh Hs. split; auto. Qed.

(** C34. A legal hold is respected: whatever operation anybody performs, a held row that is
    not being deleted stays in the table, held and not being deleted; nobody is given a claim
    of its deletion, whether of a ready artifact or of an expired upload ([held_step]); and it
    becomes deleted only when the object of an unresolved row is found to be gone already. *)
Theorem legal_hold_respected now op t k r :
  at_rows t !! k = Some r → ar_legal_hold r = true → ar_status r ≠ ADeleting →
  ∃ r', at_rows (run_repo now op t) !! k = Some r' ∧ held_step now op r r'.
Proof.
  intros Hr Hh Hs. destruct op; cbn [run_repo].
  all: try (open_op; row_of Hr; first [by eauto using held_unchanged|refute|eexists; split; [reflexivity|]; split; cbn; by eauto]).
  - exists r. split; [by apply save_pending_row|by apply held_unchanged].
  - destruct (removed_row _ now p _ _ Hr) as [E|(_ & ? & _)]; [rewrite E; by eauto using held_unchanged|refute].
  - open_op. row_of Hr; [|by eauto using held_unchanged]. eexists. split; [reflexivity|]. split; cbn; eauto 6.
  - destruct (bind_row _ now p digest _ _ Hr) as [E|(r' & E & E' & E'' & _ & E1 & E2)]; rewrite E; [by eauto using held_unchanged|].
    exists r'. split; [done|]. split; rewrite ?E', ?E'', ?E1, ?E2; done.
  - open_op. row_of Hr; [|by eauto using held_unchanged]. eexists. split; [reflexivity|]. unfold to_reconcile in *. conditions.
    split; cbn; [done|done|by auto| |by eauto 8]. intros x [= <-]. by eauto 8.
  - unfold resolve_reconciling. destruct (negb _) eqn:En; [by eauto using held_unchanged|]. cbn [updated fst].
    row_of Hr; [|by eauto using held_unchanged]. eexists. split; [reflexivity|]. split; cbn; try done.
    + apply negb_false_iff, bool_decide_eq_true in En. set_solver.
    + intros ->. right. split; [done|by eauto].
Qed.

(** What may be deleted at [now]. *)
Definition may_be_deleted (now : Z) (r : ArtifactRow) : Prop :=
  ar_legal_hold r = false
  ∧ ((∃ until, ar_retention_until r = Some until ∧ until ≤ now)
     ∨ ar_media_type r = "application/vnd.auraclaw.skill-package+json" ∧ is_Some (ar_skill_bound_at r)).

Lemma is_past_some now o : is_past now o = true → ∃ t, o = Some t ∧ t ≤ now.
Proof. destruct o as [t|]; [|done]. intros Ht%Z.leb_le. by exists t. Qed.
Lemma bound_package r :
  String.eqb (ar_media_type r) skill_media_type = true → is_null (ar_skill_bound_at r) = false →
  ar_media_type r = "application/vnd.auraclaw.skill-package+json" ∧ is_Some (ar_skill_bound_at r).
Proof. intros ->%String.eqb_eq Hb. split; [done|]. by destruct (ar_skill_bound_at r); eauto. Qed.

(** A row goes into deletion only by the claims of a deletion and of an orphan, and only when it
    may be deleted. *)
Lemma deletion_starts now op t k r r' :
  at_rows t !! k = Some r → at_rows (run_repo now op t) !! k = Some r' → ar_status r ≠ ADeleting → ar_status r' = ADeleting →
  may_be_deleted now r
  ∧ match op with
    | RTakeDelete _ _ _ _ tenant artifact _ => k = (tenant, artifact)
    | RTakeOrphans _ _ _ _ => ar_media_type r = "application/vnd.auraclaw.skill-package+json" ∧ ar_skill_bound_at r = None
    | _ => False
    end.
Proof.
  intros Hr Hr' Hs Hs'. destruct op; cbn [run_repo] in Hr'.
  all: try (exfalso; revert Hr'; open_op; row_of Hr; intros [= <-]; cbn in Hs'; congruence).
  - exfalso. by rewrite (save_pending_row _ _ _ _ Hr) in Hr'; injection Hr' as <-.
  - revert Hr'. open_op. rewrite (update_one_row _ _ _ _ _ _ Hr). case_bool_decide as Hk; cbn [andb]; [|intros [= <-]; done].
    destruct ((ar_version r =? version) && _) eqn:E; [|intros [= <-]; done]. intros _. unfold deletable in E. conditions.
    all: split; [|done]; split; [done|]. all: first [by left; apply is_past_some | by right; apply bound_package].
  - exfalso. destruct (removed_row _ now p _ _ Hr) as [E|(_ & ? & _)]; [rewrite E in Hr'; by injection Hr' as <-|done].
  - exfalso. destruct (bind_row _ now p digest _ _ Hr) as [E|(x & E & Ex & _)]; rewrite E in Hr'; injection Hr' as <-; congruence.
  - revert Hr'. open_op. row_of Hr; [intros _|intros [= <-]; done]. unfold orphaned in *. conditions.
    split; [split; [done|left; by apply is_past_some]|]. split; [by apply String.eqb_eq|by destruct (ar_skill_bound_at r)].
  - exfalso. unfold resolve_reconciling in Hr'. destruct (negb _) eqn:En; [cbn [fst] in Hr'; rewrite Hr in Hr'; by injection Hr' as <-|].
    cbn [updated fst] in Hr'. revert Hr'. row_of Hr; intros [= <-]; [|done]. cbn in Hs'. subst status.
    apply negb_false_iff, bool_decide_eq_true in En. set_solver.
Qed.

(** ** Concrete rows *)

Module ArtifactStoreExamples.

Definition staged : PendingUpload :=
  {| pu_tenant_id := "t1"; pu_artifact_id := "art_1"; pu_upload_id := "upl_1"; pu_object_key := "k"; pu_root_session_id := "s1";
     pu_session_id := "s1"; pu_name := "report.txt"; pu_media_type := "text/plain"; pu_expected_size := 4;
     pu_expected_checksum := "ab"; pu_classification := "internal"; pu_expires_at := 100; pu_version := 1;
     pu_retention_until := Some 500; pu_legal_hold := false; pu_upload_mode := "single"; pu_multipart_upload_id := None;
     pu_multipart_part_size := None; pu_multipart_completed := false; pu_gc_claim_token := None; pu_finalize_claim_token := None;
     pu_skill_bound_digest := None; pu_skill_publish_claim_token := None; pu_lifecycle_status := APending;
     pu_scan_status := "pending"; pu_object_operation_ref := None |}.
Definition staged_key : artifact_key := ("t1", "art_1").
Definition nothing_locked : artifact_key → bool := λ _, false.
Definition run_all (t : ArtifactTables) (ops : list (Z * RepoOp)) : ArtifactTables := fold_left (λ t op, run_repo op.1 op.2 t) ops t.
Definition status_at (t : ArtifactTables) : option (ArtifactStatus * option string) :=
  (λ r, (ar_status r, ar_gc_claim_token r)) <$> at_rows t !! staged_key.
Definition holder (finalize gc : option string) : PendingUpload :=
  {| pu_tenant_id := "t1"; pu_artifact_id := "art_1"; pu_upload_id := "upl_1"; pu_object_key := "k"; pu_root_session_id := "s1";
     pu_session_id := "s1"; pu_name := "report.txt"; pu_media_type := "text/plain"; pu_expected_size := 4;
     pu_expected_checksum := "ab"; pu_classification := "internal"; pu_expires_at := 100; pu_version := 1;
     pu_retention_until := Some 500; pu_legal_hold := false; pu_upload_mode := "single"; pu_multipart_upload_id := None;
     pu_multipart_part_size := None; pu_multipart_completed := false; pu_gc_claim_token := gc; pu_finalize_claim_token := finalize;
     pu_skill_bound_digest := None; pu_skill_publish_claim_token := None; pu_lifecycle_status := AScanning;
     pu_scan_status := "scanning"; pu_object_operation_ref := None |}.

(** An upload is staged at 0, claimed and ready at 20, and claimed for deletion at 600. *)
Definition finalized : ArtifactTables :=
  run_all no_artifacts [(0, RSavePending staged); (10, RTakeFinalize "f1" 30 staged); (20, RMarkReady (holder (Some "f1") None) 1)].
Definition in_deletion : ArtifactTables := run_all finalized [(600, RTakeDelete "d1" 30 false false "t1" "art_1" 1)].
Example artifact_lifecycle :
  (status_at finalized,
   status_at (run_all finalized [(400, RTakeDelete "d1" 30 false false "t1" "art_1" 1)]),
   status_at in_deletion,
   status_at (run_all in_deletion [(610, RBegin (holder None (Some "d1")) OpGc); (620, RReadyDeleted (holder None (Some "d1")))]),
   status_at (run_all in_deletion [(610, RBegin (holder None (Some "d1")) OpGc); (640, RReadyDeleted (holder None (Some "d1")));
                                   (640, RAbandonDelete "t1" "art_1" 1)]))
  = (Some (AReady, None), Some (AReady, None), Some (ADeleting, Some "d1"), Some (ADeleted, None), Some (AReconciling, Some "d1")).
Proof. vm_compute. done. Qed.

(** The garbage collector claims an expired upload although a finalization holds a live claim
    of it, and the finalization makes it ready although the collector holds a live claim:
    neither claim excludes the other. *)
Example finalize_and_collect_overlap :
  let claimed := run_all no_artifacts [(0, RSavePending staged); (95, RTakeFinalize "f1" 30 staged); (101, RTakeExpired "g1" 30 1 nothing_locked)] in
  let begun := run_all claimed [(102, RBegin (holder (Some "f1") (Some "g1")) OpGc)] in
  (validate_finalize 103 (holder (Some "f1") None) begun, validate_gc 103 (holder None (Some "g1")) begun,
   status_at (run_all begun [(104, RMarkReady (holder (Some "f1") None) 1)])) = (true, true, Some (AReady, Some "g1")).
Proof. vm_compute. done. Qed.

Definition deleting_row : ArtifactRow := default (row_of_pending staged) (at_rows in_deletion !! staged_key).
Lemma deletion_exclusive_witness :
  at_rows (run_repo 610 (RTakeDelete "d2" 30 false false "t1" "art_1" 1) in_deletion) !! staged_key = Some deleting_row.
Proof. apply deletion_exclusive; vm_compute; reflexivity. Defined.

Definition held_row : ArtifactRow := row_of_pending staged <| ar_legal_hold := true |>.
Definition held_table : ArtifactTables := mkArtifactTables {[staged_key := held_row]} ∅.
Lemma legal_hold_respected_witness :
  ∃ r', at_rows (run_repo 200 (RTakeExpired "g1" 30 1 nothing_locked) held_table) !! staged_key = Some r'
    ∧ held_step 200 (RTakeExpired "g1" 30 1 nothing_locked) held_row r'.
Proof.
  apply (legal_hold_respected 200 (RTakeExpired "g1" 30 1 nothing_locked) held_table staged_key held_row); [vm_compute; reflexivity|reflexivity|discriminate].
Defined.
End ArtifactStoreExamples.
