(* ===== verification/ArtifactService.v ===== *)
(** * Artifacts ([artifact/internal_service.py])

    Uploads, their finalization, the garbage collector, reconciliation, downloads, shares,
    deletion and the skill packages, over the tables of [ArtifactStore].  A request is a task
    ([Interleave]): between two awaits other replicas change the tables arbitrarily, and the
    heartbeat of a claim renews it or finds that it is lost.  The object store, the scanner,
    the presigner and the policy service are answers by the number of the await.  What a task
    does is logged, calls of the object store before they are answered, so that the order of
    its effects can be stated.  The service is modelled with a repository: the dictionaries it
    keeps without one are for tests. *)

From stdpp Require Import gmap.
From S2P Require Import Prelude PyValue DateTime Digest ApprovalModes ToolGateway Interleave ArtifactStore.
Local Open Scope Z_scope.

(** ** Requests ([contracts/internal.py]) *)

Inductive ServiceIdentity :=
  | IdTaskApi | IdSession | IdProjectionWorker | IdOrchestrator | IdAgentRuntime | IdModelGateway | IdActionHands
  | IdPolicy | IdCredentialProxy | IdArtifactService | IdStreamingGateway | IdDeliveryWorker.
#[global] Instance ServiceIdentity_eq_dec : EqDecision ServiceIdentity.
Proof. solve_decision. Defined.

Record ArtifactContext := mkArtifactContext {
  ax_tenant_id : string;
  ax_service_identity : ServiceIdentity;
  ax_correlation_id : string;
}.
Record CreateUploadRequest := mkCreateUpload {
  cu_context : ArtifactContext;
  cu_root_session_id : string;
  cu_session_id : string;
  cu_name : string;
  cu_media_type : string;
  cu_expected_size : Z;
  cu_expected_checksum : string;
  cu_classification : string;
  cu_retention_until : option Z;
}.
Record ArtifactUploadResponse := mkUploadResponse {
  ur_artifact_id : string;
  ur_version : Z;
  ur_upload_id : string;
  ur_upload_url : string;
  ur_expires_at : Z;
  ur_upload_mode : string;
  ur_part_size : option Z;
  ur_part_urls : list string;
}.
Record FinalizeRequest := mkFinalize {
  fr_context : ArtifactContext;
  fr_artifact_id : string;
  fr_version : Z;
  fr_upload_id : string;
  fr_size : Z;
  fr_checksum : string;
  fr_parts : list payload;
}.
Record ArtifactDownloadRequest := mkDownload {
  dr_context : ArtifactContext;
  dr_artifact_id : string;
  dr_version : Z;
  dr_policy_decision_id : string;
}.
Record ArtifactShareRequest := mkShare {
  hr_context : ArtifactContext;
  hr_artifact_id : string;
  hr_version : Z;
  hr_actor_id : string;
  hr_audience : string;
  hr_ttl_seconds : Z;
}.
Record ArtifactShareResponse := mkShareResponse {
  hs_artifact_id : string;
  hs_version : Z;
  hs_audience : string;
  hs_share_url : string;
  hs_expires_at : Z;
  hs_policy_decision_id : option string;
}.
Record ArtifactDeleteRequest := mkDelete {
  xr_context : ArtifactContext;
  xr_artifact_id : string;
  xr_version : Z;
  xr_policy_decision_id : string;
  xr_purpose : string;
  xr_remove_history : bool;
}.

(** ** The world of a task *)

(** What a claim was taken for. *)
Inductive ClaimKind := ForFinalize | ForExpiry | ForDelete (ignore_retention include_deleted : bool) | ForReconcile.

(** How an object is removed. *)
Inductive EraseCall := CallAbort | CallDelete | CallPurge.

(** What a task has done, in order.  [EvClaim] and [EvBegun] keep the tables and the time of
    the statement; [EvHeld]: the claim named by the request is live; [EvValid]: the claim was
    found live; [EvComplete] and [EvErase] are logged before the object store answers. *)
Inductive ArtifactEvent :=
  | EvClaim (kind : ClaimKind) (now : Z) (before : ArtifactTables) (p : PendingUpload)
  | EvHeld (now : Z) (before : ArtifactTables) (p : PendingUpload)
  | EvValid (o : ArtifactOperation) (p : PendingUpload)
  | EvBegun (o : ArtifactOperation) (now : Z) (before : ArtifactTables) (p : PendingUpload)
  | EvComplete (p : PendingUpload)
  | EvVerified (p : PendingUpload) (exists_ : bool)
  | EvMultipartSaved (p : PendingUpload)
  | EvInspected (p : PendingUpload) (answer : string)
  | EvScanned (p : PendingUpload) (verdict : string)
  | EvMarkedReady (p : PendingUpload) (done : bool)
  | EvFoundReady (p : PendingUpload)
  | EvQuarantined (p : PendingUpload) (reason : string)
  | EvDecided (decision_id action resource : string)
  | EvShared (p : PendingUpload) (shared : bool)
  | EvErase (how : EraseCall) (p : PendingUpload)
  | EvErased (p : PendingUpload) (removed : bool)
  | EvRowDeleted (p : PendingUpload) (done : bool)
  | EvRowRemoved (p : PendingUpload) (done : bool)
  | EvReleased (p : PendingUpload)
  | EvBound (p : PendingUpload)
  | EvReconciling (p : PendingUpload) (reason : string)
  | EvResolved (p : PendingUpload) (status : ArtifactStatus).

Record ArtifactWorld := mkArtifactWorld { aw_tables : ArtifactTables; aw_lost : bool; aw_log : list ArtifactEvent }.

Record ObjectVerifier := mkVerifier {
  ov_verify : nat → PendingUpload → res bool;
  ov_inspect : nat → PendingUpload → res string;
  ov_delete : nat → PendingUpload → res bool;
  ov_purge : nat → PendingUpload → res bool;
}.
Record ObjectMultipart := mkMultipart {
  mp_create : nat → string → Z → Z → res (string * list string);
  mp_complete : nat → string → string → list payload → res unit;
  mp_abort : nat → string → string → res bool;
}.
Record ScanResult := mkScanResult { sr_verdict : string; sr_finding_code : option string }.
Record ArtifactPolicy := mkArtifactPolicy {
  ap_validate : nat → string → string → string → string → res bool;
  ap_evaluate : nat → string → string → string → string → string → payload → res PolicyEvaluation;
}.

Record ArtifactServices := mkArtifactServices {
  sa_env : nat → ArtifactTables → ArtifactTables;
  sa_beat : nat → ArtifactTables → bool;
  sa_cancelled : nat → bool;
  sa_now : nat → Z;
  sa_wall : nat → Z;
  sa_uuid : nat → nat → string;
  sa_locked : nat → artifact_key → bool;
  sa_presign : nat → string → string → option Z → string * Z;
  sa_verifier : option ObjectVerifier;
  sa_multipart : option ObjectMultipart;
  sa_scanner : option (nat → PendingUpload → string → res ScanResult);
  sa_policy : option ArtifactPolicy;
  sa_multipart_threshold : Z;
  sa_part_size : Z;
  sa_claim_ttl : Z;
  sa_orphan_claim_limit : Z;
  sa_instance_id : string;
}.

Definition is_task_api_skill_upload (p : PendingUpload) : bool :=
  String.eqb (pu_media_type p) skill_media_type && String.eqb (pu_root_session_id p) (pu_session_id p)
  && String.prefix "skill-upload:" (pu_root_session_id p) && negb (is_null (pu_retention_until p))
  && String.eqb (pu_classification p) "internal".

Definition artifact_ref (p : PendingUpload) (version : Z) : payload :=
  [("artifact_id", JStr (pu_artifact_id p)); ("version", JInt version); ("content_hash", JStr (pu_expected_checksum p));
   ("media_type", JStr (pu_media_type p)); ("size", JInt (pu_expected_size p))].

Section service.
Context (sa : ArtifactServices).
Notation P := (prog ArtifactWorld).
Notation "x <- m ;; k" := (bind m (λ x, k)) (at level 100, m at next level, right associativity).

Definition artifact_schedule : Schedule ArtifactWorld :=
  mkSchedule (λ n w, let t := sa_env sa n (aw_tables w) in mkArtifactWorld t (aw_lost w || sa_beat sa n t) (aw_log w)) (sa_cancelled sa).

(** An await: the events [pre] happen in any case, [event] says what its answer tells, with
    the number of the await and the tables before it. *)
Definition on_tables {A} (pre : list ArtifactEvent) (op : nat → ArtifactTables → ArtifactTables * res A)
    (event : nat → ArtifactTables → A → list ArtifactEvent) : P A :=
  await artifact_schedule (λ n w,
    match op n (aw_tables w) with
    | (t, Ok a) => (mkArtifactWorld t (aw_lost w) (aw_log w ++ pre ++ event n (aw_tables w) a), Ok a)
    | (t, Raise c m) => (mkArtifactWorld t (aw_lost w) (aw_log w ++ pre), Raise c m)
    end).
Definition sql_total {A} (r : ArtifactTables * A) : ArtifactTables * res A := (r.1, Ok r.2).
Definition statement {A} (op : nat → ArtifactTables → ArtifactTables * A) (event : nat → ArtifactTables → A → list ArtifactEvent) : P A :=
  on_tables [] (λ n t, sql_total (op n t)) event.
Definition query {A} (op : nat → ArtifactTables → A) (event : A → list ArtifactEvent) : P A :=
  on_tables [] (λ n t, (t, Ok (op n t))) (λ _ _, event).
Definition ask_outside {A} (pre : list ArtifactEvent) (op : nat → res A) (event : A → list ArtifactEvent) : P A :=
  on_tables pre (λ n t, (t, op n)) (λ _ _, event).

(** ** Claims *)

Definition validate_claim (o : ArtifactOperation) (p : PendingUpload) : P bool :=
  query (λ n, match o with OpFinalize => validate_finalize (sa_now sa n) p | OpGc => validate_gc (sa_now sa n) p end)
    (λ b, if b : bool then [EvValid o p] else []).

(** [_record_reconciliation] *)
Definition record_reconciliation (p : PendingUpload) (o : ArtifactOperation) (reason : string) : P unit :=
  catch (_ <- statement (λ n, mark_artifact_reconciling (sa_now sa n) p o reason) (λ _ _ b, if b : bool then [EvReconciling p reason] else []);; ret tt)
    (λ _ _, Some (ret tt)).

(** [_maintain_claim]: the event of the heartbeat is new, and its task is awaited at the end. *)
Definition maintain_claim {A} (p : PendingUpload) (o : ArtifactOperation) (body : P A) : P A :=
  valid <- validate_claim o p;;
  if negb valid then raise ArtifactAccessError "artifact operation claim was lost" else
  _ <- modify (λ w, mkArtifactWorld (aw_tables w) false (aw_log w));;
  finally body (catch_cancel (query (λ _ _, tt) (λ _, [])) (ret tt)).

(** [_assert_claim] *)
Definition assert_claim (p : PendingUpload) (o : ArtifactOperation) (side_effect_may_have_happened : bool) : P unit :=
  lost <- gets (λ _ w, aw_lost w);;
  owned <- (if (lost : bool) then ret false else validate_claim o p);;
  if (owned : bool) then ret tt else
  _ <- (if side_effect_may_have_happened then record_reconciliation p o "claim_lost_after_object_side_effect" else ret tt);;
  raise ArtifactAccessError "artifact operation claim was lost".

(** [_begin_side_effect] *)
Definition begin_object_effect (p : PendingUpload) (o : ArtifactOperation) : P unit :=
  begun <- statement (λ n, begin_object_side_effect (sa_now sa n) p o)
             (λ n t b, if b : bool then [EvBegun o (sa_now sa n) t p] else []);;
  if (begun : bool) then ret tt else raise ArtifactAccessError "artifact operation claim was lost".

(** [_validate_policy_decision] *)
Definition validate_policy_decision (tenant_id : string) (decision_id : option string) (action resource : string) : P unit :=
  match decision_id with
  | None | Some EmptyString => raise ArtifactAccessError (action +:+ " requires policy decision")
  | Some decision_id =>
      match sa_policy sa with
      | None => raise ArtifactAccessError "artifact policy validation is unavailable"
      | Some policy =>
          valid <- catch (ask_outside [] (λ n, ap_validate policy n tenant_id decision_id action resource)
                            (λ b, if b : bool then [EvDecided decision_id action resource] else []))
                     (λ _ _, Some (raise ArtifactAccessError "artifact policy validation is unavailable"));;
          if (valid : bool) then ret tt else raise ArtifactAccessError "artifact policy decision is invalid or expired"
      end
  end.

(** ** Uploads *)

Definition creators : list ServiceIdentity := [IdActionHands; IdDeliveryWorker; IdTaskApi].
Definition from_task_api (c : ArtifactContext) : bool := bool_decide (ax_service_identity c = IdTaskApi).

Definition governed_skill_request (r : CreateUploadRequest) : bool :=
  String.eqb (cu_media_type r) skill_media_type && String.eqb (cu_root_session_id r) (cu_session_id r)
  && String.prefix "skill-upload:" (cu_root_session_id r) && negb (is_null (cu_retention_until r))
  && String.eqb (cu_classification r) "internal" && (cu_expected_size r <=? 24 * 1024 * 1024).

Definition new_pending (r : CreateUploadRequest) (artifact_id upload_id object_key : string) (expires_at : Z)
    (multipart : option string) : PendingUpload :=
  {| pu_tenant_id := ax_tenant_id (cu_context r); pu_artifact_id := artifact_id; pu_upload_id := upload_id;
     pu_object_key := object_key; pu_root_session_id := cu_root_session_id r; pu_session_id := cu_session_id r;
     pu_name := cu_name r; pu_media_type := cu_media_type r; pu_expected_size := cu_expected_size r;
     pu_expected_checksum := cu_expected_checksum r; pu_classification := cu_classification r; pu_expires_at := expires_at;
     pu_version := 1; pu_retention_until := cu_retention_until r; pu_legal_hold := false;
     pu_upload_mode := match multipart with Some _ => "multipart" | None => "single" end;
     pu_multipart_upload_id := multipart;
     pu_multipart_part_size := match multipart with Some _ => Some (sa_part_size sa) | None => None end;
     pu_multipart_completed := false; pu_gc_claim_token := None; pu_finalize_claim_token := None;
     pu_skill_bound_digest := None; pu_skill_publish_claim_token := None; pu_lifecycle_status := APending;
     pu_scan_status := "pending"; pu_object_operation_ref := None |}.

Definition create_upload (r : CreateUploadRequest) : P ArtifactUploadResponse :=
  let context := cu_context r in
  if negb (bool_decide (ax_service_identity context ∈ creators))
  then raise ArtifactAccessError "workload may not create Artifact uploads" else
  if from_task_api context && negb (governed_skill_request r)
  then raise ArtifactAccessError "Task API may only stage governed Skill packages" else
  ids <- gets (λ n _, ("art_" +:+ sa_uuid sa n 0, "upl_" +:+ sa_uuid sa n 1, sa_uuid sa n 2));;
  let artifact_id := ids.1.1 in
  let upload_id := ids.1.2 in
  let object_key := "tenants/" +:+ ax_tenant_id context +:+ "/roots/" +:+ cu_root_session_id r +:+ "/artifacts/" +:+ artifact_id
                    +:+ "/v1/" +:+ ids.2 in
  url <- gets (λ n _, sa_presign sa n "PUT" object_key None);;
  parts <- match sa_multipart sa with
           | Some multipart =>
               if sa_multipart_threshold sa <=? cu_expected_size r then
                 created_upload <- ask_outside [] (λ n, mp_create multipart n object_key (cu_expected_size r) (sa_part_size sa)) (λ _, []);;
                 match created_upload.2 with
                 | [] => raise PyIndexError "tuple index out of range"
                 | first :: _ => ret (Some created_upload.1, created_upload.2, first)
                 end
               else ret (None, [], url.1)
           | None => ret (None, [], url.1)
           end;;
  let pending := new_pending r artifact_id upload_id object_key url.2 parts.1.1 in
  _ <- on_tables [] (λ _, save_pending pending) (λ _ _ _, []);;
  ret (mkUploadResponse artifact_id 1 upload_id parts.2 url.2 (pu_upload_mode pending) (pu_multipart_part_size pending) parts.1.2).

(** ** Finalization *)

Definition ready_row (c : ArtifactContext) (artifact_id : string) (version : Z) (event : PendingUpload → list ArtifactEvent) : P (option PendingUpload) :=
  query (λ _, get_ready (ax_tenant_id c) artifact_id version) (λ o, match o with Some p => event p | None => [] end).

(** The answer for an artifact that is ready already. *)
Definition already_ready (r : FinalizeRequest) (otherwise : P payload) : P payload :=
  ready <- ready_row (fr_context r) (fr_artifact_id r) (fr_version r) (λ p, [EvFoundReady p]);;
  match ready with
  | Some p =>
      if from_task_api (fr_context r) && negb (is_task_api_skill_upload p)
      then raise ArtifactAccessError "Task API may only finalize Skill packages"
      else ret (artifact_ref p (fr_version r))
  | None => otherwise
  end.

Definition quarantine {A} (p : PendingUpload) (reason message : string) : P A :=
  quarantined <- statement (λ n, mark_quarantined (sa_now sa n) p reason) (λ _ _ b, if b : bool then [EvQuarantined p reason] else []);;
  if (quarantined : bool) then raise ArtifactAccessError message else raise ArtifactAccessError "artifact finalization lease was lost".

Definition verify_object (v : ObjectVerifier) (p : PendingUpload) : P bool :=
  ask_outside [] (λ n, ov_verify v n p) (λ b, [EvVerified p b]).

(** [max(1, (expected_size + part_size - 1) // part_size)] *)
Definition expected_parts (p : PendingUpload) : Z :=
  let size := match pu_multipart_part_size p with Some z => if z =? 0 then 1 else z | None => 1 end in
  Z.max 1 ((pu_expected_size p + size - 1) / size).

Definition needs_completion (p : PendingUpload) : bool := String.eqb (pu_upload_mode p) "multipart" && negb (pu_multipart_completed p).

(** The completion of a multipart upload; when the object store refuses it, the object may be
    complete all the same. *)
Definition complete_multipart (r : FinalizeRequest) (p : PendingUpload) : P unit :=
  match sa_multipart sa, pu_multipart_upload_id p with
  | Some multipart, Some upload_id =>
      if negb (Z.of_nat (length (fr_parts r)) =? expected_parts p)
      then raise ArtifactAccessError "artifact multipart completion is incomplete" else
      _ <- assert_claim p OpFinalize false;;
      _ <- begin_object_effect p OpFinalize;;
      _ <- catch (ask_outside [EvComplete p] (λ n, mp_complete multipart n (pu_object_key p) upload_id (fr_parts r)) (λ _, []))
             (λ c m, match c with
                     | ArtifactAccessError => Some (
                         match sa_verifier sa with
                         | None => raise c m
                         | Some v => found <- verify_object v p;; if (found : bool) then ret tt else raise c m
                         end)
                     | _ => None
                     end);;
      _ <- assert_claim p OpFinalize true;;
      saved <- statement (λ n, mark_multipart_completed (sa_now sa n) p) (λ _ _ b, if b : bool then [EvMultipartSaved p] else []);;
      if (saved : bool) then ret tt else
      _ <- record_reconciliation p OpFinalize "multipart_completed_metadata_commit_lost";;
      raise ArtifactAccessError "artifact finalization lease was lost"
  | _, _ => raise ArtifactAccessError "artifact multipart state is unavailable"
  end.

Definition inspect_object (v : ObjectVerifier) (p : PendingUpload) : P unit :=
  _ <- assert_claim p OpFinalize false;;
  scan <- ask_outside [] (λ n, ov_inspect v n p) (λ a, [EvInspected p a]);;
  _ <- assert_claim p OpFinalize false;;
  if str_in scan ["size_mismatch"; "checksum_mismatch"] then quarantine p scan ("artifact object scan failed: " +:+ scan) else
  if negb (String.eqb scan "clean") then raise ArtifactAccessError ("artifact object is not ready: " +:+ scan) else ret tt.

Definition scan_content (scanner : nat → PendingUpload → string → res ScanResult) (p : PendingUpload) : P unit :=
  _ <- assert_claim p OpFinalize false;;
  url <- gets (λ n _, sa_presign sa n "GET" (pu_object_key p) (Some (5 * 60 * second)));;
  scan <- catch (ask_outside [] (λ n, scanner n p url.1) (λ s, [EvScanned p (sr_verdict s)]))
            (λ _ _, Some (quarantine p "content_scanner_unavailable" "artifact content scanner is unavailable"));;
  _ <- assert_claim p OpFinalize false;;
  if String.eqb (sr_verdict scan) "clean" then ret tt else
  quarantine p ("content_" +:+ match sr_finding_code scan with None | Some EmptyString => "policy_denied" | Some c => c end)
    "artifact content scan quarantined the object".

(** The body under the finalize claim. *)
Definition finalize_claimed (r : FinalizeRequest) (p : PendingUpload) : P unit :=
  _ <- (if needs_completion p then complete_multipart r p else ret tt);;
  _ <- match sa_verifier sa with Some v => inspect_object v p | None => ret tt end;;
  _ <- match sa_scanner sa with Some scanner => scan_content scanner p | None => ret tt end;;
  _ <- assert_claim p OpFinalize false;;
  ready <- statement (λ n, mark_ready (sa_now sa n) p (fr_version r)) (λ _ _ b, [EvMarkedReady p b]);;
  if (ready : bool) then ret tt else
  _ <- record_reconciliation p OpFinalize "ready_metadata_commit_lost";;
  raise ArtifactAccessError "artifact finalization lease was lost".

Definition claim_finalize (p : PendingUpload) : P (option PendingUpload) :=
  _ <- statement (λ n t, (abandon_finalize (sa_now sa n) p t, tt)) (λ _ _ _, []);;
  token <- gets (λ n _, "finalize_" +:+ sa_uuid sa n 0);;
  statement (λ n, take_finalize (sa_now sa n) token (sa_claim_ttl sa) p)
    (λ n t o, match o with Some q => [EvClaim ForFinalize (sa_now sa n) t q] | None => [] end).

Definition finalize_pending (r : FinalizeRequest) (p : PendingUpload) : P payload :=
  if negb (String.eqb (pu_artifact_id p) (fr_artifact_id r)) then raise NotFoundError "artifact upload was not found" else
  if from_task_api (fr_context r) && negb (is_task_api_skill_upload p)
  then raise ArtifactAccessError "Task API may only finalize Skill packages" else
  if negb (String.eqb (pu_tenant_id p) (ax_tenant_id (fr_context r)))
  then raise ArtifactAccessError "artifact upload tenant mismatch" else
  now <- gets (λ n _, sa_wall sa n);;
  if pu_expires_at p <=? now then raise ArtifactAccessError "artifact upload expired" else
  if negb (pu_expected_size p =? fr_size r) || negb (String.eqb (pu_expected_checksum p) (fr_checksum r))
  then raise ArtifactAccessError "artifact upload integrity mismatch" else
  claimed <- claim_finalize p;;
  match claimed with
  | None => already_ready r (raise ArtifactAccessError "artifact finalization is already in progress")
  | Some p =>
      _ <- maintain_claim p OpFinalize (finalize_claimed r p);;
      ret (artifact_ref p (fr_version r))
  end.

Definition finalize (r : FinalizeRequest) : P payload :=
  let context := fr_context r in
  if negb (bool_decide (ax_service_identity context ∈ creators))
  then raise ArtifactAccessError "workload may not finalize Artifact uploads" else
  pending <- query (λ _, get_upload (ax_tenant_id context) (fr_artifact_id r) (fr_upload_id r)) (λ _, []);;
  match pending with
  | None => already_ready r (raise NotFoundError "artifact upload was not found")
  | Some p => finalize_pending r p
  end.

(** ** The garbage collector *)

Definition erase_with (how : EraseCall) (p : PendingUpload) (call : nat → res bool) : P bool :=
  ask_outside [EvErase how p] call (λ b, [EvErased p b]).

(** The removal of the object of an expired upload. *)
Definition erase_expired (p : PendingUpload) : P bool :=
  match needs_completion p, pu_multipart_upload_id p, sa_multipart sa with
  | true, Some upload_id, Some multipart => erase_with CallAbort p (λ n, mp_abort multipart n (pu_object_key p) upload_id)
  | _, _, _ =>
      match sa_verifier sa with
      | Some v => erase_with CallDelete p (λ n, ov_delete v n p)
      | None => ret true
      end
  end.

(** [try: begin, call; except Exception: the result is unknown] *)
Definition guarded_erase (p : PendingUpload) (reason : string) (call : P bool) : P bool :=
  catch (_ <- begin_object_effect p OpGc;; call) (λ c m, Some (_ <- record_reconciliation p OpGc reason;; raise c m)).

Definition lost_after {A} (p : PendingUpload) (reason message : string) : P A :=
  _ <- record_reconciliation p OpGc reason;; raise ArtifactAccessError message.

(** One turn of the loop of [cleanup_expired], and what it adds to the count. *)
Definition collect_one (p : PendingUpload) : P Z :=
  maintain_claim p OpGc (
    _ <- assert_claim p OpGc false;;
    removed <- guarded_erase p "expired_upload_delete_result_unknown" (erase_expired p);;
    _ <- assert_claim p OpGc removed;;
    if (removed : bool) then
      marked <- statement (λ n, mark_deleted (sa_now sa n) p) (λ _ _ b, [EvRowDeleted p b]);;
      if (marked : bool) then ret 1 else
      lost_after p "expired_upload_deleted_metadata_commit_lost" "artifact GC claim was lost"
    else
      released <- statement (λ n, release_gc (sa_now sa n) p "object deletion failed") (λ _ _ b, if b : bool then [EvReleased p] else []);;
      if (released : bool) then ret 0 else raise ArtifactAccessError "artifact GC claim was lost").

Definition expired_uploads : P (list PendingUpload) :=
  _ <- statement (λ n t, (abandon_uploads (sa_now sa n) t, tt)) (λ _ _ _, []);;
  token <- gets (λ n _, "gc_" +:+ sa_uuid sa n 0);;
  statement (λ n, take_expired (sa_now sa n) token (sa_claim_ttl sa) 1 (sa_locked sa n))
    (λ n t l, map (EvClaim ForExpiry (sa_now sa n) t) l).

Fixpoint collect_loop (limit : nat) (deleted : Z) : P Z :=
  match limit with
  | O => ret deleted
  | S limit =>
      claimed <- expired_uploads;;
      match claimed with
      | [] => ret deleted
      | p :: _ => d <- collect_one p;; collect_loop limit (deleted + d)
      end
  end.

(** ** Reconciliation *)

(** What the object store tells about a row whose object is unknown. *)
Definition observed_status (v : ObjectVerifier) (p : PendingUpload) : P ArtifactStatus :=
  if String.prefix "finalize:" (default EmptyString (pu_object_operation_ref p)) then
    inspection <- ask_outside [] (λ n, ov_inspect v n p) (λ a, [EvInspected p a]);;
    ret (if String.eqb inspection "clean" then AReady
         else if str_in inspection ["size_mismatch"; "checksum_mismatch"] then AQuarantined else APending)
  else
    found <- verify_object v p;;
    ret (if (found : bool) then if String.eqb (pu_scan_status p) "clean" then AReady else APending else ADeleted).

Definition reconcile_one (v : ObjectVerifier) (p : PendingUpload) : P unit :=
  maintain_claim p OpGc (
    _ <- assert_claim p OpGc false;;
    status <- observed_status v p;;
    _ <- assert_claim p OpGc false;;
    resolved <- statement (λ n, resolve_reconciling (sa_now sa n) p status ("reconciled_object_state:" +:+ artifact_status_value status))
                  (λ _ _ b, if b : bool then [EvResolved p status] else []);;
    if (resolved : bool) then ret tt else raise ArtifactAccessError "artifact reconciliation claim was lost").

Definition take_reconciling : P (list PendingUpload) :=
  token <- gets (λ n _, "reconcile:" +:+ sa_instance_id sa +:+ ":" +:+ sa_uuid sa n 0);;
  statement (λ n, claim_reconciling (sa_now sa n) token (sa_claim_ttl sa) 1 (sa_locked sa n))
    (λ n t l, map (EvClaim ForReconcile (sa_now sa n) t) l).

Fixpoint reconcile_loop (v : ObjectVerifier) (limit : nat) (reconciled : Z) : P Z :=
  match limit with
  | O => ret reconciled
  | S limit =>
      rows <- take_reconciling;;
      match rows with
      | [] => ret reconciled
      | p :: _ => _ <- reconcile_one v p;; reconcile_loop v limit (reconciled + 1)
      end
  end.

Definition reconcile_unknown (limit : Z) : P Z :=
  match sa_verifier sa with
  | None => ret 0
  | Some v => reconcile_loop v (Z.to_nat limit) 0
  end.

Definition cleanup_expired (limit : Z) : P Z :=
  _ <- reconcile_unknown (Z.min limit (Z.max 1 (sa_orphan_claim_limit sa)));;
  collect_loop (Z.to_nat limit) 0.

(** ** Access *)

Definition downloaders : list ServiceIdentity := [IdTaskApi; IdDeliveryWorker; IdActionHands].

Definition download (r : ArtifactDownloadRequest) : P (string * Z) :=
  let context := dr_context r in
  if negb (bool_decide (ax_service_identity context ∈ downloaders)) then raise ArtifactAccessError "workload may not download Artifacts" else
  record <- ready_row context (dr_artifact_id r) (dr_version r) (λ p, [EvFoundReady p]);;
  match record with
  | None => raise NotFoundError "artifact was not found"
  | Some p =>
      _ <- validate_policy_decision (ax_tenant_id context) (Some (dr_policy_decision_id r)) "artifact.download" (dr_artifact_id r);;
      gets (λ n _, sa_presign sa n "GET" (pu_object_key p) (Some (5 * 60 * second)))
  end.

Definition share_attributes (r : ArtifactShareRequest) (p : PendingUpload) : payload :=
  [("artifact_version", JInt (hr_version r)); ("classification", JStr (pu_classification p)); ("media_type", JStr (pu_media_type p));
   ("audience", JStr (hr_audience r)); ("ttl_seconds", JInt (hr_ttl_seconds r)); ("permission", JStr "read-only");
   ("risk_level", JStr "medium")].

(** The time to live of a share within the constraints of the policy. *)
Definition share_ttl (r : ArtifactShareRequest) (constraints : payload) : res Z :=
  if negb (py_eq (pgetd "audience" (JStr (hr_audience r)) constraints) (JStr (hr_audience r)))
  then Raise ArtifactAccessError "Artifact sharing audience was not authorized" else
  ttl ← py_int (pgetd "ttl_seconds" (JInt (hr_ttl_seconds r)) constraints);
  if (ttl <? 30) || (hr_ttl_seconds r <? ttl) then Raise ArtifactAccessError "Artifact sharing policy returned an invalid TTL" else Ok ttl.

Definition share (r : ArtifactShareRequest) : P ArtifactShareResponse :=
  let context := hr_context r in
  if negb (bool_decide (ax_service_identity context = IdTaskApi)) then raise ArtifactAccessError "only task-api may create Artifact shares" else
  match sa_policy sa with
  | None => raise ArtifactAccessError "Artifact sharing policy is unavailable"
  | Some policy =>
      record <- ready_row context (hr_artifact_id r) (hr_version r) (λ p, [EvFoundReady p]);;
      match record with
      | None => raise NotFoundError "artifact was not found"
      | Some p =>
          let attributes := share_attributes r p in
          let digest := sha256_hex (utf8 (json_dumps_spaced (JObj attributes))) in
          evaluation <- ask_outside [] (λ n, ap_evaluate policy n (ax_tenant_id context) (hr_actor_id r) "artifact.share" (hr_artifact_id r)
                                               digest attributes) (λ _, []);;
          if negb (bool_decide (pe_decision evaluation ∈ [Allow; AllowWithConstraints]))
          then raise ArtifactAccessError "Artifact sharing policy denied access" else
          ttl <- lift (share_ttl r (pe_constraints evaluation));;
          url <- gets (λ n _, sa_presign sa n "GET" (pu_object_key p) (Some (ttl * second)));;
          ret (mkShareResponse (hr_artifact_id r) (hr_version r) (hr_audience r) url.1 url.2 (pe_decision_id evaluation))
      end
  end.

(** ** Deletion *)

(** [claim_ready_delete] *)
Definition claim_ready_delete (r : ArtifactDeleteRequest) : P (option PendingUpload) :=
  let tenant := ax_tenant_id (xr_context r) in
  let purge := String.eqb (xr_purpose r) "skill_package_purge" in
  _ <- statement (λ n t, (abandon_delete (sa_now sa n) tenant (xr_artifact_id r) (xr_version r) t, tt)) (λ _ _ _, []);;
  token <- gets (λ n _, "delete_" +:+ sa_uuid sa n 0);;
  statement (λ n, take_delete (sa_now sa n) token (sa_claim_ttl sa) purge (xr_remove_history r) tenant (xr_artifact_id r) (xr_version r))
    (λ n t o, match o with Some q => [EvClaim (ForDelete purge (xr_remove_history r)) (sa_now sa n) t q] | None => [] end).

(** The removal of the object: an object that another row uses is kept when the history of
    a skill package is removed. *)
Definition erase_deleted (v : ObjectVerifier) (remove_history : bool) (p : PendingUpload) : P bool :=
  if remove_history then
    shared <- query (λ _, has_shared_storage p) (λ b, [EvShared p b]);;
    if (shared : bool) then ret true else erase_with CallPurge p (λ n, ov_purge v n p)
  else erase_with CallDelete p (λ n, ov_delete v n p).

Definition delete_claimed (v : ObjectVerifier) (remove_history : bool) (p : PendingUpload) : P unit :=
  _ <- assert_claim p OpGc false;;
  removed <- guarded_erase p "object_delete_result_unknown" (erase_deleted v remove_history p);;
  _ <- assert_claim p OpGc removed;;
  if negb removed then
    if remove_history then lost_after p "physical_removal_incomplete" "Skill package physical removal is incomplete" else
    released <- statement (λ n, release_ready_delete (sa_now sa n) p "object deletion failed") (λ _ _ b, if b : bool then [EvReleased p] else []);;
    raise ArtifactAccessError (if released : bool then "artifact object deletion failed" else "artifact deletion lease was lost")
  else
  committed <- (if remove_history then statement (λ n, mark_ready_removed (sa_now sa n) p) (λ _ _ b, [EvRowRemoved p b])
                else statement (λ n, mark_ready_deleted (sa_now sa n) p) (λ _ _ b, [EvRowDeleted p b]));;
  if (committed : bool) then ret tt else lost_after p "object_deleted_metadata_commit_lost" "artifact deletion lease was lost".

Definition delete_artifact (r : ArtifactDeleteRequest) : P unit :=
  let context := xr_context r in
  if negb (bool_decide (ax_service_identity context = IdActionHands)) then raise ArtifactAccessError "workload may not delete Artifacts" else
  match sa_verifier sa with
  | None => raise ArtifactAccessError "artifact deletion is unavailable"
  | Some v =>
      _ <- validate_policy_decision (ax_tenant_id context) (Some (xr_policy_decision_id r)) "artifact.delete" (xr_artifact_id r);;
      if xr_remove_history r && negb (String.eqb (xr_purpose r) "skill_package_purge")
      then raise ArtifactAccessError "Physical removal is only supported for Skill packages" else
      gone <- (if xr_remove_history r then query (λ _, is_removed (ax_tenant_id context) (xr_artifact_id r) (xr_version r)) (λ _, [])
               else ret false);;
      if (gone : bool) then ret tt else
      pending <- claim_ready_delete r;;
      match pending with
      | None =>
          gone <- (if xr_remove_history r then ret false
                   else query (λ _, is_deleted (ax_tenant_id context) (xr_artifact_id r) (xr_version r)) (λ _, []));;
          if (gone : bool) then ret tt
          else raise ArtifactAccessError "artifact is retained, held, missing, or already deleting"
      | Some p => maintain_claim p OpGc (delete_claimed v (xr_remove_history r) p)
      end
  end.

(** ** Skill packages *)

Definition request_publication (context : ArtifactContext) (artifact_id : string) (version : Z) (command_id : string)
    : P (payload * string * bool) :=
  if negb (bool_decide (ax_service_identity context = IdActionHands)) then raise ArtifactAccessError "workload may not claim Skill Artifacts" else
  pending <- statement (λ n, claim_skill_publication (sa_now sa n) (ax_tenant_id context) artifact_id version command_id) (λ _ _ _, []);;
  match pending with
  | None => raise ArtifactAccessError "Skill Artifact is bound, expired, missing, or claimed"
  | Some p => ret (artifact_ref p version, command_id, negb (is_null (pu_skill_bound_digest p)))
  end.

Definition bind_package (p : PendingUpload) (digest : string) : P bool :=
  statement (λ n, bind_skill_publication (sa_now sa n) p digest) (λ _ _ b, if b : bool then [EvBound p] else []).

Definition bind_publication (context : ArtifactContext) (artifact_id : string) (version : Z) (claim_token package_digest : string) : P unit :=
  if negb (bool_decide (ax_service_identity context = IdActionHands)) then raise ArtifactAccessError "workload may not bind Skill Artifacts" else
  pending <- ready_row context artifact_id version (λ _, []);;
  match pending with
  | None => raise ArtifactAccessError "Skill Artifact publication claim was lost"
  | Some p =>
      if negb (bool_decide (pu_skill_publish_claim_token p = Some claim_token)) then
        if bool_decide (pu_skill_bound_digest p = Some package_digest) then ret tt
        else raise ArtifactAccessError "Skill Artifact publication claim was lost"
      else
      bound <- bind_package p package_digest;;
      if (bound : bool) then ret tt else raise ArtifactAccessError "Skill Artifact publication claim was lost"
  end.

Definition request_orphans (context : ArtifactContext) (owner : string) (limit : Z) : P (list payload) :=
  if negb (bool_decide (ax_service_identity context = IdActionHands)) then raise ArtifactAccessError "workload may not claim Skill orphans" else
  _ <- statement (λ n t, (abandon_orphans (sa_now sa n) t, tt)) (λ _ _ _, []);;
  token <- gets (λ n _, "skill-orphan:" +:+ owner +:+ ":" +:+ sa_uuid sa n 0);;
  rows <- statement (λ n, take_orphans (sa_now sa n) token (sa_claim_ttl sa) (Z.min limit (Z.max 1 (sa_orphan_claim_limit sa))) (sa_locked sa n))
            (λ _ _ _, []);;
  ret (map (λ p, artifact_ref p (pu_version p) ++ [("tenant_id", JStr (pu_tenant_id p)); ("claim_token", jopt (pu_gc_claim_token p))]) rows).


End service.

(** ** The order of effects *)

Section order.
Context (sa : ArtifactServices).

(** No claim of the collector is live. *)
Definition uncollected (now : Z) (r : ArtifactRow) : Prop := ∀ t, ar_gc_claim_expires_at r = Some t → t ≤ now.

(** An upload that was not finished in time. *)
Definition overdue (now : Z) (r : ArtifactRow) : Prop :=
  (ar_status r = APending ∨ ar_status r = AScanning) ∧ ar_upload_expires_at r ≤ now ∧ ar_deleted_at r = None
  ∧ ar_object_known r = true ∧ ar_object_side_effect_started_at r = None.

(** An artifact past its retention, or a bound skill package that is purged at any time
    ([ignore_retention]); when the history is kept, it is there, with a known object that
    nobody has begun to touch. *)
Definition deletion_due (ignore_retention remove_history : bool) (now : Z) (r : ArtifactRow) : Prop :=
  ((∃ until, ar_retention_until r = Some until ∧ until ≤ now)
   ∨ ignore_retention = true ∧ ar_media_type r = "application/vnd.auraclaw.skill-package+json" ∧ is_Some (ar_skill_bound_at r))
  ∧ match remove_history with
    | true => ar_media_type r = "application/vnd.auraclaw.skill-package+json"
        ∧ ar_status r ∈ [AReady; ADeleting; ADeleted; AReconciling]
    | false => (ar_status r = AReady ∨ ar_status r = ADeleting) ∧ ar_deleted_at r = None ∧ ar_object_known r = true
        ∧ ar_object_side_effect_started_at r = None ∧ ar_physical_removal_pending r = false
    end.

(** What the row was when a claim was taken. *)
Definition eligible (kind : ClaimKind) (now : Z) (r : ArtifactRow) : Prop :=
  match kind with
  | ForFinalize => (ar_status r = APending ∨ ar_status r = AScanning) ∧ ar_object_side_effect_started_at r = None
      ∧ ∀ t, ar_finalize_claim_expires_at r = Some t → t ≤ now
  | ForExpiry => ar_legal_hold r = false ∧ uncollected now r ∧ overdue now r
  | ForDelete ignore_retention remove_history =>
      ar_legal_hold r = false ∧ uncollected now r ∧ deletion_due ignore_retention remove_history now r
  | ForReconcile => ar_status r = AReconciling ∧ ar_object_known r = false ∧ ar_deleted_at r = None ∧ uncollected now r
  end.

Lemma is_null_spec {A} (o : option A) : is_null o = true → o = None.
Proof. by destruct o. Qed.
Lemma is_free_spec now o : is_free now o = true → ∀ t, o = Some t → t ≤ now.
Proof. intros H t ->. by apply Z.leb_le. Qed.

(** The row that [p] was read from. *)
Definition row_of_upload (t : ArtifactTables) (p : PendingUpload) (c : ArtifactRow → Prop) : Prop :=
  ∃ k r, at_rows t !! k = Some r ∧ c r ∧ ar_tenant_id r = pu_tenant_id p ∧ ar_artifact_id r = pu_artifact_id p
    ∧ ar_storage_ref r = pu_object_key p.

(** What lets the object of [p] be removed: the last events are a claim for which the row was
    eligible, its validation, and the mark that the object is about to be touched. *)
Inductive erase_prelude (p : PendingUpload) (l : list ArtifactEvent) : EraseCall → Prop :=
  | erase_expiry how now t now' t' : how = CallAbort ∨ how = CallDelete →
      ends_in l [EvClaim ForExpiry now t p; EvValid OpGc p; EvValid OpGc p; EvBegun OpGc now' t' p] → erase_prelude p l how
  | erase_delete i now t now' t' :
      ends_in l [EvClaim (ForDelete i false) now t p; EvValid OpGc p; EvValid OpGc p; EvBegun OpGc now' t' p] → erase_prelude p l CallDelete
  | erase_purge i now t now' t' :
      ends_in l [EvClaim (ForDelete i true) now t p; EvValid OpGc p; EvValid OpGc p; EvBegun OpGc now' t' p; EvShared p false] →
      erase_prelude p l CallPurge
  | erase_orphan now t decision resource now' t' :
      ends_in l [EvHeld now t p; EvValid OpGc p; EvValid OpGc p; EvDecided decision "artifact.delete" resource; EvValid OpGc p;
                 EvBegun OpGc now' t' p] → erase_prelude p l CallDelete.

(** The parts of a finalization. *)
Definition completion (p : PendingUpload) (events : list ArtifactEvent) : Prop :=
  if needs_completion p then
    ∃ now t found, events = [EvValid OpFinalize p; EvBegun OpFinalize now t p; EvComplete p] ++ found ++ [EvValid OpFinalize p; EvMultipartSaved p]
      ∧ (found = [] ∨ found = [EvVerified p true])
  else events = [].
Definition inspection (p : PendingUpload) (events : list ArtifactEvent) : Prop :=
  match sa_verifier sa with
  | Some _ => events = [EvValid OpFinalize p; EvInspected p "clean"; EvValid OpFinalize p]
  | None => events = []
  end.
Definition scanning (p : PendingUpload) (events : list ArtifactEvent) : Prop :=
  match sa_scanner sa with
  | Some _ => events = [EvValid OpFinalize p; EvScanned p "clean"; EvValid OpFinalize p]
  | None => events = []
  end.
Definition ready_prelude (p : PendingUpload) (l : list ArtifactEvent) : Prop :=
  ∃ now t completed inspected scanned,
    ends_in l ([EvClaim ForFinalize now t p; EvValid OpFinalize p] ++ completed ++ inspected ++ scanned ++ [EvValid OpFinalize p])
    ∧ completion p completed ∧ inspection p inspected ∧ scanning p scanned.

(** The events that the log [l] may go on with. *)
Definition may_follow_artifact (l : list ArtifactEvent) (e : ArtifactEvent) : Prop :=
  match e with
  | EvClaim kind now t p => row_of_upload t p (eligible kind now)
  | EvHeld now t p => row_of_upload t p (λ r, ar_status r = ADeleting ∧ gc_held now p r = true)
  | EvBegun OpGc now t p =>
      ∃ r, at_rows t !! key_of_pending p = Some r ∧ gc_held now p r = true ∧ ar_deleted_at r = None
  | EvBegun OpFinalize now t p =>
      ∃ r, at_rows t !! key_of_pending p = Some r ∧ finalize_held now p r = true ∧ ar_status r = AScanning
  | EvMarkedReady p _ => ready_prelude p l
  | EvErase how p => erase_prelude p l how
  | EvRowDeleted p _ =>
      ends_in l [EvErased p true; EvValid OpGc p]
      ∨ sa_verifier sa = None ∧ ∃ now t, ends_in l [EvBegun OpGc now t p; EvValid OpGc p]
  | EvRowRemoved p _ => ends_in l [EvErased p true; EvValid OpGc p] ∨ ends_in l [EvShared p true; EvValid OpGc p]
  | EvResolved p ADeleted => ends_in l [EvVerified p false; EvValid OpGc p]
  | EvResolved p AReady =>
      ends_in l [EvInspected p "clean"; EvValid OpGc p]
      ∨ ends_in l [EvVerified p true; EvValid OpGc p] ∧ pu_scan_status p = "clean"
  | _ => True
  end.

Definition fine : list ArtifactEvent → Prop := allowed may_follow_artifact.
Definition tail_is (tail l : list ArtifactEvent) : Prop := fine l ∧ ends_in l tail.

(** From a log in [F], [m] returns some [a] with the log in [S a], and ends otherwise with a
    log that is allowed. *)
Definition effect {A} (F : list ArtifactEvent → Prop) (m : prog ArtifactWorld A) (S : A → list ArtifactEvent → Prop) : Prop :=
  task (λ w, F (aw_log w)) m (λ a w, S a (aw_log w)) (λ w, fine (aw_log w)).

Lemma effect_bind {A B} F (m : prog ArtifactWorld A) (k : A → prog ArtifactWorld B) S T :
  effect F m S → (∀ a, effect (S a) (k a) T) → effect F (bind m k) T.
Proof. apply task_bind. Qed.
Lemma effect_ret {A} F (a : A) S : (∀ l, F l → S a l) → effect F (ret a) S.
Proof. intros H. apply task_ret. auto. Qed.
Lemma effect_raise {A} F c m (S : A → list ArtifactEvent → Prop) : (∀ l, F l → fine l) → effect F (raise c m) S.
Proof. intros H. apply task_raise. auto. Qed.
Lemma effect_weaken {A} (F F' : list ArtifactEvent → Prop) (m : prog ArtifactWorld A) (S S' : A → list ArtifactEvent → Prop) :
  effect F' m S' → (∀ l, F l → F' l) → (∀ a l, S' a l → S a l) → effect F m S.
Proof.
  intros H H1 H2. apply (task_weaken _ (λ w, F' (aw_log w)) _ _ (λ a w, S' a (aw_log w)) _ (λ w, fine (aw_log w))); [exact H|auto..].
Qed.
Lemma effect_gets {A} F (f : nat → ArtifactWorld → A) : effect F (gets f) (λ _, F).
Proof. by apply task_gets. Qed.
Lemma effect_lift {A} F (r : res A) : (∀ l, F l → fine l) → effect F (lift r) (λ _, F).
Proof. intros H. apply task_lift; auto. Qed.
Lemma effect_exists {A B} (F : B → list ArtifactEvent → Prop) (m : prog ArtifactWorld A) S :
  (∀ b, effect (F b) m S) → effect (λ l, ∃ b, F b l) m S.
Proof. intros H. apply (task_exists (λ b w, F b (aw_log w))). exact H. Qed.
Lemma effect_given {A} (F : list ArtifactEvent → Prop) (Q : Prop) (m : prog ArtifactWorld A) S :
  (Q → effect F m S) → effect (λ l, F l ∧ Q) m S.
Proof. intros H. apply (task_given (λ w, F (aw_log w)) Q). exact H. Qed.
Lemma effect_catch {A} F (m : prog ArtifactWorld A) h S :
  effect F m S → (∀ c e, match h c e with Some k => effect fine k S | None => True end) → effect F (catch m h) S.
Proof.
  intros Hm Hh. apply (task_catch _ _ _ _ _ (λ w, fine (aw_log w))); [exact Hm| |done]. intros c e. specialize (Hh c e). by destruct (h c e).
Qed.
Lemma effect_finally {A} F (m : prog ArtifactWorld A) S :
  effect F m S → effect F (finally m (catch_cancel (query sa (λ _ _, tt) (λ _, [])) (ret tt))) S.
Proof.
  intros Hm t Ht. specialize (Hm t Ht). unfold finally. destruct (m t) as [t' o].
  assert (∃ t'', catch_cancel (query sa (λ _ _, tt) (λ _, [])) (ret tt) t' = (t'', Ret tt) ∧ aw_log (th_world t'') = aw_log (th_world t'))
    as (t'' & -> & Hl).
  { unfold catch_cancel, query, on_tables, await. destruct (sc_cancelled _ _); eexists; (split; [reflexivity|]); cbn; by rewrite ?app_nil_r. }
  destruct o; by rewrite Hl.
Qed.

(** An await: its events are allowed. *)
Lemma effect_on_tables {A} (F : list ArtifactEvent → Prop) pre (op : nat → ArtifactTables → ArtifactTables * res A) event :
  (∀ l, F l → fine l) → (∀ l, F l → may_go_on may_follow_artifact l pre) →
  (∀ n t a l, (op n t).2 = Ok a → F l → may_go_on may_follow_artifact (l ++ pre) (event n t a)) →
  effect F (on_tables sa pre op event)
    (λ a l, ∃ n t, (op n t).2 = Ok a ∧ ∃ l0, F l0 ∧ l = l0 ++ pre ++ event n t a ∧ fine l).
Proof.
  intros Hfine Hpre Hev. unfold effect, on_tables. apply task_await.
  - intros n w Hw. exact Hw.
  - auto.
  - intros n w Hw. specialize (Hev n (aw_tables w)). destruct (op n (aw_tables w)) as [t [a|c m]] eqn:E; cbn [aw_log snd] in *.
    + exists n, (aw_tables w). rewrite E. split; [done|]. eexists. split; [exact Hw|]. split; [done|].
      apply allowed_app; [by apply Hfine|]. apply may_go_on_app. split; [by apply Hpre|by apply Hev].
    + apply allowed_app; [by apply Hfine|by apply Hpre].
Qed.
(** An await from a log with a known end. *)
Lemma effect_tail {A} tail pre (op : nat → ArtifactTables → ArtifactTables * res A) event :
  (∀ l, tail_is tail l → may_go_on may_follow_artifact l pre) →
  (∀ n t a l, (op n t).2 = Ok a → tail_is tail l → may_go_on may_follow_artifact (l ++ pre) (event n t a)) →
  effect (tail_is tail) (on_tables sa pre op event)
    (λ a l, ∃ n t, tail_is (tail ++ pre ++ event n t a) l ∧ (op n t).2 = Ok a).
Proof.
  intros Hpre Hev. eapply effect_weaken; [apply (effect_on_tables (tail_is tail)); [by intros l [? _]|done|done]|done|].
  intros a l (n & t & Ho & l0 & [H1 H2] & -> & Hl). exists n, t. split; [|done]. split; [done|]. by apply ends_in_app.
Qed.
(** An event that is always allowed. *)
Definition unconstrained (e : ArtifactEvent) : Prop := ∀ l, may_follow_artifact l e.
Lemma effect_free {A} F pre (op : nat → ArtifactTables → ArtifactTables * res A) event :
  (∀ l, F l → fine l) → Forall unconstrained pre → (∀ n t a, Forall unconstrained (event n t a)) →
  effect F (on_tables sa pre op event) (λ _, fine).
Proof.
  intros HF Hpre Hev. assert (∀ l es, Forall unconstrained es → may_go_on may_follow_artifact l es) as Hgo.
  { intros l es Hes. revert l. induction Hes as [|e es He _ IH]; intros l; [done|]. split; [apply He|apply IH]. }
  eapply effect_weaken; [apply (effect_on_tables F); auto|done|]. by intros a l (n & t & _ & l0 & _ & _ & Hl).
Qed.
End order.

(** ** Statements that hand out a claim *)

Lemma update_one_some k c f t r' :
  (update_one k c f t).2 = Some r' → ∃ r, at_rows t !! k = Some r ∧ c r = true ∧ r' = f r.
Proof.
  unfold update_one. destruct (at_rows t !! k) as [r|]; [|done]. destruct (c r) eqn:E; [|done]. intros [= <-]. by exists r.
Qed.
Lemma updated_true {t t' : ArtifactTables} {r : option ArtifactRow} : (updated (t, r)).2 = true → is_Some r.
Proof. destruct r; by eauto. Qed.
Lemma updated_row k c f t : (updated (update_one k c f t)).2 = true → ∃ r, at_rows t !! k = Some r ∧ c r = true.
Proof.
  cbn [updated snd]. destruct (update_one k c f t).2 as [r'|] eqn:E; [|done]. intros _.
  apply update_one_some in E as (r & Hr & Hc & _). by exists r.
Qed.
Lemma returned_row k c f t q :
  (returned (update_one k c f t)).2 = Some q → ∃ r, at_rows t !! k = Some r ∧ c r = true ∧ q = pending_of (f r).
Proof.
  cbn [returned snd]. destruct (update_one k c f t).2 as [r'|] eqn:E; [|done]. intros [= <-].
  apply update_one_some in E as (r & Hr & Hc & ->). by exists r.
Qed.

Section effects.
Context (sa : ArtifactServices).
Notation fine := (fine sa).
Notation tail_is := (tail_is sa).
Notation effect := (effect sa).
Notation unconstrained := (unconstrained sa).
Notation "x <- m ;; k" := (bind m (λ x, k)) (at level 100, m at next level, right associativity).

Lemma tail_fine tail l : tail_is tail l → fine l.
Proof. by intros [? _]. Qed.
Lemma fine_tail l : fine l → tail_is [] l.
Proof. intros H. split; [done|]. exists l. by rewrite app_nil_r. Qed.
Hint Resolve tail_fine : core.

Lemma effect_step {A} tail (op : nat → ArtifactTables → ArtifactTables * res A) event :
  (∀ n t a, (op n t).2 = Ok a → Forall unconstrained (event n t a)) →
  effect (tail_is tail) (on_tables sa [] op event) (λ a l, ∃ n t, tail_is (tail ++ event n t a) l ∧ (op n t).2 = Ok a).
Proof.
  intros Hev. eapply effect_weaken; [apply (effect_tail sa tail [])|done|done]; [done|].
  intros n t a l Ho _. specialize (Hev n t a Ho). revert l. induction Hev as [|e es He _ IH]; intros l; [done|]. split; [apply He|].
  specialize (IH (l ++ [e])). by rewrite app_nil_r in *.
Qed.
Lemma effect_statement {A} tail (op : nat → ArtifactTables → ArtifactTables * A) event :
  (∀ n t a, (op n t).2 = a → Forall unconstrained (event n t a)) →
  effect (tail_is tail) (statement sa op event) (λ a l, ∃ n t, tail_is (tail ++ event n t a) l ∧ (op n t).2 = a).
Proof.
  intros Hev. eapply effect_weaken; [apply (effect_step tail)|done|].
  - intros n t a. cbn. intros [= <-]. by apply Hev.
  - intros a l (n & t & Hl & Ho). injection Ho as Ho. by exists n, t.
Qed.
Lemma effect_silent {A} tail (op : nat → ArtifactTables → ArtifactTables * A) :
  effect (tail_is tail) (statement sa op (λ _ _ _, [])) (λ _, tail_is tail).
Proof.
  eapply effect_weaken; [apply effect_statement; by constructor|done|]. intros a l (n & t & Hl & _). by rewrite app_nil_r in Hl.
Qed.
Lemma effect_query {A} tail (op : nat → ArtifactTables → A) event :
  (∀ a, Forall unconstrained (event a)) → effect (tail_is tail) (query sa op event) (λ a, tail_is (tail ++ event a)).
Proof.
  intros Hev. eapply effect_weaken; [apply effect_step; intros; apply Hev|done|]. by intros a l (n & t & Hl & _).
Qed.
Lemma effect_ask {A} tail (op : nat → res A) event :
  (∀ a, Forall unconstrained (event a)) → effect (tail_is tail) (ask_outside sa [] op event) (λ a, tail_is (tail ++ event a)).
Proof.
  intros Hev. eapply effect_weaken; [apply effect_step; intros; apply Hev|done|]. by intros a l (n & t & Hl & _).
Qed.

(** ** Claims *)

Lemma effect_validate tail o p :
  effect (tail_is tail) (validate_claim sa o p) (λ b l, if b : bool then tail_is (tail ++ [EvValid o p]) l else fine l).
Proof.
  eapply effect_weaken; [apply effect_query|done|].
  - intros [|]; repeat constructor.
  - intros [|] l Hl; [done|by eapply tail_fine].
Qed.
Lemma effect_reconciliation F p o reason : (∀ l, F l → fine l) → effect F (record_reconciliation sa p o reason) (λ _, fine).
Proof.
  intros HF. apply effect_catch.
  - eapply effect_bind; [eapply effect_free; [done|constructor|]|intros b; by apply effect_ret].
    intros n t [|]; repeat constructor.
  - intros c e. by apply effect_ret.
Qed.
Lemma effect_assert tail p o b : effect (tail_is tail) (assert_claim sa p o b) (λ _, tail_is (tail ++ [EvValid o p])).
Proof.
  eapply effect_bind; [apply effect_gets|]. intros lost.
  eapply (effect_bind _ _ _ _ (λ owned l, if owned : bool then tail_is (tail ++ [EvValid o p]) l else fine l)).
  - destruct lost; [apply effect_ret; eauto|apply effect_validate].
  - intros [|]; [by apply effect_ret|]. eapply (effect_bind _ _ _ _ (λ _, fine)); [|intros []; by apply effect_raise].
    destruct b; [by apply effect_reconciliation|by apply effect_ret].
Qed.
Lemma effect_maintain {A} tail p o (body : prog ArtifactWorld A) S :
  effect (tail_is (tail ++ [EvValid o p])) body S → effect (tail_is tail) (maintain_claim sa p o body) S.
Proof.
  intros Hb. eapply effect_bind; [apply effect_validate|]. intros [|]; cbn [negb]; [|by apply effect_raise].
  eapply (effect_bind _ _ _ _ (λ _, tail_is (tail ++ [EvValid o p]))); [|intros []; by apply effect_finally].
  apply task_modify. intros w Hw. exact Hw.
Qed.
Lemma begun_row now p o t :
  (begin_object_side_effect now p o t).2 = true → may_follow_artifact sa [] (EvBegun o now t p).
Proof.
  intros H. apply updated_row in H as (r & Hr & Hc). destruct o; cbn; exists r; conditions; split_and!; try done.
  by destruct (ar_deleted_at r).
Qed.
Lemma effect_begin tail p o :
  effect (tail_is tail) (begin_object_effect sa p o) (λ _ l, ∃ x : Z * ArtifactTables, tail_is (tail ++ [EvBegun o x.1 x.2 p]) l).
Proof.
  eapply effect_bind; [apply effect_statement|].
  - intros n t b Hb. destruct b; constructor; [|constructor]. intros l. by destruct o; apply begun_row in Hb.
  - intros [|]; [apply effect_ret|apply effect_raise].
    + intros l (n & t & Hl & _). by exists (sa_now sa n, t).
    + intros l (n & t & Hl & _). by eapply tail_fine.
Qed.
End effects.

(** ** Finalizing *)

Section finalizing.
Context (sa : ArtifactServices).
Notation fine := (fine sa).
Notation tail_is := (tail_is sa).
Notation effect := (effect sa).
Hint Resolve tail_fine : core.

(** A call whose exception is handled. *)
Lemma effect_call {A} tail pre (op : nat → res A) event h (S : A → list ArtifactEvent → Prop) :
  Forall (unconstrained sa) pre → (∀ a, Forall (unconstrained sa) (event a)) →
  (∀ a l, tail_is (tail ++ pre ++ event a) l → S a l) →
  (∀ c e, match h c e with Some k => effect (tail_is (tail ++ pre)) k S | None => True end) →
  effect (tail_is tail) (catch (ask_outside sa pre op event) h) S.
Proof.
  intros Hpre Hev HS Hh [n w] Ht. cbn [th_world] in Ht. unfold catch, ask_outside, on_tables, await. cbn [th_await th_world].
  assert (∀ l es, tail_is tail l → Forall (unconstrained sa) es → tail_is (tail ++ es) (l ++ es)) as Hgo.
  { intros l es [H1 H2] Hes. split; [|by apply ends_in_app]. apply allowed_app; [done|].
    clear H1 H2. revert l. induction Hes as [|e es He _ IH]; intros l; [done|]. split; [apply He|apply IH]. }
  destruct (sc_cancelled _ _); [by eapply tail_fine|]. cbn [fst snd].
  destruct (op n) as [a|c e]; cbn [of_res].
  - apply HS, Hgo; [done|]. by apply Forall_app_2.
  - specialize (Hh c e). destruct (h c e) as [k|]; [apply Hh|cbn; eapply tail_fine]; by apply Hgo.
Qed.

Lemma effect_quarantine {A} F p reason message (S : A → list ArtifactEvent → Prop) :
  (∀ l, F l → fine l) → effect F (quarantine sa p reason message) S.
Proof.
  intros HF. eapply (effect_bind _ _ _ _ (λ _, fine)); [|intros [|]; by apply effect_raise].
  eapply effect_free; [done|constructor|]. intros n t [|]; repeat constructor.
Qed.

Lemma effect_complete tail r p :
  needs_completion p = true →
  effect (tail_is tail) (complete_multipart sa r p) (λ _ l, ∃ events, tail_is (tail ++ events) l ∧ completion p events).
Proof.
  intros Hn. unfold complete_multipart.
  destruct (sa_multipart sa) as [multipart|]; [|apply effect_raise; eauto].
  destruct (pu_multipart_upload_id p) as [upload_id|]; [|apply effect_raise; eauto].
  destruct (negb _); [apply effect_raise; eauto|].
  eapply effect_bind; [apply effect_assert|]. intros [].
  eapply effect_bind; [apply effect_begin|]. intros []. apply effect_exists. intros x.
  set (t1 := (tail ++ [EvValid OpFinalize p]) ++ [EvBegun OpFinalize x.1 x.2 p]).
  eapply (effect_bind _ _ _ _ (λ _ l, ∃ found, tail_is (t1 ++ [EvComplete p] ++ found) l ∧ (found = [] ∨ found = [EvVerified p true]))).
  - apply effect_call; [by repeat constructor|by constructor|intros [] l Hl; exists []; by auto|].
    intros c e. destruct c; try done. destruct (sa_verifier sa) as [v|]; [|apply effect_raise; eauto].
    eapply effect_bind; [apply effect_ask; by repeat constructor|]. intros [|]; [apply effect_ret|apply effect_raise; eauto].
    intros l Hl. exists [EvVerified p true]. rewrite <- app_assoc in Hl. by auto.
  - intros []. apply effect_exists. intros found. apply effect_given. intros Hf.
    eapply effect_bind; [apply effect_assert|]. intros [].
    eapply effect_bind; [apply effect_statement; intros n t [|]; by repeat constructor|]. intros [|].
    + apply effect_ret. intros l (n & t & Hl & _).
      exists ([EvValid OpFinalize p; EvBegun OpFinalize x.1 x.2 p; EvComplete p] ++ found ++ [EvValid OpFinalize p; EvMultipartSaved p]).
      split; [|unfold completion; rewrite Hn; by eauto 6]. unfold t1 in Hl. by rewrite <- !app_assoc in Hl.
    + eapply effect_bind; [apply effect_reconciliation|intros []; by apply effect_raise]. intros l (n & t & Hl & _). eauto.
Qed.

Lemma effect_inspect tail v p :
  effect (tail_is tail) (inspect_object sa v p)
    (λ _, tail_is (tail ++ [EvValid OpFinalize p; EvInspected p "clean"; EvValid OpFinalize p])).
Proof.
  eapply effect_bind; [apply effect_assert|]. intros [].
  eapply effect_bind; [apply effect_ask; by repeat constructor|]. intros scan.
  eapply effect_bind; [apply effect_assert|]. intros []. destruct (str_in scan _); [apply effect_quarantine; eauto|].
  destruct (String.eqb scan "clean") eqn:E; cbn [negb]; [|apply effect_raise; eauto].
  apply String.eqb_eq in E as ->. apply effect_ret. intros l Hl. by rewrite <- !app_assoc in Hl.
Qed.

Lemma effect_scan tail scanner p :
  effect (tail_is tail) (scan_content sa scanner p)
    (λ _, tail_is (tail ++ [EvValid OpFinalize p; EvScanned p "clean"; EvValid OpFinalize p])).
Proof.
  eapply effect_bind; [apply effect_assert|]. intros []. eapply effect_bind; [apply effect_gets|]. intros url.
  eapply (effect_bind _ _ _ _ (λ s, tail_is ((tail ++ [EvValid OpFinalize p]) ++ [EvScanned p (sr_verdict s)]))).
  - apply effect_call; [constructor|by repeat constructor|done|]. intros c e. apply effect_quarantine. eauto.
  - intros s. eapply effect_bind; [apply effect_assert|]. intros [].
    destruct (String.eqb (sr_verdict s) "clean") eqn:E; [|apply effect_quarantine; eauto].
    apply String.eqb_eq in E. apply effect_ret. intros l Hl. rewrite E in Hl. by rewrite <- !app_assoc in Hl.
Qed.

Lemma effect_finalize_claimed now t r p :
  effect (tail_is [EvClaim ForFinalize now t p; EvValid OpFinalize p]) (finalize_claimed sa r p)
    (λ _ l, fine l ∧ ends_in l [EvMarkedReady p true]).
Proof.
  set (t0 := [EvClaim ForFinalize now t p; EvValid OpFinalize p]).
  eapply (effect_bind _ _ _ _ (λ _ l, ∃ c, tail_is (t0 ++ c) l ∧ completion p c)).
  { destruct (needs_completion p) eqn:En; [by apply effect_complete|]. apply effect_ret. intros l Hl. exists [].
    unfold completion. by rewrite En, app_nil_r. }
  intros []. apply effect_exists. intros c. apply effect_given. intros Hc.
  eapply (effect_bind _ _ _ _ (λ _ l, ∃ i, tail_is ((t0 ++ c) ++ i) l ∧ inspection sa p i)).
  { unfold inspection. destruct (sa_verifier sa) as [v|].
    - eapply effect_weaken; [apply effect_inspect|done|]. intros a l Hl. eexists. by split; [exact Hl|].
    - apply effect_ret. intros l Hl. exists []. by rewrite app_nil_r. }
  intros []. apply effect_exists. intros i. apply effect_given. intros Hi.
  eapply (effect_bind _ _ _ _ (λ _ l, ∃ s, tail_is (((t0 ++ c) ++ i) ++ s) l ∧ scanning sa p s)).
  { unfold scanning. destruct (sa_scanner sa) as [scanner|].
    - eapply effect_weaken; [apply effect_scan|done|]. intros a l Hl. eexists. by split; [exact Hl|].
    - apply effect_ret. intros l Hl. exists []. by rewrite app_nil_r. }
  intros []. apply effect_exists. intros s. apply effect_given. intros Hs.
  eapply effect_bind; [apply effect_assert|]. intros [].
  eapply (effect_bind _ _ _ _ (λ b l, fine l ∧ ends_in l [EvMarkedReady p b])).
  { eapply effect_weaken; [eapply (effect_tail sa _ [])|done|].
    - done.
    - intros n tb b l _ [_ Hl]. split; [|done]. rewrite app_nil_r. exists now, t, c, i, s.
      split; [|done]. by rewrite <- !app_assoc in Hl.
    - intros b l (n & tb & [Hl1 Hl2] & _). split; [done|]. by apply ends_in_suffix in Hl2. }
  intros [|]; [by apply effect_ret|].
  eapply effect_bind; [apply effect_reconciliation|intros []; by apply effect_raise]. by intros l [? _].
Qed.

Definition finalize_answer (r : FinalizeRequest) (a : payload) (l : list ArtifactEvent) : Prop :=
  fine l ∧ ∃ p, a = artifact_ref p (fr_version r) ∧ (ends_in l [EvMarkedReady p true] ∨ ends_in l [EvFoundReady p]).

Lemma effect_already r otherwise tail :
  effect (tail_is tail) otherwise (finalize_answer r) → effect (tail_is tail) (already_ready sa r otherwise) (finalize_answer r).
Proof.
  intros Ho. eapply effect_bind; [apply effect_query; intros [p|]; by repeat constructor|]. intros [p|].
  - destruct (_ && _); [apply effect_raise; eauto|]. apply effect_ret. intros l [H1 H2]. split; [done|]. exists p.
    split; [done|]. right. by apply ends_in_suffix in H2.
  - rewrite app_nil_r. exact Ho.
Qed.

Lemma effect_take tail p :
  effect (tail_is tail) (claim_finalize sa p)
    (λ o l, match o with Some q => ∃ x : Z * ArtifactTables, tail_is [EvClaim ForFinalize x.1 x.2 q] l | None => tail_is tail l end).
Proof.
  eapply effect_bind; [apply effect_silent|]. intros []. eapply effect_bind; [apply effect_gets|]. intros token.
  eapply effect_weaken; [apply effect_statement|done|].
  - intros n t [q|] Ho; [|by constructor]. constructor; [|constructor]. intros l.
    apply returned_row in Ho as (r & Hr & Hc & ->). exists (key_of_pending p), r. cbn. conditions.
    all: split; [done|]; split; [|done]; split; [by auto|]; split; [by apply is_null_spec|by apply is_free_spec].
  - intros [q|] l (n & t & [H1 H2] & _).
    + exists (sa_now sa n, t). split; [done|]. by apply ends_in_suffix in H2.
    + rewrite app_nil_r in H2. by split.
Qed.

Lemma effect_finalize r : effect (tail_is []) (finalize sa r) (finalize_answer r).
Proof.
  unfold finalize. destruct (negb _); [apply effect_raise; eauto|].
  eapply effect_bind; [apply effect_query; by constructor|]. intros [p|]; cbn [app].
  2:{ apply effect_already, effect_raise. eauto. }
  unfold finalize_pending. destruct (negb _); [apply effect_raise; eauto|]. destruct (_ && _); [apply effect_raise; eauto|].
  destruct (negb _); [apply effect_raise; eauto|]. eapply effect_bind; [apply effect_gets|]. intros now.
  destruct (_ <=? _); [apply effect_raise; eauto|]. destruct (_ || _); [apply effect_raise; eauto|].
  eapply effect_bind; [apply effect_take|]. intros [q|]; [|apply effect_already, effect_raise; eauto].
  apply effect_exists. intros [n t]. cbn [fst snd].
  eapply effect_bind; [apply effect_maintain, effect_finalize_claimed|]. intros []. apply effect_ret.
  intros l [H1 H2]. split; [done|]. by eauto.
Qed.
End finalizing.

Lemma fine_nil sa : fine sa [].
Proof. apply allowed_nil. Qed.

(** C17. A finalization writes ready only after its checks: whatever other replicas do between
    its awaits, it writes the ready status only after it has claimed the upload, completed a
    multipart upload and recorded the completion, been told by the object verifier that the
    object is clean, where one is configured, and by the content scanner that the content is
    clean, where one is configured, and validated its claim after each; and it answers ready only
    when that write took effect or the row was found ready.  Reconciliation may make a row ready
    without a scan: [reconciled_without_scan]. *)
Theorem ready_after_checks sa r n tables lost :
  let '(t, o) := finalize sa r (mkThread n (mkArtifactWorld tables lost [])) in
  let log := aw_log (th_world t) in
  (∀ l1 p done_ l2, log = l1 ++ EvMarkedReady p done_ :: l2 → ready_prelude sa p l1)
  ∧ ∀ a, o = Ret a → ∃ p, a = artifact_ref p (fr_version r)
      ∧ (ends_in log [EvMarkedReady p true] ∨ ends_in log [EvFoundReady p]).
Proof.
  pose proof (effect_finalize sa r (mkThread n (mkArtifactWorld tables lost [])) (fine_tail sa [] (fine_nil sa))) as H.
  destruct (finalize sa r _) as [t o]. cbn zeta. set (log := aw_log (th_world t)) in *.
  assert (fine sa log ∧ ∀ a, o = Ret a → finalize_answer sa r a log) as [Hf Ha].
  { destruct o as [a|c m|]; [split; [apply H|by intros a' [= <-]]|by split..]. }
  split; [|intros a Ho; apply (Ha a Ho)]. intros l1 p d l2 E. exact (Hf l1 _ l2 E).
Qed.

(** ** Removing objects *)

Section erasing.
Context (sa : ArtifactServices).
Notation fine := (fine sa).
Notation tail_is := (tail_is sa).
Notation effect := (effect sa).
Notation unconstrained := (unconstrained sa).
Hint Resolve tail_fine : core.









End erasing.

(** ** Deleting ready artifacts *)

Section deleting.
Context (sa : ArtifactServices).
Notation fine := (fine sa).
Notation tail_is := (tail_is sa).
Notation effect := (effect sa).
Hint Resolve tail_fine : core.






End deleting.



(** ** Concrete requests *)

Module ArtifactServiceExamples.
Import ArtifactStoreExamples.

Definition clean_objects : ObjectVerifier :=
  mkVerifier (λ _ _, Ok true) (λ _ _, Ok "clean") (λ _ _, Ok true) (λ _ _, Ok true).
Definition multipart_client : ObjectMultipart :=
  mkMultipart (λ _ _ _ _, Ok ("mp_1", ["u1"; "u2"])) (λ _ _ _ _, Ok tt) (λ _ _ _, Ok true).
Definition refusing_scanner : nat → PendingUpload → string → res ScanResult := λ _ _ _, Ok (mkScanResult "quarantined" (Some "malware_detected")).
Definition passing_scanner : nat → PendingUpload → string → res ScanResult := λ _ _ _, Ok (mkScanResult "clean" None).
Definition permitting : ArtifactPolicy :=
  mkArtifactPolicy (λ _ _ _ _ _, Ok true) (λ _ _ _ _ _ _ _, Ok (mkEvaluation AllowWithConstraints (Some "dec_1") "1" [("ttl_seconds", JInt 60)])).

(** A service alone with its tables; [clock] is the time of each await in seconds. *)
Definition service (clock : nat → Z) (scanner : nat → PendingUpload → string → res ScanResult) : ArtifactServices :=
  mkArtifactServices (λ _ t, t) (λ _ _, false) (λ _, false) (λ n, clock n * second) (λ n, clock n * second)
    (λ n i, pretty n +:+ "-" +:+ pretty i) (λ _ _, false) (λ _ m k _, (m +:+ " " +:+ k, 3600 * second)) (Some clean_objects)
    (Some multipart_client) (Some scanner) (Some permitting) 1000 500 (30 * second) 1 "i1".
Definition start_task (t : ArtifactTables) : Thread ArtifactWorld := mkThread 0 (mkArtifactWorld t false []).
Definition hands_context : ArtifactContext := mkArtifactContext "t1" IdActionHands "c1".

Definition upload_of (size : Z) : CreateUploadRequest :=
  mkCreateUpload hands_context "s1" "s1" "report.txt" "text/plain" size "ab" "internal" (Some (7200 * second)).
Definition created_upload (size : Z) : ArtifactTables * option ArtifactUploadResponse :=
  let r := create_upload (service (λ _, 0) passing_scanner) (upload_of size) (start_task no_artifacts) in
  (aw_tables (th_world r.1), match r.2 with Ret a => Some a | _ => None end).
Definition finalize_of (size : Z) (parts : list payload) : FinalizeRequest :=
  match (created_upload size).2 with
  | Some u => mkFinalize hands_context (ur_artifact_id u) 1 (ur_upload_id u) size "ab" parts
  | None => mkFinalize hands_context EmptyString 1 EmptyString size "ab" parts
  end.
Definition statuses (t : ArtifactTables) : list (ArtifactStatus * string) :=
  map (λ kr, (ar_status kr.2, ar_scan_status kr.2)) (map_to_list (at_rows t)).
Definition outcome_of {A} (r : Thread ArtifactWorld * outcome A) : list (ArtifactStatus * string) * bool :=
  (statuses (aw_tables (th_world r.1)), match r.2 with Ret _ => true | _ => false end).

Example uploads :
  (outcome_of (finalize (service (λ _, 10) passing_scanner) (finalize_of 4 []) (start_task (created_upload 4).1)),
   outcome_of (finalize (service (λ _, 10) refusing_scanner) (finalize_of 4 []) (start_task (created_upload 4).1)),
   outcome_of (finalize (service (λ _, 10) passing_scanner) (finalize_of 1000 [[]; []]) (start_task (created_upload 1000).1)),
   outcome_of (finalize (service (λ _, 10) passing_scanner) (finalize_of 1000 [[]]) (start_task (created_upload 1000).1)),
   outcome_of (finalize (service (λ _, 3600) passing_scanner) (finalize_of 4 []) (start_task (created_upload 4).1)))
  = (([(AReady, "clean")], true), ([(AQuarantined, "quarantined")], false), ([(AReady, "clean")], true),
     ([(AScanning, "scanning")], false), ([(APending, "pending")], false)).
Proof. vm_compute. done. Qed.

(** The claim expires while a multipart upload is completed, the row is left to reconciliation,
    and the reconciliation makes it ready on the inspection alone: the scanner, which would
    refuse the content, is never asked. *)
Definition losing_claim (n : nat) : Z := if (n <? 7)%nat then 10 else 50.
Definition abandoned_upload : ArtifactTables :=
  aw_tables (th_world (finalize (service losing_claim refusing_scanner) (finalize_of 1000 [[]; []]) (start_task (created_upload 1000).1)).1).
Example reconciled_without_scan :
  (statuses abandoned_upload, outcome_of (reconcile_unknown (service (λ _, 100) refusing_scanner) 1 (start_task abandoned_upload)),
   existsb (λ e, match e with EvScanned _ _ => true | _ => false end)
     (aw_log (th_world (reconcile_unknown (service (λ _, 100) refusing_scanner) 1 (start_task abandoned_upload)).1)))
  = ([(AReconciling, "scanning")], ([(AReady, "clean")], true), false).
Proof. vm_compute. done. Qed.

Definition ready_tables : ArtifactTables :=
  aw_tables (th_world (finalize (service (λ _, 10) passing_scanner) (finalize_of 4 []) (start_task (created_upload 4).1)).1).
Definition deletion : ArtifactDeleteRequest :=
  mkDelete hands_context (fr_artifact_id (finalize_of 4 [])) 1 "dec_1" "retention_expired" false.
Example retention_kept :
  (outcome_of (delete_artifact (service (λ _, 100) passing_scanner) deletion (start_task ready_tables)),
   outcome_of (delete_artifact (service (λ _, 7200) passing_scanner) deletion (start_task ready_tables)),
   outcome_of (cleanup_expired (service (λ _, 3600) passing_scanner) 5 (start_task (created_upload 4).1)))
  = (([(AReady, "clean")], false), ([(ADeleted, "clean")], true), ([(ADeleted, "pending")], true)).
Proof. vm_compute. done. Qed.

Definition share_of (ttl : Z) : ArtifactShareRequest :=
  mkShare (mkArtifactContext "t1" IdTaskApi "c1") (fr_artifact_id (finalize_of 4 [])) 1 "u1" "partner" ttl.
Example shares :
  (match (share (service (λ _, 20) passing_scanner) (share_of 300) (start_task ready_tables)).2 with Ret a => Some (hs_audience a) | _ => None end,
   match (share (service (λ _, 20) passing_scanner) (share_of 50) (start_task ready_tables)).2 with Ret a => Some (hs_audience a) | _ => None end)
  = (Some "partner", None).
Proof. vm_compute. done. Qed.

End ArtifactServiceExamples.
